(* ===== verification/_CoqProject ===== *)
-Q . S2P
Prelude.v
State.v
Pmm.v
PmmArch.v
Pte.v
VmCow.v
Bytes.v
Links.v
Storage.v
Bio.v
Log.v
Journal.v
Xv6fs.v
Xv6dir.v
Xv6vfs.v
FsState.v
FsTree.v
FsMap.v
FsFile.v
FsTrunc.v
FsInode.v
FsDir.v
FsPath.v
FsExample.v
FsTheorems.v
Task.v
Runq.v
Sched.v
Switch.v
SchedOps.v
SchedLife.v
SchedSteps.v
SchedTheorems.v
Wait.v
WaitLists.v
SleepLock.v
BottomHalf.v
Vmm.v
PtWalk.v
PtInv.v
PtGrow.v
PtMap.v
Mmap.v
PtOps.v
PtSpace.v
PtCopy.v
PtMask.v
PtClone.v
PtFree.v
PtDestroy.v
MmapOk.v
MmapCalls.v
MmapTheorems.v
PtFault.v
MremapOk.v
VmSpec.v
VmSystem.v
VmRefine.v
VmStore.v
VmExample.v
VmTheorems.v
Elf.v
PtBytes.v
ElfOk.v
Exec.v
ExecStack.v
ExecStart.v
ExecRead.v
PmmRuns.v
ExecArgs.v
ExecWork.v
ExecSpace.v
ExecOk.v
ExecExample.v
ExecTheorems.v
Pipe.v
PipeRun.v
Fd.v
FdOk.v
FdTheorems.v
