(* ===== verification/Prelude.v ===== *)
(** * A verification of the Orthox-64 kernel

    Orthox-64 is a small Unix-like kernel in C for x86_64, aarch64 and
    riscv64, with a Linux-compatible system call interface.  This library
    models the parts of it that keep state of their own and that the rest
    relies on: physical and virtual memory, program start, the storage
    stack from block devices to paths, the scheduler with what waits on it,
    and descriptors with pipes behind them.  Paths below are relative to
    src/.

    ** How the parts depend on each other

    The page allocator owns physical memory.  The page tables and the
    copy-on-write layer take pages from it and count their owners; the
    memory calls and the page fault handler work on the tables; exec takes
    pages for buffers, loads a file into a new address space and writes its
    first stack.  The file system writes only through the journal, the
    journal through the buffer cache, the cache through the table of block
    devices.  Its inode locks are sleep locks, which are built from wait
    queues and the scheduler.  Pipes put tasks to sleep in slots of their
    own; file objects and pipes are pages of the allocator, counted by the
    descriptors of the processes.

    ** How code is represented

    A C integer is a [Z] in the range of its type, with the wrap-around of
    unsigned arithmetic written out ([u8] to [u64], [s16], [s32] below); a
    pointer is an address, 0 is null.  Physical memory is a function from
    addresses to bytes or words; structures that the code links by pointers
    keep their links, and lemmas relate them to lists.  Code that changes
    state is a computation [ST S A] (State.v) that returns a value and a new
    state or stops: a failing KASSERT, a wait for oneself and an access
    outside an array are different outcomes, so a theorem that says [m s =
    Ok (a, s')] also says that none of them happens.  [wp E m Q s] is total
    correctness up to the outcomes [E] allows.  An operation the code runs
    under one spin lock with interrupts off is one step; what happens between
    such steps on several CPUs is a step relation.

    ** Files

    - Prelude.v: machine integers, arrays, bitmaps, counting, and the
      tactics and hints the others use.  State.v: computations and [wp].
      Bytes.v: buffers, little-endian fields, C strings.  Links.v: doubly
      linked lists and hash chains as the code threads them.
    - Pmm.v: kernel/pmm_core.c, whole; state [pmm] is the bitmap, the
      reference counts and the search origin.  PmmArch.v: the [pmm_init] of
      kernel/x86_64/pmm.c, kernel/aarch64/pmm.c and kernel/riscv64/pmm.c.
      PmmRuns.v: runs of pages by address.
    - Pte.v: page table entries of the three architectures as instances of
      one class with the laws the shared code needs.  VmCow.v:
      kernel/vm_cow.c over that class and over a class of page table walks.
    - Vmm.v: kernel/x86_64/vmm.c and include/x86_64/vm.h, the four-level
      trees in memory and the page fault handler.  PtWalk.v, PtInv.v (the
      invariant [pt_inv] of a set of trees), PtGrow.v, PtMap.v, PtOps.v,
      PtSpace.v, PtCopy.v, PtMask.v, PtClone.v, PtFree.v, PtDestroy.v,
      PtFault.v and PtBytes.v: what each operation does to the trees.
    - Mmap.v: kernel/sys_mmap.c.  MmapOk.v, MmapCalls.v, MmapTheorems.v,
      MremapOk.v: its calls.  VmSpec.v: the abstract machine, in which every
      process has private pages.  VmSystem.v: all processes and their
      requests as one system.  VmRefine.v, VmStore.v,
      VmExample.v, VmTheorems.v: that the system carries out the abstract
      machine.
    - Elf.v: kernel/elf.c.  ElfOk.v: what the loader leaves in memory.
      Exec.v: kernel/task_exec.c.  ExecStack.v, ExecStart.v, ExecRead.v: the
      first stack, and a reader of it.  ExecArgs.v: the strings of the
      caller and [#!] lines.  ExecWork.v (growth of the stack included),
      ExecSpace.v, ExecOk.v: the call as a whole.  ExecExample.v,
      ExecTheorems.v: a machine that starts a program, and the theorems.
    - Storage.v: kernel/storage.c.  Bio.v: kernel/xv6bio.c at the level of
      its pointers.  Log.v: kernel/xv6log.c.  Journal.v: operations,
      crashes and reboots over it.
    - Xv6fs.v (blocks, inodes, file contents), Xv6dir.v (directories,
      paths), Xv6vfs.v (the calls): kernel/xv6fs.c, whole.  FsState.v,
      FsTree.v, FsMap.v, FsFile.v, FsTrunc.v, FsInode.v, FsDir.v, FsPath.v:
      its functions one by one, and what a state of the file system is.
      FsExample.v, FsTheorems.v: the theorems on whole states, and runs of
      calls.
    - Task.v: tasks and run queues of kernel/task.c and
      kernel/task_fork.c, [schedule] of kernel/sched.c.  Runq.v, Sched.v
      (the invariant), Switch.v, SchedOps.v, SchedLife.v, SchedSteps.v (the
      transition system), SchedTheorems.v.
    - Wait.v, WaitLists.v: kernel/wait.c.  SleepLock.v: the sleep locks of
      kernel/xv6fs.c among all other activity.  BottomHalf.v:
      kernel/bottom_half.c.
    - Pipe.v: the pipe of include/fs.h and the passes of [fs_read],
      [fs_write] and the release of an end in kernel/fs.c.  PipeRun.v: tasks
      that use one pipe among all other activity.  Fd.v: file objects,
      descriptor tables and their calls in kernel/fs.c and kernel/sys_fs.c,
      and the loops over a table in fork, exec and exit.  FdOk.v,
      FdTheorems.v: their counts.

    ** What is shown

    - Pages: an allocation succeeds exactly when a run of free pages exists
      and takes one; any sequence of calls carries out an abstract
      allocator; freeing undoes an allocation; after boot nothing that is
      not free memory can be handed out.
    - Virtual memory: any run of spawns, forks, exits, memory calls and
      stores with their faults shows each process what a machine with
      private pages shows it.  Every page in use has one purpose and is
      counted once per mapping, and all pages come back when the processes
      are gone.  Requests return when memory suffices.  A store after
      mprotect may fault for ever, which is a flaw of the code.
    - Exec: the call returns the error its arguments and files lead to, or
      puts the task into a space with exactly the segments of the program and
      its interpreter and a stack from which the System V start code reads
      its arguments; nobody else sees a change and no page is lost, except
      when the interpreter is missing, where the new space is lost.
    - Storage: the cache cannot be seen; the journal never overflows and is
      atomic under crashes at any command, torn sectors included; reads,
      writes, truncation, directories and path resolution do what they
      should to the one file concerned and to no other.
    - Scheduling: in every state reachable from boot no task runs on two
      CPUs, no ready task is lost, a ready task runs after those before it,
      and a task is reaped only when no CPU uses it.  Sleep locks exclude
      and lose no wakeup.  Deferred calls are made once and in order.
    - Pipes and descriptors: while no more tasks use a pipe than its slots
      hold, its bytes come out in order and nobody sleeps for ever.  Every
      file object is counted by exactly the descriptors that refer to it, a
      pipe sees the end of file when and only when no process can write to
      it, no assertion of the descriptor layer fails, and all pages come
      back.  The calls of different processes are taken one at a time; the
      code does not lock the counts, which is reported as a flaw.
    - Flaws that modelling showed are proved as theorems where they are
      behaviour of the model: [mprotect_store_hangs],
      [execve_missing_interpreter_leaks], [rmdir_removes_nonempty],
      [kill_lost], [killed_waiter_stays], [storage_range_check_wraps],
      [truncate_wraps], [fifth_reader_forgotten], [small_write_split].

    ** Bounds and fuel

    Constants are the code's.  Recursion that is not structural has a bound
    computed from the arguments, and the theorems show that it is never used
    up: pages of a segment or of a stack ([touched], the distance to the
    bottom), entries of a table (512), the blocks of a request, the length
    of a path and the 16 symbolic links [namex] follows.  [resolve_script]
    takes the 4 [#!] lines the code allows.  Where a theorem asks for free
    pages it asks for four for each page mapped, the page and at most three
    tables; exec asks in addition for the runs of its two buffers.  Loops
    that wait are given by one pass, and their ends by the step relation.

    ** Not modelled

    - The rest of the descriptor layer (kernel/fs.c, kernel/vfs.c): opening,
      naming and reading files, sockets and devices, named pipes, [ppoll]
      and the mount table, and the copy of it for riscv64.  Descriptors of
      consoles and pipes only are made in the model.  What mmap and exec ask
      of the layer is an interface: [FileMap] for mmap and [ExecEnv] for exec,
      which gives the contents of a file; the pages lent for them are not
      counted.
    - The system call tables and the checks of arguments in kernel/sys_*.c
      other than sys_mmap.c.  A pointer into the kernel half, which exec does
      not refuse, stops the model.
    - Page tables of aarch64 and riscv64 beyond their entries, and the
      riscv64 loader: the walks have the shape of the x86_64 ones over other
      formats.  The shared code is modelled over the interface, exec and
      mmap over x86_64.
    - The network stack (over lwIP), USB, disk, display, sound and bus
      drivers, interrupt controllers and timers: hardware or third-party
      code decides their steps.  Disk transfers are partial functions of the
      driver, the time is an argument.
    - Register saving in assembly, the registers of a return to user mode
      and the floating-point state: a context switch is the change of the
      current task.
    - File system calls run one at a time; the interleaving of journal
      operations, of the scheduler and of sleep locks is modelled.
    - Caches of the processor other than the translation cache; messages,
      statistics and trace counters. *)
From Stdlib Require Export ZArith Lia.
From stdpp Require Export base numbers strings sets gmap list.

#[global] Open Scope Z_scope.
Set Default Proof Using "Type".

(** ** Machine integers

    A C integer is a [Z] in the range of its type; the wrap-around of an
    unsigned operation is written out with [u8], [u16], [u32] and [u64], and
    a conversion to a signed type with [s16] and [s32]. *)

Definition u8 (z : Z) : Z := z mod 2 ^ 8.
Definition u16 (z : Z) : Z := z mod 2 ^ 16.
Definition u32 (z : Z) : Z := z mod 2 ^ 32.
Definition u64 (z : Z) : Z := z mod 2 ^ 64.
Definition s16 (z : Z) : Z := (z + 2 ^ 15) mod 2 ^ 16 - 2 ^ 15.
Definition s32 (z : Z) : Z := (z + 2 ^ 31) mod 2 ^ 32 - 2 ^ 31.
Definition s64 (z : Z) : Z := (z + 2 ^ 63) mod 2 ^ 64 - 2 ^ 63.

Create Rewrite HintDb word.
Create Rewrite HintDb zlist.

Lemma u8_small z : 0 <= z < 2 ^ 8 -> u8 z = z.
Proof. apply Z.mod_small. Qed.
Lemma u16_small z : 0 <= z < 2 ^ 16 -> u16 z = z.
Proof. apply Z.mod_small. Qed.
Lemma u32_small z : 0 <= z < 2 ^ 32 -> u32 z = z.
Proof. apply Z.mod_small. Qed.
Lemma u64_small z : 0 <= z < 2 ^ 64 -> u64 z = z.
Proof. apply Z.mod_small. Qed.
Lemma s32_small z : - 2 ^ 31 <= z < 2 ^ 31 -> s32 z = z.
Proof. intros. unfold s32. rewrite Z.mod_small; lia. Qed.
Lemma s16_small z : - 2 ^ 15 <= z < 2 ^ 15 -> s16 z = z.
Proof. intros. unfold s16. rewrite Z.mod_small; lia. Qed.

Lemma u8_range z : 0 <= u8 z < 2 ^ 8.
Proof. unfold u8. apply Z.mod_pos_bound. lia. Qed.
Lemma u16_range z : 0 <= u16 z < 2 ^ 16.
Proof. unfold u16. apply Z.mod_pos_bound. lia. Qed.
Lemma u32_range z : 0 <= u32 z < 2 ^ 32.
Proof. unfold u32. apply Z.mod_pos_bound. lia. Qed.
Lemma u64_range z : 0 <= u64 z < 2 ^ 64.
Proof. unfold u64. apply Z.mod_pos_bound. lia. Qed.

#[export] Hint Rewrite u8_small u16_small u32_small u64_small s32_small s16_small
  using lia : word.

(** [words] removes every wrap-around whose argument is in range. *)
Ltac words := autorewrite with word in *.

(** ** Arrays

    An array of the source is a list; [zget]/[zset] index it with a C
    integer.  Outside the array C has undefined behaviour: the model reads
    the default element and ignores the write, and the theorems establish
    that the indices used are in range. *)

Section zlist.
Context {A : Type} `{Inhabited A}.
Implicit Types (l : list A) (i j : Z).

Definition zlen l : Z := Z.of_nat (length l).
Definition zget l i : A := l !!! Z.to_nat i.
Definition zset l i (x : A) : list A := <[Z.to_nat i := x]> l.

Lemma zlen_zset l i x : zlen (zset l i x) = zlen l.
Proof. unfold zlen, zset. by rewrite length_insert. Qed.

Lemma zget_zset_eq l i x : 0 <= i < zlen l -> zget (zset l i x) i = x.
Proof.
  intros Hi. unfold zget, zset, zlen in *.
  apply list_lookup_total_correct, list_lookup_insert_eq. lia.
Qed.

Lemma zget_zset_ne l i j x :
  0 <= i -> 0 <= j -> i <> j -> zget (zset l i x) j = zget l j.
Proof.
  intros Hi Hj Hij. unfold zget, zset.
  rewrite !list_lookup_total_alt, list_lookup_insert_ne; [done|lia].
Qed.

Lemma zget_zset l i j x :
  0 <= i < zlen l -> 0 <= j -> zget (zset l i x) j = if decide (i = j) then x else zget l j.
Proof.
  intros Hi Hj. case_decide as Hij.
  - subst. by apply zget_zset_eq.
  - apply zget_zset_ne; lia.
Qed.

Lemma zset_zget l i : 0 <= i < zlen l -> zset l i (zget l i) = l.
Proof.
  intros Hi. unfold zset, zget, zlen in *.
  apply list_insert_id, list_lookup_lookup_total_lt. lia.
Qed.

Lemma zget_replicate n (x : A) i : 0 <= i < Z.of_nat n -> zget (replicate n x) i = x.
Proof.
  intros Hi. unfold zget. apply list_lookup_total_correct, lookup_replicate. split; [done|lia].
Qed.

Lemma zlist_ext l1 l2 :
  zlen l1 = zlen l2 -> (forall i, 0 <= i < zlen l1 -> zget l1 i = zget l2 i) -> l1 = l2.
Proof.
  unfold zlen, zget. intros Hlen Hget. apply list_eq_same_length with (length l2); [done|lia|].
  intros i x y Hi Hx Hy. specialize (Hget (Z.of_nat i)).
  rewrite Nat2Z.id in Hget. apply list_lookup_total_correct in Hx, Hy.
  rewrite <- Hx, <- Hy. apply Hget. lia.
Qed.

Lemma Forall_zget (P : A -> Prop) l i : Forall P l -> 0 <= i < zlen l -> P (zget l i).
Proof.
  intros HP Hi. unfold zget, zlen in *. eapply Forall_lookup_1; [done|].
  apply list_lookup_lookup_total_lt. lia.
Qed.

Lemma Forall_zset (P : A -> Prop) l i x : Forall P l -> P x -> Forall P (zset l i x).
Proof. intros. unfold zset. by apply Forall_insert. Qed.
End zlist.

#[export] Hint Rewrite @zlen_zset : zlist.
#[export] Hint Resolve Forall_zset : core.

(** ** Bitmaps

    Both the page allocator and the file system keep one bit per object in an
    array of bytes, bit [p mod 8] of byte [p / 8].  [bm_test], [bm_set] and
    [bm_clear] are the C expressions; the lemmas turn them into statements
    about a function from bit numbers to booleans. *)

Definition byte_ok (b : Z) : Prop := 0 <= b < 2 ^ 8.

Definition bm_test (bm : list Z) (p : Z) : bool :=
  negb (Z.land (Z.shiftr (zget bm (p / 8)) (p mod 8)) 1 =? 0).
Definition bm_set (bm : list Z) (p : Z) : list Z :=
  zset bm (p / 8) (Z.lor (zget bm (p / 8)) (u8 (Z.shiftl 1 (p mod 8)))).
Definition bm_clear (bm : list Z) (p : Z) : list Z :=
  zset bm (p / 8) (Z.land (zget bm (p / 8)) (u8 (Z.lnot (Z.shiftl 1 (p mod 8))))).

Lemma shiftl1_testbit k j : 0 <= k -> 0 <= j -> Z.testbit (Z.shiftl 1 k) j = (j =? k).
Proof.
  intros. rewrite Z.shiftl_1_l. destruct (Z.eqb_spec j k) as [->|Hne].
  - by apply Z.pow2_bits_true.
  - by apply Z.pow2_bits_false.
Qed.

Lemma u8_testbit z j : 0 <= j < 8 -> Z.testbit (u8 z) j = Z.testbit z j.
Proof. intros. unfold u8. apply Z.mod_pow2_bits_low. lia. Qed.

Lemma mod8_range p : 0 <= p mod 8 < 8.
Proof. apply Z.mod_pos_bound. lia. Qed.

Lemma div_mod8_inj p q : p / 8 = q / 8 -> p mod 8 = q mod 8 -> p = q.
Proof. intros. rewrite (Z.div_mod p 8), (Z.div_mod q 8) by lia. lia. Qed.

Lemma land1_testbit z : negb (Z.land z 1 =? 0) = Z.testbit z 0.
Proof.
  change 1 with (Z.ones 1). rewrite Z.land_ones by lia. change (2 ^ 1) with 2.
  rewrite Zmod_odd, Z.bit0_odd.
  by destruct (Z.odd z).
Qed.

Lemma bm_test_testbit bm p : bm_test bm p = Z.testbit (zget bm (p / 8)) (p mod 8).
Proof.
  unfold bm_test. rewrite land1_testbit, Z.shiftr_spec by lia. f_equal.
Qed.

Lemma zlen_bm_set bm p : zlen (bm_set bm p) = zlen bm.
Proof. apply zlen_zset. Qed.
Lemma zlen_bm_clear bm p : zlen (bm_clear bm p) = zlen bm.
Proof. apply zlen_zset. Qed.
#[export] Hint Rewrite zlen_bm_set zlen_bm_clear : zlist.

Section bitmap.
Variables (bm : list Z) (p : Z).
Hypothesis (Hp : 0 <= p < 8 * zlen bm).

Lemma bit_byte_range : 0 <= p / 8 < zlen bm.
Proof using Hp. split; [apply Z.div_pos; lia|apply Z.div_lt_upper_bound; lia]. Qed.

Lemma bm_test_set q : 0 <= q -> bm_test (bm_set bm p) q = (q =? p) || bm_test bm q.
Proof using Hp.
  intros Hq. rewrite !bm_test_testbit. unfold bm_set.
  pose proof bit_byte_range. pose proof (mod8_range p). pose proof (mod8_range q).
  rewrite zget_zset by (try apply Z.div_pos; lia). case_decide as Heq.
  - rewrite Z.lor_spec, u8_testbit, shiftl1_testbit, Heq by lia. rewrite orb_comm. f_equal.
    destruct (Z.eqb_spec q p) as [->|Hne]; [by rewrite Z.eqb_refl|].
    apply Z.eqb_neq. intros ?. apply Hne. by apply div_mod8_inj.
  - destruct (Z.eqb_spec q p); [congruence|done].
Qed.

Lemma bm_test_clear q : 0 <= q -> bm_test (bm_clear bm p) q = negb (q =? p) && bm_test bm q.
Proof using Hp.
  intros Hq. rewrite !bm_test_testbit. unfold bm_clear.
  pose proof bit_byte_range. pose proof (mod8_range p). pose proof (mod8_range q).
  rewrite zget_zset by (try apply Z.div_pos; lia). case_decide as Heq.
  - rewrite Z.land_spec, u8_testbit, Z.lnot_spec, shiftl1_testbit, Heq by lia.
    rewrite andb_comm. f_equal. f_equal.
    destruct (Z.eqb_spec q p) as [->|Hne]; [by rewrite Z.eqb_refl|].
    apply Z.eqb_neq. intros ?. apply Hne. by apply div_mod8_inj.
  - destruct (Z.eqb_spec q p); [congruence|done].
Qed.
End bitmap.

Lemma lor_byte_ok a b : byte_ok a -> byte_ok b -> byte_ok (Z.lor a b).
Proof.
  unfold byte_ok. intros Ha Hb. split; [apply Z.lor_nonneg; lia|].
  destruct (Z.eq_dec (Z.lor a b) 0) as [->|Hne]; [lia|].
  assert (0 <= Z.lor a b) by (apply Z.lor_nonneg; lia).
  apply Z.log2_lt_pow2; [lia|]. rewrite Z.log2_lor by lia.
  apply Z.max_lub_lt.
  - destruct (Z.eq_dec a 0) as [->|]; [done|apply Z.log2_lt_pow2; lia].
  - destruct (Z.eq_dec b 0) as [->|]; [done|apply Z.log2_lt_pow2; lia].
Qed.

Lemma land_byte_ok a b : byte_ok a -> 0 <= b -> byte_ok (Z.land a b).
Proof.
  unfold byte_ok. intros Ha Hb. split; [apply Z.land_nonneg; lia|].
  destruct (Z.eq_dec (Z.land a b) 0) as [->|Hne]; [lia|].
  assert (0 <= Z.land a b) by (apply Z.land_nonneg; lia).
  apply Z.log2_lt_pow2; [lia|]. eapply Z.le_lt_trans; [apply Z.log2_land; lia|].
  eapply Z.le_lt_trans; [apply Z.le_min_l|].
  destruct (Z.eq_dec a 0) as [->|]; [done|apply Z.log2_lt_pow2; lia].
Qed.

Lemma bm_set_bytes bm p :
  0 <= p < 8 * zlen bm -> Forall byte_ok bm -> Forall byte_ok (bm_set bm p).
Proof.
  intros Hp Hbm. apply Forall_zset; [done|].
  apply lor_byte_ok; [|apply u8_range]. by apply Forall_zget, bit_byte_range.
Qed.

Lemma bm_clear_bytes bm p :
  0 <= p < 8 * zlen bm -> Forall byte_ok bm -> Forall byte_ok (bm_clear bm p).
Proof.
  intros Hp Hbm. apply Forall_zset; [done|].
  apply land_byte_ok; [|apply u8_range]. by apply Forall_zget, bit_byte_range.
Qed.

(** ** Counting

    [popcnt f n] is the number of [p] with [0 <= p < n] and [f p]. *)

Fixpoint popcnt (f : Z -> bool) (n : nat) : Z :=
  match n with
  | O => 0
  | S k => popcnt f k + (if f (Z.of_nat k) then 1 else 0)
  end.

Lemma popcnt_ext f g n :
  (forall p, 0 <= p < Z.of_nat n -> f p = g p) -> popcnt f n = popcnt g n.
Proof.
  induction n as [|n IH]; intros Hfg; [done|]. simpl.
  rewrite (Hfg (Z.of_nat n)), IH by (intros; try apply Hfg; lia). done.
Qed.

Lemma popcnt_bound f n : 0 <= popcnt f n <= Z.of_nat n.
Proof. induction n as [|n IH]; simpl; [lia|]. destruct (f _); lia. Qed.

Lemma popcnt_const_true n : popcnt (fun _ => true) n = Z.of_nat n.
Proof. induction n as [|n IH]; simpl; lia. Qed.

(** Changing one bit below the bound moves the count by the difference. *)
Lemma popcnt_update f g n p :
  0 <= p < Z.of_nat n -> (forall q, 0 <= q < Z.of_nat n -> q <> p -> f q = g q) ->
  popcnt f n = popcnt g n + (if f p then 1 else 0) - (if g p then 1 else 0).
Proof.
  revert p. induction n as [|n IH]; intros p Hp Hfg; [lia|]. simpl.
  destruct (decide (p = Z.of_nat n)) as [->|Hne].
  - rewrite (popcnt_ext f g n) by (intros; apply Hfg; lia). lia.
  - rewrite (IH p) by (intros; try apply Hfg; lia). rewrite (Hfg (Z.of_nat n)) by lia. lia.
Qed.

Lemma popcnt_lt f n p : 0 <= p < Z.of_nat n -> f p = false -> popcnt f n < Z.of_nat n.
Proof.
  intros Hp Hf. pose proof (popcnt_bound (fun q => (q =? p) || f q) n) as Hb.
  rewrite (popcnt_update _ f n p Hp) in Hb.
  - rewrite Z.eqb_refl, Hf in Hb. simpl in Hb. lia.
  - intros q _ Hq. simpl. apply Z.eqb_neq in Hq. by rewrite Hq.
Qed.

Lemma popcnt_pos f n p : 0 <= p < Z.of_nat n -> f p = true -> 0 < popcnt f n.
Proof.
  intros Hp Hf. pose proof (popcnt_bound (fun q => negb (q =? p) && f q) n) as Hb.
  rewrite (popcnt_update _ f n p Hp) in Hb.
  - rewrite Z.eqb_refl, Hf in Hb. simpl in Hb. lia.
  - intros q _ Hq. simpl. apply Z.eqb_neq in Hq. by rewrite Hq.
Qed.

(** Removing what is not there. *)
Lemma filter_ne_id (l : Z) (L : list Z) : l ∉ L -> filter (fun x => x <> l) L = L.
Proof.
  induction L as [|x L IH]; [done|]. intros [Hne Hn]%not_elem_of_cons.
  rewrite filter_cons_True by congruence. by rewrite IH.
Qed.

(** ** Fields of an array of structures, as functions of the index *)
Definition fset {A} (f : Z -> A) (k : Z) (v : A) : Z -> A := fun x => if x =? k then v else f x.

Lemma fset_eq {A} (f : Z -> A) k v : fset f k v k = v.
Proof. unfold fset. by rewrite Z.eqb_refl. Qed.

Lemma fset_ne {A} (f : Z -> A) k v x : x <> k -> fset f k v x = f x.
Proof. unfold fset. intros Hne%Z.eqb_neq. by rewrite Hne. Qed.

Lemma fset_spec {A} (f : Z -> A) k v x : fset f k v x = if decide (x = k) then v else f x.
Proof. case_decide; [subst; apply fset_eq|by apply fset_ne]. Qed.

(** A mask bounds what it selects. *)
Lemma land_le_r a b : 0 <= a -> 0 <= b -> 0 <= Z.land a b <= b.
Proof.
  intros Ha Hb. split; [apply Z.land_nonneg; by left|].
  assert (Hs : Z.land a b + Z.ldiff b a = b).
  { rewrite Z.add_nocarry_lxor.
    - apply Z.bits_inj'. intros i _. rewrite Z.lxor_spec, Z.land_spec, Z.ldiff_spec.
      by destruct (Z.testbit a i), (Z.testbit b i).
    - apply Z.bits_inj'. intros i _. rewrite Z.land_spec, Z.land_spec, Z.ldiff_spec, Z.bits_0.
      by destruct (Z.testbit a i), (Z.testbit b i). }
  pose proof (proj2 (Z.ldiff_nonneg b a) (or_introl Hb)). lia.
Qed.
