(* ===== verification/State.v ===== *)
(** * Code that changes a state and may stop the kernel

    [ST S A]: a computation over a state [S].  It returns a value and the new
    state, or stops: [Halt Asserted] is a failing KASSERT, [Halt LogOverflow]
    the KASSERT of the journal that its 126 entries are enough, [Halt
    Deadlock] a caller that waits for itself, [Halt Undefined] an access
    outside an array.  [wp E m Q s]:
    run from [s], [m] either returns and [Q] holds of the result, or stops for
    a reason that [E] allows; with [nopanic] it never stops. *)
From S2P Require Import Prelude.

Inductive panic := Asserted | LogOverflow | Deadlock | Undefined.
Inductive outcome (A : Type) := Ok (a : A) | Halt (p : panic).
Arguments Ok {_} a.
Arguments Halt {_} p.

Definition ST (S A : Type) : Type := S -> outcome (A * S).

#[export] Instance ST_ret S : MRet (ST S) := fun A a s => Ok (a, s).
#[export] Instance ST_bind S : MBind (ST S) := fun A B k m s =>
  match m s with
  | Ok (a, s') => k a s'
  | Halt p => Halt p
  end.

Definition getS {S} : ST S S := fun s => Ok (s, s).
Definition modify {S} (f : S -> S) : ST S unit := fun s => Ok (tt, f s).
Definition gets {S A} (f : S -> A) : ST S A := fun s => Ok (f s, s).
Definition halt {S A} (p : panic) : ST S A := fun _ => Halt p.
Definition kassert {S} (b : bool) (p : panic) : ST S unit := if b then mret () else halt p.

(** [for (i = i0; i < i0 + n; i++) body(i)] *)
Fixpoint mfor {S} (n : nat) (i : Z) (body : Z -> ST S unit) : ST S unit :=
  match n with
  | O => mret ()
  | S n => body i ;; mfor n (i + 1) body
  end.

Definition wp {S A} (E : panic -> Prop) (m : ST S A) (Q : A -> S -> Prop) (s : S) : Prop :=
  match m s with
  | Ok (a, s') => Q a s'
  | Halt p => E p
  end.

Definition nopanic (p : panic) : Prop := False.
Definition overflow_only (p : panic) : Prop := p = LogOverflow.

Section wp.
Context {S : Type} (E : panic -> Prop).
Implicit Types s : S.

Lemma wp_ret {A} (a : A) (Q : A -> S -> Prop) s : Q a s -> wp E (mret a) Q s.
Proof. done. Qed.

Lemma wp_bind {A B} (m : ST S A) (k : A -> ST S B) Q s :
  wp E m (fun a => wp E (k a) Q) s -> wp E (m ≫= k) Q s.
Proof. unfold wp, mbind, ST_bind. by destruct (m s) as [[a s']|]. Qed.

Lemma wp_mono {A} (m : ST S A) (Q Q' : A -> S -> Prop) s :
  wp E m Q s -> (forall a s', Q a s' -> Q' a s') -> wp E m Q' s.
Proof. unfold wp. destruct (m s) as [[a s']|]; auto. Qed.

Lemma wp_gets {A} (f : S -> A) (Q : A -> S -> Prop) s : Q (f s) s -> wp E (gets f) Q s.
Proof. done. Qed.
Lemma wp_getS (Q : S -> S -> Prop) s : Q s s -> wp E getS Q s.
Proof. done. Qed.
Lemma wp_modify f (Q : unit -> S -> Prop) s : Q tt (f s) -> wp E (modify f) Q s.
Proof. done. Qed.
Lemma wp_kassert b p (Q : unit -> S -> Prop) s :
  (b = true -> Q tt s) -> (b = false -> E p) -> wp E (kassert b p) Q s.
Proof. destruct b; unfold kassert, halt, wp; simpl; auto. Qed.

Lemma wp_if {A} (b : bool) (m1 m2 : ST S A) Q s :
  (b = true -> wp E m1 Q s) -> (b = false -> wp E m2 Q s) -> wp E (if b then m1 else m2) Q s.
Proof. destruct b; auto. Qed.

(** A loop with an invariant over the index. *)
Lemma wp_for (I : Z -> S -> Prop) n i body s :
  I i s ->
  (forall j s, i <= j < i + Z.of_nat n -> I j s -> wp E (body j) (fun _ => I (j + 1)) s) ->
  wp E (mfor n i body) (fun _ => I (i + Z.of_nat n)) s.
Proof.
  revert i s. induction n as [|n IH]; intros i s Hi Hb; simpl.
  - apply wp_ret. by rewrite Z.add_0_r.
  - apply wp_bind. eapply wp_mono; [apply Hb; [lia|done]|]. simpl. intros _ s' Hi'.
    replace (i + Z.of_nat (Datatypes.S n)) with (i + 1 + Z.of_nat n) by lia. apply IH; [done|].
    intros j s0 Hj. apply Hb. lia.
Qed.
End wp.

Lemma wp_weaken {S A} (E E' : panic -> Prop) (m : ST S A) Q s :
  wp E m Q s -> (forall p, E p -> E' p) -> wp E' m Q s.
Proof. unfold wp. destruct (m s) as [[a s']|p]; auto. Qed.

Lemma wp_nopanic {S A} (E : panic -> Prop) (m : ST S A) Q s : wp nopanic m Q s -> wp E m Q s.
Proof. intros H. by apply (wp_weaken _ _ _ _ _ H). Qed.

(** What a computation that does not stop returns. *)
Lemma wp_run {S A} (m : ST S A) Q s : wp nopanic m Q s -> exists a s', m s = Ok (a, s') /\ Q a s'.
Proof. unfold wp. destruct (m s) as [[a s']|]; [eauto|done]. Qed.

Lemma wp_done {S A} (m : ST S A) Q s a s' : wp nopanic m Q s -> m s = Ok (a, s') -> Q a s'.
Proof. unfold wp. intros H He. by rewrite He in H. Qed.

(** A component's state inside a larger one. *)
Definition lift {S T A} (get : T -> S) (put : T -> S -> T) (m : ST S A) : ST T A := fun t =>
  match m (get t) with
  | Ok (a, s') => Ok (a, put t s')
  | Halt p => Halt p
  end.

Lemma wp_lift {S T A} E (get : T -> S) put (m : ST S A) Q t :
  wp E m (fun a s' => Q a (put t s')) (get t) -> wp E (lift get put m) Q t.
Proof. unfold wp, lift. by destruct (m (get t)) as [[a s']|]. Qed.

(** One step of symbolic execution. *)
Ltac wp_step :=
  lazymatch goal with
  | |- wp _ (mbind _ _) _ _ => apply wp_bind
  | |- wp _ (mret _) _ _ => apply wp_ret
  | |- wp _ (gets _) _ _ => apply wp_gets
  | |- wp _ getS _ _ => apply wp_getS
  | |- wp _ (modify _) _ _ => apply wp_modify
  | |- wp _ (kassert _ _) _ _ => apply wp_kassert; [intros ?|try done]
  | |- wp _ (lift _ _ _) _ _ => apply wp_lift
  end; cbv beta iota.
Ltac wp_steps := repeat wp_step.

(** ** Running a computation on a concrete state *)

Definition is_ok {A} (o : outcome A) : bool := match o with Ok _ => true | Halt _ => false end.
Definition run_value {S A} (m : ST S A) (s : S) (a : A) : A := match m s with Ok (a, _) => a | Halt _ => a end.
Definition run_state {S A} (m : ST S A) (s : S) : S := match m s with Ok (_, s') => s' | Halt _ => s end.

Lemma run_ok {S A} (m : ST S A) s a : is_ok (m s) = true -> m s = Ok (run_value m s a, run_state m s).
Proof. unfold is_ok, run_value, run_state. by destruct (m s) as [[]|]. Qed.
Lemma run_ok_unit {S} (m : ST S unit) s : is_ok (m s) = true -> m s = Ok (tt, run_state m s).
Proof. unfold is_ok, run_state. by destruct (m s) as [[[] ?]|]. Qed.
