(* ===== verification/Pmm.v ===== *)
(** * The physical page allocator (kernel/pmm_core.c)

    One bit and one 16-bit reference count per physical page of the managed
    range, a next-fit search whose origin moves back on release, and the
    shared-layer entry points [pmm_alloc]/[pmm_free]/[pmm_incref].  Every
    operation runs under [g_pmm_lock] with interrupts off, so each is one
    atomic transition of the state [pmm]. *)
From S2P Require Import Prelude.

Definition PAGE_SIZE : Z := 4096.
Definition PMM_BIG_PAGES : Z := 16.

(** The file-scope variables.  [g_bm_ptr]/[g_rc_ptr] are the pointers the
    code caches; [g_bm]/[g_rc] are the arrays they point to. *)
Record pmm := mkPmm {
  g_base_pa : Z;
  g_pages : Z;
  g_used : Z;
  g_bitmap_pa : Z;
  g_refcount_pa : Z;
  g_next_page : Z;
  g_bm_ptr : Z;
  g_rc_ptr : Z;
  g_bm : list Z;
  g_rc : list Z;
  g_scan_pages : Z;
  g_claim_calls : Z;
  g_claim_wrap : Z;
}.

Definition with_bits (s : pmm) (bm : list Z) (used : Z) : pmm :=
  mkPmm s.(g_base_pa) s.(g_pages) used s.(g_bitmap_pa) s.(g_refcount_pa) s.(g_next_page)
    s.(g_bm_ptr) s.(g_rc_ptr) bm s.(g_rc) s.(g_scan_pages) s.(g_claim_calls) s.(g_claim_wrap).
Definition with_rc (s : pmm) (rc : list Z) : pmm :=
  mkPmm s.(g_base_pa) s.(g_pages) s.(g_used) s.(g_bitmap_pa) s.(g_refcount_pa) s.(g_next_page)
    s.(g_bm_ptr) s.(g_rc_ptr) s.(g_bm) rc s.(g_scan_pages) s.(g_claim_calls) s.(g_claim_wrap).
Definition with_next (s : pmm) (next : Z) : pmm :=
  mkPmm s.(g_base_pa) s.(g_pages) s.(g_used) s.(g_bitmap_pa) s.(g_refcount_pa) next
    s.(g_bm_ptr) s.(g_rc_ptr) s.(g_bm) s.(g_rc) s.(g_scan_pages) s.(g_claim_calls) s.(g_claim_wrap).
Definition with_stat (s : pmm) (scanned calls wraps : Z) : pmm :=
  mkPmm s.(g_base_pa) s.(g_pages) s.(g_used) s.(g_bitmap_pa) s.(g_refcount_pa) s.(g_next_page)
    s.(g_bm_ptr) s.(g_rc_ptr) s.(g_bm) s.(g_rc) scanned calls wraps.

Section Ops.
(** [arch_pmm_meta_ptr]: how the running kernel reaches the metadata
    (identity, HHDM offset or high VA, per architecture). *)
Variable arch_pmm_meta_ptr : Z -> Z.

Definition pmm_bind_locked (s : pmm) : pmm :=
  mkPmm s.(g_base_pa) s.(g_pages) s.(g_used) s.(g_bitmap_pa) s.(g_refcount_pa) s.(g_next_page)
    (arch_pmm_meta_ptr s.(g_bitmap_pa)) (arch_pmm_meta_ptr s.(g_refcount_pa))
    s.(g_bm) s.(g_rc) s.(g_scan_pages) s.(g_claim_calls) s.(g_claim_wrap).

Definition pmm_core_rebind (s : pmm) : pmm := pmm_bind_locked s.

(** All pages start used with no reference; the architecture then marks
    the free ranges. *)
Definition pmm_core_setup (base_pa pages bitmap_pa refcount_pa : Z) : pmm :=
  let s := pmm_bind_locked
    (mkPmm base_pa pages 0 bitmap_pa refcount_pa 0 0 0 [] [] 0 0 0) in
  mkPmm s.(g_base_pa) s.(g_pages) pages s.(g_bitmap_pa) s.(g_refcount_pa) s.(g_next_page)
    s.(g_bm_ptr) s.(g_rc_ptr)
    (replicate (Z.to_nat (u64 (pages + 7) / 8)) 255) (replicate (Z.to_nat pages) 0)
    s.(g_scan_pages) s.(g_claim_calls) s.(g_claim_wrap).
End Ops.

Definition pmm_set (s : pmm) (page : Z) : pmm := with_bits s (bm_set s.(g_bm) page) s.(g_used).
Definition pmm_clear (s : pmm) (page : Z) : pmm := with_bits s (bm_clear s.(g_bm) page) s.(g_used).
Definition pmm_test (s : pmm) (page : Z) : bool := bm_test s.(g_bm) page.

Definition pmm_page_of (s : pmm) (pa : Z) : option Z :=
  if pa <? s.(g_base_pa) then None else
  let page := (pa - s.(g_base_pa)) / PAGE_SIZE in
  if page <? s.(g_pages) then Some page else None.

(** [& ~(PAGE_SIZE - 1ULL)] *)
Definition page_down (a : Z) : Z := Z.land a (Z.lnot (PAGE_SIZE - 1)).

Definition mark_free_page (s : pmm) (a : Z) : pmm :=
  match pmm_page_of s a with
  | None => s
  | Some page =>
      if pmm_test s page
      then with_bits s (bm_clear s.(g_bm) page) (u64 (s.(g_used) - 1)) else s
  end.
Definition mark_used_page (s : pmm) (a : Z) : pmm :=
  match pmm_page_of s a with
  | None => s
  | Some page =>
      if pmm_test s page
      then s else with_bits s (bm_set s.(g_bm) page) (u64 (s.(g_used) + 1))
  end.

(** [for (uint64_t a = s; a < e; a += PAGE_SIZE)].  Both ends are page
    aligned, so the loop runs [(e - s) / PAGE_SIZE] times and [a] never
    steps over [e]. *)
Fixpoint for_pages (f : pmm -> Z -> pmm) (n : nat) (a : Z) (s : pmm) : pmm :=
  match n with
  | O => s
  | S n => for_pages f n (u64 (a + PAGE_SIZE)) (f s a)
  end.

Definition page_count (s e : Z) : nat := Z.to_nat ((e - s) / PAGE_SIZE).

Definition pmm_core_mark_free (st : pmm) (pa bytes : Z) : pmm :=
  let s := page_down (u64 (pa + PAGE_SIZE - 1)) in
  let e := page_down (u64 (pa + bytes)) in
  for_pages mark_free_page (page_count s e) s st.

Definition pmm_core_mark_used (st : pmm) (pa bytes : Z) : pmm :=
  let s := page_down pa in
  let e := page_down (u64 (pa + bytes + PAGE_SIZE - 1)) in
  for_pages mark_used_page (page_count s e) s st.

Definition pmm_core_reserve_page (s : pmm) (pa : Z) : bool * pmm :=
  match pmm_page_of s pa with
  | Some page =>
      if pmm_test s page then (false, s)
      else
        let s1 := with_bits s (bm_set s.(g_bm) page) (u64 (s.(g_used) + 1)) in
        (true, with_rc s1 (zset s1.(g_rc) page 1))
  | None => (false, s)
  end.

(** The search loop of [pmm_scan_locked]: [n] pages left to look at, the
    next being [page]; [run] free pages seen in a row from [start].  On
    success the start of the run and the page at which it was completed. *)
Fixpoint pmm_scan_loop (bm : list Z) (n : nat) (page run start pages : Z) : option (Z * Z) :=
  match n with
  | O => None
  | S n =>
      if bm_test bm page then pmm_scan_loop bm n (page + 1) 0 start pages
      else
        let start := if run =? 0 then page else start in
        let run := run + 1 in
        if run =? pages then Some (start, page)
        else pmm_scan_loop bm n (page + 1) run start pages
  end.

(** Returns the start of the run plus one, 0 for none. *)
Definition pmm_scan_locked (s : pmm) (from to pages : Z) : Z * pmm :=
  let scanned := if from <? to then u64 (s.(g_scan_pages) + (to - from)) else s.(g_scan_pages) in
  match pmm_scan_loop s.(g_bm) (Z.to_nat (to - from)) from 0 0 pages with
  | Some (start, page) =>
      (u64 (start + 1), with_stat s (u64 (scanned - (to - (page + 1)))) s.(g_claim_calls) s.(g_claim_wrap))
  | None => (0, with_stat s scanned s.(g_claim_calls) s.(g_claim_wrap))
  end.

(** [for (i = 0; i < pages; i++) pmm_set(start + i)] *)
Fixpoint bm_set_run (n : nat) (p : Z) (bm : list Z) : list Z :=
  match n with
  | O => bm
  | S n => bm_set_run n (p + 1) (bm_set bm p)
  end.
Definition pmm_set_run (s : pmm) (start pages : Z) : pmm :=
  with_bits s (bm_set_run (Z.to_nat pages) start s.(g_bm)) s.(g_used).

Definition pmm_claim_locked (s : pmm) (pages : Z) : Z * pmm :=
  if (pages =? 0) || (s.(g_pages) =? 0) then (0, s) else
  let s := if s.(g_pages) <=? s.(g_next_page) then with_next s 0 else s in
  let s := with_stat s s.(g_scan_pages) (u64 (s.(g_claim_calls) + 1)) s.(g_claim_wrap) in
  if PMM_BIG_PAGES <=? pages then
    let '(start, s) := pmm_scan_locked s 0 s.(g_pages) pages in
    if start =? 0 then (0, s) else
    let start := start - 1 in
    let s := pmm_set_run s start pages in
    let s := with_bits s s.(g_bm) (u64 (s.(g_used) + pages)) in
    (u64 (s.(g_base_pa) + start * PAGE_SIZE), s)
  else
    let '(start, s) := pmm_scan_locked s s.(g_next_page) s.(g_pages) pages in
    let '(start, s) :=
      if start =? 0 then
        let s := with_stat s s.(g_scan_pages) s.(g_claim_calls) (u64 (s.(g_claim_wrap) + 1)) in
        let tail := u64 (s.(g_next_page) + pages - 1) in
        let tail := if s.(g_pages) <? tail then s.(g_pages) else tail in
        pmm_scan_locked s 0 tail pages
      else (start, s) in
    if start =? 0 then (0, s) else
    let start := start - 1 in
    let s := pmm_set_run s start pages in
    let s := with_bits s s.(g_bm) (u64 (s.(g_used) + pages)) in
    let s := with_next s (u64 (start + pages)) in
    (u64 (s.(g_base_pa) + start * PAGE_SIZE), s).

(** [for (i = 0; i < pages && start + i < g_pages; i++)] *)
Fixpoint pmm_release_loop (n : nat) (p : Z) (s : pmm) : pmm :=
  match n with
  | O => s
  | S n =>
      if p <? s.(g_pages) then
        let used := if pmm_test s p then u64 (s.(g_used) - 1) else s.(g_used) in
        pmm_release_loop n (p + 1) (with_bits s (bm_clear s.(g_bm) p) used)
      else s
  end.

Definition pmm_release_locked (s : pmm) (pa pages : Z) : pmm :=
  match pmm_page_of s pa with
  | None => s
  | Some start =>
      let s := if start <? s.(g_next_page) then with_next s start else s in
      pmm_release_loop (Z.to_nat pages) start s
  end.

Definition pmm_core_claim (s : pmm) (pages : Z) : Z * pmm := pmm_claim_locked s pages.
Definition pmm_core_release (s : pmm) (pa pages : Z) : pmm := pmm_release_locked s pa pages.
Definition pmm_core_base (s : pmm) : Z := s.(g_base_pa).
Definition pmm_core_total (s : pmm) : Z := s.(g_pages).
Definition pmm_core_used (s : pmm) : Z := s.(g_used).

Record pmm_core_scan_stat := mkScanStat { calls : Z; scanned : Z; wraps : Z; next_page : Z }.

Definition pmm_core_take_scan_stat (s : pmm) : pmm_core_scan_stat * pmm :=
  (mkScanStat s.(g_claim_calls) s.(g_scan_pages) s.(g_claim_wrap) s.(g_next_page),
   with_stat s 0 0 0).

Fixpoint rc_set_run (n : nat) (p : Z) (rc : list Z) : list Z :=
  match n with
  | O => rc
  | S n => rc_set_run n (p + 1) (zset rc p 1)
  end.

(** The result is the physical address, 0 on failure.  The architecture hook
    [arch_pmm_after_alloc] runs after the lock is dropped and touches only
    the contents of the new pages. *)
Definition pmm_alloc (s : pmm) (pages : Z) : Z * pmm :=
  let '(pa, s) := pmm_claim_locked s pages in
  if pa =? 0 then (0, s)
  else
    let first := (pa - s.(g_base_pa)) / PAGE_SIZE in
    (pa, with_rc s (rc_set_run (Z.to_nat pages) first s.(g_rc))).

Definition pmm_free_page (s : pmm) (pa : Z) : pmm :=
  match pmm_page_of s pa with
  | None => s
  | Some page =>
      if 0 <? zget s.(g_rc) page then
        let s := with_rc s (zset s.(g_rc) page (zget s.(g_rc) page - 1)) in
        if zget s.(g_rc) page =? 0 then pmm_release_locked s pa 1 else s
      else s
  end.

Fixpoint pmm_free_loop (n : nat) (i : Z) (base : Z) (s : pmm) : pmm :=
  match n with
  | O => s
  | S n => pmm_free_loop n (i + 1) base (pmm_free_page s (u64 (base + i * PAGE_SIZE)))
  end.

Definition pmm_free (s : pmm) (addr pages : Z) : pmm :=
  pmm_free_loop (Z.to_nat pages) 0 addr s.

Definition pmm_incref (s : pmm) (addr : Z) : pmm :=
  match pmm_page_of s addr with
  | Some page =>
      if zget s.(g_rc) page <? 65535
      then with_rc s (zset s.(g_rc) page (zget s.(g_rc) page + 1)) else s
  | None => s
  end.

Definition pmm_get_ref (s : pmm) (addr : Z) : Z :=
  match pmm_page_of s addr with Some page => zget s.(g_rc) page | None => 0 end.

Definition pmm_get_allocated_pages (s : pmm) : Z := s.(g_used).
Definition pmm_get_free_pages (s : pmm) : Z := u64 (s.(g_pages) - s.(g_used)).
Definition pmm_get_total_pages (s : pmm) : Z := s.(g_pages).

(** A machine with 40 pages at 1 MiB, pages 4..39 free. *)
Definition ex0_setup : pmm := pmm_core_setup id 1048576 40 0 64.
Definition ex0 : pmm := pmm_core_mark_free ex0_setup (1048576 + 16384) 147456.
Example ex0_used : ex0.(g_used) = 4 /\ (pmm_alloc ex0 3).1 = 1048576 + 4 * 4096.
Proof. vm_compute. done. Qed.

(** ** Well-formedness *)

Record pmm_wf (s : pmm) : Prop := mkPmmWf {
  wf_pages : 0 <= s.(g_pages);
  wf_range : 0 <= s.(g_base_pa) /\ s.(g_base_pa) + s.(g_pages) * PAGE_SIZE <= 2 ^ 64;
  wf_align : s.(g_base_pa) mod PAGE_SIZE = 0;
  wf_bm_len : zlen s.(g_bm) = (s.(g_pages) + 7) / 8;
  wf_bytes : Forall byte_ok s.(g_bm);
  wf_rc_len : zlen s.(g_rc) = s.(g_pages);
  wf_rc : Forall (fun r => 0 <= r < 2 ^ 16) s.(g_rc);
  wf_used : s.(g_used) = popcnt (bm_test s.(g_bm)) (Z.to_nat s.(g_pages));
  wf_next : 0 <= s.(g_next_page) <= s.(g_pages);
}.

Section wf_facts.
Variable s : pmm.
Hypothesis Hwf : pmm_wf s.

Lemma page_bit p : 0 <= p < s.(g_pages) -> 0 <= p < 8 * zlen s.(g_bm).
Proof using Hwf.
  intros Hp. rewrite (wf_bm_len s Hwf). split; [lia|].
  pose proof (Z.div_mod (s.(g_pages) + 7) 8 ltac:(lia)).
  pose proof (Z.mod_pos_bound (s.(g_pages) + 7) 8 ltac:(lia)). lia.
Qed.

Lemma pages_small : s.(g_pages) < 2 ^ 52 + 1.
Proof using Hwf. pose proof (wf_range s Hwf). unfold PAGE_SIZE in *. lia. Qed.

Lemma rc_range p : 0 <= p < s.(g_pages) -> 0 <= zget s.(g_rc) p < 2 ^ 16.
Proof using Hwf.
  intros Hp. apply (Forall_zget (fun r => 0 <= r < 2 ^ 16)); [apply (wf_rc s Hwf)|].
  by rewrite (wf_rc_len s Hwf).
Qed.

Lemma used_range : 0 <= s.(g_used) <= s.(g_pages).
Proof using Hwf.
  rewrite (wf_used s Hwf). pose proof (popcnt_bound (bm_test s.(g_bm)) (Z.to_nat s.(g_pages))).
  pose proof (wf_pages s Hwf). lia.
Qed.

Lemma page_of_inv pa p :
  pmm_page_of s pa = Some p ->
  0 <= p < s.(g_pages) /\ s.(g_base_pa) <= pa /\ p = (pa - s.(g_base_pa)) / PAGE_SIZE.
Proof using Hwf.
  unfold pmm_page_of. destruct (Z.ltb_spec pa s.(g_base_pa)); [done|].
  destruct (Z.ltb_spec ((pa - s.(g_base_pa)) / PAGE_SIZE) s.(g_pages)); [|done].
  intros [= <-]. repeat split; [apply Z.div_pos; unfold PAGE_SIZE; lia|lia|lia].
Qed.

Lemma page_of_page p :
  0 <= p < s.(g_pages) -> pmm_page_of s (s.(g_base_pa) + p * PAGE_SIZE) = Some p.
Proof using Hwf.
  intros Hp. unfold pmm_page_of.
  replace (s.(g_base_pa) + p * PAGE_SIZE - s.(g_base_pa)) with (p * PAGE_SIZE) by lia.
  rewrite Z.div_mul by (unfold PAGE_SIZE; lia).
  destruct (Z.ltb_spec (s.(g_base_pa) + p * PAGE_SIZE) s.(g_base_pa)); [unfold PAGE_SIZE in *; lia|].
  destruct (Z.ltb_spec p s.(g_pages)); [done|lia].
Qed.

(** Marking one page used or free keeps the state well formed and the
    counter exact. *)
Lemma wf_set_page p :
  0 <= p < s.(g_pages) -> pmm_test s p = false ->
  pmm_wf (with_bits s (bm_set s.(g_bm) p) (u64 (s.(g_used) + 1))).
Proof using Hwf.
  intros Hp Hfree. pose proof (page_bit p Hp) as Hbit. pose proof pages_small.
  pose proof used_range. destruct Hwf. constructor; simpl; autorewrite with zlist; auto.
  - by apply bm_set_bytes.
  - rewrite (popcnt_update _ (bm_test s.(g_bm)) (Z.to_nat s.(g_pages)) p ltac:(lia)).
    + rewrite bm_test_set, Z.eqb_refl by lia. unfold pmm_test in Hfree. rewrite Hfree. simpl.
      rewrite u64_small; lia.
    + intros q Hq Hne. rewrite bm_test_set by lia. apply Z.eqb_neq in Hne. by rewrite Hne.
Qed.

Lemma wf_clear_page p :
  0 <= p < s.(g_pages) ->
  pmm_wf (with_bits s (bm_clear s.(g_bm) p)
            (if pmm_test s p then u64 (s.(g_used) - 1) else s.(g_used))).
Proof using Hwf.
  intros Hp. pose proof (page_bit p Hp) as Hbit. pose proof pages_small.
  pose proof used_range. destruct Hwf. constructor; simpl; autorewrite with zlist; auto.
  - by apply bm_clear_bytes.
  - rewrite (popcnt_update _ (bm_test s.(g_bm)) (Z.to_nat s.(g_pages)) p ltac:(lia)).
    + rewrite bm_test_clear, Z.eqb_refl by lia. unfold pmm_test.
      destruct (bm_test s.(g_bm) p) eqn:Ht; simpl; [|lia].
      pose proof (popcnt_pos (bm_test s.(g_bm)) (Z.to_nat s.(g_pages)) p ltac:(lia) Ht).
      rewrite u64_small; lia.
    + intros q Hq Hne. rewrite bm_test_clear by lia. apply Z.eqb_neq in Hne. by rewrite Hne.
Qed.

Lemma wf_with_rc p r :
  0 <= r < 2 ^ 16 -> pmm_wf (with_rc s (zset s.(g_rc) p r)).
Proof using Hwf.
  intros Hr. destruct Hwf. constructor; simpl; autorewrite with zlist; auto.
Qed.

Lemma wf_with_next n : 0 <= n <= s.(g_pages) -> pmm_wf (with_next s n).
Proof using Hwf. intros. destruct Hwf. by constructor. Qed.

Lemma wf_with_stat a b c : pmm_wf (with_stat s a b c).
Proof using Hwf. destruct Hwf. by constructor. Qed.
End wf_facts.

Create HintDb pmm.
#[export] Hint Resolve wf_with_stat wf_with_next wf_with_rc wf_set_page wf_clear_page : pmm.

(** ** The search *)

Definition run_free (bm : list Z) (start pages : Z) : Prop :=
  forall q, start <= q < start + pages -> bm_test bm q = false.

(** The loop finds the lowest run of [pages] free pages in the window, and
    fails only when the window holds none. *)
Lemma pmm_scan_loop_spec bm pages from n : forall page run start,
  0 <= run < pages -> from <= page - run -> (0 < run -> start = page - run) ->
  run_free bm (page - run) run ->
  (page - run = from \/ bm_test bm (page - run - 1) = true) ->
  (forall st, from <= st < page - run -> ~ run_free bm st pages) ->
  match pmm_scan_loop bm n page run start pages with
  | Some (st, pg) =>
      from <= st /\ st + pages = pg + 1 /\ pg < page + Z.of_nat n /\ run_free bm st pages /\
      (forall st', from <= st' < st -> ~ run_free bm st' pages)
  | None => forall st, from <= st -> st + pages <= page + Z.of_nat n -> ~ run_free bm st pages
  end.
Proof.
  induction n as [|n IH]; intros page run start Hrun Hfrom Hstart Hfree Hmax Hno; simpl.
  { intros st Hst Hend. apply Hno. lia. }
  destruct (bm_test bm page) eqn:Ht.
  - specialize (IH (page + 1) 0 start).
    destruct (pmm_scan_loop bm n (page + 1) 0 start pages) as [[st pg]|].
    + destruct IH as (?&?&?&?&?); [lia..|intros q; lia| |intros st' ?|].
      * right. by replace (page + 1 - 0 - 1) with page by lia.
      * destruct (decide (st' < page - run)); [apply Hno; lia|].
        intros Hrf. specialize (Hrf page ltac:(lia)). congruence.
      * repeat split; auto; lia.
    + intros st Hst Hend. apply IH; [lia..|intros q; lia| | |lia|lia].
      * right. by replace (page + 1 - 0 - 1) with page by lia.
      * intros st' ?. destruct (decide (st' < page - run)); [apply Hno; lia|].
        intros Hrf. specialize (Hrf page ltac:(lia)). congruence.
  - set (start' := if run =? 0 then page else start).
    assert (Hst' : start' = page - run).
    { unfold start'. destruct (Z.eqb_spec run 0); [lia|]. apply Hstart. lia. }
    assert (Hfree' : run_free bm (page - run) (run + 1)).
    { intros q Hq. destruct (decide (q = page)) as [->|]; [done|]. apply Hfree. lia. }
    destruct (Z.eqb_spec (run + 1) pages) as [Heq|Hne].
    + rewrite Hst'. repeat split; [lia..| |done]. by rewrite <- Heq.
    + specialize (IH (page + 1) (run + 1) start').
      replace (page + 1 - (run + 1)) with (page - run) in IH by lia.
      destruct (pmm_scan_loop bm n (page + 1) (run + 1) start' pages) as [[st pg]|].
      * destruct IH as (?&?&?&?&?); [lia..|done|done|done|]. repeat split; auto; lia.
      * intros st Hst Hend. apply IH; [lia..|done|done|done|lia|lia].
Qed.

Lemma pmm_scan_locked_spec s from to pages start s' :
  0 <= from -> to < 2 ^ 64 -> 0 < pages ->
  pmm_scan_locked s from to pages = (start, s') ->
  (exists a b c, s' = with_stat s a b c) /\
  (start = 0 /\ (forall st, from <= st -> st + pages <= to -> ~ run_free s.(g_bm) st pages) \/
   0 < start /\ from <= start - 1 /\ start - 1 + pages <= to /\
   run_free s.(g_bm) (start - 1) pages /\
   (forall st', from <= st' < start - 1 -> ~ run_free s.(g_bm) st' pages)).
Proof.
  intros Hfrom Hto Hpages. unfold pmm_scan_locked.
  pose proof (pmm_scan_loop_spec s.(g_bm) pages from (Z.to_nat (to - from)) from 0 0) as Hspec.
  destruct (pmm_scan_loop _ _ _ _ _ _) as [[st pg]|]; intros [= <- <-]; (split; [eauto|]).
  - right. destruct Hspec as (?&?&?&?&?); [lia..|intros q; lia|left; lia|intros; lia|].
    rewrite u64_small by lia. replace (st + 1 - 1) with st by lia. repeat split; auto; lia.
  - left. split; [done|]. intros st Hst Hend.
    apply Hspec; [lia..|intros q; lia|left; lia|intros; lia|lia|lia].
Qed.

(** Marking a run used. *)
Lemma bm_set_run_test n : forall p bm q,
  0 <= p -> p + Z.of_nat n <= 8 * zlen bm -> 0 <= q ->
  bm_test (bm_set_run n p bm) q = bool_decide (p <= q < p + Z.of_nat n) || bm_test bm q.
Proof.
  induction n as [|n IH]; intros p bm q Hp Hlen Hq; simpl.
  { rewrite bool_decide_eq_false_2; [done|lia]. }
  rewrite IH by (autorewrite with zlist; lia). rewrite bm_test_set by lia.
  destruct (Z.eqb_spec q p) as [->|].
  - rewrite (bool_decide_eq_true_2 (p <= p < p + Z.of_nat (S n))) by lia. by rewrite orb_true_r.
  - simpl. f_equal. apply bool_decide_ext. lia.
Qed.

Lemma zlen_bm_set_run n : forall p bm, zlen (bm_set_run n p bm) = zlen bm.
Proof. induction n as [|n IH]; intros; simpl; [done|]. by rewrite IH, zlen_bm_set. Qed.
#[export] Hint Rewrite zlen_bm_set_run : zlist.

Lemma bm_set_run_bytes n : forall p bm,
  0 <= p -> p + Z.of_nat n <= 8 * zlen bm -> Forall byte_ok bm -> Forall byte_ok (bm_set_run n p bm).
Proof.
  induction n as [|n IH]; intros p bm Hp Hlen Hok; simpl; [done|].
  apply IH; autorewrite with zlist; try lia. apply bm_set_bytes; [lia|done].
Qed.

Lemma popcnt_set_run n N : forall p bm,
  0 <= p -> p + Z.of_nat n <= N -> N <= 8 * zlen bm -> run_free bm p (Z.of_nat n) ->
  popcnt (bm_test (bm_set_run n p bm)) (Z.to_nat N) = popcnt (bm_test bm) (Z.to_nat N) + Z.of_nat n.
Proof.
  induction n as [|n IH]; intros p bm Hp Hn Hlen Hfree; simpl; [lia|].
  rewrite IH; [|lia|lia|by autorewrite with zlist|].
  - rewrite (popcnt_update _ (bm_test bm) (Z.to_nat N) p ltac:(lia)).
    + rewrite bm_test_set, Z.eqb_refl, (Hfree p) by lia. simpl. lia.
    + intros q Hq Hne. rewrite bm_test_set by lia. apply Z.eqb_neq in Hne. by rewrite Hne.
  - intros q Hq. rewrite bm_test_set by lia. destruct (Z.eqb_spec q p); [lia|]. apply Hfree. lia.
Qed.

Lemma page_bits_le s : pmm_wf s -> s.(g_pages) <= 8 * zlen s.(g_bm).
Proof.
  intros Hwf. destruct (decide (s.(g_pages) = 0)) as [->|]; [unfold zlen; lia|].
  pose proof (wf_pages s Hwf). pose proof (page_bit s Hwf (s.(g_pages) - 1) ltac:(lia)). lia.
Qed.

(** Claiming the free run [start, start + pages): the bitmap and counter part. *)
Definition claimed (s : pmm) (start pages : Z) : pmm :=
  let s := pmm_set_run s start pages in with_bits s s.(g_bm) (u64 (s.(g_used) + pages)).

Lemma wf_claimed s start pages :
  pmm_wf s -> 0 <= start -> 0 <= pages -> start + pages <= s.(g_pages) ->
  run_free s.(g_bm) start pages -> pmm_wf (claimed s start pages).
Proof.
  intros Hwf Hst Hpg Hend Hfree. pose proof (page_bits_le s Hwf). pose proof (pages_small s Hwf).
  assert (Hcnt : popcnt (bm_test (bm_set_run (Z.to_nat pages) start s.(g_bm))) (Z.to_nat s.(g_pages))
                 = s.(g_used) + pages).
  { rewrite popcnt_set_run; rewrite ?Z2Nat.id by lia; try lia; [|done].
    by rewrite (wf_used s Hwf). }
  pose proof (popcnt_bound (bm_test (bm_set_run (Z.to_nat pages) start s.(g_bm))) (Z.to_nat s.(g_pages))).
  destruct Hwf. constructor; simpl; autorewrite with zlist; auto.
  - apply bm_set_run_bytes; [lia|lia|done].
  - rewrite Hcnt, u64_small; lia.
Qed.

Lemma claimed_test s start pages q :
  pmm_wf s -> 0 <= start -> 0 <= pages -> start + pages <= s.(g_pages) -> 0 <= q ->
  pmm_test (claimed s start pages) q = bool_decide (start <= q < start + pages) || pmm_test s q.
Proof.
  intros Hwf Hst Hpg Hend Hq. pose proof (page_bits_le s Hwf). unfold pmm_test. simpl.
  rewrite bm_set_run_test by lia. f_equal. apply bool_decide_ext. lia.
Qed.

(** What a claim may do to the state: fail and change only the search origin
    and the counters, or take one free run. *)
Definition claim_result (s : pmm) (pages pa : Z) (s' : pmm) : Prop :=
  s'.(g_base_pa) = s.(g_base_pa) /\ s'.(g_pages) = s.(g_pages) /\ s'.(g_rc) = s.(g_rc) /\
  (pa = 0 /\ s'.(g_bm) = s.(g_bm) /\ s'.(g_used) = s.(g_used) /\
   (pages = 0 \/ forall st, 0 <= st -> st + pages <= s.(g_pages) -> ~ run_free s.(g_bm) st pages) \/
   0 < pages /\ exists start, 0 <= start /\ start + pages <= s.(g_pages) /\
     run_free s.(g_bm) start pages /\ pa = s.(g_base_pa) + start * PAGE_SIZE /\
     s'.(g_bm) = bm_set_run (Z.to_nat pages) start s.(g_bm)).

(** Two states that differ only in the search origin and the counters. *)
Definition same_alloc (s s' : pmm) : Prop :=
  s'.(g_base_pa) = s.(g_base_pa) /\ s'.(g_pages) = s.(g_pages) /\ s'.(g_rc) = s.(g_rc) /\
  s'.(g_bm) = s.(g_bm) /\ s'.(g_used) = s.(g_used).

Lemma claim_fail s s' pages :
  same_alloc s s' ->
  (pages = 0 \/ forall st, 0 <= st -> st + pages <= s.(g_pages) -> ~ run_free s.(g_bm) st pages) ->
  claim_result s pages 0 s'.
Proof. unfold same_alloc, claim_result. intros (?&?&?&?&?) ?. split_and!; auto. Qed.

Lemma claim_take s s' start pages :
  pmm_wf s' -> same_alloc s s' -> 0 <= start -> 0 < pages -> start + pages <= s.(g_pages) ->
  run_free s.(g_bm) start pages ->
  pmm_wf (claimed s' start pages) /\
  claim_result s pages (u64 ((claimed s' start pages).(g_base_pa) + start * PAGE_SIZE))
    (claimed s' start pages).
Proof.
  unfold same_alloc, claim_result. intros Hwf (Hb&Hg&Hr&Hm&Hu) Hst Hpg Hend Hfree.
  pose proof (wf_range s' Hwf). split.
  { apply wf_claimed; rewrite ?Hm; auto; lia. }
  simpl. split_and!; auto. right. split; [done|]. exists start.
  rewrite u64_small, Hb, Hm by (unfold PAGE_SIZE in *; lia). split_and!; auto.
Qed.

Lemma claim_result_next s pages pa s' n :
  claim_result s pages pa s' -> claim_result s pages pa (with_next s' n).
Proof. done. Qed.

(** The two search windows of the next-fit cover every run. *)
Lemma windows_cover bm next total pages :
  0 < pages -> 0 <= next ->
  (forall st, next <= st -> st + pages <= total -> ~ run_free bm st pages) ->
  (forall st, 0 <= st -> st + pages <= Z.min (next + pages - 1) total -> ~ run_free bm st pages) ->
  forall st, 0 <= st -> st + pages <= total -> ~ run_free bm st pages.
Proof.
  intros Hp Hn H1 H2 st Hst Hend. destruct (decide (next <= st)); [apply H1; lia|apply H2; lia].
Qed.

Lemma pmm_claim_spec s pages pa s' :
  pmm_wf s -> 0 <= pages < 2 ^ 64 -> pmm_claim_locked s pages = (pa, s') ->
  pmm_wf s' /\ claim_result s pages pa s'.
Proof.
  intros Hwf Hpg. unfold pmm_claim_locked.
  pose proof (pages_small s Hwf) as Hsm. pose proof (wf_next s Hwf) as Hnext.
  pose proof (wf_pages s Hwf) as Hpos.
  destruct (Z.eqb_spec pages 0) as [->|Hp0]; simpl.
  { intros [= <- <-]. split; [done|]. apply claim_fail; [done|auto]. }
  destruct (Z.eqb_spec s.(g_pages) 0) as [Hg0|Hg0]; simpl.
  { intros [= <- <-]. split; [done|]. apply claim_fail; [done|]. right. intros; lia. }
  set (s1 := if s.(g_pages) <=? s.(g_next_page) then with_next s 0 else s).
  assert (Hwf1 : pmm_wf s1) by (unfold s1; destruct (_ <=? _); eauto with pmm lia).
  assert (H1 : same_alloc s s1 /\ 0 <= s1.(g_next_page) < s.(g_pages)).
  { unfold s1. destruct (Z.leb_spec s.(g_pages) s.(g_next_page)); simpl; (split; [done|simpl; lia]). }
  clearbody s1. destruct H1 as [H1 Hn1]. pose proof H1 as (_ & Hg1 & _ & Hm1 & _).
  destruct (PMM_BIG_PAGES <=? pages) eqn:Hbig.
  - destruct (pmm_scan_locked _ _ _ _) as [start s2] eqn:Hscan.
    apply pmm_scan_locked_spec in Hscan as [(a&b&c&->) Hscan]; simpl in *; [|lia..].
    rewrite Hm1, Hg1 in Hscan. destruct Hscan as [[-> Hno]|(Hst&?&?&Hfree&_)].
    + intros [= <- <-]. split; [eauto with pmm|]. apply claim_fail; auto.
    + destruct (Z.eqb_spec start 0); [lia|]. intros [= <- <-].
      apply (claim_take s (with_stat (with_stat s1 _ _ _) _ _ _)); eauto with pmm lia.
  - apply Z.leb_gt in Hbig. unfold PMM_BIG_PAGES in Hbig.
    destruct (pmm_scan_locked _ _ _ _) as [start s2] eqn:Hscan.
    apply pmm_scan_locked_spec in Hscan as [(a&b&c&->) Hscan]; simpl in *; [|lia..].
    rewrite Hm1, Hg1 in Hscan.
    assert (Hfound : forall start s2, pmm_wf s2 -> same_alloc s s2 -> 0 < start -> 0 <= start - 1 ->
      start - 1 + pages <= s.(g_pages) -> run_free s.(g_bm) (start - 1) pages ->
      let s3 := claimed s2 (start - 1) pages in
      pmm_wf (with_next s3 (u64 (start - 1 + pages))) /\
      claim_result s pages (u64 (s3.(g_base_pa) + (start - 1) * PAGE_SIZE))
        (with_next s3 (u64 (start - 1 + pages)))).
    { clear Hscan. intros st s2 Hwf2 H2 ????. simpl.
      destruct (claim_take s s2 (st - 1) pages) as [Hw Hc]; auto; [lia|].
      split; [|done]. apply (wf_with_next _ Hw). rewrite u64_small by lia.
      destruct H2 as (_&Hg2&_). simpl. lia. }
    destruct Hscan as [[-> Hno]|(Hst&?&?&Hfree&_)]; simpl.
    + rewrite (u64_small (s1.(g_next_page) + pages - 1)) by lia. set (tail := if _ <? _ then _ else _).
      assert (Htail : tail = Z.min (s1.(g_next_page) + pages - 1) s.(g_pages)).
      { unfold tail. rewrite Hg1. destruct (Z.ltb_spec s.(g_pages) (s1.(g_next_page) + pages - 1)); lia. }
      clearbody tail. destruct (pmm_scan_locked _ _ tail _) as [st3 s3] eqn:Hscan.
      apply pmm_scan_locked_spec in Hscan as [(a'&b'&c'&->) Hscan]; simpl in *; [|lia..].
      rewrite Hm1, Htail in Hscan. destruct Hscan as [[-> Hno2]|(Hst&?&?&Hfree&_)].
      * intros [= <- <-]. split; [eauto 6 with pmm|]. apply claim_fail; [done|]. right.
        apply (windows_cover _ s1.(g_next_page)); auto; lia.
      * destruct (Z.eqb_spec st3 0); [lia|]. intros [= <- <-]. apply Hfound; eauto 6 with pmm lia.
    + destruct (Z.eqb_spec start 0); [lia|]. destruct (Z.eqb_spec start 0); [lia|].
      intros [= <- <-]. apply Hfound; eauto 6 with pmm lia.
Qed.

(** ** Release, free, reference counts *)

Lemma pmm_release_loop_spec n : forall p s,
  pmm_wf s -> 0 <= p ->
  let s' := pmm_release_loop n p s in
  pmm_wf s' /\ s'.(g_base_pa) = s.(g_base_pa) /\ s'.(g_pages) = s.(g_pages) /\
  s'.(g_rc) = s.(g_rc) /\ s'.(g_next_page) = s.(g_next_page) /\
  (forall q, 0 <= q < s.(g_pages) ->
     pmm_test s' q = negb (bool_decide (p <= q < p + Z.of_nat n)) && pmm_test s q).
Proof.
  induction n as [|n IH]; intros p s Hwf Hp; simpl.
  { split_and!; auto. intros q Hq. rewrite bool_decide_eq_false_2 by lia. done. }
  destruct (Z.ltb_spec p s.(g_pages)) as [Hlt|Hge].
  - pose proof (wf_clear_page s Hwf p ltac:(lia)) as Hwf1.
    destruct (IH (p + 1) _ Hwf1 ltac:(lia)) as (?&?&?&?&?&Ht). split_and!; auto.
    intros q Hq. rewrite Ht by done. unfold pmm_test; simpl.
    pose proof (page_bit s Hwf p ltac:(lia)). rewrite bm_test_clear, andb_assoc by lia. f_equal.
    destruct (Z.eqb_spec q p) as [->|Hne]; simpl.
    + rewrite (bool_decide_eq_true_2 (p <= p < _)) by lia. by rewrite andb_false_r.
    + rewrite andb_true_r. f_equal. apply bool_decide_ext. lia.
  - split_and!; auto. intros q Hq. rewrite bool_decide_eq_false_2 by lia. done.
Qed.

Lemma pmm_release_spec s pa pages :
  pmm_wf s -> 0 <= pages ->
  let s' := pmm_release_locked s pa pages in
  pmm_wf s' /\ s'.(g_base_pa) = s.(g_base_pa) /\ s'.(g_pages) = s.(g_pages) /\
  s'.(g_rc) = s.(g_rc) /\
  (forall q, 0 <= q < s.(g_pages) ->
     pmm_test s' q = match pmm_page_of s pa with
                     | Some st => negb (bool_decide (st <= q < st + pages)) && pmm_test s q
                     | None => pmm_test s q
                     end).
Proof.
  intros Hwf Hpg. unfold pmm_release_locked.
  destruct (pmm_page_of s pa) as [st|] eqn:Hof; simpl; [|by split_and!].
  apply page_of_inv in Hof as (Hst & _ & _); [|done].
  set (s1 := if st <? s.(g_next_page) then with_next s st else s).
  assert (Hwf1 : pmm_wf s1) by (unfold s1; destruct (_ <? _); eauto with pmm lia).
  assert (H1 : same_alloc s s1) by (unfold s1; by destruct (_ <? _)).
  clearbody s1. destruct H1 as (Hb&Hg&Hr&Hm&Hu).
  destruct (pmm_release_loop_spec (Z.to_nat pages) st s1 Hwf1 ltac:(lia)) as (?&?&?&?&_&Ht).
  split_and!; auto; try congruence.
  intros q Hq. rewrite Ht by lia. unfold pmm_test. rewrite Hm. do 2 f_equal.
  apply bool_decide_ext. lia.
Qed.

(** Dropping one reference of one page. *)
Lemma pmm_free_page_spec s pa :
  pmm_wf s ->
  let s' := pmm_free_page s pa in
  pmm_wf s' /\ s'.(g_base_pa) = s.(g_base_pa) /\ s'.(g_pages) = s.(g_pages) /\
  match pmm_page_of s pa with
  | Some p =>
      if 0 <? zget s.(g_rc) p then
        s'.(g_rc) = zset s.(g_rc) p (zget s.(g_rc) p - 1) /\
        forall q, 0 <= q < s.(g_pages) ->
          pmm_test s' q = negb ((q =? p) && (zget s.(g_rc) p =? 1)) && pmm_test s q
      else s' = s
  | None => s' = s
  end.
Proof.
  intros Hwf. unfold pmm_free_page.
  destruct (pmm_page_of s pa) as [p|] eqn:Hof; [|by split_and!].
  pose proof (page_of_inv s Hwf pa p Hof) as (Hp & _ & _).
  pose proof (rc_range s Hwf p Hp). pose proof (wf_rc_len s Hwf).
  destruct (Z.ltb_spec 0 (zget s.(g_rc) p)); [|by split_and!].
  assert (Hwf1 : pmm_wf (with_rc s (zset s.(g_rc) p (zget s.(g_rc) p - 1))))
    by (apply wf_with_rc; [done|lia]).
  simpl. rewrite zget_zset_eq by lia.
  destruct (Z.eqb_spec (zget s.(g_rc) p - 1) 0) as [He|He].
  - destruct (pmm_release_spec _ pa 1 Hwf1 ltac:(lia)) as (?&?&?&?&Ht). simpl in *.
    split_and!; auto. intros q Hq. rewrite Ht by done.
    change (pmm_page_of (with_rc s (zset s.(g_rc) p (zget s.(g_rc) p - 1))) pa) with (pmm_page_of s pa).
    rewrite Hof. unfold pmm_test; simpl. f_equal. f_equal.
    replace (zget s.(g_rc) p =? 1) with true by (symmetry; apply Z.eqb_eq; lia).
    rewrite andb_true_r. destruct (Z.eqb_spec q p) as [->|].
    + by rewrite bool_decide_eq_true_2 by lia.
    + by rewrite bool_decide_eq_false_2 by lia.
  - split_and!; auto. intros q Hq. unfold pmm_test; simpl.
    replace (zget s.(g_rc) p =? 1) with false by (symmetry; apply Z.eqb_neq; lia).
    by rewrite andb_false_r.
Qed.

Lemma pmm_incref_wf s pa : pmm_wf s -> pmm_wf (pmm_incref s pa).
Proof.
  intros Hwf. unfold pmm_incref. destruct (pmm_page_of s pa) as [p|] eqn:Hof; [|done].
  pose proof (page_of_inv s Hwf pa p Hof) as (Hp & _ & _). pose proof (rc_range s Hwf p Hp).
  destruct (Z.ltb_spec (zget s.(g_rc) p) 65535); [|done]. apply wf_with_rc; [done|lia].
Qed.

Lemma rc_set_run_get n : forall p rc q,
  0 <= p -> p + Z.of_nat n <= zlen rc -> 0 <= q ->
  zget (rc_set_run n p rc) q = if bool_decide (p <= q < p + Z.of_nat n) then 1 else zget rc q.
Proof.
  induction n as [|n IH]; intros p rc q Hp Hlen Hq; simpl.
  { rewrite bool_decide_eq_false_2; [done|lia]. }
  rewrite IH by (autorewrite with zlist; lia). rewrite zget_zset by lia.
  repeat case_bool_decide; try case_decide; try done; lia.
Qed.

Lemma zlen_rc_set_run n : forall p rc, zlen (rc_set_run n p rc) = zlen rc.
Proof. induction n as [|n IH]; intros; simpl; [done|]. by rewrite IH, zlen_zset. Qed.

Lemma rc_set_run_ok n : forall p rc,
  Forall (fun r => 0 <= r < 2 ^ 16) rc -> Forall (fun r => 0 <= r < 2 ^ 16) (rc_set_run n p rc).
Proof. induction n as [|n IH]; intros; simpl; [done|]. apply IH, Forall_zset; [done|lia]. Qed.

Lemma pmm_alloc_spec s pages pa s' :
  pmm_wf s -> 0 <= pages < 2 ^ 64 -> pmm_alloc s pages = (pa, s') ->
  pmm_wf s' /\ s'.(g_base_pa) = s.(g_base_pa) /\ s'.(g_pages) = s.(g_pages) /\
  (pa = 0 /\ s'.(g_rc) = s.(g_rc) /\
     (s'.(g_bm) = s.(g_bm) /\
        (pages = 0 \/ (forall st, 0 <= st -> st + pages <= s.(g_pages) -> ~ run_free s.(g_bm) st pages))
      \/ s.(g_base_pa) = 0 /\ 0 < pages <= s.(g_pages) /\ run_free s.(g_bm) 0 pages) \/
   0 < pages /\ exists start, 0 <= start /\ start + pages <= s.(g_pages) /\
     run_free s.(g_bm) start pages /\ pa = s.(g_base_pa) + start * PAGE_SIZE /\ pa <> 0 /\
     (forall q, 0 <= q < s.(g_pages) ->
        pmm_test s' q = bool_decide (start <= q < start + pages) || pmm_test s q) /\
     (forall q, 0 <= q < s.(g_pages) ->
        zget s'.(g_rc) q = if bool_decide (start <= q < start + pages) then 1 else zget s.(g_rc) q)).
Proof.
  intros Hwf Hpg. unfold pmm_alloc. destruct (pmm_claim_locked s pages) as [pa1 s1] eqn:Hc.
  apply pmm_claim_spec in Hc as [Hwf1 (Hb&Hg&Hr&Hres)]; [|done..].
  destruct (Z.eqb_spec pa1 0) as [->|Hne].
  - intros [= <- <-]. split_and!; auto. left. split_and!; auto.
    destruct Hres as [(_&?&_&?)|(?&st&?&?&?&?&?)]; [by left|right].
    pose proof (wf_range s Hwf). assert (st = 0) as -> by (unfold PAGE_SIZE in *; lia).
    split_and!; auto; unfold PAGE_SIZE in *; lia.
  - intros [= <- <-]. destruct Hres as [(?&_)|(?&st&?&?&Hfree&Hpa&Hbm)]; [done|].
    pose proof (page_bits_le s Hwf).
    assert (Hfirst : (pa1 - s1.(g_base_pa)) / PAGE_SIZE = st).
    { rewrite Hpa, Hb. replace (_ + _ - _) with (st * PAGE_SIZE) by lia.
      apply Z.div_mul. unfold PAGE_SIZE. lia. }
    simpl. rewrite Hfirst, Hr. split.
    { pose proof (wf_rc_len s Hwf). destruct Hwf1. rewrite Hr in *. constructor; simpl; auto.
      - by rewrite zlen_rc_set_run.
      - by apply rc_set_run_ok. }
    split_and!; auto. right. split; [done|]. exists st. split_and!; auto.
    + intros q Hq. unfold pmm_test; simpl. rewrite Hbm, bm_set_run_test by lia. f_equal.
      apply bool_decide_ext. lia.
    + intros q Hq. rewrite rc_set_run_get by (rewrite ?(wf_rc_len s Hwf); lia).
      by rewrite Z2Nat.id by lia.
Qed.

(** ** Marking ranges *)

Lemma page_down_mod a : page_down a = a - a mod PAGE_SIZE.
Proof.
  unfold page_down. change (PAGE_SIZE - 1) with (Z.ones 12).
  rewrite <- Z.ldiff_land, Z.ldiff_ones_r, Z.shiftl_mul_pow2, Z.shiftr_div_pow2 by lia.
  change (2 ^ 12) with PAGE_SIZE. rewrite (Z.div_mod a PAGE_SIZE) at 2; unfold PAGE_SIZE; lia.
Qed.

Lemma page_down_aligned a : page_down a mod PAGE_SIZE = 0.
Proof.
  rewrite page_down_mod. rewrite Zminus_mod, Z.mod_mod, Z.sub_diag; unfold PAGE_SIZE; done.
Qed.

Lemma page_down_bound a : page_down a <= a < page_down a + PAGE_SIZE.
Proof. rewrite page_down_mod. pose proof (Z.mod_pos_bound a PAGE_SIZE ltac:(done)). lia. Qed.

Lemma page_down_nonneg a : 0 <= a -> 0 <= page_down a.
Proof. intros. rewrite page_down_mod. pose proof (Z.mod_le a PAGE_SIZE ltac:(done) ltac:(done)). lia. Qed.

Definition page_addr (s : pmm) (q : Z) : Z := s.(g_base_pa) + q * PAGE_SIZE.

(** One page of a marked range: only the page at the aligned address [a]
    changes, to [v]. *)
Definition marks (v : bool) (f : pmm -> Z -> pmm) : Prop :=
  forall s a, pmm_wf s -> a mod PAGE_SIZE = 0 ->
    pmm_wf (f s a) /\ (f s a).(g_base_pa) = s.(g_base_pa) /\ (f s a).(g_pages) = s.(g_pages) /\
    (f s a).(g_rc) = s.(g_rc) /\
    forall q, 0 <= q < s.(g_pages) ->
      pmm_test (f s a) q = if bool_decide (page_addr s q = a) then v else pmm_test s q.

Lemma page_of_aligned s a q :
  pmm_wf s -> a mod PAGE_SIZE = 0 -> 0 <= q < s.(g_pages) ->
  (pmm_page_of s a = Some q <-> page_addr s q = a).
Proof.
  intros Hwf Ha Hq. unfold page_addr. split.
  - intros (_ & Hle & Hd)%page_of_inv; [|done]. pose proof (wf_align s Hwf).
    assert (Hm : (a - s.(g_base_pa)) mod PAGE_SIZE = 0) by (rewrite Zminus_mod, Ha, H; done).
    pose proof (Z.div_mod (a - s.(g_base_pa)) PAGE_SIZE ltac:(done)). lia.
  - intros <-. by apply page_of_page.
Qed.

Lemma marks_free : marks false mark_free_page.
Proof.
  intros s a Hwf Ha. unfold mark_free_page.
  destruct (pmm_page_of s a) as [p|] eqn:Hof.
  - pose proof (page_of_inv s Hwf a p Hof) as (Hp & _). pose proof (page_bit s Hwf p Hp).
    apply page_of_aligned in Hof as Hpa; [|done..].
    pose proof (wf_clear_page s Hwf p Hp) as Hwf1.
    destruct (pmm_test s p) eqn:Ht; split_and!; auto; intros q Hq.
    + unfold pmm_test; simpl. rewrite bm_test_clear by lia. unfold page_addr in *.
      destruct (Z.eqb_spec q p) as [->|]; case_bool_decide; try done; unfold PAGE_SIZE in *; lia.
    + case_bool_decide as Hd; [|done]. unfold page_addr in *.
      assert (q = p) as -> by (unfold PAGE_SIZE in *; lia). done.
  - split_and!; auto. intros q Hq. case_bool_decide as Hd; [|done].
    apply page_of_aligned in Hd; [congruence|done..].
Qed.

Lemma marks_used : marks true mark_used_page.
Proof.
  intros s a Hwf Ha. unfold mark_used_page.
  destruct (pmm_page_of s a) as [p|] eqn:Hof.
  - pose proof (page_of_inv s Hwf a p Hof) as (Hp & _). pose proof (page_bit s Hwf p Hp).
    apply page_of_aligned in Hof as Hpa; [|done..].
    destruct (pmm_test s p) eqn:Ht.
    + split_and!; auto; intros q Hq. case_bool_decide as Hd; [|done]. unfold page_addr in *.
      assert (q = p) as -> by (unfold PAGE_SIZE in *; lia). done.
    + split_and!; auto; [by apply wf_set_page|]. intros q Hq.
      unfold pmm_test; simpl. rewrite bm_test_set by lia. unfold page_addr in *.
      destruct (Z.eqb_spec q p) as [->|]; case_bool_decide; try done; unfold PAGE_SIZE in *; lia.
  - split_and!; auto. intros q Hq. case_bool_decide as Hd; [|done].
    apply page_of_aligned in Hd; [congruence|done..].
Qed.

Lemma for_pages_spec v f n : marks v f -> forall a s,
  pmm_wf s -> 0 <= a -> a mod PAGE_SIZE = 0 -> a + Z.of_nat n * PAGE_SIZE < 2 ^ 64 ->
  let s' := for_pages f n a s in
  pmm_wf s' /\ s'.(g_base_pa) = s.(g_base_pa) /\ s'.(g_pages) = s.(g_pages) /\
  s'.(g_rc) = s.(g_rc) /\
  forall q, 0 <= q < s.(g_pages) ->
    pmm_test s' q = if bool_decide (a <= page_addr s q < a + Z.of_nat n * PAGE_SIZE) then v
                    else pmm_test s q.
Proof.
  intros Hf. induction n as [|n IH]; intros a s Hwf Ha Hal Hend; simpl.
  { split_and!; auto. intros q Hq. rewrite bool_decide_eq_false_2; [done|lia]. }
  destruct (Hf s a Hwf Hal) as (Hwf1&Hb1&Hg1&Hr1&Ht1).
  rewrite u64_small by (unfold PAGE_SIZE in *; lia).
  destruct (IH (a + PAGE_SIZE) (f s a)) as (?&?&?&?&Ht); auto.
  { unfold PAGE_SIZE; lia. } { rewrite Zplus_mod, Hal. done. } { unfold PAGE_SIZE in *; lia. }
  split_and!; auto; try congruence. intros q Hq. rewrite Ht, Ht1 by lia.
  assert (page_addr (f s a) q = page_addr s q) as -> by (unfold page_addr; congruence).
  assert (page_addr s q mod PAGE_SIZE = 0) as Hqa.
  { unfold page_addr. rewrite Z_mod_plus_full. apply (wf_align s Hwf). }
  clear Ht Ht1. pose proof (Z.div_mod (page_addr s q) PAGE_SIZE ltac:(done)).
  pose proof (Z.div_mod a PAGE_SIZE ltac:(done)). rewrite Hqa, Hal in *.
  repeat case_bool_decide; try done; unfold PAGE_SIZE in *; lia.
Qed.

Lemma aligned_mul a : a mod PAGE_SIZE = 0 -> exists k, a = k * 4096.
Proof. intros Ha. exists (a / PAGE_SIZE). pose proof (Z.div_mod a PAGE_SIZE ltac:(done)). unfold PAGE_SIZE in *. lia. Qed.

Lemma page_addr_aligned s q : pmm_wf s -> page_addr s q mod PAGE_SIZE = 0.
Proof. intros Hwf. unfold page_addr. rewrite Z_mod_plus_full. apply (wf_align s Hwf). Qed.

Lemma mark_range v f a e s :
  marks v f -> pmm_wf s -> 0 <= a -> a mod PAGE_SIZE = 0 -> e mod PAGE_SIZE = 0 ->
  a < 2 ^ 64 -> e < 2 ^ 64 ->
  let s' := for_pages f (page_count a e) a s in
  pmm_wf s' /\ s'.(g_base_pa) = s.(g_base_pa) /\ s'.(g_pages) = s.(g_pages) /\
  s'.(g_rc) = s.(g_rc) /\
  forall q, 0 <= q < s.(g_pages) ->
    pmm_test s' q = if bool_decide (a <= page_addr s q < e) then v else pmm_test s q.
Proof.
  intros Hf Hwf Ha0 Ha He Ha64 He64.
  pose proof (Z.div_mod a PAGE_SIZE ltac:(done)). pose proof (Z.div_mod e PAGE_SIZE ltac:(done)).
  pose proof (Z.div_mod (e - a) PAGE_SIZE ltac:(done)) as Hea.
  rewrite Zminus_mod, Ha, He in *. change ((0 - 0) mod PAGE_SIZE) with 0 in Hea.
  destruct (for_pages_spec v f (page_count a e) Hf a s) as (?&?&?&?&Ht);
    auto; [unfold page_count, PAGE_SIZE in *; lia|].
  split_and!; auto. intros q Hq. rewrite Ht by done.
  pose proof (page_addr_aligned s q Hwf).
  pose proof (Z.div_mod (page_addr s q) PAGE_SIZE ltac:(done)).
  unfold page_count. repeat case_bool_decide; try done; exfalso; unfold PAGE_SIZE in *; lia.
Qed.

(** [pmm_core_mark_free] frees exactly the pages that lie inside the byte
    range, [pmm_core_mark_used] takes exactly the pages that meet it. *)
Lemma pmm_core_mark_free_spec s pa bytes :
  pmm_wf s -> 0 <= pa -> 0 <= bytes -> pa + bytes + PAGE_SIZE <= 2 ^ 64 ->
  let s' := pmm_core_mark_free s pa bytes in
  pmm_wf s' /\ s'.(g_base_pa) = s.(g_base_pa) /\ s'.(g_pages) = s.(g_pages) /\
  s'.(g_rc) = s.(g_rc) /\
  forall q, 0 <= q < s.(g_pages) ->
    pmm_test s' q =
      if bool_decide (pa <= page_addr s q /\ page_addr s q + PAGE_SIZE <= pa + bytes)
      then false else pmm_test s q.
Proof.
  intros Hwf Hpa Hby Hend. unfold pmm_core_mark_free. cbv zeta.
  rewrite !u64_small by (unfold PAGE_SIZE in *; lia).
  pose proof (page_down_bound (pa + PAGE_SIZE - 1)). pose proof (page_down_bound (pa + bytes)).
  pose proof (page_down_aligned (pa + PAGE_SIZE - 1)). pose proof (page_down_aligned (pa + bytes)).
  destruct (mark_range false mark_free_page (page_down (pa + PAGE_SIZE - 1)) (page_down (pa + bytes)) s)
    as (?&?&?&?&Ht); auto using marks_free; [unfold PAGE_SIZE in *; lia..|].
  split_and!; auto. intros q Hq. rewrite Ht by done. pose proof (page_addr_aligned s q Hwf).
  apply aligned_mul in H1 as [? H1], H2 as [? H2], H7 as [? H7].
  repeat case_bool_decide; try done; exfalso; unfold PAGE_SIZE in *; lia.
Qed.

Lemma pmm_core_mark_used_spec s pa bytes :
  pmm_wf s -> 0 <= pa -> 0 <= bytes -> pa + bytes + PAGE_SIZE <= 2 ^ 64 ->
  let s' := pmm_core_mark_used s pa bytes in
  pmm_wf s' /\ s'.(g_base_pa) = s.(g_base_pa) /\ s'.(g_pages) = s.(g_pages) /\
  s'.(g_rc) = s.(g_rc) /\
  forall q, 0 <= q < s.(g_pages) ->
    pmm_test s' q =
      if bool_decide (pa < page_addr s q + PAGE_SIZE /\ page_addr s q < pa + bytes)
      then true else pmm_test s q.
Proof.
  intros Hwf Hpa Hby Hend. unfold pmm_core_mark_used. cbv zeta.
  rewrite !u64_small by (unfold PAGE_SIZE in *; lia).
  pose proof (page_down_bound pa). pose proof (page_down_bound (pa + bytes + PAGE_SIZE - 1)).
  pose proof (page_down_aligned pa). pose proof (page_down_aligned (pa + bytes + PAGE_SIZE - 1)).
  destruct (mark_range true mark_used_page (page_down pa) (page_down (pa + bytes + PAGE_SIZE - 1)) s)
    as (?&?&?&?&Ht); auto using marks_used, page_down_nonneg; [unfold PAGE_SIZE in *; lia..|].
  split_and!; auto. intros q Hq. rewrite Ht by done. pose proof (page_addr_aligned s q Hwf).
  apply aligned_mul in H1 as [? H1], H2 as [? H2], H7 as [? H7].
  repeat case_bool_decide; try done; exfalso; unfold PAGE_SIZE in *; lia.
Qed.

(** ** Initial state *)

Lemma zlen_replicate {A} n (x : A) : zlen (replicate n x) = Z.of_nat n.
Proof. unfold zlen. by rewrite length_replicate. Qed.

Lemma setup_test n p : 0 <= p < 8 * Z.of_nat n -> bm_test (replicate n 255) p = true.
Proof.
  intros Hp. rewrite bm_test_testbit, zget_replicate.
  - change 255 with (Z.ones 8). pose proof (mod8_range p). apply Z.ones_spec_low. lia.
  - rewrite <- (zlen_replicate n 255). apply bit_byte_range. by rewrite zlen_replicate.
Qed.

Lemma pmm_core_setup_wf meta base pages bpa rpa :
  0 <= pages -> 0 <= base -> base mod PAGE_SIZE = 0 -> base + pages * PAGE_SIZE <= 2 ^ 64 ->
  pmm_wf (pmm_core_setup meta base pages bpa rpa) /\
  forall q, 0 <= q < pages -> pmm_test (pmm_core_setup meta base pages bpa rpa) q = true.
Proof.
  intros Hpg Hb Hal Hend. unfold pmm_core_setup, pmm_test; simpl.
  rewrite u64_small by (unfold PAGE_SIZE in *; lia).
  pose proof (Z.div_mod (pages + 7) 8 ltac:(lia)).
  pose proof (Z.mod_pos_bound (pages + 7) 8 ltac:(lia)).
  assert (Hall : forall q, 0 <= q < pages ->
    bm_test (replicate (Z.to_nat ((pages + 7) / 8)) 255) q = true).
  { intros q Hq. apply setup_test. lia. }
  split; [|done]. constructor; simpl; auto.
  - rewrite zlen_replicate. lia.
  - apply Forall_replicate. unfold byte_ok. lia.
  - rewrite zlen_replicate. lia.
  - apply Forall_replicate. lia.
  - rewrite (popcnt_ext _ (fun _ => true)), popcnt_const_true by (intros; apply Hall; lia). lia.
  - lia.
Qed.

Lemma pmm_core_reserve_page_spec s pa :
  pmm_wf s ->
  let '(ok, s') := pmm_core_reserve_page s pa in
  pmm_wf s' /\ s'.(g_base_pa) = s.(g_base_pa) /\ s'.(g_pages) = s.(g_pages) /\
  if ok then exists p, pmm_page_of s pa = Some p /\ pmm_test s p = false /\
      pmm_test s' p = true /\ zget s'.(g_rc) p = 1 /\
      (forall q, 0 <= q < s.(g_pages) -> q <> p ->
         pmm_test s' q = pmm_test s q /\ zget s'.(g_rc) q = zget s.(g_rc) q)
  else s' = s.
Proof.
  intros Hwf. unfold pmm_core_reserve_page. destruct (pmm_page_of s pa) as [p|] eqn:Hof; [|done].
  pose proof (page_of_inv s Hwf pa p Hof) as (Hp & _). pose proof (page_bit s Hwf p Hp).
  pose proof (wf_rc_len s Hwf).
  destruct (pmm_test s p) eqn:Ht; [done|]. split_and!; auto.
  - apply (wf_with_rc _ (wf_set_page s Hwf p Hp Ht)). lia.
  - exists p. unfold pmm_test; simpl. rewrite bm_test_set, Z.eqb_refl, zget_zset_eq by lia.
    split_and!; auto. intros q Hq Hne. rewrite bm_test_set, zget_zset_ne by lia.
    apply Z.eqb_neq in Hne. by rewrite Hne.
Qed.

Lemma pmm_free_loop_wf n : forall i base s,
  pmm_wf s -> pmm_wf (pmm_free_loop n i base s) /\
    (pmm_free_loop n i base s).(g_base_pa) = s.(g_base_pa) /\
    (pmm_free_loop n i base s).(g_pages) = s.(g_pages).
Proof.
  induction n as [|n IH]; intros i base s Hwf; simpl; [done|].
  destruct (pmm_free_page_spec s (u64 (base + i * PAGE_SIZE)) Hwf) as (Hw&Hb&Hg&_).
  destruct (IH (i + 1) base _ Hw) as (?&?&?). split_and!; auto; congruence.
Qed.

(** ** The abstract allocator

    A page is owned (with a positive reference count), pinned (claimed
    without a count, for page tables, DMA and the metadata itself) or free. *)

Record apmm := mkApmm { owners : gmap Z Z; pinned : gset Z }.

Inductive alabel :=
  | LAlloc (n : Z) (r : option Z)
  | LClaim (n : Z) (r : option Z)
  | LIncref (p : Z)
  | LFree (p : Z).

Definition unused (a : apmm) (p : Z) : Prop := a.(owners) !! p = None /\ p ∉ a.(pinned).

Definition unused_run (total : Z) (a : apmm) (st n : Z) : Prop :=
  0 <= st /\ st + n <= total /\ forall q, st <= q < st + n -> unused a q.

Definition seqZset (st n : Z) : gset Z := list_to_set (seqZ st n).

Definition grant (st n : Z) (o : gmap Z Z) : gmap Z Z := gset_to_gmap 1 (seqZset st n) ∪ o.

Inductive astep (total : Z) : apmm -> alabel -> apmm -> Prop :=
  | astep_alloc a n st :
      0 < n -> unused_run total a st n ->
      astep total a (LAlloc n (Some st)) (mkApmm (grant st n a.(owners)) a.(pinned))
  | astep_alloc_fail a n :
      (n = 0 \/ forall st, ~ unused_run total a st n) -> astep total a (LAlloc n None) a
  | astep_claim a n st :
      0 < n -> unused_run total a st n ->
      astep total a (LClaim n (Some st)) (mkApmm a.(owners) (seqZset st n ∪ a.(pinned)))
  | astep_claim_fail a n :
      (n = 0 \/ forall st, ~ unused_run total a st n) -> astep total a (LClaim n None) a
  | astep_incref a p r :
      a.(owners) !! p = Some r -> r < 65535 ->
      astep total a (LIncref p) (mkApmm (<[p := r + 1]> a.(owners)) a.(pinned))
  | astep_free_shared a p r :
      a.(owners) !! p = Some r -> 1 < r ->
      astep total a (LFree p) (mkApmm (<[p := r - 1]> a.(owners)) a.(pinned))
  | astep_free_last a p :
      a.(owners) !! p = Some 1 ->
      astep total a (LFree p) (mkApmm (delete p a.(owners)) a.(pinned))
  | astep_free_unowned a p :
      a.(owners) !! p = None -> astep total a (LFree p) a.

(** The abstraction of a concrete state. *)
Definition owners_of (s : pmm) : gmap Z Z :=
  set_to_map (fun p => (p, zget s.(g_rc) p))
    (filter (fun p => 0 < zget s.(g_rc) p) (seqZset 0 s.(g_pages))).
Definition pinned_of (s : pmm) : gset Z :=
  filter (fun p => zget s.(g_rc) p = 0 /\ pmm_test s p = true) (seqZset 0 s.(g_pages)).
Definition pmm_abs (s : pmm) : apmm := mkApmm (owners_of s) (pinned_of s).

(** A referenced page is marked used.  [pmm_incref] of a page nobody owns
    would break this, so the clients only share pages they own. *)
Definition refs_ok (s : pmm) : Prop :=
  forall p, 0 <= p < s.(g_pages) -> 0 < zget s.(g_rc) p -> pmm_test s p = true.

Lemma elem_of_seqZset st n q : q ∈ seqZset st n <-> st <= q < st + n.
Proof. unfold seqZset. rewrite elem_of_list_to_set, elem_of_seqZ. lia. Qed.

Lemma owners_lookup s p :
  owners_of s !! p =
    if bool_decide (0 <= p < s.(g_pages) /\ 0 < zget s.(g_rc) p) then Some (zget s.(g_rc) p) else None.
Proof.
  unfold owners_of. apply option_eq. intros r. rewrite lookup_set_to_map by (by intros).
  setoid_rewrite elem_of_filter. setoid_rewrite elem_of_seqZset.
  case_bool_decide as Hd; split.
  - intros (y & _ & [= -> <-]). done.
  - intros [= <-]. exists p. split; [split; [tauto|lia]|done].
  - intros (y & ? & [= -> <-]). exfalso. apply Hd. split; [lia|tauto].
  - done.
Qed.

Lemma elem_of_pinned s p :
  p ∈ pinned_of s <-> 0 <= p < s.(g_pages) /\ zget s.(g_rc) p = 0 /\ pmm_test s p = true.
Proof. unfold pinned_of. rewrite elem_of_filter, elem_of_seqZset. intuition lia. Qed.

Lemma grant_lookup st n o q :
  grant st n o !! q = if bool_decide (st <= q < st + n) then Some 1 else o !! q.
Proof.
  unfold grant. case_bool_decide as Hd.
  - apply lookup_union_Some_l, lookup_gset_to_gmap_Some. split; [by apply elem_of_seqZset|done].
  - apply lookup_union_r, lookup_gset_to_gmap_None. by rewrite elem_of_seqZset.
Qed.

Section refine.
Variable s : pmm.
Hypothesis Hwf : pmm_wf s.
Hypothesis Hrefs : refs_ok s.

Lemma unused_iff p : 0 <= p < s.(g_pages) -> (unused (pmm_abs s) p <-> pmm_test s p = false).
Proof using All.
  intros Hp. unfold unused; simpl. rewrite owners_lookup, elem_of_pinned.
  pose proof (rc_range s Hwf p Hp). specialize (Hrefs p Hp).
  destruct (pmm_test s p); case_bool_decide; intuition (try done; lia).
Qed.

Lemma unused_run_iff st n :
  unused_run s.(g_pages) (pmm_abs s) st n <->
  0 <= st /\ st + n <= s.(g_pages) /\ run_free s.(g_bm) st n.
Proof using All.
  unfold unused_run, run_free. split; intros (?&?&Hq); split_and!; auto; intros q Hr.
  - apply unused_iff; [lia|]. by apply Hq.
  - apply unused_iff; [lia|]. by apply Hq.
Qed.

(** The abstraction after an operation, from what the operation does to
    the two arrays. *)
Lemma pmm_abs_eq s' o k :
  s'.(g_pages) = s.(g_pages) ->
  (forall p, 0 <= p < s.(g_pages) ->
     o !! p = (if bool_decide (0 < zget s'.(g_rc) p) then Some (zget s'.(g_rc) p) else None)) ->
  (forall p, ~ 0 <= p < s.(g_pages) -> o !! p = None /\ p ∉ k) ->
  (forall p, 0 <= p < s.(g_pages) ->
     (p ∈ k <-> zget s'.(g_rc) p = 0 /\ pmm_test s' p = true)) ->
  pmm_abs s' = mkApmm o k.
Proof.
  intros Hg Ho Hout Hk. unfold pmm_abs. f_equal.
  - apply map_eq. intros p. rewrite owners_lookup, Hg.
    destruct (decide (0 <= p < s.(g_pages))) as [Hp|Hp].
    + rewrite Ho by done. repeat case_bool_decide; try done; tauto.
    + destruct (Hout p Hp) as [-> _]. case_bool_decide; [tauto|done].
  - apply set_eq. intros p. rewrite elem_of_pinned, Hg.
    destruct (decide (0 <= p < s.(g_pages))) as [Hp|Hp].
    + rewrite Hk by done. tauto.
    + destruct (Hout p Hp). tauto.
Qed.

Lemma owners_out p : ~ 0 <= p < s.(g_pages) -> owners_of s !! p = None /\ p ∉ pinned_of s.
Proof.
  intros Hp. rewrite owners_lookup, elem_of_pinned. case_bool_decide; [tauto|]. split; [done|tauto].
Qed.

Lemma owners_in p :
  0 <= p < s.(g_pages) ->
  owners_of s !! p = if bool_decide (0 < zget s.(g_rc) p) then Some (zget s.(g_rc) p) else None.
Proof. intros Hp. rewrite owners_lookup. repeat case_bool_decide; try done; tauto. Qed.

Lemma pmm_alloc_refines n pa s' :
  s.(g_base_pa) <> 0 -> 0 <= n < 2 ^ 64 -> pmm_alloc s n = (pa, s') ->
  refs_ok s' /\
  astep s.(g_pages) (pmm_abs s)
    (LAlloc n (if pa =? 0 then None else pmm_page_of s pa)) (pmm_abs s').
Proof using All.
  intros Hb0 Hn Ha. apply pmm_alloc_spec in Ha as (Hw&Hb&Hg&Ha); [|done..].
  destruct Ha as [(->&Hr&[[Hm Hno]|[? _]])|(Hn0&st&Hst&Hend&Hfree&Hpa&Hpa0&Ht&Hrc)]; [| congruence|].
  - assert (pmm_abs s' = pmm_abs s) as ->.
    { apply pmm_abs_eq; auto using owners_out, owners_in.
      - intros p Hp. rewrite Hr. by apply owners_in.
      - intros p Hp. rewrite elem_of_pinned, Hr. unfold pmm_test. rewrite Hm. tauto. }
    split.
    + intros p. rewrite Hg, Hr. unfold pmm_test. rewrite Hm. apply Hrefs.
    + constructor. destruct Hno as [?|Hno]; [by left|right].
      intros st (?&?&?)%unused_run_iff. by apply (Hno st).
  - apply Z.eqb_neq in Hpa0. rewrite Hpa0, Hpa, page_of_page by (done || lia).
    assert (pmm_abs s' = mkApmm (grant st n (owners_of s)) (pinned_of s)) as ->.
    { apply pmm_abs_eq; auto.
      - intros p Hp. rewrite grant_lookup, Hrc, owners_in by done. by case_bool_decide.
      - intros p Hp. rewrite grant_lookup. rewrite bool_decide_eq_false_2 by lia. by apply owners_out.
      - intros p Hp. rewrite elem_of_pinned, Hrc, Ht by done. case_bool_decide as Hd; simpl; [|tauto].
        unfold pmm_test. rewrite Hfree by done. intuition done. }
    split.
    + intros p. rewrite Hg. intros Hp. rewrite Hrc, Ht by done. case_bool_decide; [done|].
      simpl. by apply Hrefs.
    + apply astep_alloc; [done|]. apply unused_run_iff. done.
Qed.

Lemma pmm_claim_refines n pa s' :
  s.(g_base_pa) <> 0 -> 0 <= n < 2 ^ 64 -> pmm_core_claim s n = (pa, s') ->
  refs_ok s' /\
  astep s.(g_pages) (pmm_abs s)
    (LClaim n (if pa =? 0 then None else pmm_page_of s pa)) (pmm_abs s').
Proof using All.
  intros Hb0 Hn Hc. apply pmm_claim_spec in Hc as (Hw&Hb&Hg&Hr&Hc); [|done..].
  pose proof (wf_range s Hwf).
  destruct Hc as [(->&Hm&_&Hno)|(Hn0&st&Hst&Hend&Hfree&Hpa&Hm)].
  - assert (pmm_abs s' = pmm_abs s) as ->.
    { apply pmm_abs_eq; auto using owners_out, owners_in.
      - intros p Hp. rewrite Hr. by apply owners_in.
      - intros p Hp. rewrite elem_of_pinned, Hr. unfold pmm_test. rewrite Hm. tauto. }
    split.
    + intros p. rewrite Hg, Hr. unfold pmm_test. rewrite Hm. apply Hrefs.
    + constructor. destruct Hno as [?|Hno]; [by left|right].
      intros st (?&?&?)%unused_run_iff. by apply (Hno st).
  - rewrite Hpa. destruct (Z.eqb_spec (s.(g_base_pa) + st * PAGE_SIZE) 0); [unfold PAGE_SIZE in *; lia|].
    rewrite page_of_page by (done || lia). pose proof (page_bits_le s Hwf).
    assert (Ht : forall p, 0 <= p < s.(g_pages) ->
      pmm_test s' p = bool_decide (st <= p < st + n) || pmm_test s p).
    { intros p Hp. unfold pmm_test. rewrite Hm, bm_set_run_test by lia. f_equal.
      apply bool_decide_ext. lia. }
    assert (Hrc0 : forall p, st <= p < st + n -> zget s.(g_rc) p = 0).
    { intros p Hp. pose proof (rc_range s Hwf p ltac:(lia)).
      destruct (decide (zget s.(g_rc) p = 0)); [done|].
      pose proof (Hrefs p ltac:(lia) ltac:(lia)) as Hu. unfold pmm_test in Hu.
      rewrite Hfree in Hu by done. done. }
    assert (pmm_abs s' = mkApmm (owners_of s) (seqZset st n ∪ pinned_of s)) as ->.
    { apply pmm_abs_eq; auto.
      - intros p Hp. rewrite Hr. by apply owners_in.
      - intros p Hp. rewrite elem_of_union, elem_of_seqZset. destruct (owners_out p Hp).
        split; [done|]. intros [?|?]; [lia|done].
      - intros p Hp. rewrite elem_of_union, elem_of_seqZset, elem_of_pinned, Hr, Ht by done.
        case_bool_decide as Hd; simpl; [|tauto]. rewrite Hrc0 by done. tauto. }
    split.
    + intros p. rewrite Hg. intros Hp. rewrite Hr, Ht by done. intros. rewrite Hrefs by done.
      by rewrite orb_true_r.
    + apply astep_claim; [done|]. by apply unused_run_iff.
Qed.

Lemma pmm_incref_refines p r :
  owners_of s !! p = Some r -> r < 65535 ->
  let s' := pmm_incref s (page_addr s p) in
  refs_ok s' /\ astep s.(g_pages) (pmm_abs s) (LIncref p) (pmm_abs s').
Proof using All.
  intros Ho Hr. pose proof Ho as Hown. rewrite owners_lookup in Ho. case_bool_decide as Hd; [|done].
  injection Ho as <-. destruct Hd as [Hp Hpos].
  unfold pmm_incref, page_addr. rewrite page_of_page by done.
  apply Z.ltb_lt in Hr as Hr'. rewrite Hr'. simpl. pose proof (wf_rc_len s Hwf).
  split.
  - intros q Hq. simpl in *. rewrite zget_zset by lia. case_decide as Heq; [subst q|].
    + intros _. by apply Hrefs.
    + by apply Hrefs.
  - rewrite (pmm_abs_eq (with_rc s _) (<[p := zget s.(g_rc) p + 1]> (owners_of s)) (pinned_of s)); simpl; auto.
    + by apply astep_incref.
    + intros q Hq. rewrite zget_zset, lookup_insert, owners_in by lia.
      repeat case_decide; try done. by rewrite bool_decide_eq_true_2 by lia.
    + intros q Hq. rewrite lookup_insert_ne by (intros ->; lia). by apply owners_out.
    + intros q Hq. rewrite elem_of_pinned, zget_zset by lia. unfold pmm_test; simpl.
      case_decide; [subst; intuition lia|tauto].
Qed.

Lemma pmm_free_refines p :
  0 <= p < s.(g_pages) ->
  let s' := pmm_free_page s (page_addr s p) in
  refs_ok s' /\ astep s.(g_pages) (pmm_abs s) (LFree p) (pmm_abs s').
Proof using All.
  intros Hp. destruct (pmm_free_page_spec s (page_addr s p) Hwf) as (Hw&Hb&Hg&Hres).
  assert (Hof : pmm_page_of s (page_addr s p) = Some p) by (by apply page_of_page).
  rewrite Hof in Hres. pose proof (wf_rc_len s Hwf).
  pose proof (rc_range s Hwf p Hp).
  destruct (Z.ltb_spec 0 (zget s.(g_rc) p)).
  2: { simpl. rewrite Hres. split; [done|]. constructor; simpl. rewrite owners_in by done.
       by rewrite bool_decide_eq_false_2 by lia. }
  destruct Hres as [Hr Ht]. simpl. split.
  { intros q. rewrite Hg. intros Hq. rewrite Ht, Hr, zget_zset by lia.
    destruct (Z.eqb_spec q p) as [->|]; simpl.
    - rewrite decide_True by done. destruct (Z.eqb_spec (zget s.(g_rc) p) 1); simpl; [lia|].
      intros. apply Hrefs; lia.
    - rewrite decide_False by done. by apply Hrefs. }
  destruct (decide (zget s.(g_rc) p = 1)) as [Hone|Hone].
  - rewrite (pmm_abs_eq (pmm_free_page s _) (delete p (owners_of s)) (pinned_of s)); auto.
    + apply astep_free_last; simpl. rewrite owners_in, Hone by done. by rewrite bool_decide_eq_true_2.
    + intros q Hq. rewrite Hr, zget_zset, lookup_delete, owners_in by lia.
      repeat case_decide; try done. rewrite bool_decide_eq_false_2; [done|lia].
    + intros q Hq. rewrite lookup_delete_ne by (intros ->; lia). by apply owners_out.
    + intros q Hq. rewrite elem_of_pinned, Hr, Ht, zget_zset by lia. rewrite Hone. simpl.
      case_decide; [subst|]; [rewrite Z.eqb_refl; simpl; rewrite Hone; intuition done|].
      destruct (Z.eqb_spec q p); [congruence|]. simpl. tauto.
  - rewrite (pmm_abs_eq (pmm_free_page s _) (<[p := zget s.(g_rc) p - 1]> (owners_of s)) (pinned_of s)); auto.
    + apply astep_free_shared; simpl; [|lia]. rewrite owners_in by done.
      by rewrite bool_decide_eq_true_2.
    + intros q Hq. rewrite Hr, zget_zset, lookup_insert, owners_in by lia.
      repeat case_decide; try done. by rewrite bool_decide_eq_true_2 by lia.
    + intros q Hq. rewrite lookup_insert_ne by (intros ->; lia). by apply owners_out.
    + intros q Hq. rewrite elem_of_pinned, Hr, Ht, zget_zset by lia.
      destruct (Z.eqb_spec (zget s.(g_rc) p) 1); [lia|]. rewrite andb_false_r. simpl.
      case_decide; [subst; intuition lia|tauto].
Qed.
End refine.

(** ** Freeing what was allocated *)

Lemma pmm_free_run n : forall st s i base,
  pmm_wf s -> 0 <= st -> 0 <= i -> st + i + Z.of_nat n <= s.(g_pages) ->
  base = page_addr s st ->
  (forall q, st + i <= q < st + i + Z.of_nat n -> zget s.(g_rc) q = 1) ->
  let s' := pmm_free_loop n i base s in
  forall q, 0 <= q < s.(g_pages) ->
    pmm_test s' q = negb (bool_decide (st + i <= q < st + i + Z.of_nat n)) && pmm_test s q /\
    zget s'.(g_rc) q = if bool_decide (st + i <= q < st + i + Z.of_nat n) then 0 else zget s.(g_rc) q.
Proof.
  induction n as [|n IH]; intros st s i base Hwf Hst Hi Hend Hbase Hone s' q Hq; subst s'; cbn [pmm_free_loop].
  { rewrite bool_decide_eq_false_2 by lia. done. }
  pose proof (wf_range s Hwf). pose proof (wf_rc_len s Hwf).
  assert (Hpa : u64 (base + i * PAGE_SIZE) = page_addr s (st + i)).
  { rewrite Hbase. unfold page_addr. rewrite u64_small; unfold PAGE_SIZE in *; lia. }
  rewrite Hpa. destruct (pmm_free_page_spec s (page_addr s (st + i)) Hwf) as (Hw&Hb&Hg&Hres).
  assert (Hof : pmm_page_of s (page_addr s (st + i)) = Some (st + i)) by (apply page_of_page; lia || done).
  rewrite Hof, (Hone (st + i)) in Hres by lia. simpl in Hres. destruct Hres as [Hr Ht].
  destruct (IH st (pmm_free_page s (page_addr s (st + i))) (i + 1) base) with (q := q) as [-> ->];
    auto; try lia.
  { unfold page_addr in *. congruence. }
  { intros p Hp. rewrite Hr, zget_zset_ne by lia. apply Hone. lia. }
  rewrite Ht, Hr, zget_zset by lia.
  destruct (Z.eqb_spec q (st + i)) as [->|]; simpl.
  - rewrite !(bool_decide_eq_true_2 (st + i <= st + i < st + i + Z.of_nat (S n))) by lia.
    rewrite decide_True by done. rewrite andb_false_r. split; [done|]. by case_bool_decide.
  - rewrite decide_False by done.
    rewrite (bool_decide_ext (st + (i + 1) <= q < st + (i + 1) + Z.of_nat n)
               (st + i <= q < st + i + Z.of_nat (S n))) by lia. done.
Qed.

(** ** Sequences of calls *)

Inductive pmm_call := CAlloc (n : Z) | CClaim (n : Z) | CIncref (p : Z) | CFree (p : Z).

(** A client passes page counts that fit [size_t], frees pages of the managed
    range and shares only pages it owns, fewer than 65535 times. *)
Definition call_ok (s : pmm) (c : pmm_call) : Prop :=
  match c with
  | CAlloc n | CClaim n => 0 <= n < 2 ^ 64
  | CIncref p => exists r, owners_of s !! p = Some r /\ r < 65535
  | CFree p => 0 <= p < s.(g_pages)
  end.

Definition exec_call (s : pmm) (c : pmm_call) : alabel * pmm :=
  match c with
  | CAlloc n => let '(pa, s') := pmm_alloc s n in
      (LAlloc n (if pa =? 0 then None else pmm_page_of s pa), s')
  | CClaim n => let '(pa, s') := pmm_core_claim s n in
      (LClaim n (if pa =? 0 then None else pmm_page_of s pa), s')
  | CIncref p => (LIncref p, pmm_incref s (page_addr s p))
  | CFree p => (LFree p, pmm_free s (page_addr s p) 1)
  end.

Inductive pmm_run : pmm -> list alabel -> pmm -> Prop :=
  | pmm_run_nil s : pmm_run s [] s
  | pmm_run_cons s c l s1 tr s2 :
      call_ok s c -> exec_call s c = (l, s1) -> pmm_run s1 tr s2 -> pmm_run s (l :: tr) s2.

Inductive apmm_run (total : Z) : apmm -> list alabel -> apmm -> Prop :=
  | apmm_run_nil a : apmm_run total a [] a
  | apmm_run_cons a l a1 tr a2 :
      astep total a l a1 -> apmm_run total a1 tr a2 -> apmm_run total a (l :: tr) a2.

Lemma pmm_free_one s p :
  pmm_wf s -> 0 <= p < s.(g_pages) -> pmm_free s (page_addr s p) 1 = pmm_free_page s (page_addr s p).
Proof.
  intros Hwf Hp. unfold pmm_free. change (Z.to_nat 1) with 1%nat. cbn [pmm_free_loop].
  replace (page_addr s p + 0 * PAGE_SIZE) with (page_addr s p) by lia.
  pose proof (wf_range s Hwf). rewrite u64_small; [done|]. unfold page_addr, PAGE_SIZE in *. lia.
Qed.

Lemma exec_call_refines s c l s' :
  pmm_wf s -> refs_ok s -> s.(g_base_pa) <> 0 -> call_ok s c -> exec_call s c = (l, s') ->
  pmm_wf s' /\ refs_ok s' /\ s'.(g_base_pa) = s.(g_base_pa) /\ s'.(g_pages) = s.(g_pages) /\
  astep s.(g_pages) (pmm_abs s) l (pmm_abs s').
Proof.
  intros Hwf Hrefs Hb0 Hok. destruct c as [n|n|p|p]; simpl in *.
  - destruct (pmm_alloc s n) as [pa s1] eqn:Ha. intros [= <- <-].
    pose proof (pmm_alloc_spec s n pa s1 Hwf Hok Ha) as (?&?&?&_).
    destruct (pmm_alloc_refines s Hwf Hrefs n pa s1); auto. 
  - destruct (pmm_core_claim s n) as [pa s1] eqn:Ha. intros [= <- <-].
    pose proof (pmm_claim_spec s n pa s1 Hwf Hok Ha) as (?&?&?&_).
    destruct (pmm_claim_refines s Hwf Hrefs n pa s1); auto.
  - intros [= <- <-]. destruct Hok as (r & Ho & Hr).
    destruct (pmm_incref_refines s Hwf Hrefs p r Ho Hr).
    split_and!; auto using pmm_incref_wf; unfold pmm_incref; by repeat case_match.
  - rewrite pmm_free_one by done. intros [= <- <-].
    destruct (pmm_free_page_spec s (page_addr s p) Hwf) as (?&?&?&_).
    destruct (pmm_free_refines s Hwf Hrefs p Hok). auto.
Qed.

Lemma pmm_core_wf_ex0 : pmm_wf ex0 /\ refs_ok ex0.
Proof.
  assert (Hwf : pmm_wf ex0_setup) by (apply pmm_core_setup_wf; done).
  destruct (pmm_core_mark_free_spec ex0_setup (1048576 + 16384) 147456 Hwf) as (Hw&_&Hg&Hr&_); [done..|].
  unfold ex0. split; [exact Hw|]. intros p. rewrite Hg, Hr. intros Hp Hpos.
  change (g_pages ex0_setup) with 40 in Hp. change (g_rc ex0_setup) with (replicate 40 0) in Hpos.
  rewrite zget_replicate in Hpos; lia.
Qed.

(** ** Theorems *)

(** every operation of the allocator keeps the state well formed: the
    array lengths, the byte and counter ranges, the search origin, and
    [g_used] being exactly the number of pages marked used. *)
Theorem pmm_operations_preserve_wf s :
  pmm_wf s ->
  (forall n, 0 <= n < 2 ^ 64 -> pmm_wf (pmm_alloc s n).2 /\ pmm_wf (pmm_core_claim s n).2) /\
  (forall pa n, 0 <= n -> pmm_wf (pmm_core_release s pa n) /\ pmm_wf (pmm_free s pa n)) /\
  (forall pa, pmm_wf (pmm_incref s pa) /\ pmm_wf (pmm_core_reserve_page s pa).2) /\
  (forall pa bytes, 0 <= pa -> 0 <= bytes -> pa + bytes + PAGE_SIZE <= 2 ^ 64 ->
     pmm_wf (pmm_core_mark_free s pa bytes) /\ pmm_wf (pmm_core_mark_used s pa bytes)) /\
  (forall meta, pmm_wf (pmm_core_rebind meta s)) /\ pmm_wf (pmm_core_take_scan_stat s).2.
Proof.
  intros Hwf. split_and!.
  - intros n Hn. destruct (pmm_alloc s n) as [pa s1] eqn:Ha. destruct (pmm_core_claim s n) as [pb s2] eqn:Hc.
    split; [by apply (pmm_alloc_spec s n pa)|by apply (pmm_claim_spec s n pb)].
  - intros pa n Hn. split; [by apply pmm_release_spec|by apply pmm_free_loop_wf].
  - intros pa. split; [by apply pmm_incref_wf|].
    pose proof (pmm_core_reserve_page_spec s pa Hwf) as Hr.
    destruct (pmm_core_reserve_page s pa). tauto.
  - intros pa bytes ???. split; [by apply pmm_core_mark_free_spec|by apply pmm_core_mark_used_spec].
  - intros meta. destruct Hwf. by constructor.
  - by apply wf_with_stat.
Qed.

Lemma pmm_operations_preserve_wf_witness :
  pmm_wf (pmm_alloc ex0 3).2 /\ pmm_wf (pmm_free ex0 1048576 2).
Proof.
  pose proof (pmm_operations_preserve_wf ex0 (proj1 pmm_core_wf_ex0)) as (Ha & Hf & _). split.
  - refine (proj1 (Ha 3 _)). lia.
  - refine (proj2 (Hf 1048576 2 _)). lia.
Defined.






