(* ===== verification/PmmArch.v ===== *)
(** * Handing memory to the page allocator at boot

    The three [pmm_init] routines (kernel/x86_64/pmm.c, kernel/aarch64/pmm.c,
    kernel/riscv64/pmm.c): each decides the managed range and where the
    bitmap and the reference counts live, and marks what may be handed out.
    The theorems say what can never be handed out afterwards: the allocator's
    own metadata, page 0, the device tree, the RAM disk, and anything the
    firmware did not report as usable. *)
From S2P Require Import Prelude Pmm.

(** ** Facts shared by the three routines *)

(** [a] may be handed out in [s]. *)
Definition may_alloc (s : pmm) (q : Z) : Prop := 0 <= q < s.(g_pages) /\ pmm_test s q = false.

(** The page at [a] meets the byte range [pa, pa + bytes). *)
Definition meets (a pa bytes : Z) : Prop := pa < a + PAGE_SIZE /\ a < pa + bytes.
(** The page at [a] lies inside the byte range. *)
Definition inside (a pa bytes : Z) : Prop := pa <= a /\ a + PAGE_SIZE <= pa + bytes.

Definition range_ok (pa bytes : Z) : Prop := 0 <= pa /\ 0 <= bytes /\ pa + bytes + PAGE_SIZE <= 2 ^ 64.

(** What a boot step keeps: the managed range, and well-formedness. *)
Definition boot_step (s s' : pmm) : Prop :=
  pmm_wf s' /\ s'.(g_base_pa) = s.(g_base_pa) /\ s'.(g_pages) = s.(g_pages).

Lemma mark_free_boot s pa bytes :
  pmm_wf s -> range_ok pa bytes ->
  boot_step s (pmm_core_mark_free s pa bytes) /\
  forall q, may_alloc (pmm_core_mark_free s pa bytes) q ->
    may_alloc s q \/ inside (page_addr s q) pa bytes.
Proof.
  intros Hwf (?&?&?). destruct (pmm_core_mark_free_spec s pa bytes) as (?&?&Hg&_&Ht); auto.
  split; [done|]. intros q [Hq Hf]. rewrite Hg in Hq. rewrite Ht in Hf by done.
  case_bool_decide; [by right|by left].
Qed.

Lemma mark_used_boot s pa bytes :
  pmm_wf s -> range_ok pa bytes ->
  boot_step s (pmm_core_mark_used s pa bytes) /\
  forall q, may_alloc (pmm_core_mark_used s pa bytes) q ->
    may_alloc s q /\ ~ meets (page_addr s q) pa bytes.
Proof.
  intros Hwf (?&?&?). destruct (pmm_core_mark_used_spec s pa bytes) as (?&?&Hg&_&Ht); auto.
  split; [done|]. intros q [Hq Hf]. rewrite Hg in Hq. rewrite Ht in Hf by done.
  case_bool_decide; [done|]. by split.
Qed.

Lemma mark_used_if_boot s (c : bool) pa bytes :
  pmm_wf s -> range_ok pa bytes ->
  let s' := if c then pmm_core_mark_used s pa bytes else s in
  boot_step s s' /\
  forall q, may_alloc s' q -> may_alloc s q /\ (c = true -> ~ meets (page_addr s q) pa bytes).
Proof.
  intros Hwf Hr. destruct c; simpl; [|done].
  destruct (mark_used_boot s pa bytes Hwf Hr) as [? Hf]. split; [done|]. intros q [? ?]%Hf. by split.
Qed.

Lemma reserve_boot s pa ok s' :
  pmm_wf s -> pmm_core_reserve_page s pa = (ok, s') ->
  boot_step s s' /\ forall q, may_alloc s' q -> may_alloc s q.
Proof.
  intros Hwf He. pose proof (pmm_core_reserve_page_spec s pa Hwf) as Hr. rewrite He in Hr.
  destruct Hr as (?&?&Hg&Hok). split; [done|]. intros q [Hq Hf].
  rewrite Hg in Hq. split; [done|]. destruct ok; [|by subst].
  destruct Hok as (p&_&_&Ht&_&Hne). destruct (decide (q = p)) as [->|]; [congruence|].
  destruct (Hne q) as [<- _]; done.
Qed.

Lemma boot_step_trans s1 s2 s3 : boot_step s1 s2 -> boot_step s2 s3 -> boot_step s1 s3.
Proof. unfold boot_step. intros (?&?&?) (?&?&?). split_and!; congruence. Qed.

Lemma boot_step_addr s s' q : boot_step s s' -> page_addr s' q = page_addr s q.
Proof. unfold page_addr. by intros (_&->&_). Qed.

(** Freeing a list of byte ranges. *)
Lemma mark_free_list_boot (l : list (Z * Z)) : forall s,
  pmm_wf s -> Forall (fun r => range_ok r.1 r.2) l ->
  let s' := foldl (fun s r => pmm_core_mark_free s r.1 r.2) s l in
  boot_step s s' /\
  forall q, may_alloc s' q -> may_alloc s q \/ exists r, r ∈ l /\ inside (page_addr s q) r.1 r.2.
Proof.
  induction l as [|r l IH]; intros s Hwf Hok; simpl.
  { split; [done|]. by left. }
  apply Forall_cons_1 in Hok as [Hr Hl].
  destruct (mark_free_boot s r.1 r.2 Hwf Hr) as [Hs1 Hf1].
  destruct (IH _ (proj1 Hs1) Hl) as [Hs2 Hf2]. split; [by eapply boot_step_trans|].
  intros q [Hq|(r'&Hr'&Hin)]%Hf2.
  - apply Hf1 in Hq as [?|?]; [by left|right]. exists r. split; [apply list_elem_of_here|done].
  - right. exists r'. rewrite (boot_step_addr _ _ _ Hs1) in Hin.
    split; [by apply list_elem_of_further|done].
Qed.

(** ** x86_64: the Limine memory map *)
Module X86.

Record limine_memmap_entry := mkEntry { base : Z; length : Z; type : Z }.
Definition LIMINE_MEMMAP_USABLE : Z := 0.
Definition LIMINE_MEMMAP_ACPI_RECLAIMABLE : Z := 2.
Definition LIMINE_MEMMAP_ACPI_NVS : Z := 3.
Definition LIMINE_MEMMAP_BOOTLOADER_RECLAIMABLE : Z := 5.
Definition LIMINE_MEMMAP_EXECUTABLE_AND_MODULES : Z := 6.

Definition x86_meta_ptr (hhdm_offset pa : Z) : Z := u64 (pa + hhdm_offset).

(** Entries of RAM kinds decide how far the managed range reaches. *)
Definition is_ram (e : limine_memmap_entry) : bool :=
  negb (negb (e.(type) =? LIMINE_MEMMAP_USABLE) &&
        negb (e.(type) =? LIMINE_MEMMAP_ACPI_RECLAIMABLE) &&
        negb (e.(type) =? LIMINE_MEMMAP_ACPI_NVS) &&
        negb (e.(type) =? LIMINE_MEMMAP_BOOTLOADER_RECLAIMABLE) &&
        negb (e.(type) =? LIMINE_MEMMAP_EXECUTABLE_AND_MODULES)).

Definition top_of (entries : list limine_memmap_entry) : Z :=
  foldl (fun top e => if is_ram e && (top <? u64 (e.(base) + e.(length)))
                      then u64 (e.(base) + e.(length)) else top) 0 entries.

(** The first usable entry that holds the metadata; 0 when there is none. *)
Fixpoint find_meta (entries : list limine_memmap_entry) (total : Z) : Z :=
  match entries with
  | [] => 0
  | e :: rest =>
      if (e.(type) =? LIMINE_MEMMAP_USABLE) && (total <=? e.(length)) then e.(base)
      else find_meta rest total
  end.

Definition usable_ranges (entries : list limine_memmap_entry) : list (Z * Z) :=
  (fun e => (e.(base), e.(length))) <$> filter (fun e => e.(type) = LIMINE_MEMMAP_USABLE) entries.

(** The search for an ISA-DMA page: [n] pages left, the next being [page]. *)
Fixpoint isa_loop (n : nat) (page : Z) (s : pmm) : Z * pmm :=
  match n with
  | O => (0, s)
  | S n =>
      let phys := u64 (page * PAGE_SIZE) in
      if 65536 - PAGE_SIZE <? Z.land phys 65535 then isa_loop n (page + 1) s else
      let '(ok, s) := pmm_core_reserve_page s phys in
      if ok then (phys, s) else isa_loop n (page + 1) s
  end.

Definition bitmap_size (max_pages : Z) : Z :=
  Z.land (u64 (u64 (max_pages + 7) / 8 + 7)) (Z.lnot 7).

Definition max_pages (entries : list limine_memmap_entry) : Z := top_of entries / PAGE_SIZE.
Definition total_metadata_size (entries : list limine_memmap_entry) : Z :=
  u64 (bitmap_size (max_pages entries) + max_pages entries * 2).
Definition meta_pa (entries : list limine_memmap_entry) : Z :=
  find_meta entries (total_metadata_size entries).

(** Returns [isa_dma_page] and the allocator; [None] when no entry can hold
    the metadata (or it would start at address 0) and the allocator is left
    alone. *)
Definition x86_pmm_init (hhdm_offset : Z) (entries : list limine_memmap_entry) : option (Z * pmm) :=
  let max_pages := max_pages entries in
  let total_metadata_size := total_metadata_size entries in
  let meta_pa := meta_pa entries in
  if meta_pa =? 0 then None else
  let s := pmm_core_setup (x86_meta_ptr hhdm_offset) 0 max_pages meta_pa
             (u64 (meta_pa + bitmap_size max_pages)) in
  let s := foldl (fun s r => pmm_core_mark_free s r.1 r.2) s (usable_ranges entries) in
  let s := pmm_core_mark_used s meta_pa total_metadata_size in
  let s := pmm_core_mark_used s 0 PAGE_SIZE in
  let limit_page := 16777216 / PAGE_SIZE in
  let limit_page := if max_pages <? limit_page then max_pages else limit_page in
  Some (isa_loop (Z.to_nat limit_page) 0 s).

Lemma isa_loop_boot n : forall page s isa s',
  pmm_wf s -> isa_loop n page s = (isa, s') ->
  boot_step s s' /\ forall q, may_alloc s' q -> may_alloc s q.
Proof.
  induction n as [|n IH]; intros page s isa s' Hwf; cbn [isa_loop].
  { intros [= _ <-]. split; [done|]. auto. }
  case_match; [by apply IH|].
  destruct (pmm_core_reserve_page _ _) as [ok s1] eqn:Hr.
  destruct (reserve_boot _ _ _ _ Hwf Hr) as [Hs1 Hf1]. destruct ok.
  - intros [= _ <-]. auto.
  - intros Hl. destruct (IH _ _ _ _ (proj1 Hs1) Hl) as [Hs2 Hf2].
    split; [by eapply boot_step_trans|auto].
Qed.

Lemma top_of_range entries : 0 <= top_of entries < 2 ^ 64.
Proof.
  unfold top_of. assert (Hgen : forall top, 0 <= top < 2 ^ 64 -> 0 <= foldl (fun top e =>
    if is_ram e && (top <? u64 (e.(base) + e.(length))) then u64 (e.(base) + e.(length)) else top)
    top entries < 2 ^ 64); [|by apply Hgen].
  induction entries as [|e l IH]; intros top Htop; simpl; [done|]. apply IH.
  case_match; [apply u64_range|done].
Qed.

Lemma find_meta_in entries total :
  find_meta entries total <> 0 ->
  exists e, e ∈ entries /\ e.(type) = LIMINE_MEMMAP_USABLE /\ total <= e.(length) /\
    find_meta entries total = e.(base).
Proof.
  induction entries as [|e l IH]; simpl; [done|].
  destruct ((e.(type) =? LIMINE_MEMMAP_USABLE) && (total <=? e.(length))) eqn:Hc.
  - intros _. exists e. apply andb_true_iff in Hc as [?%Z.eqb_eq ?%Z.leb_le].
    split_and!; auto. apply list_elem_of_here.
  - intros Hn. destruct (IH Hn) as (e'&?&?&?&?). exists e'. split_and!; auto.
    by apply list_elem_of_further.
Qed.
Definition entries_ok (entries : list limine_memmap_entry) : Prop :=
  Forall (fun e => range_ok e.(base) e.(length)) entries.

(** The state right after [pmm_core_setup]: nothing may be handed out. *)
Lemma x86_setup_boot hhdm entries rpa :
  let s0 := pmm_core_setup (x86_meta_ptr hhdm) 0 (max_pages entries) (meta_pa entries) rpa in
  pmm_wf s0 /\ forall q, ~ may_alloc s0 q.
Proof.
  pose proof (top_of_range entries) as Htop.
  pose proof (Z.div_mod (top_of entries) PAGE_SIZE ltac:(done)) as Hd.
  pose proof (Z.mod_pos_bound (top_of entries) PAGE_SIZE ltac:(done)). fold (max_pages entries) in Hd.
  assert (Hmax : 0 <= max_pages entries) by (apply Z.div_pos; [lia|done]).
  destruct (pmm_core_setup_wf (x86_meta_ptr hhdm) 0 (max_pages entries) (meta_pa entries) rpa)
    as [Hwf0 Hall0]; [done..|unfold PAGE_SIZE in *; lia|].
  split; [done|]. intros q [Hq Hf]. rewrite Hall0 in Hf; done.
Qed.

Lemma meta_range_ok entries :
  entries_ok entries -> meta_pa entries <> 0 ->
  range_ok (meta_pa entries) (total_metadata_size entries).
Proof.
  intros Hok Hm0. destruct (find_meta_in entries (total_metadata_size entries)) as (em&Hem&_&Hlen&Hb);
    [done|]. fold (meta_pa entries) in Hb. unfold entries_ok in Hok. rewrite Forall_forall in Hok.
  destruct (Hok em Hem) as (?&?&?). unfold range_ok. rewrite Hb.
  pose proof (u64_range (bitmap_size (max_pages entries) + max_pages entries * 2)).
  fold (total_metadata_size entries) in *. split_and!; lia.
Qed.

Lemma usable_ranges_ok entries :
  entries_ok entries -> Forall (fun r => range_ok r.1 r.2) (usable_ranges entries).
Proof.
  intros Hok. apply Forall_forall. intros r (e&->&[_ He]%list_elem_of_filter)%list_elem_of_fmap.
  unfold entries_ok in Hok. rewrite Forall_forall in Hok. by apply Hok.
Qed.
End X86.

(** C25: after the x86_64 [pmm_init], a page that may be handed out lies
    inside a usable entry of the memory map, is not page 0 (whose address is
    the failure value of the allocator), and does not meet the metadata. *)
Theorem x86_pmm_init_safe hhdm entries isa s :
  X86.x86_pmm_init hhdm entries = Some (isa, s) -> X86.entries_ok entries ->
  pmm_wf s /\
  forall q, may_alloc s q ->
    q <> 0 /\ ~ meets (q * PAGE_SIZE) (X86.meta_pa entries) (X86.total_metadata_size entries) /\
    exists e, e ∈ entries /\ e.(X86.type) = X86.LIMINE_MEMMAP_USABLE /\
      inside (q * PAGE_SIZE) e.(X86.base) e.(X86.length).
Proof.
  intros Hi Hok. unfold X86.x86_pmm_init in Hi.
  destruct (Z.eqb_spec (X86.meta_pa entries) 0) as [|Hm0]; [done|].
  destruct (X86.x86_setup_boot hhdm entries (u64 (X86.meta_pa entries + X86.bitmap_size (X86.max_pages entries))))
    as [Hwf0 Hnone].
  set (s0 := pmm_core_setup _ _ _ _ _) in *.
  destruct (mark_free_list_boot _ s0 Hwf0 (X86.usable_ranges_ok entries Hok)) as [Hs1 Hf1].
  set (s1 := foldl _ _ _) in *.
  destruct (mark_used_boot s1 _ _ (proj1 Hs1) (X86.meta_range_ok entries Hok Hm0)) as [Hs2 Hf2].
  set (s2 := pmm_core_mark_used s1 _ _) in *.
  destruct (mark_used_boot s2 0 PAGE_SIZE (proj1 Hs2)) as [Hs3 Hf3]; [done|].
  set (s3 := pmm_core_mark_used s2 _ _) in *. injection Hi as Hi.
  destruct (X86.isa_loop_boot _ _ _ _ _ (proj1 Hs3) Hi) as [Hs4 Hf4].
  split; [apply Hs4|]. intros q Hq. apply Hf4, Hf3 in Hq as [Hq Hn0]. apply Hf2 in Hq as [Hq Hnm].
  assert (Ha : forall s', boot_step s0 s' -> page_addr s' q = q * PAGE_SIZE).
  { intros s' Hs'. by rewrite (boot_step_addr _ _ _ Hs'). }
  rewrite (Ha s1) in Hnm by done. rewrite (Ha s2) in Hn0 by (by eapply boot_step_trans).
  split; [|split; [done|]].
  - intros ->. apply Hn0. unfold meets, PAGE_SIZE. lia.
  - apply Hf1 in Hq as [Hq|(r&Hr&Hin)]; [by apply Hnone in Hq|].
    unfold X86.usable_ranges in Hr. apply list_elem_of_fmap in Hr as (e&->&He).
    apply list_elem_of_filter in He as [? ?]. exists e. rewrite (Ha s0) in Hin by done. auto.
Qed.

(** A memory map of 16 MiB with a usable entry from 1 MiB. *)
Definition x86_map : list X86.limine_memmap_entry :=
  [X86.mkEntry 4096 651264 0; X86.mkEntry 655360 393216 1; X86.mkEntry 1048576 4194304 0].

Lemma x86_pmm_init_safe_witness :
  exists isa s, X86.x86_pmm_init 0 x86_map = Some (isa, s) /\ pmm_wf s.
Proof.
  destruct (X86.x86_pmm_init 0 x86_map) as [[isa s]|] eqn:E.
  - exists isa, s. split; [reflexivity|].
    refine (proj1 (x86_pmm_init_safe 0 x86_map isa s E _)).
    repeat constructor; vm_compute; discriminate.
  - exfalso. assert (H : (X86.meta_pa x86_map =? 0) = false) by (vm_compute; reflexivity).
    unfold X86.x86_pmm_init in E. rewrite H in E. discriminate E.
Defined.

(** ** aarch64: one span with holes, metadata carved from its start *)
Module Aarch64.

Record aarch64_boot_info_t := mkBoot {
  dtb_pa : Z; dtb_size : Z; memory_base : Z; memory_size : Z;
  mem_ranges : list (Z * Z) }.

Definition AARCH64_BOOT_CPUS : Z := 8.
Definition AARCH64_BOOT_STACK : Z := 65536.

Definition align_up_page (v : Z) : Z := Z.land (u64 (v + PAGE_SIZE - 1)) (Z.lnot (PAGE_SIZE - 1)).

Definition pmm_pa_in_ranges (b : aarch64_boot_info_t) (pa : Z) : bool :=
  match b.(mem_ranges) with
  | [] => true
  | l => existsb (fun r => (r.1 <=? pa) && (pa <? u64 (r.1 + r.2))) l
  end.

(** The first byte after the kernel image and the boot stacks. *)
Definition free_base (b : aarch64_boot_info_t) (kernel_end : Z) : Z :=
  let fb := align_up_page (u64 (align_up_page kernel_end + AARCH64_BOOT_CPUS * AARCH64_BOOT_STACK)) in
  if fb <? b.(memory_base) then b.(memory_base) else fb.

Definition mem_end (b : aarch64_boot_info_t) : Z := u64 (b.(memory_base) + b.(memory_size)).

Definition bitmap_bytes (pages : Z) : Z :=
  Z.land (u64 (u64 (pages + 7) / 8 + 7)) (Z.lnot 7).

Definition meta_pages (pages : Z) : Z :=
  align_up_page (u64 (bitmap_bytes pages + pages * 2)) / PAGE_SIZE.

(** One range of the device tree, clipped to the managed span. *)
Definition free_range (fb me : Z) (s : pmm) (r : Z * Z) : pmm :=
  let rs := r.1 in
  let re := u64 (rs + r.2) in
  let rs := if rs <? fb then fb else rs in
  let re := if me <? re then me else re in
  if rs <? re then pmm_core_mark_free s rs (re - rs) else s.

(** [inl g_meta_fault] when the allocator is left with no pages. *)
Definition aarch64_pmm_init (meta_ptr : Z -> Z) (kernel_end : Z) (b : aarch64_boot_info_t) : bool + pmm :=
  if b.(memory_size) =? 0 then inl false else
  let mem_end := mem_end b in
  let free_base := free_base b kernel_end in
  if mem_end <=? free_base then inl false else
  let g_pages := (mem_end - free_base) / PAGE_SIZE in
  let g_meta_pages := meta_pages g_pages in
  if g_pages <=? g_meta_pages then inl false else
  if negb (forallb (fun i => pmm_pa_in_ranges b (u64 (free_base + i * PAGE_SIZE))) (seqZ 0 g_meta_pages))
  then inl true else
  let s := pmm_core_setup meta_ptr free_base g_pages free_base (u64 (free_base + bitmap_bytes g_pages)) in
  let s := match b.(mem_ranges) with
           | [] => pmm_core_mark_free s free_base (u64 (g_pages * PAGE_SIZE))
           | l => foldl (free_range free_base mem_end) s l
           end in
  let s := pmm_core_mark_used s free_base (u64 (g_meta_pages * PAGE_SIZE)) in
  inr (if negb (b.(dtb_size) =? 0) && (free_base <? u64 (b.(dtb_pa) + b.(dtb_size)))
          && (b.(dtb_pa) <? mem_end)
       then pmm_core_mark_used s b.(dtb_pa) b.(dtb_size) else s).
Record boot_ok (kernel_end : Z) (b : aarch64_boot_info_t) : Prop := {
  ok_kernel : 0 <= kernel_end < 2 ^ 63;
  ok_base : 0 <= b.(memory_base) /\ b.(memory_base) mod PAGE_SIZE = 0;
  ok_size : 0 <= b.(memory_size) /\ b.(memory_base) + b.(memory_size) < 2 ^ 63;
  ok_ranges : Forall (fun r => range_ok r.1 r.2) b.(mem_ranges);
  ok_dtb : range_ok b.(dtb_pa) b.(dtb_size);
}.

Lemma align_up_page_bound v : 0 <= v < 2 ^ 63 + 2 ^ 32 ->
  v <= align_up_page v < v + PAGE_SIZE /\ align_up_page v mod PAGE_SIZE = 0.
Proof.
  intros Hv. unfold align_up_page. fold (page_down (u64 (v + PAGE_SIZE - 1))).
  rewrite u64_small by (unfold PAGE_SIZE; lia).
  pose proof (page_down_bound (v + PAGE_SIZE - 1)). split; [lia|apply page_down_aligned].
Qed.

Lemma free_base_ok kernel_end b : boot_ok kernel_end b ->
  kernel_end + AARCH64_BOOT_CPUS * AARCH64_BOOT_STACK <= free_base b kernel_end /\
  b.(memory_base) <= free_base b kernel_end /\ free_base b kernel_end mod PAGE_SIZE = 0.
Proof.
  intros [Hk [Hb0 Hba] Hsz _ _]. unfold free_base.
  destruct (align_up_page_bound kernel_end) as [H1 _]; [lia|].
  unfold AARCH64_BOOT_CPUS, AARCH64_BOOT_STACK, PAGE_SIZE in *.
  rewrite u64_small by lia.
  destruct (align_up_page_bound (align_up_page kernel_end + 8 * 65536)) as [H2 H3]; [lia|].
  unfold PAGE_SIZE in *. destruct (Z.ltb_spec (align_up_page (align_up_page kernel_end + 8 * 65536))
    (memory_base b)); split_and!; try lia; done.
Qed.

Lemma free_range_boot fb me s r :
  pmm_wf s -> range_ok r.1 r.2 -> 0 <= fb -> me < 2 ^ 63 ->
  boot_step s (free_range fb me s r) /\
  forall q, may_alloc (free_range fb me s r) q ->
    may_alloc s q \/ inside (page_addr s q) r.1 r.2.
Proof.
  intros Hwf (?&?&?) Hfb Hme. unfold free_range. cbv zeta.
  rewrite u64_small by (unfold PAGE_SIZE in *; lia).
  set (rs := if r.1 <? fb then fb else r.1). set (re := if me <? r.1 + r.2 then me else r.1 + r.2).
  assert (r.1 <= rs /\ re <= r.1 + r.2 /\ re <= me) as (?&?&?).
  { subst rs re. repeat case_match; lia. }
  destruct (Z.ltb_spec rs re); [|split; [done|by left]].
  destruct (mark_free_boot s rs (re - rs)) as [Hs Hf]; [done|unfold range_ok, PAGE_SIZE; lia|].
  split; [done|]. intros q [?|[??]]%Hf; [by left|right; unfold inside; lia].
Qed.

Lemma free_ranges_boot fb me l : forall s,
  pmm_wf s -> Forall (fun r => range_ok r.1 r.2) l -> 0 <= fb -> me < 2 ^ 63 ->
  let s' := foldl (free_range fb me) s l in
  boot_step s s' /\
  forall q, may_alloc s' q -> may_alloc s q \/ exists r, r ∈ l /\ inside (page_addr s q) r.1 r.2.
Proof.
  induction l as [|r l IH]; intros s Hwf Hok Hfb Hme; simpl.
  { split; [done|]. by left. }
  apply Forall_cons_1 in Hok as [Hr Hl].
  destruct (free_range_boot fb me s r Hwf Hr Hfb Hme) as [Hs1 Hf1].
  destruct (IH _ (proj1 Hs1) Hl Hfb Hme) as [Hs2 Hf2]. split; [by eapply boot_step_trans|].
  intros q [Hq|(r'&Hr'&Hin)]%Hf2.
  - apply Hf1 in Hq as [?|?]; [by left|right]. exists r. split; [apply list_elem_of_here|done].
  - right. exists r'. rewrite (boot_step_addr _ _ _ Hs1) in Hin.
    split; [by apply list_elem_of_further|done].
Qed.

(** Freeing either the whole span or the ranges of the device tree. *)
Lemma free_all_boot b fb pages s :
  pmm_wf s -> Forall (fun r => range_ok r.1 r.2) b.(mem_ranges) ->
  0 <= fb -> 0 <= pages -> fb + pages * PAGE_SIZE < 2 ^ 63 -> mem_end b < 2 ^ 63 ->
  let s' := match b.(mem_ranges) with
            | [] => pmm_core_mark_free s fb (u64 (pages * PAGE_SIZE))
            | l => foldl (free_range fb (mem_end b)) s l
            end in
  boot_step s s' /\
  forall q, may_alloc s' q -> may_alloc s q \/ b.(mem_ranges) = [] \/
    exists r, r ∈ b.(mem_ranges) /\ inside (page_addr s q) r.1 r.2.
Proof.
  intros Hwf Hr Hfb Hpg Hend Hme. destruct (mem_ranges b) as [|r l] eqn:E.
  - rewrite u64_small by (unfold PAGE_SIZE in *; lia).
    destruct (mark_free_boot s fb (pages * PAGE_SIZE)) as [? Hf];
      [done|unfold range_ok, PAGE_SIZE in *; lia|].
    split; [done|]. intros q [?|?]%Hf; auto.
  - destruct (free_ranges_boot fb (mem_end b) (r :: l) s) as [? Hf]; [done..|].
    split; [done|]. intros q [?|?]%Hf; auto.
Qed.

Lemma setup_boot meta fb pages bpa rpa :
  0 <= fb -> 0 <= pages -> fb mod PAGE_SIZE = 0 -> fb + pages * PAGE_SIZE <= 2 ^ 64 ->
  pmm_wf (pmm_core_setup meta fb pages bpa rpa) /\
  forall q, ~ may_alloc (pmm_core_setup meta fb pages bpa rpa) q.
Proof.
  intros ????. destruct (pmm_core_setup_wf meta fb pages bpa rpa) as [? Hall]; [done..|].
  split; [done|]. intros q [Hq Hf]. by rewrite Hall in Hf.
Qed.
Lemma meta_pages_nonneg pages : 0 <= meta_pages pages.
Proof.
  unfold meta_pages, align_up_page. apply Z.div_pos; [|done].
  apply page_down_nonneg, u64_range.
Qed.
End Aarch64.

(** after [aarch64_pmm_init], a page that may be handed out starts after
    the kernel image, the boot stacks and the allocator's own metadata, lies
    inside a range the device tree reports (holes of RAM are never handed
    out), and does not meet the device tree blob. *)
Theorem aarch64_pmm_init_safe meta kernel_end b s :
  Aarch64.aarch64_pmm_init meta kernel_end b = inr s -> Aarch64.boot_ok kernel_end b ->
  let meta_end := Aarch64.free_base b kernel_end + Aarch64.meta_pages s.(g_pages) * PAGE_SIZE in
  pmm_wf s /\
  forall q, may_alloc s q ->
    kernel_end + Aarch64.AARCH64_BOOT_CPUS * Aarch64.AARCH64_BOOT_STACK <= page_addr s q /\
    meta_end <= page_addr s q /\
    page_addr s q + PAGE_SIZE <= b.(Aarch64.memory_base) + b.(Aarch64.memory_size) /\
    (b.(Aarch64.mem_ranges) <> [] ->
      exists r, r ∈ b.(Aarch64.mem_ranges) /\ inside (page_addr s q) r.1 r.2) /\
    (b.(Aarch64.dtb_size) <> 0 -> ~ meets (page_addr s q) b.(Aarch64.dtb_pa) b.(Aarch64.dtb_size)).
Proof.
  intros Hi Hok. destruct (Aarch64.free_base_ok kernel_end b Hok) as (Hfk&Hfb&Hal).
  destruct Hok as [Hk [Hb0 _] [Hs0 Hsz] Hr Hd].
  assert (Hme : Aarch64.mem_end b = b.(Aarch64.memory_base) + b.(Aarch64.memory_size))
    by (apply u64_small; lia).
  unfold Aarch64.aarch64_pmm_init in Hi. repeat (case_match; [done|]).
  match goal with H : (Aarch64.mem_end b <=? _) = false |- _ => apply Z.leb_gt in H as Hlt end.
  set (fb := Aarch64.free_base b kernel_end) in *.
  set (pages := (Aarch64.mem_end b - fb) / PAGE_SIZE) in *.
  pose proof (Z.mul_div_le (Aarch64.mem_end b - fb) PAGE_SIZE ltac:(done)) as Hpl. fold pages in Hpl.
  assert (0 <= pages) by (apply Z.div_pos; [lia|done]).
  destruct (Aarch64.setup_boot meta fb pages fb (u64 (fb + Aarch64.bitmap_bytes pages)))
    as [Hw0 Hn0]; [lia..|].
  set (s0 := pmm_core_setup _ _ _ _ _) in *.
  destruct (Aarch64.free_all_boot b fb pages s0) as [Hs1 Hf1]; [first [done|lia]..|].
  set (s1 := match Aarch64.mem_ranges b with [] => _ | _ => _ end) in *.
  match goal with H : (pages <=? _) = false |- _ => apply Z.leb_gt in H as Hmp end.
  pose proof (Aarch64.meta_pages_nonneg pages). unfold PAGE_SIZE in Hpl.
  rewrite (u64_small (Aarch64.meta_pages pages * PAGE_SIZE)) in Hi by (unfold PAGE_SIZE; lia).
  injection Hi as Hi.
  destruct (mark_used_boot s1 fb (Aarch64.meta_pages pages * PAGE_SIZE) (proj1 Hs1)) as [Hs2 Hf2];
    [unfold range_ok, PAGE_SIZE; lia|].
  set (s2 := pmm_core_mark_used s1 _ _) in *.
  match type of Hi with (if ?c then _ else _) = _ => pose proof
    (mark_used_if_boot s2 c _ _ (proj1 Hs2) Hd) as Hs3 end. cbv zeta in Hs3. rewrite Hi in Hs3.
  destruct Hs3 as [Hs3 Hf3].
  pose proof (boot_step_trans _ _ _ Hs1 (boot_step_trans _ _ _ Hs2 Hs3)) as Hs.
  destruct Hs as (Hwf&Hbase&Hpages). split; [done|]. intros q Hq.
  assert (Ha : forall s', s'.(g_base_pa) = s0.(g_base_pa) -> page_addr s' q = fb + q * PAGE_SIZE)
    by (unfold page_addr; by intros ? ->).
  rewrite (Ha s Hbase), Hpages. change (g_pages s0) with pages.
  apply Hf3 in Hq as [Hq Hdt]. apply Hf2 in Hq as [Hq Hmt].
  rewrite (Ha s2) in Hdt by (by destruct (boot_step_trans _ _ _ Hs1 Hs2) as (_&->&_)).
  rewrite (Ha s1) in Hmt by apply Hs1.
  pose proof (proj1 Hq) as Hqr. rewrite (proj2 (proj2 Hs1)) in Hqr. change (g_pages s0) with pages in Hqr.
  assert (Aarch64.meta_pages pages <= q) by (unfold meets, PAGE_SIZE in Hmt; lia).
  split_and!; try (unfold PAGE_SIZE in *; lia).
  - intros Hne. rewrite <- (Ha s0) by done. destruct (Hf1 q Hq) as [Hx|[Hx|Hx]]; [|done..].
    by apply Hn0 in Hx.
  - intros Hne Hmeet. destruct Hd as (?&?&?). unfold meets, PAGE_SIZE in *.
    apply Hdt; [|done]. rewrite u64_small by lia.
    rewrite !andb_true_iff, negb_true_iff, Z.eqb_neq, !Z.ltb_lt. lia.
Qed.

Definition aarch64_boot : Aarch64.aarch64_boot_info_t :=
  Aarch64.mkBoot 1074790400 4096 1073741824 1048576 [(1073741824, 655360); (1074528256, 262144)].

Lemma aarch64_pmm_init_safe_witness :
  exists s, Aarch64.aarch64_pmm_init (fun pa => pa) 1073807360 aarch64_boot = inr s /\ pmm_wf s.
Proof.
  destruct (Aarch64.aarch64_pmm_init (fun pa => pa) 1073807360 aarch64_boot) as [f|s] eqn:E.
  - exfalso. revert E. vm_compute. discriminate.
  - exists s. split; [reflexivity|].
    refine (proj1 (aarch64_pmm_init_safe _ 1073807360 aarch64_boot s E _)).
    constructor; repeat constructor; vm_compute; (discriminate || reflexivity).
Defined.

(** ** riscv64: one span, metadata in static arrays *)
Module Riscv64.

Record riscv64_boot_info_t := mkBoot {
  dtb_pa : Z; dtb_size : Z; memory_base : Z; memory_size : Z;
  initrd_start : Z; initrd_end : Z }.

Definition RISCV64_PMM_MAX_PAGES : Z := 131072.

Definition riscv64_align_up_page (v : Z) : Z :=
  Z.land (u64 (v + PAGE_SIZE - 1)) (Z.lnot (PAGE_SIZE - 1)).

Definition riscv64_meta_ptr (pa : Z) : Z := pa.

Definition riscv64_free_base (b : riscv64_boot_info_t) (kernel_end : Z) : Z :=
  let mem_base := riscv64_align_up_page b.(memory_base) in
  let fb := riscv64_align_up_page kernel_end in
  if fb <? mem_base then mem_base else fb.

Definition riscv64_pmm_init (bitmap refcounts kernel_end : Z) (boot : riscv64_boot_info_t) : pmm :=
  let s := pmm_core_setup riscv64_meta_ptr 0 0 bitmap refcounts in
  if boot.(memory_size) =? 0 then s else
  let mem_end := u64 (boot.(memory_base) + boot.(memory_size)) in
  let riscv64_free_base := riscv64_free_base boot kernel_end in
  if mem_end <=? riscv64_free_base then s else
  let pages := (mem_end - riscv64_free_base) / PAGE_SIZE in
  let pages := if RISCV64_PMM_MAX_PAGES <? pages then RISCV64_PMM_MAX_PAGES else pages in
  let s := pmm_core_setup riscv64_meta_ptr riscv64_free_base pages bitmap refcounts in
  let s := pmm_core_mark_free s riscv64_free_base (u64 (pages * PAGE_SIZE)) in
  let s := if (boot.(initrd_start) <? boot.(initrd_end)) && (riscv64_free_base <? boot.(initrd_end))
              && (boot.(initrd_start) <? mem_end)
           then pmm_core_mark_used s boot.(initrd_start) (boot.(initrd_end) - boot.(initrd_start))
           else s in
  if negb (boot.(dtb_size) =? 0) && (riscv64_free_base <? u64 (boot.(dtb_pa) + boot.(dtb_size)))
     && (boot.(dtb_pa) <? mem_end)
  then pmm_core_mark_used s boot.(dtb_pa) boot.(dtb_size) else s.

Record boot_ok (kernel_end : Z) (b : riscv64_boot_info_t) : Prop := {
  ok_kernel : 0 <= kernel_end < 2 ^ 63;
  ok_mem : 0 <= b.(memory_base) /\ 0 <= b.(memory_size) /\ b.(memory_base) + b.(memory_size) < 2 ^ 63;
  ok_initrd : 0 <= b.(initrd_start) <= b.(initrd_end) /\ b.(initrd_end) < 2 ^ 63;
  ok_dtb : range_ok b.(dtb_pa) b.(dtb_size);
}.

Lemma riscv64_free_base_ok kernel_end b : boot_ok kernel_end b ->
  kernel_end <= riscv64_free_base b kernel_end /\ b.(memory_base) <= riscv64_free_base b kernel_end /\
  riscv64_free_base b kernel_end mod PAGE_SIZE = 0.
Proof.
  intros [Hk Hm _ _]. unfold riscv64_free_base, riscv64_align_up_page.
  fold (page_down (u64 (kernel_end + PAGE_SIZE - 1))).
  fold (page_down (u64 (b.(memory_base) + PAGE_SIZE - 1))).
  rewrite !u64_small by (unfold PAGE_SIZE; lia).
  pose proof (page_down_bound (kernel_end + PAGE_SIZE - 1)).
  pose proof (page_down_bound (b.(memory_base) + PAGE_SIZE - 1)).
  case_match eqn:E; rewrite ?Z.ltb_lt, ?Z.ltb_ge in E;
    (split_and!; [lia|lia|apply page_down_aligned]).
Qed.

(** The whole span freed, then two optional reservations. *)
Lemma span_boot fb pages bpa rpa (c1 c2 : bool) pa1 n1 pa2 n2 :
  0 <= fb -> 0 <= pages -> fb mod PAGE_SIZE = 0 -> fb + pages * PAGE_SIZE < 2 ^ 63 ->
  range_ok pa1 n1 -> range_ok pa2 n2 ->
  let s := pmm_core_setup riscv64_meta_ptr fb pages bpa rpa in
  let s := pmm_core_mark_free s fb (u64 (pages * PAGE_SIZE)) in
  let s := if c1 then pmm_core_mark_used s pa1 n1 else s in
  let s := if c2 then pmm_core_mark_used s pa2 n2 else s in
  pmm_wf s /\ s.(g_pages) = pages /\ s.(g_base_pa) = fb /\
  forall q, may_alloc s q -> 0 <= q < pages /\
    (c1 = true -> ~ meets (fb + q * PAGE_SIZE) pa1 n1) /\
    (c2 = true -> ~ meets (fb + q * PAGE_SIZE) pa2 n2).
Proof.
  intros ???? H1 H2. cbv zeta. rewrite u64_small by (unfold PAGE_SIZE in *; lia).
  destruct (Aarch64.setup_boot riscv64_meta_ptr fb pages bpa rpa) as [Hw0 _]; [lia..|].
  set (s0 := pmm_core_setup _ _ _ _ _) in *.
  destruct (mark_free_boot s0 fb (pages * PAGE_SIZE)) as [Hs1 _];
    [done|unfold range_ok, PAGE_SIZE in *; lia|].
  set (s1 := pmm_core_mark_free s0 _ _) in *.
  destruct (mark_used_if_boot s1 c1 pa1 n1 (proj1 Hs1) H1) as [Hs2 Hf2].
  set (s2 := if c1 then _ else _) in *.
  destruct (mark_used_if_boot s2 c2 pa2 n2 (proj1 Hs2) H2) as [Hs3 Hf3].
  set (s3 := if c2 then _ else _) in *.
  pose proof (boot_step_trans _ _ _ Hs1 Hs2) as H12.
  destruct (boot_step_trans _ _ _ H12 Hs3) as (?&?&Hpg). split_and!; [done..|].
  intros q Hq. pose proof (proj1 Hq) as Hqr. rewrite Hpg in Hqr.
  apply Hf3 in Hq as [Hq Hc2]. apply Hf2 in Hq as [_ Hc1].
  rewrite (boot_step_addr _ _ q H12) in Hc2. rewrite (boot_step_addr _ _ q Hs1) in Hc1. done.
Qed.
End Riscv64.

(** after the riscv64 [pmm_init] (whether or not memory was found), the
    allocator is well-formed, manages no more pages than its static arrays
    describe, and a page that may be handed out lies in RAM after the kernel
    image and meets neither the RAM disk nor the device tree blob. *)
Theorem riscv64_pmm_init_safe bitmap refcounts kernel_end b :
  Riscv64.boot_ok kernel_end b ->
  let s := Riscv64.riscv64_pmm_init bitmap refcounts kernel_end b in
  pmm_wf s /\ s.(g_pages) <= Riscv64.RISCV64_PMM_MAX_PAGES /\
  forall q, may_alloc s q ->
    kernel_end <= page_addr s q /\ b.(Riscv64.memory_base) <= page_addr s q /\
    page_addr s q + PAGE_SIZE <= b.(Riscv64.memory_base) + b.(Riscv64.memory_size) /\
    (b.(Riscv64.initrd_start) < b.(Riscv64.initrd_end) ->
     ~ meets (page_addr s q) b.(Riscv64.initrd_start) (b.(Riscv64.initrd_end) - b.(Riscv64.initrd_start))) /\
    (b.(Riscv64.dtb_size) <> 0 -> ~ meets (page_addr s q) b.(Riscv64.dtb_pa) b.(Riscv64.dtb_size)).
Proof.
  intros Hok. destruct (Riscv64.riscv64_free_base_ok kernel_end b Hok) as (Hfk&Hfb&Hal).
  destruct Hok as [Hk (Hb0&Hs0&Hsz) Hi Hd]. unfold Riscv64.riscv64_pmm_init.
  assert (Hemp : forall s, s = pmm_core_setup Riscv64.riscv64_meta_ptr 0 0 bitmap refcounts ->
    pmm_wf s /\ s.(g_pages) <= Riscv64.RISCV64_PMM_MAX_PAGES /\ forall q, ~ may_alloc s q).
  { intros ? ->. destruct (Aarch64.setup_boot Riscv64.riscv64_meta_ptr 0 0 bitmap refcounts); done. }
  rewrite (u64_small (_ + _)) by lia. cbv zeta.
  destruct (_ =? 0); [destruct (Hemp _ eq_refl) as (?&?&Hn); split_and!; try done; by intros q ?%Hn|].
  destruct (Z.leb_spec (Riscv64.memory_base b + Riscv64.memory_size b) (Riscv64.riscv64_free_base b kernel_end)) as [|Hlt];
    [destruct (Hemp _ eq_refl) as (?&?&Hn); split_and!; try done; by intros q ?%Hn|].
  set (me := Riscv64.memory_base b + Riscv64.memory_size b) in *.
  set (fb := Riscv64.riscv64_free_base b kernel_end) in *.
  set (pages := if _ <? _ then _ else _).
  assert (0 <= pages <= Riscv64.RISCV64_PMM_MAX_PAGES /\ fb + pages * PAGE_SIZE <= me) as [Hpg Hpl].
  { pose proof (Z.mul_div_le (me - fb) PAGE_SIZE ltac:(done)) as Hpl.
    pose proof (Z.div_pos (me - fb) PAGE_SIZE ltac:(lia) ltac:(done)).
    unfold pages, Riscv64.RISCV64_PMM_MAX_PAGES, PAGE_SIZE in *. case_match; lia. }
  match goal with |- context [if ?c2 then pmm_core_mark_used (if ?c1 then _ else _) _ _ else _] =>
    destruct (Riscv64.span_boot fb pages bitmap refcounts c1 c2 (Riscv64.initrd_start b)
      (Riscv64.initrd_end b - Riscv64.initrd_start b) (Riscv64.dtb_pa b) (Riscv64.dtb_size b))
      as (Hwf&Hgp&Hgb&Hf); [lia|lia|done|lia|unfold range_ok, PAGE_SIZE; lia|done|] end.
  match goal with |- pmm_wf ?x /\ _ => set (s := x) in * end. split_and!; [done|lia|]. intros q Hq.
  replace (page_addr s q) with (fb + q * PAGE_SIZE) by (unfold page_addr; by rewrite Hgb).
  destruct (Hf q Hq) as (Hqr&Hc1&Hc2). destruct Hd as (?&?&?). unfold meets, PAGE_SIZE in *.
  split_and!; [lia..| |]; intros Hne Hmeet.
  - apply Hc1; [|done]. rewrite !andb_true_iff, !Z.ltb_lt. lia.
  - apply Hc2; [|done]. rewrite u64_small, !andb_true_iff, negb_true_iff, Z.eqb_neq, !Z.ltb_lt; lia.
Qed.

Definition riscv64_boot : Riscv64.riscv64_boot_info_t :=
  Riscv64.mkBoot 2149580800 4096 2147483648 4194304 2148532224 2149580800.

Lemma riscv64_pmm_init_safe_witness :
  pmm_wf (Riscv64.riscv64_pmm_init 2147500000 2147600000 2147614720 riscv64_boot).
Proof.
  refine (proj1 (riscv64_pmm_init_safe 2147500000 2147600000 2147614720 riscv64_boot _)).
  constructor; repeat constructor; vm_compute; (discriminate || reflexivity).
Defined.
