(* ===== verification/Pte.v ===== *)
(** * Page table entries of the three architectures

    The entry operations that kernel/vm_cow.c asks of each architecture
    (include/x86_64/vm.h, include/aarch64/vm.h, kernel/riscv64/vm.c), as a
    class with the laws the shared copy-on-write code relies on, and one
    instance per architecture. *)
From S2P Require Import Prelude Pmm.

(** ** Bits of an entry *)

(** [(e & (1ULL << k)) != 0] *)
Definition has (e k : Z) : bool := negb (Z.land e (Z.shiftl 1 k) =? 0).
(** [e | (1ULL << k)], [e & ~(1ULL << k)] *)
Definition set_bit (e k : Z) : Z := Z.lor e (Z.shiftl 1 k).
Definition clr_bit (e k : Z) : Z := Z.land e (Z.lnot (Z.shiftl 1 k)).

Lemma one_bit k i : 0 <= k -> 0 <= i -> Z.testbit (Z.shiftl 1 k) i = (k =? i).
Proof. intros. rewrite Z.shiftl_1_l, Z.pow2_bits_eqb by done. done. Qed.

Lemma has_testbit e k : 0 <= k -> has e k = Z.testbit e k.
Proof.
  intros Hk. unfold has. destruct (Z.testbit e k) eqn:E.
  - apply negb_true_iff, Z.eqb_neq. intros H. apply (f_equal (fun x => Z.testbit x k)) in H.
    rewrite Z.land_spec, one_bit, E, Z.eqb_refl, Z.bits_0 in H by done. done.
  - apply negb_false_iff, Z.eqb_eq, Z.bits_inj'. intros i Hi.
    rewrite Z.land_spec, one_bit, Z.bits_0 by done.
    destruct (Z.eqb_spec k i) as [<-|]; [by rewrite E|by rewrite andb_false_r].
Qed.

Lemma testbit_set e k i : 0 <= k -> 0 <= i -> Z.testbit (set_bit e k) i = Z.testbit e i || (k =? i).
Proof. intros. unfold set_bit. by rewrite Z.lor_spec, one_bit. Qed.

Lemma testbit_clr e k i : 0 <= k -> 0 <= i -> Z.testbit (clr_bit e k) i = Z.testbit e i && negb (k =? i).
Proof. intros. unfold clr_bit. by rewrite Z.land_spec, Z.lnot_spec, one_bit. Qed.

(** A field of bits [lo .. hi). *)
Definition field (lo hi : Z) : Z := Z.shiftl (Z.ones (hi - lo)) lo.

Lemma testbit_field lo hi i : 0 <= lo <= hi -> 0 <= i ->
  Z.testbit (field lo hi) i = (lo <=? i) && (i <? hi).
Proof.
  intros ? Hi. unfold field. rewrite Z.shiftl_spec by done.
  destruct (Z.leb_spec lo i); [|rewrite Z.testbit_neg_r; [done|lia]].
  rewrite Z.testbit_ones_nonneg by lia. destruct (Z.ltb_spec (i - lo) (hi - lo)), (Z.ltb_spec i hi); lia || done.
Qed.

Create Rewrite HintDb bits.
#[export] Hint Rewrite Z.land_spec Z.lor_spec Z.bits_0 : bits.
#[export] Hint Rewrite testbit_set testbit_clr testbit_field Z.lnot_spec using lia : bits.

(** Two words agree when they agree on every bit. *)
Ltac bitwise i :=
  apply Z.bits_inj'; intros i ?; autorewrite with bits;
  repeat match goal with
  | |- context [?a =? i] => destruct (Z.eqb_spec a i); subst
  | |- context [?a <=? i] => destruct (Z.leb_spec a i)
  | |- context [i <? ?a] => destruct (Z.ltb_spec i a)
  end; simpl; rewrite ?andb_true_r, ?andb_false_r, ?orb_true_r, ?orb_false_r; try (lia || done).

Lemma testbit_aligned p i : p mod PAGE_SIZE = 0 -> 0 <= i < 12 -> Z.testbit p i = false.
Proof.
  intros Hp Hi. apply aligned_mul in Hp as [k ->]. change 4096 with (2 ^ 12).
  rewrite Z.mul_pow2_bits_low; [done|lia].
Qed.

Lemma testbit_high p n i : 0 <= p < 2 ^ n -> n <= i -> Z.testbit p i = false.
Proof.
  intros Hp Hi. destruct (Z.eq_dec p 0) as [->|]; [apply Z.bits_0|].
  apply Z.bits_above_log2; [lia|]. apply Z.log2_lt_pow2; [lia|].
  apply Z.lt_le_trans with (2 ^ n); [lia|]. apply Z.pow_le_mono_r; lia.
Qed.

(** The address field of an entry is an aligned address. *)
Lemma field_aligned e hi : 12 <= hi -> Z.land e (field 12 hi) mod PAGE_SIZE = 0.
Proof.
  intros. change PAGE_SIZE with (2 ^ 12). rewrite <- Z.land_ones by lia. bitwise i.
  all: rewrite ?Z.testbit_ones_nonneg by lia.
  destruct (Z.ltb_spec i 12); lia || by rewrite ?andb_false_r.
Qed.

Lemma field_id p hi : 12 <= hi -> 0 <= p < 2 ^ hi -> p mod PAGE_SIZE = 0 -> Z.land p (field 12 hi) = p.
Proof.
  intros. bitwise i; symmetry; first [apply testbit_aligned; [done|lia]|apply testbit_high with hi; lia].
Qed.

(** ** The operations and their laws *)

Class ArchPte := {
  arch_pte_phys : Z -> Z;
  arch_pte_writable : Z -> bool;
  arch_pte_cow : Z -> bool;
  arch_pte_mkcow : Z -> Z;
  arch_pte_clear_cow : Z -> Z;
  arch_pte_mkwrite : Z -> Z -> Z;
  (** the physical addresses an entry can hold lie below this *)
  arch_phys_limit : Z;
}.

(** What kernel/vm_cow.c relies on (listed in include/vm_cow.h). *)
Class ArchPteLaws `{ArchPte} : Prop := {
  pte_phys_aligned e : arch_pte_phys e mod PAGE_SIZE = 0;
  mkcow_phys e : arch_pte_phys (arch_pte_mkcow e) = arch_pte_phys e;
  mkcow_cow e : arch_pte_cow (arch_pte_mkcow e) = true;
  mkcow_readonly e : arch_pte_writable (arch_pte_mkcow e) = false;
  clear_cow_phys e : arch_pte_phys (arch_pte_clear_cow e) = arch_pte_phys e;
  clear_cow_cow e : arch_pte_cow (arch_pte_clear_cow e) = false;
  clear_cow_writable e : arch_pte_writable (arch_pte_clear_cow e) = arch_pte_writable e;
  mkwrite_cow e p : p mod PAGE_SIZE = 0 -> arch_pte_cow (arch_pte_mkwrite e p) = false;
  mkwrite_writable e p : p mod PAGE_SIZE = 0 -> arch_pte_writable (arch_pte_mkwrite e p) = true;
  mkwrite_phys e p :
    0 <= p < arch_phys_limit -> p mod PAGE_SIZE = 0 -> arch_pte_phys (arch_pte_mkwrite e p) = p;
}.

(** ** x86_64 (include/x86_64/vm.h, include/vmm.h) *)
Definition PTE_PRESENT : Z := 0.
Definition PTE_WRITABLE : Z := 1.
Definition PTE_USER : Z := 2.
Definition PTE_HUGE : Z := 7.
Definition PTE_COW : Z := 9.
Definition PTE_NX : Z := 63.
Definition PTE_ADDR_MASK : Z := 0x000FFFFFFFFFF000.

Definition x86_pte_phys (e : Z) : Z := Z.land e PTE_ADDR_MASK.
Definition x86_pte_writable (e : Z) : bool := has e PTE_WRITABLE.
Definition x86_pte_cow (e : Z) : bool := has e PTE_COW.
Definition x86_pte_mkcow (e : Z) : Z := set_bit (clr_bit e PTE_WRITABLE) PTE_COW.
Definition x86_pte_clear_cow (e : Z) : Z := clr_bit e PTE_COW.
Definition x86_pte_mkwrite (e phys : Z) : Z :=
  set_bit (Z.lor (Z.land phys PTE_ADDR_MASK)
                 (clr_bit (Z.land e (Z.lnot PTE_ADDR_MASK)) PTE_COW)) PTE_WRITABLE.

#[export] Instance x86_pte : ArchPte := {
  arch_pte_phys := x86_pte_phys; arch_pte_writable := x86_pte_writable;
  arch_pte_cow := x86_pte_cow; arch_pte_mkcow := x86_pte_mkcow;
  arch_pte_clear_cow := x86_pte_clear_cow; arch_pte_mkwrite := x86_pte_mkwrite;
  arch_phys_limit := 2 ^ 52 }.

(** ** aarch64 (include/aarch64/vm.h) *)
Abbreviation AARCH64_PTE_SW_COW := 55.
Abbreviation AARCH64_PTE_AP_RDONLY := 7.
Abbreviation AARCH64_PTE_ADDR_MASK := 0x0000fffffffff000.

Definition aarch64_pte_phys (e : Z) : Z := Z.land e AARCH64_PTE_ADDR_MASK.
Definition aarch64_pte_writable (e : Z) : bool := negb (has e AARCH64_PTE_AP_RDONLY).
Definition aarch64_pte_cow (e : Z) : bool := has e AARCH64_PTE_SW_COW.
Definition aarch64_pte_mkcow (e : Z) : Z := set_bit (set_bit e AARCH64_PTE_AP_RDONLY) AARCH64_PTE_SW_COW.
Definition aarch64_pte_clear_cow (e : Z) : Z := clr_bit e AARCH64_PTE_SW_COW.
Definition aarch64_pte_mkwrite (e phys : Z) : Z :=
  Z.lor (Z.land phys AARCH64_PTE_ADDR_MASK)
        (Z.land (Z.land e (Z.lnot AARCH64_PTE_ADDR_MASK))
                (Z.lnot (set_bit (Z.shiftl 1 AARCH64_PTE_AP_RDONLY) AARCH64_PTE_SW_COW))).

Definition aarch64_pte : ArchPte := {|
  arch_pte_phys := aarch64_pte_phys; arch_pte_writable := aarch64_pte_writable;
  arch_pte_cow := aarch64_pte_cow; arch_pte_mkcow := aarch64_pte_mkcow;
  arch_pte_clear_cow := aarch64_pte_clear_cow; arch_pte_mkwrite := aarch64_pte_mkwrite;
  arch_phys_limit := 2 ^ 48 |}.

(** ** riscv64, Sv39 (kernel/riscv64/vm.c) *)
Abbreviation RISCV64_SV39_PTE_W := 2.
Abbreviation RISCV64_SV39_PTE_D := 7.
Abbreviation RISCV64_SV39_PTE_SW_COW := 8.
Abbreviation RISCV64_SV39_PTE_FLAG_MASK := 0x3ff.

Definition riscv64_sv39_pte_phys (e : Z) : Z := u64 (Z.shiftl (Z.shiftr e 10) 12).
Definition riscv64_sv39_make_leaf_4k (phys_base pte_flags : Z) : Z :=
  Z.lor (u64 (Z.shiftl (Z.shiftr phys_base 12) 10)) pte_flags.

Definition riscv64_pte_writable (e : Z) : bool := has e RISCV64_SV39_PTE_W.
Definition riscv64_pte_cow (e : Z) : bool := has e RISCV64_SV39_PTE_SW_COW.
Definition riscv64_pte_mkcow (e : Z) : Z := set_bit (clr_bit e RISCV64_SV39_PTE_W) RISCV64_SV39_PTE_SW_COW.
Definition riscv64_pte_clear_cow (e : Z) : Z := clr_bit e RISCV64_SV39_PTE_SW_COW.
Definition riscv64_pte_mkwrite (e phys : Z) : Z :=
  let flags := set_bit (set_bit (clr_bit (Z.land e RISCV64_SV39_PTE_FLAG_MASK) RISCV64_SV39_PTE_SW_COW)
                         RISCV64_SV39_PTE_W) RISCV64_SV39_PTE_D in
  riscv64_sv39_make_leaf_4k phys flags.

Definition riscv64_pte : ArchPte := {|
  arch_pte_phys := riscv64_sv39_pte_phys; arch_pte_writable := riscv64_pte_writable;
  arch_pte_cow := riscv64_pte_cow; arch_pte_mkcow := riscv64_pte_mkcow;
  arch_pte_clear_cow := riscv64_pte_clear_cow; arch_pte_mkwrite := riscv64_pte_mkwrite;
  arch_phys_limit := 2 ^ 56 |}.

(** *** The laws hold on each architecture *)
Lemma testbit_u64 x i : 0 <= i -> Z.testbit (u64 x) i = Z.testbit x i && (i <? 64).
Proof.
  intros. unfold u64. rewrite <- Z.land_ones, Z.land_spec, Z.testbit_ones_nonneg by lia. done.
Qed.
#[export] Hint Rewrite testbit_u64 one_bit using lia : bits.

Lemma x86_mask : PTE_ADDR_MASK = field 12 52.
Proof. reflexivity. Qed.
Lemma aarch64_mask : AARCH64_PTE_ADDR_MASK = field 12 48.
Proof. reflexivity. Qed.
Lemma riscv64_flag_mask : RISCV64_SV39_PTE_FLAG_MASK = field 0 10.
Proof. reflexivity. Qed.

Ltac pte_bits :=
  repeat match goal with
  | |- context [Z.eqb ?a ?b] => first [change (Z.eqb a b) with true | change (Z.eqb a b) with false]
  | |- context [Z.leb ?a ?b] => first [change (Z.leb a b) with true | change (Z.leb a b) with false]
  | |- context [Z.ltb ?a ?b] => first [change (Z.ltb a b) with true | change (Z.ltb a b) with false]
  end; simpl; rewrite ?andb_true_r, ?andb_false_r, ?orb_true_r, ?orb_false_r; try done.

#[export] Instance x86_pte_laws : @ArchPteLaws x86_pte.
Proof.
  constructor; intros; simpl; unfold x86_pte_phys, x86_pte_writable, x86_pte_cow, x86_pte_mkcow,
    x86_pte_clear_cow, x86_pte_mkwrite, PTE_WRITABLE, PTE_COW in *; rewrite ?x86_mask;
    rewrite ?has_testbit by done.
  - by apply field_aligned.
  - bitwise i.
  - autorewrite with bits. pte_bits.
  - autorewrite with bits. pte_bits.
  - bitwise i.
  - autorewrite with bits. pte_bits.
  - autorewrite with bits. pte_bits.
  - autorewrite with bits. pte_bits. 
  - autorewrite with bits. pte_bits.
  - rewrite <- (field_id p 52) at 2 by done. bitwise i.
Qed.

#[export] Instance aarch64_pte_laws : @ArchPteLaws aarch64_pte.
Proof.
  constructor; intros; simpl; unfold aarch64_pte_phys, aarch64_pte_writable, aarch64_pte_cow,
    aarch64_pte_mkcow, aarch64_pte_clear_cow, aarch64_pte_mkwrite in *; rewrite ?aarch64_mask; rewrite ?has_testbit by done.
  - by apply field_aligned.
  - bitwise i.
  - autorewrite with bits. pte_bits.
  - autorewrite with bits. pte_bits.
  - bitwise i.
  - autorewrite with bits. pte_bits.
  - autorewrite with bits. pte_bits.
  - autorewrite with bits. pte_bits.
  - autorewrite with bits. pte_bits.
  - rewrite <- (field_id p 48) at 2 by done. bitwise i.
Qed.

Lemma testbit_sv39_phys e i : 0 <= i ->
  Z.testbit (riscv64_sv39_pte_phys e) i = (12 <=? i) && (i <? 64) && Z.testbit e (i - 2).
Proof.
  intros. unfold riscv64_sv39_pte_phys. autorewrite with bits. rewrite Z.shiftl_spec by lia.
  destruct (Z.leb_spec 12 i); [|by rewrite Z.testbit_neg_r by lia].
  rewrite Z.shiftr_spec by lia. replace (i - 12 + 10) with (i - 2) by lia. apply andb_comm.
Qed.

Lemma testbit_sv39_leaf p f i : 0 <= i ->
  Z.testbit (riscv64_sv39_make_leaf_4k p f) i =
    (10 <=? i) && (i <? 64) && Z.testbit p (i + 2) || Z.testbit f i.
Proof.
  intros. unfold riscv64_sv39_make_leaf_4k. autorewrite with bits. rewrite Z.shiftl_spec by lia.
  f_equal. destruct (Z.leb_spec 10 i); [|by rewrite Z.testbit_neg_r by lia].
  rewrite Z.shiftr_spec by lia. replace (i - 10 + 12) with (i + 2) by lia. apply andb_comm.
Qed.
#[export] Hint Rewrite testbit_sv39_phys testbit_sv39_leaf using lia : bits.

(** Entries with the same frame bits have the same frame. *)
Lemma sv39_phys_ext e e' :
  (forall i, 10 <= i < 62 -> Z.testbit e i = Z.testbit e' i) ->
  riscv64_sv39_pte_phys e = riscv64_sv39_pte_phys e'.
Proof. intros He. bitwise i. apply He. lia. Qed.

#[export] Instance riscv64_pte_laws : @ArchPteLaws riscv64_pte.
Proof.
  constructor; intros; simpl; unfold riscv64_pte_writable, riscv64_pte_cow,
    riscv64_pte_mkcow, riscv64_pte_clear_cow, riscv64_pte_mkwrite in *; rewrite ?riscv64_flag_mask;
    rewrite ?has_testbit by done.
  - change PAGE_SIZE with (2 ^ 12). rewrite <- Z.land_ones by lia. change (Z.ones 12) with (field 0 12).
    bitwise i.
  - apply sv39_phys_ext. intros i Hi. autorewrite with bits.
    destruct (Z.eqb_spec 2 i), (Z.eqb_spec 8 i); [lia..|]. simpl. by rewrite andb_true_r, orb_false_r.
  - autorewrite with bits. pte_bits.
  - autorewrite with bits. pte_bits.
  - apply sv39_phys_ext. intros i Hi. autorewrite with bits.
    destruct (Z.eqb_spec 8 i); [lia|]. simpl. by rewrite andb_true_r.
  - autorewrite with bits. pte_bits.
  - autorewrite with bits. pte_bits.
  - autorewrite with bits. pte_bits.
  - autorewrite with bits. pte_bits.
  - rewrite <- (field_id p 56) at 2 by done. apply Z.bits_inj'. intros i Hi. autorewrite with bits.
    destruct (Z.leb_spec 12 i); [|by rewrite andb_false_r]. autorewrite with bits.
    replace (i - 2 + 2) with i by lia.
    destruct (Z.eqb_spec 2 (i - 2)), (Z.eqb_spec 7 (i - 2)), (Z.eqb_spec 8 (i - 2)),
      (Z.leb_spec 10 (i - 2)), (Z.leb_spec 0 (i - 2)), (Z.ltb_spec (i - 2) 10),
      (Z.ltb_spec i 56), (Z.ltb_spec i 64), (Z.ltb_spec (i - 2) 64); try lia;
      rewrite ?andb_true_r, ?andb_false_r, ?orb_false_r; try done.
    apply testbit_high with 56; [done|lia].
Qed.

(** sharing a writable leaf and then making it private again in place
    gives back the entry it had before the fork, on each architecture. *)
Theorem pte_cow_roundtrip e :
  (x86_pte_writable e = true -> x86_pte_cow e = false ->
   x86_pte_mkwrite (x86_pte_mkcow e) (x86_pte_phys (x86_pte_mkcow e)) = e) /\
  (aarch64_pte_writable e = true -> aarch64_pte_cow e = false ->
   aarch64_pte_mkwrite (aarch64_pte_mkcow e) (aarch64_pte_phys (aarch64_pte_mkcow e)) = e) /\
  (0 <= e < 2 ^ 54 -> riscv64_pte_writable e = true -> has e RISCV64_SV39_PTE_D = true ->
   riscv64_pte_cow e = false ->
   riscv64_pte_mkwrite (riscv64_pte_mkcow e) (riscv64_sv39_pte_phys (riscv64_pte_mkcow e)) = e).
Proof.
  split_and!.
  - unfold x86_pte_writable, x86_pte_cow. rewrite !has_testbit by done. intros.
    unfold x86_pte_mkwrite, x86_pte_mkcow, x86_pte_phys, PTE_WRITABLE, PTE_COW in *. rewrite x86_mask.
    bitwise i.
  - unfold aarch64_pte_writable, aarch64_pte_cow. rewrite !has_testbit, negb_true_iff by done. intros.
    unfold aarch64_pte_mkwrite, aarch64_pte_mkcow, aarch64_pte_phys in *. rewrite aarch64_mask. bitwise i.
  - unfold riscv64_pte_writable, riscv64_pte_cow. rewrite !has_testbit by done. intros.
    change (riscv64_sv39_pte_phys (riscv64_pte_mkcow e))
      with (@arch_pte_phys riscv64_pte (@arch_pte_mkcow riscv64_pte e)). rewrite mkcow_phys. simpl.
    unfold riscv64_pte_mkwrite, riscv64_pte_mkcow in *. rewrite riscv64_flag_mask. bitwise i.
    + replace (i + 2 - 2) with i by lia.
      destruct (Z.leb_spec 12 (i + 2)), (Z.ltb_spec (i + 2) 64); try lia; [done|].
      symmetry. apply testbit_high with 54; lia.
    + symmetry. apply testbit_high with 54; lia.
Qed.

Lemma pte_cow_roundtrip_witness :
  x86_pte_mkwrite (x86_pte_mkcow 0x12345007) (x86_pte_phys (x86_pte_mkcow 0x12345007)) = 0x12345007 /\
  riscv64_pte_mkwrite (riscv64_pte_mkcow 0x48d14d7) (riscv64_sv39_pte_phys (riscv64_pte_mkcow 0x48d14d7))
    = 0x48d14d7.
Proof.
  split.
  - refine (proj1 (pte_cow_roundtrip 0x12345007) _ _); reflexivity.
  - refine (proj2 (proj2 (pte_cow_roundtrip 0x48d14d7)) _ _ _ _); [split; [discriminate|reflexivity]|reflexivity..].
Defined.
