(* ===== verification/VmCow.v ===== *)
(** * Copy-on-write (kernel/vm_cow.c)

    The shared layer that decides, at fork and at a write fault, which pages
    are shared, copied or made writable.  It is written against the
    architecture's entry operations ([ArchPte]) and page-table walk
    ([ArchVm]); the x86_64 walk of include/x86_64/vm.h is an instance.
    Physical memory is a function from addresses to 64-bit words, so page
    tables and page contents live in one store.

    The invariant [cow_inv] says that a page's reference count is the number
    of leaves that map it and that a writable leaf maps a page nobody else
    maps; the main theorem says that sharing, faulting and writing are
    indistinguishable from copying every page at the fork. *)
From S2P Require Import Prelude Pmm Pte.

(** ** Memory, translation caches, and the walk *)

Definition memory := Z -> Z.
Definition mwrite (m : memory) (a v : Z) : memory := fun x => if x =? a then v else m x.
(** [memcpy] between disjoint page-aligned ranges. *)
Definition mcopy (m : memory) (dst src bytes : Z) : memory :=
  fun x => if (dst <=? x) && (x <? dst + bytes) then m (src + (x - dst)) else m x.

Record vmst := mkVm { v_pmm : pmm; v_mem : memory; v_tlb : Z -> Z -> option Z }.
Definition with_pmm (s : vmst) (p : pmm) : vmst := mkVm p s.(v_mem) s.(v_tlb).
Definition with_mem (s : vmst) (m : memory) : vmst := mkVm s.(v_pmm) m s.(v_tlb).
(** [*leaf = e] *)
Definition set_leaf (s : vmst) (leaf e : Z) : vmst := with_mem s (mwrite s.(v_mem) leaf e).
(** [arch_vm_flush_user_page]: no CPU keeps a translation of the page. *)
Definition arch_vm_flush_user_page (s : vmst) (as_ vaddr : Z) : vmst :=
  mkVm s.(v_pmm) s.(v_mem)
    (fun a v => if (a =? as_) && (v =? vaddr) then None else s.(v_tlb) a v).

Class ArchVm `{ArchPte} := {
  (** the address of the leaf entry, and how many pages the leaf covers *)
  arch_vm_user_leaf : memory -> Z -> Z -> option (Z * Z);
  arch_vm_protect_page : vmst -> Z -> Z -> bool -> bool -> vmst;
  arch_vm_get_page_prot : memory -> Z -> Z -> option (bool * bool);
}.

Definition VM_COW_HANDLED : Z := 0.
Definition VM_COW_NOT_COW : Z := -1.
Definition VM_COW_NOMEM : Z := -2.

(** ** The shared layer *)
Section ops.
Context `{ArchVm}.

Definition vm_cow_page_shared (p : pmm) (phys : Z) : bool := 1 <? pmm_get_ref p phys.

Fixpoint incref_loop (n : nat) (i phys : Z) (p : pmm) : pmm :=
  match n with
  | O => p
  | S n => incref_loop n (i + 1) phys (pmm_incref p (u64 (phys + i * PAGE_SIZE)))
  end.

(** Returns the entry for the child. *)
Definition vm_cow_share_leaf (s : vmst) (parent_leaf pages : Z) : Z * vmst :=
  let e := s.(v_mem) parent_leaf in
  let phys := arch_pte_phys e in
  if pmm_get_ref s.(v_pmm) phys =? 0 then (e, s) else
  let '(e, s) := if arch_pte_writable e
                 then let e := arch_pte_mkcow e in (e, set_leaf s parent_leaf e)
                 else (e, s) in
  (e, with_pmm s (incref_loop (Z.to_nat pages) 0 phys s.(v_pmm))).

Definition vm_cow_write_fault (s : vmst) (as_ vaddr : Z) : Z * vmst :=
  match arch_vm_user_leaf s.(v_mem) as_ vaddr with
  | None => (VM_COW_NOT_COW, s)
  | Some (leaf, pages) =>
      let e := s.(v_mem) leaf in
      let base := Z.land vaddr (Z.lnot (pages * PAGE_SIZE - 1)) in
      if negb (arch_pte_cow e) then
        if arch_pte_writable e
        then (VM_COW_HANDLED, arch_vm_flush_user_page s as_ base)
        else (VM_COW_NOT_COW, s)
      else
      let old_phys := arch_pte_phys e in
      if vm_cow_page_shared s.(v_pmm) old_phys then
        let '(new_phys, p) := pmm_alloc s.(v_pmm) pages in
        let s := with_pmm s p in
        if new_phys =? 0 then (VM_COW_NOMEM, s) else
        let s := with_mem s (mcopy s.(v_mem) new_phys old_phys (pages * PAGE_SIZE)) in
        let s := set_leaf s leaf (arch_pte_mkwrite e new_phys) in
        let s := arch_vm_flush_user_page s as_ base in
        (VM_COW_HANDLED, with_pmm s (pmm_free s.(v_pmm) old_phys pages))
      else
        let s := set_leaf s leaf (arch_pte_mkwrite e old_phys) in
        (VM_COW_HANDLED, arch_vm_flush_user_page s as_ base)
  end.

Definition vm_cow_protect_page (s : vmst) (as_ vaddr : Z) (writable executable : bool) : vmst :=
  match arch_vm_user_leaf s.(v_mem) as_ vaddr with
  | None => s
  | Some (leaf, _) =>
      let cow := if writable
                 then arch_pte_cow (s.(v_mem) leaf)
                      || vm_cow_page_shared s.(v_pmm) (arch_pte_phys (s.(v_mem) leaf))
                 else false in
      let s := arch_vm_protect_page s as_ vaddr (writable && negb cow) executable in
      match arch_vm_user_leaf s.(v_mem) as_ vaddr with
      | None => s
      | Some (leaf, _) =>
          set_leaf s leaf (if cow then arch_pte_mkcow (s.(v_mem) leaf)
                           else arch_pte_clear_cow (s.(v_mem) leaf))
      end
  end.

(** [None] for a negative result; otherwise the pair written through the
    pointers (both given). *)
Definition vm_cow_get_page_prot (s : vmst) (as_ vaddr : Z) : option (bool * bool) :=
  match arch_vm_get_page_prot s.(v_mem) as_ vaddr with
  | None => None
  | Some (writable, executable) =>
      match arch_vm_user_leaf s.(v_mem) as_ vaddr with
      | Some (leaf, _) =>
          if arch_pte_cow (s.(v_mem) leaf) then Some (true, executable) else Some (writable, executable)
      | None => Some (writable, executable)
      end
  end.
End ops.

(** ** The x86_64 walk (include/x86_64/vm.h, include/vmm.h)

    Address spaces are physical addresses of PML4 tables; [PHYS_TO_VIRT]
    disappears because memory is indexed by physical address. *)
Definition PML4_IDX (vaddr : Z) : Z := Z.land (Z.shiftr vaddr 39) 0x1FF.
Definition PDP_IDX (vaddr : Z) : Z := Z.land (Z.shiftr vaddr 30) 0x1FF.
Definition PD_IDX (vaddr : Z) : Z := Z.land (Z.shiftr vaddr 21) 0x1FF.
Definition PT_IDX (vaddr : Z) : Z := Z.land (Z.shiftr vaddr 12) 0x1FF.
Abbreviation HUGE_PAGE_SIZE := (2 * 1024 * 1024).

(** [&table[idx]] *)
Definition slot (table idx : Z) : Z := table + 8 * idx.

Definition x86_vm_user_leaf (m : memory) (as_ vaddr : Z) : option (Z * Z) :=
  let pml4e := m (slot as_ (PML4_IDX vaddr)) in
  if negb (has pml4e PTE_PRESENT) then None else
  let pdpe := m (slot (Z.land pml4e PTE_ADDR_MASK) (PDP_IDX vaddr)) in
  if negb (has pdpe PTE_PRESENT) then None else
  let e := slot (Z.land pdpe PTE_ADDR_MASK) (PD_IDX vaddr) in
  if negb (has (m e) PTE_PRESENT) then None else
  if has (m e) PTE_HUGE then
    if negb (has (m e) PTE_USER) then None else Some (e, HUGE_PAGE_SIZE / PAGE_SIZE)
  else
  let e := slot (Z.land (m e) PTE_ADDR_MASK) (PT_IDX vaddr) in
  if negb (has (m e) PTE_PRESENT) || negb (has (m e) PTE_USER) then None else Some (e, 1).

Definition x86_user_pte (m : memory) (as_ vaddr : Z) : option Z :=
  let pml4e := m (slot as_ (PML4_IDX vaddr)) in
  if negb (has pml4e PTE_PRESENT) then None else
  let pdpe := m (slot (Z.land pml4e PTE_ADDR_MASK) (PDP_IDX vaddr)) in
  if negb (has pdpe PTE_PRESENT) then None else
  let pde := m (slot (Z.land pdpe PTE_ADDR_MASK) (PD_IDX vaddr)) in
  if negb (has pde PTE_PRESENT) then None else
  if has pde PTE_HUGE then None else
  Some (slot (Z.land pde PTE_ADDR_MASK) (PT_IDX vaddr)).

Definition x86_vm_is_user_page (m : memory) (as_ vaddr : Z) : bool :=
  match x86_user_pte m as_ vaddr with
  | None => false
  | Some pte => has (m pte) PTE_PRESENT && has (m pte) PTE_USER
  end.

Definition x86_vm_get_page_prot (m : memory) (as_ vaddr : Z) : option (bool * bool) :=
  match x86_user_pte m as_ vaddr with
  | None => None
  | Some pte =>
      if negb (has (m pte) PTE_PRESENT) then None
      else Some (has (m pte) PTE_WRITABLE, negb (has (m pte) PTE_NX))
  end.

Definition x86_protect_bits (e : Z) (writable executable : bool) : Z :=
  let e := clr_bit (clr_bit e PTE_WRITABLE) PTE_NX in
  let e := if writable then set_bit e PTE_WRITABLE else e in
  if executable then e else set_bit e PTE_NX.

Definition x86_vm_protect_page (s : vmst) (as_ vaddr : Z) (writable executable : bool) : vmst :=
  match x86_user_pte s.(v_mem) as_ vaddr with
  | None => s
  | Some pte =>
      if negb (has (s.(v_mem) pte) PTE_PRESENT) then s else
      arch_vm_flush_user_page
        (set_leaf s pte (x86_protect_bits (s.(v_mem) pte) writable executable)) as_ vaddr
  end.

Definition x86_vm_unmap_page (s : vmst) (as_ vaddr : Z) : vmst :=
  match x86_user_pte s.(v_mem) as_ vaddr with
  | None => s
  | Some pte =>
      if negb (has (s.(v_mem) pte) PTE_PRESENT) then s
      else arch_vm_flush_user_page (set_leaf s pte 0) as_ vaddr
  end.

#[export] Instance x86_vm : ArchVm := {
  arch_vm_user_leaf := x86_vm_user_leaf;
  arch_vm_protect_page := x86_vm_protect_page;
  arch_vm_get_page_prot := x86_vm_get_page_prot }.

(** ** What the layer uses of the page allocator, by address *)

(** The page at [a] may be handed out. *)
Definition free_at (p : pmm) (a : Z) : Prop :=
  exists q, pmm_page_of p a = Some q /\ pmm_test p q = false.

Definition aligned (a : Z) : Prop := a mod PAGE_SIZE = 0.

Definition pmm_ok (p : pmm) : Prop := pmm_wf p /\ refs_ok p.

Lemma page_of_range p p' a :
  p'.(g_base_pa) = p.(g_base_pa) -> p'.(g_pages) = p.(g_pages) -> pmm_page_of p' a = pmm_page_of p a.
Proof. unfold pmm_page_of. by intros -> ->. Qed.

Lemma page_of_aligned_inv p a q :
  pmm_wf p -> aligned a -> pmm_page_of p a = Some q -> 0 <= q < p.(g_pages) /\ a = page_addr p q.
Proof.
  intros Hwf Ha Hof. pose proof (page_of_inv p Hwf a q Hof) as (Hq&_&_).
  split; [done|]. symmetry. by apply page_of_aligned.
Qed.

Lemma get_ref_pos p a : pmm_wf p -> aligned a -> 0 < pmm_get_ref p a ->
  exists q, 0 <= q < p.(g_pages) /\ a = page_addr p q /\ pmm_page_of p a = Some q.
Proof.
  unfold pmm_get_ref. intros Hwf Ha. destruct (pmm_page_of p a) as [q|] eqn:E; [|lia]. intros _.
  destruct (page_of_aligned_inv p a q Hwf Ha E). eauto.
Qed.

(** A page with owners is never handed out. *)
Lemma get_ref_not_free p a : pmm_ok p -> 0 < pmm_get_ref p a -> ~ free_at p a.
Proof.
  intros [Hwf Hr] Hpos (q&Hof&Hf). unfold pmm_get_ref in Hpos. rewrite Hof in Hpos.
  pose proof (page_of_inv p Hwf a q Hof) as (Hq&_&_). rewrite (Hr q Hq Hpos) in Hf. done.
Qed.

(** How references and free pages change, seen by address. *)
Lemma get_ref_change p p' (f : Z -> Z -> Z) (g : Z -> bool -> bool) :
  pmm_wf p -> p'.(g_base_pa) = p.(g_base_pa) -> p'.(g_pages) = p.(g_pages) ->
  (forall q, 0 <= q < p.(g_pages) -> zget p'.(g_rc) q = f q (zget p.(g_rc) q)) ->
  (forall q, 0 <= q < p.(g_pages) -> pmm_test p' q = g q (pmm_test p q)) ->
  forall a, match pmm_page_of p a with
            | Some q => pmm_get_ref p' a = f q (pmm_get_ref p a) /\
                        (free_at p' a <-> g q (pmm_test p q) = false)
            | None => pmm_get_ref p' a = 0 /\ pmm_get_ref p a = 0 /\ ~ free_at p' a
            end.
Proof.
  intros Hwf Hb Hg Hf Ht a. unfold pmm_get_ref, free_at. rewrite (page_of_range p p' a Hb Hg).
  destruct (pmm_page_of p a) as [q|] eqn:E;
    [|split_and!; [done..|by intros (?&?&?)]].
  pose proof (page_of_inv p Hwf a q E) as (Hq&_&_). split; [by apply Hf|].
  rewrite <- Ht by done. split; [by intros (?&[= <-]&?)|by exists q].
Qed.

Lemma alloc_by_address p pa p' :
  pmm_ok p -> pmm_alloc p 1 = (pa, p') -> pa <> 0 ->
  pmm_ok p' /\ aligned pa /\ 0 <= pa /\ pa + PAGE_SIZE <= p.(g_base_pa) + p.(g_pages) * PAGE_SIZE /\
  p'.(g_base_pa) = p.(g_base_pa) /\ p'.(g_pages) = p.(g_pages) /\
  free_at p pa /\ pmm_get_ref p' pa = 1 /\
  (forall a, aligned a -> a <> pa -> pmm_get_ref p' a = pmm_get_ref p a) /\
  (forall a, free_at p' a -> free_at p a).
Proof.
  intros [Hwf Hrefs] Ha Hne. apply pmm_alloc_spec in Ha as (Hwf'&Hb&Hg&Hres); [|done|lia].
  destruct Hres as [(?&_)|(_&st&?&?&Hfree&->&_&Ht&Hr)]; [done|].
  change (p.(g_base_pa) + st * PAGE_SIZE) with (page_addr p st) in *.
  assert (Hof : pmm_page_of p (page_addr p st) = Some st) by (apply page_of_page; lia || done).
  pose proof (wf_range p Hwf).
  pose proof (get_ref_change p p' (fun q r => if bool_decide (st <= q < st + 1) then 1 else r)
    (fun q b => bool_decide (st <= q < st + 1) || b) Hwf Hb Hg Hr Ht) as Hch.
  split_and!; auto.
  - split; [done|]. intros q. rewrite Hg. intros Hq. rewrite Hr, Ht by done.
    case_bool_decide; simpl; [done|]. by apply Hrefs.
  - by apply page_addr_aligned.
  - unfold page_addr, PAGE_SIZE in *. lia.
  - unfold page_addr, PAGE_SIZE in *. lia.
  - exists st. split; [done|]. apply Hfree. lia.
  - specialize (Hch (page_addr p st)). rewrite Hof in Hch. destruct Hch as [-> _].
    by rewrite bool_decide_eq_true_2 by lia.
  - intros a Hal Hna. specialize (Hch a). destruct (pmm_page_of p a) as [q|] eqn:E; [|lia].
    destruct Hch as [-> _]. rewrite bool_decide_eq_false_2; [done|].
    destruct (page_of_aligned_inv p a q Hwf Hal E) as [_ ->]. intros ?. apply Hna. f_equal. lia.
  - intros a. specialize (Hch a). destruct (pmm_page_of p a) as [q|] eqn:E; [|tauto].
    destruct Hch as [_ ->]. intros [_ ?]%orb_false_iff. by exists q.
Qed.

(** Failure: nothing changed that a client can see, and no page was free. *)
Lemma alloc_fail_by_address p p' :
  pmm_ok p -> ~ free_at p 0 -> pmm_alloc p 1 = (0, p') ->
  pmm_ok p' /\ p'.(g_base_pa) = p.(g_base_pa) /\ p'.(g_pages) = p.(g_pages) /\
  (forall a, pmm_get_ref p' a = pmm_get_ref p a) /\ (forall a, ~ free_at p a) /\ (forall a, ~ free_at p' a).
Proof.
  intros [Hwf Hrefs] Hz Ha. apply pmm_alloc_spec in Ha as (Hwf'&Hb&Hg&Hres); [|done|lia].
  destruct Hres as [(_&Hrc&Hbm)|(_&st&_&_&_&?&?&_)]; [|done].
  assert (p'.(g_bm) = p.(g_bm) /\ forall st, 0 <= st -> st + 1 <= p.(g_pages) -> ~ run_free p.(g_bm) st 1)
    as [Hbm' Hno].
  { destruct Hbm as [[? [?|?]]|(Hb0&Hpg&Hf)]; [done|done|].
    destruct Hz. exists 0. split; [|apply Hf; lia]. 
    pose proof (page_of_page p Hwf 0 ltac:(lia)) as H0. by rewrite Hb0 in H0. }
  assert (Hnf : forall a, ~ free_at p a).
  { intros a (q&Hof&Hf). pose proof (page_of_inv p Hwf a q Hof) as (Hq&_&_).
    apply (Hno q); [lia..|]. intros q' Hq'. by replace q' with q by lia. }
  split_and!; auto.
  - split; [done|]. intros q. rewrite Hg, Hrc. unfold pmm_test. rewrite Hbm'. apply Hrefs.
  - intros a. unfold pmm_get_ref. by rewrite (page_of_range p p' a Hb Hg), Hrc.
  - intros a (q&Hof&Hf). apply (Hnf a). exists q. rewrite <- (page_of_range p p' a Hb Hg).
    unfold pmm_test in *. by rewrite <- Hbm'.
Qed.

Lemma free_by_address p a :
  pmm_ok p -> aligned a -> 0 < pmm_get_ref p a ->
  let p' := pmm_free p a 1 in
  pmm_ok p' /\ p'.(g_base_pa) = p.(g_base_pa) /\ p'.(g_pages) = p.(g_pages) /\
  (forall b, aligned b -> pmm_get_ref p' b = if decide (b = a) then pmm_get_ref p a - 1 else pmm_get_ref p b) /\
  (forall b, aligned b -> free_at p' b -> free_at p b \/ b = a /\ pmm_get_ref p a = 1).
Proof.
  intros [Hwf Hrefs] Hal Hpos. destruct (get_ref_pos p a Hwf Hal Hpos) as (q0&Hq0&->&Hof).
  cbv zeta. rewrite pmm_free_one by done.
  destruct (pmm_free_refines p Hwf Hrefs q0 Hq0) as [Hrefs' _].
  destruct (pmm_free_page_spec p (page_addr p q0) Hwf) as (Hwf'&Hb&Hg&Hres). rewrite Hof in Hres.
  assert (Hz : pmm_get_ref p (page_addr p q0) = zget p.(g_rc) q0) by (unfold pmm_get_ref; by rewrite Hof).
  rewrite Hz in *. apply Z.ltb_lt in Hpos as Hp1. rewrite Hp1 in Hres. destruct Hres as [Hr Ht].
  pose proof (wf_rc_len p Hwf).
  assert (Hr' : forall q, 0 <= q < p.(g_pages) -> zget (pmm_free_page p (page_addr p q0)).(g_rc) q =
    if decide (q = q0) then zget p.(g_rc) q0 - 1 else zget p.(g_rc) q).
  { intros q Hq. rewrite Hr, zget_zset by lia. repeat case_decide; done. }
  pose proof (get_ref_change p _ (fun q r => if decide (q = q0) then zget p.(g_rc) q0 - 1 else r)
    (fun q b => negb ((q =? q0) && (zget p.(g_rc) q0 =? 1)) && b) Hwf Hb Hg Hr' Ht) as Hch.
  split_and!; auto; [by split| |].
  - intros b Hbal. specialize (Hch b). destruct (pmm_page_of p b) as [q|] eqn:E.
    + destruct (page_of_aligned_inv p b q Hwf Hbal E) as [_ ->]. destruct Hch as [-> _].
      repeat case_decide; try congruence; exfalso; unfold page_addr, PAGE_SIZE in *; lia.
    + case_decide; [congruence|lia].
  - intros b Hbal. specialize (Hch b). destruct (pmm_page_of p b) as [q|] eqn:E; [|tauto].
    destruct (page_of_aligned_inv p b q Hwf Hbal E) as [_ ->]. destruct Hch as [_ ->].
    intros [[?%Z.eqb_eq ?%Z.eqb_eq]%negb_false_iff%andb_true_iff|?]%andb_false_iff.
    + right. by subst.
    + left. by exists q.
Qed.

(** The last owner's free makes the page free, and free pages stay free. *)
Lemma free_releases p a :
  pmm_ok p -> aligned a -> 0 < pmm_get_ref p a ->
  (pmm_get_ref p a = 1 -> free_at (pmm_free p a 1) a) /\ forall b, free_at p b -> free_at (pmm_free p a 1) b.
Proof.
  intros [Hwf Hrefs] Hal Hpos. destruct (get_ref_pos p a Hwf Hal Hpos) as (q0&Hq0&->&Hof).
  rewrite pmm_free_one by done. destruct (pmm_free_page_spec p (page_addr p q0) Hwf) as (_&Hb&Hg&Hres). rewrite Hof in Hres.
  assert (Hz : pmm_get_ref p (page_addr p q0) = zget p.(g_rc) q0) by (unfold pmm_get_ref; by rewrite Hof).
  rewrite Hz in *. apply Z.ltb_lt in Hpos as Hp1. rewrite Hp1 in Hres. destruct Hres as [_ Ht]. split.
  - intros H1. exists q0. rewrite (page_of_range p _ _ Hb Hg), Ht, Z.eqb_refl, H1 by done. done.
  - intros b (q&Hq&Hf). exists q. rewrite (page_of_range p _ _ Hb Hg). split; [done|].
    destruct (page_of_inv p Hwf b q Hq) as [Hr _]. rewrite Ht, Hf by done. by rewrite andb_false_r.
Qed.

Lemma incref_by_address p a :
  pmm_ok p -> aligned a -> 0 < pmm_get_ref p a < 65535 ->
  let p' := pmm_incref p a in
  pmm_ok p' /\ p'.(g_base_pa) = p.(g_base_pa) /\ p'.(g_pages) = p.(g_pages) /\
  (forall b, aligned b -> pmm_get_ref p' b = if decide (b = a) then pmm_get_ref p a + 1 else pmm_get_ref p b) /\
  (forall b, free_at p' b -> free_at p b).
Proof.
  intros [Hwf Hrefs] Hal Hpos. destruct (get_ref_pos p a Hwf Hal ltac:(lia)) as (q0&Hq0&->&Hof).
  assert (Hz : pmm_get_ref p (page_addr p q0) = zget p.(g_rc) q0) by (unfold pmm_get_ref; by rewrite Hof).
  rewrite Hz in *. pose proof (wf_rc_len p Hwf).
  pose proof (pmm_incref_wf p (page_addr p q0) Hwf) as Hwf'. unfold pmm_incref in *. rewrite Hof in *.
  rewrite (proj2 (Z.ltb_lt _ 65535)) in * by lia. cbv zeta.
  assert (Hr' : forall q, 0 <= q < p.(g_pages) ->
    zget (with_rc p (zset p.(g_rc) q0 (zget p.(g_rc) q0 + 1))).(g_rc) q =
    if decide (q = q0) then zget p.(g_rc) q0 + 1 else zget p.(g_rc) q).
  { intros q Hq. simpl. rewrite zget_zset by lia. repeat case_decide; done. }
  pose proof (get_ref_change p (with_rc p (zset p.(g_rc) q0 (zget p.(g_rc) q0 + 1)))
    (fun q r => if decide (q = q0) then zget p.(g_rc) q0 + 1 else r)
    (fun q b => b) Hwf eq_refl eq_refl Hr' (fun _ _ => eq_refl)) as Hch.
  split_and!; auto.
  - split; [done|]. intros q Hq. rewrite Hr' by done. case_decide as Hd; [subst|]; intros ?; apply Hrefs; done || lia.
  - intros b Hbal. specialize (Hch b). destruct (pmm_page_of p b) as [q|] eqn:E.
    + destruct (page_of_aligned_inv p b q Hwf Hbal E) as [_ ->]. destruct Hch as [-> _].
      repeat case_decide; try congruence; exfalso; unfold page_addr, PAGE_SIZE in *; lia.
    + case_decide; [congruence|lia].
Qed.

(** ** The invariant *)
Section cow.
Context `{HA : ArchPte}.

(** The page a leaf maps. *)
Definition frame (m : memory) (l : Z) : Z := arch_pte_phys (m l).
Definition in_frame (f a : Z) : Prop := f <= a < f + PAGE_SIZE.

(** How many of the leaves [L] map the page [f]. *)
Fixpoint mappers (m : memory) (L : list Z) (f : Z) : Z :=
  match L with
  | [] => 0
  | l :: L => (if decide (frame m l = f) then 1 else 0) + mappers m L f
  end.

Lemma frames_apart f f' a : aligned f -> aligned f' -> f <> f' -> in_frame f a -> ~ in_frame f' a.
Proof.
  unfold aligned, in_frame. intros [k ->]%aligned_mul [k' ->]%aligned_mul. unfold PAGE_SIZE. lia.
Qed.

Lemma in_frame_page_down f a : aligned f -> in_frame f a <-> page_down a = f.
Proof.
  intros Hf. pose proof (page_down_bound a). pose proof (page_down_aligned a) as Hd.
  unfold in_frame, aligned in *. apply aligned_mul in Hf as [k ->]. apply aligned_mul in Hd as [j Hj].
  rewrite Hj in *. unfold PAGE_SIZE in *. lia.
Qed.

Lemma mappers_nonneg m L f : 0 <= mappers m L f.
Proof. induction L; simpl; [lia|case_decide; lia]. Qed.

Lemma mappers_pos m L l : l ∈ L -> 1 <= mappers m L (frame m l).
Proof.
  induction L as [|x L IH]; [by intros ?%not_elem_of_nil|]. simpl.
  pose proof (mappers_nonneg m L (frame m l)). intros [->|?]%elem_of_cons.
  - rewrite decide_True by done. lia.
  - specialize (IH ltac:(done)). case_decide; lia.
Qed.

(** The leaf [l] moves to another page, the others stay. *)
Lemma mappers_move m m' L l f :
  NoDup L -> l ∈ L -> (forall x, x ∈ L -> x <> l -> frame m' x = frame m x) ->
  mappers m' L f = mappers m L f - (if decide (frame m l = f) then 1 else 0)
                   + (if decide (frame m' l = f) then 1 else 0).
Proof.
  induction L as [|x L IH]; [by intros _ ?%not_elem_of_nil|]. intros Hnd Hl Hx.
  apply NoDup_cons in Hnd as [Hnx Hnd]. simpl.
  assert (Hsame : l ∉ L -> mappers m' L f = mappers m L f).
  { clear -Hx. intros Hn. induction L as [|y L IH]; [done|]. simpl. rewrite (Hx y).
    - rewrite IH; [done|intros z [->|?]%elem_of_cons; [apply Hx; apply elem_of_cons; by left|apply Hx; set_solver]|set_solver].
    - set_solver.
    - set_solver. }
  apply elem_of_cons in Hl as [<-|Hl].
  - rewrite Hsame by done. lia.
  - rewrite (Hx x), IH; [lia|done|done|intros; apply Hx; set_solver|set_solver|set_solver].
Qed.

Lemma mappers_stay m m' L f :
  (forall x, x ∈ L -> frame m' x = frame m x) -> mappers m' L f = mappers m L f.
Proof.
  induction L as [|y L IH]; [done|]. intros Hx. simpl. rewrite (Hx y), IH; set_solver.
Qed.

Lemma mappers_two m L l l' :
  NoDup L -> l ∈ L -> l' ∈ L -> l <> l' -> frame m l = frame m l' -> 2 <= mappers m L (frame m l).
Proof.
  induction L as [|x L IH]; [by intros _ ?%not_elem_of_nil|]. intros [Hnx Hnd]%NoDup_cons Hl Hl' Hne Hf.
  simpl. pose proof (mappers_nonneg m L (frame m l)).
  apply elem_of_cons in Hl as [->|Hl]; apply elem_of_cons in Hl' as [->|Hl']; [done|..].
  - rewrite decide_True by done. rewrite Hf. pose proof (mappers_pos m L l' Hl'). lia.
  - rewrite decide_True by done. pose proof (mappers_pos m L l Hl). lia.
  - specialize (IH Hnd Hl Hl' Hne Hf). case_decide; lia.
Qed.

Lemma mappers_drop m L l f :
  NoDup L -> l ∈ L ->
  mappers m (filter (fun x => x <> l) L) f = mappers m L f - (if decide (frame m l = f) then 1 else 0).
Proof.
  induction L as [|x L IH]; [by intros _ ?%not_elem_of_nil|]. intros [Hnx Hnd]%NoDup_cons Hl.
  apply elem_of_cons in Hl as [<-|Hl].
  - rewrite filter_cons_False by tauto. simpl.
    rewrite filter_ne_id by done. lia.
  - rewrite filter_cons_True by (by intros ->). simpl. rewrite IH by done. lia.
Qed.

Lemma mappers_none m L f : (forall x, x ∈ L -> frame m x <> f) -> mappers m L f = 0.
Proof.
  induction L as [|x L IH]; [done|]. intros Hx. simpl.
  rewrite decide_False by (apply Hx, list_elem_of_here).
  rewrite IH; [done|]. intros y Hy. by apply Hx, list_elem_of_further.
Qed.

(** Reference counts [r] count leaves; when [l] moves to the fresh page [pa]
    and its old page loses one reference, the counts [r'] still do. *)
Lemma relocate_count m m' L l pa (r r' : Z -> Z) :
  NoDup L -> l ∈ L -> (forall x, x ∈ L -> x <> l -> frame m' x = frame m x) -> frame m' l = pa ->
  (forall x, x ∈ L -> frame m x <> pa) ->
  (forall x, x ∈ L -> r (frame m x) = mappers m L (frame m x)) -> r' pa = 1 ->
  (forall x, x ∈ L -> r' (frame m x) = r (frame m x) - (if decide (frame m x = frame m l) then 1 else 0)) ->
  forall x, x ∈ L -> r' (frame m' x) = mappers m' L (frame m' x).
Proof.
  intros Hnd Hl Hfx Hfl Hfresh Hr Hpa Hr' x Hx.
  rewrite (mappers_move m m' L l) by done. rewrite Hfl.
  destruct (decide (x = l)) as [->|Hxl].
  - rewrite Hfl, Hpa, mappers_none by done. rewrite decide_False, decide_True by auto. lia.
  - rewrite Hfx, Hr', Hr by done. rewrite (decide_False (P := pa = _)) by (intros ?; by eapply Hfresh).
    repeat case_decide; lia || congruence.
Qed.

Record cow_inv (s : vmst) (L : list Z) : Prop := {
  ci_pmm : pmm_ok s.(v_pmm);
  ci_limit : s.(v_pmm).(g_base_pa) + s.(v_pmm).(g_pages) * PAGE_SIZE <= arch_phys_limit;
  (** address 0, the allocator's failure value, belongs to nobody *)
  ci_zero : (~ free_at s.(v_pmm) 0) /\ pmm_get_ref s.(v_pmm) 0 = 0;
  ci_nodup : NoDup L;
  (** the references of a mapped page are its leaves *)
  ci_count : forall l, l ∈ L ->
    pmm_get_ref s.(v_pmm) (frame s.(v_mem) l) = mappers s.(v_mem) L (frame s.(v_mem) l);
  (** a writable leaf shares its page with nobody *)
  ci_write : forall l, l ∈ L -> arch_pte_writable (s.(v_mem) l) = true ->
    pmm_get_ref s.(v_pmm) (frame s.(v_mem) l) = 1;
  (** page tables live neither in free pages nor in user pages *)
  ci_slot : forall l, l ∈ L -> ~ free_at s.(v_pmm) (page_down l);
  ci_apart : forall l l', l ∈ L -> l' ∈ L -> ~ in_frame (frame s.(v_mem) l') l;
}.

Context `{HV : !ArchVm} `{HL : !ArchPteLaws}.

Lemma frame_aligned m l : aligned (frame m l).
Proof. apply pte_phys_aligned. Qed.


Lemma mwrite_eq m a v : mwrite m a v a = v.
Proof. unfold mwrite. by rewrite Z.eqb_refl. Qed.

Lemma mwrite_ne m a v x : x <> a -> mwrite m a v x = m x.
Proof. unfold mwrite. intros Hne%Z.eqb_neq. by rewrite Hne. Qed.

Section inv_facts.
Variables (s : vmst) (L : list Z).
Hypothesis Hinv : cow_inv s L.
Abbreviation m := s.(v_mem).
Abbreviation p := s.(v_pmm).

Lemma inv_ref_pos l : l ∈ L -> 0 < pmm_get_ref p (frame m l).
Proof using Hinv. intros Hl. rewrite (ci_count _ _ Hinv l Hl). pose proof (mappers_pos m L l Hl). lia. Qed.

Lemma inv_managed l : l ∈ L -> 0 <= frame m l < 2 ^ 64 /\ frame m l < arch_phys_limit.
Proof using Hinv HL.
  intros Hl. destruct (ci_pmm _ _ Hinv) as [Hwf _]. pose proof (ci_limit _ _ Hinv).
  destruct (get_ref_pos p (frame m l) Hwf (frame_aligned m l) (inv_ref_pos l Hl)) as (q&Hq&->&_).
  pose proof (wf_range p Hwf). unfold page_addr, PAGE_SIZE in *. lia.
Qed.

(** Two leaves of one page are both read-only. *)
Lemma inv_private l l' :
  l ∈ L -> l' ∈ L -> l <> l' -> arch_pte_writable (m l) = true -> frame m l <> frame m l'.
Proof using Hinv.
  intros Hl Hl' Hne Hw Hf. pose proof (ci_write _ _ Hinv l Hl Hw) as H1.
  rewrite (ci_count _ _ Hinv l Hl) in H1.
  pose proof (mappers_two m L l l' (ci_nodup _ _ Hinv) Hl Hl' Hne Hf). lia.
Qed.

(** Stores outside the leaves do not matter to the invariant. *)
Lemma inv_mem_stable m' : (forall x, x ∈ L -> m' x = m x) -> cow_inv (with_mem s m') L.
Proof using Hinv.
  intros Hm. assert (Hf : forall x, x ∈ L -> frame m' x = frame m x) by (intros x Hx; unfold frame; by rewrite Hm).
  destruct Hinv as [? ? ? ? Hc Hw ? Hap]. constructor; simpl; auto.
  - intros l Hl. rewrite Hf, Hc, (mappers_stay m m'); auto.
  - intros l Hl. rewrite Hf, Hm by done. by apply Hw.
  - intros l l' Hl Hl'. rewrite Hf by done. by apply Hap.
Qed.

(** A user write through a writable leaf: the leaves survive, and no other
    leaf sees it. *)
Lemma user_write_ok l off v :
  l ∈ L -> arch_pte_writable (m l) = true -> 0 <= off < PAGE_SIZE ->
  let m' := mwrite m (frame m l + off) v in
  cow_inv (with_mem s m') L /\
  (forall x, x ∈ L -> m' x = m x) /\
  (forall x o, x ∈ L -> x <> l -> 0 <= o < PAGE_SIZE -> m' (frame m x + o) = m (frame m x + o)).
Proof using Hinv HL.
  intros Hl Hw Hoff m'.
  assert (Hm : forall x, x ∈ L -> m' x = m x).
  { intros x Hx. apply mwrite_ne. intros ->. apply (ci_apart _ _ Hinv _ _ Hx Hl). unfold in_frame. lia. }
  split_and!; [by apply inv_mem_stable|done|]. intros x o Hx Hne Ho. apply mwrite_ne. intros Heq.
  apply (frames_apart (frame m l) (frame m x) (frame m l + off)); try apply frame_aligned.
  - by apply inv_private.
  - unfold in_frame. lia.
  - unfold in_frame. lia.
Qed.

(** A slot for a new leaf: in a page table, and free of leaves so far. *)
Definition slot_ok (c : Z) : Prop :=
  (c ∉ L) /\ (~ free_at p (page_down c)) /\ forall l, l ∈ L -> ~ in_frame (frame m l) c.

Lemma share_leaf_eq l :
  l ∈ L ->
  let e := if arch_pte_writable (m l) then arch_pte_mkcow (m l) else m l in
  vm_cow_share_leaf s l 1 =
    (e, mkVm (pmm_incref p (frame m l)) (if arch_pte_writable (m l) then mwrite m l e else m) s.(v_tlb)).
Proof using Hinv HL.
  intros Hl. pose proof (inv_ref_pos l Hl) as Hr. pose proof (inv_managed l Hl). unfold frame in *.
  unfold vm_cow_share_leaf. destruct (Z.eqb_spec (pmm_get_ref p (arch_pte_phys (m l))) 0); [lia|].
  change (Z.to_nat 1) with 1%nat. cbn [incref_loop]. rewrite Z.add_0_r, u64_small by lia.
  by destruct (arch_pte_writable (m l)).
Qed.

(** Fork of one leaf: parent and child map the same page, read-only. *)
Lemma fork_leaf_ok l c e s1 :
  l ∈ L -> slot_ok c -> pmm_get_ref p (frame m l) < 65535 ->
  vm_cow_share_leaf s l 1 = (e, s1) ->
  let s' := set_leaf s1 c e in
  cow_inv s' (c :: L) /\
  (forall x, x ∈ L -> frame s'.(v_mem) x = frame m x) /\ frame s'.(v_mem) c = frame m l /\
  (forall a, a <> l -> a <> c -> s'.(v_mem) a = m a).
Proof using Hinv HL.
  intros Hl (Hc&Hcf&Hca) Hr. pose proof (share_leaf_eq l Hl) as He. cbv zeta in He. rewrite He.
  set (e0 := if arch_pte_writable (m l) then arch_pte_mkcow (m l) else m l).
  intros [= <- <-]. cbv zeta. unfold set_leaf, with_mem. simpl.
  set (m1 := if arch_pte_writable (m l) then mwrite m l e0 else m). set (m2 := mwrite m1 c e0).
  assert (Hne : forall x, x ∈ L -> x <> c) by (by intros x Hx ->).
  assert (He0 : arch_pte_phys e0 = frame m l) by (subst e0; case_match; [apply mkcow_phys|done]).
  assert (Hw0 : arch_pte_writable e0 = false) by (subst e0; case_match; [apply mkcow_readonly|done]).
  assert (Hm1 : m1 l = e0) by (subst m1 e0; case_match; [apply mwrite_eq|done]).
  assert (Hm2 : forall a, a <> l -> a <> c -> m2 a = m a).
  { intros a Ha Hac. subst m2. rewrite mwrite_ne by done. subst m1. case_match; [by apply mwrite_ne|done]. }
  assert (Hml : m2 l = e0) by (subst m2; rewrite mwrite_ne; auto).
  assert (Hmc : m2 c = e0) by apply mwrite_eq.
  assert (Hf : forall x, x ∈ L -> frame m2 x = frame m x).
  { intros x Hx. unfold frame. destruct (decide (x = l)) as [->|]; [by rewrite Hml, He0|].
    rewrite Hm2; auto. }
  assert (Hfc : frame m2 c = frame m l) by (unfold frame; by rewrite Hmc, He0).
  split_and!; auto.
  destruct (incref_by_address p (frame m l) (ci_pmm _ _ Hinv) (frame_aligned m l)) as (Hok&Hb&Hg&Href&Hfree).
  { split; [by apply inv_ref_pos|done]. }
  assert (Hcount : forall x, x ∈ c :: L -> pmm_get_ref (pmm_incref p (frame m l)) (frame m2 x)
                                          = mappers m2 (c :: L) (frame m2 x)).
  { assert (Hgen : forall f, aligned f -> pmm_get_ref p f = mappers m L f ->
      pmm_get_ref (pmm_incref p (frame m l)) f = mappers m2 (c :: L) f).
    { intros f Hal Hcf'. rewrite Href by done. simpl. rewrite (mappers_stay m m2) by done. rewrite Hfc.
      case_decide as Hd; [subst|rewrite decide_False by congruence; lia].
      rewrite decide_True by done. rewrite Hcf'. lia. }
    intros x [->|Hx]%elem_of_cons; [rewrite Hfc|rewrite Hf by done]; apply Hgen; try apply frame_aligned;
      by apply (ci_count _ _ Hinv). }
  destruct (ci_zero _ _ Hinv) as [Hz0 Hz1].
  constructor; simpl; auto.
  - rewrite Hb, Hg. apply Hinv.
  - split; [by intros ?%Hfree|]. rewrite Href, decide_False; [done| |done].
    intros Hz. pose proof (inv_ref_pos l Hl). rewrite <- Hz in *. lia.
  - apply NoDup_cons. split; [done|apply Hinv].
  - intros x Hx Hw. apply elem_of_cons in Hx as [->|Hx]; [by rewrite Hmc, Hw0 in Hw|].
    destruct (decide (x = l)) as [->|Hxl]; [by rewrite Hml, Hw0 in Hw|].
    rewrite Hm2 in Hw by auto. rewrite Hf, Href by (done || apply frame_aligned).
    rewrite decide_False by (by apply inv_private). by apply (ci_write _ _ Hinv).
  - intros x [->|Hx]%elem_of_cons Hfr%Hfree; [done|]. by apply (ci_slot _ _ Hinv x).
  - intros x x' Hx Hx'. assert (exists y, y ∈ L /\ frame m2 x' = frame m y) as (y&Hy&->).
    { apply elem_of_cons in Hx' as [->|Hx']; eauto. }
    apply elem_of_cons in Hx as [->|Hx]; [by apply Hca|]. by apply (ci_apart _ _ Hinv).
Qed.

(** The last owner takes its page back in place. *)
Lemma reclaim_ok l :
  l ∈ L -> pmm_get_ref p (frame m l) = 1 ->
  let m' := mwrite m l (arch_pte_mkwrite (m l) (frame m l)) in
  cow_inv (with_mem s m') L /\ arch_pte_writable (m' l) = true /\
  (forall x, x ∈ L -> frame m' x = frame m x) /\
  (forall x o, x ∈ L -> 0 <= o < PAGE_SIZE -> m' (frame m x + o) = m (frame m x + o)).
Proof using Hinv HL.
  intros Hl Hone m'. destruct (inv_managed l Hl) as [H0 Hlim].
  assert (Hml : m' l = arch_pte_mkwrite (m l) (frame m l)) by apply mwrite_eq.
  assert (Hf : forall x, x ∈ L -> frame m' x = frame m x).
  { intros x Hx. destruct (decide (x = l)) as [->|]; unfold frame.
    - rewrite Hml. apply mkwrite_phys; [by split; [apply H0|]|apply frame_aligned].
    - subst m'. by rewrite mwrite_ne. }
  split_and!; auto.
  - destruct Hinv as [? ? ? ? Hc Hw ? Hap]. constructor; simpl; auto.
    + intros x Hx. rewrite Hf, (mappers_stay m m'); auto.
    + intros x Hx. rewrite Hf by done. destruct (decide (x = l)) as [->|]; [done|].
      subst m'. rewrite mwrite_ne by done. by apply Hw.
    + intros x x' Hx Hx'. rewrite Hf by done. by apply Hap.
  - rewrite Hml. apply mkwrite_writable, frame_aligned.
  - intros x o Hx Ho. apply mwrite_ne. intros Heq.
    apply (ci_apart _ _ Hinv l x Hl Hx). unfold in_frame. lia.
Qed.

(** The page is copied to a fresh one, the leaf moved there and the old
    page let go. *)
Lemma copy_ok l pa p1 :
  l ∈ L -> 1 < pmm_get_ref p (frame m l) -> pmm_alloc p 1 = (pa, p1) -> pa <> 0 ->
  let m' := mwrite (mcopy m pa (frame m l) PAGE_SIZE) l (arch_pte_mkwrite (m l) pa) in
  let p' := pmm_free p1 (frame m l) 1 in
  cow_inv (mkVm p' m' s.(v_tlb)) L /\ arch_pte_writable (m' l) = true /\ frame m' l = pa /\
  (forall x, x ∈ L -> x <> l -> m' x = m x) /\
  (forall x o, x ∈ L -> 0 <= o < PAGE_SIZE -> m' (frame m' x + o) = m (frame m x + o)).
Proof using Hinv HL.
  intros Hl Hsh Ha Hne m' p'. pose proof (ci_pmm _ _ Hinv) as Hok.
  destruct (alloc_by_address p pa p1 Hok Ha Hne) as (Hok1&Hpal&Hpa0&Hpae&Hb1&Hg1&Hfree&Hone&Href&Hfr).
  assert (Hfresh : forall x, x ∈ L -> frame m x <> pa).
  { intros x Hx <-. apply (get_ref_not_free p (frame m x) Hok); [by apply inv_ref_pos|done]. }
  assert (Hslot : forall x, x ∈ L -> ~ in_frame pa x).
  { intros x Hx Hin. apply (in_frame_page_down pa x Hpal) in Hin. apply (ci_slot _ _ Hinv x Hx).
    by rewrite Hin. }
  destruct (free_by_address p1 (frame m l) Hok1 (frame_aligned m l)) as (Hok2&Hb2&Hg2&Href2&Hfr2).
  { rewrite Href; [lia|apply frame_aligned|by apply Hfresh]. }
  rewrite (Href (frame m l)) in Href2, Hfr2 by (apply frame_aligned || by apply Hfresh). fold p' in Hok2, Hb2, Hg2, Href2, Hfr2.
  assert (Hcp : forall x, ~ in_frame pa x -> mcopy m pa (frame m l) PAGE_SIZE x = m x).
  { intros x Hx. unfold mcopy, in_frame in *.
    destruct (Z.leb_spec pa x), (Z.ltb_spec x (pa + PAGE_SIZE)); simpl; done || lia. }
  assert (Hml : m' l = arch_pte_mkwrite (m l) pa) by apply mwrite_eq.
  assert (Hmx : forall x, x ∈ L -> x <> l -> m' x = m x).
  { intros x Hx Hxl. subst m'. rewrite mwrite_ne by done. apply Hcp. by apply Hslot. }
  pose proof (ci_limit _ _ Hinv) as Hlim.
  assert (Hfl : frame m' l = pa).
  { unfold frame. rewrite Hml. apply mkwrite_phys; [unfold PAGE_SIZE in *; lia|done]. }
  assert (Hfx : forall x, x ∈ L -> x <> l -> frame m' x = frame m x).
  { intros x ??. unfold frame. by rewrite Hmx. }
  split_and!; auto.
  - constructor; simpl; auto.
    + rewrite Hb2, Hg2, Hb1, Hg1. done.
    + destruct (ci_zero _ _ Hinv) as [Hz0 Hz1]. split.
      * intros [?%Hfr|[Hz ?]]%Hfr2; [done|lia|done].
      * rewrite Href2 by done. case_decide as Hd; [rewrite <- Hd in Hsh; lia|]. rewrite Href; auto; done.
    + apply Hinv.
    + apply (relocate_count m m' L l pa (pmm_get_ref p)); auto.
      * apply Hinv.
      * apply Hinv.
      * by rewrite Href2, decide_False by (done || by intros ?%eq_sym; eapply Hfresh).
      * intros x Hx. rewrite Href2 by apply frame_aligned. case_decide as Hd; [by rewrite Hd|].
        rewrite Href; [lia|apply frame_aligned|by apply Hfresh].
    + intros x Hx Hw. destruct (decide (x = l)) as [->|Hxl].
      * by rewrite Hfl, Href2, decide_False by (done || by intros ?%eq_sym; eapply Hfresh).
      * rewrite Hmx in Hw by done. rewrite Hfx, Href2 by (done || apply frame_aligned).
        rewrite decide_False by (by apply inv_private). rewrite Href by (apply frame_aligned || by apply Hfresh). by apply (ci_write _ _ Hinv).
    + intros x Hx [Hf|[_ ?]]%Hfr2; [|lia|apply page_down_aligned].
      apply (ci_slot _ _ Hinv x Hx). by apply Hfr.
    + intros x x' Hx Hx'. destruct (decide (x' = l)) as [->|].
      * rewrite Hfl. by apply Hslot.
      * rewrite Hfx by done. by apply (ci_apart _ _ Hinv).
  - rewrite Hml. by apply mkwrite_writable.
  - intros x o Hx Ho. destruct (decide (x = l)) as [->|Hxl].
    + rewrite Hfl. subst m'. rewrite mwrite_ne.
      * unfold mcopy. rewrite (proj2 (Z.leb_le _ _)), (proj2 (Z.ltb_lt _ _)) by lia. simpl. f_equal. lia.
      * intros Heq. apply (Hslot l Hl). unfold in_frame. lia.
    + rewrite Hfx by done. subst m'. rewrite mwrite_ne.
      * apply Hcp. apply (frames_apart (frame m x) pa); try done; [apply frame_aligned|by apply Hfresh|].
        unfold in_frame. lia.
      * intros Heq. apply (ci_apart _ _ Hinv l x Hl Hx). unfold in_frame. lia.
Qed.

(** What a state change that keeps the leaves' contents looks like. *)
Definition same_views (m' : memory) : Prop :=
  forall x o, x ∈ L -> 0 <= o < PAGE_SIZE -> m' (frame m' x + o) = m (frame m x + o).

Lemma inv_alloc_fail p' :
  pmm_ok p' -> p'.(g_base_pa) = p.(g_base_pa) -> p'.(g_pages) = p.(g_pages) ->
  (forall a, pmm_get_ref p' a = pmm_get_ref p a) -> (forall a, ~ free_at p' a) ->
  cow_inv (with_pmm s p') L.
Proof using Hinv.
  intros Hok Hb Hg Hr Hf. destruct Hinv as [? ? [? ?] ? Hc Hw ? Hap].
  constructor; simpl; rewrite ?Hb, ?Hg, ?Hr; auto; intros l Hl; rewrite Hr; auto.
Qed.

Lemma inv_flush s' L' as_ va : cow_inv s' L' -> cow_inv (arch_vm_flush_user_page s' as_ va) L'.
Proof using. by intros []. Qed.

(** The write fault, branch by branch. *)
Lemma write_fault_ok as_ va l rc s' :
  arch_vm_user_leaf m as_ va = Some (l, 1) -> l ∈ L ->
  vm_cow_write_fault s as_ va = (rc, s') ->
  cow_inv s' L /\ same_views s'.(v_mem) /\
  (rc = VM_COW_HANDLED /\ arch_pte_writable (s'.(v_mem) l) = true /\
     s'.(v_tlb) as_ (page_down va) = None \/
   rc = VM_COW_NOT_COW /\ s' = s /\ arch_pte_cow (m l) = false /\ arch_pte_writable (m l) = false \/
   rc = VM_COW_NOMEM /\ s'.(v_mem) = m /\ arch_pte_cow (m l) = true /\ forall a, ~ free_at p a).
Proof using Hinv HL.
  intros Hleaf Hl. unfold vm_cow_write_fault. rewrite Hleaf. change (1 * PAGE_SIZE) with PAGE_SIZE.
  fold (page_down va). fold (frame m l).
  assert (Hfl : forall st, v_tlb (arch_vm_flush_user_page st as_ (page_down va)) as_ (page_down va) = None).
  { intros st. simpl. by rewrite !Z.eqb_refl. }
  destruct (arch_pte_cow (m l)) eqn:Hcow; simpl negb; cbv iota.
  2: { destruct (arch_pte_writable (m l)) eqn:Hw; intros [= <- <-].
       - split_and!; [by apply inv_flush|done|]. left. by rewrite Hfl.
       - split_and!; [done..|]. right. by left. }
  unfold vm_cow_page_shared. destruct (Z.ltb_spec 1 (pmm_get_ref p (frame m l))) as [Hsh|Hns].
  - destruct (pmm_alloc p 1) as [pa p1] eqn:Ha. destruct (Z.eqb_spec pa 0) as [->|Hne].
    + intros [= <- <-]. destruct (alloc_fail_by_address p p1) as (?&?&?&?&?&?);
        [apply Hinv|apply (ci_zero _ _ Hinv)|done|].
      split_and!; [by apply inv_alloc_fail|done|]. right; right. done.
    + intros [= <- <-]. destruct (copy_ok l pa p1) as (Hi&Hw&_&_&Hv); auto.
      split_and!; [|exact Hv|left; split_and!; [done|exact Hw|apply (Hfl (mkVm p1 m s.(v_tlb)))]].
      by apply (inv_flush (mkVm _ _ s.(v_tlb)) L as_ (page_down va)) in Hi.
  - pose proof (inv_ref_pos l Hl). destruct (reclaim_ok l Hl ltac:(lia)) as (Hi&Hw&Hf&Hv).
    intros [= <- <-]. split_and!.
    + by apply (inv_flush _ L as_ (page_down va)) in Hi.
    + intros x o Hx Ho. simpl. rewrite Hf by done. by apply Hv.
    + left. rewrite Hfl. done.
Qed.

(** A fresh page mapped at a new leaf. *)
Lemma map_ok c e pa p1 :
  slot_ok c -> pmm_alloc p 1 = (pa, p1) -> pa <> 0 -> arch_pte_phys e = pa ->
  let m' := mwrite m c e in
  cow_inv (mkVm p1 m' s.(v_tlb)) (c :: L) /\ same_views m'.
Proof using Hinv HL.
  intros (Hc&Hcf&Hca) Ha Hne He m'. pose proof (ci_pmm _ _ Hinv) as Hok.
  destruct (alloc_by_address p pa p1 Hok Ha Hne) as (Hok1&Hpal&Hpa0&Hpae&Hb1&Hg1&Hfree&Hone&Href&Hfr).
  assert (Hfresh : forall x, x ∈ L -> frame m x <> pa).
  { intros x Hx <-. apply (get_ref_not_free p (frame m x) Hok); [by apply inv_ref_pos|done]. }
  assert (Hmc : m' c = e) by apply mwrite_eq.
  assert (Hmx : forall x, x ∈ L -> m' x = m x) by (intros x Hx; apply mwrite_ne; by intros ->).
  assert (Hf : forall x, x ∈ L -> frame m' x = frame m x) by (intros x Hx; unfold frame; by rewrite Hmx).
  assert (Hfc : frame m' c = pa) by (unfold frame; by rewrite Hmc).
  assert (Hslot : forall x, ~ free_at p (page_down x) -> ~ in_frame pa x).
  { intros x Hx Hin. apply Hx. apply (in_frame_page_down pa x Hpal) in Hin. by rewrite Hin. }
  split.
  - destruct (ci_zero _ _ Hinv) as [Hz0 Hz1]. constructor; simpl; auto.
    + rewrite Hb1, Hg1. apply Hinv.
    + split; [by intros ?%Hfr|]. by rewrite Href.
    + apply NoDup_cons. split; [done|apply Hinv].
    + intros x [->|Hx]%elem_of_cons; rewrite Hfc.
      * rewrite Hone, (mappers_stay m m'), mappers_none, decide_True by done. lia.
      * rewrite Hf, Href, (mappers_stay m m'), decide_False by
          (done || apply frame_aligned || (intros ?; by eapply Hfresh) || by apply Hfresh).
        rewrite (ci_count _ _ Hinv) by done. lia.
    + intros x [->|Hx]%elem_of_cons; [by rewrite Hfc|]. rewrite Hf, Hmx, Href by
        (done || apply frame_aligned || by apply Hfresh). by apply (ci_write _ _ Hinv).
    + intros x [->|Hx]%elem_of_cons ?%Hfr; [done|by apply (ci_slot _ _ Hinv x)].
    + intros x x' Hx [->|Hx']%elem_of_cons; [rewrite Hfc|rewrite Hf by done];
        apply elem_of_cons in Hx as [->|Hx]; auto.
      * apply Hslot. by apply (ci_slot _ _ Hinv).
      * by apply (ci_apart _ _ Hinv).
  - intros x o Hx Ho. rewrite Hf by done. apply mwrite_ne. intros Heq. apply (Hca x Hx).
    unfold in_frame. lia.
Qed.

(** A leaf is cleared and its page let go (munmap, exit). *)
Lemma drop_ok l :
  l ∈ L ->
  let m' := mwrite m l 0 in
  let L' := filter (fun x => x <> l) L in
  cow_inv (mkVm (pmm_free p (frame m l) 1) m' s.(v_tlb)) L' /\
  (forall x o, x ∈ L' -> 0 <= o < PAGE_SIZE -> m' (frame m' x + o) = m (frame m x + o)).
Proof using Hinv HL.
  intros Hl m' L'. pose proof (ci_pmm _ _ Hinv) as Hok. pose proof (inv_ref_pos l Hl) as Hpos.
  destruct (free_by_address p (frame m l) Hok (frame_aligned m l) Hpos) as (Hok2&Hb2&Hg2&Href2&Hfr2).
  assert (HL' : forall x, x ∈ L' -> x ∈ L /\ x <> l) by (intros x [? ?]%list_elem_of_filter; done).
  assert (Hf : forall x, x ∈ L' -> frame m' x = frame m x).
  { intros x [Hx Hne]%HL'. unfold frame, m'. by rewrite mwrite_ne. }
  destruct (ci_zero _ _ Hinv) as [Hz0 Hz1].
  assert (Hnz : 0 <> frame m l) by (intros Hz; rewrite <- Hz in Hpos; lia).
  split.
  - constructor; simpl; auto.
    + rewrite Hb2, Hg2. apply Hinv.
    + split; [intros [?|[? _]]%Hfr2; done|]. by rewrite Href2, decide_False.
    + apply NoDup_filter, Hinv.
    + intros x Hx. rewrite Hf, Href2 by (done || apply frame_aligned).
      rewrite (mappers_stay m m') by done. unfold L' at 1. rewrite mappers_drop by (done || apply Hinv).
      destruct (HL' x Hx) as [Hx' _]. rewrite <- (ci_count _ _ Hinv) by done.
      repeat case_decide; try congruence; rewrite <- ?(ci_count _ _ Hinv) by done; lia.
    + intros x Hx Hw. destruct (HL' x Hx) as [Hx' Hne]. rewrite Hf, Href2 by (done || apply frame_aligned).
      unfold m' in Hw. rewrite mwrite_ne in Hw by done.
      rewrite decide_False by (by apply inv_private). by apply (ci_write _ _ Hinv).
    + intros x Hx. destruct (HL' x Hx) as [Hx' Hne]. intros [?|[Heq _]]%Hfr2;
        [by apply (ci_slot _ _ Hinv x)| |apply page_down_aligned].
      apply (ci_apart _ _ Hinv x l Hx' Hl). apply in_frame_page_down; [apply frame_aligned|done].
    + intros x x' Hx Hx'. rewrite Hf by done. apply (ci_apart _ _ Hinv); by apply HL'.
  - intros x o Hx Ho. rewrite Hf by done. apply mwrite_ne. intros Heq.
    destruct (HL' x Hx) as [Hx' _]. apply (ci_apart _ _ Hinv l x Hl Hx'). unfold in_frame. lia.
Qed.
End inv_facts.

(** ** Sequences of events, against eager copying *)

Inductive cow_event :=
  | EvMap (c : Z)                (* a fresh page at leaf [c] *)
  | EvFork (l c : Z)             (* the child's leaf [c] for the parent's [l] *)
  | EvFault (l rc : Z)           (* a write fault on leaf [l] *)
  | EvWrite (l off v : Z)        (* a user store through leaf [l] *)
  | EvDrop (l : Z).              (* munmap or exit *)

Inductive cow_step : vmst -> list Z -> cow_event -> vmst -> list Z -> Prop :=
  | cs_map s L c e pa p1 :
      slot_ok s L c -> pmm_alloc s.(v_pmm) 1 = (pa, p1) -> pa <> 0 -> arch_pte_phys e = pa ->
      cow_step s L (EvMap c) (set_leaf (with_pmm s p1) c e) (c :: L)
  | cs_fork s L l c e s1 :
      l ∈ L -> slot_ok s L c -> pmm_get_ref s.(v_pmm) (frame s.(v_mem) l) < 65535 ->
      vm_cow_share_leaf s l 1 = (e, s1) ->
      cow_step s L (EvFork l c) (set_leaf s1 c e) (c :: L)
  | cs_fault s L as_ va l rc s' :
      arch_vm_user_leaf s.(v_mem) as_ va = Some (l, 1) -> l ∈ L ->
      vm_cow_write_fault s as_ va = (rc, s') ->
      cow_step s L (EvFault l rc) s' L
  | cs_write s L l off v :
      l ∈ L -> arch_pte_writable (s.(v_mem) l) = true -> 0 <= off < PAGE_SIZE ->
      cow_step s L (EvWrite l off v) (with_mem s (mwrite s.(v_mem) (frame s.(v_mem) l + off) v)) L
  | cs_drop s L l :
      l ∈ L ->
      cow_step s L (EvDrop l)
        (set_leaf (with_pmm s (pmm_free s.(v_pmm) (frame s.(v_mem) l) 1)) l 0)
        (filter (fun x => x <> l) L).

(** The specification: every leaf has contents of its own; a fork copies
    them at once, a fault does nothing. *)
Inductive eager_step : (Z -> Z -> Z) -> cow_event -> (Z -> Z -> Z) -> Prop :=
  | es_map A c A' :
      (forall x, x <> c -> A' x = A x) -> eager_step A (EvMap c) A'
  | es_fork A l c : eager_step A (EvFork l c) (fun x => if x =? c then A l else A x)
  | es_fault A l rc : eager_step A (EvFault l rc) A
  | es_write A l off v :
      eager_step A (EvWrite l off v) (fun x o => if (x =? l) && (o =? off) then v else A x o)
  | es_drop A l : eager_step A (EvDrop l) A.

Inductive cow_run : vmst -> list Z -> list cow_event -> vmst -> list Z -> Prop :=
  | cr_nil s L : cow_run s L [] s L
  | cr_cons s L ev s1 L1 tr s2 L2 :
      cow_step s L ev s1 L1 -> cow_run s1 L1 tr s2 L2 -> cow_run s L (ev :: tr) s2 L2.

Inductive eager_run : (Z -> Z -> Z) -> list cow_event -> (Z -> Z -> Z) -> Prop :=
  | er_nil A : eager_run A [] A
  | er_cons A ev A1 tr A2 : eager_step A ev A1 -> eager_run A1 tr A2 -> eager_run A (ev :: tr) A2.

(** What each leaf shows is what the specification says. *)
Definition shows (s : vmst) (L : list Z) (A : Z -> Z -> Z) : Prop :=
  forall l o, l ∈ L -> 0 <= o < PAGE_SIZE -> s.(v_mem) (frame s.(v_mem) l + o) = A l o.

Lemma fork_shows s L l c e s1 A :
  cow_inv s L -> shows s L A -> l ∈ L -> slot_ok s L c ->
  pmm_get_ref s.(v_pmm) (frame s.(v_mem) l) < 65535 -> vm_cow_share_leaf s l 1 = (e, s1) ->
  cow_inv (set_leaf s1 c e) (c :: L) /\
  shows (set_leaf s1 c e) (c :: L) (fun x => if x =? c then A l else A x).
Proof.
  intros Hinv Hsh Hl Hc Hr He. destruct (fork_leaf_ok s L Hinv l c e s1 Hl Hc Hr He) as (Hi&Hf&Hfc&Hm).
  split; [done|]. destruct Hc as (Hcn&_&Hca).
  assert (Hkeep : forall x o, x ∈ L -> 0 <= o < PAGE_SIZE ->
    v_mem (set_leaf s1 c e) (frame (v_mem s) x + o) = A x o).
  { intros x o Hx Ho. rewrite <- (Hsh x o Hx Ho). apply Hm; intros Heq.
    - apply (ci_apart _ _ Hinv l x Hl Hx). unfold in_frame. lia.
    - apply (Hca x Hx). unfold in_frame. lia. }
  intros x o [->|Hx]%elem_of_cons Ho.
  - rewrite Z.eqb_refl, Hfc. by apply Hkeep.
  - rewrite (proj2 (Z.eqb_neq x c)) by (by intros ->). rewrite Hf by done. by apply Hkeep.
Qed.

Lemma cow_step_refines s L ev s' L' A :
  cow_step s L ev s' L' -> cow_inv s L -> shows s L A ->
  cow_inv s' L' /\ exists A', eager_step A ev A' /\ shows s' L' A'.
Proof.
  intros Hstep Hinv Hsh. destruct Hstep.
  - destruct (map_ok s L Hinv c e pa p1) as [Hi Hv]; [done..|]. split; [done|].
    exists (fun x o => if x =? c then mwrite s.(v_mem) c e (frame (mwrite s.(v_mem) c e) c + o) else A x o).
    split; [constructor; intros x Hx%Z.eqb_neq; by rewrite Hx|].
    intros x o [->|Hx]%elem_of_cons Ho; simpl; [by rewrite Z.eqb_refl|].
    rewrite (Hv x o Hx Ho), (proj2 (Z.eqb_neq x c)), Hsh; auto. intros ->. by destruct H.
  - destruct (fork_shows s L l c e s1 A) as [? ?]; auto. split; [done|]. eexists. split; [constructor|done].
  - destruct (write_fault_ok s L Hinv as_ va l rc s') as (Hi&Hv&_); auto. split; [done|].
    exists A. split; [constructor|]. intros x o Hx Ho. rewrite Hv by done. by apply Hsh.
  - destruct (user_write_ok s L Hinv l off v) as (Hi&Hm&Hv); auto. split; [done|].
    eexists. split; [constructor|]. intros x o Hx Ho. simpl.
    replace (frame (mwrite s.(v_mem) (frame s.(v_mem) l + off) v) x) with (frame s.(v_mem) x)
      by (unfold frame in *; by rewrite Hm).
    destruct (Z.eqb_spec x l) as [->|Hne]; simpl; [|rewrite Hv by done; by apply Hsh].
    destruct (Z.eqb_spec o off) as [->|]; [apply mwrite_eq|]. rewrite mwrite_ne by lia. by apply Hsh.
  - destruct (drop_ok s L Hinv l H) as [Hi Hv]. split; [done|]. exists A. split; [constructor|].
    intros x o Hx Ho. simpl. rewrite (Hv x o Hx Ho). apply Hsh; [|done].
    by apply list_elem_of_filter in Hx as [_ ?].
Qed.
End cow.

(** C26: copy-on-write is indistinguishable from copying.  Whatever sequence
    of mappings, forks of leaves, write faults, user stores and unmappings
    runs, the invariant is kept (a page's reference count is its number of
    leaves, a writable leaf's page is mapped once) and every leaf shows the
    contents it would have if each fork had copied its page at once. *)
Theorem cow_refines_eager_copy `{ArchPte} `{!ArchVm} `{!ArchPteLaws} s L tr s' L' A :
  cow_run s L tr s' L' -> cow_inv s L -> shows s L A ->
  cow_inv s' L' /\ exists A', eager_run A tr A' /\ shows s' L' A'.
Proof.
  intros Hrun. revert A. induction Hrun as [|s L ev s1 L1 tr s2 L2 Hstep Hrun IH]; intros A Hinv Hsh.
  - split; [done|]. exists A. split; [constructor|done].
  - destruct (cow_step_refines _ _ _ _ _ A Hstep Hinv Hsh) as (Hi&A1&He&Hs1).
    destruct (IH A1 Hi Hs1) as (?&A2&?&?). split; [done|]. exists A2. split; [by econstructor|done].
Qed.

(** Two address spaces whose tables lie below the managed memory, and one
    page mapped, forked and written to. *)
Definition ex_mem : memory := fun a =>
  if a =? 0x10000 then 0x11007 else if a =? 0x11000 then 0x12007 else
  if a =? 0x12000 then 0x13007 else if a =? 0x20000 then 0x21007 else
  if a =? 0x21000 then 0x22007 else if a =? 0x22000 then 0x23007 else 0.
Definition ex_vm : vmst := mkVm ex0 ex_mem (fun _ _ => None).

Lemma ex_vm_inv : cow_inv ex_vm [].
Proof.
  destruct pmm_core_wf_ex0. constructor; try (by intros ? ?%not_elem_of_nil); try (by intros ? ? ?%not_elem_of_nil).
  - by split.
  - vm_compute. discriminate.
  - split; [intros (q&Hq&_)|]; [by vm_compute in Hq|by vm_compute].
  - constructor.
Qed.

Definition ex_vm1 : vmst := set_leaf (with_pmm ex_vm (pmm_alloc ex0 1).2) 0x13000 0x104007.
Definition ex_vm2 : vmst :=
  set_leaf (vm_cow_share_leaf ex_vm1 0x13000 1).2 0x23000 (vm_cow_share_leaf ex_vm1 0x13000 1).1.

Lemma ex_vm1_step : cow_step ex_vm [] (EvMap 0x13000) ex_vm1 [0x13000].
Proof.
  apply (cs_map ex_vm [] 0x13000 0x104007 0x104000 (pmm_alloc ex0 1).2).
  - split; [apply not_elem_of_nil|split; [|by intros ? ?%not_elem_of_nil]].
    intros (q&Hq&_). vm_compute in Hq. discriminate Hq.
  - vm_compute. reflexivity.
  - discriminate.
  - vm_compute. reflexivity.
Qed.

Lemma ex_vm2_step : cow_step ex_vm1 [0x13000] (EvFork 0x13000 0x23000) ex_vm2 [0x23000; 0x13000].
Proof.
  apply (cs_fork ex_vm1 [0x13000] 0x13000 0x23000 (vm_cow_share_leaf ex_vm1 0x13000 1).1
    (vm_cow_share_leaf ex_vm1 0x13000 1).2).
  - apply list_elem_of_here.
  - split; [|split].
    + rewrite list_elem_of_singleton. discriminate.
    + intros (q&Hq&_). vm_compute in Hq. discriminate Hq.
    + intros l ->%list_elem_of_singleton Hin. vm_compute in Hin. destruct Hin as [Hin _]. by apply Hin.
  - vm_compute. reflexivity.
  - apply surjective_pairing.
Qed.

Lemma ex_vm2_inv : cow_inv ex_vm2 [0x23000; 0x13000].
Proof.
  assert (H0 : shows ex_vm [] (fun _ _ => 0)) by (by intros ? ? ?%not_elem_of_nil).
  destruct (cow_step_refines _ _ _ _ _ _ ex_vm1_step ex_vm_inv H0) as (Hi&A1&_&Hs).
  by destruct (cow_step_refines _ _ _ _ _ _ ex_vm2_step Hi Hs).
Qed.

Lemma cow_refines_eager_copy_witness :
  exists tr s' L', cow_run ex_vm [] tr s' L' /\ length tr = 3%nat /\ cow_inv s' L'.
Proof.
  set (f := vm_cow_write_fault ex_vm2 0x20000 5).
  assert (Hrun : cow_run ex_vm [] [EvMap 0x13000; EvFork 0x13000 0x23000; EvFault 0x23000 f.1]
                   f.2 [0x23000; 0x13000]).
  { econstructor; [apply ex_vm1_step|]. econstructor; [apply ex_vm2_step|].
    econstructor; [|constructor]. apply (cs_fault ex_vm2 [0x23000; 0x13000] 0x20000 5 0x23000).
    - vm_compute. reflexivity.
    - apply list_elem_of_here.
    - apply surjective_pairing. }
  eexists _, f.2, _. split; [exact Hrun|]. split; [reflexivity|].
  refine (proj1 (cow_refines_eager_copy ex_vm [] _ f.2 _ (fun _ _ => 0) Hrun ex_vm_inv _)).
  intros l o Hl. exfalso. revert Hl. apply not_elem_of_nil.
Defined.

(** a write fault on a user leaf ends in one of three ways, none of
    which changes what any leaf shows: handled (the leaf is writable and no
    stale translation of the page survives), not a copy-on-write page (nothing
    changed, the leaf is neither marked nor writable), or out of memory (the
    mappings are untouched and indeed no page was free). *)
Theorem write_fault_outcomes `{ArchPte} `{!ArchVm} `{!ArchPteLaws} s L as_ va l rc s' :
  cow_inv s L -> arch_vm_user_leaf s.(v_mem) as_ va = Some (l, 1) -> l ∈ L ->
  vm_cow_write_fault s as_ va = (rc, s') ->
  cow_inv s' L /\
  (forall x o, x ∈ L -> 0 <= o < PAGE_SIZE ->
    s'.(v_mem) (frame s'.(v_mem) x + o) = s.(v_mem) (frame s.(v_mem) x + o)) /\
  (rc = VM_COW_HANDLED /\ arch_pte_writable (s'.(v_mem) l) = true /\
     s'.(v_tlb) as_ (page_down va) = None \/
   rc = VM_COW_NOT_COW /\ s' = s /\ arch_pte_cow (s.(v_mem) l) = false /\
     arch_pte_writable (s.(v_mem) l) = false \/
   rc = VM_COW_NOMEM /\ s'.(v_mem) = s.(v_mem) /\ arch_pte_cow (s.(v_mem) l) = true /\
     forall a, ~ free_at s.(v_pmm) a).
Proof. intros Hinv. by apply write_fault_ok. Qed.

Lemma write_fault_outcomes_witness :
  exists rc s', vm_cow_write_fault ex_vm2 0x20000 5 = (rc, s') /\ cow_inv s' [0x23000; 0x13000].
Proof.
  exists (vm_cow_write_fault ex_vm2 0x20000 5).1, (vm_cow_write_fault ex_vm2 0x20000 5).2.
  split; [apply surjective_pairing|].
  refine (proj1 (write_fault_outcomes ex_vm2 [0x23000; 0x13000] 0x20000 5 0x23000 _ _ ex_vm2_inv _ _ _)).
  - vm_compute. reflexivity.
  - apply list_elem_of_here.
  - apply surjective_pairing.
Defined.

(** ** mprotect on x86_64 *)

(** The entries above the leaf. *)
Definition x86_path (m : memory) (as_ va : Z) : list Z :=
  let pml4e := slot as_ (PML4_IDX va) in
  let pdpe := slot (Z.land (m pml4e) PTE_ADDR_MASK) (PDP_IDX va) in
  let pde := slot (Z.land (m pdpe) PTE_ADDR_MASK) (PD_IDX va) in
  [pml4e; pdpe; pde].

Lemma x86_user_pte_stable m m' as_ va :
  (forall a, a ∈ x86_path m as_ va -> m' a = m a) -> x86_user_pte m' as_ va = x86_user_pte m as_ va.
Proof.
  unfold x86_path. intros Hm. unfold x86_user_pte.
  rewrite (Hm (slot as_ (PML4_IDX va))) by set_solver.
  rewrite (Hm (slot (Z.land (m (slot as_ (PML4_IDX va))) PTE_ADDR_MASK) (PDP_IDX va))) by set_solver.
  rewrite (Hm (slot (Z.land (m (slot (Z.land (m (slot as_ (PML4_IDX va))) PTE_ADDR_MASK) (PDP_IDX va)))
    PTE_ADDR_MASK) (PD_IDX va))) by set_solver.
  done.
Qed.

Lemma x86_user_leaf_pte m as_ va l :
  x86_user_pte m as_ va = Some l ->
  x86_vm_user_leaf m as_ va =
    if has (m l) PTE_PRESENT && has (m l) PTE_USER then Some (l, 1) else None.
Proof.
  unfold x86_user_pte, x86_vm_user_leaf.
  do 3 (case_match; [done|]). case_match; [done|]. intros [= Hl]. rewrite Hl.
  destruct (has (m l) PTE_PRESENT), (has (m l) PTE_USER); done.
Qed.

Lemma x86_user_leaf_inv m as_ va l :
  x86_vm_user_leaf m as_ va = Some (l, 1) ->
  x86_user_pte m as_ va = Some l /\ has (m l) PTE_PRESENT = true /\ has (m l) PTE_USER = true.
Proof.
  unfold x86_user_pte, x86_vm_user_leaf.
  do 3 (case_match; [done|]). case_match.
  { case_match; [done|]. by change (HUGE_PAGE_SIZE / PAGE_SIZE) with 512. }
  set (pte := slot _ (PT_IDX va)).
  destruct (has (m pte) PTE_PRESENT) eqn:E1, (has (m pte) PTE_USER) eqn:E2; try done. by intros [= <-].
Qed.

Lemma x86_protect_bits_spec e w x k :
  0 <= k -> Z.testbit (x86_protect_bits e w x) k =
    if k =? PTE_WRITABLE then w else if k =? PTE_NX then negb x else Z.testbit e k.
Proof.
  intros Hk. unfold x86_protect_bits, PTE_WRITABLE, PTE_NX in *.
  destruct w, x; autorewrite with bits; rewrite ?(Z.eqb_sym 1 k), ?(Z.eqb_sym 63 k);
    destruct (Z.eqb_spec k 1), (Z.eqb_spec k 63); try lia; simpl;
    by rewrite ?andb_false_r, ?andb_true_r, ?orb_true_r, ?orb_false_r.
Qed.

(** A leaf entry that keeps its frame, and is writable only when its page is
    not shared, replaces another. *)
Lemma leaf_replace_ok `{ArchPte} `{!ArchPteLaws} s L l e :
  cow_inv s L -> l ∈ L -> arch_pte_phys e = frame s.(v_mem) l ->
  (arch_pte_writable e = true -> pmm_get_ref s.(v_pmm) (frame s.(v_mem) l) = 1) ->
  cow_inv (set_leaf s l e) L /\ same_views s L (mwrite s.(v_mem) l e).
Proof.
  intros Hinv Hl He Hw. set (m' := mwrite s.(v_mem) l e).
  assert (Hf : forall x, frame m' x = frame s.(v_mem) x).
  { intros x. unfold m', frame. destruct (decide (x = l)) as [->|]; [by rewrite mwrite_eq|by rewrite mwrite_ne]. }
  split.
  - destruct Hinv as [? ? ? ? Hc Hwr ? Hap]. constructor; simpl; auto; fold m'.
    + intros x Hx. rewrite Hf, (mappers_stay s.(v_mem) m'); auto.
    + intros x Hx. rewrite Hf. unfold m'. destruct (decide (x = l)) as [->|]; [by rewrite mwrite_eq|].
      rewrite mwrite_ne by done. by apply Hwr.
    + intros x x' Hx Hx'. rewrite Hf. by apply Hap.
  - intros x o Hx Ho. rewrite Hf. apply mwrite_ne. intros Heq.
    apply (ci_apart _ _ Hinv l x Hl Hx). unfold in_frame. lia.
Qed.

(** The entry [vm_cow_protect_page] leaves behind. *)
Definition protected_entry (s : vmst) (l : Z) (w x : bool) : Z :=
  let e := s.(v_mem) l in
  let cow := w && (x86_pte_cow e || vm_cow_page_shared s.(v_pmm) (x86_pte_phys e)) in
  let e := x86_protect_bits e (w && negb cow) x in
  if cow then x86_pte_mkcow e else x86_pte_clear_cow e.

Lemma x86_protect_eq s as_ va l w x :
  x86_vm_user_leaf s.(v_mem) as_ va = Some (l, 1) -> l ∉ x86_path s.(v_mem) as_ va ->
  let s' := vm_cow_protect_page s as_ va w x in
  s'.(v_pmm) = s.(v_pmm) /\
  (forall a, a <> l -> s'.(v_mem) a = s.(v_mem) a) /\ s'.(v_mem) l = protected_entry s l w x /\
  (forall a v e, s'.(v_tlb) a v = Some e -> s.(v_tlb) a v = Some e).
Proof.
  intros Hleaf Hpath. destruct (x86_user_leaf_inv _ _ _ _ Hleaf) as (Hpte&Hpr&Hus).
  unfold vm_cow_protect_page. simpl arch_vm_user_leaf. rewrite Hleaf. simpl arch_pte_cow. simpl arch_pte_phys.
  set (cow := if w then _ else false).
  assert (Hcow : cow = w && (x86_pte_cow (s.(v_mem) l) || vm_cow_page_shared s.(v_pmm) (x86_pte_phys (s.(v_mem) l))))
    by (unfold cow; by destruct w).
  simpl arch_vm_protect_page. unfold x86_vm_protect_page. rewrite Hpte, Hpr. simpl negb. cbv iota.
  set (e1 := x86_protect_bits (s.(v_mem) l) (w && negb cow) x). simpl v_mem.
  assert (Hbit : forall k, 0 <= k -> k <> PTE_WRITABLE -> k <> PTE_NX -> has e1 k = has (s.(v_mem) l) k).
  { intros k Hk H1%Z.eqb_neq H2%Z.eqb_neq. rewrite !has_testbit by done. unfold e1.
    by rewrite x86_protect_bits_spec, H1, H2. }
  assert (Hleaf' : x86_vm_user_leaf (mwrite s.(v_mem) l e1) as_ va = Some (l, 1)).
  { rewrite (x86_user_leaf_pte _ _ _ l).
    - by rewrite mwrite_eq, !Hbit, Hpr, Hus.
    - rewrite (x86_user_pte_stable s.(v_mem)); [done|]. intros a Ha. apply mwrite_ne. by intros ->. }
  rewrite Hleaf'. simpl. unfold protected_entry. rewrite <- Hcow. fold e1.
  split_and!; [done| |by rewrite !mwrite_eq|].
  - intros a Ha. by rewrite !mwrite_ne.
  - intros a v e. by destruct ((a =? as_) && (v =? va)).
Qed.

Lemma inv_ext `{ArchPte} s s' L :
  cow_inv s L -> s'.(v_pmm) = s.(v_pmm) -> (forall x, x ∈ L -> s'.(v_mem) x = s.(v_mem) x) ->
  cow_inv s' L.
Proof.
  intros Hinv Hp Hm. pose proof (inv_mem_stable s L Hinv s'.(v_mem) Hm) as [].
  constructor; rewrite ?Hp; auto.
Qed.

Lemma protected_entry_spec s l w x :
  let e := s.(v_mem) l in
  let e' := protected_entry s l w x in
  let cow := w && (x86_pte_cow e || vm_cow_page_shared s.(v_pmm) (x86_pte_phys e)) in
  x86_pte_phys e' = x86_pte_phys e /\ x86_pte_writable e' = w && negb cow /\ x86_pte_cow e' = cow /\
  has e' PTE_NX = negb x /\ has e' PTE_PRESENT = has e PTE_PRESENT /\ has e' PTE_USER = has e PTE_USER.
Proof.
  cbv zeta. unfold protected_entry. set (cow := w && _). set (w' := w && negb cow).
  assert (Hb : forall k, 0 <= k -> Z.testbit (if cow then x86_pte_mkcow (x86_protect_bits (s.(v_mem) l) w' x)
      else x86_pte_clear_cow (x86_protect_bits (s.(v_mem) l) w' x)) k =
    if k =? 9 then cow else if k =? 1 then w' else if k =? 63 then negb x else Z.testbit (s.(v_mem) l) k).
  { intros k Hk. destruct cow eqn:Ec; unfold x86_pte_mkcow, x86_pte_clear_cow, PTE_WRITABLE, PTE_COW;
      autorewrite with bits; rewrite x86_protect_bits_spec by done; unfold PTE_WRITABLE, PTE_NX;
      rewrite ?(Z.eqb_sym 9 k), ?(Z.eqb_sym 1 k); destruct (Z.eqb_spec k 9), (Z.eqb_spec k 1), (Z.eqb_spec k 63);
      try lia; subst w'; rewrite ?andb_false_r, ?andb_true_r, ?orb_true_r, ?orb_false_r; done. }
  unfold x86_pte_writable, x86_pte_cow. rewrite !has_testbit, !Hb by done. split_and!; try done.
  unfold x86_pte_phys. rewrite x86_mask. apply Z.bits_inj'. intros i Hi. autorewrite with bits.
  rewrite Hb by done. destruct (Z.leb_spec 12 i); simpl; [|by rewrite !andb_false_r].
  destruct (Z.eqb_spec i 9), (Z.eqb_spec i 1); try lia.
  destruct (Z.eqb_spec i 63); [|done]. destruct (Z.ltb_spec i 52); [lia|by rewrite !andb_false_r].
Qed.

(** on x86_64, [vm_cow_protect_page] never makes a shared page writable:
    the invariant is kept and no leaf's contents change, whatever protection
    is asked for; and the protection read back afterwards is the one asked
    for, even when the page is only marked to be copied at the first write. *)
Theorem protect_page_safe s L as_ va l w x :
  cow_inv s L -> x86_vm_user_leaf s.(v_mem) as_ va = Some (l, 1) -> l ∈ L ->
  (l ∉ x86_path s.(v_mem) as_ va) ->
  let s' := vm_cow_protect_page s as_ va w x in
  cow_inv s' L /\
  (forall y o, y ∈ L -> 0 <= o < PAGE_SIZE ->
    s'.(v_mem) (frame s'.(v_mem) y + o) = s.(v_mem) (frame s.(v_mem) y + o)) /\
  vm_cow_get_page_prot s' as_ va = Some (w, x).
Proof.
  intros Hinv Hleaf Hl Hpath s'. destruct (x86_protect_eq s as_ va l w x Hleaf Hpath) as (Hp&Hm&Hml&_).
  fold s' in Hp, Hm, Hml. destruct (x86_user_leaf_inv _ _ _ _ Hleaf) as (Hpte&Hpr&Hus).
  destruct (protected_entry_spec s l w x) as (Hph&Hw&Hc&Hnx&Hpr'&Hus'). set (e' := protected_entry s l w x) in *.
  pose proof (inv_ref_pos s L Hinv l Hl) as Hpos.
  destruct (leaf_replace_ok s L l e' Hinv Hl Hph) as [Hi Hv].
  { simpl. rewrite Hw. unfold vm_cow_page_shared. intros [-> Hn%negb_true_iff]%andb_true_iff.
    simpl in Hn. apply orb_false_iff in Hn as [_ Hn%Z.ltb_ge].
    change (x86_pte_phys (s.(v_mem) l)) with (frame s.(v_mem) l) in Hn |- *. lia. }
  assert (Hmm : forall a, s'.(v_mem) a = mwrite s.(v_mem) l e' a).
  { intros a. destruct (decide (a = l)) as [->|]; [by rewrite mwrite_eq|rewrite mwrite_ne; auto]. }
  split_and!.
  - by apply (inv_ext (set_leaf s l e')).
  - intros y o Hy Ho. unfold frame at 1. rewrite !Hmm. by apply Hv.
  - unfold vm_cow_get_page_prot. simpl. unfold x86_vm_get_page_prot.
    assert (Hpte' : x86_user_pte s'.(v_mem) as_ va = Some l).
    { rewrite (x86_user_pte_stable s.(v_mem)); [done|]. intros a Ha. apply Hm. by intros ->. }
    rewrite Hpte', (x86_user_leaf_pte _ _ _ _ Hpte'), Hml, Hpr', Hus', Hpr, Hus. simpl.
    rewrite Hml, Hc. change (has e' PTE_WRITABLE) with (x86_pte_writable e'). rewrite Hw, Hnx, negb_involutive.
    destruct w; simpl; [|done]. by case_match.
Qed.

Lemma protect_page_safe_witness :
  vm_cow_get_page_prot (vm_cow_protect_page ex_vm2 0x20000 5 true false) 0x20000 5 = Some (true, false).
Proof.
  refine (proj2 (proj2 (protect_page_safe ex_vm2 [0x23000; 0x13000] 0x20000 5 0x23000 true false
    ex_vm2_inv _ _ _))).
  - vm_compute. reflexivity.
  - apply list_elem_of_here.
  - intros Hin. vm_compute in Hin. repeat (apply elem_of_cons in Hin as [Hin|Hin]; [discriminate Hin|]).
    revert Hin. apply not_elem_of_nil.
Defined.
