(* ===== verification/Bytes.v ===== *)
(** * Byte buffers

    Disk blocks and C structures laid over them are lists of bytes.  This
    file has the copies ([slice], [splice]: memcpy out of and into a buffer),
    the little-endian fields of the on-disk structures, and fixed-size C
    strings ([strncmp], [strncpy]). *)
From S2P Require Import Prelude.

(** ** Copies *)

(** [n] bytes of [l] from [off]. *)
Definition slice (l : list Z) (off n : Z) : list Z := take (Z.to_nat n) (drop (Z.to_nat off) l).
(** [d] written over [l] at [off]. *)
Definition splice (l : list Z) (off : Z) (d : list Z) : list Z :=
  take (Z.to_nat off) l ++ d ++ drop (Z.to_nat off + length d) l.

Lemma zlen_app (l1 l2 : list Z) : zlen (l1 ++ l2) = zlen l1 + zlen l2.
Proof. unfold zlen. rewrite length_app. lia. Qed.

Lemma zlen_nonneg {A} (l : list A) : 0 <= zlen l.
Proof. unfold zlen. lia. Qed.

Lemma zlen_slice l off n : 0 <= off -> 0 <= n -> off + n <= zlen l -> zlen (slice l off n) = n.
Proof. intros. unfold zlen, slice in *. rewrite length_take, length_drop. lia. Qed.

Lemma zlen_splice l off d : 0 <= off -> off + zlen d <= zlen l -> zlen (splice l off d) = zlen l.
Proof. intros. unfold zlen, splice in *. rewrite !length_app, length_take, length_drop. lia. Qed.

Lemma zget_slice l off n i :
  0 <= off -> 0 <= i < n -> off + n <= zlen l -> zget (slice l off n) i = zget l (off + i).
Proof.
  intros. unfold zget, slice, zlen in *. rewrite !list_lookup_total_alt, lookup_take_lt, lookup_drop by lia.
  do 2 f_equal. lia.
Qed.

Lemma zget_splice l off d i :
  0 <= off -> off + zlen d <= zlen l -> 0 <= i < zlen l ->
  zget (splice l off d) i = if decide (off <= i < off + zlen d) then zget d (i - off) else zget l i.
Proof.
  intros. unfold zget, splice, zlen in *. rewrite !list_lookup_total_alt.
  assert (Hlen : length (take (Z.to_nat off) l) = Z.to_nat off) by (rewrite length_take; lia).
  case_decide.
  - rewrite lookup_app_r, lookup_app_l by lia. do 2 f_equal. lia.
  - destruct (decide (i < off)).
    + rewrite lookup_app_l, lookup_take_lt by lia. done.
    + rewrite !lookup_app_r, lookup_drop by lia. do 2 f_equal. lia.
Qed.

Lemma slice_splice_same l off d :
  0 <= off -> off + zlen d <= zlen l -> slice (splice l off d) off (zlen d) = d.
Proof.
  intros. pose proof (zlen_nonneg d). apply zlist_ext.
  - rewrite zlen_slice; [done|lia|lia|]. by rewrite zlen_splice.
  - intros i. rewrite zlen_slice by (rewrite ?zlen_splice; lia). intros Hi.
    rewrite zget_slice, zget_splice by (rewrite ?zlen_splice; lia).
    rewrite decide_True by lia. f_equal. lia.
Qed.

Lemma slice_splice_other l off d o n :
  0 <= off -> off + zlen d <= zlen l -> 0 <= o -> 0 <= n -> o + n <= zlen l ->
  o + n <= off \/ off + zlen d <= o -> slice (splice l off d) o n = slice l o n.
Proof.
  intros. pose proof (zlen_nonneg d). apply zlist_ext.
  - rewrite !zlen_slice; rewrite ?zlen_splice; lia.
  - intros i. rewrite zlen_slice by (rewrite ?zlen_splice; lia). intros Hi.
    rewrite !zget_slice, zget_splice by (rewrite ?zlen_splice; lia).
    by rewrite decide_False by lia.
Qed.

Lemma Forall_slice (P : Z -> Prop) l off n : Forall P l -> Forall P (slice l off n).
Proof. intros. unfold slice. by apply Forall_take, Forall_drop. Qed.

Lemma Forall_splice (P : Z -> Prop) l off d : Forall P l -> Forall P d -> Forall P (splice l off d).
Proof.
  intros. unfold splice. apply Forall_app. split; [by apply Forall_take|].
  apply Forall_app. split; [done|by apply Forall_drop].
Qed.
#[export] Hint Resolve Forall_slice Forall_splice : core.

(** ** Little-endian fields *)

Fixpoint le_bytes (n : nat) (v : Z) : list Z :=
  match n with
  | O => []
  | S n => v mod 256 :: le_bytes n (v / 256)
  end.

Fixpoint le_val (l : list Z) : Z :=
  match l with
  | [] => 0
  | b :: l => b + 256 * le_val l
  end.

Lemma length_le_bytes n v : length (le_bytes n v) = n.
Proof. revert v. induction n as [|n IH]; intros v; simpl; [done|by rewrite IH]. Qed.

Lemma le_bytes_ok n v : Forall byte_ok (le_bytes n v).
Proof.
  revert v. induction n as [|n IH]; intros v; simpl; constructor; [|done].
  unfold byte_ok. apply Z.mod_pos_bound. lia.
Qed.

Lemma le_val_bytes n v : 0 <= v < 256 ^ Z.of_nat n -> le_val (le_bytes n v) = v.
Proof.
  revert v. induction n as [|n IH]; intros v Hv; cbn [le_bytes le_val].
  - change (256 ^ Z.of_nat 0) with 1 in Hv. lia.
  - rewrite Nat2Z.inj_succ, Z.pow_succ_r in Hv by lia. rewrite IH.
    + rewrite (Z.div_mod v 256) at 3 by lia. lia.
    + split; [apply Z.div_pos; lia|]. apply Z.div_lt_upper_bound; lia.
Qed.

Lemma le_val_range l : Forall byte_ok l -> 0 <= le_val l < 256 ^ zlen l.
Proof.
  induction 1 as [|b l Hb _ IH]; [done|]. unfold zlen in *. cbn [le_val length].
  rewrite Nat2Z.inj_succ, Z.pow_succ_r by lia. unfold byte_ok in Hb. lia.
Qed.

Lemma le_bytes_val l : Forall byte_ok l -> le_bytes (length l) (le_val l) = l.
Proof.
  induction 1 as [|b l Hb _ IH]; [done|]. cbn [length le_val le_bytes]. unfold byte_ok in Hb.
  replace (b + 256 * le_val l) with (b + le_val l * 256) by lia.
  rewrite Z.mod_add, Z.mod_small, Z.div_add, Z.div_small by lia. by rewrite Z.add_0_l, IH.
Qed.

(** Fields of [n] bytes at a byte offset. *)
Definition getn (n : nat) (l : list Z) (off : Z) : Z := le_val (slice l off (Z.of_nat n)).
Definition putn (n : nat) (l : list Z) (off v : Z) : list Z := splice l off (le_bytes n v).

Definition get16 := getn 2.
Definition put16 := putn 2.
Definition get32 := getn 4.
Definition put32 := putn 4.

Lemma zlen_le_bytes n v : zlen (le_bytes n v) = Z.of_nat n.
Proof. unfold zlen. by rewrite length_le_bytes. Qed.

Lemma zlen_putn n l off v : 0 <= off -> off + Z.of_nat n <= zlen l -> zlen (putn n l off v) = zlen l.
Proof. intros. unfold putn. by rewrite zlen_splice by (rewrite ?zlen_le_bytes; lia). Qed.

Lemma putn_bytes n l off v : Forall byte_ok l -> Forall byte_ok (putn n l off v).
Proof. intros. unfold putn. apply Forall_splice; [done|apply le_bytes_ok]. Qed.
#[export] Hint Resolve putn_bytes : core.

Lemma getn_range n l off :
  Forall byte_ok l -> 0 <= off -> off + Z.of_nat n <= zlen l -> 0 <= getn n l off < 256 ^ Z.of_nat n.
Proof.
  intros Hl H0 H1. unfold getn. pose proof (le_val_range (slice l off (Z.of_nat n)) ltac:(auto)) as Hr.
  by rewrite zlen_slice in Hr by lia.
Qed.

Lemma getn_putn_same n l off v :
  0 <= off -> off + Z.of_nat n <= zlen l -> 0 <= v < 256 ^ Z.of_nat n -> getn n (putn n l off v) off = v.
Proof.
  intros. unfold getn, putn. rewrite <- (zlen_le_bytes n v).
  rewrite slice_splice_same by (rewrite ?zlen_le_bytes; lia). by apply le_val_bytes.
Qed.

Lemma getn_putn_other n k l off v o :
  0 <= off -> off + Z.of_nat n <= zlen l -> 0 <= o -> o + Z.of_nat k <= zlen l ->
  o + Z.of_nat k <= off \/ off + Z.of_nat n <= o ->
  getn k (putn n l off v) o = getn k l o.
Proof.
  intros. unfold getn, putn. rewrite slice_splice_other; rewrite ?zlen_le_bytes; done || lia.
Qed.

Lemma getn_splice_other k l off d o :
  0 <= off -> off + zlen d <= zlen l -> 0 <= o -> o + Z.of_nat k <= zlen l ->
  o + Z.of_nat k <= off \/ off + zlen d <= o -> getn k (splice l off d) o = getn k l o.
Proof. intros. unfold getn. rewrite slice_splice_other; done || lia. Qed.

Lemma getn_slice k l off n o :
  0 <= off -> 0 <= o -> o + Z.of_nat k <= n -> off + n <= zlen l ->
  getn k (slice l off n) o = getn k l (off + o).
Proof.
  intros. unfold getn. f_equal. apply zlist_ext.
  - rewrite !zlen_slice; rewrite ?zlen_slice; lia.
  - intros i. rewrite zlen_slice by (rewrite ?zlen_slice; lia). intros.
    rewrite !zget_slice; rewrite ?zlen_slice; try lia. f_equal. lia.
Qed.

(** Zeroed memory reads as zeros. *)
Lemma getn_replicate k n off :
  0 <= off -> off + Z.of_nat k <= Z.of_nat n -> getn k (replicate n 0) off = 0.
Proof.
  intros. unfold getn, slice. rewrite drop_replicate, take_replicate.
  generalize (Z.to_nat (Z.of_nat k) `min` (n - Z.to_nat off))%nat. intros j.
  induction j; simpl; lia.
Qed.

(** ** C strings

    A string is the list of its bytes before the terminating 0; reading past
    the end of the list reads that 0. *)

(** [strncmp (s, t, n) == 0] *)
Fixpoint strneq (n : nat) (s t : list Z) : bool :=
  match n with
  | O => true
  | S n =>
      let a := hd 0 s in
      if a =? hd 0 t then if a =? 0 then true else strneq n (tl s) (tl t) else false
  end.

(** The bytes before the first 0. *)
Fixpoint cstr (l : list Z) : list Z :=
  match l with
  | [] => []
  | c :: l => if c =? 0 then [] else c :: cstr l
  end.

(** [strncpy]: at most [n] bytes, padded with zeros. *)
Definition strncpy (n : nat) (src : list Z) : list Z := take n src ++ replicate (n - length src) 0.
