(* ===== verification/Links.v ===== *)
(** * Intrusive linked lists

    The pointer structures the kernel threads through its objects: doubly
    linked lists with [next]/[prev] fields (the LRU ring of xv6bio.c, the run
    queues of sched.c) and hash chains whose nodes point back at the pointer
    that points at them ([hprevp] of xv6bio.c).  Each is related to the list
    of the objects on it, and the pointer updates the code makes are shown to
    be list operations. *)
From S2P Require Import Prelude.

(** ** Doubly linked lists *)
Section dl.
Implicit Types (next prev : Z -> Z) (a b x : Z) (l : list Z).

(** From [a] the [next] pointers lead through [l] to [b], and back. *)
Fixpoint dl next prev a l b : Prop :=
  match l with
  | [] => next a = b /\ prev b = a
  | x :: l => next a = x /\ prev x = a /\ dl next prev x l b
  end.

Lemma dl_app next prev a l1 x l2 b :
  dl next prev a (l1 ++ x :: l2) b <-> dl next prev a l1 x /\ dl next prev x l2 b.
Proof. revert a. induction l1 as [|y l1 IH]; intros a; simpl; [tauto|]. rewrite IH. tauto. Qed.

(** Stores away from the list do not matter. *)
Lemma dl_frame next prev next' prev' a l b :
  dl next prev a l b ->
  (forall y, y = a \/ y ∈ l -> next' y = next y) -> (forall y, y = b \/ y ∈ l -> prev' y = prev y) ->
  dl next' prev' a l b.
Proof.
  revert a. induction l as [|x l IH]; intros a; simpl.
  - intros [? ?] Hn Hp. rewrite Hn, Hp by auto. done.
  - intros (?&?&Hd) Hn Hp. rewrite Hn, Hp by (auto || right; apply list_elem_of_here).
    split_and!; [done..|]. apply (IH x Hd).
    + intros y Hy. apply Hn. right. destruct Hy as [->|Hy]; [apply list_elem_of_here|by apply list_elem_of_further].
    + intros y [->|Hy]; apply Hp; [by left|right; by apply list_elem_of_further].
Qed.

(** The last pointer back. *)
Lemma dl_prev_last next prev a l b :
  dl next prev a l b -> prev b = default a (last l).
Proof.
  revert a. induction l as [|x l IH]; intros a; simpl; [by intros [? ?]|].
  intros (_&_&Hd). rewrite (IH x Hd). destruct l; [done|]. simpl.
  by destruct (last (z :: l)) eqn:E; [|apply last_None in E].
Qed.

Lemma dl_next_first next prev a l b : dl next prev a l b -> next a = default b (head l).
Proof. destruct l; simpl; [by intros [? _]|by intros (?&_)]. Qed.

Lemma last_cons_default (a z : Z) l : default a (last (z :: l)) = default z (last l).
Proof. destruct l as [|y l]; [done|]. simpl. by destruct (last (y :: l)) eqn:E; [|apply last_None in E]. Qed.

Lemma last_or_elem (a : Z) l : default a (last l) = a \/ default a (last l) ∈ l.
Proof.
  destruct (last l) eqn:E; simpl; [right|by left]. apply last_Some in E as [l' ->]. set_solver.
Qed.

(** The last node is made to point at [x'] instead. *)
Lemma dl_retarget next prev next' prev' a l x x' :
  dl next prev a l x -> NoDup (a :: l) ->
  (forall y, y = a \/ y ∈ l -> y <> default a (last l) -> next' y = next y) ->
  (forall y, y ∈ l -> prev' y = prev y) ->
  next' (default a (last l)) = x' -> prev' x' = default a (last l) -> dl next' prev' a l x'.
Proof.
  revert a. induction l as [|z l IH]; intros a; [simpl; tauto|].
  rewrite last_cons_default. intros (?&?&Hd) [Ha Hnd]%NoDup_cons Hn Hp Hx Hx'. simpl.
  rewrite Hp by apply list_elem_of_here. rewrite Hn; [|by left|].
  - split_and!; [done..|]. apply IH; auto.
    + intros y Hy. apply Hn. right. destruct Hy as [->|Hy]; [apply list_elem_of_here|by apply list_elem_of_further].
    + intros y Hy. apply Hp. by apply list_elem_of_further.
  - intros Heq. apply Ha. rewrite Heq. destruct (last_or_elem z l) as [->|?];
      [apply list_elem_of_here|by apply list_elem_of_further].
Qed.

(** [x->next->prev = x->prev; x->prev->next = x->next] *)
Lemma dl_remove next prev a l1 x l2 b :
  dl next prev a (l1 ++ x :: l2) b -> NoDup (a :: l1 ++ x :: l2) -> b ∉ l1 ++ x :: l2 ->
  dl (fset next (prev x) (next x)) (fset prev (next x) (prev x)) a (l1 ++ l2) b.
Proof.
  rewrite dl_app. intros [H1 H2] [Ha Hnd]%NoDup_cons Hb.
  apply NoDup_app in Hnd as (Hnd1&Hdis&[Hx Hnd2]%NoDup_cons).
  rewrite (dl_prev_last _ _ _ _ _ H1). pose proof (last_or_elem a l1) as Hu. set (u := default a (last l1)) in *.
  assert (HA : NoDup (a :: l1)) by (apply NoDup_cons; set_solver).
  assert (Hret : forall v, next x = v -> v ∉ l1 ->
    dl (fset next u (next x)) (fset prev (next x) u) a l1 v).
  { intros v <- Hv. apply (dl_retarget next prev _ _ a l1 x); [done..| | |apply fset_eq|apply fset_eq].
    - intros y _ Hy. by apply fset_ne.
    - intros y Hy. apply fset_ne. by intros ->. }
  destruct l2 as [|v l2].
  - rewrite app_nil_r. apply Hret; [apply H2|set_solver].
  - destruct H2 as (Hnx&Hpv&H2). apply NoDup_cons in Hnd2 as [Hv Hnd2]. apply dl_app.
    split; [apply Hret; set_solver|]. apply (dl_frame next prev); [done|..].
    + intros y Hy. apply fset_ne. intros ->. destruct Hu as [->|Hu], Hy as [Hy|Hy]; set_solver.
    + intros y Hy. apply fset_ne. rewrite Hnx. intros ->. destruct Hy as [->|Hy]; set_solver.
Qed.

(** [x->next = head->next; x->prev = head; head->next->prev = x; head->next = x] *)
Lemma dl_insert next prev a l b x :
  dl next prev a l b -> NoDup (a :: l) -> b ∉ l -> x ∉ l -> x <> a -> x <> b ->
  let next1 := fset next x (next a) in
  let prev1 := fset prev x a in
  dl (fset next1 a x) (fset prev1 (next1 a) x) a (x :: l) b.
Proof.
  intros Hd [Ha Hnd]%NoDup_cons Hb Hx Hxa Hxb. cbv zeta. rewrite (fset_ne next) by done.
  pose proof (dl_next_first _ _ _ _ _ Hd) as Hna. simpl. rewrite fset_eq. split; [done|].
  assert (Hne : next a <> x).
  { rewrite Hna. destruct l; simpl; [congruence|]. intros ->. apply Hx, list_elem_of_here. }
  rewrite fset_ne, fset_eq by done. split; [done|].
  destruct l as [|y l]; simpl in Hna |- *.
  - rewrite Hna, (fset_ne _ a), !fset_eq by done. done.
  - rewrite Hna, (fset_ne _ a), !fset_eq by done. destruct Hd as (_&_&Hd).
    apply NoDup_cons in Hnd as [Hy Hnd]. split_and!; [done..|]. apply (dl_frame next prev); [done|..].
    + intros z Hz. rewrite !fset_ne; [done|..]; intros ->; destruct Hz as [->|Hz]; set_solver.
    + intros z Hz. rewrite !fset_ne; [done|..]; intros ->; destruct Hz as [->|Hz]; set_solver.
Qed.
End dl.

(** ** Hash chains with back pointers to pointers *)

(** A place that holds a pointer to a node: nothing, a bucket of the table,
    or the [hnext] field of a node. *)
Inductive hptr := HNull | HTab (h : Z) | HNext (x : Z).
#[export] Instance hptr_eq_dec : EqDecision hptr.
Proof. solve_decision. Defined.

(** The places: the bucket array and the [hnext] fields ([None] is NULL). *)
Record hplaces := mkPlaces { htab : Z -> option Z; hnext : Z -> option Z }.

Definition hload (s : hplaces) (p : hptr) : option Z :=
  match p with HNull => None | HTab h => s.(htab) h | HNext x => s.(hnext) x end.
(** [*p = v] *)
Definition hstore (s : hplaces) (p : hptr) (v : option Z) : hplaces :=
  match p with
  | HNull => s
  | HTab h => mkPlaces (fset s.(htab) h v) s.(hnext)
  | HNext x => mkPlaces s.(htab) (fset s.(hnext) x v)
  end.

Lemma hload_store s p v q : p <> HNull ->
  hload (hstore s p v) q = if decide (q = p) then v else hload s q.
Proof.
  intros Hp. destruct p as [|h|x], q as [|h'|x']; simpl; try done; rewrite ?fset_spec;
    repeat case_decide; congruence.
Qed.

(** From the place [p] the chain runs through [l]; each node points back at
    the place that points at it. *)
Fixpoint chain (s : hplaces) (hprevp : Z -> hptr) (p : hptr) (l : list Z) : Prop :=
  match l with
  | [] => hload s p = None
  | x :: l => hload s p = Some x /\ hprevp x = p /\ chain s hprevp (HNext x) l
  end.

Definition places (p : hptr) (l : list Z) : list hptr := p :: (HNext <$> l).

Lemma chain_frame s hp s' hp' p l :
  chain s hp p l -> (forall q, q ∈ places p l -> hload s' q = hload s q) ->
  (forall x, x ∈ l -> hp' x = hp x) -> chain s' hp' p l.
Proof.
  revert p. induction l as [|x l IH]; intros p; simpl.
  - intros Hp Hq _. rewrite Hq; [done|apply list_elem_of_here].
  - intros (Hp&Hx&Hc) Hq Hh. rewrite Hq, Hh by apply list_elem_of_here. split_and!; [done..|].
    apply IH; [done| |].
    + intros q Hin. apply Hq. by apply list_elem_of_further.
    + intros y Hy. apply Hh. by apply list_elem_of_further.
Qed.

Definition set_head_back (hp : Z -> hptr) (o : option Z) (p : hptr) : Z -> hptr :=
  match o with Some y => fset hp y p | None => hp end.

(** A first part of a chain, and the place after it. *)
Fixpoint seg (s : hplaces) (hprevp : Z -> hptr) (p : hptr) (l : list Z) : Prop :=
  match l with
  | [] => True
  | x :: l => hload s p = Some x /\ hprevp x = p /\ seg s hprevp (HNext x) l
  end.
Fixpoint endp (p : hptr) (l : list Z) : hptr :=
  match l with [] => p | x :: l => endp (HNext x) l end.
Fixpoint seg_places (p : hptr) (l : list Z) : list hptr :=
  match l with [] => [] | x :: l => p :: seg_places (HNext x) l end.

Lemma chain_app s hp p l1 l2 : chain s hp p (l1 ++ l2) <-> seg s hp p l1 /\ chain s hp (endp p l1) l2.
Proof. revert p. induction l1 as [|x l1 IH]; intros p; simpl; [tauto|]. rewrite IH. tauto. Qed.

Lemma seg_frame s hp s' hp' p l :
  seg s hp p l -> (forall q, q ∈ seg_places p l -> hload s' q = hload s q) ->
  (forall x, x ∈ l -> hp' x = hp x) -> seg s' hp' p l.
Proof.
  revert p. induction l as [|x l IH]; intros p; simpl; [done|].
  intros (Hp&Hx&Hc) Hq Hh. rewrite Hq, Hh by apply list_elem_of_here. split_and!; [done..|].
  apply IH; [done| |].
  - intros q Hin. apply Hq. by apply list_elem_of_further.
  - intros y Hy. apply Hh. by apply list_elem_of_further.
Qed.

Lemma endp_elem p l : endp p l = p \/ endp p l ∈ (HNext <$> l).
Proof.
  revert p. induction l as [|x l IH]; intros p; simpl; [by left|]. right.
  destruct (IH (HNext x)) as [->|?]; [apply list_elem_of_here|by apply list_elem_of_further].
Qed.

Lemma endp_not_seg p l : NoDup l -> (p ∉ (HNext <$> l)) -> endp p l ∉ seg_places p l.
Proof.
  revert p. induction l as [|x l IH]; intros p; simpl; [intros _ _; apply not_elem_of_nil|].
  intros [Hx Hnd]%NoDup_cons [Hp Hpl]%not_elem_of_cons. apply not_elem_of_cons.
  assert (Hxl : HNext x ∉ (HNext <$> l)) by (intros (y&[= ->]&?)%list_elem_of_fmap; done).
  split; [|by apply IH]. destruct (endp_elem (HNext x) l) as [->|Hin]; [congruence|].
  intros Heq. by rewrite Heq in Hin.
Qed.

(** [*x->hprevp = x->hnext; if (x->hnext) x->hnext->hprevp = x->hprevp] *)
Lemma chain_remove s hp p l1 x l2 :
  p <> HNull -> chain s hp p (l1 ++ x :: l2) -> NoDup (l1 ++ x :: l2) -> (p ∉ (HNext <$> (l1 ++ x :: l2))) ->
  chain (hstore s (hp x) (hload s (HNext x))) (set_head_back hp (hload s (HNext x)) (hp x)) p (l1 ++ l2).
Proof.
  intros Hpn. rewrite !chain_app, fmap_app. intros [Hs (Hq&Hhp&Hc)] (Hnd1&Hdis&[Hx Hnd2]%NoDup_cons)%NoDup_app Hp.
  apply not_elem_of_app in Hp as [Hp1 Hp2]. simpl in Hp2. apply not_elem_of_cons in Hp2 as [_ Hp2].
  assert (Hqn : endp p l1 <> HNull)
    by (destruct (endp_elem p l1) as [->|(y&->&_)%list_elem_of_fmap]; done).
  assert (Hql : forall y, y ∈ l2 -> endp p l1 <> HNext y).
  { intros y Hy. destruct (endp_elem p l1) as [->|(z&->&Hz)%list_elem_of_fmap].
    - intros ->. apply Hp2. by apply list_elem_of_fmap_2.
    - intros [= ->]. apply (Hdis y); [done|by apply list_elem_of_further]. }
  rewrite Hhp. split.
  - apply (seg_frame s hp); [done|..].
    + intros q Hin. rewrite hload_store, decide_False; [done|intros ->|done].
      by apply (endp_not_seg p l1).
    + intros y Hy. destruct l2 as [|z l2]; simpl in Hc |- *; [by rewrite Hc|]. destruct Hc as (Hz&_&_).
      rewrite Hz. simpl. apply fset_ne. intros ->. apply (Hdis z Hy). by apply list_elem_of_further, list_elem_of_here.
  - destruct l2 as [|z l2]; simpl in Hc |- *; [by rewrite hload_store, decide_True|].
    destruct Hc as (Hz&Hpz&Hc). simpl in Hz. rewrite Hz, hload_store, decide_True by done. simpl.
    rewrite fset_eq. split_and!; [done..|]. apply NoDup_cons in Hnd2 as [Hzl _]. apply (chain_frame s hp); [done|..].
    + intros q Hq'. rewrite hload_store, decide_False; [done|intros ->|done].
      apply elem_of_cons in Hq' as [Hq'|(y&Hy&Hyl)%list_elem_of_fmap].
      * apply (Hql z); [apply list_elem_of_here|done].
      * apply (Hql y); [by apply list_elem_of_further|done].
    + intros y Hy. apply fset_ne. by intros ->.
Qed.

(** [b->hnext = *head; if ( *head) ( *head)->hprevp = &b->hnext; *head = b; b->hprevp = head] *)
Lemma chain_insert s hp p l x :
  p <> HNull -> p <> HNext x -> chain s hp p l -> (x ∉ l) -> (p ∉ (HNext <$> l)) -> NoDup l ->
  let s1 := hstore s (HNext x) (hload s p) in
  let hp1 := set_head_back hp (hload s1 p) (HNext x) in
  chain (hstore s1 p (Some x)) (fset hp1 x p) p (x :: l).
Proof.
  intros Hpn Hpx Hc Hx Hpl Hnd. cbv zeta. cbn [chain]. rewrite hload_store, decide_True by done.
  rewrite fset_eq. split_and!; [done..|].
  rewrite (hload_store s (HNext x) _ p), decide_False by done.
  assert (Hhead : hload (hstore (hstore s (HNext x) (hload s p)) p (Some x)) (HNext x) = hload s p).
  { rewrite hload_store, decide_False by done. rewrite hload_store by done. by rewrite decide_True. }
  destruct l as [|y l]; cbn [chain] in Hc |- *; rewrite Hhead; [done|].
  destruct Hc as (Hy&Hpy&Hc). apply not_elem_of_cons in Hx as [Hxy Hx].
  apply NoDup_cons in Hnd as [Hyl Hnd]. apply not_elem_of_cons in Hpl as [Hp1 Hp2].
  split; [done|]. rewrite Hy. cbn [set_head_back]. rewrite fset_ne, fset_eq by done. split; [done|].
  apply (chain_frame s hp); [done|..].
  - intros q Hq. rewrite !hload_store by done. rewrite !decide_False; [done|..].
    + intros ->. apply elem_of_cons in Hq as [[= ->]|(z&[= ->]&Hz)%list_elem_of_fmap]; done.
    + intros ->. by apply elem_of_cons in Hq as [?|?].
  - intros z Hz. rewrite !fset_ne; [done|by intros ->|by intros ->].
Qed.
