(* ===== verification/Storage.v ===== *)
(** * Block devices (kernel/storage.c)

    The table of registered devices, the lookup by name, the range check in
    front of every transfer, and the memory-backed device.  Drivers other
    than the memory device are parameters: functions from a context to the
    bytes read, or to the success of a write.  Memory is a function from
    addresses to bytes; a C string is the list of its characters before the
    terminator. *)
From S2P Require Import Prelude Bytes.

Abbreviation STORAGE_NAME_MAX := 16.
Abbreviation STORAGE_MAX_DEVICES := 16%nat.

Definition bytemem := Z -> Z.

(** What a driver does: [None] for a non-zero result. *)
Inductive driver :=
  | MemoryDriver
  | OtherDriver (rd : bytemem -> Z -> Z -> option (list Z))
                (wr : bytemem -> Z -> list Z -> option bytemem).

Record storage_device := mkDev {
  d_name : list Z; d_block_size : Z; d_block_count : Z;
  d_read : option driver; d_write : option driver;
  d_ctx : Z; d_read_only : bool; d_in_use : bool }.

#[export] Instance storage_device_inhabited : Inhabited storage_device :=
  populate (mkDev [] 0 0 None None 0 false false).

(** [g_storage_devices], [g_memory_storage] and the memory they live over.
    The context of a memory device is its index in [s_base]. *)
Record storage := mkStorage { s_devs : list storage_device; s_base : list Z; s_mem : bytemem }.

Definition read_mem (m : bytemem) (a n : Z) : list Z := (fun i => m (a + i)) <$> seqZ 0 n.
Definition write_mem (m : bytemem) (a : Z) (d : list Z) : bytemem :=
  fun x => if (a <=? x) && (x <? a + zlen d) then zget d (x - a) else m x.

Fixpoint strcmp_exact_storage (a b : list Z) : bool :=
  match a, b with
  | x :: a, y :: b => if x =? y then strcmp_exact_storage a b else false
  | [], [] => true
  | _, _ => false
  end.

Definition copy_storage_name (src : list Z) (size : Z) : list Z := take (Z.to_nat (size - 1)) src.

Definition memory_storage_read (s : storage) (ctx lba count : Z) : option (list Z) :=
  let base := zget s.(s_base) ctx in
  if base =? 0 then None else
  Some (read_mem s.(s_mem) (u64 (base + u64 (lba * 512))) (u64 (count * 512))).

(** [buf] holds the [count * 512] bytes to write. *)
Definition memory_storage_write (s : storage) (ctx lba : Z) (buf : list Z) : option storage :=
  let base := zget s.(s_base) ctx in
  if base =? 0 then None else
  Some (mkStorage s.(s_devs) s.(s_base) (write_mem s.(s_mem) (u64 (base + u64 (lba * 512))) buf)).

Definition storage_init (s : storage) : storage :=
  mkStorage (replicate STORAGE_MAX_DEVICES (mkDev [] 0 0 None None 0 false false))
            (replicate STORAGE_MAX_DEVICES 0) s.(s_mem).

(** The first slot that is not in use, from slot [i] on. *)
Fixpoint free_slot (devs : list storage_device) (i : Z) : option Z :=
  match devs with
  | [] => None
  | d :: devs => if negb d.(d_in_use) then Some i else free_slot devs (i + 1)
  end.

Definition storage_register_device (s : storage) (name : list Z) (block_size block_count : Z)
    (read write : option driver) (ctx : Z) (read_only : bool) : Z * storage :=
  if (match name with [] => true | _ => false end) || (block_size =? 0)
     || (match read with None => true | _ => false end) then (-1, s) else
  match free_slot s.(s_devs) 0 with
  | Some i =>
      (0, mkStorage (zset s.(s_devs) i
            (mkDev (copy_storage_name name STORAGE_NAME_MAX) block_size block_count read write ctx
                   read_only true)) s.(s_base) s.(s_mem))
  | None => (-1, s)
  end.

Fixpoint find_in (devs : list storage_device) (name : list Z) : option storage_device :=
  match devs with
  | [] => None
  | d :: devs =>
      if d.(d_in_use) && strcmp_exact_storage d.(d_name) name then Some d else find_in devs name
  end.

Definition storage_find_device (s : storage) (name : list Z) : option storage_device :=
  find_in s.(s_devs) name.

Definition drv_read (s : storage) (d : driver) (ctx lba count : Z) : option (list Z) :=
  match d with
  | MemoryDriver => memory_storage_read s ctx lba count
  | OtherDriver rd _ => rd s.(s_mem) lba count
  end.

Definition drv_write (s : storage) (d : driver) (ctx lba : Z) (buf : list Z) : option storage :=
  match d with
  | MemoryDriver => memory_storage_write s ctx lba buf
  | OtherDriver _ wr =>
      m ← wr s.(s_mem) lba buf; Some (mkStorage s.(s_devs) s.(s_base) m)
  end.

(** [None] stands for the negative results. *)
Definition storage_read_blocks (s : storage) (name : list Z) (lba count : Z) : option (list Z) :=
  dev ← storage_find_device s name;
  if count =? 0 then None else
  if dev.(d_block_count) <? u64 (lba + count) then None else
  rd ← dev.(d_read); drv_read s rd dev.(d_ctx) lba count.

Definition storage_write_blocks (s : storage) (name : list Z) (lba : Z) (buf : list Z) (count : Z) : option storage :=
  dev ← storage_find_device s name;
  if (count =? 0) || dev.(d_read_only) then None else
  wr ← dev.(d_write);
  if dev.(d_block_count) <? u64 (lba + count) then None else
  drv_write s wr dev.(d_ctx) lba buf.

Definition storage_register_memory_device (s : storage) (name : list Z) (base block_size block_count : Z)
    (read_only : bool) : Z * storage :=
  if (base =? 0) || negb (block_size =? 512) then (-1, s) else
  match free_slot s.(s_devs) 0 with
  | Some i =>
      let s := mkStorage s.(s_devs) (zset s.(s_base) i base) s.(s_mem) in
      storage_register_device s name block_size block_count (Some MemoryDriver)
        (if read_only then None else Some MemoryDriver) i read_only
  | None => (-1, s)
  end.

(** ** Lookup *)

Lemma strcmp_exact_storage_spec a b : strcmp_exact_storage a b = true <-> a = b.
Proof.
  revert b. induction a as [|x a IH]; intros [|y b]; simpl; try done.
  destruct (Z.eqb_spec x y) as [->|]; [rewrite IH|]; split; congruence.
Qed.

Lemma free_slot_spec devs : forall i j,
  0 <= i -> free_slot devs i = Some j ->
  i <= j < i + zlen devs /\ (zget devs (j - i)).(d_in_use) = false /\
  forall k, 0 <= k < j - i -> (zget devs k).(d_in_use) = true.
Proof.
  induction devs as [|d devs IH]; intros i j Hi; simpl; [done|].
  unfold zlen, zget in *. cbn [length]. destruct (d_in_use d) eqn:E; simpl.
  - intros (?&Hz&Hk)%IH; [|lia]. replace (Z.to_nat (j - i)) with (S (Z.to_nat (j - (i + 1)))) by lia.
    split_and!; [lia..|done|]. intros k Hk'.
    destruct (decide (k = 0)) as [->|]; [done|].
    replace (Z.to_nat k) with (S (Z.to_nat (k - 1))) by lia. apply Hk. lia.
  - intros [= <-]. rewrite Z.sub_diag. split_and!; [lia..|done|lia].
Qed.

Definition named (name : list Z) (d : storage_device) : bool :=
  d.(d_in_use) && strcmp_exact_storage d.(d_name) name.

(** Filling a free slot adds one device to what can be found. *)
Lemma find_in_insert devs j d name :
  (0 <= j < zlen devs) -> (zget devs j).(d_in_use) = false ->
  find_in (zset devs j d) name =
    match find_in (take (Z.to_nat j) devs) name with
    | Some d' => Some d'
    | None => if named name d then Some d else find_in devs name
    end.
Proof.
  revert j. induction devs as [|x devs IH]; intros j; unfold zlen, zget, zset in *; cbn [length]; [lia|].
  intros Hj. destruct (decide (j = 0)) as [->|Hne].
  - simpl. intros Hx. rewrite Hx. simpl. unfold named. by case_match.
  - replace (Z.to_nat j) with (S (Z.to_nat (j - 1))) by lia. simpl. intros Hx. rewrite IH by (done || lia).
    unfold named. by destruct (d_in_use x && strcmp_exact_storage (d_name x) name).
Qed.

Lemma find_in_take devs n name : find_in (take n devs) name = None \/ find_in (take n devs) name = find_in devs name.
Proof.
  revert n. induction devs as [|d devs IH]; intros [|n]; simpl; auto.
  case_match; auto.
Qed.

(** a registered memory device is found under its name (names of at most
    15 characters, as the table keeps 15), with the size given, and every
    other name is found exactly as before. *)
Theorem storage_register_find s name base block_count ro s' :
  storage_register_memory_device s name base 512 block_count ro = (0, s') ->
  zlen name <= 15 -> storage_find_device s name = None -> zlen s.(s_base) = zlen s.(s_devs) ->
  (exists d, storage_find_device s' name = Some d /\ d.(d_block_count) = block_count /\
     d.(d_read_only) = ro /\ zget s'.(s_base) d.(d_ctx) = base) /\
  forall other, other <> name -> storage_find_device s' other = storage_find_device s other.
Proof.
  unfold storage_register_memory_device, storage_find_device. intros Hreg Hlen Hnone Hb.
  destruct ((base =? 0) || negb (512 =? 512)); [done|].
  destruct (free_slot s.(s_devs) 0) as [i|] eqn:Ef; [|done].
  pose proof (free_slot_spec _ 0 i ltac:(lia) Ef) as (Hi&Hfree&_). rewrite Z.sub_0_r in Hfree.
  unfold storage_register_device in Hreg. simpl in Hreg. rewrite Ef in Hreg.
  destruct name as [|c name]; [done|]. cbv iota beta in Hreg. simpl orb in Hreg. cbv iota in Hreg.
  injection Hreg as <-. simpl s_devs. simpl s_base.
  replace (copy_storage_name (c :: name) STORAGE_NAME_MAX) with (c :: name)
    by (symmetry; unfold copy_storage_name; apply take_ge; unfold zlen in Hlen; lia).
  set (d := mkDev _ _ _ _ _ _ _ _). split.
  - exists d. rewrite find_in_insert by (done || lia).
    destruct (find_in_take s.(s_devs) (Z.to_nat i) (c :: name)) as [-> | ->]; rewrite ?Hnone.
    all: unfold named; rewrite (proj2 (strcmp_exact_storage_spec _ _) eq_refl); simpl;
      rewrite zget_zset_eq by lia; done.
  - intros other Hne. rewrite find_in_insert by (done || lia).
    assert (Hn : named other d = false).
    { unfold named. simpl d_name. apply not_true_iff_false. intros [_ ?%strcmp_exact_storage_spec]%andb_true_iff.
      congruence. }
    rewrite Hn. destruct (find_in_take s.(s_devs) (Z.to_nat i) other) as [-> | ->]; [done|]. by case_match.
Qed.

Definition ex_storage : storage :=
  mkStorage (replicate 16 (mkDev [] 0 0 None None 0 false false)) (replicate 16 0) (fun _ => 7).

Lemma storage_register_find_witness :
  exists d, storage_find_device (storage_register_memory_device ex_storage [114; 100; 48] 8192 512 64 false).2
              [114; 100; 48] = Some d /\ d.(d_block_count) = 64.
Proof.
  destruct (storage_register_find ex_storage [114; 100; 48] 8192 64 false
    (storage_register_memory_device ex_storage [114; 100; 48] 8192 512 64 false).2) as [(d&Hd&Hc&_) _].
  - reflexivity.
  - vm_compute. discriminate.
  - reflexivity.
  - reflexivity.
  - exists d. split; [exact Hd|exact Hc].
Defined.

(** ** Transfers on a memory device *)

Lemma zlen_read_mem m a n : 0 <= n -> zlen (read_mem m a n) = n.
Proof. intros. unfold zlen, read_mem. rewrite length_fmap, length_seqZ. lia. Qed.

Lemma zget_read_mem m a n i : 0 <= i < n -> zget (read_mem m a n) i = m (a + i).
Proof.
  intros. unfold zget, read_mem. rewrite list_lookup_total_alt, list_lookup_fmap, lookup_seqZ_lt by lia.
  simpl. f_equal. lia.
Qed.

Lemma read_write_mem m a d : read_mem (write_mem m a d) a (zlen d) = d.
Proof.
  pose proof (zlen_nonneg d). apply zlist_ext; rewrite zlen_read_mem by done; [done|].
  intros i Hi. rewrite zget_read_mem by done. unfold write_mem.
  rewrite (proj2 (Z.leb_le _ _)), (proj2 (Z.ltb_lt _ _)) by lia. simpl. f_equal. lia.
Qed.

Section transfers.
Variables (s : storage) (name : list Z) (dev : storage_device).
Hypothesis Hfind : storage_find_device s name = Some dev.
Hypothesis Hdrv : dev.(d_read) = Some MemoryDriver /\ dev.(d_write) = Some MemoryDriver.
Hypothesis Hro : dev.(d_read_only) = false.
(** the disk lies in memory, and not at address 0 *)
Abbreviation base := (zget s.(s_base) dev.(d_ctx)).
Hypothesis Hbase : 0 < base /\ base + 512 * dev.(d_block_count) <= 2 ^ 64.

Lemma memory_write_ok lba buf count :
  0 <= lba -> 0 < count -> lba + count <= dev.(d_block_count) ->
  storage_write_blocks s name lba buf count =
    Some (mkStorage s.(s_devs) s.(s_base) (write_mem s.(s_mem) (base + 512 * lba) buf)).
Proof using All.
  intros. unfold storage_write_blocks. rewrite Hfind. simpl.
  destruct (Z.eqb_spec count 0); [lia|]. rewrite Hro, (proj2 Hdrv). simpl.
  rewrite u64_small by lia. destruct (Z.ltb_spec dev.(d_block_count) (lba + count)); [lia|].
  unfold memory_storage_write. destruct (Z.eqb_spec base 0); [lia|].
  rewrite (u64_small (lba * 512)), u64_small by lia. do 3 f_equal. lia.
Qed.

Lemma memory_read_ok lba count :
  0 <= lba -> 0 < count -> lba + count <= dev.(d_block_count) ->
  storage_read_blocks s name lba count = Some (read_mem s.(s_mem) (base + 512 * lba) (512 * count)).
Proof using All.
  intros. unfold storage_read_blocks. rewrite Hfind. simpl.
  destruct (Z.eqb_spec count 0); [lia|]. rewrite (proj1 Hdrv). simpl.
  rewrite u64_small by lia. destruct (Z.ltb_spec dev.(d_block_count) (lba + count)); [lia|].
  unfold memory_storage_read. destruct (Z.eqb_spec base 0); [lia|].
  rewrite (u64_small (lba * 512)), !u64_small by lia. do 2 f_equal; lia.
Qed.
End transfers.

(** on a writable memory device that fits the address space, a transfer
    inside the device succeeds, what was written is read back, and no byte
    outside the blocks written changes; a transfer that ends past the device
    is refused and changes nothing. *)
Theorem storage_memory_transfer s name dev lba count buf :
  storage_find_device s name = Some dev ->
  dev.(d_read) = Some MemoryDriver /\ dev.(d_write) = Some MemoryDriver ->
  dev.(d_read_only) = false ->
  0 < zget s.(s_base) dev.(d_ctx) /\ zget s.(s_base) dev.(d_ctx) + 512 * dev.(d_block_count) <= 2 ^ 64 ->
  0 <= lba -> 0 < count -> lba + count < 2 ^ 64 -> zlen buf = 512 * count ->
  let a := zget s.(s_base) dev.(d_ctx) + 512 * lba in
  (lba + count <= dev.(d_block_count) ->
     exists s', storage_write_blocks s name lba buf count = Some s' /\
       storage_read_blocks s' name lba count = Some buf /\
       forall x, ~ (a <= x < a + 512 * count) -> s'.(s_mem) x = s.(s_mem) x) /\
  (dev.(d_block_count) < lba + count ->
     storage_write_blocks s name lba buf count = None /\ storage_read_blocks s name lba count = None).
Proof.
  intros Hf Hdrv Hro Hbase Hl Hc Hsum Hlen a. split; intros Hr.
  - eexists. split; [by apply (memory_write_ok s name dev)|]. split.
    + rewrite (memory_read_ok _ name dev); [|done..]. simpl s_mem. rewrite <- Hlen. by rewrite read_write_mem.
    + intros x Hx. simpl. unfold write_mem. rewrite Hlen. fold a.
      destruct (Z.leb_spec a x), (Z.ltb_spec x (a + 512 * count)); simpl; done || lia.
  - unfold storage_write_blocks, storage_read_blocks. rewrite Hf. simpl. rewrite u64_small by lia.
    destruct (Z.eqb_spec count 0); [lia|]. rewrite Hro, (proj1 Hdrv), (proj2 Hdrv). simpl.
    by rewrite (proj2 (Z.ltb_lt _ _)).
Qed.

Definition ex_storage1 : storage := (storage_register_memory_device ex_storage [114] 8192 512 64 false).2.

Lemma storage_memory_transfer_witness :
  exists s', storage_write_blocks ex_storage1 [114] 3 (replicate 1024 9) 2 = Some s' /\
    storage_read_blocks s' [114] 3 2 = Some (replicate 1024 9).
Proof.
  pose (dev := mkDev [114] 512 64 (Some MemoryDriver) (Some MemoryDriver) 0 false true).
  destruct (storage_memory_transfer ex_storage1 [114] dev 3 2 (replicate 1024 9)) as [Hin _].
  - reflexivity.
  - split; reflexivity.
  - reflexivity.
  - vm_compute. split; [reflexivity|discriminate].
  - discriminate.
  - reflexivity.
  - reflexivity.
  - reflexivity.
  - destruct (Hin ltac:(vm_compute; discriminate)) as (s'&Hw&Hr&_). exists s'. split; [exact Hw|exact Hr].
Defined.

(** The range check adds in 64 bits: a transfer whose end wraps around passes
    it and reaches memory outside the device. *)
Theorem storage_range_check_wraps :
  exists lba count bytes,
    storage_read_blocks ex_storage1 [114] lba count = Some bytes /\ 64 < lba /\ bytes <> [].
Proof.
  exists (2 ^ 64 - 1), 2, (read_mem (fun _ => 7) (8192 - 512) 1024).
  split_and!; [vm_compute; reflexivity|lia|vm_compute; discriminate].
Qed.
