(* ===== verification/Bio.v ===== *)
(** * The buffer cache (kernel/xv6bio.c)

    Buffers are indices [0 .. NBUF - 1] into an array; each field of
    [struct xv6buf] is a function of the index.  The LRU list is the ring of
    [prev]/[next] fields through the head node, which is index [NBUF]; the
    hash table ("bag") is an array of chains whose nodes carry the address of
    the pointer that points at them.  Disk transfers go through the block
    devices of Storage.v.  [bcache.lock] makes each cache operation atomic;
    the sleeping lock of a buffer, held between [bread] and [brelse], is not
    part of the state. *)
From S2P Require Import Prelude Bytes Links Storage.

Definition XV6FS_BSIZE : Z := 1024.
Abbreviation SECTORS_PER_BLOCK := (XV6FS_BSIZE / 512).

Record bcache := mkCache {
  b_valid : Z -> bool; b_dev : Z -> Z; b_blockno : Z -> Z; b_refcnt : Z -> Z;
  b_data : Z -> list Z; b_prev : Z -> Z; b_next : Z -> Z;
  b_hprevp : Z -> hptr; b_places : hplaces;
  b_store : storage; b_devname : list Z }.

(** Field updates. *)
Definition with_hash (s : bcache) (hp : Z -> hptr) (pl : hplaces) : bcache :=
  mkCache s.(b_valid) s.(b_dev) s.(b_blockno) s.(b_refcnt) s.(b_data) s.(b_prev) s.(b_next) hp pl
          s.(b_store) s.(b_devname).
Definition with_refcnt (s : bcache) (r : Z -> Z) : bcache :=
  mkCache s.(b_valid) s.(b_dev) s.(b_blockno) r s.(b_data) s.(b_prev) s.(b_next) s.(b_hprevp) s.(b_places)
          s.(b_store) s.(b_devname).
Definition with_links (s : bcache) (next prev : Z -> Z) : bcache :=
  mkCache s.(b_valid) s.(b_dev) s.(b_blockno) s.(b_refcnt) s.(b_data) prev next s.(b_hprevp) s.(b_places)
          s.(b_store) s.(b_devname).
Definition with_data (s : bcache) (v : Z -> bool) (d : Z -> list Z) : bcache :=
  mkCache v s.(b_dev) s.(b_blockno) s.(b_refcnt) d s.(b_prev) s.(b_next) s.(b_hprevp) s.(b_places)
          s.(b_store) s.(b_devname).
Definition with_key (s : bcache) (v : Z -> bool) (dev blk ref : Z -> Z) : bcache :=
  mkCache v dev blk ref s.(b_data) s.(b_prev) s.(b_next) s.(b_hprevp) s.(b_places)
          s.(b_store) s.(b_devname).
Definition with_store (s : bcache) (st : storage) : bcache :=
  mkCache s.(b_valid) s.(b_dev) s.(b_blockno) s.(b_refcnt) s.(b_data) s.(b_prev) s.(b_next) s.(b_hprevp)
          s.(b_places) st s.(b_devname).

Section bio.
(** [XV6FS_NBUF] and [XV6FS_NBUF_HASH], which the build may override. *)
Context (NBUF NBUF_HASH : Z).

(** [XV6FS_BHASH] *)
Definition bhash (dev blockno : Z) : Z :=
  Z.land (Z.lxor (u32 (blockno * 2654435761)) dev) (NBUF_HASH - 1).

(** ** Disk transfers *)

(** An error is printed and otherwise ignored. *)
Definition xv6fs_disk_rw (s : bcache) (b : Z) (write : bool) : bcache :=
  let lba := u64 (s.(b_blockno) b * SECTORS_PER_BLOCK) in
  if write then
    match storage_write_blocks s.(b_store) s.(b_devname) lba (s.(b_data) b) SECTORS_PER_BLOCK with
    | Some st => with_store s st
    | None => s
    end
  else
    match storage_read_blocks s.(b_store) s.(b_devname) lba SECTORS_PER_BLOCK with
    | Some d => with_data s s.(b_valid) (fset s.(b_data) b d)
    | None => s
    end.

Definition xv6bio_read_run (s : bcache) (blockno nblocks : Z) : option (list Z) :=
  if nblocks =? 0 then None else
  storage_read_blocks s.(b_store) s.(b_devname) (u64 (blockno * SECTORS_PER_BLOCK))
    (u64 (nblocks * SECTORS_PER_BLOCK)).

Definition xv6bio_write_run (s : bcache) (blockno nblocks : Z) (buf : list Z) : option bcache :=
  if nblocks =? 0 then None else
  st ← storage_write_blocks s.(b_store) s.(b_devname) (u64 (blockno * SECTORS_PER_BLOCK)) buf
         (u64 (nblocks * SECTORS_PER_BLOCK));
  Some (with_store s st).

(** ** The hash table *)

Definition bhash_remove (s : bcache) (b : Z) : bcache :=
  if decide (s.(b_hprevp) b = HNull) then s else
  let pl := hstore s.(b_places) (s.(b_hprevp) b) (hnext s.(b_places) b) in
  let hp := set_head_back s.(b_hprevp) (hnext pl b) (s.(b_hprevp) b) in
  with_hash s (fset hp b HNull) (hstore pl (HNext b) None).

Definition bhash_insert (s : bcache) (b : Z) : bcache :=
  let head := HTab (bhash (s.(b_dev) b) (s.(b_blockno) b)) in
  let pl := hstore s.(b_places) (HNext b) (hload s.(b_places) head) in
  let hp := set_head_back s.(b_hprevp) (hload pl head) (HNext b) in
  with_hash s (fset hp b head) (hstore pl head (Some b)).

(** The walk along a chain; a chain has at most [NBUF] nodes. *)
Fixpoint bhash_walk (fuel : nat) (s : bcache) (o : option Z) (dev blockno : Z) : option Z :=
  match fuel, o with
  | _, None | O, _ => None
  | S fuel, Some b =>
      if (s.(b_dev) b =? dev) && (s.(b_blockno) b =? blockno) then Some b
      else bhash_walk fuel s (hnext s.(b_places) b) dev blockno
  end.

Definition bhash_find (s : bcache) (dev blockno : Z) : option Z :=
  bhash_walk (S (Z.to_nat NBUF)) s (htab s.(b_places) (bhash dev blockno)) dev blockno.

Fixpoint range_cached_loop (n : nat) (s : bcache) (dev blockno : Z) : bool :=
  match n with
  | O => false
  | S n =>
      match bhash_find s dev blockno with
      | Some b => if s.(b_valid) b then true else range_cached_loop n s dev (u32 (blockno + 1))
      | None => range_cached_loop n s dev (u32 (blockno + 1))
      end
  end.

Definition xv6bio_range_cached (s : bcache) (dev blockno nblocks : Z) : bool :=
  range_cached_loop (Z.to_nat nblocks) s dev blockno.

(** ** Start-up *)

Definition init_buf (s : bcache) (b : Z) : bcache :=
  let s := with_links s (fset s.(b_next) b (s.(b_next) NBUF)) (fset s.(b_prev) b NBUF) in
  let s := with_key s (fset s.(b_valid) b false) (fset s.(b_dev) b 0xffffffff)
             (fset s.(b_blockno) b 0xffffffff) (fset s.(b_refcnt) b 0) in
  let s := with_hash s (fset s.(b_hprevp) b HNull) (hstore s.(b_places) (HNext b) None) in
  let s := with_links s s.(b_next) (fset s.(b_prev) (s.(b_next) NBUF) b) in
  with_links s (fset s.(b_next) NBUF b) s.(b_prev).

Definition xv6bio_init (s : bcache) : bcache :=
  let s := with_links s (fset s.(b_next) NBUF NBUF) (fset s.(b_prev) NBUF NBUF) in
  let s := with_hash s s.(b_hprevp)
             (mkPlaces (fun h => if (0 <=? h) && (h <? NBUF_HASH) then None else htab s.(b_places) h)
                       (hnext s.(b_places))) in
  foldl init_buf s (seqZ 0 NBUF).

(** ** Getting and releasing buffers *)

(** From the least recently used buffer towards the head. *)
Fixpoint lru_scan (fuel : nat) (s : bcache) (b : Z) : option Z :=
  match fuel with
  | O => None
  | S fuel =>
      if b =? NBUF then None else
      if s.(b_refcnt) b =? 0 then Some b else lru_scan fuel s (s.(b_prev) b)
  end.

(** [None]: the assertion that a free buffer exists fails. *)
Definition bget (s : bcache) (dev blockno : Z) : option (Z * bcache) :=
  match bhash_find s dev blockno with
  | Some b => Some (b, with_refcnt s (fset s.(b_refcnt) b (u32 (s.(b_refcnt) b + 1))))
  | None =>
      match lru_scan (S (Z.to_nat NBUF)) s (s.(b_prev) NBUF) with
      | Some b =>
          let s := bhash_remove s b in
          let s := with_key s (fset s.(b_valid) b false) (fset s.(b_dev) b dev)
                     (fset s.(b_blockno) b blockno) (fset s.(b_refcnt) b 1) in
          Some (b, bhash_insert s b)
      | None => None
      end
  end.

(** [b->next->prev = b->prev; b->prev->next = b->next] *)
Definition lru_remove (s : bcache) (b : Z) : bcache :=
  let s := with_links s s.(b_next) (fset s.(b_prev) (s.(b_next) b) (s.(b_prev) b)) in
  with_links s (fset s.(b_next) (s.(b_prev) b) (s.(b_next) b)) s.(b_prev).
(** [b] becomes the first buffer after the head. *)
Definition lru_push (s : bcache) (b : Z) : bcache :=
  let s := with_links s (fset s.(b_next) b (s.(b_next) NBUF)) (fset s.(b_prev) b NBUF) in
  let s := with_links s s.(b_next) (fset s.(b_prev) (s.(b_next) NBUF) b) in
  with_links s (fset s.(b_next) NBUF b) s.(b_prev).

Definition xv6brelse (s : bcache) (b : Z) : bcache :=
  let s := with_refcnt s (fset s.(b_refcnt) b (u32 (s.(b_refcnt) b - 1))) in
  if s.(b_refcnt) b =? 0 then lru_push (lru_remove s b) b else s.

Definition xv6bread (s : bcache) (dev blockno : Z) : option (Z * bcache) :=
  '(b, s) ← bget s dev blockno;
  if s.(b_valid) b then Some (b, s)
  else let s := xv6fs_disk_rw s b false in
       Some (b, with_data s (fset s.(b_valid) b true) s.(b_data)).

Definition xv6bwrite (s : bcache) (b : Z) : bcache := xv6fs_disk_rw s b true.

Fixpoint fill_loop (n : nat) (i : Z) (s : bcache) (dev blockno : Z) (src : list Z) : option bcache :=
  match n with
  | O => Some s
  | S n =>
      '(b, s) ← bget s dev (u32 (blockno + i));
      let s := if s.(b_valid) b then s
               else with_data s (fset s.(b_valid) b true)
                      (fset s.(b_data) b (slice src (i * XV6FS_BSIZE) XV6FS_BSIZE)) in
      fill_loop n (i + 1) (xv6brelse s b) dev blockno src
  end.

Definition xv6bio_fill_cache (s : bcache) (dev blockno nblocks : Z) (data : list Z) : option bcache :=
  fill_loop (Z.to_nat nblocks) 0 s dev blockno data.

Definition xv6bpin (s : bcache) (b : Z) : bcache :=
  with_refcnt s (fset s.(b_refcnt) b (u32 (s.(b_refcnt) b + 1))).
Definition xv6bunpin (s : bcache) (b : Z) : bcache :=
  with_refcnt s (fset s.(b_refcnt) b (u32 (s.(b_refcnt) b - 1))).

(** ** The invariant

    [l] is the LRU order, most recent first; [C h] the chain of bucket [h]. *)
Record binv (s : bcache) (l : list Z) (C : Z -> list Z) : Prop := {
  bi_lru : dl s.(b_next) s.(b_prev) NBUF l NBUF;
  bi_lru_nodup : NoDup l;
  bi_lru_all : forall x, x ∈ l <-> 0 <= x < NBUF;
  bi_chain : forall h, 0 <= h < NBUF_HASH -> chain s.(b_places) s.(b_hprevp) (HTab h) (C h);
  bi_nodup : forall h, 0 <= h < NBUF_HASH -> NoDup (C h);
  bi_key : forall h x, 0 <= h < NBUF_HASH -> x ∈ C h ->
    0 <= x < NBUF /\ bhash (s.(b_dev) x) (s.(b_blockno) x) = h;
  (** at most one buffer per block *)
  bi_uniq : forall h x y, 0 <= h < NBUF_HASH -> x ∈ C h -> y ∈ C h ->
    s.(b_dev) x = s.(b_dev) y -> s.(b_blockno) x = s.(b_blockno) y -> x = y;
  bi_out : forall x, 0 <= x < NBUF ->
    s.(b_hprevp) x = HNull \/ x ∈ C (bhash (s.(b_dev) x) (s.(b_blockno) x));
  (** a buffer in use is in the table *)
  bi_used : forall x, 0 <= x < NBUF -> s.(b_refcnt) x <> 0 -> s.(b_hprevp) x <> HNull;
  bi_ref : forall x, 0 <= x < NBUF -> 0 <= s.(b_refcnt) x < 2 ^ 32;
  bi_dev : forall x, 0 <= x < NBUF -> 0 <= s.(b_dev) x;
}.

Context (HNB : 0 < NBUF) (HNH : 0 < NBUF_HASH).

Lemma bhash_range dev blk : 0 <= dev -> 0 <= bhash dev blk < NBUF_HASH.
Proof using HNH.
  intros Hd. unfold bhash. pose proof (u32_range (blk * 2654435761)).
  assert (0 <= Z.lxor (u32 (blk * 2654435761)) dev) by (apply Z.lxor_nonneg; lia).
  pose proof (land_le_r (Z.lxor (u32 (blk * 2654435761)) dev) (NBUF_HASH - 1)). lia.
Qed.

Lemma chain_walk s p l dev blk n :
  chain s.(b_places) s.(b_hprevp) p l -> (length l < n)%nat ->
  bhash_walk n s (hload s.(b_places) p) dev blk =
    head (filter (fun x => s.(b_dev) x = dev /\ s.(b_blockno) x = blk) l).
Proof.
  revert p n. induction l as [|x l IH]; intros p n; simpl.
  - intros -> ?. by destruct n.
  - intros (->&_&Hc) Hn. destruct n as [|n]; [lia|]. simpl.
    destruct (Z.eqb_spec (s.(b_dev) x) dev), (Z.eqb_spec (s.(b_blockno) x) blk); simpl.
    + by rewrite filter_cons_True.
    + rewrite filter_cons_False by tauto. apply (IH (HNext x)); [done|lia].
    + rewrite filter_cons_False by tauto. apply (IH (HNext x)); [done|lia].
    + rewrite filter_cons_False by tauto. apply (IH (HNext x)); [done|lia].
Qed.

Lemma NoDup_bounded (l : list Z) n : 0 <= n -> NoDup l -> (forall x, x ∈ l -> 0 <= x < n) -> (length l <= Z.to_nat n)%nat.
Proof.
  intros Hn Hnd Hb. rewrite <- (length_seqZ 0 n). apply submseteq_length, NoDup_submseteq; [done|].
  intros x Hx. apply elem_of_seqZ. specialize (Hb x Hx). lia.
Qed.

(** Buffer [x] is in the table for block [blk] of [dev]. *)
Definition cached (s : bcache) (dev blk x : Z) : Prop :=
  0 <= x < NBUF /\ s.(b_hprevp) x <> HNull /\ s.(b_dev) x = dev /\ s.(b_blockno) x = blk.

Lemma chain_nonnull pl hp p l x : p <> HNull -> chain pl hp p l -> x ∈ l -> hp x <> HNull.
Proof.
  revert p. induction l as [|y l IH]; intros p Hp; simpl; [by intros _ ?%not_elem_of_nil|].
  intros (_&Hy&Hc) [->|Hx]%elem_of_cons; [congruence|]. by apply (IH (HNext y)).
Qed.

Section facts.
Variables (s : bcache) (l : list Z) (C : Z -> list Z).
Hypothesis Hinv : binv s l C.

Lemma cached_chain dev blk x : 0 <= dev -> cached s dev blk x <->
  x ∈ C (bhash dev blk) /\ s.(b_dev) x = dev /\ s.(b_blockno) x = blk.
Proof using All.
  intros Hd. pose proof (bhash_range dev blk Hd) as Hh. split.
  - intros (Hx&Hn&<-&<-). destruct (bi_out _ _ _ Hinv x Hx); done.
  - intros (Hx&?&?). destruct (bi_key _ _ _ Hinv _ x Hh Hx). split_and!; try done; try lia.
    by apply (chain_nonnull s.(b_places) _ (HTab (bhash dev blk)) (C (bhash dev blk)));
      [|apply (bi_chain _ _ _ Hinv)|].
Qed.

Lemma bhash_find_spec dev blk : 0 <= dev ->
  match bhash_find s dev blk with
  | Some x => cached s dev blk x
  | None => forall x, ~ cached s dev blk x
  end.
Proof using All.
  intros Hd. pose proof (bhash_range dev blk Hd) as Hh. unfold bhash_find.
  change (htab (b_places s) (bhash dev blk)) with (hload (b_places s) (HTab (bhash dev blk))).
  rewrite (chain_walk s (HTab (bhash dev blk)) (C (bhash dev blk))).
  - destruct (filter _ (C (bhash dev blk))) as [|x r] eqn:E; simpl.
    + intros x Hx%cached_chain; [|done]. destruct Hx as (Hx&?&?).
      assert (x ∈ @nil Z) as ?%not_elem_of_nil; [|done]. rewrite <- E. by apply list_elem_of_filter.
    + apply cached_chain; [done|]. assert (Hx : x ∈ x :: r) by apply list_elem_of_here.
      rewrite <- E in Hx. by apply list_elem_of_filter in Hx as [[? ?] ?].
  - by apply (bi_chain _ _ _ Hinv).
  - apply Nat.lt_succ_r, NoDup_bounded; [lia|by apply (bi_nodup _ _ _ Hinv)|].
    intros x Hx. by apply (bi_key _ _ _ Hinv _ x Hh).
Qed.

Lemma cached_unique dev blk x y : 0 <= dev -> cached s dev blk x -> cached s dev blk y -> x = y.
Proof using All.
  intros Hd (Hx&Hdx&Hbx)%cached_chain (Hy&Hdy&Hby)%cached_chain; [|done..].
  apply (bi_uniq _ _ _ Hinv (bhash dev blk)); try done; [by apply bhash_range|congruence..].
Qed.
End facts.

(** Walking [prev] from the end of the ring visits it backwards. *)
Lemma lru_scan_spec s a l n :
  dl s.(b_next) s.(b_prev) a l NBUF -> a = NBUF -> (forall x, x ∈ l -> x <> NBUF) -> (length l < n)%nat ->
  lru_scan n s (s.(b_prev) NBUF) = last (filter (fun x => s.(b_refcnt) x = 0) l).
Proof.
  intros Hd -> Hne Hn.
  assert (Hgen : forall b, dl s.(b_next) s.(b_prev) NBUF l b ->
    lru_scan n s (s.(b_prev) b) = last (filter (fun x => s.(b_refcnt) x = 0) l)); [|by apply Hgen].
  clear Hd. revert n Hn. induction l as [|x l IH] using rev_ind; intros n Hn b Hd.
  - destruct Hd as [_ ->]. destruct n; [lia|]. simpl. by rewrite Z.eqb_refl.
  - apply dl_app in Hd as [Hd [_ Hb]]. rewrite Hb. destruct n as [|n]; [lia|]. simpl.
    rewrite length_app in Hn. simpl in Hn.
    assert (Hx : x <> NBUF) by (apply Hne; set_solver). apply Z.eqb_neq in Hx. rewrite Hx.
    rewrite filter_app. destruct (Z.eqb_spec (s.(b_refcnt) x) 0).
    + rewrite filter_cons_True, filter_nil by done. by rewrite last_snoc.
    + rewrite filter_cons_False, filter_nil, app_nil_r by done. apply IH; [|lia|done].
      intros y Hy. apply Hne. set_solver.
Qed.

(** ** Moving a buffer between chains *)

(** Buckets are disjoint. *)
Lemma bucket_unique s l C h h' x : binv s l C ->
  0 <= h < NBUF_HASH -> 0 <= h' < NBUF_HASH -> x ∈ C h -> x ∈ C h' -> h = h'.
Proof.
  intros Hinv Hh Hh' Hx Hx'. destruct (bi_key _ _ _ Hinv h x Hh Hx) as [_ <-].
  by destruct (bi_key _ _ _ Hinv h' x Hh' Hx') as [_ <-].
Qed.

(** The place before [b] in its chain. *)
Lemma chain_back pl hp p l1 b l2 : chain pl hp p (l1 ++ b :: l2) -> hp b = endp p l1.
Proof. rewrite chain_app. by intros [_ (_&?&_)]. Qed.

Lemma filter_ne_split (b : Z) l1 l2 : NoDup (l1 ++ b :: l2) -> filter (fun x => x <> b) (l1 ++ b :: l2) = l1 ++ l2.
Proof.
  intros (_&Hd&[Hb _]%NoDup_cons)%NoDup_app. rewrite filter_app, filter_cons_False by tauto.
  rewrite !filter_ne_id; [done..|]. intros Hin. apply (Hd b Hin), list_elem_of_here.
Qed.

Lemma not_chained s l C b h :
  binv s l C -> s.(b_hprevp) b = HNull -> 0 <= h < NBUF_HASH -> b ∉ C h.
Proof.
  intros Hinv Hn Hh Hin.
  by apply (chain_nonnull s.(b_places) s.(b_hprevp) (HTab h) (C h) b); [|apply (bi_chain _ _ _ Hinv)|..].
Qed.

(** The node [b] of the chain [l1 ++ b :: l2] is unlinked: its own chain
    loses it, and a chain that shares no place with it is untouched. *)
Lemma unlink_other s C h h' l1 b l2 l :
  binv s l C -> 0 <= h < NBUF_HASH -> 0 <= h' < NBUF_HASH -> h <> h' -> C h = l1 ++ b :: l2 ->
  let pl := hstore s.(b_places) (s.(b_hprevp) b) (hnext s.(b_places) b) in
  let hp := set_head_back s.(b_hprevp) (hnext s.(b_places) b) (s.(b_hprevp) b) in
  chain (hstore pl (HNext b) None) (fset hp b HNull) (HTab h') (C h').
Proof.
  intros Hinv Hh Hh' Hne Hsplit. pose proof (bi_chain _ _ _ Hinv h Hh) as Hc. rewrite Hsplit in Hc.
  assert (Hdis : forall x, x ∈ C h' -> x ∉ l1 ++ b :: l2).
  { intros x Hx Hin. apply Hne. apply (bucket_unique s l C h h' x); try done. by rewrite Hsplit. }
  pose proof (chain_back _ _ _ _ _ _ Hc) as Hbk.
  assert (Hplace : forall q, q ∈ places (HTab h') (C h') -> q <> s.(b_hprevp) b /\ q <> HNext b).
  { intros q [->|(x&->&Hx)%list_elem_of_fmap]%elem_of_cons.
    - split; [|done]. rewrite Hbk. destruct (endp_elem (HTab h) l1) as [->|(y&->&_)%list_elem_of_fmap]; congruence.
    - specialize (Hdis x Hx). split; [|intros [= ->]; set_solver]. rewrite Hbk.
      destruct (endp_elem (HTab h) l1) as [->|(y&->&Hy)%list_elem_of_fmap]; [done|]. intros [= ->]. set_solver. }
  assert (Hnn : s.(b_hprevp) b <> HNull).
  { rewrite Hbk. destruct (endp_elem (HTab h) l1) as [->|(y&->&_)%list_elem_of_fmap]; done. }
  apply (chain_frame s.(b_places) s.(b_hprevp)); [by apply (bi_chain _ _ _ Hinv)|..].
  - intros q Hq. destruct (Hplace q Hq). by rewrite !hload_store, !decide_False.
  - intros x Hx. specialize (Hdis x Hx). rewrite fset_ne by set_solver.
    apply chain_app in Hc as [_ (_&_&Hc2)]. destruct l2 as [|z l2]; simpl in Hc2; [by rewrite Hc2|].
    destruct Hc2 as (->&_&_). simpl. apply fset_ne. set_solver.
Qed.

Lemma unlink_own s C h l1 b l2 l :
  binv s l C -> 0 <= h < NBUF_HASH -> C h = l1 ++ b :: l2 ->
  let pl := hstore s.(b_places) (s.(b_hprevp) b) (hnext s.(b_places) b) in
  let hp := set_head_back s.(b_hprevp) (hnext s.(b_places) b) (s.(b_hprevp) b) in
  chain (hstore pl (HNext b) None) (fset hp b HNull) (HTab h) (l1 ++ l2).
Proof.
  intros Hinv Hh Hsplit. pose proof (bi_chain _ _ _ Hinv h Hh) as Hc. rewrite Hsplit in Hc.
  pose proof (bi_nodup _ _ _ Hinv h Hh) as Hnd. rewrite Hsplit in Hnd.
  assert (Hb : b ∉ l1 ++ l2).
  { apply NoDup_app in Hnd as (_&Hd&[Hb _]%NoDup_cons). intros [Hin|Hin]%elem_of_app; [|done].
    apply (Hd b Hin), list_elem_of_here. }
  apply (chain_frame (hstore s.(b_places) (s.(b_hprevp) b) (hnext s.(b_places) b))
    (set_head_back s.(b_hprevp) (hnext s.(b_places) b) (s.(b_hprevp) b))).
  - apply (chain_remove s.(b_places) s.(b_hprevp)); [done..|]. by intros (?&?&?)%list_elem_of_fmap.
  - intros q Hq. rewrite hload_store, decide_False; [done| |done]. intros ->.
    apply elem_of_cons in Hq as [?|(x&[= ->]&?)%list_elem_of_fmap]; done.
  - intros x Hx. apply fset_ne. by intros ->.
Qed.

Lemma bhash_remove_inv s l C b :
  binv s l C -> 0 <= b < NBUF -> s.(b_refcnt) b = 0 ->
  let s' := bhash_remove s b in
  (exists C', binv s' l C') /\ s'.(b_hprevp) b = HNull /\
  (forall x, x <> b -> s'.(b_hprevp) x = HNull <-> s.(b_hprevp) x = HNull) /\
  s'.(b_valid) = s.(b_valid) /\ s'.(b_dev) = s.(b_dev) /\ s'.(b_blockno) = s.(b_blockno) /\
  s'.(b_refcnt) = s.(b_refcnt) /\ s'.(b_data) = s.(b_data).
Proof.
  intros Hinv Hb Hr. unfold bhash_remove. case_decide as Hn.
  { split_and!; try done. by exists C. }
  destruct (bi_out _ _ _ Hinv b Hb) as [?|Hin]; [done|]. set (h := bhash (b_dev s b) (b_blockno s b)) in *.
  assert (Hh : 0 <= h < NBUF_HASH) by (apply bhash_range, (bi_dev _ _ _ Hinv); done).
  apply list_elem_of_split in Hin as (l1&l2&Hsplit).
  pose proof (bi_nodup _ _ _ Hinv h Hh) as Hnd. rewrite Hsplit in Hnd.
  pose proof (bi_chain _ _ _ Hinv h Hh) as Hc. rewrite Hsplit in Hc.
  assert (Hself : hnext (hstore s.(b_places) (s.(b_hprevp) b) (hnext s.(b_places) b)) b = hnext s.(b_places) b).
  { change (hload (hstore s.(b_places) (s.(b_hprevp) b) (hnext s.(b_places) b)) (HNext b) = hnext s.(b_places) b).
    rewrite hload_store by done. by case_decide. }
  rewrite Hself. set (hp := set_head_back _ _ _).
  assert (Hnull : forall x, x <> b -> fset hp b HNull x = HNull <-> s.(b_hprevp) x = HNull).
  { intros x Hx. rewrite fset_ne by done. subst hp. unfold set_head_back. case_match eqn:Ho; [|done].
    rewrite fset_spec. case_decide as Hd; [|done]. subst x. split; [done|]. intros Hz. exfalso.
    apply chain_app in Hc as [_ (_&_&Hc2)]. destruct l2 as [|y l2]; simpl in Hc2; [congruence|].
    destruct Hc2 as (Hy&Hpy&_). simplify_eq. congruence. }
  split_and!; simpl; [|apply fset_eq|done..].
  exists (fun k => if decide (k = h) then l1 ++ l2 else C k).
  assert (Hsub : forall k x, x ∈ (if decide (k = h) then l1 ++ l2 else C k) -> x ∈ C k).
  { intros k x. case_decide as Hk; [|done]. rewrite Hk, Hsplit. set_solver. }
  constructor; simpl; try apply Hinv.
  - intros k Hk. case_decide as Hkh; [rewrite Hkh|].
    + by apply (unlink_own s C h l1 b l2 l).
    + by apply (unlink_other s C h k l1 b l2 l); [..|].
  - intros k Hk. case_decide; [|by apply (bi_nodup _ _ _ Hinv)].
    eapply sublist_NoDup; [exact Hnd|]. apply sublist_app; [done|]. by apply sublist_cons.
  - intros k x Hk Hx. apply (bi_key _ _ _ Hinv k x Hk). by apply Hsub.
  - intros k x y Hk Hx Hy. apply (bi_uniq _ _ _ Hinv k x y Hk); by apply Hsub.
  - intros x Hx. destruct (decide (x = b)) as [->|Hxb]; [left; apply fset_eq|].
    destruct (bi_out _ _ _ Hinv x Hx) as [?|Hin]; [left; by apply Hnull|right].
    case_decide as Hk; [|done]. rewrite Hk, Hsplit in Hin. set_solver.
  - intros x Hx Hrx. destruct (decide (x = b)) as [->|Hxb]; [done|].
    rewrite Hnull by done. by apply (bi_used _ _ _ Hinv).
Qed.



Definition claim (s : bcache) (b dev blk : Z) : bcache :=
  with_key s (fset s.(b_valid) b false) (fset s.(b_dev) b dev) (fset s.(b_blockno) b blk)
    (fset s.(b_refcnt) b 1).

Lemma bhash_insert_inv s l C b dev blk :
  binv s l C -> 0 <= b < NBUF -> s.(b_hprevp) b = HNull -> 0 <= dev -> (forall x, ~ cached s dev blk x) ->
  let s' := bhash_insert (claim s b dev blk) b in
  (exists C', binv s' l C') /\ s'.(b_hprevp) b <> HNull /\
  (forall x, x <> b -> s'.(b_hprevp) x = HNull <-> s.(b_hprevp) x = HNull).
Proof.
  intros Hinv Hb Hn Hd Hnone. unfold bhash_insert, with_hash, claim, with_key. simpl. rewrite !fset_eq.
  pose proof (bhash_range dev blk Hd) as Hh. set (h := bhash dev blk) in *.
  pose proof (bi_chain _ _ _ Hinv h Hh) as Hc.
  assert (HbC : forall k, 0 <= k < NBUF_HASH -> b ∉ C k) by (intros k Hk; by apply (not_chained s l)).
  set (pl1 := mkPlaces (htab (b_places s)) (fset (hnext (b_places s)) b (htab (b_places s) h))).
  set (hp1 := set_head_back (b_hprevp s) (htab (b_places s) h) (HNext b)).
  assert (Hhd : forall y, htab (b_places s) h = Some y -> y ∈ C h).
  { intros y Hy. destruct (C h) as [|z r] eqn:E; simpl in Hc; [congruence|].
    destruct Hc as (Hz&_&_). simplify_eq. apply list_elem_of_here. }
  assert (Hnull : forall x, x <> b -> fset hp1 b (HTab h) x = HNull <-> s.(b_hprevp) x = HNull).
  { intros x Hx. rewrite fset_ne by done. subst hp1. unfold set_head_back. case_match eqn:Ho; [|done].
    rewrite fset_spec. case_decide as Hd'; [|done]. subst x. split; [done|]. intros Hz. exfalso.
    by apply (not_chained s l C _ h Hinv Hz Hh), Hhd. }
  split_and!; [|done|done].
  exists (fun k => if decide (k = h) then b :: C h else C k).
  destruct Hinv as [H1 H2 H3 H4 H5 H6 H7 H8 H9 H10 H11]. constructor; simpl; auto.
  - intros k Hk. case_decide as Hkh; [rewrite Hkh|].
    + apply (chain_insert s.(b_places) s.(b_hprevp) (HTab h) (C h) b); try done; [by apply HbC| |by apply H5].
      by intros (?&?&?)%list_elem_of_fmap.
    + apply (chain_frame s.(b_places) s.(b_hprevp)); [by apply H4|..].
      * intros q Hq. destruct q as [|k'|y]; simpl; [done|..].
        -- apply fset_ne. intros ->. apply elem_of_cons in Hq as [[= ->]|(?&?&?)%list_elem_of_fmap]; done.
        -- apply fset_ne. intros ->. apply elem_of_cons in Hq as [?|(?&[= ->]&Hx)%list_elem_of_fmap]; [done|].
           by apply (HbC k).
      * intros x Hx. rewrite fset_ne by (intros ->; by apply (HbC k)). unfold hp1, set_head_back.
        case_match eqn:Ho; [|done]. apply fset_ne. intros ->. apply Hkh.
        destruct (H6 k z Hk Hx) as [_ <-]. by destruct (H6 h z Hh (Hhd z eq_refl)) as [_ <-].
  - intros k Hk. case_decide; [|by apply H5]. apply NoDup_cons. split; [by apply HbC|by apply H5].
  - intros k x Hk Hx. case_decide as Hkh; [apply elem_of_cons in Hx as [->|Hx]|].
    + rewrite !fset_eq. by subst.
    + rewrite !fset_ne by (intros ->; by apply (HbC h)). subst k. by apply H6.
    + rewrite !fset_ne by (intros ->; by apply (HbC k)). by apply H6.
  - intros k x y Hk Hx Hy. assert (Hold : forall z, z ∈ C k -> fset s.(b_dev) b dev z = s.(b_dev) z /\
      fset s.(b_blockno) b blk z = s.(b_blockno) z).
    { intros z Hz. rewrite !fset_ne by (intros ->; by apply (HbC k)). done. }
    assert (Hclash : forall z, z ∈ C h -> s.(b_dev) z = dev -> s.(b_blockno) z = blk -> False).
    { intros z Hz Hzd Hzb. apply (Hnone z). destruct (H6 h z Hh Hz) as [? _]. split_and!; try done; try lia.
      intros Hz'. by apply (chain_nonnull s.(b_places) s.(b_hprevp) (HTab h) (C h) z); [|apply H4|..]. }
    case_decide as Hkh; [subst k; apply elem_of_cons in Hx as [->|Hx]; apply elem_of_cons in Hy as [->|Hy]|].
    + done.
    + destruct (Hold y Hy) as [-> ->]. rewrite !fset_eq. intros. exfalso. eauto.
    + destruct (Hold x Hx) as [-> ->]. rewrite !fset_eq. intros. exfalso. eauto.
    + destruct (Hold x Hx) as [-> ->], (Hold y Hy) as [-> ->]. by apply (H7 h).
    + destruct (Hold x Hx) as [-> ->], (Hold y Hy) as [-> ->]. by apply (H7 k).
  - intros x Hx. destruct (decide (x = b)) as [->|Hxb].
    + right. rewrite !fset_eq. fold h. rewrite decide_True by done. apply list_elem_of_here.
    + rewrite Hnull by done. rewrite !fset_ne by done. destruct (H8 x Hx) as [?|Hin]; [by left|right].
      case_decide as Hk; [|done]. rewrite Hk in Hin. by apply list_elem_of_further.
  - intros x Hx Hr. destruct (decide (x = b)) as [->|Hxb]; [by rewrite fset_eq|].
    rewrite Hnull by done. rewrite fset_ne in Hr by done. by apply H9.
  - intros x Hx. rewrite fset_spec. case_decide; [lia|by apply H10].
  - intros x Hx. rewrite fset_spec. case_decide; [done|by apply H11].
Qed.

(** ** The operations *)

Lemma with_refcnt_inv s l C b r :
  binv s l C -> (s.(b_hprevp) b <> HNull \/ r = 0) -> 0 <= r < 2 ^ 32 -> binv (with_refcnt s (fset s.(b_refcnt) b r)) l C.
Proof.
  intros [] Hn Hr. constructor; simpl; auto.
  - intros x Hx Hrx. rewrite fset_spec in Hrx. case_decide; [subst|by auto]. by destruct Hn.
  - intros x Hx. rewrite fset_spec. case_decide; auto.
Qed.

Lemma with_data_inv s l C v d : binv s l C -> binv (with_data s v d) l C.
Proof. by intros []. Qed.

Lemma with_store_inv s l C st : binv s l C -> binv (with_store s st) l C.
Proof. by intros []. Qed.

Lemma disk_rw_inv s l C b w : binv s l C -> binv (xv6fs_disk_rw s b w) l C.
Proof.
  intros Hi. unfold xv6fs_disk_rw. destruct w; case_match; auto using with_store_inv, with_data_inv.
Qed.

(** A cached block stays where it was, with what it held. *)
Definition keeps (s s' : bcache) (x : Z) : Prop :=
  s'.(b_dev) x = s.(b_dev) x /\ s'.(b_blockno) x = s.(b_blockno) x /\ s'.(b_valid) x = s.(b_valid) x /\
  s'.(b_data) x = s.(b_data) x /\ s'.(b_refcnt) x = s.(b_refcnt) x /\
  (s'.(b_hprevp) x = HNull <-> s.(b_hprevp) x = HNull).

(** The buffer [bget] recycles: the least recently used one that nobody
    holds. *)
Definition lru_victim (s : bcache) (l : list Z) : option Z :=
  last (filter (fun x => s.(b_refcnt) x = 0) l).

Lemma bget_spec s l C dev blk :
  binv s l C -> 0 <= dev ->
  match bget s dev blk with
  | Some (b, s') =>
      (exists C', binv s' l C') /\ cached s' dev blk b /\ (forall x, x <> b -> keeps s s' x) /\
      (cached s dev blk b /\ s' = xv6bpin s b \/
       (forall x, ~ cached s dev blk x) /\ lru_victim s l = Some b /\
         s'.(b_valid) b = false /\ s'.(b_refcnt) b = 1)
  | None => (forall x, ~ cached s dev blk x) /\ forall x, 0 <= x < NBUF -> s.(b_refcnt) x <> 0
  end.
Proof using All.
  intros Hinv Hd. unfold bget. pose proof (bhash_find_spec s l C Hinv dev blk Hd) as Hf.
  destruct (bhash_find s dev blk) as [b|].
  - split_and!; [exists C; apply with_refcnt_inv; [done|left; apply Hf|apply u32_range]|done| |by left].
    intros x Hx. unfold keeps. simpl. by rewrite fset_ne.
  - assert (Hscan : lru_scan (S (Z.to_nat NBUF)) s (s.(b_prev) NBUF) = lru_victim s l).
    { apply (lru_scan_spec s NBUF l); [apply Hinv|done| |].
      - intros x Hx%(bi_lru_all _ _ _ Hinv). lia.
      - apply Nat.lt_succ_r, NoDup_bounded; [lia|apply Hinv|intros x; apply (bi_lru_all _ _ _ Hinv)]. }
    rewrite Hscan. unfold lru_victim.
    destruct (last _) as [b|] eqn:Hlast.
    + assert (Hbl : s.(b_refcnt) b = 0 /\ b ∈ l).
      { apply last_Some in Hlast as [l' Hl']. apply (list_elem_of_filter (fun x => s.(b_refcnt) x = 0)).
        rewrite Hl'. set_solver. }
      destruct Hbl as [Hb0 Hbl]. apply (bi_lru_all _ _ _ Hinv) in Hbl as Hb.
      destruct (bhash_remove_inv s l C b Hinv Hb Hb0) as ((C1&Hi1)&Hn1&Hnull1&Hv&Hdv&Hbk&Hrc&Hdt).
      set (s1 := bhash_remove s b) in *.
      assert (Hnone1 : forall x, ~ cached s1 dev blk x).
      { intros x (Hx&Hnx&Hxd&Hxb). destruct (decide (x = b)) as [->|Hxb']; [done|].
        apply (Hf x). split_and!; try lia; [by rewrite <- Hnull1|congruence..]. }
      destruct (bhash_insert_inv s1 l C1 b dev blk Hi1 Hb Hn1 Hd Hnone1) as ((C2&Hi2)&Hn2&Hnull2).
      split_and!; [by exists C2|..].
      * split_and!; [lia|lia|done|..]; apply fset_eq.
      * intros x Hx. split_and!; [simpl; rewrite ?fset_ne by done; congruence..|].
        rewrite <- Hnull1, <- Hnull2 by done. done.
      * right. split_and!; [done|done|apply fset_eq|apply fset_eq].
    + split; [done|]. intros x Hx Hrx. apply last_None in Hlast.
      assert (x ∈ @nil Z) as ?%not_elem_of_nil; [|done]. rewrite <- Hlast.
      apply list_elem_of_filter. split; [done|]. by apply (bi_lru_all _ _ _ Hinv).
Qed.

Lemma lru_remove_eq s b : s.(b_next) b <> b ->
  lru_remove s b = with_links s (fset s.(b_next) (s.(b_prev) b) (s.(b_next) b))
                     (fset s.(b_prev) (s.(b_next) b) (s.(b_prev) b)).
Proof. intros Hne. unfold lru_remove. simpl. by rewrite (fset_ne _ _ _ b) by congruence. Qed.

Lemma with_links_inv s l C l' next prev :
  binv s l C -> dl next prev NBUF l' NBUF -> NoDup l' -> (forall x, x ∈ l' <-> 0 <= x < NBUF) ->
  binv (with_links s next prev) l' C.
Proof. intros [] ???. by constructor. Qed.

(** Releasing keeps the invariant; the last release makes the buffer the most
    recently used one. *)
Lemma brelse_spec s l C b :
  binv s l C -> 0 <= b < NBUF -> s.(b_hprevp) b <> HNull -> 0 < s.(b_refcnt) b ->
  let s' := xv6brelse s b in
  (forall x, x <> b -> keeps s s' x) /\ s'.(b_refcnt) b = s.(b_refcnt) b - 1 /\
  s'.(b_data) = s.(b_data) /\ s'.(b_valid) = s.(b_valid) /\ s'.(b_hprevp) = s.(b_hprevp) /\
  s'.(b_dev) = s.(b_dev) /\ s'.(b_blockno) = s.(b_blockno) /\
  if s.(b_refcnt) b =? 1
  then exists l1 l2, l = l1 ++ b :: l2 /\ binv s' (b :: l1 ++ l2) C
  else binv s' l C.
Proof using All.
  intros Hinv Hb Hn Hr. pose proof (bi_ref _ _ _ Hinv b Hb). unfold xv6brelse.
  set (s0 := with_refcnt s _).
  assert (Hi0 : binv s0 l C) by (apply with_refcnt_inv; [done|by left|apply u32_range]).
  assert (Hr0 : s0.(b_refcnt) b = s.(b_refcnt) b - 1) by (simpl; rewrite fset_eq; apply u32_small; lia).
  assert (Hk : forall x, x <> b -> keeps s s0 x) by (intros x Hx; unfold keeps; simpl; by rewrite fset_ne).
  rewrite Hr0. destruct (Z.eqb_spec (s.(b_refcnt) b) 1) as [H1|H1].
  2: { rewrite (proj2 (Z.eqb_neq _ 0)) by lia. split_and!; try done. }
  rewrite (proj2 (Z.eqb_eq _ 0)) by lia. split_and!; try done.
  assert (Hbl : b ∈ l) by (by apply (bi_lru_all _ _ _ Hinv)).
  apply list_elem_of_split in Hbl as (l1&l2&Hl). exists l1, l2. split; [done|].
  pose proof (bi_lru _ _ _ Hi0) as Hd. pose proof (bi_lru_nodup _ _ _ Hi0) as Hnd. rewrite Hl in Hd, Hnd.
  assert (HNl : NBUF ∉ l1 ++ b :: l2) by (rewrite <- Hl; intros ?%(bi_lru_all _ _ _ Hinv); lia).
  assert (Hnb : s0.(b_next) b <> b).
  { apply dl_app in Hd as [_ Hd]. rewrite (dl_next_first _ _ _ _ _ Hd). destruct l2 as [|y l2]; simpl; [lia|].
    intros ->. apply NoDup_app in Hnd as (_&_&[Hnb _]%NoDup_cons). apply Hnb, list_elem_of_here. }
  pose proof (dl_remove _ _ _ l1 b l2 _ Hd ltac:(apply NoDup_cons; done) HNl) as Hd1.
  assert (Hnd1 : NoDup (b :: l1 ++ l2)).
  { apply NoDup_app in Hnd as (Hn1&Hdis&[Hb2 Hn2]%NoDup_cons). apply NoDup_cons. split; [|apply NoDup_app; set_solver].
    intros [Hin|Hin]%elem_of_app; [apply (Hdis b Hin), list_elem_of_here|done]. }
  rewrite lru_remove_eq by done. apply NoDup_cons in Hnd1 as [Hb1 Hnd1]. apply (with_links_inv s0 l C); [done|..].
  - apply (dl_insert _ _ NBUF (l1 ++ l2) NBUF b Hd1); try lia; [apply NoDup_cons; set_solver|set_solver|done].
  - by apply NoDup_cons.
  - intros x. rewrite <- (bi_lru_all _ _ _ Hinv), Hl. set_solver.
Qed.

(** ** Start-up *)

(** The first [k] buffers are linked. *)
Record init_part (s : bcache) (k : Z) : Prop := {
  ip_dl : dl s.(b_next) s.(b_prev) NBUF (reverse (seqZ 0 k)) NBUF;
  ip_tab : forall h, 0 <= h < NBUF_HASH -> htab s.(b_places) h = None;
  ip_buf : forall x, 0 <= x < k ->
    s.(b_hprevp) x = HNull /\ s.(b_refcnt) x = 0 /\ s.(b_valid) x = false /\ 0 <= s.(b_dev) x;
}.

Lemma seqZ_snoc n : 0 <= n -> seqZ 0 (n + 1) = seqZ 0 n ++ [n].
Proof. intros. rewrite seqZ_app by lia. by rewrite Z.add_0_l. Qed.

Lemma init_buf_part s k : 0 <= k < NBUF -> init_part s k -> init_part (init_buf s k) (k + 1).
Proof.
  intros Hk [Hd Ht Hb]. constructor; simpl.
  - rewrite seqZ_snoc, reverse_snoc by lia.
    assert (Hin : forall x, x ∈ reverse (seqZ 0 k) -> x < k) by (intros x ?%elem_of_reverse%elem_of_seqZ; lia).
    apply (dl_insert s.(b_next) s.(b_prev) NBUF (reverse (seqZ 0 k)) NBUF k); try lia; try done.
    + apply NoDup_cons. split; [intros ?%Hin; lia|rewrite reverse_Permutation; apply NoDup_seqZ].
    + intros ?%Hin. lia.
    + intros ?%Hin. lia.
  - done.
  - intros x Hx. rewrite !fset_spec. case_decide; [done|]. apply Hb. lia.
Qed.

Lemma init_loop s k n : 0 <= k -> k + Z.of_nat n = NBUF -> init_part s k ->
  init_part (foldl init_buf s (seqZ k (Z.of_nat n))) NBUF.
Proof.
  revert s k. induction n as [|n IH]; intros s k Hk Hn Hp.
  - simpl. by replace NBUF with k by lia.
  - rewrite seqZ_cons by lia. simpl. replace (Z.pred (Z.of_nat (S n))) with (Z.of_nat n) by lia.
    rewrite <- Z.add_1_r. apply IH; [lia|lia|]. apply init_buf_part; [lia|done].
Qed.

Lemma xv6bio_init_inv s : binv (xv6bio_init s) (reverse (seqZ 0 NBUF)) (fun _ => []).
Proof using All.
  unfold xv6bio_init. set (s0 := with_hash _ _ _).
  assert (Hp : init_part (foldl init_buf s0 (seqZ 0 NBUF)) NBUF).
  { replace (seqZ 0 NBUF) with (seqZ 0 (Z.of_nat (Z.to_nat NBUF))) by (f_equal; lia). apply init_loop; [lia|lia|].
    constructor; simpl.
    - by rewrite !fset_eq.
    - intros h Hh. rewrite (proj2 (Z.leb_le _ _)), (proj2 (Z.ltb_lt _ _)) by lia. done.
    - lia. }
  destruct Hp as [Hd Ht Hb]. constructor; auto.
  - rewrite reverse_Permutation; apply NoDup_seqZ.
  - intros x. rewrite elem_of_reverse, elem_of_seqZ. lia.
  - intros. apply NoDup_nil; done.
  - by intros ? ? ? ?%not_elem_of_nil.
  - by intros ? ? ? ? ?%not_elem_of_nil.
  - intros x Hx. left. by apply Hb.
  - intros x Hx Hr. by destruct (Hb x Hx) as (_&?&_).
  - intros x Hx. destruct (Hb x Hx) as (_&->&_). lia.
  - intros x Hx. apply Hb. lia.
Qed.
End bio.

(** ** What the cache relies on: a disk that keeps what it is given *)

(** [dread st blk]: the block on the disk. *)
Definition dread (st : storage) (name : list Z) (blk : Z) : option (list Z) :=
  storage_read_blocks st name (u64 (blk * SECTORS_PER_BLOCK)) SECTORS_PER_BLOCK.

Class DiskOk (name : list Z) (nblk : Z) (ok : storage -> Prop) : Prop := {
  disk_read st blk : ok st -> 0 <= blk < nblk ->
    exists d, dread st name blk = Some d /\ zlen d = XV6FS_BSIZE;
  disk_write st blk d : ok st -> 0 <= blk < nblk -> zlen d = XV6FS_BSIZE ->
    exists st', storage_write_blocks st name (u64 (blk * SECTORS_PER_BLOCK)) d SECTORS_PER_BLOCK = Some st' /\
      ok st' /\ dread st' name blk = Some d /\
      forall blk', 0 <= blk' < nblk -> blk' <> blk -> dread st' name blk' = dread st name blk';
  (** one command for [n] blocks gives their contents in order *)
  disk_read_run st blk n : ok st -> 0 <= blk -> 0 < n -> blk + n <= nblk ->
    exists d, storage_read_blocks st name (u64 (blk * SECTORS_PER_BLOCK)) (u64 (n * SECTORS_PER_BLOCK)) = Some d /\
      forall i, 0 <= i < n -> dread st name (blk + i) = Some (slice d (i * XV6FS_BSIZE) XV6FS_BSIZE);
}.

(** A memory device of enough sectors is such a disk. *)
Definition memory_disk (name : list Z) (nblk : Z) (st : storage) : Prop :=
  exists dev, storage_find_device st name = Some dev /\
    (dev.(d_read) = Some MemoryDriver /\ dev.(d_write) = Some MemoryDriver) /\ dev.(d_read_only) = false /\
    (0 < zget st.(s_base) dev.(d_ctx) /\ zget st.(s_base) dev.(d_ctx) + 512 * dev.(d_block_count) <= 2 ^ 64) /\
    2 * nblk <= dev.(d_block_count).

Lemma memory_dread st name dev blk :
  storage_find_device st name = Some dev ->
  dev.(d_read) = Some MemoryDriver /\ dev.(d_write) = Some MemoryDriver -> dev.(d_read_only) = false ->
  0 < zget st.(s_base) dev.(d_ctx) /\ zget st.(s_base) dev.(d_ctx) + 512 * dev.(d_block_count) <= 2 ^ 64 ->
  0 <= blk -> 2 * blk + 2 <= dev.(d_block_count) ->
  dread st name blk = Some (read_mem st.(s_mem) (zget st.(s_base) dev.(d_ctx) + 1024 * blk) 1024).
Proof.
  intros Hf Hd Hro Hb H0 H1. unfold dread, XV6FS_BSIZE.
  change (1024 / 512) with 2. rewrite u64_small by lia.
  rewrite (memory_read_ok st name dev) by (done || lia). do 2 f_equal. lia.
Qed.

#[export] Instance memory_disk_ok name nblk : DiskOk name nblk (memory_disk name nblk).
Proof.
  split.
  - intros st blk (dev&Hf&Hd&Hro&Hb&Hn) Hblk. eexists.
    split; [apply (memory_dread st name dev); done || lia|]. by apply zlen_read_mem.
  - intros st blk d (dev&Hf&Hd&Hro&Hb&Hn) Hblk Hlen. unfold XV6FS_BSIZE in Hlen.
    unfold XV6FS_BSIZE. change (1024 / 512) with 2. rewrite u64_small by lia.
    eexists. split; [apply (memory_write_ok st name dev); done || lia|].
    set (st' := mkStorage _ _ _).
    assert (Hf' : storage_find_device st' name = Some dev) by done.
    split_and!; [by exists dev|..].
    + rewrite (memory_dread st' name dev) by (done || lia). subst st'. simpl.
      replace (512 * (blk * 2)) with (1024 * blk) by lia. rewrite <- Hlen. f_equal. apply read_write_mem.
    + intros blk' Hblk' Hne. rewrite (memory_dread st' name dev), (memory_dread st name dev) by (done || lia).
      f_equal. apply list_fmap_ext. intros i x Hx. apply lookup_seqZ in Hx as [-> ?]. subst st'. simpl.
      unfold write_mem. rewrite Hlen.
      destruct (Z.leb_spec (zget (s_base st) (d_ctx dev) + 512 * (blk * 2)) (zget (s_base st) (d_ctx dev) + 1024 * blk' + (0 + Z.of_nat i))),
        (Z.ltb_spec (zget (s_base st) (d_ctx dev) + 1024 * blk' + (0 + Z.of_nat i)) (zget (s_base st) (d_ctx dev) + 512 * (blk * 2) + 1024));
        simpl; done || lia.
  - intros st blk n (dev&Hf&Hd&Hro&Hb&Hn) H0 Hpos Hend. unfold XV6FS_BSIZE.
    change (1024 / 512) with 2. rewrite !u64_small by lia.
    eexists. split; [apply (memory_read_ok st name dev); done || lia|]. intros i Hi.
    rewrite (memory_dread st name dev) by (done || lia). f_equal. apply zlist_ext.
    + rewrite zlen_slice; rewrite ?zlen_read_mem; lia.
    + rewrite zlen_read_mem by lia. intros j Hj.
      rewrite zget_slice by (rewrite ?zlen_read_mem; lia). rewrite !zget_read_mem by lia. f_equal. lia.
Qed.

(** ** The cache is transparent *)
Section transparent.
Context (NBUF NBUF_HASH : Z) (HNB : 0 < NBUF) (HNH : 0 < NBUF_HASH).
Context (dev : Z) (Hdev : 0 <= dev) (nblk : Z) (ok : storage -> Prop).

Definition disk_of (s : bcache) (blk : Z) : option (list Z) := dread s.(b_store) s.(b_devname) blk.

(** [V blk] is what block [blk] holds as far as its users can tell. *)
Record cinv (name : list Z) (s : bcache) (V : Z -> list Z) : Prop := {
  cv_inv : exists l C, binv NBUF NBUF_HASH s l C;
  cv_ok : ok s.(b_store) /\ s.(b_devname) = name;
  cv_range : forall x, 0 <= x < NBUF -> s.(b_hprevp) x <> HNull ->
    s.(b_dev) x = dev /\ 0 <= s.(b_blockno) x < nblk;
  cv_cached : forall x blk, cached NBUF s dev blk x -> s.(b_valid) x = true ->
    s.(b_data) x = V blk /\ zlen (s.(b_data) x) = XV6FS_BSIZE;
  cv_disk : forall blk, 0 <= blk < nblk ->
    (forall x, cached NBUF s dev blk x -> s.(b_valid) x = false) -> disk_of s blk = Some (V blk);
  (** a buffer nobody holds is clean *)
  cv_clean : forall x blk, cached NBUF s dev blk x -> s.(b_valid) x = true -> s.(b_refcnt) x = 0 ->
    disk_of s blk = Some (V blk);
}.

Context (name : list Z) `{!DiskOk name nblk ok}.

(** Buffers that keep their fields stay cached for the same block. *)
Lemma keeps_cached s s' x blk : keeps s s' x -> cached NBUF s dev blk x <-> cached NBUF s' dev blk x.
Proof. unfold cached. intros (->&->&_&_&_&->). done. Qed.

Lemma bget_store s blk b s' :
  bget NBUF NBUF_HASH s dev blk = Some (b, s') -> s'.(b_store) = s.(b_store) /\ s'.(b_devname) = s.(b_devname).
Proof.
  unfold bget, bhash_insert, bhash_remove. intros He.
  destruct (bhash_find _ _ _ _ _); [by simplify_eq|]. destruct (lru_scan _ _ _ _); [|done].
  simplify_eq. by case_decide.
Qed.

(** The buffer is the one for [blk], it is held, and nothing anyone can see
    changed. *)
Lemma bget_transparent s V blk b s' :
  cinv name s V -> 0 <= blk < nblk -> bget NBUF NBUF_HASH s dev blk = Some (b, s') ->
  (forall x, 0 <= x < NBUF -> s.(b_refcnt) x < 2 ^ 32 - 1) ->
  cinv name s' V /\ cached NBUF s' dev blk b /\ 0 < s'.(b_refcnt) b /\
  (s'.(b_refcnt) b = 1 -> s'.(b_valid) b = true -> disk_of s' blk = Some (V blk)).
Proof using All.
  intros Hc Hblk Hget Hmax. pose proof (cv_inv _ _ _ Hc) as (l&C&Hinv).
  destruct (bget_store _ _ _ _ Hget) as [Hst Hnm].
  pose proof (bget_spec NBUF NBUF_HASH HNB HNH s l C dev blk Hinv Hdev) as Hs. rewrite Hget in Hs.
  destruct Hs as ((C'&Hi')&Hcb&Hkeep&Hcase).
  assert (Hdisk : forall k, disk_of s' k = disk_of s k) by (intros k; unfold disk_of; by rewrite Hst, Hnm).
  pose proof Hcb as (Hb&Hbn&Hbd&Hbb).
  assert (Hpos : 0 < s'.(b_refcnt) b).
  { destruct Hcase as [[Hcb0 ->]|(_&_&_&->)]; [|lia]. simpl. rewrite fset_eq, u32_small.
    - pose proof (bi_ref _ _ _ _ _ Hinv b Hb). lia.
    - pose proof (bi_ref _ _ _ _ _ Hinv b Hb). specialize (Hmax b Hb). lia. }
  (* what [b] held before, if anything, is on the disk or still in [b] *)
  assert (Hold : forall k, cached NBUF s dev k b -> s.(b_valid) b = true ->
    disk_of s k = Some (V k) \/ cached NBUF s' dev k b /\ s'.(b_valid) b = true /\ s'.(b_data) b = s.(b_data) b).
  { intros k Hk Hv. destruct Hcase as [[Hcb0 ->]|(_&Hvic&_&_)]; [by right|left].
    apply (cv_clean _ _ _ Hc b k Hk Hv). unfold lru_victim in Hvic. apply last_Some in Hvic as [l' Hl'].
    assert (Hin : b ∈ filter (fun x => s.(b_refcnt) x = 0) l) by (rewrite Hl'; set_solver).
    by apply list_elem_of_filter in Hin as [? _]. }
  assert (Hcl : s'.(b_refcnt) b = 1 -> s'.(b_valid) b = true -> disk_of s' blk = Some (V blk)).
  { intros Hr Hv. rewrite Hdisk. destruct Hcase as [[Hcb0 ->]|(_&_&?&_)]; [|congruence].
    apply (cv_clean _ _ _ Hc b blk Hcb0 Hv). pose proof (bi_ref _ _ _ _ _ Hinv b Hb). specialize (Hmax b Hb).
    simpl in Hr. rewrite fset_eq, u32_small in Hr by lia. lia. }
  split; [|done]. constructor.
  - by exists l, C'.
  - rewrite Hst, Hnm. apply Hc.
  - intros x Hx Hn. destruct (decide (x = b)) as [->|Hxb]; [by rewrite Hbd, Hbb|].
    destruct (Hkeep x Hxb) as (->&->&_&_&_&Hnull). apply (cv_range _ _ _ Hc); [done|]. by rewrite <- Hnull.
  - intros x k Hk Hv. destruct (decide (x = b)) as [->|Hxb].
    + destruct Hcase as [[Hcb0 ->]|(_&_&Hv'&_)]; [|congruence]. by apply (cv_cached _ _ _ Hc).
    + pose proof (Hkeep x Hxb) as Hx. apply (keeps_cached _ _ _ _ Hx) in Hk.
      destruct Hx as (_&_&Hvx&->&_&_). apply (cv_cached _ _ _ Hc); congruence.
  - intros k Hk Hno. rewrite Hdisk.
    destruct (decide (cached NBUF s dev k b /\ s.(b_valid) b = true)) as [[Hkb Hv]|Hnb].
    + destruct (Hold k Hkb Hv) as [?|(Hkb'&Hv'&_)]; [done|]. rewrite (Hno b Hkb') in Hv'. done.
    + apply (cv_disk _ _ _ Hc k Hk). intros x Hx. destruct (decide (x = b)) as [->|Hxb].
      * apply not_true_is_false. tauto.
      * pose proof (Hkeep x Hxb) as Hkx. apply (keeps_cached _ _ _ _ Hkx) in Hx.
        destruct Hkx as (_&_&<-&_). by apply Hno.
  - intros x k Hk Hv Hr. rewrite Hdisk. destruct (decide (x = b)) as [->|Hxb]; [lia|].
    pose proof (Hkeep x Hxb) as Hx. apply (keeps_cached _ _ _ _ Hx) in Hk.
    destruct Hx as (_&_&Hvx&_&Hrx&_). apply (cv_clean _ _ _ Hc x k); congruence.
Qed.

(** Changing only the contents, validity or reference count of buffers. *)
Lemma cached_same s s' blk x :
  s'.(b_hprevp) = s.(b_hprevp) -> s'.(b_dev) = s.(b_dev) -> s'.(b_blockno) = s.(b_blockno) ->
  cached NBUF s' dev blk x <-> cached NBUF s dev blk x.
Proof. unfold cached. by intros -> -> ->. Qed.

Lemma cached_inj s V x blk blk' : cinv name s V -> cached NBUF s dev blk x -> cached NBUF s dev blk' x -> blk = blk'.
Proof. intros _ (_&_&_&<-) (_&_&_&<-). done. Qed.

Lemma cached_fun s V x y blk : cinv name s V -> cached NBUF s dev blk x -> cached NBUF s dev blk y -> x = y.
Proof using HNB HNH Hdev.
  intros Hc. destruct (cv_inv _ _ _ Hc) as (l&C&Hi). by apply (cached_unique NBUF NBUF_HASH HNB HNH s l C).
Qed.

(** Filling an invalid buffer with what the disk holds. *)
Lemma fill_transparent s V blk b :
  cinv name s V -> cached NBUF s dev blk b -> s.(b_valid) b = false ->
  cinv name (with_data s (fset s.(b_valid) b true) (fset s.(b_data) b (V blk))) V.
Proof using All.
  intros Hc Hcb Hv. pose proof Hcb as (Hb&Hbn&Hbd&Hbb).
  destruct (cv_range _ _ _ Hc b Hb Hbn) as [_ Hr]. rewrite Hbb in Hr.
  assert (Hd : disk_of s blk = Some (V blk)).
  { apply (cv_disk _ _ _ Hc blk Hr). intros x Hx. by rewrite (cached_fun s V x b blk Hc Hx Hcb). }
  destruct (disk_read s.(b_store) blk (proj1 (cv_ok _ _ _ Hc)) Hr) as (d&Hd'&Hlen).
  unfold disk_of in Hd. rewrite (proj2 (cv_ok _ _ _ Hc)), Hd' in Hd. injection Hd as ->.
  constructor; simpl.
  - destruct (cv_inv _ _ _ Hc) as (l&C&Hi). exists l, C. by apply with_data_inv.
  - apply Hc.
  - apply Hc.
  - intros x k Hk. rewrite !fset_spec. case_decide as Hx; [subst x|by apply (cv_cached _ _ _ Hc)].
    intros _. by rewrite (cached_inj s V b k blk Hc Hk Hcb).
  - intros k Hk Hno. apply (cv_disk _ _ _ Hc k Hk). intros x Hx. specialize (Hno x Hx).
    rewrite fset_spec in Hno. by case_decide.
  - intros x k Hk. rewrite fset_spec. case_decide as Hx; [subst x|by apply (cv_clean _ _ _ Hc)].
    intros _ _. rewrite (cached_inj s V b k blk Hc Hk Hcb). unfold disk_of; simpl.
    by rewrite (proj2 (cv_ok _ _ _ Hc)).
Qed.

(** [xv6bread] gives the block's contents. *)
Lemma bread_transparent s V blk b s' :
  cinv name s V -> 0 <= blk < nblk -> xv6bread NBUF NBUF_HASH s dev blk = Some (b, s') ->
  (forall x, 0 <= x < NBUF -> s.(b_refcnt) x < 2 ^ 32 - 1) ->
  cinv name s' V /\ cached NBUF s' dev blk b /\ 0 < s'.(b_refcnt) b /\
  s'.(b_valid) b = true /\ s'.(b_data) b = V blk.
Proof using All.
  unfold xv6bread. intros Hc Hblk Hb Hmax.
  destruct (bget NBUF NBUF_HASH s dev blk) as [[b0 s1]|] eqn:Hget; [|done]. simpl in Hb.
  destruct (bget_transparent s V blk b0 s1 Hc Hblk Hget Hmax) as (Hc1&Hcb&Hpos&Hcl).
  destruct (s1.(b_valid) b0) eqn:Hv; simplify_eq.
  - split_and!; [done..|]. by apply (cv_cached _ _ _ Hc1).
  - pose proof (fill_transparent s1 V blk b Hc1 Hcb Hv) as Hc2.
    pose proof Hcb as (Hbr&Hbn&Hbd&Hbb).
    assert (Hrd : storage_read_blocks s1.(b_store) s1.(b_devname) (u64 (s1.(b_blockno) b * SECTORS_PER_BLOCK))
      SECTORS_PER_BLOCK = Some (V blk)).
    { rewrite Hbb. apply (cv_disk _ _ _ Hc1 blk Hblk). intros x Hx.
      by rewrite (cached_fun s1 V x b blk Hc1 Hx Hcb). }
    unfold xv6fs_disk_rw. rewrite Hrd. simpl. rewrite !fset_eq. done.
Qed.

(** A client that holds the buffer changes its contents. *)
Lemma store_transparent s V blk b d :
  cinv name s V -> cached NBUF s dev blk b -> s.(b_valid) b = true -> 0 < s.(b_refcnt) b ->
  zlen d = XV6FS_BSIZE ->
  cinv name (with_data s s.(b_valid) (fset s.(b_data) b d)) (fset V blk d).
Proof using All.
  intros Hc Hcb Hv Hr Hlen.
  assert (Hne : forall x k, cached NBUF s dev k x -> x <> b -> k <> blk).
  { intros x k Hx Hxb ->. apply Hxb. by apply (cached_fun s V x b blk). }
  constructor; simpl; try apply Hc.
  - destruct (cv_inv _ _ _ Hc) as (l&C&Hi). exists l, C. by apply with_data_inv.
  - intros x k Hk Hvx. rewrite fset_spec. case_decide as Hx.
    + subst x. rewrite (cached_inj s V b k blk Hc Hk Hcb), fset_eq. done.
    + rewrite fset_ne by (by apply (Hne x)). by apply (cv_cached _ _ _ Hc).
  - intros k Hk Hno. rewrite fset_ne; [by apply (cv_disk _ _ _ Hc)|]. intros ->.
    rewrite (Hno b) in Hv; done.
  - intros x k Hk Hvx Hrx. destruct (decide (x = b)) as [->|Hx]; [lia|].
    rewrite fset_ne by (by apply (Hne x)). by apply (cv_clean _ _ _ Hc x).
Qed.

(** Writing a buffer out; the disk then holds what its users see. *)
Lemma bwrite_transparent s V blk b :
  cinv name s V -> cached NBUF s dev blk b -> s.(b_valid) b = true ->
  cinv name (xv6bwrite s b) V /\ disk_of (xv6bwrite s b) blk = Some (V blk).
Proof using All.
  intros Hc Hcb Hv. pose proof Hcb as (Hb&Hbn&Hbd&Hbb). destruct (cv_ok _ _ _ Hc) as [Hok Hname].
  destruct (cv_range _ _ _ Hc b Hb Hbn) as [_ Hr]. rewrite Hbb in Hr.
  destruct (cv_cached _ _ _ Hc b blk Hcb Hv) as [Hd Hlen].
  destruct (disk_write s.(b_store) blk (s.(b_data) b) Hok Hr Hlen) as (st'&Hw&Hok'&Hrd&Hoth).
  unfold xv6bwrite, xv6fs_disk_rw. rewrite Hbb, Hname, Hw.
  assert (Hdk : forall k, 0 <= k < nblk -> disk_of s k = Some (V k) -> disk_of (with_store s st') k = Some (V k)).
  { intros k Hk. unfold disk_of; simpl. rewrite Hname. destruct (decide (k = blk)) as [->|Hne].
    - intros _. by rewrite Hrd, Hd.
    - by rewrite Hoth. }
  split.
  - constructor; simpl; try apply Hc.
    + destruct (cv_inv _ _ _ Hc) as (l&C&Hi). exists l, C. by apply with_store_inv.
    + done.
    + intros k Hk Hno. apply Hdk; [done|]. by apply (cv_disk _ _ _ Hc).
    + intros x k Hk Hvx Hrx. apply Hdk; [|by apply (cv_clean _ _ _ Hc x)].
      destruct Hk as (Hx&Hxn&_&<-). by apply (cv_range _ _ _ Hc).
  - unfold disk_of; simpl. by rewrite Hname, Hrd, Hd.
Qed.

(** Changing the count of one buffer; when it drops to 0 the buffer must be
    clean. *)
Lemma refcnt_transparent s V b s' :
  cinv name s V -> (exists l C, binv NBUF NBUF_HASH s' l C) ->
  s'.(b_hprevp) = s.(b_hprevp) -> s'.(b_dev) = s.(b_dev) -> s'.(b_blockno) = s.(b_blockno) ->
  s'.(b_valid) = s.(b_valid) -> s'.(b_data) = s.(b_data) ->
  s'.(b_store) = s.(b_store) -> s'.(b_devname) = s.(b_devname) ->
  (forall x, x <> b -> s'.(b_refcnt) x = s.(b_refcnt) x) ->
  (s'.(b_refcnt) b = 0 -> forall blk, cached NBUF s dev blk b -> s.(b_valid) b = true ->
     disk_of s blk = Some (V blk)) ->
  cinv name s' V.
Proof.
  intros Hc Hi Hh Hd Hb Hv Hdt Hst Hnm Hr Hcl.
  assert (Hcs : forall k x, cached NBUF s' dev k x <-> cached NBUF s dev k x) by (intros; by apply cached_same).
  assert (Hdk : forall k, disk_of s' k = disk_of s k) by (intros; unfold disk_of; by rewrite Hst, Hnm).
  constructor.
  - done.
  - rewrite Hst, Hnm. apply Hc.
  - rewrite Hh, Hd, Hb. apply Hc.
  - intros x k Hk. rewrite Hv, Hdt. apply (cv_cached _ _ _ Hc). by apply Hcs.
  - intros k Hk Hno. rewrite Hdk. apply (cv_disk _ _ _ Hc k Hk). intros x Hx. rewrite <- Hv. by apply Hno, Hcs.
  - intros x k Hk. rewrite Hv, Hdk. apply Hcs in Hk. intros Hvx Hrx. destruct (decide (x = b)) as [->|Hne].
    + by apply Hcl.
    + apply (cv_clean _ _ _ Hc x); [done..|]. by rewrite <- Hr.
Qed.

Lemma range_cached_spec s V n : forall blk,
  cinv name s V -> 0 <= blk -> blk + Z.of_nat n <= nblk -> nblk <= 2 ^ 32 ->
  range_cached_loop NBUF NBUF_HASH n s dev blk = false ->
  forall k, blk <= k < blk + Z.of_nat n -> disk_of s k = Some (V k).
Proof using All.
  induction n as [|n IH]; intros blk Hc H0 Hn Hmax; simpl; [lia|]. intros Hrc k Hk.
  destruct (cv_inv _ _ _ Hc) as (l&C&Hi).
  pose proof (bhash_find_spec NBUF NBUF_HASH HNB HNH s l C Hi dev blk Hdev) as Hf.
  destruct (decide (k = blk)) as [->|Hne].
  - apply (cv_disk _ _ _ Hc); [lia|]. intros x Hx. destruct (bhash_find _ _ _ _ _) as [y|]; [|by apply Hf in Hx].
    rewrite (cached_fun s V x y blk Hc Hx Hf). by destruct (b_valid s y).
  - destruct (decide (n = 0%nat)) as [->|]; [lia|]. rewrite (u32_small (blk + 1)) in Hrc by lia.
    assert (Hrc' : range_cached_loop NBUF NBUF_HASH n s dev (blk + 1) = false).
    { destruct (bhash_find _ _ _ _ _) as [y|]; [|done]. by destruct (b_valid s y). }
    apply (IH (blk + 1) Hc ltac:(lia) ltac:(lia) Hmax Hrc'). lia.
Qed.

(** [b] is held by someone. *)
Definition held (s : bcache) (b : Z) : Prop := 0 <= b < NBUF /\ 0 < s.(b_refcnt) b.
(** The disk holds what is in [b]. *)
Definition clean (s : bcache) (b : Z) : Prop :=
  s.(b_valid) b = true -> disk_of s (s.(b_blockno) b) = Some (s.(b_data) b).

Lemma held_cached s V b : cinv name s V -> held s b ->
  cached NBUF s dev (s.(b_blockno) b) b /\ 0 <= s.(b_blockno) b < nblk.
Proof.
  intros Hc [Hb Hr]. destruct (cv_inv _ _ _ Hc) as (l&C&Hi).
  assert (Hn : s.(b_hprevp) b <> HNull) by (apply (bi_used _ _ _ _ _ Hi); lia).
  destruct (cv_range _ _ _ Hc b Hb Hn) as [? ?]. unfold cached. split_and!; done || lia.
Qed.

Lemma clean_view s V b : cinv name s V -> held s b -> clean s b -> s.(b_valid) b = true ->
  disk_of s (s.(b_blockno) b) = Some (V (s.(b_blockno) b)).
Proof.
  intros Hc Hh Hcl Hv. destruct (held_cached s V b Hc Hh) as [Hk _].
  rewrite (Hcl Hv). by destruct (cv_cached _ _ _ Hc b _ Hk Hv) as [-> _].
Qed.

Lemma brelse_transparent s V b :
  cinv name s V -> held s b -> (s.(b_refcnt) b = 1 -> clean s b) -> cinv name (xv6brelse NBUF s b) V.
Proof using All.
  intros Hc Hh Hcl. destruct (held_cached s V b Hc Hh) as [Hk _]. destruct Hh as [Hb Hr].
  destruct (cv_inv _ _ _ Hc) as (l&C&Hi).
  assert (Hst : (xv6brelse NBUF s b).(b_store) = s.(b_store) /\ (xv6brelse NBUF s b).(b_devname) = s.(b_devname)).
  { unfold xv6brelse. by case_match. }
  destruct (brelse_spec NBUF NBUF_HASH HNB HNH s l C b Hi Hb (proj1 (proj2 Hk)) Hr)
    as (Hkeep&Hrb&Hd&Hv&Hp&Hdv&Hbk&Hinv).
  apply (refcnt_transparent s V b); try done; try apply Hst.
  - case_match; [destruct Hinv as (l1&l2&_&Hinv)|]; eauto.
  - intros x Hx. by destruct (Hkeep x Hx) as (_&_&_&_&?&_).
  - intros H0 k Hkk Hvb. rewrite (cached_inj s V b k _ Hc Hkk Hk).
    apply (clean_view s V b Hc); [by split|apply Hcl; lia|done].
Qed.

Lemma pin_transparent s V b : cinv name s V -> held s b -> s.(b_refcnt) b < 2 ^ 32 - 1 -> cinv name (xv6bpin s b) V.
Proof using All.
  intros Hc Hh Hm. destruct (held_cached s V b Hc Hh) as [(_&Hn&_) _]. destruct Hh as [Hb Hr].
  destruct (cv_inv _ _ _ Hc) as (l&C&Hi). apply (refcnt_transparent s V b); try done.
  - exists l, C. apply with_refcnt_inv; [done|by left|apply u32_range].
  - intros x Hx. simpl. by rewrite fset_ne.
  - simpl. rewrite fset_eq, u32_small by lia. lia.
Qed.

Lemma unpin_transparent s V b :
  cinv name s V -> held s b -> (s.(b_refcnt) b = 1 -> clean s b) -> cinv name (xv6bunpin s b) V.
Proof using All.
  intros Hc Hh Hcl. destruct (held_cached s V b Hc Hh) as [Hk _]. pose proof Hh as [Hb Hr].
  destruct (cv_inv _ _ _ Hc) as (l&C&Hi). apply (refcnt_transparent s V b); try done.
  - exists l, C. apply with_refcnt_inv; [done|left; apply Hk|apply u32_range].
  - intros x Hx. simpl. by rewrite fset_ne.
  - pose proof (bi_ref _ _ _ _ _ Hi b Hb). simpl. rewrite fset_eq, u32_small by lia. intros H0 k Hkk Hv.
    rewrite (cached_inj s V b k _ Hc Hkk Hk). apply (clean_view s V b Hc Hh); [apply Hcl; lia|done].
Qed.

(** No reference count is about to wrap. *)
Definition roomy (s : bcache) : Prop := forall x, 0 <= x < NBUF -> s.(b_refcnt) x < 2 ^ 32 - 1.

Lemma bget_refcnt s V blk b s' :
  cinv name s V -> roomy s -> bget NBUF NBUF_HASH s dev blk = Some (b, s') ->
  (forall x, x <> b -> s'.(b_refcnt) x = s.(b_refcnt) x) /\ s'.(b_refcnt) b - 1 <= Z.max 0 (s.(b_refcnt) b).
Proof using All.
  intros Hc Hro Hget. pose proof (cv_inv _ _ _ Hc) as (l&C&Hinv).
  pose proof (bget_spec NBUF NBUF_HASH HNB HNH s l C dev blk Hinv Hdev) as Hs. rewrite Hget in Hs.
  destruct Hs as (_&(Hb&_)&Hkeep&Hcase). split.
  - intros x Hx. by destruct (Hkeep x Hx) as (_&_&_&_&?&_).
  - destruct Hcase as [[_ ->]|(_&_&_&->)]; [|lia]. pose proof (bi_ref _ _ _ _ _ Hinv b Hb).
    specialize (Hro b Hb). simpl. rewrite fset_eq, u32_small by lia. lia.
Qed.

(** One turn of the filling loop. *)
Lemma fill_one s V blk b s1 d :
  cinv name s V -> roomy s -> 0 <= blk < nblk -> bget NBUF NBUF_HASH s dev blk = Some (b, s1) -> d = V blk ->
  let s2 := if s1.(b_valid) b then s1
            else with_data s1 (fset s1.(b_valid) b true) (fset s1.(b_data) b d) in
  cinv name (xv6brelse NBUF s2 b) V /\ roomy (xv6brelse NBUF s2 b).
Proof using All.
  intros Hc Hro Hblk Hget -> s2. destruct (bget_transparent s V blk b s1 Hc Hblk Hget Hro) as (Hc1&Hcb&Hpos&Hcl).
  destruct (bget_refcnt s V blk b s1 Hc Hro Hget) as [Hoth Hle]. pose proof Hcb as (Hb&Hbn&Hbd&Hbb).
  assert (H2 : cinv name s2 V /\ s2.(b_refcnt) = s1.(b_refcnt) /\ (s1.(b_refcnt) b = 1 -> clean s2 b) /\ held s2 b).
  { subst s2. destruct (s1.(b_valid) b) eqn:Hv.
    - split_and!; [done..| |done]. intros Hr _. destruct (cv_cached _ _ _ Hc1 b blk Hcb Hv) as [-> _].
      rewrite Hbb. by apply Hcl.
    - split_and!; [by apply fill_transparent|done| |done]. intros _ _. simpl. rewrite fset_eq, Hbb.
      apply (cv_disk _ _ _ Hc1 blk Hblk). intros x Hx. by rewrite (cached_fun s1 V x b blk Hc1 Hx Hcb). }
  destruct H2 as (Hc2&Hr2&Hcl2&Hh). split.
  - apply brelse_transparent; [done..|]. by rewrite Hr2.
  - destruct (cv_inv _ _ _ Hc2) as (l&C&Hi). destruct (held_cached s2 V b Hc2 Hh) as [Hk _].
    destruct (brelse_spec NBUF NBUF_HASH HNB HNH s2 l C b Hi Hb (proj1 (proj2 Hk)) (proj2 Hh)) as (Hkeep&Hrb&_).
    intros x Hx. specialize (Hro x Hx). destruct (decide (x = b)) as [->|Hne]; [rewrite Hrb, Hr2; lia|].
    destruct (Hkeep x Hne) as (_&_&_&_&->&_). by rewrite Hr2, Hoth.
Qed.

Lemma fill_loop_transparent n V blk src : forall i s s',
  cinv name s V -> roomy s -> 0 <= blk -> 0 <= i -> blk + i + Z.of_nat n <= nblk -> nblk <= 2 ^ 32 ->
  (forall j, i <= j < i + Z.of_nat n -> slice src (j * XV6FS_BSIZE) XV6FS_BSIZE = V (blk + j)) ->
  fill_loop NBUF NBUF_HASH n i s dev blk src = Some s' -> cinv name s' V.
Proof using All.
  induction n as [|n IH]; intros i s s' Hc Hro Hb Hi Hn Hmax Hsrc; simpl; [by intros [= <-]|].
  rewrite u32_small by lia. destruct (bget NBUF NBUF_HASH s dev (blk + i)) as [[b s1]|] eqn:Hget; [|done]. simpl.
  destruct (fill_one s V (blk + i) b s1 (slice src (i * XV6FS_BSIZE) XV6FS_BSIZE) Hc Hro ltac:(lia) Hget
    (Hsrc i ltac:(lia))) as [Hc2 Hro2].
  intros Hf. apply (IH (i + 1) _ s' Hc2 Hro2 Hb ltac:(lia) ltac:(lia) Hmax); [|exact Hf].
  intros j Hj. apply Hsrc. lia.
Qed.

(** Blocks none of which is cached are read past the cache in one command,
    and the bytes are what the users of the cache would see. *)
Lemma direct_read s V blk n d :
  cinv name s V -> 0 <= blk -> 0 < n -> blk + n <= nblk -> nblk <= 2 ^ 32 ->
  xv6bio_range_cached NBUF NBUF_HASH s dev blk n = false -> xv6bio_read_run s blk n = Some d ->
  forall i, 0 <= i < n -> slice d (i * XV6FS_BSIZE) XV6FS_BSIZE = V (blk + i).
Proof using All.
  intros Hc Hb Hn Hend Hmax Hrc Hrd i Hi. unfold xv6bio_read_run in Hrd.
  destruct (Z.eqb_spec n 0); [lia|]. destruct (cv_ok _ _ _ Hc) as [Hok Hname]. rewrite Hname in Hrd.
  destruct (disk_read_run s.(b_store) blk n Hok Hb Hn Hend) as (d'&Hd'&Hsl). rewrite Hd' in Hrd. injection Hrd as <-.
  assert (Hd : disk_of s (blk + i) = Some (V (blk + i))).
  { apply (range_cached_spec s V (Z.to_nat n) blk Hc Hb); [lia..|exact Hrc|lia]. }
  unfold disk_of in Hd. rewrite Hname, Hsl in Hd by done. by injection Hd.
Qed.

(** ** Any use of the cache

    What the users of the cache do, with the discipline the callers keep: the
    contents of a buffer change only while it is held, and the last holder of
    a buffer has written it out. *)
Abbreviation view := (Z -> list Z).
Inductive bstep : bcache * view -> bcache * view -> Prop :=
| step_bread s V blk b s' :
    0 <= blk < nblk -> roomy s -> xv6bread NBUF NBUF_HASH s dev blk = Some (b, s') -> bstep (s, V) (s', V)
| step_store s V b d :
    held s b -> s.(b_valid) b = true -> zlen d = XV6FS_BSIZE ->
    bstep (s, V) (with_data s s.(b_valid) (fset s.(b_data) b d), fset V (s.(b_blockno) b) d)
| step_bwrite s V b : held s b -> s.(b_valid) b = true -> bstep (s, V) (xv6bwrite s b, V)
| step_brelse s V b :
    held s b -> (s.(b_refcnt) b = 1 -> clean s b) -> bstep (s, V) (xv6brelse NBUF s b, V)
| step_bpin s V b : held s b -> s.(b_refcnt) b < 2 ^ 32 - 1 -> bstep (s, V) (xv6bpin s b, V)
| step_bunpin s V b : held s b -> (s.(b_refcnt) b = 1 -> clean s b) -> bstep (s, V) (xv6bunpin s b, V)
| step_direct s V blk n d s' :
    0 <= blk -> 0 < n -> blk + n <= nblk -> nblk <= 2 ^ 32 -> roomy s ->
    xv6bio_range_cached NBUF NBUF_HASH s dev blk n = false -> xv6bio_read_run s blk n = Some d ->
    xv6bio_fill_cache NBUF NBUF_HASH s dev blk n d = Some s' -> bstep (s, V) (s', V).

Lemma bstep_transparent s V s' V' : bstep (s, V) (s', V') -> cinv name s V -> cinv name s' V'.
Proof using All.
  inversion 1; subst; intros Hc.
  - eapply bread_transparent; eauto.
  - destruct (held_cached s V b Hc) as [Hk _]; [done|]. by apply store_transparent; try match goal with h : held s b |- _ => apply h end.
  - destruct (held_cached s V' b Hc) as [Hk _]; [done|]. eapply bwrite_transparent; eauto.
  - by apply brelse_transparent.
  - by apply pin_transparent.
  - by apply unpin_transparent.
  - eapply (fill_loop_transparent (Z.to_nat n) V' blk d 0 s); eauto; try lia.
    intros j Hj. apply (direct_read s V' blk n d); eauto. lia.
Qed.

(** The start: nothing is cached. *)
Lemma init_transparent s V :
  ok s.(b_store) -> s.(b_devname) = name ->
  (forall blk, 0 <= blk < nblk -> dread s.(b_store) name blk = Some (V blk)) ->
  cinv name (xv6bio_init NBUF NBUF_HASH s) V.
Proof using All.
  intros Hok Hname HV. pose proof (xv6bio_init_inv NBUF NBUF_HASH HNB HNH s) as Hi.
  assert (Hst : forall l s, (foldl (init_buf NBUF) s l).(b_store) = s.(b_store) /\
                            (foldl (init_buf NBUF) s l).(b_devname) = s.(b_devname)).
  { induction l as [|x l IH]; intros s0; simpl; [done|]. apply (IH (init_buf NBUF s0 x)). }
  assert (Hst' := Hst (seqZ 0 NBUF)). clear Hst.
  assert (Hnull : forall x, 0 <= x < NBUF -> (xv6bio_init NBUF NBUF_HASH s).(b_hprevp) x = HNull).
  { intros x Hx. destruct (bi_out _ _ _ _ _ Hi x Hx) as [?|?%not_elem_of_nil]; done. }
  constructor.
  - eauto.
  - unfold xv6bio_init. by rewrite !(proj1 (Hst' _)), !(proj2 (Hst' _)).
  - intros x Hx Hn. by rewrite Hnull in Hn.
  - intros x blk (Hx&Hn&_). by rewrite Hnull in Hn.
  - intros blk Hblk _. unfold disk_of, xv6bio_init. rewrite !(proj1 (Hst' _)), !(proj2 (Hst' _)). simpl.
    rewrite Hname. by apply HV.
  - intros x blk (Hx&Hn&_). by rewrite Hnull in Hn.
Qed.

(** A state of the cache after start-up and any use of it. *)
Definition cache_reaches (s0 : bcache) (V0 : view) (s : bcache) (V : view) : Prop :=
  ok s0.(b_store) /\ s0.(b_devname) = name /\
  (forall blk, 0 <= blk < nblk -> dread s0.(b_store) name blk = Some (V0 blk)) /\
  rtc bstep (xv6bio_init NBUF NBUF_HASH s0, V0) (s, V).

Lemma reaches_inv s0 V0 s V : cache_reaches s0 V0 s V -> cinv name s V.
Proof using All.
  intros (Hok&Hn&HV&Hs).
  assert (Hp : forall p q, rtc bstep p q -> cinv name p.1 p.2 -> cinv name q.1 q.2).
  { induction 1 as [|[s1 V1] [s2 V2] [s3 V3] Hst _ IH]; [done|]. intros Hc. apply IH. simpl in *.
    by apply (bstep_transparent s1 V1). }
  apply (Hp _ _ Hs). by apply init_transparent.
Qed.
End transparent.


(** C29: in every state the cache reaches, asking for a block either finds the
    one buffer that has it, or takes the least recently used buffer nobody
    holds and marks it as not yet filled; it fails only when every buffer is
    held.  No other buffer changes. *)
Theorem bget_hit_or_lru NBUF NBUF_HASH dev nblk name ok `{!DiskOk name nblk ok} s0 V0 s V blk :
  0 < NBUF -> 0 < NBUF_HASH -> 0 <= dev ->
  cache_reaches NBUF NBUF_HASH dev nblk ok name s0 V0 s V ->
  exists l, dl s.(b_next) s.(b_prev) NBUF l NBUF /\ l ≡ₚ seqZ 0 NBUF /\
  match bget NBUF NBUF_HASH s dev blk with
  | Some (b, s') =>
      cached NBUF s' dev blk b /\ (forall x, cached NBUF s' dev blk x -> x = b) /\
      (forall x, x <> b -> keeps s s' x) /\
      (cached NBUF s dev blk b /\ s' = xv6bpin s b \/
       (forall x, ~ cached NBUF s dev blk x) /\ lru_victim s l = Some b /\
         s'.(b_valid) b = false /\ s'.(b_refcnt) b = 1)
  | None => (forall x, ~ cached NBUF s dev blk x) /\ forall x, 0 <= x < NBUF -> s.(b_refcnt) x <> 0
  end.
Proof.
  intros HNB HNH Hd Hr. assert (Hc := reaches_inv NBUF NBUF_HASH HNB HNH dev Hd nblk ok name s0 V0 s V Hr).
  destruct (cv_inv _ _ _ _ _ _ _ _ Hc) as (l&C&Hi). exists l. split; [apply Hi|]. split.
  - apply NoDup_Permutation; [apply Hi|apply NoDup_seqZ|]. intros x. rewrite elem_of_seqZ.
    rewrite (bi_lru_all _ _ _ _ _ Hi). lia.
  - pose proof (bget_spec NBUF NBUF_HASH HNB HNH s l C dev blk Hi Hd) as Hs.
    destruct (bget _ _ _ _ _) as [[b s']|]; [|done]. destruct Hs as ((C'&Hi')&Hcb&?&?). split_and!; try done.
    intros x Hx. by apply (cached_unique NBUF NBUF_HASH HNB HNH s' l C' Hi' dev blk).
Qed.

(** ** Examples: two buffers, two buckets, a disk of 32 blocks *)

Definition is_some {A} (o : option A) : bool := match o with Some _ => true | None => false end.
Lemma is_some_default {A} (o : option A) a : is_some o = true -> o = Some (default a o).
Proof. by destruct o. Qed.
Lemma is_some_pair {A B} (o : option (A * B)) p : is_some o = true -> o = Some ((default p o).1, (default p o).2).
Proof. by destruct o as [[]|]. Qed.

Definition ex_cache : bcache :=
  mkCache (fun _ => false) (fun _ => 0) (fun _ => 0) (fun _ => 0) (fun _ => []) (fun _ => 0) (fun _ => 0)
    (fun _ => HNull) (mkPlaces (fun _ => None) (fun _ => None)) ex_storage1 [114].
Definition ex_view : Z -> list Z := fun _ => replicate 1024 7.
Abbreviation ex_c0 := (xv6bio_init 2 2 ex_cache).
Definition ex_r1 : Z * bcache := default (0, ex_c0) (xv6bread 2 2 ex_c0 1 3).
Definition ex_c2 : bcache :=
  with_data ex_r1.2 ex_r1.2.(b_valid) (fset ex_r1.2.(b_data) ex_r1.1 (replicate 1024 9)).
Definition ex_c3 : bcache := xv6bwrite ex_c2 ex_r1.1.
Definition ex_c4 : bcache := xv6brelse 2 ex_c3 ex_r1.1.

Lemma ex_r1_eq : xv6bread 2 2 ex_c0 1 3 = Some (ex_r1.1, ex_r1.2).
Proof. refine (is_some_pair (xv6bread 2 2 ex_c0 1 3) (0, ex_c0) _). vm_compute. reflexivity. Qed.

Lemma ex_reaches :
  cache_reaches 2 2 1 32 (memory_disk [114] 32) [114] ex_cache ex_view ex_c4 (fset ex_view 3 (replicate 1024 9)).
Proof.
  split_and!.
  - exists (mkDev [114] 512 64 (Some MemoryDriver) (Some MemoryDriver) 0 false true).
    split_and!; try reflexivity; vm_compute; discriminate.
  - reflexivity.
  - intros blk Hblk.
    rewrite (memory_dread _ _ (mkDev [114] 512 64 (Some MemoryDriver) (Some MemoryDriver) 0 false true));
      try reflexivity; try (split; reflexivity); try (vm_compute; split; reflexivity || discriminate);
      simpl; lia.
  - eapply rtc_l; [refine (step_bread 2 2 1 32 ex_c0 ex_view 3 ex_r1.1 ex_r1.2 _ _ ex_r1_eq)|].
    + lia.
    + intros x Hx. assert (x = 0 \/ x = 1) as [-> | ->] by lia; reflexivity.
    + eapply rtc_l; [refine (step_store 2 2 1 32 ex_r1.2 ex_view ex_r1.1 (replicate 1024 9) _ _ _)|];
        [vm_compute; split_and!; reflexivity || discriminate|vm_compute; reflexivity..|].
      replace (b_blockno ex_r1.2 ex_r1.1) with 3 by (vm_compute; reflexivity). fold ex_c2.
      eapply rtc_l; [refine (step_bwrite 2 2 1 32 ex_c2 _ ex_r1.1 _ _)|];
        [vm_compute; split_and!; reflexivity || discriminate|vm_compute; reflexivity|].
      fold ex_c3. eapply rtc_l; [refine (step_brelse 2 2 1 32 ex_c3 _ ex_r1.1 _ _)|];
        [vm_compute; split_and!; reflexivity || discriminate|intros _ _; vm_compute; reflexivity|].
      apply rtc_refl.
Qed.


Lemma bget_hit_or_lru_witness : exists b s', bget 2 2 ex_c4 1 8 = Some (b, s') /\ cached 2 s' 1 8 b.
Proof.
  destruct (bget_hit_or_lru 2 2 1 32 [114] (memory_disk [114] 32) ex_cache ex_view ex_c4
    (fset ex_view 3 (replicate 1024 9)) 8 ltac:(lia) ltac:(lia) ltac:(lia) ex_reaches) as (l&_&_&Hg).
  pose (r := default (0, ex_c4) (bget 2 2 ex_c4 1 8)).
  assert (Hr : bget 2 2 ex_c4 1 8 = Some (r.1, r.2)).
  { refine (is_some_pair (bget 2 2 ex_c4 1 8) (0, ex_c4) _). vm_compute. reflexivity. }
  exists r.1, r.2. split; [exact Hr|]. rewrite Hr in Hg. exact (proj1 Hg).
Defined.

Definition ex_c5 : bcache := xv6brelse 1 (default (0, ex_cache) (xv6bread 1 2 (xv6bio_init 1 2 ex_cache) 1 3)).2 0.

(** A failed disk read is only reported: the buffer is then valid with
    whatever bytes it held before.  Here block 40 is past the end of the disk,
    and reading it gives the bytes of block 3. *)
Theorem failed_read_shows_other_block :
  exists b s', xv6bread 1 2 ex_c5 1 40 = Some (b, s') /\
    dread s'.(b_store) s'.(b_devname) 40 = None /\ s'.(b_valid) b = true /\ s'.(b_data) b = replicate 1024 7.
Proof.
  pose (r := default (0, ex_c5) (xv6bread 1 2 ex_c5 1 40)).
  exists r.1, r.2. split_and!; [|vm_compute; reflexivity..].
  refine (is_some_pair (xv6bread 1 2 ex_c5 1 40) (0, ex_c5) _). vm_compute. reflexivity.
Qed.
