(* ===== verification/Log.v ===== *)
(** * The journal (kernel/xv6log.c)

    The journal is modelled over the buffer cache as its users see it: [disk]
    is what the device holds and [cache] the valid buffers, so a block reads
    as its buffer if there is one and as the disk otherwise ([view]).  That
    recycling a clean buffer cannot be seen is what Bio.v proves of the cache,
    so recycling is not part of this state, and releasing a buffer does
    nothing here; the model covers runs in which no buffer of the running
    commit is recycled between its release and the write of its run.

    Every device command is recorded in [trace], in order.  Commands that
    carry several blocks may fail ([oracle], one answer per command); a
    command that fails, or during which the machine stops, may have written
    any of its 512-byte sectors. *)
From Stdlib Require Import Sorted.
From S2P Require Import Prelude State Bytes.

Definition BSIZE : Z := 1024.
Definition XV6FS_LOGBLOCKS : Z := 126.
Abbreviation XV6LOG_BATCH_MAX := XV6FS_LOGBLOCKS.

Abbreviation block := (list Z).
(** One device command: the blocks it writes. *)
Abbreviation cmd := (list (Z * block)).

(** The sectors of a block that reach the disk. *)
Definition mix (keep : bool * bool) (old new : block) : block :=
  take 512 (if keep.1 then new else old) ++ drop 512 (if keep.2 then new else old).

Definition apply_cmd (d : Z -> block) (c : cmd) : Z -> block := foldl (fun d w => fset d w.1 w.2) d c.

Record logst := mkLog {
  disk : Z -> block; cache : gmap Z block; pins : Z -> Z; trace : list cmd;
  oracle : list (option (Z -> bool * bool));
  l_start : Z; l_outstanding : Z; l_reserved : Z; l_committing : bool;
  l_block : list Z;   (** [lh.block[0] .. lh.block[lh.n - 1]] *)
  g_stage : option (list block); g_stage_valid : bool;
  g_commits : Z; g_log_blocks : Z; g_install_runs : Z }.

Definition with_dev (s : logst) (d : Z -> block) (c : gmap Z block) (t : list cmd) : logst :=
  mkLog d c s.(pins) t s.(oracle) s.(l_start) s.(l_outstanding) s.(l_reserved) s.(l_committing) s.(l_block)
    s.(g_stage) s.(g_stage_valid) s.(g_commits) s.(g_log_blocks) s.(g_install_runs).
Definition with_cache (s : logst) (c : gmap Z block) : logst := with_dev s s.(disk) c s.(trace).
Definition with_pins (s : logst) (p : Z -> Z) : logst :=
  mkLog s.(disk) s.(cache) p s.(trace) s.(oracle) s.(l_start) s.(l_outstanding) s.(l_reserved) s.(l_committing)
    s.(l_block) s.(g_stage) s.(g_stage_valid) s.(g_commits) s.(g_log_blocks) s.(g_install_runs).
Definition with_oracle (s : logst) (o : list (option (Z -> bool * bool))) : logst :=
  mkLog s.(disk) s.(cache) s.(pins) s.(trace) o s.(l_start) s.(l_outstanding) s.(l_reserved) s.(l_committing)
    s.(l_block) s.(g_stage) s.(g_stage_valid) s.(g_commits) s.(g_log_blocks) s.(g_install_runs).
Definition with_ops (s : logst) (outstanding reserved : Z) (committing : bool) : logst :=
  mkLog s.(disk) s.(cache) s.(pins) s.(trace) s.(oracle) s.(l_start) outstanding reserved committing
    s.(l_block) s.(g_stage) s.(g_stage_valid) s.(g_commits) s.(g_log_blocks) s.(g_install_runs).
Definition with_blocks (s : logst) (l : list Z) : logst :=
  mkLog s.(disk) s.(cache) s.(pins) s.(trace) s.(oracle) s.(l_start) s.(l_outstanding) s.(l_reserved)
    s.(l_committing) l s.(g_stage) s.(g_stage_valid) s.(g_commits) s.(g_log_blocks) s.(g_install_runs).
Definition with_stage (s : logst) (st : option (list block)) (v : bool) : logst :=
  mkLog s.(disk) s.(cache) s.(pins) s.(trace) s.(oracle) s.(l_start) s.(l_outstanding) s.(l_reserved)
    s.(l_committing) s.(l_block) st v s.(g_commits) s.(g_log_blocks) s.(g_install_runs).
Definition with_stats (s : logst) (c b r : Z) : logst :=
  mkLog s.(disk) s.(cache) s.(pins) s.(trace) s.(oracle) s.(l_start) s.(l_outstanding) s.(l_reserved)
    s.(l_committing) s.(l_block) s.(g_stage) s.(g_stage_valid) c b r.

Abbreviation L := (ST logst).

(** ** The cache and the device *)

Definition view (s : logst) (b : Z) : block := default (s.(disk) b) (s.(cache) !! b).

(** The contents of the buffer returned. *)
Definition xv6bread (b : Z) : L block :=
  d ← gets (fun s => view s b);
  modify (fun s => with_cache s (<[b := d]> s.(cache)));;
  mret d.

(** Changing the contents of a buffer that is held. *)
Definition bstore (b : Z) (d : block) : L unit := modify (fun s => with_cache s (<[b := d]> s.(cache))).

Definition send (c : cmd) : L unit := modify (fun s => with_dev s (apply_cmd s.(disk) c) s.(cache) (s.(trace) ++ [c])).

Definition xv6bwrite (b : Z) : L unit := d ← gets (fun s => view s b); send [(b, d)].

Definition xv6bpin (b : Z) : L unit := modify (fun s => with_pins s (fset s.(pins) b (s.(pins) b + 1))).
Definition xv6bunpin (b : Z) : L unit := modify (fun s => with_pins s (fset s.(pins) b (s.(pins) b - 1))).

(** The answer of the device to the next command for several blocks. *)
Definition next_answer : L (option (Z -> bool * bool)) :=
  s ← getS;
  match s.(oracle) with
  | [] => mret None
  | a :: o => modify (fun s => with_oracle s o);; mret a
  end.

Definition run_cmd (blockno : Z) (bufs : list block) : cmd := imap (fun i d => (blockno + Z.of_nat i, d)) bufs.

(** [xv6bio_rw_run] for writing and for reading; [false], [None]: it failed. *)
Definition xv6bio_rw_run_write (blockno : Z) (bufs : list block) : L bool :=
  if bool_decide (bufs = []) then mret false else
  a ← next_answer;
  match a with
  | None => send (run_cmd blockno bufs);; mret true
  | Some keep =>
      d ← gets disk;
      send ((fun w => (w.1, mix (keep w.1) (d w.1) w.2)) <$> run_cmd blockno bufs);; mret false
  end.

Definition xv6bio_rw_run_read (blockno nblocks : Z) : L (option (list block)) :=
  if nblocks =? 0 then mret None else
  a ← next_answer;
  match a with
  | None => gets (fun s => Some ((fun i => s.(disk) (blockno + i)) <$> seqZ 0 nblocks))
  | Some _ => mret None
  end.

(** ** The header block *)

(** [struct logheader]: [n], then the block numbers, as 32-bit integers. *)
Definition head_blocks (d : block) : list Z :=
  (fun i => s32 (get32 d (4 + 4 * i))) <$> seqZ 0 (s32 (get32 d 0)).

Fixpoint put_blocks (d : block) (i : Z) (l : list Z) : block :=
  match l with
  | [] => d
  | x :: l => put_blocks (put32 d (4 + 4 * i) (u32 x)) (i + 1) l
  end.

Definition put_head (d : block) (l : list Z) : block := put_blocks (put32 d 0 (u32 (zlen l))) 0 l.

(** The array of the header has room for [XV6FS_LOGBLOCKS] numbers. *)
Definition read_head : L unit :=
  s ← getS;
  d ← xv6bread (u32 s.(l_start));
  kassert (s32 (get32 d 0) <=? XV6FS_LOGBLOCKS) Asserted;;
  modify (fun s => with_blocks s (head_blocks d)).

Definition write_head : L unit :=
  s ← getS;
  d ← xv6bread (u32 s.(l_start));
  bstore (u32 s.(l_start)) (put_head d s.(l_block));;
  xv6bwrite (u32 s.(l_start)).

(** ** Committing *)

(** [j] runs down while the element is larger; [fuel] is the initial [j + 1]. *)
Fixpoint sort_shift (fuel : nat) (l : list Z) (j v : Z) : list Z * Z :=
  match fuel with
  | O => (l, j)
  | S fuel =>
      if (0 <=? j) && (v <? zget l j) then sort_shift fuel (zset l (j + 1) (zget l j)) (j - 1) v else (l, j)
  end.

Definition sort_insert (l : list Z) (i : Z) : list Z :=
  let v := zget l i in
  let r := sort_shift (Z.to_nat i) l (i - 1) v in
  zset r.1 (r.2 + 1) v.

Definition sort_blocks (l : list Z) : list Z := foldl sort_insert l (seqZ 1 (zlen l - 1)).

Definition sort_log_blocks : L unit := modify (fun s => with_blocks s (sort_blocks s.(l_block))).

(** Gathering the blocks of the log in the staging buffer. *)
Definition stage_block (tail : Z) : L unit :=
  s ← getS;
  d ← xv6bread (u32 (zget s.(l_block) tail));
  modify (fun s => with_stage s (match s.(g_stage) with Some st => Some (zset st tail d) | None => None end)
                              s.(g_stage_valid)).

Definition log_block (tail : Z) : L unit :=
  s ← getS;
  _ ← xv6bread (u32 (s.(l_start) + tail + 1));
  from ← xv6bread (u32 (zget s.(l_block) tail));
  bstore (u32 (s.(l_start) + tail + 1)) from;;
  xv6bwrite (u32 (s.(l_start) + tail + 1)).

Definition set_stage_valid (v : bool) : L unit := modify (fun s => with_stage s s.(g_stage) v).

Definition write_log : L unit :=
  s ← getS;
  let n := length s.(l_block) in
  done ← (if bool_decide (is_Some s.(g_stage)) && (0 <? zlen s.(l_block)) then
            mfor n 0 stage_block;;
            st ← gets (fun s => take n (default [] s.(g_stage)));
            ok ← xv6bio_rw_run_write (u32 (s.(l_start) + 1)) st;
            set_stage_valid ok;; mret ok
          else mret false);
  if done : bool then mret () else mfor n 0 log_block.

(** One block of the log goes to its home: the buffer first, and the disk when
    there is no staged run to write later. *)
Definition install_block (recovering staged : bool) (tail : Z) : L unit :=
  s ← getS;
  let dst := u32 (zget s.(l_block) tail) in
  _ ← xv6bread dst;
  (if staged then bstore dst (zget (default [] s.(g_stage)) tail)
   else d ← xv6bread (u32 (s.(l_start) + tail + 1)); bstore dst d);;
  (if staged then mret () else xv6bwrite dst);;
  (if recovering then mret () else xv6bunpin dst).

(** The run grows while the destinations are consecutive; each block that
    joins it goes to its buffer. *)
Fixpoint extend_run (fuel : nat) (recovering : bool) (tail run : Z) : L Z :=
  match fuel with
  | O => mret run
  | S fuel =>
      s ← getS;
      if (tail + run <? zlen s.(l_block)) && (zget s.(l_block) (tail + run) =? zget s.(l_block) tail + run) then
        install_block recovering true (tail + run);;
        extend_run fuel recovering tail (run + 1)
      else mret run
  end.

Definition count_run : L unit :=
  modify (fun s => with_stats s s.(g_commits) s.(g_log_blocks) (u64 (s.(g_install_runs) + 1))).

(** Writing one block of a run after the run failed. *)
Definition rewrite_block (tail k : Z) : L unit :=
  s ← getS;
  _ ← xv6bread (u32 (zget s.(l_block) (tail + k)));
  xv6bwrite (u32 (zget s.(l_block) (tail + k))).

Fixpoint install_loop (fuel : nat) (recovering staged : bool) (tail : Z) : L unit :=
  match fuel with
  | O => mret ()
  | S fuel =>
      s ← getS;
      if tail <? zlen s.(l_block) then
        install_block recovering staged tail;;
        if staged then
          run ← extend_run (length s.(l_block)) recovering tail 1;
          count_run;;
          ok ← xv6bio_rw_run_write (u32 (zget s.(l_block) tail))
                 (take (Z.to_nat run) (drop (Z.to_nat tail) (default [] s.(g_stage))));
          (if ok : bool then mret () else mfor (Z.to_nat run) 0 (rewrite_block tail));;
          install_loop fuel recovering staged (tail + run)
        else count_run;; install_loop fuel recovering staged (tail + 1)
      else mret ()
  end.

Definition install_trans (recovering : bool) : L unit :=
  s ← getS;
  staged ← (if bool_decide (is_Some s.(g_stage)) && (0 <? zlen s.(l_block)) then
              if negb recovering && s.(g_stage_valid) then mret true
              else
                r ← xv6bio_rw_run_read (u32 (s.(l_start) + 1)) (u32 (zlen s.(l_block)));
                match r with
                | Some bs =>
                    modify (fun s => with_stage s (match s.(g_stage) with
                                                   | Some st => Some (bs ++ drop (length bs) st)
                                                   | None => None
                                                   end) s.(g_stage_valid));;
                    mret true
                | None => mret false
                end
            else mret false);
  install_loop (length s.(l_block)) recovering staged 0;;
  set_stage_valid false.

Definition clear_blocks : L unit := modify (fun s => with_blocks s []).

Definition commit : L unit :=
  s ← getS;
  if 0 <? zlen s.(l_block) then
    modify (fun s => with_stats s (u64 (s.(g_commits) + 1)) (u64 (s.(g_log_blocks) + zlen s.(l_block)))
                       s.(g_install_runs));;
    sort_log_blocks;;
    write_log;;
    write_head;;
    install_trans false;;
    clear_blocks;;
    write_head
  else mret ().

Definition recover_from_log : L unit :=
  read_head;;
  install_trans true;;
  clear_blocks;;
  write_head.

Definition xv6log_recover : L unit := recover_from_log.

(** The journal's variables at mount; [pages] is what the page allocator gives
    when there is no staging buffer yet. *)
Definition log_reset (s : logst) (logstart : Z) (pages : option (list block)) : logst :=
  mkLog s.(disk) s.(cache) s.(pins) s.(trace) s.(oracle) (s32 logstart) 0 0 false []
    (match s.(g_stage) with Some st => Some st | None => pages end) false
    s.(g_commits) s.(g_log_blocks) s.(g_install_runs).

Definition xv6log_init (logstart : Z) (pages : option (list block)) : L unit :=
  modify (fun s => log_reset s logstart pages);;
  recover_from_log.

(** ** Operations *)

Definition clamp_need (max_blocks : Z) : Z :=
  let need := if max_blocks <? 1 then 1 else max_blocks in
  if XV6FS_LOGBLOCKS <? need then XV6FS_LOGBLOCKS else need.

Definition fits (s : logst) (need : Z) : bool :=
  (zlen s.(l_block) + s.(l_reserved) + need <=? XV6FS_LOGBLOCKS) &&
  ((zlen s.(l_block) =? 0) || (zlen s.(l_block) + s.(l_reserved) + need <=? XV6LOG_BATCH_MAX)).

(** [arg]: the declared number of blocks, if any *)
Definition xv6log_room_hint (s : logst) (arg : option Z) : bool :=
  let need := default XV6FS_LOGBLOCKS arg in
  if s.(l_committing) then false else
  if (s.(l_outstanding) =? 0) && (0 <? zlen s.(l_block)) then true else
  if XV6FS_LOGBLOCKS <? zlen s.(l_block) + s.(l_reserved) + need then false else
  (zlen s.(l_block) =? 0) || (zlen s.(l_block) + s.(l_reserved) + need <=? XV6LOG_BATCH_MAX).

Definition set_committing (v : bool) : L unit :=
  modify (fun s => with_ops s s.(l_outstanding) s.(l_reserved) v).

Definition idle (s : logst) : bool :=
  negb s.(l_committing) && (s.(l_outstanding) =? 0) && (0 <? zlen s.(l_block)).

(** The commit itself runs without the lock, with [committing] set. *)
Definition commit_unlocked : L unit := set_committing true;; commit;; set_committing false.

Definition xv6log_commit_if_idle : L unit :=
  s ← getS;
  if idle s then commit_unlocked else mret ().

Definition xv6log_flush : L unit := xv6log_commit_if_idle.

(** One turn of the loop of [xv6log_begin_op]. *)
Inductive turn := Entered | Again | Sleeps.
#[export] Instance turn_eq_dec : EqDecision turn.
Proof. solve_decision. Defined.

Definition begin_turn (need : Z) : L turn :=
  s ← getS;
  if negb s.(l_committing) && fits s need then
    modify (fun s => with_ops s (s.(l_outstanding) + 1) (s.(l_reserved) + need) s.(l_committing));; mret Entered
  else if idle s then
    commit_unlocked;; mret Again
  else mret Sleeps.

(** [false]: the caller sleeps until the hint is true and starts again. *)
Fixpoint begin_loop (fuel : nat) (need : Z) : L bool :=
  match fuel with
  | O => mret false
  | S fuel =>
      t ← begin_turn need;
      match t with
      | Entered => mret true
      | Again => begin_loop fuel need
      | Sleeps => mret false
      end
  end.

Definition xv6log_begin_op (max_blocks : Z) : L bool := begin_loop 2 (clamp_need max_blocks).

Definition xv6log_end_op (max_blocks : Z) : L unit :=
  s ← getS;
  let reserved := s.(l_reserved) - clamp_need max_blocks in
  modify (fun s => with_ops s (s.(l_outstanding) - 1) (if reserved <? 0 then 0 else reserved) s.(l_committing));;
  kassert (negb s.(l_committing)) Asserted.

Definition xv6log_write (b : Z) : L unit :=
  s ← getS;
  kassert (zlen s.(l_block) <? XV6FS_LOGBLOCKS) LogOverflow;;
  kassert (1 <=? s.(l_outstanding)) Asserted;;
  if bool_decide (s32 b ∈ s.(l_block)) then mret ()
  else xv6bpin b;; modify (fun s => with_blocks s (s.(l_block) ++ [s32 b])).

(** The counters of the last minute, printed when there was a commit. *)
Definition xv6log_commit_report : L (option (Z * Z * Z)) :=
  s ← getS;
  modify (fun s => with_stats s 0 0 0);;
  mret (if s.(g_commits) =? 0 then None else Some (s.(g_commits), s.(g_log_blocks), s.(g_install_runs))).

(** ** Commands and what a crash leaves *)

Lemma apply_cmd_app d c1 c2 : apply_cmd d (c1 ++ c2) = apply_cmd (apply_cmd d c1) c2.
Proof. apply foldl_app. Qed.

Lemma apply_cmd_out d c x : Forall (fun w => w.1 <> x) c -> apply_cmd d c x = d x.
Proof.
  revert d. induction c as [|[b y] c IH]; intros d Hc; [done|]. apply Forall_cons_1 in Hc as [Hb Hc]. simpl in *.
  rewrite IH by done. by apply fset_ne.
Qed.

Lemma run_cmd_cons b x l : run_cmd b (x :: l) = (b, x) :: run_cmd (b + 1) l.
Proof.
  unfold run_cmd. simpl. f_equal; [by rewrite Z.add_0_r|]. apply imap_ext. intros. simpl. f_equal. lia.
Qed.

Lemma run_cmd_range b l : Forall (fun w => b <= w.1 < b + zlen l) (run_cmd b l).
Proof.
  apply Forall_forall. intros w Hw. unfold run_cmd in Hw.
  apply elem_of_lookup_imap in Hw as (i&x&->&Hx%lookup_lt_Some). simpl. unfold zlen. lia.
Qed.

Lemma apply_run_cmd d b l x :
  apply_cmd d (run_cmd b l) x = if decide (b <= x < b + zlen l) then zget l (x - b) else d x.
Proof.
  revert d b. induction l as [|y l IH]; intros d b.
  - unfold zlen; simpl. case_decide; [lia|done].
  - rewrite run_cmd_cons. simpl. rewrite IH. unfold zlen in *; cbn [length]. repeat case_decide; try lia.
    + unfold zget. replace (Z.to_nat (x - b)) with (S (Z.to_nat (x - (b + 1)))) by lia. done.
    + replace x with b by lia. rewrite fset_eq. unfold zget. by replace (Z.to_nat (b - b)) with 0%nat by lia.
    + apply fset_ne. lia.
Qed.

(** All the sectors or none is no mixture. *)
Lemma mix_same keep x : mix keep x x = x.
Proof. unfold mix. destruct keep as [[] []]; simpl; apply take_drop. Qed.

Definition torn_cmd (d : Z -> block) (c : cmd) (d' : Z -> block) : Prop :=
  forall b, exists keep, d' b = mix keep (d b) (apply_cmd d c b).

(** [d']: the disk after a crash at any point of the commands [cs] issued from
    disk [d]: some are done and one is torn. *)
Fixpoint crash_of (d : Z -> block) (cs : list cmd) (d' : Z -> block) : Prop :=
  match cs with
  | [] => forall b, d' b = d b
  | c :: cs => torn_cmd d c d' \/ crash_of (apply_cmd d c) cs d'
  end.

Definition apply_cmds (d : Z -> block) (cs : list cmd) : Z -> block := foldl apply_cmd d cs.

Definition cmds_in (P : Z -> Prop) (cs : list cmd) : Prop := Forall (Forall (fun w => P w.1)) cs.

Lemma apply_cmds_out P d cs x : cmds_in P cs -> ~ P x -> apply_cmds d cs x = d x.
Proof.
  revert d. induction cs as [|c cs IH]; intros d Hc Hx; [done|]. apply Forall_cons_1 in Hc as [Hc Hcs]. simpl.
  unfold apply_cmds in *. rewrite IH by done. apply apply_cmd_out. eapply Forall_impl; [exact Hc|].
  intros w Hw Heq. apply Hx. by rewrite <- Heq.
Qed.

Lemma crash_out P d cs d' x : cmds_in P cs -> crash_of d cs d' -> ~ P x -> d' x = d x.
Proof.
  revert d. induction cs as [|c cs IH]; intros d Hc; simpl; [intros Hd _; apply Hd|].
  apply Forall_cons_1 in Hc as [Hc Hcs]. intros Hcr Hx.
  assert (Hout : apply_cmd d c x = d x).
  { apply apply_cmd_out. eapply Forall_impl; [exact Hc|]. intros w Hw Heq. apply Hx. by rewrite <- Heq. }
  destruct Hcr as [Ht|Hcr].
  - destruct (Ht x) as [keep ->]. by rewrite Hout, mix_same.
  - rewrite (IH _ Hcs Hcr Hx). done.
Qed.

Lemma crash_app d cs1 cs2 d' :
  crash_of d (cs1 ++ cs2) d' -> crash_of d cs1 d' \/ crash_of (apply_cmds d cs1) cs2 d'.
Proof.
  revert d. induction cs1 as [|c cs1 IH]; intros d; simpl; [by right|]. intros [?|Hc]; [by left; left|].
  destruct (IH _ Hc); [by left; right|by right].
Qed.

Lemma cmds_in_weaken (P Q : Z -> Prop) cs : (forall b, P b -> Q b) -> cmds_in P cs -> cmds_in Q cs.
Proof. intros HPQ Hc. eapply Forall_impl; [exact Hc|]. intros c Hw. eapply Forall_impl; [exact Hw|]. auto. Qed.

(** ** How the state moves while only some blocks change *)

Definition loaded (s0 s : logst) (b : Z) : Prop :=
  s.(disk) b = s0.(disk) b /\ (s.(cache) !! b = s0.(cache) !! b \/ s.(cache) !! b = Some (view s0 b)).

Record evolves (P : Z -> Prop) (s0 s : logst) : Prop := {
  ev_trace : exists cs, s.(trace) = s0.(trace) ++ cs /\ s.(disk) = apply_cmds s0.(disk) cs /\ cmds_in P cs;
  ev_loaded : forall b, ~ P b -> loaded s0 s b;
  ev_start : s.(l_start) = s0.(l_start);
  ev_ops : (s.(l_outstanding), s.(l_reserved), s.(l_committing)) =
           (s0.(l_outstanding), s0.(l_reserved), s0.(l_committing));
  ev_block : s.(l_block) = s0.(l_block);
}.

Lemma evolves_refl P s : evolves P s s.
Proof.
  split; try done.
  - exists []. rewrite app_nil_r. split_and!; [done..|constructor].
  - intros b _. split; [done|by left].
Qed.

Lemma loaded_view s0 s b : loaded s0 s b -> view s b = view s0 b.
Proof. unfold view. intros [-> [-> | ->]]; done. Qed.

Lemma ev_view P s0 s b : evolves P s0 s -> ~ P b -> view s b = view s0 b.
Proof. intros He Hb. by apply loaded_view, He. Qed.

Lemma evolves_trans P s0 s1 s2 : evolves P s0 s1 -> evolves P s1 s2 -> evolves P s0 s2.
Proof.
  intros H1 H2. destruct (ev_trace _ _ _ H1) as (c1&Ht1&Hd1&Hc1), (ev_trace _ _ _ H2) as (c2&Ht2&Hd2&Hc2).
  split.
  - exists (c1 ++ c2). rewrite Ht2, Ht1, Hd2, Hd1, app_assoc. split_and!; [done| |by apply Forall_app].
    symmetry. apply foldl_app.
  - intros b Hb. destruct (ev_loaded _ _ _ H1 b Hb) as [Hd Hl], (ev_loaded _ _ _ H2 b Hb) as [Hd' Hl'].
    split; [congruence|]. destruct Hl' as [Hl'|Hl']; rewrite Hl'; [done|].
    rewrite (ev_view P s0 s1 b) by done. by right.
  - by rewrite (ev_start _ _ _ H2), (ev_start _ _ _ H1).
  - by rewrite (ev_ops _ _ _ H2), (ev_ops _ _ _ H1).
  - by rewrite (ev_block _ _ _ H2), (ev_block _ _ _ H1).
Qed.

Lemma evolves_weaken (P Q : Z -> Prop) s0 s : (forall b, P b -> Q b) -> evolves P s0 s -> evolves Q s0 s.
Proof.
  intros HPQ H. destruct (ev_trace _ _ _ H) as (c&Ht&Hd&Hc). split; try apply H.
  - exists c. split_and!; [done..|]. by eapply cmds_in_weaken.
  - intros b Hb. apply H. auto.
Qed.

(** The primitive steps. *)
Section evolve.
Context (P : Z -> Prop) (s0 s : logst) (He : evolves P s0 s).

Lemma ev_quiet s' :
  s'.(trace) = s.(trace) -> s'.(disk) = s.(disk) -> s'.(cache) = s.(cache) -> s'.(l_start) = s.(l_start) ->
  (s'.(l_outstanding), s'.(l_reserved), s'.(l_committing)) = (s.(l_outstanding), s.(l_reserved), s.(l_committing)) ->
  s'.(l_block) = s.(l_block) -> evolves P s0 s'.
Proof using He.
  intros Ht Hd Hc Hs Ho Hb. apply (evolves_trans P s0 s s' He). split; try done.
  - exists []. rewrite app_nil_r, Ht, Hd. split_and!; [done..|constructor].
  - intros b _. split; [by rewrite Hd|left; by rewrite Hc].
Qed.

Lemma ev_bread b : evolves P s0 (with_cache s (<[b := view s b]> s.(cache))).
Proof using He.
  apply (evolves_trans P s0 s _ He). split; try done.
  - exists []. rewrite app_nil_r. split_and!; [done..|constructor].
  - intros x _. split; [done|]. simpl. destruct (decide (x = b)) as [->|Hne].
    + right. by rewrite lookup_insert_eq.
    + left. by rewrite lookup_insert_ne.
Qed.

Lemma ev_store b d : P b -> evolves P s0 (with_cache s (<[b := d]> s.(cache))).
Proof using He.
  intros Hb. apply (evolves_trans P s0 s _ He). split; try done.
  - exists []. rewrite app_nil_r. split_and!; [done..|constructor].
  - intros x Hx. split; [done|]. left. simpl. rewrite lookup_insert_ne; [done|]. by intros ->.
Qed.

Lemma ev_send c : Forall (fun w => P w.1) c ->
  evolves P s0 (with_dev s (apply_cmd s.(disk) c) s.(cache) (s.(trace) ++ [c])).
Proof using He.
  intros Hc. apply (evolves_trans P s0 s _ He). split; try done.
  - exists [c]. split_and!; [done..|by constructor].
  - intros x Hx. split; [|by left]. simpl. apply apply_cmd_out. eapply Forall_impl; [exact Hc|].
    intros w Hw Heq. apply Hx. by rewrite <- Heq.
Qed.

Lemma ev_pins p : evolves P s0 (with_pins s p).
Proof using He. by apply ev_quiet. Qed.
Lemma ev_oracle o : evolves P s0 (with_oracle s o).
Proof using He. by apply ev_quiet. Qed.
Lemma ev_stage st v : evolves P s0 (with_stage s st v).
Proof using He. by apply ev_quiet. Qed.
Lemma ev_stats c b r : evolves P s0 (with_stats s c b r).
Proof using He. by apply ev_quiet. Qed.
End evolve.

Lemma ev_send_oracle P s0 s o c : evolves P s0 s -> Forall (fun w => P w.1) c ->
  evolves P s0 (with_dev (with_oracle s o) (apply_cmd s.(disk) c) s.(cache) (s.(trace) ++ [c])).
Proof. intros He Hc. apply (ev_send P s0 (with_oracle s o)); [by apply ev_oracle|done]. Qed.

Create HintDb evolve.
#[export] Hint Resolve evolves_refl ev_bread ev_store ev_send ev_send_oracle ev_pins ev_oracle ev_stage ev_stats : evolve.

(** Reading a block. *)
Lemma wp_bread E b (Q : block -> logst -> Prop) s :
  Q (view s b) (with_cache s (<[b := view s b]> s.(cache))) -> wp E (xv6bread b) Q s.
Proof. intros. unfold xv6bread. by wp_steps. Qed.

(** Writing a block whose buffer is known. *)
Lemma wp_bwrite E b (Q : unit -> logst -> Prop) s :
  Q tt (with_dev s (apply_cmd s.(disk) [(b, view s b)]) s.(cache) (s.(trace) ++ [[(b, view s b)]])) ->
  wp E (xv6bwrite b) Q s.
Proof. intros. unfold xv6bwrite, send. by wp_steps. Qed.

(** Symbolic execution of code over the cache. *)
Ltac log_step :=
  lazymatch goal with
  | |- wp _ (xv6bread _) _ _ => apply wp_bread
  | |- wp _ (xv6bwrite _) _ _ => apply wp_bwrite
  | |- wp _ (bstore _ _) _ _ => apply wp_modify
  | |- wp _ (xv6bunpin _) _ _ => apply wp_modify
  | |- wp _ (xv6bpin _) _ _ => apply wp_modify
  | |- wp _ (set_stage_valid _) _ _ => apply wp_modify
  | _ => wp_step
  end; cbv beta iota.
Ltac log_steps := repeat log_step.

Lemma wp_next_answer E (Q : option (Z -> bool * bool) -> logst -> Prop) s :
  (forall a o, Q a (with_oracle s o)) -> wp E next_answer Q s.
Proof.
  intros HQ. unfold next_answer. wp_steps. destruct (oracle s) as [|a o] eqn:Ho; wp_steps; [|apply HQ].
  assert (Heq : s = with_oracle s []) by (destruct s; simpl in *; by subst). rewrite Heq. apply HQ.
Qed.

Lemma wp_run_write E b bufs (Q : bool -> logst -> Prop) s :
  bufs <> [] ->
  (forall o, Q true (with_dev (with_oracle s o) (apply_cmd s.(disk) (run_cmd b bufs)) s.(cache)
                       (s.(trace) ++ [run_cmd b bufs]))) ->
  (forall o c, Forall (fun w => b <= w.1 < b + zlen bufs) c ->
     Q false (with_dev (with_oracle s o) (apply_cmd s.(disk) c) s.(cache) (s.(trace) ++ [c]))) ->
  wp E (xv6bio_rw_run_write b bufs) Q s.
Proof.
  intros Hne Ht Hf. unfold xv6bio_rw_run_write. rewrite bool_decide_false by done. wp_step.
  apply wp_next_answer. intros [keep|] o; unfold send; wp_steps; [|apply Ht].
  apply Hf. apply Forall_fmap. eapply Forall_impl; [apply run_cmd_range|]. done.
Qed.

Lemma wp_run_read E b n (Q : option (list block) -> logst -> Prop) s :
  0 < n ->
  (forall o, Q (Some ((fun i => s.(disk) (b + i)) <$> seqZ 0 n)) (with_oracle s o)) ->
  (forall o, Q None (with_oracle s o)) ->
  wp E (xv6bio_rw_run_read b n) Q s.
Proof.
  intros Hn Ht Hf. unfold xv6bio_rw_run_read. destruct (Z.eqb_spec n 0); [lia|]. wp_step.
  apply wp_next_answer. intros [keep|] o; wp_steps; [apply Hf|apply Ht].
Qed.

(** ** The layout of the log *)

Definition home (start b : Z) : Prop := ~ (start <= b <= start + XV6FS_LOGBLOCKS).

(** The log lies at [start]; [l] are the home numbers of its blocks. *)
Record lshape (start : Z) (l : list Z) : Prop := {
  sh_start : 0 <= start /\ start + XV6FS_LOGBLOCKS < 2 ^ 31;
  sh_len : zlen l <= XV6FS_LOGBLOCKS;
  sh_nodup : NoDup l;
  sh_home : forall b, b ∈ l -> 0 <= b < 2 ^ 31 /\ home start b;
}.

Section shape.
Context (start : Z) (l : list Z) (Hsh : lshape start l).

Lemma sh_elem i : 0 <= i < zlen l -> zget l i ∈ l.
Proof. intros Hi. unfold zget, zlen in *. eapply list_elem_of_lookup_2, list_lookup_lookup_total_lt. lia. Qed.

Lemma sh_num i : 0 <= i < zlen l -> u32 (zget l i) = zget l i.
Proof using Hsh. intros Hi. apply u32_small. pose proof (sh_home _ _ Hsh (zget l i) (sh_elem i Hi)). lia. Qed.

Lemma sh_log i : 0 <= i < zlen l -> u32 (start + i + 1) = start + i + 1.
Proof using Hsh.
  intros Hi. apply u32_small. pose proof (sh_start _ _ Hsh). pose proof (sh_len _ _ Hsh). lia.
Qed.

Lemma sh_not_log i j : 0 <= i < zlen l -> 0 <= j < zlen l -> zget l i <> start + j + 1.
Proof using Hsh.
  intros Hi Hj Heq. destruct (sh_home _ _ Hsh _ (sh_elem i Hi)) as [_ Hh]. apply Hh.
  pose proof (sh_len _ _ Hsh). lia.
Qed.

Lemma sh_log_not_in i : 0 <= i < zlen l -> start + i + 1 ∉ l.
Proof using Hsh.
  intros Hi Hin. destruct (sh_home _ _ Hsh _ Hin) as [_ Hh]. apply Hh. pose proof (sh_len _ _ Hsh). lia.
Qed.

Lemma sh_inj i j : 0 <= i < zlen l -> 0 <= j < zlen l -> zget l i = zget l j -> i = j.
Proof using Hsh.
  unfold zget, zlen. intros Hi Hj Heq. assert (Z.to_nat i = Z.to_nat j); [|lia].
  eapply (NoDup_lookup l); [apply Hsh|eapply list_lookup_lookup_total_lt; lia|].
  rewrite Heq. eapply list_lookup_lookup_total_lt. lia.
Qed.
End shape.

(** The blocks of the log that are in use. *)
Definition in_log (start n b : Z) : Prop := start < b <= start + n.

(** What [write_log] leaves: the blocks are in the log on the disk, and
    whichever copy [install_trans] will read has them too. *)
Record logged (start : Z) (l : list Z) (X : Z -> block) (s : logst) : Prop := {
  lo_disk : forall i, 0 <= i < zlen l -> s.(disk) (start + i + 1) = X i;
  lo_stage : s.(g_stage_valid) = true ->
    exists st, s.(g_stage) = Some st /\ forall i, 0 <= i < zlen l -> zget st i = X i;
  lo_cache : s.(g_stage_valid) = false -> forall i, 0 <= i < zlen l -> view s (start + i + 1) = X i;
}.

Definition stage_ok (s : logst) : Prop :=
  forall st, s.(g_stage) = Some st -> zlen st = XV6FS_LOGBLOCKS.

Section write_log.
Context (E : panic -> Prop) (s0 : logst).
Abbreviation l := (s0.(l_block)).
Abbreviation start := (s0.(l_start)).
Context (Hsh : lshape start l) (Hst : stage_ok s0).
Abbreviation P := (in_log start (zlen l)).

(** while the staging buffer is filled *)
Definition staging (i : Z) (s : logst) : Prop :=
  evolves P s0 s /\ s.(pins) = s0.(pins) /\ s.(disk) = s0.(disk) /\
  exists st, s.(g_stage) = Some st /\ zlen st = XV6FS_LOGBLOCKS /\
    forall j, 0 <= j < i -> zget st j = view s0 (zget l j).

Lemma stage_block_ok i s : 0 <= i < zlen l -> staging i s -> wp E (stage_block i) (fun _ => staging (i + 1)) s.
Proof using Hsh.
  intros Hi (He&Hp&Hd&st&Hs&Hlen&Hst'). unfold stage_block. wp_steps. apply wp_bread. wp_steps.
  rewrite (ev_block _ _ _ He), (sh_num _ _ Hsh) by done. simpl. rewrite Hs.
  split_and!; [eauto with evolve|done..|]. exists (zset st i (view s (zget l i))). split_and!; [done| |].
  - by rewrite zlen_zset.
  - pose proof (sh_len _ _ Hsh). intros j Hj. rewrite zget_zset by lia. case_decide as Hij; [|apply Hst'; lia].
    subst j. apply (ev_view P); [done|]. intros Hlog. destruct (sh_home _ _ Hsh _ (sh_elem l i Hi)) as [_ Hh].
    apply Hh. unfold in_log in Hlog. lia.
Qed.

Abbreviation X := (fun i => view s0 (zget l i)).

(** while the blocks are written to the log one by one *)
Definition logging (i : Z) (s : logst) : Prop :=
  evolves P s0 s /\ s.(pins) = s0.(pins) /\ s.(g_stage_valid) = false /\ stage_ok s /\
  forall j, 0 <= j < i -> s.(disk) (start + j + 1) = X j /\ s.(cache) !! (start + j + 1) = Some (X j).

Lemma home_not_log i : 0 <= i < zlen l -> ~ P (zget l i).
Proof using Hsh.
  intros Hi Hlog. destruct (sh_home _ _ Hsh _ (sh_elem l i Hi)) as [_ Hh].
  apply Hh. unfold in_log in Hlog. pose proof (sh_len _ _ Hsh). lia.
Qed.

Lemma log_block_ok i s : 0 <= i < zlen l -> logging i s -> wp E (log_block i) (fun _ => logging (i + 1)) s.
Proof using Hsh.
  intros Hi (He&Hp&Hv&Hok&Hj). unfold log_block. wp_steps.
  rewrite (ev_block _ _ _ He), (ev_start _ _ _ He), (sh_num _ _ Hsh), (sh_log _ _ Hsh) by done.
  apply wp_bread. wp_step. apply wp_bread. unfold bstore. wp_steps. apply wp_bwrite.
  set (log := start + i + 1). set (from := zget l i).
  assert (HP : P log) by (unfold in_log; lia).
  assert (Hfrom : view (with_cache s (<[log := view s log]> s.(cache))) from = X i).
  { apply (ev_view P s0); [auto with evolve|by apply home_not_log]. }
  rewrite Hfrom. set (s2 := with_cache (with_cache (with_cache s _) _) _).
  assert (Hw : view s2 log = X i) by (unfold view; simpl; by rewrite lookup_insert_eq). rewrite Hw.
  assert (He2 : evolves P s0 s2).
  { subst s2. apply ev_store; [|done]. rewrite <- Hfrom. auto with evolve. }
  split_and!; try done.
  - apply ev_send; [done|]. by constructor.
  - intros j Hji. simpl. unfold fset. destruct (Z.eqb_spec (start + j + 1) log) as [Heq|Hne].
    + replace j with i by lia. subst log. by rewrite lookup_insert_eq.
    + rewrite !lookup_insert_ne; [apply Hj; lia|done| |done].
      intros Heq. apply (sh_not_log start l Hsh i j) in Hi; [done|lia].
Qed.

Lemma write_log_ok : s0.(g_stage_valid) = false ->
  wp E write_log (fun _ s => evolves P s0 s /\ s.(pins) = s0.(pins) /\ stage_ok s /\ logged start l X s) s0.
Proof using Hsh Hst.
  intros Hv. unfold write_log. wp_steps.
  assert (Hslow : forall s, logging 0 s -> wp E (mfor (length l) 0 log_block)
    (fun _ s => evolves P s0 s /\ s.(pins) = s0.(pins) /\ stage_ok s /\ logged start l X s) s).
  { intros s Hs. eapply wp_mono; [apply (wp_for E logging); [done|]|].
    - intros j s' Hj. apply log_block_ok. unfold zlen. lia.
    - intros _ s' (He&Hp&Hv'&Hok&Hj). rewrite Z.add_0_l in Hj. split_and!; [done..|].
      split; [intros i Hi; by apply Hj|congruence|]. intros _ i Hi. unfold view. by rewrite (proj2 (Hj i Hi)). }
  assert (H0 : logging 0 s0) by (split_and!; auto with evolve; lia).
  destruct (g_stage s0) as [st|] eqn:Hs; [|by apply Hslow].
  rewrite bool_decide_true by done. destruct (Z.ltb_spec 0 (zlen l)) as [Hn|Hn]; simpl; wp_steps; [|by apply Hslow].
  eapply wp_mono; [apply (wp_for E staging)|].
  - split_and!; [auto with evolve|done..|]. exists st. split_and!; [done|by apply Hst|lia].
  - intros j s' Hj. apply stage_block_ok. unfold zlen. lia.
  - intros _ s (He&Hp&Hd&st'&Hs'&Hlen&Hx). rewrite Z.add_0_l in Hx. wp_steps. rewrite Hs'. simpl.
    pose proof (sh_len _ _ Hsh) as Hmax.
    assert (Htl : zlen (take (length l) st') = zlen l) by (unfold zlen in *; rewrite length_take; lia).
    replace (u32 (start + 1)) with (start + 1)
      by (symmetry; apply u32_small; pose proof (sh_start _ _ Hsh); unfold XV6FS_LOGBLOCKS in *; lia).
    apply wp_run_write.
    + intros Heq. rewrite Heq in Htl. unfold zlen in *. simpl in Htl. lia.
    + intros o. unfold set_stage_valid. wp_steps. simpl. rewrite Hs'. split_and!; [|done|by intros ? [= <-]|].
      * apply ev_stage, ev_send_oracle; [done|].
        eapply Forall_impl; [apply run_cmd_range|]. intros w. rewrite Htl. unfold in_log. simpl. lia.
      * split; simpl; [|by eauto|done]. intros i Hi. rewrite apply_run_cmd, Htl. case_decide; [|lia].
        replace (start + i + 1 - (start + 1)) with i by lia.
        unfold zget at 1. rewrite list_lookup_total_alt, lookup_take_lt, <- list_lookup_total_alt; [by apply Hx|].
        unfold zlen in *. lia.
    + intros o c Hc. unfold set_stage_valid. wp_steps. apply Hslow. split_and!; try done; [|intros ?; simpl; congruence|lia].
      apply ev_stage, ev_send_oracle; [done|].
      eapply Forall_impl; [exact Hc|]. intros w. rewrite Htl. unfold in_log. simpl. lia.
Qed.
End write_log.

(** ** The header block *)

Section header.
Implicit Types (d : block) (l : list Z).

Lemma put_blocks_other d i l off :
  zlen d = BSIZE -> 0 <= i -> 0 <= off -> 4 + 4 * (i + zlen l) <= BSIZE -> off + 4 <= 4 + 4 * i ->
  get32 (put_blocks d i l) off = get32 d off.
Proof.
  revert d i. induction l as [|x l IH]; intros d i Hd Hi Hoff Hend Hbefore; [done|].
  unfold zlen in Hend. cbn [length] in Hend. fold (zlen l) in Hend. simpl. unfold BSIZE in *.
  assert (zlen (put32 d (4 + 4 * i) (u32 x)) = 1024) by (unfold put32; rewrite zlen_putn; unfold zlen in *; lia).
  rewrite IH by (unfold zlen in *; lia). unfold get32, put32. apply getn_putn_other; unfold zlen in *; lia.
Qed.

Lemma zlen_put_blocks d i l :
  zlen d = BSIZE -> 0 <= i -> 4 + 4 * (i + zlen l) <= BSIZE -> zlen (put_blocks d i l) = BSIZE.
Proof.
  revert d i. induction l as [|x l IH]; intros d i Hd Hi Hend; [done|].
  unfold zlen in Hend. cbn [length] in Hend. simpl. unfold BSIZE in *.
  apply IH; [|lia|unfold zlen; lia]. unfold put32. rewrite zlen_putn; unfold zlen in *; lia.
Qed.

Lemma put_blocks_get d i l k :
  zlen d = BSIZE -> 0 <= i -> 4 + 4 * (i + zlen l) <= BSIZE -> 0 <= k < zlen l ->
  get32 (put_blocks d i l) (4 + 4 * (i + k)) = u32 (zget l k).
Proof.
  revert d i k. induction l as [|x l IH]; intros d i k Hd Hi Hend Hk; [unfold zlen in *; simpl in *; lia|].
  unfold zlen in Hend, Hk. cbn [length] in Hend, Hk. simpl. unfold BSIZE in *.
  assert (Hp : zlen (put32 d (4 + 4 * i) (u32 x)) = 1024) by (unfold put32; rewrite zlen_putn; unfold zlen in *; lia).
  destruct (decide (k = 0)) as [->|Hne].
  - rewrite put_blocks_other by (unfold zlen, BSIZE in *; lia). rewrite Z.add_0_r. unfold get32, put32, zget.
    simpl. apply getn_putn_same; [lia|unfold zlen in *; lia|apply u32_range].
  - replace (i + k) with (i + 1 + (k - 1)) by lia. rewrite IH by (unfold zlen, BSIZE in *; lia).
    unfold zget. by replace (Z.to_nat k) with (S (Z.to_nat (k - 1))) by lia.
Qed.

Lemma zlen_put_head d l : zlen d = BSIZE -> zlen l <= XV6FS_LOGBLOCKS -> zlen (put_head d l) = BSIZE.
Proof.
  intros Hd Hl. unfold put_head, XV6FS_LOGBLOCKS, BSIZE in *.
  apply zlen_put_blocks; [unfold put32; rewrite zlen_putn; unfold zlen, BSIZE in *; lia|lia|unfold BSIZE; lia].
Qed.

(** Writing the header and reading it back gives the same block numbers. *)
Lemma head_put_head d l :
  zlen d = BSIZE -> zlen l <= XV6FS_LOGBLOCKS -> (forall b, b ∈ l -> 0 <= b < 2 ^ 31) ->
  head_blocks (put_head d l) = l.
Proof.
  intros Hd Hl Hb. unfold head_blocks, put_head. pose proof (zlen_nonneg l). unfold XV6FS_LOGBLOCKS, BSIZE in *.
  assert (Hp : zlen (put32 d 0 (u32 (zlen l))) = BSIZE) by (unfold put32; rewrite zlen_putn; unfold BSIZE; lia).
  rewrite put_blocks_other by (unfold BSIZE in *; lia).
  assert (Hn : get32 (put32 d 0 (u32 (zlen l))) 0 = zlen l).
  { unfold get32, put32. rewrite getn_putn_same by (try apply u32_range; lia). apply u32_small. lia. }
  rewrite Hn, s32_small by lia. apply zlist_ext.
  - unfold zlen at 1. rewrite length_fmap, length_seqZ. lia.
  - intros i Hi. unfold zlen at 1 in Hi. rewrite length_fmap, length_seqZ in Hi.
    unfold zget at 1. rewrite list_lookup_total_alt, list_lookup_fmap, lookup_seqZ_lt by lia. simpl.
    replace (0 + Z.of_nat (Z.to_nat i)) with (0 + i) by lia.
    rewrite put_blocks_get by (unfold BSIZE in *; lia).
    assert (Hin : zget l i ∈ l) by (apply sh_elem; lia). specialize (Hb _ Hin).
    rewrite u32_small, s32_small by lia. done.
Qed.

Lemma drop_put32 d off v : 0 <= off -> off + 4 <= 512 -> zlen d = BSIZE -> drop 512 (put32 d off v) = drop 512 d.
Proof.
  unfold BSIZE. intros H0 H1 Hd. unfold put32, putn, splice. rewrite app_assoc, drop_app_ge.
  - rewrite length_app, length_take, length_le_bytes, drop_drop. f_equal. unfold zlen in Hd. lia.
  - rewrite length_app, length_take, length_le_bytes. lia.
Qed.

Lemma drop_put_blocks d i l :
  zlen d = BSIZE -> 0 <= i -> 4 + 4 * (i + zlen l) <= 512 -> drop 512 (put_blocks d i l) = drop 512 d.
Proof.
  revert d i. induction l as [|x l IH]; intros d i Hd Hi Hend; [done|].
  unfold zlen in Hend. cbn [length] in Hend. simpl.
  rewrite IH; [apply drop_put32; lia || done| |lia|unfold zlen; lia].
  unfold put32, BSIZE in *. rewrite zlen_putn; lia.
Qed.

(** The header lies in the first sector of its block, so a crash while it is
    written leaves the old header or the new one. *)
Lemma put_head_atomic d l keep :
  zlen d = BSIZE -> zlen l <= XV6FS_LOGBLOCKS ->
  mix keep d (put_head d l) = d \/ mix keep d (put_head d l) = put_head d l.
Proof.
  intros Hd Hl. assert (Hdrop : drop 512 (put_head d l) = drop 512 d).
  { unfold put_head, XV6FS_LOGBLOCKS in *. rewrite drop_put_blocks; [apply drop_put32; lia || done| |lia|lia].
    unfold put32, BSIZE in *. rewrite zlen_putn; lia. }
  unfold mix. destruct keep as [[] q]; simpl; [right|left].
  - replace (drop 512 (if q then put_head d l else d)) with (drop 512 (put_head d l)) by by destruct q.
    apply take_drop.
  - replace (drop 512 (if q then put_head d l else d)) with (drop 512 d) by by destruct q.
    apply take_drop.
Qed.
End header.

Lemma wp_write_head E (Q : unit -> logst -> Prop) s :
  u32 s.(l_start) = s.(l_start) ->
  (let new := put_head (view s s.(l_start)) s.(l_block) in
   Q tt (with_dev s (apply_cmd s.(disk) [(s.(l_start), new)]) (<[s.(l_start) := new]> s.(cache))
           (s.(trace) ++ [[(s.(l_start), new)]]))) ->
  wp E write_head Q s.
Proof.
  intros Hu HQ. unfold write_head. wp_steps. rewrite Hu. apply wp_bread. unfold bstore. wp_steps. apply wp_bwrite.
  set (s2 := with_cache (with_cache s _) _).
  assert (Hv : view s2 (l_start s) = put_head (view s (l_start s)) (l_block s))
    by (unfold view; simpl; by rewrite lookup_insert_eq).
  rewrite Hv. subst s2. cbn [with_cache with_dev cache disk trace]. rewrite insert_insert_eq. exact HQ.
Qed.

(** ** Installing the log *)

Section install.
Context (E : panic -> Prop) (s0 : logst) (recovering : bool) (X : Z -> block).
Abbreviation l := (s0.(l_block)).
Abbreviation start := (s0.(l_start)).
Context (Hsh : lshape start l).
Abbreviation P := (fun b => b ∈ l).

(** The blocks before [i] are in their buffers, those before [k] on the disk. *)
Record installed (k i : Z) (s : logst) : Prop := {
  in_ev : evolves P s0 s;
  in_stage : s.(g_stage) = s0.(g_stage);
  in_pins : forall b, s.(pins) b = s0.(pins) b - (if recovering then 0 else if decide (b ∈ take (Z.to_nat i) l) then 1 else 0);
  in_cache : forall j, 0 <= j < i -> s.(cache) !! zget l j = Some (X j);
  in_disk : forall j, 0 <= j < k -> s.(disk) (zget l j) = X j;
}.

(** Putting block [i] in its buffer. *)
Lemma install_store k i s c :
  0 <= k <= i -> 0 <= i < zlen l -> installed k i s ->
  (forall j, 0 <= j < i -> c !! zget l j = s.(cache) !! zget l j) -> evolves P s0 (with_cache s c) ->
  c !! zget l i = Some (X i) ->
  let s' := with_cache s c in
  let p := fset s.(pins) (zget l i) (s.(pins) (zget l i) - 1) in
  installed k (i + 1) (if recovering then s' else with_pins s' p).
Proof using Hsh.
  intros Hki Hi Hs Hc Hev Hx s' p.
  assert (Htake : take (Z.to_nat (i + 1)) l = take (Z.to_nat i) l ++ [zget l i]).
  { replace (Z.to_nat (i + 1)) with (S (Z.to_nat i)) by lia. apply take_S_r.
    unfold zget, zlen in *. apply list_lookup_lookup_total_lt. lia. }
  assert (Hnin : zget l i ∉ take (Z.to_nat i) l).
  { intros [j [Hj Hlt]]%elem_of_take. unfold zlen in *.
    assert (Z.of_nat j = i); [|lia]. apply (sh_inj start l Hsh); [unfold zlen; lia|done|].
    unfold zget at 1. rewrite Nat2Z.id. by apply list_lookup_total_correct. }
  assert (Hcache : forall j, 0 <= j < i + 1 -> c !! zget l j = Some (X j)).
  { intros j Hj. destruct (decide (j = i)) as [->|]; [done|]. rewrite Hc by lia. apply Hs. lia. }
  destruct recovering eqn:Er; split; try apply Hs; try done.
  - subst s'. intros b. simpl. rewrite (in_pins _ _ _ Hs), Er. done.
  - by apply ev_pins.
  - intros b. subst p. simpl. rewrite Er, Htake. unfold fset.
    pose proof (in_pins _ _ _ Hs b) as Hb. pose proof (in_pins _ _ _ Hs (zget l i)) as Hbi. rewrite Er in Hb, Hbi.
    destruct (Z.eqb_spec b (zget l i)) as [->|Hne].
    + rewrite decide_False in Hbi by done. rewrite decide_True; [lia|]. set_solver.
    + rewrite Hb. destruct (decide (b ∈ take (Z.to_nat i) l)); [rewrite decide_True by set_solver; done|].
      rewrite decide_False; [done|]. set_solver.
Qed.

Lemma install_block_staged k i s st :
  0 <= k <= i -> 0 <= i < zlen l -> s0.(g_stage) = Some st -> zget st i = X i -> installed k i s ->
  wp E (install_block recovering true i) (fun _ => installed k (i + 1)) s.
Proof using Hsh.
  intros Hki Hi Hst Hx Hs. unfold install_block. wp_steps.
  rewrite (ev_block _ _ _ (in_ev _ _ _ Hs)), (sh_num _ _ Hsh), (in_stage _ _ _ Hs), Hst by done. simpl.
  apply wp_bread. unfold bstore. wp_steps.
  assert (Hres := install_store k i s (<[zget l i := X i]> (<[zget l i := view s (zget l i)]> s.(cache))) Hki Hi Hs).
  rewrite Hx. simpl in Hres.
  assert (Hout : forall j, 0 <= j < i -> zget l i <> zget l j).
  { intros j Hj Heq. apply (sh_inj start l Hsh) in Heq; lia. }
  specialize (Hres ltac:(intros j Hj; rewrite !lookup_insert_ne by (by apply Hout); done)).
  specialize (Hres ltac:(apply (ev_store P s0 (with_cache s _));
    [apply ev_bread, Hs|by apply sh_elem]) ltac:(by rewrite lookup_insert_eq)).
  destruct recovering; unfold xv6bunpin; wp_steps; exact Hres.
Qed.

Lemma install_block_direct i s :
  0 <= i < zlen l -> view s0 (start + i + 1) = X i -> installed i i s ->
  wp E (install_block recovering false i) (fun _ => installed (i + 1) (i + 1)) s.
Proof using Hsh.
  intros Hi Hx Hs. unfold install_block. wp_steps.
  rewrite (ev_block _ _ _ (in_ev _ _ _ Hs)), (ev_start _ _ _ (in_ev _ _ _ Hs)), (sh_num _ _ Hsh), (sh_log _ _ Hsh) by done.
  log_steps.
  set (b := zget l i). set (lb := start + i + 1).
  set (s1 := with_cache s (<[b := view s b]> s.(cache))).
  assert (He1 : evolves P s0 s1) by apply ev_bread, Hs.
  assert (Hv : view s1 lb = X i).
  { rewrite (ev_view P s0 s1 lb He1); [done|]. by apply (sh_log_not_in start l Hsh). }
  rewrite Hv. set (c := <[b := X i]> (<[lb := X i]> s1.(cache))).
  change (with_cache (with_cache s1 _) _) with (with_cache s c).
  assert (Hb : P b) by by apply sh_elem.
  assert (Hc : c !! b = Some (X i)) by (subst c; by rewrite lookup_insert_eq).
  assert (Hev : evolves P s0 (with_cache s c)).
  { refine (ev_store P s0 (with_cache s1 (<[lb := X i]> s1.(cache))) _ b (X i) Hb). rewrite <- Hv. by apply ev_bread. }
  assert (Hout : forall j, 0 <= j < i -> b <> zget l j).
  { intros j Hj Heq. apply (sh_inj start l Hsh) in Heq; lia. }
  assert (Hres := install_store i i s c ltac:(lia) Hi Hs).
  specialize (Hres ltac:(intros j Hj; subst c; simpl; rewrite !lookup_insert_ne;
    [done|by apply Hout|intros Heq; symmetry in Heq; by apply (sh_not_log start l Hsh j i) in Heq; try lia|by apply Hout]) Hev Hc).
  assert (Hw : view (with_cache s c) b = X i) by (unfold view; simpl; by rewrite Hc). rewrite Hw.
  destruct recovering; unfold xv6bunpin; wp_steps.
  all: split; try apply Hres; try (by apply (ev_send P s0 (with_cache s c)); [|by constructor]);
    try (apply ev_pins; by apply (ev_send P s0 (with_cache s c)); [|by constructor]).
  all: intros j Hj; simpl; unfold fset; destruct (Z.eqb_spec (zget l j) b) as [Heq|Hne];
    [apply (sh_inj start l Hsh) in Heq; [by subst|lia..]|apply Hs; destruct (decide (j = i)); [by subst|lia]].
Qed.

Section staged.
Context (st : list block) (Hst : s0.(g_stage) = Some st) (Hlen : zlen st = XV6FS_LOGBLOCKS).
Context (Hx : forall i, 0 <= i < zlen l -> zget st i = X i).

(** [run] blocks from [tail] on have consecutive homes. *)
Definition consecutive (tail run : Z) : Prop := forall j, 0 <= j < run -> zget l (tail + j) = zget l tail + j.

Lemma extend_run_ok fuel tail run s :
  0 <= tail -> 1 <= run -> tail + run <= zlen l -> consecutive tail run -> installed tail (tail + run) s ->
  wp E (extend_run fuel recovering tail run)
    (fun r s' => run <= r /\ tail + r <= zlen l /\ consecutive tail r /\ installed tail (tail + r) s') s.
Proof using Hsh Hst Hx.
  revert run s. induction fuel as [|fuel IH]; intros run s H0 H1 Hn Hc Hs; simpl; [by wp_steps|].
  wp_steps. rewrite (ev_block _ _ _ (in_ev _ _ _ Hs)).
  destruct (Z.ltb_spec (tail + run) (zlen l)) as [Hlt|]; simpl; [|wp_steps; split_and!; done || lia].
  destruct (Z.eqb_spec (zget l (tail + run)) (zget l tail + run)) as [Heq|]; wp_steps; [|split_and!; done || lia].
  eapply wp_mono; [apply (install_block_staged tail (tail + run) s st); [lia|lia|done|apply Hx; lia|done]|].
  simpl. intros _ s' Hs'. eapply wp_mono; [apply IH; [done|lia|lia| |]|].
  - intros j Hj. destruct (decide (j = run)) as [->|]; [done|]. apply Hc. lia.
  - by replace (tail + (run + 1)) with (tail + run + 1) by lia.
  - simpl. intros r s2 (?&?&?&?). split_and!; done || lia.
Qed.

Lemma run_in_list tail run x :
  0 <= tail -> tail + run <= zlen l -> consecutive tail run ->
  zget l tail <= x < zget l tail + run -> exists j, 0 <= j < run /\ x = zget l (tail + j).
Proof. intros H0 Hn Hc Hx'. exists (x - zget l tail). split; [lia|]. rewrite Hc by lia. lia. Qed.

Lemma zget_run tail run j : 0 <= tail -> 0 <= j < run -> tail + run <= zlen l ->
  zget (take (Z.to_nat run) (drop (Z.to_nat tail) st)) j = X (tail + j).
Proof using Hx.
  intros H0 Hj Hn. rewrite <- Hx by lia. unfold zget. rewrite !list_lookup_total_alt, lookup_take_lt, lookup_drop by lia.
  do 2 f_equal. lia.
Qed.

Lemma zlen_run tail run : 0 <= tail -> 0 <= run -> tail + run <= zlen l ->
  zlen (take (Z.to_nat run) (drop (Z.to_nat tail) st)) = run.
Proof using Hlen Hsh. intros. pose proof (sh_len _ _ Hsh). unfold zlen in *. rewrite length_take, length_drop. lia. Qed.

(** The disk part of a block of the run. *)
Lemma rewrite_block_ok tail run k s :
  0 <= tail -> 0 <= k < run -> tail + run <= zlen l -> installed (tail + k) (tail + run) s ->
  wp E (rewrite_block tail k) (fun _ => installed (tail + (k + 1)) (tail + run)) s.
Proof using Hsh.
  intros H0 Hk Hn Hs. unfold rewrite_block. log_steps.
  rewrite (ev_block _ _ _ (in_ev _ _ _ Hs)), (sh_num _ _ Hsh) by lia.
  set (b := zget l (tail + k)).
  assert (Hb : s.(cache) !! b = Some (X (tail + k))) by (apply Hs; lia).
  assert (Hv : view s b = X (tail + k)) by (unfold view; by rewrite Hb). rewrite Hv.
  assert (Heq : with_cache s (<[b := X (tail + k)]> s.(cache)) = s).
  { unfold with_cache. rewrite insert_id by done. by destruct s. }
  rewrite Heq, Hv. assert (Hbl : P b) by (apply sh_elem; lia).
  split; try apply Hs.
  - apply ev_send; [apply Hs|by constructor].
  - intros j Hj. simpl. unfold fset. destruct (Z.eqb_spec (zget l j) b) as [Hjb|Hne].
    + apply (sh_inj start l Hsh) in Hjb; [by subst|lia..].
    + apply Hs. destruct (decide (j = tail + k)); [by subst|lia].
Qed.

Lemma write_run_ok tail run s :
  0 <= tail -> 1 <= run -> tail + run <= zlen l -> consecutive tail run -> installed tail (tail + run) s ->
  wp E (ok ← xv6bio_rw_run_write (zget l tail) (take (Z.to_nat run) (drop (Z.to_nat tail) st));
        if ok : bool then mret () else mfor (Z.to_nat run) 0 (rewrite_block tail))
    (fun _ => installed (tail + run) (tail + run)) s.
Proof using Hsh Hlen Hx.
  intros H0 H1 Hn Hc Hs. wp_step. pose proof (zlen_run tail run H0 ltac:(lia) Hn) as Hl.
  assert (Hin : forall x, zget l tail <= x < zget l tail + run -> P x).
  { intros x (j&Hj&->)%run_in_list; [|done..]. apply sh_elem. lia. }
  apply wp_run_write.
  - intros Heq. rewrite Heq in Hl. unfold zlen in Hl. simpl in Hl. lia.
  - intros o. wp_steps. split; try apply Hs.
    + apply ev_send_oracle; [apply Hs|]. eapply Forall_impl; [apply run_cmd_range|]. intros w. rewrite Hl. apply Hin.
    + intros j Hj. simpl. rewrite apply_run_cmd, Hl. case_decide as Hr.
      * apply run_in_list in Hr as (k&Hk&Heq); [|done..]. apply (sh_inj start l Hsh) in Heq; [|lia..]. subst j.
        rewrite (Hc k Hk). replace (zget l tail + k - zget l tail) with k by lia. by apply zget_run.
      * apply Hs. assert (~ tail <= j < tail + run); [|lia]. intros Hjr. apply Hr.
        replace j with (tail + (j - tail)) by lia. rewrite Hc; lia.
  - intros o c Hcmd. rewrite Hl in Hcmd. eapply wp_mono.
    + apply (wp_for E (fun k => installed (tail + k) (tail + run))); [|intros k s' Hk; apply rewrite_block_ok; lia].
      rewrite Z.add_0_r. split; try apply Hs.
      * apply ev_send_oracle; [apply Hs|]. eapply Forall_impl; [exact Hcmd|]. intros w. apply Hin.
      * intros j Hj. simpl. rewrite apply_cmd_out; [by apply Hs|]. eapply Forall_impl; [exact Hcmd|].
        intros w Hw Heq. apply run_in_list in Hw as (k&Hk&Hwk); [|done..]. rewrite Heq in Hwk.
        apply (sh_inj start l Hsh) in Hwk; lia.
    + simpl. intros _ s' Hs'. by replace (tail + run) with (tail + Z.of_nat (Z.to_nat run)) at 1 by lia.
Qed.

Lemma install_loop_staged fuel tail s :
  0 <= tail <= zlen l -> zlen l - tail <= Z.of_nat fuel -> installed tail tail s ->
  wp E (install_loop fuel recovering true tail) (fun _ => installed (zlen l) (zlen l)) s.
Proof using All.
  revert tail s. induction fuel as [|fuel IH]; intros tail s Ht Hf Hs; simpl.
  { wp_steps. by replace (zlen l) with tail by lia. }
  wp_steps. rewrite (ev_block _ _ _ (in_ev _ _ _ Hs)).
  destruct (Z.ltb_spec tail (zlen l)); [|wp_steps; by replace (zlen l) with tail by lia].
  rewrite (in_stage _ _ _ Hs), Hst, (sh_num _ _ Hsh) by lia. simpl. wp_steps.
  eapply wp_mono; [apply (install_block_staged tail tail s st); [lia|lia|done|apply Hx; lia|done]|].
  simpl. intros _ s1 Hs1. wp_steps. eapply wp_mono; [apply (extend_run_ok _ tail 1); [lia..| |done]|].
  { intros j Hj. replace j with 0 by lia. by rewrite !Z.add_0_r. }
  simpl. intros run s2 (H1&Hn&Hc&Hs2). unfold count_run. wp_steps.
  assert (Hs3 : installed tail (tail + run) (with_stats s2 (g_commits s2) (g_log_blocks s2) (u64 (g_install_runs s2 + 1)))).
  { split; try apply Hs2. apply ev_stats, Hs2. }
  pose proof (write_run_ok tail run _ ltac:(lia) H1 Hn Hc Hs3) as Hw.
  unfold wp in Hw |- *. unfold mbind, ST_bind in Hw. destruct (xv6bio_rw_run_write _ _ _) as [[ok s4]|]; [|done].
  unfold mbind at 1, ST_bind at 1. destruct (if ok then _ else _) as [[[] s5]|]; [|done].
  apply (IH (tail + run) s5); [lia..|done].
Qed.
End staged.

Lemma install_loop_direct fuel tail s :
  (forall i, 0 <= i < zlen l -> view s0 (start + i + 1) = X i) ->
  0 <= tail <= zlen l -> zlen l - tail <= Z.of_nat fuel -> installed tail tail s ->
  wp E (install_loop fuel recovering false tail) (fun _ => installed (zlen l) (zlen l)) s.
Proof using All.
  intros Hx. revert tail s. induction fuel as [|fuel IH]; intros tail s Ht Hf Hs; simpl.
  { wp_steps. by replace (zlen l) with tail by lia. }
  wp_steps. rewrite (ev_block _ _ _ (in_ev _ _ _ Hs)).
  destruct (Z.ltb_spec tail (zlen l)); [|wp_steps; by replace (zlen l) with tail by lia].
  wp_steps. eapply wp_mono; [apply install_block_direct; [lia|apply Hx; lia|done]|].
  simpl. intros _ s1 Hs1. unfold count_run. wp_steps. apply IH; [lia..|]. split; try apply Hs1. apply ev_stats, Hs1.
Qed.
End install.

(** What [install_trans] reads the blocks from. *)
Record sources (recovering : bool) (X : Z -> block) (s : logst) : Prop := {
  so_disk : forall i, 0 <= i < zlen s.(l_block) -> s.(disk) (s.(l_start) + i + 1) = X i;
  so_stage : recovering = false -> s.(g_stage_valid) = true ->
    exists st, s.(g_stage) = Some st /\ forall i, 0 <= i < zlen s.(l_block) -> zget st i = X i;
  so_cache : recovering = true \/ s.(g_stage_valid) = false ->
    forall i, 0 <= i < zlen s.(l_block) -> view s (s.(l_start) + i + 1) = X i;
}.

Record installed_all (recovering : bool) (X : Z -> block) (s s' : logst) : Prop := {
  ia_ev : evolves (fun b => b ∈ s.(l_block)) s s';
  ia_stage : stage_ok s' /\ s'.(g_stage_valid) = false;
  ia_pins : forall b, s'.(pins) b = s.(pins) b - (if recovering then 0 else if decide (b ∈ s.(l_block)) then 1 else 0);
  ia_home : forall j, 0 <= j < zlen s.(l_block) ->
    s'.(cache) !! zget s.(l_block) j = Some (X j) /\ s'.(disk) (zget s.(l_block) j) = X j;
}.

Lemma install_done recovering X s s0 s' :
  evolves (fun b => b ∈ s.(l_block)) s s0 -> s0.(pins) = s.(pins) -> stage_ok s0 ->
  installed s0 recovering X (zlen s.(l_block)) (zlen s.(l_block)) s' ->
  installed_all recovering X s (with_stage s' s'.(g_stage) false).
Proof.
  intros He Hp Hok Hi. assert (Hl : s0.(l_block) = s.(l_block)) by apply He.
  destruct Hi as [Hev Hst Hpins Hc Hd]. rewrite Hl in *. split.
  - apply ev_stage. by apply (evolves_trans _ s s0).
  - split; [|done]. intros st. simpl. rewrite Hst. apply Hok.
  - intros b. simpl. rewrite Hpins, Hp, take_ge by (unfold zlen; lia). done.
  - intros j Hj. simpl. split; [by apply Hc|by apply Hd].
Qed.

Section install_trans.
Context (E : panic -> Prop) (recovering : bool) (X : Z -> block) (s : logst).
Context (Hsh : lshape s.(l_start) s.(l_block)) (Hok : stage_ok s) (Hso : sources recovering X s).
Abbreviation from_here s0 :=
  (evolves (fun b => b ∈ s.(l_block)) s s0 /\ s0.(pins) = s.(pins) /\ stage_ok s0).

Lemma nothing_installed s0 : installed s0 recovering X 0 0 s0.
Proof.
  split; try done; try lia; [auto with evolve|].
  intros b. destruct recovering; [lia|]. rewrite decide_False; [lia|]. apply not_elem_of_nil.
Qed.

Lemma install_finish s0 staged :
  from_here s0 ->
  wp E (install_loop (length s.(l_block)) recovering staged 0)
    (fun _ => installed s0 recovering X (zlen s.(l_block)) (zlen s.(l_block))) s0 ->
  wp E (install_loop (length s.(l_block)) recovering staged 0)
    (fun _ => wp E (set_stage_valid false) (fun _ s' => installed_all recovering X s s')) s0.
Proof.
  intros (He&Hp&Hok0) Hw. eapply wp_mono; [exact Hw|]. simpl. intros _ s' Hs'. log_steps.
  by apply (install_done recovering X s s0).
Qed.

Lemma install_direct s0 : recovering = true \/ s.(g_stage_valid) = false -> from_here s0 ->
  wp E (install_loop (length s.(l_block)) recovering false 0)
    (fun _ => wp E (set_stage_valid false) (fun _ s' => installed_all recovering X s s')) s0.
Proof using All.
  intros Hr Hs0. apply install_finish; [done|]. destruct Hs0 as (He&_).
  assert (Hl := ev_block _ _ _ He). assert (Hs := ev_start _ _ _ He). pose proof (zlen_nonneg s.(l_block)).
  rewrite <- Hl. apply install_loop_direct; rewrite ?Hl, ?Hs; [done| |lia|unfold zlen; lia|apply nothing_installed].
  intros i Hi. rewrite (ev_view _ s s0 _ He); [by apply (so_cache _ _ _ Hso)|].
  by apply (sh_log_not_in (l_start s)).
Qed.

Lemma install_staged s0 st :
  from_here s0 -> s0.(g_stage) = Some st -> (forall i, 0 <= i < zlen s.(l_block) -> zget st i = X i) ->
  wp E (install_loop (length s.(l_block)) recovering true 0)
    (fun _ => wp E (set_stage_valid false) (fun _ s' => installed_all recovering X s s')) s0.
Proof using Hsh Hok Hso.
  intros Hs0 Hst Hx. apply install_finish; [done|]. destruct Hs0 as (He&_&Hok0).
  assert (Hl := ev_block _ _ _ He). assert (Hs := ev_start _ _ _ He). pose proof (zlen_nonneg s.(l_block)).
  rewrite <- Hl. apply (install_loop_staged E s0 recovering X) with st; rewrite ?Hl, ?Hs;
    [done|done|by apply Hok0|done|lia|unfold zlen; lia|apply nothing_installed].
Qed.

Lemma install_trans_ok : wp E (install_trans recovering) (fun _ s' => installed_all recovering X s s') s.
Proof using All.
  unfold install_trans. wp_steps.
  assert (Hs0 : from_here s) by (split_and!; [apply evolves_refl|done..]).
  destruct (g_stage s) as [st|] eqn:Hst; simpl.
  2: { wp_steps. apply install_direct; [|done]. destruct recovering; [by left|right].
       destruct (g_stage_valid s) eqn:Hv; [|done].
       destruct (so_stage _ _ _ Hso eq_refl Hv) as (st&Hst'&_). congruence. }
  pose proof (zlen_nonneg (l_block s)).
  destruct (Z.ltb_spec 0 (zlen (l_block s))) as [Hn|Hn]; simpl.
  2: { wp_steps. replace (length (l_block s)) with 0%nat by (unfold zlen in *; lia).
       unfold install_loop. log_steps. apply (install_done recovering X s s); try apply Hs0.
       replace (zlen (l_block s)) with 0 by lia. apply nothing_installed. }
  destruct (negb recovering && g_stage_valid s) eqn:Hb; wp_steps.
  - apply andb_true_iff in Hb as [Hr%negb_true_iff Hv]. destruct (so_stage _ _ _ Hso Hr Hv) as (st'&Hst'&Hx).
    by apply (install_staged s st').
  - assert (Hcase : recovering = true \/ s.(g_stage_valid) = false).
    { destruct recovering; [by left|right]. by destruct (g_stage_valid s). }
    pose proof (sh_start _ _ Hsh) as Hstart. pose proof (sh_len _ _ Hsh) as Hmax. unfold XV6FS_LOGBLOCKS in *.
    rewrite (u32_small (l_start s + 1)), (u32_small (zlen _)) by lia.
    apply wp_run_read; [lia| |]; intros o; wp_steps.
    + simpl. rewrite Hst. set (bs := _ <$> seqZ 0 _). eapply install_staged; [|done|].
      * split_and!; [by apply ev_stage, ev_oracle, Hs0|done|]. intros st'. simpl. intros [= <-].
        assert (zlen bs = zlen (l_block s)) by (subst bs; unfold zlen; rewrite length_fmap, length_seqZ; lia).
        specialize (Hok st Hst). unfold zlen in *. rewrite length_app, length_drop. unfold XV6FS_LOGBLOCKS in *. lia.
      * intros i Hi. rewrite <- (so_disk _ _ _ Hso) by done. unfold zget. rewrite list_lookup_total_alt, lookup_app_l.
        { subst bs. rewrite list_lookup_fmap, lookup_seqZ_lt by lia. simpl. f_equal. lia. }
        subst bs. rewrite length_fmap, length_seqZ. lia.
    + apply install_direct; [done|]. split_and!; [by apply ev_oracle, Hs0|done|exact Hok].
Qed.
End install_trans.

(** ** What a disk means

    The contents of a disk after its log is replayed: a block the header names
    is in the log, any other block at its home. *)
Definition logical (start : Z) (d : Z -> block) (b : Z) : block :=
  match list_find (fun x => x = b) (head_blocks (d start)) with
  | Some (i, _) => d (start + Z.of_nat i + 1)
  | None => d b
  end.

Lemma logical_empty start d b : head_blocks (d start) = [] -> logical start d b = d b.
Proof. unfold logical. by intros ->. Qed.

Lemma logical_full start d l V b :
  head_blocks (d start) = l -> (forall i, 0 <= i < zlen l -> d (start + i + 1) = V (zget l i)) ->
  (b ∉ l -> d b = V b) -> logical start d b = V b.
Proof.
  unfold logical. intros -> Hl Hb. destruct (list_find _ l) as [[i x]|] eqn:Hf.
  - apply list_find_Some in Hf as (Hi&Hx&_). rewrite Hl.
    + unfold zget. rewrite Nat2Z.id. apply list_lookup_total_correct in Hi. by rewrite Hi, Hx.
    + apply lookup_lt_Some in Hi. unfold zlen. lia.
  - apply Hb. intros Hin. apply list_find_None in Hf. rewrite Forall_forall in Hf. by apply (Hf b).
Qed.

(** A disk whose log can be replayed. *)
Definition recoverable (start : Z) (d : Z -> block) : Prop :=
  zlen (d start) = BSIZE /\ lshape start (head_blocks (d start)).

Lemma logical_in start d i : recoverable start d -> 0 <= i < zlen (head_blocks (d start)) ->
  logical start d (zget (head_blocks (d start)) i) = d (start + i + 1).
Proof.
  intros [_ Hsh] Hi. unfold logical. set (l := head_blocks (d start)) in *.
  destruct (list_find _ l) as [[j x]|] eqn:Hfi.
  - apply list_find_Some in Hfi as (Hj&->&_). assert (Hz : zget l (Z.of_nat j) = zget l i).
    { unfold zget at 1. rewrite Nat2Z.id. by apply list_lookup_total_correct. }
    apply (sh_inj start l Hsh) in Hz; [by subst|apply lookup_lt_Some in Hj; unfold zlen; lia|done].
  - apply list_find_None in Hfi. rewrite Forall_forall in Hfi. by destruct (Hfi _ (sh_elem l i Hi)).
Qed.

Lemma logical_out start d b : b ∉ head_blocks (d start) -> logical start d b = d b.
Proof.
  intros Hb. unfold logical. destruct (list_find _ _) as [[j x]|] eqn:Hfi; [|done].
  apply list_find_Some in Hfi as (Hj&->&_). apply list_elem_of_lookup_2 in Hj. done.
Qed.

(** The journal between commits: its block list is well formed, the header on
    the disk is empty, and a buffer that differs from the disk belongs to a
    block in the list, which is pinned once. *)
Record linv (s : logst) : Prop := {
  li_shape : lshape s.(l_start) s.(l_block);
  li_size : zlen (s.(disk) s.(l_start)) = BSIZE;
  li_head : head_blocks (s.(disk) s.(l_start)) = [];
  li_clean : forall b x, b = s.(l_start) \/ home s.(l_start) b /\ b ∉ s.(l_block) ->
    s.(cache) !! b = Some x -> x = s.(disk) b;
  li_stage : stage_ok s /\ s.(g_stage_valid) = false;
  li_pins : forall b, s.(pins) b = if decide (b ∈ s.(l_block)) then 1 else 0;
}.

Lemma clean_eq s b : linv s -> b = s.(l_start) \/ home s.(l_start) b /\ b ∉ s.(l_block) -> view s b = s.(disk) b.
Proof.
  intros Hi Hb. unfold view. destruct (s.(cache) !! b) as [x|] eqn:Hx; simpl; [|done].
  by apply (li_clean _ Hi).
Qed.

Lemma start_not_home start : ~ home start start.
Proof. unfold home, XV6FS_LOGBLOCKS. lia. Qed.

Lemma crash_header d start new d' :
  zlen (d start) = BSIZE -> torn_cmd d [(start, new)] d' ->
  (exists l, zlen l <= XV6FS_LOGBLOCKS /\ new = put_head (d start) l) ->
  (d' start = d start \/ d' start = new) /\ forall b, b <> start -> d' b = d b.
Proof.
  intros Hs Ht (l&Hl&->). split.
  - destruct (Ht start) as [keep ->]. unfold apply_cmd. simpl. rewrite fset_eq. by apply put_head_atomic.
  - intros b Hb. destruct (Ht b) as [keep ->]. unfold apply_cmd. simpl. rewrite fset_ne by done. apply mix_same.
Qed.

Lemma lshape_nil start l : lshape start l -> lshape start [].
Proof.
  intros [H1 _ _ _]. split; [done|done|constructor|]. intros b Hb. by apply not_elem_of_nil in Hb.
Qed.

(** ** Crash safety of a commit, on its four groups of commands *)

Section crash.
Context (start : Z) (l : list Z) (d0 d1 d2 : Z -> block) (V : Z -> block) (cs1 cs2 : list cmd).
Context (Hsh : lshape start l).
(** the commands that write the log, the header, the homes, and the header *)
Context (H1 : cmds_in (in_log start (zlen l)) cs1) (Hd1 : d1 = apply_cmds d0 cs1).
Abbreviation new1 := (put_head (d0 start) l).
Abbreviation d1' := (apply_cmd d1 [(start, new1)]).
Context (H2 : cmds_in (fun b => b ∈ l) cs2) (Hd2 : d2 = apply_cmds d1' cs2).
Abbreviation new2 := (put_head new1 []).
Context (Hsize : zlen (d0 start) = BSIZE) (Hempty : head_blocks (d0 start) = []).
Context (Hlog : forall i, 0 <= i < zlen l -> d1 (start + i + 1) = V (zget l i)).
Context (Hhome : forall b, home start b -> b ∉ l -> d0 b = V b).
Context (Hinst : forall i, 0 <= i < zlen l -> d2 (zget l i) = V (zget l i)).

Lemma not_in_log b : home start b \/ b = start -> ~ in_log start (zlen l) b.
Proof using Hsh. pose proof (sh_len _ _ Hsh). unfold home, in_log. lia. Qed.

Lemma d1_out b : home start b \/ b = start -> d1 b = d0 b.
Proof using Hsh H1 Hd1. intros Hb. rewrite Hd1. apply (apply_cmds_out _ _ _ _ H1). by apply not_in_log. Qed.

Lemma start_not_in : start ∉ l.
Proof using Hsh. intros Hin. destruct (sh_home _ _ Hsh _ Hin) as [_ Hh]. by apply start_not_home in Hh. Qed.

Lemma new1_head : head_blocks new1 = l /\ zlen new1 = BSIZE.
Proof using Hsh Hsize.
  split; [apply head_put_head; try done; [apply Hsh|]|apply zlen_put_head; [done|apply Hsh]].
  intros b Hb. by apply (sh_home _ _ Hsh).
Qed.

(** Once the header is written and until it is cleared, the new contents. *)
Lemma committed_logical d b :
  d start = new1 -> (forall i, 0 <= i < zlen l -> d (start + i + 1) = V (zget l i)) ->
  (forall b, home start b -> b ∉ l -> d b = V b) -> home start b -> logical start d b = V b.
Proof using Hsh Hsize.
  intros Hs Hl Hd Hb. apply (logical_full start d l V); [rewrite Hs; apply new1_head|done|]. auto.
Qed.

Lemma d2_out b : b ∉ l -> d2 b = d1' b.
Proof using H2 Hd2. intros Hb. rewrite Hd2. by apply (apply_cmds_out _ _ _ _ H2). Qed.

Lemma d1'_log i : 0 <= i < zlen l -> d1' (start + i + 1) = V (zget l i).
Proof using Hlog. intros Hi. simpl. rewrite fset_ne by lia. by apply Hlog. Qed.
Lemma d1'_home b : home start b -> b ∉ l -> d1' b = V b.
Proof using Hsh H1 Hd1 Hhome.
  intros Hb Hin. simpl. rewrite fset_ne by (intros ->; by apply start_not_home in Hb).
  rewrite d1_out by (by left). by apply Hhome.
Qed.

Lemma all_installed b : home start b -> d2 b = V b.
Proof using H1 Hd1 H2 Hd2 Hsh Hhome Hinst.
  intros Hb. destruct (decide (b ∈ l)) as [Hin|Hin].
  - apply list_elem_of_lookup in Hin as [i Hi]. pose proof (lookup_lt_Some _ _ _ Hi) as Hlt.
    assert (Hz : zget l (Z.of_nat i) = b) by (unfold zget; rewrite Nat2Z.id; by apply list_lookup_total_correct).
    rewrite <- Hz. apply Hinst. unfold zlen. lia.
  - rewrite d2_out by done. by apply d1'_home.
Qed.

Lemma crash_safe d' :
  crash_of d0 (cs1 ++ [(start, new1)] :: cs2 ++ [[(start, new2)]]) d' ->
  (forall b, home start b -> logical start d' b = d0 b) \/ (forall b, home start b -> logical start d' b = V b).
Proof using All.
  assert (Hold : forall d, d start = d0 start -> (forall b, home start b -> d b = d0 b) ->
    forall b, home start b -> logical start d b = d0 b).
  { intros d Hs Hd b Hb. rewrite logical_empty; [by apply Hd|]. by rewrite Hs. }
  assert (Hd1s : d1 start = d0 start) by (apply d1_out; by right).
  assert (Hd2s : d2 start = new1) by (rewrite d2_out by apply start_not_in; simpl; by rewrite fset_eq).
  intros Hc. apply crash_app in Hc as [Hc|Hc]; rewrite <- ?Hd1 in Hc.
  { left. apply Hold; [|intros b Hb]; apply (crash_out _ _ _ _ _ H1 Hc), not_in_log; auto. }
  destruct Hc as [Ht|Hc].
  { apply crash_header in Ht as [[Hs|Hs] Ho]; [| |by rewrite Hd1s|exists l; by rewrite Hd1s; split; [apply Hsh|]].
    - left. apply Hold; [by rewrite Hs|]. intros b Hb. rewrite Ho; [apply d1_out; by left|].
      intros ->. by apply start_not_home in Hb.
    - right. intros b Hb. apply committed_logical; [done| | |done].
      + intros i Hi. rewrite Ho by lia. by apply Hlog.
      + intros b' Hb' Hin. rewrite Ho by (intros ->; by apply start_not_home in Hb').
        rewrite d1_out by (by left). by apply Hhome. }
  right. apply crash_app in Hc as [Hc|Hc]; rewrite <- ?Hd2 in Hc.
  { intros b Hb. apply committed_logical; [..|done].
    - rewrite (crash_out _ _ _ _ _ H2 Hc start_not_in). simpl. by rewrite fset_eq.
    - intros i Hi. rewrite (crash_out _ _ _ _ _ H2 Hc); [by apply d1'_log|]. by apply (sh_log_not_in start l Hsh).
    - intros b' Hb' Hin. rewrite (crash_out _ _ _ _ _ H2 Hc Hin). by apply d1'_home. }
  assert (Hend : forall d, d start = new2 -> (forall b, b <> start -> d b = d2 b) ->
    forall b, home start b -> logical start d b = V b).
  { intros d Hs Ho b Hb. rewrite logical_empty.
    - rewrite Ho by (intros ->; by apply start_not_home in Hb). by apply all_installed.
    - rewrite Hs. apply head_put_head; [apply new1_head|done|]. intros b' Hb'. by apply not_elem_of_nil in Hb'. }
  destruct Hc as [Ht|Hc].
  - destruct new1_head as [_ Hnsz].
    apply crash_header in Ht as [[Hs|Hs] Ho]; [| |by rewrite Hd2s|exists []; by rewrite Hd2s].
    + intros b Hb. apply committed_logical; [congruence| | |done].
      * intros i Hi. rewrite Ho, d2_out by (try apply (sh_log_not_in start l Hsh); lia). by apply d1'_log.
      * intros b' Hb' Hin. rewrite Ho by (intros ->; by apply start_not_home in Hb'). by apply all_installed.
    + by apply Hend.
  - apply Hend; intros; rewrite Hc; simpl; [by rewrite fset_eq|by rewrite fset_ne].
Qed.

(** At every point the header is whole. *)
Lemma crash_recoverable d' :
  crash_of d0 (cs1 ++ [(start, new1)] :: cs2 ++ [[(start, new2)]]) d' -> recoverable start d'.
Proof using Hsh H1 Hd1 H2 Hd2 Hsize Hempty.
  destruct new1_head as [Hh1 Hs1].
  assert (Hd1s : d1 start = d0 start) by (apply d1_out; by right).
  assert (Hd2s : d2 start = new1) by (rewrite d2_out by apply start_not_in; simpl; by rewrite fset_eq).
  assert (Hn2 : head_blocks new2 = []).
  { apply head_put_head; [done..|]. intros b Hb. by apply not_elem_of_nil in Hb. }
  assert (Hany : d' start = d0 start \/ d' start = new1 \/ d' start = new2 -> recoverable start d').
  { intros [Hs|[Hs|Hs]]; split; rewrite Hs, ?Hempty, ?Hh1, ?Hn2; try done; try by apply (lshape_nil start l).
    by apply zlen_put_head. }
  intros Hc. apply Hany. apply crash_app in Hc as [Hc|Hc]; rewrite <- ?Hd1 in Hc.
  { left. apply (crash_out _ _ _ _ _ H1 Hc), not_in_log. by right. }
  destruct Hc as [Ht|Hc].
  { apply crash_header in Ht as [[Hs|Hs] _]; [left; congruence|by right; left|by rewrite Hd1s|].
    exists l. rewrite Hd1s. split; [apply Hsh|done]. }
  apply crash_app in Hc as [Hc|Hc]; rewrite <- ?Hd2 in Hc.
  { right; left. rewrite (crash_out _ _ _ _ _ H2 Hc start_not_in). simpl. by rewrite fset_eq. }
  destruct Hc as [Ht|Hc]; [|right; right; rewrite Hc; simpl; by rewrite fset_eq].
  apply crash_header in Ht as [[Hs|Hs] _]; [right; left; congruence|by right; right|by rewrite Hd2s|].
  exists []. by rewrite Hd2s.
Qed.
End crash.

(** ** Sorting *)

Section sort.
Implicit Types (A B R l : list Z) (v : Z).

Lemma zget_mid A x R : zget (A ++ x :: R) (zlen A) = x.
Proof. unfold zget, zlen. rewrite Nat2Z.id, list_lookup_total_alt, list_lookup_middle by done. done. Qed.

Lemma zset_mid A x y R : zset (A ++ x :: R) (zlen A) y = A ++ y :: R.
Proof. unfold zset, zlen. rewrite Nat2Z.id. by rewrite insert_app_r_alt, Nat.sub_diag by lia. Qed.

(** The hole moves left over the elements larger than [v]. *)
Lemma sort_shift_spec fuel A y R v :
  (length A <= fuel)%nat ->
  exists A1 A2 y', A = A1 ++ A2 /\ Forall (fun x => v < x) A2 /\ (forall a, last A1 = Some a -> a <= v) /\
    sort_shift fuel (A ++ y :: R) (zlen A - 1) v = (A1 ++ y' :: A2 ++ R, zlen A1 - 1).
Proof.
  revert fuel y R. induction A as [|a A IH] using rev_ind; intros fuel y R Hf.
  - exists [], [], y. split_and!; try done. by destruct fuel.
  - rewrite length_app in Hf. simpl in Hf. destruct fuel as [|fuel]; [lia|]. simpl.
    assert (Hlen : zlen (A ++ [a]) = zlen A + 1) by (unfold zlen; rewrite length_app; simpl; lia).
    rewrite Hlen. replace (zlen A + 1 - 1) with (zlen A) by lia. rewrite <- app_assoc. simpl. rewrite zget_mid.
    pose proof (zlen_nonneg A). rewrite (proj2 (Z.leb_le 0 (zlen A))) by done. simpl.
    destruct (Z.ltb_spec v a) as [Hva|Hva].
    + replace (A ++ a :: y :: R) with ((A ++ [a]) ++ y :: R) by (by rewrite <- app_assoc). rewrite <- Hlen, zset_mid.
      rewrite <- app_assoc. simpl. destruct (IH fuel a (a :: R) ltac:(lia)) as (A1&A2&y'&->&H2&H1&Heq).
      exists A1, (A2 ++ [a]), y'. split_and!; [by rewrite app_assoc|apply Forall_app; auto|done|].
      rewrite Heq. by rewrite <- app_assoc.
    + exists (A ++ [a]), [], y. split_and!; [by rewrite app_nil_r|done| |].
      * intros a'. rewrite last_snoc. intros [= <-]. done.
      * simpl. rewrite <- app_assoc. f_equal. rewrite Hlen. lia.
Qed.

Lemma sorted_insert A1 A2 v :
  StronglySorted Z.le (A1 ++ A2) -> Forall (fun x => v < x) A2 -> (forall a, last A1 = Some a -> a <= v) ->
  StronglySorted Z.le (A1 ++ v :: A2).
Proof.
  intros Hs H2 H1. induction A1 as [|a A1 IH]; simpl in *.
  - constructor; [done|]. eapply Forall_impl; [exact H2|]. simpl. lia.
  - apply StronglySorted_inv in Hs as [Hs Ha].
    assert (Hav : a <= v).
    { destruct A1 as [|b A1]; [by apply H1|]. apply Forall_cons_1 in Ha as [Hab Ha].
      destruct (last (b :: A1)) as [z|] eqn:Hz; [|by apply last_None in Hz].
      specialize (H1 z ltac:(simpl in *; done)). apply last_Some in Hz as [l' Hz].
      assert (Hin : z ∈ b :: A1) by (rewrite Hz; set_solver). rewrite Forall_forall in Ha.
      apply elem_of_cons in Hin as [->|Hin]; [lia|]. specialize (Ha z ltac:(by apply elem_of_app; left)). lia. }
    constructor.
    + apply IH; [done|]. intros z Hz. apply H1. destruct A1; [done|]. exact Hz.
    + apply Forall_app in Ha as [Ha1 Ha2]. apply Forall_app. auto.
Qed.

Lemma sort_insert_spec A v R : StronglySorted Z.le A ->
  exists A', sort_insert (A ++ v :: R) (zlen A) = A' ++ R /\ A' ≡ₚ v :: A /\ StronglySorted Z.le A'.
Proof.
  intros Hs. unfold sort_insert. rewrite zget_mid. pose proof (zlen_nonneg A).
  destruct (sort_shift_spec (Z.to_nat (zlen A)) A v R v) as (A1&A2&y'&->&H2&H1&Heq); [unfold zlen; lia|].
  rewrite Heq. simpl. replace (zlen A1 - 1 + 1) with (zlen A1) by lia. rewrite zset_mid.
  exists (A1 ++ v :: A2). split_and!.
  - by rewrite <- app_assoc.
  - by rewrite Permutation_middle.
  - by apply sorted_insert.
Qed.

Lemma sort_loop A R : StronglySorted Z.le A ->
  exists A', foldl sort_insert (A ++ R) (seqZ (zlen A) (zlen R)) = A' /\ A' ≡ₚ A ++ R /\ StronglySorted Z.le A'.
Proof.
  revert A. induction R as [|v R IH]; intros A Hs; simpl.
  - exists A. by rewrite app_nil_r.
  - assert (Hz : zlen (v :: R) = Z.succ (zlen R)) by (unfold zlen; simpl length; lia).
    pose proof (zlen_nonneg R). rewrite Hz, seqZ_cons by lia. simpl.
    destruct (sort_insert_spec A v R Hs) as (A'&->&Hp&Hs').
    replace (Z.succ (zlen A)) with (zlen A') by (unfold zlen; rewrite Hp; simpl length; lia).
    replace (Z.pred (Z.succ (zlen R))) with (zlen R) by lia.
    destruct (IH A' Hs') as (A2&->&Hp2&Hs2). exists A2. split_and!; [done| |done].
    rewrite Hp2, Hp. simpl. by rewrite Permutation_middle.
Qed.

Lemma sort_blocks_spec l : sort_blocks l ≡ₚ l /\ StronglySorted Z.le (sort_blocks l).
Proof.
  unfold sort_blocks. destruct l as [|x l]; [split; [reflexivity|apply SSorted_nil]|].
  destruct (sort_loop [x] l) as (A&Heq&Hp&Hs); [by repeat constructor|].
  replace (zlen (x :: l) - 1) with (zlen l) by (unfold zlen; simpl length; lia).
  change (seqZ 1 (zlen l)) with (seqZ (zlen [x]) (zlen l)). change (x :: l) with ([x] ++ l). by rewrite Heq.
Qed.
End sort.

(** ** Commit *)

(** What a commit does: [V] are the contents its callers saw before. *)
Record committed (s s' : logst) : Prop := {
  co_inv : linv s';
  co_empty : s'.(l_block) = [];
  co_start : s'.(l_start) = s.(l_start);
  co_ops : (s'.(l_outstanding), s'.(l_reserved), s'.(l_committing)) =
           (s.(l_outstanding), s.(l_reserved), s.(l_committing));
  co_view : forall b, home s.(l_start) b -> view s' b = view s b;
  co_disk : forall b, home s.(l_start) b -> s'.(disk) b = view s b;
  co_trace : exists cs, s'.(trace) = s.(trace) ++ cs /\ s'.(disk) = apply_cmds s.(disk) cs /\
    forall d', crash_of s.(disk) cs d' -> recoverable s.(l_start) d' /\
      ((forall b, home s.(l_start) b -> logical s.(l_start) d' b = s.(disk) b) \/
       (forall b, home s.(l_start) b -> logical s.(l_start) d' b = view s b));
}.

Lemma lshape_perm start l l' : l' ≡ₚ l -> lshape start l -> lshape start l'.
Proof.
  intros Hp [H1 H2 H3 H4]. split; [done|unfold zlen in *; by rewrite Hp|by rewrite Hp|].
  intros b Hb. apply H4. by rewrite <- Hp.
Qed.

(** The sorted block list, before anything is written. *)
Lemma linv_sorted s c b r : linv s ->
  linv (with_blocks (with_stats s c b r) (sort_blocks s.(l_block))).
Proof.
  intros [H1 H2 H3 H4 H5 H6]. destruct (sort_blocks_spec s.(l_block)) as [Hp _]. split; simpl; try done.
  - by apply (lshape_perm _ _ _ Hp).
  - intros x y Hx. apply H4. by rewrite Hp in Hx.
  - intros x. rewrite H6. destruct (decide (x ∈ l_block s)) as [Hx|Hx]; rewrite <- Hp in Hx;
      [by rewrite decide_True|by rewrite decide_False].
Qed.

Section commit.
Context (E : panic -> Prop) (s : logst) (Hi : linv s).
Abbreviation start := (s.(l_start)).
Abbreviation l := (s.(l_block)).
Abbreviation new1 := (put_head (s.(disk) start) l).

Abbreviation X := (fun i => view s (zget l i)).
Abbreviation header s0 new :=
  (with_dev s0 (apply_cmd s0.(disk) [(start, new)]) (<[start := new]> s0.(cache)) (s0.(trace) ++ [[(start, new)]])).

(** After the log is written ([s3]) and its header; then after the blocks are
    installed ([s5]). *)
Section phases.
Context (s3 s5 : logst).
Context (He3 : evolves (in_log start (zlen l)) s s3) (Hp3 : s3.(pins) = s.(pins)) (Hok3 : stage_ok s3).
Context (Hlog : logged start l X s3).
Abbreviation s4 := (header s3 new1).

Lemma start_view : view s start = s.(disk) start.
Proof using Hi. apply clean_eq; [done|by left]. Qed.

Lemma s3_start : view s3 start = s.(disk) start /\ s3.(disk) start = s.(disk) start.
Proof using Hi He3.
  assert (Hn : ~ in_log start (zlen l) start) by (unfold in_log; lia).
  rewrite (ev_view _ s s3 start He3 Hn), start_view. split; [done|]. by apply (ev_loaded _ _ _ He3).
Qed.

Lemma s4_sources : sources false X s4.
Proof using Hi He3 Hlog.
  assert (Hb : s4.(l_block) = l) by apply He3. assert (Hs : s4.(l_start) = start) by apply He3.
  split; rewrite ?Hb, ?Hs.
  - intros i Hi'. simpl. rewrite fset_ne by lia. by apply Hlog.
  - intros _ Hv. by apply Hlog.
  - intros [?|Hv] i Hi'; [done|]. simpl in Hv. rewrite <- (lo_cache _ _ _ _ Hlog Hv i Hi'). unfold view. simpl.
    rewrite lookup_insert_ne, fset_ne by lia. done.
Qed.

Context (H5 : installed_all false X s4 s5).
Abbreviation s7 := (header (with_blocks s5 []) (put_head new1 [])).

Lemma l_start5 : s5.(l_start) = start /\ s5.(l_block) = l.
Proof using H5 He3.
  rewrite (ev_start _ _ _ (ia_ev _ _ _ _ H5)), (ev_block _ _ _ (ia_ev _ _ _ _ H5)). simpl. split; apply He3.
Qed.

Lemma s4_l : s4.(l_block) = l.
Proof using He3. apply He3. Qed.

Lemma s5_start : view s5 start = new1 /\ s5.(disk) start = new1.
Proof using H5 Hi He3.
  assert (Hn : start ∉ s4.(l_block)) by (rewrite s4_l; apply (start_not_in start l), Hi).
  pose proof (ev_loaded _ _ _ (ia_ev _ _ _ _ H5) start Hn) as Hl.
  split; [|destruct Hl as [-> _]; simpl; by rewrite fset_eq].
  rewrite (loaded_view s4 s5 start) by done. unfold view. simpl. by rewrite lookup_insert_eq.
Qed.

(** Homes: those in the list, and the others. *)
Lemma s5_in b : b ∈ l -> s5.(cache) !! b = Some (view s b) /\ s5.(disk) b = view s b.
Proof using H5 He3.
  intros Hb. apply list_elem_of_lookup in Hb as [i Hx]. pose proof (lookup_lt_Some _ _ _ Hx) as Hlt.
  assert (Hz : zget l (Z.of_nat i) = b) by (unfold zget; rewrite Nat2Z.id; by apply list_lookup_total_correct).
  pose proof (ia_home _ _ _ _ H5 (Z.of_nat i)) as Hh. rewrite s4_l, Hz in Hh. apply Hh. unfold zlen. lia.
Qed.

Lemma s5_out b : home start b -> b ∉ l ->
  s5.(disk) b = s.(disk) b /\ (s5.(cache) !! b = s.(cache) !! b \/ s5.(cache) !! b = Some (view s b)).
Proof using H5 He3 Hi.
  intros Hb Hin. assert (Hne : b <> start) by (intros ->; by apply start_not_home in Hb).
  destruct (ev_loaded _ _ _ (ia_ev _ _ _ _ H5) b ltac:(by rewrite s4_l)) as [Hd Hc].
  assert (Hnl : ~ in_log start (zlen l) b).
  { pose proof (sh_len _ _ (li_shape _ Hi)). unfold in_log, home in *. lia. }
  pose proof (ev_view _ _ _ b He3 Hnl) as Hv. destruct (ev_loaded _ _ _ He3 b Hnl) as [Hd3 Hc3]. simpl in *.
  rewrite fset_ne in Hd by done. rewrite lookup_insert_ne in Hc by done. split; [congruence|].
  destruct Hc as [Hc|Hc]; rewrite Hc; [done|]. right. f_equal. rewrite <- Hv. unfold view. simpl.
  by rewrite lookup_insert_ne, fset_ne.
Qed.

Lemma s7_home b : home start b -> s7.(disk) b = view s b /\ (forall x, s7.(cache) !! b = Some x -> x = view s b).
Proof using H5 He3 Hi.
  intros Hb. assert (Hne : b <> start) by (intros ->; by apply start_not_home in Hb).
  simpl. rewrite fset_ne, lookup_insert_ne by done. destruct (decide (b ∈ l)) as [Hin|Hin].
  - destruct (s5_in b Hin) as [-> ->]. split; [done|]. by intros x [= <-].
  - destruct (s5_out b Hb Hin) as [-> Hc]. rewrite <- (clean_eq s b Hi) by (by right). split; [done|]. intros x.
    destruct Hc as [-> | ->]; [|by intros [= <-]]. unfold view. by intros ->.
Qed.

Lemma s7_linv : linv s7.
Proof using All.
  destruct l_start5 as [Hs5 Hl5]. destruct (ia_stage _ _ _ _ H5) as [Hok5 Hv5].
  destruct (new1_head start l s.(disk) (li_shape _ Hi) (li_size _ Hi)) as [_ Hsz].
  split; simpl; rewrite ?Hs5, ?fset_eq.
  - by apply (lshape_nil start l), Hi.
  - by apply zlen_put_head.
  - apply head_put_head; [done..|]. intros b Hb. by apply not_elem_of_nil in Hb.
  - intros b x [->|[Hb _]] Hx.
    + rewrite lookup_insert_eq in Hx. rewrite fset_eq. by simplify_eq.
    + destruct (s7_home b Hb) as [Hd Hc]. simpl in Hd, Hc. rewrite Hd. by apply Hc.
  - done.
  - intros b. rewrite (ia_pins _ _ _ _ H5). simpl. rewrite Hp3, (li_pins _ Hi), (ev_block _ _ _ He3).
    destruct (decide (b ∈ l)); reflexivity.
Qed.

Lemma s7_committed : committed s s7.
Proof using All.
  destruct l_start5 as [Hs5 Hl5]. destruct s3_start as [_ Hd3].
  destruct (ev_trace _ _ _ He3) as (cs1&Ht1&Hd1&Hc1). destruct (ev_trace _ _ _ (ia_ev _ _ _ _ H5)) as (cs2&Ht2&Hd2&Hc2).
  rewrite s4_l in Hc2. split.
  - apply s7_linv.
  - done.
  - done.
  - simpl. rewrite (ev_ops _ _ _ (ia_ev _ _ _ _ H5)). exact (ev_ops _ _ _ He3).
  - intros b Hb. destruct (s7_home b Hb) as [Hd Hc]. unfold view at 1.
    destruct (cache s7 !! b) as [x|] eqn:Hx; [|done]. by apply Hc.
  - intros b Hb. exact (proj1 (s7_home b Hb)).
  - exists (cs1 ++ [(start, new1)] :: cs2 ++ [[(start, put_head new1 [])]]). split_and!.
    + simpl. rewrite Ht2. simpl. rewrite Ht1. by rewrite <- !app_assoc.
    + unfold apply_cmds. rewrite foldl_app. simpl. rewrite foldl_app. simpl. rewrite Hd2. simpl. by rewrite Hd1.
    + intros d' Hcr.
      split; [by apply (crash_recoverable start l s.(disk) s3.(disk) s5.(disk) cs1 cs2); try apply Hi|].
      revert Hcr. refine (crash_safe start l s.(disk) s3.(disk) s5.(disk) (view s) cs1 cs2 _ Hc1 Hd1 Hc2 Hd2 _ _ _ _ _ d');
        try apply Hi; try apply Hlog.
      * intros b Hb Hin. symmetry. apply clean_eq; [done|by right].
      * intros i Hi'. by apply s5_in, sh_elem.
Qed.
End phases.

Lemma commit_tail :
  wp E (write_log;; write_head;; install_trans false;; clear_blocks;; write_head) (fun _ s' => committed s s') s.
Proof using Hi.
  pose proof (li_shape _ Hi) as Hsh. destruct (li_stage _ Hi) as [Hst Hv].
  assert (Hu : u32 start = start).
  { apply u32_small. pose proof (sh_start _ _ Hsh). unfold XV6FS_LOGBLOCKS in *. lia. }
  wp_steps. eapply wp_mono; [by apply write_log_ok|]. simpl. intros _ s3 (He3&Hp3&Hok3&Hlog).
  assert (Hs3 := ev_start _ _ _ He3). assert (Hb3 := ev_block _ _ _ He3).
  wp_steps. apply wp_write_head; [by rewrite Hs3|]. rewrite Hs3, Hb3, (proj1 (s3_start s3 He3)). cbv zeta.
  wp_steps. eapply wp_mono; [apply install_trans_ok|].
  - simpl. by rewrite Hs3, Hb3.
  - exact Hok3.
  - by apply s4_sources.
  - simpl. intros _ s5 H5. unfold clear_blocks. wp_steps. destruct (l_start5 s3 s5 He3 H5) as [Hs5 _].
    apply wp_write_head; [simpl; by rewrite Hs5|]. simpl l_block. simpl l_start. rewrite Hs5.
    replace (view (with_blocks s5 []) start) with (view s5 start) by done. rewrite (proj1 (s5_start s3 s5 He3 H5)).
    by apply (s7_committed s3 s5).
Qed.
End commit.

Lemma committed_nothing s : linv s -> s.(l_block) = [] -> committed s s.
Proof.
  intros Hi Hl.
  assert (Hcl : forall b, home s.(l_start) b -> view s b = s.(disk) b).
  { intros b Hb. apply clean_eq; [done|]. right. rewrite Hl. split; [done|apply not_elem_of_nil]. }
  split; try done.
  - intros b Hb. by rewrite Hcl.
  - exists []. rewrite app_nil_r. split_and!; [done..|]. simpl. intros d' Hd'.
    assert (Hh : head_blocks (d' s.(l_start)) = []) by (rewrite Hd'; apply Hi).
    split; [split; [rewrite Hd'; apply Hi|rewrite Hh; by apply (lshape_nil _ s.(l_block)), Hi]|].
    left. intros b Hb. by rewrite logical_empty.
Qed.

Lemma commit_ok E s : linv s -> wp E commit (fun _ s' => committed s s') s.
Proof.
  intros Hi. unfold commit. wp_steps. pose proof (zlen_nonneg (l_block s)).
  destruct (Z.ltb_spec 0 (zlen (l_block s))) as [Hn|Hn].
  - unfold sort_log_blocks. wp_step. wp_step. wp_step. wp_step. simpl.
    eapply wp_mono; [apply commit_tail; by apply linv_sorted|].
    simpl. intros _ s' [H1 H2 H3 H4 H5 H6 H7]. split; done.
  - wp_steps. apply committed_nothing; [done|]. apply length_zero_iff_nil. unfold zlen in *. lia.
Qed.

(** ** Recovery *)

Record recovered (s s' : logst) : Prop := {
  re_inv : linv s';
  re_empty : s'.(l_block) = [];
  re_start : s'.(l_start) = s.(l_start);
  re_ops : (s'.(l_outstanding), s'.(l_reserved), s'.(l_committing)) =
           (s.(l_outstanding), s.(l_reserved), s.(l_committing));
  re_disk : forall b, home s.(l_start) b -> s'.(disk) b = logical s.(l_start) s.(disk) b;
  re_view : forall b, home s.(l_start) b -> view s' b = logical s.(l_start) s.(disk) b;
  re_trace : exists cs, s'.(trace) = s.(trace) ++ cs /\ s'.(disk) = apply_cmds s.(disk) cs /\
    forall d', crash_of s.(disk) cs d' ->
      recoverable s.(l_start) d' /\
      forall b, home s.(l_start) b -> logical s.(l_start) d' b = logical s.(l_start) s.(disk) b;
}.

(** Just after mounting: every buffer shows the disk, nothing is pinned. *)
Record fresh (s : logst) : Prop := {
  fr_clean : forall b x, s.(cache) !! b = Some x -> x = s.(disk) b;
  fr_pins : forall b, s.(pins) b = 0;
  fr_stage : stage_ok s /\ s.(g_stage_valid) = false;
}.

Lemma fresh_view s b : fresh s -> view s b = s.(disk) b.
Proof.
  intros Hf. unfold view. destruct (s.(cache) !! b) as [x|] eqn:Hx; [|done]. by apply (fr_clean _ Hf).
Qed.

Section recovery.
Context (E : panic -> Prop) (s : logst) (Hf : fresh s) (Hr : recoverable s.(l_start) s.(disk)).
Abbreviation start := (s.(l_start)).
Abbreviation l := (head_blocks (s.(disk) start)).
Abbreviation V := (logical start s.(disk)).
Abbreviation old := (s.(disk) start).

Lemma log_of i : 0 <= i < zlen l -> V (zget l i) = s.(disk) (start + i + 1).
Proof using Hr. by apply logical_in. Qed.
Lemma out_of b : b ∉ l -> V b = s.(disk) b.
Proof. apply logical_out. Qed.

(** While the blocks are installed, and when the header is cleared. *)
Lemma recovery_crash cs2 d2 d' :
  cmds_in (fun b => b ∈ l) cs2 -> d2 = apply_cmds s.(disk) cs2 ->
  (forall i, 0 <= i < zlen l -> d2 (zget l i) = V (zget l i)) ->
  crash_of s.(disk) (cs2 ++ [[(start, put_head old [])]]) d' ->
  recoverable start d' /\ forall b, home start b -> logical start d' b = V b.
Proof using Hr.
  intros Hc2 Hd2 Hinst Hc. destruct Hr as [Hsz Hsh].
  assert (Hkeep : forall d, d start = old -> (forall b, b ∉ l -> d b = s.(disk) b) ->
    recoverable start d /\ forall b, home start b -> logical start d b = V b).
  { intros d Hs Ho. split; [split; by rewrite Hs|]. intros b Hb.
    apply (logical_full start d l V); [by rewrite Hs| |].
    - intros i Hi. rewrite log_of by done. apply Ho. by apply (sh_log_not_in start l Hsh).
    - intros Hin. rewrite Ho, out_of by done. done. }
  assert (Hd2s : d2 start = old).
  { rewrite Hd2. apply (apply_cmds_out _ _ _ _ Hc2). by apply (start_not_in start l Hsh). }
  assert (Hend : forall d, d start = put_head old [] -> (forall b, b <> start -> d b = d2 b) ->
    recoverable start d /\ forall b, home start b -> logical start d b = V b).
  { intros d Hs Ho. assert (Hh : head_blocks (d start) = []).
    { rewrite Hs. apply head_put_head; [done|done|]. intros b Hb. by apply not_elem_of_nil in Hb. }
    split; [split; [rewrite Hs; by apply zlen_put_head|rewrite Hh; by apply (lshape_nil start l)]|].
    intros b Hb. rewrite logical_empty by done. rewrite Ho by (intros ->; by apply start_not_home in Hb).
    destruct (decide (b ∈ l)) as [Hin|Hin].
    - apply list_elem_of_lookup in Hin as [i Hx]. pose proof (lookup_lt_Some _ _ _ Hx).
      assert (Hz : zget l (Z.of_nat i) = b) by (unfold zget; rewrite Nat2Z.id; by apply list_lookup_total_correct).
      rewrite <- Hz. apply Hinst. unfold zlen. lia.
    - rewrite Hd2, (apply_cmds_out _ _ _ _ Hc2 Hin), out_of by done. done. }
  apply crash_app in Hc as [Hc|Hc]; rewrite <- ?Hd2 in Hc.
  - apply Hkeep; [apply (crash_out _ _ _ _ _ Hc2 Hc), (start_not_in start l Hsh)|].
    intros b Hb. by apply (crash_out _ _ _ _ _ Hc2 Hc).
  - destruct Hc as [Ht|Hc]; [|apply Hend; intros; rewrite Hc; simpl; [by rewrite fset_eq|by rewrite fset_ne]].
    apply crash_header in Ht as [[Hs|Hs] Ho]; [| |by rewrite Hd2s|exists []; by rewrite Hd2s].
    + apply Hkeep; [congruence|]. intros b Hb. destruct (decide (b = start)) as [->|Hne]; [congruence|].
      rewrite Ho, Hd2 by done. by apply (apply_cmds_out _ _ _ _ Hc2).
    + by apply Hend.
Qed.

(** The state when the homes are written, and after the header is cleared. *)
Section done.
Context (s1 s5 : logst).
Context (Hs1 : s1.(disk) = s.(disk) /\ s1.(trace) = s.(trace) /\ s1.(pins) = s.(pins) /\ s1.(l_start) = start).
Context (Hops1 : (s1.(l_outstanding), s1.(l_reserved), s1.(l_committing)) =
                 (s.(l_outstanding), s.(l_reserved), s.(l_committing))).
Context (Hl1 : s1.(l_block) = l) (Hc1 : forall b x, s1.(cache) !! b = Some x -> x = s.(disk) b).
Abbreviation X := (fun i => V (zget l i)).
Context (H5 : installed_all true X s1 s5).
Abbreviation s7 := (with_dev (with_blocks s5 []) (apply_cmd s5.(disk) [(start, put_head old [])])
  (<[start := put_head old []]> s5.(cache)) (s5.(trace) ++ [[(start, put_head old [])]])).

Lemma s1_view b : view s1 b = s.(disk) b.
Proof using Hs1 Hc1.
  unfold view. destruct (s1.(cache) !! b) as [x|] eqn:Hx; simpl; [by apply Hc1|]. by destruct Hs1 as [-> _].
Qed.

Lemma rec_start : start ∉ l.
Proof using Hr. apply (start_not_in start l), Hr. Qed.

Lemma r5_start : view s5 start = old /\ s5.(disk) start = old /\ s5.(l_start) = start.
Proof using H5 Hr Hs1 Hl1 Hc1.
  pose proof (ia_ev _ _ _ _ H5) as He. rewrite Hl1 in He.
  rewrite (ev_view _ s1 s5 start He rec_start), s1_view, (ev_start _ _ _ He).
  destruct (ev_loaded _ _ _ He start rec_start) as [-> _]. destruct Hs1 as (->&_&_&->). done.
Qed.

Lemma r7_home b : home start b -> s7.(disk) b = V b /\ (forall x, s7.(cache) !! b = Some x -> x = V b).
Proof using H5 Hs1 Hl1 Hc1.
  intros Hb. assert (Hne : b <> start) by (intros ->; by apply start_not_home in Hb).
  simpl. rewrite fset_ne, lookup_insert_ne by done. pose proof (ia_ev _ _ _ _ H5) as He. rewrite Hl1 in He.
  destruct (decide (b ∈ l)) as [Hin|Hin].
  - apply list_elem_of_lookup in Hin as [i Hx]. pose proof (lookup_lt_Some _ _ _ Hx) as Hlt.
    assert (Hz : zget l (Z.of_nat i) = b) by (unfold zget; rewrite Nat2Z.id; by apply list_lookup_total_correct).
    pose proof (ia_home _ _ _ _ H5 (Z.of_nat i)) as Hh. rewrite Hl1, Hz in Hh.
    destruct Hh as [-> ->]; [unfold zlen; lia|]. split; [done|]. by intros x [= <-].
  - destruct (ev_loaded _ _ _ He b Hin) as [-> Hc]. rewrite out_of by done. destruct Hs1 as (->&_). split; [done|].
    intros x. destruct Hc as [-> | ->]; [apply Hc1|]. rewrite s1_view. by intros [= <-].
Qed.

Lemma r7_recovered : recovered s s7.
Proof using All.
  destruct r5_start as (Hv5&Hd5&Hst5). destruct (ia_stage _ _ _ _ H5) as [Hok5 Hsv5]. destruct Hr as [Hsz Hsh].
  split; try done.
  - split; simpl; rewrite ?Hst5, ?fset_eq.
    + by apply (lshape_nil start l).
    + by apply zlen_put_head.
    + apply head_put_head; [done..|]. intros b Hb. by apply not_elem_of_nil in Hb.
    + intros b x [->|[Hb _]] Hx.
      * rewrite lookup_insert_eq in Hx. rewrite fset_eq. by simplify_eq.
      * destruct (r7_home b Hb) as [Hd Hc]. simpl in Hd, Hc. rewrite Hd. by apply Hc.
    + done.
    + intros b. rewrite (ia_pins _ _ _ _ H5). destruct Hs1 as (_&_&->&_). by rewrite (fr_pins _ Hf).
  - simpl. by rewrite (ev_ops _ _ _ (ia_ev _ _ _ _ H5)).
  - intros b Hb. exact (proj1 (r7_home b Hb)).
  - intros b Hb. destruct (r7_home b Hb) as [Hd Hc]. unfold view.
    destruct (cache s7 !! b) as [x|] eqn:Hx; [|done]. by apply Hc.
  - destruct (ev_trace _ _ _ (ia_ev _ _ _ _ H5)) as (cs2&Ht2&Hd2&Hc2). rewrite Hl1 in Hc2.
    destruct Hs1 as (Hd1&Ht1&_). rewrite Hd1 in Hd2. rewrite Ht1 in Ht2.
    exists (cs2 ++ [[(start, put_head old [])]]). split_and!.
    + simpl. by rewrite Ht2, app_assoc.
    + unfold apply_cmds. rewrite foldl_app. simpl. by rewrite Hd2.
    + intros d'. apply (recovery_crash cs2 s5.(disk)); [done..|]. intros i Hi.
      pose proof (ia_home _ _ _ _ H5 i) as Hh. rewrite Hl1 in Hh. by apply Hh.
Qed.
End done.

Lemma recover_ok : wp E recover_from_log (fun _ s' => recovered s s') s.
Proof using Hf Hr.
  destruct Hr as [Hsz Hsh].
  assert (Hu : u32 start = start).
  { apply u32_small. pose proof (sh_start _ _ Hsh). unfold XV6FS_LOGBLOCKS in *. lia. }
  unfold recover_from_log, read_head, clear_blocks. log_steps.
  { rewrite Hu, (fresh_view s start Hf). set (s1 := with_blocks _ _).
    assert (Hc1 : forall b x, s1.(cache) !! b = Some x -> x = s.(disk) b).
    { intros b x. simpl. rewrite lookup_insert_Some. intros [[<- <-]|[_ Hx]]; [done|]. by apply (fr_clean _ Hf). }
    assert (Hv1 : forall b, view s1 b = s.(disk) b) by (intros b; by apply s1_view).
    eapply wp_mono; [apply (install_trans_ok E true (fun i => V (zget l i)))|].
    - done.
    - apply Hf.
    - split; simpl.
      + intros i Hi. by rewrite log_of.
      + done.
      + intros _ i Hi. by rewrite Hv1, log_of.
    - simpl. intros _ s5 H5. log_steps. destruct (r5_start s1 s5) as (Hv5&Hd5&Hst5); [done..|].
      apply wp_write_head; [simpl; by rewrite Hst5|]. simpl l_block. simpl l_start. rewrite Hst5.
      replace (view (with_blocks s5 []) start) with (view s5 start) by done. rewrite Hv5. by apply (r7_recovered s1 s5). }
  intros Hle%Z.leb_gt. exfalso. rewrite Hu, (fresh_view s start Hf) in Hle. pose proof (sh_len _ _ Hsh) as Hlen.
  unfold head_blocks, zlen in Hlen. rewrite length_fmap, length_seqZ in Hlen. lia.
Qed.
End recovery.

(** ** Operations on the journal *)

(** Mounting: the log is replayed. *)
Lemma xv6log_init_ok E s logstart pages :
  fresh s -> 0 <= logstart < 2 ^ 31 -> recoverable logstart s.(disk) ->
  (forall st, pages = Some st -> zlen st = XV6FS_LOGBLOCKS) ->
  wp E (xv6log_init logstart pages) (fun _ s' => recovered (log_reset s logstart pages) s') s.
Proof.
  intros Hf Hs Hr Hp. unfold xv6log_init. wp_steps. apply recover_ok.
  - destruct Hf as [Hc Hpin [Hok Hv]]. split; [done..|]. split; [|done]. intros st. simpl.
    destruct (g_stage s) as [st'|] eqn:Hst; [intros [= <-]; by apply Hok|apply Hp].
  - simpl. by rewrite s32_small by lia.
Qed.

(** A block is changed and entered in the log. *)
Definition log_store (b : Z) (d : block) : L unit :=
  _ ← xv6bread b; bstore b d;; xv6log_write b.

Lemma log_write_ok E (Q : unit -> logst -> Prop) s b :
  zlen s.(l_block) < XV6FS_LOGBLOCKS -> 1 <= s.(l_outstanding) -> 0 <= b < 2 ^ 31 ->
  Q tt (if decide (b ∈ s.(l_block)) then s
        else with_blocks (with_pins s (fset s.(pins) b (s.(pins) b + 1))) (s.(l_block) ++ [b])) ->
  wp E (xv6log_write b) Q s.
Proof.
  intros Hn Ho Hb HQ. unfold xv6log_write. log_steps; [|intros ?%Z.leb_gt; lia|intros ?%Z.ltb_ge; lia].
  rewrite s32_small by lia. rewrite <- decide_bool_decide. destruct (decide (b ∈ l_block s)); log_steps; done.
Qed.
