(* ===== verification/Journal.v ===== *)
(** * Operations on the journal, crashes and reboots

    File-system operations bracket their changes with [xv6log_begin_op] and
    [xv6log_end_op], enter every block they change in the log, and declare in
    advance how many blocks that may be.  This file runs them in any order,
    several at a time, over the journal of Log.v, and shows that the log never
    overflows, that nobody waits for a commit that never comes, and that after
    a crash at any point and any number of reboots the disk holds what was
    visible at one moment at which no operation was in progress, no older than
    the last flush. *)
From Stdlib Require Import Sorted.
From S2P Require Import Prelude State Bytes Log.

(** An operation in progress: the blocks it declared, and those it added. *)
Record opn := mkOp { o_need : Z; o_used : Z }.

Definition sum_need (ops : list opn) : Z := foldr (fun o n => o.(o_need) + n) 0 ops.
Definition sum_left (ops : list opn) : Z := foldr (fun o n => (o.(o_need) - o.(o_used)) + n) 0 ops.

Definition op_ok (o : opn) : Prop := 1 <= o.(o_need) <= XV6FS_LOGBLOCKS /\ 0 <= o.(o_used) <= o.(o_need).

(** The journal between calls, with the operations in progress; [D] is what a
    crash now would leave. *)
Record jinv (s : logst) (ops : list opn) (D : Z -> block) : Prop := {
  ji_linv : linv s;
  ji_idle : s.(l_committing) = false;
  ji_outstanding : s.(l_outstanding) = zlen ops;
  ji_reserved : s.(l_reserved) = sum_need ops;
  ji_room : zlen s.(l_block) + sum_left ops <= XV6FS_LOGBLOCKS;
  ji_ops : Forall op_ok ops;
  ji_disk : forall b, home s.(l_start) b -> s.(disk) b = D b;
}.

Lemma sum_need_app ops1 ops2 : sum_need (ops1 ++ ops2) = sum_need ops1 + sum_need ops2.
Proof. induction ops1 as [|o ops1 IH]; simpl; [done|]. rewrite IH. lia. Qed.
Lemma sum_left_app ops1 ops2 : sum_left (ops1 ++ ops2) = sum_left ops1 + sum_left ops2.
Proof. induction ops1 as [|o ops1 IH]; simpl; [done|]. rewrite IH. lia. Qed.

Lemma sum_bounds ops : Forall op_ok ops -> 0 <= sum_left ops <= sum_need ops /\ zlen ops <= sum_need ops.
Proof.
  induction 1 as [|o ops [? ?] _ IH]; simpl; [done|]. unfold zlen in *. simpl length. lia.
Qed.

Lemma clamp_need_ok n : 1 <= clamp_need n <= XV6FS_LOGBLOCKS.
Proof.
  unfold clamp_need, XV6FS_LOGBLOCKS. destruct (Z.ltb_spec n 1); simpl; [lia|]. destruct (Z.ltb_spec 126 n); lia.
Qed.

Lemma fits_spec s need : fits s need = true <-> zlen s.(l_block) + s.(l_reserved) + need <= XV6FS_LOGBLOCKS.
Proof.
  unfold fits. rewrite andb_true_iff, orb_true_iff, !Z.leb_le. tauto.
Qed.

(** ** The calls *)

Inductive jop :=
| JBegin (n : Z)
| JStore (i : nat) (b : Z) (d : block)
| JEnd (i : nat) (n : Z)
| JFlush
| JRead (b : Z).

Definition jrun (o : jop) : L bool :=
  match o with
  | JBegin n => xv6log_begin_op n
  | JStore _ b d => log_store b d;; mret true
  | JEnd _ n => xv6log_end_op n;; mret true
  | JFlush => xv6log_flush;; mret true
  | JRead b => _ ← xv6bread b; mret true
  end.

(** An operation stores within its declared number of blocks, and ends with
    the number it began with. *)
Definition jallowed (start : Z) (ops : list opn) (o : jop) : Prop :=
  match o with
  | JStore i b _ =>
      exists p, ops !! i = Some p /\ p.(o_used) < p.(o_need) /\ 0 <= b < 2 ^ 31 /\ home start b
  | JEnd i n => exists p, ops !! i = Some p /\ p.(o_need) = clamp_need n
  | JRead b => home start b
  | JBegin _ | JFlush => True
  end.

(** The operations in progress afterwards, when the call returned [r]. *)
Definition jnext (s : logst) (ops : list opn) (o : jop) (r : bool) : list opn :=
  match o with
  | JBegin n => if r then ops ++ [mkOp (clamp_need n) 0] else ops
  | JStore i b _ =>
      if decide (b ∈ s.(l_block)) then ops
      else alter (fun p => mkOp p.(o_need) (p.(o_used) + 1)) i ops
  | JEnd i _ => delete i ops
  | JFlush | JRead _ => ops
  end.

(** What the blocks show afterwards. *)
Definition jview (s : logst) (o : jop) : Z -> block :=
  match o with
  | JStore _ b d => fset (view s) b d
  | _ => view s
  end.

(** What a call does: [D] and [D'] are what a crash before and after leaves. *)
Record jdone (s : logst) (ops : list opn) (D : Z -> block) (o : jop) (r : bool) (s' : logst) (D' : Z -> block) : Prop := {
  jd_inv : jinv s' (jnext s ops o r) D';
  jd_start : s'.(l_start) = s.(l_start);
  jd_view : forall b, home s.(l_start) b -> view s' b = jview s o b;
  jd_trace : exists cs, s'.(trace) = s.(trace) ++ cs /\
    forall d', crash_of s.(disk) cs d' -> recoverable s.(l_start) d' /\
      ((forall b, home s.(l_start) b -> logical s.(l_start) d' b = D b) \/
       ops = [] /\ forall b, home s.(l_start) b -> logical s.(l_start) d' b = view s b);
  jd_durable : D' = D \/ ops = [] /\ D' = view s;
  jd_begin : r = false -> ops <> [];
  jd_flush : o = JFlush -> ops = [] -> D' = view s;
}.

(** No command was sent. *)
Lemma quiet_crash s ops D (V : Z -> block) s' :
  jinv s ops D -> s'.(trace) = s.(trace) ->
  exists cs, s'.(trace) = s.(trace) ++ cs /\
    forall d', crash_of s.(disk) cs d' -> recoverable s.(l_start) d' /\
      ((forall b, home s.(l_start) b -> logical s.(l_start) d' b = D b) \/
       ops = [] /\ forall b, home s.(l_start) b -> logical s.(l_start) d' b = V b).
Proof.
  intros HJ Ht. exists []. rewrite app_nil_r. split; [done|]. simpl. intros d' Hd'.
  pose proof (ji_linv _ _ _ HJ) as Hi. assert (Hh : head_blocks (d' s.(l_start)) = []) by (rewrite Hd'; apply Hi).
  split; [split; [rewrite Hd'; apply Hi|rewrite Hh; by apply (lshape_nil _ s.(l_block)), Hi]|].
  left. intros b Hb. rewrite logical_empty, Hd' by done. by apply (ji_disk _ _ _ HJ).
Qed.

(** A commit with no operation in progress. *)
Lemma commit_done s D :
  jinv s [] D ->
  wp nopanic commit_unlocked
    (fun _ s' => jinv s' [] (view s) /\ committed s s') s.
Proof.
  intros HJ. unfold commit_unlocked, set_committing. wp_steps. set (s1 := with_ops s _ _ true).
  assert (Hi : linv s1) by (destruct (ji_linv _ _ _ HJ) as [H1 H2 H3 H4 H5 H6]; split; done).
  eapply wp_mono; [by apply commit_ok|]. simpl. intros _ s2 Hc. wp_steps.
  destruct (co_inv _ _ Hc) as [H1 H2 H3 H4 H5 H6]. pose proof (co_ops _ _ Hc) as Ho. simpl in Ho.
  assert (Hout : s2.(l_outstanding) = s.(l_outstanding)) by congruence.
  assert (Hres : s2.(l_reserved) = s.(l_reserved)) by congruence.
  split.
  - split; simpl; try done.
    + by rewrite Hout, (ji_outstanding _ _ _ HJ).
    + by rewrite Hres, (ji_reserved _ _ _ HJ).
    + by rewrite (co_empty _ _ Hc).
    + intros b. rewrite (co_start _ _ Hc). apply (co_disk _ _ Hc).
  - destruct Hc as [_ C2 C3 C4 C5 C6 C7]. split; try done. simpl. rewrite Hout, Hres, (ji_idle _ _ _ HJ). done.
Qed.

(** The crash clause of a call that commits and then does nothing more to the
    device. *)
Lemma commit_crash s D s' :
  jinv s [] D -> committed s s' ->
  exists cs, s'.(trace) = s.(trace) ++ cs /\
    forall d', crash_of s.(disk) cs d' -> recoverable s.(l_start) d' /\
      ((forall b, home s.(l_start) b -> logical s.(l_start) d' b = D b) \/
       ([] : list opn) = [] /\ forall b, home s.(l_start) b -> logical s.(l_start) d' b = view s b).
Proof.
  intros HJ Hc. destruct (co_trace _ _ Hc) as (cs&Ht&_&Hcr). exists cs. split; [done|].
  intros d' Hd'. destruct (Hcr d' Hd') as [Hr [Ho|Hn]]; split; auto.
  left. intros b Hb. rewrite Ho by done. by apply (ji_disk _ _ _ HJ).
Qed.

(** Entering a new operation. *)
Lemma jinv_enter s ops D n :
  jinv s ops D -> fits s (clamp_need n) = true ->
  jinv (with_ops s (s.(l_outstanding) + 1) (s.(l_reserved) + clamp_need n) s.(l_committing))
       (ops ++ [mkOp (clamp_need n) 0]) D.
Proof.
  intros [H1 H2 H3 H4 H5 H6 H7] Hfit%fits_spec. pose proof (clamp_need_ok n). pose proof (sum_bounds ops H6).
  split; simpl; try done.
  - by destruct H1 as [K1 K2 K3 K4 K5 K6]; split.
  - rewrite H3. unfold zlen. rewrite length_app. simpl. lia.
  - rewrite H4, sum_need_app. simpl. lia.
  - rewrite sum_left_app. simpl. lia.
  - apply Forall_app. split; [done|]. constructor; [|done]. unfold op_ok. simpl. lia.
Qed.

Lemma begin_ok s ops D n :
  jinv s ops D ->
  wp nopanic (xv6log_begin_op n) (fun r s' => exists D', jdone s ops D (JBegin n) r s' D') s.
Proof.
  intros HJ. unfold xv6log_begin_op, begin_loop, begin_turn. wp_steps. rewrite (ji_idle _ _ _ HJ). simpl.
  destruct (fits s (clamp_need n)) eqn:Hfit.
  { wp_steps. exists D. split; try done; [by apply jinv_enter|by apply (quiet_crash s ops)|by left]. }
  unfold idle. rewrite (ji_idle _ _ _ HJ), (ji_outstanding _ _ _ HJ). simpl.
  assert (Hbusy : ops <> [] -> wp nopanic (mret Sleeps)
    (fun a => wp nopanic match a with Entered => mret true | Again => begin_loop 1 (clamp_need n) | Sleeps => mret false end
       (fun r s' => exists D', jdone s ops D (JBegin n) r s' D')) s).
  { intros Hne. wp_steps. exists D. split; try done; [by apply (quiet_crash s ops)|by left]. }
  assert (Hres : ops = [] -> 0 < zlen s.(l_block)).
  { intros ->. pose proof (zlen_nonneg s.(l_block)). assert (zlen s.(l_block) <> 0); [|lia]. intros Hz.
    assert (fits s (clamp_need n) = true); [|congruence]. apply fits_spec.
    rewrite Hz, (ji_reserved _ _ _ HJ). simpl. pose proof (clamp_need_ok n). lia. }
  destruct ops as [|p ops]; [|by apply Hbusy].
  rewrite (proj2 (Z.ltb_lt _ _) (Hres eq_refl)). simpl. wp_steps.
  eapply wp_mono; [by eapply commit_done|]. simpl. intros _ s1 [HJ1 Hc]. wp_steps.
  rewrite (ji_idle _ _ _ HJ1). simpl.
  assert (Hfit1 : fits s1 (clamp_need n) = true).
  { apply fits_spec. rewrite (co_empty _ _ Hc), (ji_reserved _ _ _ HJ1). simpl. pose proof (clamp_need_ok n).
    unfold zlen. simpl. lia. }
  rewrite Hfit1. wp_steps. exists (view s). split; try done.
  - by apply (jinv_enter s1 []).
  - apply (co_start _ _ Hc).
  - intros b Hb. simpl. by apply (co_view _ _ Hc).
  - exact (commit_crash s D s1 HJ Hc).
  - by right.
Qed.

Lemma flush_ok s ops D :
  jinv s ops D -> wp nopanic (jrun JFlush) (fun r s' => exists D', jdone s ops D JFlush r s' D') s.
Proof.
  intros HJ. simpl. unfold xv6log_flush, xv6log_commit_if_idle. wp_steps. unfold idle.
  rewrite (ji_idle _ _ _ HJ), (ji_outstanding _ _ _ HJ). simpl.
  destruct ops as [|p ops].
  - pose proof (zlen_nonneg s.(l_block)). destruct (Z.ltb_spec 0 (zlen s.(l_block))) as [Hn|Hn]; simpl.
    + eapply wp_mono; [by eapply commit_done|]. simpl. intros _ s1 [HJ1 Hc]. wp_steps. exists (view s). split; try done.
      * apply (co_start _ _ Hc).
      * intros b Hb. by apply (co_view _ _ Hc).
      * exact (commit_crash s D s1 HJ Hc).
      * by right.
    + wp_steps. exists (view s). split; try done; [|by apply (quiet_crash s [])|by right].
      destruct HJ as [H1 H2 H3 H4 H5 H6 H7]. split; try done. intros b Hb. symmetry. apply clean_eq; [done|].
      right. split; [done|]. assert (l_block s = []) as -> by (apply length_zero_iff_nil; unfold zlen in *; lia).
      apply not_elem_of_nil.
  - assert (Hz : (zlen (p :: ops) =? 0) = false) by (apply Z.eqb_neq; unfold zlen; simpl; lia). rewrite Hz. simpl.
    wp_steps. exists D. split; try done; [by apply (quiet_crash s (p :: ops))|by left].
Qed.

Lemma alter_used ops i p :
  Forall op_ok ops -> ops !! i = Some p -> p.(o_used) < p.(o_need) ->
  let ops' := alter (fun p => mkOp p.(o_need) (p.(o_used) + 1)) i ops in
  sum_need ops' = sum_need ops /\ sum_left ops' = sum_left ops - 1 /\ Forall op_ok ops' /\ zlen ops' = zlen ops.
Proof.
  intros Hok Hp Hlt. simpl. rewrite <- (take_drop_middle ops i p Hp) in Hok |- *.
  pose proof (lookup_lt_Some _ _ _ Hp) as Hl.
  assert (Ha : alter (fun p => mkOp (o_need p) (o_used p + 1)) i (take i ops ++ p :: drop (S i) ops) =
    take i ops ++ mkOp p.(o_need) (p.(o_used) + 1) :: drop (S i) ops).
  { assert (Hi : i = (length (take i ops) + 0)%nat) by (rewrite length_take; lia).
    rewrite Hi at 1. by rewrite alter_app_r. }
  rewrite Ha, !sum_need_app, !sum_left_app. simpl. apply Forall_app in Hok as [H1 [[H2 H3] H4]%Forall_cons_1].
  split_and!; [lia|lia| |unfold zlen; rewrite !length_app; done].
  apply Forall_app. split; [done|]. constructor; [|done]. unfold op_ok. simpl. lia.
Qed.

Lemma left_lookup ops i p : Forall op_ok ops -> ops !! i = Some p -> p.(o_need) - p.(o_used) <= sum_left ops.
Proof.
  intros Hok Hp. rewrite <- (take_drop_middle ops i p Hp) in Hok |- *. rewrite sum_left_app. simpl.
  apply Forall_app in Hok as [H1 [H2 H3]%Forall_cons_1]. pose proof (sum_bounds _ H1). pose proof (sum_bounds _ H3). lia.
Qed.

(** Entering one more block. *)
Lemma linv_store s b d (c := <[b := d]> (<[b := view s b]> s.(cache))) :
  linv s -> zlen s.(l_block) < XV6FS_LOGBLOCKS -> 0 <= b < 2 ^ 31 -> home s.(l_start) b ->
  linv (if decide (b ∈ s.(l_block)) then with_cache s c
        else with_blocks (with_pins (with_cache s c) (fset s.(pins) b (s.(pins) b + 1))) (s.(l_block) ++ [b])).
Proof.
  intros [H1 H2 H3 H4 H5 H6] Hn Hb Hh. subst c.
  assert (Hne : b <> l_start s) by (intros ->; by apply start_not_home in Hh).
  destruct (decide (b ∈ s.(l_block))) as [Hin|Hin]; split; simpl; try done.
  - intros x y Hx Hy. assert (x <> b) by (destruct Hx as [->|[_ ?]]; [congruence|by intros ->]).
    rewrite !lookup_insert_ne in Hy by done. by apply H4.
  - destruct H1 as [K1 K2 K3 K4]. split; try done.
    + unfold zlen in *. rewrite length_app. simpl. unfold XV6FS_LOGBLOCKS in *. lia.
    + apply NoDup_app. split_and!; [done| |apply NoDup_singleton]. intros x Hx ->%list_elem_of_singleton. done.
    + intros x [Hx| ->%list_elem_of_singleton]%elem_of_app; [by apply K4|done].
  - intros x y Hx Hy. assert (x <> b /\ (x = l_start s \/ home (l_start s) x /\ x ∉ l_block s)) as [? ?].
    { destruct Hx as [->|[Hx1 Hx2]]; [split; [congruence|by left]|].
      apply not_elem_of_app in Hx2 as [Hx2 Hx3]. split; [|by right]. intros ->. by destruct Hx3; apply list_elem_of_singleton. }
    rewrite !lookup_insert_ne in Hy by done. by apply H4.
  - intros x. unfold fset. destruct (Z.eqb_spec x b) as [->|Hxb].
    + rewrite H6, decide_False by done. rewrite decide_True; [lia|]. apply elem_of_app. right. by apply list_elem_of_singleton.
    + rewrite H6. destruct (decide (x ∈ l_block s)) as [Hx|Hx].
      * rewrite decide_True; [done|]. apply elem_of_app. by left.
      * rewrite decide_False; [done|]. intros [?| ->%list_elem_of_singleton]%elem_of_app; done.
Qed.

Lemma store_ok s ops D i b d :
  jinv s ops D -> jallowed s.(l_start) ops (JStore i b d) ->
  wp nopanic (jrun (JStore i b d)) (fun r s' => exists D', jdone s ops D (JStore i b d) r s' D') s.
Proof.
  intros HJ (p&Hp&Hlt&Hb&Hh). pose proof (ji_ops _ _ _ HJ) as Hok. pose proof (left_lookup ops i p Hok Hp).
  pose proof (ji_room _ _ _ HJ). assert (Hn : zlen s.(l_block) < XV6FS_LOGBLOCKS) by lia.
  pose proof (lookup_lt_Some _ _ _ Hp). destruct (alter_used ops i p Hok Hp Hlt) as (Hsn&Hsl&Hok'&Hlen).
  assert (Ho : 1 <= s.(l_outstanding)) by (rewrite (ji_outstanding _ _ _ HJ); unfold zlen; lia).
  simpl jrun. unfold log_store. log_steps. apply log_write_ok; [done..|]. wp_steps. exists D.
  set (s1 := with_cache (with_cache s _) _). set (s' := if decide _ then _ else _).
  assert (Hl : linv s') by exact (linv_store s b d (ji_linv _ _ _ HJ) Hn Hb Hh).
  assert (Hs : s'.(disk) = s.(disk) /\ s'.(trace) = s.(trace) /\ s'.(l_start) = s.(l_start) /\
    s'.(l_committing) = s.(l_committing) /\ s'.(l_outstanding) = s.(l_outstanding) /\ s'.(l_reserved) = s.(l_reserved) /\
    s'.(cache) = s1.(cache)).
  { subst s'. by case_decide. }
  destruct Hs as (Hd&Ht&Hst&Hcm&Hout&Hre&Hca).
  split; try done.
  - split; rewrite ?Hcm, ?Hout, ?Hre, ?Hd, ?Hst.
    + done.
    + apply (ji_idle _ _ _ HJ).
    + rewrite (ji_outstanding _ _ _ HJ). simpl. by case_decide.
    + rewrite (ji_reserved _ _ _ HJ). simpl. by case_decide.
    + subst s' s1. simpl. destruct (decide (b ∈ l_block s)); simpl; [done|]. rewrite Hsl. unfold zlen in *.
      rewrite length_app. simpl. lia.
    + simpl. by case_decide.
    + apply (ji_disk _ _ _ HJ).
  - intros x Hx. unfold view. rewrite Hca, Hd. subst s1. simpl. rewrite fset_spec. case_decide as Hxb.
    + subst x. by rewrite lookup_insert_eq.
    + by rewrite !lookup_insert_ne.
  - by apply (quiet_crash s ops).
  - by left.
Qed.

Lemma delete_op ops i p : Forall op_ok ops -> ops !! i = Some p ->
  sum_need (delete i ops) = sum_need ops - p.(o_need) /\ sum_left (delete i ops) <= sum_left ops /\
  Forall op_ok (delete i ops) /\ zlen (delete i ops) = zlen ops - 1.
Proof.
  intros Hok Hp. rewrite delete_take_drop. pose proof (take_drop_middle ops i p Hp) as Hm.
  assert (Hn : sum_need ops = sum_need (take i ops) + (p.(o_need) + sum_need (drop (S i) ops)))
    by (rewrite <- Hm at 1; by rewrite sum_need_app).
  assert (Hl : sum_left ops = sum_left (take i ops) + (p.(o_need) - p.(o_used) + sum_left (drop (S i) ops)))
    by (rewrite <- Hm at 1; by rewrite sum_left_app).
  assert (Hz : length ops = (length (take i ops) + S (length (drop (S i) ops)))%nat)
    by (rewrite <- Hm at 1; by rewrite length_app).
  rewrite <- Hm in Hok. apply Forall_app in Hok as [H1 [[H2 H3] H4]%Forall_cons_1].
  rewrite sum_need_app, sum_left_app. split_and!; [lia|lia|by apply Forall_app|].
  unfold zlen. rewrite length_app. lia.
Qed.

Lemma end_ok s ops D i n :
  jinv s ops D -> jallowed s.(l_start) ops (JEnd i n) ->
  wp nopanic (jrun (JEnd i n)) (fun r s' => exists D', jdone s ops D (JEnd i n) r s' D') s.
Proof.
  intros HJ (p&Hp&Hn). simpl jrun. unfold xv6log_end_op.
  destruct (delete_op ops i p (ji_ops _ _ _ HJ) Hp) as (Hsn&Hsl&Hok&Hlen).
  pose proof (sum_bounds _ Hok) as [? _]. rewrite Hn in Hsn.
  wp_steps; [|by rewrite (ji_idle _ _ _ HJ)]. exists D. destruct HJ as [H1 H2 H3 H4 H5 H6 H7].
  split; try done; [|by apply (quiet_crash s ops)|by left]. split; simpl; try done.
  - by destruct H1 as [K1 K2 K3 K4 K5 K6]; split.
  - lia.
  - rewrite H4, <- Hsn. destruct (Z.ltb_spec (sum_need (delete i ops)) 0); lia.
  - lia.
Qed.

Lemma read_ok s ops D b :
  jinv s ops D -> jallowed s.(l_start) ops (JRead b) ->
  wp nopanic (jrun (JRead b)) (fun r s' => exists D', jdone s ops D (JRead b) r s' D') s.
Proof.
  intros HJ Hh. simpl jrun. log_steps. exists D. set (s' := with_cache s _).
  assert (Hv : forall x, view s' x = view s x).
  { intros x. unfold view. subst s'. simpl. destruct (decide (x = b)) as [->|Hne].
    - by rewrite lookup_insert_eq.
    - by rewrite lookup_insert_ne. }
  split; try done; [|by apply (quiet_crash s ops)|by left].
  destruct HJ as [[K1 K2 K3 K4 K5 K6] H2 H3 H4 H5 H6 H7]. split; try done. split; try done.
  intros x y Hx Hy. simpl in *. destruct (decide (x = b)) as [->|Hne].
  - rewrite lookup_insert_eq in Hy. injection Hy as <-. by apply clean_eq.
  - rewrite lookup_insert_ne in Hy by done. by apply K4.
Qed.

(** Every call allowed returns. *)
Lemma jrun_ok s ops D o :
  jinv s ops D -> jallowed s.(l_start) ops o ->
  wp nopanic (jrun o) (fun r s' => exists D', jdone s ops D o r s' D') s.
Proof.
  destruct o as [n|i b d|i n| |b]; intros HJ Ha;
    [by apply begin_ok|by apply store_ok|by apply end_ok|by apply flush_ok|by apply read_ok].
Qed.

(** ** Reboots *)

(** Power-on: empty cache, no staging buffer yet. *)
Definition boot (d : Z -> block) (o : list (option (Z -> bool * bool))) : logst :=
  mkLog d ∅ (fun _ => 0) [] o 0 0 0 false [] None false 0 0 0.

(** The staging buffer the page allocator gives, if it gives one. *)
Definition pages_ok (pages : option (list block)) : Prop := forall st, pages = Some st -> zlen st = XV6FS_LOGBLOCKS.

(** [d'] is the disk after some mounts of [d] that crash and one that
    completes. *)
Inductive reboots (start : Z) : (Z -> block) -> (Z -> block) -> Prop :=
| rb_done d o pages s' :
    pages_ok pages -> xv6log_init start pages (boot d o) = Ok (tt, s') -> reboots start d s'.(disk)
| rb_crash d o pages s' d1 d2 :
    pages_ok pages -> xv6log_init start pages (boot d o) = Ok (tt, s') ->
    crash_of d s'.(trace) d1 -> reboots start d1 d2 -> reboots start d d2.

Lemma boot_fresh d o : fresh (boot d o).
Proof. by split. Qed.

Lemma mount_ok start d o pages s' :
  0 <= start < 2 ^ 31 -> recoverable start d -> pages_ok pages -> xv6log_init start pages (boot d o) = Ok (tt, s') ->
  recovered (log_reset (boot d o) start pages) s'.
Proof.
  intros Hs Hr Hp Hrun. pose proof (xv6log_init_ok nopanic (boot d o) start pages (boot_fresh d o) Hs Hr Hp) as Hw.
  unfold wp in Hw. by rewrite Hrun in Hw.
Qed.

Lemma recoverable_start start d : recoverable start d -> 0 <= start < 2 ^ 31.
Proof. intros [_ Hsh]. pose proof (sh_start _ _ Hsh). unfold XV6FS_LOGBLOCKS in *. lia. Qed.

Lemma reboots_logical start d d' :
  recoverable start d -> reboots start d d' -> forall b, home start b -> d' b = logical start d b.
Proof.
  intros Hr Hb. induction Hb as [d o pages s' Hp Hrun|d o pages s' d1 d2 Hp Hrun Hc _ IH].
  - pose proof (recoverable_start _ _ Hr) as Hs.
    pose proof (re_disk _ _ (mount_ok start d o pages s' Hs Hr Hp Hrun)) as Hd. simpl in Hd.
    by rewrite s32_small in Hd by lia.
  - pose proof (recoverable_start _ _ Hr) as Hs.
    destruct (re_trace _ _ (mount_ok start d o pages s' Hs Hr Hp Hrun)) as (cs&Ht&_&Hcr). simpl in Ht, Hcr.
    rewrite s32_small in Hcr by lia. rewrite Ht in Hc. destruct (Hcr d1 Hc) as [Hr1 Hl1].
    intros b Hb. rewrite (IH Hr1 b Hb). by apply Hl1.
Qed.

Lemma mount_jinv start d o pages s' :
  recoverable start d -> pages_ok pages -> xv6log_init start pages (boot d o) = Ok (tt, s') ->
  jinv s' [] (view s') /\ s'.(l_start) = start.
Proof.
  intros Hr Hp Hrun. pose proof (recoverable_start _ _ Hr) as Hs.
  pose proof (mount_ok start d o pages s' Hs Hr Hp Hrun) as Hre.
  assert (Hst : s'.(l_start) = start) by (rewrite (re_start _ _ Hre); simpl; apply s32_small; lia).
  pose proof (re_ops _ _ Hre) as Ho. simpl in Ho. injection Ho as Ho1 Ho2 Ho3. split; [|done].
  split; try done; [apply Hre|by rewrite (re_empty _ _ Hre)|].
  intros b Hb. rewrite (re_start _ _ Hre) in Hb. by rewrite (re_disk _ _ Hre b Hb), (re_view _ _ Hre b Hb).
Qed.

(** ** Runs

    [Q]: the states since the last flush at which no operation was in
    progress, beginning with the one the flush left. *)
Inductive jreach (start : Z) : list logst -> logst -> list opn -> Prop :=
| jr_mount d o pages s :
    recoverable start d -> pages_ok pages -> xv6log_init start pages (boot d o) = Ok (tt, s) ->
    jreach start [s] s []
| jr_call Q s ops o r s' :
    jreach start Q s ops -> jallowed start ops o -> jrun o s = Ok (r, s') ->
    jreach start
      (let Q := match o, ops with JFlush, [] => [] | _, _ => Q end in
       match jnext s ops o r with [] => s' :: Q | _ => Q end)
      s' (jnext s ops o r).

Lemma jrun_run s ops D o r s' :
  jinv s ops D -> jallowed s.(l_start) ops o -> jrun o s = Ok (r, s') -> exists D', jdone s ops D o r s' D'.
Proof. intros HJ Ha Hrun. pose proof (jrun_ok s ops D o HJ Ha) as Hw. unfold wp in Hw. by rewrite Hrun in Hw. Qed.

(** What holds in every state of a run. *)
Lemma jreach_inv start Q s ops :
  jreach start Q s ops ->
  exists D, jinv s ops D /\ s.(l_start) = start /\
    (exists q, q ∈ Q /\ forall b, home start b -> D b = view q b) /\ (ops = [] -> s ∈ Q).
Proof.
  induction 1 as [d o pages s Hr Hp Hrun|Q s ops o r s' _ (D&HJ&Hst&(q&Hq&HD)&Hs) Ha Hrun].
  - destruct (mount_jinv start d o pages s Hr Hp Hrun) as [HJ Hst]. exists (view s). split_and!; try done.
    + exists s. split; [apply list_elem_of_here|done].
    + intros _. apply list_elem_of_here.
  - rewrite <- Hst in Ha. destruct (jrun_run s ops D o r s' HJ Ha Hrun) as (D'&Hd). exists D'.
    pose proof (jd_start _ _ _ _ _ _ _ Hd) as Hst'. rewrite Hst' .
    assert (Hin : forall Q', jnext s ops o r = [] ->
      s' ∈ match jnext s ops o r with [] => s' :: Q' | _ => Q' end) by (intros Q' ->; apply list_elem_of_here).
    assert (Hmore : forall Q' x, x ∈ Q' -> x ∈ match jnext s ops o r with [] => s' :: Q' | _ => Q' end).
    { intros Q' x Hx. destruct (jnext s ops o r); [by apply list_elem_of_further|done]. }
    split_and!; [apply Hd|done| |intros Hn; by apply Hin].
    assert (Hfl : o = JFlush /\ ops = [] \/ match o, ops with JFlush, [] => [] | _, _ => Q end = Q).
    { destruct o; [by right..| |by right]. destruct ops; [by left|by right]. }
    destruct Hfl as [[-> ->]|HQ].
    + exists s'. split; [by apply Hin|]. rewrite (jd_flush _ _ _ _ _ _ _ Hd) by done. intros b Hb.
      symmetry. apply (jd_view _ _ _ _ _ _ _ Hd). by rewrite Hst.
    + simpl. rewrite HQ. destruct (jd_durable _ _ _ _ _ _ _ Hd) as [->|[Hnil ->]].
      * exists q. split; [by apply Hmore|done].
      * exists s. split; [by apply Hmore, Hs|done].
Qed.


(** ** An example run: mount a blank disk, one operation stores a block, and
    a flush *)
Definition ex_disk : Z -> block := fun _ => replicate 1024 0.
Definition ex_j0 : logst := run_state (xv6log_init 2 None) (boot ex_disk []).
Definition ex_j1 : logst := run_state (jrun (JBegin 16)) ex_j0.
Definition ex_j2 : logst := run_state (jrun (JStore 0 200 (replicate 1024 9))) ex_j1.
Definition ex_j3 : logst := run_state (jrun (JEnd 0 16)) ex_j2.

Lemma ex_recoverable : recoverable 2 ex_disk.
Proof.
  split; [reflexivity|]. replace (head_blocks (ex_disk 2)) with (@nil Z) by (vm_compute; reflexivity).
  split; [unfold XV6FS_LOGBLOCKS; lia|unfold zlen, XV6FS_LOGBLOCKS; simpl; lia|constructor|].
  intros b Hb. by apply not_elem_of_nil in Hb.
Qed.

Lemma ex_reach : jreach 2 [ex_j3; ex_j0] ex_j3 [].
Proof.
  assert (H0 : jreach 2 [ex_j0] ex_j0 []).
  { refine (jr_mount 2 ex_disk [] None ex_j0 ex_recoverable _ (run_ok_unit _ _ _)); [done|].
    vm_compute. reflexivity. }
  assert (H1 : jreach 2 [ex_j0] ex_j1 [mkOp 16 0]).
  { refine (jr_call 2 [ex_j0] ex_j0 [] (JBegin 16) true ex_j1 H0 I _).
    rewrite (run_ok _ _ true) by (vm_compute; reflexivity). reflexivity. }
  assert (H2 : jreach 2 [ex_j0] ex_j2 [mkOp 16 1]).
  { pose proof (jr_call 2 [ex_j0] ex_j1 [mkOp 16 0] (JStore 0 200 (replicate 1024 9)) true ex_j2 H1) as H2.
    replace (jnext ex_j1 [mkOp 16 0] (JStore 0 200 (replicate 1024 9)) true) with [mkOp 16 1] in H2
      by (vm_compute; reflexivity).
    apply H2.
    - exists (mkOp 16 0). split; [reflexivity|]. unfold home, XV6FS_LOGBLOCKS. simpl. lia.
    - rewrite (run_ok _ _ true) by (vm_compute; reflexivity). reflexivity. }
  pose proof (jr_call 2 [ex_j0] ex_j2 [mkOp 16 1] (JEnd 0 16) true ex_j3 H2) as H3. apply H3.
  - exists (mkOp 16 1). split; reflexivity.
  - rewrite (run_ok _ _ true) by (vm_compute; reflexivity). reflexivity.
Qed.


(** waiting operations are woken exactly when they can go on: the hint
    that ends the wait is false just when another turn of the loop would go
    back to sleep. *)
Theorem room_hint_exact s need :
  xv6log_room_hint s (Some need) = false <-> begin_turn need s = Ok (Sleeps, s).
Proof.
  unfold xv6log_room_hint, begin_turn, fits, idle, commit_unlocked.
  unfold mbind, ST_bind, mret, ST_ret, getS, modify. simpl.
  destruct (l_committing s) eqn:Hc; simpl; [done|].
  destruct (Z.ltb_spec XV6FS_LOGBLOCKS (zlen (l_block s) + l_reserved s + need)) as [Hgt|Hle].
  - rewrite (proj2 (Z.leb_gt _ _)) by lia. simpl.
    destruct ((l_outstanding s =? 0) && (0 <? zlen (l_block s))); simpl; [|done].
    split; [done|]. intros H. exfalso. revert H. destruct (commit _) as [[? s1]|]; [|done].
    by destruct (set_committing false s1) as [[? ?]|].
  - rewrite (proj2 (Z.leb_le _ _)) by lia. simpl. rewrite orb_true_r. simpl.
    by destruct ((l_outstanding s =? 0) && (0 <? zlen (l_block s))).
Qed.

(** a commit with the journal in order always completes: every block
    shows what it showed before, the disk holds it, and the block list, the
    pins and the header on the disk are empty again. *)
Theorem commit_installs s :
  linv s ->
  exists s', commit s = Ok (tt, s') /\ s'.(l_block) = [] /\ head_blocks (s'.(disk) s'.(l_start)) = [] /\
    (forall b, s'.(pins) b = 0) /\
    forall b, home s.(l_start) b -> view s' b = view s b /\ s'.(disk) b = view s b.
Proof.
  intros Hi. destruct (wp_run _ _ _ (commit_ok nopanic s Hi)) as ([]&s'&Hrun&Hc). exists s'.
  pose proof (co_inv _ _ Hc) as Hi'. split_and!; [done|apply Hc|apply Hi'| |].
  - intros b. rewrite (li_pins _ Hi'), (co_empty _ _ Hc), decide_False; [done|apply not_elem_of_nil].
  - intros b Hb. split; [by apply (co_view _ _ Hc)|by apply (co_disk _ _ Hc)].
Qed.

Lemma commit_installs_witness :
  exists s', commit ex_j3 = Ok (tt, s') /\ s'.(disk) 200 = replicate 1024 9 /\ s'.(l_block) = [].
Proof.
  assert (Hi : linv ex_j3) by (destruct (jreach_inv 2 _ _ _ ex_reach) as (D&HJ&_); exact (ji_linv _ _ _ HJ)).
  destruct (commit_installs ex_j3 Hi) as (s'&Hrun&Hl&_&_&Hb). exists s'. split; [exact Hrun|].
  split; [|exact Hl]. destruct (Hb 200) as [_ Hd].
  - replace (l_start ex_j3) with 2 by (vm_compute; reflexivity). unfold home, XV6FS_LOGBLOCKS. lia.
  - rewrite Hd. vm_compute. reflexivity.
Defined.

(** mounting replays the log: every block ends at its home with the
    contents the log has for it, or unchanged when the log does not name it,
    and the log is empty; whatever the device answers to commands for several
    blocks, and with or without a staging buffer. *)
Theorem recovery_replays_log start d o pages :
  recoverable start d -> pages_ok pages ->
  exists s', xv6log_init start pages (boot d o) = Ok (tt, s') /\ linv s' /\ s'.(l_block) = [] /\
    (forall i, 0 <= i < zlen (head_blocks (d start)) ->
       s'.(disk) (zget (head_blocks (d start)) i) = d (start + i + 1)) /\
    forall b, home start b -> b ∉ head_blocks (d start) -> s'.(disk) b = d b /\ view s' b = d b.
Proof.
  intros Hr Hp. pose proof (recoverable_start _ _ Hr) as Hs.
  destruct (wp_run _ _ _ (xv6log_init_ok nopanic (boot d o) start pages (boot_fresh d o) Hs Hr Hp)) as ([]&s'&Hrun&Hre).
  exists s'. pose proof (re_disk _ _ Hre) as Hd. pose proof (re_view _ _ Hre) as Hv. simpl in Hd, Hv.
  rewrite s32_small in Hd, Hv by lia. split_and!; [done|apply Hre|apply Hre| |].
  - intros i Hi. assert (Hin : zget (head_blocks (d start)) i ∈ head_blocks (d start)) by by apply sh_elem.
    destruct (sh_home _ _ (proj2 Hr) _ Hin) as [_ Hh].
    rewrite Hd by done. by apply logical_in.
  - intros b Hb Hin. by rewrite Hd, Hv, logical_out.
Qed.

(** A disk that went down between the header and the homes: the log holds one
    block for home 200. *)
Definition ex_torn : Z -> block :=
  fset (fset ex_disk 2 (put_head (replicate 1024 0) [200])) 3 (replicate 1024 9).

Lemma recovery_replays_log_witness :
  exists s', xv6log_init 2 None (boot ex_torn []) = Ok (tt, s') /\ s'.(disk) 200 = replicate 1024 9.
Proof.
  assert (Hh : head_blocks (ex_torn 2) = [200]) by (vm_compute; reflexivity).
  destruct (recovery_replays_log 2 ex_torn [] None) as (s'&Hrun&_&_&Hin&_).
  - split; [vm_compute; reflexivity|]. rewrite Hh. split.
    + unfold XV6FS_LOGBLOCKS. lia.
    + vm_compute. discriminate.
    + apply NoDup_singleton.
    + intros b ->%list_elem_of_singleton. unfold home, XV6FS_LOGBLOCKS. lia.
  - intros st [=].
  - exists s'. split; [exact Hrun|]. rewrite Hh in Hin. exact (Hin 0 ltac:(vm_compute; split; [discriminate|reflexivity])).
Defined.

(** the in-place insertion sort before a commit orders the block numbers
    and keeps them all. *)
Theorem sort_log_blocks_sorted s :
  let s' := run_state sort_log_blocks s in
  s'.(l_block) ≡ₚ s.(l_block) /\ StronglySorted Z.le s'.(l_block).
Proof. exact (sort_blocks_spec s.(l_block)). Qed.
