(* ===== verification/Xv6fs.v ===== *)
(** * The file system: blocks, inodes and files (kernel/xv6fs.c)

    The file system runs over the journal of Log.v.  Its own state is the
    superblock, the table of in-memory inodes, the position where the block
    allocator searches next and the clock.  An in-memory inode is named by its
    index in the table.  The functions run one at a time here; an inode that
    is locked when it is locked again means that the caller waits for itself
    ([Halt Deadlock]). *)
From S2P Require Import Prelude State Bytes Log.

(** ** Data *)

Abbreviation XV6FS_FSMAGIC := 0x10203041.
Abbreviation XV6FS_ROOTINO := 1.
Definition XV6FS_NDIRECT : Z := 9.
Definition XV6FS_NINDIRECT : Z := BSIZE / 4.
Definition XV6FS_NDINDIRECT : Z := XV6FS_NINDIRECT * XV6FS_NINDIRECT.
Abbreviation XV6FS_NTINDIRECT := (XV6FS_NINDIRECT * XV6FS_NINDIRECT * XV6FS_NINDIRECT).
Definition XV6FS_MAXFILE : Z := XV6FS_NDIRECT + XV6FS_NINDIRECT + XV6FS_NDINDIRECT + XV6FS_NTINDIRECT.
Definition XV6FS_IPB : Z := BSIZE / 64.
Abbreviation XV6FS_BPB := (BSIZE * 8).
Abbreviation XV6FS_NINODE := 512.
Abbreviation XV6FS_DIRSIZ := 62.
Abbreviation XV6FS_MODE_MAGIC := 0x4f4d.
Abbreviation XV6FS_T_DIR := 1.
Abbreviation XV6FS_T_FILE := 2.
Abbreviation XV6FS_T_DEVICE := 3.
Abbreviation XV6FS_T_FIFO := 4.
Abbreviation XV6FS_T_SYMLINK := 5.
Abbreviation XV6LOG_OP_SMALL := 16.
Abbreviation XV6LOG_OP_FULL := XV6FS_LOGBLOCKS.
Definition XV6LOG_OP_WRITE (bytes : Z) : Z := (bytes + BSIZE - 1) / BSIZE + 8.
Abbreviation XV6LOG_ITRUNC_SLACK := 16.
Abbreviation XV6FS_WRITE_CHUNK_MAX := (112 * 1024).
Abbreviation XV6FS_MOUNT_ADVANCE_SEC := 86400.

(** [struct xv6fs_superblock] *)
Record superblock := mkSb {
  sb_magic : Z; sb_size : Z; sb_nblocks : Z; sb_ninodes : Z; sb_nlog : Z;
  sb_logstart : Z; sb_inodestart : Z; sb_bmapstart : Z; sb_mtime_base : Z }.

Definition get_sb (d : block) : superblock :=
  mkSb (get32 d 0) (get32 d 4) (get32 d 8) (get32 d 12) (get32 d 16) (get32 d 20) (get32 d 24) (get32 d 28)
       (get32 d 32).
Definition put_sb (d : block) (sb : superblock) : block :=
  let d := put32 (put32 (put32 (put32 d 0 sb.(sb_magic)) 4 sb.(sb_size)) 8 sb.(sb_nblocks)) 12 sb.(sb_ninodes) in
  let d := put32 (put32 (put32 (put32 d 16 sb.(sb_nlog)) 20 sb.(sb_logstart)) 24 sb.(sb_inodestart)) 28 sb.(sb_bmapstart) in
  put32 d 32 sb.(sb_mtime_base).

(** [struct xv6fs_dinode], 64 bytes; the in-memory inode has a copy. *)
Record dinode := mkDi {
  di_type : Z; di_major : Z; di_minor : Z; di_nlink : Z; di_size : Z; di_mtime : Z; di_addrs : list Z }.
Definition di_zero : dinode := mkDi 0 0 0 0 0 0 (replicate 12 0).

Definition get_dinode (d : block) (off : Z) : dinode :=
  mkDi (s16 (get16 d off)) (s16 (get16 d (off + 2))) (s16 (get16 d (off + 4))) (s16 (get16 d (off + 6)))
       (get32 d (off + 8)) (get32 d (off + 12)) ((fun k => get32 d (off + 16 + 4 * k)) <$> seqZ 0 12).

Fixpoint put_addrs (d : block) (off : Z) (l : list Z) : block :=
  match l with
  | [] => d
  | a :: l => put_addrs (put32 d off a) (off + 4) l
  end.

Definition put_dinode (d : block) (off : Z) (di : dinode) : block :=
  let d := put16 (put16 (put16 (put16 d off (u16 di.(di_type))) (off + 2) (u16 di.(di_major)))
             (off + 4) (u16 di.(di_minor))) (off + 6) (u16 di.(di_nlink)) in
  let d := put32 (put32 d (off + 8) di.(di_size)) (off + 12) di.(di_mtime) in
  put_addrs d (off + 16) di.(di_addrs).

(** [struct xv6fs_inode] *)
Record inode := mkInode {
  i_dev : Z; i_inum : Z; i_ref : Z; i_locked : bool; i_valid : bool; i_d : dinode }.

Record fsst := mkFs {
  f_log : logst; f_sb : superblock; f_inode : Z -> inode; g_balloc_hint : Z;
  g_mtime_base : Z; f_clock : nat -> Z; g_devname : list Z; g_rename_locked : bool }.

Definition with_log (s : fsst) (l : logst) : fsst :=
  mkFs l s.(f_sb) s.(f_inode) s.(g_balloc_hint) s.(g_mtime_base) s.(f_clock) s.(g_devname) s.(g_rename_locked).
Definition with_inodes (s : fsst) (f : Z -> inode) : fsst :=
  mkFs s.(f_log) s.(f_sb) f s.(g_balloc_hint) s.(g_mtime_base) s.(f_clock) s.(g_devname) s.(g_rename_locked).
Definition with_hint (s : fsst) (h : Z) : fsst :=
  mkFs s.(f_log) s.(f_sb) s.(f_inode) h s.(g_mtime_base) s.(f_clock) s.(g_devname) s.(g_rename_locked).
Definition with_clock (s : fsst) (c : nat -> Z) : fsst :=
  mkFs s.(f_log) s.(f_sb) s.(f_inode) s.(g_balloc_hint) s.(g_mtime_base) c s.(g_devname) s.(g_rename_locked).
Definition with_mount (s : fsst) (sb : superblock) (base : Z) (name : list Z) : fsst :=
  mkFs s.(f_log) sb s.(f_inode) s.(g_balloc_hint) base s.(f_clock) name s.(g_rename_locked).
Definition with_rename (s : fsst) (b : bool) : fsst :=
  mkFs s.(f_log) s.(f_sb) s.(f_inode) s.(g_balloc_hint) s.(g_mtime_base) s.(f_clock) s.(g_devname) b.

Abbreviation F := (ST fsst).
Definition onlog {A} (m : L A) : F A := lift f_log with_log m.

Definition bread (b : Z) : F block := onlog (xv6bread b).
Definition bput (b : Z) (d : block) : F unit := onlog (bstore b d).
Definition log_write (b : Z) : F unit := onlog (xv6log_write b).

(** In a run of one operation at a time nobody else will end the wait. *)
Definition begin_op (n : Z) : F unit :=
  r ← onlog (xv6log_begin_op n); kassert r Deadlock.
Definition end_op (n : Z) : F unit := onlog (xv6log_end_op n).

(** ** The in-memory inode's fields *)
Definition iget_d (ip : Z) : F dinode := gets (fun s => (s.(f_inode) ip).(i_d)).
Definition upd_inode (ip : Z) (f : inode -> inode) : F unit :=
  modify (fun s => with_inodes s (fset s.(f_inode) ip (f (s.(f_inode) ip)))).
Definition set_d (ip : Z) (f : dinode -> dinode) : F unit :=
  upd_inode ip (fun i => mkInode i.(i_dev) i.(i_inum) i.(i_ref) i.(i_locked) i.(i_valid) (f i.(i_d))).
Definition set_addr (ip k a : Z) : F unit :=
  set_d ip (fun d => mkDi d.(di_type) d.(di_major) d.(di_minor) d.(di_nlink) d.(di_size) d.(di_mtime)
                          (zset d.(di_addrs) k a)).
Definition set_size (ip n : Z) : F unit :=
  set_d ip (fun d => mkDi d.(di_type) d.(di_major) d.(di_minor) d.(di_nlink) n d.(di_mtime) d.(di_addrs)).
Definition set_mtime (ip t : Z) : F unit :=
  set_d ip (fun d => mkDi d.(di_type) d.(di_major) d.(di_minor) d.(di_nlink) d.(di_size) t d.(di_addrs)).
Definition set_nlink (ip n : Z) : F unit :=
  set_d ip (fun d => mkDi d.(di_type) d.(di_major) d.(di_minor) (s16 n) d.(di_size) d.(di_mtime) d.(di_addrs)).
Definition set_type (ip t : Z) : F unit :=
  set_d ip (fun d => mkDi t d.(di_major) d.(di_minor) d.(di_nlink) d.(di_size) d.(di_mtime) d.(di_addrs)).

(** ** Modes and the clock *)

Abbreviation KSTAT_MODE_FILE := 0x8000.
Abbreviation KSTAT_MODE_DIR := 0x4000.
Abbreviation KSTAT_MODE_CHR := 0x2000.
Abbreviation KSTAT_MODE_FIFO := 0x1000.
Abbreviation KSTAT_MODE_LNK := 0xa000.

(** octal 0666, 0644, 0777, 0555, 0444 and 07777 *)
Definition xv6fs_type_mode (d : dinode) : Z :=
  if d.(di_type) =? XV6FS_T_DEVICE then Z.lor KSTAT_MODE_CHR 0x1b6 else
  if d.(di_type) =? XV6FS_T_SYMLINK then Z.lor KSTAT_MODE_LNK 0x1ff else
  let '(type, perm) :=
    if d.(di_type) =? XV6FS_T_FIFO then (KSTAT_MODE_FIFO, 0x1a4) else
    if d.(di_type) =? XV6FS_T_DIR then (KSTAT_MODE_DIR, 0x16d) else (KSTAT_MODE_FILE, 0x124) in
  Z.lor type (if d.(di_major) =? XV6FS_MODE_MAGIC then Z.land (u32 d.(di_minor)) 0xfff else perm).

Definition xv6fs_set_mode (ip mode : Z) : F unit :=
  set_d ip (fun d => mkDi d.(di_type) XV6FS_MODE_MAGIC (s16 (Z.land mode 0xfff)) d.(di_nlink) d.(di_size)
                          d.(di_mtime) d.(di_addrs)).

(** [arch_time_now_ms] gives the readings of [f_clock] one after the other. *)
Definition xv6fs_now_sec : F Z :=
  s ← getS;
  modify (fun s => with_clock s (fun n => s.(f_clock) (S n)));;
  mret (u32 (s.(g_mtime_base) + u32 (s.(f_clock) 0%nat / 1000))).

Definition xv6fs_itrunc_need (size length : Z) : Z :=
  let have := u32 (size + BSIZE - 1) / BSIZE in
  let keep := u32 (length + BSIZE - 1) / BSIZE in
  let freed := if keep <? have then have - keep else 0 in
  let need := s32 freed + XV6LOG_ITRUNC_SLACK in
  if XV6FS_LOGBLOCKS <? need then XV6FS_LOGBLOCKS else need.

(** ** The block allocator *)

Definition XV6FS_BBLOCK (b : Z) (sb : superblock) : Z := u32 (b / XV6FS_BPB + sb.(sb_bmapstart)).
Definition XV6FS_IBLOCK (i : Z) (sb : superblock) : Z := u32 (i / XV6FS_IPB + sb.(sb_inodestart)).

Definition xv6bzero (bno : Z) : F unit :=
  _ ← bread bno; bput bno (replicate (Z.to_nat BSIZE) 0);; log_write bno.

(** The first clear bit below [n] of a bitmap block whose first bit is block
    [b]; the search stops at the end of the file system. *)
Fixpoint find_clear (n : nat) (d : block) (b bi size : Z) : option Z :=
  match n with
  | O => None
  | S n =>
      if b + bi <? size then
        if bm_test d bi then find_clear n d b (bi + 1) size else Some bi
      else None
  end.

(** Bitmap blocks from [b] up to [to]; [n] is their number. *)
Fixpoint balloc_pass (n : nat) (b to : Z) : F (option Z) :=
  match n with
  | O => mret None
  | S n =>
      if b <? to then
        s ← getS;
        let bb := XV6FS_BBLOCK b s.(f_sb) in
        d ← bread bb;
        match find_clear (Z.to_nat XV6FS_BPB) d b 0 s.(f_sb).(sb_size) with
        | Some bi =>
            bput bb (bm_set d bi);;
            log_write bb;;
            xv6bzero (b + bi);;
            modify (fun s => with_hint s (b + bi));;
            mret (Some (b + bi))
        | None => balloc_pass n (b + XV6FS_BPB) to
        end
      else mret None
  end.

(** 0: the disk is full. *)
Definition balloc : F Z :=
  s ← getS;
  let size := s.(f_sb).(sb_size) in
  let start := s.(g_balloc_hint) / XV6FS_BPB * XV6FS_BPB in
  let start := if size <=? start then 0 else start in
  let passes := S (Z.to_nat (size / XV6FS_BPB)) in
  r ← balloc_pass passes start size;
  match r with
  | Some b => mret b
  | None =>
      let to := u32 (start + XV6FS_BPB) in
      r ← balloc_pass passes 0 (if size <? to then size else to);
      mret (default 0 r)
  end.

Definition bfree (b : Z) : F unit :=
  s ← getS;
  let bb := XV6FS_BBLOCK b s.(f_sb) in
  d ← bread bb;
  modify (fun s => with_hint s (if b <? s.(g_balloc_hint) then b else s.(g_balloc_hint)));;
  let bi := b mod XV6FS_BPB in
  kassert (bm_test d bi) Asserted;;
  bput bb (bm_clear d bi);;
  log_write bb.

(** ** Inodes *)

(** The slot that has the inode, else the first free slot. *)
Fixpoint iget_scan (n : nat) (f : Z -> inode) (i inum : Z) (empty : option Z) : option (bool * Z) :=
  match n with
  | O => match empty with Some e => Some (false, e) | None => None end
  | S n =>
      if (0 <? (f i).(i_ref)) && ((f i).(i_inum) =? inum) then Some (true, i)
      else iget_scan n f (i + 1) inum
             (match empty with
              | Some _ => empty
              | None => if (f i).(i_ref) =? 0 then Some i else None
              end)
  end.

(** There is one device, so the comparison of device numbers is always true. *)
Definition xv6fs_iget (inum : Z) : F Z :=
  s ← getS;
  match iget_scan (Z.to_nat XV6FS_NINODE) s.(f_inode) 0 inum None with
  | Some (true, ip) =>
      upd_inode ip (fun i => mkInode i.(i_dev) i.(i_inum) (i.(i_ref) + 1) i.(i_locked) i.(i_valid) i.(i_d));; mret ip
  | Some (false, ip) => upd_inode ip (fun i => mkInode 1 inum 1 i.(i_locked) false i.(i_d));; mret ip
  | None => halt Asserted
  end.

Fixpoint ialloc_scan (n : nat) (inum type : Z) : F (option Z) :=
  match n with
  | O => mret None
  | S n =>
      s ← getS;
      if inum <? s.(f_sb).(sb_ninodes) then
        let ib := XV6FS_IBLOCK inum s.(f_sb) in
        d ← bread ib;
        let off := 64 * (inum mod XV6FS_IPB) in
        if (get_dinode d off).(di_type) =? 0 then
          t ← xv6fs_now_sec;
          bput ib (put_dinode d off (mkDi type 0 0 0 0 t (replicate 12 0)));;
          log_write ib;;
          ip ← xv6fs_iget inum; mret (Some ip)
        else ialloc_scan n (inum + 1) type
      else mret None
  end.

Definition xv6fs_ialloc (type : Z) : F (option Z) :=
  s ← getS; ialloc_scan (Z.to_nat s.(f_sb).(sb_ninodes)) 1 type.

Definition set_locked (ip : Z) (b : bool) : F unit :=
  upd_inode ip (fun i => mkInode i.(i_dev) i.(i_inum) i.(i_ref) b i.(i_valid) i.(i_d)).
Definition set_valid (ip : Z) (b : bool) : F unit :=
  upd_inode ip (fun i => mkInode i.(i_dev) i.(i_inum) i.(i_ref) i.(i_locked) b i.(i_d)).

(** [xv6_sleep_lock (&ip->lock)] *)
Definition lock_inode (ip : Z) : F unit :=
  s ← getS; kassert (negb (s.(f_inode) ip).(i_locked)) Deadlock;; set_locked ip true.

Definition xv6fs_ilock (ip : Z) : F unit :=
  s ← getS;
  kassert (1 <=? (s.(f_inode) ip).(i_ref)) Asserted;;
  lock_inode ip;;
  if (s.(f_inode) ip).(i_valid) then mret () else
    let inum := (s.(f_inode) ip).(i_inum) in
    d ← bread (XV6FS_IBLOCK inum s.(f_sb));
    set_d ip (fun _ => get_dinode d (64 * (inum mod XV6FS_IPB)));;
    set_valid ip true;;
    kassert (negb ((get_dinode d (64 * (inum mod XV6FS_IPB))).(di_type) =? 0)) Asserted.

Definition xv6fs_iunlock (ip : Z) : F unit :=
  s ← getS; kassert (1 <=? (s.(f_inode) ip).(i_ref)) Asserted;; set_locked ip false.

Definition xv6fs_iupdate (ip : Z) : F unit :=
  s ← getS;
  let i := s.(f_inode) ip in
  let ib := XV6FS_IBLOCK i.(i_inum) s.(f_sb) in
  d ← bread ib;
  bput ib (put_dinode d (64 * (i.(i_inum) mod XV6FS_IPB)) i.(i_d));;
  log_write ib.

(** ** Block maps *)

(** A pointer in the inode: allocate the block it is missing, if asked to. *)
Definition root_step (ip k : Z) (alloc : bool) : F Z :=
  di ← iget_d ip;
  let addr := zget di.(di_addrs) k in
  if addr =? 0 then
    if negb alloc then mret 0 else
    addr ← balloc;
    if addr =? 0 then mret 0 else set_addr ip k addr;; mret addr
  else mret addr.

(** A pointer in the indirect block [tbl], which stays locked meanwhile. *)
Definition table_step (tbl i : Z) (alloc : bool) : F Z :=
  d ← bread tbl;
  let addr := get32 d (4 * i) in
  if addr =? 0 then
    if negb alloc then mret 0 else
    addr ← balloc;
    if addr =? 0 then mret 0 else
      d ← bread tbl;
      bput tbl (put32 d (4 * i) addr);;
      log_write tbl;;
      mret addr
  else mret addr.

Definition bmap_lookup (ip bn : Z) (alloc : bool) : F Z :=
  if bn <? XV6FS_NDIRECT then root_step ip bn alloc else
  let bn := bn - XV6FS_NDIRECT in
  if bn <? XV6FS_NINDIRECT then
    addr ← root_step ip XV6FS_NDIRECT alloc;
    if addr =? 0 then mret 0 else table_step addr bn alloc
  else
  let bn := bn - XV6FS_NINDIRECT in
  if bn <? XV6FS_NDINDIRECT then
    addr ← root_step ip (XV6FS_NDIRECT + 1) alloc;
    if addr =? 0 then mret 0 else
    addr ← table_step addr (bn / XV6FS_NINDIRECT) alloc;
    if addr =? 0 then mret 0 else table_step addr (bn mod XV6FS_NINDIRECT) alloc
  else
  let bn := bn - XV6FS_NDINDIRECT in
  if bn <? XV6FS_NTINDIRECT then
    addr ← root_step ip (XV6FS_NDIRECT + 2) alloc;
    if addr =? 0 then mret 0 else
    addr ← table_step addr (bn / XV6FS_NDINDIRECT) alloc;
    if addr =? 0 then mret 0 else
    addr ← table_step addr (bn mod XV6FS_NDINDIRECT / XV6FS_NINDIRECT) alloc;
    if addr =? 0 then mret 0 else table_step addr (bn mod XV6FS_NINDIRECT) alloc
  else halt Asserted.

Definition bmap (ip bn : Z) : F Z := bmap_lookup ip bn true.

(** ** Truncation *)

Definition block_table_empty (d : block) : bool :=
  forallb (fun i => get32 d (4 * i) =? 0) (seqZ 0 XV6FS_NINDIRECT).

(** The loop over the entries of the table [tbl].  [free_it i a] says whether
    the block [a] of entry [i] goes. *)
Fixpoint trunc_entries (free_it : Z -> Z -> F bool) (tbl : Z) (n : nat) (i : Z) (dirty : bool) : F bool :=
  match n with
  | O => mret dirty
  | S n =>
      d ← bread tbl;
      let a := get32 d (4 * i) in
      e ← free_it i a;
      if e : bool then
        bfree a;;
        d ← bread tbl;
        bput tbl (put32 d (4 * i) 0);;
        trunc_entries free_it tbl n (i + 1) true
      else trunc_entries free_it tbl n (i + 1) dirty
  end.

(** The loops over the indirect blocks of one, two and three levels have the
    same body.  [lvl] is the number of levels below [tbl]; file block [fbn] is
    the one under its first pointer.  The result says that the table is empty
    now, so that the caller frees it and clears the pointer to it. *)
Fixpoint trunc_table (lvl : nat) (tbl fbn keep : Z) : F bool :=
  _ ← bread tbl;
  dirty ← trunc_entries (fun i a =>
      match lvl with
      | O => mret ((keep <=? fbn + i) && negb (a =? 0))
      | S lvl' =>
          if a =? 0 then mret false
          else trunc_table lvl' a (fbn + i * XV6FS_NINDIRECT ^ Z.of_nat lvl) keep
      end) tbl (Z.to_nat XV6FS_NINDIRECT) 0 false;
  d ← bread tbl;
  if block_table_empty d then mret true
  else (if dirty : bool then log_write tbl else mret ());; mret false.

Definition trunc_direct (ip keep : Z) (i : Z) : F unit :=
  di ← iget_d ip;
  if (keep <=? i) && negb (zget di.(di_addrs) i =? 0) then
    bfree (zget di.(di_addrs) i);; set_addr ip i 0
  else mret ().

Definition trunc_root (ip keep : Z) (lvl : nat) (k fbn : Z) : F unit :=
  di ← iget_d ip;
  let a := zget di.(di_addrs) k in
  if a =? 0 then mret () else
  e ← trunc_table lvl a fbn keep;
  if e : bool then bfree a;; set_addr ip k 0 else mret ().

Definition xv6fs_itrunc_to (ip length : Z) : F unit :=
  let keep := u32 (length + BSIZE - 1) / BSIZE in
  mfor (Z.to_nat XV6FS_NDIRECT) 0 (trunc_direct ip keep);;
  trunc_root ip keep 0 XV6FS_NDIRECT XV6FS_NDIRECT;;
  trunc_root ip keep 1 (XV6FS_NDIRECT + 1) (XV6FS_NDIRECT + XV6FS_NINDIRECT);;
  trunc_root ip keep 2 (XV6FS_NDIRECT + 2) (XV6FS_NDIRECT + XV6FS_NINDIRECT + XV6FS_NDINDIRECT);;
  set_size ip length;;
  t ← xv6fs_now_sec;
  set_mtime ip t;;
  xv6fs_iupdate ip.

Definition xv6fs_itrunc (ip : Z) : F unit := xv6fs_itrunc_to ip 0.

(** [false]: the reservation is too small, and nothing was written. *)
Definition xv6fs_iput_try (ip reserved_need : Z) : F bool :=
  s ← getS;
  let i := s.(f_inode) ip in
  let drop_ref := upd_inode ip (fun i => mkInode i.(i_dev) i.(i_inum) (i.(i_ref) - 1) i.(i_locked) i.(i_valid) i.(i_d)) in
  if (i.(i_ref) =? 1) && i.(i_valid) && (i.(i_d).(di_nlink) =? 0) then
    if reserved_need <? xv6fs_itrunc_need i.(i_d).(di_size) 0 then mret false else
    lock_inode ip;;
    xv6fs_itrunc ip;;
    set_type ip 0;;
    xv6fs_iupdate ip;;
    set_valid ip false;;
    set_locked ip false;;
    drop_ref;; mret true
  else drop_ref;; mret true.

Definition xv6fs_iput (ip : Z) : F unit := _ ← xv6fs_iput_try ip XV6FS_LOGBLOCKS; mret ().

Fixpoint iput_op_loop (fuel : nat) (ip need : Z) : F unit :=
  match fuel with
  | O => halt Asserted
  | S fuel =>
      begin_op need;;
      ok ← xv6fs_iput_try ip need;
      end_op need;;
      if ok : bool then mret () else iput_op_loop fuel ip XV6FS_LOGBLOCKS
  end.

(** The second turn always succeeds, so two are enough. *)
Definition xv6fs_iput_op (ip : Z) : F unit :=
  s ← getS;
  let i := s.(f_inode) ip in
  let need := if (i.(i_ref) =? 1) && i.(i_valid) && (i.(i_d).(di_nlink) =? 0)
              then xv6fs_itrunc_need i.(i_d).(di_size) 0 else XV6LOG_OP_SMALL in
  iput_op_loop 2 ip need.

Definition xv6fs_iunlockput (ip : Z) : F unit := xv6fs_iunlock ip;; xv6fs_iput ip.

Definition xv6fs_stat (ip : Z) : F (Z * Z * Z * Z * Z) :=
  s ← getS;
  let i := s.(f_inode) ip in
  mret (i.(i_dev), i.(i_inum), i.(i_d).(di_type), i.(i_d).(di_nlink), i.(i_d).(di_size)).

(** ** Reading and writing files *)

(** How many blocks from file block [fb] on lie one after the other on the
    disk, at most [maxrun]. *)
Fixpoint count_run (fuel : nat) (ip fb addr run maxrun : Z) : F Z :=
  match fuel with
  | O => mret run
  | S fuel =>
      if run <? maxrun then
        a ← bmap_lookup ip (fb + run) false;
        if a =? u32 (addr + run) then count_run fuel ip fb addr (run + 1) maxrun else mret run
      else mret run
  end.

Fixpoint read_run (n : nat) (addr : Z) : F (list Z) :=
  match n with
  | O => mret []
  | S n => d ← bread addr; rest ← read_run n (u32 (addr + 1)); mret (d ++ rest)
  end.

Definition xv6bio_range_cached (s : logst) (blockno nblocks : Z) : bool :=
  existsb (fun i => bool_decide (is_Some (s.(cache) !! u32 (blockno + i)))) (seqZ 0 nblocks).

(** A buffer that is valid already keeps its contents. *)
Definition xv6bio_fill_cache (blockno : Z) (bufs : list block) : L unit :=
  mfor (length bufs) 0 (fun i =>
    s ← getS;
    match s.(cache) !! u32 (blockno + i) with
    | Some _ => mret ()
    | None => bstore (u32 (blockno + i)) (zget bufs i)
    end).

(** [off] is aligned and at least one block is wanted: try to move a run of
    consecutive blocks.  [None]: there is no run. *)
Definition readi_run (ip addr off left : Z) : F (option (list Z)) :=
  let maxrun := left / BSIZE in
  run ← count_run (Z.to_nat maxrun) ip (off / BSIZE) addr 1 maxrun;
  if run <=? 1 then mret None else
  s ← getS;
  direct ← (if xv6bio_range_cached s.(f_log) addr run then mret None
            else onlog (xv6bio_rw_run_read addr run));
  match direct with
  | Some bufs => onlog (xv6bio_fill_cache addr bufs);; mret (Some (concat bufs))
  | None => d ← read_run (Z.to_nat run) addr; mret (Some d)
  end.

(** The bytes delivered; every turn ends at a block boundary or at the end, so
    [left / BSIZE + 2] turns are enough. *)
Fixpoint readi_loop (fuel : nat) (ip off left : Z) : F (list Z) :=
  match fuel with
  | O => mret []
  | S fuel =>
      if left <=? 0 then mret [] else
      addr ← bmap_lookup ip (off / BSIZE) false;
      let m := Z.min left (BSIZE - off mod BSIZE) in
      chunk ← (if addr =? 0 then mret (replicate (Z.to_nat m) 0) else
               r ← (if (off mod BSIZE =? 0) && (BSIZE <=? left) then readi_run ip addr off left else mret None);
               match r with
               | Some d => mret d
               | None => d ← bread addr; mret (slice d (off mod BSIZE) m)
               end);
      rest ← readi_loop fuel ip (off + zlen chunk) (left - zlen chunk);
      mret (chunk ++ rest)
  end.

Definition xv6fs_readi (ip off n : Z) : F (list Z) :=
  di ← iget_d ip;
  if (di.(di_size) <? off) || (u32 (off + n) <? off) then mret [] else
  let n := if di.(di_size) <? u32 (off + n) then di.(di_size) - off else n in
  readi_loop (Z.to_nat (n / BSIZE) + 2) ip off n.

(** The number of bytes written; it stops early when the disk is full. *)
Fixpoint writei_loop (fuel : nat) (ip off : Z) (src : list Z) : F Z :=
  match fuel with
  | O => mret 0
  | S fuel =>
      if zlen src <=? 0 then mret 0 else
      addr ← bmap ip (off / BSIZE);
      if addr =? 0 then mret 0 else
      d ← bread addr;
      let m := Z.min (zlen src) (BSIZE - off mod BSIZE) in
      bput addr (splice d (off mod BSIZE) (take (Z.to_nat m) src));;
      log_write addr;;
      tot ← writei_loop fuel ip (off + m) (drop (Z.to_nat m) src);
      mret (m + tot)
  end.

(** [None]: the arguments are refused (-1). *)
Definition xv6fs_writei (ip : Z) (src : list Z) (off : Z) : F (option Z) :=
  let n := zlen src in
  if u32 (off + n) <? off then mret None else
  if XV6FS_MAXFILE * BSIZE <? off + n then mret None else
  tot ← writei_loop (Z.to_nat (n / BSIZE) + 2) ip off src;
  di ← iget_d ip;
  (if di.(di_size) <? off + tot then set_size ip (off + tot) else mret ());;
  (if 0 <? tot then t ← xv6fs_now_sec; set_mtime ip t else mret ());;
  xv6fs_iupdate ip;;
  mret (Some tot).
