(* ===== verification/Xv6dir.v ===== *)
(** * The file system: directories and paths (kernel/xv6fs.c)

    A directory is a file of 64-byte entries, an inode number and a name of at
    most 62 bytes.  Paths are lists of bytes without the terminating 0. *)
From S2P Require Import Prelude State Bytes Log Xv6fs.

(** ** Entries *)

Definition DE_SIZE : Z := 64.
(** [struct xv6fs_dirent] *)
Record dirent := mkDe { de_inum : Z; de_name : list Z }.
Definition get_dirent (d : list Z) : dirent := mkDe (get16 d 0) (slice d 2 XV6FS_DIRSIZ).
Definition put_dirent (e : dirent) : list Z := le_bytes 2 e.(de_inum) ++ e.(de_name).
Definition de_zero : dirent := mkDe 0 (replicate (Z.to_nat XV6FS_DIRSIZ) 0).

(** [namecmp (s, t) == 0] *)
Definition nameeq (s t : list Z) : bool := strneq (Z.to_nat XV6FS_DIRSIZ) s t.

(** Reading entries one after the other until [f] gives a result; [None] for a
    short read. *)
Fixpoint dir_scan {A} (fuel : nat) (dp off : Z) (f : Z -> dirent -> option A) : F (option (option A)) :=
  match fuel with
  | O => mret (Some None)
  | S fuel =>
      di ← iget_d dp;
      if off <? di.(di_size) then
        d ← xv6fs_readi dp off DE_SIZE;
        if negb (zlen d =? DE_SIZE) then mret None else
        match f off (get_dirent d) with
        | Some a => mret (Some (Some a))
        | None => dir_scan fuel dp (off + DE_SIZE) f
        end
      else mret (Some None)
  end.

Definition dir_fuel (di : dinode) : nat := S (Z.to_nat (di.(di_size) / DE_SIZE)).

Definition match_name (name : list Z) (off : Z) (e : dirent) : option (Z * Z) :=
  if e.(de_inum) =? 0 then None else if nameeq name e.(de_name) then Some (e.(de_inum), off) else None.

(** The inode found and the offset of its entry. *)
Definition xv6fs_dirlookup (dp : Z) (name : list Z) : F (option (Z * Z)) :=
  di ← iget_d dp;
  if negb (di.(di_type) =? XV6FS_T_DIR) then mret None else
  r ← dir_scan (dir_fuel di) dp 0 (match_name name);
  match r with
  | Some (Some (inum, off)) => ip ← xv6fs_iget inum; mret (Some (ip, off))
  | _ => mret None
  end.

Definition free_entry (off : Z) (e : dirent) : option Z := if e.(de_inum) =? 0 then Some off else None.

(** Where the loop for a free entry stops: at a free entry or past the end. *)
Fixpoint dir_end (fuel : nat) (off size : Z) : Z :=
  match fuel with
  | O => off
  | S fuel => if off <? size then dir_end fuel (off + DE_SIZE) size else off
  end.

Definition mk_dirent (name : list Z) (inum : Z) : dirent :=
  mkDe (u16 inum) (strncpy (Z.to_nat XV6FS_DIRSIZ) name).

(** [false]: -1 *)
Definition xv6fs_dirlink (dp : Z) (name : list Z) (inum : Z) : F bool :=
  r ← xv6fs_dirlookup dp name;
  match r with
  | Some (ip, _) => xv6fs_iput ip;; mret false
  | None =>
      di ← iget_d dp;
      r ← dir_scan (dir_fuel di) dp 0 free_entry;
      kassert (bool_decide (is_Some r)) Asserted;;
      let off := match r with Some (Some off) => off | _ => dir_end (dir_fuel di) 0 di.(di_size) end in
      w ← xv6fs_writei dp (put_dirent (mk_dirent name inum)) off;
      mret (bool_decide (w = Some DE_SIZE))
  end.

(** ** Paths *)

Definition SLASH : Z := 47.
Definition DOT : Z := 46.

Fixpoint skip_slashes (p : list Z) : list Z :=
  match p with
  | c :: p' => if c =? SLASH then skip_slashes p' else p
  | [] => []
  end.
Fixpoint take_elem (p : list Z) : list Z * list Z :=
  match p with
  | c :: p' => if c =? SLASH then ([], p) else let '(e, r) := take_elem p' in (c :: e, r)
  | [] => ([], [])
  end.

(** The next element, cut to 62 bytes, and the rest of the path.  An element
    of 62 bytes or more leaves no terminating 0 in [name]: [false]. *)
Definition skipelem (path : list Z) : option (list Z * bool * list Z) :=
  match skip_slashes path with
  | [] => None
  | p =>
      let '(e, r) := take_elem p in
      Some (take (Z.to_nat XV6FS_DIRSIZ) e, zlen e <? XV6FS_DIRSIZ, skip_slashes r)
  end.

Abbreviation XV6FS_SYMLOOP_MAX := 16%nat.

Definition xv6fs_read_symlink_target (ip bufsiz : Z) : F (list Z) :=
  xv6fs_ilock ip;;
  d ← xv6fs_readi ip 0 (u32 (bufsiz - 1));
  xv6fs_iunlockput ip;;
  mret (cstr d).

(** The path to start again with when an element is a symbolic link. *)
Definition symlink_path (resolved target rest : list Z) : option (list Z) :=
  let c :=
    if hd 0 target =? SLASH then if 256 <=? zlen target then None else Some target
    else if 256 <=? zlen resolved + 1 + zlen target then None else Some (resolved ++ [SLASH] ++ target) in
  match c with
  | None => None
  | Some c =>
      match rest with
      | [] => Some c
      | _ => if 256 <=? zlen c + 1 + zlen rest then None else Some (c ++ [SLASH] ++ rest)
      end
  end.

(** The result: the inode, and the last element of the path. *)
Abbreviation found := (option Z * list Z)%type.

(** The loop over the elements; [again] starts over with another path. *)
Fixpoint namex_walk (fuel : nat) (again : list Z -> F found) (nameiparent follow_final : bool)
    (ip : Z) (path resolved name : list Z) : F found :=
  match fuel with
  | O => halt Asserted
  | S fuel =>
      match skipelem path with
      | None => if nameiparent then xv6fs_iput ip;; mret (None, name) else mret (Some ip, name)
      | Some (name, terminated, path) =>
          xv6fs_ilock ip;;
          di ← iget_d ip;
          if negb (di.(di_type) =? XV6FS_T_DIR) then xv6fs_iunlockput ip;; mret (None, name) else
          if nameiparent && bool_decide (path = []) then xv6fs_iunlock ip;; mret (Some ip, name) else
          r ← xv6fs_dirlookup ip name;
          xv6fs_iunlockput ip;;
          match r with
          | None => mret (None, name)
          | Some (next, _) =>
              xv6fs_ilock next;;
              di ← iget_d next;
              xv6fs_iunlock next;;
              if (di.(di_type) =? XV6FS_T_SYMLINK) && (negb (bool_decide (path = [])) || follow_final) then
                target ← xv6fs_read_symlink_target next 256;
                match symlink_path resolved target path with
                | None => mret (None, name)
                | Some p => again p
                end
              else
                (* [strlen (name)] reads past the array when [name] has no 0 *)
                kassert terminated Undefined;;
                let resolved := if zlen resolved + 1 + zlen name <? 256 then resolved ++ [SLASH] ++ name else resolved in
                namex_walk fuel again nameiparent follow_final next path resolved name
          end
      end
  end.

(** [depth] counts down from the limit on symbolic links. *)
Fixpoint namex_depth (depth : nat) (path : list Z) (nameiparent follow_final : bool) (name : list Z) : F found :=
  match depth with
  | O => mret (None, name)
  | S depth =>
      if hd 0 path =? SLASH then
        ip ← xv6fs_iget XV6FS_ROOTINO;
        namex_walk (S (length path)) (fun p => namex_depth depth p nameiparent follow_final name)
          nameiparent follow_final ip path [] name
      else mret (None, name)
  end.

Definition namex (path : list Z) (nameiparent : bool) : F found :=
  namex_depth (S XV6FS_SYMLOOP_MAX) path nameiparent true [].
Definition xv6fs_namei (path : list Z) : F (option Z) := r ← namex path false; mret r.1.
Definition xv6fs_namei_nofollow (path : list Z) : F (option Z) :=
  r ← namex_depth (S XV6FS_SYMLOOP_MAX) path false false []; mret r.1.
Definition xv6fs_nameiparent (path : list Z) : F found := namex path true.
