(* ===== verification/Xv6vfs.v ===== *)
(** * The file system: the calls the kernel makes (kernel/xv6fs.c)

    Mounting, and the operations on paths: each looks its inodes up, brackets
    its changes in a journal transaction, and gives its references back.  An
    integer result is the one of the C function. *)
From S2P Require Import Prelude State Bytes Log Xv6fs Xv6dir.

(** ** Mounting *)

Definition readsb : F superblock := d ← bread 1; mret (get_sb d).

Definition writesb (sb : superblock) : F unit :=
  d ← bread 1; bput 1 (put_sb d sb);; onlog (xv6bwrite 1).

Definition blank_inode (i : inode) : inode := mkInode i.(i_dev) i.(i_inum) 0 false false i.(i_d).

Definition xv6fs_init : F unit :=
  modify (fun s => with_rename (with_inodes s (fun i =>
    if (0 <=? i) && (i <? XV6FS_NINODE) then blank_inode (s.(f_inode) i) else s.(f_inode) i)) false).

(** [xv6bio_init]: no buffer is valid or held *)
Definition reset_cache : F unit := onlog (modify (fun s => with_pins (with_cache s ∅) (fun _ => 0))).

Definition set_mount (sb : superblock) (base : Z) (name : list Z) : F unit :=
  modify (fun s => with_mount s sb base name).

Definition xv6fs_mount_storage (devname : list Z) (pages : option (list block)) : F Z :=
  let name := take 15 devname in
  s ← getS;
  set_mount s.(f_sb) s.(g_mtime_base) name;;
  reset_cache;;
  sb ← readsb;
  if negb (sb.(sb_magic) =? XV6FS_FSMAGIC) then set_mount sb s.(g_mtime_base) [];; mret (-1) else
  set_mount sb s.(g_mtime_base) name;;
  onlog (xv6log_init sb.(sb_logstart) pages);;
  xv6fs_init;;
  let base := u32 (sb.(sb_mtime_base) + XV6FS_MOUNT_ADVANCE_SEC) in
  let sb := mkSb sb.(sb_magic) sb.(sb_size) sb.(sb_nblocks) sb.(sb_ninodes) sb.(sb_nlog) sb.(sb_logstart)
              sb.(sb_inodestart) sb.(sb_bmapstart) base in
  set_mount sb base name;;
  writesb sb;;
  mret 0.

Definition xv6fs_is_mounted (s : fsst) : bool := negb (bool_decide (s.(g_devname) = [])).

(** ** Looking at files *)

Definition lookup_path (path : list Z) : list Z := match path with [] => [SLASH] | _ => path end.

Definition xv6fs_ino_path (path : list Z) : F (option Z) :=
  r ← xv6fs_namei (lookup_path path);
  match r with
  | None => mret None
  | Some ip =>
      xv6fs_ilock ip;;
      s ← getS;
      xv6fs_iunlock ip;; xv6fs_iput ip;;
      mret (Some (s.(f_inode) ip).(i_inum))
  end.

(** mode, size, time, device number *)
Definition stat_of (di : dinode) : Z * Z * Z * Z :=
  (xv6fs_type_mode di, di.(di_size), di.(di_mtime),
   if di.(di_type) =? XV6FS_T_DEVICE
   then Z.lor (Z.shiftl (Z.land (u32 di.(di_major)) 0xff) 8) (Z.land (u32 di.(di_minor)) 0xff) else 0).

Definition stat_found (r : option Z) : F (option (Z * Z * Z * Z)) :=
  match r with
  | None => mret None
  | Some ip =>
      xv6fs_ilock ip;;
      di ← iget_d ip;
      xv6fs_iunlock ip;; xv6fs_iput ip;;
      mret (Some (stat_of di))
  end.

Definition xv6fs_stat_path (path : list Z) : F (option (Z * Z * Z * Z)) :=
  r ← xv6fs_namei (lookup_path path); stat_found r.
Definition xv6fs_lstat_path (path : list Z) : F (option (Z * Z * Z * Z)) :=
  r ← xv6fs_namei_nofollow (lookup_path path); stat_found r.

Definition xv6fs_readlink_path (path : list Z) (bufsiz : Z) : F (option (list Z)) :=
  r ← xv6fs_namei_nofollow path;
  match r with
  | None => mret None
  | Some ip =>
      xv6fs_ilock ip;;
      di ← iget_d ip;
      if negb (di.(di_type) =? XV6FS_T_SYMLINK) then xv6fs_iunlock ip;; xv6fs_iput ip;; mret None else
      d ← xv6fs_readi ip 0 (u32 bufsiz);
      xv6fs_iunlock ip;; xv6fs_iput ip;;
      mret (Some d)
  end.

Definition is_dot (n : list Z) : bool :=
  (zget n 0 =? DOT) && ((zget n 1 =? 0) || ((zget n 1 =? DOT) && (zget n 2 =? 0))).

(** Name, mode and size of the entries; the name field of [struct orth_dirent]
    has room for 62 bytes and more. *)
Fixpoint list_loop (fuel : nat) (dp off room : Z) : F (list (list Z * Z * Z)) :=
  match fuel with
  | O => mret []
  | S fuel =>
      di ← iget_d dp;
      if off <? di.(di_size) then
        d ← xv6fs_readi dp off DE_SIZE;
        if negb (zlen d =? DE_SIZE) then mret [] else
        let e := get_dirent d in
        if (e.(de_inum) =? 0) || is_dot e.(de_name) then list_loop fuel dp (off + DE_SIZE) room else
        if room <=? 0 then mret [] else
        ip ← xv6fs_iget e.(de_inum);
        xv6fs_ilock ip;;
        i ← iget_d ip;
        xv6fs_iunlock ip;; xv6fs_iput ip;;
        rest ← list_loop fuel dp (off + DE_SIZE) (room - 1);
        mret ((cstr e.(de_name), xv6fs_type_mode i, i.(di_size)) :: rest)
      else mret []
  end.

Definition xv6fs_list_dir (path : list Z) (max_entries : Z) : F (option (list (list Z * Z * Z))) :=
  r ← xv6fs_namei (lookup_path path);
  match r with
  | None => mret None
  | Some dp =>
      xv6fs_ilock dp;;
      di ← iget_d dp;
      if negb (di.(di_type) =? XV6FS_T_DIR) then xv6fs_iunlock dp;; xv6fs_iput dp;; mret None else
      l ← list_loop (dir_fuel di) dp 0 max_entries;
      xv6fs_iunlock dp;; xv6fs_iput dp;;
      mret (Some l)
  end.

(** ** Writing *)

(** One transaction per chunk. *)
Fixpoint write_loop (fuel : nat) (ip offset : Z) (src : list Z) : F Z :=
  match fuel with
  | O => halt Asserted
  | S fuel =>
      let chunk := if XV6FS_WRITE_CHUNK_MAX <? zlen src then XV6FS_WRITE_CHUNK_MAX else zlen src in
      let op_blocks := XV6LOG_OP_WRITE chunk in
      begin_op op_blocks;;
      xv6fs_ilock ip;;
      r ← xv6fs_writei ip (take (Z.to_nat chunk) src) (u32 offset);
      xv6fs_iunlock ip;;
      end_op op_blocks;;
      if negb (bool_decide (r = Some chunk)) then xv6fs_iput ip;; mret (-1) else
      let src := drop (Z.to_nat chunk) src in
      if 0 <? zlen src then write_loop fuel ip (offset + chunk) src
      else xv6fs_iput ip;; mret 0
  end.

Definition xv6fs_write_file (path : list Z) (offset : Z) (buf : list Z) : F Z :=
  r ← xv6fs_namei path;
  match r with
  | None => mret (-1)
  | Some ip => write_loop (S (Z.to_nat (zlen buf / XV6FS_WRITE_CHUNK_MAX))) ip offset buf
  end.

(** ** Creating *)

(** The common steps of creating a node: -1 or the inode, unlocked.  [mode] is
    [None] for a symbolic link. *)
Definition create_node (dp : Z) (name : list Z) (type : Z) (mode : option Z) : F (option Z) :=
  r ← xv6fs_ialloc type;
  match r with
  | None => xv6fs_iunlock dp;; end_op XV6LOG_OP_SMALL;; xv6fs_iput dp;; mret None
  | Some ip =>
      xv6fs_ilock ip;;
      set_nlink ip 1;;
      (match mode with Some m => xv6fs_set_mode ip m | None => mret () end);;
      xv6fs_iupdate ip;;
      s ← getS;
      ok ← xv6fs_dirlink dp name (s.(f_inode) ip).(i_inum);
      if ok : bool then
        xv6fs_iunlock ip;; xv6fs_iunlock dp;; end_op XV6LOG_OP_SMALL;; xv6fs_iput dp;; mret (Some ip)
      else
        set_nlink ip 0;; xv6fs_iupdate ip;; xv6fs_iunlock ip;; xv6fs_iput ip;;
        xv6fs_iunlock dp;; end_op XV6LOG_OP_SMALL;; xv6fs_iput dp;; mret None
  end.

Definition xv6fs_mknod_fifo (path : list Z) (mode : Z) : F Z :=
  match path with
  | [] => mret (-1)
  | _ =>
      begin_op XV6LOG_OP_SMALL;;
      r ← xv6fs_nameiparent path;
      match r with
      | (None, _) => end_op XV6LOG_OP_SMALL;; mret (-1)
      | (Some dp, name) =>
          xv6fs_ilock dp;;
          e ← xv6fs_dirlookup dp name;
          match e with
          | Some (ip, _) =>
              xv6fs_iput ip;; xv6fs_iunlock dp;; end_op XV6LOG_OP_SMALL;; xv6fs_iput dp;; mret (-17)
          | None =>
              n ← create_node dp name XV6FS_T_FIFO (Some mode);
              match n with
              | None => mret (-1)
              | Some ip => xv6fs_iput ip;; mret 0
              end
          end
      end
  end.

(** The inode, with a reference for the caller; [None]: -1. *)
Definition xv6fs_create_file (path : list Z) (mode : Z) : F (option Z) :=
  match path with
  | [] => mret None
  | _ =>
      begin_op XV6LOG_OP_SMALL;;
      r ← xv6fs_nameiparent path;
      match r with
      | (None, _) => end_op XV6LOG_OP_SMALL;; mret None
      | (Some dp, name) =>
          xv6fs_ilock dp;;
          e ← xv6fs_dirlookup dp name;
          match e with
          | Some (ip, _) =>
              xv6fs_ilock ip;;
              di ← iget_d ip;
              xv6fs_iunlock ip;;
              if (di.(di_type) =? XV6FS_T_FILE) || (di.(di_type) =? XV6FS_T_DEVICE) || (di.(di_type) =? XV6FS_T_FIFO) then
                xv6fs_iunlock dp;; end_op XV6LOG_OP_SMALL;; xv6fs_iput dp;; mret (Some ip)
              else
                xv6fs_iput ip;; xv6fs_iunlock dp;; end_op XV6LOG_OP_SMALL;; xv6fs_iput dp;; mret None
          | None => create_node dp name XV6FS_T_FILE (Some mode)
          end
      end
  end.

Definition xv6fs_symlink_path (target linkpath : list Z) : F Z :=
  let tlen := zlen target in
  if bool_decide (linkpath = []) || (tlen <=? 0) || (BSIZE <=? tlen) then mret (-1) else
  begin_op XV6LOG_OP_SMALL;;
  r ← xv6fs_nameiparent linkpath;
  match r with
  | (None, _) => end_op XV6LOG_OP_SMALL;; mret (-1)
  | (Some dp, name) =>
      xv6fs_ilock dp;;
      e ← xv6fs_dirlookup dp name;
      match e with
      | Some (ip, _) =>
          xv6fs_iput ip;; xv6fs_iunlock dp;; end_op XV6LOG_OP_SMALL;; xv6fs_iput dp;; mret (-1)
      | None =>
          n ← create_node dp name XV6FS_T_SYMLINK None;
          match n with
          | None => mret (-1)
          | Some ip =>
              begin_op (XV6LOG_OP_WRITE tlen);;
              xv6fs_ilock ip;;
              w ← xv6fs_writei ip target 0;
              xv6fs_iunlock ip;; end_op (XV6LOG_OP_WRITE tlen);; xv6fs_iput ip;;
              mret (if bool_decide (w = Some tlen) then 0 else -1)
          end
      end
  end.

Definition xv6fs_mkdir_path (path : list Z) (mode : Z) : F Z :=
  r ← xv6fs_nameiparent path;
  match r with
  | (None, _) => mret (-1)
  | (Some dp, name) =>
      begin_op XV6LOG_OP_SMALL;;
      xv6fs_ilock dp;;
      n ← xv6fs_ialloc XV6FS_T_DIR;
      match n with
      | None => xv6fs_iunlock dp;; end_op XV6LOG_OP_SMALL;; xv6fs_iput dp;; mret (-1)
      | Some ip =>
          xv6fs_ilock ip;;
          set_nlink ip 1;;
          xv6fs_set_mode ip mode;;
          xv6fs_iupdate ip;;
          s ← getS;
          _ ← xv6fs_dirlink ip [DOT] (s.(f_inode) ip).(i_inum);
          _ ← xv6fs_dirlink ip [DOT; DOT] (s.(f_inode) dp).(i_inum);
          _ ← xv6fs_dirlink dp name (s.(f_inode) ip).(i_inum);
          di ← iget_d dp;
          set_nlink dp (di.(di_nlink) + 1);;
          xv6fs_iupdate dp;;
          xv6fs_iunlock ip;; xv6fs_iput ip;;
          xv6fs_iunlock dp;; end_op XV6LOG_OP_SMALL;; xv6fs_iput dp;;
          mret 0
      end
  end.

(** ** Truncating, removing and linking *)

(** [need] too small: start again with the right one. *)
Fixpoint truncate_loop (fuel : nat) (ip length need : Z) : F Z :=
  match fuel with
  | O => halt Asserted
  | S fuel =>
      begin_op need;;
      xv6fs_ilock ip;;
      if XV6FS_MAXFILE * BSIZE <? length then xv6fs_iunlock ip;; end_op need;; xv6fs_iput ip;; mret (-1) else
      di ← iget_d ip;
      if length <? di.(di_size) then
        let real_need := xv6fs_itrunc_need di.(di_size) (u32 length) in
        if need <? real_need then xv6fs_iunlock ip;; end_op need;; truncate_loop fuel ip length real_need else
        xv6fs_itrunc_to ip (u32 length);;
        xv6fs_iunlock ip;; end_op need;; xv6fs_iput ip;; mret 0
      else
        set_size ip (u32 length);;
        t ← xv6fs_now_sec;
        set_mtime ip t;;
        xv6fs_iupdate ip;;
        xv6fs_iunlock ip;; end_op need;; xv6fs_iput ip;; mret 0
  end.

(** Nobody changes the size in between here, so two turns are enough. *)
Definition xv6fs_truncate_file (path : list Z) (length : Z) : F Z :=
  r ← xv6fs_namei path;
  match r with
  | None => mret (-1)
  | Some ip =>
      di ← iget_d ip;
      truncate_loop 2 ip length
        (if length <? di.(di_size) then xv6fs_itrunc_need di.(di_size) (u32 length) else XV6LOG_OP_SMALL)
  end.

Definition clear_entry (dp off : Z) : F unit := _ ← xv6fs_writei dp (put_dirent de_zero) off; mret ().
Definition add_nlink (ip n : Z) : F unit := di ← iget_d ip; set_nlink ip (di.(di_nlink) + n).

Definition xv6fs_unlink_path (path : list Z) : F Z :=
  r ← xv6fs_nameiparent path;
  match r with
  | (None, _) => mret (-1)
  | (Some dp, name) =>
      begin_op XV6LOG_OP_FULL;;
      xv6fs_ilock dp;;
      let leave := xv6fs_iunlock dp;; end_op XV6LOG_OP_FULL;; xv6fs_iput dp in
      e ← xv6fs_dirlookup dp name;
      match e with
      | None => leave;; mret (-1)
      | Some (ip, off) =>
          xv6fs_ilock ip;;
          di ← iget_d ip;
          if di.(di_type) =? XV6FS_T_DIR then xv6fs_iunlock ip;; xv6fs_iput ip;; leave;; mret (-1) else
          clear_entry dp off;;
          add_nlink ip (-1);;
          xv6fs_iupdate ip;;
          xv6fs_iunlock ip;; xv6fs_iput ip;; leave;; mret 0
      end
  end.

Definition xv6fs_rmdir_path (path : list Z) : F Z :=
  r ← xv6fs_nameiparent path;
  match r with
  | (None, _) => mret (-1)
  | (Some dp, name) =>
      begin_op XV6LOG_OP_FULL;;
      xv6fs_ilock dp;;
      let leave := xv6fs_iunlock dp;; end_op XV6LOG_OP_FULL;; xv6fs_iput dp in
      e ← xv6fs_dirlookup dp name;
      match e with
      | None => leave;; mret (-1)
      | Some (ip, off) =>
          xv6fs_ilock ip;;
          di ← iget_d ip;
          if negb (di.(di_type) =? XV6FS_T_DIR) then xv6fs_iunlock ip;; xv6fs_iput ip;; leave;; mret (-1) else
          clear_entry dp off;;
          add_nlink dp (-1);;
          xv6fs_iupdate dp;;
          set_nlink ip 0;;
          xv6fs_iupdate ip;;
          xv6fs_iunlock ip;; xv6fs_iput ip;; leave;; mret 0
      end
  end.

(** There is one device, so the two inodes are always on the same. *)
Definition xv6fs_link_path (oldpath newpath : list Z) : F Z :=
  r ← xv6fs_namei oldpath;
  match r with
  | None => mret (-1)
  | Some ip =>
      begin_op XV6LOG_OP_FULL;;
      xv6fs_ilock ip;;
      di ← iget_d ip;
      if di.(di_type) =? XV6FS_T_DIR then xv6fs_iunlock ip;; end_op XV6LOG_OP_FULL;; xv6fs_iput ip;; mret (-1) else
      add_nlink ip 1;;
      xv6fs_iupdate ip;;
      xv6fs_iunlock ip;;
      p ← xv6fs_nameiparent newpath;
      ok ← match p with
           | (None, _) => mret false
           | (Some dp, name) =>
               xv6fs_ilock dp;;
               s ← getS;
               ok ← xv6fs_dirlink dp name (s.(f_inode) ip).(i_inum);
               xv6fs_iunlock dp;; xv6fs_iput dp;; mret ok
           end;
      if ok : bool then end_op XV6LOG_OP_FULL;; xv6fs_iput ip;; mret 0
      else
        xv6fs_ilock ip;; add_nlink ip (-1);; xv6fs_iupdate ip;; xv6fs_iunlock ip;;
        end_op XV6LOG_OP_FULL;; xv6fs_iput ip;; mret (-1)
  end.

Definition xv6fs_touch_path (path : list Z) : F Z :=
  r ← xv6fs_namei path;
  match r with
  | None => mret (-1)
  | Some ip =>
      begin_op XV6LOG_OP_SMALL;;
      xv6fs_ilock ip;;
      t ← xv6fs_now_sec;
      set_mtime ip t;;
      xv6fs_iupdate ip;;
      xv6fs_iunlock ip;; end_op XV6LOG_OP_SMALL;; xv6fs_iput ip;; mret 0
  end.

Definition xv6fs_chmod_path (path : list Z) (mode : Z) : F Z :=
  r ← xv6fs_namei path;
  match r with
  | None => mret (-1)
  | Some ip =>
      begin_op XV6LOG_OP_SMALL;;
      xv6fs_ilock ip;;
      di ← iget_d ip;
      let leave := xv6fs_iunlock ip;; end_op XV6LOG_OP_SMALL;; xv6fs_iput ip in
      if negb (di.(di_type) =? XV6FS_T_DIR) && negb (di.(di_type) =? XV6FS_T_FILE) then leave;; mret (-1) else
      xv6fs_set_mode ip mode;;
      xv6fs_iupdate ip;;
      leave;; mret 0
  end.

(** ** Renaming *)

Definition dotted (n : list Z) : bool := nameeq n [DOT] || nameeq n [DOT; DOT].
Definition busy_entry (off : Z) (e : dirent) : option unit :=
  if (e.(de_inum) =? 0) || dotted e.(de_name) then None else Some ().

Definition dir_is_empty (dp : Z) : F bool :=
  di ← iget_d dp;
  r ← dir_scan (dir_fuel di) dp 0 busy_entry;
  mret (match r with Some None => true | _ => false end).

Definition dotdot_entry (off : Z) (e : dirent) : option (Z * dirent) :=
  if (e.(de_inum) =? 0) || negb (nameeq e.(de_name) [DOT; DOT]) then None else Some (off, e).

(** [false]: -1 *)
Definition dir_reparent (dp parent_inum : Z) : F bool :=
  di ← iget_d dp;
  r ← dir_scan (dir_fuel di) dp 0 dotdot_entry;
  match r with
  | Some (Some (off, e)) =>
      w ← xv6fs_writei dp (put_dirent (mkDe (u16 parent_inum) e.(de_name))) off;
      mret (bool_decide (w = Some DE_SIZE))
  | _ => mret false
  end.

Definition lock_rename : F unit :=
  s ← getS; kassert (negb s.(g_rename_locked)) Deadlock;; modify (fun s => with_rename s true).

Definition unlock_put (locked : bool) (o : option Z) : F unit :=
  match o with
  | None => mret ()
  | Some ip => (if locked then xv6fs_iunlock ip else mret ());; xv6fs_iput ip
  end.

(** The changes once the checks have passed; the result is the error code. *)
Definition rename_write (dp_old dp_new ip : Z) (ip_new : option Z) (new_name : list Z)
    (off_old off_new : Z) (same_dir is_dir : bool) : F Z :=
  s ← getS;
  let inum := (s.(f_inode) ip).(i_inum) in
  ok ← match ip_new with
       | Some _ =>
           w ← xv6fs_writei dp_new (put_dirent (mk_dirent new_name inum)) off_new;
           mret (if bool_decide (w = Some DE_SIZE) then 0 else -5)
       | None => ok ← xv6fs_dirlink dp_new new_name inum; mret (if ok : bool then 0 else -28)
       end;
  if negb (ok =? 0) then mret ok else
  clear_entry dp_old off_old;;
  (match ip_new with
   | Some n =>
       di ← iget_d n;
       (if di.(di_type) =? XV6FS_T_DIR then add_nlink dp_new (-1);; set_nlink n 0 else add_nlink n (-1));;
       xv6fs_iupdate n
   | None => mret ()
   end);;
  rc ← (if is_dir && negb same_dir then
          s ← getS;
          ok ← dir_reparent ip (s.(f_inode) dp_new).(i_inum);
          if ok : bool then add_nlink dp_old (-1);; add_nlink dp_new 1;; mret 0 else mret (-5)
        else mret 0);
  if negb (rc =? 0) then mret rc else
  xv6fs_iupdate ip;;
  xv6fs_iupdate dp_old;;
  (if same_dir then mret () else xv6fs_iupdate dp_new);;
  mret 0.

(** The checks: the result code, or the kind of the inode that moves. *)
Definition rename_check (ip : Z) (ip_new : option Z) : F (Z + bool) :=
  di ← iget_d ip;
  let is_dir := di.(di_type) =? XV6FS_T_DIR in
  match ip_new with
  | None => mret (inr is_dir)
  | Some n =>
      xv6fs_ilock n;;
      dn ← iget_d n;
      let new_dir := dn.(di_type) =? XV6FS_T_DIR in
      if is_dir && negb new_dir then mret (inl (-20)) else
      if negb is_dir && new_dir then mret (inl (-21)) else
      if new_dir then
        e ← dir_is_empty n;
        mret (if e : bool then inr is_dir else inl (-39))
      else mret (inr is_dir)
  end.

(** Two parents are locked in the order of their numbers, one only once. *)
Definition lock_parents (dp_old dp_new : Z) : F unit :=
  s ← getS;
  if dp_old =? dp_new then xv6fs_ilock dp_old
  else if (s.(f_inode) dp_old).(i_inum) <? (s.(f_inode) dp_new).(i_inum)
  then xv6fs_ilock dp_old;; xv6fs_ilock dp_new
  else xv6fs_ilock dp_new;; xv6fs_ilock dp_old.

(** What happens while the parents are locked: the result code, the inodes
    found and whether they are locked. *)
Definition rename_locked (dp_old dp_new : Z) (old_name new_name : list Z) :
    F (Z * (option Z * bool) * (option Z * bool)) :=
  e ← xv6fs_dirlookup dp_old old_name;
  match e with
  | None => mret (-2, (None, false), (None, false))
  | Some (ip, off_old) =>
      e ← xv6fs_dirlookup dp_new new_name;
      let ip_new := fst <$> e in
      let off_new := default 0 (snd <$> e) in
      s ← getS;
      let inum i := (s.(f_inode) i).(i_inum) in
      let same o i := match o with Some n => inum n =? inum i | None => false end in
      if same ip_new ip then mret (0, (Some ip, false), (ip_new, false)) else
      if inum ip =? inum dp_new then mret (-22, (Some ip, false), (ip_new, false)) else
      if same ip_new dp_old || same ip_new dp_new then mret (-39, (Some ip, false), (ip_new, false)) else
      xv6fs_ilock ip;;
      c ← rename_check ip ip_new;
      match c with
      | inl rc => mret (rc, (Some ip, true), (ip_new, bool_decide (is_Some ip_new)))
      | inr is_dir =>
          rc ← rename_write dp_old dp_new ip ip_new new_name off_old off_new (dp_old =? dp_new) is_dir;
          mret (rc, (Some ip, true), (ip_new, bool_decide (is_Some ip_new)))
      end
  end.

Definition xv6fs_rename_path (oldpath newpath : list Z) : F Z :=
  r ← xv6fs_nameiparent oldpath;
  match r with
  | (None, _) => mret (-2)
  | (Some dp_old, old_name) =>
      r ← xv6fs_nameiparent newpath;
      match r with
      | (None, _) => xv6fs_iput dp_old;; mret (-2)
      | (Some dp_new, new_name) =>
          lock_rename;;
          begin_op XV6LOG_OP_FULL;;
          lock_parents dp_old dp_new;;
          r ← rename_locked dp_old dp_new old_name new_name;
          let '(rc, (ip, ip_locked), (ip_new, ip_new_locked)) := r in
          unlock_put ip_new_locked ip_new;;
          unlock_put ip_locked ip;;
          xv6fs_iunlock dp_old;;
          (if dp_old =? dp_new then mret () else xv6fs_iunlock dp_new);;
          end_op XV6LOG_OP_FULL;;
          modify (fun s => with_rename s false);;
          xv6fs_iput dp_old;;
          xv6fs_iput dp_new;;
          mret rc
      end
  end.

(** ** Counting what is free *)

(** Bitmap blocks from [b] on; [n] is their number. *)
Fixpoint count_free_blocks (n : nat) (b : Z) (size : Z) : F Z :=
  match n with
  | O => mret 0
  | S n =>
      if b <? size then
        s ← getS;
        d ← bread (XV6FS_BBLOCK b s.(f_sb));
        let here := zlen (filter (fun bi => bm_test d bi = false) (seqZ 0 (Z.min XV6FS_BPB (size - b)))) in
        rest ← count_free_blocks n (b + XV6FS_BPB) size;
        mret (here + rest)
      else mret 0
  end.

(** Blocks of the inode table; [upto] is the first inode past the block. *)
Fixpoint count_free_inodes (n : nat) (i ninodes : Z) : F Z :=
  match n with
  | O => mret 0
  | S n =>
      if i <? ninodes then
        s ← getS;
        d ← bread (XV6FS_IBLOCK i s.(f_sb));
        let upto := Z.min (i + XV6FS_IPB - i mod XV6FS_IPB) ninodes in
        let here := zlen (filter (fun j => (get_dinode d (64 * (j mod XV6FS_IPB))).(di_type) = 0) (seqZ i (upto - i))) in
        rest ← count_free_inodes n upto ninodes;
        mret (here + rest)
      else mret 0
  end.

(** [struct xv6fs_statfs] *)
Record statfs := mkStatfs {
  sf_bsize : Z; sf_blocks : Z; sf_bfree : Z; sf_files : Z; sf_ffree : Z; sf_namelen : Z }.

Definition xv6fs_statfs : F (option statfs) :=
  s ← getS;
  if negb (xv6fs_is_mounted s) then mret None else
  let sb := s.(f_sb) in
  bf ← count_free_blocks (S (Z.to_nat (sb.(sb_size) / XV6FS_BPB))) 0 sb.(sb_size);
  nf ← count_free_inodes (S (Z.to_nat (sb.(sb_ninodes) / XV6FS_IPB))) 1 sb.(sb_ninodes);
  mret (Some (mkStatfs BSIZE sb.(sb_size) bf sb.(sb_ninodes) nf XV6FS_DIRSIZ)).

Definition xv6fs_sync : F Z := onlog xv6log_flush;; mret 0.
