(* ===== verification/FsState.v ===== *)
(** * The file system's state as its code sees it

    What the file system relies on is the contents of the blocks ([fv]) and
    the table of inodes.  [moves s V I s'] says that from [s] to [s'] the
    blocks came to hold [V] and the inodes [I], and that neither the
    superblock nor the journal's reservations changed; the rules for the
    primitives of Xv6fs.v are stated with it.  The block allocator is verified
    here: it finds a free block if there is one. *)
From S2P Require Import Prelude State Bytes Log Xv6fs.

Definition fv (s : fsst) : Z -> block := view s.(f_log).
Definition ops (s : fsst) : Z * Z * bool :=
  (s.(f_log).(l_outstanding), s.(f_log).(l_reserved), s.(f_log).(l_committing)).
(** A transaction is open. *)
Definition in_op (s : fsst) : Prop := 1 <= s.(f_log).(l_outstanding).

Record moves (s : fsst) (V : Z -> block) (I : Z -> inode) (s' : fsst) : Prop := mkMoves {
  mv_view : forall b, fv s' b = V b;
  mv_inode : forall i, s'.(f_inode) i = I i;
  mv_sb : s'.(f_sb) = s.(f_sb);
  mv_ops : ops s' = ops s;
  mv_hint : 0 <= s.(g_balloc_hint) -> 0 <= s'.(g_balloc_hint);
  mv_dev : s'.(g_devname) = s.(g_devname);
  mv_rename : s'.(g_rename_locked) = s.(g_rename_locked) }.

Lemma moves_refl s : moves s (fv s) s.(f_inode) s.
Proof. done. Qed.

Lemma moves_trans s V I s1 V' I' s' : moves s V I s1 -> moves s1 V' I' s' -> moves s V' I' s'.
Proof. intros [] []. split; congruence || auto. Qed.

Lemma moves_eq s V I s' V' I' :
  moves s V I s' -> (forall b, V b = V' b) -> (forall i, I i = I' i) -> moves s V' I' s'.
Proof. intros [] HV HI. split; try done; congruence. Qed.

Lemma moves_in_op s V I s' : moves s V I s' -> in_op s -> in_op s'.
Proof. intros Hm. pose proof (mv_ops _ _ _ _ Hm) as [= Ho _ _]. unfold in_op. by rewrite Ho. Qed.

(** ** Rules for the primitives *)

Section rules.
Context (E : panic -> Prop) (s0 : fsst) (V : Z -> block) (I : Z -> inode) (s : fsst) (Hm : moves s0 V I s).

Lemma wp_fs_bread b (Q : block -> fsst -> Prop) :
  (forall s', moves s0 V I s' -> Q (V b) s') -> wp E (bread b) Q s.
Proof using Hm.
  intros HQ. unfold bread, onlog. wp_step. apply wp_bread.
  destruct Hm as [Hv ??????]. pose proof (Hv b) as Hb. unfold fv in Hb. rewrite Hb. apply HQ.
  split; try done. intros x. unfold fv, view at 1. simpl.
  destruct (decide (x = b)) as [->|Hne]; [by rewrite lookup_insert_eq|].
  rewrite lookup_insert_ne by done. apply Hv.
Qed.

Lemma wp_fs_bput b d (Q : unit -> fsst -> Prop) :
  (forall s', moves s0 (fset V b d) I s' -> Q tt s') -> wp E (bput b d) Q s.
Proof using Hm.
  intros HQ. unfold bput, onlog, bstore. wp_steps. apply HQ.
  destruct Hm as [Hv ??????]. split; try done. intros x. rewrite fset_spec, <- Hv. unfold fv, view. simpl.
  case_decide as Hx; [subst; by rewrite lookup_insert_eq|by rewrite lookup_insert_ne].
Qed.

Lemma wp_fs_log_write b (Q : unit -> fsst -> Prop) :
  in_op s0 -> E LogOverflow -> (forall s', moves s0 V I s' -> Q tt s') -> wp E (log_write b) Q s.
Proof using Hm.
  intros Ho HE HQ. pose proof (moves_in_op _ _ _ _ Hm Ho) as Ho'. unfold in_op in Ho'.
  unfold log_write, onlog, xv6log_write. wp_steps; [|by intros ?%Z.leb_gt; lia].
  destruct (bool_decide _); unfold xv6bpin; wp_steps; apply HQ; by destruct Hm; split.
Qed.

Lemma wp_fs_upd_inode ip f (Q : unit -> fsst -> Prop) :
  (forall s', moves s0 V (fset I ip (f (I ip))) s' -> Q tt s') -> wp E (upd_inode ip f) Q s.
Proof using Hm.
  intros HQ. unfold upd_inode. wp_steps. apply HQ. destruct Hm as [? Hi ?????]. split; try done.
  intros i. simpl. rewrite !fset_spec. by rewrite !Hi.
Qed.

Lemma wp_fs_iget_d ip (Q : dinode -> fsst -> Prop) : Q (I ip).(i_d) s -> wp E (iget_d ip) Q s.
Proof using Hm. intros HQ. unfold iget_d. wp_steps. by rewrite (mv_inode _ _ _ _ Hm). Qed.

Lemma wp_fs_hint h (Q : unit -> fsst -> Prop) :
  0 <= h -> (forall s', moves s0 V I s' -> Q tt s') -> wp E (modify (fun s => with_hint s h)) Q s.
Proof using Hm. intros Hh HQ. wp_steps. apply HQ. by destruct Hm; split. Qed.

Lemma wp_fs_now (Q : Z -> fsst -> Prop) :
  (forall t s', 0 <= t < 2 ^ 32 -> moves s0 V I s' -> Q t s') -> wp E xv6fs_now_sec Q s.
Proof using Hm. intros HQ. unfold xv6fs_now_sec. wp_steps. apply HQ; [apply u32_range|]. by destruct Hm; split. Qed.
End rules.

(** A block is read, changed and logged. *)
Lemma wp_fs_logged E s0 V I s b d (Q : unit -> fsst -> Prop) :
  moves s0 V I s -> in_op s0 -> E LogOverflow ->
  (forall s', moves s0 (fset V b d) I s' -> Q tt s') -> wp E (bput b d;; log_write b) Q s.
Proof.
  intros Hm Ho HE HQ. wp_step. eapply wp_fs_bput; [done|]. intros s1 Hm1. by eapply wp_fs_log_write.
Qed.

(** One step over a state known by [moves]; the hypothesis on the new state
    takes the place of the one on the old. *)
Ltac fs_next H := let s := fresh "s" in let H' := fresh "Hm" in intros s H'; clear H; rename H' into H.
Ltac fs_step H :=
  lazymatch goal with
  | |- wp _ (bread _) _ _ => eapply wp_fs_bread; [exact H|fs_next H]
  | |- wp _ (bput _ _) _ _ => eapply wp_fs_bput; [exact H|fs_next H]
  | |- wp _ (log_write _) _ _ => eapply wp_fs_log_write; [exact H|by auto|by auto|fs_next H]
  | |- wp _ (upd_inode _ _) _ _ => eapply wp_fs_upd_inode; [exact H|fs_next H]
  | |- wp _ (iget_d _) _ _ => eapply wp_fs_iget_d; [exact H|]
  | |- wp _ (modify (fun s => with_hint s _)) _ _ => eapply wp_fs_hint; [exact H|try lia|fs_next H]
  | _ => wp_step
  end; cbv beta iota.
Ltac fs_steps H := repeat fs_step H.

(** ** The layout of the disk *)

Definition blk_ok (d : block) : Prop := zlen d = BSIZE /\ Forall byte_ok d.
Definition zeros : block := replicate (Z.to_nat BSIZE) 0.

(** The first block after the bitmap. *)
Definition dstart (sb : superblock) : Z := sb.(sb_bmapstart) + sb.(sb_size) / XV6FS_BPB + 1.

(** Boot block, superblock, log, inodes, bitmap, data; the file system is small
    enough for the 32-bit loops over its bitmap. *)
Record layout (sb : superblock) : Prop := mkLayout {
  ly_size : 0 < sb.(sb_size) <= 2 ^ 32 - XV6FS_BPB;
  ly_inodestart : 2 <= sb.(sb_inodestart);
  ly_ninodes : 1 < sb.(sb_ninodes) <= 2 ^ 16;
  ly_inodes : sb.(sb_inodestart) + sb.(sb_ninodes) / XV6FS_IPB < sb.(sb_bmapstart);
  ly_data : dstart sb < sb.(sb_size) }.

(** Block [b] is in use according to the bitmap. *)
Definition bit (sb : superblock) (V : Z -> block) (b : Z) : bool :=
  bm_test (V (XV6FS_BBLOCK b sb)) (b mod XV6FS_BPB).

Definition set_bit (sb : superblock) (V : Z -> block) (b : Z) : Z -> block :=
  fset V (XV6FS_BBLOCK b sb) (bm_set (V (XV6FS_BBLOCK b sb)) (b mod XV6FS_BPB)).
Definition clear_bit (sb : superblock) (V : Z -> block) (b : Z) : Z -> block :=
  fset V (XV6FS_BBLOCK b sb) (bm_clear (V (XV6FS_BBLOCK b sb)) (b mod XV6FS_BPB)).
(** Block [r] becomes used and zeroed. *)
Definition take_block (sb : superblock) (V : Z -> block) (r : Z) : Z -> block := fset (set_bit sb V r) r zeros.

Definition blocks_ok (V : Z -> block) : Prop := forall b, blk_ok (V b).

Lemma zeros_ok : blk_ok zeros.
Proof.
  split; [done|]. apply Forall_replicate. unfold byte_ok. lia.
Qed.

Lemma fset_blocks_ok V b d : blocks_ok V -> blk_ok d -> blocks_ok (fset V b d).
Proof. intros HV Hd x. rewrite fset_spec. case_decide; auto. Qed.

Lemma BPB_val : XV6FS_BPB = 8192.
Proof. done. Qed.

Section layout.
Context (sb : superblock) (Hl : layout sb).

Lemma layout_order :
  2 <= sb.(sb_inodestart) < sb.(sb_bmapstart) /\ sb.(sb_bmapstart) < dstart sb < sb.(sb_size) /\ sb.(sb_size) < 2 ^ 32.
Proof using Hl.
  destruct Hl as [Hs Hi Hn Hj Hd]. rewrite BPB_val in *. unfold dstart in *. rewrite BPB_val in *.
  change XV6FS_IPB with 16 in *.
  pose proof (Z.div_pos (sb_size sb) 8192). pose proof (Z.div_pos (sb_ninodes sb) 16). lia.
Qed.

Lemma bblock_val b : 0 <= b < sb.(sb_size) -> XV6FS_BBLOCK b sb = sb.(sb_bmapstart) + b / XV6FS_BPB.
Proof using Hl.
  intros Hb. pose proof layout_order. unfold XV6FS_BBLOCK, dstart in *. rewrite BPB_val in *.
  pose proof (Z.div_le_mono b (sb_size sb) 8192). pose proof (Z.div_pos b 8192). rewrite u32_small; lia.
Qed.

Lemma bblock_meta b : 0 <= b < sb.(sb_size) -> sb.(sb_bmapstart) <= XV6FS_BBLOCK b sb < dstart sb.
Proof using Hl.
  intros Hb. rewrite bblock_val by done. unfold dstart. rewrite BPB_val.
  pose proof (Z.div_le_mono b (sb_size sb) 8192). pose proof (Z.div_pos b 8192). lia.
Qed.

Lemma iblock_val i : 0 <= i < sb.(sb_ninodes) -> XV6FS_IBLOCK i sb = sb.(sb_inodestart) + i / XV6FS_IPB.
Proof using Hl.
  intros Hb. pose proof layout_order. pose proof (ly_inodes _ Hl). unfold XV6FS_IBLOCK. change XV6FS_IPB with 16 in *.
  pose proof (Z.div_le_mono i (sb_ninodes sb) 16). pose proof (Z.div_pos i 16). rewrite u32_small; lia.
Qed.

Lemma iblock_meta i : 0 <= i < sb.(sb_ninodes) -> 2 <= XV6FS_IBLOCK i sb < sb.(sb_bmapstart).
Proof using Hl.
  intros Hb. rewrite iblock_val by done. pose proof layout_order. pose proof (ly_inodes _ Hl).
  change XV6FS_IPB with 16 in *.
  pose proof (Z.div_le_mono i (sb_ninodes sb) 16). pose proof (Z.div_pos i 16). lia.
Qed.

Lemma mod_BPB b : 0 <= b mod XV6FS_BPB < XV6FS_BPB.
Proof using. apply Z.mod_pos_bound. done. Qed.

Lemma bits_in (d : block) b : blk_ok d -> 0 <= b mod XV6FS_BPB < 8 * zlen d.
Proof using. intros [-> _]. apply mod_BPB. Qed.

Lemma same_bit b x : 0 <= b < sb.(sb_size) -> 0 <= x < sb.(sb_size) ->
  XV6FS_BBLOCK b sb = XV6FS_BBLOCK x sb -> b mod XV6FS_BPB = x mod XV6FS_BPB -> b = x.
Proof using Hl.
  intros Hb Hx. rewrite !bblock_val by done. intros. rewrite (Z.div_mod b XV6FS_BPB), (Z.div_mod x XV6FS_BPB) by done.
  f_equal; [f_equal; lia|done].
Qed.

Lemma bit_set_bit V r b : blocks_ok V -> 0 <= r < sb.(sb_size) -> 0 <= b < sb.(sb_size) ->
  bit sb (set_bit sb V r) b = (b =? r) || bit sb V b.
Proof using Hl.
  intros HV Hr Hb. unfold bit, set_bit. rewrite fset_spec. pose proof (mod_BPB b). case_decide as He.
  - rewrite He, bm_test_set by (try apply bits_in; auto; lia). f_equal.
    destruct (Z.eqb_spec b r) as [->|Hne]; [apply Z.eqb_refl|]. apply Z.eqb_neq. intros ?. by apply Hne, same_bit.
  - destruct (Z.eqb_spec b r); [congruence|done].
Qed.

Lemma bit_clear_bit V r b : blocks_ok V -> 0 <= r < sb.(sb_size) -> 0 <= b < sb.(sb_size) ->
  bit sb (clear_bit sb V r) b = negb (b =? r) && bit sb V b.
Proof using Hl.
  intros HV Hr Hb. unfold bit, clear_bit. rewrite fset_spec. pose proof (mod_BPB b). case_decide as He.
  - rewrite He, bm_test_clear by (try apply bits_in; auto; lia). f_equal. f_equal.
    destruct (Z.eqb_spec b r) as [->|Hne]; [apply Z.eqb_refl|]. apply Z.eqb_neq. intros ?. by apply Hne, same_bit.
  - destruct (Z.eqb_spec b r); [congruence|done].
Qed.

(** Only the bitmap matters. *)
Lemma bit_ext V V' b : 0 <= b < sb.(sb_size) ->
  (forall x, sb.(sb_bmapstart) <= x < dstart sb -> V' x = V x) -> bit sb V' b = bit sb V b.
Proof using Hl. intros Hb HV. unfold bit. by rewrite HV by by apply bblock_meta. Qed.

Lemma bit_take_block V r b : blocks_ok V -> dstart sb <= r < sb.(sb_size) -> 0 <= b < sb.(sb_size) ->
  bit sb (take_block sb V r) b = (b =? r) || bit sb V b.
Proof using Hl.
  intros HV Hr Hb. pose proof (bblock_meta b Hb).
  pose proof layout_order.
  rewrite <- bit_set_bit by (done || lia). apply bit_ext; [done|]. intros x Hx. apply fset_ne. lia.
Qed.

Lemma set_bit_ok V r : blocks_ok V -> blocks_ok (set_bit sb V r).
Proof using.
  intros HV. apply fset_blocks_ok; [done|]. split; [rewrite zlen_bm_set; apply HV|].
  apply bm_set_bytes; [by apply bits_in|apply HV].
Qed.
Lemma clear_bit_ok V r : blocks_ok V -> blocks_ok (clear_bit sb V r).
Proof using.
  intros HV. apply fset_blocks_ok; [done|]. split; [rewrite zlen_bm_clear; apply HV|].
  apply bm_clear_bytes; [by apply bits_in|apply HV].
Qed.
Lemma take_block_ok V r : blocks_ok V -> blocks_ok (take_block sb V r).
Proof using. intros HV. apply fset_blocks_ok; [by apply set_bit_ok|apply zeros_ok]. Qed.
End layout.

(** ** The block allocator *)

Lemma find_clear_some n d b bi size x :
  find_clear n d b bi size = Some x -> bi <= x < bi + Z.of_nat n /\ b + x < size /\ bm_test d x = false.
Proof.
  revert bi. induction n as [|n IH]; intros bi; simpl; [done|].
  destruct (Z.ltb_spec (b + bi) size); [|done]. destruct (bm_test d bi) eqn:Ht.
  - intros (?&?&?)%IH. split; [lia|done].
  - intros [= <-]. split; [lia|done].
Qed.

Lemma find_clear_none n d b bi size x :
  find_clear n d b bi size = None -> bi <= x < bi + Z.of_nat n -> b + x < size -> bm_test d x = true.
Proof.
  revert bi. induction n as [|n IH]; intros bi; simpl; [lia|].
  destruct (Z.ltb_spec (b + bi) size); [|lia]. destruct (bm_test d bi) eqn:Ht; [|done].
  intros Hf Hx Hs. destruct (decide (x = bi)) as [->|]; [done|]. apply (IH (bi + 1)); done || lia.
Qed.

Section balloc.
Context (E : panic -> Prop) (HE : E LogOverflow) (s0 : fsst) (Ho : in_op s0).
Context (sb : superblock) (Hsb : s0.(f_sb) = sb) (Hl : layout sb).
Context (V : Z -> block) (I : Z -> inode) (HV : blocks_ok V).

Lemma wp_bzero s b (Q : unit -> fsst -> Prop) V' :
  moves s0 V' I s -> (forall s', moves s0 (fset V' b zeros) I s' -> Q tt s') -> wp E (xv6bzero b) Q s.
Proof using HE Ho. intros Hm HQ. unfold xv6bzero. wp_step. fs_step Hm. by eapply wp_fs_logged. Qed.

Lemma in_bitmap_block b x : 0 <= b -> b mod XV6FS_BPB = 0 -> 0 <= x < XV6FS_BPB -> b + x < sb.(sb_size) ->
  XV6FS_BBLOCK b sb = XV6FS_BBLOCK (b + x) sb /\ (b + x) mod XV6FS_BPB = x.
Proof using Hl.
  intros Hb Hz Hx Hs. rewrite !(bblock_val sb Hl) by lia. rewrite (Z.div_mod b XV6FS_BPB) by done. rewrite Hz, Z.add_0_r.
  rewrite (Z.mul_comm XV6FS_BPB), Z.div_add_l, Z.div_mul, (Z.div_small x) by done. split; [lia|].
  rewrite Z.add_comm, Z.mod_add by done. by apply Z.mod_small.
Qed.

(** What a pass over the bitmap blocks from [b] to [to] gives. *)
Definition pass_post (b to : Z) (r : option Z) (s' : fsst) : Prop :=
  match r with
  | Some x => b <= x < sb.(sb_size) /\ bit sb V x = false /\ moves s0 (take_block sb V x) I s'
  | None => (forall x, b <= x < sb.(sb_size) -> x / XV6FS_BPB * XV6FS_BPB < to -> bit sb V x = true) /\ moves s0 V I s'
  end.

Lemma balloc_pass_ok n b to s :
  0 <= b -> b mod XV6FS_BPB = 0 -> to <= sb.(sb_size) -> to <= b + Z.of_nat n * XV6FS_BPB ->
  moves s0 V I s -> wp E (balloc_pass n b to) (pass_post b to) s.
Proof using HE Ho Hsb Hl HV.
  revert b s. induction n as [|n IH]; intros b s Hb Hz Hto Hn Hm; cbn [balloc_pass].
  { apply wp_ret. split; [|done]. intros x Hx Hlt.
    pose proof (Z.div_le_mono b x XV6FS_BPB). pose proof (Z.div_mod b XV6FS_BPB). rewrite BPB_val in *. lia. }
  apply wp_if; [intros Hlt%Z.ltb_lt|intros Hge%Z.ltb_ge; apply wp_ret; split; [|done]].
  2:{ intros x Hx Hx2. pose proof (Z.div_le_mono b x XV6FS_BPB). pose proof (Z.div_mod b XV6FS_BPB).
      rewrite BPB_val in *. lia. }
  wp_step. wp_step. rewrite (mv_sb _ _ _ _ Hm), Hsb. wp_step. fs_step Hm.
  destruct (find_clear _ _ _ _ _) as [bi|] eqn:Hf.
  - apply find_clear_some in Hf as (Hbi&Hs&Ht). rewrite Z.add_0_l, Z2Nat.id in Hbi by done.
    destruct (in_bitmap_block b bi) as [Hbb Hmod]; [done..|].
    wp_step. fs_step Hm. wp_step. fs_step Hm. wp_step. eapply wp_bzero; [exact Hm|]. clear s1 Hm. intros s1 Hm.
    wp_step. fs_step Hm. apply wp_ret. split; [lia|]. unfold bit. rewrite Hmod, <- Hbb. split; [done|].
    eapply moves_eq; [exact Hm| |done]. intros x. unfold take_block, set_bit. by rewrite Hmod, <- Hbb.
  - eapply wp_mono; [apply IH; [rewrite BPB_val in *; lia| |done|lia|exact Hm]|].
    { rewrite <- Z.add_mod_idemp_r, Z.mod_same, Z.add_0_r by done. done. }
    intros [r|] s' Hr; [destruct Hr as (?&?&?); split; [rewrite BPB_val in *; lia|done]|]. destruct Hr as [Hr Hm'].
    split; [|done]. intros x Hx Hxt. destruct (decide (x < b + XV6FS_BPB)); [|apply Hr; [lia|done]].
    destruct (in_bitmap_block b (x - b)) as [Hbb Hmod]; [done|done|lia|lia|].
    replace (b + (x - b)) with x in * by lia. unfold bit. rewrite Hmod, <- Hbb.
    eapply find_clear_none; [exact Hf| |lia]. rewrite Z2Nat.id by done. lia.
Qed.

(** A block that was free, now used and zeroed; 0 if there is none. *)
Definition balloc_post (r : Z) (s' : fsst) : Prop :=
  (r = 0 /\ (forall x, 0 <= x < sb.(sb_size) -> bit sb V x = true) /\ moves s0 V I s') \/
  (0 < r < sb.(sb_size) /\ bit sb V r = false /\ moves s0 (take_block sb V r) I s').

Lemma balloc_ok s : 0 <= s0.(g_balloc_hint) -> bit sb V 0 = true -> moves s0 V I s -> wp E balloc balloc_post s.
Proof using HE Ho Hsb Hl HV.
  intros Hh H0 Hm. pose proof (layout_order sb Hl) as Hlo. pose proof (mv_hint _ _ _ _ Hm Hh) as Hh'.
  pose proof (ly_size _ Hl) as Hsz. rewrite BPB_val in Hsz.
  unfold balloc. wp_step. wp_step. rewrite (mv_sb _ _ _ _ Hm), Hsb. set (size := sb_size sb) in *.
  set (st := if size <=? _ then _ else _).
  assert (Hst : 0 <= st < size /\ st mod XV6FS_BPB = 0).
  { unfold st. pose proof (Z.div_pos (g_balloc_hint s) 8192).
    destruct (Z.leb_spec size (g_balloc_hint s / XV6FS_BPB * XV6FS_BPB)); [split; [lia|done]|].
    rewrite Z.mod_mul by done. rewrite BPB_val in *. lia. }
  destruct Hst as [Hst Hz]. set (n := S (Z.to_nat (size / XV6FS_BPB))).
  assert (Hn : size <= Z.of_nat n * XV6FS_BPB).
  { unfold n. pose proof (Z.div_mod size 8192). pose proof (Z.mod_pos_bound size 8192). pose proof (Z.div_pos size 8192).
    rewrite BPB_val. lia. }
  wp_step. eapply wp_mono; [apply balloc_pass_ok; [lia|done| | |exact Hm]; lia|]. clear Hm.
  intros [r|] s1 Hr.
  { destruct Hr as (Hr&Hbit&Hm). apply wp_ret. right. split; [|done]. destruct (decide (r = 0)); [congruence|lia]. }
  destruct Hr as [Hr Hm]. wp_step. rewrite u32_small by (rewrite BPB_val; lia).
  set (to := if _ <? _ then _ else _).
  assert (Hto : to <= size /\ (to = size \/ to = st + XV6FS_BPB)) by (unfold to; destruct (Z.ltb_spec size (st + XV6FS_BPB)); lia).
  eapply wp_mono; [apply balloc_pass_ok; [lia|done|lia|lia|exact Hm]|]. clear Hm.
  intros [r|] s2 Hr2; apply wp_ret; simpl.
  - destruct Hr2 as (Hb&Hbit&Hm). right. split; [|done]. destruct (decide (r = 0)); [congruence|lia].
  - destruct Hr2 as [Hr2 Hm]. left. split; [done|]. split; [|done]. intros x Hx.
    pose proof (Z.div_mod x XV6FS_BPB). pose proof (Z.div_mod st XV6FS_BPB).
    destruct (decide (st <= x)); [apply Hr; [lia|]|apply Hr2; [lia|]].
    + pose proof (Z.mod_pos_bound x XV6FS_BPB). rewrite BPB_val in *. lia.
    + pose proof (Z.mod_pos_bound x XV6FS_BPB). rewrite BPB_val in *. lia.
Qed.

Lemma bfree_ok s b (Q : unit -> fsst -> Prop) :
  0 <= b < sb.(sb_size) -> bit sb V b = true -> moves s0 V I s ->
  (forall s', moves s0 (clear_bit sb V b) I s' -> Q tt s') -> wp E (bfree b) Q s.
Proof using HE Ho Hsb.
  intros Hb Hbit Hm HQ. unfold bfree. wp_step. wp_step. rewrite (mv_sb _ _ _ _ Hm), Hsb. wp_step. fs_step Hm.
  wp_step. wp_step. wp_step. wp_step; [|by unfold bit in Hbit; rewrite Hbit].
  eapply wp_fs_logged; [|done|done|exact HQ]. destruct Hm; split; try done. simpl. destruct (_ <? _); lia.
Qed.
End balloc.
