(* ===== verification/FsTree.v ===== *)
(** * The blocks of the files

    The twelve block numbers of an inode are the roots of trees: nine of them
    are data blocks, the others tables of 256 block numbers, one, two and
    three levels deep.  A position names a node: inode number, root, and the
    indices on the way down; [node] is the block there, 0 for none.  The file
    system is well formed ([wf]) if the nodes are distinct blocks of the data
    area and the bitmap marks exactly them and the metadata as used.  The
    lemmas say what linking, unlinking and writing one node do. *)
From S2P Require Import Prelude State Bytes Log Xv6fs FsState.

(** ** Walking down *)

Definition tbl (V : Z -> block) (a i : Z) : Z := get32 (V a) (4 * i).

Fixpoint walk (V : Z -> block) (a : Z) (p : list Z) : Z :=
  match p with
  | [] => a
  | i :: p => if a =? 0 then 0 else walk V (tbl V a i) p
  end.

Lemma walk_zero V p : walk V 0 p = 0.
Proof. by destruct p. Qed.

Lemma walk_app V a p q : walk V a (p ++ q) = walk V (walk V a p) q.
Proof.
  revert a. induction p as [|i p IH]; intros a; simpl; [done|].
  destruct (a =? 0); [by rewrite walk_zero|apply IH].
Qed.

Lemma walk_snoc V a p j : walk V a (p ++ [j]) = if walk V a p =? 0 then 0 else tbl V (walk V a p) j.
Proof. by rewrite walk_app. Qed.

Definition idx_ok (i : Z) : Prop := 0 <= i < XV6FS_NINDIRECT.
(** Levels of tables under root [k]. *)
Definition depth (k : Z) : nat := if k <? XV6FS_NDIRECT then 0 else Z.to_nat (k - (XV6FS_NDIRECT - 1)).

Record pos := mkPos { p_ino : Z; p_root : Z; p_path : list Z }.
#[export] Instance pos_eq_dec : EqDecision pos.
Proof. solve_decision. Defined.

Section tree.
Context (sb : superblock).

Record valid (P : pos) : Prop := mkValid {
  va_ino : 0 <= P.(p_ino) < sb.(sb_ninodes);
  va_root : 0 <= P.(p_root) < XV6FS_NDIRECT + 3;
  va_len : (length P.(p_path) <= depth P.(p_root))%nat;
  va_idx : Forall idx_ok P.(p_path) }.
Definition leaf (P : pos) : Prop := length P.(p_path) = depth P.(p_root).

Definition node (V : Z -> block) (AF : Z -> list Z) (P : pos) : Z :=
  walk V (zget (AF P.(p_ino)) P.(p_root)) P.(p_path).

Record wf (V : Z -> block) (AF : Z -> list Z) : Prop := mkWf {
  wf_layout : layout sb;
  wf_blocks : blocks_ok V;
  wf_meta : forall b, 0 <= b < dstart sb -> bit sb V b = true;
  wf_addrs : forall i, zlen (AF i) = XV6FS_NDIRECT + 3;
  wf_node : forall P, valid P -> node V AF P <> 0 ->
    dstart sb <= node V AF P < sb.(sb_size) /\ bit sb V (node V AF P) = true;
  wf_inj : forall P P', valid P -> valid P' -> node V AF P = node V AF P' -> node V AF P <> 0 -> P = P';
  wf_used : forall b, dstart sb <= b < sb.(sb_size) -> bit sb V b = true -> exists P, valid P /\ node V AF P = b }.

(** Going to a parent. *)
Lemma valid_parent i k p j : valid (mkPos i k (p ++ [j])) -> valid (mkPos i k p) /\ idx_ok j /\ (length p < depth k)%nat.
Proof.
  intros [Hi Hk Hl Hf]. simpl in *. rewrite length_app in Hl. simpl in Hl. apply Forall_app in Hf as [Hf Hj].
  apply Forall_cons_1 in Hj as [Hj _]. split; [split; simpl; done || lia|]. split; [done|lia].
Qed.

Lemma node_snoc V AF i k p j :
  node V AF (mkPos i k (p ++ [j])) =
  if node V AF (mkPos i k p) =? 0 then 0 else tbl V (node V AF (mkPos i k p)) j.
Proof. apply walk_snoc. Qed.

Section update.
Context (V : Z -> block) (AF : Z -> list Z) (Hwf : wf V AF).

Definition is_node (x : Z) : Prop := x <> 0 /\ exists P, valid P /\ node V AF P = x.

Lemma node_bound P : valid P -> node V AF P <> 0 -> dstart sb <= node V AF P < sb.(sb_size).
Proof using Hwf. intros HP Hn. by apply (wf_node _ _ Hwf P HP). Qed.

Lemma free_not_node r : bit sb V r = false -> ~ is_node r.
Proof using Hwf. intros Hr [Hn (P&HP&<-)]. by rewrite (proj2 (wf_node _ _ Hwf P HP Hn)) in Hr. Qed.

Lemma meta_not_node x : x < dstart sb -> ~ is_node x.
Proof using Hwf. intros Hx [Hn (P&HP&<-)]. pose proof (node_bound P HP Hn). lia. Qed.

(** Blocks that are no nodes do not matter. *)
Lemma node_ext V' P : (forall x, is_node x -> V' x = V x) -> valid P -> node V' AF P = node V AF P.
Proof using.
  intros HV. destruct P as [i k q]. induction q as [|j q IH] using rev_ind; intros HP; [done|].
  destruct (valid_parent _ _ _ _ HP) as (HP'&_&_). rewrite !node_snoc, IH by done.
  destruct (Z.eqb_spec (node V AF (mkPos i k q)) 0) as [|Hne]; [done|]. unfold tbl. rewrite HV; [done|].
  split; [done|]. by exists (mkPos i k q).
Qed.

(** A root pointer changes to [v], below which there is nothing, as before. *)
Lemma node_set_root V' i k v P :
  (forall x, is_node x -> V' x = V x) ->
  (v <> 0 -> forall j, idx_ok j -> tbl V' v j = 0) ->
  (forall j, valid (mkPos i k [j]) -> node V AF (mkPos i k [j]) = 0) ->
  0 <= k < XV6FS_NDIRECT + 3 -> valid P ->
  node V' (fset AF i (zset (AF i) k v)) P = if decide (P = mkPos i k []) then v else node V AF P.
Proof using Hwf.
  intros HV Hv Hold Hk. set (AF' := fset _ _ _). destruct P as [i' k' q].
  induction q as [|j q IH] using rev_ind; intros HP.
  - unfold node, AF'. simpl. rewrite fset_spec. destruct (decide (i' = i)) as [->|Hne].
    + pose proof (va_root _ HP) as Hk'. simpl in Hk'. rewrite zget_zset by (rewrite ?(wf_addrs _ _ Hwf); lia).
      destruct (decide (k = k')) as [->|]; [by rewrite decide_True|]. rewrite decide_False; [done|congruence].
    + rewrite decide_False; [done|congruence].
  - destruct (valid_parent _ _ _ _ HP) as (HP'&Hj&_). rewrite !node_snoc, IH by done.
    rewrite (decide_False (P := mkPos i' k' (q ++ [j]) = _)) by (intros [= _ _ Hq]; by apply app_nil in Hq as []).
    destruct (decide (mkPos i' k' q = mkPos i k [])) as [Heq|Hne].
    + injection Heq as -> -> ->. pose proof (Hold j HP) as Ho. change [j] with ([] ++ [j]) in Ho.
      rewrite node_snoc in Ho. rewrite Ho.
      destruct (Z.eqb_spec v 0); [done|auto].
    + destruct (Z.eqb_spec (node V AF (mkPos i' k' q)) 0) as [|Hn]; [done|]. unfold tbl. rewrite HV; [done|].
      split; [done|]. by exists (mkPos i' k' q).
Qed.

Lemma tbl_put32 d j j' v :
  blk_ok d -> idx_ok j -> idx_ok j' -> 0 <= v < 2 ^ 32 ->
  get32 (put32 d (4 * j) v) (4 * j') = if decide (j = j') then v else get32 d (4 * j').
Proof using.
  intros [Hd _] Hj Hj' Hv. unfold idx_ok in *. change XV6FS_NINDIRECT with 256 in *. change BSIZE with 1024 in Hd.
  unfold get32, put32. case_decide as Heq.
  - subst j'. apply getn_putn_same; change (Z.of_nat 4) with 4; [lia|lia|done].
  - apply getn_putn_other; change (Z.of_nat 4) with 4; lia.
Qed.

(** An entry of table [t] changes to [v]. *)
Lemma node_set_entry V' i k p j v P :
  let t := node V AF (mkPos i k p) in
  valid (mkPos i k (p ++ [j])) -> t <> 0 -> 0 <= v < 2 ^ 32 ->
  V' t = put32 (V t) (4 * j) v ->
  (forall x, is_node x -> x <> t -> V' x = V x) ->
  (v <> 0 -> forall j', idx_ok j' -> tbl V' v j' = 0) ->
  (forall j', valid (mkPos i k (p ++ [j] ++ [j'])) -> node V AF (mkPos i k (p ++ [j] ++ [j'])) = 0) ->
  valid P ->
  node V' AF P = if decide (P = mkPos i k (p ++ [j])) then v else node V AF P.
Proof using Hwf.
  intros t Hpj Ht Hv HVt HV Hnew Hold. destruct (valid_parent _ _ _ _ Hpj) as (Hp&Hj&_).
  destruct P as [i' k' q]. induction q as [|j' q IH] using rev_ind; intros HP.
  { rewrite decide_False; [done|]. intros [= _ _ Hq]. symmetry in Hq. by apply app_nil in Hq as []. }
  destruct (valid_parent _ _ _ _ HP) as (HP'&Hj'&_). rewrite !node_snoc, IH by done.
  destruct (decide (mkPos i' k' q = mkPos i k (p ++ [j]))) as [Heq|Hne].
  - injection Heq as -> -> ->. rewrite decide_False.
    2:{ intros [= He]. apply (f_equal length) in He. rewrite !length_app in He. simpl in He. lia. }
    pose proof (Hold j') as Ho. rewrite app_assoc, node_snoc in Ho. rewrite Ho by done.
    destruct (Z.eqb_spec v 0); [done|auto].
  - destruct (Z.eqb_spec (node V AF (mkPos i' k' q)) 0) as [Hz|Hn].
    { rewrite decide_False; [done|]. intros [= -> -> Hq]. apply app_inj_tail in Hq as [-> ->]. by apply Ht. }
    destruct (decide (node V AF (mkPos i' k' q) = t)) as [Hqt|Hqt].
    + assert (mkPos i' k' q = mkPos i k p) as [= -> -> ->] by (by apply (wf_inj _ _ Hwf)).
      change (node V AF (mkPos i k p)) with t. unfold tbl. rewrite HVt.
      rewrite tbl_put32 by (done || apply (wf_blocks _ _ Hwf)).
      destruct (decide (j = j')) as [->|Hjj]; [by rewrite decide_True|]. rewrite decide_False; [done|].
      intros [= Hq]. by apply app_inj_tail in Hq as [_ ->].
    + rewrite decide_False.
      * unfold tbl. rewrite HV; [done| |done]. split; [done|]. by exists (mkPos i' k' q).
      * intros [= -> -> Hq]. by apply app_inj_tail in Hq as [-> ->].
Qed.
End update.

(** ** Positions in a file *)

(** Root and path of file block [bn]. *)
Definition fpos (bn : Z) : Z * list Z :=
  if bn <? XV6FS_NDIRECT then (bn, []) else
  let bn := bn - XV6FS_NDIRECT in
  if bn <? XV6FS_NINDIRECT then (XV6FS_NDIRECT, [bn]) else
  let bn := bn - XV6FS_NINDIRECT in
  if bn <? XV6FS_NDINDIRECT then (XV6FS_NDIRECT + 1, [bn / XV6FS_NINDIRECT; bn mod XV6FS_NINDIRECT]) else
  let bn := bn - XV6FS_NDINDIRECT in
  (XV6FS_NDIRECT + 2, [bn / XV6FS_NDINDIRECT; bn mod XV6FS_NDINDIRECT / XV6FS_NINDIRECT; bn mod XV6FS_NINDIRECT]).
Definition fp (i bn : Z) : pos := mkPos i (fpos bn).1 (fpos bn).2.

(** The byte at offset [off] of inode [i]; holes read as zeros. *)
Definition fbyte (V : Z -> block) (AF : Z -> list Z) (i off : Z) : Z :=
  let a := node V AF (fp i (off / BSIZE)) in
  if a =? 0 then 0 else zget (V a) (off mod BSIZE).

Lemma fpos_ok bn : 0 <= bn < XV6FS_MAXFILE ->
  0 <= (fpos bn).1 < XV6FS_NDIRECT + 3 /\ length (fpos bn).2 = depth (fpos bn).1 /\ Forall idx_ok (fpos bn).2.
Proof.
  intros Hbn. unfold XV6FS_MAXFILE in Hbn. unfold fpos, idx_ok. change XV6FS_NDIRECT with 9 in *.
  change XV6FS_NINDIRECT with 256 in *. change XV6FS_NDINDIRECT with 65536 in *. change XV6FS_NTINDIRECT with 16777216 in *.
  destruct (Z.ltb_spec bn 9); [|destruct (Z.ltb_spec (bn - 9) 256); [|destruct (Z.ltb_spec (bn - 9 - 256) 65536)]]; simpl.
  - split; [lia|]. split; [|done]. unfold depth. change XV6FS_NDIRECT with 9. by rewrite (proj2 (Z.ltb_lt bn 9)).
  - split; [lia|]. split; [done|]. repeat constructor; lia.
  - split; [lia|]. split; [done|]. pose proof (Z.mod_pos_bound (bn - 9 - 256) 256).
    pose proof (Z.div_pos (bn - 9 - 256) 256). pose proof (Z.div_lt_upper_bound (bn - 9 - 256) 256 256). repeat constructor; lia.
  - set (x := bn - 9 - 256 - 65536). pose proof (Z.mod_pos_bound x 256). pose proof (Z.mod_pos_bound x 65536).
    pose proof (Z.div_pos x 65536). pose proof (Z.div_lt_upper_bound x 65536 256).
    pose proof (Z.div_pos (x mod 65536) 256). pose proof (Z.div_lt_upper_bound (x mod 65536) 256 256).
    split; [lia|]. split; [done|]. repeat constructor; lia.
Qed.

Lemma div_mod_256 a b : a / 256 = b / 256 -> a mod 256 = b mod 256 -> a = b.
Proof. intros. rewrite (Z.div_mod a 256), (Z.div_mod b 256) by lia. lia. Qed.

Lemma fpos_inj a b : 0 <= a < XV6FS_MAXFILE -> 0 <= b < XV6FS_MAXFILE -> fpos a = fpos b -> a = b.
Proof.
  unfold fpos. change XV6FS_NDIRECT with 9. change XV6FS_NINDIRECT with 256. change XV6FS_NDINDIRECT with 65536.
  intros Ha Hb.
  destruct (Z.ltb_spec a 9); [|destruct (Z.ltb_spec (a - 9) 256); [|destruct (Z.ltb_spec (a - 9 - 256) 65536)]];
  (destruct (Z.ltb_spec b 9); [|destruct (Z.ltb_spec (b - 9) 256); [|destruct (Z.ltb_spec (b - 9 - 256) 65536)]]);
  intros [=]; try lia.
  - pose proof (div_mod_256 (a - 9 - 256) (b - 9 - 256)). lia.
  - set (x := a - 9 - 256 - 65536) in *. set (y := b - 9 - 256 - 65536) in *.
    assert (x mod 65536 = y mod 65536).
    { apply div_mod_256; [done|]. rewrite !Z.mod_mod_divide by by exists 256. done. }
    assert (x = y); [|lia]. rewrite (Z.div_mod x 65536), (Z.div_mod y 65536) by lia. lia.
Qed.

Lemma fp_valid i bn : 0 <= i < sb.(sb_ninodes) -> 0 <= bn < XV6FS_MAXFILE -> valid (fp i bn) /\ leaf (fp i bn).
Proof. intros Hi (?&?&?)%fpos_ok. split; [split; simpl; done || lia|done]. Qed.

Lemma fp_inj i i' a b : 0 <= a < XV6FS_MAXFILE -> 0 <= b < XV6FS_MAXFILE -> fp i a = fp i' b -> i = i' /\ a = b.
Proof. intros Ha Hb [= -> H1 H2]. split; [done|]. apply fpos_inj; [done|done|]. by apply injective_projections. Qed.

Lemma off_block off : 0 <= off < XV6FS_MAXFILE * BSIZE -> 0 <= off / BSIZE < XV6FS_MAXFILE.
Proof. intros. split; [apply Z.div_pos; [lia|done]|]. apply Z.div_lt_upper_bound; [done|]. lia. Qed.

(** ** Growing a file *)

(** Nodes were added for inode [i]; what the files contain is the same. *)
Record grown (i : Z) (V : Z -> block) (AF : Z -> list Z) (V' : Z -> block) (AF' : Z -> list Z) : Prop := mkGrown {
  gr_wf : wf V' AF';
  gr_node : forall P, valid P -> node V AF P <> 0 -> node V' AF' P = node V AF P;
  gr_byte : forall i' off, 0 <= i' < sb.(sb_ninodes) -> 0 <= off < XV6FS_MAXFILE * BSIZE ->
    fbyte V' AF' i' off = fbyte V AF i' off;
  gr_meta : forall x, x < sb.(sb_bmapstart) -> V' x = V x;
  gr_bit : forall b, 0 <= b < sb.(sb_size) -> bit sb V b = true -> bit sb V' b = true;
  gr_other : forall i', i' <> i -> AF' i' = AF i' }.

Lemma grown_refl i V AF : wf V AF -> grown i V AF V AF.
Proof. done. Qed.

Lemma grown_trans i V AF V1 AF1 V2 AF2 : grown i V AF V1 AF1 -> grown i V1 AF1 V2 AF2 -> grown i V AF V2 AF2.
Proof.
  intros [] [Hw2 Hn2 Hb2 Hm2 Hbit2 Ho2]. split; [done|..].
  - intros P HP Hn. rewrite Hn2; auto. by rewrite gr_node0.
  - intros. rewrite Hb2; auto.
  - intros. rewrite Hm2; auto.
  - intros. apply Hbit2; auto.
  - intros. rewrite Ho2; auto.
Qed.

Section link.
Context (V : Z -> block) (AF : Z -> list Z) (Hwf : wf V AF).
Context (V' : Z -> block) (AF' : Z -> list Z) (P : pos) (HP : valid P) (r : Z).
Hypothesis Hblocks : blocks_ok V'.
Hypothesis Hlen : forall i, zlen (AF' i) = XV6FS_NDIRECT + 3.
Hypothesis Hold : node V AF P = 0.
Hypothesis Hr : dstart sb <= r < sb.(sb_size).
Hypothesis Hfree : bit sb V r = false.
Hypothesis Hbit : forall b, 0 <= b < sb.(sb_size) -> bit sb V' b = (b =? r) || bit sb V b.
Hypothesis Hnode : forall P', valid P' -> node V' AF' P' = if decide (P' = P) then r else node V AF P'.

Lemma dstart_pos : 0 < dstart sb < sb.(sb_size).
Proof using Hwf. pose proof (layout_order sb (wf_layout _ _ Hwf)). lia. Qed.

Lemma wf_link : wf V' AF'.
Proof using All.
  pose proof dstart_pos as Hd. destruct Hwf as [Hly Hb Hm Ha Hn Hi Hu]. split; [done|done| |done|..].
  - intros b Hb'. rewrite Hbit by lia. rewrite Hm by lia. apply orb_true_r.
  - intros Q HQ. rewrite Hnode by done. case_decide; intros Hne.
    + rewrite Hbit by lia. by rewrite Z.eqb_refl.
    + destruct (Hn Q HQ Hne). rewrite Hbit by lia. split; [done|]. apply orb_true_iff. by right.
  - intros Q Q' HQ HQ'. rewrite !Hnode by done.
    assert (Hnr : forall Q, valid Q -> node V AF Q <> r).
    { intros Q0 HQ0 He. assert (node V AF Q0 <> 0) as Hne by lia. destruct (Hn Q0 HQ0 Hne) as [_ Hb0].
      rewrite He, Hfree in Hb0. done. }
    repeat case_decide; subst; try done; intros He Hne.
    + by destruct (Hnr Q').
    + by destruct (Hnr Q).
    + by apply Hi.
  - intros b Hb'. rewrite Hbit by lia. intros [->%Z.eqb_eq|Hbb]%orb_prop.
    + exists P. split; [done|]. rewrite Hnode by done. by rewrite decide_True.
    + destruct (Hu b Hb' Hbb) as (Q&HQ&<-). exists Q. split; [done|]. rewrite Hnode by done. rewrite decide_False; [done|].
      intros ->. lia.
Qed.

Lemma link_grown i :
  V' r = zeros ->
  (forall Q, valid Q -> leaf Q -> node V AF Q <> 0 -> V' (node V AF Q) = V (node V AF Q)) ->
  (forall x, x < sb.(sb_bmapstart) -> V' x = V x) ->
  (forall i', i' <> i -> AF' i' = AF i') -> grown i V AF V' AF'.
Proof using All.
  intros Hz Hleaf Hmeta Hother. split; [apply wf_link| | |done| |done].
  - intros Q HQ Hne. rewrite Hnode by done. rewrite decide_False; [done|]. by intros ->.
  - intros i' off Hi' Hoff. unfold fbyte.
    pose proof (off_block off Hoff) as Hbn.
    destruct (fp_valid i' (off / BSIZE) Hi' Hbn) as [HQ HQl]. rewrite Hnode by done. case_decide as He.
    + rewrite He, Hold. simpl. destruct (Z.eqb_spec r 0); [done|]. rewrite Hz. apply zget_replicate.
      apply Z.mod_pos_bound. done.
    + destruct (Z.eqb_spec (node V AF (fp i' (off / BSIZE))) 0); [done|]. by rewrite Hleaf.
  - intros b Hb Ht. rewrite Hbit by done. rewrite Ht. apply orb_true_r.
Qed.
End link.

(** A free block becomes the root [k] of inode [i]. *)
Lemma link_root V AF i k r :
  wf V AF -> valid (mkPos i k []) -> node V AF (mkPos i k []) = 0 ->
  0 < r < sb.(sb_size) -> bit sb V r = false ->
  let AF' := fset AF i (zset (AF i) k r) in
  grown i V AF (take_block sb V r) AF' /\ node (take_block sb V r) AF' (mkPos i k []) = r.
Proof.
  intros Hwf HP Hz Hr Hfree AF'. pose proof (wf_layout _ _ Hwf) as Hl. pose proof (layout_order sb Hl) as Hlo.
  assert (Hd : dstart sb <= r).
  { destruct (decide (dstart sb <= r)); [done|]. rewrite (wf_meta _ _ Hwf) in Hfree by lia. done. }
  assert (Hsame : forall x, is_node V AF x -> take_block sb V r x = V x).
  { intros x Hx. unfold take_block, set_bit. pose proof (bblock_meta sb Hl r ltac:(lia)).
    rewrite !fset_ne; [done| |].
    - intros ->. revert Hx. apply meta_not_node; [done|lia].
    - intros ->. revert Hx. by apply free_not_node. }
  assert (Hnode : forall P', valid P' ->
    node (take_block sb V r) AF' P' = if decide (P' = mkPos i k []) then r else node V AF P').
  { intros P' HP'. apply node_set_root; [done|done| | | |done].
    - intros _ j Hj. unfold tbl, take_block. rewrite fset_eq. apply getn_replicate.
      + unfold idx_ok in Hj. lia.
      + unfold idx_ok in Hj. change XV6FS_NINDIRECT with 256 in Hj. change (Z.of_nat (Z.to_nat BSIZE)) with 1024. lia.
    - intros j Hj. change [j] with ([] ++ [j]). rewrite node_snoc, Hz. done.
    - apply (va_root _ HP). }
  split; [|rewrite Hnode by done; by rewrite decide_True].
  eapply (link_grown V AF Hwf _ _ (mkPos i k []) HP r); try (done || lia).
  - apply take_block_ok, (wf_blocks _ _ Hwf).
  - intros i'. unfold AF'. rewrite fset_spec. case_decide; [rewrite zlen_zset|]; apply (wf_addrs _ _ Hwf).
  - intros b Hb. apply bit_take_block; [done|apply (wf_blocks _ _ Hwf)|lia|done].
  - apply fset_eq.
  - intros Q HQ _ Hne. apply Hsame. split; [done|]. by exists Q.
  - intros x Hx. unfold take_block, set_bit. pose proof (bblock_meta sb Hl r ltac:(lia)). rewrite !fset_ne; [done|lia|lia].
  - intros i' Hi'. by apply fset_ne.
Qed.

(** A free block becomes entry [j] of the table at path [p]. *)
Lemma link_entry V AF i k p j r :
  let t := node V AF (mkPos i k p) in
  let V' := fset (take_block sb V r) t (put32 (V t) (4 * j) r) in
  wf V AF -> valid (mkPos i k (p ++ [j])) -> t <> 0 -> node V AF (mkPos i k (p ++ [j])) = 0 ->
  0 < r < sb.(sb_size) -> bit sb V r = false ->
  grown i V AF V' AF /\ node V' AF (mkPos i k (p ++ [j])) = r.
Proof.
  intros t V' Hwf HP Ht Hz Hr Hfree. pose proof (wf_layout _ _ Hwf) as Hl. pose proof (layout_order sb Hl) as Hlo.
  destruct (valid_parent _ _ _ _ HP) as (Hp&Hj&Hdep).
  pose proof (node_bound V AF Hwf (mkPos i k p) Hp Ht) as Htb. fold t in Htb.
  assert (Hd : dstart sb <= r).
  { destruct (decide (dstart sb <= r)); [done|]. rewrite (wf_meta _ _ Hwf) in Hfree by lia. done. }
  pose proof (bblock_meta sb Hl r ltac:(lia)) as Hbb.
  assert (Hrt : r <> t).
  { intros ->. pose proof (proj2 (wf_node _ _ Hwf _ Hp Ht)) as Hb. fold t in Hb. by rewrite Hb in Hfree. }
  assert (Hsame : forall x, is_node V AF x -> x <> t -> V' x = V x).
  { intros x Hx Hxt. unfold V', take_block, set_bit. rewrite !fset_ne; [done| | |done].
    - intros ->. revert Hx. apply meta_not_node; [done|lia].
    - intros ->. revert Hx. by apply free_not_node. }
  assert (Hzero : V' r = zeros) by (unfold V', take_block; rewrite fset_ne, fset_eq; done).
  assert (Hnode : forall P', valid P' -> node V' AF P' = if decide (P' = mkPos i k (p ++ [j])) then r else node V AF P').
  { intros P' HP'. apply node_set_entry; try done; fold t.
    - lia.
    - unfold V'. by rewrite fset_eq.
    - intros _ j' Hj'. unfold tbl. rewrite Hzero. unfold idx_ok in Hj'. change XV6FS_NINDIRECT with 256 in Hj'.
      apply getn_replicate; [lia|]. change (Z.of_nat (Z.to_nat BSIZE)) with 1024. lia.
    - intros j' Hj'. rewrite app_assoc, node_snoc, Hz. done. }
  split; [|rewrite Hnode by done; by rewrite decide_True].
  pose proof (wf_blocks _ _ Hwf) as HV.
  eapply (link_grown V AF Hwf _ _ (mkPos i k (p ++ [j])) HP r); try (done || lia).
  - unfold V'. apply fset_blocks_ok; [by apply take_block_ok|]. destruct (HV t) as [Hlen Hby].
    unfold idx_ok in Hj. change XV6FS_NINDIRECT with 256 in Hj. change BSIZE with 1024 in Hlen. split.
    + unfold put32. rewrite zlen_putn; [done|lia|]. change (Z.of_nat 4) with 4. lia.
    + by apply putn_bytes.
  - apply (wf_addrs _ _ Hwf).
  - intros b Hb. rewrite <- bit_take_block by (done || lia). apply bit_ext; [done|done|]. intros x Hx. apply fset_ne. lia.
  - intros Q HQ HQl Hne. apply Hsame; [split; [done|]; by exists Q|]. intros He.
    assert (Q = mkPos i k p) as -> by by apply (wf_inj _ _ Hwf). unfold leaf in HQl. simpl in HQl. lia.
  - intros x Hx. unfold V', take_block, set_bit. rewrite !fset_ne; [done|lia|lia|lia].
Qed.
End tree.
