(* ===== verification/FsMap.v ===== *)
(** * Inodes in memory and on the disk, and the map of their blocks

    An inode that is in the table and valid counts as its copy in the table,
    any other as its copy on the disk ([inode_now]).  [fok] is the invariant
    of the file system.  The main result is the one on [bmap_lookup]: it gives
    the block of a file at a position, or adds one without changing what any
    file contains. *)
From S2P Require Import Prelude State Bytes Log Xv6fs FsState FsTree.

(** ** Contents that agree everywhere

    Two views that agree on all blocks are as good as equal. *)
Abbreviation pw := (pointwise_relation Z eq).

#[export] Instance bit_proper sb : Proper (pw ==> eq ==> eq) (bit sb).
Proof. intros V V' HV b _ <-. unfold bit. by rewrite HV. Qed.

#[export] Instance walk_proper : Proper (pw ==> eq ==> eq ==> eq) walk.
Proof.
  intros V V' HV a _ <- p _ <-. revert a. induction p as [|i p IH]; intros a; simpl; [done|].
  unfold tbl. rewrite HV. destruct (a =? 0); [done|apply IH].
Qed.

#[export] Instance node_proper : Proper (pw ==> pw ==> eq ==> eq) node.
Proof. intros V V' HV A A' HA P _ <-. unfold node. by rewrite HV, HA. Qed.

#[export] Instance blocks_ok_proper : Proper (pw ==> iff) blocks_ok.
Proof. intros V V' HV. unfold blocks_ok. by setoid_rewrite HV. Qed.

#[export] Instance fbyte_proper : Proper (pw ==> pw ==> eq ==> eq ==> eq) fbyte.
Proof.
  intros V V' HV A A' HA i _ <- off _ <-. unfold fbyte.
  replace (node V A (fp i (off / BSIZE))) with (node V' A' (fp i (off / BSIZE))) by by rewrite <- HV, <- HA.
  destruct (_ =? 0); [done|]. by rewrite (HV _).
Qed.

Lemma wf_pw sb V V' A A' : pw V V' -> pw A A' -> wf sb V A -> wf sb V' A'.
Proof.
  intros HV HA [Hl Hb Hm Ha Hn Hi Hu]. split; [done|..].
  - by rewrite <- HV.
  - intros b. rewrite <- HV. apply Hm.
  - intros i. rewrite <- HA. apply Ha.
  - intros P HP. rewrite <- HV, <- HA. by apply Hn.
  - intros P P' HP HP'. rewrite <- HV, <- HA. by apply Hi.
  - intros b Hb'. rewrite <- HV. intros [P HP]%Hu; [|done]. exists P. by rewrite <- HV, <- HA.
Qed.
#[export] Instance wf_proper sb : Proper (pw ==> pw ==> iff) (wf sb).
Proof. intros V V' HV A A' HA. split; by apply wf_pw. Qed.

#[export] Instance grown_proper sb i : Proper (pw ==> pw ==> pw ==> pw ==> impl) (grown sb i).
Proof.
  intros V V1 HV A A1 HA V' V1' HV' A' A1' HA' [Hw Hn Hb Hm Hbit Ho]. split.
  - by rewrite <- HV', <- HA'.
  - intros P. rewrite <- HV, <- HA, <- HV', <- HA'. apply Hn.
  - intros i' off. rewrite <- HV, <- HA, <- HV', <- HA'. apply Hb.
  - intros x. rewrite <- HV, <- HV'. apply Hm.
  - intros b. rewrite <- HV, <- HV'. apply Hbit.
  - intros i'. rewrite <- HA, <- HA'. apply Ho.
Qed.

(** ** Inodes *)

Record di_ok (d : dinode) : Prop := mkDiOk {
  dk_type : - 2 ^ 15 <= d.(di_type) < 2 ^ 15;
  dk_major : - 2 ^ 15 <= d.(di_major) < 2 ^ 15;
  dk_minor : - 2 ^ 15 <= d.(di_minor) < 2 ^ 15;
  dk_nlink : - 2 ^ 15 <= d.(di_nlink) < 2 ^ 15;
  dk_size : 0 <= d.(di_size) < 2 ^ 32;
  dk_mtime : 0 <= d.(di_mtime) < 2 ^ 32;
  dk_len : zlen d.(di_addrs) = XV6FS_NDIRECT + 3;
  dk_addrs : Forall (fun a => 0 <= a < 2 ^ 32) d.(di_addrs) }.

Definition slot_among (n : nat) (I : Z -> inode) (i : Z) : option Z :=
  match iget_scan n I 0 i None with Some (true, ip) => Some ip | _ => None end.
Definition slot_of (I : Z -> inode) (i : Z) : option Z := slot_among (Z.to_nat XV6FS_NINODE) I i.

Definition disk_inode (sb : superblock) (V : Z -> block) (i : Z) : dinode :=
  get_dinode (V (XV6FS_IBLOCK i sb)) (64 * (i mod XV6FS_IPB)).

Definition inode_now (sb : superblock) (V : Z -> block) (I : Z -> inode) (i : Z) : dinode :=
  match slot_of I i with
  | Some ip => if (I ip).(i_valid) then (I ip).(i_d) else disk_inode sb V i
  | None => disk_inode sb V i
  end.

(** The roots of the trees; numbers that name no inode have none. *)
Definition roots (sb : superblock) (V : Z -> block) (I : Z -> inode) (i : Z) : list Z :=
  if decide (0 <= i < sb.(sb_ninodes)) then (inode_now sb V I i).(di_addrs) else replicate 12 0.

Record table_ok (sb : superblock) (I : Z -> inode) : Prop := mkTable {
  tb_inum : forall ip, 0 <= ip < XV6FS_NINODE -> 0 < (I ip).(i_ref) -> 0 <= (I ip).(i_inum) < sb.(sb_ninodes);
  tb_uniq : forall a b, 0 <= a < XV6FS_NINODE -> 0 <= b < XV6FS_NINODE -> 0 < (I a).(i_ref) -> 0 < (I b).(i_ref) ->
    (I a).(i_inum) = (I b).(i_inum) -> a = b;
  tb_d : forall ip, 0 <= ip < XV6FS_NINODE -> 0 < (I ip).(i_ref) -> (I ip).(i_valid) = true -> di_ok (I ip).(i_d) }.

Record fok (sb : superblock) (V : Z -> block) (I : Z -> inode) : Prop := mkFok {
  fk_wf : wf sb V (roots sb V I);
  fk_table : table_ok sb I }.

(** Slot [ip] holds inode [i], and its contents are loaded. *)
Record held (I : Z -> inode) (ip i : Z) : Prop := mkHeld {
  hd_slot : 0 <= ip < XV6FS_NINODE;
  hd_ref : 0 < (I ip).(i_ref);
  hd_inum : (I ip).(i_inum) = i;
  hd_valid : (I ip).(i_valid) = true }.

Lemma iget_scan_true n f i inum e ip :
  iget_scan n f i inum e = Some (true, ip) -> i <= ip < i + Z.of_nat n /\ 0 < (f ip).(i_ref) /\ (f ip).(i_inum) = inum.
Proof.
  revert i e. induction n as [|n IH]; intros i e; simpl; [by destruct e|].
  destruct ((0 <? i_ref (f i)) && (i_inum (f i) =? inum)) eqn:Ht.
  - intros [= <-]. apply andb_prop in Ht as [?%Z.ltb_lt ?%Z.eqb_eq]. split; [lia|done].
  - intros [??]%IH. split; [lia|done].
Qed.

Lemma iget_scan_none n f i inum e ip :
  (forall x, iget_scan n f i inum e <> Some (true, x)) -> i <= ip < i + Z.of_nat n -> 0 < (f ip).(i_ref) ->
  (f ip).(i_inum) <> inum.
Proof.
  revert i e. induction n as [|n IH]; intros i e Hn Hi Hr Heq; simpl in Hn; [lia|].
  destruct ((0 <? i_ref (f i)) && (i_inum (f i) =? inum)) eqn:Ht; [by eapply Hn|].
  destruct (decide (ip = i)) as [->|].
  - rewrite (proj2 (Z.ltb_lt _ _) Hr), (proj2 (Z.eqb_eq _ _) Heq) in Ht. done.
  - eapply (IH (i + 1)); [exact Hn|lia|done|done].
Qed.

Lemma iget_scan_ext n f g i inum e :
  (forall ip, (g ip).(i_ref) = (f ip).(i_ref) /\ (g ip).(i_inum) = (f ip).(i_inum)) ->
  iget_scan n g i inum e = iget_scan n f i inum e.
Proof.
  intros Hfg. revert i e. induction n as [|n IH]; intros i e; simpl; [done|].
  destruct (Hfg i) as [-> ->]. by rewrite IH.
Qed.

Lemma slot_of_ext I I' i :
  (forall ip, (I' ip).(i_ref) = (I ip).(i_ref) /\ (I' ip).(i_inum) = (I ip).(i_inum)) -> slot_of I' i = slot_of I i.
Proof. intros. unfold slot_of, slot_among. by rewrite (iget_scan_ext _ I I'). Qed.

Lemma slot_among_some n I i ip :
  slot_among n I i = Some ip -> 0 <= ip < Z.of_nat n /\ 0 < (I ip).(i_ref) /\ (I ip).(i_inum) = i.
Proof.
  unfold slot_among. destruct (iget_scan _ _ _ _ _) as [[[] x]|] eqn:Hs; [|done..]. intros [= ->].
  by apply iget_scan_true in Hs.
Qed.

Lemma slot_among_none n I i ip :
  slot_among n I i = None -> 0 <= ip < Z.of_nat n -> 0 < (I ip).(i_ref) -> (I ip).(i_inum) <> i.
Proof.
  unfold slot_among. intros Hs Hip. apply (iget_scan_none n I 0 i None ip); [|lia]. intros x Hx. by rewrite Hx in Hs.
Qed.

Lemma slot_of_some I i ip : slot_of I i = Some ip -> 0 <= ip < XV6FS_NINODE /\ 0 < (I ip).(i_ref) /\ (I ip).(i_inum) = i.
Proof.
  unfold slot_of. intros Hs. destruct (slot_among_some _ _ _ _ Hs) as (Hr&Hf&Hi).
  split; [|split; assumption]. rewrite Z2Nat.id in Hr; [exact Hr|discriminate].
Qed.

Lemma slot_of_none I i ip : slot_of I i = None -> 0 <= ip < XV6FS_NINODE -> 0 < (I ip).(i_ref) -> (I ip).(i_inum) <> i.
Proof.
  unfold slot_of. intros Hs Hip. apply (slot_among_none _ _ _ _ Hs). rewrite Z2Nat.id; [exact Hip|discriminate].
Qed.

Lemma held_slot sb I ip i : table_ok sb I -> held I ip i -> slot_of I i = Some ip.
Proof.
  intros Ht [Hs Hr Hi Hv]. destruct (slot_of I i) as [x|] eqn:He.
  - destruct (slot_of_some _ _ _ He) as (Hx&Hxr&Hxi). f_equal. apply (tb_uniq _ _ Ht); try assumption. congruence.
  - by destruct (slot_of_none _ _ ip He).
Qed.

Lemma inode_now_held sb V I ip i : table_ok sb I -> held I ip i -> inode_now sb V I i = (I ip).(i_d).
Proof. intros Ht Hh. unfold inode_now. rewrite (held_slot _ _ _ _ Ht Hh). by rewrite (hd_valid _ _ _ Hh). Qed.

Lemma held_inum sb I ip i : table_ok sb I -> held I ip i -> 0 <= i < sb.(sb_ninodes).
Proof. intros Ht [Hs Hr <- Hv]. by apply (tb_inum _ _ Ht). Qed.

Lemma get_dinode_ok d off : blk_ok d -> 0 <= off -> off + 64 <= BSIZE -> di_ok (get_dinode d off).
Proof.
  intros [Hd Hb] H0 H1. unfold get_dinode.
  assert (H32 : forall o, 0 <= o -> o + 4 <= BSIZE -> 0 <= get32 d o < 2 ^ 32).
  { intros o ??. apply (getn_range 4 d o); [done|done|]. change (Z.of_nat 4) with 4. lia. }
  assert (H16 : forall x, - 2 ^ 15 <= s16 x < 2 ^ 15).
  { intros x. unfold s16. pose proof (Z.mod_pos_bound (x + 2 ^ 15) (2 ^ 16)). lia. }
  split; try apply H16; try done; try (apply H32; lia).
  apply Forall_fmap, Forall_forall. intros k [Hk0 Hk]%elem_of_seqZ. apply H32; lia.
Qed.

Lemma iblock_off i : 0 <= 64 * (i mod XV6FS_IPB) /\ 64 * (i mod XV6FS_IPB) + 64 <= BSIZE.
Proof. change XV6FS_IPB with 16. change BSIZE with 1024. pose proof (Z.mod_pos_bound i 16). lia. Qed.

Lemma inode_now_ok sb V I i : blocks_ok V -> table_ok sb I -> di_ok (inode_now sb V I i).
Proof.
  intros HV Ht. assert (di_ok (disk_inode sb V i)) by (destruct (iblock_off i); by apply get_dinode_ok).
  unfold inode_now. destruct (slot_of I i) as [ip|] eqn:Hs; [|done]. apply slot_of_some in Hs as (?&?&?).
  destruct (i_valid (I ip)) eqn:Hv; [by apply (tb_d _ _ Ht)|done].
Qed.

Lemma roots_held sb V I ip i : table_ok sb I -> held I ip i -> roots sb V I i = (I ip).(i_d).(di_addrs).
Proof.
  intros Ht Hh. pose proof (held_inum _ _ _ _ Ht Hh). unfold roots. rewrite decide_True by done.
  by rewrite (inode_now_held _ _ _ _ _ Ht Hh).
Qed.

(** Only the inode in slot [ip] changes, and nothing of it that the table's
    functions look at. *)
Record only (ip : Z) (I I' : Z -> inode) : Prop := mkOnly {
  on_other : forall j, j <> ip -> I' j = I j;
  on_same : I' ip = mkInode (I ip).(i_dev) (I ip).(i_inum) (I ip).(i_ref) (I ip).(i_locked) (I ip).(i_valid) (I' ip).(i_d) }.

Lemma only_refl ip I : only ip I I.
Proof. split; [done|]. by destruct (I ip). Qed.
Lemma only_trans ip I I1 I2 : only ip I I1 -> only ip I1 I2 -> only ip I I2.
Proof. intros [H1 H2] [H3 H4]. split; [intros; rewrite H3; auto|]. rewrite H4, H2. done. Qed.

Lemma only_like ip I I' j : only ip I I' ->
  (I' j).(i_ref) = (I j).(i_ref) /\ (I' j).(i_inum) = (I j).(i_inum) /\ (I' j).(i_valid) = (I j).(i_valid) /\
  (I' j).(i_locked) = (I j).(i_locked).
Proof.
  intros [H1 H2]. destruct (decide (j = ip)) as [->|]; [by rewrite H2|by rewrite H1].
Qed.

Lemma only_held ip I I' j i : only ip I I' -> held I j i -> held I' j i.
Proof. intros Ho [????]. destruct (only_like ip I I' j Ho) as (H1&H2&H3&_). split; congruence. Qed.

Lemma only_table sb ip I I' : only ip I I' -> ((I' ip).(i_valid) = true -> di_ok (I' ip).(i_d)) -> table_ok sb I -> table_ok sb I'.
Proof.
  intros Ho Hd [H1 H2 H3]. split.
  - intros j Hj. destruct (only_like ip I I' j Ho) as (->&->&_). by apply H1.
  - intros a b Ha Hb. destruct (only_like ip I I' a Ho) as (->&->&_), (only_like ip I I' b Ho) as (->&->&_). by apply H2.
  - intros j Hj Hr Hv. destruct (decide (j = ip)) as [->|Hne]; [auto|]. rewrite (on_other _ _ _ Ho) in * by done. by apply H3.
Qed.

(** Other inodes are what they were, as long as the inode blocks are. *)
Lemma only_inode_now sb V V' I I' ip i i' :
  layout sb -> table_ok sb I -> held I ip i -> only ip I I' ->
  (forall x, x < sb.(sb_bmapstart) -> V' x = V x) -> 0 <= i' < sb.(sb_ninodes) -> i' <> i ->
  inode_now sb V' I' i' = inode_now sb V I i'.
Proof.
  intros Hl Ht Hh Ho HV Hi' Hne. unfold inode_now, disk_inode.
  rewrite (HV (XV6FS_IBLOCK i' sb)) by (apply iblock_meta; done). rewrite (slot_of_ext I I').
  - destruct (slot_of I i') as [j|] eqn:Hs; [|done]. apply slot_of_some in Hs as (?&?&?).
    rewrite (on_other _ _ _ Ho); [done|]. intros ->. destruct Hh. congruence.
  - intros j. by destruct (only_like ip I I' j Ho) as (->&->&_).
Qed.

Lemma only_roots sb V V' I I' ip i :
  layout sb -> table_ok sb I -> held I ip i -> only ip I I' ->
  (forall x, x < sb.(sb_bmapstart) -> V' x = V x) ->
  pw (fset (roots sb V I) i (I' ip).(i_d).(di_addrs)) (roots sb V' I').
Proof.
  intros Hl Ht Hh Ho HV i'. pose proof (held_inum _ _ _ _ Ht Hh) as Hi. rewrite fset_spec. unfold roots.
  case_decide as He.
  - subst i'. rewrite decide_True by done. unfold inode_now. rewrite (slot_of_ext I I').
    + rewrite (held_slot _ _ _ _ Ht Hh). destruct (only_like ip I I' ip Ho) as (_&_&->&_). by rewrite (hd_valid _ _ _ Hh).
    + intros j. by destruct (only_like ip I I' j Ho) as (->&->&_).
  - case_decide; [|done]. by rewrite (only_inode_now sb V V' I I' ip i).
Qed.

(** ** Looking up without allocating *)

Section lookup.
Context (E : panic -> Prop) (s0 : fsst) (V : Z -> block) (I : Z -> inode) (ip : Z).

Lemma root_step_read k s : moves s0 V I s ->
  wp E (root_step ip k false) (fun r s' => r = zget (I ip).(i_d).(di_addrs) k /\ moves s0 V I s') s.
Proof.
  intros Hm. unfold root_step. wp_step. fs_step Hm. destruct (Z.eqb_spec (zget (di_addrs (i_d (I ip))) k) 0); by apply wp_ret.
Qed.

Lemma table_step_read t j s : moves s0 V I s ->
  wp E (table_step t j false) (fun r s' => r = tbl V t j /\ moves s0 V I s') s.
Proof.
  intros Hm. unfold table_step. wp_step. fs_step Hm. change (get32 (V t) (4 * j)) with (tbl V t j).
  destruct (Z.eqb_spec (tbl V t j) 0); by apply wp_ret.
Qed.

(** The block at file position [bn], 0 for a hole; nothing changes. *)
Lemma bmap_lookup_read bn s : 0 <= bn < XV6FS_MAXFILE -> moves s0 V I s ->
  wp E (bmap_lookup ip bn false)
    (fun r s' => r = walk V (zget (I ip).(i_d).(di_addrs) (fpos bn).1) (fpos bn).2 /\ moves s0 V I s') s.
Proof.
  intros Hbn Hm. unfold bmap_lookup, fpos. unfold XV6FS_MAXFILE in Hbn.
  destruct (bn <? XV6FS_NDIRECT); [by apply root_step_read|]. cbv zeta.
  destruct (bn - XV6FS_NDIRECT <? XV6FS_NINDIRECT); [|destruct (bn - XV6FS_NDIRECT - XV6FS_NINDIRECT <? XV6FS_NDINDIRECT)].
  3: rewrite (proj2 (Z.ltb_lt (bn - XV6FS_NDIRECT - XV6FS_NINDIRECT - XV6FS_NDINDIRECT) XV6FS_NTINDIRECT)) by lia.
  all: wp_step; eapply wp_mono; [by apply root_step_read|]; cbn [fst snd walk]; intros a1 s1 [-> Hm1]; clear Hm;
    destruct (_ =? 0); [by apply wp_ret|].
  - by apply table_step_read.
  - wp_step. eapply wp_mono; [by apply table_step_read|]. intros a2 s2 [-> Hm2].
    destruct (_ =? 0); [by apply wp_ret|]. by apply table_step_read.
  - wp_step. eapply wp_mono; [by apply table_step_read|]. intros a2 s2 [-> Hm2].
    destruct (_ =? 0); [by apply wp_ret|]. wp_step. eapply wp_mono; [by apply table_step_read|]. intros a3 s3 [-> Hm3].
    destruct (_ =? 0); [by apply wp_ret|]. by apply table_step_read.
Qed.
End lookup.

(** ** Looking up and allocating *)

Definition full (sb : superblock) (V : Z -> block) : Prop := forall b, 0 <= b < sb.(sb_size) -> bit sb V b = true.

Lemma set_addr_d d k r : di_ok d -> 0 <= k < XV6FS_NDIRECT + 3 -> 0 <= r < 2 ^ 32 ->
  di_ok (mkDi d.(di_type) d.(di_major) d.(di_minor) d.(di_nlink) d.(di_size) d.(di_mtime) (zset d.(di_addrs) k r)).
Proof. intros [] Hk Hr. split; simpl; try done; [by rewrite zlen_zset|]. by apply Forall_zset. Qed.

Section alloc.
Context (E : panic -> Prop) (HE : E LogOverflow) (s0 : fsst) (Ho : in_op s0) (Hhint : 0 <= s0.(g_balloc_hint)).
Context (sb : superblock) (Hsb : s0.(f_sb) = sb) (ip i : Z).

(** From [V], [I] to [V'], [I'], inode [i] got more blocks. *)
Record mapped (V : Z -> block) (I : Z -> inode) (V' : Z -> block) (I' : Z -> inode) : Prop := mkMapped {
  mp_fok : fok sb V' I';
  mp_held : held I' ip i;
  mp_grown : grown sb i V (roots sb V I) V' (roots sb V' I');
  mp_only : only ip I I';
  mp_d : (I' ip).(i_d) = let d := (I ip).(i_d) in
    mkDi d.(di_type) d.(di_major) d.(di_minor) d.(di_nlink) d.(di_size) d.(di_mtime) (I' ip).(i_d).(di_addrs) }.

Lemma mapped_refl V I : fok sb V I -> held I ip i -> mapped V I V I.
Proof.
  intros Hf Hh. split; [done|done|apply grown_refl, Hf|apply only_refl|]. by destruct (i_d (I ip)).
Qed.

Lemma mapped_trans V I V1 I1 V2 I2 : mapped V I V1 I1 -> mapped V1 I1 V2 I2 -> mapped V I V2 I2.
Proof.
  intros [H1 H2 H3 H4 H5] [K1 K2 K3 K4 K5]. split; [done|done|by eapply grown_trans|by eapply only_trans|].
  rewrite K5, H5. done.
Qed.

(** The result at position [P]: its block, 0 only if the disk is full. *)
Definition map_post (V : Z -> block) (I : Z -> inode) (P : pos) (r : Z) (s' : fsst) : Prop :=
  exists V' I', moves s0 V' I' s' /\ mapped V I V' I' /\ r = node V' (roots sb V' I') P /\ (r = 0 -> full sb V').

Lemma map_post_mono V I V1 I1 P r s' : mapped V I V1 I1 -> map_post V1 I1 P r s' -> map_post V I P r s'.
Proof.
  intros Hm (V'&I'&Hs&Hm'&Hr). exists V', I'. split; [done|]. split; [|done]. by eapply mapped_trans.
Qed.

Section step.
Context (V : Z -> block) (I : Z -> inode) (Hf : fok sb V I) (Hh : held I ip i).

Lemma bit0 : bit sb V 0 = true.
Proof using Hf.
  pose proof (wf_meta _ _ _ (fk_wf _ _ _ Hf) 0). pose proof (layout_order sb (wf_layout _ _ _ (fk_wf _ _ _ Hf))).
  apply H. lia.
Qed.

Lemma map_same P r s : moves s0 V I s -> r = node V (roots sb V I) P -> (r = 0 -> full sb V) -> map_post V I P r s.
Proof using Hf Hh. intros Hm Hr Hz. exists V, I. split; [done|]. split; [by apply mapped_refl|done]. Qed.

Lemma root_step_ok k s : moves s0 V I s -> 0 <= k < XV6FS_NDIRECT + 3 ->
  wp E (root_step ip k true) (map_post V I (mkPos i k [])) s.
Proof using All.
  intros Hm Hk. destruct Hf as [Hwf Ht]. pose proof (wf_layout _ _ _ Hwf) as Hl. pose proof (layout_order sb Hl).
  pose proof (held_inum _ _ _ _ Ht Hh) as Hi. assert (HP : valid sb (mkPos i k [])) by (split; simpl; done || lia).
  assert (Hroot : node V (roots sb V I) (mkPos i k []) = zget (di_addrs (i_d (I ip))) k)
    by (unfold node; simpl; by rewrite (roots_held _ _ _ _ _ Ht Hh)).
  unfold root_step. wp_step. fs_step Hm. rewrite <- Hroot.
  destruct (Z.eqb_spec (node V (roots sb V I) (mkPos i k [])) 0) as [Hz|Hn].
  2:{ apply wp_ret. by apply map_same. }
  cbn [negb]. wp_step. eapply wp_mono; [apply (balloc_ok E HE s0 Ho sb Hsb Hl V I (wf_blocks _ _ _ Hwf)); [done|apply bit0|exact Hm]|].
  clear s Hm. intros r s [(->&Hfull&Hm)|(Hr&Hfree&Hm)].
  { cbn [Z.eqb]. apply wp_ret. by apply map_same. }
  rewrite (proj2 (Z.eqb_neq r 0)) by lia. unfold set_addr, set_d. wp_step. fs_step Hm. apply wp_ret.
  destruct (link_root sb V (roots sb V I) i k r Hwf HP Hz Hr Hfree) as [Hg Hnode].
  pose proof (tb_d _ _ Ht ip (hd_slot _ _ _ Hh) (hd_ref _ _ _ Hh) (hd_valid _ _ _ Hh)) as Hd.
  set (V' := take_block sb V r) in *. set (I' := fset I ip _) in *.
  assert (Hon : only ip I I') by (split; [intros j Hj; by apply fset_ne|unfold I'; by rewrite fset_eq]).
  assert (HA : pw (fset (roots sb V I) i (zset (roots sb V I i) k r)) (roots sb V' I')).
  { pose proof (only_roots sb V V' I I' ip i Hl Ht Hh Hon (gr_meta _ _ _ _ _ _ Hg)) as HA.
    unfold I' in HA at 1. rewrite fset_eq in HA. cbn [i_d di_addrs] in HA. by rewrite (roots_held _ _ _ _ _ Ht Hh). }
  rewrite HA in Hg, Hnode.
  exists V', I'. split; [done|]. split; [|split; [done|lia]].
  split; [split; [apply (gr_wf _ _ _ _ _ _ Hg)|]|by apply (only_held ip I)|done|done|].
  - apply (only_table sb ip I); [done| |done]. intros _. unfold I'. rewrite fset_eq. apply set_addr_d; [done|done|lia].
  - unfold I'. by rewrite fset_eq.
Qed.

Lemma table_step_ok k p j s : let t := node V (roots sb V I) (mkPos i k p) in
  moves s0 V I s -> valid sb (mkPos i k (p ++ [j])) -> t <> 0 ->
  wp E (table_step t j true) (map_post V I (mkPos i k (p ++ [j]))) s.
Proof using All.
  intros t Hm HP Ht0. destruct Hf as [Hwf Ht]. pose proof (wf_layout _ _ _ Hwf) as Hl. pose proof (layout_order sb Hl).
  assert (Hent : node V (roots sb V I) (mkPos i k (p ++ [j])) = tbl V t j)
    by (rewrite node_snoc; fold t; by destruct (Z.eqb_spec t 0)).
  unfold table_step. wp_step. fs_step Hm. change (get32 (V t) (4 * j)) with (tbl V t j). rewrite <- Hent.
  destruct (Z.eqb_spec (node V (roots sb V I) (mkPos i k (p ++ [j]))) 0) as [Hz|Hn].
  2:{ apply wp_ret. by apply map_same. }
  cbn [negb]. wp_step. eapply wp_mono; [apply (balloc_ok E HE s0 Ho sb Hsb Hl V I (wf_blocks _ _ _ Hwf)); [done|apply bit0|exact Hm]|].
  clear s1 Hm. intros r s1 [(->&Hfull&Hm)|(Hr&Hfree&Hm)].
  { cbn [Z.eqb]. apply wp_ret. by apply map_same. }
  rewrite (proj2 (Z.eqb_neq r 0)) by lia. wp_step. fs_step Hm.
  destruct (link_entry sb V (roots sb V I) i k p j r Hwf HP Ht0 Hz Hr Hfree) as [Hg Hnode]. fold t in Hg, Hnode.
  assert (Htt : take_block sb V r t = V t).
  { destruct (valid_parent _ _ _ _ _ HP) as (Hp&_&_). destruct (wf_node _ _ _ Hwf _ Hp Ht0) as [Htb Htbit]. fold t in Htb, Htbit.
    pose proof (bblock_meta sb Hl r ltac:(lia)). unfold take_block, set_bit. rewrite !fset_ne; [done|lia|]. intros ->. congruence. }
  rewrite Htt. wp_step. fs_step Hm. wp_step. fs_step Hm. apply wp_ret. set (V' := fset _ t _) in *. clearbody V'.
  assert (HA : pw (roots sb V I) (roots sb V' I)).
  { pose proof (only_roots sb V V' I I ip i Hl Ht Hh (only_refl _ _) (gr_meta _ _ _ _ _ _ Hg)) as HA.
    intros x. rewrite <- (HA x), fset_spec. case_decide; [|done]. subst. by apply roots_held. }
  rewrite HA in Hg, Hnode. exists V', I. split; [done|]. split; [|split; [done|lia]].
  split; [split; [apply (gr_wf _ _ _ _ _ _ Hg)|done]|done| |apply only_refl|by destruct (i_d (I ip))].
  by rewrite HA at 1.
Qed.
End step.

(** Below a missing table there is nothing. *)
Lemma node_below V AF k p q : node V AF (mkPos i k p) = 0 -> node V AF (mkPos i k (p ++ q)) = 0.
Proof using. unfold node. simpl. intros Hz. by rewrite walk_app, Hz, walk_zero. Qed.

Lemma map_post_below V I k p q s : map_post V I (mkPos i k p) 0 s -> map_post V I (mkPos i k (p ++ q)) 0 s.
Proof using.
  intros (V'&I'&Hs&Hm&Hr&Hz). exists V', I'. split; [done|]. split; [done|]. split; [|auto]. symmetry. by apply node_below.
Qed.

(** One more level: what was found so far is the table for the rest. *)
Lemma wp_level V I k p j rest Q s a :
  map_post V I (mkPos i k p) a s -> valid sb (mkPos i k (p ++ [j])) ->
  (map_post V I (mkPos i k (p ++ [j])) 0 s -> Q 0 s) ->
  (forall a' s', map_post V I (mkPos i k (p ++ [j])) a' s' -> wp E (rest a') Q s') ->
  wp E (if a =? 0 then mret 0 else (table_step a j true ≫= rest)) Q s.
Proof using All.
  intros Hp HP HQ Hrest. destruct (Z.eqb_spec a 0) as [->|Ha].
  - apply wp_ret, HQ. by apply map_post_below.
  - destruct Hp as (V1&I1&Hs&Hm&->&_). wp_step. eapply wp_mono; [apply (table_step_ok V1 I1); try done; apply Hm|].
    intros a' s' Ha'. apply Hrest. by eapply map_post_mono.
Qed.

(** The last level. *)
Lemma wp_last V I k p j s a :
  map_post V I (mkPos i k p) a s -> valid sb (mkPos i k (p ++ [j])) ->
  wp E (if a =? 0 then mret 0 else table_step a j true) (map_post V I (mkPos i k (p ++ [j]))) s.
Proof using All.
  intros Hp HP. destruct (Z.eqb_spec a 0) as [->|Ha].
  - apply wp_ret. by apply map_post_below.
  - destruct Hp as (V1&I1&Hs&Hm&->&_). eapply wp_mono; [apply (table_step_ok V1 I1); try done; apply Hm|].
    intros a' s' Ha'. by eapply map_post_mono.
Qed.

(** The block at file position [bn], allocated with the tables on the way to
    it if it was missing. *)
Lemma bmap_ok V I bn s : fok sb V I -> held I ip i -> moves s0 V I s -> 0 <= bn < XV6FS_MAXFILE ->
  wp E (bmap ip bn) (map_post V I (fp i bn)) s.
Proof using All.
  intros Hf Hh Hm Hbn. pose proof (held_inum _ _ _ _ (fk_table _ _ _ Hf) Hh) as Hi.
  destruct (fp_valid sb i bn Hi Hbn) as [HP _]. unfold bmap, bmap_lookup. unfold fp, fpos in *. unfold XV6FS_MAXFILE in Hbn.
  destruct (Z.ltb_spec bn XV6FS_NDIRECT).
  { apply (root_step_ok V I); [done|done|done|]. change XV6FS_NDIRECT with 9 in *. simpl. lia. }
  cbv zeta in *. pose proof (root_step_ok V I Hf Hh) as Hroot. change XV6FS_NDIRECT with 9 in *.
  destruct (Z.ltb_spec (bn - 9) XV6FS_NINDIRECT);
    [|destruct (Z.ltb_spec (bn - 9 - XV6FS_NINDIRECT) XV6FS_NDINDIRECT);
      [|destruct (Z.ltb_spec (bn - 9 - XV6FS_NINDIRECT - XV6FS_NDINDIRECT) XV6FS_NTINDIRECT); [|lia]]].
  all: cbn [fst snd] in *; wp_step; eapply wp_mono; [apply Hroot; [done|lia]|]; clear Hroot; intros a1 s1 Hp1.
  - eapply (wp_last V I _ []); [exact Hp1|exact HP].
  - destruct (valid_parent _ _ _ [_] _ HP) as (HP1&_&_).
    eapply (wp_level V I _ [] _ _ _ s1 a1); [exact Hp1|exact HP1|intros; by apply (map_post_below _ _ _ [_] [_])|].
    intros a2 s2 Hp2. eapply (wp_last V I _ [_]); [exact Hp2|exact HP].
  - destruct (valid_parent _ _ _ [_; _] _ HP) as (HP2&_&_). destruct (valid_parent _ _ _ [_] _ HP2) as (HP1&_&_).
    eapply (wp_level V I _ [] _ _ _ s1 a1); [exact Hp1|exact HP1|intros; by apply (map_post_below _ _ _ [_] [_; _])|].
    intros a2 s2 Hp2.
    eapply (wp_level V I _ [_] _ _ _ s2 a2); [exact Hp2|exact HP2|intros; by apply (map_post_below _ _ _ [_; _] [_])|].
    intros a3 s3 Hp3. eapply (wp_last V I _ [_; _]); [exact Hp3|exact HP].
Qed.
End alloc.
