(* ===== verification/FsFile.v ===== *)
(** * Reading and writing files

    What a file contains is [fbyte]; the theorems say that [xv6fs_readi]
    returns it, through the cache or in runs of consecutive blocks past it,
    and that [xv6fs_writei] changes it at the offsets written and nowhere
    else, in this file and in every other. *)
From S2P Require Import Prelude State Bytes Log Xv6fs FsState FsTree FsMap.

(** ** The inode on the disk *)

Lemma zlen_cons {A} (x : A) l : zlen (x :: l) = 1 + zlen l.
Proof. unfold zlen. cbn [length]. lia. Qed.

Lemma zget_fmap_seqZ (f : Z -> Z) n j : 0 <= j < n -> zget (f <$> seqZ 0 n) j = f j.
Proof.
  intros Hj. unfold zget. rewrite list_lookup_total_alt, list_lookup_fmap, lookup_seqZ_lt by lia. simpl. f_equal. lia.
Qed.

Lemma zlen_fmap_seqZ {A} (f : Z -> A) n : 0 <= n -> zlen (f <$> seqZ 0 n) = n.
Proof. intros. unfold zlen. rewrite length_fmap, length_seqZ. lia. Qed.

Lemma zlen_put32 (e : block) off a : 0 <= off -> off + 4 <= zlen e -> zlen (put32 e off a) = zlen e.
Proof. intros. apply zlen_putn; lia. Qed.

Lemma zlen_put_addrs l (e : block) off : 0 <= off -> off + 4 * zlen l <= zlen e -> zlen (put_addrs e off l) = zlen e.
Proof.
  revert e off. induction l as [|a l IH]; intros e off H0 H1; [done|]. rewrite zlen_cons in H1. pose proof (zlen_nonneg l).
  simpl. rewrite IH; rewrite ?zlen_put32; lia.
Qed.

Lemma put_addrs_bytes l (e : block) off : Forall byte_ok e -> Forall byte_ok (put_addrs e off l).
Proof. revert e off. induction l as [|a l IH]; intros e off He; [done|]. simpl. apply IH. by apply putn_bytes. Qed.

Lemma getn_put_addrs k l (e : block) off o :
  0 <= off -> off + 4 * zlen l <= zlen e -> 0 <= o -> o + Z.of_nat k <= zlen e ->
  o + Z.of_nat k <= off \/ off + 4 * zlen l <= o -> getn k (put_addrs e off l) o = getn k e o.
Proof.
  revert e off. induction l as [|a l IH]; intros e off H0 H1 H2 H3 H4; [done|]. rewrite zlen_cons in H1, H4.
  pose proof (zlen_nonneg l). simpl. rewrite IH; rewrite ?zlen_put32; try lia. apply getn_putn_other; lia.
Qed.

Lemma get32_put_addrs l (e : block) off j :
  Forall (fun a => 0 <= a < 2 ^ 32) l -> 0 <= off -> off + 4 * zlen l <= zlen e -> 0 <= j < zlen l ->
  get32 (put_addrs e off l) (off + 4 * j) = zget l j.
Proof.
  revert e off j. induction l as [|a l IH]; intros e off j Hl H0 H1 Hj; [unfold zlen in Hj; simpl in Hj; lia|].
  apply Forall_cons_1 in Hl as [Ha Hl]. rewrite zlen_cons in H1, Hj. pose proof (zlen_nonneg l).
  simpl. destruct (decide (j = 0)) as [->|Hj0].
  - replace (off + 4 * 0) with off by lia. unfold get32. rewrite getn_put_addrs; rewrite ?zlen_put32; try lia.
    apply getn_putn_same; [lia|lia|done].
  - replace (off + 4 * j) with (off + 4 + 4 * (j - 1)) by lia.
    rewrite IH; [|done|lia|rewrite zlen_put32; lia|lia].
    unfold zget. by replace (Z.to_nat j) with (S (Z.to_nat (j - 1))) by lia.
Qed.

Section codec.
Context (d : block) (Hd : blk_ok d) (off : Z) (Hoff : 0 <= off) (Hend : off + 64 <= BSIZE) (di : dinode) (Hdi : di_ok di).

(** The first part of the inode, before the block numbers. *)
Definition put_fixed : block :=
  let d := put16 (put16 (put16 (put16 d off (u16 di.(di_type))) (off + 2) (u16 di.(di_major)))
             (off + 4) (u16 di.(di_minor))) (off + 6) (u16 di.(di_nlink)) in
  put32 (put32 d (off + 8) di.(di_size)) (off + 12) di.(di_mtime).

Ltac widths := change (Z.of_nat 2) with 2; change (Z.of_nat 4) with 4.
Ltac lens := repeat (rewrite zlen_putn; widths); lia.

Lemma zlen_d : zlen d = 1024.
Proof using Hd. apply Hd. Qed.

Lemma zlen_fixed : zlen put_fixed = 1024.
Proof using Hd Hoff Hend. pose proof zlen_d. change BSIZE with 1024 in Hend. unfold put_fixed, put16, put32. lens. Qed.

Lemma getn_fixed_other k o : 0 <= o -> o + Z.of_nat k <= 1024 -> o + Z.of_nat k <= off \/ off + 16 <= o ->
  getn k put_fixed o = getn k d o.
Proof using Hd Hoff Hend.
  intros H0 H1 H2. pose proof zlen_d. change BSIZE with 1024 in Hend. unfold put_fixed, put16, put32.
  repeat (rewrite getn_putn_other; [|widths; lens..]). done.
Qed.

Lemma s16_u16 x : - 2 ^ 15 <= x < 2 ^ 15 -> s16 (u16 x) = x.
Proof using.
  intros Hx. unfold s16, u16. rewrite Z.add_mod_idemp_l by done. rewrite Z.mod_small by lia. lia.
Qed.

Lemma fixed_fields :
  s16 (get16 put_fixed off) = di.(di_type) /\ s16 (get16 put_fixed (off + 2)) = di.(di_major) /\
  s16 (get16 put_fixed (off + 4)) = di.(di_minor) /\ s16 (get16 put_fixed (off + 6)) = di.(di_nlink) /\
  get32 put_fixed (off + 8) = di.(di_size) /\ get32 put_fixed (off + 12) = di.(di_mtime).
Proof using Hd Hoff Hend Hdi.
  destruct Hdi as [H1 H2 H3 H4 H5 H6 _ _]. pose proof zlen_d. change BSIZE with 1024 in Hend.
  unfold put_fixed, put16, put32, get16, get32.
  repeat split; repeat (rewrite getn_putn_other; [|widths; lens..]);
    (rewrite getn_putn_same; [|try by widths; lens..]); rewrite ?s16_u16; try done; apply u16_range.
Qed.

Lemma put_dinode_fixed : put_dinode d off di = put_addrs put_fixed (off + 16) di.(di_addrs).
Proof using. done. Qed.

Lemma addrs_fit : off + 16 + 4 * zlen di.(di_addrs) <= 1024.
Proof using Hend Hdi. rewrite (dk_len _ Hdi). change BSIZE with 1024 in Hend. change XV6FS_NDIRECT with 9. lia. Qed.

Lemma put_dinode_ok : blk_ok (put_dinode d off di).
Proof using Hd Hoff Hend Hdi.
  pose proof addrs_fit. rewrite put_dinode_fixed. split.
  - rewrite zlen_put_addrs; [apply zlen_fixed|lia|]. rewrite zlen_fixed. lia.
  - apply put_addrs_bytes. unfold put_fixed. repeat apply putn_bytes. apply Hd.
Qed.

(** What was stored is read back. *)
Lemma get_put_dinode : get_dinode (put_dinode d off di) off = di.
Proof using Hd Hoff Hend Hdi.
  pose proof addrs_fit as Hfit. pose proof zlen_fixed as Hlen. pose proof fixed_fields as (H1&H2&H3&H4&H5&H6).
  change BSIZE with 1024 in Hend. rewrite put_dinode_fixed. unfold get_dinode, get16, get32 in *.
  rewrite !getn_put_addrs by (rewrite ?Hlen; lia). rewrite H1, H2, H3, H4, H5, H6.
  replace (_ <$> seqZ 0 12) with (di_addrs di); [by destruct di|]. pose proof (dk_len _ Hdi) as Hl. apply zlist_ext.
  - rewrite Hl. done.
  - intros j Hj. change XV6FS_NDIRECT with 9 in Hl. rewrite zget_fmap_seqZ by lia. symmetry.
    apply get32_put_addrs; [apply Hdi|lia|lia|done].
Qed.

Lemma get_put_dinode_other off' : 0 <= off' -> off' + 64 <= BSIZE -> off' + 64 <= off \/ off + 64 <= off' ->
  get_dinode (put_dinode d off di) off' = get_dinode d off'.
Proof using Hd Hoff Hend Hdi.
  intros H0 H1 H2. pose proof addrs_fit as Hfit. pose proof zlen_fixed as Hlen.
  pose proof (dk_len _ Hdi) as Hl. change BSIZE with 1024 in *. change XV6FS_NDIRECT with 9 in Hl.
  assert (Hg : forall k o, off' <= o -> o + Z.of_nat k <= off' + 64 -> getn k (put_dinode d off di) o = getn k d o).
  { intros k o Ho1 Ho2. rewrite put_dinode_fixed, getn_put_addrs by (rewrite ?Hlen; lia). apply getn_fixed_other; lia. }
  unfold get_dinode, get16, get32. rewrite !Hg by lia. f_equal. apply list_fmap_ext. intros ? k [-> Hk]%lookup_seqZ. apply Hg; lia.
Qed.
End codec.

(** ** Storing the inode *)

Lemma blk_put_dinode V i sb di : blocks_ok V -> di_ok di ->
  blk_ok (put_dinode (V (XV6FS_IBLOCK i sb)) (64 * (i mod XV6FS_IPB)) di).
Proof. intros HV Hdi. destruct (iblock_off i). by apply put_dinode_ok. Qed.

(** The inode block of [i] gets [di]. *)
Definition store_inode (sb : superblock) (V : Z -> block) (i : Z) (di : dinode) : Z -> block :=
  fset V (XV6FS_IBLOCK i sb) (put_dinode (V (XV6FS_IBLOCK i sb)) (64 * (i mod XV6FS_IPB)) di).

Section store.
Context (sb : superblock) (Hl : layout sb) (V : Z -> block) (HV : blocks_ok V).
Context (i : Z) (Hi : 0 <= i < sb.(sb_ninodes)) (di : dinode) (Hdi : di_ok di).

Lemma disk_inode_store : disk_inode sb (store_inode sb V i di) i = di.
Proof using HV Hdi.
  unfold disk_inode, store_inode. rewrite fset_eq. destruct (iblock_off i). by apply get_put_dinode.
Qed.

Lemma disk_inode_store_other j : 0 <= j < sb.(sb_ninodes) -> j <> i ->
  disk_inode sb (store_inode sb V i di) j = disk_inode sb V j.
Proof using Hl HV Hi Hdi.
  intros Hj Hne. unfold disk_inode, store_inode. rewrite fset_spec. case_decide as He; [|done].
  rewrite He. destruct (iblock_off i), (iblock_off j). apply get_put_dinode_other; try done.
  rewrite !(iblock_val sb Hl) in He by done. change XV6FS_IPB with 16 in *.
  pose proof (Z.div_mod i 16). pose proof (Z.div_mod j 16). lia.
Qed.

Lemma store_inode_ok : blocks_ok (store_inode sb V i di).
Proof using HV Hdi. apply fset_blocks_ok; [done|]. by apply blk_put_dinode. Qed.

Lemma store_inode_same x : sb.(sb_bmapstart) <= x -> store_inode sb V i di x = V x.
Proof using Hl Hi. intros Hx. pose proof (iblock_meta sb Hl i Hi). apply fset_ne. lia. Qed.
End store.

(** ** Writing a data block *)

Section data.
Context (sb : superblock) (V : Z -> block) (AF : Z -> list Z) (Hwf : wf sb V AF).

(** Only the tables lead to nodes. *)
Lemma node_ext_inner V' P :
  (forall Q, valid sb Q -> (length Q.(p_path) < depth Q.(p_root))%nat -> node V AF Q <> 0 -> V' (node V AF Q) = V (node V AF Q)) ->
  valid sb P -> node V' AF P = node V AF P.
Proof using.
  intros HV. destruct P as [i k q]. induction q as [|j q IH] using rev_ind; intros HP; [done|].
  destruct (valid_parent _ _ _ _ _ HP) as (HP'&_&Hlt). rewrite !node_snoc, IH by done.
  destruct (Z.eqb_spec (node V AF (mkPos i k q)) 0) as [|Hne]; [done|]. unfold tbl. by rewrite HV.
Qed.

Lemma wf_same V' : blocks_ok V' ->
  (forall b, 0 <= b < sb.(sb_size) -> bit sb V' b = bit sb V b) ->
  (forall P, valid sb P -> node V' AF P = node V AF P) -> wf sb V' AF.
Proof using Hwf.
  intros HV' Hbit Hnode. pose proof (layout_order sb (wf_layout _ _ _ Hwf)). destruct Hwf as [Hl Hb Hm Ha Hn Hi Hu].
  split; try done.
  - intros b Hb'. rewrite Hbit by lia. by apply Hm.
  - intros P HP. rewrite Hnode by done. intros Hne. destruct (Hn P HP Hne). rewrite Hbit by lia. done.
  - intros P P' HP HP'. rewrite !Hnode by done. by apply Hi.
  - intros b Hb'. rewrite Hbit by lia. intros (P&HP&<-)%Hu; [|done]. exists P. by rewrite Hnode.
Qed.

(** Only blocks below the bitmap change. *)
Lemma wf_meta_write V' : blocks_ok V' -> (forall x, sb.(sb_bmapstart) <= x -> V' x = V x) ->
  wf sb V' AF /\ (forall P, valid sb P -> node V' AF P = node V AF P) /\
  (forall i off, 0 <= i < sb.(sb_ninodes) -> 0 <= off < XV6FS_MAXFILE * BSIZE -> fbyte V' AF i off = fbyte V AF i off).
Proof using Hwf.
  intros HV' Hsame. pose proof (wf_layout _ _ _ Hwf) as Hl. pose proof (layout_order sb Hl).
  assert (Hnode : forall P, valid sb P -> node V' AF P = node V AF P).
  { intros P HP. apply node_ext_inner; [|done]. intros Q HQ _ Hne. pose proof (node_bound sb V AF Hwf Q HQ Hne). apply Hsame. lia. }
  split; [apply wf_same; [done| |done]; intros b Hb; apply bit_ext; [done|done|]; intros x Hx; apply Hsame; lia|].
  split; [done|]. intros i off Hi Hoff. unfold fbyte.
  pose proof (off_block off Hoff) as Hbn.
  destruct (fp_valid sb i (off / BSIZE) Hi Hbn) as [HP _]. rewrite Hnode by done.
  destruct (Z.eqb_spec (node V AF (fp i (off / BSIZE))) 0) as [|Hne]; [done|].
  rewrite Hsame; [done|]. pose proof (node_bound sb V AF Hwf _ HP Hne). lia.
Qed.

Context (i bn : Z) (Hi : 0 <= i < sb.(sb_ninodes)) (Hbn : 0 <= bn < XV6FS_MAXFILE) (d : block) (Hd : blk_ok d).
Let x : Z := node V AF (fp i bn).
Hypothesis Hx : x <> 0.

(** Block [bn] of inode [i] gets the contents [d]. *)
Lemma data_write :
  wf sb (fset V x d) AF /\ (forall P, valid sb P -> node (fset V x d) AF P = node V AF P) /\
  forall i' off, 0 <= i' < sb.(sb_ninodes) -> 0 <= off < XV6FS_MAXFILE * BSIZE ->
    fbyte (fset V x d) AF i' off = if decide (i' = i /\ off / BSIZE = bn) then zget d (off mod BSIZE) else fbyte V AF i' off.
Proof using All.
  pose proof (wf_layout _ _ _ Hwf) as Hl. pose proof (layout_order sb Hl).
  destruct (fp_valid sb i bn Hi Hbn) as [HP HPl]. pose proof (node_bound sb V AF Hwf _ HP Hx) as Hxb. fold x in Hxb.
  assert (Hnode : forall P, valid sb P -> node (fset V x d) AF P = node V AF P).
  { intros P HP'. apply node_ext_inner; [|done]. intros Q HQ Hlt Hne. apply fset_ne. intros He.
    assert (Q = fp i bn) as -> by by apply (wf_inj _ _ _ Hwf). unfold leaf in HPl. lia. }
  split; [apply wf_same; [apply fset_blocks_ok; [apply (wf_blocks _ _ _ Hwf)|done]| |done]|split; [done|]].
  { intros b Hb. apply bit_ext; [done|done|]. intros y Hy. apply fset_ne. lia. }
  intros i' off Hi' Hoff.
  pose proof (off_block off Hoff) as Hbn'.
  destruct (fp_valid sb i' (off / BSIZE) Hi' Hbn') as [HP' _]. unfold fbyte. rewrite Hnode by done.
  case_decide as Hc.
  - destruct Hc as [-> ->]. fold x. rewrite fset_eq. by destruct (Z.eqb_spec x 0).
  - destruct (Z.eqb_spec (node V AF (fp i' (off / BSIZE))) 0) as [|Hne]; [done|]. rewrite fset_ne; [done|].
    intros He. apply Hc. apply fp_inj; [done|done|]. by apply (wf_inj _ _ _ Hwf).
Qed.
End data.

(** ** Reading *)

Lemma zget_app (l1 l2 : list Z) j : 0 <= j ->
  zget (l1 ++ l2) j = if decide (j < zlen l1) then zget l1 j else zget l2 (j - zlen l1).
Proof.
  intros Hj. unfold zget, zlen. rewrite !list_lookup_total_alt. case_decide.
  - by rewrite lookup_app_l by lia.
  - rewrite lookup_app_r by lia. do 2 f_equal. lia.
Qed.

Lemma same_block off j : 0 <= j -> off mod BSIZE + j < BSIZE ->
  (off + j) / BSIZE = off / BSIZE /\ (off + j) mod BSIZE = off mod BSIZE + j.
Proof.
  change BSIZE with 1024. intros Hj Hlt. pose proof (Z.mod_pos_bound off 1024). pose proof (Z.div_mod off 1024).
  pose proof (Z.div_mod (off + j) 1024). pose proof (Z.mod_pos_bound (off + j) 1024). nia.
Qed.

(** [d] is the contents of [n] consecutive blocks from [addr]. *)
Definition is_run (V : Z -> block) (addr n : Z) (d : list Z) : Prop :=
  zlen d = n * BSIZE /\ forall x, 0 <= x < n * BSIZE -> zget d x = zget (V (addr + x / BSIZE)) (x mod BSIZE).

Lemma is_run_nil V addr : is_run V addr 0 [].
Proof. split; [done|]. intros x Hx. lia. Qed.

Lemma is_run_cons V addr n d : blocks_ok V -> 0 <= n -> is_run V (addr + 1) n d -> is_run V addr (1 + n) (V addr ++ d).
Proof.
  intros HV Hn [Hlen Hget]. destruct (HV addr) as [Hb _]. unfold is_run. change BSIZE with 1024 in *. split.
  - rewrite zlen_app. lia.
  - intros x Hx. rewrite zget_app by lia. rewrite Hb. case_decide.
    + rewrite Z.div_small, Z.mod_small by lia. by rewrite Z.add_0_r.
    + rewrite Hget by lia. replace x with (x - 1024 + 1 * 1024) at 3 4 by lia.
      rewrite Z.div_add, Z.mod_add by lia. do 2 f_equal. lia.
Qed.

Definition run_bufs (V : Z -> block) (addr n : Z) : list block := (fun i => V (addr + i)) <$> seqZ 0 n.

Lemma is_run_concat V addr n : blocks_ok V -> 0 <= n -> is_run V addr n (concat (run_bufs V addr n)).
Proof.
  intros HV Hn. unfold run_bufs. revert addr. rewrite <- (Z2Nat.id n) by lia. generalize (Z.to_nat n). clear n Hn.
  intros n. induction n as [|n IH]; intros addr; [apply is_run_nil|].
  replace (Z.of_nat (S n)) with (1 + Z.of_nat n) by lia. rewrite seqZ_cons by lia. cbn [fmap list_fmap concat].
  rewrite Z.add_0_r. apply is_run_cons; [done|lia|]. replace (Z.pred (1 + Z.of_nat n)) with (Z.of_nat n) by lia.
  replace (_ <$> _) with ((fun i => V (addr + 1 + i)) <$> seqZ 0 (Z.of_nat n)); [apply IH|].
  change (Z.succ 0) with (1 + 0). rewrite <- fmap_add_seqZ, <- list_fmap_compose. apply list_fmap_ext.
  intros _ k _. simpl. f_equal. lia.
Qed.

Section read.
Context (E : panic -> Prop) (s0 : fsst) (V : Z -> block) (I : Z -> inode) (HV : blocks_ok V).

Lemma read_run_ok n addr s : moves s0 V I s -> 0 <= addr -> addr + Z.of_nat n <= 2 ^ 32 ->
  wp E (read_run n addr) (fun d s' => is_run V addr (Z.of_nat n) d /\ moves s0 V I s') s.
Proof using HV.
  revert addr s. induction n as [|n IH]; intros addr s Hm H0 H1; cbn [read_run].
  - apply wp_ret. split; [apply is_run_nil|done].
  - wp_step. fs_step Hm. wp_step. rewrite Nat2Z.inj_succ in *. destruct n as [|n].
    { apply wp_ret. apply wp_ret. split; [|done]. apply (is_run_cons V addr 0); [done|lia|apply is_run_nil]. }
    rewrite u32_small by lia. eapply wp_mono; [apply IH; [exact Hm|lia|lia]|]. intros d s2 [Hd Hm2]. apply wp_ret.
    split; [|done]. replace (Z.succ (Z.of_nat (S n))) with (1 + Z.of_nat (S n)) by lia. apply is_run_cons; done || lia.
Qed.

(** A run read past the cache is what the cache would have given. *)
Lemma run_read_ok addr n s : moves s0 V I s -> 0 < n -> 0 <= addr -> addr + n <= 2 ^ 32 ->
  xv6bio_range_cached s.(f_log) addr n = false ->
  wp E (onlog (xv6bio_rw_run_read addr n)) (fun r s' => (r = None \/ r = Some (run_bufs V addr n)) /\ moves s0 V I s') s.
Proof using.
  intros Hm Hn H0 H1 Hc. unfold onlog, xv6bio_rw_run_read, next_answer.
  rewrite (proj2 (Z.eqb_neq n 0)) by lia. wp_steps.
  assert (Hb : (fun i => disk (f_log s) (addr + i)) <$> seqZ 0 n = run_bufs V addr n).
  { apply list_fmap_ext. intros ? i [-> Hi]%lookup_seqZ. rewrite <- (mv_view _ _ _ _ Hm). unfold fv, view.
    destruct (cache (f_log s) !! (addr + (0 + Z.of_nat i0))) eqn:He; [|done]. exfalso.
    unfold xv6bio_range_cached in Hc. apply not_true_iff_false in Hc. apply Hc, existsb_exists.
    exists (0 + Z.of_nat i0). split; [apply list_elem_of_In, elem_of_seqZ; lia|].
    rewrite u32_small by lia. apply bool_decide_eq_true. by rewrite He. }
  destruct (oracle (f_log s)) as [|[a|] o] eqn:Ho; wp_steps.
  - split; [right; by rewrite <- Hb|by destruct Hm; split].
  - split; [by left|by destruct Hm; split].
  - split; [right; by rewrite <- Hb|by destruct Hm; split].
Qed.

Lemma fill_cache_ok addr n s : moves s0 V I s -> 0 <= n -> 0 <= addr -> addr + n <= 2 ^ 32 ->
  wp E (onlog (xv6bio_fill_cache addr (run_bufs V addr n))) (fun _ s' => moves s0 V I s') s.
Proof using.
  intros Hm Hn H0 H1. unfold onlog, xv6bio_fill_cache. apply wp_lift.
  assert (Hlen : length (run_bufs V addr n) = Z.to_nat n) by (unfold run_bufs; by rewrite length_fmap, length_seqZ).
  rewrite Hlen.
  eapply wp_mono; [apply (wp_for E (fun _ l => moves s0 V I (with_log s l)))|simpl; auto].
  { by destruct Hm; split. }
  intros j l Hj Hml. wp_steps. destruct (cache l !! _) as [x|] eqn:He; [by wp_steps|]. unfold bstore. wp_steps.
  pose proof (mv_view _ _ _ _ Hml) as Hv. destruct Hml. split; try done.
  intros b. unfold fv, view. simpl. destruct (decide (b = u32 (addr + j))) as [->|Hne].
  - rewrite lookup_insert_eq. simpl. rewrite u32_small by lia. unfold run_bufs, zget.
    rewrite list_lookup_total_alt, list_lookup_fmap, lookup_seqZ_lt by lia. simpl. do 2 f_equal. lia.
  - rewrite lookup_insert_ne by done. apply Hv.
Qed.

Context (ip : Z).
Let A : list Z := (I ip).(i_d).(di_addrs).
(** The block of the file at position [bn]. *)
Definition fblock (bn : Z) : Z := walk V (zget A (fpos bn).1) (fpos bn).2.
Definition rbyte (off : Z) : Z := if fblock (off / BSIZE) =? 0 then 0 else zget (V (fblock (off / BSIZE))) (off mod BSIZE).
Hypothesis Haddr : forall bn, 0 <= bn < XV6FS_MAXFILE -> fblock bn <> 0 -> 0 < fblock bn < 2 ^ 32 - 1.

Lemma count_run_ok fuel fb addr run maxrun s :
  moves s0 V I s -> 0 <= fb -> fb + maxrun <= XV6FS_MAXFILE -> 1 <= run <= maxrun ->
  (forall j, 0 <= j < run -> fblock (fb + j) = addr + j) -> 0 < addr -> addr + run < 2 ^ 32 ->
  wp E (count_run fuel ip fb addr run maxrun)
    (fun r s' => (1 <= r <= maxrun /\ addr + r < 2 ^ 32 /\ forall j, 0 <= j < r -> fblock (fb + j) = addr + j) /\ moves s0 V I s') s.
Proof using Haddr.
  revert run s. induction fuel as [|fuel IH]; intros run s Hm Hfb Hmax Hrun Hj Ha Hb; cbn [count_run].
  { by apply wp_ret. }
  destruct (Z.ltb_spec run maxrun); [|by apply wp_ret]. wp_step.
  eapply wp_mono; [apply bmap_lookup_read; [|exact Hm]; lia|]. simpl. intros a s1 [-> Hm1]. fold A.
  change (walk V (zget A (fpos (fb + run)).1) (fpos (fb + run)).2) with (fblock (fb + run)).
  rewrite u32_small by lia. destruct (Z.eqb_spec (fblock (fb + run)) (addr + run)) as [He|]; [|by apply wp_ret].
  pose proof (Haddr (fb + run) ltac:(lia) ltac:(lia)).
  apply IH; try done; [lia| |lia]. intros j Hj'. destruct (decide (j = run)) as [->|]; [done|]. apply Hj. lia.
Qed.

(** A chunk of the file. *)
Definition is_chunk (off n : Z) (l : list Z) : Prop := zlen l = n /\ forall j, 0 <= j < n -> zget l j = rbyte (off + j).

Lemma is_chunk_app off n m l l' : is_chunk off n l -> is_chunk (off + n) m l' -> is_chunk off (n + m) (l ++ l').
Proof using.
  intros [Hl Hg] [Hl' Hg']. split; [rewrite zlen_app; lia|]. intros j Hj. rewrite zget_app by lia. rewrite Hl. case_decide.
  - apply Hg. lia.
  - rewrite Hg' by lia. f_equal. lia.
Qed.

Lemma is_chunk_run fb addr n l : 0 <= fb -> 0 < addr -> is_run V addr n l ->
  (forall j, 0 <= j < n -> fblock (fb + j) = addr + j) -> is_chunk (fb * BSIZE) (n * BSIZE) l.
Proof using.
  intros Hfb Ha [Hl Hg] Hb. split; [done|]. intros j Hj. rewrite Hg by done. unfold rbyte. change BSIZE with 1024 in *.
  replace (fb * 1024 + j) with (j + fb * 1024) by lia. rewrite Z.div_add, Z.mod_add by lia.
  pose proof (Z.div_pos j 1024). pose proof (Z.div_lt_upper_bound j 1024 n). rewrite (Z.add_comm (j / 1024)), Hb by lia.
  by rewrite (proj2 (Z.eqb_neq (addr + j / 1024) 0)) by lia.
Qed.

Lemma readi_run_ok off left s : moves s0 V I s ->
  0 <= off -> off mod BSIZE = 0 -> BSIZE <= left -> off + left <= XV6FS_MAXFILE * BSIZE -> fblock (off / BSIZE) <> 0 ->
  wp E (readi_run ip (fblock (off / BSIZE)) off left)
    (fun r s' => match r with
                 | None => True
                 | Some l => exists n, 0 < n /\ n * BSIZE <= left /\ is_chunk off (n * BSIZE) l
                 end /\ moves s0 V I s') s.
Proof using HV Haddr.
  intros Hm H0 Hz Hleft Hend Hne. set (fb := off / BSIZE) in *.
  assert (Hoff : off = fb * BSIZE) by (unfold fb; rewrite (Z.div_mod off BSIZE) at 1 by done; lia).
  assert (Hfb : 0 <= fb) by (unfold fb; apply Z.div_pos; [lia|done]).
  assert (Hmax : 1 <= left / BSIZE /\ left / BSIZE * BSIZE <= left).
  { change BSIZE with 1024 in *. pose proof (Z.div_mod left 1024). pose proof (Z.mod_pos_bound left 1024). lia. }
  pose proof (Haddr fb ltac:(change BSIZE with 1024 in *; lia) Hne) as Ha.
  unfold readi_run. fold fb. wp_step.
  eapply wp_mono; [apply count_run_ok; [exact Hm|lia|change BSIZE with 1024 in *; lia|lia| |lia|lia]|].
  { intros j Hj. replace j with 0 by lia. by rewrite !Z.add_0_r. }
  clear Hm. intros run s1 [(Hr&Hb&Hj) Hm]. destruct (Z.leb_spec run 1); [by apply wp_ret|].
  assert (Hchunk : forall l, is_run V (fblock fb) run l -> exists n, 0 < n /\ n * BSIZE <= left /\ is_chunk off (n * BSIZE) l).
  { intros l Hl. exists run. split; [lia|]. split; [change BSIZE with 1024 in *; lia|]. rewrite Hoff.
    eapply is_chunk_run; [done| |exact Hl|done]. lia. }
  wp_step. wp_step. wp_step.
  apply (wp_mono E _ (fun r s' => (r = None \/ r = Some (run_bufs V (fblock fb) run)) /\ moves s0 V I s')).
  { destruct (xv6bio_range_cached _ _ _) eqn:Hc; [by apply wp_ret; auto|]. apply run_read_ok; done || lia. }
  clear Hm. intros r s2 [[->| ->] Hm].
  - wp_step. eapply wp_mono; [apply read_run_ok; [exact Hm|lia|lia]|]. intros l s3 [Hl Hm3]. apply wp_ret. split; [|done].
    apply Hchunk. by rewrite Z2Nat.id in Hl by lia.
  - wp_step. eapply wp_mono; [apply fill_cache_ok; [exact Hm|lia|lia|lia]|]. intros [] s3 Hm3. apply wp_ret. split; [|done].
    apply Hchunk, is_run_concat; [done|lia].
Qed.

(** The bytes of the part of a block. *)
Lemma is_chunk_part off m : 0 <= off -> 0 <= m -> off mod BSIZE + m <= BSIZE -> fblock (off / BSIZE) <> 0 ->
  is_chunk off m (slice (V (fblock (off / BSIZE))) (off mod BSIZE) m).
Proof using HV.
  intros H0 Hm Hle Hne. destruct (HV (fblock (off / BSIZE))) as [Hb _].
  pose proof (Z.mod_pos_bound off BSIZE ltac:(done)) as Hmod. split; [apply zlen_slice; lia|].
  intros j Hj. rewrite zget_slice by lia. unfold rbyte. destruct (same_block off j) as [-> ->]; [lia..|].
  by rewrite (proj2 (Z.eqb_neq _ _) Hne).
Qed.

Lemma is_chunk_hole off m : 0 <= off -> 0 <= m -> off mod BSIZE + m <= BSIZE -> fblock (off / BSIZE) = 0 ->
  is_chunk off m (replicate (Z.to_nat m) 0).
Proof using.
  intros H0 Hm Hle Hz. pose proof (Z.mod_pos_bound off BSIZE ltac:(done)) as Hmod. split; [unfold zlen; rewrite length_replicate; lia|].
  intros j Hj. rewrite zget_replicate by lia. unfold rbyte. destruct (same_block off j) as [-> _]; [lia..|]. by rewrite Hz.
Qed.

(** One turn of the loop: a chunk that ends at a block boundary or at the end. *)
Lemma chunk_ok off left s (Q : list Z -> fsst -> Prop) :
  moves s0 V I s -> 0 <= off -> 0 < left -> off + left <= XV6FS_MAXFILE * BSIZE ->
  (forall n l s', 0 < n <= left -> n = left \/ (off + n) mod BSIZE = 0 -> is_chunk off n l -> moves s0 V I s' -> Q l s') ->
  let addr := fblock (off / BSIZE) in
  let m := Z.min left (BSIZE - off mod BSIZE) in
  wp E (if addr =? 0 then mret (replicate (Z.to_nat m) 0) else
        r ← (if (off mod BSIZE =? 0) && (BSIZE <=? left) then readi_run ip addr off left else mret None);
        match r with
        | Some d => mret d
        | None => d ← bread addr; mret (slice d (off mod BSIZE) m)
        end) Q s.
Proof using HV Haddr.
  intros Hm H0 Hl Hend HQ addr m. pose proof (Z.mod_pos_bound off BSIZE ltac:(done)) as Hmod.
  assert (Hpart : 0 < m <= left /\ off mod BSIZE + m <= BSIZE /\ (m = left \/ (off + m) mod BSIZE = 0)).
  { split; [lia|]. split; [lia|]. destruct (decide (m = left)); [by left|right]. assert (m = BSIZE - off mod BSIZE) as -> by lia.
    replace (off + (BSIZE - off mod BSIZE)) with ((off / BSIZE + 1) * BSIZE); [by apply Z.mod_mul|].
    rewrite (Z.div_mod off BSIZE) at 2 by done. lia. }
  destruct Hpart as (Hm1&Hm2&Hm3). destruct (Z.eqb_spec addr 0) as [Hz|Hne].
  { apply wp_ret. eapply HQ; [exact Hm1|done|apply is_chunk_hole; done || lia|done]. }
  wp_step.
  apply (wp_mono E _ (fun r s' => match r with
                                  | None => True
                                  | Some l => exists n, 0 < n /\ n * BSIZE <= left /\ is_chunk off (n * BSIZE) l /\ off mod BSIZE = 0
                                  end /\ moves s0 V I s')).
  { destruct ((off mod BSIZE =? 0) && (BSIZE <=? left)) eqn:Hc; [|by apply wp_ret].
    apply andb_prop in Hc as [Hz%Z.eqb_eq Hle%Z.leb_le].
    eapply wp_mono; [apply readi_run_ok; done|]. intros [l|] s1 [Hr Hm']; [|done]. destruct Hr as (n&?&?&?). eauto 10. }
  clear Hm s. intros [l|] s [Hr Hm].
  - destruct Hr as (n&Hn&Hnl&Hch&Hz). apply wp_ret. change BSIZE with 1024 in *. eapply HQ; [|right|exact Hch|exact Hm]; [lia|].
    by rewrite Z.mod_add, Hz by lia.
  - wp_step. fs_step Hm. apply wp_ret. eapply HQ; [exact Hm1|done|apply is_chunk_part; done || lia|done].
Qed.

Lemma readi_loop_ok fuel off left s :
  moves s0 V I s -> 0 <= off -> 0 <= left -> off + left <= XV6FS_MAXFILE * BSIZE ->
  left = 0 \/ off mod BSIZE + left <= Z.of_nat fuel * BSIZE ->
  wp E (readi_loop fuel ip off left) (fun l s' => is_chunk off left l /\ moves s0 V I s') s.
Proof using HV Haddr.
  revert off left s. induction fuel as [|fuel IH]; intros off left s Hm H0 Hl Hend Hf; cbn [readi_loop];
    pose proof (Z.mod_pos_bound off BSIZE ltac:(done)) as Hmod.
  { apply wp_ret. split; [|done]. split; [unfold zlen; simpl; lia|lia]. }
  destruct (Z.leb_spec left 0); [apply wp_ret; split; [split; [unfold zlen; simpl; lia|lia]|done]|].
  wp_step. eapply wp_mono; [apply bmap_lookup_read; [|exact Hm]; apply off_block; lia|]. simpl. clear Hm.
  intros a s1 [-> Hm]. fold A. change (walk V (zget A (fpos (off / BSIZE)).1) (fpos (off / BSIZE)).2) with (fblock (off / BSIZE)).
  wp_step. apply chunk_ok; [exact Hm|done|done|done|]. clear Hm. intros n l s2 Hn Hb Hch Hm.
  pose proof (proj1 Hch) as ->. wp_step. eapply wp_mono; [apply (IH (off + n) (left - n)); [exact Hm|lia|lia|lia|]|].
  - destruct (decide (left = n)); [left; lia|right]. destruct Hb as [|Hb]; [lia|]. rewrite Hb. destruct Hf as [|Hf]; [lia|].
    rewrite Nat2Z.inj_succ in Hf.
    assert (BSIZE <= off mod BSIZE + n); [|lia].
    destruct (decide (off mod BSIZE + n < BSIZE)) as [Hlt|]; [|lia]. destruct (same_block off n) as [_ Hs]; [lia|done|lia].
  - intros rest s3 [Hrest Hm3]. apply wp_ret. split; [|done]. replace left with (n + (left - n)) by lia. by apply is_chunk_app.
Qed.
End read.

(** What the file contains from [off], [n] bytes. *)
Definition file_slice (V : Z -> block) (AF : Z -> list Z) (i off n : Z) : list Z := (fun j => fbyte V AF i (off + j)) <$> seqZ 0 n.

(** How many bytes a read of [n] bytes at [off] delivers. *)
Definition readable (size off n : Z) : Z := if (size <? off) || (2 ^ 32 <=? off + n) then 0 else Z.min n (size - off).

Lemma wf_fblock sb V I ip i bn : fok sb V I -> held I ip i -> 0 <= bn < XV6FS_MAXFILE ->
  fblock V I ip bn = node V (roots sb V I) (fp i bn).
Proof. intros Hf Hh Hbn. unfold fblock, node, fp. simpl. by rewrite (roots_held _ _ _ _ _ (fk_table _ _ _ Hf) Hh). Qed.

Lemma readi_ok E s0 sb V I ip i off n s :
  fok sb V I -> held I ip i -> moves s0 V I s -> 0 <= off < 2 ^ 32 -> 0 <= n < 2 ^ 32 ->
  wp E (xv6fs_readi ip off n) (fun l s' =>
    l = file_slice V (roots sb V I) i off (readable (I ip).(i_d).(di_size) off n) /\ moves s0 V I s') s.
Proof.
  intros Hf Hh Hm Hoff Hn. pose proof (fk_wf _ _ _ Hf) as Hwf. pose proof (fk_table _ _ _ Hf) as Ht.
  pose proof (held_inum _ _ _ _ Ht Hh) as Hi. pose proof (layout_order sb (wf_layout _ _ _ Hwf)) as Hlo.
  pose proof (ly_size _ (wf_layout _ _ _ Hwf)) as Hsz. rewrite BPB_val in Hsz.
  pose proof (dk_size _ (tb_d _ _ Ht ip (hd_slot _ _ _ Hh) (hd_ref _ _ _ Hh) (hd_valid _ _ _ Hh))) as Hs.
  assert (Haddr : forall bn, 0 <= bn < XV6FS_MAXFILE -> fblock V I ip bn <> 0 -> 0 < fblock V I ip bn < 2 ^ 32 - 1).
  { intros bn Hbn. rewrite (wf_fblock sb V I ip i) by done. intros Hne. destruct (fp_valid sb i bn Hi Hbn) as [HP _].
    pose proof (node_bound sb V _ Hwf _ HP Hne). lia. }
  unfold xv6fs_readi. wp_step. fs_step Hm. set (size := di_size (i_d (I ip))) in *. unfold readable.
  destruct (Z.ltb_spec size off); simpl orb; cbv iota; [by apply wp_ret|].
  destruct (Z.leb_spec (2 ^ 32) (off + n)) as [Hw|Hw].
  { unfold u32. replace ((off + n) mod 2 ^ 32) with (off + n - 2 ^ 32)
      by (apply (Z.mod_unique_pos _ _ 1); lia).
    destruct (Z.ltb_spec (off + n - 2 ^ 32) off); [by apply wp_ret|lia]. }
  rewrite u32_small by lia. destruct (Z.ltb_spec (off + n) off); [lia|].
  assert (He : (if size <? off + n then size - off else n) = Z.min n (size - off)) by (destruct (Z.ltb_spec size (off + n)); lia).
  rewrite He. set (m := Z.min n (size - off)) in *. assert (0 <= m /\ off + m <= size) by lia.
  eapply wp_mono; [apply (readi_loop_ok E s0 V I (wf_blocks _ _ _ Hwf) ip Haddr); [exact Hm|lia|lia| |right]|].
  - change (XV6FS_MAXFILE * BSIZE) with 17247249408. lia.
  - change BSIZE with 1024. pose proof (Z.mod_pos_bound off 1024). pose proof (Z.div_mod m 1024). pose proof (Z.mod_pos_bound m 1024).
    pose proof (Z.div_pos m 1024). lia.
  - simpl. intros l s1 [[Hl Hg] Hm1]. split; [|done]. apply zlist_ext; unfold file_slice.
    + rewrite Hl. symmetry. apply zlen_fmap_seqZ. lia.
    + intros j Hj. rewrite Hg by lia. rewrite zget_fmap_seqZ by lia. unfold rbyte, fbyte.
      pose proof (off_block (off + j) ltac:(change (XV6FS_MAXFILE * BSIZE) with 17247249408; lia)).
      by rewrite (wf_fblock sb V I ip i) by done.
Qed.

(** ** Writing *)

(** The bytes of [src] are at [off] of inode [i], and every other byte of every
    file is as before. *)
Definition overwritten (sb : superblock) (V : Z -> block) (AF : Z -> list Z) (V' : Z -> block) (AF' : Z -> list Z)
    (i off : Z) (src : list Z) : Prop :=
  forall i' o, 0 <= i' < sb.(sb_ninodes) -> 0 <= o < XV6FS_MAXFILE * BSIZE ->
    fbyte V' AF' i' o = if decide (i' = i /\ off <= o < off + zlen src) then zget src (o - off) else fbyte V AF i' o.

Lemma take_zlen (l : list Z) n : 0 <= n <= zlen l -> zlen (take (Z.to_nat n) l) = n.
Proof. unfold zlen. intros. rewrite length_take. lia. Qed.
Lemma drop_zlen (l : list Z) n : 0 <= n <= zlen l -> zlen (drop (Z.to_nat n) l) = zlen l - n.
Proof. unfold zlen. intros. rewrite length_drop. lia. Qed.
Lemma zget_take (l : list Z) n j : 0 <= j < n -> zget (take (Z.to_nat n) l) j = zget l j.
Proof. intros. unfold zget. rewrite !list_lookup_total_alt, lookup_take_lt by lia. done. Qed.
Lemma zget_drop (l : list Z) n j : 0 <= n -> 0 <= j -> zget (drop (Z.to_nat n) l) j = zget l (n + j).
Proof. intros. unfold zget. rewrite !list_lookup_total_alt, lookup_drop. do 2 f_equal. lia. Qed.

Lemma overwritten_nil sb V AF V' AF' i off :
  (forall i' o, 0 <= i' < sb.(sb_ninodes) -> 0 <= o < XV6FS_MAXFILE * BSIZE -> fbyte V' AF' i' o = fbyte V AF i' o) ->
  overwritten sb V AF V' AF' i off [].
Proof. intros H i' o Hi Ho. rewrite decide_False; [by apply H|]. change (zlen (@nil Z)) with 0. lia. Qed.

Lemma overwritten_app sb V AF V1 AF1 V2 AF2 i off src src' :
  overwritten sb V AF V1 AF1 i off src -> overwritten sb V1 AF1 V2 AF2 i (off + zlen src) src' ->
  overwritten sb V AF V2 AF2 i off (src ++ src').
Proof.
  intros H1 H2 i' o Hi Ho. rewrite H2, H1 by done. rewrite zlen_app.
  pose proof (zlen_nonneg src). pose proof (zlen_nonneg src').
  repeat case_decide; try lia; try done; rewrite zget_app by lia; case_decide; try lia; f_equal; lia.
Qed.

(** Part of a block. *)
Lemma data_part sb V AF i off src :
  let x := node V AF (fp i (off / BSIZE)) in
  wf sb V AF -> 0 <= i < sb.(sb_ninodes) -> 0 <= off < XV6FS_MAXFILE * BSIZE -> x <> 0 ->
  Forall byte_ok src -> off mod BSIZE + zlen src <= BSIZE ->
  let V' := fset V x (splice (V x) (off mod BSIZE) src) in
  wf sb V' AF /\ overwritten sb V AF V' AF i off src.
Proof.
  intros x Hwf Hi Hoff Hx Hsrc Hfit V'. pose proof (Z.mod_pos_bound off BSIZE ltac:(done)) as Hmod.
  destruct (wf_blocks _ _ _ Hwf x) as [Hlen Hby]. pose proof (zlen_nonneg src).
  destruct (data_write sb V AF Hwf i (off / BSIZE) Hi (off_block off Hoff) (splice (V x) (off mod BSIZE) src)) as (Hw&_&Hb);
    [split; [rewrite zlen_splice; done || lia|by apply Forall_splice]|done|]. fold x in Hw, Hb.
  split; [done|]. intros i' o Hi' Ho. unfold V'. rewrite Hb by done.
  pose proof (Z.div_mod off BSIZE ltac:(done)). pose proof (Z.div_mod o BSIZE ltac:(done)).
  pose proof (Z.mod_pos_bound o BSIZE ltac:(done)) as Hmo. change BSIZE with 1024 in *.
  case_decide as Hc.
  - destruct Hc as [-> Hq]. rewrite zget_splice by lia. case_decide.
    + rewrite decide_True by lia. f_equal. lia.
    + rewrite decide_False by lia. unfold fbyte. change BSIZE with 1024. rewrite Hq. fold x. by destruct (Z.eqb_spec x 0).
  - rewrite decide_False; [done|]. intros [-> Hr]. apply Hc. split; [done|]. nia.
Qed.

Record wrote (sb : superblock) (ip i off : Z) (src : list Z) (V : Z -> block) (I : Z -> inode) (V' : Z -> block)
    (I' : Z -> inode) : Prop := mkWrote {
  wr_fok : fok sb V' I';
  wr_held : held I' ip i;
  wr_only : only ip I I';
  wr_d : (I' ip).(i_d) = let d := (I ip).(i_d) in
    mkDi d.(di_type) d.(di_major) d.(di_minor) d.(di_nlink) d.(di_size) d.(di_mtime) (I' ip).(i_d).(di_addrs);
  wr_meta : forall x, x < sb.(sb_bmapstart) -> V' x = V x;
  wr_byte : overwritten sb V (roots sb V I) V' (roots sb V' I') i off src }.

Lemma wrote_app sb ip i off src src' V I V1 I1 V2 I2 :
  wrote sb ip i off src V I V1 I1 -> wrote sb ip i (off + zlen src) src' V1 I1 V2 I2 ->
  wrote sb ip i off (src ++ src') V I V2 I2.
Proof.
  intros [H1 H2 H3 H4 H5 H6] [K1 K2 K3 K4 K5 K6]. split; [done|done|by eapply only_trans| |..].
  - rewrite K4, H4. done.
  - intros x Hx. rewrite K5; auto.
  - by eapply overwritten_app.
Qed.

Lemma mapped_wrote sb ip i off V I V' I' : mapped sb ip i V I V' I' -> wrote sb ip i off [] V I V' I'.
Proof.
  intros [H1 H2 H3 H4 H5]. split; try done; [apply (gr_meta _ _ _ _ _ _ H3)|].
  apply overwritten_nil, (gr_byte _ _ _ _ _ _ H3).
Qed.

Section write.
Context (E : panic -> Prop) (HE : E LogOverflow) (s0 : fsst) (Ho : in_op s0) (Hhint : 0 <= s0.(g_balloc_hint)).
Context (sb : superblock) (Hsb : s0.(f_sb) = sb) (ip i : Z).

(** Storing into the block that [bmap] gave. *)
Lemma store_part V I off src : fok sb V I -> held I ip i -> 0 <= off < XV6FS_MAXFILE * BSIZE ->
  node V (roots sb V I) (fp i (off / BSIZE)) <> 0 -> Forall byte_ok src -> off mod BSIZE + zlen src <= BSIZE ->
  let x := node V (roots sb V I) (fp i (off / BSIZE)) in
  wrote sb ip i off src V I (fset V x (splice (V x) (off mod BSIZE) src)) I.
Proof using.
  intros Hf Hh Hoff Hx Hsrc Hfit x. pose proof (fk_wf _ _ _ Hf) as Hwf. pose proof (fk_table _ _ _ Hf) as Ht.
  pose proof (wf_layout _ _ _ Hwf) as Hl. pose proof (layout_order sb Hl). pose proof (held_inum _ _ _ _ Ht Hh) as Hi.
  destruct (data_part sb V (roots sb V I) i off src Hwf Hi Hoff Hx Hsrc Hfit) as [Hw Hb]. fold x in Hw, Hb.
  destruct (fp_valid sb i (off / BSIZE) Hi (off_block off Hoff)) as [HP _].
  pose proof (node_bound sb V _ Hwf _ HP Hx) as Hxb. fold x in Hxb. set (V' := fset V x _) in *.
  assert (Hmeta : forall y, y < sb_bmapstart sb -> V' y = V y) by (intros y Hy; apply fset_ne; lia).
  assert (HA : pw (roots sb V I) (roots sb V' I)).
  { pose proof (only_roots sb V V' I I ip i Hl Ht Hh (only_refl _ _) Hmeta) as HA.
    intros y. rewrite <- (HA y), fset_spec. case_decide as Hy; [|done]. rewrite Hy. by apply roots_held. }
  split; [split; [|done]|done|apply only_refl|by destruct (i_d (I ip))|done|]; clearbody V'.
  - by rewrite <- HA.
  - intros i' o Hi' Ho'. rewrite <- HA. by apply Hb.
Qed.

(** A write ends after the last byte, or where the disk was full: at a block
    boundary, unless nothing was written. *)
Definition stopped (V' : Z -> block) (off tot n : Z) : Prop :=
  tot = n \/ full sb V' /\ (tot = 0 \/ (off + tot) mod BSIZE = 0).

(** What the loop wrote: all, or as much as there was room for. *)
Definition loop_post (V : Z -> block) (I : Z -> inode) (off : Z) (src : list Z) (tot : Z) (s' : fsst) : Prop :=
  exists V' I', moves s0 V' I' s' /\ 0 <= tot <= zlen src /\ stopped V' off tot (zlen src) /\
    wrote sb ip i off (take (Z.to_nat tot) src) V I V' I'.

Lemma wrote_refl V I off : fok sb V I -> held I ip i -> wrote sb ip i off [] V I V I.
Proof using. intros. apply mapped_wrote. by apply mapped_refl. Qed.

Lemma writei_loop_ok fuel off src V I s :
  moves s0 V I s -> fok sb V I -> held I ip i -> 0 <= off -> off + zlen src <= XV6FS_MAXFILE * BSIZE -> Forall byte_ok src ->
  zlen src = 0 \/ off mod BSIZE + zlen src <= Z.of_nat fuel * BSIZE ->
  wp E (writei_loop fuel ip off src) (loop_post V I off src) s.
Proof using All.
  revert off src V I s. induction fuel as [|fuel IH]; intros off src V I s Hm Hf Hh H0 Hend Hsrc Hfuel; cbn [writei_loop];
    pose proof (Z.mod_pos_bound off BSIZE ltac:(done)) as Hmod; pose proof (zlen_nonneg src) as Hn.
  { apply wp_ret. exists V, I. split; [done|]. split; [lia|]. split; [left; lia|]. by apply wrote_refl. }
  destruct (Z.leb_spec (zlen src) 0).
  { apply wp_ret. exists V, I. split; [done|]. split; [lia|]. split; [left; lia|]. by apply wrote_refl. }
  wp_step. eapply wp_mono; [apply (bmap_ok E HE s0 Ho Hhint sb Hsb ip i V I); [done|done|exact Hm|apply off_block; lia]|].
  clear Hm. intros addr s1 (V1&I1&Hm&Hmap&->&Hfull). pose proof (mp_fok _ _ _ _ _ _ _ Hmap) as Hf1.
  pose proof (mp_held _ _ _ _ _ _ _ Hmap) as Hh1.
  destruct (Z.eqb_spec (node V1 (roots sb V1 I1) (fp i (off / BSIZE))) 0) as [Hz|Hne].
  { apply wp_ret. exists V1, I1. split; [done|]. split; [lia|]. split; [right; auto|]. by apply mapped_wrote. }
  wp_step. fs_step Hm. set (m := Z.min (zlen src) (BSIZE - off mod BSIZE)).
  assert (Hmm : 0 < m <= zlen src /\ off mod BSIZE + m <= BSIZE) by lia. destruct Hmm as [Hm1 Hm2].
  wp_step. fs_step Hm. wp_step. fs_step Hm.
  pose proof (store_part V1 I1 off (take (Z.to_nat m) src) Hf1 Hh1 ltac:(lia) Hne ltac:(by apply Forall_take)) as Hst.
  rewrite take_zlen in Hst by lia. specialize (Hst Hm2). simpl in Hst. set (V2 := fset V1 _ _) in *. clearbody V2.
  assert (Happ : wrote sb ip i off (take (Z.to_nat m) src) V I V2 I1).
  { apply (wrote_app sb ip i off [] _ V I V1 I1); [by apply mapped_wrote|]. change (zlen (@nil Z)) with 0. by rewrite Z.add_0_r. }
  assert (Hbnd : m <> zlen src -> (off + m) mod BSIZE = 0).
  { intros Hne'. assert (m = BSIZE - off mod BSIZE) as -> by lia.
    replace (off + (BSIZE - off mod BSIZE)) with ((off / BSIZE + 1) * BSIZE); [by apply Z.mod_mul|].
    rewrite (Z.div_mod off BSIZE) at 2 by done. lia. }
  wp_step. eapply wp_mono; [apply (IH (off + m) (drop (Z.to_nat m) src) V2 I1); [exact Hm|apply Happ|apply Happ|lia| |by apply Forall_drop|]|].
  - rewrite drop_zlen by lia. lia.
  - rewrite drop_zlen by lia. destruct (decide (m = zlen src)); [left; lia|right]. destruct Hfuel as [|Hfuel]; [lia|].
    rewrite Nat2Z.inj_succ in Hfuel. rewrite Hbnd by done. lia.
  - intros tot s5 (V'&I'&Hm'&Ht&Hor&Hw). rewrite drop_zlen in Ht, Hor by lia. apply wp_ret.
    exists V', I'. split; [done|]. split; [lia|]. split.
    { destruct Hor as [|[Hfl Hb]]; [left; lia|]. destruct (decide (m = zlen src)); [left; lia|]. right. split; [done|right].
      destruct Hb as [->|Hb]; [rewrite Z.add_0_r; by apply Hbnd|by rewrite Z.add_assoc]. }
    replace (take (Z.to_nat (m + tot)) src) with (take (Z.to_nat m) src ++ take (Z.to_nat tot) (drop (Z.to_nat m) src)).
    + eapply wrote_app; [exact Happ|]. by rewrite take_zlen by lia.
    + rewrite Z2Nat.inj_add by lia. by rewrite take_take_drop.
Qed.

(** Changing fields other than the block numbers. *)
Lemma fok_set_d V I I' : fok sb V I -> held I ip i -> only ip I I' -> di_ok (I' ip).(i_d) ->
  (I' ip).(i_d).(di_addrs) = (I ip).(i_d).(di_addrs) -> fok sb V I' /\ held I' ip i /\ pw (roots sb V I) (roots sb V I').
Proof using.
  intros Hf Hh Hon Hd Ha. pose proof (fk_wf _ _ _ Hf) as Hwf. pose proof (fk_table _ _ _ Hf) as Ht.
  assert (HA : pw (roots sb V I) (roots sb V I')).
  { pose proof (only_roots sb V V I I' ip i (wf_layout _ _ _ Hwf) Ht Hh Hon ltac:(done)) as HA.
    intros y. rewrite <- (HA y), fset_spec. case_decide as Hy; [|done]. rewrite Hy, Ha. by apply roots_held. }
  split; [|split; [by apply (only_held ip I)|done]]. split; [by rewrite <- HA|]. by apply (only_table sb ip I).
Qed.

(** Writing the inode back. *)
Lemma store_inode_keeps V I : fok sb V I -> held I ip i ->
  let V' := store_inode sb V i (I ip).(i_d) in
  fok sb V' I /\ pw (roots sb V I) (roots sb V' I) /\
  (forall j, 0 <= j < sb.(sb_ninodes) -> inode_now sb V' I j = inode_now sb V I j) /\
  overwritten sb V (roots sb V I) V' (roots sb V' I) i 0 [].
Proof using.
  intros Hf Hh V'. pose proof (fk_wf _ _ _ Hf) as Hwf. pose proof (fk_table _ _ _ Hf) as Ht.
  pose proof (wf_layout _ _ _ Hwf) as Hl. pose proof (held_inum _ _ _ _ Ht Hh) as Hi. pose proof (wf_blocks _ _ _ Hwf) as HV.
  pose proof (tb_d _ _ Ht ip (hd_slot _ _ _ Hh) (hd_ref _ _ _ Hh) (hd_valid _ _ _ Hh)) as Hd.
  assert (Hnow : forall j, 0 <= j < sb_ninodes sb -> inode_now sb V' I j = inode_now sb V I j).
  { intros j Hj. destruct (decide (j = i)) as [->|Hne].
    - by rewrite !(inode_now_held _ _ _ _ _ Ht Hh).
    - unfold inode_now. unfold V'. by rewrite (disk_inode_store_other sb Hl V HV i Hi _ Hd). }
  assert (HA : pw (roots sb V I) (roots sb V' I)) by (intros j; unfold roots; case_decide; [by rewrite Hnow|done]).
  destruct (wf_meta_write sb V (roots sb V I) Hwf V') as (Hw&_&Hb).
  { by apply store_inode_ok. }
  { intros x Hx. by apply store_inode_same. }
  clearbody V'. split; [split; [by rewrite <- HA|done]|]. split; [done|]. split; [done|].
  apply overwritten_nil. intros i' o Hi' Ho'. rewrite <- HA. by apply Hb.
Qed.

Lemma iupdate_ok V I s (Q : unit -> fsst -> Prop) : moves s0 V I s -> held I ip i ->
  (forall s', moves s0 (store_inode sb V i (I ip).(i_d)) I s' -> Q tt s') -> wp E (xv6fs_iupdate ip) Q s.
Proof using HE Ho Hsb.
  intros Hm Hh HQ. unfold xv6fs_iupdate. wp_step. wp_step. rewrite (mv_sb _ _ _ _ Hm), (mv_inode _ _ _ _ Hm), Hsb.
  rewrite (hd_inum _ _ _ Hh). wp_step. fs_step Hm. by eapply wp_fs_logged.
Qed.

(** What a change of the fields keeps. *)
Record kept (V : Z -> block) (I I' : Z -> inode) : Prop := mkKept {
  kp_fok : fok sb V I';
  kp_held : held I' ip i;
  kp_only : only ip I I';
  kp_roots : pw (roots sb V I) (roots sb V I');
  kp_addrs : (I' ip).(i_d).(di_addrs) = (I ip).(i_d).(di_addrs) }.

Lemma kept_refl V I : fok sb V I -> held I ip i -> kept V I I.
Proof using. intros. split; try done. apply only_refl. Qed.

Lemma kept_trans V I I1 I2 : kept V I I1 -> kept V I1 I2 -> kept V I I2.
Proof using. intros [] []. split; try done; [by eapply only_trans|by etrans|congruence]. Qed.

Lemma wp_set_d V I f s (Q : unit -> fsst -> Prop) :
  moves s0 V I s -> fok sb V I -> held I ip i -> di_ok (f (I ip).(i_d)) -> (f (I ip).(i_d)).(di_addrs) = (I ip).(i_d).(di_addrs) ->
  (forall I' s', moves s0 V I' s' -> kept V I I' -> (I' ip).(i_d) = f (I ip).(i_d) -> Q tt s') -> wp E (set_d ip f) Q s.
Proof using.
  intros Hm Hf Hh Hok Ha HQ. unfold set_d. fs_step Hm. set (I' := fset I ip _) in *.
  assert (Hd : i_d (I' ip) = f (i_d (I ip))) by (unfold I'; by rewrite fset_eq).
  assert (Hon : only ip I I') by (split; [intros j Hj; by apply fset_ne|unfold I'; by rewrite fset_eq]).
  destruct (fok_set_d V I I' Hf Hh Hon) as (?&?&?); [by rewrite Hd|by rewrite Hd|].
  eapply HQ; [exact Hm|split; try done; by rewrite Hd|done].
Qed.

(** The inode after a write of [tot] bytes at [off]. *)
Definition grown_d (d d' : dinode) (off tot : Z) : Prop :=
  d' = mkDi d.(di_type) d.(di_major) d.(di_minor) d.(di_nlink) (Z.max d.(di_size) (off + tot)) d'.(di_mtime) d'.(di_addrs) /\
  (tot = 0 -> d'.(di_mtime) = d.(di_mtime)).

Lemma held_d V I : fok sb V I -> held I ip i -> di_ok (I ip).(i_d).
Proof using. intros Hf Hh. apply (tb_d _ _ (fk_table _ _ _ Hf) ip (hd_slot _ _ _ Hh) (hd_ref _ _ _ Hh) (hd_valid _ _ _ Hh)). Qed.

(** The fields set after the loop. *)
Lemma size_ok V I n s (Q : unit -> fsst -> Prop) :
  moves s0 V I s -> fok sb V I -> held I ip i -> 0 <= n < 2 ^ 32 ->
  (forall I' s', moves s0 V I' s' -> kept V I I' -> (I' ip).(i_d) = (let d := (I ip).(i_d) in
     mkDi d.(di_type) d.(di_major) d.(di_minor) d.(di_nlink) (Z.max d.(di_size) n) d.(di_mtime) d.(di_addrs)) -> Q tt s') ->
  wp E (if (I ip).(i_d).(di_size) <? n then set_size ip n else mret ()) Q s.
Proof using.
  intros Hm Hf Hh Hn HQ. pose proof (held_d V I Hf Hh) as Hd. destruct (Z.ltb_spec (di_size (i_d (I ip))) n).
  - eapply wp_set_d; [exact Hm|done|done|by destruct Hd; split|done|]. intros I' s' Hm' Hk He. eapply HQ; [done|done|].
    rewrite He. cbv zeta. f_equal. lia.
  - apply wp_ret. eapply HQ; [done|by apply kept_refl|]. cbv zeta. rewrite Z.max_l by lia. by destruct (i_d (I ip)).
Qed.

Lemma mtime_ok V I (tot : Z) s (Q : unit -> fsst -> Prop) :
  moves s0 V I s -> fok sb V I -> held I ip i -> 0 <= tot ->
  (forall I' s', moves s0 V I' s' -> kept V I I' -> (I' ip).(i_d) = (let d := (I ip).(i_d) in
     mkDi d.(di_type) d.(di_major) d.(di_minor) d.(di_nlink) d.(di_size) (I' ip).(i_d).(di_mtime) d.(di_addrs)) ->
     (tot = 0 -> (I' ip).(i_d).(di_mtime) = (I ip).(i_d).(di_mtime)) -> Q tt s') ->
  wp E (if 0 <? tot then t ← xv6fs_now_sec; set_mtime ip t else mret ()) Q s.
Proof using.
  intros Hm Hf Hh Htot HQ. pose proof (held_d V I Hf Hh) as Hd. destruct (Z.ltb_spec 0 tot).
  - wp_step. eapply wp_fs_now; [exact Hm|]. intros t s1 Ht Hm1.
    eapply wp_set_d; [exact Hm1|done|done|by destruct Hd; split|done|]. intros I' s' Hm' Hk He.
    eapply HQ; [done|done|by rewrite He|lia].
  - apply wp_ret. eapply HQ; [done|by apply kept_refl| |done]. by destruct (i_d (I ip)).
Qed.

(** What a write leaves: see [writei_ok]. *)
(** The other inodes, when the blocks below the bitmap were left alone and the inode was written back. *)
Lemma others_kept V I V1 I3 : layout sb -> table_ok sb I -> held I ip i -> only ip I I3 -> fok sb V1 I3 ->
  (forall x, x < sb.(sb_bmapstart) -> V1 x = V x) -> held I3 ip i ->
  let V4 := store_inode sb V1 i (I3 ip).(i_d) in
  forall j, 0 <= j < sb.(sb_ninodes) -> j <> i ->
    inode_now sb V4 I3 j = inode_now sb V I j /\ disk_inode sb V4 j = disk_inode sb V j.
Proof using.
  intros Hl Ht Hh Hon Hf3 Hmeta Hh3 V4 j Hj Hne. destruct (store_inode_keeps V1 I3 Hf3 Hh3) as (_&_&Hnow&_). fold V4 in Hnow.
  pose proof (held_inum _ _ _ _ (fk_table _ _ _ Hf3) Hh3) as Hi. split.
  - rewrite Hnow by done. by apply (only_inode_now sb V V1 I I3 ip i).
  - unfold V4. rewrite (disk_inode_store_other sb Hl V1 (wf_blocks _ _ _ (fk_wf _ _ _ Hf3)) i Hi _ (held_d V1 I3 Hf3 Hh3)) by done.
    unfold disk_inode. rewrite Hmeta; [done|]. apply (iblock_meta sb Hl j Hj).
Qed.

Definition writei_post (V : Z -> block) (I : Z -> inode) (off : Z) (src : list Z) (r : option Z) (s' : fsst) : Prop :=
  exists tot V' I', r = Some tot /\ moves s0 V' I' s' /\ 0 <= tot <= zlen src /\ stopped V' off tot (zlen src) /\
    fok sb V' I' /\ held I' ip i /\ only ip I I' /\ grown_d (I ip).(i_d) (I' ip).(i_d) off tot /\
    disk_inode sb V' i = (I' ip).(i_d) /\
    (forall j, 0 <= j < sb.(sb_ninodes) -> j <> i ->
       inode_now sb V' I' j = inode_now sb V I j /\ disk_inode sb V' j = disk_inode sb V j) /\
    overwritten sb V (roots sb V I) V' (roots sb V' I') i off (take (Z.to_nat tot) src).

Lemma writei_ok V I off src s :
  moves s0 V I s -> fok sb V I -> held I ip i -> 0 <= off -> off + zlen src < 2 ^ 32 -> Forall byte_ok src ->
  wp E (xv6fs_writei ip src off) (writei_post V I off src) s.
Proof using All.
  intros Hm Hf Hh H0 Hlt Hsrc. pose proof (zlen_nonneg src) as Hn. unfold xv6fs_writei. rewrite u32_small by lia.
  destruct (Z.ltb_spec (off + zlen src) off); [lia|].
  destruct (Z.ltb_spec (XV6FS_MAXFILE * BSIZE) (off + zlen src)) as [Hbig|Hbig].
  { change (XV6FS_MAXFILE * BSIZE) with 17247249408 in Hbig. lia. }
  wp_step. eapply wp_mono; [apply (writei_loop_ok _ _ _ V I); try done|].
  { right. change BSIZE with 1024. pose proof (Z.mod_pos_bound off 1024). pose proof (Z.div_mod (zlen src) 1024).
    pose proof (Z.mod_pos_bound (zlen src) 1024). pose proof (Z.div_pos (zlen src) 1024). lia. }
  clear Hm. intros tot s1 (V1&I1&Hm&Htot&Hor&[Hf1 Hh1 Hon1 Hd1 Hmeta1 Hb1]).
  wp_step. fs_step Hm. wp_step. eapply (size_ok V1 I1); [exact Hm|done|done|lia|]. clear Hm. intros I2 s2 Hm [Hf2 Hh2 Hon2 HA2 Ha2] Hd2.
  wp_step. eapply (mtime_ok V1 I2); [exact Hm|done|done|lia|]. clear Hm. intros I3 s3 Hm [Hf3 Hh3 Hon3 HA3 Ha3] Hd3 Hmt.
  wp_step. eapply (iupdate_ok V1 I3); [exact Hm|done|]. clear Hm. intros s4 Hm. apply wp_ret.
  destruct (store_inode_keeps V1 I3 Hf3 Hh3) as (Hf4&HA4&Hnow4&Hb4). set (V4 := store_inode sb V1 i (i_d (I3 ip))) in *.
  pose proof (fk_wf _ _ _ Hf3) as Hwf3. pose proof (wf_layout _ _ _ Hwf3) as Hl.
  pose proof (held_inum _ _ _ _ (fk_table _ _ _ Hf3) Hh3) as Hi.
  exists tot, V4, I3. split; [done|]. split; [done|]. split; [done|]. split.
  { destruct Hor as [|[Hfull Hbd]]; [by left|right]. split; [|done]. intros b Hb. rewrite <- (Hfull b Hb). apply bit_ext; [done|done|].
    intros x Hx. apply store_inode_same; [done|done|lia]. }
  split; [done|]. split; [done|]. split; [by eapply only_trans; [|eapply only_trans]|]. split.
  { split; [rewrite Hd3, Hd2, Hd1; done|]. intros Hz. rewrite Hmt by done. by rewrite Hd2, Hd1. }
  split; [apply disk_inode_store; [apply (wf_blocks _ _ _ Hwf3)|by apply (held_d V1)]|]. split.
  - apply (others_kept V I V1 I3); try done; [apply (fk_table _ _ _ Hf)|]. by eapply only_trans; [|eapply only_trans].
  - intros i' o Hi' Ho'. rewrite Hb4 by done. rewrite decide_False by (change (zlen (@nil Z)) with 0; lia).
    rewrite <- HA3, <- HA2. by apply Hb1.
Qed.
End write.
