(* ===== verification/FsTrunc.v ===== *)
(** * Freeing blocks

    [xv6fs_itrunc_to] frees the blocks of a file past a length, and the tables
    that this leaves empty.  [cut] describes one step of it: some blocks of
    the file are gone, nothing else changed.  A file cut to length 0 has no
    blocks at all. *)
From S2P Require Import Prelude State Bytes Log Xv6fs FsState FsTree FsMap FsFile.

(** ** Digits

    The path to a file block is its number in base 256, relative to the first
    block under the root. *)

Fixpoint digits (n : nat) (x : Z) : list Z :=
  match n with
  | O => []
  | S n => x / 256 ^ Z.of_nat n :: digits n (x mod 256 ^ Z.of_nat n)
  end.

Lemma pow256_pos n : 0 < 256 ^ Z.of_nat n.
Proof. apply Z.pow_pos_nonneg; lia. Qed.

Lemma digits_cons n j y : 0 <= y < 256 ^ Z.of_nat n -> digits (S n) (j * 256 ^ Z.of_nat n + y) = j :: digits n y.
Proof.
  intros Hy. pose proof (pow256_pos n). cbn [digits]. rewrite Z.div_add_l, Z.div_small, Z.add_0_r by lia.
  rewrite (Z.add_comm (j * _)), Z.mod_add, Z.mod_small by lia. done.
Qed.

(** The blocks from [fbn] on are the leaves below [P], [n] levels down. *)
Definition covers (P : pos) (n : nat) (fbn : Z) : Prop :=
  0 <= fbn /\ fbn + 256 ^ Z.of_nat n <= XV6FS_MAXFILE /\
  forall x, 0 <= x < 256 ^ Z.of_nat n -> fpos (fbn + x) = (P.(p_root), P.(p_path) ++ digits n x).

Definition child (P : pos) (j : Z) : pos := mkPos P.(p_ino) P.(p_root) (P.(p_path) ++ [j]).

Lemma covers_child P n fbn j : idx_ok j -> covers P (S n) fbn -> covers (child P j) n (fbn + j * 256 ^ Z.of_nat n).
Proof.
  unfold idx_ok. change XV6FS_NINDIRECT with 256. intros Hj (H0&H1&Hx). pose proof (pow256_pos n) as Hp.
  rewrite Nat2Z.inj_succ, Z.pow_succ_r in * by lia. split; [nia|]. split; [nia|]. intros x Hx'.
  rewrite <- Z.add_assoc, Hx by nia. rewrite digits_cons by done. cbn [child p_root p_path]. by rewrite <- app_assoc.
Qed.

Lemma covers_single i : covers (mkPos i XV6FS_NDIRECT []) 1 XV6FS_NDIRECT.
Proof.
  split; [done|]. split; [done|]. change (256 ^ Z.of_nat 1) with 256. intros x Hx. unfold fpos. simpl app. change XV6FS_NDIRECT with 9.
  destruct (Z.ltb_spec (9 + x) 9); [lia|]. replace (9 + x - 9) with x by lia.
  change XV6FS_NINDIRECT with 256. destruct (Z.ltb_spec x 256); [|lia]. cbn [digits]. change (256 ^ Z.of_nat 0) with 1. by rewrite Z.div_1_r.
Qed.

Lemma covers_double i : covers (mkPos i (XV6FS_NDIRECT + 1) []) 2 (XV6FS_NDIRECT + XV6FS_NINDIRECT).
Proof.
  split; [done|]. split; [done|]. change (256 ^ Z.of_nat 2) with 65536. intros x Hx. unfold fpos. simpl app.
  change XV6FS_NDIRECT with 9. change XV6FS_NINDIRECT with 256. change XV6FS_NDINDIRECT with 65536.
  destruct (Z.ltb_spec (9 + 256 + x) 9); [lia|]. replace (9 + 256 + x - 9) with (256 + x) by lia.
  destruct (Z.ltb_spec (256 + x) 256); [lia|]. replace (256 + x - 256) with x by lia.
  destruct (Z.ltb_spec x 65536); [|lia]. cbn [digits]. change (256 ^ Z.of_nat 0) with 1. change (256 ^ Z.of_nat 1) with 256.
  by rewrite Z.div_1_r.
Qed.

Lemma covers_triple i :
  covers (mkPos i (XV6FS_NDIRECT + 2) []) 3 (XV6FS_NDIRECT + XV6FS_NINDIRECT + XV6FS_NDINDIRECT).
Proof.
  split; [done|]. split; [done|]. change (256 ^ Z.of_nat 3) with 16777216. intros x Hx. unfold fpos. simpl app.
  change XV6FS_NDIRECT with 9. change XV6FS_NINDIRECT with 256. change XV6FS_NDINDIRECT with 65536.
  destruct (Z.ltb_spec (9 + 256 + 65536 + x) 9); [lia|]. replace (9 + 256 + 65536 + x - 9) with (256 + 65536 + x) by lia.
  destruct (Z.ltb_spec (256 + 65536 + x) 256); [lia|]. replace (256 + 65536 + x - 256) with (65536 + x) by lia.
  destruct (Z.ltb_spec (65536 + x) 65536); [lia|]. replace (65536 + x - 65536) with x by lia.
  cbn [digits]. change (256 ^ Z.of_nat 0) with 1. change (256 ^ Z.of_nat 1) with 256. change (256 ^ Z.of_nat 2) with 65536.
  rewrite Z.div_1_r. rewrite Z.mod_mod_divide by by exists 256. done.
Qed.

(** ** Unlinking a node *)

Section unlink.
Context (sb : superblock) (V : Z -> block) (AF : Z -> list Z) (Hwf : wf sb V AF).

(** A node without children goes away, and its block is free again. *)
Lemma wf_unlink V' AF' P :
  let a := node V AF P in
  valid sb P -> a <> 0 -> blocks_ok V' -> (forall i, zlen (AF' i) = XV6FS_NDIRECT + 3) ->
  (forall b, 0 <= b < sb.(sb_size) -> bit sb V' b = negb (b =? a) && bit sb V b) ->
  (forall Q, valid sb Q -> node V' AF' Q = if decide (Q = P) then 0 else node V AF Q) -> wf sb V' AF'.
Proof using Hwf.
  intros a HP Ha HV' Hlen Hbit Hnode. pose proof (layout_order sb (wf_layout _ _ _ Hwf)).
  pose proof (node_bound sb V AF Hwf P HP Ha) as Hab. fold a in Hab. destruct Hwf as [Hl Hb Hm HA Hn Hi Hu]. split; try done.
  - intros b Hb'. rewrite Hbit by lia. rewrite Hm by lia. rewrite andb_true_r. apply negb_true_iff, Z.eqb_neq. lia.
  - intros Q HQ. rewrite Hnode by done. case_decide as Hd; [done|]. intros Hne. destruct (Hn Q HQ Hne) as [Hr Hbq].
    split; [done|]. rewrite Hbit, Hbq, andb_true_r by lia. apply negb_true_iff, Z.eqb_neq. intros He. by apply Hd, Hi.
  - intros Q Q' HQ HQ'. rewrite !Hnode by done. repeat case_decide; subst; try done. by apply Hi.
  - intros b Hb'. rewrite Hbit by lia. intros [Hne%negb_true_iff%Z.eqb_neq Hbb]%andb_prop.
    destruct (Hu b Hb' Hbb) as (Q&HQ&<-). exists Q. split; [done|]. rewrite Hnode by done. rewrite decide_False; [done|].
    intros ->. by apply Hne.
Qed.

Lemma clear_bit_same a x : layout sb -> 0 <= a < sb.(sb_size) ->
  x < sb.(sb_bmapstart) \/ dstart sb <= x -> clear_bit sb V a x = V x.
Proof using. intros Hl Ha Hx. pose proof (bblock_meta sb Hl a Ha). apply fset_ne. lia. Qed.

(** Entry [j] of the table at [P] is cleared. *)
Lemma unlink_entry P j :
  let t := node V AF P in let a := node V AF (child P j) in
  let V' := fset (clear_bit sb V a) t (put32 (V t) (4 * j) 0) in
  valid sb (child P j) -> t <> 0 -> a <> 0 ->
  (forall j', valid sb (child (child P j) j') -> node V AF (child (child P j) j') = 0) ->
  wf sb V' AF /\ (forall Q, valid sb Q -> node V' AF Q = if decide (Q = child P j) then 0 else node V AF Q) /\
  (forall b, 0 <= b < sb.(sb_size) -> bit sb V' b = negb (b =? a) && bit sb V b).
Proof using Hwf.
  intros t a V' HP Ht Ha Hchild. pose proof (wf_layout _ _ _ Hwf) as Hl. pose proof (layout_order sb Hl) as Hlo.
  destruct P as [i k p]. destruct (valid_parent _ _ _ _ _ HP) as (Hp&Hj&Hdep).
  cbn [p_ino p_root p_path] in Hp, Hdep. pose proof (node_bound sb V AF Hwf _ Hp Ht) as Htb. fold t in Htb. pose proof (node_bound sb V AF Hwf _ HP Ha) as Hab. fold a in Hab.
  pose proof (wf_blocks _ _ _ Hwf) as HV.
  assert (Hbit : forall b, 0 <= b < sb_size sb -> bit sb V' b = negb (b =? a) && bit sb V b).
  { intros b Hb. rewrite <- (bit_clear_bit sb Hl) by (done || lia). apply bit_ext; [done|done|]. intros x Hx. apply fset_ne. lia. }
  assert (Hnode : forall Q, valid sb Q -> node V' AF Q = if decide (Q = child (mkPos i k p) j) then 0 else node V AF Q).
  { intros Q HQ. apply (node_set_entry sb V AF Hwf V' i k p j 0 Q); try done.
    - unfold V'. fold t. by rewrite fset_eq.
    - intros x Hx Hxt. fold t in Hxt. unfold V'. rewrite fset_ne by done. destruct Hx as [Hx0 (Q'&HQ'&<-)].
      pose proof (node_bound sb V AF Hwf Q' HQ' Hx0). apply clear_bit_same; [done|lia|lia].
    - intros j' Hj'. specialize (Hchild j'). unfold child in Hchild. simpl in Hchild. rewrite <- app_assoc in Hchild. by apply Hchild. }
  split; [|done]. apply (wf_unlink V' AF (child (mkPos i k p) j)); try done; [|apply (wf_addrs _ _ _ Hwf)].
  unfold V'. apply fset_blocks_ok; [by apply clear_bit_ok|]. destruct (HV t) as [Hlen Hby].
  unfold idx_ok in Hj. change XV6FS_NINDIRECT with 256 in Hj. change BSIZE with 1024 in Hlen. split.
  - unfold put32. rewrite zlen_putn; [done|lia|]. change (Z.of_nat 4) with 4. lia.
  - by apply putn_bytes.
Qed.

(** Root [k] of inode [i] is cleared. *)
Lemma unlink_root i k :
  let a := node V AF (mkPos i k []) in let AF' := fset AF i (zset (AF i) k 0) in
  valid sb (mkPos i k []) -> a <> 0 -> (forall j, valid sb (mkPos i k [j]) -> node V AF (mkPos i k [j]) = 0) ->
  wf sb (clear_bit sb V a) AF' /\
  (forall Q, valid sb Q -> node (clear_bit sb V a) AF' Q = if decide (Q = mkPos i k []) then 0 else node V AF Q) /\
  (forall b, 0 <= b < sb.(sb_size) -> bit sb (clear_bit sb V a) b = negb (b =? a) && bit sb V b).
Proof using Hwf.
  intros a AF' HP Ha Hchild. pose proof (wf_layout _ _ _ Hwf) as Hl. pose proof (layout_order sb Hl) as Hlo.
  pose proof (node_bound sb V AF Hwf _ HP Ha) as Hab. fold a in Hab. pose proof (wf_blocks _ _ _ Hwf) as HV.
  assert (Hbit : forall b, 0 <= b < sb_size sb -> bit sb (clear_bit sb V a) b = negb (b =? a) && bit sb V b)
    by (intros b Hb; apply bit_clear_bit; done || lia).
  assert (Hnode : forall Q, valid sb Q -> node (clear_bit sb V a) AF' Q = if decide (Q = mkPos i k []) then 0 else node V AF Q).
  { intros Q HQ. apply (node_set_root sb V AF Hwf); try done; [|apply (va_root _ _ HP)].
    intros x [Hx0 (Q'&HQ'&<-)]. pose proof (node_bound sb V AF Hwf Q' HQ' Hx0). apply clear_bit_same; [done|lia|lia]. }
  split; [|done]. apply (wf_unlink _ _ (mkPos i k [])); try done; [by apply clear_bit_ok|].
  intros i'. unfold AF'. rewrite fset_spec. case_decide; [rewrite zlen_zset|]; apply (wf_addrs _ _ _ Hwf).
Qed.
End unlink.

(** ** Cutting *)

(** [Q] is [P] or under it; strictly under it. *)
Definition within (P Q : pos) : Prop := exists r, Q = mkPos P.(p_ino) P.(p_root) (P.(p_path) ++ r).
Definition below (P Q : pos) : Prop := exists r, r <> [] /\ Q = mkPos P.(p_ino) P.(p_root) (P.(p_path) ++ r).

Lemma not_below_self P : ~ below P P.
Proof. intros (r&Hr&He). destruct P as [i k p]. injection He as He. symmetry in He. rewrite <- (app_nil_r p) in He at 2. apply app_inv_head in He. done. Qed.

Lemma within_child_below P j Q : within (child P j) Q -> below P Q.
Proof. intros [r ->]. exists (j :: r). split; [done|]. simpl. by rewrite <- app_assoc. Qed.
Lemma below_within P Q : below P Q -> within P Q.
Proof. intros (r&_&->). by exists r. Qed.

Lemma within_child_inj P j j' : within (child P j) (child P j') -> j = j'.
Proof. intros [r [= He]]. rewrite <- app_assoc in He. apply app_inv_head in He. by injection He. Qed.

Section cut.
Context (sb : superblock).

(** Some nodes in [D] are gone, and nothing else changed. *)
Record cut (D : pos -> Prop) (V : Z -> block) (AF : Z -> list Z) (V' : Z -> block) (AF' : Z -> list Z) : Prop := mkCut {
  ct_wf : wf sb V' AF';
  ct_out : forall Q, valid sb Q -> ~ D Q -> node V' AF' Q = node V AF Q;
  ct_mono : forall Q, valid sb Q -> node V' AF' Q <> 0 -> node V' AF' Q = node V AF Q;
  ct_data : forall Q, valid sb Q -> leaf Q -> node V' AF' Q <> 0 -> V' (node V' AF' Q) = V (node V' AF' Q);
  ct_meta : forall x, x < sb.(sb_bmapstart) -> V' x = V x;
  ct_bit : forall b, 0 <= b < sb.(sb_size) -> bit sb V' b = true -> bit sb V b = true }.

(** The blocks [bn] of file [i] with [S bn] are gone, the others are there. *)
Definition gone (i : Z) (S : Z -> bool) (V : Z -> block) (AF : Z -> list Z) (V' : Z -> block) (AF' : Z -> list Z) : Prop :=
  forall bn, 0 <= bn < XV6FS_MAXFILE -> node V' AF' (fp i bn) = if S bn then 0 else node V AF (fp i bn).

Lemma cut_refl D V AF : wf sb V AF -> cut D V AF V AF.
Proof. done. Qed.

Lemma cut_trans D V AF V1 AF1 V2 AF2 : cut D V AF V1 AF1 -> cut D V1 AF1 V2 AF2 -> cut D V AF V2 AF2.
Proof.
  intros [H1 H2 H3 H4 H5 H6] [K1 K2 K3 K4 K5 K6]. split; [done|..].
  - intros Q HQ HD. rewrite K2, H2; done.
  - intros Q HQ Hne. rewrite K3 in * by done. by apply H3.
  - intros Q HQ Hl Hne. rewrite K4 by done. rewrite K3 in * by done. by apply H4.
  - intros x Hx. rewrite K5, H5; done.
  - auto.
Qed.

Lemma cut_mono (D D' : pos -> Prop) V AF V' AF' : (forall Q, D Q -> D' Q) -> cut D V AF V' AF' -> cut D' V AF V' AF'.
Proof. intros HD [H1 H2 H3 H4 H5 H6]. split; try done. intros Q HQ HnD. apply H2; auto. Qed.

(** One node unlinked. *)
Lemma cut_unlink D V AF V' AF' P :
  wf sb V' AF' -> valid sb P -> D P ->
  (forall Q, valid sb Q -> node V' AF' Q = if decide (Q = P) then 0 else node V AF Q) ->
  (forall Q, valid sb Q -> leaf Q -> node V AF Q <> 0 -> V' (node V AF Q) = V (node V AF Q)) ->
  (forall x, x < sb.(sb_bmapstart) -> V' x = V x) ->
  (forall b, 0 <= b < sb.(sb_size) -> bit sb V' b = negb (b =? node V AF P) && bit sb V b) ->
  cut D V AF V' AF'.
Proof.
  intros Hwf HP HD Hnode Hdata Hmeta Hbit. split; try done.
  - intros Q HQ HnD. rewrite Hnode by done. rewrite decide_False; [done|]. by intros ->.
  - intros Q HQ. rewrite Hnode by done. by case_decide.
  - intros Q HQ Hl. rewrite Hnode by done. case_decide; [done|]. intros Hne. by apply Hdata.
  - intros b Hb. rewrite Hbit by done. by intros [_ ?]%andb_prop.
Qed.

(** What the bytes are then. *)
Lemma cut_byte D i S V AF V' AF' :
  cut D V AF V' AF' -> gone i S V AF V' AF' -> (forall Q, D Q -> Q.(p_ino) = i) ->
  forall i' off, 0 <= i' < sb.(sb_ninodes) -> 0 <= off < XV6FS_MAXFILE * BSIZE ->
  fbyte V' AF' i' off = if bool_decide (i' = i) && S (off / BSIZE) then 0 else fbyte V AF i' off.
Proof.
  intros Hc Hg HD i' off Hi Hoff. pose proof (off_block off Hoff) as Hbn.
  destruct (fp_valid sb i' (off / BSIZE) Hi Hbn) as [HP HPl]. unfold fbyte.
  pose proof (ct_data _ _ _ _ _ Hc _ HP HPl) as Hd.
  assert (He : node V' AF' (fp i' (off / BSIZE)) = if bool_decide (i' = i) && S (off / BSIZE) then 0 else node V AF (fp i' (off / BSIZE))).
  { case_bool_decide as Hii; simpl; [subst; by apply Hg|]. apply (ct_out _ _ _ _ _ Hc); [done|]. intros Hx%HD. by simpl in Hx. }
  rewrite He in Hd. rewrite He. destruct (bool_decide (i' = i) && S (off / BSIZE)); [done|].
  destruct (Z.eqb_spec (node V AF (fp i' (off / BSIZE))) 0); [done|]. by rewrite Hd.
Qed.
End cut.

(** ** The tables *)

Lemma node_child V AF P j :
  node V AF (child P j) = if node V AF P =? 0 then 0 else tbl V (node V AF P) j.
Proof. destruct P. apply node_snoc. Qed.

Lemma node_within V AF P Q : within P Q -> node V AF P = 0 -> node V AF Q = 0.
Proof. intros [r ->] Hz. unfold node in *. simpl. rewrite walk_app, Hz. apply walk_zero. Qed.

Lemma block_table_empty_spec d : block_table_empty d = true <-> forall j, idx_ok j -> get32 d (4 * j) = 0.
Proof.
  unfold block_table_empty, idx_ok. rewrite forallb_forall. split.
  - intros H j Hj. apply Z.eqb_eq, H, list_elem_of_In, elem_of_seqZ. lia.
  - intros H j Hj%list_elem_of_In%elem_of_seqZ. apply Z.eqb_eq, H. lia.
Qed.

Section table.
Context (E : panic -> Prop) (HE : E LogOverflow) (s0 : fsst) (Ho : in_op s0).
Context (sb : superblock) (Hsb : s0.(f_sb) = sb) (I : Z -> inode) (AF : Z -> list Z) (keep : Z).

(** The file blocks from [a] up to [b] that are not kept. *)
Definition rng (a b bn : Z) : bool := (a <=? bn) && (bn <? b) && (keep <=? bn).

(** Freeing the block of one entry and clearing the entry. *)
Lemma clear_entry_ok {B} V P j t a (k : F B) s (Q : B -> fsst -> Prop) :
  node V AF P = t -> node V AF (child P j) = a -> moves s0 V I s -> wf sb V AF -> valid sb (child P j) -> t <> 0 -> a <> 0 ->
  (forall j', valid sb (child (child P j) j') -> node V AF (child (child P j) j') = 0) ->
  (forall V' s', moves s0 V' I s' -> cut sb (within (child P j)) V AF V' AF ->
     (forall Q, valid sb Q -> node V' AF Q = if decide (Q = child P j) then 0 else node V AF Q) -> wp E k Q s') ->
  wp E (bfree a;; d ← bread t; bput t (put32 d (4 * j) 0);; k) Q s.
Proof using HE Ho Hsb.
  intros Et Ea Hm Hwf HP. rewrite <- Et, <- Ea. clear t a Et Ea. set (t := node V AF P). set (a := node V AF (child P j)).
  intros Ht Ha Hch HQ. pose proof (wf_layout _ _ _ Hwf) as Hl. pose proof (layout_order sb Hl).
  destruct (wf_node _ _ _ Hwf _ HP Ha) as [Hab Hbit]. fold a in Hab, Hbit.
  assert (Hp : valid sb P) by (destruct P; by destruct (valid_parent _ _ _ _ _ HP)).
  pose proof (node_bound sb V AF Hwf _ Hp Ht) as Htb. fold t in Htb.
  wp_step. eapply (bfree_ok E HE s0 Ho sb Hsb V I); [|exact Hbit|exact Hm|]; [lia|]. clear Hm s. intros s Hm.
  wp_step. fs_step Hm. wp_step. fs_step Hm. rewrite clear_bit_same in Hm by (done || lia).
  destruct (unlink_entry sb V AF Hwf P j HP Ht Ha Hch) as (Hw&Hn&Hb). fold t a in Hw, Hn, Hb. eapply HQ; [exact Hm| |exact Hn].
  apply (cut_unlink _ _ _ _ _ _ (child P j)); try done.
  - exists []. by rewrite app_nil_r; destruct P.
  - intros Q' HQ' Hleaf Hne. pose proof (node_bound sb V AF Hwf _ HQ' Hne).
    rewrite fset_ne; [apply clear_bit_same; [done|lia|lia]|]. intros He.
    assert (Q' = P) as -> by (by apply (wf_inj _ _ _ Hwf)). destruct P as [i k' p]. destruct (valid_parent _ _ _ _ _ HP) as (_&_&Hlt).
    unfold leaf in Hleaf. simpl in *. lia.
  - intros x Hx. rewrite fset_ne by lia. apply clear_bit_same; [done|lia|lia].
Qed.

Section entries.
Context (P : pos) (HP : valid sb P) (Hin : (length P.(p_path) < depth P.(p_root))%nat).
Context (t : Z) (Ht : t <> 0) (fbn sz : Z) (Hsz : 0 < sz) (free_it : Z -> Z -> F bool).

(** What [free_it] does for entry [j]: it cuts below it, and says whether the
    entry itself goes. *)
Definition free_post (V : Z -> block) (j : Z) (e : bool) (s' : fsst) : Prop :=
  exists V', moves s0 V' I s' /\ cut sb (below (child P j)) V AF V' AF /\
    (e = true -> tbl V t j <> 0 /\ forall j', valid sb (child (child P j) j') -> node V' AF (child (child P j) j') = 0) /\
    (keep <= fbn -> tbl V t j <> 0 -> e = true) /\
    (forall bn, 0 <= bn < XV6FS_MAXFILE ->
       (if e && bool_decide (fp P.(p_ino) bn = child P j) then 0 else node V' AF (fp P.(p_ino) bn)) =
       if rng (fbn + j * sz) (fbn + (j + 1) * sz) bn then 0 else node V AF (fp P.(p_ino) bn)).
Hypothesis Hfree : forall V j s, moves s0 V I s -> wf sb V AF -> node V AF P = t -> idx_ok j ->
  wp E (free_it j (tbl V t j)) (free_post V j) s.

Lemma child_valid j : idx_ok j -> valid sb (child P j).
Proof using HP Hin.
  intros Hj. destruct HP as [Hi Hk Hl Hf]. split; simpl; [done|done|rewrite length_app; simpl; lia|].
  apply Forall_app. split; [done|by constructor].
Qed.

Definition entries_post (V : Z -> block) (j : Z) (s' : fsst) : Prop :=
  exists V', moves s0 V' I s' /\ cut sb (below P) V AF V' AF /\
    gone P.(p_ino) (rng (fbn + j * sz) (fbn + XV6FS_NINDIRECT * sz)) V AF V' AF /\
    (keep <= fbn -> forall j', j <= j' < XV6FS_NINDIRECT -> tbl V' t j' = 0) /\
    (forall j', 0 <= j' < j -> node V' AF (child P j') = node V AF (child P j')).

(** The state after entry [j], from the one before. *)
Lemma entries_step V j V1 s' : 0 <= j < XV6FS_NINDIRECT -> wf sb V AF -> node V AF P = t ->
  cut sb (within (child P j)) V AF V1 AF -> (keep <= fbn -> tbl V1 t j = 0) ->
  gone P.(p_ino) (rng (fbn + j * sz) (fbn + (j + 1) * sz)) V AF V1 AF ->
  entries_post V1 (j + 1) s' -> entries_post V j s'.
Proof using HP Hin Hsz Ht.
  intros Hj Hwf Hnt Hc Hz Hg (V'&Hm&Hc'&Hg'&Hz'&Hkeep). exists V'. split; [done|].
  pose proof (cut_mono sb _ (below P) _ _ _ _ (within_child_below P j) Hc) as Hcb.
  assert (Hch : forall j', idx_ok j' -> valid sb (child P j')) by apply child_valid.
  split; [by eapply cut_trans|]. split; [|split].
  - intros bn Hbn. rewrite Hg', Hg by done. unfold rng. change XV6FS_NINDIRECT with 256 in *.
    destruct (Z.leb_spec (fbn + (j + 1) * sz) bn), (Z.leb_spec (fbn + j * sz) bn), (Z.ltb_spec bn (fbn + 256 * sz)),
      (Z.ltb_spec bn (fbn + (j + 1) * sz)), (keep <=? bn); simpl; try done; nia.
  - intros Hk j' Hj'. destruct (decide (j' = j)) as [->|]; [|apply Hz'; [done|lia]].
    assert (Hch' : node V' AF (child P j) = node V1 AF (child P j)) by (apply Hkeep; lia).
    rewrite !node_child in Hch'. rewrite (ct_out _ _ _ _ _ _ Hc' P HP (not_below_self P)) in Hch'.
    rewrite (ct_out _ _ _ _ _ _ Hcb P HP (not_below_self P)), Hnt in Hch'. rewrite (proj2 (Z.eqb_neq _ _) Ht) in Hch'.
    rewrite Hch'. by apply Hz.
  - intros j' Hj'. rewrite Hkeep by lia. apply (ct_out _ _ _ _ _ _ Hc); [apply Hch; unfold idx_ok; lia|].
    intros Hw%within_child_inj. lia.
Qed.

Lemma trunc_entries_ok n j dirty V s :
  moves s0 V I s -> wf sb V AF -> node V AF P = t -> 0 <= j -> j + Z.of_nat n = XV6FS_NINDIRECT ->
  wp E (trunc_entries free_it t n j dirty) (fun _ s' => entries_post V j s') s.
Proof using All.
  revert j dirty V s. induction n as [|n IH]; intros j dirty V s Hm Hwf Hnt H0 Hn; cbn [trunc_entries].
  { apply wp_ret. exists V. split; [done|]. split; [by apply cut_refl|]. split; [|split; [lia|done]].
    intros bn Hbn. unfold rng. replace j with XV6FS_NINDIRECT by lia.
    by destruct (Z.leb_spec (fbn + XV6FS_NINDIRECT * sz) bn), (Z.ltb_spec bn (fbn + XV6FS_NINDIRECT * sz)); try lia. }
  assert (Hj : idx_ok j) by (unfold idx_ok; lia). pose proof (child_valid j Hj) as Hcj.
  assert (Hentry : node V AF (child P j) = tbl V t j) by (rewrite node_child, Hnt; by rewrite (proj2 (Z.eqb_neq _ _) Ht)).
  wp_step. fs_step Hm. change (get32 (V t) (4 * j)) with (tbl V t j). wp_step.
  eapply wp_mono; [by apply Hfree|]. clear Hm. intros e s2 (V1&Hm&Hc&He&Hk&Hg).
  assert (Hc' : cut sb (within (child P j)) V AF V1 AF) by (by eapply cut_mono; [apply below_within|]).
  pose proof (ct_wf _ _ _ _ _ _ Hc) as Hwf1.
  assert (Hnt1 : node V1 AF P = t).
  { rewrite (ct_out _ _ _ _ _ _ Hc); [done|done|]. intros Hb%below_within%within_child_below. by apply not_below_self in Hb. }
  assert (Hentry1 : node V1 AF (child P j) = tbl V t j).
  { rewrite (ct_out _ _ _ _ _ _ Hc); [done|done|]. apply not_below_self. }
  destruct e.
  - destruct (He eq_refl) as [Hne Hch]. 
    eapply (clear_entry_ok V1 P j); [exact Hnt1|exact Hentry1|exact Hm|done|done|done|done|done|].
    intros V2 s3 Hm2 Hc2 Hn2. assert (Hnt2 : node V2 AF P = t).
    { rewrite Hn2 by done. rewrite decide_False; [done|]. intros HPc. apply (not_below_self P).
      apply (within_child_below P j). exists []. rewrite app_nil_r. by destruct P. }
    eapply wp_mono; [apply (IH (j + 1) true V2); [done|apply Hc2|done|lia|lia]|]. intros d' s4 Hp. simpl in *.
    apply (entries_step V j V2); try done; [by eapply cut_trans| |].
    + intros _. pose proof (Hn2 (child P j) Hcj) as Hz. rewrite decide_True in Hz by done.
      rewrite node_child, Hnt2, (proj2 (Z.eqb_neq _ _) Ht) in Hz. done.
    + intros bn Hbn. rewrite <- Hg by done. destruct (decide (0 <= p_ino P < sb_ninodes sb)) as [Hi|Hi]; [|by destruct Hi; apply HP].
      destruct (fp_valid sb (p_ino P) bn Hi Hbn) as [Hfv _]. rewrite Hn2 by done. simpl. by case_bool_decide; case_decide.
  - eapply wp_mono; [apply (IH (j + 1) dirty V1); [done|done|done|lia|lia]|]. intros d' s4 Hp. simpl in *.
    apply (entries_step V j V1); try done.
    intros Hkeep. destruct (Z.eq_dec (tbl V t j) 0) as [Hz|Hz]; [|by specialize (Hk Hkeep Hz)].
    rewrite node_child, Hnt1, (proj2 (Z.eqb_neq _ _) Ht) in Hentry1. congruence.
Qed.
End entries.

Lemma fp_covers P n fbn x : covers P n fbn -> 0 <= x < 256 ^ Z.of_nat n -> within P (fp P.(p_ino) (fbn + x)).
Proof using. intros (_&_&Hc) Hx. exists (digits n x). unfold fp. by rewrite Hc. Qed.

(** A table of [lvl] levels below it. *)
Definition table_post (V : Z -> block) (P : pos) (lvl : nat) (fbn : Z) (e : bool) (s' : fsst) : Prop :=
  exists V', moves s0 V' I s' /\ cut sb (below P) V AF V' AF /\
    gone P.(p_ino) (rng fbn (fbn + 256 ^ Z.of_nat (S lvl))) V AF V' AF /\
    (e = true -> forall j, valid sb (child P j) -> node V' AF (child P j) = 0) /\ (keep <= fbn -> e = true).

(** The loop gives the result of the function: the last look at the table. *)
Lemma table_end V P lvl fbn t dirty s :
  valid sb P -> t <> 0 -> wf sb V AF -> node V AF P = t ->
  entries_post P t fbn (256 ^ Z.of_nat lvl) V 0 s ->
  wp E (d ← bread t; if block_table_empty d then mret true
        else (if dirty : bool then log_write t else mret ());; mret false) (table_post V P lvl fbn) s.
Proof using HE Ho.
  intros HP Ht Hwf Hnt (V'&Hm&Hc&Hg&Hz&_). rewrite Z.mul_0_l, Z.add_0_r in Hg. change XV6FS_NINDIRECT with 256 in Hg, Hz.
  replace (256 * 256 ^ Z.of_nat lvl) with (256 ^ Z.of_nat (S lvl)) in Hg by (rewrite Nat2Z.inj_succ, Z.pow_succ_r by lia; done).
  assert (Hnt' : node V' AF P = t) by (rewrite (ct_out _ _ _ _ _ _ Hc); [done|done|apply not_below_self]).
  wp_step. fs_step Hm. destruct (block_table_empty (V' t)) eqn:He.
  - apply wp_ret. exists V'. split; [done|]. split; [done|]. split; [done|]. split; [|done].
    intros _ j Hj. rewrite node_child, Hnt', (proj2 (Z.eqb_neq _ _) Ht).
    destruct P. destruct (valid_parent _ _ _ _ _ Hj) as (_&Hij&_). by apply block_table_empty_spec.
  - assert (Hnk : ~ keep <= fbn).
    { intros Hk. apply not_true_iff_false in He. apply He, block_table_empty_spec. intros j Hj. by apply Hz. }
    wp_step. destruct dirty; [fs_step Hm; wp_step|wp_step; wp_step]; exists V'; (split; [done|]); (split; [done|]); (split; [done|]); done.
Qed.

Section free.
Context (P : pos) (HP : valid sb P) (t fbn : Z) (Ht : t <> 0) (V : Z -> block) (j : Z) (s : fsst).
Context (Hm : moves s0 V I s) (Hwf : wf sb V AF) (Hnt : node V AF P = t) (Hj : idx_ok j).

Lemma entry_node : node V AF (child P j) = tbl V t j.
Proof using Hnt Ht. rewrite node_child, Hnt. by rewrite (proj2 (Z.eqb_neq _ _) Ht). Qed.

(** An entry that points to a block of the file. *)
Lemma free_leaf_ok : S (length P.(p_path)) = depth P.(p_root) -> covers P 1 fbn ->
  wp E (mret ((keep <=? fbn + j) && negb (tbl V t j =? 0))) (free_post P t fbn 1 V j) s.
Proof using Hm Hwf Hnt Hj Ht.
  intros Hlen Hcov. apply wp_ret. exists V. split; [done|]. split; [by apply cut_refl|].
  pose proof (covers_child P 0 fbn j Hj Hcov) as Hcc. change (256 ^ Z.of_nat 0) with 1 in Hcc. rewrite Z.mul_1_r in Hcc.
  assert (Hleaf : fp (p_ino P) (fbn + j) = child P j).
  { destruct Hcc as (_&_&Hx). specialize (Hx 0 ltac:(done)). rewrite Z.add_0_r in Hx. unfold fp. rewrite Hx. simpl.
    by rewrite app_nil_r. }
  split; [|split].
  - intros [_ Hne%negb_true_iff%Z.eqb_neq]%andb_prop. split; [done|]. intros j' [_ _ Hl _]. simpl in Hl.
    rewrite !length_app in Hl. simpl in Hl. lia.
  - intros Hk Hne. unfold idx_ok in Hj. rewrite (proj2 (Z.leb_le keep (fbn + j))) by lia. by rewrite (proj2 (Z.eqb_neq _ _) Hne).
  - intros bn Hbn. unfold rng. rewrite !Z.mul_1_r. destruct (decide (bn = fbn + j)) as [->|Hne].
    + rewrite Hleaf, bool_decide_true, andb_true_r, entry_node by done.
      destruct (Z.leb_spec (fbn + j) (fbn + j)), (Z.ltb_spec (fbn + j) (fbn + (j + 1))); try lia.
      simpl. destruct (keep <=? fbn + j), (Z.eqb_spec (tbl V t j) 0); simpl; congruence.
    + rewrite bool_decide_false, andb_false_r.
      * destruct (Z.leb_spec (fbn + j) bn), (Z.ltb_spec bn (fbn + (j + 1))); simpl; done || lia.
      * rewrite <- Hleaf. intros Heq. destruct Hcc as (Hc0&Hc1&_). change (256 ^ Z.of_nat 0) with 1 in Hc1.
        apply fp_inj in Heq as [_ ?]; done || lia.
Qed.

(** An entry that points to a table; [rec] is the call for that table. *)
Lemma free_inner_ok lvl rec : (length P.(p_path) + S (S lvl) = depth P.(p_root))%nat -> covers P (S (S lvl)) fbn ->
  (tbl V t j <> 0 -> wp E rec (table_post V (child P j) lvl (fbn + j * 256 ^ Z.of_nat (S lvl))) s) ->
  wp E (if tbl V t j =? 0 then mret false else rec) (free_post P t fbn (256 ^ Z.of_nat (S lvl)) V j) s.
Proof using HP Hm Hwf Hnt Hj Ht.
  intros Hlen Hcov Hrec. pose proof (covers_child P (S lvl) fbn j Hj Hcov) as Hcc. pose proof (pow256_pos (S lvl)) as Hpow.
  set (sz := 256 ^ Z.of_nat (S lvl)) in *. assert (Hend : fbn + (j + 1) * sz = fbn + j * sz + sz) by lia.
  destruct (Z.eqb_spec (tbl V t j) 0) as [Hz|Hne].
  - apply wp_ret. exists V. split; [done|]. split; [by apply cut_refl|]. split; [done|]. split; [done|].
    intros bn Hbn. simpl. unfold rng. rewrite Hend.
    destruct (Z.leb_spec (fbn + j * sz) bn) as [Hlo|]; [|done]. destruct (Z.ltb_spec bn (fbn + j * sz + sz)) as [Hhi|]; [|done].
    destruct (keep <=? bn); [|done]. simpl. apply (node_within V AF (child P j)); [|rewrite entry_node; done].
    replace bn with (fbn + j * sz + (bn - (fbn + j * sz))) by lia. apply (fp_covers (child P j) _ _ _ Hcc). fold sz. lia.
  - eapply wp_mono; [by apply Hrec|]. intros e s2 (V'&Hm'&Hc&Hg&He&Hk). exists V'. split; [done|]. split; [done|]. split; [|split].
    + intros ->. split; [done|]. by apply He.
    + intros Hkeep _. apply Hk. unfold idx_ok in Hj. nia.
    + intros bn Hbn. destruct (fp_valid sb (p_ino P) bn (va_ino _ _ HP) Hbn) as [_ Hl]. rewrite bool_decide_false, andb_false_r.
      * rewrite Hend. by apply Hg.
      * intros Heq. rewrite Heq in Hl. unfold leaf in Hl. simpl in Hl. rewrite length_app in Hl. simpl in Hl. lia.
Qed.
End free.

Lemma trunc_table_ok lvl P fbn t V s :
  moves s0 V I s -> wf sb V AF -> valid sb P -> node V AF P = t -> t <> 0 ->
  (length P.(p_path) + S lvl = depth P.(p_root))%nat -> covers P (S lvl) fbn ->
  wp E (trunc_table lvl t fbn keep) (table_post V P lvl fbn) s.
Proof using HE Ho Hsb.
  revert P fbn t V s. induction lvl as [|lvl IH]; intros P fbn t V s Hm Hwf HP Hnt Ht Hlen Hcov; cbn [trunc_table];
    wp_step; fs_step Hm; wp_step.
  - eapply wp_mono; [eapply (trunc_entries_ok P HP ltac:(lia) t Ht fbn 1 ltac:(lia)); [|exact Hm|done|done|lia|done]|].
    + intros V1 j s2 Hm2 Hwf2 Hnt2 Hj. apply free_leaf_ok; done || lia.
    + intros dirty s2 Hp. by apply table_end.
  - eapply wp_mono; [eapply (trunc_entries_ok P HP ltac:(lia) t Ht fbn _ (pow256_pos (S lvl))); [|exact Hm|done|done|lia|done]|].
    + intros V1 j s2 Hm2 Hwf2 Hnt2 Hj. apply free_inner_ok; try done. intros Hne.
      apply IH; try done; [apply child_valid; done || lia|by apply entry_node|simpl; rewrite length_app; simpl; lia|].
      by apply covers_child.
    + intros dirty s2 Hp. by apply table_end.
Qed.
End table.

(** ** The inode *)

Section itrunc.
Context (E : panic -> Prop) (HE : E LogOverflow) (s0 : fsst) (Ho : in_op s0).
Context (sb : superblock) (Hsb : s0.(f_sb) = sb) (ip i keep : Z).

(** Inode [i] lost blocks; nothing else changed. *)
Record trimmed (V : Z -> block) (I : Z -> inode) (V' : Z -> block) (I' : Z -> inode) : Prop := mkTrimmed {
  tr_fok : fok sb V' I';
  tr_held : held I' ip i;
  tr_only : only ip I I';
  tr_d : (I' ip).(i_d) = let d := (I ip).(i_d) in
    mkDi d.(di_type) d.(di_major) d.(di_minor) d.(di_nlink) d.(di_size) d.(di_mtime) (I' ip).(i_d).(di_addrs);
  tr_cut : cut sb (fun Q => Q.(p_ino) = i) V (roots sb V I) V' (roots sb V' I') }.

Lemma trimmed_refl V I : fok sb V I -> held I ip i -> trimmed V I V I.
Proof using. intros Hf Hh. split; [done|done|apply only_refl|by destruct (i_d (I ip))|apply cut_refl, Hf]. Qed.

Lemma trimmed_trans V I V1 I1 V2 I2 : trimmed V I V1 I1 -> trimmed V1 I1 V2 I2 -> trimmed V I V2 I2.
Proof using.
  intros [H1 H2 H3 H4 H5] [K1 K2 K3 K4 K5]. split; [done|done|by eapply only_trans| |by eapply cut_trans].
  rewrite K4, H4. done.
Qed.

#[local] Instance cut_proper D : Proper (pw ==> pw ==> pw ==> pw ==> impl) (cut sb D).
Proof using.
  intros V V1 HV A A1 HA V' V1' HV' A' A1' HA' [H1 H2 H3 H4 H5 H6]. split.
  - by rewrite <- HV', <- HA'.
  - intros Q. rewrite <- HV, <- HA, <- HV', <- HA'. apply H2.
  - intros Q. rewrite <- HV, <- HA, <- HV', <- HA'. apply H3.
  - intros Q. assert (node V1' A1' Q = node V' A' Q) as -> by (by rewrite HV', HA').
    rewrite <- (HV' (node V' A' Q)), <- (HV (node V' A' Q)). apply H4.
  - intros x. rewrite <- (HV' x), <- (HV x). apply H5.
  - intros b. rewrite <- HV, <- HV'. apply H6.
Qed.

Lemma gone_pw S V V1 A A1 V' V1' A' A1' : pw V V1 -> pw A A1 -> pw V' V1' -> pw A' A1' ->
  gone i S V A V' A' -> gone i S V1 A1 V1' A1'.
Proof using. intros HV HA HV' HA' H bn. rewrite <- HV, <- HA, <- HV', <- HA'. apply H. Qed.

(** Tables changed, but not the inode. *)
Lemma trimmed_tables V I V' (D : pos -> Prop) : fok sb V I -> held I ip i -> (forall Q, D Q -> Q.(p_ino) = i) ->
  cut sb D V (roots sb V I) V' (roots sb V I) -> trimmed V I V' I /\ pw (roots sb V I) (roots sb V' I).
Proof using.
  intros Hf Hh HD Hc. pose proof (fk_wf _ _ _ Hf) as Hwf. pose proof (fk_table _ _ _ Hf) as Ht.
  assert (HA : pw (roots sb V I) (roots sb V' I)).
  { pose proof (only_roots sb V V' I I ip i (wf_layout _ _ _ Hwf) Ht Hh (only_refl _ _) (ct_meta _ _ _ _ _ _ Hc)) as HA.
    intros y. rewrite <- (HA y), fset_spec. case_decide as Hy; [|done]. rewrite Hy. by apply roots_held. }
  split; [|done]. split; [split; [|done]|done|apply only_refl|by destruct (i_d (I ip))|].
  - rewrite <- HA. apply Hc.
  - rewrite <- HA. by eapply cut_mono.
Qed.

(** Freeing what root [k] points to. *)
Lemma drop_root_ok V I k s (Q : unit -> fsst -> Prop) :
  let a := zget (I ip).(i_d).(di_addrs) k in
  moves s0 V I s -> fok sb V I -> held I ip i -> 0 <= k < XV6FS_NDIRECT + 3 -> a <> 0 ->
  (forall j, valid sb (mkPos i k [j]) -> node V (roots sb V I) (mkPos i k [j]) = 0) ->
  (forall V' I' s', moves s0 V' I' s' -> trimmed V I V' I' ->
     (forall P, valid sb P -> node V' (roots sb V' I') P = if decide (P = mkPos i k []) then 0 else node V (roots sb V I) P) ->
     (I' ip).(i_d).(di_addrs) = zset (I ip).(i_d).(di_addrs) k 0 -> Q tt s') ->
  wp E (bfree a;; set_addr ip k 0) Q s.
Proof using HE Ho Hsb.
  intros a Hm Hf Hh Hk Ha Hch HQ. pose proof (fk_wf _ _ _ Hf) as Hwf. pose proof (fk_table _ _ _ Hf) as Ht.
  pose proof (wf_layout _ _ _ Hwf) as Hl. pose proof (layout_order sb Hl). pose proof (held_inum _ _ _ _ Ht Hh) as Hi.
  assert (HP : valid sb (mkPos i k [])) by (split; simpl; done || lia).
  assert (Hroot : node V (roots sb V I) (mkPos i k []) = a) by (unfold node; simpl; by rewrite (roots_held _ _ _ _ _ Ht Hh)).
  assert (Hr0 : node V (roots sb V I) (mkPos i k []) <> 0) by congruence.
  destruct (wf_node _ _ _ Hwf _ HP Hr0) as [Hab Hbit]. rewrite Hroot in Hab, Hbit.
  destruct (unlink_root sb V (roots sb V I) Hwf i k HP Hr0 Hch) as (Hw&Hn&Hb). rewrite Hroot in Hw, Hn, Hb.
  wp_step. eapply (bfree_ok E HE s0 Ho sb Hsb V I); [|exact Hbit|exact Hm|]; [lia|]. clear Hm s. intros s Hm.
  unfold set_addr, set_d. fs_step Hm. set (V' := clear_bit sb V a) in *. set (I' := fset I ip _) in *.
  assert (Hon : only ip I I') by (split; [intros x Hx; by apply fset_ne|unfold I'; by rewrite fset_eq]).
  assert (Hmeta : forall x, x < sb_bmapstart sb -> V' x = V x) by (intros x Hx; apply clear_bit_same; done || lia).
  assert (Hd' : (I' ip).(i_d) = let d := (I ip).(i_d) in mkDi d.(di_type) d.(di_major) d.(di_minor) d.(di_nlink) d.(di_size)
            d.(di_mtime) (zset d.(di_addrs) k 0)) by (unfold I'; by rewrite fset_eq).
  assert (HA : pw (fset (roots sb V I) i (zset (roots sb V I i) k 0)) (roots sb V' I')).
  { pose proof (only_roots sb V V' I I' ip i Hl Ht Hh Hon Hmeta) as HA. rewrite Hd' in HA. by rewrite (roots_held _ _ _ _ _ Ht Hh). }
  assert (Hcut : cut sb (fun Q => p_ino Q = i) V (roots sb V I) V' (fset (roots sb V I) i (zset (roots sb V I i) k 0))).
  { apply (cut_unlink _ _ _ _ _ _ (mkPos i k [])); try done; [|by rewrite Hroot].
    intros P' HP' _ Hne. pose proof (node_bound sb V _ Hwf _ HP' Hne). apply clear_bit_same; done || lia. }
  eapply HQ; [exact Hm| | |by rewrite Hd'].
  - split; [split; [by rewrite <- HA|]|by apply (only_held ip I)|done|by rewrite Hd'|by rewrite <- HA].
    apply (only_table sb ip I); [done| |done]. intros _. rewrite Hd'.
    apply set_addr_d; [|done|lia]. apply (tb_d _ _ Ht ip (hd_slot _ _ _ Hh) (hd_ref _ _ _ Hh) (hd_valid _ _ _ Hh)).
  - intros P' HP'. rewrite <- HA. by apply Hn.
Qed.

(** What the code for root [k] does; the file blocks from [lo] to [hi] are under it. *)
Definition root_post (k lo hi : Z) (V : Z -> block) (I : Z -> inode) (s' : fsst) : Prop :=
  exists V' I', moves s0 V' I' s' /\ trimmed V I V' I' /\ gone i (rng keep lo hi) V (roots sb V I) V' (roots sb V' I') /\
    (keep <= lo -> zget (I' ip).(i_d).(di_addrs) k = 0) /\
    (forall k', 0 <= k' -> k' <> k -> zget (I' ip).(i_d).(di_addrs) k' = zget (I ip).(i_d).(di_addrs) k').

Section root.
Context (V : Z -> block) (I : Z -> inode) (Hf : fok sb V I) (Hh : held I ip i).

Lemma root_node k : node V (roots sb V I) (mkPos i k []) = zget (I ip).(i_d).(di_addrs) k.
Proof using Hf Hh. unfold node. simpl. by rewrite (roots_held _ _ _ _ _ (fk_table _ _ _ Hf) Hh). Qed.

Lemma addrs_len : zlen (I ip).(i_d).(di_addrs) = XV6FS_NDIRECT + 3.
Proof using Hf Hh.
  rewrite <- (roots_held sb V I ip i (fk_table _ _ _ Hf) Hh). apply (wf_addrs _ _ _ (fk_wf _ _ _ Hf)).
Qed.

Lemma ino_ok : 0 <= i < sb.(sb_ninodes).
Proof using Hf Hh. apply (held_inum _ _ _ _ (fk_table _ _ _ Hf) Hh). Qed.

Lemma fpos_direct k : 0 <= k < XV6FS_NDIRECT -> fp i k = mkPos i k [].
Proof using. intros Hk. unfold fp, fpos. by rewrite (proj2 (Z.ltb_lt _ _) (proj2 Hk)). Qed.

Lemma trunc_direct_ok k s : moves s0 V I s -> 0 <= k < XV6FS_NDIRECT ->
  wp E (trunc_direct ip keep k) (fun _ => root_post k k (k + 1) V I) s.
Proof using HE Ho Hsb Hf Hh.
  intros Hm Hk. pose proof (fpos_direct k Hk) as Hfp. pose proof ino_ok as Hi. pose proof addrs_len as Hlen.
  change XV6FS_NDIRECT with 9 in *. unfold trunc_direct. wp_step. fs_step Hm.
  destruct ((keep <=? k) && negb (zget (di_addrs (i_d (I ip))) k =? 0)) eqn:Hc.
  - apply andb_prop in Hc as [Hkeep%Z.leb_le Hne%negb_true_iff%Z.eqb_neq].
    eapply drop_root_ok; [exact Hm|done|done|change XV6FS_NDIRECT with 9; lia|done| |].
    { intros j [_ _ Hlj _]. simpl in Hlj. unfold depth in Hlj. change XV6FS_NDIRECT with 9 in Hlj.
      rewrite (proj2 (Z.ltb_lt k 9)) in Hlj by lia. lia. }
    intros V' I' s' Hm' Htr Hn Ha. exists V', I'. split; [done|]. split; [done|]. split; [|rewrite Ha; split].
    + intros bn Hbn. destruct (fp_valid sb i bn Hi Hbn) as [HP _]. rewrite Hn by done. unfold rng. rewrite <- Hfp.
      destruct (decide (bn = k)) as [->|Hbk].
      * rewrite decide_True by done. destruct (Z.leb_spec k k), (Z.ltb_spec k (k + 1)), (Z.leb_spec keep k); done || lia.
      * rewrite decide_False.
        -- by destruct (Z.leb_spec k bn), (Z.ltb_spec bn (k + 1)); try lia.
        -- intros He. apply fp_inj in He as [_ ?]; [done|done|]. change XV6FS_MAXFILE with 16843017. lia.
    + intros _. by apply zget_zset_eq; lia.
    + intros k' Hk' Hne'. apply zget_zset_ne; lia.
  - apply wp_ret. exists V, I. split; [done|]. split; [by apply trimmed_refl|].
    assert (Hz : keep <= k -> zget (di_addrs (i_d (I ip))) k = 0).
    { intros Hkeep. rewrite (proj2 (Z.leb_le _ _) Hkeep) in Hc. by destruct (Z.eqb_spec (zget (di_addrs (i_d (I ip))) k) 0). }
    split; [|split; [done|done]]. intros bn Hbn. unfold rng.
    destruct (Z.leb_spec k bn), (Z.ltb_spec bn (k + 1)), (Z.leb_spec keep bn); simpl; try done.
    assert (bn = k) as -> by lia. rewrite Hfp, root_node. auto.
Qed.

Lemma trunc_root_ok lvl k fbn s : moves s0 V I s -> 0 <= k < XV6FS_NDIRECT + 3 -> depth k = S lvl ->
  covers (mkPos i k []) (S lvl) fbn ->
  wp E (trunc_root ip keep lvl k fbn) (fun _ => root_post k fbn (fbn + 256 ^ Z.of_nat (S lvl)) V I) s.
Proof using HE Ho Hsb Hf Hh.
  intros Hm Hk Hdep Hcov. pose proof ino_ok as Hi. pose proof addrs_len as Hlen.
  assert (HP : valid sb (mkPos i k [])) by (split; simpl; done || lia).
  unfold trunc_root. wp_step. fs_step Hm. rewrite <- root_node.
  destruct (Z.eqb_spec (node V (roots sb V I) (mkPos i k [])) 0) as [Hz|Hne].
  { apply wp_ret. exists V, I. split; [done|]. split; [by apply trimmed_refl|]. split; [|split; [by rewrite <- root_node|done]].
    intros bn Hbn. destruct (rng keep fbn (fbn + 256 ^ Z.of_nat (S lvl)) bn) eqn:Hr; [|done].
    apply andb_prop in Hr as [[Hlo%Z.leb_le Hhi%Z.ltb_lt]%andb_prop _]. apply (node_within V _ (mkPos i k [])); [|done].
    replace bn with (fbn + (bn - fbn)) by lia. apply (fp_covers _ _ _ _ Hcov). lia. }
  wp_step. eapply wp_mono; [apply (trunc_table_ok E HE s0 Ho sb Hsb I (roots sb V I) keep lvl (mkPos i k []) fbn _ V); try done; apply Hf|].
  clear Hm. intros e s1 (V1&Hm&Hc&Hg&He&Hk0).
  assert (Hbelow : forall Q, below (mkPos i k []) Q -> p_ino Q = i) by (by intros Q (r&_&->)).
  destruct (trimmed_tables V I V1 _ Hf Hh Hbelow Hc) as [Htr HA]. simpl in Hg.
  assert (Hg1 : gone i (rng keep fbn (fbn + 256 ^ Z.of_nat (S lvl))) V (roots sb V I) V1 (roots sb V1 I))
    by (intros bn Hbn; rewrite <- HA; by apply Hg).
  destruct e.
  2:{ apply wp_ret. exists V1, I. split; [done|]. split; [done|]. split; [done|]. split; [intros Hkeep; by specialize (Hk0 Hkeep)|done]. }
  pose proof (tr_fok _ _ _ _ Htr) as Hf1. rewrite root_node.
  eapply drop_root_ok; [exact Hm|done|done|done|by rewrite <- root_node| |].
  { intros j Hj. rewrite <- HA. by apply (He eq_refl). }
  intros V' I' s' Hm' Htr' Hn Ha. exists V', I'. split; [done|]. split; [by eapply trimmed_trans|]. split; [|rewrite Ha; split].
  - intros bn Hbn. destruct (fp_valid sb i bn Hi Hbn) as [HP' Hl]. rewrite Hn by done. rewrite decide_False; [by apply Hg1|].
    intros Heq. rewrite Heq in Hl. unfold leaf in Hl. simpl in Hl. lia.
  - intros _. apply zget_zset_eq. lia.
  - intros k' Hk' Hne'. apply zget_zset_ne; lia.
Qed.
End root.

(** The roots below [K] and the file blocks below [n] have been dealt with. *)
Definition progress (K n : Z) (V : Z -> block) (I : Z -> inode) (s' : fsst) : Prop :=
  exists V' I', moves s0 V' I' s' /\ trimmed V I V' I' /\ gone i (rng keep 0 n) V (roots sb V I) V' (roots sb V' I') /\
    (keep <= 0 -> forall k, 0 <= k < K -> zget (I' ip).(i_d).(di_addrs) k = 0).

Lemma progress_step K n m V I V1 I1 s' :
  0 <= K -> 0 <= n <= m -> trimmed V I V1 I1 -> gone i (rng keep 0 n) V (roots sb V I) V1 (roots sb V1 I1) ->
  (keep <= 0 -> forall k, 0 <= k < K -> zget (I1 ip).(i_d).(di_addrs) k = 0) ->
  root_post K n m V1 I1 s' -> progress (K + 1) m V I s'.
Proof using.
  intros HK Hn Htr Hg Hz (V2&I2&Hm&Htr2&Hg2&Hz2&Hsame). exists V2, I2. split; [done|]. split; [by eapply trimmed_trans|]. split.
  - intros bn Hbn. rewrite Hg2, Hg by done. unfold rng.
    destruct (Z.leb_spec 0 bn), (Z.leb_spec n bn), (Z.ltb_spec bn n), (Z.ltb_spec bn m), (keep <=? bn); simpl; done || lia.
  - intros Hk k Hkr. destruct (decide (k = K)) as [->|]; [apply Hz2; lia|]. rewrite Hsame by lia. apply Hz; [done|lia].
Qed.

Lemma trunc_all_ok V I s : moves s0 V I s -> fok sb V I -> held I ip i ->
  wp E (mfor (Z.to_nat XV6FS_NDIRECT) 0 (trunc_direct ip keep);;
        trunc_root ip keep 0 XV6FS_NDIRECT XV6FS_NDIRECT;;
        trunc_root ip keep 1 (XV6FS_NDIRECT + 1) (XV6FS_NDIRECT + XV6FS_NINDIRECT);;
        trunc_root ip keep 2 (XV6FS_NDIRECT + 2) (XV6FS_NDIRECT + XV6FS_NINDIRECT + XV6FS_NDINDIRECT))
    (fun _ => progress (XV6FS_NDIRECT + 3) XV6FS_MAXFILE V I) s.
Proof using HE Ho Hsb.
  intros Hm Hf Hh. wp_step.
  eapply wp_mono; [apply (wp_for E (fun j => progress j j V I))|].
  { exists V, I. split; [done|]. split; [by apply trimmed_refl|]. split; [|lia].
    intros bn Hbn. unfold rng. destruct (Z.leb_spec 0 bn), (Z.ltb_spec bn 0); simpl; done || lia. }
  { intros j s1 Hj (V1&I1&Hm1&Htr&Hg&Hz). rewrite Z.add_0_l, Z2Nat.id in Hj by done.
    eapply wp_mono; [apply (trunc_direct_ok V1 I1); try done; apply Htr|]. intros [] s2 Hr.
    eapply progress_step; [| |exact Htr|exact Hg|exact Hz|exact Hr]; lia. }
  clear Hm. cbv beta. intros [] s1 (V1&I1&Hm&Htr&Hg&Hz). change (0 + Z.of_nat (Z.to_nat XV6FS_NDIRECT)) with XV6FS_NDIRECT in *.
  wp_step. eapply wp_mono; [apply (trunc_root_ok V1 I1); try done; [apply Htr..|apply covers_single]|].
  intros [] s2 Hr. eapply progress_step in Hr as (V2&I2&Hm2&Htr2&Hg2&Hz2); try done.
  wp_step. eapply wp_mono; [apply (trunc_root_ok V2 I2); try done; [apply Htr2..|apply covers_double]|].
  intros [] s3 Hr3. eapply progress_step in Hr3 as (V3&I3&Hm3&Htr3&Hg3&Hz3); try done.
  eapply wp_mono; [apply (trunc_root_ok V3 I3); try done; [apply Htr3..|apply covers_triple]|].
  intros [] s4 Hr4. eapply progress_step in Hr4; [exact Hr4| | |exact Htr3|exact Hg3|exact Hz3]; done.
Qed.
End itrunc.

(** What truncation leaves: see [itrunc_to_ok]. *)
Definition itrunc_post (s0 : fsst) (sb : superblock) (ip i length : Z) (V : Z -> block) (I : Z -> inode) (s' : fsst) : Prop :=
  exists V' I', moves s0 V' I' s' /\ fok sb V' I' /\ held I' ip i /\ only ip I I' /\
    (let d := (I ip).(i_d) in let d' := (I' ip).(i_d) in
     d' = mkDi d.(di_type) d.(di_major) d.(di_minor) d.(di_nlink) length d'.(di_mtime) d'.(di_addrs)) /\
    disk_inode sb V' i = (I' ip).(i_d) /\
    (length = 0 -> forall k, 0 <= k < XV6FS_NDIRECT + 3 -> zget (I' ip).(i_d).(di_addrs) k = 0) /\
    (forall j, 0 <= j < sb.(sb_ninodes) -> j <> i ->
       inode_now sb V' I' j = inode_now sb V I j /\ disk_inode sb V' j = disk_inode sb V j) /\
    (forall i' off, 0 <= i' < sb.(sb_ninodes) -> 0 <= off < XV6FS_MAXFILE * BSIZE ->
       fbyte V' (roots sb V' I') i' off =
       if bool_decide (i' = i) && ((length + BSIZE - 1) / BSIZE <=? off / BSIZE) then 0 else fbyte V (roots sb V I) i' off) /\
    (forall b, 0 <= b < sb.(sb_size) -> bit sb V' b = true -> bit sb V b = true).

Lemma bind_assoc3 {S A} (m1 m2 m3 m4 : ST S unit) (k : ST S A) E Q s :
  wp E (m1;; m2;; m3;; m4) (fun _ => wp E k Q) s -> wp E (m1;; m2;; m3;; m4;; k) Q s.
Proof.
  unfold wp, mbind, ST_bind. destruct (m1 s) as [[? s1]|]; [|done]. destruct (m2 s1) as [[? s2]|]; [|done].
  destruct (m3 s2) as [[? s3]|]; [|done]. by destruct (m4 s3) as [[? s4]|].
Qed.

Lemma itrunc_to_ok E s0 sb ip i V I length s :
  E LogOverflow -> in_op s0 -> s0.(f_sb) = sb -> moves s0 V I s -> fok sb V I -> held I ip i ->
  0 <= length <= 2 ^ 32 - BSIZE ->
  wp E (xv6fs_itrunc_to ip length) (fun _ => itrunc_post s0 sb ip i length V I) s.
Proof.
  intros HE Ho Hsb Hm Hf Hh Hlen. unfold xv6fs_itrunc_to. rewrite u32_small by (change BSIZE with 1024 in *; lia).
  set (keep := (length + BSIZE - 1) / BSIZE). apply bind_assoc3.
  eapply wp_mono; [apply (trunc_all_ok E HE s0 Ho sb Hsb ip i keep V I); done|]. clear Hm.
  cbv beta. intros [] s1 (V1&I1&Hm&[Hf1 Hh1 Hon1 Hd1 Hc1]&Hg&Hz).
  pose proof (held_d sb ip i V1 I1 Hf1 Hh1) as Hdok1.
  wp_step. eapply (wp_set_d E s0 sb ip i V1 I1); [exact Hm|done|done|by destruct Hdok1; split; simpl; try (change BSIZE with 1024 in *; lia)|done|].
  clear Hm. intros I2 s2 Hm [Hf2 Hh2 Hon2 HA2 Ha2] Hd2. pose proof (held_d sb ip i V1 I2 Hf2 Hh2) as Hdok2.
  wp_step. eapply wp_fs_now; [exact Hm|]. clear Hm. intros t s3 Ht Hm.
  wp_step. eapply (wp_set_d E s0 sb ip i V1 I2); [exact Hm|done|done|by destruct Hdok2; split|done|].
  clear Hm. intros I3 s4 Hm [Hf3 Hh3 Hon3 HA3 Ha3] Hd3.
  eapply (iupdate_ok E HE s0 Ho sb Hsb ip i V1 I3); [exact Hm|done|]. clear Hm. intros s5 Hm.
  destruct (store_inode_keeps sb ip i V1 I3 Hf3 Hh3) as (Hf4&HA4&Hnow4&Hb4). set (V4 := store_inode sb V1 i (i_d (I3 ip))) in *.
  pose proof (fk_wf _ _ _ Hf3) as Hwf3. pose proof (wf_layout _ _ _ Hwf3) as Hl. pose proof (layout_order sb Hl).
  pose proof (held_inum _ _ _ _ (fk_table _ _ _ Hf3) Hh3) as Hi.
  assert (Hon : only ip I I3) by (by eapply only_trans; [|eapply only_trans]).
  exists V4, I3. split; [done|]. split; [done|]. split; [done|]. split; [done|].
  split; [rewrite Hd3, Hd2, Hd1; done|]. split; [apply disk_inode_store; [apply (wf_blocks _ _ _ Hwf3)|by apply (held_d sb ip i V1)]|].
  split; [|split; [|split]].
  - intros Hl0 k Hk. rewrite Ha3, Ha2. apply Hz; [|done]. unfold keep. subst length. done.
  - apply (others_kept sb ip i V I V1 I3); try done; [apply (fk_table _ _ _ Hf)|apply Hc1].
  - intros i' off Hi' Hoff. rewrite Hb4 by done. rewrite decide_False by (change (zlen (@nil Z)) with 0; lia).
    rewrite <- HA3, <- HA2. rewrite (cut_byte sb _ _ _ _ _ _ _ Hc1 Hg) by done. pose proof (off_block off Hoff).
    unfold rng. destruct (Z.leb_spec 0 (off / BSIZE)), (Z.ltb_spec (off / BSIZE) XV6FS_MAXFILE); done || lia.
  - intros b Hb Ht4. apply (ct_bit _ _ _ _ _ _ Hc1); [done|]. rewrite <- Ht4. symmetry. apply bit_ext; [done|done|].
    intros x Hx. apply store_inode_same; [done|done|lia].
Qed.
