(* ===== verification/FsInode.v ===== *)
(** * The table of inodes in memory

    The table is a write-through cache of the inodes on the disk: getting,
    locking, unlocking and putting an inode never changes what any inode is
    ([inode_now]), as long as what is in the table agrees with the disk.  An
    inode that is put for the last time and has no name is freed with its
    blocks. *)
From S2P Require Import Prelude State Bytes Log Xv6fs FsState FsTree FsMap FsFile FsTrunc.

Lemma slot_of_iff sb I i ip : table_ok sb I ->
  slot_of I i = Some ip <-> 0 <= ip < XV6FS_NINODE /\ 0 < (I ip).(i_ref) /\ (I ip).(i_inum) = i.
Proof.
  intros Ht. split; [apply slot_of_some|]. intros (Hs&Hr&Hi). destruct (slot_of I i) as [x|] eqn:He.
  - destruct (slot_of_some _ _ _ He) as (Hx&Hxr&Hxi). f_equal. apply (tb_uniq _ _ Ht); try assumption. congruence.
  - by destruct (slot_of_none _ _ ip He).
Qed.

Lemma option_ext {A} (a b : option A) : (forall x, a = Some x <-> b = Some x) -> a = b.
Proof.
  intros H. destruct a as [x|]; [symmetry; by apply H|]. destruct b as [y|]; [|done]. by apply H.
Qed.

(** What is in the table agrees with the disk. *)
Definition synced (sb : superblock) (V : Z -> block) (I : Z -> inode) : Prop :=
  forall ip, 0 <= ip < XV6FS_NINODE -> 0 < (I ip).(i_ref) -> (I ip).(i_valid) = true ->
    (I ip).(i_d) = disk_inode sb V (I ip).(i_inum).

Lemma synced_now sb V I i : synced sb V I -> inode_now sb V I i = disk_inode sb V i.
Proof.
  intros Hs. unfold inode_now. destruct (slot_of I i) as [ip|] eqn:He; [|done]. apply slot_of_some in He as (?&?&<-).
  destruct (i_valid (I ip)) eqn:Hv; [by apply Hs|done].
Qed.

Record cache_ok (sb : superblock) (V : Z -> block) (I : Z -> inode) : Prop := mkCache {
  ck_table : table_ok sb I;
  ck_refs : forall ip, 0 <= ip < XV6FS_NINODE -> 0 <= (I ip).(i_ref);
  ck_sync : synced sb V I }.

(** [I'] is another table for the same inodes. *)
Lemma cache_roots sb V I I' : cache_ok sb V I -> cache_ok sb V I' ->
  (forall j, inode_now sb V I' j = inode_now sb V I j) /\ pw (roots sb V I) (roots sb V I').
Proof.
  intros [_ _ Hs] [_ _ Hs']. assert (H : forall j, inode_now sb V I' j = inode_now sb V I j)
    by (intros j; by rewrite !synced_now). split; [done|]. intros j. unfold roots. by rewrite H.
Qed.

Lemma cache_fok sb V I I' : cache_ok sb V I -> cache_ok sb V I' -> fok sb V I -> fok sb V I'.
Proof. intros Hc Hc' [Hw _]. destruct (cache_roots sb V I I' Hc Hc') as [_ HA]. split; [by rewrite <- HA|apply Hc']. Qed.

(** One slot changes. *)
Lemma cache_set sb V I ip x : cache_ok sb V I -> 0 <= ip < XV6FS_NINODE -> 0 <= x.(i_ref) ->
  (0 < x.(i_ref) -> 0 <= x.(i_inum) < sb.(sb_ninodes) /\
     (forall y, 0 <= y < XV6FS_NINODE -> y <> ip -> 0 < (I y).(i_ref) -> (I y).(i_inum) <> x.(i_inum)) /\
     (x.(i_valid) = true -> di_ok x.(i_d) /\ x.(i_d) = disk_inode sb V x.(i_inum))) ->
  cache_ok sb V (fset I ip x).
Proof.
  intros [[Hn Hu Hd] Hr Hs] Hip Hx0 Hx. split; [split|..].
  - intros y Hy. rewrite fset_spec. case_decide; [intros H1; by apply Hx|by apply Hn].
  - intros a b Ha Hb. rewrite !fset_spec. repeat case_decide; subst; try done; intros H1 H2 He.
    + destruct (Hx H1) as (_&Hy&_). by destruct (Hy b Hb).
    + destruct (Hx H2) as (_&Hy&_). by destruct (Hy a Ha).
    + by apply Hu.
  - intros y Hy. rewrite fset_spec. case_decide; [intros H1 H2; by apply Hx|by apply Hd].
  - intros y Hy. rewrite fset_spec. case_decide; [done|by apply Hr].
  - intros y Hy. rewrite !fset_spec. case_decide; [intros H1 H2; by apply Hx|by apply Hs].
Qed.

Section table.
Context (E : panic -> Prop) (s0 : fsst) (sb : superblock) (V : Z -> block).

(** There is a slot for inode [inum]. *)
Definition room (I : Z -> inode) (inum : Z) : Prop :=
  exists ip, 0 <= ip < XV6FS_NINODE /\ (0 < (I ip).(i_ref) /\ (I ip).(i_inum) = inum \/ (I ip).(i_ref) = 0).

Lemma iget_scan_false n f i inum e ip :
  iget_scan n f i inum e = Some (false, ip) ->
  (e = Some ip \/ i <= ip < i + Z.of_nat n /\ (f ip).(i_ref) = 0) /\
  forall y, i <= y < i + Z.of_nat n -> 0 < (f y).(i_ref) -> (f y).(i_inum) <> inum.
Proof using.
  revert i e. induction n as [|n IH]; intros i e; simpl; [destruct e; [|done]; intros [= ->]; split; [by left|lia]|].
  destruct ((0 <? i_ref (f i)) && (i_inum (f i) =? inum)) eqn:Ht; [done|]. intros [Hip Hn]%IH. split.
  - destruct Hip as [Hip|[Hr Hz]]; [|right; split; [lia|done]]. destruct e as [x|]; [by left|].
    destruct (Z.eqb_spec (i_ref (f i)) 0); [|done]. injection Hip as <-. right. split; [lia|done].
  - intros y Hy Hr He. destruct (decide (y = i)) as [->|].
    + rewrite (proj2 (Z.ltb_lt _ _) Hr), (proj2 (Z.eqb_eq _ _) He) in Ht. done.
    + apply (Hn y); done || lia.
Qed.

Lemma iget_scan_room n f i inum e : (exists ip, i <= ip < i + Z.of_nat n /\ (0 < (f ip).(i_ref) /\ (f ip).(i_inum) = inum \/ (f ip).(i_ref) = 0)) ->
  iget_scan n f i inum e <> None.
Proof using.
  revert i e. induction n as [|n IH]; intros i e (ip&Hip&Hr); simpl; [lia|].
  destruct ((0 <? i_ref (f i)) && (i_inum (f i) =? inum)) eqn:Ht; [done|].
  destruct (decide (ip = i)) as [->|]; [|apply IH; exists ip; split; [lia|done]].
  destruct Hr as [[Hr He]|Hz].
  { rewrite (proj2 (Z.ltb_lt _ _) Hr), (proj2 (Z.eqb_eq _ _) He) in Ht. done. }
  rewrite (proj2 (Z.eqb_eq _ _) Hz). set (e' := match e with Some _ => e | None => Some i end).
  assert (He' : exists z, e' = Some z) by (unfold e'; destruct e; eauto). destruct He' as [z ->]. clear IH Ht.
  generalize (i + 1). generalize dependent n. intros n _. induction n as [|n IH]; intros k; simpl; [done|].
  destruct ((0 <? i_ref (f k)) && (i_inum (f k) =? inum)); [done|apply IH].
Qed.

(** What [xv6fs_iget] does to the table. *)
Record got (I : Z -> inode) (inum ip : Z) (I' : Z -> inode) : Prop := mkGot {
  gt_slot : 0 <= ip < XV6FS_NINODE;
  gt_other : forall y, y <> ip -> I' y = I y;
  gt_inum : (I' ip).(i_inum) = inum;
  gt_ref : (I' ip).(i_ref) = (I ip).(i_ref) + 1;
  gt_lock : (I' ip).(i_locked) = (I ip).(i_locked);
  gt_cases : 0 < (I ip).(i_ref) /\ (I ip).(i_inum) = inum /\ (I' ip).(i_valid) = (I ip).(i_valid) /\ (I' ip).(i_d) = (I ip).(i_d) \/
             (I ip).(i_ref) = 0 /\ (I' ip).(i_valid) = false /\ slot_of I inum = None }.

Lemma iget_ok I inum s (Q : Z -> fsst -> Prop) :
  moves s0 V I s -> cache_ok sb V I -> 0 <= inum < sb.(sb_ninodes) -> room I inum ->
  (forall ip I' s', moves s0 V I' s' -> got I inum ip I' -> cache_ok sb V I' -> Q ip s') -> wp E (xv6fs_iget inum) Q s.
Proof using.
  intros Hm Hc Hi Hroom HQ. unfold xv6fs_iget. wp_step. wp_step.
  assert (Hscan : iget_scan (Z.to_nat XV6FS_NINODE) (f_inode s) 0 inum None = iget_scan (Z.to_nat XV6FS_NINODE) I 0 inum None).
  { apply iget_scan_ext. intros ip. by rewrite (mv_inode _ _ _ _ Hm). }
  rewrite Hscan. clear Hscan. pose proof (Z2Nat.id XV6FS_NINODE ltac:(discriminate)) as HN.
  destruct (iget_scan (Z.to_nat XV6FS_NINODE) I 0 inum None) as [[[] ip]|] eqn:He.
  - destruct (iget_scan_true _ _ _ _ _ _ He) as (Hip&Hr&Hin). rewrite HN in Hip.
    wp_step. fs_step Hm. apply wp_ret. eapply HQ; [exact Hm| |].
    + split; [exact Hip|intros y Hy; by apply fset_ne|rewrite fset_eq..|rewrite fset_eq; left; auto]; done.
    + apply cache_set; [exact Hc|exact Hip|simpl; lia|]. simpl. intros _. rewrite Hin. split; [exact Hi|]. split.
      * intros y Hy Hne Hyr Hyi. apply Hne. apply (tb_uniq _ _ (ck_table _ _ _ Hc)); try assumption. congruence.
      * intros Hv. split; [by apply (tb_d _ _ (ck_table _ _ _ Hc))|]. rewrite <- Hin. by apply (ck_sync _ _ _ Hc).
  - destruct (iget_scan_false _ _ _ _ _ _ He) as [Hip Hnone]. rewrite HN in Hip, Hnone.
    destruct Hip as [|[Hip Hz]]; [discriminate|].
    assert (Hslot : slot_of I inum = None).
    { destruct (slot_of I inum) as [x|] eqn:Hx; [|done]. apply slot_of_some in Hx as (Hx1&Hx2&Hx3). by destruct (Hnone x). }
    wp_step. fs_step Hm. apply wp_ret. eapply HQ; [exact Hm| |].
    + split; [exact Hip|intros y Hy; by apply fset_ne|rewrite fset_eq..|rewrite fset_eq; right; auto]; simpl; done || lia.
    + apply cache_set; [exact Hc|exact Hip|simpl; lia|]. simpl. intros _. split; [exact Hi|]. split; [|done].
      intros y Hy Hne Hyr. by apply Hnone.
  - exfalso. revert He. apply iget_scan_room. destruct Hroom as (ip&Hip&Hr). exists ip. rewrite HN. split; [exact Hip|exact Hr].
Qed.

(** The slot [ip] is replaced by one with the same inode number. *)
Lemma cache_upd I ip x : cache_ok sb V I -> 0 <= ip < XV6FS_NINODE -> 0 < (I ip).(i_ref) -> 0 <= x.(i_ref) ->
  x.(i_inum) = (I ip).(i_inum) ->
  (x.(i_valid) = true -> di_ok x.(i_d) /\ x.(i_d) = disk_inode sb V x.(i_inum)) -> cache_ok sb V (fset I ip x).
Proof using.
  intros Hc Hip Hr Hx Hin Hd. pose proof (ck_table _ _ _ Hc) as Ht. apply cache_set; [exact Hc|exact Hip|exact Hx|].
  intros _. rewrite Hin in *. split; [by apply (tb_inum _ _ Ht)|]. split; [|exact Hd].
  intros y Hy Hne Hyr He. apply Hne. by apply (tb_uniq _ _ Ht).
Qed.

Lemma cache_slot_d I ip : cache_ok sb V I -> 0 <= ip < XV6FS_NINODE -> 0 < (I ip).(i_ref) -> (I ip).(i_valid) = true ->
  di_ok (I ip).(i_d) /\ (I ip).(i_d) = disk_inode sb V (I ip).(i_inum).
Proof using. intros [Ht _ Hs] Hip Hr Hv. split; [by apply (tb_d _ _ Ht)|by apply Hs]. Qed.

(** Locking an inode loads it. *)
Lemma ilock_ok I ip s (Q : unit -> fsst -> Prop) :
  s0.(f_sb) = sb -> moves s0 V I s -> cache_ok sb V I -> blocks_ok V -> 0 <= ip < XV6FS_NINODE -> 0 < (I ip).(i_ref) ->
  (I ip).(i_locked) = false -> (disk_inode sb V (I ip).(i_inum)).(di_type) <> 0 ->
  (forall I' s', moves s0 V I' s' -> cache_ok sb V I' -> (forall y, y <> ip -> I' y = I y) ->
     I' ip = mkInode (I ip).(i_dev) (I ip).(i_inum) (I ip).(i_ref) true true (disk_inode sb V (I ip).(i_inum)) -> Q tt s') ->
  wp E (xv6fs_ilock ip) Q s.
Proof using.
  intros Hsb Hm Hc HV Hip Hr Hl Ht HQ. unfold xv6fs_ilock, lock_inode, set_locked. wp_step. wp_step.
  pose proof (mv_inode _ _ _ _ Hm ip) as Hs. rewrite Hs.
  wp_step. wp_step; [|intros ?%Z.leb_gt; lia]. wp_step. wp_step. wp_step. wp_step. wp_step; [|by rewrite Hs, Hl].
  pose proof (mv_sb _ _ _ _ Hm) as Hsbs. rewrite Hsb in Hsbs. fs_step Hm. destruct (i_valid (I ip)) eqn:Hv.
  - apply wp_ret. destruct (cache_slot_d I ip Hc Hip Hr Hv) as [Hd1 Hd2].
    eapply HQ; [exact Hm|apply cache_upd; simpl; done || lia|intros y Hy; by apply fset_ne|].
    rewrite fset_eq. by rewrite <- Hd2.
  - rewrite Hsbs. wp_step. fs_step Hm. unfold set_d, set_valid. wp_step. fs_step Hm. wp_step. fs_step Hm.
    change (get_dinode (V (XV6FS_IBLOCK (i_inum (I ip)) sb)) (64 * (i_inum (I ip) mod XV6FS_IPB))) with (disk_inode sb V (i_inum (I ip))) in *.
    wp_step; [|intros Hf; by destruct (Z.eqb_spec (di_type (disk_inode sb V (i_inum (I ip)))) 0)].
    set (I' := mkInode (i_dev (I ip)) (i_inum (I ip)) (i_ref (I ip)) true true (disk_inode sb V (i_inum (I ip)))).
    apply (HQ (fset I ip I')); [|apply cache_upd; simpl; try done || lia|intros y Hy; by apply fset_ne|by rewrite fset_eq].
    + eapply moves_eq; [exact Hm|done|]. intros y. rewrite !fset_spec. by repeat case_decide.
    + intros _. split; [|done]. destruct (iblock_off (i_inum (I ip))). by apply get_dinode_ok.
Qed.

Lemma iunlock_ok I ip s (Q : unit -> fsst -> Prop) :
  moves s0 V I s -> cache_ok sb V I -> 0 <= ip < XV6FS_NINODE -> 0 < (I ip).(i_ref) ->
  (forall I' s', moves s0 V I' s' -> cache_ok sb V I' -> (forall y, y <> ip -> I' y = I y) ->
     I' ip = mkInode (I ip).(i_dev) (I ip).(i_inum) (I ip).(i_ref) false (I ip).(i_valid) (I ip).(i_d) -> Q tt s') ->
  wp E (xv6fs_iunlock ip) Q s.
Proof using.
  intros Hm Hc Hip Hr HQ. unfold xv6fs_iunlock, set_locked. wp_step. wp_step. rewrite (mv_inode _ _ _ _ Hm).
  wp_step. wp_step; [|intros ?%Z.leb_gt; lia]. fs_step Hm.
  eapply HQ; [exact Hm|apply cache_upd; simpl; try done || lia|intros y Hy; by apply fset_ne|by rewrite fset_eq].
  intros Hv. by apply cache_slot_d.
Qed.

(** Putting an inode that stays in use, or that has a name. *)
Lemma iput_drop_ok I ip s (Q : unit -> fsst -> Prop) :
  moves s0 V I s -> cache_ok sb V I -> 0 <= ip < XV6FS_NINODE -> 0 < (I ip).(i_ref) ->
  1 < (I ip).(i_ref) \/ (I ip).(i_valid) = false \/ (I ip).(i_d).(di_nlink) <> 0 ->
  (forall I' s', moves s0 V I' s' -> cache_ok sb V I' -> (forall y, y <> ip -> I' y = I y) ->
     I' ip = mkInode (I ip).(i_dev) (I ip).(i_inum) ((I ip).(i_ref) - 1) (I ip).(i_locked) (I ip).(i_valid) (I ip).(i_d) -> Q tt s') ->
  wp E (xv6fs_iput ip) Q s.
Proof using.
  intros Hm Hc Hip Hr Hor HQ. unfold xv6fs_iput, xv6fs_iput_try. wp_step. wp_step. wp_step. rewrite (mv_inode _ _ _ _ Hm).
  replace ((i_ref (I ip) =? 1) && i_valid (I ip) && (di_nlink (i_d (I ip)) =? 0)) with false.
  2: { destruct (Z.eqb_spec (i_ref (I ip)) 1), (i_valid (I ip)), (Z.eqb_spec (di_nlink (i_d (I ip))) 0); try done.
       destruct Hor as [|[|]]; done || lia. }
  wp_step. fs_step Hm. wp_step. wp_step.
  eapply HQ; [exact Hm|apply cache_upd; simpl; try done || lia|intros y Hy; by apply fset_ne|by rewrite fset_eq].
  intros Hv. by apply cache_slot_d.
Qed.

(** A write through the file keeps the table in step with the disk. *)
Lemma cache_write dp i I V' I' : cache_ok sb V I -> fok sb V' I' -> held I dp i -> only dp I I' -> disk_inode sb V' i = (I' dp).(i_d) ->
  (forall j, 0 <= j < sb.(sb_ninodes) -> j <> i -> disk_inode sb V' j = disk_inode sb V j) -> cache_ok sb V' I'.
Proof using.
  intros [Ht Hr Hs] Hf Hh [Ho Hsame] Hd Hj. split; [apply Hf|..].
  - intros y Hy. destruct (decide (y = dp)) as [->|]; [rewrite Hsame; by apply Hr|rewrite Ho by done; by apply Hr].
  - intros y Hy. destruct (decide (y = dp)) as [->|Hne].
    + rewrite Hsame at 1 2 4. simpl. intros _ _. by rewrite (hd_inum _ _ _ Hh), Hd.
    + rewrite !Ho by done. intros Hyr Hyv. rewrite Hj; [by apply Hs|by apply (tb_inum _ _ Ht)|].
      intros He. apply Hne. apply (tb_uniq _ _ Ht); try done; [apply Hh|apply Hh|]. by rewrite (hd_inum _ _ _ Hh).
Qed.

(** Putting the last reference to an inode without a name frees it. *)
Definition free_post (I : Z -> inode) (ip i : Z) (s' : fsst) : Prop :=
  exists V' I', moves s0 V' I' s' /\ fok sb V' I' /\ cache_ok sb V' I' /\ (I' ip).(i_ref) = 0 /\ (forall y, y <> ip -> I' y = I y) /\
    (disk_inode sb V' i).(di_type) = 0 /\ (forall k, 0 <= k < XV6FS_NDIRECT + 3 -> zget (roots sb V' I' i) k = 0) /\
    (forall j, 0 <= j < sb.(sb_ninodes) -> j <> i -> inode_now sb V' I' j = inode_now sb V I j /\
       forall o, 0 <= o < XV6FS_MAXFILE * BSIZE -> fbyte V' (roots sb V' I') j o = fbyte V (roots sb V I) j o) /\
    (forall b, 0 <= b < sb.(sb_size) -> bit sb V' b = true -> bit sb V b = true).

Lemma itrunc_need_le size length : xv6fs_itrunc_need size length <= XV6FS_LOGBLOCKS.
Proof using. unfold xv6fs_itrunc_need. destruct (Z.ltb_spec XV6FS_LOGBLOCKS (s32 (if u32 (length + BSIZE - 1) / BSIZE <? u32 (size + BSIZE - 1) / BSIZE then u32 (size + BSIZE - 1) / BSIZE - u32 (length + BSIZE - 1) / BSIZE else 0) + XV6LOG_ITRUNC_SLACK)); lia. Qed.

Lemma iput_free_ok I ip i s :
  E LogOverflow -> in_op s0 -> s0.(f_sb) = sb -> moves s0 V I s -> fok sb V I -> cache_ok sb V I -> held I ip i ->
  (I ip).(i_ref) = 1 -> (I ip).(i_locked) = false -> (I ip).(i_d).(di_nlink) = 0 ->
  wp E (xv6fs_iput ip) (fun _ => free_post I ip i) s.
Proof using.
  intros HE Ho Hsb Hm Hf Hc Hh Hr Hl Hn. unfold xv6fs_iput, xv6fs_iput_try, lock_inode, set_locked, set_valid.
  wp_step. wp_step. wp_step. rewrite (mv_inode _ _ _ _ Hm), Hr, Hn, (hd_valid _ _ _ Hh). cbn [Z.eqb Pos.eqb andb].
  destruct (Z.ltb_spec XV6FS_LOGBLOCKS (xv6fs_itrunc_need (di_size (i_d (I ip))) 0)) as [Hlt|_]; [pose proof (itrunc_need_le (di_size (i_d (I ip))) 0); lia|].
  wp_step. wp_step. wp_step. wp_step. wp_step; [|by rewrite (mv_inode _ _ _ _ Hm), Hl]. fs_step Hm.
  set (IL := fset I ip _) in *. assert (HcL : cache_ok sb V IL).
  { apply cache_upd; [done|apply Hh|apply Hh|simpl; lia|done|]. simpl. intros Hv. apply cache_slot_d; done || apply Hh. }
  assert (HhL : held IL ip i) by (split; [apply Hh|unfold IL; rewrite fset_eq; apply Hh..]).
  destruct (cache_roots sb V I IL Hc HcL) as [HnowL HAL]. pose proof (cache_fok sb V I IL Hc HcL Hf) as HfL.
  assert (HoL : forall y, y <> ip -> IL y = I y) by (intros y Hy; by apply fset_ne).
  assert (HrL : i_ref (IL ip) = 1) by (unfold IL; by rewrite fset_eq). clearbody IL.
  wp_step. eapply wp_mono; [apply (itrunc_to_ok E s0 sb ip i V IL 0 s1); done|]. clear Hm.
  intros [] s2 (V1&I1&Hm&Hf1&Hh1&Hon1&Hd1&Hdk1&Hz1&Hj1&Hb1&Hbit1). specialize (Hz1 eq_refl).
  pose proof (held_d sb ip i V1 I1 Hf1 Hh1) as Hok1.
  wp_step. eapply (wp_set_d E s0 sb ip i V1 I1); [exact Hm|done|done|by destruct Hok1; split|done|].
  clear Hm. intros I2 s3 Hm [Hf2 Hh2 Hon2 HA2 Ha2] Hd2.
  wp_step. eapply (iupdate_ok E HE s0 Ho sb Hsb ip i V1 I2); [exact Hm|done|]. clear Hm. intros s4 Hm.
  destruct (store_inode_keeps sb ip i V1 I2 Hf2 Hh2) as (Hf3&HA3&_&Hb3).
  assert (Hon : only ip IL I2) by (by eapply only_trans).
  pose proof (fk_wf _ _ _ Hf2) as Hwf2. pose proof (wf_layout _ _ _ Hwf2) as Hly. pose proof (held_inum _ _ _ _ (fk_table _ _ _ Hf2) Hh2) as Hi.
  pose proof (others_kept sb ip i V1 I1 V1 I2 Hly (fk_table _ _ _ Hf1) Hh1 Hon2 Hf2 ltac:(done) Hh2) as Hj3. cbv zeta in Hj3.
  pose proof (disk_inode_store sb V1 (wf_blocks _ _ _ Hwf2) i (i_d (I2 ip)) (held_d sb ip i V1 I2 Hf2 Hh2)) as Hdk3.
  assert (Hbit3 : forall b, 0 <= b < sb_size sb -> bit sb (store_inode sb V1 i (i_d (I2 ip))) b = bit sb V1 b).
  { intros b Hb. pose proof (layout_order sb Hly). apply bit_ext; [done|done|]. intros x Hx. apply store_inode_same; [done|done|lia]. }
  set (V3 := store_inode sb V1 i (i_d (I2 ip))) in *. clearbody V3.
  assert (Hc3 : cache_ok sb V3 I2).
  { apply (cache_write ip i IL); try done. intros j Hj Hne. destruct (Hj3 j Hj Hne) as [_ ->]. by apply Hj1. }
  wp_step. fs_step Hm. wp_step. fs_step Hm. wp_step. fs_step Hm. wp_step. wp_step. rewrite !fset_eq in Hm. cbv beta iota in Hm. cbn [i_dev i_inum i_ref i_locked i_valid i_d] in Hm.
  set (x := mkInode _ _ (_ - 1) _ _ _) in Hm. assert (Hr2 : i_ref (I2 ip) = 1) by (rewrite (on_same _ _ _ Hon); done).
  assert (HcF : cache_ok sb V3 (fset I2 ip x)) by (apply cache_set; [done|apply Hh|simpl; lia|simpl; lia]).
  destruct (cache_roots sb V3 I2 (fset I2 ip x) Hc3 HcF) as [HnowF HAF].
  exists V3, (fset I2 ip x). split; [eapply moves_eq; [exact Hm|done|intros y; rewrite !fset_spec; by repeat case_decide]|].
  split; [by apply (cache_fok sb V3 I2)|]. split; [done|]. split; [rewrite fset_eq; simpl; lia|].
  split; [intros y Hy; rewrite fset_ne by done; by rewrite (on_other _ _ _ Hon), HoL|].
  split; [by rewrite Hdk3, Hd2|]. split.
  { intros k Hk. rewrite <- (HAF i), (roots_held _ _ _ _ _ (fk_table _ _ _ Hf3) Hh2), Ha2. by apply Hz1. }
  split; [|intros b Hb; rewrite Hbit3 by done; by apply Hbit1].
  intros j Hj Hne. destruct (Hj3 j Hj Hne) as [Hnow3 _]. split; [rewrite HnowF, Hnow3; destruct (Hj1 j Hj Hne) as [-> _]; apply HnowL|].
  intros o Hoff. rewrite <- HAF, Hb3 by done. rewrite decide_False by (change (zlen (@nil Z)) with 0; lia).
  rewrite <- HA2, Hb1 by done. rewrite bool_decide_false by done. simpl. by rewrite <- HAL.
Qed.
End table.
