(* ===== verification/FsDir.v ===== *)
(** * Directories

    A directory stands for a map from names to inode numbers: the first entry
    that has the name.  [xv6fs_dirlookup] looks a name up in it, and
    [xv6fs_dirlink] adds one, without changing any other name.  Names are what
    precedes the first 0 in the first 62 bytes. *)
From S2P Require Import Prelude State Bytes Log Xv6fs Xv6dir FsState FsTree FsMap FsFile FsTrunc FsInode.

(** ** Names *)

Definition norm (n : list Z) : list Z := take (Z.to_nat XV6FS_DIRSIZ) (cstr n).

Lemma strneq_spec n s t : strneq n s t = bool_decide (take n (cstr s) = take n (cstr t)).
Proof.
  revert s t. induction n as [|n IH]; intros s t; [by rewrite bool_decide_true|]. cbn [strneq].
  assert (Hc : forall l, take (S n) (cstr l) = if hd 0 l =? 0 then [] else hd 0 l :: take n (cstr (tl l))).
  { intros [|x l]; [done|]. simpl. by destruct (x =? 0). }
  rewrite !Hc. destruct (Z.eqb_spec (hd 0 s) (hd 0 t)) as [He|Hne].
  - rewrite He. destruct (hd 0 t =? 0); [by rewrite bool_decide_true|]. rewrite IH. apply bool_decide_ext. split; [by intros ->|by intros [= ->]].
  - symmetry. apply bool_decide_eq_false. destruct (Z.eqb_spec (hd 0 s) 0), (Z.eqb_spec (hd 0 t) 0); try done; [congruence|]. by intros [= ?].
Qed.

Lemma nameeq_spec s t : nameeq s t = bool_decide (norm s = norm t).
Proof. apply strneq_spec. Qed.

Lemma cstr_app_zero l m : cstr (l ++ replicate m 0) = cstr l.
Proof. induction l as [|x l IH]; simpl; [by destruct m|]. by rewrite IH. Qed.

Lemma cstr_take n l : cstr (take n l) = take n (cstr l).
Proof. revert l. induction n as [|n IH]; intros [|x l]; simpl; try done. destruct (x =? 0); [done|]. by rewrite IH. Qed.

(** The name of a new entry reads back. *)
Lemma norm_strncpy name : norm (strncpy (Z.to_nat XV6FS_DIRSIZ) name) = norm name.
Proof. unfold norm, strncpy. by rewrite cstr_app_zero, cstr_take, take_take, Nat.min_id. Qed.

(** ** Entries *)

Definition byte_name (e : dirent) : Prop :=
  0 <= e.(de_inum) < 2 ^ 16 /\ zlen e.(de_name) = XV6FS_DIRSIZ /\ Forall byte_ok e.(de_name).

Lemma get_put_dirent e : byte_name e -> get_dirent (put_dirent e) = e.
Proof.
  intros (Hi&Hl&Hb). unfold get_dirent, put_dirent. destruct e as [inum nm]. cbn [de_inum de_name] in *.
  assert (Hlen : length nm = 62%nat) by (unfold zlen in Hl; change XV6FS_DIRSIZ with 62 in Hl; lia).
  f_equal.
  - unfold get16, getn, slice. change (Z.to_nat 0) with 0%nat. change (Z.to_nat (Z.of_nat 2)) with 2%nat. rewrite drop_0, take_app_length' by (by rewrite length_le_bytes).
    by apply le_val_bytes.
  - unfold slice. change (Z.to_nat 2) with 2%nat. rewrite drop_app_length' by (by rewrite length_le_bytes).
    apply take_ge. change (Z.to_nat XV6FS_DIRSIZ) with 62%nat. lia.
Qed.

Lemma zlen_put_dirent e : byte_name e -> zlen (put_dirent e) = DE_SIZE.
Proof. intros (_&Hl&_). unfold put_dirent. rewrite zlen_app, zlen_le_bytes, Hl. done. Qed.

Lemma put_dirent_bytes e : byte_name e -> Forall byte_ok (put_dirent e).
Proof. intros (_&_&Hb). apply Forall_app. split; [apply le_bytes_ok|done]. Qed.

Lemma mk_dirent_ok name inum : Forall byte_ok name -> byte_name (mk_dirent name inum).
Proof.
  intros Hn. unfold mk_dirent, byte_name. simpl. split; [apply u16_range|]. split.
  - unfold strncpy, zlen. rewrite length_app, length_take, length_replicate. change XV6FS_DIRSIZ with 62.
    change (Z.to_nat 62) with 62%nat. lia.
  - apply Forall_app. split; [by apply Forall_take|]. apply Forall_replicate. unfold byte_ok. lia.
Qed.

(** The [n]-th entry of a directory, from its bytes. *)
Definition entry (byte : Z -> Z) (n : Z) : dirent := get_dirent ((fun j => byte (n * DE_SIZE + j)) <$> seqZ 0 DE_SIZE).

(** The first of the entries from [n] on, [k] of them, for which [f] gives a result. *)
Fixpoint first_entry {A} (f : Z -> dirent -> option A) (byte : Z -> Z) (k : nat) (n : Z) : option A :=
  match k with
  | O => None
  | S k =>
      match f (n * DE_SIZE) (entry byte n) with
      | Some a => Some a
      | None => first_entry f byte k (n + 1)
      end
  end.

Lemma first_entry_ext {A} (f : Z -> dirent -> option A) byte byte' k n :
  (forall m, n <= m < n + Z.of_nat k -> f (m * DE_SIZE) (entry byte m) = f (m * DE_SIZE) (entry byte' m)) ->
  first_entry f byte k n = first_entry f byte' k n.
Proof.
  revert n. induction k as [|k IH]; intros n H; [done|]. simpl. rewrite H by lia.
  destruct (f _ _); [done|]. apply IH. intros m Hm. apply H. lia.
Qed.

Lemma first_entry_eq {A} (f g : Z -> dirent -> option A) byte k n :
  (forall m, f (m * DE_SIZE) (entry byte m) = g (m * DE_SIZE) (entry byte m)) -> first_entry f byte k n = first_entry g byte k n.
Proof. intros H. revert n. induction k as [|k IH]; intros n; [done|]. cbn [first_entry]. by rewrite H, IH. Qed.

Lemma first_entry_some {A} (f : Z -> dirent -> option A) byte k n a : first_entry f byte k n = Some a ->
  exists m, n <= m < n + Z.of_nat k /\ f (m * DE_SIZE) (entry byte m) = Some a /\
    forall m', n <= m' < m -> f (m' * DE_SIZE) (entry byte m') = None.
Proof.
  revert n. induction k as [|k IH]; intros n; simpl; [done|]. destruct (f (n * DE_SIZE) (entry byte n)) eqn:Hf.
  - intros [= <-]. exists n. split; [lia|]. split; [done|]. lia.
  - intros (m&Hm&Hm2&Hb)%IH. exists m. split; [lia|]. split; [done|]. intros m' Hm'.
    destruct (decide (m' = n)) as [->|]; [done|]. apply Hb. lia.
Qed.

Lemma first_entry_none {A} (f : Z -> dirent -> option A) byte k n m : first_entry f byte k n = None ->
  n <= m < n + Z.of_nat k -> f (m * DE_SIZE) (entry byte m) = None.
Proof.
  revert n. induction k as [|k IH]; intros n; simpl; [lia|]. destruct (f (n * DE_SIZE) (entry byte n)) eqn:Hf; [done|].
  intros H Hm. destruct (decide (m = n)) as [->|]; [done|]. apply (IH (n + 1)); [done|lia].
Qed.

Lemma first_entry_snoc {A} (f : Z -> dirent -> option A) byte k n :
  first_entry f byte (S k) n =
  match first_entry f byte k n with Some a => Some a | None => f ((n + Z.of_nat k) * DE_SIZE) (entry byte (n + Z.of_nat k)) end.
Proof.
  revert n. induction k as [|k IH]; intros n; [simpl; rewrite Z.add_0_r; by destruct (f _ _)|].
  cbn [first_entry]. destruct (f (n * DE_SIZE) (entry byte n)); [done|]. specialize (IH (n + 1)). cbn [first_entry] in IH.
  rewrite IH. replace (n + Z.of_nat (S k)) with (n + 1 + Z.of_nat k) by lia. done.
Qed.

Lemma first_entry_at {A} (f : Z -> dirent -> option A) byte k n m a : n <= m < n + Z.of_nat k ->
  (forall m', n <= m' < m -> f (m' * DE_SIZE) (entry byte m') = None) -> f (m * DE_SIZE) (entry byte m) = Some a ->
  first_entry f byte k n = Some a.
Proof.
  revert n. induction k as [|k IH]; intros n Hm Hb Ha; [lia|]. cbn [first_entry].
  destruct (decide (n = m)) as [->|]; [by rewrite Ha|]. rewrite Hb by lia. apply IH; [lia| |done]. intros. apply Hb. lia.
Qed.

(** ** What a directory says *)

(** The inode number and the offset that a directory of [size] bytes has for a name. *)
Definition dir_find (byte : Z -> Z) (size : Z) (name : list Z) : option (Z * Z) :=
  first_entry (match_name name) byte (Z.to_nat (size / DE_SIZE)) 0.

Lemma match_name_norm n n' off e : norm n = norm n' -> match_name n off e = match_name n' off e.
Proof. intros H. unfold match_name. by rewrite !nameeq_spec, H. Qed.

Lemma dir_find_entry byte size name j off : dir_find byte size name = Some (j, off) ->
  exists m, 0 <= m < size / DE_SIZE /\ (entry byte m).(de_inum) = j /\ j <> 0.
Proof.
  intros (m&Hm&Hf&_)%first_entry_some. exists m. unfold match_name in Hf.
  destruct (Z.eqb_spec (de_inum (entry byte m)) 0); [done|]. destruct (nameeq _ _); [|done]. injection Hf as <- _.
  split; [|done]. destruct (Z.lt_ge_cases 0 (size / DE_SIZE)); lia.
Qed.

(** An entry written over a free one, or after the last. *)
Section add.
Context (byte byte' : Z -> Z) (size m : Z) (e : dirent).
Context (Hsize : size mod DE_SIZE = 0) (Hsize0 : 0 <= size) (Hm : 0 <= m <= size / DE_SIZE).
Context (Hfree : m < size / DE_SIZE -> (entry byte m).(de_inum) = 0).
Context (Hnew : entry byte' m = e) (Hin : e.(de_inum) <> 0).
Context (Hold : forall k, 0 <= k < size / DE_SIZE -> k <> m -> entry byte' k = entry byte k).

Definition size_after : Z := Z.max size (m * DE_SIZE + DE_SIZE).

Lemma size_after_entries : size_after / DE_SIZE = Z.max (size / DE_SIZE) (m + 1).
Proof using Hsize.
  unfold size_after. change DE_SIZE with 64 in *. pose proof (Z.div_mod size 64 ltac:(done)) as Hd. rewrite Hsize in Hd.
  destruct (Z.max_spec size (m * 64 + 64)) as [[? ->]|[? ->]]; [|lia].
  replace (m * 64 + 64) with ((m + 1) * 64) by lia. rewrite Z.div_mul by done. lia.
Qed.

Lemma match_free n off e' : e'.(de_inum) = 0 -> match_name n off e' = None.
Proof using. intros H. unfold match_name. by rewrite H. Qed.

Lemma dir_add_other n : norm n <> norm e.(de_name) -> dir_find byte' size_after n = dir_find byte size n.
Proof using All.
  intros Hn. assert (Hme : match_name n (m * DE_SIZE) (entry byte' m) = None).
  { rewrite Hnew. unfold match_name. rewrite nameeq_spec, bool_decide_false by done. by destruct (_ =? _). }
  assert (Hext : first_entry (match_name n) byte' (Z.to_nat (size / DE_SIZE)) 0 = dir_find byte size n).
  { apply first_entry_ext. intros k Hk. destruct (decide (k = m)) as [->|]; [rewrite Hme, match_free; [done|apply Hfree; lia]|].
    by rewrite Hold by lia. }
  unfold dir_find at 1. rewrite size_after_entries. destruct (decide (m = size / DE_SIZE)) as [He|].
  - replace (Z.to_nat (Z.max (size / DE_SIZE) (m + 1))) with (S (Z.to_nat (size / DE_SIZE))) by lia.
    rewrite first_entry_snoc, Hext. replace (0 + Z.of_nat (Z.to_nat (size / DE_SIZE))) with m by lia. rewrite Hme. by destruct (dir_find _ _ _).
  - replace (Z.max (size / DE_SIZE) (m + 1)) with (size / DE_SIZE) by lia. done.
Qed.

Lemma dir_add_same n : norm n = norm e.(de_name) -> dir_find byte size n = None ->
  dir_find byte' size_after n = Some (e.(de_inum), m * DE_SIZE).
Proof using All.
  intros Hn Hnone. unfold dir_find. rewrite size_after_entries. apply first_entry_at with m; [lia| |].
  - intros k Hk. rewrite Hold by lia. apply (first_entry_none _ _ _ _ k Hnone). lia.
  - rewrite Hnew. unfold match_name. rewrite nameeq_spec, bool_decide_true by done. by destruct (Z.eqb_spec (de_inum e) 0).
Qed.
End add.

(** Entries and the bytes of the file. *)
Lemma entry_written byte' m e : byte_name e ->
  (forall o, m * DE_SIZE <= o < m * DE_SIZE + DE_SIZE -> byte' o = zget (put_dirent e) (o - m * DE_SIZE)) -> entry byte' m = e.
Proof.
  intros He Hb. transitivity (get_dirent (put_dirent e)); [|by apply get_put_dirent]. unfold entry. f_equal. apply zlist_ext.
  - by rewrite zlen_fmap_seqZ, zlen_put_dirent.
  - intros j Hj. rewrite zlen_fmap_seqZ in Hj by done. rewrite zget_fmap_seqZ by done. rewrite Hb by lia. f_equal. lia.
Qed.

Lemma entry_same byte byte' m : (forall o, m * DE_SIZE <= o < m * DE_SIZE + DE_SIZE -> byte' o = byte o) -> entry byte' m = entry byte m.
Proof.
  intros Hb. unfold entry. f_equal. apply list_fmap_ext. intros k x Hx. apply lookup_seqZ in Hx as [-> Hx].
  apply Hb. lia.
Qed.

(** Where [xv6fs_dirlink] puts the entry. *)
Definition spot (byte : Z -> Z) (size : Z) : Z :=
  match first_entry free_entry byte (Z.to_nat (size / DE_SIZE)) 0 with Some off => off | None => size end.

Lemma dir_end_ok fuel n k : 0 <= n <= k -> k - n <= Z.of_nat fuel -> dir_end fuel (n * DE_SIZE) (k * DE_SIZE) = k * DE_SIZE.
Proof.
  change DE_SIZE with 64. revert n. induction fuel as [|fuel IH]; intros n Hn Hf; cbn [dir_end]; change DE_SIZE with 64; [f_equal; lia|].
  destruct (Z.ltb_spec (n * 64) (k * 64)); [|lia]. replace (n * 64 + 64) with ((n + 1) * 64) by lia. apply IH; lia.
Qed.

Lemma spot_ok byte size : 0 <= size -> size mod DE_SIZE = 0 ->
  exists m, spot byte size = m * DE_SIZE /\ 0 <= m <= size / DE_SIZE /\ (m < size / DE_SIZE -> (entry byte m).(de_inum) = 0).
Proof.
  intros H0 Hmod. pose proof (Z.div_mod size DE_SIZE ltac:(done)) as Hd. rewrite Hmod in Hd. unfold spot.
  pose proof (Z.div_pos size DE_SIZE H0 ltac:(done)).
  destruct (first_entry free_entry byte _ 0) as [off|] eqn:He; [|exists (size / DE_SIZE); lia].
  apply first_entry_some in He as (m&Hm&Hf&_). exists m. unfold free_entry in Hf.
  destruct (Z.eqb_spec (de_inum (entry byte m)) 0); [|done]. injection Hf as <-. split; [done|]. split; [lia|done].
Qed.

(** ** The operations *)

(** Slot [dp] holds the directory [i], a whole number of entries long. *)
Record isdir (I : Z -> inode) (dp i : Z) : Prop := mkIsdir {
  id_held : held I dp i;
  id_type : (I dp).(i_d).(di_type) = XV6FS_T_DIR;
  id_size : (I dp).(i_d).(di_size) mod DE_SIZE = 0 }.

Section ops.
Context (E : panic -> Prop) (s0 : fsst) (sb : superblock) (dp i : Z).

Lemma dir_scan_ok {A} (f : Z -> dirent -> option A) fuel n V I s :
  fok sb V I -> isdir I dp i -> moves s0 V I s -> let k := (I dp).(i_d).(di_size) / DE_SIZE in
  0 <= n <= k -> k - n <= Z.of_nat fuel ->
  wp E (dir_scan fuel dp (n * DE_SIZE) f) (fun r s' =>
    r = Some (first_entry f (fbyte V (roots sb V I) i) (Z.to_nat (k - n)) n) /\ moves s0 V I s') s.
Proof using.
  intros Hf [Hh _ Hmod] Hm k Hn Hfuel. pose proof (dk_size _ (held_d sb dp i V I Hf Hh)) as Hsz.
  set (size := di_size (i_d (I dp))) in *. pose proof (Z.div_mod size DE_SIZE ltac:(done)) as Hd. rewrite Hmod in Hd. fold k in Hd.
  revert n s Hm Hn Hfuel. change DE_SIZE with 64 in *. induction fuel as [|fuel IH]; intros n s Hm Hn Hfuel; cbn [dir_scan].
  { apply wp_ret. split; [|done]. by replace (Z.to_nat (k - n)) with 0%nat by lia. }
  wp_step. fs_step Hm. fold size. destruct (Z.ltb_spec (n * 64) size).
  2: { apply wp_ret. split; [|done]. by replace (Z.to_nat (k - n)) with 0%nat by lia. }
  wp_step. eapply wp_mono; [apply (readi_ok E s0 sb V I dp i); done || (change DE_SIZE with 64; lia)|]. clear Hm. intros l s1 [-> Hm].
  replace (readable (di_size (i_d (I dp))) (n * 64) DE_SIZE) with 64.
  2: { change DE_SIZE with 64. fold size. unfold readable. destruct (Z.ltb_spec size (n * 64)), (Z.leb_spec (2 ^ 32) (n * 64 + 64)); simpl; lia. }
  unfold file_slice. rewrite zlen_fmap_seqZ by lia. change (negb (64 =? DE_SIZE)) with false. cbv iota.
  change (get_dirent _) with (entry (fbyte V (roots sb V I) i) n).
  replace (Z.to_nat (k - n)) with (S (Z.to_nat (k - (n + 1)))) by lia. cbn [first_entry]. change (n * DE_SIZE) with (n * 64).
  destruct (f (n * 64) (entry (fbyte V (roots sb V I) i) n)) eqn:He; [by apply wp_ret|].
  change DE_SIZE with 64. replace (n * 64 + 64) with ((n + 1) * 64) by lia. apply IH; done || lia.
Qed.

Lemma dir_scan_all {A} (f : Z -> dirent -> option A) V I s :
  fok sb V I -> isdir I dp i -> moves s0 V I s ->
  wp E (dir_scan (dir_fuel (I dp).(i_d)) dp 0 f) (fun r s' =>
    r = Some (first_entry f (fbyte V (roots sb V I) i) (Z.to_nat ((I dp).(i_d).(di_size) / DE_SIZE)) 0) /\ moves s0 V I s') s.
Proof using.
  intros Hf Hd Hm. pose proof (dk_size _ (held_d sb dp i V I Hf (id_held _ _ _ Hd))) as Hsz.
  pose proof (Z.div_pos (di_size (i_d (I dp))) DE_SIZE ltac:(lia) ltac:(done)). change 0 with (0 * DE_SIZE) at 1.
  replace (Z.to_nat (di_size (i_d (I dp)) / DE_SIZE)) with (Z.to_nat (di_size (i_d (I dp)) / DE_SIZE - 0)) by (by rewrite Z.sub_0_r).
  apply dir_scan_ok; done || (unfold dir_fuel; lia).
Qed.

(** What the directory in slot [dp] says. *)
Definition dir_map (V : Z -> block) (I : Z -> inode) : list Z -> option (Z * Z) :=
  dir_find (fbyte V (roots sb V I) i) (I dp).(i_d).(di_size).

Definition lookup_post (V : Z -> block) (I : Z -> inode) (name : list Z) (r : option (Z * Z)) (s' : fsst) : Prop :=
  match dir_map V I name with
  | None => r = None /\ moves s0 V I s'
  | Some (inum, off) => exists ip I', r = Some (ip, off) /\ moves s0 V I' s' /\ got I inum ip I' /\ cache_ok sb V I'
  end.

Lemma dirlookup_ok V I name s :
  fok sb V I -> cache_ok sb V I -> isdir I dp i -> moves s0 V I s ->
  (forall inum off, dir_map V I name = Some (inum, off) -> 0 <= inum < sb.(sb_ninodes) /\ room I inum) ->
  wp E (xv6fs_dirlookup dp name) (lookup_post V I name) s.
Proof using.
  intros Hf Hc Hd Hm Hroom. unfold xv6fs_dirlookup. wp_step. fs_step Hm. rewrite (id_type _ _ _ Hd).
  change (negb (XV6FS_T_DIR =? XV6FS_T_DIR)) with false. cbv iota.
  wp_step. eapply wp_mono; [by apply dir_scan_all|]. clear Hm. intros r s1 [-> Hm]. unfold lookup_post.
  change (first_entry (match_name name) _ _ 0) with (dir_map V I name). destruct (dir_map V I name) as [[inum off]|] eqn:He; [|by apply wp_ret].
  destruct (Hroom inum off eq_refl) as [Hi Hr]. wp_step. eapply (iget_ok E s0 sb V I inum); [exact Hm|done|done|done|].
  intros ip I' s' Hm' Hg Hc'. apply wp_ret. by exists ip, I'.
Qed.

(** The directory is the same under another table of the same inodes. *)
Lemma dir_map_cache V I I' : cache_ok sb V I -> cache_ok sb V I' -> isdir I dp i -> held I' dp i ->
  isdir I' dp i /\ forall n, dir_map V I' n = dir_map V I n.
Proof using.
  intros Hc Hc' [Hh Ht Hs] Hh'. destruct (cache_roots sb V I I' Hc Hc') as [Hnow HA].
  assert (Hd : i_d (I' dp) = i_d (I dp)).
  { specialize (Hnow i). by rewrite (inode_now_held _ _ _ _ _ (ck_table _ _ _ Hc) Hh),
      (inode_now_held _ _ _ _ _ (ck_table _ _ _ Hc') Hh') in Hnow. }
  split; [by split; rewrite ?Hd|]. intros n. unfold dir_map. rewrite Hd. apply first_entry_ext. intros m _. f_equal.
  unfold entry. f_equal. apply list_fmap_ext. intros k x Hx. by rewrite <- HA.
Qed.

Lemma got_held I inum ip I' : got I inum ip I' -> held I dp i -> held I' dp i.
Proof using.
  intros [Hs Ho Hin Hr Hl Hc] [H1 H2 H3 H4]. destruct (decide (dp = ip)) as [->|]; [|split; rewrite ?Ho by done; done].
  destruct Hc as [(_&He&Hv&_)|[? _]]; [|lia]. split; [done|lia|congruence|congruence].
Qed.
End ops.

Section link.
Context (E : panic -> Prop) (HE : E LogOverflow) (s0 : fsst) (Ho : in_op s0) (Hhint : 0 <= s0.(g_balloc_hint)).
Context (sb : superblock) (Hsb : s0.(f_sb) = sb) (dp i : Z).

(** The name was there and nothing changed; or the entry was added and no
    other name changed; or there was no room and no name changed. *)
Definition link_post (V : Z -> block) (I : Z -> inode) (name : list Z) (inum : Z) (r : bool) (s' : fsst) : Prop :=
  exists V' I', moves s0 V' I' s' /\ fok sb V' I' /\ cache_ok sb V' I' /\ isdir I' dp i /\
    (forall j, 0 <= j < sb.(sb_ninodes) -> j <> i -> inode_now sb V' I' j = inode_now sb V I j /\
       forall o, 0 <= o < XV6FS_MAXFILE * BSIZE -> fbyte V' (roots sb V' I') j o = fbyte V (roots sb V I) j o) /\
    match dir_map sb dp i V I name with
    | Some _ => r = false /\ forall n, dir_map sb dp i V' I' n = dir_map sb dp i V I n
    | None =>
        if r then (exists off, dir_map sb dp i V' I' name = Some (inum, off)) /\
                  forall n, norm n <> norm name -> dir_map sb dp i V' I' n = dir_map sb dp i V I n
        else full sb V' /\ forall n, dir_map sb dp i V' I' n = dir_map sb dp i V I n
    end.

Lemma link_exists V I name inum ip inum' I' s' :
  fok sb V I -> cache_ok sb V I -> isdir I dp i -> moves s0 V I' s' -> got I inum' ip I' -> cache_ok sb V I' ->
  is_Some (dir_map sb dp i V I name) ->
  wp E (xv6fs_iput ip;; mret false) (link_post V I name inum) s'.
Proof using.
  intros Hf Hc Hd Hm Hg Hc' [x Hx]. pose proof Hg as [Hs Hoth Hin Hr Hl Hcase]. pose proof (ck_refs _ _ _ Hc ip Hs) as Hr0.
  wp_step. eapply (iput_drop_ok E s0 sb V I'); [exact Hm|done|done|lia|destruct Hcase as [?|(?&?&?)]; [left; lia|by right; left]|].
  clear Hm. intros I2 s2 Hm Hc2 Ho2 He2. apply wp_ret.
  assert (Hh2 : held I2 dp i).
  { pose proof (got_held dp i I inum' ip I' Hg (id_held _ _ _ Hd)) as Hh'. destruct Hh' as [H1 H2 H3 H4].
    destruct (decide (dp = ip)) as [->|]; [|split; rewrite ?Ho2 by done; done].
    pose proof (hd_ref _ _ _ (id_held _ _ _ Hd)). split; rewrite ?He2; simpl; done || lia. }
  destruct (dir_map_cache sb dp i V I I2 Hc Hc2 Hd Hh2) as [Hd2 Hmap]. destruct (cache_roots sb V I I2 Hc Hc2) as [Hnow HA].
  exists V, I2. split; [done|]. split; [by apply (cache_fok sb V I)|]. split; [done|]. split; [done|]. split.
  - intros j Hj Hne. split; [done|]. intros o Hoff. by rewrite <- HA.
  - by rewrite Hx.
Qed.

(** What the write of an entry at [spot] makes of the directory. *)
Lemma link_written V I name inum tot V' I' :
  fok sb V I -> isdir I dp i -> dir_map sb dp i V I name = None -> Forall byte_ok name -> 0 < inum < 2 ^ 16 ->
  let off := spot (fbyte V (roots sb V I) i) (I dp).(i_d).(di_size) in
  let src := put_dirent (mk_dirent name inum) in
  0 <= tot <= DE_SIZE -> stopped sb V' off tot DE_SIZE -> fok sb V' I' -> held I' dp i ->
  grown_d (I dp).(i_d) (I' dp).(i_d) off tot ->
  overwritten sb V (roots sb V I) V' (roots sb V' I') i off (take (Z.to_nat tot) src) ->
  isdir I' dp i /\
  if bool_decide (tot = DE_SIZE)
  then (exists o, dir_map sb dp i V' I' name = Some (inum, o)) /\
       forall n, norm n <> norm name -> dir_map sb dp i V' I' n = dir_map sb dp i V I n
  else full sb V' /\ forall n, dir_map sb dp i V' I' n = dir_map sb dp i V I n.
Proof using.
  intros Hf [Hh Ht Hmod] Hnone Hname Hin off src Htot Hst Hf' Hh' [Hgd _] Hov.
  pose proof (dk_size _ (held_d sb dp i V I Hf Hh)) as Hsz. pose proof (held_inum _ _ _ _ (fk_table _ _ _ Hf) Hh) as Hi.
  set (size := di_size (i_d (I dp))) in *. set (byte := fbyte V (roots sb V I) i) in *. set (byte' := fbyte V' (roots sb V' I') i).
  destruct (spot_ok byte size ltac:(lia) Hmod) as (m&Hoff&Hm&Hfree). fold off in Hoff.
  pose proof (mk_dirent_ok name inum Hname) as Hbn. pose proof (zlen_put_dirent _ Hbn) as Hsrc. fold src in Hsrc.
  pose proof (Z.div_mod size DE_SIZE ltac:(done)) as Hdm. rewrite Hmod in Hdm.
  assert (Hmax : XV6FS_MAXFILE * BSIZE = 17247249408) by done.
  assert (Htype : di_type (i_d (I' dp)) = XV6FS_T_DIR) by (rewrite Hgd; done).
  assert (Hsz' : di_size (i_d (I' dp)) = Z.max size (off + tot)) by (rewrite Hgd; done).
  change DE_SIZE with 64 in *.
  destruct (decide (tot = 64)) as [->|Hnt].
  - rewrite bool_decide_true by done. rewrite (take_ge src) in Hov by (unfold zlen in Hsrc; lia).
    assert (Hby : forall o, 0 <= o <= size + 64 -> byte' o = if decide (off <= o < off + 64) then zget src (o - off) else byte o).
    { intros o Hor. unfold byte'. rewrite Hov by lia. rewrite Hsrc. repeat case_decide; tauto. }
    assert (Hnew : entry byte' m = mk_dirent name inum).
    { apply entry_written; [done|]. change DE_SIZE with 64. intros o Hor. rewrite Hby, decide_True by lia. by rewrite Hoff. }
    assert (Hold : forall k, 0 <= k < size / 64 -> k <> m -> entry byte' k = entry byte k).
    { intros k Hk Hne. apply entry_same. change DE_SIZE with 64. intros o Hor. by rewrite Hby, decide_False by lia. }
    assert (Hin16 : de_inum (mk_dirent name inum) = inum) by (apply u16_small; lia).
    assert (Hnn : norm (de_name (mk_dirent name inum)) = norm name) by apply norm_strncpy.
    assert (Hsa : di_size (i_d (I' dp)) = size_after size m) by (rewrite Hsz', Hoff; done).
    split; [split; [done|done|]|split].
    + rewrite Hsz', Hoff. change DE_SIZE with 64. destruct (Z.max_spec size (m * 64 + 64)) as [[? ->]|[? ->]]; [|done].
      replace (m * 64 + 64) with ((m + 1) * 64) by lia. by apply Z.mod_mul.
    + exists (m * 64). unfold dir_map. rewrite Hsa. fold byte'. pose proof (dir_add_same byte byte' size m (mk_dirent name inum)) as Ha. rewrite Hin16 in Ha. apply Ha; done || lia.
    + intros n Hn. unfold dir_map. rewrite Hsa. pose proof (dir_add_other byte byte' size m (mk_dirent name inum)) as Ha.
      rewrite Hin16, Hnn in Ha. apply Ha; done || lia.
  - rewrite bool_decide_false by done. destruct Hst as [|[Hfull Hbd]]; [done|].
    assert (tot = 0) as ->.
    { destruct Hbd as [|Hbd]; [done|]. rewrite Hoff in Hbd. change BSIZE with (16 * 64) in Hbd.
      pose proof (Z.div_mod (m * 64 + tot) (16 * 64) ltac:(done)). lia. }
    assert (Hs0 : di_size (i_d (I' dp)) = size) by (rewrite Hsz', Hoff; lia).
    split; [split; [done|done|by rewrite Hs0]|]. split; [done|]. intros n. unfold dir_map. rewrite Hs0. fold size byte byte'.
    apply first_entry_ext. intros k Hk. change DE_SIZE with 64 in *. f_equal. apply entry_same. change DE_SIZE with 64. intros o Hor.
    unfold byte'. rewrite Hov by lia. by rewrite decide_False by (change (zlen (take (Z.to_nat 0) src)) with 0; lia).
Qed.

Lemma dirlink_ok V I name inum s :
  fok sb V I -> cache_ok sb V I -> isdir I dp i -> moves s0 V I s -> Forall byte_ok name -> 0 < inum < 2 ^ 16 ->
  (I dp).(i_d).(di_size) + DE_SIZE < 2 ^ 32 ->
  (forall x off, dir_map sb dp i V I name = Some (x, off) -> 0 <= x < sb.(sb_ninodes) /\ room I x) ->
  wp E (xv6fs_dirlink dp name inum) (link_post V I name inum) s.
Proof using All.
  intros Hf Hc Hd Hm Hname Hin Hgrow Hroom. unfold xv6fs_dirlink. wp_step.
  eapply wp_mono; [by apply (dirlookup_ok E s0 sb dp i V I)|]. clear Hm. intros r s1 Hp. unfold lookup_post in Hp.
  destruct (dir_map sb dp i V I name) as [[x off]|] eqn:Hx.
  { destruct Hp as (ip&I'&->&Hm&Hg&Hc'). eapply link_exists; try done. }
  destruct Hp as [-> Hm]. wp_step. fs_step Hm. wp_step. eapply wp_mono; [by apply (dir_scan_all E s0 sb dp i)|]. clear Hm.
  intros r s2 [-> Hm]. wp_step. wp_step.
  pose proof (dk_size _ (held_d sb dp i V I Hf (id_held _ _ _ Hd))) as Hsz. pose proof (id_size _ _ _ Hd) as Hmod.
  pose proof (mk_dirent_ok name inum Hname) as Hbn.
  assert (Hspot : match first_entry free_entry (fbyte V (roots sb V I) i) (Z.to_nat (di_size (i_d (I dp)) / DE_SIZE)) 0 with
    | Some off => off | None => dir_end (dir_fuel (i_d (I dp))) 0 (di_size (i_d (I dp))) end
    = spot (fbyte V (roots sb V I) i) (di_size (i_d (I dp)))).
  { unfold spot. destruct (first_entry _ _ _ _); [done|]. pose proof (Z.div_mod (di_size (i_d (I dp))) DE_SIZE ltac:(done)) as Hdm.
    rewrite Hmod, Z.add_0_r, Z.mul_comm in Hdm. pose proof (Z.div_pos (di_size (i_d (I dp))) DE_SIZE ltac:(lia) ltac:(done)).
    pose proof (dir_end_ok (dir_fuel (i_d (I dp))) 0 (di_size (i_d (I dp)) / DE_SIZE)) as He. rewrite <- Hdm in He. apply He; [lia|].
    unfold dir_fuel. lia. }
  rewrite Hspot. clear Hspot. destruct (spot_ok (fbyte V (roots sb V I) i) (di_size (i_d (I dp))) ltac:(lia) Hmod) as (m&Hoff&Hmr&_).
  wp_step. eapply wp_mono; [apply (writei_ok E HE s0 Ho Hhint sb Hsb dp i V I); [exact Hm|done|apply Hd|..]|].
  - rewrite Hoff. change DE_SIZE with 64. lia.
  - rewrite zlen_put_dirent by done. rewrite Hoff. pose proof (Z.div_mod (di_size (i_d (I dp))) DE_SIZE ltac:(done)) as Hdm.
    change DE_SIZE with 64 in *. lia.
  - by apply put_dirent_bytes.
  - clear Hm. intros w s3 (tot&V'&I'&->&Hm&Ht&Hst&Hf'&Hh'&Hon&Hg&Hdk&Hj&Hov). apply wp_ret. rewrite zlen_put_dirent in Ht, Hst by done.
    destruct (link_written V I name inum tot V' I') as [Hd' Hres]; try done.
    exists V', I'. split; [done|]. split; [done|]. split; [|split; [done|split]].
    + apply (cache_write sb V dp i I); try done; [apply Hd|]. intros j Hj1 Hj2. by apply Hj.
    + intros j Hj1 Hj2. split; [by apply Hj|]. intros o Hor. rewrite Hov by done. by rewrite decide_False by (intros [? _]; done).
    + rewrite Hx. destruct (decide (tot = DE_SIZE)) as [->|Hne].
      * by rewrite bool_decide_true in Hres |- * by done.
      * by rewrite bool_decide_false in Hres by done; rewrite bool_decide_false by congruence.
Qed.
End link.
