(* ===== verification/FsPath.v ===== *)
(** * Path resolution

    [namex] against a function of the contents of the disk alone: it finds the
    inode that the directories, and the symbolic links on the way, give for the
    path.  It changes nothing, leaves every inode unlocked, and the only
    reference it leaves behind is the one it returns. *)
From S2P Require Import Prelude State Bytes Log Xv6fs Xv6dir FsState FsTree FsMap FsFile FsTrunc FsInode FsDir.

(** ** Paths *)

Lemma skip_slashes_len p : (length (skip_slashes p) <= length p)%nat.
Proof. induction p as [|c p IH]; simpl; [done|]. destruct (c =? SLASH); simpl; lia. Qed.

Lemma take_elem_len p : (length (take_elem p).1 + length (take_elem p).2 = length p)%nat.
Proof. induction p as [|c p IH]; simpl; [done|]. destruct (c =? SLASH); [done|]. destruct (take_elem p); simpl in *; lia. Qed.

Lemma skip_slashes_hd p c q : skip_slashes p = c :: q -> (c =? SLASH) = false.
Proof. induction p as [|x p IH]; simpl; [done|]. destruct (x =? SLASH) eqn:Hx; [done|]. by intros [= -> ->]. Qed.

(** Every element takes at least one byte off the path. *)
Lemma skipelem_len path name t rest : skipelem path = Some (name, t, rest) -> (length rest < length path)%nat.
Proof.
  unfold skipelem. destruct (skip_slashes path) as [|c q] eqn:Hs; [done|].
  pose proof (skip_slashes_len path) as Hl. rewrite Hs in Hl. pose proof (take_elem_len (c :: q)) as Ht.
  pose proof (skip_slashes_hd _ _ _ Hs) as Hc. simpl in Ht |- *. rewrite Hc in Ht |- *.
  destruct (take_elem q) as [e r]. simpl in *. intros [= _ _ <-]. pose proof (skip_slashes_len r). lia.
Qed.

(** ** The specification *)

Section spec.
Context (D : Z -> dinode) (byte : Z -> Z -> Z).

Definition dir_entry (i : Z) (name : list Z) : option Z := fst <$> dir_find (byte i) (D i).(di_size) name.
Definition target (i : Z) : list Z := cstr (byte i <$> seqZ 0 (Z.min 255 (D i).(di_size))).

(** The inode found, if any, and the last element; [None] when an element that
    is not the last leaves no room for its terminating 0. *)
Fixpoint rwalk (fuel : nat) (again : list Z -> option (option Z * list Z)) (parent follow : bool) (i : Z)
    (path resolved name : list Z) : option (option Z * list Z) :=
  match fuel with
  | O => None
  | S fuel =>
      match skipelem path with
      | None => Some (if parent then None else Some i, name)
      | Some (name, terminated, path) =>
          if negb ((D i).(di_type) =? XV6FS_T_DIR) then Some (None, name) else
          if parent && bool_decide (path = []) then Some (Some i, name) else
          match dir_entry i name with
          | None => Some (None, name)
          | Some j =>
              if ((D j).(di_type) =? XV6FS_T_SYMLINK) && (negb (bool_decide (path = [])) || follow) then
                match symlink_path resolved (target j) path with
                | None => Some (None, name)
                | Some p => again p
                end
              else if terminated : bool then
                rwalk fuel again parent follow j path
                  (if zlen resolved + 1 + zlen name <? 256 then resolved ++ [SLASH] ++ name else resolved) name
              else None
          end
      end
  end.

Fixpoint resolve (depth : nat) (path : list Z) (parent follow : bool) (name : list Z) : option (option Z * list Z) :=
  match depth with
  | O => Some (None, name)
  | S depth =>
      if hd 0 path =? SLASH
      then rwalk (S (length path)) (fun p => resolve depth p parent follow name) parent follow XV6FS_ROOTINO path [] name
      else Some (None, name)
  end.
End spec.

(** ** The table of inodes on the way *)

Section walk.
Context (E : panic -> Prop) (s0 : fsst) (sb : superblock) (Hsb : s0.(f_sb) = sb) (V : Z -> block) (I0 : Z -> inode).
Context (Hf0 : fok sb V I0) (Hc0 : cache_ok sb V I0).

Abbreviation D := (disk_inode sb V).
Abbreviation byte := (fbyte V (roots sb V I0)).

(** An inode with a name. *)
Record live (i : Z) : Prop := mkLive {
  lv_inum : 0 <= i < sb.(sb_ninodes);
  lv_type : (D i).(di_type) <> 0;
  lv_nlink : (D i).(di_nlink) <> 0 }.

(** Directories are whole numbers of entries, and what they name is live. *)
Record tree_ok : Prop := mkTree {
  tk_root : live XV6FS_ROOTINO;
  tk_size : forall i, live i -> (D i).(di_type) = XV6FS_T_DIR -> (D i).(di_size) mod DE_SIZE = 0;
  tk_entry : forall i name j, live i -> (D i).(di_type) = XV6FS_T_DIR -> dir_entry D byte i name = Some j -> live j }.
Context (Ht0 : tree_ok).

(** Two slots of the table are free. *)
Context (Hroom : exists a b, a <> b /\ 0 <= a < XV6FS_NINODE /\ 0 <= b < XV6FS_NINODE /\ (I0 a).(i_ref) = 0 /\ (I0 b).(i_ref) = 0).

(** Table [I] has the references of [I0] and [d] more, and the locks [L]. *)
Record held_more (d : Z -> Z) (L : Z -> bool) (I : Z -> inode) : Prop := mkMore {
  hm_cache : cache_ok sb V I;
  hm_ref : forall y, 0 <= y < XV6FS_NINODE -> (I y).(i_ref) = (I0 y).(i_ref) + d y;
  hm_inum : forall y, 0 <= y < XV6FS_NINODE -> 0 < (I0 y).(i_ref) -> (I y).(i_inum) = (I0 y).(i_inum);
  hm_lock : forall y, 0 <= y < XV6FS_NINODE -> (I y).(i_locked) = L y }.

Definition none : Z -> Z := fun _ => 0.
Definition one (ip : Z) : Z -> Z := fset none ip 1.
Definition free : Z -> bool := fun _ => false.

Lemma more_ext d d' L L' I : held_more d L I -> (forall y, d y = d' y) -> (forall y, L y = L' y) -> held_more d' L' I.
Proof using. intros [] Hd HL. split; try done; intros y Hy; rewrite <- ?Hd, <- ?HL; auto. Qed.

Lemma more_room d L I j : held_more d L I -> (exists ip, forall y, y <> ip -> d y = 0) -> room I j.
Proof using Hroom.
  intros [_ Hr _ _] [ip Hd]. destruct Hroom as (a&b&Hab&Ha&Hb&Ha0&Hb0). destruct (decide (a = ip)) as [->|].
  - exists b. split; [done|right]. rewrite Hr, Hb0, Hd by done. done.
  - exists a. split; [done|right]. rewrite Hr, Ha0, Hd by done. done.
Qed.

Lemma more_get d L I j ip I' : held_more d L I -> (forall y, 0 <= d y) -> got I j ip I' -> cache_ok sb V I' ->
  held_more (fset d ip (d ip + 1)) L I'.
Proof using Hc0.
  intros [Hc Hr Hi Hl] Hd [Hs Ho Hin Hrf Hlk Hcase] Hc'. pose proof (ck_refs _ _ _ Hc0) as H0. split; [done|..]; intros y Hy.
  - rewrite fset_spec. case_decide as He; [subst y; rewrite Hrf, Hr by done; lia|rewrite Ho by congruence; by apply Hr].
  - intros Hy0. destruct (decide (y = ip)) as [->|]; [|rewrite Ho by done; by apply Hi].
    destruct Hcase as [(_&He&_)|[Hz _]]; [rewrite Hin, <- He; by apply Hi|]. rewrite Hr in Hz by done. specialize (Hd ip). lia.
  - destruct (decide (y = ip)) as [->|]; [rewrite Hlk|rewrite Ho by done]; by apply Hl.
Qed.

(** A slot changes in its lock, contents and references. *)
Lemma more_upd d L I ip I' r l : held_more d L I -> cache_ok sb V I' -> (forall y, y <> ip -> I' y = I y) ->
  (I' ip).(i_inum) = (I ip).(i_inum) -> (I' ip).(i_ref) = (I ip).(i_ref) + r -> (I' ip).(i_locked) = l ->
  held_more (fset d ip (d ip + r)) (fset L ip l) I'.
Proof using.
  intros [Hc Hr Hi Hl] Hc' Ho H1 H2 H3. split; [done|..]; intros y Hy; rewrite ?fset_spec; destruct (decide (y = ip)) as [->|Hne].
  - rewrite H2, Hr by done. lia.
  - rewrite Ho by done. by apply Hr.
  - rewrite H1. by apply Hi.
  - rewrite Ho by done. by apply Hi.
  - done.
  - rewrite Ho by done. by apply Hl.
Qed.

Lemma more_fok d L I : held_more d L I -> fok sb V I /\ pw (roots sb V I0) (roots sb V I).
Proof using Hf0 Hc0. intros Hh. pose proof (hm_cache _ _ _ Hh) as Hc. split; [by apply (cache_fok sb V I0)|by apply cache_roots]. Qed.

(** *** The calls of [namex] *)

Lemma walk_lock I d L ip i s (Q : unit -> fsst -> Prop) :
  moves s0 V I s -> held_more d L I -> 0 <= ip < XV6FS_NINODE -> 0 < (I ip).(i_ref) -> (I ip).(i_inum) = i -> live i -> L ip = false ->
  (forall I' s', moves s0 V I' s' -> held_more d (fset L ip true) I' -> held I' ip i -> (I' ip).(i_d) = D i -> Q tt s') ->
  wp E (xv6fs_ilock ip) Q s.
Proof using Hsb Hf0.
  intros Hm Hh Hip Hr Hi Hl HL HQ. pose proof (wf_blocks _ _ _ (fk_wf _ _ _ Hf0)) as HV.
  eapply (ilock_ok E s0 sb V I ip); [done|exact Hm|apply Hh|done|done|done|by rewrite (hm_lock _ _ _ Hh), HL|rewrite Hi; apply Hl|].
  intros I' s' Hm' Hc' Ho He. eapply HQ; [done| |by split; rewrite ?He|by rewrite He, <- Hi].
  eapply more_ext; [apply (more_upd d L I ip I' 0 true Hh Hc' Ho); rewrite He; simpl; done || lia| |done].
  intros y. rewrite fset_spec. case_decide; [subst; lia|done].
Qed.

Lemma walk_unlock I d L ip s (Q : unit -> fsst -> Prop) :
  moves s0 V I s -> held_more d L I -> 0 <= ip < XV6FS_NINODE -> 0 < (I ip).(i_ref) ->
  (forall I' s', moves s0 V I' s' -> held_more d (fset L ip false) I' -> (I' ip).(i_inum) = (I ip).(i_inum) -> 
     (I' ip).(i_ref) = (I ip).(i_ref) -> (I' ip).(i_valid) = (I ip).(i_valid) -> (I' ip).(i_d) = (I ip).(i_d) ->
     (forall y, y <> ip -> I' y = I y) -> Q tt s') ->
  wp E (xv6fs_iunlock ip) Q s.
Proof using.
  intros Hm Hh Hip Hr HQ. eapply (iunlock_ok E s0 sb V I ip); [exact Hm|apply Hh|done|done|].
  intros I' s' Hm' Hc' Ho He. eapply HQ; [done| |by rewrite He..|done].
  eapply more_ext; [apply (more_upd d L I ip I' 0 false Hh Hc' Ho); rewrite He; simpl; done || lia| |done].
  intros y. rewrite fset_spec. case_decide; [subst; lia|done].
Qed.

Lemma walk_put I d L ip s (Q : unit -> fsst -> Prop) :
  moves s0 V I s -> held_more d L I -> 0 <= ip < XV6FS_NINODE -> 0 < (I ip).(i_ref) -> live (I ip).(i_inum) ->
  (forall I' s', moves s0 V I' s' -> held_more (fset d ip (d ip - 1)) L I' -> (forall y, y <> ip -> I' y = I y) ->
     (I' ip).(i_inum) = (I ip).(i_inum) -> (I' ip).(i_ref) = (I ip).(i_ref) - 1 -> Q tt s') ->
  wp E (xv6fs_iput ip) Q s.
Proof using.
  intros Hm Hh Hip Hr Hl HQ. eapply (iput_drop_ok E s0 sb V I ip); [exact Hm|apply Hh|done|done| |].
  { destruct (i_valid (I ip)) eqn:Hv; [right; right|by right; left].
    rewrite (ck_sync _ _ _ (hm_cache _ _ _ Hh) ip Hip Hr Hv). apply Hl. }
  intros I' s' Hm' Hc' Ho He. eapply HQ; [done| |done|by rewrite He..].
  eapply more_ext; [apply (more_upd d L I ip I' (-1) (L ip) Hh Hc' Ho); rewrite He; simpl; done || by apply (hm_lock _ _ _ Hh)|..].
  - intros y. rewrite !fset_spec. by case_decide.
  - intros y. rewrite fset_spec. by case_decide; subst.
Qed.

Lemma walk_unlockput I d L ip s (Q : unit -> fsst -> Prop) :
  moves s0 V I s -> held_more d L I -> 0 <= ip < XV6FS_NINODE -> 0 < (I ip).(i_ref) -> live (I ip).(i_inum) ->
  (forall I' s', moves s0 V I' s' -> held_more (fset d ip (d ip - 1)) (fset L ip false) I' -> (forall y, y <> ip -> I' y = I y) ->
     (I' ip).(i_inum) = (I ip).(i_inum) -> (I' ip).(i_ref) = (I ip).(i_ref) - 1 -> Q tt s') ->
  wp E (xv6fs_iunlockput ip) Q s.
Proof using.
  intros Hm Hh Hip Hr Hl HQ. unfold xv6fs_iunlockput. wp_step. eapply walk_unlock; [exact Hm|done|done|done|].
  intros I1 s1 Hm1 Hh1 Hi1 Hr1 _ _ Ho1. eapply walk_put; [exact Hm1|done|done|by rewrite Hr1|by rewrite Hi1|].
  intros I2 s2 Hm2 Hh2 Ho2 Hi2 Hr2. eapply HQ; [done|done| |congruence|congruence]. intros y Hy. by rewrite Ho2, Ho1.
Qed.

(** The inode in slot [ip], with one more reference than before and no lock. *)
Record at_inode (ip i : Z) (I : Z -> inode) : Prop := mkAt {
  at_slot : 0 <= ip < XV6FS_NINODE;
  at_more : held_more (one ip) free I;
  at_inum : (I ip).(i_inum) = i }.

Lemma at_ref ip i I : at_inode ip i I -> 0 < (I ip).(i_ref).
Proof using Hc0.
  intros [Hs Hh _]. rewrite (hm_ref _ _ _ Hh) by done. unfold one. rewrite fset_eq. pose proof (ck_refs _ _ _ Hc0 ip Hs). lia.
Qed.

(** What [namex] leaves behind for a result of the specification. *)
Definition found_post (r : option Z * list Z) (o : found) (s' : fsst) : Prop :=
  o.2 = r.2 /\ exists I, moves s0 V I s' /\
    match r.1 with
    | None => o.1 = None /\ held_more none free I
    | Some i => live i /\ exists ip, o.1 = Some ip /\ at_inode ip i I
    end.

Lemma one_minus ip y : fset (one ip) ip (one ip ip - 1) y = none y.
Proof using. unfold one. rewrite fset_eq, !fset_spec. by repeat case_decide. Qed.
Lemma unlocked ip y : fset (fset free ip true) ip false y = free y.
Proof using. rewrite !fset_spec. by repeat case_decide. Qed.
Lemma still_free ip y : fset free ip false y = free y.
Proof using. rewrite fset_spec. by case_decide. Qed.

(** Giving the inode back, unlocked or locked. *)
Lemma leave_put ip i I s name : moves s0 V I s -> at_inode ip i I -> live i ->
  wp E (xv6fs_iput ip;; mret (None, name)) (found_post (None, name)) s.
Proof using Hc0.
  intros Hm Ha Hl. wp_step. eapply walk_put; [exact Hm|apply Ha|apply Ha|by eapply at_ref|by rewrite (at_inum _ _ _ Ha)|].
  intros I' s' Hm' Hh' _ _ _. apply wp_ret. split; [done|]. exists I'. split; [done|]. split; [done|].
  eapply more_ext; [exact Hh'|apply one_minus|done].
Qed.

Lemma leave_locked ip i I s name : moves s0 V I s -> held_more (one ip) (fset free ip true) I -> held I ip i -> live i ->
  wp E (xv6fs_iunlockput ip;; mret (None, name)) (found_post (None, name)) s.
Proof using.
  intros Hm Hh [H1 H2 H3 H4] Hl. wp_step. eapply walk_unlockput; [exact Hm|exact Hh|done|done|by rewrite H3|].
  intros I' s' Hm' Hh' _ _ _. apply wp_ret. split; [done|]. exists I'. split; [done|]. split; [done|].
  eapply more_ext; [exact Hh'|apply one_minus|apply unlocked].
Qed.

Lemma find_roots I i size name : pw (roots sb V I0) (roots sb V I) ->
  dir_find (fbyte V (roots sb V I) i) size name = dir_find (byte i) size name.
Proof using.
  intros HA. apply first_entry_ext. intros m _. f_equal. unfold entry. f_equal. apply list_fmap_ext. intros k x Hx. by rewrite <- HA.
Qed.

Lemma dir_entry_find i name j : dir_entry D byte i name = Some j <-> exists off, dir_find (byte i) (D i).(di_size) name = Some (j, off).
Proof using.
  unfold dir_entry. rewrite fmap_Some. split; [intros ([x off]&H&->); eauto|intros [off H]; by exists (j, off)].
Qed.

(** Looking an element up and leaving the directory. *)
Lemma walk_step {A} ip i I s name (k : option (Z * Z) -> F A) (Q : A -> fsst -> Prop) :
  moves s0 V I s -> held_more (one ip) (fset free ip true) I -> held I ip i -> (I ip).(i_d) = D i -> live i ->
  (D i).(di_type) = XV6FS_T_DIR ->
  match dir_entry D byte i name with
  | None => forall I' s', moves s0 V I' s' -> held_more none free I' -> wp E (k None) Q s'
  | Some j => forall next off I' s', moves s0 V I' s' -> at_inode next j I' -> wp E (k (Some (next, off))) Q s'
  end ->
  wp E (r ← xv6fs_dirlookup ip name; xv6fs_iunlockput ip;; k r) Q s.
Proof using Hf0 Hc0 Ht0 Hroom.
  intros Hm Hh Hd Hid Hl Hty HQ. destruct (more_fok _ _ _ Hh) as [Hf HA]. wp_step.
  assert (Hmap : dir_map sb ip i V I name = dir_find (byte i) (D i).(di_size) name) by (unfold dir_map; by rewrite Hid, find_roots).
  eapply wp_mono; [apply (dirlookup_ok E s0 sb ip i V I name s Hf (hm_cache _ _ _ Hh)); [split; [done|by rewrite Hid|]|exact Hm|]|].
  { rewrite Hid. by apply (tk_size Ht0). }
  { rewrite Hmap. intros j off Hj. split; [apply (tk_entry Ht0 i name); try done; apply dir_entry_find; eauto|].
    eapply more_room; [exact Hh|]. exists ip. intros y Hy. by apply fset_ne. }
  clear Hm. intros r s1 Hp. unfold lookup_post in Hp. rewrite Hmap in Hp. unfold dir_entry in HQ. destruct Hd as [H1 H2 H3 H4].
  destruct (dir_find (byte i) (di_size (D i)) name) as [[j off]|] eqn:Hfind; cbn [fmap option_fmap option_map fst] in HQ.
  - destruct Hp as (next&I1&->&Hm&Hg&Hc1). pose proof (got_held ip i I j next I1 Hg (mkHeld _ _ _ H1 H2 H3 H4)) as [G1 G2 G3 G4].
    assert (Hh1 : held_more (fset (one ip) next (one ip next + 1)) (fset free ip true) I1).
    { apply (more_get (one ip) _ I j); try done. intros y. unfold one. rewrite fset_spec. by case_decide. }
    wp_step. eapply walk_unlockput; [exact Hm|exact Hh1|done|done|by rewrite G3|].
    intros I2 s2 Hm2 Hh2 Ho2 Hi2 _. apply (HQ next off I2 s2 Hm2). split; [apply Hg| |].
    + eapply more_ext; [exact Hh2| |apply unlocked]. intros y. unfold one, none. rewrite !fset_spec. repeat case_decide; congruence || lia.
    + rewrite <- (gt_inum _ _ _ _ Hg). destruct (decide (next = ip)) as [->|]; [done|by rewrite Ho2].
  - destruct Hp as [-> Hm]. wp_step. eapply walk_unlockput; [exact Hm|exact Hh|done|done|by rewrite H3|].
    intros I2 s2 Hm2 Hh2 _ _ _. apply (HQ I2 s2 Hm2). eapply more_ext; [exact Hh2|apply one_minus|apply unlocked].
Qed.

(** Looking at an inode's type. *)
Lemma walk_peek {A} ip i I s (k : dinode -> F A) (Q : A -> fsst -> Prop) :
  moves s0 V I s -> at_inode ip i I -> live i -> (forall I' s', moves s0 V I' s' -> at_inode ip i I' -> wp E (k (D i)) Q s') ->
  wp E (xv6fs_ilock ip;; di ← iget_d ip; xv6fs_iunlock ip;; k di) Q s.
Proof using Hsb Hf0 Hc0.
  intros Hm Ha Hl HQ. wp_step. eapply (walk_lock I); [exact Hm|apply Ha|apply Ha|by eapply at_ref|exact (at_inum _ _ _ Ha)|done|done|].
  clear Hm. intros I1 s1 Hm Hh [H1 H2 H3 H4] Hid. wp_step. fs_step Hm. rewrite Hid. wp_step.
  eapply walk_unlock; [exact Hm|exact Hh|done|done|]. intros I2 s2 Hm2 Hh2 Hi2 _ _ _ _. apply (HQ I2 s2 Hm2).
  split; [done| |congruence]. eapply more_ext; [exact Hh2|done|apply unlocked].
Qed.

Lemma walk_target ip i I s (Q : list Z -> fsst -> Prop) :
  moves s0 V I s -> at_inode ip i I -> live i ->
  (forall I' s', moves s0 V I' s' -> held_more none free I' -> Q (target D byte i) s') ->
  wp E (xv6fs_read_symlink_target ip 256) Q s.
Proof using Hsb Hf0 Hc0.
  intros Hm Ha Hl HQ. unfold xv6fs_read_symlink_target. wp_step.
  eapply (walk_lock I); [exact Hm|apply Ha|apply Ha|by eapply at_ref|exact (at_inum _ _ _ Ha)|done|done|].
  clear Hm. intros I1 s1 Hm Hh Hd Hid. destruct (more_fok _ _ _ Hh) as [Hf HA]. change (u32 (256 - 1)) with 255.
  wp_step. eapply wp_mono; [apply (readi_ok E s0 sb V I1 ip i); done|]. clear Hm. intros l s2 [-> Hm].
  wp_step. destruct Hd as [H1 H2 H3 H4]. eapply walk_unlockput; [exact Hm|exact Hh|done|done|by rewrite H3|].
  intros I2 s3 Hm2 Hh2 _ _ _. apply wp_ret.
  assert (Hsz : 0 <= di_size (D i) < 2 ^ 32) by (rewrite <- Hid; by apply (dk_size _ (held_d sb ip i V I1 Hf (mkHeld _ _ _ H1 H2 H3 H4)))).
  replace (cstr _) with (target D byte i); [apply (HQ I2 s3 Hm2); eapply more_ext; [exact Hh2|apply one_minus|apply unlocked]|].
  unfold target, file_slice. f_equal. rewrite Hid. unfold readable. destruct (Z.ltb_spec (di_size (D i)) 0); [lia|]. simpl.
  rewrite Z.sub_0_r. apply list_fmap_ext. intros k x Hx. by rewrite HA.
Qed.

(** *** The loop and the restarts *)

(** The specification has a result, and it is what was found. *)
Definition as_resolved (q : option (option Z * list Z)) (o : found) (s' : fsst) : Prop := exists r, q = Some r /\ found_post r o s'.

(** Either reading past an unterminated element is excluded, or it is allowed to halt the kernel. *)
Definition may_halt (q : option (option Z * list Z)) : Prop := is_Some q \/ E Undefined.

Lemma namex_walk_ok again ragain parent follow
    (Hagain : forall p I s, may_halt (ragain p) -> moves s0 V I s -> held_more none free I -> wp E (again p) (as_resolved (ragain p)) s)
    fuel ip i path resolved name I s :
  let q := rwalk D byte fuel ragain parent follow i path resolved name in
  (length path < fuel)%nat -> may_halt q -> moves s0 V I s -> at_inode ip i I -> live i ->
  wp E (namex_walk fuel again parent follow ip path resolved name) (as_resolved q) s.
Proof using All.
  revert ip i path resolved name I s. induction fuel as [|fuel IH]; intros ip i path resolved name I s q Hfuel Hq Hm Ha Hl; [lia|].
  subst q. cbn [namex_walk rwalk] in *. destruct (skipelem path) as [[[nm term] rest]|] eqn:Hskip.
  2: { destruct parent; (eapply wp_mono; [|intros o s' Hp; eexists; split; [done|exact Hp]]); [by eapply leave_put|].
       apply wp_ret. split; [done|]. exists I. split; [done|]. split; [done|]. by exists ip. }
  apply skipelem_len in Hskip.
  wp_step. eapply (walk_lock I); [exact Hm|apply Ha|apply Ha|by eapply at_ref|exact (at_inum _ _ _ Ha)|done|done|].
  clear Hm. intros I1 s1 Hm Hh Hd Hid. wp_step. fs_step Hm. rewrite Hid.
  destruct (Z.eqb_spec (di_type (D i)) XV6FS_T_DIR) as [Hty|]; cbn [negb] in *.
  2: { eapply wp_mono; [by eapply leave_locked|]. intros o s' Hp. by eexists. }
  destruct (parent && bool_decide (rest = [])).
  { wp_step. eapply walk_unlock; [exact Hm|exact Hh|apply Hd|apply Hd|]. intros I2 s2 Hm2 Hh2 Hi2 _ _ _ _.
    apply wp_ret. eexists. split; [done|]. split; [done|]. exists I2. split; [done|]. split; [done|]. exists ip. split; [done|].
    split; [apply Hd|eapply more_ext; [exact Hh2|done|apply unlocked]|by rewrite Hi2, (hd_inum _ _ _ Hd)]. }
  eapply walk_step; [exact Hm|exact Hh|exact Hd|exact Hid|done|done|]. clear Hm. destruct (dir_entry D byte i nm) as [j|] eqn:He.
  2: { intros I2 s2 Hm Hh2. apply wp_ret. eexists. split; [done|]. split; [done|]. by exists I2. }
  intros next off I2 s2 Hm Ha2. pose proof (tk_entry Ht0 i nm j Hl Hty He) as Hlj.
  eapply walk_peek; [exact Hm|exact Ha2|done|]. clear Hm. intros I3 s3 Hm Ha3.
  destruct ((di_type (D j) =? XV6FS_T_SYMLINK) && (negb (bool_decide (rest = [])) || follow)).
  - wp_step. eapply walk_target; [exact Hm|exact Ha3|done|]. clear Hm. intros I4 s4 Hm Hh4.
    destruct (symlink_path resolved (target D byte j) rest); [by eapply Hagain|].
    apply wp_ret. eexists. split; [done|]. split; [done|]. by exists I4.
  - wp_step. destruct term; (apply wp_kassert; [intros Htm|intros Htm; try done]); [|done|].
    + eapply IH; [lia|exact Hq|exact Hm|exact Ha3|done].
    + destruct Hq as [[x Hx]|]; done.
Qed.

Lemma namex_ok depth path parent follow name I s :
  let q := resolve D byte depth path parent follow name in
  may_halt q -> moves s0 V I s -> held_more none free I ->
  wp E (namex_depth depth path parent follow name) (as_resolved q) s.
Proof using All.
  revert path I s. induction depth as [|depth IH]; intros path I s q Hq Hm Hh; subst q; cbn [namex_depth resolve] in *.
  { apply wp_ret. eexists. split; [done|]. split; [done|]. by exists I. }
  destruct (hd 0 path =? SLASH); [|apply wp_ret; eexists; split; [done|]; split; [done|]; by exists I].
  wp_step. eapply (iget_ok E s0 sb V I XV6FS_ROOTINO); [exact Hm|apply Hh|apply (tk_root Ht0)|eapply more_room; [exact Hh|by exists 0]|].
  clear Hm. intros ip I1 s1 Hm Hg Hc1.
  apply (namex_walk_ok _ (fun p => resolve D byte depth p parent follow name)) with (I := I1); [|lia|done|done| |apply (tk_root Ht0)].
  - intros p I' s' Hr' Hm' Hh'. by eapply IH.
  - split; [apply Hg| |apply Hg]. eapply more_ext; [eapply more_get; [exact Hh|done|exact Hg|done]|done|done].
Qed.
End walk.

(** * What a state of the file system is

    What the files contain ([content]), what the inodes are ([inode_of]), what
    the directories say ([names]) and which blocks are in use ([in_use]).
    [fs_ok] is the invariant of the file system between operations: the
    structure on the disk and the table of inodes are well formed, and the
    table agrees with the disk. *)
(** ** States *)

#[export] Instance disk_inode_proper sb : Proper (pw ==> eq ==> eq) (disk_inode sb).
Proof. intros V V' HV i _ <-. unfold disk_inode. by rewrite (HV _). Qed.
#[export] Instance inode_now_proper sb : Proper (pw ==> pw ==> eq ==> eq) (inode_now sb).
Proof.
  intros V V' HV I I' HI i _ <-. unfold inode_now. rewrite (slot_of_ext I' I) by (intros ip; by rewrite (HI ip)).
  destruct (slot_of I' i) as [ip|]; rewrite ?(HI ip); by rewrite HV.
Qed.
#[export] Instance roots_proper sb : Proper (pw ==> pw ==> pw) (roots sb).
Proof. intros V V' HV I I' HI i. unfold roots. case_decide; [by rewrite HV, HI|done]. Qed.
#[export] Instance held_proper : Proper (pw ==> eq ==> eq ==> iff) held.
Proof. intros I I' HI ip _ <- i _ <-. pose proof (HI ip) as He. split; intros [H1 H2 H3 H4]; split; congruence. Qed.

Lemma table_pw sb I I' : pw I I' -> table_ok sb I -> table_ok sb I'.
Proof.
  intros HI [H1 H2 H3]. split.
  - intros ip. rewrite <- (HI ip). apply H1.
  - intros a b. rewrite <- (HI a), <- (HI b). apply H2.
  - intros ip. rewrite <- (HI ip). apply H3.
Qed.
Lemma fok_pw sb V V' I I' : pw V V' -> pw I I' -> fok sb V I -> fok sb V' I'.
Proof. intros HV HI [Hw Ht]. split; [by rewrite <- HV, <- HI|by apply (table_pw sb I)]. Qed.
Lemma cache_pw sb V V' I I' : pw V V' -> pw I I' -> cache_ok sb V I -> cache_ok sb V' I'.
Proof.
  intros HV HI [Ht Hr Hs]. split; [by apply (table_pw sb I)|..]; intros ip; rewrite <- (HI ip); [apply Hr|rewrite <- HV; apply Hs].
Qed.

(** The invariant between operations. *)
Record fs_ok (s : fsst) : Prop := mkFsOk {
  fs_fok : fok s.(f_sb) (fv s) s.(f_inode);
  fs_cache : cache_ok s.(f_sb) (fv s) s.(f_inode);
  fs_hint : 0 <= s.(g_balloc_hint) }.

(** What a byte of a file is, what an inode is, whether a block is in use. *)
Definition content (s : fsst) (i off : Z) : Z := fbyte (fv s) (roots s.(f_sb) (fv s) s.(f_inode)) i off.
Definition inode_of (s : fsst) (i : Z) : dinode := inode_now s.(f_sb) (fv s) s.(f_inode) i.
Definition in_use (s : fsst) (b : Z) : bool := bit s.(f_sb) (fv s) b.
Definition disk_full (s : fsst) : Prop := forall b, 0 <= b < s.(f_sb).(sb_size) -> in_use s b = true.
Definition in_file (o : Z) : Prop := 0 <= o < XV6FS_MAXFILE * BSIZE.
Definition is_inode (s : fsst) (i : Z) : Prop := 0 <= i < s.(f_sb).(sb_ninodes).

Section view.
Context (s : fsst) (V : Z -> block) (I : Z -> inode) (s' : fsst) (Hm : moves s V I s').

Lemma mv_V : pw V (fv s').
Proof using Hm. intros b. symmetry. apply Hm. Qed.
Lemma mv_I : pw I (f_inode s').
Proof using Hm. intros b. symmetry. apply Hm. Qed.
Lemma mv_content i off : content s' i off = fbyte V (roots s.(f_sb) V I) i off.
Proof using Hm. unfold content. by rewrite (mv_sb _ _ _ _ Hm), <- mv_V, <- mv_I. Qed.
Lemma mv_inode_of i : inode_of s' i = inode_now s.(f_sb) V I i.
Proof using Hm. unfold inode_of. by rewrite (mv_sb _ _ _ _ Hm), <- mv_V, <- mv_I. Qed.
Lemma mv_in_use b : in_use s' b = bit s.(f_sb) V b.
Proof using Hm. unfold in_use. by rewrite (mv_sb _ _ _ _ Hm), <- mv_V. Qed.
Lemma mv_ok : fs_ok s -> fok s.(f_sb) V I -> cache_ok s.(f_sb) V I -> fs_ok s'.
Proof using Hm.
  intros [_ _ Hh] Hf Hc. split; rewrite ?(mv_sb _ _ _ _ Hm).
  - eapply fok_pw; [exact mv_V|exact mv_I|done].
  - eapply cache_pw; [exact mv_V|exact mv_I|done].
  - by apply (mv_hint _ _ _ _ Hm).
Qed.
Lemma mv_full : full s.(f_sb) V -> disk_full s'.
Proof using Hm. intros H b. rewrite (mv_sb _ _ _ _ Hm). intros Hb. rewrite mv_in_use. by apply H. Qed.
Lemma mv_held ip i : held I ip i -> held s'.(f_inode) ip i.
Proof using Hm. by rewrite mv_I. Qed.
End view.

(** The inode number a directory has for a name. *)
Definition names (s : fsst) (i : Z) (name : list Z) : option Z := dir_entry (inode_of s) (content s) i name.

Lemma names_map s V I s' dp i name : moves s V I s' -> table_ok s.(f_sb) I -> held I dp i ->
  names s' i name = fst <$> dir_map s.(f_sb) dp i V I name.
Proof.
  intros Hm Ht Hh. unfold names, dir_entry, dir_map. f_equal. rewrite (mv_inode_of s V I s' Hm), (inode_now_held _ _ _ _ _ Ht Hh).
  apply first_entry_ext. intros m _. f_equal. apply entry_same. intros o _. apply (mv_content s V I s' Hm).
Qed.

Lemma inode_of_held s ip i : fs_ok s -> held s.(f_inode) ip i -> inode_of s i = (s.(f_inode) ip).(i_d).
Proof. intros Hok Hh. apply (inode_now_held (f_sb s) (fv s)); [apply Hok|done]. Qed.
Lemma is_inode_held s ip i : fs_ok s -> held s.(f_inode) ip i -> is_inode s i.
Proof. intros Hok Hh. apply (held_inum _ _ _ _ (fk_table _ _ _ (fs_fok _ Hok)) Hh). Qed.

Lemma disk_pw sb V V' i : pw V V' -> disk_inode sb V' i = disk_inode sb V i.
Proof. intros HV. unfold disk_inode. by rewrite (HV _). Qed.
Lemma live_pw sb V V' i : pw V V' -> live sb V i -> live sb V' i.
Proof. intros HV [H1 H2 H3]. split; [done|by rewrite (disk_pw sb V V' i HV)..]. Qed.

Lemma tree_pw sb V V' I I' : pw V V' -> pw I I' -> tree_ok sb V I -> tree_ok sb V' I'.
Proof.
  intros HV HI [H1 H2 H3]. assert (HV' : pw V' V) by (intros b; symmetry; apply HV). split; [by eapply live_pw|..].
  - intros i Hl. rewrite (disk_pw sb V V' i HV). apply H2. by apply (live_pw _ V').
  - intros i name j Hl. unfold dir_entry. rewrite (disk_pw sb V V' i HV). intros Ht He. eapply live_pw; [exact HV|].
    apply (H3 i name j); [by apply (live_pw _ V')|done|]. rewrite <- He. unfold dir_entry. f_equal. apply first_entry_ext. intros m _. f_equal.
    apply entry_same. intros o _. by rewrite HV, HI.
Qed.
