(* ===== verification/FsExample.v ===== *)
(** * A small file system

    200 blocks and 16 inodes: the root directory, with one block of entries,
    an empty file in it, and an open file without a name.  The three inodes are
    in the table.  It satisfies the
    invariant of FsPath.v, and the theorems' examples run on it. *)
From S2P Require Import Prelude State Bytes Log Xv6fs Xv6dir FsState FsTree FsMap FsFile FsTrunc FsInode FsDir FsPath.

(** A file system in which one direct block is in use. *)
Lemma wf_single sb V AF i0 k0 a0 :
  layout sb -> blocks_ok V -> (forall i, zlen (AF i) = XV6FS_NDIRECT + 3) -> 0 <= i0 < sb.(sb_ninodes) -> 0 <= k0 < XV6FS_NDIRECT ->
  dstart sb <= a0 < sb.(sb_size) ->
  (forall i k, 0 <= i < sb.(sb_ninodes) -> 0 <= k < XV6FS_NDIRECT + 3 -> zget (AF i) k = if decide (i = i0 /\ k = k0) then a0 else 0) ->
  (forall b, 0 <= b < sb.(sb_size) -> bit sb V b = (b <? dstart sb) || (b =? a0)) -> wf sb V AF.
Proof.
  intros Hl HV Ha Hi0 Hk0 Ha0 HA Hbit. pose proof (layout_order sb Hl) as Ho. change XV6FS_NDIRECT with 9 in *.
  assert (Hv0 : valid sb (mkPos i0 k0 [])) by (split; simpl; try done; change XV6FS_NDIRECT with 9; lia).
  assert (Hn : forall P, valid sb P -> node V AF P <> 0 -> P = mkPos i0 k0 []).
  { intros [i k p] [H1 H2 H3 H4] Hne. change XV6FS_NDIRECT with 9 in *. simpl in *. unfold node in Hne. simpl in Hne. rewrite HA in Hne by done.
    destruct (decide (i = i0 /\ k = k0)) as [[-> ->]|]; [|by rewrite walk_zero in Hne]. f_equal.
    unfold depth in H3. change XV6FS_NDIRECT with 9 in H3. destruct (Z.ltb_spec k0 9); [|lia]. destruct p; [done|simpl in H3; lia]. }
  assert (Hna : node V AF (mkPos i0 k0 []) = a0) by (unfold node; simpl; rewrite HA by lia; by rewrite decide_True).
  split; [done|done|..].
  - intros b Hb. rewrite Hbit by lia. destruct (Z.ltb_spec b (dstart sb)); [done|lia].
  - done.
  - intros P HP Hne. rewrite (Hn P HP Hne), Hna, Hbit by lia. split; [done|]. by rewrite Z.eqb_refl, orb_true_r.
  - intros P P' HP HP' He Hne. rewrite (Hn P HP Hne). rewrite He in Hne. by rewrite (Hn P' HP' Hne).
  - intros b Hb. rewrite Hbit by lia. destruct (Z.ltb_spec b (dstart sb)), (Z.eqb_spec b a0); simpl; try done; try lia.
    intros _. exists (mkPos i0 k0 []). subst b. by split.
Qed.

(** ** The image *)

Definition ex_sb : superblock := mkSb 0x10203040 200 67 16 128 2 130 132 0.
Definition name_f : list Z := [102].
Definition ex_root : dinode := mkDi XV6FS_T_DIR 0 0 1 192 0 (133 :: replicate 11 0).
Definition ex_file : dinode := mkDi XV6FS_T_FILE 0 0 1 0 0 (replicate 12 0).
Definition ex_gone : dinode := mkDi XV6FS_T_FILE 0 0 0 0 0 (replicate 12 0).

Definition ex_disk (b : Z) : block :=
  if b =? 130 then put_dinode (put_dinode (put_dinode zeros 64 ex_root) 128 ex_file) 192 ex_gone
  else if b =? 132 then replicate 16 255 ++ [63] ++ replicate 1007 0
  else if b =? 133 then put_dirent (mk_dirent [DOT] 1) ++ put_dirent (mk_dirent [DOT; DOT] 1) ++ put_dirent (mk_dirent name_f 2) ++ replicate 832 0
  else zeros.

Definition ex_table (ip : Z) : inode :=
  if ip =? 0 then mkInode 1 1 1 false true ex_root
  else if ip =? 1 then mkInode 1 2 1 false true ex_file
  else if ip =? 2 then mkInode 1 3 1 false true ex_gone
  else mkInode 0 0 0 false false di_zero.

(** A transaction is open. *)
Definition ex_fs : fsst :=
  mkFs (mkLog ex_disk ∅ (fun _ => 0) [] [] 2 1 XV6FS_LOGBLOCKS false [] None false 0 0 0) ex_sb ex_table 0 0 (fun _ => 0) [DOT] false.

Definition all_below (n : Z) (p : Z -> bool) : bool := forallb p (seqZ 0 n).
Lemma all_below_true n p i : all_below n p = true -> 0 <= i < n -> p i = true.
Proof.
  intros H Hi. apply forallb_forall with (x := i) in H; [done|]. apply list_elem_of_In. apply elem_of_seqZ. lia.
Qed.

Lemma blk_check d : (zlen d =? BSIZE) && forallb (fun b => (0 <=? b) && (b <? 256)) d = true -> blk_ok d.
Proof.
  intros [Hl%Z.eqb_eq Hb]%andb_prop. split; [done|]. apply List.Forall_forall. intros x Hx.
  rewrite forallb_forall in Hb. specialize (Hb x Hx). unfold byte_ok. lia.
Qed.

Lemma ex_blocks : blocks_ok ex_disk.
Proof.
  intros b. unfold ex_disk. destruct (b =? 130); [|destruct (b =? 132); [|destruct (b =? 133)]]; apply blk_check; vm_compute; reflexivity.
Qed.

Lemma ex_layout : layout ex_sb.
Proof. split; vm_compute; try split; done. Qed.

Lemma ex_bits b : 0 <= b < 200 -> bit ex_sb ex_disk b = (b <? 133) || (b =? 133).
Proof.
  intros Hb. pose proof (all_below_true 200 (fun b => eqb (bit ex_sb ex_disk b) ((b <? 133) || (b =? 133))) b) as H.
  apply eqb_prop, H; [vm_compute; reflexivity|done].
Qed.

Lemma ex_live_slot ip : 0 < (ex_table ip).(i_ref) -> ip = 0 \/ ip = 1 \/ ip = 2.
Proof. unfold ex_table. destruct (Z.eqb_spec ip 0), (Z.eqb_spec ip 1), (Z.eqb_spec ip 2); simpl; lia. Qed.

Lemma ex_disk_root : disk_inode ex_sb ex_disk 1 = ex_root.
Proof. vm_compute. reflexivity. Qed.
Lemma ex_disk_file : disk_inode ex_sb ex_disk 2 = ex_file.
Proof. vm_compute. reflexivity. Qed.

Lemma ex_disk_gone : disk_inode ex_sb ex_disk 3 = ex_gone.
Proof. vm_compute. reflexivity. Qed.

Lemma ex_disk_ok i : di_ok (disk_inode ex_sb ex_disk i).
Proof. destruct (iblock_off i). apply get_dinode_ok; [apply ex_blocks|done|done]. Qed.

Lemma ex_cache : cache_ok ex_sb ex_disk ex_table.
Proof.
  split; [split|..].
  - intros ip _ [-> | [-> | ->]]%ex_live_slot; simpl; lia.
  - intros a b _ _ [-> | [-> | ->]]%ex_live_slot [-> | [-> | ->]]%ex_live_slot; simpl; done.
  - intros ip _ [-> | [-> | ->]]%ex_live_slot _; 
      [pose proof (ex_disk_ok 1) as H|pose proof (ex_disk_ok 2) as H|pose proof (ex_disk_ok 3) as H].
    + by rewrite ex_disk_root in H.
    + by rewrite ex_disk_file in H.
    + by rewrite ex_disk_gone in H.
  - intros ip _. unfold ex_table. destruct (ip =? 0), (ip =? 1), (ip =? 2); simpl; lia.
  - intros ip _ [-> | [-> | ->]]%ex_live_slot _; symmetry; [apply ex_disk_root|apply ex_disk_file|apply ex_disk_gone].
Qed.

Lemma ex_roots_check :
  all_below 16 (fun i => all_below 12 (fun k =>
    zget (disk_inode ex_sb ex_disk i).(di_addrs) k =? if (i =? 1) && (k =? 0) then 133 else 0)) = true.
Proof. vm_compute. reflexivity. Qed.

Lemma ex_roots i k : 0 <= i < 16 -> 0 <= k < 12 ->
  zget (roots ex_sb ex_disk ex_table i) k = if decide (i = 1 /\ k = 0) then 133 else 0.
Proof.
  intros Hi Hk. unfold roots. rewrite decide_True by done. rewrite (synced_now ex_sb ex_disk ex_table i (ck_sync _ _ _ ex_cache)).
  pose proof (all_below_true _ _ _ (all_below_true _ _ _ ex_roots_check Hi) Hk) as H. apply Z.eqb_eq in H. rewrite H.
  destruct (Z.eqb_spec i 1), (Z.eqb_spec k 0); simpl; case_decide; done || lia.
Qed.

Lemma ex_fok : fok ex_sb ex_disk ex_table.
Proof.
  split; [|apply ex_cache]. apply (wf_single _ _ _ 1 0 133).
  - apply ex_layout.
  - apply ex_blocks.
  - intros i. unfold roots. case_decide; [|done]. apply (inode_now_ok ex_sb ex_disk ex_table i ex_blocks (ck_table _ _ _ ex_cache)).
  - by split.
  - by split.
  - by split.
  - intros i k Hi Hk. by apply ex_roots.
  - intros b Hb. by apply ex_bits.
Qed.

Lemma ex_view b : fv ex_fs b = ex_disk b.
Proof. unfold fv, view. simpl. by rewrite lookup_empty. Qed.

Lemma ex_ok : fs_ok ex_fs.
Proof.
  assert (HV : pw ex_disk (fv ex_fs)) by (intros b; symmetry; apply ex_view).
  split; [eapply fok_pw; [exact HV|reflexivity|exact ex_fok]|eapply cache_pw; [exact HV|reflexivity|exact ex_cache]|done].
Qed.

Lemma ex_held_root : held ex_fs.(f_inode) 0 1.
Proof. by split. Qed.
Lemma ex_held_file : held ex_fs.(f_inode) 1 2.
Proof. by split. Qed.
Lemma ex_in_op : in_op ex_fs.
Proof. done. Qed.
Lemma ex_held_gone : held ex_fs.(f_inode) 2 3.
Proof. by split. Qed.

(** ** Its tree *)

Abbreviation ex_byte := (fbyte ex_disk (roots ex_sb ex_disk ex_table)).

Lemma ex_dirs : all_below 16 (fun i => implb ((disk_inode ex_sb ex_disk i).(di_type) =? XV6FS_T_DIR) (i =? 1)) = true.
Proof. vm_compute. reflexivity. Qed.
Lemma ex_entries : all_below 3 (fun m => let j := (entry (ex_byte 1) m).(de_inum) in (j =? 1) || (j =? 2)) = true.
Proof. vm_compute. reflexivity. Qed.

Lemma ex_live j : j = 1 \/ j = 2 -> live ex_sb ex_disk j.
Proof.
  intros [-> | ->]; (split; [by split|..]); rewrite ?ex_disk_root, ?ex_disk_file; done.
Qed.

Lemma ex_tree : tree_ok ex_sb ex_disk ex_table.
Proof.
  assert (Hdir : forall i, live ex_sb ex_disk i -> (disk_inode ex_sb ex_disk i).(di_type) = XV6FS_T_DIR -> i = 1).
  { intros i [Hi _ _] Ht. pose proof (all_below_true _ _ i ex_dirs Hi) as H. cbv beta in H. rewrite Ht in H. by apply Z.eqb_eq. }
  split.
  - apply ex_live. by left.
  - intros i Hl Ht. rewrite (Hdir i Hl Ht), ex_disk_root. done.
  - intros i name j Hl Ht. rewrite (Hdir i Hl Ht). unfold dir_entry. rewrite ex_disk_root. intros ([j' off]&Hf&->)%fmap_Some.
    apply dir_find_entry in Hf as (m&Hm&<-&_). apply ex_live. pose proof (all_below_true _ _ m ex_entries Hm) as H. cbv zeta beta in H.
    apply orb_prop in H as [H%Z.eqb_eq|H%Z.eqb_eq]; [left|right]; exact H.
Qed.

Lemma ex_fs_tree : tree_ok ex_fs.(f_sb) (fv ex_fs) ex_fs.(f_inode).
Proof.
  assert (HV : pw ex_disk (fv ex_fs)) by (intros b; symmetry; apply ex_view). eapply tree_pw; [exact HV|reflexivity|exact ex_tree].
Qed.
