(* ===== verification/FsTheorems.v ===== *)
(** * Theorems on the file system

    The specifications of FsState.v to FsPath.v, stated on whole states, with
    examples on the file system of FsExample.v.  Where an operation writes, the
    only way it can fail to complete is the journal's own check of its
    reservation ([overflow_only]). *)
From S2P Require Import Prelude State Bytes Log Xv6fs Xv6dir FsState FsTree FsMap FsFile FsTrunc FsInode FsDir FsPath FsExample.
From S2P Require Import Xv6vfs.

(** C33: a read delivers what the file contains, as far as the file goes, and
    changes nothing, neither a block nor an inode in memory. *)
Theorem readi_spec s ip i off n :
  fs_ok s -> held s.(f_inode) ip i -> 0 <= off < 2 ^ 32 -> 0 <= n < 2 ^ 32 ->
  exists s', xv6fs_readi ip off n s =
      Ok ((fun j => content s i (off + j)) <$> seqZ 0 (readable (inode_of s i).(di_size) off n), s') /\
    moves s (fv s) s.(f_inode) s'.
Proof.
  intros Hok Hh Ho Hn. pose proof Hok as [Hf _ _]. rewrite (inode_of_held s ip i Hok Hh).
  destruct (wp_run _ _ _ (readi_ok nopanic s s.(f_sb) (fv s) s.(f_inode) ip i off n s Hf Hh (moves_refl s) Ho Hn))
    as (a&s'&Hr&->&Hm). by exists s'.
Qed.

Lemma readi_spec_witness :
  exists s', xv6fs_readi 0 66 3 ex_fs = Ok ([46; 46; 0], s') /\ moves ex_fs (fv ex_fs) ex_fs.(f_inode) s'.
Proof.
  destruct (readi_spec ex_fs 0 1 66 3 ex_ok ex_held_root ltac:(lia) ltac:(lia)) as (s'&Hr&Hm). exists s'. split; [|exact Hm].
  assert (Hv : ((fun j => content ex_fs 1 (66 + j)) <$> seqZ 0 (readable (di_size (inode_of ex_fs 1)) 66 3)) = [46; 46; 0])
    by (vm_compute; reflexivity).
  rewrite Hr, Hv. reflexivity.
Defined.

(** What a write of [src] at [off] of inode [i] that wrote [tot] bytes did. *)
Record written (s : fsst) (ip i off : Z) (src : list Z) (tot : Z) (s' : fsst) : Prop := mkWritten {
  wn_ok : fs_ok s';
  wn_held : held s'.(f_inode) ip i;
  wn_size : (inode_of s' i).(di_size) = Z.max (inode_of s i).(di_size) (off + tot);
  wn_others : forall j, is_inode s j -> j <> i -> inode_of s' j = inode_of s j;
  wn_content : forall j o, is_inode s j -> in_file o ->
    content s' j o = if decide (j = i /\ off <= o < off + tot) then zget src (o - off) else content s j o }.

Lemma writei_written s ip i off src :
  fs_ok s -> in_op s -> held s.(f_inode) ip i -> 0 <= off -> off + zlen src < 2 ^ 32 -> Forall byte_ok src ->
  wp overflow_only (xv6fs_writei ip src off) (fun r s' => exists tot, r = Some tot /\ 0 <= tot <= zlen src /\
    (tot = zlen src \/ disk_full s') /\ written s ip i off src tot s') s.
Proof.
  intros Hok Hop Hh Ho Hlt Hb. pose proof Hok as [Hf Hc Hhint].
  eapply wp_mono; [apply (writei_ok overflow_only eq_refl s Hop Hhint s.(f_sb) eq_refl ip i (fv s) s.(f_inode) off src s (moves_refl s)); done|].
  intros r s' (tot&V'&I'&->&Hm&Ht&Hst&Hf'&Hh'&Hon&[Hg _]&Hdk&Hj&Hov). exists tot. split; [done|]. split; [done|].
  split; [destruct Hst as [|[Hfl _]]; [by left|right; by eapply mv_full]|].
  assert (Hc' : cache_ok (f_sb s) V' I') by (apply (cache_write (f_sb s) (fv s) ip i s.(f_inode)); try done; intros j H1 H2; by apply Hj).
  split.
  - by eapply mv_ok.
  - by eapply mv_held.
  - rewrite (mv_inode_of s V' I' s' Hm), (inode_now_held _ _ _ _ _ (fk_table _ _ _ Hf') Hh').
    rewrite (inode_of_held s ip i Hok Hh), Hg. done.
  - intros j Hjr Hne. rewrite (mv_inode_of s V' I' s' Hm). by apply Hj.
  - intros j o Hjr Hor. rewrite (mv_content s V' I' s' Hm), Hov by done. rewrite take_zlen by lia.
    destruct (decide (j = i /\ off <= o < off + tot)) as [[_ Hr]|]; [rewrite zget_take by lia; done|done].
Qed.

(** C16: a write changes the bytes it covers and no other byte of any file, no
    other inode, and the size as the larger of the old size and the end of the
    write; it stops early only when the disk is full.  A range that passes
    4 GiB is refused and changes nothing. *)
Theorem writei_spec s ip i off src :
  fs_ok s -> in_op s -> held s.(f_inode) ip i -> 0 <= off < 2 ^ 32 -> zlen src < 2 ^ 32 -> Forall byte_ok src ->
  wp overflow_only (xv6fs_writei ip src off) (fun r s' =>
    match r with
    | Some tot => off + zlen src < 2 ^ 32 /\ 0 <= tot <= zlen src /\ (tot = zlen src \/ disk_full s') /\ written s ip i off src tot s'
    | None => 2 ^ 32 <= off + zlen src /\ s' = s
    end) s.
Proof.
  intros Hok Hop Hh Ho Hn Hb. destruct (Z.lt_ge_cases (off + zlen src) (2 ^ 32)) as [Hlt|Hge].
  - eapply wp_mono; [apply (writei_written s ip i off src); done || lia|]. by intros r s' (tot&->&Hr).
  - unfold xv6fs_writei, u32. replace ((off + zlen src) mod 2 ^ 32) with (off + zlen src - 2 ^ 32)
      by (apply (Z.mod_unique_pos _ _ 1); lia).
    destruct (Z.ltb_spec (off + zlen src - 2 ^ 32) off); [|lia]. by apply wp_ret.
Qed.

(** Concrete runs that end without overflowing the log. *)
Lemma wp_result {S A} E (m : ST S A) Q s : wp E m Q s -> is_ok (m s) = true -> exists a s', m s = Ok (a, s') /\ Q a s'.
Proof. unfold wp, is_ok. destruct (m s) as [[a s']|]; [eauto|done]. Qed.

Lemma run_value_eq {S A} (m : ST S A) s a b s' : m s = Ok (b, s') -> run_value m s a = b.
Proof. unfold run_value. by intros ->. Qed.

Lemma writei_spec_witness :
  exists tot s', xv6fs_writei 1 [104; 105] 1000 ex_fs = Ok (Some tot, s') /\ tot = 2 /\ content s' 2 1001 = 105 /\ content s' 1 66 = 46.
Proof.
  assert (Hb : Forall byte_ok [104; 105]) by (repeat constructor; unfold byte_ok; lia).
  destruct (wp_result _ _ _ _ (writei_spec ex_fs 1 2 1000 [104; 105] ex_ok ex_in_op ex_held_file ltac:(lia) ltac:(vm_compute; reflexivity) Hb))
    as (r&s'&Hr&Hp); [vm_compute; reflexivity|].
  assert (Hv : run_value (xv6fs_writei 1 [104; 105] 1000) ex_fs None = Some 2) by (vm_compute; reflexivity).
  rewrite (run_value_eq _ _ _ _ _ Hr) in Hv. subst r. exists 2, s'. split; [exact Hr|]. split; [reflexivity|].
  destruct Hp as (_&_&_&[_ _ _ _ Hc]). rewrite !Hc by (unfold is_inode, in_file; simpl; change (XV6FS_MAXFILE * BSIZE) with 17247249408; lia).
  split; [rewrite decide_True by lia; reflexivity|]. rewrite decide_False by lia. vm_compute. reflexivity.
Defined.

Lemma disk_full_moves s I s' : moves s (fv s) I s' -> disk_full s -> disk_full s'.
Proof. intros Hm H b. rewrite (mv_sb _ _ _ _ Hm), (mv_in_use s _ _ s' Hm). apply H. Qed.

Lemma readable_tot size size0 off n tot : size = Z.max size0 (off + tot) -> 0 <= tot <= n -> off + n < 2 ^ 32 -> tot <= readable size off n.
Proof.
  intros Hs Ht Hn. unfold readable. destruct (Z.ltb_spec size off), (Z.leb_spec (2 ^ 32) (off + n)); simpl; lia.
Qed.

Lemma slice_written s i off m tot src (H : forall j, 0 <= j < tot -> content s i (off + j) = zget src j) :
  0 <= tot <= m -> tot <= zlen src ->
  take (Z.to_nat tot) (file_slice (fv s) (roots (f_sb s) (fv s) (f_inode s)) i off m) = take (Z.to_nat tot) src.
Proof.
  intros Hm Hs. assert (Hlm : zlen (file_slice (fv s) (roots (f_sb s) (fv s) (f_inode s)) i off m) = m) by (apply zlen_fmap_seqZ; lia).
  apply zlist_ext; [by rewrite !take_zlen by lia|]. intros j Hj. rewrite take_zlen in Hj by lia. rewrite !zget_take by lia.
  unfold file_slice. rewrite zget_fmap_seqZ by lia. by apply H.
Qed.

(** what was written is what is read back. *)
Theorem write_read_roundtrip s ip i off src :
  fs_ok s -> in_op s -> held s.(f_inode) ip i -> 0 <= off -> off + zlen src < 2 ^ 32 -> Forall byte_ok src ->
  wp overflow_only (r ← xv6fs_writei ip src off; d ← xv6fs_readi ip off (zlen src); mret (r, d))
    (fun rd s' => exists tot, rd.1 = Some tot /\ (tot = zlen src \/ disk_full s') /\ take (Z.to_nat tot) rd.2 = take (Z.to_nat tot) src) s.
Proof.
  intros Hok Hop Hh Ho Hlt Hb. wp_step. eapply wp_mono; [by apply (writei_written s ip i off src)|].
  intros r s1 (tot&->&Ht&Hfull&[Hok1 Hh1 Hs1 _ Hc1]). pose proof Hok1 as [Hf1 _ _]. wp_step.
  eapply wp_mono; [apply (readi_ok overflow_only s1 s1.(f_sb) (fv s1) s1.(f_inode) ip i off (zlen src) s1 Hf1 Hh1 (moves_refl s1)); lia|].
  intros d s2 [-> Hm]. apply wp_ret. exists tot. split; [done|].
  split; [destruct Hfull as [|Hfl]; [by left|right; by eapply disk_full_moves]|].
  pose proof (is_inode_held s ip i Hok Hh) as Hi. rewrite (inode_of_held s1 ip i Hok1 Hh1) in Hs1.
  pose proof (readable_tot _ _ off (zlen src) tot Hs1 Ht Hlt). cbn [snd]. apply slice_written; [|lia|lia].
  intros j Hj. rewrite Hc1; [|done|unfold in_file; change (XV6FS_MAXFILE * BSIZE) with 17247249408; lia].
  rewrite decide_True by lia. f_equal. lia.
Qed.

Lemma write_read_roundtrip_witness :
  exists tot d s', (r ← xv6fs_writei 1 [104; 105] 5000; d ← xv6fs_readi 1 5000 2; mret (r, d)) ex_fs = Ok (Some tot, d, s') /\
    take (Z.to_nat tot) d = take (Z.to_nat tot) [104; 105] /\ tot = 2.
Proof.
  assert (Hb : Forall byte_ok [104; 105]) by (repeat constructor; unfold byte_ok; lia).
  destruct (wp_result _ _ _ _ (write_read_roundtrip ex_fs 1 2 5000 [104; 105] ex_ok ex_in_op ex_held_file ltac:(lia) ltac:(vm_compute; reflexivity) Hb))
    as ([r d]&s'&Hr&(tot&Ht&_&Hp)); [vm_compute; reflexivity|]. simpl in Ht, Hp. subst r.
  exists tot, d, s'. split; [exact Hr|]. split; [exact Hp|].
  assert (Hv : (run_value (r ← xv6fs_writei 1 [104; 105] 5000; d ← xv6fs_readi 1 5000 (zlen [104; 105]); mret (r, d)) ex_fs (None, [])).1 = Some 2)
    by (vm_compute; reflexivity).
  rewrite (run_value_eq _ _ _ _ _ Hr) in Hv. injection Hv as ->. reflexivity.
Defined.



(** C32: dropping the last reference to an inode that has no name left frees
    it: its type becomes 0, it has no block, and no other file changes. *)
Theorem iput_frees_unlinked s ip i :
  fs_ok s -> in_op s -> held s.(f_inode) ip i -> (s.(f_inode) ip).(i_ref) = 1 -> (s.(f_inode) ip).(i_locked) = false ->
  (inode_of s i).(di_nlink) = 0 ->
  wp overflow_only (xv6fs_iput ip) (fun _ s' =>
    fs_ok s' /\ (s'.(f_inode) ip).(i_ref) = 0 /\ (inode_of s' i).(di_type) = 0 /\
    (forall k, 0 <= k < XV6FS_NDIRECT + 3 -> zget (inode_of s' i).(di_addrs) k = 0) /\
    (forall j, is_inode s j -> j <> i -> inode_of s' j = inode_of s j /\ forall o, in_file o -> content s' j o = content s j o) /\
    (forall b, 0 <= b < s.(f_sb).(sb_size) -> in_use s' b = true -> in_use s b = true)) s.
Proof.
  intros Hok Hop Hh Hr Hl. pose proof Hok as [Hf Hc _]. rewrite (inode_of_held s ip i Hok Hh). intros Hn.
  eapply wp_mono; [apply (iput_free_ok overflow_only s s.(f_sb) (fv s) s.(f_inode) ip i s); try done; apply moves_refl|].
  intros [] s' (V'&I'&Hm&Hf'&Hc'&Hr'&_&Ht&Hz&Hj&Hbit).
  pose proof (synced_now (f_sb s) V' I' i (ck_sync _ _ _ Hc')) as Hnow. pose proof (is_inode_held s ip i Hok Hh) as Hi.
  split; [by apply (mv_ok s V' I')|]. rewrite (mv_inode _ _ _ _ Hm), (mv_inode_of s V' I' s' Hm).
  split; [done|]. split; [by rewrite Hnow|]. split.
  { intros k Hk. specialize (Hz k Hk). unfold roots in Hz. by rewrite decide_True in Hz by done. }
  split; [|intros b Hb; rewrite (mv_in_use s V' I' s' Hm); by apply Hbit].
  intros j Hjr Hne. destruct (Hj j Hjr Hne) as [H1 H2]. split; [by rewrite (mv_inode_of s V' I' s' Hm)|].
  intros o Ho. rewrite (mv_content s V' I' s' Hm). by apply H2.
Qed.

Lemma iput_frees_unlinked_witness :
  exists s', xv6fs_iput 2 ex_fs = Ok (tt, s') /\ (inode_of s' 3).(di_type) = 0 /\ (s'.(f_inode) 2).(i_ref) = 0.
Proof.
  assert (Hn : di_nlink (inode_of ex_fs 3) = 0) by (rewrite (inode_of_held ex_fs 2 3 ex_ok ex_held_gone); reflexivity).
  destruct (wp_result _ _ _ _ (iput_frees_unlinked ex_fs 2 3 ex_ok ex_in_op ex_held_gone eq_refl eq_refl Hn))
    as ([]&s'&Hr&(_&H1&H2&_)); [vm_compute; reflexivity|].
  exists s'. split; [exact Hr|]. split; [exact H2|exact H1].
Defined.

(** A slot of the table for inode [j]. *)
Definition has_slot (s : fsst) (j : Z) : Prop := is_inode s j /\ room s.(f_inode) j.

(** C31: adding a name to a directory is insertion into the map it stands for:
    the name, cut to 62 bytes, then has the inode number, every other name has
    what it had, and no other file changes.  It is refused for a name that is
    there, and when the disk is full; then no name changes. *)
Theorem dirlink_inserts s dp i name inum :
  fs_ok s -> in_op s -> isdir s.(f_inode) dp i -> Forall byte_ok name -> 0 < inum < 2 ^ 16 ->
  (inode_of s i).(di_size) + DE_SIZE < 2 ^ 32 -> (forall j, names s i name = Some j -> has_slot s j) ->
  wp overflow_only (xv6fs_dirlink dp name inum) (fun r s' =>
    fs_ok s' /\
    (forall j, is_inode s j -> j <> i -> inode_of s' j = inode_of s j /\ forall o, in_file o -> content s' j o = content s j o) /\
    (r = true -> names s i name = None) /\ (r = false -> names s i name = None -> disk_full s') /\
    forall n, names s' i n = if r && bool_decide (norm n = norm name) then Some inum else names s i n) s.
Proof.
  intros Hok Hop Hd Hb Hin Hsz Hroom. pose proof Hok as [Hf Hc Hh]. pose proof (id_held _ _ _ Hd) as Hhd.
  rewrite (inode_of_held s dp i Hok Hhd) in Hsz.
  assert (Hn0 : forall n, names s i n = fst <$> dir_map (f_sb s) dp i (fv s) (f_inode s) n)
    by (intros n; apply names_map; [apply moves_refl|apply Hf|done]).
  eapply wp_mono.
  { apply (dirlink_ok overflow_only eq_refl s Hop Hh (f_sb s) eq_refl dp i (fv s) (f_inode s) name inum s); try done.
    intros x off Hx. apply (Hroom x). by rewrite Hn0, Hx. }
  intros r s' (V'&I'&Hm&Hf'&Hc'&Hd'&Hj&Hcase).
  assert (Hn' : forall n, names s' i n = fst <$> dir_map (f_sb s) dp i V' I' n)
    by (intros n; apply (names_map s V' I' s' dp); [done|apply Hf'|apply Hd']).
  split; [by apply (mv_ok s V' I')|]. split.
  { intros j Hjr Hne. destruct (Hj j Hjr Hne) as [H1 H2]. split; [by rewrite (mv_inode_of s V' I' s' Hm)|].
    intros o Ho. rewrite (mv_content s V' I' s' Hm). by apply H2. }
  rewrite Hn0. destruct (dir_map (f_sb s) dp i (fv s) (f_inode s) name) as [x|] eqn:Hx.
  { destruct Hcase as [-> Hsame]. split; [done|]. split; [done|]. intros n. by rewrite Hn', Hn0, Hsame. }
  destruct r; destruct Hcase as [H1 H2].
  - split; [done|]. split; [done|]. intros n. rewrite Hn', Hn0. simpl. case_bool_decide as Hnm.
    + destruct H1 as [off H1]. replace (dir_map (f_sb s) dp i V' I' n) with (dir_map (f_sb s) dp i V' I' name); [by rewrite H1|].
      apply first_entry_eq. intros m. by apply match_name_norm.
    + by rewrite H2.
  - split; [done|]. split; [intros _ _; by apply (mv_full s V' I')|]. intros n. by rewrite Hn', Hn0, H2.
Qed.

Lemma dirlink_inserts_witness :
  exists s', xv6fs_dirlink 0 [103] 3 ex_fs = Ok (true, s') /\ names s' 1 [103] = Some 3 /\ names s' 1 name_f = Some 2.
Proof.
  assert (Hd : isdir ex_fs.(f_inode) 0 1) by (split; [exact ex_held_root|reflexivity|reflexivity]).
  assert (Hb : Forall byte_ok [103]) by (repeat constructor; unfold byte_ok; lia).
  assert (Hsz : di_size (inode_of ex_fs 1) + DE_SIZE < 2 ^ 32) by (rewrite (inode_of_held ex_fs 0 1 ex_ok ex_held_root); reflexivity).
  assert (Hnone : names ex_fs 1 [103] = None) by (vm_compute; reflexivity).
  assert (Hf2 : names ex_fs 1 name_f = Some 2) by (vm_compute; reflexivity).
  assert (Hroom : forall j, names ex_fs 1 [103] = Some j -> has_slot ex_fs j) by (rewrite Hnone; discriminate).
  destruct (wp_result _ _ _ _ (dirlink_inserts ex_fs 0 1 [103] 3 ex_ok ex_in_op Hd Hb ltac:(lia) Hsz Hroom))
    as (r&s'&Hr&(_&_&_&_&Hn)); [vm_compute; reflexivity|].
  assert (Hv : run_value (xv6fs_dirlink 0 [103] 3) ex_fs false = true) by (vm_compute; reflexivity).
  rewrite (run_value_eq _ _ _ _ _ Hr) in Hv. subst r. exists s'. split; [exact Hr|].
  rewrite !Hn. split; [reflexivity|]. rewrite Hf2. reflexivity.
Defined.

(** ** Path resolution *)

(** No inode is locked, and two slots of the table are free. *)
Record quiet (s : fsst) : Prop := mkQuiet {
  qt_unlocked : forall ip, 0 <= ip < XV6FS_NINODE -> (s.(f_inode) ip).(i_locked) = false;
  qt_slots : exists a b, a <> b /\ 0 <= a < XV6FS_NINODE /\ 0 <= b < XV6FS_NINODE /\
    (s.(f_inode) a).(i_ref) = 0 /\ (s.(f_inode) b).(i_ref) = 0 }.

(** The specification on the contents of the disk. *)
Definition resolves (s : fsst) (depth : nat) (path : list Z) (parent follow : bool) : option (option Z * list Z) :=
  resolve (disk_inode s.(f_sb) (fv s)) (fbyte (fv s) (roots s.(f_sb) (fv s) s.(f_inode))) depth path parent follow [].

(** The slot found holds the inode; nothing else is left behind. *)
Record found_as (s : fsst) (r : option Z * list Z) (o : found) (s' : fsst) : Prop := mkFound {
  fa_name : o.2 = r.2;
  fa_inode : match r.1, o.1 with
    | Some i, Some ip => 0 <= ip < XV6FS_NINODE /\ (s'.(f_inode) ip).(i_inum) = i
    | None, None => True
    | _, _ => False
    end;
  fa_ok : fs_ok s';
  fa_blocks : forall b, fv s' b = fv s b;
  fa_refs : forall y, 0 <= y < XV6FS_NINODE ->
    (s'.(f_inode) y).(i_ref) = (s.(f_inode) y).(i_ref) + if decide (o.1 = Some y) then 1 else 0;
  fa_unlocked : forall y, 0 <= y < XV6FS_NINODE -> (s'.(f_inode) y).(i_locked) = false }.

Lemma found_post_as s r o s' : fs_ok s -> found_post s s.(f_sb) (fv s) s.(f_inode) r o s' -> found_as s r o s'.
Proof.
  intros Hok [Hnm (I&Hm&Hcase)]. destruct Hok as [Hf Hc Hh] eqn:Heq. clear Heq.
  destruct (r.1) as [i|] eqn:Hr1.
  - destruct Hcase as (_&ip&Ho&[Hs Hmore Hin]). pose proof (hm_cache _ _ _ _ _ _ Hmore) as Hc'.
    split; rewrite ?Hr1, ?Ho; try done.
    + by rewrite (mv_inode _ _ _ _ Hm).
    + apply (mv_ok s (fv s) I s' Hm); [done|by apply (cache_fok _ _ s.(f_inode))|done].
    + apply Hm.
    + intros y Hy. rewrite (mv_inode _ _ _ _ Hm), (hm_ref _ _ _ _ _ _ Hmore) by done. unfold one. rewrite fset_spec.
      f_equal. repeat case_decide; done || congruence.
    + intros y Hy. rewrite (mv_inode _ _ _ _ Hm). by apply (hm_lock _ _ _ _ _ _ Hmore).
  - destruct Hcase as [Ho Hmore]. pose proof (hm_cache _ _ _ _ _ _ Hmore) as Hc'. split; rewrite ?Hr1, ?Ho; try done.
    + apply (mv_ok s (fv s) I s' Hm); [done|by apply (cache_fok _ _ s.(f_inode))|done].
    + apply Hm.
    + intros y Hy. by rewrite (mv_inode _ _ _ _ Hm), (hm_ref _ _ _ _ _ _ Hmore) by done.
    + intros y Hy. rewrite (mv_inode _ _ _ _ Hm). by apply (hm_lock _ _ _ _ _ _ Hmore).
Qed.

Lemma namex_found E s depth path parent follow :
  fs_ok s -> tree_ok s.(f_sb) (fv s) s.(f_inode) -> quiet s ->
  is_Some (resolves s depth path parent follow) \/ E Undefined ->
  wp E (namex_depth depth path parent follow []) (fun o s' =>
    exists r, resolves s depth path parent follow = Some r /\ found_as s r o s') s.
Proof.
  intros Hok Ht [Hq1 Hq2] Hh. eapply wp_mono.
  { apply (namex_ok E s s.(f_sb) eq_refl (fv s) s.(f_inode) (fs_fok _ Hok) (fs_cache _ Hok) Ht Hq2 depth path parent follow [] s.(f_inode) s Hh (moves_refl s)).
    split; [apply Hok|..]; intros y Hy; [unfold none; lia|done|by apply Hq1]. }
  intros o s' (r&Hr&Hp). exists r. split; [exact Hr|]. by apply found_post_as.
Qed.

(** C17: resolving a path finds the inode that the directories and symbolic
    links on the disk give for it, keeps the invariant, changes no block,
    leaves no inode locked, and the reference it returns is the only one it
    leaves in the table. *)
Theorem namex_resolves s depth path parent follow :
  fs_ok s -> tree_ok s.(f_sb) (fv s) s.(f_inode) -> quiet s -> is_Some (resolves s depth path parent follow) ->
  exists o s', namex_depth depth path parent follow [] s = Ok (o, s') /\
    exists r, resolves s depth path parent follow = Some r /\ found_as s r o s'.
Proof. intros Hok Ht Hq Hr. apply wp_run, namex_found; auto. Qed.

Lemma ex_quiet : quiet ex_fs.
Proof.
  split.
  - intros ip _. simpl. unfold ex_table. destruct (ip =? 0), (ip =? 1), (ip =? 2); reflexivity.
  - exists 3, 4. split; [discriminate|]. repeat split; discriminate || reflexivity.
Qed.

Lemma namex_resolves_witness :
  exists o s', namex_depth 17 (SLASH :: name_f) false true [] ex_fs = Ok (o, s') /\ o.2 = name_f /\
    exists ip, o.1 = Some ip /\ (s'.(f_inode) ip).(i_inum) = 2.
Proof.
  assert (Hr : resolves ex_fs 17 (SLASH :: name_f) false true = Some (Some 2, name_f)) by (vm_compute; reflexivity).
  destruct (namex_resolves ex_fs 17 (SLASH :: name_f) false true ex_ok ex_fs_tree ex_quiet (mk_is_Some _ _ Hr)) as (o&s'&Hrun&(r&Hr'&Hf)).
  exists o, s'. split; [exact Hrun|]. rewrite Hr in Hr'. injection Hr' as <-. destruct Hf as [Hn Hi _ _ _ _].
  split; [exact Hn|]. simpl in Hi. destruct (o.1) as [ip|]; [|contradiction]. exists ip. split; [reflexivity|apply Hi].
Defined.

(** C34: path resolution terminates for every path, symbolic links in a circle
    included: one turn of the loop for each element, and 17 paths at most.  It
    gets stuck only by reading past a path element of 62 bytes or more. *)
Theorem namex_terminates s path parent follow :
  fs_ok s -> tree_ok s.(f_sb) (fv s) s.(f_inode) -> quiet s ->
  match namex_depth (S XV6FS_SYMLOOP_MAX) path parent follow [] s with
  | Ok (o, s') => exists r, resolves s (S XV6FS_SYMLOOP_MAX) path parent follow = Some r /\ found_as s r o s'
  | Halt p => p = Undefined /\ resolves s (S XV6FS_SYMLOOP_MAX) path parent follow = None
  end.
Proof.
  intros Hok Ht Hq.
  destruct (resolves s (S XV6FS_SYMLOOP_MAX) path parent follow) as [r|] eqn:Hr.
  - destruct (wp_run _ _ _ (namex_found nopanic s (S XV6FS_SYMLOOP_MAX) path parent follow Hok Ht Hq (or_introl (mk_is_Some _ _ Hr))))
      as (o&s'&->&Hp). by rewrite Hr in Hp.
  - pose proof (namex_found (eq Undefined) s (S XV6FS_SYMLOOP_MAX) path parent follow Hok Ht Hq (or_intror eq_refl)) as H.
    unfold wp in H. destruct (namex_depth _ _ _ _ _ s) as [[o s']|p]; [|done]. destruct H as (r&H&_). congruence.
Qed.

Lemma namex_terminates_witness :
  resolves ex_fs 17 (replicate 63 SLASH ++ replicate 62 97 ++ [SLASH; 98]) false true = Some (None, replicate 62 97) /\
  exists o s', namex_depth 17 (replicate 63 SLASH ++ replicate 62 97 ++ [SLASH; 98]) false true [] ex_fs = Ok (o, s') /\ o.1 = None.
Proof.
  set (path := replicate 63 SLASH ++ replicate 62 97 ++ [SLASH; 98]).
  assert (Hr : resolves ex_fs 17 path false true = Some (None, replicate 62 97)) by (vm_compute; reflexivity).
  split; [exact Hr|]. pose proof (namex_terminates ex_fs path false true ex_ok ex_fs_tree ex_quiet) as H.
  change (S XV6FS_SYMLOOP_MAX) with 17%nat in H. rewrite Hr in H.
  destruct (namex_depth 17 path false true [] ex_fs) as [[o s']|p]; [|destruct H; discriminate].
  exists o, s'. split; [reflexivity|]. destruct H as (r&Hr'&[_ Hi _ _ _ _]). injection Hr' as <-. simpl in Hi. destruct (o.1); [contradiction|reflexivity].
Defined.

(** ** The allocator *)

(** the allocator finds a free block whenever there is one: the block was
    free, is now in use and zeroed, and no other block changed its state or,
    past the bitmap, its contents.  It gives 0 only when every block is in use. *)
Theorem balloc_finds_free s :
  fs_ok s -> in_op s ->
  wp overflow_only balloc (fun r s' =>
    if decide (r = 0) then disk_full s /\ moves s (fv s) s.(f_inode) s' else
    dstart s.(f_sb) <= r < s.(f_sb).(sb_size) /\ in_use s r = false /\ fv s' r = zeros /\
    (forall b, 0 <= b < s.(f_sb).(sb_size) -> in_use s' b = in_use s b || (b =? r)) /\
    (forall b, dstart s.(f_sb) <= b -> b <> r -> fv s' b = fv s b)) s.
Proof.
  intros Hok Hop. pose proof Hok as [Hf _ Hh]. pose proof (fk_wf _ _ _ Hf) as Hwf. pose proof (wf_layout _ _ _ Hwf) as Hl.
  pose proof (layout_order _ Hl) as Ho. pose proof (wf_blocks _ _ _ Hwf) as HV.
  eapply wp_mono; [eapply (balloc_ok overflow_only eq_refl s Hop (f_sb s) eq_refl Hl (fv s) (f_inode s) HV s Hh); [|apply moves_refl]|].
  { apply (wf_meta _ _ _ Hwf). lia. }
  intros r s' [(->&Hfull&Hm)|(Hr&Hbit&Hm)]; [by rewrite decide_True|]. rewrite decide_False by lia.
  assert (Hrd : dstart (f_sb s) <= r).
  { destruct (Z.lt_ge_cases r (dstart (f_sb s))); [|lia]. rewrite (wf_meta _ _ _ Hwf) in Hbit by lia. done. }
  split; [lia|]. split; [done|]. split; [rewrite (mv_view _ _ _ _ Hm); apply fset_eq|]. split.
  - intros b Hb. rewrite (mv_in_use s _ _ s' Hm), bit_take_block by (done || lia). apply orb_comm.
  - intros b Hb Hne. rewrite (mv_view _ _ _ _ Hm). pose proof (bblock_meta _ Hl r ltac:(lia)).
    unfold take_block, set_bit. rewrite !fset_ne; [done|lia|lia].
Qed.

Lemma balloc_finds_free_witness :
  exists r s', balloc ex_fs = Ok (r, s') /\ r = 134 /\ in_use ex_fs 134 = false /\ in_use s' 134 = true.
Proof.
  destruct (wp_result _ _ _ _ (balloc_finds_free ex_fs ex_ok ex_in_op)) as (r&s'&Hr&Hp); [vm_compute; reflexivity|].
  assert (Hv : run_value balloc ex_fs 0 = 134) by (vm_compute; reflexivity).
  rewrite (run_value_eq _ _ _ _ _ Hr) in Hv. subst r. exists 134, s'. split; [exact Hr|]. split; [reflexivity|].
  rewrite decide_False in Hp by discriminate. destruct Hp as (_&Hu&_&Hb&_). split; [exact Hu|].
  rewrite Hb by (simpl; lia). rewrite Hu. reflexivity.
Defined.

(** * Whole calls on a small file system

    Runs of the kernel's calls, from path to journal commit, on the file system
    of FsExample.v mounted and idle: sequences of calls whose result is not
    what their callers expect. *)
(** The example without a transaction in progress. *)
Definition ex_idle : fsst :=
  mkFs (mkLog ex_disk ∅ (fun _ => 0) [] [] 2 0 0 false [] None false 0 0 0) ex_sb ex_table 0 0 (fun _ => 0) [DOT] false.

Definition P (l : list Z) : list Z := SLASH :: l.
Definition dir_d : list Z := P [100].
Definition file_dx : list Z := P [100; SLASH; 120].

Definition rmdir_run : F (Z * Z * option Z) :=
  a ← xv6fs_mkdir_path dir_d 493; i ← xv6fs_create_file file_dx 420; j ← xv6fs_ino_path file_dx;
  r ← xv6fs_rmdir_path dir_d; mret (a, r, j).


Definition extend_run : F (Z * Z * Z * list Z) :=
  w ← xv6fs_write_file (P name_f) 0 [97; 98; 99]; a ← xv6fs_truncate_file (P name_f) 1; b ← xv6fs_truncate_file (P name_f) 3;
  d ← xv6fs_readi 1 0 3; mret (w, a, b, d).

(** a file cut short and extended again shows what was cut off, where
    zeros are expected. *)
Theorem truncate_keeps_tail :
  match extend_run ex_idle with
  | Ok ((w, a, b, d), _) => w = 0 /\ a = 0 /\ b = 0 /\ d = [97; 98; 99]
  | Halt _ => False
  end.
Proof. vm_compute. repeat split. Qed.

Definition huge_run : F Z := xv6fs_truncate_file (P name_f) (2 ^ 32 + 5).

(** extending a file to 4 GiB and 5 bytes reports success and makes it 5
    bytes long. *)
Theorem truncate_wraps :
  match huge_run ex_idle with
  | Ok (r, s) => r = 0 /\ (inode_of s 2).(di_size) = 5
  | Halt _ => False
  end.
Proof. vm_compute. repeat split. Qed.
