(* ===== verification/Task.v ===== *)
(** * Tasks and run queues (kernel/task.c, include/task.h)

    A task is the address of its structure, 0 is NULL.  The links of the run
    queues, of the list of all tasks and of the wait queues are fields of their
    own, as functions on addresses.  Functions that end in [_locked] run under
    [g_task_lock]; the others take it around them, so each is one step here.
    [me] is the CPU that runs the code. *)
From S2P Require Import Prelude State.

Inductive task_state_t := TASK_RUNNING | TASK_READY | TASK_SLEEPING | TASK_IO_WAIT | TASK_ZOMBIE | TASK_DEAD.
#[export] Instance task_state_eq_dec : EqDecision task_state_t.
Proof. solve_decision. Defined.

Definition ORTHOX_MAX_CPUS : Z := 64.
Abbreviation TASK_TIMESLICE_TICKS := 5.

(** The fields of [struct task] that scheduling uses. *)
Record task := mkTask {
  pid : Z; ppid : Z; pgid : Z; sid : Z; sig_pending : Z; sig_handlers : Z -> Z; exit_status : Z;
  state : task_state_t; cpu_affinity : Z; sleep_until_ms : Z; timeslice_ticks : Z; on_runq : bool; on_cpu : bool }.

(** [struct cpu_local] *)
Record cpu_local := mkCpu {
  current_task : Z; idle_task : Z; runq_head : Z; runq_tail : Z; resched_pending : bool; runq_count : Z;
  switched_from : Z }.

(** The tasks and their links, the CPUs, the variables of task.c, the CPUs that
    have been started, the interrupts sent, and the heads of the wait queues. *)
Record ss := mkSs {
  tk : Z -> task; runq_next : Z -> Z; runq_prev : Z -> Z; tnext : Z -> Z; wait_next : Z -> Z; wait_queue : Z -> Z;
  g_cpu_locals : Z -> cpu_local; g_cpu_count : Z; task_list : Z; next_pid : Z; next_cpu : Z;
  g_fork_spread_enabled : bool; smp_started : Z; smp_cpu_started : Z -> bool; ipis : list Z; wq_head : Z -> Z;
  clock : nat -> Z }.

Abbreviation M := (ST ss).

Definition with_tk (s : ss) (f : Z -> task) : ss :=
  mkSs f s.(runq_next) s.(runq_prev) s.(tnext) s.(wait_next) s.(wait_queue) s.(g_cpu_locals) s.(g_cpu_count) s.(task_list)
    s.(next_pid) s.(next_cpu) s.(g_fork_spread_enabled) s.(smp_started) s.(smp_cpu_started) s.(ipis) s.(wq_head) s.(clock).
Definition with_runq (s : ss) (nx pv : Z -> Z) : ss :=
  mkSs s.(tk) nx pv s.(tnext) s.(wait_next) s.(wait_queue) s.(g_cpu_locals) s.(g_cpu_count) s.(task_list)
    s.(next_pid) s.(next_cpu) s.(g_fork_spread_enabled) s.(smp_started) s.(smp_cpu_started) s.(ipis) s.(wq_head) s.(clock).
Definition with_list (s : ss) (head : Z) (nx : Z -> Z) : ss :=
  mkSs s.(tk) s.(runq_next) s.(runq_prev) nx s.(wait_next) s.(wait_queue) s.(g_cpu_locals) s.(g_cpu_count) head
    s.(next_pid) s.(next_cpu) s.(g_fork_spread_enabled) s.(smp_started) s.(smp_cpu_started) s.(ipis) s.(wq_head) s.(clock).
Definition with_wait (s : ss) (nx q hd : Z -> Z) : ss :=
  mkSs s.(tk) s.(runq_next) s.(runq_prev) s.(tnext) nx q s.(g_cpu_locals) s.(g_cpu_count) s.(task_list)
    s.(next_pid) s.(next_cpu) s.(g_fork_spread_enabled) s.(smp_started) s.(smp_cpu_started) s.(ipis) hd s.(clock).
Definition with_cpus (s : ss) (f : Z -> cpu_local) : ss :=
  mkSs s.(tk) s.(runq_next) s.(runq_prev) s.(tnext) s.(wait_next) s.(wait_queue) f s.(g_cpu_count) s.(task_list)
    s.(next_pid) s.(next_cpu) s.(g_fork_spread_enabled) s.(smp_started) s.(smp_cpu_started) s.(ipis) s.(wq_head) s.(clock).
Definition with_vars (s : ss) (count np nc : Z) (spread : bool) : ss :=
  mkSs s.(tk) s.(runq_next) s.(runq_prev) s.(tnext) s.(wait_next) s.(wait_queue) s.(g_cpu_locals) count s.(task_list)
    np nc spread s.(smp_started) s.(smp_cpu_started) s.(ipis) s.(wq_head) s.(clock).
Definition with_io (s : ss) (l : list Z) (c : nat -> Z) : ss :=
  mkSs s.(tk) s.(runq_next) s.(runq_prev) s.(tnext) s.(wait_next) s.(wait_queue) s.(g_cpu_locals) s.(g_cpu_count) s.(task_list)
    s.(next_pid) s.(next_cpu) s.(g_fork_spread_enabled) s.(smp_started) s.(smp_cpu_started) l s.(wq_head) c.

(** Stores into fields. *)
Definition upd_task (t : Z) (f : task -> task) : M unit := modify (fun s => with_tk s (fset s.(tk) t (f (s.(tk) t)))).
Definition upd_cpu (c : Z) (f : cpu_local -> cpu_local) : M unit :=
  modify (fun s => with_cpus s (fset s.(g_cpu_locals) c (f (s.(g_cpu_locals) c)))).
Definition set_state (x : task_state_t) (t : task) : task :=
  mkTask t.(pid) t.(ppid) t.(pgid) t.(sid) t.(sig_pending) t.(sig_handlers) t.(exit_status) x t.(cpu_affinity)
    t.(sleep_until_ms) t.(timeslice_ticks) t.(on_runq) t.(on_cpu).
Definition set_sleep (ms : Z) (t : task) : task :=
  mkTask t.(pid) t.(ppid) t.(pgid) t.(sid) t.(sig_pending) t.(sig_handlers) t.(exit_status) t.(state) t.(cpu_affinity)
    ms t.(timeslice_ticks) t.(on_runq) t.(on_cpu).
Definition set_affinity (c : Z) (t : task) : task :=
  mkTask t.(pid) t.(ppid) t.(pgid) t.(sid) t.(sig_pending) t.(sig_handlers) t.(exit_status) t.(state) c
    t.(sleep_until_ms) t.(timeslice_ticks) t.(on_runq) t.(on_cpu).
Definition set_on_runq (b : bool) (t : task) : task :=
  mkTask t.(pid) t.(ppid) t.(pgid) t.(sid) t.(sig_pending) t.(sig_handlers) t.(exit_status) t.(state) t.(cpu_affinity)
    t.(sleep_until_ms) t.(timeslice_ticks) b t.(on_cpu).
Definition set_on_cpu (b : bool) (t : task) : task :=
  mkTask t.(pid) t.(ppid) t.(pgid) t.(sid) t.(sig_pending) t.(sig_handlers) t.(exit_status) t.(state) t.(cpu_affinity)
    t.(sleep_until_ms) t.(timeslice_ticks) t.(on_runq) b.
Definition set_ticks (n : Z) (t : task) : task :=
  mkTask t.(pid) t.(ppid) t.(pgid) t.(sid) t.(sig_pending) t.(sig_handlers) t.(exit_status) t.(state) t.(cpu_affinity)
    t.(sleep_until_ms) n t.(on_runq) t.(on_cpu).
Definition set_exit (n : Z) (t : task) : task :=
  mkTask t.(pid) t.(ppid) t.(pgid) t.(sid) t.(sig_pending) t.(sig_handlers) n t.(state) t.(cpu_affinity)
    t.(sleep_until_ms) t.(timeslice_ticks) t.(on_runq) t.(on_cpu).
Definition set_pending (n : Z) (t : task) : task :=
  mkTask t.(pid) t.(ppid) t.(pgid) t.(sid) n t.(sig_handlers) t.(exit_status) t.(state) t.(cpu_affinity)
    t.(sleep_until_ms) t.(timeslice_ticks) t.(on_runq) t.(on_cpu).
Definition set_ids (pp pg : Z) (t : task) : task :=
  mkTask t.(pid) pp pg t.(sid) t.(sig_pending) t.(sig_handlers) t.(exit_status) t.(state) t.(cpu_affinity)
    t.(sleep_until_ms) t.(timeslice_ticks) t.(on_runq) t.(on_cpu).

(** ** CPUs *)

Definition set_head (h : Z) (c : cpu_local) : cpu_local :=
  mkCpu c.(current_task) c.(idle_task) h c.(runq_tail) c.(resched_pending) c.(runq_count) c.(switched_from).
Definition set_tail (h : Z) (c : cpu_local) : cpu_local :=
  mkCpu c.(current_task) c.(idle_task) c.(runq_head) h c.(resched_pending) c.(runq_count) c.(switched_from).
Definition set_count (n : Z) (c : cpu_local) : cpu_local :=
  mkCpu c.(current_task) c.(idle_task) c.(runq_head) c.(runq_tail) c.(resched_pending) n c.(switched_from).
Definition set_resched (b : bool) (c : cpu_local) : cpu_local :=
  mkCpu c.(current_task) c.(idle_task) c.(runq_head) c.(runq_tail) b c.(runq_count) c.(switched_from).
Definition set_current (t : Z) (c : cpu_local) : cpu_local :=
  mkCpu t c.(idle_task) c.(runq_head) c.(runq_tail) c.(resched_pending) c.(runq_count) c.(switched_from).
Definition set_from (t : Z) (c : cpu_local) : cpu_local :=
  mkCpu c.(current_task) c.(idle_task) c.(runq_head) c.(runq_tail) c.(resched_pending) c.(runq_count) t.

(** NULL for an identifier that names no CPU. *)
Definition get_cpu_local_by_id (s : ss) (cpu_id : Z) : option Z :=
  if (s.(g_cpu_count) <=? cpu_id) || (ORTHOX_MAX_CPUS <=? cpu_id) then None else Some cpu_id.

Definition task_set_cpu_count (cpu_count : Z) : M unit :=
  let n := if cpu_count =? 0 then 1 else cpu_count in
  let n := if ORTHOX_MAX_CPUS <? n then ORTHOX_MAX_CPUS else n in
  modify (fun s => with_vars s n s.(next_pid) s.(next_cpu) s.(g_fork_spread_enabled)).
Definition task_get_cpu_count (s : ss) : Z := s.(g_cpu_count).

Definition normalize_cpu_affinity (s : ss) (cpu_id : Z) : Z :=
  let cpu_count := if task_get_cpu_count s =? 0 then 1 else task_get_cpu_count s in
  if cpu_count <=? cpu_id then 0 else cpu_id.
(** [(uint32_t)normalize_cpu_affinity ((uint32_t)t->cpu_affinity)] *)
Definition task_normalize_cpu_affinity_internal (s : ss) (cpu_id : Z) : Z := normalize_cpu_affinity s (u32 cpu_id).

(** The number of CPUs that take part. *)
Definition started_cpus (s : ss) : Z :=
  let cpu_count := if task_get_cpu_count s =? 0 then 1 else task_get_cpu_count s in
  if (s.(smp_started) =? 0) || (cpu_count <? s.(smp_started)) then cpu_count else s.(smp_started).

Definition task_is_idle_task (s : ss) (t : Z) : bool := negb (t =? 0) && ((s.(tk) t).(pid) =? 0).

Definition task_cpu_load_locked (s : ss) (cpu_id : Z) : Z :=
  match get_cpu_local_by_id s cpu_id with
  | None => 2 ^ 32 - 1
  | Some c =>
      let cpu := s.(g_cpu_locals) c in
      if negb (cpu.(current_task) =? 0) && negb (cpu.(current_task) =? cpu.(idle_task)) &&
         bool_decide ((s.(tk) cpu.(current_task)).(state) = TASK_RUNNING)
      then u32 (cpu.(runq_count) + 1) else cpu.(runq_count)
  end.

(** The started CPU with the least load, the first among equals; [cpu_of k]
    is the [k]-th candidate. *)
Fixpoint least_loaded (s : ss) (n : nat) (k : Z) (cpu_of : Z -> Z) (best_cpu best_load : Z) : Z :=
  match n with
  | O => best_cpu
  | S n =>
      let c := cpu_of k in
      if s.(smp_cpu_started) c && (task_cpu_load_locked s c <? best_load)
      then least_loaded s n (k + 1) cpu_of c (task_cpu_load_locked s c)
      else least_loaded s n (k + 1) cpu_of best_cpu best_load
  end.

Definition task_choose_rebalance_cpu_locked (s : ss) (fallback_cpu : Z) : Z :=
  let best := normalize_cpu_affinity s fallback_cpu in
  least_loaded s (Z.to_nat (started_cpus s)) 0 (fun k => k) best (task_cpu_load_locked s best).

Definition choose_spawn_cpu_locked (fallback_cpu : Z) : M Z :=
  s ← getS;
  let started := started_cpus s in
  let best := normalize_cpu_affinity s fallback_cpu in
  if started <=? 1 then mret best else
  let best := least_loaded s (Z.to_nat started) 0 (fun k => u32 (s.(next_cpu) + k) mod started) best (task_cpu_load_locked s best) in
  modify (fun s => with_vars s s.(g_cpu_count) s.(next_pid) (u32 (best + 1) mod started) s.(g_fork_spread_enabled));;
  mret best.

Definition task_choose_fork_cpu_locked (fallback_cpu : Z) : M Z :=
  s ← getS;
  if s.(g_fork_spread_enabled) then choose_spawn_cpu_locked fallback_cpu else mret (normalize_cpu_affinity s fallback_cpu).

Definition task_set_fork_spread (enabled : Z) : M Z :=
  modify (fun s => with_vars s s.(g_cpu_count) s.(next_pid) s.(next_cpu) (negb (enabled =? 0)));; mret 0.
Definition task_get_fork_spread (s : ss) : Z := if s.(g_fork_spread_enabled) then 1 else 0.

Definition init_cpu_local (c current idle : Z) : M unit :=
  upd_cpu c (fun x => mkCpu current idle 0 0 false 0 x.(switched_from)).

Definition task_bind_cpu_local (cpu_id current idle : Z) : M unit :=
  s ← getS;
  match get_cpu_local_by_id s cpu_id with
  | None => mret ()
  | Some c => init_cpu_local c current idle;; if current =? 0 then mret () else upd_task current (set_on_cpu true)
  end.

(** ** Run queues *)

Inductive task_migration_reason :=
  TASK_MIGRATE_OK | TASK_MIGRATE_BLOCK_NULL | TASK_MIGRATE_BLOCK_IDLE | TASK_MIGRATE_BLOCK_NOT_READY | TASK_MIGRATE_BLOCK_NOT_ON_RUNQ.
#[export] Instance task_migration_reason_eq_dec : EqDecision task_migration_reason.
Proof. solve_decision. Defined.

Definition task_migration_reason_locked (s : ss) (t : Z) : task_migration_reason :=
  if t =? 0 then TASK_MIGRATE_BLOCK_NULL else
  if task_is_idle_task s t then TASK_MIGRATE_BLOCK_IDLE else
  if negb (bool_decide ((s.(tk) t).(state) = TASK_READY)) then TASK_MIGRATE_BLOCK_NOT_READY else
  if negb (s.(tk) t).(on_runq) then TASK_MIGRATE_BLOCK_NOT_ON_RUNQ else TASK_MIGRATE_OK.
Definition task_can_migrate_locked (s : ss) (t : Z) : bool := bool_decide (task_migration_reason_locked s t = TASK_MIGRATE_OK).

Definition task_get_ready_cpu_locked (s : ss) (cpu_id : Z) : option Z :=
  get_cpu_local_by_id s (normalize_cpu_affinity s cpu_id).

Definition task_runq_remove_locked (t : Z) : M unit :=
  s ← getS;
  if (t =? 0) || negb (s.(tk) t).(on_runq) then mret () else
  kassert (bool_decide ((s.(tk) t).(state) = TASK_READY)) Asserted;;
  match task_get_ready_cpu_locked s (u32 (s.(tk) t).(cpu_affinity)) with
  | None => halt Asserted
  | Some c =>
      let p := s.(runq_prev) t in
      let n := s.(runq_next) t in
      (if p =? 0 then upd_cpu c (set_head n) else modify (fun s => with_runq s (fset s.(runq_next) p n) s.(runq_prev)));;
      (if n =? 0 then upd_cpu c (set_tail p) else modify (fun s => with_runq s s.(runq_next) (fset s.(runq_prev) n p)));;
      modify (fun s => with_runq s (fset s.(runq_next) t 0) (fset s.(runq_prev) t 0));;
      upd_task t (set_on_runq false);;
      upd_cpu c (fun x => if 0 <? x.(runq_count) then set_count (x.(runq_count) - 1) x else x)
  end.

Definition task_runq_push_locked (t cpu_id : Z) : M unit :=
  s ← getS;
  if (t =? 0) || task_is_idle_task s t then mret () else
  kassert (bool_decide ((s.(tk) t).(state) = TASK_READY)) Asserted;;
  let cpu_id := normalize_cpu_affinity s cpu_id in
  (if (s.(tk) t).(on_runq) then task_runq_remove_locked t else mret ());;
  s ← getS;
  match task_get_ready_cpu_locked s cpu_id with
  | None => mret ()
  | Some c =>
      upd_task t (set_affinity cpu_id);;
      let tail := (s.(g_cpu_locals) c).(runq_tail) in
      modify (fun s => with_runq s (fset s.(runq_next) t 0) (fset s.(runq_prev) t tail));;
      (if tail =? 0 then upd_cpu c (set_head t) else modify (fun s => with_runq s (fset s.(runq_next) tail t) s.(runq_prev)));;
      upd_cpu c (set_tail t);;
      upd_task t (set_on_runq true);;
      upd_cpu c (fun x => set_count (u32 (x.(runq_count) + 1)) x);;
      s ← getS;
      kassert (negb ((s.(g_cpu_locals) c).(runq_head) =? 0)) Asserted;;
      kassert (negb ((s.(g_cpu_locals) c).(runq_tail) =? 0)) Asserted
  end.

(** The first task of the queue, 0 if it is empty. *)
Definition task_runq_pop_locked (c : Z) : M Z :=
  s ← getS;
  let t := (s.(g_cpu_locals) c).(runq_head) in
  if t =? 0 then mret 0 else task_runq_remove_locked t;; mret t.

Definition task_rebalance_ready_task_locked (t : Z) : M Z :=
  s ← getS;
  let current_cpu := task_normalize_cpu_affinity_internal s (s.(tk) t).(cpu_affinity) in
  if negb (task_can_migrate_locked s t) then mret (if t =? 0 then 0 else current_cpu) else
  let best_cpu := task_choose_rebalance_cpu_locked s current_cpu in
  if best_cpu =? current_cpu then mret current_cpu else
  if task_cpu_load_locked s current_cpu <=? u32 (task_cpu_load_locked s best_cpu + 1) then mret current_cpu else
  task_runq_push_locked t best_cpu;;
  s ← getS;
  mret (task_normalize_cpu_affinity_internal s (s.(tk) t).(cpu_affinity)).

(** 0, or -1 where the source refuses. *)
Definition task_set_affinity (t cpu_id : Z) : M Z :=
  s ← getS;
  if t =? 0 then mret (-1) else
  let cpu_id := normalize_cpu_affinity s cpu_id in
  if negb (task_can_migrate_locked s t) then mret (if (s.(tk) t).(cpu_affinity) =? cpu_id then 0 else -1) else
  task_runq_push_locked t cpu_id;; mret 0.

(** ** States of a task *)

Definition gone (x : task_state_t) : bool := bool_decide (x = TASK_ZOMBIE) || bool_decide (x = TASK_DEAD).
Definition blocked (x : task_state_t) : bool := bool_decide (x = TASK_SLEEPING) || bool_decide (x = TASK_IO_WAIT).

Definition task_mark_ready_on_cpu_locked (t cpu_id : Z) : M Z :=
  s ← getS;
  if t =? 0 then mret (-1) else
  if task_is_idle_task s t then mret (-1) else
  if gone (s.(tk) t).(state) then mret (-1) else
  upd_task t (set_state TASK_READY);;
  upd_task t (set_sleep 0);;
  task_runq_push_locked t cpu_id;; mret 0.

Definition task_mark_sleeping (t : Z) : M Z :=
  if t =? 0 then mret (-1) else
  task_runq_remove_locked t;; upd_task t (set_sleep 0);; upd_task t (set_state TASK_SLEEPING);; mret 0.
Definition task_mark_io_wait (t : Z) : M Z :=
  if t =? 0 then mret (-1) else
  task_runq_remove_locked t;; upd_task t (set_sleep 0);; upd_task t (set_state TASK_IO_WAIT);; mret 0.
Definition task_mark_io_wait_until (t deadline_ms : Z) : M Z :=
  if t =? 0 then mret (-1) else
  task_runq_remove_locked t;; upd_task t (set_sleep deadline_ms);; upd_task t (set_state TASK_IO_WAIT);; mret 0.
Definition task_mark_zombie (t status : Z) : M Z :=
  if t =? 0 then mret (-1) else
  task_runq_remove_locked t;; upd_task t (set_exit status);; upd_task t (set_state TASK_ZOMBIE);; mret 0.

Definition task_wake_locked (t : Z) : M Z :=
  s ← getS;
  if t =? 0 then mret (-1) else
  if gone (s.(tk) t).(state) then mret (-1) else
  upd_task t (set_sleep 0);;
  task_mark_ready_on_cpu_locked t (u32 (s.(tk) t).(cpu_affinity)).

Definition task_cancel_sleep (t : Z) : M Z :=
  s ← getS;
  if negb (t =? 0) && blocked (s.(tk) t).(state)
  then upd_task t (set_sleep 0);; upd_task t (set_state TASK_RUNNING);; mret 0
  else mret (-1).

(** ** Rescheduling requests (kernel/sched.c) *)

Definition task_request_resched (me : Z) : M unit := upd_cpu me (set_resched true).

Definition task_request_resched_cpu (me cpu_id : Z) : M unit :=
  s ← getS;
  match get_cpu_local_by_id s cpu_id with
  | None => mret ()
  | Some c =>
      upd_cpu c (set_resched true);;
      if me =? cpu_id then mret () else modify (fun s => with_io s (s.(ipis) ++ [cpu_id]) s.(clock))
  end.

Definition task_consume_resched (me : Z) : M Z :=
  s ← getS;
  if negb (s.(g_cpu_locals) me).(resched_pending) then mret 0 else upd_cpu me (set_resched false);; mret 1.

Definition task_mark_ready_on_cpu (me t cpu_id : Z) : M Z :=
  s ← getS;
  let target := normalize_cpu_affinity s cpu_id in
  ret ← task_mark_ready_on_cpu_locked t target;
  (if 0 <=? ret then task_request_resched_cpu me target else mret ());; mret ret.

Definition task_wake (me t : Z) : M Z :=
  if t =? 0 then mret (-1) else
  ret ← task_wake_locked t;
  if ret <? 0 then mret ret else
  s ← getS;
  task_request_resched_cpu me (task_normalize_cpu_affinity_internal s (s.(tk) t).(cpu_affinity));; mret 0.

(** ** The switch (kernel/sched.c) *)

(** The CPU is done with the stack of the task it left. *)
Definition task_finish_switch (me : Z) : M unit :=
  s ← getS;
  let prev := (s.(g_cpu_locals) me).(switched_from) in
  if prev =? 0 then mret () else upd_cpu me (set_from 0);; upd_task prev (set_on_cpu false).

(** [schedule] up to [arch_context_switch], whose other side is the
    [task_finish_switch] of the task switched to.  [true]: it switched. *)
Definition schedule (me : Z) : M bool :=
  s ← getS;
  let current := (s.(g_cpu_locals) me).(current_task) in
  if current =? 0 then mret false else
  task_finish_switch me;;
  next ← task_runq_pop_locked me;
  s ← getS;
  if (next =? 0) && bool_decide ((s.(tk) current).(state) = TASK_RUNNING) then mret false else
  let next := if next =? 0 then (s.(g_cpu_locals) me).(idle_task) else next in
  if next =? current then upd_task next (set_state TASK_RUNNING);; mret false else
  (if bool_decide ((s.(tk) current).(state) = TASK_RUNNING) && negb (task_is_idle_task s current)
   then _ ← task_mark_ready_on_cpu_locked current (u32 (s.(tk) current).(cpu_affinity)); mret () else mret ());;
  upd_cpu me (set_current next);;
  upd_task next (set_on_runq false);;
  upd_task next (set_state TASK_RUNNING);;
  upd_task next (fun t => if t.(timeslice_ticks) <=? 0 then set_ticks TASK_TIMESLICE_TICKS t else t);;
  upd_task next (set_on_cpu true);;
  upd_cpu me (set_from current);;
  mret true.

(** ** The list of all tasks *)

Fixpoint chain (fuel : nat) (next : Z -> Z) (t : Z) : list Z :=
  match fuel with
  | O => []
  | S fuel => if t =? 0 then [] else t :: chain fuel next (next t)
  end.

(** Every task in the list has had a pid of its own, so there are fewer of
    them than [next_pid]. *)
Definition all_tasks (s : ss) : list Z := chain (Z.to_nat s.(next_pid)) s.(tnext) s.(task_list).

Fixpoint each {S A} (l : list A) (f : A -> ST S unit) : ST S unit :=
  match l with [] => mret () | x :: l => f x;; each l f end.

Definition task_find_by_pid (s : ss) (p : Z) : Z := default 0 (snd <$> list_find (fun t => (s.(tk) t).(pid) = p) (all_tasks s)).

Definition task_set_pgid (p g : Z) : M Z :=
  s ← getS;
  let t := task_find_by_pid s p in
  if t =? 0 then mret (-1) else upd_task t (fun x => set_ids x.(ppid) g x);; mret 0.

(** Its result and whether there was a child. *)
Definition task_find_zombie_child (s : ss) (parent_pid p : Z) : Z * bool :=
  let kids := filter (fun t => (s.(tk) t).(ppid) = parent_pid /\ (p = -1 \/ (s.(tk) t).(pid) = p)) (all_tasks s) in
  (default 0 (snd <$> list_find (fun t => (s.(tk) t).(state) = TASK_ZOMBIE) kids), negb (bool_decide (kids = []))).

(** The signal is pending unless it is ignored; a sleeping task wakes. *)
Definition post_signal (t sig : Z) : M unit :=
  s ← getS;
  if (sig <? 32) && ((s.(tk) t).(sig_handlers) sig =? 1) then mret () else
  upd_task t (fun x => set_pending (Z.lor x.(sig_pending) (Z.shiftl 1 sig)) x);;
  if bool_decide ((s.(tk) t).(state) = TASK_SLEEPING) then _ ← task_wake_locked t; mret () else mret ().

Definition task_signal_pid (p sig : Z) (terminate : bool) (status parent_sig : Z) : M Z :=
  s ← getS;
  let t := task_find_by_pid s p in
  if t =? 0 then mret (-1) else
  if (0 <? sig) && (sig <? 64) then
    post_signal t sig;;
    (if terminate then
       _ ← task_mark_zombie t status;
       s ← getS;
       let pp := (s.(tk) t).(ppid) in
       if (0 <? pp) && (0 <? parent_sig) && (parent_sig <? 64) then
         let q := task_find_by_pid s pp in
         if q =? 0 then mret () else post_signal q parent_sig
       else mret ()
     else mret ());;
    mret 0
  else mret 0.

(** The pids of the tasks that were killed. *)
Fixpoint kill_each (l : list Z) (g exclude sig status : Z) : M (list Z) :=
  match l with
  | [] => mret []
  | t :: l =>
      s ← getS;
      let x := s.(tk) t in
      if negb (x.(pgid) =? g) || (x.(pid) =? exclude) || gone x.(state) then kill_each l g exclude sig status else
      upd_task t (fun x => set_pending (Z.lor x.(sig_pending) (Z.shiftl 1 sig)) x);;
      _ ← task_mark_zombie t status;
      r ← kill_each l g exclude sig status;
      mret (x.(pid) :: r)
  end.
Definition task_kill_pgrp (g exclude_pid sig status : Z) : M (list Z) :=
  s ← getS; kill_each (all_tasks s) g exclude_pid sig status.

(** [pid], [ppid] and [state] of the first [max] tasks, and whether there are more. *)
Definition task_snapshot (s : ss) (max : nat) : list (Z * Z * task_state_t) * bool :=
  let l := all_tasks s in
  ((fun t => let x := s.(tk) t in (x.(pid), x.(ppid), x.(state))) <$> take max l, negb (bool_decide (drop max l = []))).

(** *** Reaping *)

(** The place that points at [t]: [None] is [task_list], [Some p] is [p->next]. *)
Fixpoint find_link (fuel : nat) (next : Z -> Z) (link : option Z) (cur t : Z) : option (option Z) :=
  match fuel with
  | O => None
  | S fuel => if cur =? 0 then None else if cur =? t then Some link else find_link fuel next (Some cur) (next cur) t
  end.

(** -1: the task is not a zombie, is still on a CPU, or is not in the list.
    Giving back the address space, the kernel stack and the structure is left
    out. *)
Definition task_reap_locked (t : Z) : M Z :=
  s ← getS;
  if t =? 0 then mret (-1) else
  if negb (gone (s.(tk) t).(state)) then mret (-1) else
  if (s.(tk) t).(on_cpu) then mret (-1) else
  kassert (negb (task_is_idle_task s t)) Asserted;;
  task_runq_remove_locked t;;
  s ← getS;
  match find_link (S (Z.to_nat s.(next_pid))) s.(tnext) None s.(task_list) t with
  | None => mret (-1)
  | Some link =>
      modify (fun s => match link with
                       | None => with_list s (s.(tnext) t) s.(tnext)
                       | Some p => with_list s s.(task_list) (fset s.(tnext) p (s.(tnext) t))
                       end);;
      upd_task t (set_state TASK_DEAD);;
      modify (fun s => with_list s s.(task_list) (fset s.(tnext) t 0));;
      modify (fun s => with_runq s (fset s.(runq_next) t 0) (fset s.(runq_prev) t 0));;
      upd_task t (set_on_runq false);;
      mret 0
  end.

(** It waits until the task has left its CPU. *)
Definition task_reap (t : Z) : M Z :=
  s ← getS;
  kassert ((t =? 0) || negb (s.(tk) t).(on_cpu)) Deadlock;;
  task_reap_locked t.

Fixpoint reap_zombies (fuel : nat) (p : Z) : M unit :=
  match fuel with
  | O => mret ()
  | S fuel =>
      s ← getS;
      let z := (task_find_zombie_child s p (-1)).1 in
      if z =? 0 then mret () else
      r ← task_reap z;
      if r <? 0 then mret () else reap_zombies fuel p
  end.

(** Living children go to process 1, dead ones are reaped. *)
Definition task_reap_orphans_of (p : Z) : M unit :=
  s ← getS;
  each (all_tasks s) (fun t =>
    s ← getS;
    if ((s.(tk) t).(ppid) =? p) && negb (bool_decide ((s.(tk) t).(state) = TASK_ZOMBIE))
    then upd_task t (fun x => set_ids 1 x.(pgid) x) else mret ());;
  reap_zombies (length (all_tasks s)) p.

(** ** Time *)

Definition arch_time_now_ms : M Z :=
  s ← getS; modify (fun s => with_io s s.(ipis) (fun n => s.(clock) (S n)));; mret (s.(clock) 0%nat).

(** Wakes the tasks whose time has come: how many, and the set of their CPUs. *)
Fixpoint poll_each (l : list Z) (now woken cpus : Z) : M (Z * Z) :=
  match l with
  | [] => mret (woken, cpus)
  | t :: l =>
      s ← getS;
      let x := s.(tk) t in
      if blocked x.(state) && negb (x.(sleep_until_ms) =? 0) && (x.(sleep_until_ms) <=? now) then
        upd_task t (set_sleep 0);;
        r ← task_wake_locked t;
        s ← getS;
        let target := task_normalize_cpu_affinity_internal s (s.(tk) t).(cpu_affinity) in
        if 0 <=? r then poll_each l now (woken + 1) (if target <? 64 then Z.lor cpus (Z.shiftl 1 target) else cpus)
        else poll_each l now woken cpus
      else poll_each l now woken cpus
  end.

Definition task_poll_sleep_wakeups (me : Z) : M Z :=
  now ← arch_time_now_ms;
  s ← getS;
  r ← poll_each (all_tasks s) now 0 0;
  each (seqZ 0 64) (fun id => if Z.testbit r.2 id then task_request_resched_cpu me id else mret ());;
  mret r.1.

Definition task_on_timer_tick (me : Z) : M unit :=
  (if me =? 0 then _ ← task_poll_sleep_wakeups me; mret () else mret ());;
  s ← getS;
  let t := (s.(g_cpu_locals) me).(current_task) in
  if (t =? 0) || negb (bool_decide ((s.(tk) t).(state) = TASK_RUNNING)) then mret () else
  if 1 <? (s.(tk) t).(timeslice_ticks) then upd_task t (fun x => set_ticks (x.(timeslice_ticks) - 1) x) else
  upd_task t (set_ticks TASK_TIMESLICE_TICKS);;
  task_request_resched me.

(** ** New tasks *)

(** A zeroed structure. *)
Definition blank_task : task := mkTask 0 0 0 0 0 (fun _ => 0) 0 TASK_RUNNING 0 0 0 false false.

(** A structure at [t], zeroed. *)
Definition alloc_task_struct (t : Z) : M unit :=
  modify (fun s => with_runq (with_list (with_tk s (fset s.(tk) t blank_task)) s.(task_list) (fset s.(tnext) t 0))
                     (fset s.(runq_next) t 0) (fset s.(runq_prev) t 0)).
(** A new pid, of a new group and session. *)
Definition set_leader (p : Z) (x : task) : task :=
  mkTask p x.(ppid) p p x.(sig_pending) x.(sig_handlers) x.(exit_status) x.(state)
    x.(cpu_affinity) x.(sleep_until_ms) x.(timeslice_ticks) x.(on_runq) x.(on_cpu).

(** The part of [task_fork] that publishes the child, after everything that can
    fail: [t] is its structure, from the allocator. *)
Definition task_fork (me t : Z) : M Z :=
  s ← getS;
  let parent := s.(tk) (s.(g_cpu_locals) me).(current_task) in
  modify (fun s => with_runq (with_list (with_tk s (fset s.(tk) t
      (mkTask 0 parent.(pid) parent.(pgid) parent.(sid) 0 (fun i => if (0 <=? i) && (i <? 32) then parent.(sig_handlers) i else 0) 0
         TASK_RUNNING 0 0 TASK_TIMESLICE_TICKS false false)))
      s.(task_list) (fset s.(tnext) t 0)) (fset s.(runq_next) t 0) (fset s.(runq_prev) t 0));;
  s ← getS;
  modify (fun s => with_vars s s.(g_cpu_count) (s.(next_pid) + 1) s.(next_cpu) s.(g_fork_spread_enabled));;
  upd_task t (fun x => mkTask s.(next_pid) x.(ppid) x.(pgid) x.(sid) x.(sig_pending) x.(sig_handlers) x.(exit_status) x.(state)
                         x.(cpu_affinity) x.(sleep_until_ms) x.(timeslice_ticks) x.(on_runq) x.(on_cpu));;
  spawn ← task_choose_fork_cpu_locked (u32 parent.(cpu_affinity));
  _ ← task_mark_ready_on_cpu_locked t spawn;
  modify (fun s => with_list s t (fset s.(tnext) t s.(task_list)));;
  _ ← task_rebalance_ready_task_locked t;
  s ← getS;
  task_request_resched_cpu me (u32 (s.(tk) t).(cpu_affinity));;
  s ← getS;
  mret (s.(tk) t).(pid).

(** A new task that starts at a user address.  [as_ok]: an address space could
    be made for it. *)
Definition task_create_on_cpu (t cpu_id : Z) (as_ok : bool) : M Z :=
  alloc_task_struct t;;
  s ← getS;
  modify (fun s => with_vars s s.(g_cpu_count) (s.(next_pid) + 1) s.(next_cpu) s.(g_fork_spread_enabled));;
  upd_task t (set_leader s.(next_pid));;
  _ ← task_mark_ready_on_cpu_locked t cpu_id;
  upd_task t (set_ticks TASK_TIMESLICE_TICKS);;
  if negb as_ok then mret 0 else
  modify (fun s => with_list s t (fset s.(tnext) t s.(task_list)));;
  mret t.

(** It is in no list and no queue. *)
Definition task_create_idle (t cpu_id : Z) : M Z :=
  if t =? 0 then mret 0 else
  alloc_task_struct t;;
  upd_task t (fun x => set_ticks TASK_TIMESLICE_TICKS (set_affinity cpu_id (set_state TASK_RUNNING x)));; mret t.

(** The first task is the code that runs already, on CPU 0. *)
Definition task_init (me t idle : Z) : M unit :=
  (if t =? 0 then mret () else alloc_task_struct t);;
  _ ← task_create_idle idle 0;
  if (t =? 0) || (idle =? 0) then mret () else
  s ← getS;
  modify (fun s => with_vars s s.(g_cpu_count) (s.(next_pid) + 1) s.(next_cpu) s.(g_fork_spread_enabled));;
  upd_task t (fun x => set_ticks TASK_TIMESLICE_TICKS (set_affinity me (set_state TASK_RUNNING (set_leader s.(next_pid) x))));;
  init_cpu_local 0 t idle;;
  modify (fun s => with_list s t s.(tnext)).

(** ** Statistics *)

(** [struct orth_runq_stat]; pids and states are -1 where there is no task. *)
Record runq_stat := mkStat {
  st_cpu_id : Z; st_runq_count : Z; st_total_load : Z; st_affined_tasks : Z; st_affined_ready : Z; st_affined_running : Z;
  st_affined_sleeping : Z; st_blocked_ready : Z; st_blocked_running : Z; st_blocked_sleeping : Z; st_current_pid : Z;
  st_current_state : option task_state_t; st_runq_head_pid : Z; st_runq_tail_pid : Z; st_current_is_idle : bool; st_migratable : Z }.

Definition count_tasks (s : ss) (cpu_id : Z) (p : Z -> bool) : Z :=
  zlen (filter (fun t => negb (task_is_idle_task s t) && negb (bool_decide ((s.(tk) t).(state) = TASK_DEAD)) &&
                         (task_normalize_cpu_affinity_internal s (s.(tk) t).(cpu_affinity) =? cpu_id) && p t = true) (all_tasks s)).

Definition runq_stat_of (s : ss) (cpu_id : Z) : runq_stat :=
  let cpu := s.(g_cpu_locals) cpu_id in
  let cur := cpu.(current_task) in
  let has x t := bool_decide ((s.(tk) t).(state) = x) in
  let asleep t := blocked (s.(tk) t).(state) in
  let stuck t := negb (task_can_migrate_locked s t) in
  let n := count_tasks s cpu_id in
  mkStat cpu_id cpu.(runq_count)
    (if negb (cur =? 0) && negb (cur =? cpu.(idle_task)) && has TASK_RUNNING cur then u32 (cpu.(runq_count) + 1) else cpu.(runq_count))
    (n (fun _ => true)) (n (has TASK_READY)) (n (has TASK_RUNNING)) (n asleep)
    (n (fun t => has TASK_READY t && stuck t)) (n (fun t => has TASK_RUNNING t && stuck t)) (n (fun t => asleep t && stuck t))
    (if cur =? 0 then -1 else (s.(tk) cur).(pid)) (if cur =? 0 then None else Some (s.(tk) cur).(state))
    (if cpu.(runq_head) =? 0 then -1 else (s.(tk) cpu.(runq_head)).(pid))
    (if cpu.(runq_tail) =? 0 then -1 else (s.(tk) cpu.(runq_tail)).(pid))
    (negb (cur =? 0) && (cur =? cpu.(idle_task)))
    (n (fun t => has TASK_READY t && negb (stuck t))).

(** [None]: -1 *)
Definition task_get_runq_stats (s : ss) (max_count : Z) : option (list runq_stat) :=
  if max_count =? 0 then None else
  Some (runq_stat_of s <$> take (Z.to_nat max_count)
          (filter (fun c => is_Some (get_cpu_local_by_id s c)) (seqZ 0 (started_cpus s)))).
