(* ===== verification/Runq.v ===== *)
(** * The run queues are queues

    The doubly linked lists of task.c against lists of tasks: [runqs s q] says
    that the queue of CPU [c] holds the tasks [q c], in order, that these are
    the tasks marked as queued whose CPU is [c], and that the counter is the
    length.  Removing, pushing and popping are list operations. *)
From S2P Require Import Prelude State Links Task.

(** The CPU on whose queue a task goes. *)
Definition home (s : ss) (t : Z) : Z := task_normalize_cpu_affinity_internal s (s.(tk) t).(cpu_affinity).
Definition is_cpu (s : ss) (c : Z) : Prop := 0 <= c < s.(g_cpu_count).

(** The links of a queue as a ring through NULL. *)
Definition ring_next (s : ss) (c : Z) : Z -> Z := fset s.(runq_next) 0 (s.(g_cpu_locals) c).(runq_head).
Definition ring_prev (s : ss) (c : Z) : Z -> Z := fset s.(runq_prev) 0 (s.(g_cpu_locals) c).(runq_tail).

Record runqs (s : ss) (q : Z -> list Z) : Prop := mkRunqs {
  rq_cpus : 1 <= s.(g_cpu_count) <= ORTHOX_MAX_CPUS;
  rq_dl : forall c, is_cpu s c -> dl (ring_next s c) (ring_prev s c) 0 (q c) 0;
  rq_nodup : forall c, is_cpu s c -> NoDup (q c);
  rq_in : forall c t, is_cpu s c -> t ∈ q c <-> t <> 0 /\ (s.(tk) t).(on_runq) = true /\ home s t = c;
  rq_count : forall c, is_cpu s c -> (s.(g_cpu_locals) c).(runq_count) = zlen (q c);
  rq_ready : forall t, t <> 0 -> (s.(tk) t).(on_runq) = true -> (s.(tk) t).(state) = TASK_READY /\ (s.(tk) t).(pid) <> 0 }.

(** Everything but the queues is the same. *)
Record rest (s s' : ss) : Prop := mkRest {
  rs_next : s'.(tnext) = s.(tnext);
  rs_wait : s'.(wait_next) = s.(wait_next) /\ s'.(wait_queue) = s.(wait_queue) /\ s'.(wq_head) = s.(wq_head);
  rs_vars : s'.(g_cpu_count) = s.(g_cpu_count) /\ s'.(task_list) = s.(task_list) /\ s'.(next_pid) = s.(next_pid);
  rs_smp : s'.(smp_started) = s.(smp_started) /\ s'.(smp_cpu_started) = s.(smp_cpu_started);
  rs_cpu : forall c, let x := s.(g_cpu_locals) c in let y := s'.(g_cpu_locals) c in
    y.(current_task) = x.(current_task) /\ y.(idle_task) = x.(idle_task) /\ y.(switched_from) = x.(switched_from) }.

Lemma rest_refl s : rest s s.
Proof. by split. Qed.
Lemma rest_trans s1 s2 s3 : rest s1 s2 -> rest s2 s3 -> rest s1 s3.
Proof.
  intros [H1 H2 H3 H4 H5] [G1 G2 G3 G4 G5]. split; [congruence|destruct_and?; split_and?; congruence..|].
  intros c. specialize (H5 c). specialize (G5 c). cbv zeta in *. destruct_and?. split_and!; congruence.
Qed.

Section home.
Context (s : ss) (Hn : 1 <= s.(g_cpu_count) <= ORTHOX_MAX_CPUS).

Lemma normalize_range c : 0 <= c -> is_cpu s (normalize_cpu_affinity s c).
Proof using Hn.
  intros Hc. unfold is_cpu, normalize_cpu_affinity, task_get_cpu_count. destruct (Z.eqb_spec (g_cpu_count s) 0); [lia|].
  destruct (Z.leb_spec (g_cpu_count s) c); lia.
Qed.
Lemma normalize_cpu c : is_cpu s c -> normalize_cpu_affinity s c = c.
Proof using Hn.
  intros Hc. unfold is_cpu, normalize_cpu_affinity, task_get_cpu_count in *. destruct (Z.eqb_spec (g_cpu_count s) 0); [lia|].
  destruct (Z.leb_spec (g_cpu_count s) c); lia.
Qed.
Lemma home_cpu t : is_cpu s (home s t).
Proof using Hn. apply normalize_range, u32_range. Qed.
Lemma cpu_by_id c : is_cpu s c -> get_cpu_local_by_id s c = Some c.
Proof using Hn.
  intros Hc. unfold is_cpu, get_cpu_local_by_id in *. change ORTHOX_MAX_CPUS with 64 in *.
  destruct (Z.leb_spec (g_cpu_count s) c), (Z.leb_spec 64 c); done || lia.
Qed.
Lemma ready_cpu c : 0 <= c -> task_get_ready_cpu_locked s c = Some (normalize_cpu_affinity s c).
Proof using Hn. intros Hc. unfold task_get_ready_cpu_locked. by apply cpu_by_id, normalize_range. Qed.
End home.

(** ** Lists *)

Definition without (t : Z) (l : list Z) : list Z := filter (fun x => x <> t) l.

Lemma without_none t l : t ∉ l -> without t l = l.
Proof.
  intros Ht. induction l as [|x l IH]; [done|]. apply not_elem_of_cons in Ht as [Hx Ht].
  unfold without. rewrite filter_cons, decide_True by congruence. f_equal. by apply IH.
Qed.
Lemma without_app t l1 l2 : NoDup (l1 ++ t :: l2) -> without t (l1 ++ t :: l2) = l1 ++ l2.
Proof.
  intros (_&Hd&[Ht _]%NoDup_cons)%NoDup_app. unfold without. rewrite filter_app, filter_cons, decide_False by auto.
  fold (without t l1) (without t l2). rewrite !without_none; [done|done|]. intros Hx. apply (Hd t Hx). apply list_elem_of_here.
Qed.
Lemma elem_of_without t x l : x ∈ without t l <-> x ∈ l /\ x <> t.
Proof. unfold without. rewrite list_elem_of_filter. tauto. Qed.
Lemma NoDup_without t l : NoDup l -> NoDup (without t l).
Proof. apply NoDup_filter. Qed.
Lemma zlen_without t l : NoDup l -> t ∈ l -> zlen (without t l) = zlen l - 1.
Proof.
  intros Hn (l1&l2&->)%list_elem_of_split. rewrite without_app by done. unfold zlen. rewrite !length_app. simpl. lia.
Qed.

(** ** Links *)

Section links.
Context (nx pv : Z -> Z) (h tl t : Z) (l1 l2 : list Z).
Context (Hd : dl (fset nx 0 h) (fset pv 0 tl) 0 (l1 ++ t :: l2) 0) (Hnd : NoDup (0 :: l1 ++ t :: l2)).

Lemma ring_remove nx' pv' h' tl' :
  (forall y, y <> 0 -> y <> t -> nx' y = if decide (y = pv t) then nx t else nx y) ->
  (forall y, y <> 0 -> y <> t -> pv' y = if decide (y = nx t) then pv t else pv y) ->
  h' = (if decide (pv t = 0) then nx t else h) -> tl' = (if decide (nx t = 0) then pv t else tl) ->
  dl (fset nx' 0 h') (fset pv' 0 tl') 0 (l1 ++ l2) 0.
Proof using Hd Hnd.
  intros Hn Hp -> ->. pose proof Hnd as [H0 Hnd']%NoDup_cons.
  assert (Ht0 : t <> 0) by set_solver. assert (Htl : t ∉ l1 ++ l2).
  { apply NoDup_app in Hnd' as (_&Hx&[Hy _]%NoDup_cons). intros [Hz|Hz]%elem_of_app; [|done]. apply (Hx t Hz). apply list_elem_of_here. }
  pose proof (dl_remove _ _ _ _ _ _ _ Hd Hnd H0) as Hr. 
  rewrite (fset_ne nx 0 h t Ht0), (fset_ne pv 0 tl t Ht0) in Hr.
  apply (dl_frame _ _ _ _ _ _ _ Hr); intros y Hy.
  - rewrite !fset_spec. destruct (decide (y = 0)) as [->|Hy0].
    + repeat case_decide; congruence.
    + rewrite Hn; [repeat case_decide; congruence|done|]. intros ->. destruct Hy as [?|Hy]; [done|]. by apply Htl.
  - rewrite !fset_spec. destruct (decide (y = 0)) as [->|Hy0].
    + repeat case_decide; congruence.
    + rewrite Hp; [repeat case_decide; congruence|done|]. intros ->. destruct Hy as [?|Hy]; [done|]. by apply Htl.
Qed.
End links.

(** [t->prev = tail; t->next = 0; tail->next = t or head = t; tail = t] *)
Lemma ring_push nx pv h tl l t nx' pv' h' :
  dl (fset nx 0 h) (fset pv 0 tl) 0 l 0 -> NoDup (0 :: l) -> t ∉ l -> t <> 0 ->
  (forall y, y <> 0 -> nx' y = if decide (y = t) then 0 else if decide (y = tl) then t else nx y) ->
  (forall y, y <> 0 -> pv' y = if decide (y = t) then tl else pv y) ->
  h' = (if decide (tl = 0) then t else h) ->
  dl (fset nx' 0 h') (fset pv' 0 t) 0 (l ++ [t]) 0.
Proof.
  intros Hd Hnd Ht Ht0 Hn Hp ->. pose proof Hnd as [H0 Hnd']%NoDup_cons. pose proof (dl_prev_last _ _ _ _ _ Hd) as Hlast.
  rewrite fset_eq in Hlast. pose proof (last_or_elem 0 l) as Hu. rewrite <- Hlast in Hu. apply dl_app. split.
  - apply (dl_retarget (fset nx 0 h) (fset pv 0 tl) _ _ 0 l 0); [done|done|..]; rewrite <- ?Hlast.
    + intros y Hy Hne. rewrite !fset_spec. destruct (decide (y = 0)) as [->|Hy0]; [case_decide; congruence|].
      rewrite Hn by done. destruct Hy as [?|Hy]; [done|]. rewrite !decide_False; [done|done|]. by intros ->.
    + intros y Hy. rewrite !fset_spec. destruct (decide (y = 0)) as [->|Hy0]; [done|]. rewrite Hp by done.
      rewrite decide_False; [done|]. by intros ->.
    + rewrite fset_spec. destruct (decide (tl = 0)) as [->|Htl]; [done|]. rewrite Hn by done.
      destruct Hu as [|Hu]; [done|]. rewrite decide_False by (by intros ->). by rewrite decide_True.
    + rewrite fset_ne by done. rewrite Hp by done. by rewrite decide_True.
  - simpl. rewrite fset_ne, fset_eq by done. rewrite Hn by done. by rewrite decide_True.
Qed.

(** ** Removing *)

(** Tasks other than [t] are the same, [t] becomes [x]. *)
Definition tk_is (s : ss) (t : Z) (x : task) (s' : ss) : Prop := forall y, s'.(tk) y = if decide (y = t) then x else s.(tk) y.

Lemma home_same s s' t : s'.(g_cpu_count) = s.(g_cpu_count) -> (s'.(tk) t).(cpu_affinity) = (s.(tk) t).(cpu_affinity) -> home s' t = home s t.
Proof. intros Hn Ha. unfold home, task_normalize_cpu_affinity_internal, normalize_cpu_affinity, task_get_cpu_count. by rewrite Hn, Ha. Qed.

(** The queues of other CPUs. *)
Lemma ring_other s s' q c : runqs s q -> is_cpu s c -> s'.(g_cpu_locals) c = s.(g_cpu_locals) c ->
  (forall y, y ∈ q c -> s'.(runq_next) y = s.(runq_next) y /\ s'.(runq_prev) y = s.(runq_prev) y) ->
  dl (ring_next s' c) (ring_prev s' c) 0 (q c) 0.
Proof.
  intros Hq Hc Hl Hy. apply (dl_frame _ _ _ _ _ _ _ (rq_dl _ _ Hq c Hc)); unfold ring_next, ring_prev; rewrite Hl; intros y Hor;
    rewrite !fset_spec; case_decide; try done; destruct Hor as [|Hor]; try done; by apply Hy.
Qed.

Section removed.
Context (s : ss) (q : Z -> list Z) (t : Z).
Context (Hq : runqs s q) (Ht : t <> 0) (Hon : (s.(tk) t).(on_runq) = true).
Abbreviation c := (home s t).
Abbreviation n := (s.(runq_next) t).
Abbreviation p := (s.(runq_prev) t).
Lemma removed_neighbours : (p = 0 \/ p ∈ q c) /\ (n = 0 \/ n ∈ q c).
Proof using Hq Ht Hon.
  pose proof (home_cpu s (rq_cpus _ _ Hq) t) as Hc. pose proof (proj2 (rq_in _ _ Hq c t Hc) (conj Ht (conj Hon eq_refl))) as Hin.
  apply list_elem_of_split in Hin as (l1&l2&Hl). pose proof (rq_dl _ _ Hq c Hc) as Hd. rewrite Hl in Hd |- *. apply dl_app in Hd as [H1 H2].
  pose proof (dl_prev_last _ _ _ _ _ H1) as Hp. pose proof (dl_next_first _ _ _ _ _ H2) as Hx. unfold ring_prev, ring_next in Hp, Hx.
  rewrite fset_ne in Hp, Hx by done. rewrite Hp, Hx. split.
  - destruct (last_or_elem 0 l1) as [->|]; [by left|right; set_solver].
  - destruct l2 as [|z l2]; [by left|right]. simpl. set_solver.
Qed.

Context (s' : ss).
Context (Hnx : forall y, y <> 0 -> y <> t -> s'.(runq_next) y = if decide (y = p) then n else s.(runq_next) y).
Context (Hpv : forall y, y <> 0 -> y <> t -> s'.(runq_prev) y = if decide (y = n) then p else s.(runq_prev) y).
Context (Hh : (s'.(g_cpu_locals) c).(runq_head) = if decide (p = 0) then n else (s.(g_cpu_locals) c).(runq_head)).
Context (Htl : (s'.(g_cpu_locals) c).(runq_tail) = if decide (n = 0) then p else (s.(g_cpu_locals) c).(runq_tail)).
Context (Hct : (s'.(g_cpu_locals) c).(runq_count) = (s.(g_cpu_locals) c).(runq_count) - 1).
Context (Hoth : forall d, d <> c -> s'.(g_cpu_locals) d = s.(g_cpu_locals) d).
Context (Htk : tk_is s t (set_on_runq false (s.(tk) t)) s') (Hn : s'.(g_cpu_count) = s.(g_cpu_count)).

Lemma runqs_removed : runqs s' (fun d => without t (q d)).
Proof using All.
  pose proof (rq_cpus _ _ Hq) as Hcpus. pose proof (home_cpu s Hcpus t) as Hc.
  assert (Hicpu : forall d, is_cpu s' d <-> is_cpu s d) by (intros d; unfold is_cpu; by rewrite Hn).
  assert (Htd : forall d, is_cpu s d -> d <> c -> t ∉ q d) by (intros d Hd Hne [_ [_ He]]%(rq_in _ _ Hq d t Hd); congruence).
  assert (Haff : forall y, (s'.(tk) y).(cpu_affinity) = (s.(tk) y).(cpu_affinity)) by (intros y; rewrite Htk; destruct (decide (y = t)) as [->|]; reflexivity).
  pose proof (proj2 (rq_in _ _ Hq c t Hc) (conj Ht (conj Hon eq_refl))) as Hin. split.
  - by rewrite Hn.
  - intros d Hd%Hicpu. destruct (decide (d = c)) as [->|Hne].
    + pose proof (rq_nodup _ _ Hq c Hc) as Hnd. pose proof (rq_dl _ _ Hq c Hc) as Hdl.
      assert (H0 : 0 ∉ q c) by (intros [? _]%(rq_in _ _ Hq c 0 Hc); done).
      apply list_elem_of_split in Hin as (l1&l2&Hl). rewrite Hl in *. rewrite without_app by done.
      eapply ring_remove; [exact Hdl|by apply NoDup_cons|done|done|done|done].
    + rewrite without_none by auto. apply (ring_other s); [done|done|by apply Hoth|]. intros y Hy.
      pose proof (proj1 (rq_in _ _ Hq d y Hd) Hy) as (Hy0&_&Hyh). assert (y <> t) by (by intros ->).
      destruct removed_neighbours as [Hp' Hn']. rewrite Hnx, Hpv by done. split; rewrite decide_False; try done.
      * intros ->. destruct Hp' as [|Hp']; [done|]. apply (rq_in _ _ Hq c _ Hc) in Hp' as (_&_&?). congruence.
      * intros ->. destruct Hn' as [|Hn']; [done|]. apply (rq_in _ _ Hq c _ Hc) in Hn' as (_&_&?). congruence.
  - intros d Hd%Hicpu. by apply NoDup_without, (rq_nodup _ _ Hq).
  - intros d y Hd%Hicpu. rewrite elem_of_without, (rq_in _ _ Hq d y Hd), (home_same s s' y Hn (Haff y)), Htk.
    destruct (decide (y = t)) as [->|Hne]; simpl; [split; [by intros [_ ?]|by intros (_&?&_)]|]. split; [by intros [? _]|by intros ?].
  - intros d Hd%Hicpu. destruct (decide (d = c)) as [->|Hne].
    + rewrite Hct, (rq_count _ _ Hq c Hc), zlen_without; [done|by apply (rq_nodup _ _ Hq)|done].
    + rewrite Hoth, without_none by auto. by apply (rq_count _ _ Hq).
  - intros y Hy. rewrite Htk. destruct (decide (y = t)); [done|]. by apply (rq_ready _ _ Hq).
Qed.
End removed.

(** What an operation on the queues leaves alone, and what it makes of the task. *)
Record moved (s : ss) (t : Z) (x : task) (s' : ss) : Prop := mkMoved {
  md_rest : rest s s';
  md_tk : tk_is s t x s';
  md_next : s'.(next_cpu) = s.(next_cpu) /\ s'.(g_fork_spread_enabled) = s.(g_fork_spread_enabled) /\ s'.(ipis) = s.(ipis) }.

Lemma set_on_runq_id x : x.(on_runq) = false -> set_on_runq false x = x.
Proof. destruct x; simpl. by intros ->. Qed.

Lemma moved_refl s t : moved s t (s.(tk) t) s.
Proof. split; [apply rest_refl| |done]. intros y. by case_decide; subst. Qed.

Lemma runqs_ext s q q' : runqs s q -> (forall d, is_cpu s d -> q' d = q d) -> runqs s q'.
Proof.
  intros [H1 H2 H3 H4 H5 H6] He. split; [done|..|done].
  - intros c Hc. rewrite He by done. auto.
  - intros c Hc. rewrite He by done. auto.
  - intros c t Hc. rewrite He by done. auto.
  - intros c Hc. rewrite He by done. auto.
Qed.

Lemma not_queued s q t : runqs s q -> (s.(tk) t).(on_runq) = false -> runqs s (fun d => without t (q d)).
Proof.
  intros Hq Hon. apply (runqs_ext s q); [done|]. intros d Hd. apply without_none. intros [_ [? _]]%(rq_in _ _ Hq d t Hd). congruence.
Qed.

(** Cases on which cells were written. *)
Ltac cells := intros; unfold tk_is; cbn; intros; rewrite ?fset_spec; repeat case_decide; cbn; subst; auto; congruence.

Section ops.
Context (E : panic -> Prop).

Lemma remove_ok s q t (Q : unit -> ss -> Prop) :
  runqs s q -> t <> 0 ->
  (forall s', moved s t (set_on_runq false (s.(tk) t)) s' -> runqs s' (fun d => without t (q d)) -> Q tt s') ->
  wp E (task_runq_remove_locked t) Q s.
Proof using.
  intros Hq Ht HQ. unfold task_runq_remove_locked. wp_step. wp_step. rewrite (proj2 (Z.eqb_neq t 0) Ht). simpl orb.
  destruct (on_runq (tk s t)) eqn:Hon; simpl negb; cbv iota.
  2: { apply wp_ret, HQ; [rewrite set_on_runq_id by done; apply moved_refl|].
       by apply not_queued. }
  destruct (rq_ready _ _ Hq t Ht Hon) as [Hst _]. wp_step. wp_step; [|by rewrite bool_decide_true].
  pose proof (rq_cpus _ _ Hq) as Hcpus.
  rewrite (ready_cpu s Hcpus) by (apply u32_range). fold (task_normalize_cpu_affinity_internal s (cpu_affinity (tk s t))). fold (home s t).
  pose proof (home_cpu s Hcpus t) as Hc. pose proof (rq_count _ _ Hq _ Hc) as Hcount.
  pose proof (proj2 (rq_in _ _ Hq _ t Hc) (conj Ht (conj Hon eq_refl))) as Hin.
  assert (Hpos : 0 < runq_count (g_cpu_locals s (home s t))).
  { rewrite Hcount. destruct (q (home s t)); [by apply not_elem_of_nil in Hin|]. unfold zlen. simpl. lia. }
  unfold upd_cpu, upd_task.
  apply Z.ltb_lt in Hpos.
  destruct (Z.eqb_spec (runq_prev s t) 0) as [Hp|Hp], (Z.eqb_spec (runq_next s t) 0) as [Hn|Hn]; wp_steps; cbn; rewrite ?fset_eq; cbn;
    rewrite ?fset_eq; cbn; rewrite ?Hpos; (apply HQ; [split; [split; try done; cells|cells|done]|apply (runqs_removed s q t Hq Ht Hon); try done; cells]).
Qed.

(** [t], on no queue, is put at the end of the queue of [c]. *)
Lemma runqs_pushed s q t c s' :
  runqs s q -> t <> 0 -> (s.(tk) t).(on_runq) = false -> is_cpu s c -> zlen (q c) + 1 < 2 ^ 32 ->
  (s.(tk) t).(state) = TASK_READY -> (s.(tk) t).(pid) <> 0 ->
  (forall y, y <> 0 -> s'.(runq_next) y = if decide (y = t) then 0 else if decide (y = (s.(g_cpu_locals) c).(runq_tail)) then t else s.(runq_next) y) ->
  (forall y, y <> 0 -> s'.(runq_prev) y = if decide (y = t) then (s.(g_cpu_locals) c).(runq_tail) else s.(runq_prev) y) ->
  (s'.(g_cpu_locals) c).(runq_head) = (if decide ((s.(g_cpu_locals) c).(runq_tail) = 0) then t else (s.(g_cpu_locals) c).(runq_head)) ->
  (s'.(g_cpu_locals) c).(runq_tail) = t -> (s'.(g_cpu_locals) c).(runq_count) = u32 ((s.(g_cpu_locals) c).(runq_count) + 1) ->
  (forall d, d <> c -> s'.(g_cpu_locals) d = s.(g_cpu_locals) d) ->
  tk_is s t (set_on_runq true (set_affinity c (s.(tk) t))) s' -> s'.(g_cpu_count) = s.(g_cpu_count) ->
  runqs s' (fun d => if decide (d = c) then q d ++ [t] else q d).
Proof using.
  intros Hq Ht Hon Hc Hroom Hst Hpid Hnx Hpv Hh Htl Hct Hoth Htk Hn. pose proof (rq_cpus _ _ Hq) as Hcpus.
  assert (Hicpu : forall d, is_cpu s' d <-> is_cpu s d) by (intros d; unfold is_cpu; by rewrite Hn).
  assert (Hno : forall d, is_cpu s d -> t ∉ q d) by (intros d Hd [_ [? _]]%(rq_in _ _ Hq d t Hd); congruence).
  assert (H0 : forall d, is_cpu s d -> 0 ∉ q d) by (intros d Hd [? _]%(rq_in _ _ Hq d 0 Hd); done).
  assert (Hht : home s' t = c).
  { unfold home, task_normalize_cpu_affinity_internal. rewrite Htk, decide_True by done. simpl. unfold is_cpu in Hc. change ORTHOX_MAX_CPUS with 64 in *.
    rewrite u32_small by lia. apply normalize_cpu; [by rewrite Hn|by apply Hicpu]. }
  assert (Hhy : forall y, y <> t -> home s' y = home s y) by (intros y Hy; apply home_same; [done|]; rewrite Htk; by rewrite decide_False).
  split.
  - by rewrite Hn.
  - intros d Hd%Hicpu. destruct (decide (d = c)) as [->|Hne].
    + unfold ring_next, ring_prev. rewrite Htl.
      eapply ring_push; [apply (rq_dl _ _ Hq c Hc)|apply NoDup_cons; split; [by apply H0|by apply (rq_nodup _ _ Hq)]|by apply Hno|done|exact Hnx|exact Hpv|exact Hh].
    + apply (ring_other s); [done|done|by apply Hoth|]. intros y Hy. pose proof (proj1 (rq_in _ _ Hq d y Hd) Hy) as (Hy0&_&Hyh).
      assert (y <> t) by (intros ->; by apply (Hno d)). rewrite Hnx, Hpv by done. rewrite !(decide_False (P := y = t)) by done.
      rewrite decide_False; [done|]. intros ->. pose proof (dl_prev_last _ _ _ _ _ (rq_dl _ _ Hq c Hc)) as Hlast.
      unfold ring_prev in Hlast. rewrite fset_eq in Hlast. destruct (last_or_elem 0 (q c)) as [He|He]; rewrite <- Hlast in He; [done|].
      apply (rq_in _ _ Hq c _ Hc) in He as (_&_&?). congruence.
  - intros d Hd%Hicpu. destruct (decide (d = c)) as [->|]; [|by apply (rq_nodup _ _ Hq)]. apply NoDup_app.
    split; [by apply (rq_nodup _ _ Hq)|]. split; [|apply NoDup_singleton]. intros x Hx ->%list_elem_of_singleton. by apply (Hno c).
  - intros d y Hd%Hicpu. rewrite Htk. destruct (decide (y = t)) as [->|Hy].
    + rewrite Hht. simpl. destruct (decide (d = c)) as [->|Hne].
      * split; [done|]. intros _. apply elem_of_app. right. apply list_elem_of_here.
      * split; [intros Hx; by apply (Hno d) in Hx|]. intros (_&_&?). congruence.
    + rewrite (Hhy y Hy), <- (rq_in _ _ Hq d y Hd). destruct (decide (d = c)); [|done]. rewrite elem_of_app, list_elem_of_singleton. tauto.
  - intros d Hd%Hicpu. destruct (decide (d = c)) as [->|Hne].
    + rewrite Hct, (rq_count _ _ Hq c Hc). replace (zlen (q c ++ [t])) with (zlen (q c) + 1) by (unfold zlen; rewrite length_app; simpl; lia).
      apply u32_small. unfold zlen in *. lia.
    + rewrite Hoth by done. by apply (rq_count _ _ Hq).
  - intros y Hy. rewrite Htk. destruct (decide (y = t)) as [->|]; [done|]. by apply (rq_ready _ _ Hq).
Qed.

Lemma moved_trans s t x s1 y s2 : moved s t x s1 -> moved s1 t y s2 -> moved s t y s2.
Proof using.
  intros [R1 T1 (?&?&?)] [R2 T2 (?&?&?)]. split; [by eapply rest_trans| |split_and!; congruence].
  intros z. rewrite T2, T1. by destruct (decide (z = t)).
Qed.

Lemma tail_in s q c : runqs s q -> is_cpu s c -> (s.(g_cpu_locals) c).(runq_tail) = 0 \/ (s.(g_cpu_locals) c).(runq_tail) ∈ q c.
Proof using.
  intros Hq Hc. pose proof (dl_prev_last _ _ _ _ _ (rq_dl _ _ Hq c Hc)) as Hp. unfold ring_prev in Hp. rewrite fset_eq in Hp. rewrite Hp.
  apply last_or_elem.
Qed.

Lemma head_of_tail s q c : runqs s q -> is_cpu s c -> (s.(g_cpu_locals) c).(runq_tail) <> 0 -> (s.(g_cpu_locals) c).(runq_head) <> 0.
Proof using.
  intros Hq Hc Ht Hh. pose proof (rq_dl _ _ Hq c Hc) as Hd. pose proof (dl_prev_last _ _ _ _ _ Hd) as Hp. pose proof (dl_next_first _ _ _ _ _ Hd) as Hn.
  unfold ring_prev, ring_next in Hp, Hn. rewrite fset_eq in Hp, Hn. destruct (q c) as [|x l] eqn:Hl; simpl in Hn; [by simpl in Hp|].
  assert (Hx : x ∈ q c) by (rewrite Hl; apply list_elem_of_here). apply (rq_in _ _ Hq c x Hc) in Hx as (?&_&_). congruence.
Qed.

Definition queue_after (s : ss) (q : Z -> list Z) (t c d : Z) : list Z := if decide (d = c) then without t (q d) ++ [t] else without t (q d).

Lemma push_ok s q t cpu (Q : unit -> ss -> Prop) :
  runqs s q -> t <> 0 -> (s.(tk) t).(state) = TASK_READY -> (s.(tk) t).(pid) <> 0 -> 0 <= cpu ->
  (forall d, is_cpu s d -> zlen (q d) + 1 < 2 ^ 32) ->
  let c := normalize_cpu_affinity s cpu in
  (forall s', moved s t (set_on_runq true (set_affinity c (s.(tk) t))) s' -> runqs s' (queue_after s q t c) -> Q tt s') ->
  wp E (task_runq_push_locked t cpu) Q s.
Proof using.
  intros Hq Ht Hst Hpid Hcpu Hroom c HQ. unfold task_runq_push_locked. wp_step. wp_step.
  unfold task_is_idle_task. rewrite (proj2 (Z.eqb_neq t 0) Ht), (proj2 (Z.eqb_neq _ 0) Hpid). simpl orb. cbv iota.
  wp_step. wp_step; [|by rewrite bool_decide_true]. fold c. pose proof (rq_cpus _ _ Hq) as Hcpus.
  pose proof (normalize_range s Hcpus cpu Hcpu) as Hc. fold c in Hc. wp_step.
  assert (Hrem : wp E (if on_runq (tk s t) then task_runq_remove_locked t else mret ())
    (fun _ s1 => moved s t (set_on_runq false (tk s t)) s1 /\ runqs s1 (fun d => without t (q d))) s).
  { destruct (on_runq (tk s t)) eqn:Hon; [apply (remove_ok s q); auto|]. apply wp_ret. split; [|by apply not_queued].
    rewrite set_on_runq_id by done. apply moved_refl. }
  eapply wp_mono; [exact Hrem|]. clear Hrem. intros [] s1 [Hm1 Hq1]. pose proof Hm1 as [[_ _ (Hn1&_&_) _ _] Htk1 _].
  wp_step. wp_step. pose proof (rq_cpus _ _ Hq1) as Hcpus1.
  assert (Hc1 : is_cpu s1 c) by (unfold is_cpu; by rewrite Hn1).
  rewrite (ready_cpu s1 Hcpus1) by apply Hc. rewrite (normalize_cpu s1 Hcpus1 c Hc1).
  assert (Ht1 : tk s1 t = set_on_runq false (tk s t)) by (rewrite Htk1; by rewrite decide_True).
  unfold upd_task, upd_cpu.
  apply Z.eqb_neq in Ht as Htb.
  assert (Hhd : runq_tail (g_cpu_locals s1 c) <> 0 -> (runq_head (g_cpu_locals s1 c) =? 0) = false) by (intros; by apply Z.eqb_neq, (head_of_tail s1 (fun d => without t (q d)))).
  assert (Htt : runq_tail (g_cpu_locals s1 c) <> t).
  { destruct (tail_in s1 _ c Hq1 Hc1) as [->|Hin]; [congruence|]. by apply elem_of_without in Hin as [_ ?]. }
  assert (Hroom1 : forall d, is_cpu s d -> zlen (without t (q d)) + 1 < 2 ^ 32).
  { intros d Hd. specialize (Hroom d Hd). unfold zlen in *. pose proof (length_filter (fun x => x <> t) (q d)). unfold without. lia. }
  assert (Hpush : forall s2, moved s1 t (set_on_runq true (set_affinity c (tk s1 t))) s2 -> runqs s2 (queue_after s q t c) -> Q tt s2).
  { intros s2 Hm2. apply HQ. eapply moved_trans; [exact Hm1|]. by rewrite Ht1 in Hm2. }
  destruct (Z.eqb_spec (runq_tail (g_cpu_locals s1 c)) 0) as [H0|H0]; wp_steps;
    repeat match goal with H : negb _ = true |- _ => clear H end; cbn; rewrite ?fset_eq; cbn; rewrite ?Htb, ?Hhd by done; try done;
    (apply Hpush; [split; [split; try done; cells|cells|done]|
      apply (runqs_pushed s1 (fun d => without t (q d)) t c); rewrite ?Ht1; try done; try cells; by apply Hroom1]).
Qed.

(** The first task of the queue leaves it. *)
Lemma pop_ok s q c (Q : Z -> ss -> Prop) :
  runqs s q -> is_cpu s c -> (q c = [] -> Q 0 s) ->
  (forall t l s', q c = t :: l -> moved s t (set_on_runq false (s.(tk) t)) s' -> runqs s' (fun d => without t (q d)) -> Q t s') ->
  wp E (task_runq_pop_locked c) Q s.
Proof using.
  intros Hq Hc H0 HQ. unfold task_runq_pop_locked. wp_step. wp_step.
  pose proof (dl_next_first _ _ _ _ _ (rq_dl _ _ Hq c Hc)) as Hn. unfold ring_next in Hn. rewrite fset_eq in Hn. rewrite Hn.
  destruct (q c) as [|t l] eqn:Hl; simpl; [apply wp_ret; auto|].
  assert (Ht : t <> 0) by (apply (rq_in _ _ Hq c t Hc); rewrite Hl; apply list_elem_of_here).
  rewrite (proj2 (Z.eqb_neq t 0) Ht). wp_step. apply (remove_ok s q); [done|done|]. intros s' Hm Hq'. apply wp_ret. by eapply HQ.
Qed.

(** A task changes, but not as far as the queues see it. *)
Lemma upd_task_ok s q t f (Q : unit -> ss -> Prop) :
  runqs s q -> (f (s.(tk) t)).(on_runq) = (s.(tk) t).(on_runq) -> (f (s.(tk) t)).(cpu_affinity) = (s.(tk) t).(cpu_affinity) ->
  ((s.(tk) t).(on_runq) = true -> t <> 0 -> (f (s.(tk) t)).(state) = TASK_READY /\ (f (s.(tk) t)).(pid) <> 0) ->
  (forall s', moved s t (f (s.(tk) t)) s' -> runqs s' q -> Q tt s') -> wp E (upd_task t f) Q s.
Proof using.
  intros Hq Hon Haff Hr HQ. unfold upd_task. wp_step. apply HQ.
  { split; [by split|cells|done]. }
  set (s' := with_tk s _). assert (Htk : tk_is s t (f (tk s t)) s') by (unfold s'; cells).
  assert (Hh : forall y, home s' y = home s y) by (intros y; apply home_same; [done|]; rewrite Htk; destruct (decide (y = t)) as [->|]; done).
  destruct Hq as [H1 H2 H3 H4 H5 H6]. split; [done|done|done|..|done|].
  - intros c y Hc. rewrite (H4 c y Hc), Hh, Htk. destruct (decide (y = t)) as [->|]; [by rewrite Hon|done].
  - intros y Hy. rewrite Htk. destruct (decide (y = t)) as [->|]; [|by apply H6]. intros Hon'. apply Hr; [congruence|done].
Qed.

(** A CPU changes, but not its queue. *)
Lemma runqs_cpus s q f : runqs s q ->
  (forall c, let x := s.(g_cpu_locals) c in let y := f c in
     y.(runq_head) = x.(runq_head) /\ y.(runq_tail) = x.(runq_tail) /\ y.(runq_count) = x.(runq_count)) -> runqs (with_cpus s f) q.
Proof using.
  intros [H1 H2 H3 H4 H5 H6] Hf. split; try done.
  - intros c Hc. unfold ring_next, ring_prev. simpl. destruct (Hf c) as (->&->&_). by apply H2.
  - intros c Hc. simpl. destruct (Hf c) as (_&_&->). by apply H5.
Qed.
(** What the queues are made of has not changed. *)
Lemma runqs_same s q s' : runqs s q ->
  s'.(g_cpu_count) = s.(g_cpu_count) -> s'.(runq_next) = s.(runq_next) -> s'.(runq_prev) = s.(runq_prev) ->
  (forall c, let x := s.(g_cpu_locals) c in let y := s'.(g_cpu_locals) c in
     y.(runq_head) = x.(runq_head) /\ y.(runq_tail) = x.(runq_tail) /\ y.(runq_count) = x.(runq_count)) ->
  (forall t, let x := s.(tk) t in let y := s'.(tk) t in
     y.(on_runq) = x.(on_runq) /\ (x.(on_runq) = true -> y.(cpu_affinity) = x.(cpu_affinity) /\ y.(state) = x.(state) /\ y.(pid) = x.(pid))) -> runqs s' q.
Proof using.
  intros [H1 H2 H3 H4 H5 H6] Hn Hnx Hpv Hc Ht. assert (Hic : forall c, is_cpu s' c <-> is_cpu s c) by (intros c; unfold is_cpu; by rewrite Hn).
  assert (Hh : forall y, on_runq (tk s y) = true -> home s' y = home s y) by (intros y Hy; apply home_same; [done|by apply Ht]). split.
  - by rewrite Hn.
  - intros c Hcc%Hic. unfold ring_next, ring_prev. destruct (Hc c) as (->&->&_). rewrite Hnx, Hpv. by apply H2.
  - intros c Hcc%Hic. by apply H3.
  - intros c y Hcc%Hic. rewrite (H4 c y Hcc). destruct (Ht y) as (->&_). split; intros (?&Hon&He); (split_and!; [done|done|]); by rewrite Hh in *.
  - intros c Hcc%Hic. destruct (Hc c) as (_&_&->). by apply H5.
  - intros y Hy. destruct (Ht y) as (Hon&Hst). rewrite Hon. intros Ho. destruct (Hst Ho) as (_&->&->). by apply H6.
Qed.

(** A task on no queue changes. *)
Lemma runqs_unqueued s q t s' : runqs s q -> (s.(tk) t).(on_runq) = false -> (s'.(tk) t).(on_runq) = false ->
  s'.(g_cpu_count) = s.(g_cpu_count) -> s'.(g_cpu_locals) = s.(g_cpu_locals) -> (forall y, y <> t -> s'.(tk) y = s.(tk) y) ->
  (forall y, y <> t -> s'.(runq_next) y = s.(runq_next) y /\ s'.(runq_prev) y = s.(runq_prev) y) -> runqs s' q.
Proof using.
  intros Hq Hon Hon' Hn Hc Htk Hlk. pose proof Hq as [Q1 Q2 Q3 Q4 Q5 Q6].
  assert (Hic : forall c, is_cpu s' c <-> is_cpu s c) by (intros c; unfold is_cpu; by rewrite Hn).
  assert (Hnq : forall d, is_cpu s d -> t ∉ q d) by (intros d Hd (_&?&_)%(Q4 d t Hd); congruence). split.
  - by rewrite Hn.
  - intros c Hcc%Hic. apply (ring_other s); [done|done|by rewrite Hc|]. intros y Hyq. apply Hlk. intros ->. by apply (Hnq c).
  - intros c Hcc%Hic. auto.
  - intros c y Hcc%Hic. destruct (decide (y = t)) as [->|Hne].
    + split; [intros Hyq; by apply (Hnq c) in Hyq|]. intros (_&?&_). congruence.
    + rewrite (home_same s s' y Hn) by by rewrite Htk. rewrite (Htk y Hne). auto.
  - intros c Hcc%Hic. rewrite Hc. auto.
  - intros y Hy0. destruct (decide (y = t)) as [->|Hne]; [congruence|]. rewrite (Htk y Hne). auto.
Qed.
End ops.
