(* ===== verification/Sched.v ===== *)
(** * The scheduler's invariant

    What holds of the tasks and the CPUs whenever [g_task_lock] is free,
    whatever the CPUs do and in whatever order: no task is current on two CPUs,
    every task that is ready is on exactly the queue of its CPU, every task
    that is running is current somewhere, and a task whose stack is in use is
    marked as such. *)
From S2P Require Import Prelude State Links Task Runq.

(** The singly linked list from [x] through [next]. *)
Fixpoint sl (next : Z -> Z) (x : Z) (l : list Z) : Prop :=
  match l with [] => x = 0 | y :: l => x = y /\ y <> 0 /\ sl next (next y) l end.

Lemma sl_ext next next' x l : (forall y, y ∈ l -> next' y = next y) -> sl next x l -> sl next' x l.
Proof.
  revert x. induction l as [|y l IH]; intros x Hn; [done|]. intros (->&Hy&Hs). split; [done|]. split; [done|].
  rewrite Hn by apply list_elem_of_here. apply IH; [|done]. intros z Hz. apply Hn. by apply list_elem_of_further.
Qed.

Lemma chain_sl fuel next x l : sl next x l -> (length l < fuel)%nat -> chain fuel next x = l.
Proof.
  revert x l. induction fuel as [|fuel IH]; intros x l Hs Hl; [lia|]. destruct l as [|y l]; simpl in *; [by subst|].
  destruct Hs as (->&Hy&Hs). rewrite (proj2 (Z.eqb_neq y 0) Hy). f_equal. apply IH; [done|lia].
Qed.

Definition cur (s : ss) (c : Z) : Z := (s.(g_cpu_locals) c).(current_task).
Definition idle (s : ss) (c : Z) : Z := (s.(g_cpu_locals) c).(idle_task).
Definition from (s : ss) (c : Z) : Z := (s.(g_cpu_locals) c).(switched_from).

(** The task is on a CPU: it runs there, or the CPU has not yet left its stack. *)
Definition uses (s : ss) (c t : Z) : Prop := is_cpu s c /\ (cur s c = t \/ from s c = t).

(** Process 1 runs from the start, without the mark that it is on a CPU. *)
Record inv (s : ss) (q : Z -> list Z) (T : list Z) : Prop := mkInv {
  iv_q : runqs s q;
  iv_list : sl s.(tnext) s.(task_list) T;
  iv_nodup : NoDup T;
  iv_pids : zlen T < s.(next_pid) < 2 ^ 31;
  iv_pid : forall t, t ∈ T -> (s.(tk) t).(pid) <> 0;
  iv_idle : forall c, is_cpu s c -> idle s c <> 0 /\ (idle s c ∉ T) /\ (s.(tk) (idle s c)).(pid) = 0 /\ (s.(tk) (idle s c)).(state) = TASK_RUNNING;
  iv_idle_inj : forall c d, is_cpu s c -> is_cpu s d -> idle s c = idle s d -> c = d;
  iv_on : forall t, t <> 0 -> (s.(tk) t).(on_runq) = true -> t ∈ T;
  iv_cur : forall c, is_cpu s c -> cur s c = idle s c \/ cur s c ∈ T /\ home s (cur s c) = c;
  iv_from : forall c, is_cpu s c -> from s c <> 0 -> from s c <> cur s c /\ (from s c = idle s c \/ from s c ∈ T /\ home s (from s c) = c);
  iv_ready : forall t, t ∈ T -> (s.(tk) t).(state) = TASK_READY -> (s.(tk) t).(on_runq) = true;
  iv_running : forall t, t ∈ T -> (s.(tk) t).(state) = TASK_RUNNING -> exists c, is_cpu s c /\ cur s c = t;
  iv_on_cpu : forall t, t ∈ T -> (s.(tk) t).(pid) <> 1 -> ((s.(tk) t).(on_cpu) = true <-> (exists c, uses s c t)) }.

Lemma iv_task_nz s q T t : inv s q T -> t ∈ T -> t <> 0.
Proof.
  intros Hi Ht. pose proof (iv_list _ _ _ Hi) as Hs. clear Hi. revert Hs. generalize (task_list s). induction T as [|y l IH]; intros x.
  - by apply not_elem_of_nil in Ht.
  - intros (_&Hy&Hs). apply elem_of_cons in Ht as [->|Ht]; [done|]. by eapply IH.
Qed.

Lemma all_tasks_is s q T : inv s q T -> all_tasks s = T.
Proof.
  intros Hi. apply chain_sl; [apply (iv_list _ _ _ Hi)|]. pose proof (iv_pids _ _ _ Hi) as Hp. unfold zlen in Hp. lia.
Qed.

(** A task of the list is on a CPU only if its queue is there. *)
Lemma uses_home s q T c t : inv s q T -> uses s c t -> t ∈ T -> home s t = c.
Proof.
  intros Hi [Hc [He|He]] Ht; subst t.
  - destruct (iv_cur _ _ _ Hi c Hc) as [He|[_ He]]; [|done]. rewrite He in Ht. by destruct (iv_idle _ _ _ Hi c Hc) as (_&?&_).
  - destruct (iv_from _ _ _ Hi c Hc) as [_ [He|[_ He]]]; [by apply (iv_task_nz s q T)| |done].
    rewrite He in Ht. by destruct (iv_idle _ _ _ Hi c Hc) as (_&?&_).
Qed.

(** No task is current on two CPUs. *)
Lemma cur_inj s q T c d : inv s q T -> is_cpu s c -> is_cpu s d -> cur s c = cur s d -> c = d.
Proof.
  intros Hi Hc Hd He. destruct (iv_cur _ _ _ Hi c Hc) as [H1|[H1 H1']], (iv_cur _ _ _ Hi d Hd) as [H2|[H2 H2']].
  - apply (iv_idle_inj _ _ _ Hi); congruence.
  - rewrite <- He, H1 in H2. by destruct (iv_idle _ _ _ Hi c Hc) as (_&?&_).
  - rewrite He, H2 in H1. by destruct (iv_idle _ _ _ Hi d Hd) as (_&?&_).
  - congruence.
Qed.

Lemma queue_room s q T d : inv s q T -> is_cpu s d -> zlen (q d) + 1 < 2 ^ 32.
Proof.
  intros Hi Hd. pose proof (iv_q _ _ _ Hi) as Hq. pose proof (iv_pids _ _ _ Hi) as Hp. unfold zlen in *.
  assert (length (q d) <= length T)%nat; [|lia]. apply submseteq_length, NoDup_submseteq; [by apply (rq_nodup _ _ Hq)|].
  intros x (Hx&Ho&_)%(rq_in _ _ Hq d x Hd). by apply (iv_on _ _ _ Hi).
Qed.

(** ** Keeping the invariant *)

(** One task changes, without leaving or entering a CPU. *)
Lemma inv_moved s q T t x s' q' :
  inv s q T -> t ∈ T -> moved s t x s' -> runqs s' q' -> x.(pid) = (s.(tk) t).(pid) -> x.(on_cpu) = (s.(tk) t).(on_cpu) ->
  (forall c, uses s c t -> home s' t = home s t) -> (x.(state) = TASK_READY -> x.(on_runq) = true) ->
  (x.(state) = TASK_RUNNING -> exists c, is_cpu s c /\ cur s c = t) -> inv s' q' T.
Proof.
  intros Hi Ht [[R1 R2 (R3&R4&R5) R6 R7] Htk _] Hq Hpid Hcpu Hhome Hready Hrun.
  assert (Hic : forall c, is_cpu s' c <-> is_cpu s c) by (intros c; unfold is_cpu; by rewrite R3).
  assert (Hcur : forall c, cur s' c = cur s c) by (intros c; apply R7).
  assert (Hidle : forall c, idle s' c = idle s c) by (intros c; apply R7).
  assert (Hfrom : forall c, from s' c = from s c) by (intros c; apply R7).
  assert (Hh : forall c y, uses s c y -> home s' y = home s y).
  { intros c y Hu. destruct (decide (y = t)) as [->|Hne]; [by apply (Hhome c)|]. apply home_same; [done|]. rewrite Htk. by rewrite decide_False. }
  assert (Hy : forall y, y <> t -> tk s' y = tk s y) by (intros y Hne; rewrite Htk; by rewrite decide_False).
  assert (Hx : tk s' t = x) by (rewrite Htk; by rewrite decide_True). destruct Hi as [I1 I2 I3 I4 I5 I6 I7 I8 I9 I10 I11 I12 I13]. split.
  - done.
  - by rewrite R1, R4.
  - done.
  - by rewrite R5.
  - intros y Hin. destruct (decide (y = t)) as [->|]; [rewrite Hx, Hpid|rewrite Hy by done]; auto.
  - intros c Hc%Hic. rewrite Hidle. destruct (I6 c Hc) as (?&Hni&?&?). rewrite Hy by (intros He; by rewrite He in Hni). done.
  - intros c d Hc%Hic Hd%Hic. rewrite !Hidle. auto.
  - intros y Hy0. destruct (decide (y = t)) as [->|]; [done|]. rewrite Hy by done. auto.
  - intros c Hc%Hic. rewrite Hcur, Hidle, (Hh c) by (split; auto). auto.
  - intros c Hc%Hic. rewrite Hcur, Hidle, Hfrom, (Hh c) by (split; auto). auto.
  - intros y Hin. destruct (decide (y = t)) as [->|]; [by rewrite Hx|rewrite Hy by done]; auto.
  - intros y Hin Hs. assert (Hex : exists c, is_cpu s c /\ cur s c = y).
    { destruct (decide (y = t)) as [->|]; [rewrite Hx in Hs; auto|rewrite Hy in Hs by done; auto]. }
    destruct Hex as (c&Hc&He). exists c. by rewrite Hic, Hcur.
  - intros y Hin Hp1. assert (He : on_cpu (tk s' y) = on_cpu (tk s y)) by (destruct (decide (y = t)) as [->|]; [by rewrite Hx|by rewrite Hy]).
    assert (Hp : pid (tk s' y) = pid (tk s y)) by (destruct (decide (y = t)) as [->|]; [by rewrite Hx|by rewrite Hy]).
    rewrite He, (I13 y Hin) by congruence. unfold uses. split; intros (c&Hc&Hor); exists c; rewrite ?Hcur, ?Hfrom, ?Hic in *; done.
Qed.

Section ops.
Context (E : panic -> Prop) (T : list Z).

(** [t] left its queue and became [x]. *)
Definition left_queue (s : ss) (q : Z -> list Z) (t : Z) (x : task) (s' : ss) : Prop := inv s' (fun d => without t (q d)) T /\ moved s t x s'.

Lemma home_moved s t x s' : moved s t x s' -> x.(cpu_affinity) = (s.(tk) t).(cpu_affinity) -> home s' t = home s t.
Proof using.
  intros [[_ _ (Hn&_&_) _ _] Htk _] Ha. apply home_same; [done|]. rewrite Htk. by rewrite decide_True.
Qed.

(** [t] leaves its queue and gets another state. *)
Lemma leave_ok s q t f g (Q : Z -> ss -> Prop) :
  inv s q T -> t ∈ T -> let x := g (f (set_on_runq false (s.(tk) t))) in
  (forall y, (f y).(on_runq) = y.(on_runq) /\ (f y).(cpu_affinity) = y.(cpu_affinity) /\ (f y).(pid) = y.(pid) /\ (f y).(on_cpu) = y.(on_cpu)) ->
  (forall y, (g y).(on_runq) = y.(on_runq) /\ (g y).(cpu_affinity) = y.(cpu_affinity) /\ (g y).(pid) = y.(pid) /\ (g y).(on_cpu) = y.(on_cpu)) ->
  x.(state) <> TASK_READY -> x.(state) <> TASK_RUNNING -> (forall s', left_queue s q t x s' -> Q 0 s') ->
  wp E (task_runq_remove_locked t;; upd_task t f;; upd_task t g;; mret 0) Q s.
Proof using.
  intros Hi Ht x Hf Hg Hr1 Hr2 HQ. pose proof (iv_task_nz _ _ _ _ Hi Ht) as Ht0.
  wp_step. apply (remove_ok E s q); [apply Hi|done|]. intros s1 Hm1 Hq1.
  assert (H1 : tk s1 t = set_on_runq false (tk s t)) by (rewrite (md_tk _ _ _ _ Hm1); by rewrite decide_True).
  wp_step. apply (upd_task_ok E s1 (fun d => without t (q d))); [done|apply Hf|apply Hf|by rewrite H1|]. rewrite H1. intros s2 Hm2 Hq2.
  assert (H2 : tk s2 t = f (set_on_runq false (tk s t))) by (rewrite (md_tk _ _ _ _ Hm2); by rewrite decide_True).
  destruct (Hf (set_on_runq false (tk s t))) as (F1&F2&F3&F4). destruct (Hg (f (set_on_runq false (tk s t)))) as (G1&G2&G3&G4).
  wp_step. apply (upd_task_ok E s2 (fun d => without t (q d))); [done|apply Hg|apply Hg|rewrite H2, F1; done|]. rewrite H2. fold x. intros s3 Hm3 Hq3.
  apply wp_ret, HQ. assert (Hm : moved s t x s3) by (eapply moved_trans; [exact Hm1|eapply moved_trans; [exact Hm2|exact Hm3]]).
  split; [|done]. fold x in G1, G2, G3, G4.
  apply (inv_moved s q T t x); try done; [by rewrite G3, F3|by rewrite G4, F4|intros _ _; apply (home_moved s t x); [done|by rewrite G2, F2]].
Qed.

Lemma sleeping_ok s q t (Q : Z -> ss -> Prop) : inv s q T -> t ∈ T ->
  (forall s', left_queue s q t (set_state TASK_SLEEPING (set_sleep 0 (set_on_runq false (s.(tk) t)))) s' -> Q 0 s') -> wp E (task_mark_sleeping t) Q s.
Proof using.
  intros Hi Ht HQ. unfold task_mark_sleeping. rewrite (proj2 (Z.eqb_neq t 0) (iv_task_nz _ _ _ _ Hi Ht)).
  by apply (leave_ok s q).
Qed.
Lemma io_wait_ok s q t (Q : Z -> ss -> Prop) : inv s q T -> t ∈ T ->
  (forall s', left_queue s q t (set_state TASK_IO_WAIT (set_sleep 0 (set_on_runq false (s.(tk) t)))) s' -> Q 0 s') -> wp E (task_mark_io_wait t) Q s.
Proof using.
  intros Hi Ht HQ. unfold task_mark_io_wait. rewrite (proj2 (Z.eqb_neq t 0) (iv_task_nz _ _ _ _ Hi Ht)).
  by apply (leave_ok s q).
Qed.
Lemma io_until_ok s q t ms (Q : Z -> ss -> Prop) : inv s q T -> t ∈ T ->
  (forall s', left_queue s q t (set_state TASK_IO_WAIT (set_sleep ms (set_on_runq false (s.(tk) t)))) s' -> Q 0 s') -> wp E (task_mark_io_wait_until t ms) Q s.
Proof using.
  intros Hi Ht HQ. unfold task_mark_io_wait_until. rewrite (proj2 (Z.eqb_neq t 0) (iv_task_nz _ _ _ _ Hi Ht)).
  by apply (leave_ok s q).
Qed.
Lemma zombie_ok s q t st (Q : Z -> ss -> Prop) : inv s q T -> t ∈ T ->
  (forall s', left_queue s q t (set_state TASK_ZOMBIE (set_exit st (set_on_runq false (s.(tk) t)))) s' -> Q 0 s') -> wp E (task_mark_zombie t st) Q s.
Proof using.
  intros Hi Ht HQ. unfold task_mark_zombie. rewrite (proj2 (Z.eqb_neq t 0) (iv_task_nz _ _ _ _ Hi Ht)).
  by apply (leave_ok s q).
Qed.

(** A task is put at the end of the queue of a CPU. *)
Lemma ready_q_ok s q t cpu (Q : Z -> ss -> Prop) :
  runqs s q -> t <> 0 -> (s.(tk) t).(pid) <> 0 -> 0 <= cpu -> (forall d, is_cpu s d -> zlen (q d) + 1 < 2 ^ 32) ->
  let c := normalize_cpu_affinity s cpu in
  (gone (s.(tk) t).(state) = true -> Q (-1) s) ->
  (forall s', gone (s.(tk) t).(state) = false -> runqs s' (queue_after s q t c) ->
     moved s t (set_on_runq true (set_affinity c (set_sleep 0 (set_state TASK_READY (s.(tk) t))))) s' -> Q 0 s') ->
  wp E (task_mark_ready_on_cpu_locked t cpu) Q s.
Proof using.
  intros Hq Ht0 Hpid Hcpu Hroom c Hgone HQ. unfold task_mark_ready_on_cpu_locked. wp_step. wp_step. unfold task_is_idle_task.
  rewrite (proj2 (Z.eqb_neq t 0) Ht0), (proj2 (Z.eqb_neq _ 0) Hpid). simpl andb. cbv iota.
  destruct (gone (state (tk s t))) eqn:Hg; [apply wp_ret; auto|].
  wp_step. apply (upd_task_ok E s q); [done|done|done|done|]. intros s1 Hm1 Hq1.
  assert (H1 : tk s1 t = set_state TASK_READY (tk s t)) by (rewrite (md_tk _ _ _ _ Hm1); by rewrite decide_True).
  wp_step. apply (upd_task_ok E s1 q); [done|done|done|by rewrite H1|]. rewrite H1. intros s2 Hm2 Hq2.
  assert (H2 : tk s2 t = set_sleep 0 (set_state TASK_READY (tk s t))) by (rewrite (md_tk _ _ _ _ Hm2); by rewrite decide_True).
  assert (Hm12 : moved s t (set_sleep 0 (set_state TASK_READY (tk s t))) s2) by (by eapply moved_trans).
  assert (Hn : g_cpu_count s2 = g_cpu_count s) by apply (rs_vars _ _ (md_rest _ _ _ _ Hm12)).
  assert (Hnorm : normalize_cpu_affinity s2 cpu = c) by (unfold c, normalize_cpu_affinity, task_get_cpu_count; by rewrite Hn).
  wp_step. apply (push_ok E s2 q); rewrite ?H2; try done.
  { intros d Hd. apply Hroom. unfold is_cpu in *. by rewrite <- Hn. }
  rewrite Hnorm. intros s3 Hm3 Hq3. apply wp_ret. apply HQ; [done|done|by eapply moved_trans].
Qed.

(** The CPU a task gets is the one asked for. *)
Lemma home_given s t x s' c : moved s t x s' -> 1 <= s.(g_cpu_count) <= ORTHOX_MAX_CPUS -> is_cpu s c -> x.(cpu_affinity) = c -> home s' t = c.
Proof using.
  intros [[_ _ (Hn&_&_) _ _] Htk _] Hcp Hc <-. unfold home, task_normalize_cpu_affinity_internal. rewrite Htk, decide_True by done.
  assert (Hcp' := Hcp). change ORTHOX_MAX_CPUS with 64 in Hcp'. rewrite u32_small by (unfold is_cpu in Hc; lia).
  unfold normalize_cpu_affinity, task_get_cpu_count. rewrite Hn. apply (normalize_cpu s Hcp _ Hc).
Qed.

(** A task is made ready on the queue of a CPU; if it is on a CPU, of that one. *)
Lemma mark_ready_ok s q t cpu (Q : Z -> ss -> Prop) :
  inv s q T -> t ∈ T -> 0 <= cpu -> let c := normalize_cpu_affinity s cpu in (forall d, uses s d t -> c = home s t) ->
  (gone (s.(tk) t).(state) = true -> Q (-1) s) ->
  (forall s', gone (s.(tk) t).(state) = false -> inv s' (queue_after s q t c) T ->
     moved s t (set_on_runq true (set_affinity c (set_sleep 0 (set_state TASK_READY (s.(tk) t))))) s' -> Q 0 s') ->
  wp E (task_mark_ready_on_cpu_locked t cpu) Q s.
Proof using.
  intros Hi Ht Hcpu c Hu Hgone HQ. pose proof (iv_q _ _ _ Hi) as Hq. pose proof (rq_cpus _ _ Hq) as Hcp.
  apply (ready_q_ok s q); [done|by eapply iv_task_nz|by apply (iv_pid _ _ _ Hi)|done|intros d; by apply (queue_room s q T)|done|].
  intros s' Hg Hq' Hm. apply HQ; [done| |done].
  eapply (inv_moved s q T t); [done|done|exact Hm|exact Hq'|done|done| |done|done].
  intros d Hd. rewrite <- (Hu d Hd). apply (home_given s t _ s' c Hm Hcp); [by apply normalize_range|done].
Qed.

Lemma wake_ok s q t (Q : Z -> ss -> Prop) :
  inv s q T -> t ∈ T -> (gone (s.(tk) t).(state) = true -> Q (-1) s) ->
  (forall s', gone (s.(tk) t).(state) = false -> inv s' (queue_after s q t (home s t)) T ->
     moved s t (set_on_runq true (set_affinity (home s t) (set_sleep 0 (set_state TASK_READY (s.(tk) t))))) s' -> Q 0 s') ->
  wp E (task_wake_locked t) Q s.
Proof using.
  intros Hi Ht Hgone HQ. unfold task_wake_locked. wp_step. wp_step. rewrite (proj2 (Z.eqb_neq t 0) (iv_task_nz _ _ _ _ Hi Ht)).
  destruct (gone (state (tk s t))) eqn:Hg; [apply wp_ret; auto|].
  wp_step. apply (upd_task_ok E s q); [apply Hi|done|done| |].
  { intros Hon Ht0. apply (rq_ready _ _ (iv_q _ _ _ Hi) t Ht0 Hon). }
  intros s1 Hm1 Hq1.
  assert (H1 : tk s1 t = set_sleep 0 (tk s t)) by (rewrite (md_tk _ _ _ _ Hm1); by rewrite decide_True).
  assert (Hi1 : inv s1 q T).
  { apply (inv_moved s q T t (set_sleep 0 (tk s t))); try done; [intros _ _; by apply (home_moved s t _ s1 Hm1)|by apply (iv_ready _ _ _ Hi)|by apply (iv_running _ _ _ Hi)]. }
  assert (Hn : g_cpu_count s1 = g_cpu_count s) by apply (rs_vars _ _ (md_rest _ _ _ _ Hm1)).
  assert (Hc : normalize_cpu_affinity s1 (u32 (cpu_affinity (tk s t))) = home s t).
  { unfold home, task_normalize_cpu_affinity_internal, normalize_cpu_affinity, task_get_cpu_count. by rewrite Hn. }
  apply (mark_ready_ok s1 q); [done|done|apply u32_range| |rewrite H1; simpl; by rewrite Hg|]; rewrite Hc.
  - intros d _. symmetry. by apply (home_moved s t _ s1 Hm1).
  - rewrite H1. intros s2 _ Hi2 Hm2. apply HQ; [done|done|]. eapply moved_trans; [exact Hm1|exact Hm2].
Qed.
End ops.
