(* ===== verification/Switch.v ===== *)
(** * The context switch

    [schedule] and [task_finish_switch] keep the scheduler's invariant, and
    [schedule] takes the task at the head of its CPU's queue. *)
From S2P Require Import Prelude State Links Task Runq Sched.

(** The CPU [me] goes from its current task to [next]. *)
Record switched (s : ss) (T : list Z) (me next : Z) (s' : ss) : Prop := mkSwitched {
  sw_tnext : s'.(tnext) = s.(tnext);
  sw_vars : s'.(g_cpu_count) = s.(g_cpu_count) /\ s'.(task_list) = s.(task_list) /\ s'.(next_pid) = s.(next_pid);
  sw_cur : forall d, cur s' d = if decide (d = me) then next else cur s d;
  sw_from : forall d, from s' d = if decide (d = me) then cur s me else from s d;
  sw_idle : forall d, idle s' d = idle s d;
  sw_other : forall y, y <> next -> y <> cur s me -> s'.(tk) y = s.(tk) y;
  sw_next : let x := s.(tk) next in let y := s'.(tk) next in
    y.(state) = TASK_RUNNING /\ y.(on_cpu) = true /\ y.(on_runq) = false /\ y.(pid) = x.(pid) /\ y.(cpu_affinity) = x.(cpu_affinity);
  sw_prev : let x := s.(tk) (cur s me) in let y := s'.(tk) (cur s me) in
    y = x /\ (x.(state) <> TASK_RUNNING \/ cur s me = idle s me) \/
    cur s me ∈ T /\ x.(state) = TASK_RUNNING /\ y.(state) = TASK_READY /\ y.(on_runq) = true /\ y.(pid) = x.(pid) /\ y.(on_cpu) = x.(on_cpu) /\ home s' (cur s me) = home s (cur s me) }.

Section switch.
Context (s : ss) (q : Z -> list Z) (T : list Z) (me next : Z) (s' : ss) (q' : Z -> list Z).
Context (Hi : inv s q T) (Hme : is_cpu s me) (Hfrom : from s me = 0) (Hcn : next <> cur s me) (Hn0 : next <> 0).
Context (Hnext : next = idle s me \/ next ∈ T /\ home s next = me) (Hsw : switched s T me next s').

Lemma sw_cpu c : is_cpu s' c <-> is_cpu s c.
Proof using Hsw. unfold is_cpu. by rewrite (proj1 (sw_vars _ _ _ _ _ Hsw)). Qed.

Lemma sw_home y : home s' y = home s y.
Proof using Hsw.
  pose proof (proj1 (sw_vars _ _ _ _ _ Hsw)) as Hc.
  destruct (decide (y = next)) as [->|Hn]; [apply home_same; [done|apply Hsw]|].
  destruct (decide (y = cur s me)) as [->|Hp]; [|apply home_same; [done|]; by rewrite (sw_other _ _ _ _ _ Hsw)].
  destruct (sw_prev _ _ _ _ _ Hsw) as [[He _]|(_&_&_&_&_&_&He)]; [apply home_same; [done|by rewrite He]|done].
Qed.

Lemma sw_pid y : (s'.(tk) y).(pid) = (s.(tk) y).(pid).
Proof using Hsw.
  destruct (decide (y = next)) as [->|Hn]; [apply Hsw|].
  destruct (decide (y = cur s me)) as [->|Hp]; [|by rewrite (sw_other _ _ _ _ _ Hsw)].
  destruct (sw_prev _ _ _ _ _ Hsw) as [[He _]|(_&_&_&_&He&_)]; [by rewrite He|done].
Qed.

Lemma sw_idle_state c : is_cpu s c -> (s'.(tk) (idle s c)).(state) = TASK_RUNNING.
Proof using Hsw Hi.
  intros Hc. destruct (iv_idle _ _ _ Hi c Hc) as (_&Hni&_&Hst).
  destruct (decide (idle s c = next)) as [->|Hn]; [apply Hsw|].
  destruct (decide (idle s c = cur s me)) as [He|Hp]; [|by rewrite (sw_other _ _ _ _ _ Hsw)].
  destruct (sw_prev _ _ _ _ _ Hsw) as [[Hx _]|(Hin&_)]; [by rewrite He, Hx, <- He|]. by rewrite <- He in Hin.
Qed.

Lemma sw_on_cpu y : y ∈ T -> (s'.(tk) y).(pid) <> 1 -> (s'.(tk) y).(on_cpu) = true <-> exists c, uses s' c y.
Proof using Hsw Hi Hme Hfrom Hcn.
  rewrite sw_pid. intros Hy Hp1. assert (Hy0 : y <> 0) by by eapply iv_task_nz.
  destruct (decide (y = next)) as [->|Hn].
  { split; intros _; [|apply Hsw]. exists me. split; [by apply sw_cpu|]. left. rewrite (sw_cur _ _ _ _ _ Hsw). by rewrite decide_True. }
  destruct (decide (y = cur s me)) as [He|Hp].
  { split; intros _; [exists me; split; [by apply sw_cpu|]; right; rewrite (sw_from _ _ _ _ _ Hsw); by rewrite decide_True|].
    assert (Hx : on_cpu (tk s y) = true) by (apply (iv_on_cpu _ _ _ Hi y Hy Hp1); exists me; split; auto).
    rewrite He in Hx |- *. destruct (sw_prev _ _ _ _ _ Hsw) as [[-> _]|(_&_&_&_&_&->&_)]; done. }
  rewrite (sw_other _ _ _ _ _ Hsw) by done. rewrite (iv_on_cpu _ _ _ Hi y Hy Hp1). unfold uses.
  split; intros (c&Hc&Hor); exists c; (split; [by apply sw_cpu|]); rewrite (sw_cur _ _ _ _ _ Hsw), (sw_from _ _ _ _ _ Hsw) in *.
  - destruct (decide (c = me)) as [->|]; [|done]. destruct Hor; congruence.
  - destruct (decide (c = me)) as [->|]; [|done]. destruct Hor; congruence.
Qed.

Lemma inv_switch : runqs s' q' -> inv s' q' T.
Proof using Hsw Hi Hme Hfrom Hcn Hn0 Hnext.
  intros Hq. pose proof (sw_next _ _ _ _ _ Hsw) as (N1&N2&N3&_&_). pose proof (sw_prev _ _ _ _ _ Hsw) as Hprev. cbv zeta in Hprev.
  pose proof (sw_other _ _ _ _ _ Hsw) as Hoth. destruct (sw_vars _ _ _ _ _ Hsw) as (_&V2&V3).
  assert (Hpi : cur s me ∈ T -> cur s me <> idle s me) by (intros Hin He; rewrite He in Hin; by destruct (iv_idle _ _ _ Hi me Hme) as (_&?&_)).
  split.
  - done.
  - rewrite V2, (sw_tnext _ _ _ _ _ Hsw). apply Hi.
  - apply Hi.
  - rewrite V3. apply Hi.
  - intros y Hy. rewrite sw_pid. by apply (iv_pid _ _ _ Hi).
  - intros c Hc%sw_cpu. rewrite (sw_idle _ _ _ _ _ Hsw), sw_pid, sw_idle_state by done. by destruct (iv_idle _ _ _ Hi c Hc) as (?&?&?&_).
  - intros c d Hc%sw_cpu Hd%sw_cpu. rewrite !(sw_idle _ _ _ _ _ Hsw). by apply (iv_idle_inj _ _ _ Hi).
  - intros y Hy0 Hon. destruct (decide (y = next)) as [->|Hn]; [congruence|].
    destruct (decide (y = cur s me)) as [->|Hp]; [|rewrite Hoth in Hon by done; by apply (iv_on _ _ _ Hi)].
    destruct Hprev as [[He _]|[? _]]; [|done]. rewrite He in Hon. by apply (iv_on _ _ _ Hi).
  - intros c Hc%sw_cpu. rewrite (sw_cur _ _ _ _ _ Hsw), (sw_idle _ _ _ _ _ Hsw), sw_home.
    destruct (decide (c = me)) as [->|]; [done|]. by apply (iv_cur _ _ _ Hi).
  - intros c Hc%sw_cpu. rewrite (sw_cur _ _ _ _ _ Hsw), (sw_idle _ _ _ _ _ Hsw), (sw_from _ _ _ _ _ Hsw), sw_home.
    destruct (decide (c = me)) as [->|]; [|by apply (iv_from _ _ _ Hi)]. intros _. split; [done|]. by apply (iv_cur _ _ _ Hi).
  - intros y Hy Hst. destruct (decide (y = next)) as [->|Hn]; [congruence|].
    destruct (decide (y = cur s me)) as [->|Hp]; [|rewrite Hoth in * by done; by apply (iv_ready _ _ _ Hi)].
    destruct Hprev as [[He _]|(_&_&_&?&_)]; [|done]. rewrite He in *. by apply (iv_ready _ _ _ Hi).
  - intros y Hy Hst. destruct (decide (y = next)) as [->|Hn].
    { exists me. split; [by apply sw_cpu|]. rewrite (sw_cur _ _ _ _ _ Hsw). by rewrite decide_True. }
    destruct (decide (y = cur s me)) as [->|Hp].
    { exfalso. destruct Hprev as [[He [?|?]]|(_&_&?&_)]; [congruence|by apply Hpi|congruence]. }
    rewrite Hoth in Hst by done. destruct (iv_running _ _ _ Hi y Hy Hst) as (c&Hc&He). exists c. split; [by apply sw_cpu|].
    rewrite (sw_cur _ _ _ _ _ Hsw), decide_False; [done|]. intros ->. congruence.
  - apply sw_on_cpu.
Qed.
End switch.

(** ** [task_finish_switch] *)

Record finished (s : ss) (me : Z) (s' : ss) : Prop := mkFinished {
  fi_tnext : s'.(tnext) = s.(tnext);
  fi_vars : s'.(g_cpu_count) = s.(g_cpu_count) /\ s'.(task_list) = s.(task_list) /\ s'.(next_pid) = s.(next_pid);
  fi_cpu : forall d, cur s' d = cur s d /\ idle s' d = idle s d /\ from s' d = if decide (d = me) then 0 else from s d;
  fi_tk : forall y, s'.(tk) y = if decide (y = from s me /\ from s me <> 0) then set_on_cpu false (s.(tk) y) else s.(tk) y }.

(** The task left is on no CPU any more. *)
Lemma left_unused s q T me c : inv s q T -> is_cpu s me -> from s me <> 0 -> from s me ∈ T -> uses s c (from s me) -> c = me /\ cur s c <> from s me.
Proof.
  intros Hi Hme Hf Hin Hu. assert (Hc : c = me).
  { rewrite <- (uses_home s q T c _ Hi Hu Hin). apply (uses_home s q T); [done|split; auto|done]. }
  split; [done|]. rewrite Hc. intros He. destruct (iv_from _ _ _ Hi me Hme Hf) as [? _]. congruence.
Qed.

Lemma inv_finished s q T me s' q' : inv s q T -> is_cpu s me -> finished s me s' -> runqs s' q' -> inv s' q' T.
Proof.
  intros Hi Hme [F1 (F2&F3&F4) F5 F6] Hq.
  assert (Hic : forall c, is_cpu s' c <-> is_cpu s c) by (intros c; unfold is_cpu; by rewrite F2).
  assert (Hf : forall y, pid (tk s' y) = pid (tk s y) /\ state (tk s' y) = state (tk s y) /\ on_runq (tk s' y) = on_runq (tk s y) /\
                         cpu_affinity (tk s' y) = cpu_affinity (tk s y)) by (intros y; rewrite F6; by destruct (decide _)).
  assert (Hh : forall y, home s' y = home s y) by (intros y; apply home_same; [done|apply Hf]).
  pose proof (left_unused s q T me) as Hleft. pose proof Hi as [I1 I2 I3 I4 I5 I6 I7 I8 I9 I10 I11 I12 I13]. split.
  - done.
  - by rewrite F1, F3.
  - done.
  - by rewrite F4.
  - intros y Hy. destruct (Hf y) as (->&_). auto.
  - intros c Hc%Hic. destruct (F5 c) as (_&->&_). destruct (Hf (idle s c)) as (->&->&_). auto.
  - intros c d Hc%Hic Hd%Hic. destruct (F5 c) as (_&->&_), (F5 d) as (_&->&_). auto.
  - intros y Hy. destruct (Hf y) as (_&_&->&_). auto.
  - intros c Hc%Hic. destruct (F5 c) as (->&->&_). rewrite Hh. auto.
  - intros c Hc%Hic. destruct (F5 c) as (->&->&->). rewrite Hh. destruct (decide (c = me)); [done|auto].
  - intros y Hy. destruct (Hf y) as (_&->&->&_). auto.
  - intros y Hy. destruct (Hf y) as (_&->&_). intros Hs. destruct (I12 y Hy Hs) as (c&Hc&He). exists c. rewrite Hic. by destruct (F5 c) as (->&_).
  - intros y Hy. destruct (Hf y) as (->&_). intros Hp1. rewrite F6. destruct (decide _) as [[-> Hf0]|Hny]; simpl.
    + split; [done|]. intros (c&Hc%Hic&Hor). exfalso. destruct (F5 c) as (Hc1&_&Hc2). rewrite Hc1, Hc2 in Hor.
      assert (Hu : uses s c (from s me)) by (split; [done|destruct (decide (c = me)) as [->|]; destruct Hor; auto]).
      destruct (Hleft c Hi Hme Hf0 Hy Hu) as [-> Hn]. rewrite decide_True in Hor by done. destruct Hor; congruence.
    + rewrite (I13 y Hy Hp1). unfold uses. assert (Hy0 : y <> 0) by by eapply iv_task_nz.
      split; intros (c&Hc&Hor); exists c; rewrite Hic in *; (split; [done|]); destruct (F5 c) as (Hc1&_&Hc2); rewrite ?Hc1, ?Hc2 in *;
        destruct (decide (c = me)) as [->|]; auto; destruct Hor as [?|He]; auto; [|congruence]. exfalso. apply Hny. split; congruence.
Qed.

Section ops.
Context (E : panic -> Prop) (T : list Z).

Lemma finish_ok s q me (Q : unit -> ss -> Prop) :
  inv s q T -> is_cpu s me -> (forall s', inv s' q T -> finished s me s' -> Q tt s') -> wp E (task_finish_switch me) Q s.
Proof using.
  intros Hi Hme HQ. unfold task_finish_switch. wp_step. wp_step. fold (from s me). destruct (Z.eqb_spec (from s me) 0) as [H0|H0].
  - apply wp_ret. apply HQ; [done|]. split; try done.
    + intros d. split_and!; [done|done|]. destruct (decide (d = me)) as [->|]; done.
    + intros y. rewrite decide_False; [done|]. by intros [_ ?].
  - unfold upd_cpu. wp_step. wp_step.
    set (s1 := with_cpus s _). assert (Hq1 : runqs s1 q).
    { apply runqs_cpus; [apply Hi|]. intros c. cbv zeta. rewrite fset_spec. destruct (decide (c = me)) as [->|]; done. }
    assert (Hfin : forall s2, moved s1 (from s me) (set_on_cpu false (tk s1 (from s me))) s2 -> finished s me s2).
    { intros s2 [[R1 R2 (R3&R4&R5) R6 R7] Htk _]. split; try done.
      - intros d. destruct (R7 d) as (G1&G2&G3). cbv zeta in *. unfold cur, idle, from. rewrite G1, G2, G3. unfold s1. simpl. rewrite !fset_spec. by destruct (decide (d = me)) as [->|].
      - intros y. rewrite Htk. unfold s1. simpl. destruct (decide (y = from s me)) as [->|Hne]; [by rewrite decide_True|]. rewrite decide_False; [done|]. by intros [? _]. }
    apply (upd_task_ok E s1 q); [done|done|done|intros Hon Hy0; by apply (rq_ready _ _ (iv_q _ _ _ Hi) _ Hy0 Hon)|]. intros s2 Hm2 Hq2.
    apply HQ; [|by apply Hfin]. eapply inv_finished; [exact Hi|done|by apply Hfin|done].
Qed.
(** ** [schedule] *)

(** The task goes back to the queue. *)
Definition preempted (s : ss) (me : Z) : Prop := (s.(tk) (cur s me)).(state) = TASK_RUNNING /\ cur s me <> idle s me.
#[export] Instance preempted_dec s me : Decision (preempted s me).
Proof. unfold preempted. apply _. Defined.

(** The queues and the current tasks after [schedule]. *)
Record scheduled (s : ss) (q : Z -> list Z) (me : Z) (b : bool) (s' : ss) (q' : Z -> list Z) : Prop := mkScheduled {
  sd_cpus : s'.(g_cpu_count) = s.(g_cpu_count);
  sd_other : forall d, is_cpu s d -> d <> me -> q' d = q d /\ cur s' d = cur s d;
  sd_me : match q me with
          | [] => q' me = [] /\ cur s' me = (if decide ((s.(tk) (cur s me)).(state) = TASK_RUNNING) then cur s me else idle s me)
          | t :: l => q' me = l ++ (if decide (preempted s me) then [cur s me] else []) /\ cur s' me = t
          end;
  sd_state : forall y, (s'.(tk) y).(state) =
    if decide (y = cur s' me) then TASK_RUNNING else if decide (y = cur s me /\ preempted s me) then TASK_READY else (s.(tk) y).(state);
  sd_switched : b = bool_decide (cur s' me <> cur s me) }.

(** The writes of the switch itself. *)
Definition switch_to (me current next : Z) : ST ss bool :=
  upd_cpu me (set_current next);;
  upd_task next (set_on_runq false);;
  upd_task next (set_state TASK_RUNNING);;
  upd_task next (fun t => if t.(timeslice_ticks) <=? 0 then set_ticks TASK_TIMESLICE_TICKS t else t);;
  upd_task next (set_on_cpu true);;
  upd_cpu me (set_from current);;
  mret true.

(** [s1]: after the queue gave [next]; [s2]: after the current task went back to it. *)
Lemma switch_to_ok s s2 q q' me next (Q : bool -> ss -> Prop) :
  inv s q T -> is_cpu s me -> from s me = 0 -> next <> cur s me -> next <> 0 ->
  (next = idle s me \/ next ∈ T /\ home s next = me) ->
  rest s s2 -> runqs s2 q' -> (s2.(tk) next).(on_runq) = false ->
  (s2.(tk) next).(pid) = (s.(tk) next).(pid) -> (s2.(tk) next).(cpu_affinity) = (s.(tk) next).(cpu_affinity) ->
  (forall y, y <> next -> y <> cur s me -> s2.(tk) y = s.(tk) y) ->
  (let x := s.(tk) (cur s me) in let y := s2.(tk) (cur s me) in
    y = x /\ (x.(state) <> TASK_RUNNING \/ cur s me = idle s me) \/
    cur s me ∈ T /\ x.(state) = TASK_RUNNING /\ y.(state) = TASK_READY /\ y.(on_runq) = true /\ y.(pid) = x.(pid) /\ y.(on_cpu) = x.(on_cpu) /\ home s2 (cur s me) = home s (cur s me)) ->
  (forall s', inv s' q' T -> switched s T me next s' -> Q true s') ->
  wp E (switch_to me (cur s me) next) Q s2.
Proof using.
  intros Hi Hme Hf Hcn Hn0 Hnext [R1 R2 (R3&R4&R5) R6 R7] Hq Hon Hpid Haff Hoth Hprev HQ.
  assert (Hsw : forall s', switched s T me next s' -> runqs s' q' -> Q true s').
  { intros s' Hs' Hq'. apply HQ; [|done]. by apply (inv_switch s q T me next). }
  unfold switch_to, upd_cpu, upd_task. wp_steps. apply Hsw; clear Hsw HQ.
  - split; simpl; try done.
    + intros d. unfold cur. simpl. rewrite !fset_spec. destruct (decide (d = me)) as [->|]; [by rewrite ?decide_True|apply R7].
    + intros d. unfold from. simpl. rewrite !fset_spec. destruct (decide (d = me)) as [->|]; [done|apply R7].
    + intros d. unfold idle. simpl. rewrite !fset_spec. destruct (decide (d = me)) as [->|]; rewrite ?decide_True by done; apply R7.
    + intros y H1 H2. rewrite !fset_ne by done. auto.
    + rewrite !fset_eq. simpl. case_match; simpl; done.
    + cbv zeta in Hprev. rewrite !fset_ne by done. destruct Hprev as [Hp|(P1&P0&P2&P3&P4&P5&P6)]; [by left|right].
      split_and!; try done. rewrite <- P6. apply home_same; [done|]. simpl. by rewrite !fset_ne.
  - eapply runqs_same; [exact Hq|done|done|done| |].
    + intros d. simpl. rewrite !fset_spec. destruct (decide (d = me)) as [->|]; rewrite ?decide_True by done; done.
    + intros y. simpl. destruct (decide (y = next)) as [->|Hy]; [|by rewrite !fset_ne]. rewrite !fset_eq. simpl.
      rewrite Hon. split; [|done]. by case_match.
Qed.
Lemma without_head t l : NoDup (t :: l) -> without t (t :: l) = l.
Proof using. intros Hnd. apply (without_app t [] l Hnd). Qed.

(** The task a CPU runs, if it is to go back to the queue, is on none. *)
Lemma running_unqueued s q t d : runqs s q -> (s.(tk) t).(state) = TASK_RUNNING -> is_cpu s d -> t ∉ q d.
Proof using. intros Hq Hst Hd (H0&Hon&_)%(rq_in _ _ Hq d t Hd). destruct (rq_ready _ _ Hq t H0 Hon). congruence. Qed.

Lemma idle_pid s q c t : inv s q T -> is_cpu s c -> cur s c = t -> task_is_idle_task s t = bool_decide (t = idle s c).
Proof using.
  intros Hi Hc <-. unfold task_is_idle_task. destruct (iv_idle _ _ _ Hi c Hc) as (H0&Hni&Hpid&_).
  destruct (iv_cur _ _ _ Hi c Hc) as [->|[Hin _]].
  - rewrite Hpid, (proj2 (Z.eqb_neq _ _) H0). by rewrite bool_decide_true.
  - rewrite (proj2 (Z.eqb_neq (pid _) 0) (iv_pid _ _ _ Hi _ Hin)), andb_false_r. symmetry. apply bool_decide_eq_false. intros He. by rewrite He in Hin.
Qed.
Lemma idle_unqueued s q c : inv s q T -> is_cpu s c -> (s.(tk) (idle s c)).(on_runq) = false.
Proof using.
  intros Hi Hc. destruct (iv_idle _ _ _ Hi c Hc) as (H0&Hni&_). destruct (on_runq _) eqn:Hon; [|done]. by destruct Hni; apply (iv_on _ _ _ Hi).
Qed.

(** The states after a switch. *)
Lemma switched_state s q me next s' y : inv s q T -> is_cpu s me -> switched s T me next s' ->
  (s'.(tk) y).(state) = if decide (y = cur s' me) then TASK_RUNNING else if decide (y = cur s me /\ preempted s me) then TASK_READY else (s.(tk) y).(state).
Proof using.
  intros Hi Hme Hsw. assert (Hcur : cur s' me = next) by (rewrite (sw_cur _ _ _ _ _ Hsw); by rewrite decide_True). rewrite Hcur. clear Hcur.
  destruct (decide (y = next)) as [->|Hn]; [apply Hsw|]. pose proof (sw_prev _ _ _ _ _ Hsw) as Hp. cbv zeta in Hp.
  destruct (decide (y = cur s me)) as [->|Hc]; [|rewrite (sw_other _ _ _ _ _ Hsw) by done; by rewrite decide_False by tauto].
  destruct (iv_idle _ _ _ Hi me Hme) as (_&Hni&_). unfold preempted. destruct Hp as [[-> Hnp]|(Hin&Hr&->&_)].
  - rewrite decide_False; [done|]. tauto.
  - rewrite decide_True; [done|]. split_and!; [done|done|]. intros He. by rewrite He in Hin.
Qed.

Section pick.
Context (s : ss) (q : Z -> list Z) (me : Z) (Q : bool -> ss -> Prop).
Context (Hi : inv s q T) (Hme : is_cpu s me) (Hfrom : from s me = 0).
Context (HQ : forall b s' q', inv s' q' T -> scheduled s q me b s' q' -> Q b s').

(** The queue is empty and the current task gives up the CPU. *)
Lemma pick_idle : q me = [] -> (s.(tk) (cur s me)).(state) <> TASK_RUNNING -> wp E (switch_to me (cur s me) (idle s me)) Q s.
Proof using Hi Hme Hfrom HQ.
  intros Hq Hst. destruct (iv_idle _ _ _ Hi me Hme) as (H0&Hni&Hpid&Hrun).
  assert (Hne : idle s me <> cur s me) by congruence.
  apply (switch_to_ok s s q q); auto; [apply rest_refl|apply Hi|by apply (idle_unqueued s q)|].
  intros s' Hi' Hsw. apply (HQ true s' q Hi'). pose proof (sw_cur _ _ _ _ _ Hsw) as Hcur. split.
  - apply (sw_vars _ _ _ _ _ Hsw).
  - intros d Hd Hdm. rewrite Hcur. by rewrite decide_False.
  - rewrite Hq, Hcur. rewrite decide_True by done. by rewrite decide_False.
  - intros y. by eapply switched_state.
  - rewrite Hcur, decide_True by done. by rewrite bool_decide_true.
Qed.

Context (t : Z) (l : list Z) (s1 : ss) (Hqt : q me = t :: l).
Context (Hm : moved s t (set_on_runq false (s.(tk) t)) s1) (Hq1 : runqs s1 (fun d => without t (q d))).

Lemma picked : t <> 0 /\ t ∈ T /\ home s t = me /\ (s.(tk) t).(state) = TASK_READY /\ tk s1 t = set_on_runq false (s.(tk) t) /\ NoDup (t :: l).
Proof using Hi Hme Hqt Hm.
  pose proof (iv_q _ _ _ Hi) as Hq. assert (Hin : t ∈ q me) by (rewrite Hqt; apply list_elem_of_here).
  destruct (proj1 (rq_in _ _ Hq me t Hme) Hin) as (H0&Hon&Hh). destruct (rq_ready _ _ Hq t H0 Hon) as [Hst _].
  split_and!; try done; [by apply (iv_on _ _ _ Hi)|rewrite (md_tk _ _ _ _ Hm); by rewrite decide_True|rewrite <- Hqt; by apply (rq_nodup _ _ Hq)].
Qed.

Lemma picked_queues d : is_cpu s d -> without t (q d) = if decide (d = me) then l else q d.
Proof using Hi Hme Hqt Hm.
  intros Hd. destruct picked as (H0&Hin&Hh&_&_&Hnd). destruct (decide (d = me)) as [->|Hne].
  - rewrite Hqt. by apply without_head.
  - apply without_none. intros (_&_&?)%(rq_in _ _ (iv_q _ _ _ Hi) d t Hd). congruence.
Qed.

(** The current task was woken before it switched away. *)
Lemma pick_self : t = cur s me -> wp E (upd_task t (set_state TASK_RUNNING);; mret false) Q s1.
Proof using Hi Hme Hfrom HQ Hqt Hm Hq1.
  intros He. destruct picked as (H0&Hin&Hh&Hst&Ht1&Hnd).
  wp_step. apply (upd_task_ok E s1 (fun d => without t (q d))); [done|done|done|rewrite Ht1; done|].
  rewrite Ht1. intros s2 Hm2 Hq2. apply wp_ret. assert (Hm' := moved_trans _ _ _ _ _ _ Hm Hm2).
  assert (Hi2 : inv s2 (fun d => without t (q d)) T).
  { eapply (inv_moved s q T t); [done|done|exact Hm'|done|done|done|intros _ _; by apply (home_moved s t _ s2 Hm')|done|].
    intros _. by exists me. }
  assert (Hcur : forall d, cur s2 d = cur s d) by (intros d; apply (md_rest _ _ _ _ Hm')).
  eapply HQ; [exact Hi2|]. split.
  - apply (rs_vars _ _ (md_rest _ _ _ _ Hm')).
  - intros d Hd Hdm. rewrite (picked_queues d Hd), decide_False by done. by rewrite Hcur.
  - cbv beta. rewrite (picked_queues me Hme), Hqt, decide_True, Hcur by done. split; [|done].
    rewrite decide_False; [by rewrite app_nil_r|]. unfold preempted. rewrite <- He. intros [? _]. congruence.
  - intros y. rewrite Hcur, <- He, (md_tk _ _ _ _ Hm'). destruct (decide (y = t)) as [->|]; [done|]. by rewrite decide_False by tauto.
  - rewrite Hcur. by rewrite bool_decide_false by naive_solver.
Qed.

(** The current task leaves the CPU to [t]. *)
Lemma picked_switch s2 q' :
  t <> cur s me -> rest s s2 -> runqs s2 q' -> (s2.(tk) t) = set_on_runq false (s.(tk) t) ->
  (forall y, y <> t -> y <> cur s me -> s2.(tk) y = s.(tk) y) ->
  (let x := s.(tk) (cur s me) in let y := s2.(tk) (cur s me) in
    y = x /\ ~ preempted s me \/
    cur s me ∈ T /\ x.(state) = TASK_RUNNING /\ y.(state) = TASK_READY /\ y.(on_runq) = true /\ y.(pid) = x.(pid) /\ y.(on_cpu) = x.(on_cpu) /\ home s2 (cur s me) = home s (cur s me)) ->
  (forall d, is_cpu s d -> q' d = if decide (d = me) then l ++ (if decide (preempted s me) then [cur s me] else []) else q d) ->
  wp E (switch_to me (cur s me) t) Q s2.
Proof using Hi Hme Hfrom HQ Hqt Hm.
  intros Hne Hr Hq' Ht2 Hoth Hprev Hqq. destruct picked as (H0&Hin&Hh&Hst&_&_). cbv zeta in Hprev.
  apply (switch_to_ok s s2 q q'); auto; try by rewrite Ht2.
  { cbv zeta. destruct Hprev as [[He Hp]|Hp]; [left|by right]. split; [done|]. unfold preempted in Hp.
    destruct (decide (cur s me = idle s me)); [by right|left; tauto]. }
  intros s' Hi' Hsw. apply (HQ true s' q' Hi'). pose proof (sw_cur _ _ _ _ _ Hsw) as Hcur. split.
  - apply (sw_vars _ _ _ _ _ Hsw).
  - intros d Hd Hdm. rewrite Hqq, Hcur by done. by rewrite !decide_False.
  - rewrite Hqt, Hqq, Hcur by done. by rewrite !(decide_True (P := me = me)).
  - intros y. by eapply switched_state.
  - rewrite Hcur, decide_True by done. by rewrite bool_decide_true.
Qed.

Lemma pick_other : t <> cur s me -> ~ preempted s me -> wp E (switch_to me (cur s me) t) Q s1.
Proof using Hi Hme Hfrom HQ Hqt Hm Hq1.
  intros Hne Hp. destruct picked as (H0&Hin&Hh&Hst&Ht1&_).
  assert (Htk : forall y, y <> t -> tk s1 y = tk s y) by (intros y Hy; rewrite (md_tk _ _ _ _ Hm); by rewrite decide_False).
  apply (picked_switch s1 (fun d => without t (q d))); auto; [apply Hm|left; auto|].
  intros d Hd. rewrite (picked_queues d Hd). destruct (decide (d = me)); [|done]. rewrite decide_False by done. by rewrite app_nil_r.
Qed.

Lemma pick_preempt : t <> cur s me -> preempted s me ->
  wp E (task_mark_ready_on_cpu_locked (cur s me) (u32 (s1.(tk) (cur s me)).(cpu_affinity))) (fun _ => wp E (switch_to me (cur s me) t) Q) s1.
Proof using Hi Hme Hfrom HQ Hqt Hm Hq1.
  intros Hne Hp. pose proof Hp as [Hrun Hni]. destruct picked as (H0&Hin&Hh&Hst&Ht1&_). pose proof (iv_q _ _ _ Hi) as Hq.
  assert (Htk : forall y, y <> t -> tk s1 y = tk s y) by (intros y Hy; rewrite (md_tk _ _ _ _ Hm); by rewrite decide_False).
  destruct (iv_cur _ _ _ Hi me Hme) as [|[Hci Hch]]; [done|]. pose proof (Htk (cur s me) (not_eq_sym Hne)) as Hc1.
  pose proof (proj1 (rs_vars _ _ (md_rest _ _ _ _ Hm))) as Hn. pose proof (rq_cpus _ _ Hq) as Hcp.
  assert (Hcpu : forall d, is_cpu s1 d <-> is_cpu s d) by (intros d; unfold is_cpu; by rewrite Hn).
  assert (Hnorm : normalize_cpu_affinity s1 (u32 (cpu_affinity (tk s (cur s me)))) = me).
  { rewrite <- Hch at 2. unfold home, task_normalize_cpu_affinity_internal, normalize_cpu_affinity, task_get_cpu_count. by rewrite Hn. }
  apply (ready_q_ok E s1 (fun d => without t (q d))); rewrite ?Hc1; [done|by eapply iv_task_nz|by apply (iv_pid _ _ _ Hi)|apply u32_range| |by rewrite Hrun|].
  { intros d Hd%Hcpu. pose proof (queue_room s q T d Hi Hd). pose proof (length_filter (fun x => x <> t) (q d)). unfold without, zlen in *. lia. }
  rewrite Hnorm. intros s2 _ Hq2 Hm2. set (x := set_on_runq true _) in Hm2.
  assert (Hx : tk s2 (cur s me) = x) by (rewrite (md_tk _ _ _ _ Hm2); by rewrite decide_True).
  apply (picked_switch s2 _ Hne (rest_trans _ _ _ (md_rest _ _ _ _ Hm) (md_rest _ _ _ _ Hm2)) Hq2).
  - rewrite (md_tk _ _ _ _ Hm2), decide_False by done. done.
  - intros y H1 H2. rewrite (md_tk _ _ _ _ Hm2), decide_False by done. auto.
  - cbv zeta. right. rewrite Hx. split_and!; try done. rewrite Hch.
    apply (home_given s1 (cur s me) x s2 me Hm2); [by rewrite Hn|by apply Hcpu|done].
  - intros d Hd. unfold queue_after. rewrite (picked_queues d Hd). pose proof (running_unqueued s q (cur s me) d Hq Hrun Hd) as Hnq.
    destruct (decide (d = me)) as [->|]; [|by apply without_none]. rewrite decide_True by done. f_equal. apply without_none.
    rewrite Hqt in Hnq. intros Hx'. apply Hnq. by apply list_elem_of_further.
Qed.
End pick.

(** What [schedule] found is what was there before it finished the last switch. *)
Lemma scheduled_finished s s1 q me b s' q' : finished s me s1 -> scheduled s1 q me b s' q' -> scheduled s q me b s' q'.
Proof using.
  intros [_ (Hn&_&_) Hc Ht] [S0 S1 S2 S3 S4].
  assert (Hcur : forall d, cur s1 d = cur s d) by (intros d; apply Hc). assert (Hidle : forall d, idle s1 d = idle s d) by (intros d; apply Hc).
  assert (Hst : forall y, state (tk s1 y) = state (tk s y)) by (intros y; rewrite Ht; by destruct (decide (y = from s me /\ from s me <> 0))).
  assert (Hp : preempted s1 me <-> preempted s me) by (unfold preempted; by rewrite Hcur, Hidle, Hst).
  split; [congruence|..|by rewrite <- Hcur].
  - intros d Hd. rewrite <- Hcur. apply S1. unfold is_cpu. by rewrite Hn.
  - destruct (q me); [by rewrite Hcur, Hidle, Hst in S2|]. rewrite Hcur in S2.
    destruct (decide (preempted s1 me)), (decide (preempted s me)); tauto.
  - intros y. rewrite S3, Hcur, Hst. destruct (decide (y = cur s' me)); [done|].
    destruct (decide (y = cur s me /\ preempted s1 me)), (decide (y = cur s me /\ preempted s me)); tauto.
Qed.

Lemma schedule_ok s q me (Q : bool -> ss -> Prop) :
  inv s q T -> is_cpu s me -> (forall b s' q', inv s' q' T -> scheduled s q me b s' q' -> Q b s') -> wp E (schedule me) Q s.
Proof using.
  intros Hi Hme HQ. unfold schedule. wp_step. wp_step. fold (cur s me).
  assert (H0 : cur s me <> 0).
  { destruct (iv_cur _ _ _ Hi me Hme) as [->|[Hin _]]; [by apply (iv_idle _ _ _ Hi)|by eapply iv_task_nz]. }
  rewrite (proj2 (Z.eqb_neq _ 0) H0). wp_step. apply (finish_ok s q); [done|done|]. intros s1 Hi1 Hf.
  assert (Hme1 : is_cpu s1 me) by (unfold is_cpu; by rewrite (proj1 (fi_vars _ _ _ Hf))).
  destruct (fi_cpu _ _ _ Hf me) as (Hc1&_&Hf1). rewrite decide_True in Hf1 by done. rewrite <- Hc1.
  assert (HQ1 : forall b s' q', inv s' q' T -> scheduled s1 q me b s' q' -> Q b s') by (intros b s' q' Hi' Hs; eapply HQ; [exact Hi'|by eapply scheduled_finished]).
  clear HQ. wp_step. apply (pop_ok E s1 q); [apply Hi1|done| |].
  - intros He. wp_step. wp_step. simpl andb. destruct (bool_decide (state (tk s1 (cur s1 me)) = TASK_RUNNING)) eqn:Hst.
    + apply bool_decide_eq_true in Hst. apply wp_ret. apply (HQ1 false s1 q Hi1). split; [done|done| | |by rewrite bool_decide_false by naive_solver].
      { rewrite He. by rewrite decide_True. }
      intros y. destruct (decide (y = cur s1 me)) as [->|]; [done|]. by rewrite decide_False by tauto.
    + apply bool_decide_eq_false in Hst as Hst'. change (idle_task (g_cpu_locals s1 me)) with (idle s1 me).
      assert (Hne : idle s1 me <> cur s1 me) by (destruct (iv_idle _ _ _ Hi1 me Hme1) as (_&_&_&?); congruence).
      cbv zeta. change (0 =? 0) with true. cbv iota. rewrite (proj2 (Z.eqb_neq _ _) Hne).
      wp_step. apply wp_ret. by apply (pick_idle s1 q me Q Hi1).
  - intros t l s2 Hqt Hm2 Hq2. wp_step. wp_step. destruct (picked s1 q me Hi1 Hme1 t l s2 Hqt Hm2) as (Ht0&Hin&Hh&Hst&Ht2&_).
    rewrite (proj2 (Z.eqb_neq t 0) Ht0). simpl andb. cbv iota zeta.
    destruct (Z.eqb_spec t (cur s1 me)) as [He|Hne]; [by eapply (pick_self s1 q me Q)|].
    assert (Hc2 : tk s2 (cur s1 me) = tk s1 (cur s1 me)) by (rewrite (md_tk _ _ _ _ Hm2), decide_False by done; done).
    assert (Hid : task_is_idle_task s2 (cur s1 me) = bool_decide (cur s1 me = idle s1 me)).
    { rewrite <- (idle_pid s1 q me _ Hi1 Hme1 eq_refl). unfold task_is_idle_task. by rewrite Hc2. }
    rewrite Hid. destruct (decide (preempted s1 me)) as [Hp|Hp].
    + pose proof (pick_preempt s1 q me Q Hi1 Hme1 Hf1 HQ1 t l s2 Hqt Hm2 Hq2 Hne Hp) as Hw. destruct Hp as [Hr Hni].
      rewrite Hc2 in *. rewrite (bool_decide_true _ Hr), (bool_decide_false _ Hni). simpl andb. cbv iota.
      apply wp_bind, wp_bind. eapply wp_mono; [exact Hw|]. intros r s3 Hw3. by apply wp_ret.
    + pose proof (pick_other s1 q me Q Hi1 Hme1 Hf1 HQ1 t l s2 Hqt Hm2 Hq2 Hne Hp) as Hw. rewrite Hc2. unfold preempted in Hp.
      destruct (decide (state (tk s1 (cur s1 me)) = TASK_RUNNING)) as [Hr|Hr].
      * rewrite (bool_decide_true (cur s1 me = idle s1 me)) by (destruct (decide (cur s1 me = idle s1 me)); tauto).
        rewrite andb_false_r. wp_step. by apply wp_ret.
      * rewrite (bool_decide_false _ Hr). simpl andb. wp_step. by apply wp_ret.
Qed.
End ops.
