(* ===== verification/SchedOps.v ===== *)
(** * The operations of the scheduler

    Every operation of the scheduler keeps its invariant and fails no
    assertion; what it does to the queues. *)
From S2P Require Import Prelude State Links Task Runq Sched Switch.
Create HintDb sched.

(** How many tasks are before [t]. *)
Fixpoint pos (t : Z) (l : list Z) : nat :=
  match l with [] => 0 | x :: l => if decide (x = t) then 0 else S (pos t l) end.

Lemma pos_app_l t l k : t ∈ l -> pos t (l ++ k) = pos t l.
Proof.
  induction l as [|x l IH]; [by intros ?%not_elem_of_nil|]. intros Ht. simpl. destruct (decide (x = t)) as [|Hne]; [done|].
  f_equal. apply IH. apply elem_of_cons in Ht as [->|]; done.
Qed.

Lemma pos_without t u l : u <> t -> (pos t (without u l) <= pos t l)%nat.
Proof.
  intros Hne. induction l as [|x l IH]; [done|]. unfold without in *. rewrite filter_cons. simpl.
  destruct (decide (x <> u)) as [Hx|Hx]; simpl; destruct (decide (x = t)) as [->|]; lia.
Qed.

(** An operation that touches no task outside [U]: what the scheduler sees of
    the others is the same, and none of them is further from the head of its
    queue. *)
Record keeps (U : Z -> Prop) (s : ss) (q : Z -> list Z) (s' : ss) (q' : Z -> list Z) : Prop := mkKeeps {
  kp_cpus : s'.(g_cpu_count) = s.(g_cpu_count);
  kp_tk : forall t, ~ U t -> let x := s.(tk) t in let y := s'.(tk) t in
    y.(state) = x.(state) /\ y.(on_runq) = x.(on_runq) /\ y.(cpu_affinity) = x.(cpu_affinity) /\ y.(pid) = x.(pid);
  kp_cur : forall d, cur s' d = cur s d;
  kp_pos : forall d t, is_cpu s d -> ~ U t -> t ∈ q d -> t ∈ q' d /\ (pos t (q' d) <= pos t (q d))%nat }.

Lemma keeps_refl U s q : keeps U s q s q.
Proof. by split. Qed.
Lemma keeps_trans U s1 q1 s2 q2 s3 q3 : keeps U s1 q1 s2 q2 -> keeps U s2 q2 s3 q3 -> keeps U s1 q1 s3 q3.
Proof.
  intros [A1 A2 A3 A4] [B1 B2 B3 B4]. split; [congruence| |intros d; by rewrite B3|].
  - intros t Ht. destruct (A2 t Ht) as (?&?&?&?), (B2 t Ht) as (?&?&?&?). split_and!; congruence.
  - intros d t Hd Ht Hin. destruct (A4 d t Hd Ht Hin) as [Hin2 ?]. assert (Hd2 : is_cpu s2 d) by (unfold is_cpu; by rewrite A1).
    destruct (B4 d t Hd2 Ht Hin2). split; [done|lia].
Qed.
Lemma keeps_sub (U V : Z -> Prop) s q s' q' : (forall t, U t -> V t) -> keeps U s q s' q' -> keeps V s q s' q'.
Proof. intros HUV [A1 A2 A3 A4]. split; [done|intros t Ht; apply A2; auto|done|intros d t Hd Ht; apply A4; auto]. Qed.

(** One task leaves its queue, or goes to the end of one. *)
Lemma keeps_moved s q t x s' q' : moved s t x s' ->
  (forall d, q' d = without t (q d) \/ q' d = without t (q d) ++ [t]) -> keeps (eq t) s q s' q'.
Proof.
  intros [[_ _ (Hn&_&_) _ Hc] Htk _] Hq. split; [done| |intros d; apply Hc|].
  - intros y Hy. cbv zeta. rewrite Htk, decide_False by congruence. done.
  - intros d y _ Hy Hin. assert (Hw : y ∈ without t (q d)) by (apply elem_of_without; split; congruence).
    pose proof (pos_without y t (q d) Hy) as Hp. destruct (Hq d) as [->| ->]; [done|]. split; [apply elem_of_app; by left|]. by rewrite pos_app_l.
Qed.

Lemma keeps_requeue s q t x s' c : moved s t x s' -> keeps (eq t) s q s' (queue_after s q t c).
Proof. intros Hm. apply (keeps_moved s q t x); [done|]. intros d. unfold queue_after. destruct (decide (d = c)); auto. Qed.

(** ** What the scheduler does not look at *)

Record view (s s' : ss) : Prop := mkView {
  vw_list : s'.(tnext) = s.(tnext) /\ s'.(task_list) = s.(task_list) /\ s'.(next_pid) = s.(next_pid) /\ s'.(g_cpu_count) = s.(g_cpu_count);
  vw_runq : s'.(runq_next) = s.(runq_next) /\ s'.(runq_prev) = s.(runq_prev);
  vw_tk : forall t, let x := s.(tk) t in let y := s'.(tk) t in
    y.(state) = x.(state) /\ y.(on_runq) = x.(on_runq) /\ y.(cpu_affinity) = x.(cpu_affinity) /\ y.(pid) = x.(pid) /\ y.(on_cpu) = x.(on_cpu);
  vw_cpu : forall c, let x := s.(g_cpu_locals) c in let y := s'.(g_cpu_locals) c in
    y.(current_task) = x.(current_task) /\ y.(idle_task) = x.(idle_task) /\ y.(switched_from) = x.(switched_from) /\
    y.(runq_head) = x.(runq_head) /\ y.(runq_tail) = x.(runq_tail) /\ y.(runq_count) = x.(runq_count) }.

Lemma inv_view s q T s' : inv s q T -> view s s' -> inv s' q T.
Proof.
  intros [I1 I2 I3 I4 I5 I6 I7 I8 I9 I10 I11 I12 I13] [(V1&V2&V3&V4) (V5&V6) V7 V8].
  assert (Hic : forall c, is_cpu s' c <-> is_cpu s c) by (intros c; unfold is_cpu; by rewrite V4).
  assert (Hcur : forall c, cur s' c = cur s c) by (intros c; apply V8). assert (Hidle : forall c, idle s' c = idle s c) by (intros c; apply V8).
  assert (Hfrom : forall c, from s' c = from s c) by (intros c; apply V8).
  assert (Hh : forall t, home s' t = home s t) by (intros t; apply home_same; [done|apply V7]). split.
  - apply (runqs_same s); auto; [intros c; by destruct (V8 c) as (_&_&_&?)|]. intros t. destruct (V7 t) as (?&?&?&?&?). by split.
  - by rewrite V1, V2.
  - done.
  - by rewrite V3.
  - intros t Ht. destruct (V7 t) as (_&_&_&->&_). auto.
  - intros c Hc%Hic. rewrite Hidle. destruct (V7 (idle s c)) as (->&_&_&->&_). auto.
  - intros c d Hc%Hic Hd%Hic. rewrite !Hidle. auto.
  - intros t Ht. destruct (V7 t) as (_&->&_). auto.
  - intros c Hc%Hic. rewrite Hcur, Hidle, Hh. auto.
  - intros c Hc%Hic. rewrite Hcur, Hidle, Hfrom, Hh. auto.
  - intros t Ht. destruct (V7 t) as (->&->&_). auto.
  - intros t Ht. destruct (V7 t) as (->&_). intros Hs. destruct (I12 t Ht Hs) as (c&Hc&He). exists c. by rewrite Hic, Hcur.
  - intros t Ht. destruct (V7 t) as (_&_&_&->&->). intros Hp1. rewrite (I13 t Ht Hp1). unfold uses. setoid_rewrite Hic. by setoid_rewrite Hcur; setoid_rewrite Hfrom.
Qed.

Lemma keeps_view U s q s' : view s s' -> keeps U s q s' q.
Proof.
  intros [(V1&V2&V3&V4) (V5&V6) V7 V8]. split; [done|intros t _; destruct (V7 t) as (?&?&?&?&?); done|intros c; apply V8|done].
Qed.

(** Tasks are only woken. *)
Definition mild (s s' : ss) : Prop := forall t, (s'.(tk) t).(state) = (s.(tk) t).(state) \/ (s'.(tk) t).(state) = TASK_READY.

Lemma mild_refl s : mild s s.
Proof. by left. Qed.
Lemma mild_trans s1 s2 s3 : mild s1 s2 -> mild s2 s3 -> mild s1 s3.
Proof. intros H1 H2 t. destruct (H2 t) as [->| ->]; [apply H1|by right]. Qed.
Lemma mild_view s s' : view s s' -> mild s s'.
Proof. intros Hv t. left. apply Hv. Qed.
Lemma mild_moved s t x s' : moved s t x s' -> x.(state) = TASK_READY -> mild s s'.
Proof. intros Hm Hx y. rewrite (md_tk _ _ _ _ Hm). destruct (decide (y = t)) as [->|]; [by right|by left]. Qed.
#[export] Hint Resolve mild_refl mild_view : sched.

(** The cells written are not looked at. *)
Ltac unseen := split; simpl; [done|done|intros ?; cbv zeta; rewrite ?fset_spec; repeat case_decide; subst; done|intros ?; cbv zeta; rewrite ?fset_spec; repeat case_decide; subst; done].

Section ops.
Context (E : panic -> Prop) (T : list Z).

Lemma unseen_task_ok s q t f (Q : unit -> ss -> Prop) :
  inv s q T -> (forall y, (f y).(state) = y.(state) /\ (f y).(on_runq) = y.(on_runq) /\ (f y).(cpu_affinity) = y.(cpu_affinity) /\ (f y).(pid) = y.(pid) /\ (f y).(on_cpu) = y.(on_cpu)) ->
  (forall s', inv s' q T -> view s s' -> tk_is s t (f (s.(tk) t)) s' -> Q tt s') -> wp E (upd_task t f) Q s.
Proof using.
  intros Hi Hf HQ. unfold upd_task. wp_step. set (s' := with_tk _ _).
  assert (Hv : view s s').
  { split; [done|done| |done]. intros y. unfold s'. cbv zeta. simpl. rewrite fset_spec. destruct (decide (y = t)) as [->|]; [apply Hf|done]. }
  apply HQ; [by apply (inv_view s q T)|done|]. intros y. unfold s'. simpl. rewrite fset_spec. done.
Qed.

Lemma request_resched_ok s q me (Q : unit -> ss -> Prop) :
  inv s q T -> (forall s', inv s' q T -> view s s' -> Q tt s') -> wp E (task_request_resched me) Q s.
Proof using.
  intros Hi HQ. unfold task_request_resched, upd_cpu. wp_step. set (s' := with_cpus _ _).
  assert (Hv : view s s') by (unfold s'; unseen). apply HQ; [by apply (inv_view s q T)|done].
Qed.

Lemma request_resched_cpu_ok s q me c (Q : unit -> ss -> Prop) :
  inv s q T -> (forall s', inv s' q T -> view s s' -> Q tt s') -> wp E (task_request_resched_cpu me c) Q s.
Proof using.
  intros Hi HQ. unfold task_request_resched_cpu, upd_cpu. wp_step. wp_step.
  assert (Hv : forall s', view s s' -> Q tt s') by (intros s' Hv; apply HQ; [by apply (inv_view s q T)|done]).
  destruct (get_cpu_local_by_id s c) as [k|]; [|apply wp_ret, Hv; by split].
  wp_step. wp_step. destruct (me =? c); [apply wp_ret, Hv; unseen|]. wp_step. apply Hv. unseen.
Qed.

Lemma consume_resched_ok s q me (Q : Z -> ss -> Prop) :
  inv s q T -> (forall r s', inv s' q T -> view s s' -> Q r s') -> wp E (task_consume_resched me) Q s.
Proof using.
  intros Hi HQ. unfold task_consume_resched, upd_cpu. wp_step. wp_step. destruct (negb _); [apply wp_ret, HQ; [done|by split]|].
  wp_step. wp_step. apply wp_ret. set (s' := with_cpus _ _). assert (Hv : view s s') by (unfold s'; unseen). apply HQ; [by apply (inv_view s q T)|done].
Qed.

(** ** A task is woken, marked ready or runs on *)

Lemma task_wake_ok s q me t (Q : Z -> ss -> Prop) :
  inv s q T -> t ∈ T -> (forall r s' q', inv s' q' T -> keeps (eq t) s q s' q' -> mild s s' -> (gone (s.(tk) t).(state) = false -> (s'.(tk) t).(state) = TASK_READY) -> Q r s') ->
  wp E (task_wake me t) Q s.
Proof using.
  intros Hi Ht HQ. unfold task_wake. rewrite (proj2 (Z.eqb_neq t 0) (iv_task_nz _ _ _ _ Hi Ht)). wp_step.
  apply (wake_ok E T s q); [done|done|intros Hg|intros s1 _ Hi1 Hm1]; simpl.
  - apply wp_ret. eapply HQ; [done|apply keeps_refl|apply mild_refl|congruence].
  - wp_step. wp_step. wp_step. eapply request_resched_cpu_ok; [exact Hi1|]. intros s2 Hi2 Hv. apply wp_ret.
    eapply HQ; [exact Hi2|eapply keeps_trans; [by eapply keeps_requeue|by apply keeps_view]| |].
    + eapply mild_trans; [by eapply mild_moved|by apply mild_view].
    + intros _. destruct (vw_tk _ _ Hv t) as (Hst&_). cbv zeta in Hst. rewrite Hst, (md_tk _ _ _ _ Hm1). by rewrite decide_True.
Qed.

Lemma cancel_sleep_ok s q c t (Q : Z -> ss -> Prop) :
  inv s q T -> t ∈ T -> is_cpu s c -> cur s c = t -> (forall r s' q', inv s' q' T -> keeps (eq t) s q s' q' -> Q r s') -> wp E (task_cancel_sleep t) Q s.
Proof using.
  intros Hi Ht Hc He HQ. unfold task_cancel_sleep. wp_step. wp_step. rewrite (proj2 (Z.eqb_neq t 0) (iv_task_nz _ _ _ _ Hi Ht)). simpl andb.
  destruct (blocked (state (tk s t))) eqn:Hb; [|apply wp_ret; eapply HQ; [done|apply keeps_refl]].
  assert (Hon : on_runq (tk s t) = false).
  { destruct (on_runq (tk s t)) eqn:Hon; [|done]. destruct (rq_ready _ _ (iv_q _ _ _ Hi) t (iv_task_nz _ _ _ _ Hi Ht) Hon) as [Hst _]. by rewrite Hst in Hb. }
  wp_step. apply (upd_task_ok E s q); [apply Hi|done|done|by rewrite Hon|]. intros s1 Hm1 Hq1.
  assert (H1 : tk s1 t = set_sleep 0 (tk s t)) by (rewrite (md_tk _ _ _ _ Hm1); by rewrite decide_True).
  wp_step. apply (upd_task_ok E s1 q); [done|done|done|by rewrite H1; simpl; rewrite Hon|]. rewrite H1. intros s2 Hm2 Hq2. apply wp_ret.
  assert (Hm := moved_trans _ _ _ _ _ _ Hm1 Hm2). eapply (HQ _ s2 (fun d => without t (q d))).
  - eapply (inv_moved s q T t); [done|done|exact Hm| |done|done|intros _ _; by apply (home_moved s t _ s2 Hm)|done|intros _; by exists c].
    apply not_queued; [done|]. rewrite (md_tk _ _ _ _ Hm). by rewrite decide_True.
  - eapply keeps_moved; [exact Hm|by left].
Qed.

(** ** Signals *)

Lemma find_by_pid_spec s q p : inv s q T -> let t := task_find_by_pid s p in t = 0 \/ t ∈ T /\ (s.(tk) t).(pid) = p.
Proof using.
  intros Hi. cbv zeta. unfold task_find_by_pid. rewrite (all_tasks_is s q T Hi).
  destruct (list_find _ T) as [[i t]|] eqn:Hf; [right|by left]. apply list_find_Some in Hf as (Hl&Hp&_). simpl. split; [|done]. by eapply list_elem_of_lookup_2.
Qed.

Lemma set_pgid_ok s q p g (Q : Z -> ss -> Prop) :
  inv s q T -> (forall r s', inv s' q T -> view s s' -> Q r s') -> wp E (task_set_pgid p g) Q s.
Proof using.
  intros Hi HQ. unfold task_set_pgid. wp_step. wp_step. destruct (_ =? 0); [apply wp_ret, HQ; [done|by split]|].
  wp_step. apply (unseen_task_ok s q); [done|done|]. intros s1 Hi1 Hv1 _. apply wp_ret. by apply HQ.
Qed.

(** Who a task's parent is, and its group, survives what happens to it. *)
Definition ids (x : task) : Z * Z * Z := (x.(pid), x.(ppid), x.(pgid)).

Lemma post_signal_ok s q t sig (Q : unit -> ss -> Prop) :
  inv s q T -> t ∈ T -> (forall s' q', inv s' q' T -> keeps (eq t) s q s' q' -> (forall y, ids (s'.(tk) y) = ids (s.(tk) y)) -> Q tt s') -> wp E (post_signal t sig) Q s.
Proof using.
  intros Hi Ht HQ. unfold post_signal. wp_step. wp_step. destruct (_ && _); [apply wp_ret; eapply HQ; [done|apply keeps_refl|done]|].
  wp_step. apply (unseen_task_ok s q); [done|done|]. intros s1 Hi1 Hv1 Htk1.
  assert (Hid1 : forall y, ids (tk s1 y) = ids (tk s y)) by (intros y; rewrite Htk1; by destruct (decide (y = t)) as [->|]).
  assert (Hend : forall s' q', inv s' q' T -> keeps (eq t) s1 q s' q' -> (forall y, ids (tk s' y) = ids (tk s1 y)) -> Q tt s').
  { intros s' q' Hi' Hk Hid. eapply HQ; [exact Hi'|eapply keeps_trans; [by apply keeps_view|exact Hk]|]. intros y. by rewrite Hid. }
  destruct (bool_decide _); [|apply wp_ret; eapply Hend; [exact Hi1|apply keeps_refl|done]].
  wp_step. apply (wake_ok E T s1 q); [done|done|intros _|intros s2 _ Hi2 Hm2]; apply wp_ret.
  - eapply Hend; [exact Hi1|apply keeps_refl|done].
  - eapply Hend; [exact Hi2|by eapply keeps_requeue|]. intros y. rewrite (md_tk _ _ _ _ Hm2). by destruct (decide (y = t)) as [->|].
Qed.

(** The target of a signal, and its parent. *)
Definition signalled (s : ss) (p : Z) (t : Z) : Prop := (s.(tk) t).(pid) = p \/ exists u, (s.(tk) u).(pid) = p /\ (s.(tk) u).(ppid) = (s.(tk) t).(pid).

Lemma signal_pid_ok s q p sig term status psig (Q : Z -> ss -> Prop) :
  inv s q T -> (forall r s' q', inv s' q' T -> keeps (signalled s p) s q s' q' -> Q r s') -> wp E (task_signal_pid p sig term status psig) Q s.
Proof using.
  intros Hi HQ. unfold task_signal_pid. wp_step. wp_step. pose proof (find_by_pid_spec s q p Hi) as Hf. cbv zeta in Hf.
  set (t := task_find_by_pid s p) in *. destruct (Z.eqb_spec t 0) as [|H0]; [apply wp_ret; eapply HQ; [done|apply keeps_refl]|].
  destruct Hf as [|[Hin Hp]]; [done|]. destruct (_ && _); [|apply wp_ret; eapply HQ; [done|apply keeps_refl]].
  assert (Ht : forall y, t = y -> signalled s p y) by (intros y <-; by left).
  wp_step. apply (post_signal_ok s q); [done|done|]. intros s1 q1 Hi1 Hk1 Hid1. apply (keeps_sub _ _ _ _ _ _ Ht) in Hk1.
  wp_step. destruct term; [|apply wp_ret, wp_ret; by eapply HQ].
  wp_step. apply (zombie_ok E T s1 q1); [done|done|]. intros s2 [Hi2 Hm2].
  assert (Hid2 : forall y, ids (tk s2 y) = ids (tk s y)) by (intros y; rewrite <- Hid1, (md_tk _ _ _ _ Hm2); by destruct (decide (y = t)) as [->|]).
  assert (Hk2 : keeps (signalled s p) s q s2 (fun d => without t (q1 d))).
  { eapply keeps_trans; [exact Hk1|]. apply (keeps_sub _ _ _ _ _ _ Ht). eapply keeps_moved; [exact Hm2|by left]. }
  wp_step. wp_step. destruct (_ && _); [|apply wp_ret, wp_ret; by eapply HQ].
  pose proof (find_by_pid_spec s2 _ (ppid (tk s2 t)) Hi2) as Hf2. cbv zeta in Hf2. set (u := task_find_by_pid s2 _) in *.
  destruct (Z.eqb_spec u 0) as [|Hu0]; [apply wp_ret, wp_ret; by eapply HQ|]. destruct Hf2 as [|[Hui Hup]]; [done|].
  eapply post_signal_ok; [exact Hi2|done|]. intros s3 q3 Hi3 Hk3 _. apply wp_ret. eapply HQ; [exact Hi3|].
  eapply keeps_trans; [exact Hk2|]. eapply keeps_sub; [|exact Hk3]. intros y <-. right. exists t. split; [done|].
  pose proof (Hid2 t) as [=]. pose proof (Hid2 u) as [=]. congruence.
Qed.

Lemma kill_each_ok s0 q0 l g exclude sig status s q (Q : list Z -> ss -> Prop) : let U y := (s0.(tk) y).(pgid) = g in
  (forall t, t ∈ l -> t ∈ T) -> inv s q T -> keeps U s0 q0 s q -> (forall y, ids (s.(tk) y) = ids (s0.(tk) y)) ->
  (forall r s' q', inv s' q' T -> keeps U s0 q0 s' q' -> Q r s') -> wp E (kill_each l g exclude sig status) Q s.
Proof using.
  intros U. revert s q Q. induction l as [|t l IH]; intros s q Q Hl Hi Hk Hid HQ; simpl; [apply wp_ret; by eapply HQ|].
  assert (Hl' : forall y, y ∈ l -> y ∈ T) by (intros y Hy; apply Hl; by apply list_elem_of_further).
  wp_step. wp_step. destruct (negb (pgid (tk s t) =? g)) eqn:Hg; simpl orb; [by eapply IH|].
  destruct (_ || _); [by eapply IH|]. apply negb_false_iff, Z.eqb_eq in Hg. assert (HU : forall y, t = y -> U y) by (intros y <-; pose proof (Hid t) as [=]; unfold U; congruence).
  wp_step. apply (unseen_task_ok s q); [done|done|]. intros s1 Hi1 Hv1 Htk1.
  wp_step. apply (zombie_ok E T s1 q); [done|apply Hl; apply list_elem_of_here|]. intros s2 [Hi2 Hm2].
  wp_step. eapply IH; [done|exact Hi2| | |].
  - eapply keeps_trans; [exact Hk|]. eapply keeps_trans; [by apply keeps_view|]. apply (keeps_sub _ _ _ _ _ _ HU). eapply keeps_moved; [exact Hm2|by left].
  - intros y. rewrite <- Hid, (md_tk _ _ _ _ Hm2), !Htk1. by destruct (decide (y = t)) as [->|]; rewrite ?decide_True.
  - intros r s' q' Hi' Hk'. apply wp_ret. by eapply HQ.
Qed.

Lemma kill_pgrp_ok s q g exclude sig status (Q : list Z -> ss -> Prop) :
  inv s q T -> (forall r s' q', inv s' q' T -> keeps (fun y => (s.(tk) y).(pgid) = g) s q s' q' -> Q r s') -> wp E (task_kill_pgrp g exclude sig status) Q s.
Proof using.
  intros Hi HQ. unfold task_kill_pgrp. wp_step. wp_step. rewrite (all_tasks_is s q T Hi). apply (kill_each_ok s q T g exclude sig status s q); [done|done|apply keeps_refl|done|done].
Qed.

(** ** Time *)

Lemma poll_each_ok s0 q0 l now woken cpus s q (Q : Z * Z -> ss -> Prop) : let U y := blocked (s0.(tk) y).(state) = true in
  (forall t, t ∈ l -> t ∈ T) -> inv s q T -> keeps U s0 q0 s q -> mild s0 s ->
  (forall r s' q', inv s' q' T -> keeps U s0 q0 s' q' -> mild s0 s' -> Q r s') -> wp E (poll_each l now woken cpus) Q s.
Proof using.
  intros U. revert s q woken cpus. induction l as [|t l IH]; intros s q woken cpus Hl Hi Hk Hmi HQ; simpl; [apply wp_ret; by eapply HQ|].
  assert (Hl' : forall y, y ∈ l -> y ∈ T) by (intros y Hy; apply Hl; by apply list_elem_of_further).
  wp_step. wp_step. destruct (blocked (state (tk s t))) eqn:Hb; [|by eapply IH]. simpl andb. destruct (_ && _); [|by eapply IH].
  assert (HU : forall y, t = y -> U y).
  { intros y <-. unfold U. destruct (blocked (state (tk s0 t))) eqn:Hb0; [done|].
    destruct (kp_tk _ _ _ _ _ Hk t) as (Hst&_); [unfold U; congruence|]. congruence. }
  wp_step. apply (unseen_task_ok s q); [done|done|]. intros s1 Hi1 Hv1 _.
  assert (Hk1 : keeps U s0 q0 s1 q) by (eapply keeps_trans; [exact Hk|by apply keeps_view]).
  assert (Hmi1 : mild s0 s1) by (eapply mild_trans; [exact Hmi|by apply mild_view]).
  wp_step. apply (wake_ok E T s1 q); [done|apply Hl; apply list_elem_of_here|intros _|intros s2 _ Hi2 Hm2]; wp_step; wp_step; simpl Z.leb; cbv iota.
  - by eapply IH.
  - eapply IH; [done|exact Hi2| |eapply mild_trans; [exact Hmi1|by eapply mild_moved]|done].
    eapply keeps_trans; [exact Hk1|]. apply (keeps_sub _ _ _ _ _ _ HU). by eapply keeps_requeue.
Qed.

Lemma each_resched_ok s q l (p : Z -> bool) me (Q : unit -> ss -> Prop) :
  inv s q T -> (forall s', inv s' q T -> keeps (fun _ => False) s q s' q -> mild s s' -> Q tt s') ->
  wp E (each l (fun id => if p id then task_request_resched_cpu me id else mret ())) Q s.
Proof using.
  revert s. induction l as [|x l IH]; intros s Hi HQ; simpl; [apply wp_ret; by apply HQ; auto with sched|]. wp_step.
  assert (Hend : forall s1, inv s1 q T -> view s s1 -> wp E (each l (fun id => if p id then task_request_resched_cpu me id else mret ())) Q s1).
  { intros s1 Hi1 Hv. apply IH; [done|]. intros s' Hi' Hk Hmi. apply HQ; [done|eapply keeps_trans; [by apply keeps_view|exact Hk]|]. eapply mild_trans; [by apply mild_view|exact Hmi]. }
  destruct (p x); [apply (request_resched_cpu_ok s q); auto|]. apply wp_ret. apply Hend; [done|by split].
Qed.

Lemma poll_ok s q me (Q : Z -> ss -> Prop) :
  inv s q T -> (forall r s' q', inv s' q' T -> keeps (fun y => blocked (s.(tk) y).(state) = true) s q s' q' -> mild s s' -> Q r s') -> wp E (task_poll_sleep_wakeups me) Q s.
Proof using.
  intros Hi HQ. unfold task_poll_sleep_wakeups, arch_time_now_ms. wp_steps. set (s1 := with_io _ _ _).
  assert (Hv : view s s1) by (unfold s1; unseen). pose proof (inv_view _ _ _ _ Hi Hv) as Hi1. rewrite (all_tasks_is s1 q T Hi1).
  apply (poll_each_ok s q T _ 0 0 s1 q); [done|done|by apply keeps_view|by apply mild_view|]. intros r s2 q2 Hi2 Hk2 Hmi2.
  wp_step. apply (each_resched_ok s2 q2); [done|]. intros s3 Hi3 Hk3 Hmi3. apply wp_ret. eapply HQ; [exact Hi3| |by eapply mild_trans].
  eapply keeps_trans; [exact Hk2|]. by eapply keeps_sub; [|exact Hk3].
Qed.

Lemma tick_ok s q me (Q : unit -> ss -> Prop) :
  inv s q T -> (forall s' q', inv s' q' T -> keeps (fun y => blocked (s.(tk) y).(state) = true) s q s' q' -> mild s s' -> Q tt s') -> wp E (task_on_timer_tick me) Q s.
Proof using.
  intros Hi HQ. unfold task_on_timer_tick. wp_step.
  assert (Hend : forall s1 q1, inv s1 q1 T -> keeps (fun y => blocked (state (tk s y)) = true) s q s1 q1 -> mild s s1 ->
    wp E (s2 ← getS;
      let t := current_task (g_cpu_locals s2 me) in
      if (t =? 0) || negb (bool_decide (state (tk s2 t) = TASK_RUNNING)) then mret () else
      if 1 <? timeslice_ticks (tk s2 t) then upd_task t (fun x => set_ticks (timeslice_ticks x - 1) x) else
      upd_task t (set_ticks TASK_TIMESLICE_TICKS);; task_request_resched me) Q s1).
  { intros s1 q1 Hi1 Hk1 Hmi. wp_step. wp_step. cbv zeta. destruct (_ || _); [apply wp_ret; by eapply HQ|].
    assert (Hv : forall s2, inv s2 q1 T -> view s1 s2 -> Q tt s2).
    { intros s2 Hi2 Hv2. eapply HQ; [exact Hi2|eapply keeps_trans; [exact Hk1|by apply keeps_view]|eapply mild_trans; [exact Hmi|by apply mild_view]]. }
    destruct (1 <? _); [apply (unseen_task_ok s1 q1); auto|]. wp_step. apply (unseen_task_ok s1 q1); [done|done|]. intros s2 Hi2 Hv2 _.
    apply (request_resched_ok s2 q1); [done|]. intros s3 Hi3 Hv3. eapply HQ; [exact Hi3| |].
    - eapply keeps_trans; [exact Hk1|]. eapply keeps_trans; [by apply keeps_view|by apply keeps_view].
    - eapply mild_trans; [exact Hmi|]. eapply mild_trans; [by apply mild_view|by apply mild_view]. }
  destruct (me =? 0); [wp_step; apply (poll_ok s q); [done|]; intros r s1 q1 Hi1 Hk1 Hmi; apply wp_ret; by eapply Hend|].
  apply wp_ret. eapply Hend; [done|apply keeps_refl|apply mild_refl].
Qed.
End ops.
