(* ===== verification/SchedLife.v ===== *)
(** * Birth and death of tasks

    [task_fork] puts the child in the list and on the queue of a least loaded
    CPU; [task_reap] takes a task out of the list only when no CPU uses it. *)
From S2P Require Import Prelude State Links Task Runq Sched Switch SchedOps.

(** ** The least loaded CPU *)

Lemma least_loaded_spec s n k cpu_of best load :
  let r := least_loaded s n k cpu_of best load in
  (r = best \/ exists i, k <= i < k + Z.of_nat n /\ r = cpu_of i /\ s.(smp_cpu_started) r = true) /\
  (load = task_cpu_load_locked s best -> task_cpu_load_locked s r <= load /\
     forall i, k <= i < k + Z.of_nat n -> s.(smp_cpu_started) (cpu_of i) = true -> task_cpu_load_locked s r <= task_cpu_load_locked s (cpu_of i)).
Proof.
  cbv zeta. revert k best load. induction n as [|n IH]; intros k best load; simpl; [split; [by left|]; intros ->; split; [done|intros; lia]|].
  destruct (smp_cpu_started s (cpu_of k)) eqn:Hst; simpl; [destruct (Z.ltb_spec (task_cpu_load_locked s (cpu_of k)) load) as [Hlt|Hge]|].
  - destruct (IH (k + 1) (cpu_of k) (task_cpu_load_locked s (cpu_of k))) as [H1 H2]. split.
    { right. destruct H1 as [->|(i&?&?&?)]; [exists k|exists i]; split_and?; auto; lia. }
    intros _. destruct (H2 eq_refl) as [H3 H4]. split; [lia|]. intros i Hi Hs. destruct (decide (i = k)) as [->|]; [done|]. apply H4; [lia|done].
  - destruct (IH (k + 1) best load) as [H1 H2]. split.
    { destruct H1 as [->|(i&?&?&?)]; [by left|right; exists i; split_and?; auto; lia]. }
    intros Hl. destruct (H2 Hl) as [H3 H4]. split; [done|]. intros i Hi Hs. destruct (decide (i = k)) as [->|]; [lia|]. apply H4; [lia|done].
  - destruct (IH (k + 1) best load) as [H1 H2]. split.
    { destruct H1 as [->|(i&?&?&?)]; [by left|right; exists i; split_and?; auto; lia]. }
    intros Hl. destruct (H2 Hl) as [H3 H4]. split; [done|]. intros i Hi Hs. destruct (decide (i = k)) as [->|]; [congruence|]. apply H4; [lia|done].
Qed.

Lemma normalize_nonneg s c : 0 <= c -> 0 <= normalize_cpu_affinity s c.
Proof. intros Hc. unfold normalize_cpu_affinity. by case_match. Qed.

Lemma rebalance_cpu_nonneg s c : 0 <= c -> 0 <= task_choose_rebalance_cpu_locked s c.
Proof.
  intros Hc. unfold task_choose_rebalance_cpu_locked. destruct (least_loaded_spec s (Z.to_nat (started_cpus s)) 0 (fun k => k) (normalize_cpu_affinity s c)
    (task_cpu_load_locked s (normalize_cpu_affinity s c))) as [[->|(i&?&->&_)] _]; [by apply normalize_nonneg|lia].
Qed.

Section ops.
Context (E : panic -> Prop).

Lemma choose_fork_ok s c (Q : Z -> ss -> Prop) :
  0 <= c -> (forall r s', 0 <= r -> view s s' -> s'.(tk) = s.(tk) -> Q r s') -> wp E (task_choose_fork_cpu_locked c) Q s.
Proof using.
  intros Hc HQ. unfold task_choose_fork_cpu_locked, choose_spawn_cpu_locked. wp_step. wp_step.
  pose proof (normalize_nonneg s c Hc) as Hn. destruct (g_fork_spread_enabled s); [|apply wp_ret, HQ; [done|by split|done]].
  wp_step. wp_step. cbv zeta. destruct (Z.leb_spec (started_cpus s) 1); [apply wp_ret, HQ; [done|by split|done]|].
  wp_step. wp_step. apply wp_ret, HQ; [|by split|done].
  destruct (least_loaded_spec s (Z.to_nat (started_cpus s)) 0 (fun k => u32 (next_cpu s + k) mod started_cpus s) (normalize_cpu_affinity s c)
    (task_cpu_load_locked s (normalize_cpu_affinity s c))) as [[->|(i&?&->&_)] _]; [done|]. apply Z.mod_pos_bound. lia.
Qed.

(** ** A new task *)

Section new.
Context (s : ss) (q : Z -> list Z) (T : list Z) (t : Z).
Context (Hi : inv s q T) (Ht0 : t <> 0) (Ht : t ∉ T) (Hidle : forall c, is_cpu s c -> idle s c <> t).

Lemma new_unused c : ~ uses s c t.
Proof using Hi Ht0 Ht Hidle.
  intros [Hc [He|He]]; subst t.
  - destruct (iv_cur _ _ _ Hi c Hc) as [He|[He _]]; [|done]. by apply (Hidle c).
  - destruct (iv_from _ _ _ Hi c Hc Ht0) as [_ [He|[He _]]]; [|done]. by apply (Hidle c).
Qed.

Lemma new_unqueued : (s.(tk) t).(on_runq) = false /\ forall d, is_cpu s d -> t ∉ q d.
Proof using Hi Ht0 Ht.
  assert (Hon : on_runq (tk s t) = false) by (destruct (on_runq (tk s t)) eqn:Hon; [|done]; by destruct Ht; apply (iv_on _ _ _ Hi)).
  split; [done|]. intros d Hd (_&?&_)%(rq_in _ _ (iv_q _ _ _ Hi) d t Hd). congruence.
Qed.

(** Its structure is filled in. *)
Lemma inv_filled s' :
  s'.(g_cpu_count) = s.(g_cpu_count) -> s'.(task_list) = s.(task_list) -> s.(next_pid) <= s'.(next_pid) < 2 ^ 31 ->
  s'.(g_cpu_locals) = s.(g_cpu_locals) -> (forall y, y <> t -> s'.(tk) y = s.(tk) y /\ s'.(tnext) y = s.(tnext) y) ->
  (forall y, y <> t -> s'.(runq_next) y = s.(runq_next) y /\ s'.(runq_prev) y = s.(runq_prev) y) -> (s'.(tk) t).(on_runq) = false -> inv s' q T.
Proof using Hi Ht0 Ht Hidle.
  intros Hn Hl Hp Hc Htk Hlk Hon. pose proof new_unqueued as [Hon0 Hnq]. pose proof new_unused as Hnu.
  destruct Hi as [I1 I2 I3 I4 I5 I6 I7 I8 I9 I10 I11 I12 I13].
  assert (Hic : forall c, is_cpu s' c <-> is_cpu s c) by (intros c; unfold is_cpu; by rewrite Hn).
  assert (Hy : forall y, y ∈ T -> y <> t) by (intros y Hy ->; done).
  assert (Hh : forall y, y <> t -> home s' y = home s y) by (intros y Hne; apply home_same; [done|by rewrite (proj1 (Htk y Hne))]).
  assert (Hcf : forall c, cur s' c = cur s c /\ idle s' c = idle s c /\ from s' c = from s c) by (intros c; unfold cur, idle, from; by rewrite Hc).
  split.
  - apply (runqs_unqueued s q t); auto. intros y Hne. by apply Htk.
  - rewrite Hl. eapply sl_ext; [|exact I2]. intros y Hyt. by apply Htk, Hy.
  - done.
  - lia.
  - intros y Hyt. rewrite (proj1 (Htk y (Hy y Hyt))). auto.
  - intros c Hcc%Hic. destruct (Hcf c) as (_&->&_). rewrite (proj1 (Htk _ (Hidle c Hcc))). auto.
  - intros c d Hcc%Hic Hd%Hic. destruct (Hcf c) as (_&->&_), (Hcf d) as (_&->&_). auto.
  - intros y Hy0 Hon'. destruct (decide (y = t)) as [->|Hne]; [congruence|]. rewrite (proj1 (Htk y Hne)) in Hon'. auto.
  - intros c Hcc%Hic. destruct (Hcf c) as (->&->&_). rewrite Hh; [auto|]. intros He. apply (Hnu c). split; auto.
  - intros c Hcc%Hic. destruct (Hcf c) as (->&->&->). rewrite Hh; [auto|]. intros He. apply (Hnu c). split; auto.
  - intros y Hyt. rewrite (proj1 (Htk y (Hy y Hyt))). auto.
  - intros y Hyt. rewrite (proj1 (Htk y (Hy y Hyt))). intros Hs. destruct (I12 y Hyt Hs) as (c&Hcc&He). exists c. rewrite Hic. by destruct (Hcf c) as (->&_).
  - intros y Hyt. rewrite (proj1 (Htk y (Hy y Hyt))). intros Hp1. rewrite (I13 y Hyt Hp1). unfold uses.
    split; intros (c&Hcc&Hor); exists c; destruct (Hcf c) as (C1&_&C3); rewrite ?C1, ?C3, ?Hic in *; done.
Qed.

(** It is ready, and goes to the front of the list. *)
Lemma inv_published x s2 q2 : moved s t x s2 -> runqs s2 q2 -> x.(state) = TASK_READY -> x.(on_runq) = true -> x.(pid) <> 0 -> x.(on_cpu) = false ->
  zlen T + 1 < s.(next_pid) -> inv (with_list s2 t (fset s2.(tnext) t s2.(task_list))) q2 (t :: T).
Proof using Hi Ht0 Ht Hidle.
  intros [[R1 R2 (R3&R4&R5) R6 R7] Htk _] Hq Hst Hon Hpid Hcpu Hroom. pose proof new_unused as Hnu.
  destruct Hi as [I1 I2 I3 I4 I5 I6 I7 I8 I9 I10 I11 I12 I13].
  assert (Hic : forall c, is_cpu s2 c <-> is_cpu s c) by (intros c; unfold is_cpu; by rewrite R3).
  assert (Hy : forall y, y <> t -> tk s2 y = tk s y) by (intros y Hne; rewrite Htk; by rewrite decide_False).
  assert (Hx : tk s2 t = x) by (rewrite Htk; by rewrite decide_True). assert (HT : forall y, y ∈ T -> y <> t) by (intros y Hyt ->; done).
  assert (Hh : forall y, y <> t -> home s2 y = home s y) by (intros y Hne; apply home_same; [done|by rewrite Hy]).
  set (s3 := with_list _ _ _). assert (Hcf : forall c, cur s3 c = cur s c /\ idle s3 c = idle s c /\ from s3 c = from s c) by (intros c; apply R7). split.
  - apply (runqs_same s2); [done|done|done|done| |]; done.
  - simpl. split; [done|]. split; [done|]. rewrite fset_eq, R1, R4. eapply sl_ext; [|exact I2]. intros y Hyt. rewrite fset_ne; auto.
  - by apply NoDup_cons.
  - unfold zlen in *. simpl. rewrite R5. lia.
  - intros y [->|Hyt]%elem_of_cons; simpl; [by rewrite Hx|]. rewrite Hy; auto.
  - intros c Hcc%Hic. destruct (Hcf c) as (_&->&_). simpl. rewrite (Hy _ (Hidle c Hcc)). destruct (I6 c Hcc) as (?&?&?&?). split_and!; try done.
    intros [He|]%elem_of_cons; [by apply (Hidle c)|done].
  - intros c d Hcc%Hic Hd%Hic. destruct (Hcf c) as (_&->&_), (Hcf d) as (_&->&_). auto.
  - intros y Hy0. destruct (decide (y = t)) as [->|Hne]; [intros _; apply list_elem_of_here|]. simpl. rewrite Hy by done. intros. apply list_elem_of_further. auto.
  - intros c Hcc%Hic. destruct (Hcf c) as (->&->&_). change (home s3 ?y) with (home s2 y). rewrite Hh by (intros He; apply (Hnu c); split; auto).
    destruct (I9 c Hcc) as [|[]]; [by left|right]. split; [|done]. by apply list_elem_of_further.
  - intros c Hcc%Hic Hf. destruct (Hcf c) as (Hc1&->&Hc3). change (home s3 ?y) with (home s2 y). rewrite Hc1, Hc3 in *.
    rewrite Hh by (intros He; apply (Hnu c); split; auto). destruct (I10 c Hcc Hf) as [? [|[]]]; (split; [done|]); [by left|right]. split; [|done]. by apply list_elem_of_further.
  - intros y [->|Hyt]%elem_of_cons; simpl; [by rewrite Hx|]. rewrite Hy; auto.
  - intros y [->|Hyt]%elem_of_cons; simpl; [rewrite Hx, Hst; done|]. rewrite Hy by auto. intros Hs. destruct (I12 y Hyt Hs) as (c&Hcc&He).
    exists c. split; [by apply Hic|]. by destruct (Hcf c) as (->&_).
  - intros y Hin Hp1. apply elem_of_cons in Hin as [->|Hyt]; simpl.
    + rewrite Hx, Hcpu. split; [done|]. intros (c&Hcc%Hic&Hor). destruct (Hcf c) as (C1&_&C3). rewrite C1, C3 in Hor. by destruct (Hnu c).
    + simpl in Hp1. rewrite Hy in Hp1 |- * by auto. rewrite (I13 y Hyt Hp1). unfold uses.
      split; intros (c&Hcc&Hor); exists c; destruct (Hcf c) as (C1&_&C3); rewrite ?C1, ?C3 in *; (split; [by apply Hic|done]).
Qed.
End new.

(** ** Moving a ready task to a less loaded CPU *)

Lemma push_inv_ok s q T t cpu (Q : unit -> ss -> Prop) :
  inv s q T -> t ∈ T -> (s.(tk) t).(state) = TASK_READY -> 0 <= cpu -> (forall c, ~ uses s c t) ->
  let c := normalize_cpu_affinity s cpu in
  (forall s', inv s' (queue_after s q t c) T -> moved s t (set_on_runq true (set_affinity c (s.(tk) t))) s' -> Q tt s') ->
  wp E (task_runq_push_locked t cpu) Q s.
Proof using.
  intros Hi Ht Hst Hcpu Hu c HQ. apply (push_ok E s q); [apply Hi|by eapply iv_task_nz|done|by apply (iv_pid _ _ _ Hi)|done|intros d; by apply (queue_room s q T)|].
  intros s' Hm Hq. apply HQ; [|done]. eapply (inv_moved s q T t); [done|done|exact Hm|exact Hq|done|done|intros d Hd; by destruct (Hu d)|done|].
  simpl. by rewrite Hst.
Qed.

Lemma rebalance_ok s q T t (Q : Z -> ss -> Prop) :
  inv s q T -> t ∈ T -> (forall c, ~ uses s c t) ->
  (forall r s' q', inv s' q' T -> keeps (eq t) s q s' q' -> (s'.(tk) t).(pid) = (s.(tk) t).(pid) -> Q r s') -> wp E (task_rebalance_ready_task_locked t) Q s.
Proof using.
  intros Hi Ht Hu HQ. assert (Hsame : forall r, Q r s) by (intros r; eapply HQ; [done|apply keeps_refl|done]).
  unfold task_rebalance_ready_task_locked. wp_step. wp_step. cbv zeta.
  destruct (task_can_migrate_locked s t) eqn:Hcan; simpl negb; cbv iota; [|by apply wp_ret]. apply bool_decide_eq_true in Hcan.
  destruct (_ =? _); [by apply wp_ret|]. destruct (_ <=? _); [by apply wp_ret|].
  assert (Hst : state (tk s t) = TASK_READY).
  { unfold task_migration_reason_locked in Hcan. destruct (t =? 0); [done|]. destruct (task_is_idle_task s t); [done|].
    destruct (bool_decide _) eqn:Hb; [by apply bool_decide_eq_true in Hb|done]. }
  wp_step. apply (push_inv_ok s q T); [done|done|done| |done|].
  { apply rebalance_cpu_nonneg. apply normalize_nonneg. apply u32_range. }
  intros s1 Hi1 Hm1. wp_step. wp_step. apply wp_ret. eapply HQ; [exact Hi1|by eapply keeps_requeue|]. rewrite (md_tk _ _ _ _ Hm1). by rewrite decide_True.
Qed.

(** ** [task_fork] *)

(** The child is made ready, listed, and moved to a less loaded CPU. *)
Definition publish (me t spawn : Z) : ST ss Z :=
  _ ← task_mark_ready_on_cpu_locked t spawn;
  modify (fun s => with_list s t (fset s.(tnext) t s.(task_list)));;
  _ ← task_rebalance_ready_task_locked t;
  s ← getS;
  task_request_resched_cpu me (u32 (s.(tk) t).(cpu_affinity));;
  s ← getS;
  mret (s.(tk) t).(pid).

Lemma publish_ok s q T me t spawn (Q : Z -> ss -> Prop) :
  inv s q T -> t <> 0 -> t ∉ T -> (forall c, is_cpu s c -> idle s c <> t) -> 0 <= spawn -> zlen T + 1 < s.(next_pid) ->
  (s.(tk) t).(pid) <> 0 -> (s.(tk) t).(state) = TASK_RUNNING -> (s.(tk) t).(on_cpu) = false ->
  (forall s' q', inv s' q' (t :: T) -> keeps (eq t) s q s' q' -> Q (s.(tk) t).(pid) s') -> wp E (publish me t spawn) Q s.
Proof using.
  intros Hi Ht0 Ht Hidle Hcpu Hroom Hpid Hst Hon HQ. unfold publish. wp_step.
  apply (ready_q_ok E s q); [apply Hi|done|done|done|intros d; by apply (queue_room s q T)|by rewrite Hst|]. intros s1 _ Hq1 Hm1.
  set (x := set_on_runq true _) in Hm1. pose proof (md_tk _ _ _ _ Hm1 t) as Hx. rewrite decide_True in Hx by done. wp_step. wp_step.
  pose proof (inv_published s q T t Hi Ht0 Ht Hidle x s1 _ Hm1 Hq1 eq_refl eq_refl Hpid Hon Hroom) as Hi2.
  pose proof (keeps_requeue s q t x s1 (normalize_cpu_affinity s spawn) Hm1) as Hk1. set (s2 := with_list _ _ _) in *.
  assert (Hu2 : forall c, ~ uses s2 c t).
  { intros c [Hc Hor]. apply (new_unused s q T t Hi Ht0 Ht Hidle c). destruct Hm1 as [[_ _ (R3&_&_) _ R7] _ _].
    destruct (R7 c) as (C1&_&C3). unfold uses, is_cpu, cur, from in *. simpl in *. by rewrite R3, C1, C3 in *. }
  assert (Hk2 : forall q, keeps (eq t) s1 q s2 q) by (by split).
  wp_step. eapply rebalance_ok; [exact Hi2|apply list_elem_of_here|done|]. intros r s3 q3 Hi3 Hk3 Hp3.
  wp_step. wp_step. wp_step. apply (request_resched_cpu_ok E (t :: T) s3 q3); [done|]. intros s4 Hi4 Hv4. wp_step. wp_step. apply wp_ret.
  assert (Hp : pid (tk s4 t) = pid (tk s t)).
  { destruct (vw_tk _ _ Hv4 t) as (_&_&_&Hp&_). cbv zeta in Hp. rewrite Hp, Hp3. unfold s2. simpl. by rewrite Hx. }
  rewrite Hp. eapply HQ; [exact Hi4|]. eapply keeps_trans; [exact Hk1|]. eapply keeps_trans; [apply Hk2|]. eapply keeps_trans; [exact Hk3|by apply keeps_view].
Qed.

Lemma fork_ok s q T me t (Q : Z -> ss -> Prop) :
  inv s q T -> t <> 0 -> t ∉ T -> (forall c, is_cpu s c -> idle s c <> t) -> s.(next_pid) + 1 < 2 ^ 31 ->
  (forall s' q', inv s' q' (t :: T) -> keeps (eq t) s q s' q' -> Q s.(next_pid) s') -> wp E (task_fork me t) Q s.
Proof using.
  intros Hi Ht0 Ht Hidle Hpid HQ. pose proof (iv_pids _ _ _ Hi) as Hpids. unfold task_fork. do 9 wp_step.
  unfold upd_task at 1. wp_step. set (s1 := with_tk _ _).
  assert (Htk1 : forall y, y <> t -> tk s1 y = tk s y) by (intros y Hne; unfold s1; simpl; by rewrite !fset_ne).
  assert (Hx1 : pid (tk s1 t) = next_pid s /\ state (tk s1 t) = TASK_RUNNING /\ on_runq (tk s1 t) = false /\ on_cpu (tk s1 t) = false).
  { unfold s1. simpl. by rewrite !fset_eq. }
  assert (Hi1 : inv s1 q T).
  { apply (inv_filled s q T t); try done; [simpl; lia| | |apply Hx1].
    - intros y Hne. split; [by apply Htk1|]. unfold s1. simpl. by rewrite fset_ne.
    - intros y Hne. unfold s1. simpl. by rewrite !fset_ne. }
  assert (Hk1 : keeps (eq t) s q s1 q).
  { split; [done| |done|done]. intros y Hy. cbv zeta. rewrite Htk1 by congruence. done. }
  assert (Hn1 : next_pid s1 = next_pid s + 1) by done. assert (Hid1 : forall c, is_cpu s1 c -> idle s1 c <> t) by exact Hidle. clearbody s1. wp_step.
  apply choose_fork_ok; [apply u32_range|]. intros cpu s2 Hcpu Hv2 Htk2. pose proof (inv_view _ _ _ _ Hi1 Hv2) as Hi2.
  destruct (vw_list _ _ Hv2) as (_&_&Hp2&Hc2). destruct Hx1 as (X1&X2&X3&X4).
  apply (publish_ok s2 q T); rewrite ?Htk2; try done.
  - intros c Hc. destruct (vw_cpu _ _ Hv2 c) as (_&Hid&_). unfold idle. cbv zeta in Hid. rewrite Hid. apply Hid1. unfold is_cpu in *. by rewrite <- Hc2.
  - rewrite Hp2, Hn1. lia.
  - rewrite X1. unfold zlen in Hpids. lia.
  - intros s' q' Hi' Hk'. rewrite X1. eapply HQ; [exact Hi'|]. eapply keeps_trans; [exact Hk1|]. eapply keeps_trans; [by apply keeps_view|exact Hk'].
Qed.

Lemma create_ok s q T t cpu (Q : Z -> ss -> Prop) :
  inv s q T -> t <> 0 -> t ∉ T -> (forall c, is_cpu s c -> idle s c <> t) -> s.(next_pid) + 1 < 2 ^ 31 -> 0 <= cpu ->
  (forall s' q', inv s' q' (t :: T) -> keeps (eq t) s q s' q' -> Q t s') -> wp E (task_create_on_cpu t cpu true) Q s.
Proof using.
  intros Hi Ht0 Ht Hidle Hpid Hcpu HQ. pose proof (iv_pids _ _ _ Hi) as Hpids. unfold task_create_on_cpu, alloc_task_struct. do 7 wp_step.
  unfold upd_task at 1. wp_step. set (s1 := with_tk _ _).
  assert (Htk1 : forall y, y <> t -> tk s1 y = tk s y) by (intros y Hne; unfold s1; simpl; by rewrite !fset_ne).
  assert (Hx1 : pid (tk s1 t) = next_pid s /\ state (tk s1 t) = TASK_RUNNING /\ on_runq (tk s1 t) = false /\ on_cpu (tk s1 t) = false).
  { unfold s1. simpl. by rewrite !fset_eq. }
  assert (Hi1 : inv s1 q T).
  { apply (inv_filled s q T t); try done; [simpl; lia| | |apply Hx1].
    - intros y Hne. split; [by apply Htk1|]. unfold s1. simpl. by rewrite fset_ne.
    - intros y Hne. unfold s1. simpl. by rewrite !fset_ne. }
  assert (Hk1 : keeps (eq t) s q s1 q).
  { split; [done| |done|done]. intros y Hy. cbv zeta. rewrite Htk1 by congruence. done. }
  assert (Hn1 : next_pid s1 = next_pid s + 1) by done. assert (Hid1 : forall c, is_cpu s1 c -> idle s1 c <> t) by exact Hidle. clearbody s1.
  destruct Hx1 as (X1&X2&X3&X4). assert (Hp1 : pid (tk s1 t) <> 0) by (rewrite X1; unfold zlen in Hpids; lia).
  wp_step. apply (ready_q_ok E s1 q); [apply Hi1|done|done|done|intros d; by apply (queue_room s1 q T)|by rewrite X2|]. intros s2 _ Hq2 Hm2.
  pose proof (md_tk _ _ _ _ Hm2 t) as Hx2. rewrite decide_True in Hx2 by done.
  wp_step. eapply upd_task_ok; [exact Hq2|done|done|by rewrite Hx2|]. rewrite Hx2. intros s3 Hm3 Hq3. simpl negb. cbv iota. wp_step. wp_step. apply wp_ret.
  pose proof (moved_trans _ _ _ _ _ _ Hm2 Hm3) as Hm. eapply HQ.
  - eapply (inv_published s1 q T t Hi1 Ht0 Ht Hid1 _ s3 _ Hm Hq3); try done. rewrite Hn1. lia.
  - eapply keeps_trans; [exact Hk1|]. eapply keeps_trans; [by eapply keeps_requeue|]. by split.
Qed.

(** ** [task_reap] *)

(** The list up to [t], with the place that points at it. *)
Lemma find_link_spec fuel next link x l1 t l2 :
  sl next x (l1 ++ t :: l2) -> t ∉ l1 -> (length l1 < fuel)%nat ->
  find_link fuel next link x t = Some (match last l1 with None => link | Some p => Some p end).
Proof using.
  revert fuel link x. induction l1 as [|y l1 IH]; intros fuel link x Hs Ht Hf; (destruct fuel as [|fuel]; [simpl in Hf; lia|]); simpl in *.
  - destruct Hs as (->&H0&_). rewrite (proj2 (Z.eqb_neq t 0) H0). by rewrite Z.eqb_refl.
  - destruct Hs as (->&H0&Hs). rewrite (proj2 (Z.eqb_neq y 0) H0). apply not_elem_of_cons in Ht as [Hty Ht].
    rewrite (proj2 (Z.eqb_neq y t)) by congruence. rewrite (IH fuel (Some y) _ Hs Ht) by lia.
    destruct l1 as [|z l1]; [done|]. rewrite last_cons_cons. by destruct (last (z :: l1)) eqn:Hl; [|apply last_None in Hl].
Qed.

(** [t] out of the list. *)
Lemma sl_unlink next next' x l1 t l2 : sl next x (l1 ++ t :: l2) -> NoDup (l1 ++ t :: l2) ->
  (forall y, y <> t -> next' y = if decide (Some y = last l1) then next t else next y) ->
  sl next' (match l1 with [] => next t | _ => x end) (l1 ++ l2).
Proof using.
  intros Hs Hnd Hn. assert (Htail : forall z, (forall y, y ∈ l2 -> Some y <> last l1) -> sl next z l2 -> t ∉ l2 -> sl next' z l2).
  { intros z Hl Hz Ht. eapply sl_ext; [|exact Hz]. intros y Hy. rewrite Hn by (intros ->; done). by rewrite decide_False by auto. }
  revert x Hs Hnd Hn Htail. induction l1 as [|y l1 IH]; intros x Hs Hnd Hn Htail; simpl in *.
  - destruct Hs as (->&_&Hs). apply NoDup_cons in Hnd as [Ht _]. by apply Htail.
  - destruct Hs as (->&H0&Hs). apply NoDup_cons in Hnd as [Hy Hnd]. split; [done|]. split; [done|].
    assert (Hyt : y <> t) by (intros ->; apply Hy, elem_of_app; right; apply list_elem_of_here).
    rewrite (Hn y Hyt). destruct l1 as [|z l1]; simpl in *.
    + rewrite decide_True by done. destruct Hs as (_&_&Hs). apply NoDup_cons in Hnd as [Ht _]. apply Htail; [|done|done].
      intros w Hw [= ->]. by apply Hy, list_elem_of_further.
    + rewrite decide_False; [by apply IH|]. intros He. apply Hy. symmetry in He. apply last_Some_elem_of in He.
      rewrite app_comm_cons. apply elem_of_app. by left.
Qed.

Lemma inv_dropped s q T1 t T2 s' q' : inv s q (T1 ++ t :: T2) -> (forall c, ~ uses s c t) ->
  sl s'.(tnext) s'.(task_list) (T1 ++ T2) -> runqs s' q' -> (s'.(tk) t).(on_runq) = false ->
  (forall y, y <> t -> s'.(tk) y = s.(tk) y) -> s'.(g_cpu_count) = s.(g_cpu_count) -> s'.(next_pid) = s.(next_pid) ->
  (forall c, cur s' c = cur s c /\ idle s' c = idle s c /\ from s' c = from s c) -> inv s' q' (T1 ++ T2).
Proof using.
  intros [I1 I2 I3 I4 I5 I6 I7 I8 I9 I10 I11 I12 I13] Hnu Hs Hq Hon Htk Hn Hp Hcf.
  assert (Hsub : forall y, y ∈ T1 ++ T2 <-> y ∈ T1 ++ t :: T2 /\ y <> t).
  { apply NoDup_app in I3 as (_&Hd&[Ht2 _]%NoDup_cons). intros y. rewrite !elem_of_app, elem_of_cons. split; [|tauto].
    intros Hy. split; [tauto|]. intros ->. destruct Hy as [Hy|]; [|done]. apply (Hd t Hy). apply list_elem_of_here. }
  assert (Hic : forall c, is_cpu s' c <-> is_cpu s c) by (intros c; unfold is_cpu; by rewrite Hn).
  assert (Hh : forall y, y <> t -> home s' y = home s y) by (intros y Hne; apply home_same; [done|by rewrite Htk]).
  split.
  - done.
  - done.
  - rewrite <- (without_app t T1 T2 I3). by apply NoDup_without.
  - rewrite Hp. unfold zlen in *. rewrite length_app in *. simpl in I4. lia.
  - intros y [Hy Hne]%Hsub. rewrite Htk; auto.
  - intros c Hc%Hic. destruct (Hcf c) as (_&->&_). destruct (I6 c Hc) as (?&Hni&?&?).
    assert (Hne : idle s c <> t) by (intros He; apply Hni; rewrite He; apply elem_of_app; right; apply list_elem_of_here).
    rewrite Htk by done. split_and!; try done. by intros [? _]%Hsub.
  - intros c d Hc%Hic Hd%Hic. destruct (Hcf c) as (_&->&_), (Hcf d) as (_&->&_). auto.
  - intros y Hy0 Ho. destruct (decide (y = t)) as [->|Hne]; [congruence|]. rewrite Htk in Ho by done. apply Hsub. auto.
  - intros c Hc%Hic. destruct (Hcf c) as (->&->&_). assert (Hne : cur s c <> t) by (intros He; apply (Hnu c); split; auto).
    rewrite Hh by done. destruct (I9 c Hc) as [|[]]; [by left|right]. split; [by apply Hsub|done].
  - intros c Hc%Hic. destruct (Hcf c) as (->&->&->). assert (Hne : from s c <> t) by (intros He; apply (Hnu c); split; auto).
    rewrite Hh by done. intros Hf. destruct (I10 c Hc Hf) as [? [|[]]]; (split; [done|]); [by left|right]. split; [by apply Hsub|done].
  - intros y [Hy Hne]%Hsub. rewrite Htk; auto.
  - intros y [Hy Hne]%Hsub. rewrite Htk by done. intros Hst. destruct (I12 y Hy Hst) as (c&Hc&He). exists c. rewrite Hic. by destruct (Hcf c) as (->&_).
  - intros y [Hy Hne]%Hsub. rewrite Htk by done. intros Hp1. rewrite (I13 y Hy Hp1). unfold uses.
    split; intros (c&Hcc&Hor); exists c; destruct (Hcf c) as (C1&_&C3); rewrite ?C1, ?C3, ?Hic in *; done.
Qed.

(** Reaping: refused, or the task was dead and on no CPU, and is gone. *)
Lemma reap_locked_ok s q T t (Q : Z -> ss -> Prop) :
  inv s q T -> t ∈ T -> (s.(tk) t).(pid) <> 1 ->
  (gone (s.(tk) t).(state) = false \/ (s.(tk) t).(on_cpu) = true -> Q (-1) s) ->
  (forall s' q', gone (s.(tk) t).(state) = true -> (s.(tk) t).(on_cpu) = false -> inv s' q' (without t T) -> keeps (eq t) s q s' q' -> Q 0 s') ->
  wp E (task_reap_locked t) Q s.
Proof using.
  intros Hi Ht Hp1 Hno HQ. pose proof (iv_task_nz _ _ _ _ Hi Ht) as Ht0. unfold task_reap_locked. wp_step. wp_step. rewrite (proj2 (Z.eqb_neq t 0) Ht0).
  destruct (gone (state (tk s t))) eqn:Hg; simpl negb; cbv iota; [|apply wp_ret; auto].
  destruct (on_cpu (tk s t)) eqn:Hc; [apply wp_ret; auto|].
  assert (Hnu : forall c, ~ uses s c t) by (intros c Hu; assert (on_cpu (tk s t) = true) by (apply (iv_on_cpu _ _ _ Hi t Ht Hp1); eauto); congruence).
  wp_step. wp_step; [|unfold task_is_idle_task; by rewrite (proj2 (Z.eqb_neq (pid _) 0) (iv_pid _ _ _ Hi t Ht)), andb_false_r].
  match goal with H : negb _ = true |- _ => clear H end.
  wp_step. apply (remove_ok E s q); [apply Hi|done|]. intros s1 Hm1 Hq1. wp_step. wp_step.
  pose proof Hm1 as [[R1 R2 (R3&R4&R5) R6 R7] Htk1 _]. pose proof (iv_list _ _ _ Hi) as Hsl. pose proof (iv_nodup _ _ _ Hi) as Hnd.
  pose proof (iv_pids _ _ _ Hi) as Hpids. apply list_elem_of_split in Ht as (T1&T2&->).
  assert (Ht1 : t ∉ T1) by (apply NoDup_app in Hnd as (_&Hd&_); intros Hin; apply (Hd t Hin), list_elem_of_here).
  rewrite R1, R4, R5, (find_link_spec _ _ None _ T1 t T2 Hsl Ht1) by (unfold zlen in Hpids; rewrite length_app in Hpids; lia).
  unfold upd_task. wp_steps. set (s' := with_tk _ _).
  assert (Htk : forall y, y <> t -> tk s' y = tk s y).
  { intros y Hy. transitivity (tk s1 y); [|rewrite Htk1; by rewrite decide_False]. unfold s'. simpl. rewrite !fset_ne by done. by destruct (last T1). }
  assert (Hon : on_runq (tk s' t) = false) by (unfold s'; simpl; by rewrite fset_eq).
  assert (Htn : forall y, y <> t -> tnext s' y = if decide (Some y = last T1) then tnext s t else tnext s y).
  { intros y Hy. unfold s'. destruct (last T1) as [p|] eqn:Hl; simpl; rewrite fset_ne, ?fset_spec, R1 by done; [|done].
    destruct (decide (y = p)) as [->|]; [by rewrite decide_True|]. by rewrite decide_False by congruence. }
  assert (Htl : task_list s' = match T1 with [] => tnext s t | _ => task_list s end).
  { unfold s'. destruct T1 as [|y T1]; simpl; [by rewrite R1|]. by destruct (last (y :: T1)) eqn:Hl; [|apply last_None in Hl]. }
  assert (Hq' : runqs s' (fun d => without t (q d))).
  { apply (runqs_unqueued s1 _ t); try done; unfold s'; simpl; try by destruct (last T1).
    - rewrite Htk1. by rewrite decide_True.
    - intros y Hy. rewrite !fset_ne by done. by destruct (last T1).
    - intros y Hy. rewrite !fset_ne by done. by destruct (last T1). }
  assert (Hv : g_cpu_count s' = g_cpu_count s /\ next_pid s' = next_pid s) by (unfold s'; simpl; by destruct (last T1)).
  assert (Hcf : forall c, cur s' c = cur s c /\ idle s' c = idle s c /\ from s' c = from s c) by (intros c; unfold s', cur, idle, from; simpl; destruct (last T1); apply R7).
  clearbody s'. rewrite (without_app t T1 T2 Hnd) in HQ. apply (HQ s' (fun d => without t (q d))); [done|done| |].
  - apply (inv_dropped s q T1 t T2); try done; [|apply Hv|apply Hv]. rewrite Htl. by apply (sl_unlink (tnext s)).
  - split; [apply Hv| |intros d; apply Hcf|].
    + intros y Hy. cbv zeta. by rewrite Htk by congruence.
    + intros d y _ Hy Hin. split; [apply elem_of_without; split; congruence|by apply pos_without].
Qed.
End ops.
