(* ===== verification/SchedSteps.v ===== *)
(** * The scheduler as a transition system

    The operations other parts of the kernel call, in any order and on any CPU,
    from the state the boot sequence leaves. *)
From S2P Require Import Prelude State Links Task Runq Sched Switch SchedOps SchedLife.

(** The queue of a CPU, by its links. *)
Definition queue (s : ss) (c : Z) : list Z := chain (S (Z.to_nat (s.(g_cpu_locals) c).(runq_count))) s.(runq_next) (s.(g_cpu_locals) c).(runq_head).

Inductive op :=
  | OSleep (t : Z) | OIoWait (t : Z) | OIoUntil (t ms : Z) | OZombie (t status : Z) | OWake (me t : Z) | OCancel (t : Z)
  | OSchedule (me : Z) | OFinish (me : Z) | OTick (me : Z) | OResched (me c : Z) | OConsume (me : Z) | OSetPgid (p g : Z)
  | OSignal (p sig : Z) (terminate : bool) (status parent_sig : Z) | OKill (g exclude sig status : Z)
  | OFork (me t : Z) | OCreate (t cpu : Z) | OReap (t : Z).

Definition ignore {S A} (m : ST S A) : ST S unit := _ ← m; mret ().

Definition run_op (o : op) : M unit :=
  match o with
  | OSleep t => ignore (task_mark_sleeping t)
  | OIoWait t => ignore (task_mark_io_wait t)
  | OIoUntil t ms => ignore (task_mark_io_wait_until t ms)
  | OZombie t status => ignore (task_mark_zombie t status)
  | OWake me t => ignore (task_wake me t)
  | OCancel t => ignore (task_cancel_sleep t)
  | OSchedule me => ignore (schedule me)
  | OFinish me => task_finish_switch me
  | OTick me => task_on_timer_tick me
  | OResched me c => task_request_resched_cpu me c
  | OConsume me => ignore (task_consume_resched me)
  | OSetPgid p g => ignore (task_set_pgid p g)
  | OSignal p sig terminate status parent_sig => ignore (task_signal_pid p sig terminate status parent_sig)
  | OKill g exclude sig status => ignore (task_kill_pgrp g exclude sig status)
  | OFork me t => ignore (task_fork me t)
  | OCreate t cpu => ignore (task_create_on_cpu t cpu true)
  | OReap t => ignore (task_reap t)
  end.

(** An address the allocator may return for a new task. *)
Definition fresh (s : ss) (t : Z) : Prop := t <> 0 /\ (t ∉ all_tasks s) /\ (forall c, is_cpu s c -> idle s c <> t) /\ s.(next_pid) + 1 < 2 ^ 31.

(** The caller names a task and a CPU there is.  Only a task that runs takes
    back its sleep; process 1 is not reaped, and reaping waits until the task
    is off its CPU. *)
Definition enabled (s : ss) (o : op) : Prop :=
  match o with
  | OSleep t | OIoWait t | OIoUntil t _ | OZombie t _ | OWake _ t => t ∈ all_tasks s
  | OCancel t => t ∈ all_tasks s /\ exists c, is_cpu s c /\ cur s c = t
  | OSchedule me | OFinish me => is_cpu s me
  | OFork _ t => fresh s t
  | OCreate t cpu => fresh s t /\ 0 <= cpu
  | OReap t => t ∈ all_tasks s /\ (s.(tk) t).(pid) <> 1 /\ (s.(tk) t).(on_cpu) = false
  | _ => True
  end.

(** The tasks an operation is about. *)
Definition touches (s : ss) (o : op) (t : Z) : Prop :=
  match o with
  | OSleep u | OIoWait u | OIoUntil u _ | OZombie u _ | OWake _ u | OCancel u | OFork _ u | OCreate u _ | OReap u => u = t
  | OTick _ => blocked (s.(tk) t).(state) = true
  | OSignal p _ _ _ _ => signalled s p t
  | OKill g _ _ _ => (s.(tk) t).(pgid) = g
  | _ => False
  end.

(** What an operation does to the queues. *)
Definition effect (s : ss) (q : Z -> list Z) (o : op) (s' : ss) (q' : Z -> list Z) : Prop :=
  match o with
  | OSchedule me => exists b, scheduled s q me b s' q'
  | OWake _ _ | OTick _ => keeps (touches s o) s q s' q' /\ mild s s'
  | _ => keeps (touches s o) s q s' q'
  end.

Lemma wp_ignore {A} E (m : M A) (Q : unit -> ss -> Prop) s : wp E m (fun _ => Q tt) s -> wp E (ignore m) Q s.
Proof. intros H. unfold ignore. apply wp_bind. eapply wp_mono; [exact H|]. done. Qed.

Lemma keeps_finished U s q me s' : finished s me s' -> keeps U s q s' q.
Proof.
  intros [_ (Hn&_&_) Hc Ht]. split; [done| |intros d; apply Hc|done]. intros t _. cbv zeta. rewrite Ht.
  by destruct (decide (t = from s me /\ from s me <> 0)).
Qed.

Lemma keeps_left T s q t x s' : left_queue T s q t x s' -> keeps (eq t) s q s' (fun d => without t (q d)).
Proof. intros [_ Hm]. eapply keeps_moved; [exact Hm|by left]. Qed.

(** Every operation keeps the invariant and fails no assertion. *)
Lemma op_ok s q T o : inv s q T -> enabled s o ->
  wp nopanic (run_op o) (fun _ s' => exists q' T', inv s' q' T' /\ effect s q o s' q' /\ forall t, t ∈ T -> o <> OReap t -> t ∈ T') s.
Proof.
  intros Hi Hen. pose proof (all_tasks_is s q T Hi) as Hall. destruct o; simpl in *; try apply wp_ignore.
  - rewrite Hall in Hen. apply (sleeping_ok _ T s q); [done|done|]. intros s' Hl. eexists _, T. split_and!; [apply Hl|by eapply keeps_left|done].
  - rewrite Hall in Hen. apply (io_wait_ok _ T s q); [done|done|]. intros s' Hl. eexists _, T. split_and!; [apply Hl|by eapply keeps_left|done].
  - rewrite Hall in Hen. apply (io_until_ok _ T s q); [done|done|]. intros s' Hl. eexists _, T. split_and!; [apply Hl|by eapply keeps_left|done].
  - rewrite Hall in Hen. apply (zombie_ok _ T s q); [done|done|]. intros s' Hl. eexists _, T. split_and!; [apply Hl|by eapply keeps_left|done].
  - rewrite Hall in Hen. apply (task_wake_ok _ T s q); [done|done|]. intros r s' q' Hi' Hk Hmi _. by exists q', T.
  - rewrite Hall in Hen. destruct Hen as (Ht&c&Hc&He). apply (cancel_sleep_ok _ T s q c); [done..|]. intros r s' q' Hi' Hk. by exists q', T.
  - apply (schedule_ok _ T s q); [done|done|]. intros b s' q' Hi' Hs. exists q', T. split_and!; [done|by exists b|done].
  - apply (finish_ok _ T s q); [done|done|]. intros s' Hi' Hf. exists q, T. split_and!; [done|by eapply keeps_finished|done].
  - apply (tick_ok _ T s q); [done|]. intros s' q' Hi' Hk Hmi. by exists q', T.
  - apply (request_resched_cpu_ok _ T s q); [done|]. intros s' Hi' Hv. exists q, T. split_and!; [done|by apply keeps_view|done].
  - apply (consume_resched_ok _ T s q); [done|]. intros r s' Hi' Hv. exists q, T. split_and!; [done|by apply keeps_view|done].
  - apply (set_pgid_ok _ T s q); [done|]. intros r s' Hi' Hv. exists q, T. split_and!; [done|by apply keeps_view|done].
  - apply (signal_pid_ok _ T s q); [done|]. intros r s' q' Hi' Hk. by exists q', T.
  - apply (kill_pgrp_ok _ T s q); [done|]. intros r s' q' Hi' Hk. by exists q', T.
  - destruct Hen as (H0&Hn&Hid&Hp). rewrite Hall in Hn. apply (fork_ok _ s q T); [done..|]. intros s' q' Hi' Hk. eexists q', _. split_and!; [exact Hi'|exact Hk|]. intros u Hu _. by apply list_elem_of_further.
  - destruct Hen as ((H0&Hn&Hid&Hp)&Hc). rewrite Hall in Hn. apply (create_ok _ s q T); [done..|]. intros s' q' Hi' Hk. eexists q', _. split_and!; [exact Hi'|exact Hk|]. intros u Hu _. by apply list_elem_of_further.
  - destruct Hen as (Ht&Hp&Hoff). rewrite Hall in Ht. unfold task_reap. wp_step. wp_step. wp_step. wp_step; [|by rewrite Hoff, orb_true_r].
    apply (reap_locked_ok _ s q T); [done|done|done| |].
    + intros _. exists q, T. split_and!; [done|apply keeps_refl|done].
    + intros s' q' _ _ Hi' Hk. eexists q', _. split_and!; [exact Hi'|exact Hk|]. intros u Hu Hne. apply elem_of_without. split; [done|congruence].
Qed.

(** The task is runnable. *)
Definition live (s : ss) (t : Z) : Prop := (s.(tk) t).(state) = TASK_READY \/ (s.(tk) t).(state) = TASK_RUNNING.

Lemma effect_state s q o s' q' t : effect s q o s' q' -> match o with OWake _ _ | OTick _ => True | _ => ~ touches s o t end ->
  (s'.(tk) t).(state) = (s.(tk) t).(state) \/ live s' t.
Proof.
  unfold live. intros He Hno. destruct o; simpl in He, Hno; try (left; apply He; exact Hno).
  - destruct He as [_ Hm]. destruct (Hm t); auto.
  - destruct He as (b&Hs). rewrite (sd_state _ _ _ _ _ _ Hs). destruct (decide (t = cur s' me)); [auto|]. destruct (decide _); auto.
  - destruct He as [_ Hm]. destruct (Hm t); auto.
Qed.

Lemma effect_cpus s q o s' q' : effect s q o s' q' -> s'.(g_cpu_count) = s.(g_cpu_count) /\
  forall c, is_cpu s c -> cur s' c = cur s c \/ (s'.(tk) (cur s' c)).(state) = TASK_RUNNING.
Proof.
  intros He. assert (Hk : forall U, keeps U s q s' q' -> s'.(g_cpu_count) = s.(g_cpu_count) /\
    forall c, is_cpu s c -> cur s' c = cur s c \/ (s'.(tk) (cur s' c)).(state) = TASK_RUNNING) by (intros U [K1 _ K3 _]; auto).
  destruct o; simpl in He; try (by eapply Hk); try (destruct He as [He _]; by eapply Hk).
  destruct He as (b&[S0 S1 _ S3 _]). split; [done|]. intros c Hc. destruct (decide (c = me)) as [->|Hne]; [|left; by apply S1].
  right. rewrite S3. by rewrite decide_True.
Qed.

(** ** Boot *)

(** The variables before anything ran. *)
Definition zero_ss (clk : nat -> Z) (started : Z) (cpu_started : Z -> bool) (spread : bool) : ss :=
  mkSs (fun _ => blank_task) (fun _ => 0) (fun _ => 0) (fun _ => 0) (fun _ => 0) (fun _ => 0)
    (fun _ => mkCpu 0 0 0 0 false 0 0) 1 0 1 0 spread started cpu_started [] (fun _ => 0) clk.

(** [task_init] on CPU 0, then an idle task for each of the others. *)
Definition boot (n t : Z) (idles : Z -> Z) : M unit :=
  task_init 0 t (idles 0);; task_set_cpu_count n;;
  each (seqZ 1 (n - 1)) (fun c => idle ← task_create_idle (idles c) c; task_bind_cpu_local c idle idle).

(** The CPUs below [k] are set up. *)
Record booting (n t : Z) (idles : Z -> Z) (k : Z) (s : ss) : Prop := mkBooting {
  bt_count : s.(g_cpu_count) = n;
  bt_list : s.(task_list) = t /\ s.(tnext) t = 0 /\ s.(next_pid) = 2;
  bt_task : let x := s.(tk) t in x.(pid) = 1 /\ x.(state) = TASK_RUNNING /\ x.(cpu_affinity) = 0;
  bt_off : forall y, (s.(tk) y).(on_runq) = false;
  bt_queue : forall c, let x := s.(g_cpu_locals) c in x.(runq_head) = 0 /\ x.(runq_tail) = 0 /\ x.(runq_count) = 0 /\ x.(switched_from) = 0;
  bt_cpu : forall c, 0 <= c < k -> idle s c = idles c /\ cur s c = (if decide (c = 0) then t else idles c) /\
    (s.(tk) (idles c)).(pid) = 0 /\ (s.(tk) (idles c)).(state) = TASK_RUNNING }.

Section boot.
Context (n t : Z) (idles : Z -> Z).
Context (Hn : 1 <= n <= ORTHOX_MAX_CPUS) (Ht : t <> 0) (Hid : forall c, 0 <= c < n -> idles c <> 0 /\ idles c <> t).
Context (Hinj : forall c d, 0 <= c < n -> 0 <= d < n -> idles c = idles d -> c = d).

Lemma boot_first clk started cs spread :
  wp nopanic (task_init 0 t (idles 0);; task_set_cpu_count n) (fun _ => booting n t idles 1) (zero_ss clk started cs spread).
Proof using Hn Ht Hid.
  destruct (Hid 0) as [H0 H0t]; [lia|]. change ORTHOX_MAX_CPUS with 64 in Hn.
  unfold task_init, task_create_idle, task_set_cpu_count, alloc_task_struct, init_cpu_local, upd_task, upd_cpu.
  rewrite (proj2 (Z.eqb_neq t 0) Ht), (proj2 (Z.eqb_neq _ 0) H0), (proj2 (Z.eqb_neq n 0)) by lia.
  simpl orb. cbv iota. wp_steps. split; cbn.
  - change ORTHOX_MAX_CPUS with 64. destruct (Z.ltb_spec 64 n); lia.
  - by rewrite fset_ne, fset_eq by congruence.
  - rewrite fset_eq. done.
  - intros y. rewrite !fset_spec. repeat case_decide; done.
  - intros c. rewrite !fset_spec. by case_decide.
  - intros c Hc. assert (c = 0) as -> by lia. unfold idle, cur. cbn. rewrite !fset_eq. rewrite (fset_ne _ t) by congruence. by rewrite !fset_eq.
Qed.

Lemma boot_cpu k s : 1 <= k < n -> booting n t idles k s ->
  wp nopanic (idle ← task_create_idle (idles k) k; task_bind_cpu_local k idle idle) (fun _ => booting n t idles (k + 1)) s.
Proof using Hn Ht Hid Hinj.
  intros Hk [B1 B2 B3 B4 B5 B6]. destruct (Hid k) as [H0 H0t]; [lia|]. change ORTHOX_MAX_CPUS with 64 in Hn.
  unfold task_create_idle, task_bind_cpu_local, alloc_task_struct, get_cpu_local_by_id, init_cpu_local, upd_task, upd_cpu.
  rewrite (proj2 (Z.eqb_neq _ 0) H0). wp_steps. cbn. rewrite B1, (proj2 (Z.leb_gt n k)) by lia.
  change ORTHOX_MAX_CPUS with 64. rewrite (proj2 (Z.leb_gt 64 k)) by lia. simpl orb. cbv iota. wp_steps.
  rewrite (proj2 (Z.eqb_neq (idles k) 0) H0). wp_steps. split; cbn.
  - done.
  - by rewrite fset_ne by congruence.
  - rewrite !fset_ne by congruence. done.
  - intros y. rewrite !fset_spec. repeat case_decide; try done; by rewrite B4.
  - intros c. rewrite !fset_spec. case_decide; [|apply B5]. subst. destruct (B5 k) as (_&_&_&Hf). done.
  - intros c Hc. unfold idle, cur. cbn. destruct (decide (c = k)) as [->|Hne].
    + rewrite !fset_eq. cbn. rewrite (decide_False (P := k = 0)) by lia. done.
    + rewrite !(fset_ne _ k) by done. rewrite !(fset_ne _ (idles k)) by (intros He; apply Hne, Hinj; [lia|lia|done]). apply B6. lia.
Qed.

Lemma boot_rest k m s : 1 <= k -> k + Z.of_nat m = n -> booting n t idles k s ->
  wp nopanic (each (seqZ k (Z.of_nat m)) (fun c => idle ← task_create_idle (idles c) c; task_bind_cpu_local c idle idle)) (fun _ => booting n t idles n) s.
Proof using Hn Ht Hid Hinj.
  revert k s. induction m as [|m IH]; intros k s Hk Hm Hb.
  - simpl. apply wp_ret. by assert (k = n) as <- by lia.
  - replace (seqZ k (Z.of_nat (S m))) with (k :: seqZ (k + 1) (Z.of_nat m)) by (rewrite (seqZ_cons k (Z.of_nat (S m))) by lia; unfold Z.succ, Z.pred; do 2 f_equal; lia).
    cbn [each]. wp_step. eapply wp_mono; [apply (boot_cpu k s); [lia|done]|]. intros [] s' Hb'. apply IH; [lia|lia|done].
Qed.

(** The scheduler's invariant holds after boot. *)
Lemma booted_inv s : booting n t idles n s -> inv s (fun _ => []) [t].
Proof using Hn Ht Hid Hinj.
  intros [B1 (B2&B3&B4) (B5&B6&B7) B8 B9 B10]. assert (Hic : forall c, is_cpu s c -> 0 <= c < n) by (intros c; unfold is_cpu; by rewrite B1).
  assert (Hh : home s t = 0).
  { unfold home, task_normalize_cpu_affinity_internal, normalize_cpu_affinity, task_get_cpu_count. rewrite B7, B1. change (u32 0) with 0.
    rewrite (proj2 (Z.eqb_neq n 0)) by lia. by rewrite (proj2 (Z.leb_gt n 0)) by lia. }
  split.
  - split.
    + by rewrite B1.
    + intros c Hc. unfold ring_next, ring_prev. simpl. rewrite !fset_eq. destruct (B9 c) as (->&->&_). done.
    + intros c _. apply NoDup_nil_2.
    + intros c y _. split; [by intros ?%not_elem_of_nil|]. intros (_&?&_). by rewrite B8 in *.
    + intros c _. destruct (B9 c) as (_&_&->&_). done.
    + intros y _. by rewrite B8.
  - simpl. rewrite B2. done.
  - apply NoDup_singleton.
  - rewrite B4. unfold zlen. simpl. lia.
  - intros y ->%list_elem_of_singleton. by rewrite B5.
  - intros c Hc%Hic. destruct (B10 c Hc) as (->&_&Hp&Hs), (Hid c Hc). split_and!; try done. by rewrite list_elem_of_singleton.
  - intros c d Hc%Hic Hd%Hic. destruct (B10 c Hc) as (->&_), (B10 d Hd) as (->&_). by apply Hinj.
  - intros y _. by rewrite B8.
  - intros c Hc%Hic. destruct (B10 c Hc) as (->&->&_). destruct (decide (c = 0)) as [->|]; [right|by left]. split; [apply list_elem_of_here|done].
  - intros c _. unfold from. destruct (B9 c) as (_&_&_&->). done.
  - intros y ->%list_elem_of_singleton. by rewrite B6.
  - intros y ->%list_elem_of_singleton _. exists 0. assert (Hc : 0 <= 0 < n) by lia. split; [unfold is_cpu; by rewrite B1|].
    by destruct (B10 0 Hc) as (_&->&_).
  - intros y ->%list_elem_of_singleton. by rewrite B5.
Qed.
End boot.
