(* ===== verification/SchedTheorems.v ===== *)
(** * What the scheduler guarantees

    In every state the kernel can reach from boot, by any operations on any
    CPUs in any order: no task runs on two CPUs, no ready task is lost, the
    queues are first in first out, and a task is reaped only when no CPU uses
    its stack. *)
From S2P Require Import Prelude State Links Task Runq Sched Switch SchedOps SchedLife SchedSteps.

Lemma sl_of_dl nx pv h x l : dl (fset nx 0 h) pv x l 0 -> 0 ∉ l -> sl nx (fset nx 0 h x) l.
Proof.
  revert x. induction l as [|y l IH]; intros x Hd H0; simpl in *; [by destruct Hd|]. destruct Hd as (->&_&Hd).
  apply not_elem_of_cons in H0 as [Hy H0]. split; [done|]. split; [done|]. rewrite <- (fset_ne nx 0 h y) by done. by apply IH.
Qed.

Lemma queue_is s q c : runqs s q -> is_cpu s c -> queue s c = q c.
Proof.
  intros Hq Hc. apply chain_sl.
  - pose proof (sl_of_dl _ _ _ _ _ (rq_dl _ _ Hq c Hc)) as Hs. rewrite fset_eq in Hs. apply Hs. intros [? _]%(rq_in _ _ Hq c 0 Hc). done.
  - rewrite (rq_count _ _ Hq c Hc). unfold zlen. lia.
Qed.

Inductive reach : ss -> Prop :=
  | reach_boot n t idles clk started cs spread s :
      1 <= n <= ORTHOX_MAX_CPUS -> t <> 0 -> (forall c, 0 <= c < n -> idles c <> 0 /\ idles c <> t) ->
      (forall c d, 0 <= c < n -> 0 <= d < n -> idles c = idles d -> c = d) ->
      boot n t idles (zero_ss clk started cs spread) = Ok (tt, s) -> reach s
  | reach_step s o s' : reach s -> enabled s o -> run_op o s = Ok (tt, s') -> reach s'.

Lemma reach_inv s : reach s -> exists q T, inv s q T.
Proof.
  induction 1 as [n t idles clk started cs spread s Hn Ht Hid Hinj Hb|s o s' Hr (q&T&Hi) Hen Hrun].
  - exists (fun _ => []), [t]. apply (booted_inv n t idles Hn Ht Hid Hinj). refine (wp_done _ (fun _ => booting n t idles n) _ _ _ _ Hb).
    unfold boot. apply wp_bind. pose proof (boot_first n t idles Hn Ht Hid clk started cs spread) as H1. unfold wp in H1 at 1.
    unfold wp at 1. unfold mbind, ST_bind in H1. destruct (task_init 0 t (idles 0) _) as [[[] s1]|]; [|done].
    apply wp_bind. unfold wp at 1. destruct (task_set_cpu_count n s1) as [[[] s2]|]; [|done].
    replace (n - 1) with (Z.of_nat (Z.to_nat (n - 1))) by lia. apply (boot_rest n t idles Hn Ht Hid Hinj); [lia|lia|done].
  - destruct (wp_done _ _ _ _ _ (op_ok s q T o Hi Hen) Hrun) as (q'&T'&Hi'&_&_). by exists q', T'.
Qed.

(** ** A machine with two CPUs and two new tasks *)

Lemma reach_run s o : reach s -> enabled s o -> is_ok (run_op o s) = true -> reach (run_state (run_op o) s).
Proof. intros Hr Hen Hok. eapply reach_step; [exact Hr|exact Hen|by apply run_ok_unit]. Qed.

Definition two_cpus : ss := run_state (boot 2 100 (fun c => 200 + c)) (zero_ss (fun _ => 0) 2 (fun _ => true) false).
Definition two_tasks : ss := run_state (run_op (OCreate 400 0)) (run_state (run_op (OCreate 300 0)) two_cpus).

Lemma two_cpus_reach : reach two_cpus.
Proof.
  eapply (reach_boot 2 100 (fun c => 200 + c)); [change ORTHOX_MAX_CPUS with 64; lia|lia|intros c Hc; lia|intros c d; lia|].
  apply run_ok_unit. by vm_compute.
Qed.

Lemma fresh_by s t n : s.(g_cpu_count) = n -> t <> 0 -> bool_decide (t ∉ all_tasks s) = true -> s.(next_pid) = 2 \/ s.(next_pid) = 3 ->
  (forall c, 0 <= c < n -> idle s c <> t) -> fresh s t.
Proof.
  intros Hn H0 Hl%bool_decide_eq_true Hp Hid. split; [done|]. split; [done|]. split; [|lia]. intros c Hc. apply Hid. by rewrite <- Hn.
Qed.

Lemma two_tasks_reach : reach two_tasks.
Proof.
  assert (Hid : forall s, idle s 0 = 200 -> idle s 1 = 201 -> forall c, 0 <= c < 2 -> idle s c < 300).
  { intros s H0 H1 c Hc. assert (c = 0 \/ c = 1) as [-> | ->] by lia; lia. }
  unfold two_tasks. apply reach_run; [apply reach_run; [apply two_cpus_reach| |by vm_compute]| |by vm_compute].
  - split; [|lia]. apply (fresh_by _ _ 2); [by vm_compute|lia|by vm_compute|left; by vm_compute|].
    intros c Hc. pose proof (Hid two_cpus ltac:(by vm_compute) ltac:(by vm_compute) c Hc). lia.
  - split; [|lia]. apply (fresh_by _ _ 2); [by vm_compute|lia|by vm_compute|right; by vm_compute|].
    intros c Hc. pose proof (Hid (run_state (run_op (OCreate 300 0)) two_cpus) ltac:(by vm_compute) ltac:(by vm_compute) c Hc). lia.
Qed.

(** ** Safety *)

(** Who runs and who waits. *)
Record exclusive (s : ss) : Prop := mkExclusive {
  ex_one_cpu : forall c d, is_cpu s c -> is_cpu s d -> cur s c = cur s d -> c = d;
  ex_running : forall t, t ∈ all_tasks s -> (s.(tk) t).(state) = TASK_RUNNING -> exists c, is_cpu s c /\ cur s c = t;
  ex_ready : forall t c, t ∈ all_tasks s -> is_cpu s c -> t ∈ queue s c <-> (s.(tk) t).(state) = TASK_READY /\ home s t = c;
  ex_once : forall c, is_cpu s c -> NoDup (queue s c) /\ (forall t, t ∈ queue s c -> t ∈ all_tasks s);
  ex_stack : forall t c, t ∈ all_tasks s -> (s.(tk) t).(pid) <> 1 -> is_cpu s c -> cur s c = t \/ from s c = t -> (s.(tk) t).(on_cpu) = true }.

Lemma inv_exclusive s q T : inv s q T -> exclusive s.
Proof.
  intros Hi. pose proof (iv_q _ _ _ Hi) as Hq. split.
  - intros c d. by apply (cur_inj s q T).
  - rewrite (all_tasks_is s q T Hi). apply Hi.
  - rewrite (all_tasks_is s q T Hi). intros t c Ht Hc. rewrite (queue_is s q c Hq Hc), (rq_in _ _ Hq c t Hc). split.
    + intros (H0&Hon&Hh). destruct (rq_ready _ _ Hq t H0 Hon). done.
    + intros [Hst Hh]. split_and!; [by eapply iv_task_nz|by apply (iv_ready _ _ _ Hi)|done].
  - rewrite (all_tasks_is s q T Hi). intros c Hc. rewrite (queue_is s q c Hq Hc). split; [by apply (rq_nodup _ _ Hq)|].
    intros t (H0&Hon&_)%(rq_in _ _ Hq c t Hc). by apply (iv_on _ _ _ Hi).
  - rewrite (all_tasks_is s q T Hi). intros t c Ht Hp Hc Hor. apply (iv_on_cpu _ _ _ Hi t Ht Hp). by exists c.
Qed.



(** [schedule] runs the task that has waited longest on the CPU's queue
    and puts the one it interrupts at the end; with nobody waiting the current
    task goes on, or the idle task runs.  The other CPUs see nothing. *)
Theorem schedule_fifo s me : reach s -> is_cpu s me ->
  exists b s', schedule me s = Ok (b, s') /\ (s'.(tk) (cur s' me)).(state) = TASK_RUNNING /\
    match queue s me with
    | [] => queue s' me = [] /\ cur s' me = (if decide ((s.(tk) (cur s me)).(state) = TASK_RUNNING) then cur s me else idle s me)
    | t :: l => queue s' me = l ++ (if decide (preempted s me) then [cur s me] else []) /\ cur s' me = t
    end /\
    forall d, is_cpu s d -> d <> me -> queue s' d = queue s d /\ cur s' d = cur s d.
Proof.
  intros Hr Hme. destruct (reach_inv s Hr) as (q&T&Hi).
  assert (Hw : wp nopanic (schedule me) (fun b s' => exists q', inv s' q' T /\ scheduled s q me b s' q') s).
  { apply (schedule_ok _ T s q); [done|done|]. intros b s' q' Hi' Hs. by exists q'. }
  destruct (wp_run _ _ _ Hw) as (b&s'&Hrun&q'&Hi'&[S0 S1 S2 S3 _]). exists b, s'. split; [done|]. split; [rewrite S3; by rewrite decide_True|].
  assert (Hq : forall d, is_cpu s d -> queue s d = q d) by (intros d Hd; by apply queue_is; [apply Hi|]).
  assert (Hq' : forall d, is_cpu s d -> queue s' d = q' d) by (intros d Hd; apply queue_is; [apply Hi'|unfold is_cpu in *; by rewrite S0]).
  rewrite (Hq me Hme), (Hq' me Hme). split; [done|]. intros d Hd Hne. rewrite (Hq d Hd), (Hq' d Hd). auto.
Qed.

Lemma schedule_fifo_witness : exists b s', schedule 0 two_tasks = Ok (b, s') /\ queue s' 0 = [400; 100] /\ cur s' 0 = 300.
Proof.
  assert (Hc : is_cpu two_tasks 0) by (assert (g_cpu_count two_tasks = 2) by (by vm_compute); unfold is_cpu; lia).
  destruct (schedule_fifo two_tasks 0 two_tasks_reach Hc) as (b&s'&Hrun&_&Hq&_). exists b, s'. split; [exact Hrun|].
  replace (queue two_tasks 0) with [300; 400] in Hq by (by vm_compute). destruct Hq as [-> ->]. split; [|done].
  rewrite decide_True; [by vm_compute|]. by split; vm_compute.
Defined.

(** ** Liveness *)

(** The kernel runs the operations [l], none of them about [t]. *)
Inductive exec (t : Z) : ss -> list op -> ss -> Prop :=
  | exec_nil s : exec t s [] s
  | exec_cons s o s1 l s2 : enabled s o -> ~ touches s o t -> run_op o s = Ok (tt, s1) -> exec t s1 l s2 -> exec t s (o :: l) s2.

(** How often [c] schedules. *)
Fixpoint schedules (c : Z) (l : list op) : nat :=
  match l with
  | [] => 0
  | OSchedule me :: l => (if decide (me = c) then 1 else 0) + schedules c l
  | _ :: l => schedules c l
  end.

(** All operations but [schedule] leave the tasks they are not about where they are. *)
Lemma effect_keeps s q o s' q' : effect s q o s' q' -> (exists me, o = OSchedule me) \/ keeps (touches s o) s q s' q' /\ forall c, schedules c [o] = 0%nat.
Proof. destruct o; simpl; intros He; eauto; right; (split; [|done]); apply He. Qed.

(** One step brings [t] to run or leaves it waiting on [c], closer if [c] scheduled. *)
Lemma effect_closer s q o s' q' c t : effect s q o s' q' -> is_cpu s c -> ~ touches s o t -> t ∈ q c ->
  is_cpu s' c /\ (cur s' c = t \/ t ∈ q' c /\ (pos t (q' c) + schedules c [o] <= pos t (q c))%nat).
Proof.
  intros He Hc Hno Hin. destruct (effect_keeps s q o s' q' He) as [(me&->)|[[K1 K2 K3 K4] Hs]].
  2: { split; [unfold is_cpu; by rewrite K1|right]. destruct (K4 c t Hc Hno Hin). rewrite Hs. split; [done|lia]. }
  destruct He as (b&[S0 S1 S2 _ _]). split; [unfold is_cpu; by rewrite S0|]. simpl. destruct (decide (me = c)) as [->|Hne].
  - destruct (q c) as [|x l]; [by apply not_elem_of_nil in Hin|]. destruct S2 as [-> ->]. simpl. destruct (decide (x = t)) as [|Hx]; [by left|right].
    apply elem_of_cons in Hin as [->|Hin]; [done|]. split; [apply elem_of_app; by left|]. rewrite pos_app_l by done. lia.
  - right. destruct (S1 c Hc (not_eq_sym Hne)) as [-> _]. split; [done|lia].
Qed.

(** C15: a ready task is not starved: on its CPU's queue, with [n] tasks before
    it, it runs after at most [n + 1] calls of [schedule] there, whatever else
    the kernel does meanwhile to other tasks. *)
Theorem ready_task_runs s c t l s' :
  reach s -> is_cpu s c -> t ∈ queue s c -> exec t s l s' -> (pos t (queue s c) < schedules c l)%nat ->
  exists l1 l2 s1, l = l1 ++ l2 /\ exec t s l1 s1 /\ cur s1 c = t.
Proof.
  intros Hr Hc Hin Hex. destruct (reach_inv s Hr) as (q&T&Hi). rewrite (queue_is s q c (iv_q _ _ _ Hi) Hc) in *. clear Hr.
  revert q T Hi Hc Hin. induction Hex as [s|s o s1 l s2 Hen Hno Hrun Hex IH]; intros q T Hi Hc Hin Hlt; [simpl in Hlt; lia|].
  destruct (wp_done _ _ _ _ _ (op_ok s q T o Hi Hen) Hrun) as (q1&T1&Hi1&He&_).
  destruct (effect_closer s q o s1 q1 c t He Hc Hno Hin) as [Hc1 [Hcur|[Hin1 Hpos]]].
  - exists [o], l, s1. split; [done|]. split; [|done]. by eapply exec_cons; [..|apply exec_nil].
  - assert (Hs : schedules c (o :: l) = (schedules c [o] + schedules c l)%nat) by (destruct o; simpl; lia).
    destruct (IH q1 T1 Hi1 Hc1 Hin1) as (l1&l2&s3&->&Hex1&Hcur); [lia|]. exists (o :: l1), l2, s3. split; [done|]. split; [by eapply exec_cons|done].
Qed.

Lemma ready_task_runs_witness : exists l1 l2 s1, [OSchedule 0; OTick 0; OSchedule 0] = l1 ++ l2 /\ exec 400 two_tasks l1 s1 /\ cur s1 0 = 400.
Proof.
  assert (Hc : forall s, g_cpu_count s = 2 -> is_cpu s 0) by (intros s; unfold is_cpu; lia).
  eapply (ready_task_runs two_tasks 0 400).
  - apply two_tasks_reach.
  - apply Hc. by vm_compute.
  - replace (queue two_tasks 0) with [300; 400] by (by vm_compute). apply list_elem_of_further, list_elem_of_here.
  - eapply exec_cons; [apply Hc; by vm_compute|intros []|apply run_ok_unit; by vm_compute|].
    eapply exec_cons; [done| |apply run_ok_unit; by vm_compute|]. { intros Hb. by vm_compute in Hb. }
    eapply exec_cons; [apply Hc; by vm_compute|intros []|apply run_ok_unit; by vm_compute|apply exec_nil].
  - replace (queue two_tasks 0) with [300; 400] by (by vm_compute). simpl. lia.
Defined.

(** ** Reaping *)

(** C36: reaping never takes away a stack that is in use: it succeeds exactly
    when the task is dead and off its CPU, and then no CPU runs it or is still
    leaving it, it is on no queue, and the list of tasks has lost it alone. *)
Theorem reap_safe s t : reach s -> t ∈ all_tasks s -> (s.(tk) t).(pid) <> 1 ->
  exists r s', task_reap_locked t s = Ok (r, s') /\
    if gone (s.(tk) t).(state) && negb (s.(tk) t).(on_cpu)
    then r = 0 /\ all_tasks s' = without t (all_tasks s) /\ forall c, is_cpu s c -> cur s c <> t /\ from s c <> t /\ t ∉ queue s' c
    else r = -1 /\ s' = s.
Proof.
  intros Hr Ht Hp. destruct (reach_inv s Hr) as (q&T&Hi). pose proof (all_tasks_is s q T Hi) as Hall. rewrite Hall in *.
  apply (wp_run (task_reap_locked t) (fun r s' => if gone (state (tk s t)) && negb (on_cpu (tk s t)) then _ else _)).
  apply (reap_locked_ok _ s q T); [done|done|done| |].
  - intros Hor. replace (gone (state (tk s t)) && negb (on_cpu (tk s t))) with false; [done|]. destruct Hor as [->| ->]; [done|by rewrite andb_false_r].
  - intros s' q' Hg Hoff Hi' Hk. rewrite Hg, Hoff. simpl. split; [done|]. split; [by apply (all_tasks_is s' q')|]. intros c Hc.
    assert (Hnu : ~ uses s c t) by (intros Hu; assert (on_cpu (tk s t) = true) by (apply (iv_on_cpu _ _ _ Hi t Ht Hp); by exists c); congruence).
    unfold uses in Hnu. split; [tauto|]. split; [tauto|].
    assert (Hc' : is_cpu s' c) by (unfold is_cpu; by rewrite (kp_cpus _ _ _ _ _ Hk)).
    rewrite (queue_is s' q' c (iv_q _ _ _ Hi') Hc'). intros (H0&Hon&_)%(rq_in _ _ (iv_q _ _ _ Hi') c t Hc').
    apply (iv_on _ _ _ Hi' t H0) in Hon. by apply elem_of_without in Hon as [_ ?].
Qed.

Lemma reap_safe_witness : let s := run_state (run_op (OZombie 300 0)) two_tasks in
  exists r s', task_reap_locked 300 s = Ok (r, s') /\ r = 0 /\ all_tasks s' = [400; 100].
Proof.
  intros s. assert (Ha : all_tasks s = [400; 300; 100]) by (by vm_compute).
  assert (Hr : reach s) by (apply reach_run; [apply two_tasks_reach|simpl; replace (all_tasks two_tasks) with [400; 300; 100] by (by vm_compute); apply list_elem_of_further, list_elem_of_here|by vm_compute]).
  destruct (reap_safe s 300 Hr) as (r&s'&Hrun&Hif).
  - rewrite Ha. apply list_elem_of_further, list_elem_of_here.
  - by vm_compute.
  - exists r, s'. split; [exact Hrun|]. replace (gone (state (tk s 300)) && negb (on_cpu (tk s 300))) with true in Hif by (by vm_compute).
    destruct Hif as (->&->&_). split; [done|]. rewrite Ha. by vm_compute.
Defined.

(** ** A kill that is lost *)

(** C37: marking a task as sleeping does not look whether it was killed: killed,
    then sleeping, then woken, a task is ready to run again, as if nobody had
    killed it. *)
Theorem kill_lost s me t status : reach s -> t ∈ all_tasks s ->
  exists s1 s2 s3, run_op (OZombie t status) s = Ok (tt, s1) /\ (s1.(tk) t).(state) = TASK_ZOMBIE /\
    run_op (OSleep t) s1 = Ok (tt, s2) /\ run_op (OWake me t) s2 = Ok (tt, s3) /\
    (s3.(tk) t).(state) = TASK_READY /\ t ∈ queue s3 (home s3 t).
Proof.
  intros Hr Ht. destruct (reach_inv s Hr) as (q&T&Hi). rewrite (all_tasks_is s q T Hi) in Ht. simpl.
  assert (H1 : wp nopanic (ignore (task_mark_zombie t status)) (fun _ s1 => exists q1, inv s1 q1 T /\ state (tk s1 t) = TASK_ZOMBIE) s).
  { apply wp_ignore, (zombie_ok _ T s q); [done|done|]. intros s1 [Hi1 Hm]. eexists. split; [exact Hi1|]. rewrite (md_tk _ _ _ _ Hm). by rewrite decide_True. }
  destruct (wp_run _ _ _ H1) as ([]&s1&Hr1&q1&Hi1&Hz).
  assert (H2 : wp nopanic (ignore (task_mark_sleeping t)) (fun _ s2 => exists q2, inv s2 q2 T /\ state (tk s2 t) = TASK_SLEEPING) s1).
  { apply wp_ignore, (sleeping_ok _ T s1 q1); [done|done|]. intros s2 [Hi2 Hm]. eexists. split; [exact Hi2|]. rewrite (md_tk _ _ _ _ Hm). by rewrite decide_True. }
  destruct (wp_run _ _ _ H2) as ([]&s2&Hr2&q2&Hi2&Hsl).
  assert (H3 : wp nopanic (ignore (task_wake me t)) (fun _ s3 => exists q3, inv s3 q3 T /\ state (tk s3 t) = TASK_READY) s2).
  { apply wp_ignore. unfold task_wake. rewrite (proj2 (Z.eqb_neq t 0) (iv_task_nz _ _ _ _ Hi Ht)). wp_step.
    apply (wake_ok _ T s2 q2); [done|done|by rewrite Hsl|]. intros s3 _ Hi3 Hm. simpl. wp_step. wp_step. wp_step.
    eapply request_resched_cpu_ok; [exact Hi3|]. intros s4 Hi4 Hv. apply wp_ret. eexists. split; [exact Hi4|].
    destruct (vw_tk _ _ Hv t) as (Hst&_). cbv zeta in Hst. rewrite Hst, (md_tk _ _ _ _ Hm). by rewrite decide_True. }
  destruct (wp_run _ _ _ H3) as ([]&s3&Hr3&q3&Hi3&Hrd). exists s1, s2, s3. split_and!; try done.
  pose proof (home_cpu s3 (rq_cpus _ _ (iv_q _ _ _ Hi3)) t) as Hc.
  apply (ex_ready _ (inv_exclusive s3 q3 T Hi3)); [by rewrite (all_tasks_is s3 q3 T Hi3)|done|done].
Qed.

Lemma kill_lost_witness : exists s1 s2 s3, run_op (OZombie 300 130) two_tasks = Ok (tt, s1) /\ (s1.(tk) 300).(state) = TASK_ZOMBIE /\
    run_op (OSleep 300) s1 = Ok (tt, s2) /\ run_op (OWake 1 300) s2 = Ok (tt, s3) /\
    (s3.(tk) 300).(state) = TASK_READY /\ 300 ∈ queue s3 (home s3 300).
Proof.
  apply (kill_lost two_tasks 1 300 130 two_tasks_reach). replace (all_tasks two_tasks) with [400; 300; 100] by (by vm_compute).
  apply list_elem_of_further, list_elem_of_here.
Defined.
