(* ===== verification/Wait.v ===== *)
(** * Wait queues, completions and sleep locks (kernel/wait.c, kernel/xv6fs.c)

    A wait queue is the address of its structure; its head and the links
    through the tasks are fields of the scheduler's state.  A completion and a
    sleep lock have the address of the queue in them.  Code that waits is a
    loop around [kernel_yield]; one pass of it, from taking the lock of the
    queue to giving it up, is one definition, which says whether the loop
    ends. *)
From S2P Require Import Prelude State Task.

(** The tasks with what waits on them. *)
Record ws := mkWs { sc : ss; c_done : Z -> Z; c_status : Z -> Z; sl_locked : Z -> bool; sl_holder : Z -> Z }.

Abbreviation W := (ST ws).
Definition with_sc (w : ws) (s : ss) : ws := mkWs s w.(c_done) w.(c_status) w.(sl_locked) w.(sl_holder).
Definition with_completion (w : ws) (d st : Z -> Z) : ws := mkWs w.(sc) d st w.(sl_locked) w.(sl_holder).
Definition with_sleeplock (w : ws) (l : Z -> bool) (h : Z -> Z) : ws := mkWs w.(sc) w.(c_done) w.(c_status) l h.
Definition tasks {A} (m : M A) : W A := lift sc with_sc m.

(** ** Wait queues *)

(** The tasks in the queue. *)
Definition wq_tasks (s : ss) (q : Z) : list Z := chain (Z.to_nat s.(next_pid)) s.(wait_next) (s.(wq_head) q).

Definition wait_queue_contains_locked (s : ss) (q t : Z) : bool :=
  if q =? 0 then false else bool_decide (t ∈ wq_tasks s q).

Definition wait_queue_add_current_locked (q t : Z) : M unit :=
  s ← getS;
  if (q =? 0) || (t =? 0) then mret () else
  if wait_queue_contains_locked s q t then mret () else
  modify (fun s => with_wait s (fset s.(wait_next) t (s.(wq_head) q)) (fset s.(wait_queue) t q) (fset s.(wq_head) q t)).

(** The task that came last, 0 if there is none. *)
Definition wait_queue_pop_locked (q : Z) : M Z :=
  s ← getS;
  let t := s.(wq_head) q in
  if (q =? 0) || (t =? 0) then mret 0 else
  modify (fun s => with_wait s (fset s.(wait_next) t 0) (fset s.(wait_queue) t 0) (fset s.(wq_head) q (s.(wait_next) t)));;
  mret t.

Definition wait_queue_remove_locked (q t : Z) : M unit :=
  s ← getS;
  if (q =? 0) || (t =? 0) then mret () else
  match find_link (Z.to_nat s.(next_pid)) s.(wait_next) None (s.(wq_head) q) t with
  | None => mret ()
  | Some None => modify (fun s => with_wait s (fset s.(wait_next) t 0) (fset s.(wait_queue) t 0) (fset s.(wq_head) q (s.(wait_next) t)))
  | Some (Some p) => modify (fun s => with_wait s (fset (fset s.(wait_next) p (s.(wait_next) t)) t 0) (fset s.(wait_queue) t 0) s.(wq_head))
  end.

Definition wait_queue_init (q : Z) : M unit :=
  if q =? 0 then mret () else modify (fun s => with_wait s s.(wait_next) s.(wait_queue) (fset s.(wq_head) q 0)).
Definition wait_queue_empty (s : ss) (q : Z) : bool := (q =? 0) || (s.(wq_head) q =? 0).

(** One pass of [wait_event] on CPU [me]: [Some r], it returns [r]; [None], it yields. *)
Definition wait_event (me q : Z) (condition : ws -> bool) : W (option Z) :=
  w ← getS;
  let current := (w.(sc).(g_cpu_locals) me).(current_task) in
  if (q =? 0) || (current =? 0) then mret (Some (-1)) else
  if condition w then tasks (wait_queue_remove_locked q current);; mret (Some 0) else
  tasks (wait_queue_add_current_locked q current);;
  _ ← tasks (task_mark_io_wait current);
  mret None.

(** The time [wait_event_timeout] waits for at the latest. *)
Definition wait_deadline (timeout_ms : Z) : W Z := now ← tasks arch_time_now_ms; mret (u64 (now + timeout_ms)).

Definition wait_event_timeout (me q : Z) (condition : ws -> bool) (timeout_ms deadline : Z) : W (option Z) :=
  w ← getS;
  let current := (w.(sc).(g_cpu_locals) me).(current_task) in
  if (q =? 0) || (current =? 0) then mret (Some (-1)) else
  if condition w then tasks (wait_queue_remove_locked q current);; mret (Some 1) else
  now ← tasks arch_time_now_ms;
  if (timeout_ms =? 0) || (deadline <=? now) then tasks (wait_queue_remove_locked q current);; mret (Some 0) else
  tasks (wait_queue_add_current_locked q current);;
  _ ← tasks (task_mark_io_wait_until current deadline);
  mret None.

Definition wake_up_one (me q : Z) : M unit :=
  if q =? 0 then mret () else
  t ← wait_queue_pop_locked q;
  if t =? 0 then mret () else _ ← task_wake me t; mret ().

Fixpoint wake_each (fuel : nat) (me q : Z) : M unit :=
  match fuel with
  | O => mret ()
  | S fuel => t ← wait_queue_pop_locked q; if t =? 0 then mret () else _ ← task_wake me t; wake_each fuel me q
  end.
Definition wake_up_all (me q : Z) : M unit :=
  if q =? 0 then mret () else s ← getS; wake_each (S (length (wq_tasks s q))) me q.

(** ** Completions *)

Definition completion_done (w : ws) (c : Z) : bool := negb (c =? 0) && (0 <? w.(c_done) c).

Definition set_completion (c d st : Z) : W unit := modify (fun w => with_completion w (fset w.(c_done) c d) (fset w.(c_status) c st)).
Definition init_completion (c : Z) : W unit := if c =? 0 then mret () else set_completion c 0 0;; tasks (wait_queue_init c).
Definition reinit_completion (c : Z) : W unit := if c =? 0 then mret () else set_completion c 0 0.

(** The counter is an int: adding to the largest one is undefined. *)
Definition complete_status (me c status : Z) : W unit :=
  if c =? 0 then mret () else
  w ← getS;
  kassert (w.(c_done) c <? 2 ^ 31 - 1) Undefined;;
  set_completion c (w.(c_done) c + 1) status;; tasks (wake_up_one me c).
Definition complete (me c : Z) : W unit := complete_status me c 0.
Definition complete_all_status (me c status : Z) : W unit :=
  if c =? 0 then mret () else set_completion c (2 ^ 31 - 1) status;; tasks (wake_up_all me c).
Definition complete_all (me c : Z) : W unit := complete_all_status me c 0.

(** After the wait. *)
Definition take_completion (c : Z) : W Z :=
  w ← getS;
  set_completion c (if 0 <? w.(c_done) c then w.(c_done) c - 1 else w.(c_done) c) (w.(c_status) c);; mret (w.(c_status) c).

Definition wait_for_completion_status (me c : Z) : W (option Z) :=
  if c =? 0 then mret (Some (-1)) else
  r ← wait_event me c (fun w => completion_done w c);
  match r with
  | None => mret None
  | Some r => if r <? 0 then mret (Some (-1)) else st ← take_completion c; mret (Some st)
  end.

(** The result and, for 1, the status. *)
Definition wait_for_completion_timeout_status (me c timeout_ms deadline : Z) : W (option (Z * option Z)) :=
  if c =? 0 then mret (Some (-1, None)) else
  r ← wait_event_timeout me c (fun w => completion_done w c) timeout_ms deadline;
  match r with
  | None => mret None
  | Some r => if r <=? 0 then mret (Some (r, None)) else st ← take_completion c; mret (Some (1, Some st))
  end.

(** ** The end of a child (kernel/task.c) *)

Definition task_child_zombie_ready (s : ss) (ppid want : Z) : bool := negb ((task_find_zombie_child s ppid want).1 =? 0).
Definition task_child_exit_wake (g_child_exit_wq me : Z) : M unit := wake_up_all me g_child_exit_wq.
Definition task_wait_child_exit (g_child_exit_wq me ppid want timeout_ms deadline : Z) : W (option Z) :=
  wait_event_timeout me g_child_exit_wq (fun w => task_child_zombie_ready w.(sc) ppid want) timeout_ms deadline.

(** ** Sleep locks (kernel/xv6fs.c) *)

Definition set_sleeplock (l : Z) (b : bool) (p : Z) : W unit := modify (fun w => with_sleeplock w (fset w.(sl_locked) l b) (fset w.(sl_holder) l p)).
Definition xv6_sleeplock_free (w : ws) (l : Z) : bool := negb (w.(sl_locked) l).
Definition xv6_sleeplock_init (l : Z) : W unit := tasks (wait_queue_init l);; set_sleeplock l false 0.

(** One pass of [xv6_sleep_lock], up to the call of [wait_event]: whether it has the lock. *)
Definition xv6_sleep_lock (me l : Z) : W bool :=
  w ← getS;
  if w.(sl_locked) l then mret false else
  let t := (w.(sc).(g_cpu_locals) me).(current_task) in
  set_sleeplock l true (if t =? 0 then 0 else (w.(sc).(tk) t).(pid));; mret true.

Definition xv6_sleep_unlock (me l : Z) : W unit := set_sleeplock l false 0;; tasks (wake_up_one me l).
