(* ===== verification/WaitLists.v ===== *)
(** * The lists of the wait queues

    The operations of the scheduler leave the wait queues alone; what adding,
    removing and popping do to the list of a queue. *)
From S2P Require Import Prelude State Links Task Runq Sched Switch SchedOps SchedLife SchedSteps Wait.

(** ** Code that does not touch the wait queues *)

Definition nowait {A} (m : M A) : Prop :=
  forall s a s', m s = Ok (a, s') -> s'.(wait_next) = s.(wait_next) /\ s'.(wq_head) = s.(wq_head).

Lemma nowait_ret {A} (a : A) : nowait (mret a).
Proof. intros s b s' [= _ <-]. done. Qed.
Lemma nowait_get : nowait getS.
Proof. intros s b s' [= _ <-]. done. Qed.
Lemma nowait_bind {A B} (m : M A) (k : A -> M B) : nowait m -> (forall a, nowait (k a)) -> nowait (m ≫= k).
Proof.
  intros Hm Hk s b s'. unfold mbind, ST_bind. destruct (m s) as [[a s1]|] eqn:He; [|done]. intros Hb.
  destruct (Hm s a s1 He) as [<- <-]. by apply (Hk a s1 b).
Qed.
Lemma nowait_modify f : (forall s, (f s).(wait_next) = s.(wait_next) /\ (f s).(wq_head) = s.(wq_head)) -> nowait (modify f).
Proof. intros Hf s b s' [= _ <-]. apply Hf. Qed.
Lemma nowait_kassert b p : nowait (kassert b p).
Proof. destruct b; [apply nowait_ret|by intros s a s']. Qed.
Lemma nowait_halt {A} p : nowait (halt p : M A).
Proof. by intros s a s'. Qed.
Lemma nowait_upd_task t f : nowait (upd_task t f).
Proof. by apply nowait_modify. Qed.
Lemma nowait_upd_cpu t f : nowait (upd_cpu t f).
Proof. by apply nowait_modify. Qed.
Lemma wp_nowait {A} E (m : M A) (Q : A -> ss -> Prop) s : nowait m ->
  wp E m (fun a s' => s'.(wait_next) = s.(wait_next) -> s'.(wq_head) = s.(wq_head) -> Q a s') s -> wp E m Q s.
Proof. intros Hm. unfold wp. destruct (m s) as [[a s']|] eqn:He; [|done]. destruct (Hm s a s' He). auto. Qed.
Create HintDb nowait.
#[export] Hint Resolve nowait_ret nowait_get nowait_kassert nowait_halt nowait_upd_task nowait_upd_cpu : nowait.

(** Through the code. *)
Ltac nowait :=
  repeat match goal with
  | |- forall _, nowait _ => intros ?
  | |- nowait (let x := _ in _) => cbv zeta
  | |- nowait (mbind _ _) => apply nowait_bind
  | |- nowait (modify _) => apply nowait_modify; intros ?; try (by repeat case_match)
  | |- nowait (match ?x with _ => _ end) => destruct x
  | |- nowait _ => progress eauto with nowait
  end.

Lemma nowait_remove t : nowait (task_runq_remove_locked t).
Proof. unfold task_runq_remove_locked. nowait. Qed.
#[export] Hint Resolve nowait_remove : nowait.
Lemma nowait_push t c : nowait (task_runq_push_locked t c).
Proof. unfold task_runq_push_locked. nowait. Qed.
Lemma nowait_pop c : nowait (task_runq_pop_locked c).
Proof. unfold task_runq_pop_locked. nowait. Qed.
#[export] Hint Resolve nowait_push nowait_pop : nowait.
Lemma nowait_ready t c : nowait (task_mark_ready_on_cpu_locked t c).
Proof. unfold task_mark_ready_on_cpu_locked. nowait. Qed.
#[export] Hint Resolve nowait_ready : nowait.
Lemma nowait_wake_locked t : nowait (task_wake_locked t).
Proof. unfold task_wake_locked. nowait. Qed.
Lemma nowait_resched me c : nowait (task_request_resched_cpu me c).
Proof. unfold task_request_resched_cpu. nowait. Qed.
#[export] Hint Resolve nowait_wake_locked nowait_resched : nowait.
Lemma nowait_wake me t : nowait (task_wake me t).
Proof. unfold task_wake. nowait. Qed.
Lemma nowait_zombie t st : nowait (task_mark_zombie t st).
Proof. unfold task_mark_zombie. nowait. Qed.
Lemma nowait_io_wait t : nowait (task_mark_io_wait t).
Proof. unfold task_mark_io_wait. nowait. Qed.
Lemma nowait_finish me : nowait (task_finish_switch me).
Proof. unfold task_finish_switch. nowait. Qed.
Lemma nowait_post t sig : nowait (post_signal t sig).
Proof. unfold post_signal. nowait. Qed.
#[export] Hint Resolve nowait_wake nowait_zombie nowait_io_wait nowait_finish nowait_post : nowait.
Lemma nowait_schedule me : nowait (schedule me).
Proof. unfold schedule. nowait. Qed.
Lemma nowait_kill l g ex sig st : nowait (kill_each l g ex sig st).
Proof. induction l as [|t l IH]; simpl; nowait. Qed.
Lemma nowait_poll_each l now woken cpus : nowait (poll_each l now woken cpus).
Proof. revert woken cpus. induction l as [|t l IH]; intros woken cpus; simpl; nowait. Qed.
Lemma nowait_each {A} (l : list A) f : (forall x, nowait (f x)) -> nowait (each l f).
Proof. intros Hf. induction l as [|x l IH]; simpl; nowait. Qed.
Lemma nowait_fork_cpu c : nowait (task_choose_fork_cpu_locked c).
Proof. unfold task_choose_fork_cpu_locked, choose_spawn_cpu_locked. nowait. Qed.
Lemma nowait_rebalance t : nowait (task_rebalance_ready_task_locked t).
Proof. unfold task_rebalance_ready_task_locked. nowait. Qed.
Lemma nowait_reap t : nowait (task_reap_locked t).
Proof. unfold task_reap_locked. nowait. Qed.
#[export] Hint Resolve nowait_schedule nowait_kill nowait_poll_each nowait_each nowait_fork_cpu nowait_rebalance nowait_reap : nowait.
Lemma nowait_poll me : nowait (task_poll_sleep_wakeups me).
Proof. unfold task_poll_sleep_wakeups, arch_time_now_ms. nowait. apply nowait_each. nowait. Qed.
#[export] Hint Resolve nowait_poll : nowait.

Lemma nowait_op o : nowait (run_op o).
Proof.
  destruct o; simpl; unfold ignore, task_mark_sleeping, task_mark_io_wait_until, task_cancel_sleep, task_on_timer_tick, task_consume_resched, task_request_resched,
    task_set_pgid, task_signal_pid, task_kill_pgrp, task_fork, task_create_on_cpu, alloc_task_struct, task_reap; nowait.
Qed.

(** ** The list of a queue *)

Definition waiters (s : ss) (q : Z) (l : list Z) : Prop := sl s.(wait_next) (s.(wq_head) q) l /\ NoDup l.

Lemma find_link_none fuel next link x l t : sl next x l -> t ∉ l -> find_link fuel next link x t = None.
Proof.
  revert link x l. induction fuel as [|fuel IH]; intros link x l Hs Ht; [done|]. simpl. destruct l as [|y l]; simpl in Hs; [by subst|].
  destruct Hs as (->&H0&Hs). apply not_elem_of_cons in Ht as [Hy Ht]. rewrite (proj2 (Z.eqb_neq y 0) H0), (proj2 (Z.eqb_neq y t)) by congruence. by eapply IH.
Qed.

Lemma sl_nz next x l y : sl next x l -> y ∈ l -> y <> 0.
Proof.
  revert x. induction l as [|z l IH]; intros x; [by intros _ ?%not_elem_of_nil|]. intros (_&Hz&Hs) [->|Hy]%elem_of_cons; [done|]. by eapply IH.
Qed.

Lemma wq_tasks_is s q l : waiters s q l -> zlen l < s.(next_pid) -> wq_tasks s q = l.
Proof. intros [Hs _] Hl. apply chain_sl; [done|]. unfold zlen in Hl. lia. Qed.

Lemma view_wait s nx q hd : view s (with_wait s nx q hd).
Proof. by split. Qed.

Section lists.
Context (E : panic -> Prop) (q : Z) (Hq : q <> 0).

Lemma add_ok s l t (Q : unit -> ss -> Prop) : waiters s q l -> t <> 0 -> zlen l < s.(next_pid) ->
  (forall s' l', waiters s' q l' -> (forall x, x ∈ l' <-> x = t \/ x ∈ l) -> view s s' -> s'.(tk) = s.(tk) -> s'.(g_cpu_locals) = s.(g_cpu_locals) -> Q tt s') ->
  wp E (wait_queue_add_current_locked q t) Q s.
Proof using Hq.
  intros Hw Ht Hl HQ. unfold wait_queue_add_current_locked. wp_step. wp_step. rewrite (proj2 (Z.eqb_neq q 0) Hq), (proj2 (Z.eqb_neq t 0) Ht). simpl orb. cbv iota.
  unfold wait_queue_contains_locked. rewrite (proj2 (Z.eqb_neq q 0) Hq), (wq_tasks_is s q l Hw Hl).
  destruct (decide (t ∈ l)) as [Hin|Hin]; [rewrite bool_decide_true by done|rewrite bool_decide_false by done].
  - apply wp_ret. apply (HQ s l); try done. intros x. split; [by right|]. by intros [->|].
  - wp_step. destruct Hw as [Hs Hnd]. eapply (HQ _ (t :: l)); [split|intros x; apply elem_of_cons|apply view_wait|done|done].
    + simpl. rewrite !fset_eq. split; [done|]. split; [done|]. eapply sl_ext; [|exact Hs]. intros y Hy. apply fset_ne. intros ->. done.
    + by apply NoDup_cons.
Qed.

Lemma pop_wait_ok s l (Q : Z -> ss -> Prop) : waiters s q l ->
  (l = [] -> Q 0 s) ->
  (forall t l' s', l = t :: l' -> waiters s' q l' -> view s s' -> s'.(tk) = s.(tk) -> s'.(g_cpu_locals) = s.(g_cpu_locals) -> Q t s') ->
  wp E (wait_queue_pop_locked q) Q s.
Proof using Hq.
  intros [Hs Hnd] H0 HQ. unfold wait_queue_pop_locked. wp_step. wp_step. rewrite (proj2 (Z.eqb_neq q 0) Hq). simpl orb.
  destruct l as [|t l]; simpl in Hs; [rewrite Hs; apply wp_ret; auto|]. destruct Hs as (->&Ht&Hs).
  rewrite (proj2 (Z.eqb_neq t 0) Ht). wp_step. wp_step. apply wp_ret. apply NoDup_cons in Hnd as [Hin Hnd].
  apply (HQ t l); [done|split; [|done]|apply view_wait|done|done]. simpl. rewrite fset_eq. eapply sl_ext; [|exact Hs]. intros y Hy. apply fset_ne. intros ->. done.
Qed.

Lemma remove_wait_ok s l t (Q : unit -> ss -> Prop) : waiters s q l -> t <> 0 -> zlen l < s.(next_pid) ->
  (forall s', waiters s' q (without t l) -> view s s' -> s'.(tk) = s.(tk) -> s'.(g_cpu_locals) = s.(g_cpu_locals) -> Q tt s') ->
  wp E (wait_queue_remove_locked q t) Q s.
Proof using Hq.
  intros [Hs Hnd] Ht Hl HQ. unfold wait_queue_remove_locked. wp_step. wp_step. rewrite (proj2 (Z.eqb_neq q 0) Hq), (proj2 (Z.eqb_neq t 0) Ht). simpl orb. cbv iota.
  destruct (decide (t ∈ l)) as [Hin|Hin].
  2: { rewrite (find_link_none _ _ _ _ l t Hs Hin). apply wp_ret, HQ; try done. rewrite without_none by done. by split. }
  apply list_elem_of_split in Hin as (l1&l2&->). rewrite (without_app t l1 l2 Hnd) in HQ.
  assert (Ht1 : t ∉ l1) by (apply NoDup_app in Hnd as (_&Hd&_); intros Hx; apply (Hd t Hx), list_elem_of_here).
  rewrite (find_link_spec _ _ None _ l1 t l2 Hs Ht1) by (unfold zlen in Hl; rewrite length_app in Hl; simpl in Hl; lia).
  assert (Hnd' : NoDup (l1 ++ l2)) by (rewrite <- (without_app t l1 l2 Hnd); by apply NoDup_without).
  destruct (last l1) as [p|] eqn:Hlast; wp_step; (apply HQ; [split; [|done]|apply view_wait|done|done]); simpl.
  - pose proof (sl_unlink _ (fset (fset (wait_next s) p (wait_next s t)) t 0) _ l1 t l2 Hs Hnd) as Hun. destruct l1; [done|]. apply Hun.
    intros y Hy. rewrite fset_ne, fset_spec, Hlast by done. destruct (decide (y = p)) as [->|]; [by rewrite decide_True|]. by rewrite decide_False by congruence.
  - apply last_None in Hlast as ->. rewrite fset_eq. apply (sl_unlink _ (fset (wait_next s) t 0) _ [] t l2 Hs Hnd). intros y Hy. by rewrite fset_ne.
Qed.
End lists.
