(* ===== verification/SleepLock.v ===== *)
(** * Sleep locks under the scheduler

    Tasks that take and give up one sleep lock, step by step, among all other
    things the kernel does on all CPUs: at most one holds it, and it is never
    free while all the tasks that wait for it sleep. *)
From S2P Require Import Prelude State Links Task Runq Sched Switch SchedOps SchedLife SchedSteps Wait WaitLists.
From S2P Require Import SchedTheorems.

(** Where a task is in [xv6_sleep_lock], [wait_event], [xv6_sleep_unlock] and
    [wake_up_one]. *)
Inductive pc :=
  | Out            (** not using the lock *)
  | Try            (** at the top of the loop of [xv6_sleep_lock] *)
  | Pass           (** at the top of the loop of [wait_event] *)
  | Yield          (** before [kernel_yield] *)
  | Hold           (** it has the lock *)
  | Release        (** the lock is free again, nobody is woken yet *)
  | Wake (u : Z).  (** it took [u] off the queue *)

#[export] Instance pc_eq_dec : EqDecision pc.
Proof. solve_decision. Defined.

Record mach := mkMach { mw : ws; mpc : Z -> pc }.
Abbreviation msc m := (m.(mw).(sc)).
Definition go (m : mach) (w : ws) (t : Z) (p : pc) : mach := mkMach w (fset m.(mpc) t p).

(** [t] runs on the CPU [c]. *)
Definition runs (m : mach) (c t : Z) : Prop := is_cpu (msc m) c /\ cur (msc m) c = t.

(** Another operation: it may wake the tasks that use the lock, but does
    nothing else to them. *)
Definition harmless (m : mach) (o : op) : Prop :=
  match o with
  | OWake _ _ | OTick _ => True
  | _ => forall t, m.(mpc) t <> Out \/ (exists v, m.(mpc) v = Wake t) -> ~ touches (msc m) o t
  end.

Section lock.
Context (L : Z).

Inductive lstep : mach -> mach -> Prop :=
  | l_enter m c t : runs m c t -> t ∈ all_tasks (msc m) -> m.(mpc) t = Out -> ((msc m).(tk) t).(state) = TASK_RUNNING -> lstep m (go m m.(mw) t Try)
  | l_try m c t b w : runs m c t -> m.(mpc) t = Try -> xv6_sleep_lock c L m.(mw) = Ok (b, w) -> lstep m (go m w t (if b then Hold else Pass))
  | l_pass m c t r w : runs m c t -> m.(mpc) t = Pass -> wait_event c L (fun w => xv6_sleeplock_free w L) m.(mw) = Ok (r, w) ->
      lstep m (go m w t (match r with Some _ => Try | None => Yield end))
  | l_yield m c t w : runs m c t -> m.(mpc) t = Yield -> tasks (run_op (OSchedule c)) m.(mw) = Ok (tt, w) -> lstep m (go m w t Pass)
  | l_unlock m c t w : runs m c t -> m.(mpc) t = Hold -> set_sleeplock L false 0 m.(mw) = Ok (tt, w) -> lstep m (go m w t Release)
  | l_pop m c t u w : runs m c t -> m.(mpc) t = Release -> tasks (wait_queue_pop_locked L) m.(mw) = Ok (u, w) ->
      lstep m (go m w t (if u =? 0 then Out else Wake u))
  | l_wake m c t u r w : runs m c t -> m.(mpc) t = Wake u -> tasks (task_wake c u) m.(mw) = Ok (r, w) -> lstep m (go m w t Out)
  | l_other m o w : harmless m o -> enabled (msc m) o -> tasks (run_op o) m.(mw) = Ok (tt, w) -> lstep m (mkMach w m.(mpc)).

Definition waits (p : pc) : Prop := p = Pass \/ p = Yield.

(** Somebody will go on: it tries, or gives up the lock, or is about to wake a
    waiter, or waits and is awake. *)
Definition moving (m : mach) (u : Z) : Prop :=
  match m.(mpc) u with
  | Try | Release => True
  | Wake t => waits (m.(mpc) t)
  | Pass | Yield => live (msc m) u
  | Out | Hold => False
  end.

Record linv (m : mach) (q : Z -> list Z) (T l : list Z) : Prop := mkLinv {
  li_inv : inv (msc m) q T;
  li_wait : waiters (msc m) L l;
  li_in : forall t, t ∈ l -> waits (m.(mpc) t);
  li_part : forall t, m.(mpc) t <> Out -> t ∈ T /\ gone ((msc m).(tk) t).(state) = false;
  li_run : forall t, m.(mpc) t <> Out -> ~ waits (m.(mpc) t) -> live (msc m) t;
  li_cur : forall c t, m.(mpc) t = Pass -> runs m c t -> live (msc m) t;
  li_hold : forall t u, m.(mpc) t = Hold -> m.(mpc) u = Hold -> t = u;
  li_locked : m.(mw).(sl_locked) L = true <-> (exists t, m.(mpc) t = Hold);
  li_asleep : forall t, waits (m.(mpc) t) -> live (msc m) t \/ t ∈ l \/ (exists v, m.(mpc) v = Wake t);
  li_target : forall v t, m.(mpc) v = Wake t -> t ∈ T;
  li_moving : m.(mw).(sl_locked) L = false -> l <> [] -> exists u, moving m u }.

Lemma waiters_len s q T l : inv s q T -> (forall t, t ∈ l -> t ∈ T) -> NoDup l -> zlen l < s.(next_pid).
Proof using.
  intros Hi Hl Hnd. pose proof (iv_pids _ _ _ Hi). assert (length l <= length T)%nat by (by apply submseteq_length, NoDup_submseteq). unfold zlen in *. lia.
Qed.

Lemma tasks_ok {A} (m : M A) w a w' : tasks m w = Ok (a, w') -> exists s', m w.(sc) = Ok (a, s') /\ w' = with_sc w s'.
Proof using. unfold tasks, lift. destruct (m (sc w)) as [[x s']|]; [|done]. intros [= -> <-]. by exists s'. Qed.

(** One task goes on, to [p']. *)
Section go.
Context (m : mach) (q : Z -> list Z) (T l : list Z) (t : Z) (p' : pc) (w' : ws) (q' : Z -> list Z) (l' : list Z).
Abbreviation s := (msc m).
Abbreviation s' := (w'.(sc)).
Abbreviation pt := (m.(mpc) t).
Context (Hl : linv m q T l) (Ht : t ∈ T) (Hi' : inv s' q' T) (Hw' : waiters s' L l').
Context (Hst : forall u, (s'.(tk) u).(state) = (s.(tk) u).(state) \/ live s' u \/ u = t).
Context (Hcur : s'.(g_cpu_count) = s.(g_cpu_count) /\ forall c, cur s' c = cur s c).
Context (Hin : forall u, u ∈ l' -> u ∈ l /\ u <> t \/ u = t /\ waits p') (Hout : forall u, u ∈ l -> u ∈ l' \/ u = t \/ p' = Wake u).
Context (Hpart : p' <> Out -> gone (s'.(tk) t).(state) = false) (Hrun : p' <> Out -> p' <> Yield -> live s' t) (Hyield : p' = Yield -> t ∈ l').
Context (Htarget : forall u, p' = Wake u -> u ∈ T) (Hwoken : forall u, pt = Wake u -> waits (m.(mpc) u) -> live s' u).
Context (Hlock : if decide (p' = Hold) then m.(mw).(sl_locked) L = false /\ w'.(sl_locked) L = true
                 else w'.(sl_locked) L = (if decide (pt = Hold) then false else m.(mw).(sl_locked) L)).
Context (Hmove : w'.(sl_locked) L = false -> l' <> [] -> exists u, moving (go m w' t p') u).

Lemma go_pc u : u <> t -> (go m w' t p').(mpc) u = m.(mpc) u.
Proof using. intros Hu. simpl. by apply fset_ne. Qed.
Lemma go_pc_t : (go m w' t p').(mpc) t = p'.
Proof using. simpl. apply fset_eq. Qed.

Lemma go_live u : u <> t -> live s u -> live s' u.
Proof using Hst. intros Hu Hv. destruct (Hst u) as [He|[?| ->]]; [|done|done]. unfold live. by rewrite He. Qed.

Lemma go_locked : w'.(sl_locked) L = true <-> (exists u, (go m w' t p').(mpc) u = Hold).
Proof using Hl Hlock.
  pose proof (li_locked _ _ _ _ Hl) as [H1 H2]. destruct (decide (p' = Hold)) as [Hp|Hp].
  { destruct Hlock as [_ ->]. split; [intros _; exists t; by rewrite go_pc_t|done]. }
  rewrite Hlock. destruct (decide (pt = Hold)) as [Hpt|Hpt]; split.
  - done.
  - intros (u&Hu). destruct (decide (u = t)) as [->|Hne]; [by rewrite go_pc_t in Hu|]. rewrite go_pc in Hu by done. by destruct Hne; apply (li_hold _ _ _ _ Hl).
  - intros Hk. destruct (H1 Hk) as (u&Hu). exists u. rewrite go_pc; [done|]. intros ->. done.
  - intros (u&Hu). destruct (decide (u = t)) as [->|Hne]; [by rewrite go_pc_t in Hu|]. rewrite go_pc in Hu by done. apply H2. by exists u.
Qed.

Lemma go_hold u v : (go m w' t p').(mpc) u = Hold -> (go m w' t p').(mpc) v = Hold -> u = v.
Proof using Hl Hlock.
  assert (Hx : forall x, x <> t -> mpc m x = Hold -> p' <> Hold).
  { intros x Hx Hh Hp. rewrite decide_True in Hlock by done. destruct Hlock as [Hf _].
    assert (sl_locked (mw m) L = true) by (apply (li_locked _ _ _ _ Hl); by exists x). congruence. }
  destruct (decide (u = t)) as [->|Hu], (decide (v = t)) as [->|Hv]; rewrite ?go_pc_t, ?go_pc by done; intros H1 H2.
  - done.
  - by destruct (Hx v Hv H2).
  - by destruct (Hx u Hu H1).
  - by apply (li_hold _ _ _ _ Hl).
Qed.

Lemma go_asleep u : waits ((go m w' t p').(mpc) u) -> live s' u \/ u ∈ l' \/ (exists v, (go m w' t p').(mpc) v = Wake u).
Proof using Hl Hst Hout Hrun Hyield Hwoken.
  destruct (decide (u = t)) as [->|Hu].
  - rewrite go_pc_t. intros [Hp|Hp]; [left; apply Hrun; congruence|]. right. left. auto.
  - rewrite go_pc by done. intros Hw. destruct (li_asleep _ _ _ _ Hl u Hw) as [Hv|[Hv|(v&Hv)]].
    + left. by apply go_live.
    + destruct (Hout u Hv) as [?|[|Hp]]; [auto|done|]. right. right. exists t. by rewrite go_pc_t.
    + destruct (decide (v = t)) as [->|Hne]; [left; by apply Hwoken|]. right. right. exists v. by rewrite go_pc.
Qed.

Lemma go_ok : linv (go m w' t p') q' T l'.
Proof using Hl Ht Hi' Hw' Hst Hcur Hin Hout Hpart Hrun Hyield Htarget Hwoken Hlock Hmove.
  pose proof (li_part _ _ _ _ Hl) as Hpt. split.
  - done.
  - done.
  - intros u Hu. destruct (Hin u Hu) as [[Hul Hne]|[-> Hp]]; [|by rewrite go_pc_t]. rewrite go_pc by done. by apply (li_in _ _ _ _ Hl).
  - intros u. destruct (decide (u = t)) as [->|Hne]; [rewrite go_pc_t; auto|]. rewrite go_pc by done. intros Hp. destruct (Hpt u Hp) as [? Hg].
    split; [done|]. simpl. destruct (Hst u) as [->|[[->| ->]|]]; done.
  - intros u. destruct (decide (u = t)) as [->|Hne]; [rewrite go_pc_t; intros Hp Hnw; apply Hrun; [done|]; intros Hy; apply Hnw; by right|].
    rewrite go_pc by done. intros Hp Hnw. apply go_live; [done|]. by apply (li_run _ _ _ _ Hl).
  - intros c u. destruct (decide (u = t)) as [->|Hne]; [rewrite go_pc_t; intros Hp _; apply Hrun; congruence|]. rewrite go_pc by done.
    intros Hp [Hc He]. apply go_live; [done|]. apply (li_cur _ _ _ _ Hl c u Hp). destruct Hcur as [Hn Hcu]. unfold runs, is_cpu in *. simpl in *. by rewrite <- Hn, <- Hcu.
  - apply go_hold.
  - apply go_locked.
  - apply go_asleep.
  - intros v u. destruct (decide (v = t)) as [->|Hne]; [rewrite go_pc_t; auto|]. rewrite go_pc by done. apply (li_target _ _ _ _ Hl).
  - apply Hmove.
Qed.
End go.

(** ** Other operations *)

Lemma other_ok m q T l o w : linv m q T l -> harmless m o -> enabled (msc m) o -> tasks (run_op o) m.(mw) = Ok (tt, w) ->
  exists q' T', linv (mkMach w m.(mpc)) q' T' l /\ effect (msc m) q o w.(sc) q'.
Proof using.
  intros Hl Hh Hen Hrun. destruct (tasks_ok _ _ _ _ Hrun) as (s'&Hr&->). clear Hrun. set (s := msc m) in *.
  pose proof (li_inv _ _ _ _ Hl) as Hi. fold s in Hi. pose proof (op_ok s q T o Hi Hen) as Hok. unfold wp in Hok. rewrite Hr in Hok.
  destruct Hok as (q'&T'&Hi'&He&HT). exists q', T'. split; [|done]. destruct (nowait_op o s tt s' Hr) as [W1 W2].
  destruct (effect_cpus _ _ _ _ _ He) as [Hn Hcu].
  assert (Hst : forall t, mpc m t <> Out \/ (exists v, mpc m v = Wake t) -> state (tk s' t) = state (tk s t) \/ live s' t).
  { intros t Ht. apply (effect_state s q o s' q' t He). destruct o; try done; by apply Hh. }
  assert (Hlive : forall t, mpc m t <> Out -> live s t -> live s' t).
  { intros t Ht Hv. destruct (Hst t (or_introl Ht)) as [He'|]; [|done]. unfold live. by rewrite He'. }
  assert (Hnr : forall t, mpc m t <> Out \/ (exists v, mpc m v = Wake t) -> o <> OReap t) by (intros t Ht ->; by apply (Hh t Ht)).
  assert (Hout : forall t, waits (mpc m t) -> mpc m t <> Out) by (intros t [-> | ->]; done).
  destruct Hl as [I1 [I2 I2'] I3 I4 I5 I6 I7 I8 I9 I10 I11]. split; simpl; try done.
  - split; [|done]. by rewrite W1, W2.
  - intros t Ht. destruct (I4 t Ht) as [Hin Hg]. split; [by apply HT; auto|]. destruct (Hst t (or_introl Ht)) as [->|[->| ->]]; done.
  - intros t Ht Hnw. apply Hlive; auto.
  - intros c t Hp [Hc Hct]. assert (Hc0 : is_cpu s c) by (unfold is_cpu in *; by rewrite <- Hn). assert (Hpo : mpc m t <> Out) by (rewrite Hp; done).
    destruct (Hcu c Hc0) as [Hsame|Hrun]; simpl in Hct; [|by right; rewrite Hct in Hrun]. apply Hlive; [done|]. apply (I6 c t Hp). split; [done|]. change (cur s c = t). by rewrite <- Hsame.
  - intros t Ht. destruct (I9 t Ht) as [Hv|[Hv|Hv]]; auto.
  - intros v t Hv. apply HT; [by apply (I10 v)|]. apply Hnr. right. by exists v.
  - intros Hf Hne. destruct (I11 Hf Hne) as (u&Hu). exists u. unfold moving in *. simpl. destruct (mpc m u) eqn:Hp; try done; apply Hlive; try done; by rewrite Hp.
Qed.

(** ** The steps *)

Context (HL : L <> 0).

Lemma yielded m q T l t : linv m q T l -> m.(mpc) t = Yield -> (forall c, runs m c t -> live (msc m) t) -> linv (go m m.(mw) t Pass) q T l.
Proof using.
  intros [I1 I2 I3 I4 I5 I6 I7 I8 I9 I10 I11] Hp Hlive.
  assert (Hpc : forall u, mpc (go m (mw m) t Pass) u = if decide (u = t) then Pass else mpc m u) by (intros u; simpl; by rewrite fset_spec).
  assert (Hw : forall u, waits (mpc (go m (mw m) t Pass) u) <-> waits (mpc m u)).
  { intros u. rewrite Hpc. destruct (decide (u = t)) as [->|]; [|done]. rewrite Hp. unfold waits. tauto. }
  assert (Hs : forall u p, p <> Pass -> p <> Yield -> mpc (go m (mw m) t Pass) u = p <-> mpc m u = p).
  { intros u p H1 H2. rewrite Hpc. destruct (decide (u = t)) as [->|]; [|done]. rewrite Hp. split; congruence. }
  split; try done.
  - intros u Hu. rewrite Hw. auto.
  - intros u. rewrite (Hs u Out) by done. auto.
  - intros u. rewrite (Hs u Out), Hw by done. auto.
  - intros c u. rewrite Hpc. destruct (decide (u = t)) as [->|]; [intros _; apply Hlive|apply I6].
  - intros u v. rewrite (Hs u Hold), (Hs v Hold) by done. auto.
  - simpl in *. rewrite I8. split; intros (u&Hu); exists u; by apply (Hs u Hold).
  - intros u Hu%Hw. destruct (I9 u Hu) as [?|[?|(v&Hv)]]; auto. right. right. exists v. by apply (Hs v (Wake u)).
  - intros v u. rewrite (Hs v (Wake u)) by done. apply I10.
  - intros Hf Hne. destruct (I11 Hf Hne) as (u&Hu). exists u. unfold moving in *. rewrite Hpc. destruct (decide (u = t)) as [->|]; [by rewrite Hp in Hu|].
    destruct (mpc m u) as [| | | | | |v]; try done. by apply Hw.
Qed.

Section step.
Context (m : mach) (q : Z -> list Z) (T l : list Z) (c t : Z) (Hl : linv m q T l) (Hruns : runs m c t).

(** Nothing but the lock changed. *)
Lemma same_ok w' p' : t ∈ T -> w'.(sc) = msc m -> (p' <> Out -> live (msc m) t) -> p' <> Yield -> (forall u, p' <> Wake u) -> ~ waits (m.(mpc) t) -> (forall u, m.(mpc) t <> Wake u) ->
  (if decide (p' = Hold) then m.(mw).(sl_locked) L = false /\ w'.(sl_locked) L = true else w'.(sl_locked) L = (if decide (m.(mpc) t = Hold) then false else m.(mw).(sl_locked) L)) ->
  (w'.(sl_locked) L = false -> p' = Try \/ p' = Release) -> linv (go m w' t p') q T l.
Proof using Hl.
  intros Ht Hs Hlive Hny Hnw Hpt Hpw Hlock Hmove. apply (go_ok m q T l t p' w' q l); rewrite ?Hs; try done.
  - apply Hl.
  - apply Hl.
  - by left.
  - intros u Hu. left. split; [done|]. intros ->. by apply Hpt, (li_in _ _ _ _ Hl).
  - by left.
  - intros Hp. destruct (Hlive Hp) as [->| ->]; done.
  - intros Hp _. auto.
  - intros u Hu. by destruct (Hnw u).
  - intros u Hu. by destruct (Hpw u).
  - intros Hf _. exists t. unfold moving. rewrite go_pc_t. by destruct (Hmove Hf) as [->| ->].
Qed.

Lemma try_ok b w : m.(mpc) t = Try -> xv6_sleep_lock c L m.(mw) = Ok (b, w) -> linv (go m w t (if b then Hold else Pass)) q T l.
Proof using Hl Hruns.
  intros Hp. assert (Hpo : mpc m t <> Out) by (by rewrite Hp). destruct (li_part _ _ _ _ Hl t Hpo) as [Ht _].
  assert (Hlive : live (msc m) t) by (apply (li_run _ _ _ _ Hl); [done|]; rewrite Hp; by intros [|]).
  unfold xv6_sleep_lock, mbind, ST_bind, getS. destruct (sl_locked (mw m) L) eqn:Hk; simpl.
  - intros [= <- <-]. apply same_ok; [done|done|done|done|done|rewrite Hp; by intros [|]|by rewrite Hp| |congruence].
    rewrite decide_False, decide_False; [done|by rewrite Hp|done].
  - intros [= <- <-]. apply same_ok; [done|done|done|done|done|rewrite Hp; by intros [|]|by rewrite Hp| |].
    + rewrite decide_True by done. simpl. by rewrite fset_eq.
    + simpl. by rewrite fset_eq.
Qed.

Lemma unlock_ok w : m.(mpc) t = Hold -> set_sleeplock L false 0 m.(mw) = Ok (tt, w) -> linv (go m w t Release) q T l.
Proof using Hl.
  intros Hp [= <-]. assert (Hpo : mpc m t <> Out) by (by rewrite Hp). destruct (li_part _ _ _ _ Hl t Hpo) as [Ht _].
  assert (Hlive : live (msc m) t) by (apply (li_run _ _ _ _ Hl); [done|]; rewrite Hp; by intros [|]).
  apply same_ok; [done|done|done|done|done|rewrite Hp; by intros [|]|by rewrite Hp| |].
  - rewrite decide_False, decide_True by done. simpl. by rewrite fset_eq.
  - by right.
Qed.

Lemma pass_ok : m.(mpc) t = Pass -> wp nopanic (wait_event c L (fun w => xv6_sleeplock_free w L))
  (fun r w => exists q' l', linv (go m w t (match r with Some _ => Try | None => Yield end)) q' T l') m.(mw).
Proof using Hl Hruns HL.
  intros Hp. pose proof (li_inv _ _ _ _ Hl) as Hi. pose proof (li_wait _ _ _ _ Hl) as Hw.
  assert (Hpo : mpc m t <> Out) by (by rewrite Hp). destruct (li_part _ _ _ _ Hl t Hpo) as [Ht Hg]. pose proof (iv_task_nz _ _ _ _ Hi Ht) as Ht0.
  assert (HlT : forall u, u ∈ l -> u ∈ T) by (intros u Hu; apply (li_part _ _ _ _ Hl); destruct (li_in _ _ _ _ Hl u Hu) as [->| ->]; done).
  assert (Hlen : zlen l < (msc m).(next_pid)) by (apply (waiters_len _ q T); [done|done|apply Hw]).
  destruct Hruns as [Hc Hct]. assert (Hlive : live (msc m) t) by (by apply (li_cur _ _ _ _ Hl c t Hp)).
  unfold wait_event. wp_step. wp_step. fold (cur (msc m) c). rewrite Hct, (proj2 (Z.eqb_neq L 0) HL), (proj2 (Z.eqb_neq t 0) Ht0).
  simpl orb. cbv iota. unfold xv6_sleeplock_free at 1. destruct (sl_locked (mw m) L) eqn:Hk; simpl negb; cbv iota.
  - wp_step. unfold tasks. wp_step. apply (add_ok _ L HL _ l t); [done|done|done|]. intros s1 l1 Hw1 Hin1 Hv1 Htk1 Hcp1.
    pose proof (inv_view _ _ _ _ Hi Hv1) as Hi1. wp_step. wp_step. apply wp_nowait; [apply nowait_io_wait|].
    apply (io_wait_ok _ T s1 q); [done|done|]. intros s2 [Hi2 Hm2] W1 W2. apply wp_ret. exists (fun d => without t (q d)), l1.
    pose proof Hm2 as [[_ _ (Hn2&_&_) _ Hcu2] Htk2 _]. simpl in *.
    apply (go_ok m q T l t Yield _ _ l1); simpl; try done.
    + split; [rewrite W1, W2; apply Hw1|apply Hw1].
    + intros u. rewrite Htk2, Htk1. destruct (decide (u = t)); auto.
    + split; [rewrite Hn2; by apply Hv1|]. intros d. unfold cur. destruct (Hcu2 d) as (->&_). by rewrite Hcp1.
    + intros u [->|Hu]%Hin1; [right; split; [done|by right]|]. destruct (decide (u = t)) as [->|]; [right; split; [done|by right]|by left].
    + intros u Hu. left. apply Hin1. by right.
    + intros _. rewrite Htk2. by rewrite decide_True.
    + intros _. apply Hin1. by left.
    + rewrite Hp. done.
    + rewrite decide_False by (by rewrite Hp). done.
    + congruence.
  - wp_step. unfold tasks. wp_step. apply (remove_wait_ok _ L HL _ l t); [done|done|done|]. intros s1 Hw1 Hv1 Htk1 Hcp1.
    apply wp_ret. exists q, (without t l). apply (go_ok m q T l t Try _ _ (without t l)); simpl; try done.
    + by apply (inv_view (msc m)).
    + left. by rewrite Htk1.
    + split; [by apply Hv1|]. intros d. unfold cur. by rewrite Hcp1.
    + intros u [Hu Hne]%elem_of_without. by left.
    + intros u Hu. destruct (decide (u = t)) as [->|]; [auto|]. left. by apply elem_of_without.
    + intros _. by rewrite Htk1.
    + intros _ _. unfold live. by rewrite Htk1.
    + rewrite Hp. done.
    + rewrite decide_False by (by rewrite Hp). done.
    + intros _ _. exists t. unfold moving. by rewrite go_pc_t.
Qed.

Lemma pop_step_ok : m.(mpc) t = Release -> wp nopanic (tasks (wait_queue_pop_locked L))
  (fun u w => exists l', linv (go m w t (if u =? 0 then Out else Wake u)) q T l') m.(mw).
Proof using Hl HL.
  intros Hp. assert (Hpo : mpc m t <> Out) by (by rewrite Hp). destruct (li_part _ _ _ _ Hl t Hpo) as [Ht Hg].
  assert (Hlive : live (msc m) t) by (apply (li_run _ _ _ _ Hl); [done|]; rewrite Hp; by intros [|]).
  assert (Htl : t ∉ l) by (intros Hin; destruct (li_in _ _ _ _ Hl t Hin); congruence).
  unfold tasks. wp_step. apply (pop_wait_ok _ L HL _ l); [apply Hl| |].
  - intros ->. simpl. exists []. apply (go_ok m q T [] t Out _ q []); simpl; try done; try apply Hl; try by left.
    + by intros u ?%not_elem_of_nil.
    + rewrite Hp. done.
    + rewrite decide_False by (by rewrite Hp). done.
  - intros u l' s' -> Hw' Hv Htk Hcp. assert (Hu : u ∈ T) by (apply (li_part _ _ _ _ Hl); destruct (li_in _ _ _ _ Hl u) as [->| ->]; [apply list_elem_of_here|done|done]).
    assert (Hu0 : u <> 0) by (by eapply iv_task_nz; [apply (li_inv _ _ _ _ Hl)|]). rewrite (proj2 (Z.eqb_neq u 0) Hu0). exists l'.
    apply not_elem_of_cons in Htl as [Htu Htl].
    apply (go_ok m q T (u :: l') t (Wake u) _ q l'); simpl; try done.
    + apply (inv_view (msc m)); [apply Hl|done].
    + left. by rewrite Htk.
    + split; [by apply Hv|]. intros d. unfold cur. by rewrite Hcp.
    + intros x Hx. left. split; [by apply list_elem_of_further|]. intros ->. done.
    + intros x [->|Hx]%elem_of_cons; auto.
    + intros _. by rewrite Htk.
    + intros _ _. unfold live. by rewrite Htk.
    + by intros x [= <-].
    + rewrite Hp. done.
    + rewrite decide_False by (by rewrite Hp). done.
    + intros _ _. exists t. unfold moving. rewrite go_pc_t, go_pc by done. apply (li_in _ _ _ _ Hl), list_elem_of_here.
Qed.

Lemma wake_step_ok u : m.(mpc) t = Wake u -> wp nopanic (tasks (task_wake c u)) (fun _ w => exists q', linv (go m w t Out) q' T l) m.(mw).
Proof using Hl.
  intros Hp. assert (Hpo : mpc m t <> Out) by (by rewrite Hp). destruct (li_part _ _ _ _ Hl t Hpo) as [Ht Hg].
  assert (Htl : ~ waits (mpc m t)) by (rewrite Hp; by intros [|]). pose proof (li_target _ _ _ _ Hl t u Hp) as Hu.
  unfold tasks. wp_step. apply wp_nowait; [apply nowait_wake|]. apply (task_wake_ok _ T _ q); [apply Hl|done|]. intros r s' q' Hi' Hk Hmi Hrd W1 W2. exists q'.
  assert (Hrdu : waits (mpc m u) -> live s' u) by (intros Hw; left; apply Hrd, (li_part _ _ _ _ Hl); destruct Hw as [->| ->]; done).
  assert (Hlive : forall v, live (msc m) v -> live s' v) by (intros v Hv; destruct (Hmi v) as [He|]; [unfold live; by rewrite He|by left]).
  apply (go_ok m q T l t Out _ q' l); simpl; try done.
  - split; [rewrite W1, W2|]; apply (li_wait _ _ _ _ Hl).
  - intros v. destruct (Hmi v); [auto|]. right. left. by left.
  - split; [apply Hk|intros d; apply Hk].
  - intros v Hv. left. split; [done|]. intros ->. by apply Htl, (li_in _ _ _ _ Hl).
  - by left.
  - rewrite Hp. by intros v [= <-].
  - rewrite decide_False by (by rewrite Hp). done.
  - intros Hf Hne. destruct (li_moving _ _ _ _ Hl Hf Hne) as (v&Hv). unfold moving in Hv. destruct (decide (v = t)) as [->|Hvt].
    + rewrite Hp in Hv. exists u. assert (Hut : u <> t) by (intros ->; done). unfold moving. rewrite go_pc by done. destruct Hv as [Hv|Hv]; rewrite Hv; apply Hrdu; unfold waits; auto.
    + exists v. unfold moving. rewrite go_pc by done. destruct (mpc m v) as [| | | | | |x]; try done; [by apply Hlive..|].
      rewrite go_pc; [done|]. intros ->. done.
Qed.

Lemma yield_ok w : m.(mpc) t = Yield -> tasks (run_op (OSchedule c)) m.(mw) = Ok (tt, w) -> exists q' T', linv (go m w t Pass) q' T' l.
Proof using Hl Hruns.
  intros Hp Hrun. pose proof (li_inv _ _ _ _ Hl) as Hi. destruct Hruns as [Hc Hct].
  destruct (other_ok m q T l (OSchedule c) w Hl) as (q'&T'&Hl'&He); [intros ? ? []|done|done|]. exists q', T'.
  apply (yielded _ q' T' l t Hl' Hp). intros d [Hd Hdt]. simpl in *. destruct He as (b&Hs). right.
  assert (Hd0 : is_cpu (msc m) d) by (unfold is_cpu in *; by rewrite <- (sd_cpus _ _ _ _ _ _ Hs)).
  destruct (decide (d = c)) as [->|Hne].
  - rewrite (sd_state _ _ _ _ _ _ Hs), decide_True by (by symmetry). done.
  - destruct (sd_other _ _ _ _ _ _ Hs d Hd0 Hne) as [_ Hsame]. destruct Hne. apply (cur_inj _ q T d c Hi); [done|done|]. by rewrite <- Hsame, Hct.
Qed.
End step.

Lemma lstep_inv m m' q T l : linv m q T l -> lstep m m' -> exists q' T' l', linv m' q' T' l'.
Proof using HL.
  intros Hl Hs. destruct Hs as [m c t Hr Ht Hp Hst|m c t b w Hr Hp Hrun|m c t r w Hr Hp Hrun|m c t w Hr Hp Hrun|m c t w Hr Hp Hrun|m c t u w Hr Hp Hrun|m c t u r w Hr Hp Hrun|m o w Hh Hen Hrun].
  - rewrite (all_tasks_is _ q T (li_inv _ _ _ _ Hl)) in Ht. exists q, T, l.
    apply (same_ok m q T l t Hl); [done|done|intros _; by right|done|done|rewrite Hp; by intros [|]|by rewrite Hp| |by left].
    rewrite decide_False, decide_False; [done|by rewrite Hp|done].
  - exists q, T, l. by apply (try_ok m q T l c).
  - destruct (wp_done _ _ _ _ _ (pass_ok m q T l c t Hl Hr Hp) Hrun) as (q'&l'&?). by exists q', T, l'.
  - destruct (yield_ok m q T l c t Hl Hr w Hp Hrun) as (q'&T'&?). by exists q', T', l.
  - exists q, T, l. by apply unlock_ok.
  - destruct (wp_done _ _ _ _ _ (pop_step_ok m q T l t Hl Hp) Hrun) as (l'&?). by exists q, T, l'.
  - destruct (wp_done _ _ _ _ _ (wake_step_ok m q T l c t Hl u Hp) Hrun) as (q'&?). by exists q', T, l.
  - destruct (other_ok m q T l o w Hl Hh Hen Hrun) as (q'&T'&?&_). by exists q', T', l.
Qed.

(** A task that uses the lock and runs can take its next step. *)
Lemma lstep_progress m q T l c t : linv m q T l -> runs m c t -> m.(mpc) t <> Out -> exists w p, lstep m (go m w t p).
Proof using HL.
  intros Hl Hr Hp. destruct (mpc m t) as [| | | | | |u] eqn:Hpc; [done|..].
  - unfold runs in Hr. destruct (xv6_sleep_lock c L (mw m)) as [[b w]|p] eqn:He; [by eexists _, _; eapply l_try|].
    unfold xv6_sleep_lock, mbind, ST_bind, getS in He. by destruct (sl_locked (mw m) L).
  - destruct (wp_run _ _ _ (pass_ok m q T l c t Hl Hr Hpc)) as (r&w&Hrun&_). eexists _, _. by eapply l_pass.
  - destruct (wp_run _ _ _ (op_ok (msc m) q T (OSchedule c) (li_inv _ _ _ _ Hl) (proj1 Hr))) as ([]&s'&Hrun&_).
    eexists (with_sc (mw m) s'), _. eapply l_yield; [done|done|]. unfold tasks, lift. by rewrite Hrun.
  - eexists _, _. by eapply l_unlock.
  - destruct (wp_run _ _ _ (pop_step_ok m q T l t Hl Hpc)) as (u&w&Hrun&_). eexists _, _. by eapply l_pop.
  - destruct (wp_run _ _ _ (wake_step_ok m q T l c t Hl u Hpc)) as (r&w&Hrun&_). eexists _, _. by eapply l_wake.
Qed.
End lock.

(** * What sleep locks guarantee, and a killed waiter *)
(** From an initialised lock that nobody uses. *)
Inductive lreach (L : Z) : mach -> Prop :=
  | lreach_start w : reach w.(sc) -> w.(sl_locked) L = false -> w.(sc).(wq_head) L = 0 -> lreach L (mkMach w (fun _ => Out))
  | lreach_step m m' : lreach L m -> lstep L m m' -> lreach L m'.

Lemma lreach_inv L m : L <> 0 -> lreach L m -> exists q T l, linv L m q T l.
Proof.
  intros HL. induction 1 as [w Hr Hf Hh|m m' Hr (q&T&l&Hl) Hs]; [|by eapply lstep_inv].
  destruct (reach_inv _ Hr) as (q&T&Hi). exists q, T, []. split; simpl; try done.
  - split; [|apply NoDup_nil_2]. by rewrite Hh.
  - by intros t ?%not_elem_of_nil.
  - rewrite Hf. split; [done|]. by intros (t&?).
  - by intros t [|].
Qed.


(** ** A run: two tasks and a lock *)

Definition the_lock : Z := 500.
Definition ex_ws (s : ss) : ws := mkWs s (fun _ => 0) (fun _ => 0) (fun _ => false) (fun _ => 0).
Definition ex_m0 : mach := mkMach (ex_ws two_tasks) (fun _ => Out).
(** Task 100 takes the lock. *)
Definition ex_m1 : mach := go ex_m0 ex_m0.(mw) 100 Try.
Definition ex_m2 : mach := go ex_m1 (run_state (xv6_sleep_lock 0 the_lock) ex_m1.(mw)) 100 Hold.

Lemma ex_m2_reach : lreach the_lock ex_m2.
Proof.
  assert (Hc : forall m, g_cpu_count (msc m) = 2 -> cur (msc m) 0 = 100 -> runs m 0 100) by (intros m H1 H2; split; [unfold is_cpu; lia|done]).
  apply (lreach_step _ ex_m1); [apply (lreach_step _ ex_m0); [apply (lreach_start _ (ex_ws two_tasks))|]|].
  - apply two_tasks_reach.
  - done.
  - by vm_compute.
  - eapply (l_enter the_lock ex_m0 0 100); [apply Hc; by vm_compute| |done|by vm_compute].
    replace (all_tasks (msc ex_m0)) with [400; 300; 100] by (by vm_compute). do 2 apply list_elem_of_further. apply list_elem_of_here.
  - eapply (l_try the_lock ex_m1 0 100 true); [apply Hc; by vm_compute|done|].
    rewrite (run_ok _ _ true) by (by vm_compute). by replace (run_value (xv6_sleep_lock 0 the_lock) (mw ex_m1) true) with true by (by vm_compute).
Qed.


(** ** A waiter that is killed *)

(** Task 300 runs on CPU 0, waits on a queue for what does not come, and is
    switched out; its group is killed and it is reaped. *)
Definition killed_waiter : W unit :=
  tasks (run_op (OSchedule 0));;
  _ ← wait_event 0 the_lock (fun _ => false);
  tasks (run_op (OSchedule 0));; tasks (run_op (OFinish 0));;
  tasks (run_op (OKill 2 1 2 130));; tasks (run_op (OReap 300)).

