(* ===== verification/BottomHalf.v ===== *)
(** * Deferred work (kernel/bottom_half.c)

    A ring of 64 calls that interrupt handlers leave for later.  It behaves as
    a queue: every call that was accepted is made once, in the order of
    arrival, also when interrupts and the calls themselves add more. *)
From S2P Require Import Prelude State.

Abbreviation BOTTOM_HALF_QUEUE_CAP := 64.

(** [struct bottom_half_item]: the function, 0 is NULL, and its argument. *)
Record bottom_half_item := mkItem { bfn : Z; barg : Z }.

(** The ring and its three counters, which are unsigned ints. *)
Record bh := mkBh { g_bottom_half_queue : Z -> bottom_half_item; g_bottom_half_head : Z; g_bottom_half_tail : Z; g_bottom_half_count : Z }.
Definition bh_init : bh := mkBh (fun _ => mkItem 0 0) 0 0 0.

Definition bottom_half_enqueue (fn arg : Z) : ST bh Z :=
  s ← getS;
  if fn =? 0 then mret (-1) else
  if BOTTOM_HALF_QUEUE_CAP <=? s.(g_bottom_half_count) then mret (-1) else
  modify (fun s => mkBh (fset s.(g_bottom_half_queue) s.(g_bottom_half_tail) (mkItem fn arg)) s.(g_bottom_half_head)
                     (u32 (s.(g_bottom_half_tail) + 1) mod BOTTOM_HALF_QUEUE_CAP) (u32 (s.(g_bottom_half_count) + 1)));;
  mret 0.

(** The part of [bottom_half_run] under the lock: the next call, if any. *)
Definition bottom_half_next : ST bh (option bottom_half_item) :=
  s ← getS;
  if s.(g_bottom_half_count) =? 0 then mret None else
  let item := s.(g_bottom_half_queue) s.(g_bottom_half_head) in
  modify (fun s => mkBh (fset s.(g_bottom_half_queue) s.(g_bottom_half_head) (mkItem 0 0))
                     (u32 (s.(g_bottom_half_head) + 1) mod BOTTOM_HALF_QUEUE_CAP) s.(g_bottom_half_tail) (u32 (s.(g_bottom_half_count) - 1)));;
  mret (Some item).

(** [call]: what a call does; it may add calls.  [None]: more than [fuel]. *)
Fixpoint bottom_half_run (fuel : nat) (call : bottom_half_item -> ST bh unit) (ran : Z) : ST bh (option Z) :=
  match fuel with
  | O => mret None
  | S fuel =>
      it ← bottom_half_next;
      match it with
      | None => mret (Some ran)
      | Some it => call it;; bottom_half_run fuel call (ran + 1)
      end
  end.

(** ** The ring is a queue *)

Definition ring_slot (i : Z) : Z := i mod 64.
Record ring (s : bh) (l : list bottom_half_item) : Prop := mkRing {
  rg_count : s.(g_bottom_half_count) = Z.of_nat (length l);
  rg_cap : (length l <= 64)%nat;
  rg_head : 0 <= s.(g_bottom_half_head) < 64;
  rg_tail : s.(g_bottom_half_tail) = ring_slot (s.(g_bottom_half_head) + Z.of_nat (length l));
  rg_item : forall i x, l !! i = Some x -> s.(g_bottom_half_queue) (ring_slot (s.(g_bottom_half_head) + Z.of_nat i)) = x }.

Lemma ring_slot_inj a i j : 0 <= i < 64 -> 0 <= j < 64 -> ring_slot (a + i) = ring_slot (a + j) -> i = j.
Proof. unfold ring_slot. intros Hi Hj He. pose proof (Z.div_mod (a + i) 64). pose proof (Z.div_mod (a + j) 64). lia. Qed.

Lemma ring_init : ring bh_init [].
Proof. split; simpl; try lia; try done. Qed.

Lemma u32_succ_ring_slot a : 0 <= a < 64 -> u32 (a + 1) mod BOTTOM_HALF_QUEUE_CAP = ring_slot (a + 1).
Proof. intros Ha. rewrite u32_small by lia. done. Qed.

Section ring.
Context (E : panic -> Prop) (s : bh) (l : list bottom_half_item) (Hr : ring s l).

Lemma enqueue_ok fn arg (Q : Z -> bh -> Prop) :
  (fn = 0 \/ length l = 64%nat -> Q (-1) s) -> (forall s', fn <> 0 -> (length l < 64)%nat -> ring s' (l ++ [mkItem fn arg]) -> Q 0 s') ->
  wp E (bottom_half_enqueue fn arg) Q s.
Proof using Hr.
  intros Hno HQ. destruct Hr as [R1 R2 R3 R4 R5]. unfold bottom_half_enqueue. wp_step. wp_step.
  destruct (Z.eqb_spec fn 0) as [H0|H0]; [apply wp_ret; auto|]. change BOTTOM_HALF_QUEUE_CAP with 64 at 1.
  destruct (Z.leb_spec 64 (g_bottom_half_count s)) as [Hf|Hf]; [apply wp_ret, Hno; right; lia|]. wp_step. wp_step. apply wp_ret, HQ; [done|lia|].
  assert (Ht : 0 <= g_bottom_half_tail s < 64) by (rewrite R4; apply Z.mod_pos_bound; lia).
  split; cbn [g_bottom_half_queue g_bottom_half_head g_bottom_half_tail g_bottom_half_count]; rewrite ?length_app; cbn [length].
  - rewrite u32_small by lia. lia.
  - lia.
  - done.
  - rewrite u32_succ_ring_slot by done. rewrite R4. unfold ring_slot. rewrite Zplus_mod_idemp_l. f_equal. lia.
  - intros i x Hi. apply lookup_app_Some in Hi as [Hi|[Hge Hi]].
    + pose proof (lookup_lt_Some _ _ _ Hi). rewrite fset_ne; [by apply R5|]. rewrite R4. intros He. apply ring_slot_inj in He; lia.
    + destruct (i - length l)%nat eqn:Hd; [|done]. injection Hi as <-. assert (i = length l) as -> by lia. by rewrite R4, fset_eq.
Qed.

Lemma next_ok (Q : option bottom_half_item -> bh -> Prop) :
  (l = [] -> Q None s) -> (forall x l' s', l = x :: l' -> ring s' l' -> Q (Some x) s') -> wp E bottom_half_next Q s.
Proof using Hr.
  intros Hno HQ. destruct Hr as [R1 R2 R3 R4 R5]. unfold bottom_half_next. wp_step. wp_step. rewrite R1. destruct l as [|x l']; [apply wp_ret; auto|].
  rewrite (proj2 (Z.eqb_neq _ 0)) by (simpl; lia). wp_step. wp_step. apply wp_ret.
  replace (g_bottom_half_queue s (g_bottom_half_head s)) with x by (rewrite <- (R5 0%nat x eq_refl); unfold ring_slot; rewrite Z.add_0_r, Z.mod_small by lia; done).
  eapply HQ; [done|]. simpl in R1, R2.
  split; cbn [g_bottom_half_queue g_bottom_half_head g_bottom_half_tail g_bottom_half_count].
  - rewrite R1, u32_small; lia.
  - lia.
  - rewrite u32_succ_ring_slot by done. apply Z.mod_pos_bound. lia.
  - rewrite u32_succ_ring_slot, R4 by done. unfold ring_slot. rewrite Zplus_mod_idemp_l. f_equal. simpl. lia.
  - intros i y Hi. pose proof (lookup_lt_Some _ _ _ Hi). rewrite u32_succ_ring_slot by done.
    assert (Hs : ring_slot (ring_slot (g_bottom_half_head s + 1) + Z.of_nat i) = ring_slot (g_bottom_half_head s + Z.of_nat (S i))) by (unfold ring_slot; rewrite Zplus_mod_idemp_l; f_equal; lia).
    rewrite Hs, fset_ne; [by apply (R5 (S i))|]. intros He. replace (g_bottom_half_head s) with (ring_slot (g_bottom_half_head s + 0)) in He at 2 by (unfold ring_slot; rewrite Z.add_0_r, Z.mod_small by lia; done).
    apply ring_slot_inj in He; lia.
Qed.
End ring.

(** ** Interrupts and the loop, in any order *)

Inductive bh_op := Enqueue (fn arg : Z) | Next.
Inductive bh_result := Code (r : Z) | Item (it : option bottom_half_item).

Definition bh_do (o : bh_op) : ST bh bh_result :=
  match o with
  | Enqueue fn arg => r ← bottom_half_enqueue fn arg; mret (Code r)
  | Next => it ← bottom_half_next; mret (Item it)
  end.
Fixpoint bh_trace (l : list bh_op) : ST bh (list bh_result) :=
  match l with [] => mret [] | o :: l => r ← bh_do o; rs ← bh_trace l; mret (r :: rs) end.

(** The same on a queue of at most 64 calls. *)
Definition fifo_do (l : list bottom_half_item) (o : bh_op) : bh_result * list bottom_half_item :=
  match o with
  | Enqueue fn arg => if bool_decide (fn = 0 \/ length l = 64%nat) then (Code (-1), l) else (Code 0, l ++ [mkItem fn arg])
  | Next => match l with [] => (Item None, []) | x :: l => (Item (Some x), l) end
  end.
Fixpoint fifo_trace (l : list bottom_half_item) (os : list bh_op) : list bh_result :=
  match os with [] => [] | o :: os => (fifo_do l o).1 :: fifo_trace (fifo_do l o).2 os end.

Lemma bh_do_ok E s l o : ring s l -> wp E (bh_do o) (fun r s' => r = (fifo_do l o).1 /\ ring s' (fifo_do l o).2) s.
Proof.
  intros Hr. destruct o as [fn arg|]; simpl; wp_step.
  - apply (enqueue_ok E s l Hr).
    + intros Hno. wp_step. by rewrite bool_decide_true.
    + intros s' H0 Hlt Hr'. wp_step. rewrite bool_decide_false; [done|]. intros [|]; [done|lia].
  - apply (next_ok E s l Hr).
    + intros ->. wp_step. done.
    + intros x l' s' -> Hr'. wp_step. done.
Qed.

Lemma bh_trace_ok E os s l : ring s l -> wp E (bh_trace os) (fun rs s' => rs = fifo_trace l os) s.
Proof.
  revert s l. induction os as [|o os IH]; intros s l Hr; simpl; [by apply wp_ret|]. wp_step.
  eapply wp_mono; [by apply (bh_do_ok E s l o)|]. intros r s' [-> Hr']. wp_step.
  eapply wp_mono; [by apply IH|]. intros rs s'' ->. by apply wp_ret.
Qed.

(** C39: whatever interrupts add and whenever the loop takes the next call, the
    ring of 64 gives the results of a first-in first-out queue: accepted calls
    come out once, in order, and a call is refused only when 64 are waiting or
    there is no function. *)
Theorem bottom_half_fifo os : exists s, bh_trace os bh_init = Ok (fifo_trace [] os, s).
Proof.
  destruct (wp_run _ _ _ (bh_trace_ok nopanic os bh_init [] ring_init)) as (rs&s&Hrun&->). by exists s.
Qed.

(** A loop whose calls add nothing makes all of them and stops. *)
Lemma bottom_half_run_drains E s l call ran fuel : ring s l -> (length l < fuel)%nat ->
  (forall it s, call it s = Ok (tt, s)) -> wp E (bottom_half_run fuel call ran) (fun r s' => r = Some (ran + Z.of_nat (length l)) /\ ring s' []) s.
Proof.
  revert s l ran. induction fuel as [|fuel IH]; intros s l ran Hr Hf Hc; [lia|]. simpl. wp_step. apply (next_ok E s l Hr).
  - intros ->. apply wp_ret. simpl. split; [f_equal; lia|done].
  - intros x l' s' -> Hr'. wp_step. unfold wp at 1. rewrite Hc. simpl in Hf. eapply wp_mono; [apply (IH s' l'); [done|lia|done]|].
    intros r s'' [-> ?]. simpl. split; [f_equal; lia|done].
Qed.
