(* ===== verification/Vmm.v ===== *)
(** * x86_64 page tables (kernel/x86_64/vmm.c, include/x86_64/vm.h)

    Building, extending, copying and freeing the four-level trees, and the
    page fault handler.  A table is named by its physical address; a pointer
    into the direct mapping is that address, [None] is the null pointer.  The
    state is the one of the copy-on-write layer: page allocator, memory,
    cached translations. *)
From S2P Require Import Prelude State Pmm Pte VmCow.

(** ** Memory accesses *)

(** [1ULL << k] *)
Definition bit (k : Z) : Z := Z.shiftl 1 k.

Definition load (a : Z) : ST vmst Z := gets (fun s => s.(v_mem) a).
Definition store (a v : Z) : ST vmst unit := modify (fun s => set_leaf s a v).

(** A page filled with zeroes: [memset], and the loop over 512 entries. *)
Definition mzero (m : memory) (pa : Z) : memory :=
  fun x => if (pa <=? x) && (x <? pa + PAGE_SIZE) then 0 else m x.
Definition zero_page (pa : Z) : ST vmst unit := modify (fun s => with_mem s (mzero s.(v_mem) pa)).

Definition alloc_page : ST vmst Z := fun s =>
  let '(pa, p) := pmm_alloc s.(v_pmm) 1 in Ok (pa, with_pmm s p).
Definition free_pages (pa n : Z) : ST vmst unit :=
  modify (fun s => with_pmm s (pmm_free s.(v_pmm) pa n)).

(** [invlpg] *)
Definition invlpg (as_ vaddr : Z) : ST vmst unit := modify (fun s => arch_vm_flush_user_page s as_ vaddr).
(** Reading CR3 and writing it back drops the translations of the space that
    runs. *)
Definition reload_cr3 (cr3 : Z) (s : vmst) : vmst :=
  mkVm s.(v_pmm) s.(v_mem) (fun a v => if a =? cr3 then None else s.(v_tlb) a v).
Definition arch_syscall_flush_tlb (cr3 : Z) : ST vmst unit := modify (reload_cr3 cr3).

(** ** Extending a tree *)

Definition vmm_assert_page_aligned (phys : Z) : ST vmst unit :=
  kassert (Z.land phys (PAGE_SIZE - 1) =? 0) Asserted.

(** [if (flags & (1 << k)) current_table[index] |= 1 << k] *)
Definition grant_bit (flags k a : Z) : ST vmst unit :=
  if has flags k then e ← load a; store a (set_bit e k) else mret ().

Definition get_next_level (current_table : option Z) (index : Z) (allocate : bool) (flags : Z)
  : ST vmst (option Z) :=
  match current_table with
  | None => halt Asserted
  | Some t =>
      kassert (index <? 512) Asserted ;;
      e ← load (slot t index);
      if has e PTE_PRESENT then
        vmm_assert_page_aligned (Z.land e PTE_ADDR_MASK) ;;
        if has e PTE_HUGE then mret (Some (Z.land e PTE_ADDR_MASK)) else
        grant_bit flags PTE_USER (slot t index) ;;
        grant_bit flags PTE_WRITABLE (slot t index) ;;
        e ← load (slot t index);
        mret (Some (Z.land e PTE_ADDR_MASK))
      else if negb allocate then mret None else
      new_table_phys ← alloc_page;
      if new_table_phys =? 0 then mret None else
      zero_page new_table_phys ;;
      let entry_flags := Z.lor (Z.lor (bit PTE_PRESENT) (Z.land flags (bit PTE_USER)))
                               (Z.land flags (bit PTE_WRITABLE)) in
      store (slot t index) (Z.lor new_table_phys entry_flags) ;;
      mret (Some new_table_phys)
  end.

(** The store through the last table pointer, which may be null. *)
Definition store_at (table : option Z) (index v : Z) : ST vmst unit :=
  match table with
  | None => halt Undefined
  | Some t => store (slot t index) v
  end.

Definition leaf_entry (paddr flags : Z) : Z :=
  Z.lor (Z.lor (Z.land paddr PTE_ADDR_MASK) flags) (bit PTE_PRESENT).

Definition vmm_map_page (pml4 vaddr paddr flags : Z) : ST vmst unit :=
  vmm_assert_page_aligned paddr ;;
  pdp ← get_next_level (Some pml4) (PML4_IDX vaddr) true flags;
  pd ← get_next_level pdp (PDP_IDX vaddr) true flags;
  pt ← get_next_level pd (PD_IDX vaddr) true flags;
  store_at pt (PT_IDX vaddr) (leaf_entry paddr flags) ;;
  invlpg pml4 vaddr.

Definition vmm_map_huge_page (pml4 vaddr paddr flags : Z) : ST vmst unit :=
  kassert (Z.land vaddr (HUGE_PAGE_SIZE - 1) =? 0) Asserted ;;
  kassert (Z.land paddr (HUGE_PAGE_SIZE - 1) =? 0) Asserted ;;
  pdp ← get_next_level (Some pml4) (PML4_IDX vaddr) true flags;
  pd ← get_next_level pdp (PDP_IDX vaddr) true flags;
  store_at pd (PD_IDX vaddr) (Z.lor (leaf_entry paddr flags) (bit PTE_HUGE)) ;;
  invlpg pml4 vaddr.

(** [while (curr < size)] of [vmm_map_range]; each pass moves on by a page or
    more, so [size / PAGE_SIZE + 1] passes are enough. *)
Fixpoint map_range_from (fuel : nat) (curr pml4 vaddr paddr size flags : Z) : ST vmst unit :=
  match fuel with
  | O => halt Undefined
  | S fuel =>
      if negb (curr <? size) then mret () else
      if (HUGE_PAGE_SIZE <=? size - curr) && (u64 (vaddr + curr) mod HUGE_PAGE_SIZE =? 0)
         && (u64 (paddr + curr) mod HUGE_PAGE_SIZE =? 0)
      then vmm_map_huge_page pml4 (u64 (vaddr + curr)) (u64 (paddr + curr)) flags ;;
           map_range_from fuel (curr + HUGE_PAGE_SIZE) pml4 vaddr paddr size flags
      else vmm_map_page pml4 (u64 (vaddr + curr)) (u64 (paddr + curr)) flags ;;
           map_range_from fuel (curr + PAGE_SIZE) pml4 vaddr paddr size flags
  end.

Definition vmm_map_range (pml4 vaddr paddr size flags : Z) : ST vmst unit :=
  map_range_from (Z.to_nat (size / PAGE_SIZE + 2)) 0 pml4 vaddr paddr size flags.

Definition vmm_get_phys (m : memory) (pml4 vaddr : Z) : Z :=
  let pml4e := m (slot pml4 (PML4_IDX vaddr)) in
  if negb (has pml4e PTE_PRESENT) then 0 else
  let pdpe := m (slot (Z.land pml4e PTE_ADDR_MASK) (PDP_IDX vaddr)) in
  if negb (has pdpe PTE_PRESENT) then 0 else
  let pde := m (slot (Z.land pdpe PTE_ADDR_MASK) (PD_IDX vaddr)) in
  if has pde PTE_HUGE then Z.land pde PTE_ADDR_MASK + vaddr mod HUGE_PAGE_SIZE else
  if negb (has pde PTE_PRESENT) then 0 else
  let pte := m (slot (Z.land pde PTE_ADDR_MASK) (PT_IDX vaddr)) in
  if negb (has pte PTE_PRESENT) then 0 else
  Z.land pte PTE_ADDR_MASK + vaddr mod PAGE_SIZE.

(** New flags for one page: the tables above it are widened as well. *)
Definition arch_vm_update_page_flags (as_ vaddr new_flags : Z) : ST vmst unit :=
  m ← gets v_mem;
  match x86_user_pte m as_ vaddr with
  | None => mret ()
  | Some pte =>
      if negb (has (m pte) PTE_PRESENT) then mret ()
      else vmm_map_page as_ vaddr (Z.land (m pte) PTE_ADDR_MASK) new_flags
  end.

Definition arch_vm_user_page_flags (writable executable : bool) : Z :=
  let flags := Z.lor (bit PTE_PRESENT) (bit PTE_USER) in
  let flags := if writable then Z.lor flags (bit PTE_WRITABLE) else flags in
  if executable then flags else Z.lor flags (bit PTE_NX).

(** ** Whole trees *)

(** [vmm_init]: the kernel's own tree; [kernel_address] is what the boot
    loader says about the kernel's image, if it says anything. *)
Definition vmm_init (kernel_address : option (Z * Z)) : ST vmst Z :=
  kernel_pml4 ← alloc_page;
  zero_page kernel_pml4 ;;
  vmm_map_range kernel_pml4 0 0 0x100000000 (Z.lor (bit PTE_PRESENT) (bit PTE_WRITABLE)) ;;
  match kernel_address with
  | None => mret kernel_pml4
  | Some (virtual_base, physical_base) =>
      vmm_map_range kernel_pml4 virtual_base physical_base 0x2000000
        (Z.lor (bit PTE_PRESENT) (bit PTE_WRITABLE)) ;;
      mret kernel_pml4
  end.

(** [new[i] = (i >= 256) ? kernel_root[i] : 0] *)
Definition arch_vm_create_user_address_space (kernel_pml4 : Z) : ST vmst Z :=
  pml4_phys ← alloc_page;
  if pml4_phys =? 0 then mret 0 else
  mfor 512 0 (fun i =>
    e ← load (slot kernel_pml4 i); store (slot pml4_phys i) (if 256 <=? i then e else 0)) ;;
  mret pml4_phys.

Definition share_leaf (leaf pages : Z) : ST vmst Z := fun s => Ok (vm_cow_share_leaf s leaf pages).

(** The entry of a copied table: the new address with the old flags. *)
Definition moved_entry (e new_phys : Z) : Z := Z.lor new_phys (Z.land e (Z.lnot PTE_ADDR_MASK)).

(** The innermost loop of [vmm_copy_pml4], over the leaves. *)
Definition copy_pt_entry (old_pt new_pt l : Z) : ST vmst unit :=
  e ← load (slot old_pt l);
  if negb (has e PTE_PRESENT) then store (slot new_pt l) 0 else
  c ← share_leaf (slot old_pt l) 1;
  store (slot new_pt l) c.

(** One pass of the loop over a page directory. *)
Definition copy_pd_entry (old_pd new_pd k : Z) : ST vmst unit :=
  e ← load (slot old_pd k);
  if negb (has e PTE_PRESENT) then store (slot new_pd k) 0 else
  if has e PTE_HUGE then
    c ← share_leaf (slot old_pd k) (HUGE_PAGE_SIZE / PAGE_SIZE);
    store (slot new_pd k) c
  else
  new_pt ← alloc_page;
  store (slot new_pd k) (moved_entry e new_pt) ;;
  mfor 512 0 (copy_pt_entry (Z.land e PTE_ADDR_MASK) new_pt).

Definition copy_pdp_entry (old_pdp new_pdp j : Z) : ST vmst unit :=
  e ← load (slot old_pdp j);
  if negb (has e PTE_PRESENT) then store (slot new_pdp j) 0 else
  new_pd ← alloc_page;
  store (slot new_pdp j) (moved_entry e new_pd) ;;
  mfor 512 0 (copy_pd_entry (Z.land e PTE_ADDR_MASK) new_pd).

Definition copy_pml4_entry (old_pml4 new_pml4 i : Z) : ST vmst unit :=
  e ← load (slot old_pml4 i);
  if negb (has e PTE_PRESENT) then store (slot new_pml4 i) 0 else
  new_pdp ← alloc_page;
  store (slot new_pml4 i) (moved_entry e new_pdp) ;;
  mfor 512 0 (copy_pdp_entry (Z.land e PTE_ADDR_MASK) new_pdp).

(** 0 when not even the top table can be had. *)
Definition vmm_copy_pml4 (cr3 old_pml4 : Z) : ST vmst Z :=
  new_pml4 ← alloc_page;
  if new_pml4 =? 0 then mret 0 else
  mfor 256 256 (fun i => e ← load (slot old_pml4 i); store (slot new_pml4 i) e) ;;
  mfor 256 0 (copy_pml4_entry old_pml4 new_pml4) ;;
  modify (reload_cr3 cr3) ;;
  mret new_pml4.

(** [KASSERT(pmm_get_ref(pa) > 0)] *)
Definition assert_referenced (pa : Z) : ST vmst unit :=
  p ← gets v_pmm; kassert (0 <? pmm_get_ref p pa) Asserted.

(** The loops of [vmm_free_user_pml4], inside out. *)
Definition free_pt_entry (pt l : Z) : ST vmst unit :=
  e ← load (slot pt l);
  if negb (has e PTE_PRESENT) then mret () else
  assert_referenced (Z.land e PTE_ADDR_MASK) ;;
  free_pages (Z.land e PTE_ADDR_MASK) 1.

Definition free_pd_entry (pd k : Z) : ST vmst unit :=
  e ← load (slot pd k);
  if negb (has e PTE_PRESENT) then mret () else
  if has e PTE_HUGE then
    assert_referenced (Z.land e PTE_ADDR_MASK) ;;
    free_pages (Z.land e PTE_ADDR_MASK) 512
  else
  let pt_phys := Z.land e PTE_ADDR_MASK in
  vmm_assert_page_aligned pt_phys ;;
  mfor 512 0 (free_pt_entry pt_phys) ;;
  free_pages pt_phys 1.

Definition free_pdp_entry (pdp j : Z) : ST vmst unit :=
  e ← load (slot pdp j);
  if negb (has e PTE_PRESENT) then mret () else
  let pd_phys := Z.land e PTE_ADDR_MASK in
  vmm_assert_page_aligned pd_phys ;;
  mfor 512 0 (free_pd_entry pd_phys) ;;
  free_pages pd_phys 1.

Definition free_pml4_entry (pml4 i : Z) : ST vmst unit :=
  e ← load (slot pml4 i);
  if negb (has e PTE_PRESENT) then mret () else
  let pdp_phys := Z.land e PTE_ADDR_MASK in
  mfor 512 0 (free_pdp_entry pdp_phys) ;;
  free_pages pdp_phys 1.

Definition vmm_free_user_pml4 (kernel_pml4 pml4_phys : Z) : ST vmst unit :=
  if pml4_phys =? 0 then mret () else
  kassert (negb (pml4_phys =? kernel_pml4)) Asserted ;;
  vmm_assert_page_aligned pml4_phys ;;
  mfor 256 0 (free_pml4_entry pml4_phys) ;;
  free_pages pml4_phys 1.

(** ** The page fault handler *)

(** How a page fault ends: the instruction is tried again, the process is
    killed with the reason printed, or the kernel stops. *)
Inductive fault_end := Retried | Killed (reason : string) | Stopped.

(** The part of the current task the handler reads. *)
Record fault_task := mkFaultTask { user_stack_guard : Z; user_stack_bottom : Z }.

(** [kill_current_task_on_user_fault], and the halt that follows it when it
    returns. *)
Definition kill_current_task_on_user_fault (current : option fault_task) (error_code : Z)
  (reason : string) : fault_end :=
  if has error_code 2 then match current with Some _ => Killed reason | None => Stopped end
  else Stopped.

Definition classify_user_fault_reason (current : option fault_task) (error_code fault_vaddr : Z)
  : option string :=
  match current with
  | None => None
  | Some t =>
      if negb (t.(user_stack_guard) =? 0) && negb (t.(user_stack_bottom) =? 0)
         && (t.(user_stack_guard) <=? fault_vaddr) && (fault_vaddr <? t.(user_stack_bottom))
      then Some (if has error_code 1 then "stack-guard-write" else "stack-overflow")
      else None
  end.

(** At which level a violating write fell off. *)
Definition fault_level (m : memory) (pml4 fault_vaddr : Z) : string :=
  let pml4e := m (slot pml4 (PML4_IDX fault_vaddr)) in
  if negb (has pml4e PTE_PRESENT) then "pml4e-not-present" else
  let pdpe := m (slot (Z.land pml4e PTE_ADDR_MASK) (PDP_IDX fault_vaddr)) in
  if negb (has pdpe PTE_PRESENT) then "pdpe-not-present" else
  let pde := m (slot (Z.land pdpe PTE_ADDR_MASK) (PD_IDX fault_vaddr)) in
  if negb (has pde PTE_HUGE) && negb (has pde PTE_PRESENT) then "pde-not-present"
  else "write-to-nonwritable".

Definition write_fault (as_ vaddr : Z) : ST vmst Z := fun s => Ok (vm_cow_write_fault s as_ vaddr).

Definition vmm_page_fault_handler (current : option fault_task) (cr3 fault_vaddr error_code : Z)
  : ST vmst fault_end :=
  match classify_user_fault_reason current error_code fault_vaddr with
  | Some reason => mret (kill_current_task_on_user_fault current error_code reason)
  | None =>
      if negb (has error_code 1)
      then mret (kill_current_task_on_user_fault current error_code "read/page-not-present") else
      rc ← write_fault (page_down cr3) fault_vaddr;
      if rc =? VM_COW_HANDLED then mret Retried else
      if rc =? VM_COW_NOMEM
      then mret (kill_current_task_on_user_fault current error_code "cow-alloc-failed") else
      m ← gets v_mem;
      mret (kill_current_task_on_user_fault current error_code (fault_level m cr3 fault_vaddr))
  end.

(** ** What the processor makes of the tables

    The walk of the memory management unit for a user access, with caching
    left out: every level must be present and open to the user, and the page
    is writable when every level is.  The tables never use 1 GiB pages. *)
Definition mmu_levels (m : memory) (as_ vaddr : Z) : option (list Z) :=
  let pml4e := m (slot as_ (PML4_IDX vaddr)) in
  if negb (has pml4e PTE_PRESENT) then None else
  let pdpe := m (slot (Z.land pml4e PTE_ADDR_MASK) (PDP_IDX vaddr)) in
  if negb (has pdpe PTE_PRESENT) then None else
  let pde := m (slot (Z.land pdpe PTE_ADDR_MASK) (PD_IDX vaddr)) in
  if negb (has pde PTE_PRESENT) then None else
  if has pde PTE_HUGE then Some [pml4e; pdpe; pde] else
  let pte := m (slot (Z.land pde PTE_ADDR_MASK) (PT_IDX vaddr)) in
  if negb (has pte PTE_PRESENT) then None else Some [pml4e; pdpe; pde; pte].

Definition mmu_readable (m : memory) (as_ vaddr : Z) : bool :=
  match mmu_levels m as_ vaddr with
  | Some es => forallb (fun e => has e PTE_USER) es
  | None => false
  end.
Definition mmu_writable (m : memory) (as_ vaddr : Z) : bool :=
  match mmu_levels m as_ vaddr with
  | Some es => forallb (fun e => has e PTE_USER && has e PTE_WRITABLE) es
  | None => false
  end.
