(* ===== verification/PtWalk.v ===== *)
(** * Walking a page table

    The tables on the way to a virtual address, level by level: level 0 is
    the top table, level 3 the one that holds the leaves.  [key n va] names
    the table of level [n] on the way to [va], so two addresses share a table
    exactly when they share a key; the key of level 4 is the page number. *)
From S2P Require Import Prelude State Pmm Pte VmCow Vmm.

Definition idx (n : nat) (va : Z) : Z :=
  match n with
  | 0%nat => PML4_IDX va | 1%nat => PDP_IDX va | 2%nat => PD_IDX va | _ => PT_IDX va
  end.

Fixpoint key (n : nat) (va : Z) : Z :=
  match n with O => 0 | S n => key n va * 512 + idx n va end.

(** The lower half, which belongs to the process. *)
Definition user (va : Z) : Prop := PML4_IDX va < 256.

(** The table an entry of level [n] leads to. *)
Definition child (n : nat) (e : Z) : option Z :=
  if has e PTE_PRESENT && negb (Nat.eqb n 2 && has e PTE_HUGE) then Some (Z.land e PTE_ADDR_MASK) else None.

Fixpoint tab (m : memory) (as_ va : Z) (n : nat) : option Z :=
  match n with
  | O => Some as_
  | S n => match tab m as_ va n with
           | None => None
           | Some t => child n (m (slot t (idx n va)))
           end
  end.

(** The entry of the page, when there is one. *)
Definition leaf (m : memory) (as_ va : Z) : option Z :=
  match tab m as_ va 3 with
  | None => None
  | Some t => let x := slot t (idx 3 va) in if has (m x) PTE_PRESENT then Some x else None
  end.

(** The entry of the 2 MiB page [va] lies in, when there is one. *)
Definition huge (m : memory) (as_ va : Z) : option Z :=
  match tab m as_ va 2 with
  | None => None
  | Some t => let e := m (slot t (idx 2 va)) in if has e PTE_HUGE then Some e else None
  end.

(** The entry of the 4 KiB page. *)
Definition view (m : memory) (as_ va : Z) : option Z :=
  match leaf m as_ va with None => None | Some x => Some (m x) end.

(** ** Indices and keys *)

Lemma idx_range n va : 0 <= idx n va < 512.
Proof.
  assert (H : forall k, 0 <= Z.land (Z.shiftr va k) 0x1FF < 512).
  { intros k. change 0x1FF with (Z.ones 9). rewrite Z.land_ones by lia. apply Z.mod_pos_bound. lia. }
  destruct n as [|[|[|]]]; apply H.
Qed.

Lemma key_inj n va va' : key (S n) va = key (S n) va' -> key n va = key n va' /\ idx n va = idx n va'.
Proof. simpl. pose proof (idx_range n va). pose proof (idx_range n va'). lia. Qed.

Lemma key_le n k va va' : (n <= k)%nat -> key k va = key k va' -> key n va = key n va'.
Proof. induction 1 as [|k Hk IH]; [done|]. intros [Hk1 _]%key_inj. by apply IH. Qed.

Lemma shift_idx va k : 0 <= k -> Z.land (Z.shiftr va k) 0x1FF = va / 2 ^ k mod 512.
Proof. intros. change 0x1FF with (Z.ones 9). by rewrite Z.land_ones, Z.shiftr_div_pow2 by lia. Qed.

(** The page number, for addresses of 48 bits. *)
Lemma key_page va : 0 <= va < 2 ^ 48 -> key 4 va = va / PAGE_SIZE.
Proof.
  intros Hva. simpl. unfold PML4_IDX, PDP_IDX, PD_IDX, PT_IDX. rewrite !shift_idx by lia.
  unfold PAGE_SIZE. change (2 ^ 39) with (4096 * 512 * 512 * 512). change (2 ^ 30) with (4096 * 512 * 512).
  change (2 ^ 21) with (4096 * 512). change (2 ^ 12) with 4096. change (2 ^ 48) with (4096 * 512 * 512 * 512 * 512) in Hva.
  rewrite <- !Z.div_div by lia. set (v := va / 4096).
  assert (0 <= v < 512 * 512 * 512 * 512) by (unfold v; split; [apply Z.div_pos; lia|apply Z.div_lt_upper_bound; lia]).
  pose proof (Z.div_mod v 512 ltac:(lia)). pose proof (Z.div_mod (v / 512) 512 ltac:(lia)).
  pose proof (Z.div_mod (v / 512 / 512) 512 ltac:(lia)).
  rewrite (Z.mod_small (v / 512 / 512 / 512)); [lia|].
  split; [repeat apply Z.div_pos; lia|repeat apply Z.div_lt_upper_bound; lia].
Qed.

Lemma user_low va : 0 <= va < 2 ^ 47 -> user va.
Proof.
  intros Hva. unfold user, PML4_IDX. rewrite shift_idx by lia.
  assert (0 <= va / 2 ^ 39 < 256) by (split; [apply Z.div_pos; lia|apply Z.div_lt_upper_bound; lia]).
  rewrite Z.mod_small; lia.
Qed.

Lemma key_apart va va' : 0 <= va < 2 ^ 48 -> 0 <= va' < 2 ^ 48 ->
  va / PAGE_SIZE <> va' / PAGE_SIZE -> key 4 va <> key 4 va'.
Proof. intros. by rewrite !key_page. Qed.

(** ** Slots *)

Lemma slot_in t i : 0 <= i < 512 -> in_frame t (slot t i).
Proof. unfold in_frame, slot, PAGE_SIZE. lia. Qed.

Lemma slot_page t i : aligned t -> 0 <= i < 512 -> page_down (slot t i) = t.
Proof. intros Ht Hi. apply in_frame_page_down; [done|by apply slot_in]. Qed.

Lemma slot_inj t i t' i' : aligned t -> aligned t' -> 0 <= i < 512 -> 0 <= i' < 512 ->
  slot t i = slot t' i' -> t = t' /\ i = i'.
Proof.
  intros Ht Ht' Hi Hi' He. assert (t = t') as <-.
  { rewrite <- (slot_page t i), <- (slot_page t' i') by done. by rewrite He. }
  unfold slot in He. split; [done|lia].
Qed.
#[export] Hint Resolve idx_range slot_in : core.

(** ** The walk *)

Section walk.
Implicit Types (m : memory) (n : nat).

Lemma tab_prefix m as_ va n k t : tab m as_ va k = Some t -> (n <= k)%nat -> exists u, tab m as_ va n = Some u.
Proof.
  intros Ht Hn. revert t Ht. induction Hn as [|k Hk IH]; [eauto|]. intros t. simpl.
  destruct (tab m as_ va k); [eauto|done].
Qed.

Lemma tab_key m as_ va va' n : key n va = key n va' -> tab m as_ va n = tab m as_ va' n.
Proof.
  induction n as [|n IH]; [done|]. intros [Hk Hi]%key_inj. simpl. rewrite IH, Hi by done. done.
Qed.

Lemma leaf_key m as_ va va' : key 4 va = key 4 va' -> leaf m as_ va = leaf m as_ va'.
Proof. intros [Hk Hi]%key_inj. unfold leaf. by rewrite (tab_key m as_ va va' 3 Hk), Hi. Qed.

Lemma view_key m as_ va va' : key 4 va = key 4 va' -> view m as_ va = view m as_ va'.
Proof. intros Hk. unfold view. by rewrite (leaf_key m as_ va va' Hk). Qed.

(** Where there is a page table there is no 2 MiB page. *)
Lemma tab_no_huge m as_ va t : tab m as_ va 3 = Some t -> huge m as_ va = None.
Proof.
  unfold huge. cbn [tab]. destruct (tab m as_ va 2) as [u|] eqn:E; cbn [tab] in E; rewrite E; [|done].
  unfold child. cbn [Nat.eqb andb]. destruct (has _ PTE_HUGE); [by rewrite andb_false_r|done].
Qed.

Lemma huge_key m as_ va va' : key 3 va = key 3 va' -> huge m as_ va = huge m as_ va'.
Proof. intros [Hk Hi]%key_inj. unfold huge. by rewrite (tab_key m as_ va va' 2 Hk), Hi. Qed.

Lemma tab_pte m as_ va :
  x86_user_pte m as_ va = (fun t => slot t (idx 3 va)) <$> tab m as_ va 3.
Proof.
  unfold x86_user_pte, tab, child, idx. set (e0 := m (slot as_ (PML4_IDX va))).
  cbn [Nat.eqb andb negb]. destruct (has e0 PTE_PRESENT); [|done]. cbn [negb andb].
  set (e1 := m (slot (Z.land e0 PTE_ADDR_MASK) (PDP_IDX va))).
  destruct (has e1 PTE_PRESENT); [|done]. cbn [negb andb].
  set (e2 := m (slot (Z.land e1 PTE_ADDR_MASK) (PD_IDX va))).
  destruct (has e2 PTE_PRESENT), (has e2 PTE_HUGE); done.
Qed.

Lemma leaf_pte m as_ va x :
  leaf m as_ va = Some x <-> x86_user_pte m as_ va = Some x /\ has (m x) PTE_PRESENT = true.
Proof.
  rewrite tab_pte. unfold leaf. destruct (tab m as_ va 3) as [t|]; [|split; [done|by intros [? _]]].
  cbn. destruct (has (m (slot t (PT_IDX va))) PTE_PRESENT) eqn:E; split.
  - by intros [= <-].
  - by intros [? _].
  - done.
  - intros [[= <-] He]. congruence.
Qed.

(** Entries that agree give the same walk. *)
Lemma tab_agree m m' as_ va n :
  (forall k t, (k < n)%nat -> tab m as_ va k = Some t ->
     child k (m' (slot t (idx k va))) = child k (m (slot t (idx k va)))) ->
  tab m' as_ va n = tab m as_ va n.
Proof.
  induction n as [|n IH]; [done|]. intros Hm. simpl.
  rewrite IH by (intros k t Hk; apply Hm; lia). destruct (tab m as_ va n) as [t|] eqn:E; [|done].
  apply Hm; [lia|done].
Qed.
End walk.
