(* ===== verification/PtInv.v ===== *)
(** * The invariant of a set of address spaces

    [pt_inv s A L]: the trees whose top tables are [A] do not share tables,
    every table is a page of its own that is neither free nor mapped, and [L]
    are exactly the leaves that map pages of the allocator, for which the
    copy-on-write invariant holds.  Extending a tree with empty tables
    ([grows]) changes nothing that a process can see. *)
From S2P Require Import Prelude State Pmm Pte VmCow Vmm PtWalk.

Definition is_table (m : memory) (A : list Z) (t : Z) : Prop :=
  exists as_ va n, as_ ∈ A /\ user va /\ (n <= 3)%nat /\ tab m as_ va n = Some t.

Definition managed (p : pmm) (f : Z) : Prop := is_Some (pmm_page_of p f).

Record pt_inv (s : vmst) (A L : list Z) : Prop := {
  pi_cow : cow_inv s L;
  pi_tab : forall t, is_table s.(v_mem) A t -> aligned t /\ pmm_get_ref s.(v_pmm) t = 1;
  pi_inj : forall as_ va n as' va' n' t,
    as_ ∈ A -> as' ∈ A -> user va -> user va' -> (n <= 3)%nat -> (n' <= 3)%nat ->
    tab s.(v_mem) as_ va n = Some t -> tab s.(v_mem) as' va' n' = Some t ->
    as_ = as' /\ n = n' /\ key n va = key n' va';
  pi_leaf : forall x, x ∈ L <->
    exists as_ va, as_ ∈ A /\ user va /\ leaf s.(v_mem) as_ va = Some x /\
                   managed s.(v_pmm) (frame s.(v_mem) x);
  pi_frame : forall x, x ∈ L -> ~ is_table s.(v_mem) A (frame s.(v_mem) x);
  (** page 0 is never mapped *)
  pi_null : forall as_ va x, as_ ∈ A -> user va -> leaf s.(v_mem) as_ va = Some x -> frame s.(v_mem) x <> 0;
  pi_huge : forall as_ va e, as_ ∈ A -> user va -> huge s.(v_mem) as_ va = Some e -> x86_pte_phys e <> 0;
}.

(** A page that is taken but not yet mapped. *)
Record held (s : vmst) (A L : list Z) (pa : Z) : Prop := {
  hd_aligned : aligned pa;
  hd_ref : pmm_get_ref s.(v_pmm) pa = 1;
  hd_table : ~ is_table s.(v_mem) A pa;
  hd_frame : forall x, x ∈ L -> frame s.(v_mem) x <> pa;
}.

(** Pages the allocator can still hand out. *)
Definition avail (p : pmm) : Z := p.(g_pages) - p.(g_used).

(** At most [k] pages were taken: those of [H], and the others for empty
    tables. *)
Record grows (k : Z) (H A : list Z) (s s' : vmst) : Prop := {
  gr_base : s'.(v_pmm).(g_base_pa) = s.(v_pmm).(g_base_pa);
  gr_pages : s'.(v_pmm).(g_pages) = s.(v_pmm).(g_pages);
  gr_tab : forall as_ va n t, as_ ∈ A -> user va -> (n <= 3)%nat ->
    tab s.(v_mem) as_ va n = Some t -> tab s'.(v_mem) as_ va n = Some t;
  gr_new : forall t, is_table s'.(v_mem) A t -> is_table s.(v_mem) A t \/ free_at s.(v_pmm) t;
  gr_leaf : forall as_ va, as_ ∈ A -> user va -> leaf s'.(v_mem) as_ va = leaf s.(v_mem) as_ va;
  gr_entry : forall as_ va x, as_ ∈ A -> user va -> leaf s.(v_mem) as_ va = Some x ->
    s'.(v_mem) x = s.(v_mem) x;
  gr_huge : forall as_ va, as_ ∈ A -> user va -> huge s'.(v_mem) as_ va = huge s.(v_mem) as_ va;
  gr_mem : forall a, ~ free_at s.(v_pmm) (page_down a) -> ~ is_table s.(v_mem) A (page_down a) ->
    s'.(v_mem) a = s.(v_mem) a;
  gr_ref : forall f, aligned f -> ~ free_at s.(v_pmm) f -> pmm_get_ref s'.(v_pmm) f = pmm_get_ref s.(v_pmm) f;
  gr_free : forall f, free_at s'.(v_pmm) f -> free_at s.(v_pmm) f;
  gr_taken : forall f, aligned f -> free_at s.(v_pmm) f -> 0 < pmm_get_ref s'.(v_pmm) f ->
    is_table s'.(v_mem) A f \/ f ∈ H;
  gr_tlb : s'.(v_tlb) = s.(v_tlb);
  gr_avail : avail s.(v_pmm) - k <= avail s'.(v_pmm);
}.

Lemma grows_refl A s : pmm_ok s.(v_pmm) -> grows 0 [] A s s.
Proof.
  intros Hok. constructor; auto; [|lia]. intros f _ Hf Hr. by destruct (get_ref_not_free _ _ Hok Hr).
Qed.

Lemma grows_weaken k k' H A s s' : grows k H A s s' -> k <= k' -> grows k' H A s s'.
Proof. intros [] ?. constructor; auto; lia. Qed.

Lemma is_table_mono k H A s s' t : grows k H A s s' -> is_table s.(v_mem) A t -> is_table s'.(v_mem) A t.
Proof. intros Hg (as_&va&n&?&?&?&?). exists as_, va, n. split_and!; auto. by apply (gr_tab _ _ _ _ _ Hg). Qed.

Lemma free_decide p f : {free_at p f} + {~ free_at p f}.
Proof.
  unfold free_at. destruct (pmm_page_of p f) as [q|] eqn:E; [|right; by intros (?&?&_)].
  destruct (pmm_test p q) eqn:E'; [right|left; eauto]. intros (q'&[= <-]&?). congruence.
Qed.

Lemma grows_trans k k' H H' A s1 s2 s3 :
  grows k H A s1 s2 -> grows k' H' A s2 s3 -> grows (k + k') (H ++ H') A s1 s3.
Proof.
  intros H1 H2. constructor.
  - by rewrite (gr_base _ _ _ _ _ H2), (gr_base _ _ _ _ _ H1).
  - by rewrite (gr_pages _ _ _ _ _ H2), (gr_pages _ _ _ _ _ H1).
  - intros. eapply gr_tab; eauto. eapply gr_tab; eauto.
  - intros t [Ht|Hf]%(gr_new _ _ _ _ _ H2); [by apply (gr_new _ _ _ _ _ H1)|right; by apply (gr_free _ _ _ _ _ H1)].
  - intros. by rewrite (gr_leaf _ _ _ _ _ H2), (gr_leaf _ _ _ _ _ H1).
  - intros as_ va x Ha Hu Hl. rewrite (gr_entry _ _ _ _ _ H2 as_ va x), (gr_entry _ _ _ _ _ H1 as_ va x); auto.
    by rewrite (gr_leaf _ _ _ _ _ H1).
  - intros. by rewrite (gr_huge _ _ _ _ _ H2), (gr_huge _ _ _ _ _ H1).
  - intros a Hf Ht. rewrite (gr_mem _ _ _ _ _ H2), (gr_mem _ _ _ _ _ H1); auto.
    + by intros ?%(gr_free _ _ _ _ _ H1).
    + by intros [?|?]%(gr_new _ _ _ _ _ H1).
  - intros f Ha Hf. rewrite (gr_ref _ _ _ _ _ H2), (gr_ref _ _ _ _ _ H1); auto.
    by intros ?%(gr_free _ _ _ _ _ H1).
  - intros f ?%(gr_free _ _ _ _ _ H2). by apply (gr_free _ _ _ _ _ H1).
  - intros f Ha Hf Hr. rewrite elem_of_app. destruct (free_decide s2.(v_pmm) f) as [Hf2|Hf2].
    + destruct (gr_taken _ _ _ _ _ H2 f Ha Hf2 Hr); auto.
    + rewrite (gr_ref _ _ _ _ _ H2 f Ha Hf2) in Hr.
      destruct (gr_taken _ _ _ _ _ H1 f Ha Hf Hr); auto. left. by apply (is_table_mono _ _ _ _ _ _ H2).
  - by rewrite (gr_tlb _ _ _ _ _ H2), (gr_tlb _ _ _ _ _ H1).
  - pose proof (gr_avail _ _ _ _ _ H1). pose proof (gr_avail _ _ _ _ _ H2). lia.
Qed.

(** ** The allocator's count *)

Lemma alloc_avail p pa p' : pmm_ok p -> pmm_alloc p 1 = (pa, p') -> pa <> 0 -> avail p' = avail p - 1.
Proof.
  intros [Hwf _] Ha Hne. apply pmm_alloc_spec in Ha as (Hwf'&Hb&Hg&Hres); [|done|lia].
  destruct Hres as [(?&_)|(_&st&?&?&Hfree&_&_&Ht&_)]; [done|]. unfold avail.
  rewrite Hg, (wf_used p Hwf), (wf_used p' Hwf'), Hg.
  rewrite (popcnt_update (bm_test (g_bm p')) (bm_test (g_bm p)) (Z.to_nat (g_pages p)) st); [|lia|].
  2: { intros q Hq Hqs. change (pmm_test p' q = pmm_test p q). rewrite Ht by lia.
       by rewrite bool_decide_eq_false_2 by lia. }
  change (bm_test (g_bm p') st) with (pmm_test p' st). rewrite Ht by lia.
  rewrite bool_decide_eq_true_2 by lia. rewrite (Hfree st) by lia. simpl. lia.
Qed.

(** While a page is left, an allocation succeeds. *)
Lemma alloc_some p pa p' :
  pmm_ok p -> ~ free_at p 0 -> pmm_alloc p 1 = (pa, p') -> 0 < avail p -> pa <> 0.
Proof.
  intros Hok Hz Ha Hav ->. destruct (alloc_fail_by_address p p' Hok Hz Ha) as (_&_&_&_&Hno&_).
  destruct Hok as [Hwf _]. pose proof (wf_used p Hwf) as Hu. pose proof (wf_pages p Hwf).
  assert (Hall : popcnt (bm_test p.(g_bm)) (Z.to_nat p.(g_pages)) = p.(g_pages)).
  { rewrite (popcnt_ext _ (fun _ => true)), popcnt_const_true; [lia|]. intros q Hq.
    destruct (bm_test p.(g_bm) q) eqn:E; [done|]. exfalso.
    apply (Hno (page_addr p q)). exists q. split; [apply page_of_page; [done|lia]|done]. }
  unfold avail in Hav. lia.
Qed.

(** An allocation that succeeds had a page left. *)
Lemma avail_nonneg p : pmm_ok p -> 0 <= avail p.
Proof. intros [Hwf _]. pose proof (used_range p Hwf). unfold avail. lia. Qed.

Lemma alloc_avail_pos p pa p' : pmm_ok p -> pmm_alloc p 1 = (pa, p') -> pa <> 0 -> 0 < avail p.
Proof.
  intros Hok Ha Hne. pose proof (alloc_avail p pa p' Hok Ha Hne) as Hav. destruct Hok as [Hwf _].
  apply pmm_alloc_spec in Ha as (Hwf'&_&Hg&_); [|done|lia]. pose proof (wf_used p' Hwf') as Hu.
  pose proof (popcnt_bound (bm_test (g_bm p')) (Z.to_nat (g_pages p'))). pose proof (wf_pages p' Hwf').
  unfold avail in *. lia.
Qed.
