(* ===== verification/PtGrow.v ===== *)
(** * Extending a tree

    [get_next_level] either finds the next table, possibly widening its
    entry, or links a fresh empty one; both keep the invariant and are
    invisible to processes. *)
From S2P Require Import Prelude State Pmm Pte VmCow Vmm PtWalk PtInv.

Lemma child_zero n : child n 0 = None.
Proof. done. Qed.

Section inv.
Variables (s : vmst) (A L : list Z).
Hypothesis Hi : pt_inv s A L.
Abbreviation m := s.(v_mem).
Abbreviation p := s.(v_pmm).

Lemma inv_pmm_ok : pmm_ok p.
Proof using Hi. apply Hi. Qed.

Lemma table_intro as_ va n t : as_ ∈ A -> user va -> (n <= 3)%nat -> tab m as_ va n = Some t -> is_table m A t.
Proof using. intros. by exists as_, va, n. Qed.

Lemma table_aligned as_ va n t : as_ ∈ A -> user va -> (n <= 3)%nat -> tab m as_ va n = Some t -> aligned t.
Proof using Hi. intros. eapply (pi_tab _ _ _ Hi), table_intro; eauto. Qed.

Lemma table_live t : is_table m A t -> ~ free_at p t.
Proof using Hi.
  intros Ht. apply get_ref_not_free; [apply inv_pmm_ok|]. destruct (pi_tab _ _ _ Hi t Ht). lia.
Qed.

Lemma table_slot as_ va n t :
  as_ ∈ A -> user va -> (n <= 3)%nat -> tab m as_ va n = Some t -> page_down (slot t (idx n va)) = t.
Proof using Hi. intros. apply slot_page; [by apply (table_aligned as_ va n t)|auto]. Qed.

(** A slot belongs to one place in one tree. *)
Lemma slot_once as_ va n t as' va' n' t' :
  as_ ∈ A -> as' ∈ A -> user va -> user va' -> (n <= 3)%nat -> (n' <= 3)%nat ->
  tab m as_ va n = Some t -> tab m as' va' n' = Some t' ->
  slot t (idx n va) = slot t' (idx n' va') -> as_ = as' /\ n = n' /\ key (S n) va = key (S n') va'.
Proof using Hi.
  intros Ha Ha' Hu Hu' Hn Hn' Ht Ht' He.
  apply slot_inj in He as [<- Hidx]; auto; [|apply (table_aligned as_ va n t)|apply (table_aligned as' va' n' t')]; auto.
  destruct (pi_inj _ _ _ Hi as_ va n as' va' n' t) as (<-&<-&Hk); auto. simpl. by rewrite Hk, Hidx.
Qed.

Lemma leaf_slot as_ va x : leaf m as_ va = Some x ->
  exists t, tab m as_ va 3 = Some t /\ x = slot t (idx 3 va) /\ has (m x) PTE_PRESENT = true.
Proof using.
  unfold leaf. destruct (tab m as_ va 3) as [t|]; [|done]. case_match eqn:E; [|done].
  intros [= <-]. eauto.
Qed.

Lemma leaf_once as_ va as' va' x :
  as_ ∈ A -> as' ∈ A -> user va -> user va' -> leaf m as_ va = Some x -> leaf m as' va' = Some x ->
  as_ = as' /\ key 4 va = key 4 va'.
Proof using Hi.
  intros Ha Ha' Hu Hu' (t&Ht&->&_)%leaf_slot (t'&Ht'&He&_)%leaf_slot.
  destruct (slot_once as_ va 3 t as' va' 3 t') as (?&_&?); auto.
Qed.

Lemma leaf_page as_ va x : as_ ∈ A -> user va -> leaf m as_ va = Some x -> is_table m A (page_down x).
Proof using Hi.
  intros Ha Hu (t&Ht&->&_)%leaf_slot. rewrite (table_slot as_ va 3) by auto. by eapply table_intro.
Qed.

Lemma in_L x : x ∈ L -> exists as_ va, as_ ∈ A /\ user va /\ leaf m as_ va = Some x.
Proof using Hi. intros (as_&va&?&?&?&_)%(pi_leaf _ _ _ Hi). eauto. Qed.

(** The slots above the leaves are no leaves. *)
Lemma upper_slot as_ va n t x :
  as_ ∈ A -> user va -> (n <= 2)%nat -> tab m as_ va n = Some t -> x ∈ L -> x <> slot t (idx n va).
Proof using Hi.
  intros Ha Hu Hn Ht (as'&va'&Ha'&Hu'&(t'&Ht'&->&_)%leaf_slot)%in_L He.
  destruct (slot_once as' va' 3 t' as_ va n t) as (_&?&_); auto; lia.
Qed.

(** Tables lie in no mapped page. *)
Lemma table_unmapped x a : x ∈ L -> is_table m A (page_down a) -> ~ in_frame (frame m x) a.
Proof using Hi.
  intros Hx Ht Hin. apply (pi_frame _ _ _ Hi x Hx).
  apply in_frame_page_down in Hin; [|apply frame_aligned]. by rewrite <- Hin.
Qed.

(** ** One slot is written *)
Section write.
Variables (as0 va0 : Z) (n0 : nat) (t0 : Z) (m' : memory).
Hypotheses (Ha0 : as0 ∈ A) (Hu0 : user va0) (Hn0 : (n0 <= 3)%nat) (Ht0 : tab m as0 va0 n0 = Some t0).
Hypothesis Hag : forall a, is_table m A (page_down a) -> a <> slot t0 (idx n0 va0) -> m' a = m a.

Lemma write_other as_ va n t :
  as_ ∈ A -> user va -> (n <= 3)%nat -> tab m as_ va n = Some t ->
  ~ (as_ = as0 /\ n = n0 /\ key (S n) va = key (S n0) va0) -> m' (slot t (idx n va)) = m (slot t (idx n va)).
Proof using All.
  intros Ha Hu Hn Ht Hne. apply Hag.
  - rewrite (table_slot as_ va n) by auto. by eapply table_intro.
  - intros He. apply Hne. by apply (slot_once as_ va n t as0 va0 n0 t0).
Qed.

Lemma write_tab as_ va k :
  as_ ∈ A -> user va ->
  ((k <= n0)%nat \/ ~ (as_ = as0 /\ key (S n0) va = key (S n0) va0)) ->
  (k <= 3)%nat -> tab m' as_ va k = tab m as_ va k.
Proof using All.
  intros Ha Hu Hor Hk. apply tab_agree. intros j t Hj Ht. f_equal.
  apply (write_other as_ va j t); auto; [lia|]. intros (->&->&Hkey). destruct Hor as [?|Hor]; [lia|].
  apply Hor. by split.
Qed.

(** The same child: the same walks. *)
Lemma write_tab_same as_ va k :
  as_ ∈ A -> user va -> (k <= 3)%nat ->
  ((n0 <= 2)%nat -> child n0 (m' (slot t0 (idx n0 va0))) = child n0 (m (slot t0 (idx n0 va0)))) ->
  tab m' as_ va k = tab m as_ va k.
Proof using All.
  intros Ha Hu Hk Hc. apply tab_agree. intros j t Hj Ht.
  destruct (decide (slot t (idx j va) = slot t0 (idx n0 va0))) as [He|Hne].
  - destruct (slot_once as_ va j t as0 va0 n0 t0) as (_&->&_); auto; [lia|]. rewrite He. apply Hc. lia.
  - f_equal. apply Hag; [|done]. rewrite (table_slot as_ va j) by (auto; lia).
    eapply table_intro; [..|exact Ht]; auto; lia.
Qed.
End write.

(** Walks and leaf entries are the same: so is everything else. *)
Lemma inv_walks s' :
  s'.(v_pmm) = p ->
  (forall as_ va k, as_ ∈ A -> user va -> (k <= 3)%nat -> tab s'.(v_mem) as_ va k = tab m as_ va k) ->
  (forall as_ va t, as_ ∈ A -> user va -> tab m as_ va 3 = Some t ->
     s'.(v_mem) (slot t (idx 3 va)) = m (slot t (idx 3 va))) ->
  (forall as_ va e, as_ ∈ A -> user va -> huge s'.(v_mem) as_ va = Some e -> x86_pte_phys e <> 0) ->
  pt_inv s' A L /\ forall as_ va, as_ ∈ A -> user va -> leaf s'.(v_mem) as_ va = leaf m as_ va.
Proof using Hi.
  intros Hp Htab Hleaf Hhuge.
  assert (Hlf : forall as_ va, as_ ∈ A -> user va -> leaf s'.(v_mem) as_ va = leaf m as_ va).
  { intros as_ va Ha Hu. unfold leaf. rewrite Htab by auto.
    destruct (tab m as_ va 3) as [t|] eqn:E; [|done]. cbv zeta. by rewrite (Hleaf as_ va t). }
  assert (HmL : forall x, x ∈ L -> s'.(v_mem) x = m x).
  { intros x (as_&va&Ha&Hu&(t&Ht&->&_)%leaf_slot)%in_L. by apply (Hleaf as_). }
  assert (Hist : forall t, is_table s'.(v_mem) A t <-> is_table m A t).
  { intros t. split; intros (as_&va&n&Ha&Hu&Hn&Ht); exists as_, va, n; [rewrite <- Htab|rewrite Htab]; auto. }
  assert (Hfr : forall x, x ∈ L -> frame s'.(v_mem) x = frame m x) by (intros x Hx; unfold frame; by rewrite HmL).
  split; [|done]. constructor; auto.
  - eapply inv_ext; [apply Hi|done|done].
  - intros t Ht%Hist. rewrite Hp. by apply Hi.
  - intros as_ va n as' va' n' t Ha Ha' Hu Hu' Hn Hn'. rewrite !Htab by auto. by apply (pi_inj _ _ _ Hi).
  - intros x. rewrite (pi_leaf _ _ _ Hi), Hp. split; intros (as_&va&Ha&Hu&Hl&Hm); exists as_, va.
    + rewrite Hlf by auto. split_and!; auto. destruct (leaf_slot _ _ _ Hl) as (t&Ht&->&_).
      unfold frame in *. by rewrite (Hleaf as_ va t).
    + rewrite Hlf in Hl by auto. split_and!; auto. destruct (leaf_slot _ _ _ Hl) as (t&Ht&->&_).
      unfold frame in *. by rewrite (Hleaf as_ va t) in Hm.
  - intros x Hx. rewrite Hfr by done. intros ?%Hist. by apply (pi_frame _ _ _ Hi x).
  - intros as_ va x Ha Hu. rewrite Hlf by auto. intros Hl. destruct (leaf_slot _ _ _ Hl) as (t&Ht&->&_).
    unfold frame. rewrite (Hleaf as_ va t) by auto. by apply (pi_null _ _ _ Hi as_ va).
Qed.

Lemma inv_same s' :
  s'.(v_pmm) = p ->
  (forall as_ va k, as_ ∈ A -> user va -> (k <= 3)%nat -> tab s'.(v_mem) as_ va k = tab m as_ va k) ->
  (forall as_ va t, as_ ∈ A -> user va -> tab m as_ va 3 = Some t ->
     s'.(v_mem) (slot t (idx 3 va)) = m (slot t (idx 3 va))) ->
  (forall as_ va, as_ ∈ A -> user va -> huge s'.(v_mem) as_ va = huge m as_ va) ->
  pt_inv s' A L /\ forall as_ va, as_ ∈ A -> user va -> leaf s'.(v_mem) as_ va = leaf m as_ va.
Proof using Hi.
  intros Hp Htab Hleaf Hhuge. apply inv_walks; auto. intros as_ va e Ha Hu. rewrite Hhuge by auto.
  by apply (pi_huge _ _ _ Hi).
Qed.

(** An entry above the leaves gets other flags. *)
Lemma regrant_ok as0 va0 n0 t0 e :
  as0 ∈ A -> user va0 -> (n0 <= 2)%nat -> tab m as0 va0 n0 = Some t0 ->
  child n0 e = child n0 (m (slot t0 (idx n0 va0))) ->
  has (m (slot t0 (idx n0 va0))) PTE_HUGE = false -> has e PTE_HUGE = false ->
  let s' := set_leaf s (slot t0 (idx n0 va0)) e in
  pt_inv s' A L /\ grows 0 [] A s s'.
Proof using Hi.
  intros Ha0 Hu0 Hn0 Ht0 Hc Hh0 He s'.
  assert (Hag : forall a, is_table m A (page_down a) -> a <> slot t0 (idx n0 va0) -> s'.(v_mem) a = m a)
    by (intros a _ Hne; by apply mwrite_ne).
  assert (Htab : forall as_ va k, as_ ∈ A -> user va -> (k <= 3)%nat -> tab s'.(v_mem) as_ va k = tab m as_ va k).
  { intros as_ va k Ha Hu Hk. apply (write_tab_same as0 va0 n0 t0); auto; try lia. intros _.
    simpl. by rewrite mwrite_eq. }
  assert (Hlf : forall as_ va t, as_ ∈ A -> user va -> tab m as_ va 3 = Some t ->
     s'.(v_mem) (slot t (idx 3 va)) = m (slot t (idx 3 va))).
  { intros as_ va t Ha Hu Ht. apply (write_other as0 va0 n0 t0) with as_; auto; lia. }
  assert (Hhg : forall as_ va, as_ ∈ A -> user va -> huge s'.(v_mem) as_ va = huge m as_ va).
  { intros as_ va Ha Hu. unfold huge. rewrite Htab by auto. destruct (tab m as_ va 2) as [t|] eqn:Ht; [|done].
    destruct (decide (slot t (idx 2 va) = slot t0 (idx n0 va0))) as [Hs|Hs].
    - rewrite Hs. cbn [v_mem s' set_leaf with_mem]. by rewrite mwrite_eq, He, Hh0.
    - cbn [v_mem s' set_leaf with_mem]. by rewrite mwrite_ne. }
  destruct (inv_same s') as [Hi' Hleaf]; auto. split; [done|]. constructor; auto; try done.
  - intros as_ va n t Ha Hu Hn Ht. by rewrite Htab.
  - intros t (as_&va&n&Ha&Hu&Hn&Ht). left. exists as_, va, n. by rewrite <- Htab.
  - intros as_ va x Ha Hu (t&Ht&->&_)%leaf_slot. by apply Hlf with as_.
  - intros a Hf Ht. apply mwrite_ne. intros ->. apply Ht. rewrite (table_slot as0 va0 n0) by (auto; lia).
    eapply table_intro; [..|exact Ht0]; auto; lia.
  - intros f _ Hf Hr. by destruct (get_ref_not_free _ _ inv_pmm_ok Hr).
  - simpl. lia.
Qed.

(** A page is taken. *)
Lemma cow_alloc pa p1 :
  pmm_alloc p 1 = (pa, p1) -> pa <> 0 -> cow_inv (with_pmm s p1) L.
Proof using Hi.
  intros Ha Hne. pose proof (pi_cow _ _ _ Hi) as Hc.
  destruct (alloc_by_address p pa p1 inv_pmm_ok Ha Hne) as (Hok1&Hpal&_&_&Hb&Hg&Hfree&_&Href&Hfr).
  assert (Hr : forall x, x ∈ L -> pmm_get_ref p1 (frame m x) = pmm_get_ref p (frame m x)).
  { intros x Hx. apply Href; [apply frame_aligned|]. intros He.
    apply (get_ref_not_free p (frame m x) inv_pmm_ok); [by apply (inv_ref_pos s L Hc)|by rewrite He]. }
  destruct (ci_zero _ _ Hc) as [Hz0 Hz1]. constructor; cbn [v_pmm v_mem with_pmm]; auto.
  - rewrite Hb, Hg. apply Hc.
  - split; [by intros ?%Hfr|]. by rewrite Href.
  - apply Hc.
  - intros x Hx. rewrite Hr by done. by apply Hc.
  - intros x Hx. rewrite Hr by done. by apply Hc.
  - intros x Hx ?%Hfr. by apply (ci_slot _ _ Hc x).
  - apply Hc.
Qed.

(** An allocation that fails changes nothing to speak of. *)
Lemma alloc_fail_ok p1 :
  pmm_alloc p 1 = (0, p1) ->
  pt_inv (with_pmm s p1) A L /\ grows 0 [] A s (with_pmm s p1) /\ (forall f, ~ free_at p f) /\ avail p = 0 /\ avail p1 = 0.
Proof using Hi.
  intros Ha. pose proof (pi_cow _ _ _ Hi) as Hc. destruct (ci_zero _ _ Hc) as [Hz _].
  destruct (alloc_fail_by_address p p1 inv_pmm_ok Hz Ha) as (Hok&Hb&Hg&Hr&Hno&Hno').
  assert (avail p1 = avail p /\ avail p = 0) as [Hav Hav0].
  { assert (Hz' : forall q, pmm_ok q -> (forall f, ~ free_at q f) -> avail q = 0).
    { intros q [Hwf _] Hn. unfold avail. rewrite (wf_used q Hwf). pose proof (wf_pages q Hwf).
      rewrite (popcnt_ext _ (fun _ => true)), popcnt_const_true; [lia|]. intros i Hi'.
      destruct (bm_test (g_bm q) i) eqn:E; [done|]. exfalso. apply (Hn (page_addr q i)).
      exists i. split; [apply page_of_page; [done|lia]|done]. }
    rewrite (Hz' p inv_pmm_ok Hno), (Hz' p1 Hok Hno'). done. }
  split_and!; auto; [..|lia].
  - constructor; try apply Hi.
    + by apply inv_alloc_fail.
    + intros t Ht. simpl. rewrite Hr. by apply Hi.
    + intros x. rewrite (pi_leaf _ _ _ Hi). unfold managed. simpl. by setoid_rewrite (page_of_range p p1 _ Hb Hg).
  - constructor; auto; simpl; try done.
    + by intros f ?%Hno'.
    + by intros f _ ?%Hno.
    + lia.
Qed.

(** The page a successful allocation hands out is nobody's. *)
Lemma fresh_page pa p1 :
  pmm_alloc p 1 = (pa, p1) -> pa <> 0 ->
  aligned pa /\ free_at p pa /\ 0 < pa < 2 ^ 52 /\ (~ is_table m A pa) /\ (forall x, x ∈ L -> frame m x <> pa).
Proof using Hi.
  intros Ha Hne. pose proof (pi_cow _ _ _ Hi) as Hc. pose proof (ci_limit _ _ Hc) as Hlim. simpl in Hlim.
  destruct (alloc_by_address p pa p1 inv_pmm_ok Ha Hne) as (_&Hpal&Hge&Hle&_&_&Hfree&_).
  split_and!; auto.
  - lia.
  - unfold PAGE_SIZE in *. lia.
  - intros Ht. by apply (table_live pa Ht).
  - intros x Hx He. apply (get_ref_not_free p (frame m x) inv_pmm_ok); [by apply (inv_ref_pos s L Hc)|by rewrite He].
Qed.

(** ** Linking an empty table *)
Section link.
Variables (as0 va0 : Z) (n0 : nat) (t0 pa e : Z).
Hypotheses (Ha0 : as0 ∈ A) (Hu0 : user va0) (Hn0 : (n0 <= 2)%nat) (Ht0 : tab m as0 va0 n0 = Some t0).
Hypotheses (Hheld : held s A L pa) (Hzero : forall a, in_frame pa a -> m a = 0).
Hypotheses (Hnone : child n0 (m (slot t0 (idx n0 va0))) = None) (Hsome : child n0 e = Some pa).
Hypothesis Hflat : n0 = 2%nat -> has (m (slot t0 (idx n0 va0))) PTE_HUGE = false.
Let s' := set_leaf s (slot t0 (idx n0 va0)) e.

Lemma link_table0 : is_table m A t0.
Proof using Ha0 Hu0 Hn0 Ht0. eapply table_intro; [..|exact Ht0]; auto; lia. Qed.

Lemma link_other a : a <> slot t0 (idx n0 va0) -> s'.(v_mem) a = m a.
Proof using. intros. by apply mwrite_ne. Qed.

Lemma link_pa a : in_frame pa a -> s'.(v_mem) a = 0.
Proof using All.
  intros Ha. rewrite link_other; [by apply Hzero|]. intros ->.
  apply (hd_table _ _ _ _ Hheld). apply in_frame_page_down in Ha; [|apply Hheld].
  rewrite <- Ha, (table_slot as0 va0 n0) by (auto; lia). apply link_table0.
Qed.

Lemma link_tab as_ va k :
  as_ ∈ A -> user va -> (k <= 3)%nat ->
  ~ (as_ = as0 /\ key (S n0) va = key (S n0) va0 /\ (n0 < k)%nat) ->
  tab s'.(v_mem) as_ va k = tab m as_ va k.
Proof using All.
  intros Ha Hu Hk Hne. apply (write_tab as0 va0 n0 t0); auto; [by intros; apply link_other|].
  destruct (decide (k <= n0)%nat); [by left|right]. intros [-> ?]. apply Hne. split_and!; auto. lia.
Qed.

Lemma link_tab_new as_ va k :
  as_ ∈ A -> user va -> (k <= 3)%nat ->
  as_ = as0 -> key (S n0) va = key (S n0) va0 -> (n0 < k)%nat ->
  tab s'.(v_mem) as_ va k = (if decide (k = S n0) then Some pa else None) /\ tab m as_ va k = None.
Proof using All.
  intros Ha Hu Hk -> Hkey. pose proof (key_inj _ _ _ Hkey) as [Hkey0 Hidx].
  assert (tab s'.(v_mem) as0 va n0 = Some t0 /\ tab m as0 va n0 = Some t0) as [Hl' Hl].
  { assert (Hl : tab m as0 va n0 = Some t0) by (by rewrite (tab_key m as0 va va0 n0)).
    split; [|done]. rewrite <- Hl. apply link_tab; auto; lia. }
  induction k as [|k IH]; [lia|]. intros Hlt. destruct (decide (k = n0)) as [->|Hne].
  - rewrite decide_True by done. cbn [tab]. rewrite Hl', Hl, Hidx. split; [|done].
    simpl. by rewrite mwrite_eq.
  - destruct IH as [IH1 IH2]; [lia..|]. rewrite decide_False by lia. cbn [tab]. rewrite IH1, IH2.
    split; [|done]. case_decide; [|done]. rewrite link_pa by auto. apply child_zero.
Qed.

Lemma link_tab_inv as_ va k t :
  as_ ∈ A -> user va -> (k <= 3)%nat -> tab s'.(v_mem) as_ va k = Some t ->
  tab m as_ va k = Some t \/
  t = pa /\ as_ = as0 /\ k = S n0 /\ key (S n0) va = key (S n0) va0.
Proof using All.
  intros Ha Hu Hk Ht.
  destruct (decide (as_ = as0 /\ key (S n0) va = key (S n0) va0 /\ (n0 < k)%nat)) as [(He&Hkey&Hlt)|Hne].
  - destruct (link_tab_new as_ va k) as [Hn _]; auto. rewrite Hn in Ht. case_decide; [|done].
    injection Ht as <-. right. done.
  - left. by rewrite <- link_tab.
Qed.

Lemma link_tab_keep as_ va k t :
  as_ ∈ A -> user va -> (k <= 3)%nat -> tab m as_ va k = Some t -> tab s'.(v_mem) as_ va k = Some t.
Proof using All.
  intros Ha Hu Hk Ht. rewrite link_tab; auto. intros (He&Hkey&Hlt).
  destruct (link_tab_new as_ va k) as [_ Hn]; auto. congruence.
Qed.

Lemma link_leaf_entry as_ va t :
  as_ ∈ A -> user va -> tab m as_ va 3 = Some t -> s'.(v_mem) (slot t (idx 3 va)) = m (slot t (idx 3 va)).
Proof using All.
  intros Ha Hu Ht. apply link_other. intros He.
  destruct (slot_once as_ va 3 t as0 va0 n0 t0) as (_&?&_); auto; lia.
Qed.

Lemma link_leaf as_ va : as_ ∈ A -> user va -> leaf s'.(v_mem) as_ va = leaf m as_ va.
Proof using All.
  intros Ha Hu. unfold leaf.
  destruct (tab s'.(v_mem) as_ va 3) as [t|] eqn:E.
  - destruct (link_tab_inv as_ va 3 t) as [Ht|(->&->&Hk&Hkey)]; auto.
    + rewrite Ht. cbv zeta. by rewrite (link_leaf_entry as_ va t).
    + destruct (link_tab_new as0 va 3) as [_ ->]; auto; [lia|]. cbv zeta. by rewrite link_pa by auto.
  - destruct (tab m as_ va 3) as [t|] eqn:E'; [|done]. by rewrite (link_tab_keep as_ va 3 t) in E.
Qed.

Lemma link_huge as_ va : as_ ∈ A -> user va -> huge s'.(v_mem) as_ va = huge m as_ va.
Proof using All.
  intros Ha Hu. unfold huge.
  destruct (tab s'.(v_mem) as_ va 2) as [t|] eqn:E.
  - destruct (link_tab_inv as_ va 2 t) as [Ht|(->&->&Hk&Hkey)]; auto.
    + rewrite Ht. destruct (decide (slot t (idx 2 va) = slot t0 (idx n0 va0))) as [Hs|Hs].
      * destruct (slot_once as_ va 2 t as0 va0 n0 t0) as (_&Hn&_); auto.
        rewrite Hs. cbn [v_mem s' set_leaf with_mem]. rewrite mwrite_eq, Hflat by done.
        revert Hsome. unfold child. rewrite <- Hn. cbn [Nat.eqb andb]. destruct (has e PTE_HUGE); [|done].
        by rewrite andb_false_r.
      * by rewrite link_other.
    + destruct (link_tab_new as0 va 2) as [_ ->]; auto; [lia|]. cbv zeta. by rewrite link_pa by auto.
  - destruct (tab m as_ va 2) as [t|] eqn:E'; [|done]. by rewrite (link_tab_keep as_ va 2 t) in E by auto.
Qed.

Lemma link_new t : is_table s'.(v_mem) A t -> is_table m A t \/ t = pa.
Proof using All.
  intros (as_&va&n&Ha&Hu&Hn&Ht). destruct (link_tab_inv as_ va n t) as [?|(->&_)]; auto.
  left. by exists as_, va, n.
Qed.

Lemma link_inv : pt_inv s' A L.
Proof using All.
  assert (HmL : forall x, x ∈ L -> s'.(v_mem) x = m x).
  { intros x (as_&va&Ha&Hu&(t&Ht&->&_)%leaf_slot)%in_L. by apply (link_leaf_entry as_). }
  assert (Hfr : forall x, x ∈ L -> frame s'.(v_mem) x = frame m x) by (intros x Hx; unfold frame; by rewrite HmL).
  constructor.
  - eapply inv_ext; [apply Hi|done|done].
  - intros t [Ht| ->]%link_new; [by apply (pi_tab _ _ _ Hi)|]. split; apply Hheld.
  - intros as_ va n as' va' n' t Ha Ha' Hu Hu' Hn Hn' Ht Ht'.
    apply link_tab_inv in Ht as [Ht|(->&->&->&Hk)]; apply link_tab_inv in Ht' as [Ht'|(?&->&->&Hk')]; auto.
    + by apply (pi_inj _ _ _ Hi as_ va n as' va' n' t).
    + subst t. destruct (hd_table _ _ _ _ Hheld). by exists as_, va, n.
    + destruct (hd_table _ _ _ _ Hheld). by exists as', va', n'.
    + split_and!; auto. congruence.
  - intros x. rewrite (pi_leaf _ _ _ Hi).
    split; intros (as_&va&Ha&Hu&Hl&Hm); exists as_, va; [|rewrite link_leaf in Hl by auto];
      destruct (leaf_slot _ _ _ Hl) as (t&Ht&->&_); unfold frame in *;
      rewrite ?(link_leaf as_ va), ?(link_leaf_entry as_ va t) in * by auto; auto.
  - intros x Hx. rewrite Hfr by done. intros [Ht|He]%link_new; [by apply (pi_frame _ _ _ Hi x)|].
    by apply (hd_frame _ _ _ _ Hheld x).
  - intros as_ va x Ha Hu. rewrite link_leaf by auto. intros Hl. destruct (leaf_slot _ _ _ Hl) as (t&Ht&->&_).
    unfold frame. rewrite (link_leaf_entry as_ va t) by auto. by apply (pi_null _ _ _ Hi as_ va).
  - intros as_ va e' Ha Hu. rewrite link_huge by auto. by apply (pi_huge _ _ _ Hi).
Qed.

(** Seen from a state in which the new table was still a free page. *)
Lemma link_grows k H s0 : grows k (pa :: H) A s0 s -> free_at s0.(v_pmm) pa -> grows k H A s0 s'.
Proof using All.
  intros Hg Hf. destruct Hg as [g1 g2 g3 g4 g5 g6 gh g7 g8 g9 gt g10 g11]. constructor; auto.
  - intros as_ va n t Ha Hu Hn Ht. apply link_tab_keep; auto.
  - intros t [Ht| ->]%link_new; auto.
  - intros as_ va Ha Hu. rewrite link_leaf by auto. auto.
  - intros as_ va x Ha Hu Hl. rewrite <- (g6 as_ va x) by auto. rewrite <- g5 in Hl by auto.
    destruct (leaf_slot _ _ _ Hl) as (t&Ht&->&_). by apply (link_leaf_entry as_).
  - intros as_ va Ha Hu. rewrite link_huge by auto. auto.
  - intros a Hfa Hta. rewrite link_other; [by apply g7|]. intros ->.
    destruct (g4 t0 link_table0) as [?|?]; rewrite (table_slot as0 va0 n0) in * by (auto; lia); done.
  - intros f Haf Hff Hr. destruct (gt f Haf Hff Hr) as [Ht|[->|?]%elem_of_cons]; auto; left.
    + destruct Ht as (as_&va&n&Ha&Hu&Hn&Ht). exists as_, va, n. split_and!; auto. by apply link_tab_keep.
    + exists as0, va0, (S n0). split_and!; auto; [lia|].
      destruct (link_tab_new as0 va0 (S n0)) as [Hnew _]; auto; try lia. by rewrite decide_True in Hnew.
Qed.

Lemma link_held q : held s A L q -> q <> pa -> held s' A L q.
Proof using All.
  intros [] Hne. constructor; auto.
  - by intros [?|?]%link_new.
  - intros x Hx. replace (frame s'.(v_mem) x) with (frame m x); [auto|].
    destruct (in_L x Hx) as (as_&va&Ha&Hu&(t&Ht&->&_)%leaf_slot). unfold frame. by rewrite (link_leaf_entry as_ va t).
Qed.
End link.

(** ** Taking a page and clearing it *)

Lemma take_ok pa p1 :
  pmm_alloc p 1 = (pa, p1) -> pa <> 0 ->
  pt_inv (with_pmm s p1) A L /\ held (with_pmm s p1) A L pa /\ grows 1 [pa] A s (with_pmm s p1) /\ free_at p pa.
Proof using Hi.
  intros Ha Hne. destruct (fresh_page pa p1 Ha Hne) as (Hal&Hfree&_&Hnt&Hnf).
  destruct (alloc_by_address p pa p1 inv_pmm_ok Ha Hne) as (_&_&_&_&Hb&Hg&_&Hone&Href&Hfr).
  pose proof (alloc_avail p pa p1 inv_pmm_ok Ha Hne) as Hav.
  assert (Hr : forall f, aligned f -> ~ free_at p f -> pmm_get_ref p1 f = pmm_get_ref p f).
  { intros f Hf Hnfr. apply Href; [done|]. by intros ->. }
  split_and!; auto.
  - constructor; try apply Hi.
    + by apply (cow_alloc pa).
    + intros t Ht. destruct (pi_tab _ _ _ Hi t Ht) as [? <-]. split; [done|]. apply Hr; [done|by apply table_live].
    + intros x. rewrite (pi_leaf _ _ _ Hi). unfold managed. cbn [v_pmm v_mem with_pmm].
      by setoid_rewrite (page_of_range p p1 _ Hb Hg).
  - by constructor.
  - constructor; auto; [|simpl; lia]. intros f Haf Hff Hrf. right. apply list_elem_of_singleton.
    destruct (decide (f = pa)); [done|]. cbn in Hrf. rewrite Href in Hrf by done.
    by destruct (get_ref_not_free p f inv_pmm_ok Hrf).
Qed.
End inv.

(** Writing into a page that is held. *)
Lemma fill_ok s A L pa m' :
  pt_inv s A L -> held s A L pa -> (forall a, ~ in_frame pa a -> m' a = s.(v_mem) a) ->
  let s' := with_mem s m' in
  pt_inv s' A L /\ held s' A L pa /\
  (forall k H s0, grows k H A s0 s -> free_at s0.(v_pmm) pa -> grows k H A s0 s').
Proof.
  intros Hi Hh Ho s'.
  assert (Htm : forall as_ va n t, as_ ∈ A -> user va -> (n <= 3)%nat -> tab s.(v_mem) as_ va n = Some t ->
    s'.(v_mem) (slot t (idx n va)) = s.(v_mem) (slot t (idx n va))).
  { intros as_ va n t Ha Hu Hn Ht. apply Ho. rewrite in_frame_page_down by apply Hh.
    rewrite (table_slot s A L Hi as_ va n) by auto. intros ->. apply (hd_table _ _ _ _ Hh). by exists as_, va, n. }
  assert (Htab : forall as_ va k, as_ ∈ A -> user va -> (k <= 3)%nat ->
    tab s'.(v_mem) as_ va k = tab s.(v_mem) as_ va k).
  { intros as_ va k Ha Hu Hk. apply tab_agree. intros j t Hj Ht. f_equal. apply (Htm as_); auto; lia. }
  assert (Hist : forall t, is_table s'.(v_mem) A t <-> is_table s.(v_mem) A t).
  { intros t. split; intros (as_&va&n&Ha&Hu&Hn&Ht); exists as_, va, n; [rewrite <- Htab|rewrite Htab]; auto. }
  assert (Hhg : forall as_ va, as_ ∈ A -> user va -> huge s'.(v_mem) as_ va = huge s.(v_mem) as_ va).
  { intros as_ va Ha Hu. unfold huge. rewrite Htab by auto.
    destruct (tab s.(v_mem) as_ va 2) as [t|] eqn:Ht; [|done]. by rewrite (Htm as_ va 2%nat t) by auto. }
  destruct (inv_same s A L Hi s') as [Hi' Hlf]; auto.
  { intros as_ va t Ha Hu Ht. by apply (Htm as_). }
  split_and!; auto.
  - destruct Hh as [? ? Hnt Hnf]. constructor; auto; [by rewrite Hist|]. intros x Hx.
    destruct (in_L s A L Hi x Hx) as (as_&va&Ha&Hu&(t&Ht&->&_)%leaf_slot). unfold frame in *.
    rewrite (Htm as_ va 3%nat t); auto.
  - intros k H s0 [g1 g2 g3 g4 g5 g6 gh g7 g8 g9 gt g10 g11] Hf. constructor; auto.
    + intros as_ va n t Ha Hu Hn Ht. rewrite Htab; auto.
    + intros t ?%Hist. auto.
    + intros as_ va Ha Hu. rewrite Hlf; auto.
    + intros as_ va x Ha Hu Hl. rewrite <- (g6 as_ va x) by auto. rewrite <- g5 in Hl by auto.
      destruct (leaf_slot s _ _ _ Hl) as (t&Ht&->&_). by apply (Htm as_ va 3%nat).
    + intros as_ va Ha Hu. rewrite Hhg; auto.
    + intros a Hfa Hta. rewrite Ho; [by apply g7|]. rewrite in_frame_page_down by apply Hh. intros He. by rewrite He in Hfa.
    + intros f Haf Hff Hr. rewrite Hist. by apply gt.
Qed.

Lemma mzero_in m pa a : in_frame pa a -> mzero m pa a = 0.
Proof. intros [H1%Z.leb_le H2%Z.ltb_lt]. unfold mzero. by rewrite H1, H2. Qed.
Lemma mzero_out m pa a : ~ in_frame pa a -> mzero m pa a = m a.
Proof.
  unfold mzero, in_frame. intros Hna.
  destruct (Z.leb_spec pa a), (Z.ltb_spec a (pa + PAGE_SIZE)); simpl; try done. exfalso. lia.
Qed.
