(* ===== verification/PtMap.v ===== *)
(** * Mapping and unmapping one page *)
From S2P Require Import Prelude State Pmm Pte VmCow Vmm PtWalk PtInv PtGrow.

(** ** Entries *)

Lemma land_low x : Z.land x (PAGE_SIZE - 1) = x mod PAGE_SIZE.
Proof. change (PAGE_SIZE - 1) with (Z.ones 12). by rewrite Z.land_ones. Qed.

Lemma addr_aligned e : aligned (Z.land e PTE_ADDR_MASK).
Proof. rewrite x86_mask. by apply field_aligned. Qed.

Lemma addr_id pa : aligned pa -> 0 <= pa < 2 ^ 52 -> Z.land pa PTE_ADDR_MASK = pa.
Proof. rewrite x86_mask. intros. by apply field_id. Qed.

Lemma testbit_bit k i : 0 <= k -> 0 <= i -> Z.testbit (bit k) i = (k =? i).
Proof. apply one_bit. Qed.
#[export] Hint Rewrite testbit_bit using lia : bits.

Lemma grant_child n e k : k = PTE_USER \/ k = PTE_WRITABLE -> child n (set_bit e k) = child n e.
Proof.
  intros Hk. assert (Hb : forall j, 0 <= j -> j <> 1 -> j <> 2 -> Z.testbit (set_bit e k) j = Z.testbit e j).
  { intros j Hj H1 H2. unfold PTE_USER, PTE_WRITABLE in Hk. rewrite testbit_set by lia.
    destruct (Z.eqb_spec k j); [lia|apply orb_false_r]. }
  unfold child, PTE_PRESENT, PTE_HUGE. rewrite !has_testbit, !Hb by lia.
  replace (Z.land (set_bit e k) PTE_ADDR_MASK) with (Z.land e PTE_ADDR_MASK); [done|].
  rewrite x86_mask. apply Z.bits_inj'. intros i Hi'. rewrite !Z.land_spec, testbit_field by lia.
  destruct (Z.leb_spec 12 i); [|by rewrite !andb_false_r]. by rewrite Hb by lia.
Qed.

Lemma table_entry_child n pa flags :
  aligned pa -> 0 <= pa < 2 ^ 52 ->
  child n (Z.lor pa (Z.lor (Z.lor (bit PTE_PRESENT) (Z.land flags (bit PTE_USER))) (Z.land flags (bit PTE_WRITABLE))))
  = Some pa.
Proof.
  intros Hal Hpa. unfold child, PTE_PRESENT, PTE_HUGE, PTE_USER, PTE_WRITABLE. rewrite !has_testbit by lia.
  set (e := Z.lor pa _).
  assert (Hb : forall j, 0 <= j -> Z.testbit e j = Z.testbit pa j || (0 =? j) || Z.testbit flags j && (2 =? j)
                                                 || Z.testbit flags j && (1 =? j)).
  { intros j Hj. unfold e. autorewrite with bits. by rewrite !orb_assoc. }
  assert (Hpr : Z.testbit e 0 = true) by (rewrite Hb by lia; cbn; by rewrite orb_true_r).
  assert (Hhg : Z.testbit e 7 = false).
  { rewrite Hb, (testbit_aligned pa 7) by (done || lia). cbn. by rewrite andb_false_r. }
  rewrite Hpr, Hhg, andb_false_r. cbn [andb negb]. f_equal.
  rewrite <- (addr_id pa) by done. rewrite x86_mask. apply Z.bits_inj'. intros i Hi'.
  rewrite !Z.land_spec, Hb, testbit_field by lia. destruct (Z.leb_spec 12 i); [|by rewrite !andb_false_r].
  destruct (Z.eqb_spec 0 i), (Z.eqb_spec 1 i), (Z.eqb_spec 2 i); try lia. by rewrite !andb_false_r, !orb_false_r.
Qed.

Lemma leaf_entry_bits pa flags :
  aligned pa -> 0 <= pa < 2 ^ 52 -> Z.land flags PTE_ADDR_MASK = 0 ->
  x86_pte_phys (leaf_entry pa flags) = pa /\ has (leaf_entry pa flags) PTE_PRESENT = true /\
  forall k, 0 < k < 12 \/ 52 <= k -> has (leaf_entry pa flags) k = has flags k.
Proof.
  intros Hal Hpa Hfl. unfold leaf_entry. rewrite addr_id by done.
  assert (Hb : forall j, 0 <= j -> Z.testbit (Z.lor (Z.lor pa flags) (bit PTE_PRESENT)) j =
    Z.testbit pa j || Z.testbit flags j || (0 =? j)).
  { intros j Hj. unfold PTE_PRESENT. by autorewrite with bits. }
  split_and!.
  - unfold x86_pte_phys. rewrite <- (addr_id pa) at 2 by done. apply Z.bits_inj'. intros i Hi'.
    apply (f_equal (fun z => Z.testbit z i)) in Hfl. revert Hfl. rewrite !Z.land_spec, Hb, Z.bits_0 by lia.
    rewrite x86_mask, testbit_field by lia. destruct (Z.leb_spec 12 i); [|by rewrite !andb_false_r].
    destruct (Z.eqb_spec 0 i); [lia|]. destruct (i <? 52); simpl; [|by rewrite !andb_false_r].
    rewrite !andb_true_r. intros ->. by rewrite !orb_false_r.
  - rewrite has_testbit by done. rewrite Hb by done. by rewrite !orb_true_r.
  - intros k Hk. rewrite !has_testbit by lia. rewrite Hb by lia.
    destruct (Z.eqb_spec 0 k); [lia|]. rewrite orb_false_r.
    destruct Hk as [Hk|Hk]; [by rewrite testbit_aligned by (done || lia)|].
    by rewrite (testbit_high pa 52) by (done || lia).
Qed.

(** ** The next table *)

(** What a call leaves behind: [r] is the table of the next level. *)
Definition next_ok (A L : list Z) (s : vmst) (as_ va : Z) (n : nat) (r : option Z) (s' : vmst) : Prop :=
  pt_inv s' A L /\ grows 1 [] A s s' /\
  match r with
  | Some t => tab s'.(v_mem) as_ va n = Some t
  | None => avail s.(v_pmm) = 0
  end.

Section next.
Variables (A L : list Z) (s : vmst) (as_ va : Z) (n : nat) (t flags : Z).
Hypotheses (Hi : pt_inv s A L) (Ha : as_ ∈ A) (Hu : user va) (Hn : (n <= 2)%nat).
Hypothesis Ht : tab s.(v_mem) as_ va n = Some t.
Abbreviation x := (slot t (idx n va)).

(** The entry is there: it may be widened. *)
Lemma widen_ok s1 k (Q : unit -> vmst -> Prop) :
  k = PTE_USER \/ k = PTE_WRITABLE -> pt_inv s1 A L -> tab s1.(v_mem) as_ va n = Some t ->
  has (s1.(v_mem) x) PTE_HUGE = false ->
  (forall s2, pt_inv s2 A L -> grows 0 [] A s1 s2 -> has (s2.(v_mem) x) PTE_HUGE = false ->
     child n (s2.(v_mem) x) = child n (s1.(v_mem) x) -> Q () s2) ->
  wp nopanic (grant_bit flags k x) Q s1.
Proof using Ha Hu Hn.
  intros Hk Hi1 Ht1 Hh1 HQ. assert (Hh1' : has (set_bit (s1.(v_mem) x) k) PTE_HUGE = false).
  { unfold PTE_USER, PTE_WRITABLE, PTE_HUGE in *. rewrite !has_testbit in * by lia. rewrite testbit_set by lia.
    rewrite Hh1. destruct (Z.eqb_spec k 7); [lia|done]. }
  unfold grant_bit, load, store. apply wp_if; intros _; wp_steps.
  - destruct (regrant_ok s1 A L Hi1 as_ va n t (set_bit (s1.(v_mem) x) k)) as [Hi2 Hg]; auto.
    { by apply grant_child. }
    apply HQ; [done..| |]; simpl; rewrite mwrite_eq; [done|]. by apply grant_child.
  - apply HQ; [done|apply grows_refl; apply Hi1|done..].
Qed.

Lemma get_next_level_ok :
  (n = 2%nat -> huge s.(v_mem) as_ va = None) ->
  wp nopanic (get_next_level (Some t) (idx n va) true flags) (next_ok A L s as_ va (S n)) s.
Proof using All.
  intros Hhuge. unfold get_next_level, load, store, alloc_page, zero_page. wp_steps.
  2: { intros Hlt%Z.ltb_ge. pose proof (idx_range n va). lia. }
  assert (Hflat : n = 2%nat -> has (s.(v_mem) x) PTE_HUGE = false).
  { intros E. specialize (Hhuge E). unfold huge in Hhuge. rewrite <- E, Ht in Hhuge. by case_match. }
  apply wp_if; intros Hp.
  - unfold vmm_assert_page_aligned. rewrite land_low. wp_steps; [|rewrite addr_aligned; done].
    assert (Hch : child n (s.(v_mem) x) = Some (Z.land (s.(v_mem) x) PTE_ADDR_MASK)).
    { unfold child. rewrite Hp. destruct (Nat.eqb_spec n 2) as [E|]; [|done].
      by rewrite (Hflat E). }
    apply wp_if; intros Hh.
    { wp_steps. split_and!; [done|eapply grows_weaken; [apply grows_refl; apply Hi|lia]|].
      cbn [tab]. by rewrite Ht. }
    wp_step. apply widen_ok; auto. intros s1 Hi1 Hg1 Hh1 Hc1. wp_step.
    assert (Ht1 : tab s1.(v_mem) as_ va n = Some t) by (eapply gr_tab; eauto; lia).
    apply widen_ok; auto. intros s2 Hi2 Hg2 _ Hc2. wp_steps.
    assert (Ht2 : tab s2.(v_mem) as_ va n = Some t) by (eapply gr_tab; eauto; lia).
    split_and!; [done|eapply (grows_weaken (0 + 0)); [apply (grows_trans 0 0 [] [] A s s1 s2); auto|lia]|].
    cbn [tab]. rewrite Ht2, Hc2, Hc1, Hch. rewrite Hc1, Hch in Hc2. revert Hc2. unfold child.
    by case_match.
  - cbn [negb]. unfold wp, mbind, ST_bind. destruct (pmm_alloc s.(v_pmm) 1) as [pa p1] eqn:Eal.
    destruct (Z.eqb_spec pa 0) as [->|Hne].
    { destruct (alloc_fail_ok s A L Hi p1 Eal) as (Hi1&Hg1&_&Hav&_).
      split_and!; [done|by eapply grows_weaken|done]. }
    destruct (fresh_page s A L Hi pa p1 Eal Hne) as (Hal&_&Hpa&_).
    destruct (take_ok s A L Hi pa p1 Eal Hne) as (Hi1&Hh1&Hg1&Hf1).
    destruct (fill_ok _ A L pa (mzero s.(v_mem) pa) Hi1 Hh1 (mzero_out _ _)) as (Hi2&Hh2&Hg2).
    specialize (Hg2 _ _ _ Hg1 Hf1). set (s2 := with_mem _ _) in *.
    assert (Hz2 : forall a, in_frame pa a -> s2.(v_mem) a = 0) by apply mzero_in.
    assert (Ht2 : tab s2.(v_mem) as_ va n = Some t) by (eapply gr_tab; eauto; lia).
    assert (Hx : s2.(v_mem) x = s.(v_mem) x).
    { apply mzero_out. rewrite in_frame_page_down by done. rewrite (table_slot s2 A L Hi2 as_ va n) by (auto; lia).
      intros ->. apply (hd_table _ _ _ _ Hh2). exists as_, va, n. split_and!; auto; lia. }
    assert (Hnone : child n (s2.(v_mem) x) = None) by (rewrite Hx; unfold child; by rewrite Hp).
    assert (Hflat2 : n = 2%nat -> has (s2.(v_mem) x) PTE_HUGE = false) by (by rewrite Hx).
    assert (Hsome := table_entry_child n pa flags Hal ltac:(lia)).
    cbn [mret ST_ret modify]. split_and!.
    + eapply link_inv; eauto.
    + eapply link_grows; eauto.
    + destruct (link_tab_new s2 A L Hi2 as_ va n t pa _ Ha Hu Hn Ht2 Hh2 Hz2 Hnone Hsome Hflat2 as_ va (S n)) as [Hnew _];
        auto; try lia. rewrite decide_True in Hnew by done. exact Hnew.
Qed.
End next.

(** ** A leaf is written *)

(** A page held by the caller is mapped at an empty slot. *)
Lemma adopt_ok s L c e pa :
  cow_inv s L -> slot_ok s L c -> aligned pa -> pmm_get_ref s.(v_pmm) pa = 1 ->
  (forall x, x ∈ L -> frame s.(v_mem) x <> pa) -> (forall x, x ∈ c :: L -> ~ in_frame pa x) ->
  x86_pte_phys e = pa -> cow_inv (set_leaf s c e) (c :: L).
Proof.
  intros Hc (Hcn&Hcf&Hca) Hal Hone Hfresh Hslots He. set (m' := mwrite s.(v_mem) c e).
  assert (Hmc : m' c = e) by apply mwrite_eq.
  assert (Hmx : forall x, x ∈ L -> m' x = s.(v_mem) x) by (intros x Hx; apply mwrite_ne; by intros ->).
  assert (Hf : forall x, x ∈ L -> frame m' x = frame s.(v_mem) x) by (intros x Hx; unfold frame; by rewrite Hmx).
  assert (Hfc : frame m' c = pa) by (unfold frame; by rewrite Hmc).
  destruct Hc as [? ? ? ? Hcount Hw Hsl Hap]. constructor; cbn [v_pmm v_mem set_leaf with_mem]; auto; fold m'.
  - by apply NoDup_cons.
  - intros x Hx. cbn [mappers]. rewrite Hfc, (mappers_stay s.(v_mem) m') by done.
    apply elem_of_cons in Hx as [->|Hx].
    + rewrite Hfc, Hone, mappers_none, decide_True by done. lia.
    + rewrite Hf, decide_False by (done || intros ?; by apply (Hfresh x)). rewrite Hcount by done. lia.
  - intros x [->|Hx]%elem_of_cons; [by rewrite Hfc|]. rewrite Hf, Hmx by done. by apply Hw.
  - intros x [->|Hx]%elem_of_cons; auto.
  - intros x x' Hx [->|Hx']%elem_of_cons; [rewrite Hfc; by apply Hslots|rewrite Hf by done].
    apply elem_of_cons in Hx as [->|Hx]; auto.
Qed.

Section leaf_write.
Variables (A L : list Z) (s : vmst) (as_ va t e : Z).
Hypotheses (Hi : pt_inv s A L) (Ha : as_ ∈ A) (Hu : user va) (Ht : tab s.(v_mem) as_ va 3 = Some t).
Abbreviation x := (slot t (idx 3 va)).
Abbreviation s' := (set_leaf s x e).

Lemma leaf_write_tab as' va' k :
  as' ∈ A -> user va' -> (k <= 3)%nat -> tab s'.(v_mem) as' va' k = tab s.(v_mem) as' va' k.
Proof using All.
  intros Ha' Hu' Hk. apply (write_tab_same s A L Hi as_ va 3 t); auto; try lia.
  intros a _ Hne. by apply mwrite_ne.
Qed.

Lemma leaf_write_table f : is_table s'.(v_mem) A f <-> is_table s.(v_mem) A f.
Proof using All.
  split; intros (as'&va'&n&Ha'&Hu'&Hn&Hf); exists as', va', n;
    [rewrite <- leaf_write_tab|rewrite leaf_write_tab]; auto.
Qed.

Lemma leaf_write_other as' va' t' :
  as' ∈ A -> user va' -> tab s.(v_mem) as' va' 3 = Some t' -> ~ (as' = as_ /\ key 4 va' = key 4 va) ->
  slot t' (idx 3 va') <> x.
Proof using All.
  intros Ha' Hu' Ht' Hne He. apply Hne.
  destruct (slot_once s A L Hi as' va' 3 t' as_ va 3 t) as (?&_&?); auto.
Qed.

Lemma leaf_write_leaf as' va' :
  as' ∈ A -> user va' ->
  leaf s'.(v_mem) as' va' =
    if decide (as' = as_ /\ key 4 va' = key 4 va) then (if has e PTE_PRESENT then Some x else None)
    else leaf s.(v_mem) as' va'.
Proof using All.
  intros Ha' Hu'. case_decide as Hd.
  - destruct Hd as [-> Hk]. unfold leaf. rewrite leaf_write_tab by auto. apply key_inj in Hk as [Hk Hidx].
    rewrite (tab_key _ _ va' va 3 Hk), Ht, Hidx. cbv zeta. cbn [v_mem set_leaf with_mem]. by rewrite mwrite_eq.
  - unfold leaf. rewrite leaf_write_tab by auto. destruct (tab s.(v_mem) as' va' 3) as [t'|] eqn:Ht'; [|done].
    cbv zeta. cbn [v_mem set_leaf with_mem]. rewrite mwrite_ne; [done|]. by apply (leaf_write_other as').
Qed.

Lemma leaf_write_huge as' va' :
  as' ∈ A -> user va' -> huge s'.(v_mem) as' va' = huge s.(v_mem) as' va'.
Proof using All.
  intros Ha' Hu'. unfold huge. rewrite leaf_write_tab by auto.
  destruct (tab s.(v_mem) as' va' 2) as [t'|] eqn:Ht'; [|done]. cbn [v_mem set_leaf with_mem].
  rewrite mwrite_ne; [done|]. intros He.
  destruct (slot_once s A L Hi as' va' 2 t' as_ va 3 t) as (_&?&_); auto; lia.
Qed.
End leaf_write.

(** A leaf appears in an empty slot; the allocator may count one owner more. *)
Section place.
Variables (A L L' : list Z) (s : vmst) (p' : pmm) (as_ va t e : Z).
Hypotheses (Hi : pt_inv s A L) (Ha : as_ ∈ A) (Hu : user va) (Ht : tab s.(v_mem) as_ va 3 = Some t).
Hypothesis Hnone : leaf s.(v_mem) as_ va = None.
Abbreviation x := (slot t (idx 3 va)).
Abbreviation s' := (set_leaf (with_pmm s p') x e).

Lemma place_new : x ∉ L.
Proof using Hi Ha Hu Ht Hnone.
  intros (as'&va'&Ha'&Hu'&Hl)%(in_L s A L Hi). pose proof (leaf_slot s _ _ _ Hl) as (t'&Ht'&He&Hp).
  destruct (slot_once s A L Hi as_ va 3 t as' va' 3 t') as (<-&_&Hk); auto.
  rewrite (leaf_key _ _ va va' Hk) in Hnone. congruence.
Qed.

Lemma place_slot : page_down x = t /\ is_table s.(v_mem) A t /\ slot_ok s L x.
Proof using Hi Ha Hu Ht Hnone.
  assert (Hpx : page_down x = t) by (by apply (table_slot s A L Hi as_ va 3)).
  assert (Htp : is_table s.(v_mem) A t) by (by exists as_, va, 3%nat).
  split_and!; auto. unfold slot_ok. rewrite Hpx. split_and!; [apply place_new|by apply (table_live s A L Hi)|].
  intros y Hy. apply (table_unmapped s A L Hi y x Hy). by rewrite Hpx.
Qed.

Lemma place_view as' va' : as' ∈ A -> user va' -> has e PTE_PRESENT = true ->
  view s'.(v_mem) as' va' =
    if decide (as' = as_ /\ key 4 va' = key 4 va) then Some e else view s.(v_mem) as' va'.
Proof using Hi Ha Hu Ht.
  intros Ha' Hu' Hpr. unfold view. rewrite (leaf_write_leaf A L s as_ va t e), Hpr by auto.
  case_decide as Hd; [cbn [v_mem set_leaf with_mem with_pmm]; by rewrite mwrite_eq|].
  destruct (leaf s.(v_mem) as' va') as [y|] eqn:Hl; [|done].
  destruct (leaf_slot s _ _ _ Hl) as (t'&Ht'&->&_). cbn [v_mem set_leaf with_mem with_pmm].
  rewrite mwrite_ne; [done|]. by apply (leaf_write_other A L s as_ va t e Hi Ha Hu Ht as').
Qed.

Hypotheses (Hpr : has e PTE_PRESENT = true) (Hph : x86_pte_phys e <> 0).
Hypotheses (Hb : g_base_pa p' = g_base_pa s.(v_pmm)) (Hg : g_pages p' = g_pages s.(v_pmm)).
Hypothesis Htr : forall f, is_table s.(v_mem) A f -> pmm_get_ref p' f = pmm_get_ref s.(v_pmm) f.
Hypotheses (Hcow : cow_inv s' L') (HL : forall y, y ∈ L' <-> y ∈ L \/ y = x /\ managed s.(v_pmm) (x86_pte_phys e)).
Hypothesis Hnt : ~ is_table s.(v_mem) A (x86_pte_phys e).

Lemma place_inv : pt_inv s' A L'.
Proof using All.
  assert (Hist := leaf_write_table A L s as_ va t e Hi Ha Hu Ht).
  assert (Hfr : forall as' va' y, as' ∈ A -> user va' -> leaf s.(v_mem) as' va' = Some y -> frame s'.(v_mem) y = frame s.(v_mem) y).
  { intros as' va' y Ha' Hu' Hl. destruct (leaf_slot s _ _ _ Hl) as (t'&Ht'&->&Hp). unfold frame.
    cbn [v_mem set_leaf with_mem with_pmm]. rewrite mwrite_ne; [done|]. intros Heq.
    destruct (slot_once s A L Hi as' va' 3 t' as_ va 3 t) as (->&_&Hk); auto.
    rewrite (leaf_key _ _ va' va Hk) in Hl. congruence. }
  assert (Hfx : frame s'.(v_mem) x = x86_pte_phys e) by (unfold frame; cbn [v_mem set_leaf with_mem]; by rewrite mwrite_eq).
  assert (Hman : forall f, managed p' f <-> managed s.(v_pmm) f).
  { intros f. unfold managed. by rewrite (page_of_range s.(v_pmm) p'). }
  constructor; auto.
  - intros f Hf%Hist. cbn [v_pmm set_leaf with_mem with_pmm]. rewrite Htr by done. by apply (pi_tab _ _ _ Hi).
  - intros as1 va1 n1 as2 va2 n2 f Ha1 Ha2 Hu1 Hu2 Hn1 Hn2.
    rewrite !(leaf_write_tab A L s as_ va t e Hi Ha Hu Ht) by auto. by apply (pi_inj _ _ _ Hi).
  - intros y. rewrite HL, (pi_leaf _ _ _ Hi). cbn [v_pmm set_leaf with_mem with_pmm]. setoid_rewrite Hman. split.
    + intros [(as'&va'&Ha'&Hu'&Hl&Hm)|[-> Hm]].
      * exists as', va'. rewrite (leaf_write_leaf A L s as_ va t e), (Hfr as' va') by auto.
        rewrite decide_False by (intros [-> Hk]; rewrite (leaf_key _ _ va' va Hk) in Hl; congruence). done.
      * exists as_, va. rewrite (leaf_write_leaf A L s as_ va t e), decide_True, Hpr by auto. by rewrite Hfx.
    + intros (as'&va'&Ha'&Hu'&Hl&Hm). rewrite (leaf_write_leaf A L s as_ va t e) in Hl by auto. case_decide as Hd.
      * rewrite Hpr in Hl. right. split; [congruence|]. rewrite <- Hfx. congruence.
      * left. exists as', va'. rewrite (Hfr as' va') in Hm by auto. done.
  - intros y [Hy|[-> _]]%HL; rewrite Hist; [|by rewrite Hfx]. destruct (in_L s A L Hi y Hy) as (as'&va'&?&?&?).
    rewrite (Hfr as' va') by auto. by apply (pi_frame _ _ _ Hi).
  - intros as' va' y Ha' Hu'. rewrite (leaf_write_leaf A L s as_ va t e) by auto.
    case_decide as Hd; [rewrite Hpr; intros Hy; assert (y = x) as -> by congruence; by rewrite Hfx|]. intros Hl.
    rewrite (Hfr as' va') by auto. by apply (pi_null _ _ _ Hi as' va').
  - intros as' va' e' Ha' Hu'. rewrite (leaf_write_huge A L s as_ va t e) by auto. by apply (pi_huge _ _ _ Hi).
Qed.
End place.

Section map.
Variables (A L : list Z) (s : vmst) (as_ va t pa flags : Z).
Hypotheses (Hi : pt_inv s A L) (Ha : as_ ∈ A) (Hu : user va) (Ht : tab s.(v_mem) as_ va 3 = Some t).
Hypotheses (Hh : held s A L pa) (Hfl : Z.land flags PTE_ADDR_MASK = 0) (Hpa : 0 < pa < 2 ^ 52).
Hypothesis Hnone : leaf s.(v_mem) as_ va = None.
Abbreviation x := (slot t (idx 3 va)).
Abbreviation e := (leaf_entry pa flags).

Lemma map_leaf_inv : pt_inv (set_leaf s x e) A (x :: L).
Proof using All.
  destruct (leaf_entry_bits pa flags) as (Hph&Hpr&_); [apply Hh|lia|done|].
  destruct (place_slot A L s as_ va t Hi Ha Hu Ht Hnone) as (Hpx&Htp&Hs). destruct Hh as [Hal Hone Hnt Hnf].
  change (set_leaf s x e) with (set_leaf (with_pmm s s.(v_pmm)) x e).
  apply (place_inv A L (x :: L) s s.(v_pmm) as_ va t e); auto; rewrite ?Hph; auto; [lia| |].
  - apply (adopt_ok s L x e pa); auto; [apply Hi|]. intros y Hy Hin.
    apply in_frame_page_down in Hin; [|done]. apply Hnt. rewrite <- Hin.
    apply elem_of_cons in Hy as [->|(as'&va'&?&?&?)%(in_L s A L Hi)]; [by rewrite Hpx|].
    by apply (leaf_page s A L Hi as' va').
  - intros y. rewrite elem_of_cons. split; [|tauto]. intros [->|]; auto. right. split; [done|].
    destruct (get_ref_pos s.(v_pmm) pa) as (q&_&_&Hq); [apply Hi|done|lia|by exists q].
Qed.
End map.
