(* ===== verification/Mmap.v ===== *)
(** * User memory calls (kernel/sys_mmap.c)

    mmap, munmap, mprotect, mremap and brk of the current task on x86_64,
    over the page tables and the page allocator.  Addresses and lengths are
    64-bit words whose sums wrap.  The instruction cache is coherent with
    data on this architecture, so [arch_sync_icache_range] is empty. *)
From S2P Require Import Prelude State Pmm Pte VmCow Vmm.

Definition USER_MMAP_BASE_VADDR : Z := 0x0000200000000000.
Definition USER_MMAP_TOP_VADDR : Z := 0x00007F0000000000.
Abbreviation MAP_SHARED := 0x01.
Abbreviation MAP_PRIVATE := 0x02.
Abbreviation MAP_FIXED := 0x10.
Abbreviation MAP_ANONYMOUS := 0x20.
Abbreviation PROT_READ := 0x1.
Abbreviation PROT_WRITE := 0x2.
Abbreviation PROT_EXEC := 0x4.
Abbreviation MREMAP_MAYMOVE_FLAG := 1.
Abbreviation MREMAP_FIXED_FLAG := 2.
Abbreviation LINUX_ESRCH := 3.
Abbreviation LINUX_EBADF := 9.
Abbreviation LINUX_ENOMEM := 12.
Abbreviation LINUX_ENODEV := 19.
Abbreviation LINUX_EINVAL := 22.
Abbreviation LINUX_ENOSYS := 38.

(** The fields of [struct task] these calls use. *)
Record mm_task := mkMm { mm_as : Z; mmap_end : Z; heap_break : Z }.
Definition set_mmap_end (t : mm_task) (v : Z) : mm_task := mkMm t.(mm_as) v t.(heap_break).
Definition set_heap_break (t : mm_task) (v : Z) : mm_task := mkMm t.(mm_as) t.(mmap_end) v.

Record mst := mkMst { q_vm : vmst; q_cur : option mm_task }.
Definition set_vm (q : mst) (s : vmst) : mst := mkMst s q.(q_cur).
Definition vm {A} (c : ST vmst A) : ST mst A := lift q_vm set_vm c.
Definition update_task (f : mm_task -> mm_task) : ST mst unit :=
  modify (fun q => mkMst q.(q_vm) (f <$> q.(q_cur))).

(** What the descriptor layer offers to a file mapping: whether a descriptor
    is open, whether it is a pipe, and reading one page of it into memory at
    the given physical address. *)
Class FileMap := {
  fd_in_use : Z -> bool;
  fd_is_pipe : Z -> bool;
  pread_page : memory -> Z -> Z -> Z -> memory;
}.
Abbreviation MAX_FDS := 256.

(** [flags & bits] is not zero *)
Definition any (flags bits : Z) : bool := negb (Z.land flags bits =? 0).

Definition mmap_err (err : Z) : Z := u64 (- err).
Definition mmap_align_up (v : Z) : Z := page_down (u64 (v + PAGE_SIZE - 1)).

Definition mmap_range_valid (vaddr size : Z) : bool :=
  negb (size =? 0) && (Z.land vaddr (PAGE_SIZE - 1) =? 0)
  && (USER_MMAP_BASE_VADDR <=? vaddr) && (vaddr <? USER_MMAP_TOP_VADDR)
  && (vaddr <=? u64 (vaddr + size)) && (u64 (vaddr + size) <=? USER_MMAP_TOP_VADDR).

(** Passes of [for (off = 0; off < size; off += PAGE_SIZE)]. *)
Definition pages (size : Z) : nat := Z.to_nat ((size + PAGE_SIZE - 1) / PAGE_SIZE).

(** The address of the pass that starts at [off]. *)
Fixpoint unmapped_from (n : nat) (m : memory) (as_ base off : Z) : bool :=
  match n with
  | O => true
  | S n => if vmm_get_phys m as_ (u64 (base + off)) =? 0
           then unmapped_from n m as_ base (off + PAGE_SIZE) else false
  end.
Definition mmap_range_unmapped (m : memory) (as_ base size : Z) : bool :=
  unmapped_from (pages size) m as_ base 0.

Definition mmap_drop_page (as_ vaddr : Z) : ST vmst unit :=
  phys ← gets (fun s => vmm_get_phys s.(v_mem) as_ vaddr);
  modify (fun s => x86_vm_unmap_page s as_ vaddr) ;;
  left ← gets (fun s => vmm_get_phys s.(v_mem) as_ vaddr);
  if negb (phys =? 0) && (left =? 0) then free_pages (page_down phys) 1 else mret ().

(** [for (off = from; off < size; off += PAGE_SIZE) mmap_drop_page(as, base + off)] *)
Definition drop_range (as_ base from size : Z) : ST vmst unit :=
  mfor (pages (size - from)) 0 (fun i => mmap_drop_page as_ (u64 (base + (from + i * PAGE_SIZE)))).

(** The first of [p] addresses from [a], a page apart, for which [f] holds. *)
Fixpoint first_page (p : positive) (f : Z -> bool) (a : Z) : option Z :=
  match p with
  | xH => if f a then Some a else None
  | xO p => match first_page p f a with
            | Some r => Some r
            | None => first_page p f (a + PAGE_SIZE * Z.pos p)
            end
  | xI p => if f a then Some a else
            match first_page p f (a + PAGE_SIZE) with
            | Some r => Some r
            | None => first_page p f (a + PAGE_SIZE + PAGE_SIZE * Z.pos p)
            end
  end.

Definition mmap_find_gap_from (m : memory) (as_ size start end_ : Z) : Z :=
  let start := if start <? USER_MMAP_BASE_VADDR then USER_MMAP_BASE_VADDR else start in
  let start := mmap_align_up start in
  if u64 (start + size) <=? end_ then
    match first_page (Z.to_pos ((end_ - size - start) / PAGE_SIZE + 1))
            (fun base => mmap_range_unmapped m as_ base size) start with
    | Some base => base
    | None => 0
    end
  else 0.

Definition mmap_find_gap (m : memory) (as_ size hint : Z) : Z :=
  if (size =? 0) || (USER_MMAP_TOP_VADDR - USER_MMAP_BASE_VADDR <? size) then 0 else
  let hint := if (hint <? USER_MMAP_BASE_VADDR) || (USER_MMAP_TOP_VADDR <=? hint)
              then USER_MMAP_BASE_VADDR else hint in
  let base := mmap_find_gap_from m as_ size hint USER_MMAP_TOP_VADDR in
  if negb (base =? 0) then base else
  if USER_MMAP_BASE_VADDR <? hint then mmap_find_gap_from m as_ size USER_MMAP_BASE_VADDR hint else 0.

(** Fresh pages at [base + off], ..., [n] of them; when memory runs out the
    ones mapped since [base] are taken down again. *)
Fixpoint map_fresh (n : nat) (as_ base off map_flags : Z) (fill : memory -> Z -> Z -> memory)
  : ST vmst bool :=
  match n with
  | O => mret true
  | S n =>
      phys ← alloc_page;
      if phys =? 0 then
        drop_range as_ base 0 off ;; arch_syscall_flush_tlb as_ ;; mret false
      else
      zero_page phys ;;
      modify (fun s => with_mem s (fill s.(v_mem) phys off)) ;;
      vmm_map_page as_ (u64 (base + off)) phys map_flags ;;
      map_fresh n as_ base (off + PAGE_SIZE) map_flags fill
  end.

Section calls.
Context `{FileMap}.

(** A page of the file is read once, when it is mapped. *)
Definition mmap_fill_from_file (m : memory) (dest fd file_off : Z) : memory :=
  if fd <? 0 then m else pread_page m dest fd file_off.
Definition mmap_can_map_file : bool := true.

(** The checks on the descriptor; the error, if any. *)
Definition mmap_check_fd (is_anonymous : bool) (fd offset : Z) : option Z :=
  if is_anonymous then
    if negb (fd =? -1) && negb (fd =? 0) then Some LINUX_EINVAL else
    if negb (offset =? 0) then Some LINUX_EINVAL else None
  else
    if (fd <? 0) || (MAX_FDS <=? fd) || negb (fd_in_use fd) then Some LINUX_EBADF else
    if fd_is_pipe fd then Some LINUX_ENODEV else
    if negb mmap_can_map_file then Some LINUX_ENOSYS else None.

(** Where the mapping goes: an address, or an error.  A fixed address
    replaces what was there. *)
Definition mmap_place (t : mm_task) (addr size flags : Z) : ST mst (Z + Z) :=
  let base := mmap_align_up addr in
  if (base =? 0) || negb (any flags MAP_FIXED) then
    m ← gets (fun q => q.(q_vm).(v_mem));
    let base := mmap_find_gap m t.(mm_as) size t.(mmap_end) in
    if base =? 0 then mret (inl LINUX_ENOMEM) else
    update_task (fun t => set_mmap_end t (mmap_align_up (u64 (base + size)))) ;;
    mret (inr base)
  else if negb (addr =? base) then mret (inl LINUX_EINVAL) else
  if negb (mmap_range_valid base size) then mret (inl LINUX_EINVAL) else
  m ← gets (fun q => q.(q_vm).(v_mem));
  (if mmap_range_unmapped m t.(mm_as) base size then mret () else vm (drop_range t.(mm_as) base 0 size)) ;;
  mret (inr base).

Definition sys_mmap (addr length prot flags fd offset : Z) : ST mst Z :=
  cur ← gets q_cur;
  match cur with
  | None => mret (mmap_err LINUX_ESRCH)
  | Some t =>
      if length =? 0 then mret (mmap_err LINUX_EINVAL) else
      if negb (any flags (Z.lor MAP_PRIVATE MAP_SHARED)) then mret (mmap_err LINUX_EINVAL) else
      if offset <? 0 then mret (mmap_err LINUX_EINVAL) else
      if any offset (PAGE_SIZE - 1) then mret (mmap_err LINUX_EINVAL) else
      let size := mmap_align_up length in
      if size =? 0 then mret (mmap_err LINUX_EINVAL) else
      let is_anonymous := any flags MAP_ANONYMOUS in
      match mmap_check_fd is_anonymous fd offset with
      | Some err => mret (mmap_err err)
      | None =>
          r ← mmap_place t addr size flags;
          match r with
          | inl err => mret (mmap_err err)
          | inr base =>
              if negb (mmap_range_valid base size) then mret (mmap_err LINUX_EINVAL) else
              let map_flags := arch_vm_user_page_flags (any prot PROT_WRITE) (any prot PROT_EXEC) in
              let fill := fun m phys off =>
                if is_anonymous then m else mmap_fill_from_file m phys fd (u64 (offset + off)) in
              ok ← vm (map_fresh (pages size) t.(mm_as) base 0 map_flags fill);
              if negb ok then mret (mmap_err LINUX_ENOMEM) else
              update_task (fun t => if t.(mmap_end) <? u64 (base + size)
                                    then set_mmap_end t (u64 (base + size)) else t) ;;
              vm (arch_syscall_flush_tlb t.(mm_as)) ;;
              mret base
          end
      end
  end.

Definition sys_munmap (addr length : Z) : ST mst Z :=
  cur ← gets q_cur;
  match cur with
  | None => mret (- LINUX_EINVAL)
  | Some t =>
      if length =? 0 then mret (- LINUX_EINVAL) else
      if any addr (PAGE_SIZE - 1) then mret (- LINUX_EINVAL) else
      let size := mmap_align_up length in
      if negb (mmap_range_valid addr size) then mret (- LINUX_EINVAL) else
      vm (drop_range t.(mm_as) addr 0 size) ;;
      vm (arch_syscall_flush_tlb t.(mm_as)) ;;
      mret 0
  end.

(** Every page of the range belongs to the process. *)
Fixpoint user_from (n : nat) (m : memory) (as_ base off : Z) : bool :=
  match n with
  | O => true
  | S n => if x86_vm_is_user_page m as_ (u64 (base + off))
           then user_from n m as_ base (off + PAGE_SIZE) else false
  end.

Definition protect_range (n : nat) (as_ base : Z) (writable executable : bool) : ST vmst unit :=
  mfor n 0 (fun i =>
    modify (fun s => vm_cow_protect_page s as_ (u64 (base + i * PAGE_SIZE)) writable executable)).

Definition sys_mprotect (addr length prot : Z) : ST mst Z :=
  cur ← gets q_cur;
  match cur with
  | None => mret (- LINUX_ESRCH)
  | Some t =>
      if any addr (PAGE_SIZE - 1) then mret (- LINUX_EINVAL) else
      if length =? 0 then mret 0 else
      let size := mmap_align_up length in
      if (size =? 0) || (u64 (addr + size) <? addr) then mret (- LINUX_EINVAL) else
      m ← gets (fun q => q.(q_vm).(v_mem));
      if negb (user_from (pages size) m t.(mm_as) addr 0) then mret (- LINUX_ENOMEM) else
      vm (protect_range (pages size) t.(mm_as) addr (any prot PROT_WRITE) (any prot PROT_EXEC)) ;;
      vm (arch_syscall_flush_tlb t.(mm_as)) ;;
      mret 0
  end.

(** One page of the copy when mremap moves a range. *)
Definition move_page (as_ old_base new_base off : Z) : ST vmst unit :=
  m ← gets v_mem;
  let old_phys := vmm_get_phys m as_ (u64 (old_base + off)) in
  let new_phys := vmm_get_phys m as_ (u64 (new_base + off)) in
  if negb (old_phys =? 0) && negb (new_phys =? 0)
  then modify (fun s => with_mem s (mcopy s.(v_mem) (page_down new_phys) (page_down old_phys) PAGE_SIZE))
  else mret ().

Definition is_mmap_err (r : Z) : bool := (s64 r <? 0) && (-4096 <? s64 r).

(** The last part of [sys_mremap]: a new range, a copy, and the old range
    unmapped. *)
Definition mremap_move (as_ old_addr old_size new_size flags new_addr prot : Z) : ST mst Z :=
  if negb (any flags MREMAP_MAYMOVE_FLAG) then mret (mmap_err LINUX_ENOMEM) else
  let fixed := any flags MREMAP_FIXED_FLAG in
  mapped ← sys_mmap (if fixed then new_addr else 0) new_size prot
             (Z.lor (Z.lor MAP_PRIVATE MAP_ANONYMOUS) (if fixed then MAP_FIXED else 0)) (-1) 0;
  if is_mmap_err mapped then mret mapped else
  vm (mfor (pages (Z.min old_size new_size)) 0 (fun i => move_page as_ old_addr mapped (i * PAGE_SIZE))) ;;
  sys_munmap old_addr old_size ;;
  mret mapped.

Definition sys_mremap (old_addr old_len new_len flags new_addr : Z) : ST mst Z :=
  cur ← gets q_cur;
  match cur with
  | None => mret (mmap_err LINUX_ESRCH)
  | Some t =>
      if (old_addr =? 0) || (old_len =? 0) || (new_len =? 0) then mret (mmap_err LINUX_EINVAL) else
      if any old_addr (PAGE_SIZE - 1) then mret (mmap_err LINUX_EINVAL) else
      if any flags (Z.lnot (Z.lor MREMAP_MAYMOVE_FLAG MREMAP_FIXED_FLAG)) then mret (mmap_err LINUX_EINVAL) else
      if any flags MREMAP_FIXED_FLAG && negb (any flags MREMAP_MAYMOVE_FLAG)
      then mret (mmap_err LINUX_EINVAL) else
      let old_size := mmap_align_up old_len in
      let new_size := mmap_align_up new_len in
      let as_ := t.(mm_as) in
      s ← gets q_vm;
      if negb (user_from (pages old_size) s.(v_mem) as_ old_addr 0) then mret (mmap_err LINUX_EINVAL) else
      let '(writable, executable) := match vm_cow_get_page_prot s as_ old_addr with
                                     | Some wx => wx | None => (true, false) end in
      let prot := Z.lor (Z.lor PROT_READ (if writable then PROT_WRITE else 0))
                        (if executable then PROT_EXEC else 0) in
      if new_size =? old_size then mret old_addr else
      if new_size <? old_size then
        vm (drop_range as_ old_addr new_size old_size) ;;
        vm (arch_syscall_flush_tlb as_) ;;
        mret old_addr
      else
      let end_ := u64 (old_addr + old_size) in
      let grow := new_size - old_size in
      if mmap_range_valid end_ grow && mmap_range_unmapped s.(v_mem) as_ end_ grow then
        ok ← vm (map_fresh (pages grow) as_ end_ 0 (arch_vm_user_page_flags writable executable)
                   (fun m _ _ => m));
        if negb ok then mret (mmap_err LINUX_ENOMEM) else
        vm (arch_syscall_flush_tlb as_) ;;
        mret old_addr
      else mremap_move as_ old_addr old_size new_size flags new_addr prot
  end.
End calls.

(** The loop of [sys_brk]: pages from [a] on; [false] when memory ran out. *)
Fixpoint brk_pages (n : nat) (as_ a map_flags : Z) : ST vmst bool :=
  match n with
  | O => mret true
  | S n =>
      phys ← alloc_page;
      if phys =? 0 then mret false else
      zero_page phys ;;
      vmm_map_page as_ a phys map_flags ;;
      brk_pages n as_ (a + PAGE_SIZE) map_flags
  end.

Definition sys_brk (addr : Z) : ST mst Z :=
  cur ← gets q_cur;
  match cur with
  | None => mret 0
  | Some t =>
      let old_break := t.(heap_break) in
      if (addr =? 0) || (addr <=? old_break) || (USER_MMAP_BASE_VADDR <=? addr) then mret old_break else
      let current_page := mmap_align_up old_break in
      let target_page := mmap_align_up addr in
      ok ← vm (brk_pages (pages (target_page - current_page)) t.(mm_as) current_page
                 (arch_vm_user_page_flags true false));
      if negb ok then vm (arch_syscall_flush_tlb t.(mm_as)) ;; mret old_break else
      update_task (fun t => set_heap_break t addr) ;;
      vm (arch_syscall_flush_tlb t.(mm_as)) ;;
      mret addr
  end.
