(* ===== verification/PtOps.v ===== *)
(** * What operations on pages leave alone

    [effect D k A L s L' s']: from [s] to [s'] only the mappings of the pages
    [D] change; every other page of every address space keeps its entry and
    its contents, no page is lost or found, cached translations are at most
    dropped, and at most [k] pages are used up. *)
From S2P Require Import Prelude State Pmm Pte VmCow Vmm PtWalk PtInv PtGrow PtMap Mmap.

(** A page with owners that is neither a table nor mapped. *)
Definition stray (s : vmst) (A L : list Z) (f : Z) : Prop :=
  0 < pmm_get_ref s.(v_pmm) f /\ (~ is_table s.(v_mem) A f) /\ forall x, x ∈ L -> frame s.(v_mem) x <> f.

Record effect (D : Z -> Z -> Prop) (k : Z) (A L : list Z) (s : vmst) (L' : list Z) (s' : vmst) : Prop := {
  ef_base : s'.(v_pmm).(g_base_pa) = s.(v_pmm).(g_base_pa);
  ef_pages : s'.(v_pmm).(g_pages) = s.(v_pmm).(g_pages);
  ef_view : forall as_ va, as_ ∈ A -> user va -> ~ D as_ (key 4 va) ->
    view s'.(v_mem) as_ va = view s.(v_mem) as_ va;
  ef_data : forall as_ va e a, as_ ∈ A -> user va -> ~ D as_ (key 4 va) ->
    view s.(v_mem) as_ va = Some e -> in_frame (x86_pte_phys e) a -> s'.(v_mem) a = s.(v_mem) a;
  ef_ref : forall as_ va e, as_ ∈ A -> user va -> ~ D as_ (key 4 va) ->
    view s.(v_mem) as_ va = Some e -> pmm_get_ref s'.(v_pmm) (x86_pte_phys e) <= pmm_get_ref s.(v_pmm) (x86_pte_phys e);
  ef_huge : forall as_ va, as_ ∈ A -> user va -> huge s'.(v_mem) as_ va = huge s.(v_mem) as_ va;
  ef_stray : forall f, aligned f -> stray s' A L' f <-> stray s A L f;
  ef_tlb : forall as_ va e, s'.(v_tlb) as_ va = Some e -> s.(v_tlb) as_ va = Some e;
  ef_avail : avail s.(v_pmm) - k <= avail s'.(v_pmm);
  ef_keep : forall f, aligned f -> stray s A L f -> pmm_get_ref s'.(v_pmm) f = pmm_get_ref s.(v_pmm) f;
}.

Lemma effect_same D k A L s : 0 <= k -> effect D k A L s L s.
Proof. constructor; auto with lia. Qed.
Lemma effect_refl D A L s : effect D 0 A L s L s.
Proof. by apply effect_same. Qed.

Lemma effect_trans D k k' A L1 s1 L2 s2 L3 s3 :
  effect D k A L1 s1 L2 s2 -> effect D k' A L2 s2 L3 s3 -> effect D (k + k') A L1 s1 L3 s3.
Proof.
  intros [] []. constructor.
  - congruence.
  - congruence.
  - intros. rewrite ef_view1; auto.
  - intros. rewrite (ef_data1 as_ va e), (ef_data0 as_ va e); auto. rewrite ef_view0; auto.
  - intros as_ va e Ha Hu HD Hv. etransitivity; [apply (ef_ref1 as_ va); auto; rewrite ef_view0; auto|by apply (ef_ref0 as_ va)].
  - intros. rewrite ef_huge1; auto.
  - intros. rewrite ef_stray1; auto.
  - auto.
  - lia.
  - intros f Hal Hst. rewrite ef_keep1 by (auto; by apply ef_stray0). auto.
Qed.

Lemma effect_weaken (D D' : Z -> Z -> Prop) k k' A L s L' s' :
  effect D k A L s L' s' -> (forall a v, D a v -> D' a v) -> k <= k' -> effect D' k' A L s L' s'.
Proof.
  intros [] HD Hk. constructor; auto; [| |lia].
  - intros as_ va e a ? ? ?. apply ef_data0; auto.
  - intros as_ va e ? ? ?. apply ef_ref0; auto.
Qed.

(** A page with owners is one of the allocator's. *)
Lemma ref_managed p a : 0 < pmm_get_ref p a -> managed p a.
Proof. unfold managed, pmm_get_ref. destruct (pmm_page_of p a); [by eexists|lia]. Qed.

(** ** The walk of [vmm_get_phys] *)

Lemma view_tab m as_ va :
  view m as_ va = match tab m as_ va 3 with
                  | Some t => let e := m (slot t (idx 3 va)) in if has e PTE_PRESENT then Some e else None
                  | None => None
                  end.
Proof. unfold view, leaf. destruct (tab m as_ va 3) as [t|]; [|done]. cbv zeta. by destruct (has (m (slot t (idx 3 va))) PTE_PRESENT). Qed.

Lemma get_phys_eq m as_ va :
  vmm_get_phys m as_ va =
    match huge m as_ va with
    | Some e => x86_pte_phys e + va mod HUGE_PAGE_SIZE
    | None => match view m as_ va with
              | Some e => x86_pte_phys e + va mod PAGE_SIZE
              | None => 0
              end
    end.
Proof.
  rewrite view_tab. unfold huge, vmm_get_phys, x86_pte_phys, tab, child, idx.
  set (e0 := m (slot as_ (PML4_IDX va))). cbn [Nat.eqb andb negb].
  destruct (has e0 PTE_PRESENT); [|done]. cbn [negb andb].
  set (e1 := m (slot (Z.land e0 PTE_ADDR_MASK) (PDP_IDX va))).
  destruct (has e1 PTE_PRESENT); [|done]. cbn [negb andb].
  set (e2 := m (slot (Z.land e1 PTE_ADDR_MASK) (PD_IDX va))). cbv zeta.
  destruct (has e2 PTE_HUGE); [done|]. destruct (has e2 PTE_PRESENT); [|done]. cbn [negb andb].
  by destruct (has _ PTE_PRESENT).
Qed.

Lemma view_leaf m as_ va e : view m as_ va = Some e -> exists x, leaf m as_ va = Some x /\ m x = e.
Proof. unfold view. destruct (leaf m as_ va) as [x|]; [|done]. intros [= <-]. eauto. Qed.

Section facts.
Variables (s : vmst) (A L : list Z).
Hypothesis Hi : pt_inv s A L.
Abbreviation m := s.(v_mem).
Abbreviation p := s.(v_pmm).

(** A mapped page is neither free nor a table. *)
Lemma frame_plain as_ va e a :
  as_ ∈ A -> user va -> view m as_ va = Some e -> in_frame (x86_pte_phys e) a ->
  page_down a = x86_pte_phys e /\ (~ free_at p (page_down a)) /\ ~ is_table m A (page_down a).
Proof using Hi.
  intros Ha Hu (x&Hl&<-)%view_leaf Hin. change (x86_pte_phys (m x)) with (frame m x) in *.
  apply in_frame_page_down in Hin; [|apply frame_aligned]. rewrite Hin. split; [done|].
  destruct (pmm_page_of p (frame m x)) as [q|] eqn:E.
  - assert (Hx : x ∈ L) by (apply (pi_leaf _ _ _ Hi); exists as_, va; split_and!; auto; by exists q).
    split; [|by apply (pi_frame _ _ _ Hi)]. apply get_ref_not_free; [apply Hi|].
    by apply (inv_ref_pos s L (pi_cow _ _ _ Hi)).
  - split; [intros (?&?&_); congruence|]. intros [Hal Hr]%(pi_tab _ _ _ Hi).
    unfold pmm_get_ref in Hr. rewrite E in Hr. done.
Qed.

Lemma frame_used as_ va e :
  as_ ∈ A -> user va -> view m as_ va = Some e -> ~ free_at p (x86_pte_phys e) /\ aligned (x86_pte_phys e).
Proof using Hi.
  intros Ha Hu Hv. destruct (frame_plain as_ va e (x86_pte_phys e) Ha Hu Hv) as (Hp&Hf&_);
    [unfold in_frame, PAGE_SIZE; lia|]. rewrite Hp in Hf. split; [done|apply addr_aligned].
Qed.

Lemma get_phys_none as_ va :
  as_ ∈ A -> user va -> 0 <= va -> vmm_get_phys m as_ va = 0 <-> huge m as_ va = None /\ view m as_ va = None.
Proof using Hi.
  intros Ha Hu Hva. rewrite get_phys_eq.
  assert (Hpos : forall e, 0 <= x86_pte_phys e) by (intros e; apply Z.land_nonneg; by right).
  pose proof (Z.mod_pos_bound va HUGE_PAGE_SIZE ltac:(done)). pose proof (Z.mod_pos_bound va PAGE_SIZE ltac:(done)).
  destruct (huge m as_ va) as [e|] eqn:Eh.
  - pose proof (pi_huge _ _ _ Hi as_ va e Ha Hu Eh). specialize (Hpos e). split; [lia|by intros [? _]].
  - destruct (view m as_ va) as [e|] eqn:Ev; [|tauto]. destruct (view_leaf _ _ _ _ Ev) as (x&Hl&<-).
    pose proof (pi_null _ _ _ Hi as_ va x Ha Hu Hl) as Hnz. specialize (Hpos (m x)).
    unfold frame in Hnz. simpl in Hnz. split; [lia|by intros [_ ?]].
Qed.

Lemma held_grows k H s1 pa : grows k H A s s1 -> held s A L pa -> held s1 A L pa.
Proof using Hi.
  intros Hg [Hal Hr Hnt Hnf].
  assert (Hnfr : ~ free_at p pa) by (apply get_ref_not_free; [apply Hi|lia]).
  constructor; auto.
  - by rewrite (gr_ref _ _ _ _ _ Hg).
  - by intros [?|?]%(gr_new _ _ _ _ _ Hg).
  - intros x Hx. destruct (in_L s A L Hi x Hx) as (as_&va&Ha&Hu&Hl). unfold frame.
    rewrite (gr_entry _ _ _ _ _ Hg as_ va x) by auto. by apply Hnf.
Qed.
End facts.

(** New empty tables change nothing. *)
Lemma grows_effect D k s A L s' : pt_inv s A L -> grows k [] A s s' -> effect D k A L s L s'.
Proof.
  intros Hi Hg. constructor; try apply Hg.
  - intros as_ va Ha Hu _. unfold view. rewrite (gr_leaf _ _ _ _ _ Hg) by auto.
    destruct (leaf s.(v_mem) as_ va) as [x|] eqn:E; [|done]. by rewrite (gr_entry _ _ _ _ _ Hg as_ va x).
  - intros as_ va e a Ha Hu _ Hv Hin. destruct (frame_plain s A L Hi as_ va e a Ha Hu Hv Hin) as (_&?&?).
    by apply (gr_mem _ _ _ _ _ Hg).
  - intros as_ va e Ha Hu _ Hv. destruct (frame_used s A L Hi as_ va e Ha Hu Hv). by rewrite (gr_ref _ _ _ _ _ Hg).
  - intros f Hal. assert (Hfr : forall x, x ∈ L -> frame s'.(v_mem) x = frame s.(v_mem) x).
    { intros x Hx. destruct (in_L s A L Hi x Hx) as (as_&va&?&?&?). unfold frame.
      by rewrite (gr_entry _ _ _ _ _ Hg as_ va x). }
    unfold stray. split; intros (Hr&Ht&Hn).
    + assert (Hnf : ~ free_at s.(v_pmm) f).
      { intros Hf. by destruct (gr_taken _ _ _ _ _ Hg f Hal Hf Hr) as [?|?%not_elem_of_nil]. }
      rewrite (gr_ref _ _ _ _ _ Hg) in Hr by done. split_and!; auto.
      * intros ?. apply Ht. by apply (is_table_mono _ _ _ _ _ _ Hg).
      * intros x Hx. rewrite <- Hfr by done. by apply Hn.
    + assert (Hnf : ~ free_at s.(v_pmm) f) by (apply get_ref_not_free; [apply Hi|done]).
      rewrite (gr_ref _ _ _ _ _ Hg) by done. split_and!; auto.
      * by intros [?|?]%(gr_new _ _ _ _ _ Hg).
      * intros x Hx. rewrite Hfr by done. by apply Hn.
  - intros as_ va e. by rewrite (gr_tlb _ _ _ _ _ Hg).
  - intros f Hal (Hr&_). apply (gr_ref _ _ _ _ _ Hg); [done|]. apply get_ref_not_free; [apply Hi|done].
Qed.

(** A page that was taken is stray until it is put to use. *)
Lemma taken_stray s s1 A L k pa g :
  pt_inv s A L -> grows k [pa] A s s1 -> held s1 A L pa -> free_at s.(v_pmm) pa -> aligned g ->
  stray s1 A L g <-> stray s A L g \/ g = pa.
Proof.
  intros Hi Hg Hh Hfree Hal. unfold stray.
  assert (Hfr : forall y, y ∈ L -> frame s1.(v_mem) y = frame s.(v_mem) y).
  { intros y Hy. destruct (in_L s A L Hi y Hy) as (as'&va'&?&?&?). unfold frame. by rewrite (gr_entry _ _ _ _ _ Hg as' va' y). }
  split.
  - intros (Hr&Hnt&Hnf). destruct (free_decide s.(v_pmm) g) as [Hf|Hf].
    + right. destruct (gr_taken _ _ _ _ _ Hg g Hal Hf Hr) as [?|?%list_elem_of_singleton]; done.
    + left. rewrite (gr_ref _ _ _ _ _ Hg) in Hr by done. split_and!; auto.
      * intros ?. apply Hnt. by apply (is_table_mono _ _ _ _ _ _ Hg).
      * intros y Hy. rewrite <- Hfr by done. auto.
  - intros [(Hr&Hnt&Hnf)| ->].
    + assert (Hf : ~ free_at s.(v_pmm) g) by (apply get_ref_not_free; [apply Hi|done]).
      rewrite (gr_ref _ _ _ _ _ Hg) by done. split_and!; auto.
      * by intros [?|?]%(gr_new _ _ _ _ _ Hg).
      * intros y Hy. rewrite Hfr by done. auto.
    + destruct Hh. split_and!; auto. lia.
Qed.

Lemma wp_alloc E (Q : Z -> vmst -> Prop) s :
  (forall p1, pmm_alloc s.(v_pmm) 1 = (0, p1) -> Q 0 (with_pmm s p1)) ->
  (forall pa p1, pmm_alloc s.(v_pmm) 1 = (pa, p1) -> pa <> 0 -> Q pa (with_pmm s p1)) ->
  wp E alloc_page Q s.
Proof.
  intros H0 H1. unfold wp, alloc_page. destruct (pmm_alloc s.(v_pmm) 1) as [pa p1] eqn:Eal.
  destruct (Z.eq_dec pa 0) as [->|Hne]; auto.
Qed.

(** ** Mapping a page that is held *)

(** What may stop the kernel: the page allocator has nothing left for a
    table. *)
Definition no_tables (E : panic -> Prop) (p : pmm) (k : Z) : Prop := k <= avail p \/ (E Asserted /\ E Undefined).

Lemma no_tables_grows E k k' H A s s' :
  no_tables E s.(v_pmm) k -> grows k' H A s s' -> no_tables E s'.(v_pmm) (k - k').
Proof. intros [Hk|He] Hg; [left|by right]. pose proof (gr_avail _ _ _ _ _ Hg). lia. Qed.

Lemma map_page_raw E s A L as_ va pa flags :
  pt_inv s A L -> as_ ∈ A -> user va -> aligned pa -> huge s.(v_mem) as_ va = None ->
  no_tables E s.(v_pmm) 3 ->
  wp E (vmm_map_page as_ va pa flags) (fun _ s' =>
    exists s1 t, grows 3 [] A s s1 /\ pt_inv s1 A L /\ tab s1.(v_mem) as_ va 3 = Some t /\
      s' = arch_vm_flush_user_page (set_leaf s1 (slot t (idx 3 va)) (leaf_entry pa flags)) as_ va) s.
Proof.
  intros Hi Ha Hu Hal Hhg Hno. unfold vmm_map_page, vmm_assert_page_aligned. rewrite land_low. wp_steps.
  2: { by rewrite Hal. }
  eapply wp_mono; [apply wp_nopanic, (get_next_level_ok A L s as_ va 0 as_ flags); auto; lia|].
  intros r1 s1 (Hi1&Hg1&Hr1). wp_steps.
  destruct r1 as [t1|].
  2: { destruct Hno as [?|[He _]]; [lia|]. exact He. }
  pose proof (no_tables_grows E _ _ _ _ _ _ Hno Hg1) as Hno1.
  eapply wp_mono; [apply wp_nopanic, (get_next_level_ok A L s1 as_ va 1 t1 flags); auto; lia|].
  intros r2 s2 (Hi2&Hg2&Hr2). wp_steps. destruct r2 as [t2|].
  2: { destruct Hno1 as [?|[He _]]; [lia|]. exact He. }
  pose proof (no_tables_grows E _ _ _ _ _ _ Hno1 Hg2) as Hno2.
  eapply wp_mono; [apply wp_nopanic, (get_next_level_ok A L s2 as_ va 2 t2 flags); auto|].
  { intros _. by rewrite (gr_huge _ _ _ _ _ Hg2), (gr_huge _ _ _ _ _ Hg1). }
  intros r3 s3 (Hi3&Hg3&Hr3). wp_steps. destruct r3 as [t3|].
  2: { destruct Hno2 as [?|[_ He]]; [lia|]. exact He. }
  unfold store_at, store, invlpg. wp_steps. exists s3, t3. split_and!; auto.
  pose proof (grows_trans _ _ _ _ _ _ _ _ (grows_trans _ _ _ _ _ _ _ _ Hg1 Hg2) Hg3) as Hg.
  by eapply grows_weaken.
Qed.

(** The page appears, from the state in which it was still free. *)
Section mapped.
Variables (s0 s1 : vmst) (A L : list Z) (as_ va t pa flags k : Z).
Hypotheses (Hi0 : pt_inv s0 A L) (Hi1 : pt_inv s1 A L) (Hg : grows k [pa] A s0 s1).
Hypotheses (Ha : as_ ∈ A) (Hu : user va) (Ht : tab s1.(v_mem) as_ va 3 = Some t) (Hh : held s1 A L pa).
Hypotheses (Hfree : free_at s0.(v_pmm) pa) (Hpa : 0 < pa < 2 ^ 52) (Hfl : Z.land flags PTE_ADDR_MASK = 0).
Hypothesis Hnone : view s0.(v_mem) as_ va = None.
Abbreviation x := (slot t (idx 3 va)).
Abbreviation s' := (arch_vm_flush_user_page (set_leaf s1 x (leaf_entry pa flags)) as_ va).
Definition at_page (a v : Z) : Prop := a = as_ /\ v = key 4 va.

Lemma mapped_none : leaf s1.(v_mem) as_ va = None.
Proof using Hg Ha Hu Hnone.
  rewrite (gr_leaf _ _ _ _ _ Hg) by auto. unfold view in Hnone. by destruct (leaf s0.(v_mem) as_ va).
Qed.

Lemma mapped_inv : pt_inv s' A (x :: L).
Proof using All.
  pose proof (map_leaf_inv A L s1 as_ va t pa flags Hi1 Ha Hu Ht Hh Hfl Hpa mapped_none) as [].
  by constructor; [apply inv_flush|..].
Qed.

Lemma mapped_view : view s'.(v_mem) as_ va = Some (leaf_entry pa flags).
Proof using All.
  unfold view. cbn [v_mem arch_vm_flush_user_page].
  destruct (leaf_entry_bits pa flags) as (_&Hpr&_); [apply Hh|lia|done|].
  rewrite (leaf_write_leaf A L s1 as_ va t (leaf_entry pa flags)), decide_True, Hpr by auto.
  cbn [v_mem set_leaf with_mem]. by rewrite mwrite_eq.
Qed.

(** The slot is no part of a page that was in use, nor of the new one. *)
Lemma mapped_slot a : page_down a = page_down x ->
  is_table s0.(v_mem) A (page_down a) \/ free_at s0.(v_pmm) (page_down a) /\ page_down a <> pa.
Proof using All.
  intros ->. rewrite (table_slot s1 A L Hi1 as_ va 3) by auto.
  assert (Htt : is_table s1.(v_mem) A t) by (by exists as_, va, 3%nat).
  destruct (gr_new _ _ _ _ _ Hg t Htt); [by left|right]. split; [done|]. intros ->. by apply Hh in Htt.
Qed.

Lemma mapped_data a : in_frame pa a -> s'.(v_mem) a = s1.(v_mem) a.
Proof using All.
  intros Hin. apply in_frame_page_down in Hin; [|apply Hh]. cbn [v_mem arch_vm_flush_user_page set_leaf with_mem].
  apply mwrite_ne. intros ->. destruct (mapped_slot x eq_refl) as [Hs|[_ Hs]]; [|done].
  rewrite Hin in Hs. by apply (table_live s0 A L Hi0 pa).
Qed.

Lemma mapped_stray f : aligned f -> stray s' A (x :: L) f <-> stray s0 A L f.
Proof using All.
  intros Hal. unfold stray. cbn [v_mem v_pmm arch_vm_flush_user_page].
  rewrite (leaf_write_table A L s1 as_ va t (leaf_entry pa flags) Hi1 Ha Hu Ht f).
  assert (Hfx : frame (set_leaf s1 x (leaf_entry pa flags)).(v_mem) x = pa).
  { unfold frame. cbn [v_mem set_leaf with_mem]. rewrite mwrite_eq. apply leaf_entry_bits; [apply Hh|lia|done]. }
  assert (Hfr : forall y, y ∈ L -> frame (set_leaf s1 x (leaf_entry pa flags)).(v_mem) y = frame s0.(v_mem) y).
  { intros y Hy. unfold frame. cbn [v_mem set_leaf with_mem]. rewrite mwrite_ne.
    - destruct (in_L s0 A L Hi0 y Hy) as (as'&va'&?&?&?). by rewrite (gr_entry _ _ _ _ _ Hg as' va' y).
    - intros ->. by apply (place_new A L s1 as_ va t Hi1 Ha Hu Ht mapped_none). }
  cbn [v_pmm set_leaf with_mem]. split.
  - intros (Hr&Hnt&Hnf). assert (Hnfr : ~ free_at s0.(v_pmm) f).
    { intros Hff. destruct (gr_taken _ _ _ _ _ Hg f Hal Hff Hr) as [?|Hf1%list_elem_of_singleton]; [done|].
      apply (Hnf x); [apply list_elem_of_here|]. by rewrite Hfx. }
    rewrite (gr_ref _ _ _ _ _ Hg) in Hr by done. split_and!; [done| |].
    + intros ?. apply Hnt. by apply (is_table_mono _ _ _ _ _ _ Hg).
    + intros y Hy. rewrite <- Hfr by done. by apply Hnf, list_elem_of_further.
  - intros (Hr&Hnt&Hnf). assert (Hnfr : ~ free_at s0.(v_pmm) f) by (apply get_ref_not_free; [apply Hi0|done]).
    rewrite (gr_ref _ _ _ _ _ Hg) by done. split_and!; [done| |].
    + by intros [?|?]%(gr_new _ _ _ _ _ Hg).
    + intros y [->|Hy]%elem_of_cons; [rewrite Hfx; by intros ->|rewrite Hfr by done; by apply Hnf].
Qed.

Lemma mapped_effect : effect at_page k A L s0 (x :: L) s'.
Proof using All.
  assert (Hleaf : forall as' va', as' ∈ A -> user va' -> ~ at_page as' (key 4 va') ->
    leaf s'.(v_mem) as' va' = leaf s0.(v_mem) as' va').
  { intros as' va' Ha' Hu' HD. cbn [v_mem arch_vm_flush_user_page].
    rewrite (leaf_write_leaf A L s1 as_ va t), decide_False by auto. by apply (gr_leaf _ _ _ _ _ Hg). }
  constructor; try apply Hg.
  - intros as' va' Ha' Hu' HD. unfold view. rewrite Hleaf by auto.
    destruct (leaf s0.(v_mem) as' va') as [y|] eqn:E; [|done]. f_equal.
    rewrite <- (gr_entry _ _ _ _ _ Hg as' va' y) by auto. cbn [v_mem arch_vm_flush_user_page set_leaf with_mem].
    apply mwrite_ne. rewrite <- (gr_leaf _ _ _ _ _ Hg) in E by auto.
    destruct (leaf_slot s1 _ _ _ E) as (t'&Ht'&->&_). by apply (leaf_write_other A L s1 as_ va t 0 Hi1 Ha Hu Ht as').
  - intros as' va' e a Ha' Hu' HD Hv Hin.
    destruct (frame_plain s0 A L Hi0 as' va' e a Ha' Hu' Hv Hin) as (_&Hnf&Hnt).
    rewrite <- (gr_mem _ _ _ _ _ Hg) by auto. cbn [v_mem arch_vm_flush_user_page set_leaf with_mem].
    apply mwrite_ne. intros ->. by destruct (mapped_slot x eq_refl) as [?|[? _]].
  - intros as' va' e Ha' Hu' _ Hv. destruct (frame_used s0 A L Hi0 as' va' e Ha' Hu' Hv).
    cbn [v_pmm arch_vm_flush_user_page set_leaf with_mem]. by rewrite (gr_ref _ _ _ _ _ Hg).
  - intros as' va' Ha' Hu'. cbn [v_mem arch_vm_flush_user_page].
    rewrite (leaf_write_huge A L s1 as_ va t) by auto. by apply (gr_huge _ _ _ _ _ Hg).
  - apply mapped_stray.
  - intros as' va' e. cbn [v_tlb arch_vm_flush_user_page set_leaf with_mem]. rewrite (gr_tlb _ _ _ _ _ Hg).
    by case_match.
  - intros f Hal (Hr&_). cbn [v_pmm arch_vm_flush_user_page set_leaf with_mem]. apply (gr_ref _ _ _ _ _ Hg); [done|].
    apply get_ref_not_free; [apply Hi0|done].
Qed.
End mapped.

(** A page is taken, filled and mapped. *)
Lemma map_taken_ok E s A L as_ va flags pa p1 m1 :
  pt_inv s A L -> as_ ∈ A -> user va -> view s.(v_mem) as_ va = None -> huge s.(v_mem) as_ va = None ->
  pmm_alloc s.(v_pmm) 1 = (pa, p1) -> pa <> 0 -> (forall a, ~ in_frame pa a -> m1 a = s.(v_mem) a) ->
  Z.land flags PTE_ADDR_MASK = 0 -> no_tables E s.(v_pmm) 4 ->
  wp E (vmm_map_page as_ va pa flags) (fun _ s' =>
    exists L', pt_inv s' A L' /\ effect (at_page as_ va) 4 A L s L' s' /\
      view s'.(v_mem) as_ va = Some (leaf_entry pa flags) /\ x86_pte_phys (leaf_entry pa flags) = pa /\
      pmm_get_ref s'.(v_pmm) pa = 1 /\ forall a, in_frame pa a -> s'.(v_mem) a = m1 a) (with_mem (with_pmm s p1) m1).
Proof.
  intros Hi Ha Hu Hv Hhg Eal Hne Hm1 Hfl Hno.
  destruct (fresh_page s A L Hi pa p1 Eal Hne) as (Hal&Hfree&Hpa&_).
  destruct (take_ok s A L Hi pa p1 Eal Hne) as (Hi1&Hh1&Hg1&_).
  destruct (fill_ok _ A L pa m1 Hi1 Hh1 Hm1) as (Hi2&Hh2&Hg2). specialize (Hg2 _ _ _ Hg1 Hfree).
  set (s2 := with_mem _ _) in *.
  eapply wp_mono; [apply (map_page_raw E s2 A L); auto|].
  { by rewrite (gr_huge _ _ _ _ _ Hg2). }
  { eapply no_tables_grows in Hno; [|exact Hg2]. done. }
  intros _ s' (s3&t&Hg3&Hi3&Ht&->).
  pose proof (held_grows s2 A L Hi2 _ _ _ _ Hg3 Hh2) as Hh3.
  pose proof (grows_trans _ _ _ _ _ _ _ _ Hg2 Hg3) as Hg4. cbn [app] in Hg4. change (1 + 3) with 4 in Hg4.
  exists (slot t (idx 3 va) :: L). split_and!.
  - by apply (mapped_inv s s3 A L as_ va t pa flags 4).
  - by apply (mapped_effect s s3 A L as_ va t pa flags 4).
  - by apply (mapped_view s s3 A L as_ va t pa flags 4).
  - apply leaf_entry_bits; [done|lia|done].
  - apply Hh3.
  - intros a Hin. rewrite (mapped_data s s3 A L as_ va t pa flags 4) by auto.
    apply in_frame_page_down in Hin as Hp; [|done]. rewrite (gr_mem _ _ _ _ _ Hg3); [done|..]; rewrite Hp.
    + apply get_ref_not_free; [apply Hi2|]. rewrite (hd_ref _ _ _ _ Hh2). lia.
    + apply Hh2.
Qed.

(** ** Unmapping *)

Lemma phys_range e : 0 <= x86_pte_phys e < 2 ^ 52.
Proof.
  unfold x86_pte_phys. rewrite x86_mask. split; [apply Z.land_nonneg; by right|].
  replace (Z.land e (field 12 52)) with (Z.land e (field 12 52) mod 2 ^ 52); [apply Z.mod_pos_bound; lia|].
  rewrite <- Z.land_ones by lia. bitwise i. all: rewrite ?Z.testbit_ones_nonneg by lia.
  all: destruct (Z.ltb_spec i 52); lia || by rewrite ?andb_true_r.
Qed.

Lemma free_one p a : pmm_free p a 1 = pmm_free_page p (u64 a).
Proof. unfold pmm_free. change (Z.to_nat 1) with 1%nat. cbn [pmm_free_loop]. f_equal. f_equal. lia. Qed.

Lemma free_unmanaged p a : 0 <= a < 2 ^ 64 -> ~ managed p a -> pmm_free p a 1 = p.
Proof.
  intros Ha Hn. rewrite free_one, u64_small by done. unfold pmm_free_page.
  destruct (pmm_page_of p a) eqn:E; [|done]. destruct Hn. by eexists.
Qed.

Lemma free_avail p a : pmm_wf p -> avail p <= avail (pmm_free p a 1).
Proof.
  intros Hwf. rewrite free_one. generalize (u64 a). clear a. intros a.
  destruct (pmm_free_page_spec p a Hwf) as (Hwf'&Hb&Hg&Hres). unfold avail.
  rewrite Hg, (wf_used _ Hwf'), (wf_used _ Hwf), Hg. apply Z.sub_le_mono_l.
  assert (Hle : forall f g n, (forall q, 0 <= q < Z.of_nat n -> f q = true -> g q = true) -> popcnt f n <= popcnt g n).
  { intros f g n. induction n as [|n IH]; [done|]. intros Hfg. cbn [popcnt].
    assert (IH' : popcnt f n <= popcnt g n) by (apply IH; intros q Hq; apply Hfg; lia).
    assert (Hn : f (Z.of_nat n) = true -> g (Z.of_nat n) = true) by (apply Hfg; lia).
    destruct (f (Z.of_nat n)), (g (Z.of_nat n)); lia || by specialize (Hn eq_refl). }
  apply Hle. intros q Hq. pose proof (wf_pages p Hwf).
  destruct (pmm_page_of p a) as [q0|]; [|by rewrite Hres]. destruct (0 <? zget (g_rc p) q0); [|by rewrite Hres].
  destruct Hres as [_ Ht]. change (bm_test (g_bm (pmm_free_page p a)) q) with (pmm_test (pmm_free_page p a) q).
  rewrite Ht by lia. by intros [_ ?]%andb_true_iff.
Qed.

Lemma mappers_exists m (L : list Z) f : 0 < mappers m L f -> exists y, y ∈ L /\ frame m y = f.
Proof.
  induction L as [|y L IH]; [done|]. cbn [mappers]. destruct (decide (frame m y = f)) as [He|He].
  - intros _. exists y. split; [apply list_elem_of_here|done].
  - intros Hp. destruct IH as (z&?&?); [lia|]. exists z. split; [by apply list_elem_of_further|done].
Qed.

Section unmap.
Variables (s : vmst) (A L : list Z) (as_ va x : Z).
Hypotheses (Hi : pt_inv s A L) (Ha : as_ ∈ A) (Hu : user va) (Hl : leaf s.(v_mem) as_ va = Some x).
Abbreviation f := (frame s.(v_mem) x).
Abbreviation p' := (pmm_free s.(v_pmm) f 1).
Abbreviation s' := (arch_vm_flush_user_page (set_leaf (with_pmm s p') x 0) as_ va).
Abbreviation L' := (filter (fun y => y <> x) L).

Lemma unmap_slot : exists t, tab s.(v_mem) as_ va 3 = Some t /\ x = slot t (idx 3 va).
Proof using Hl. destruct (leaf_slot s _ _ _ Hl) as (t&?&?&_). eauto. Qed.


(** The allocator after the page has lost one owner. *)
Lemma unmap_refs :
  pmm_ok p' /\ g_base_pa p' = g_base_pa s.(v_pmm) /\ g_pages p' = g_pages s.(v_pmm) /\
  (forall a, aligned a -> a <> f -> pmm_get_ref p' a = pmm_get_ref s.(v_pmm) a) /\
  (x ∈ L -> pmm_get_ref p' f = pmm_get_ref s.(v_pmm) f - 1) /\
  (x ∉ L -> p' = s.(v_pmm)).
Proof using Hi Ha Hu Hl.
  destruct (decide (x ∈ L)) as [Hx|Hx].
  - pose proof (inv_ref_pos s L (pi_cow _ _ _ Hi) x Hx) as Hr.
    destruct (free_by_address s.(v_pmm) f (inv_pmm_ok s A L Hi) (frame_aligned _ x) Hr) as (Hok&Hb&Hg&Hrf&_).
    split_and!; auto; try done.
    + intros a Hal Hne. by rewrite Hrf, decide_False.
    + intros _. rewrite Hrf by apply frame_aligned. by rewrite decide_True.
  - assert (p' = s.(v_pmm)) as He.
    { apply free_unmanaged; [pose proof (phys_range (s.(v_mem) x)); unfold frame; simpl; lia|].
      intros Hm. apply Hx, (pi_leaf _ _ _ Hi). by exists as_, va. }
    rewrite He. split_and!; auto; try done. apply (inv_pmm_ok s A L Hi).
Qed.

Lemma unmap_cow : cow_inv s' L'.
Proof using Hi Ha Hu Hl.
  apply inv_flush. destruct (decide (x ∈ L)) as [Hx|Hx].
  - by destruct (drop_ok s L (pi_cow _ _ _ Hi) x Hx) as [Hc _].
  - destruct unmap_refs as (_&_&_&_&_&He). rewrite He by done. rewrite filter_ne_id by done.
    apply (inv_ext s); [apply Hi|done|]. intros y Hy. apply mwrite_ne. by intros ->.
Qed.

Lemma unmap_entry as' va' y : as' ∈ A -> user va' -> leaf s.(v_mem) as' va' = Some y ->
  ~ (as' = as_ /\ key 4 va' = key 4 va) -> y <> x.
Proof using Hi Ha Hu Hl.
  intros Ha' Hu' Hl' Hne ->. apply Hne. by apply (leaf_once s A L Hi as' va' as_ va x).
Qed.

Lemma unmap_leaf as' va' : as' ∈ A -> user va' ->
  leaf s'.(v_mem) as' va' =
    if decide (as' = as_ /\ key 4 va' = key 4 va) then None else leaf s.(v_mem) as' va'.
Proof using Hi Ha Hu Hl.
  intros Ha' Hu'. destruct unmap_slot as (t&Ht&Hx). cbn [v_mem arch_vm_flush_user_page].
  pose proof (leaf_write_leaf A L s as_ va t 0 Hi Ha Hu Ht as' va' Ha' Hu') as He. rewrite <- Hx in He. exact He.
Qed.

Lemma unmap_tab as' va' n : as' ∈ A -> user va' -> (n <= 3)%nat ->
  tab s'.(v_mem) as' va' n = tab s.(v_mem) as' va' n.
Proof using Hi Ha Hu Hl.
  intros Ha' Hu' Hn. destruct unmap_slot as (t&Ht&Hx). cbn [v_mem arch_vm_flush_user_page].
  pose proof (leaf_write_tab A L s as_ va t 0 Hi Ha Hu Ht as' va' n Ha' Hu' Hn) as He. rewrite <- Hx in He. exact He.
Qed.

Lemma unmap_table t : is_table s'.(v_mem) A t <-> is_table s.(v_mem) A t.
Proof using Hi Ha Hu Hl.
  split; intros (as'&va'&n&?&?&?&?); exists as', va', n; [rewrite <- unmap_tab|rewrite unmap_tab]; auto.
Qed.

Lemma unmap_huge as' va' : as' ∈ A -> user va' -> huge s'.(v_mem) as' va' = huge s.(v_mem) as' va'.
Proof using Hi Ha Hu Hl.
  intros Ha' Hu'. destruct unmap_slot as (t&Ht&Hx). cbn [v_mem arch_vm_flush_user_page].
  pose proof (leaf_write_huge A L s as_ va t 0 Hi Ha Hu Ht as' va' Ha' Hu') as He. rewrite <- Hx in He. exact He.
Qed.

Lemma unmap_frame y : y <> x -> frame s'.(v_mem) y = frame s.(v_mem) y.
Proof using. intros Hy. unfold frame. cbn. by rewrite mwrite_ne. Qed.

(** No table is the page that goes. *)
Lemma unmap_not_table t : is_table s.(v_mem) A t -> t <> f.
Proof using Hi Ha Hu Hl.
  intros Ht ->. assert (Hv : view s.(v_mem) as_ va = Some (s.(v_mem) x)) by (unfold view; by rewrite Hl).
  destruct (frame_plain s A L Hi as_ va _ f Ha Hu Hv) as (He&_&Hn).
  - unfold in_frame, frame, PAGE_SIZE. simpl. lia.
  - apply Hn. by rewrite He.
Qed.

Lemma unmap_inv : pt_inv s' A L'.
Proof using Hi Ha Hu Hl.
  destruct unmap_refs as (_&Hb&Hg&Hr&_). constructor.
  - apply unmap_cow.
  - intros t Ht%unmap_table. destruct (pi_tab _ _ _ Hi t Ht) as [Hal H1]. split; [done|].
    transitivity (pmm_get_ref s.(v_pmm) t); [|done]. apply Hr; [done|by apply unmap_not_table].
  - intros as1 va1 n1 as2 va2 n2 t Ha1 Ha2 Hu1 Hu2 Hn1 Hn2. rewrite !unmap_tab by auto. by apply (pi_inj _ _ _ Hi).
  - intros y. rewrite list_elem_of_filter, (pi_leaf _ _ _ Hi). unfold managed. split.
    + intros (Hy&as'&va'&Ha'&Hu'&Hl'&Hm). exists as', va'. rewrite unmap_leaf, decide_False, unmap_frame by
        (auto; intros [-> Hk]; rewrite (leaf_key _ _ va' va Hk) in Hl'; congruence).
      split_and!; auto. cbn [v_pmm arch_vm_flush_user_page set_leaf with_mem with_pmm]. by rewrite (page_of_range s.(v_pmm) p').
    + intros (as'&va'&Ha'&Hu'&Hl'&Hm). rewrite unmap_leaf in Hl' by auto. case_decide as Hd; [done|].
      pose proof (unmap_entry as' va' y Ha' Hu' Hl' Hd) as Hy. split; [done|]. exists as', va'. split_and!; auto.
      rewrite unmap_frame in Hm by done.
      cbn [v_pmm arch_vm_flush_user_page set_leaf with_mem with_pmm] in Hm. by rewrite (page_of_range s.(v_pmm) p') in Hm.
  - intros y [Hy Hyl]%list_elem_of_filter. rewrite unmap_table, unmap_frame by done. by apply (pi_frame _ _ _ Hi).
  - intros as' va' y Ha' Hu'. rewrite unmap_leaf by auto. case_decide as Hd; [done|]. intros Hl'.
    rewrite unmap_frame by (by apply (unmap_entry as' va')). by apply (pi_null _ _ _ Hi as' va').
  - intros as' va' e Ha' Hu'. rewrite unmap_huge by auto. by apply (pi_huge _ _ _ Hi).
Qed.

Lemma unmap_view : view s'.(v_mem) as_ va = None.
Proof using Hi Ha Hu Hl. unfold view. by rewrite unmap_leaf, decide_True by auto. Qed.

(** A page without its leaf [x]: it has no owner left, or other leaves. *)
Lemma unmap_last : 0 < pmm_get_ref p' f -> exists y, y ∈ L' /\ frame s.(v_mem) y = f.
Proof using Hi Ha Hu Hl.
  intros Hr. destruct unmap_refs as (_&_&_&_&Hin&Hout). destruct (decide (x ∈ L)) as [Hx|Hx].
  - rewrite Hin in Hr by done. rewrite (ci_count _ _ (pi_cow _ _ _ Hi) x Hx) in Hr.
    apply mappers_exists. rewrite mappers_drop, decide_True by (done || apply Hi). lia.
  - rewrite Hout in Hr by done. destruct Hx. apply (pi_leaf _ _ _ Hi). exists as_, va. split_and!; auto.
    unfold pmm_get_ref in Hr. unfold managed. destruct (pmm_page_of s.(v_pmm) f); [by eexists|done].
Qed.

Lemma unmap_stray g : aligned g -> stray s' A L' g <-> stray s A L g.
Proof using Hi Ha Hu Hl.
  intros Hal. unfold stray. rewrite unmap_table. destruct unmap_refs as (_&_&_&Hr&Hin&Hout).
  cbn [v_pmm arch_vm_flush_user_page set_leaf with_mem with_pmm].
  destruct (decide (g = f)) as [->|Hne].
  - split.
    + intros (Hp&_&Hn). destruct (unmap_last Hp) as (y&Hy&He). exfalso. apply (Hn y Hy).
      rewrite unmap_frame; [done|]. by apply list_elem_of_filter in Hy as [? _].
    + intros (Hp&_&Hn). exfalso. destruct (decide (x ∈ L)) as [Hx|Hx]; [by apply (Hn x)|].
      destruct unmap_last as (y&Hy&He); [by rewrite Hout|]. apply (Hn y); [|done].
      by apply list_elem_of_filter in Hy as [_ ?].
  - rewrite Hr by done. split; intros (Hp&Ht&Hn); split_and!; auto; intros y Hy.
    + destruct (decide (y = x)) as [->|Hyx]; [congruence|]. rewrite <- unmap_frame by done.
      apply Hn, list_elem_of_filter. done.
    + apply list_elem_of_filter in Hy as [Hyx Hy]. rewrite unmap_frame by done. by apply Hn.
Qed.

Lemma unmap_effect : effect (at_page as_ va) 0 A L s L' s'.
Proof using Hi Ha Hu Hl.
  destruct unmap_refs as (_&Hb&Hg&Hr&Hr1&Hr2). constructor; auto.
  - intros as' va' Ha' Hu' HD. unfold view. rewrite unmap_leaf, decide_False by auto.
    destruct (leaf s.(v_mem) as' va') as [y|] eqn:E; [|done]. f_equal. apply mwrite_ne.
    by apply (unmap_entry as' va').
  - intros as' va' e a Ha' Hu' HD Hv Hin. apply mwrite_ne. intros ->.
    destruct (frame_plain s A L Hi as' va' e x Ha' Hu' Hv Hin) as (_&_&Hn). apply Hn.
    by apply (leaf_page s A L Hi as_ va).
  - intros as' va' e Ha' Hu' _ Hv. destruct (frame_used s A L Hi as' va' e Ha' Hu' Hv) as [_ Hal].
    cbn [v_pmm arch_vm_flush_user_page set_leaf with_mem with_pmm].
    destruct (decide (x86_pte_phys e = f)) as [->|]; [|by rewrite Hr].
    destruct (decide (x ∈ L)); [rewrite Hr1 by done; lia|by rewrite Hr2].
  - apply unmap_huge.
  - apply unmap_stray.
  - intros as' va' e. cbn. by case_match.
  - rewrite Z.sub_0_r. apply free_avail, (inv_pmm_ok s A L Hi).
  - intros g Hal (Hp&_&Hn). cbn [v_pmm arch_vm_flush_user_page set_leaf with_mem with_pmm].
    destruct (decide (g = f)) as [->|]; [|by rewrite Hr]. rewrite Hr2; [done|]. intros Hx. by apply (Hn x).
Qed.
End unmap.

Lemma page_down_frame e off : 0 <= off < PAGE_SIZE -> page_down (x86_pte_phys e + off) = x86_pte_phys e.
Proof. intros. apply in_frame_page_down; [apply addr_aligned|unfold in_frame; lia]. Qed.

(** [mmap_drop_page]: afterwards the page is not mapped, unless it lies in a
    2 MiB page, which stays. *)
Lemma drop_page_ok s A L as_ va :
  pt_inv s A L -> as_ ∈ A -> user va -> 0 <= va ->
  wp nopanic (mmap_drop_page as_ va) (fun _ s' =>
    exists L', pt_inv s' A L' /\ effect (at_page as_ va) 0 A L s L' s' /\ view s'.(v_mem) as_ va = None) s.
Proof.
  intros Hi Ha Hu Hva. unfold mmap_drop_page, free_pages. wp_steps.
  pose proof (get_phys_eq s.(v_mem) as_ va) as Hph.
  pose proof (get_phys_none s A L Hi as_ va Ha Hu Hva) as Hnone.
  destruct (leaf s.(v_mem) as_ va) as [x|] eqn:El.
  - destruct (leaf_slot s _ _ _ El) as (t&Ht&Hx&Hpr).
    assert (Hhg : huge s.(v_mem) as_ va = None) by (by apply (tab_no_huge _ _ _ t)).
    assert (Hun : x86_vm_unmap_page s as_ va = arch_vm_flush_user_page (set_leaf s x 0) as_ va).
    { unfold x86_vm_unmap_page. apply leaf_pte in El as [-> ->]. done. }
    assert (Hv : view s.(v_mem) as_ va = Some (s.(v_mem) x)) by (unfold view; by rewrite El).
    pose proof (unmap_view s A L as_ va x Hi Ha Hu El) as Hv'.
    pose proof (unmap_huge s A L as_ va x Hi Ha Hu El as_ va Ha Hu) as Hh'. rewrite Hhg in Hh'.
    cbn [v_mem arch_vm_flush_user_page set_leaf with_mem with_pmm] in Hv', Hh'.
    rewrite Hun. cbn [v_mem arch_vm_flush_user_page set_leaf with_mem].
    rewrite (get_phys_eq (mwrite _ _ _)), Hv', Hh'. rewrite Hhg, Hv in *.
    pose proof (Z.mod_pos_bound va PAGE_SIZE ltac:(done)).
    destruct (Z.eqb_spec (vmm_get_phys s.(v_mem) as_ va) 0) as [H0|_].
    { apply Hnone in H0 as [_ ?]. done. }
    cbn [negb andb Z.eqb]. wp_steps. rewrite Hph, page_down_frame by done.
    exists (filter (fun y => y <> x) L). split_and!.
    + apply (unmap_inv s A L as_ va x Hi Ha Hu El).
    + apply (unmap_effect s A L as_ va x Hi Ha Hu El).
    + exact Hv'.
  - assert (Hv : view s.(v_mem) as_ va = None) by (unfold view; by rewrite El).
    assert (Hun : x86_vm_unmap_page s as_ va = s).
    { unfold x86_vm_unmap_page. destruct (x86_user_pte s.(v_mem) as_ va) as [pte|] eqn:Ep; [|done].
      destruct (has (s.(v_mem) pte) PTE_PRESENT) eqn:Epr; [|done].
      assert (leaf s.(v_mem) as_ va = Some pte) by (by apply leaf_pte). congruence. }
    rewrite Hun. assert (negb (vmm_get_phys s.(v_mem) as_ va =? 0) && (vmm_get_phys s.(v_mem) as_ va =? 0) = false) as ->
      by (by destruct (_ =? _)).
    wp_steps. exists L. split_and!; auto. apply effect_refl.
Qed.

(** ** Other flags for a page *)
Section reflag.
Variables (s s' : vmst) (A L : list Z) (as_ va x e : Z).
Hypotheses (Hi : pt_inv s A L) (Ha : as_ ∈ A) (Hu : user va) (Hl : leaf s.(v_mem) as_ va = Some x).
Hypotheses (Hp : s'.(v_pmm) = s.(v_pmm)) (Hm : forall a, a <> x -> s'.(v_mem) a = s.(v_mem) a) (He : s'.(v_mem) x = e).
Hypotheses (Hph : x86_pte_phys e = frame s.(v_mem) x) (Hpr : has e PTE_PRESENT = true).
Hypothesis Hw : x86_pte_writable e = true -> pmm_get_ref s.(v_pmm) (frame s.(v_mem) x) <= 1.

Lemma reflag_at a : s'.(v_mem) a = mwrite s.(v_mem) x e a.
Proof using Hm He. unfold mwrite. destruct (Z.eqb_spec a x) as [->|]; auto. Qed.

Lemma reflag_tab as' va' n : as' ∈ A -> user va' -> (n <= 3)%nat ->
  tab s'.(v_mem) as' va' n = tab s.(v_mem) as' va' n.
Proof using Hi Ha Hu Hl Hm He.
  intros Ha' Hu' Hn. destruct (leaf_slot s _ _ _ Hl) as (t&Ht&Hx&_).
  rewrite <- (leaf_write_tab A L s as_ va t e Hi Ha Hu Ht as' va' n) by auto. rewrite <- Hx.
  apply tab_agree. intros k u _ _. by rewrite reflag_at.
Qed.

Lemma reflag_leaf as' va' : as' ∈ A -> user va' -> leaf s'.(v_mem) as' va' = leaf s.(v_mem) as' va'.
Proof using Hi Ha Hu Hl Hm He Hpr.
  intros Ha' Hu'. unfold leaf. rewrite reflag_tab by auto.
  destruct (tab s.(v_mem) as' va' 3) as [t|] eqn:E; [|done]. cbv zeta.
  destruct (decide (slot t (idx 3 va') = x)) as [->|Hne]; [|by rewrite Hm].
  rewrite He, Hpr. by destruct (leaf_slot s _ _ _ Hl) as (_&_&_&->).
Qed.

Lemma reflag_table t : is_table s'.(v_mem) A t <-> is_table s.(v_mem) A t.
Proof using Hi Ha Hu Hl Hm He.
  split; intros (as'&va'&n&?&?&?&?); exists as', va', n; [rewrite <- reflag_tab|rewrite reflag_tab]; auto.
Qed.

Lemma reflag_frame y : frame s'.(v_mem) y = frame s.(v_mem) y.
Proof using Hm He Hph.
  unfold frame. destruct (decide (y = x)) as [->|]; [by rewrite He|by rewrite Hm].
Qed.

Lemma reflag_huge as' va' : as' ∈ A -> user va' -> huge s'.(v_mem) as' va' = huge s.(v_mem) as' va'.
Proof using Hi Ha Hu Hl Hm He.
  intros Ha' Hu'. destruct (leaf_slot s _ _ _ Hl) as (t&Ht&Hx&_). unfold huge. rewrite reflag_tab by auto.
  destruct (tab s.(v_mem) as' va' 2) as [t'|] eqn:E; [|done]. rewrite Hm; [done|]. rewrite Hx. intros Hs.
  destruct (slot_once s A L Hi as' va' 2 t' as_ va 3 t) as (_&?&_); auto; lia.
Qed.

Lemma reflag_inv : pt_inv s' A L.
Proof using All.
  constructor.
  - destruct (decide (x ∈ L)) as [Hx|Hx].
    + destruct (leaf_replace_ok s L x e (pi_cow _ _ _ Hi) Hx Hph) as [Hc _].
      { intros Hwr. specialize (Hw Hwr). pose proof (inv_ref_pos s L (pi_cow _ _ _ Hi) x Hx). lia. }
      apply (inv_ext (set_leaf s x e)); [done|done|]. intros y _. apply reflag_at.
    + apply (inv_ext s); [apply Hi|done|]. intros y Hy. apply Hm. by intros ->.
  - intros t Ht%reflag_table. rewrite Hp. by apply (pi_tab _ _ _ Hi).
  - intros as1 va1 n1 as2 va2 n2 t Ha1 Ha2 Hu1 Hu2 Hn1 Hn2. rewrite !reflag_tab by auto. by apply (pi_inj _ _ _ Hi).
  - intros y. rewrite (pi_leaf _ _ _ Hi), Hp. split; intros (as'&va'&Ha'&Hu'&Hl'&Hm'); exists as', va';
      [rewrite reflag_leaf, reflag_frame|rewrite reflag_leaf in Hl'; rewrite ?reflag_frame in Hm'|..]; auto.
  - intros y Hy. rewrite reflag_table, reflag_frame. by apply (pi_frame _ _ _ Hi).
  - intros as' va' y Ha' Hu'. rewrite reflag_leaf, reflag_frame by auto. by apply (pi_null _ _ _ Hi).
  - intros as' va' e' Ha' Hu'. rewrite reflag_huge by auto. by apply (pi_huge _ _ _ Hi).
Qed.

Lemma reflag_data as' va' e' a : as' ∈ A -> user va' -> view s.(v_mem) as' va' = Some e' ->
  in_frame (x86_pte_phys e') a -> s'.(v_mem) a = s.(v_mem) a.
Proof using Hi Ha Hu Hl Hm.
  intros Ha' Hu' Hv Hin. apply Hm. intros ->.
  destruct (frame_plain s A L Hi as' va' e' x Ha' Hu' Hv Hin) as (_&_&Hn). apply Hn. by apply (leaf_page s A L Hi as_ va).
Qed.

Lemma reflag_effect :
  (forall as' va' e', s'.(v_tlb) as' va' = Some e' -> s.(v_tlb) as' va' = Some e') ->
  effect (at_page as_ va) 0 A L s L s' /\ view s'.(v_mem) as_ va = Some e.
Proof using All.
  intros Htlb. split.
  - constructor; rewrite ?Hp; auto; [| | | | |lia].
    + intros as' va' Ha' Hu' HD. unfold view. rewrite reflag_leaf by auto.
      destruct (leaf s.(v_mem) as' va') as [y|] eqn:E; [|done]. f_equal. apply Hm. intros ->. apply HD.
      by apply (leaf_once s A L Hi as' va' as_ va x).
    + intros as' va' e' a Ha' Hu' _. by apply reflag_data.
    + done.
    + apply reflag_huge.
    + intros f _. unfold stray. rewrite reflag_table, Hp. by setoid_rewrite reflag_frame.
  - unfold view. rewrite reflag_leaf, Hl by auto. by f_equal.
Qed.
End reflag.

(** [vm_cow_protect_page] on a page of the process. *)
Lemma protect_ok s A L as_ va x w ex :
  pt_inv s A L -> as_ ∈ A -> user va -> leaf s.(v_mem) as_ va = Some x -> has (s.(v_mem) x) PTE_USER = true ->
  let s' := vm_cow_protect_page s as_ va w ex in
  pt_inv s' A L /\ effect (at_page as_ va) 0 A L s L s' /\
  view s'.(v_mem) as_ va = Some (protected_entry s x w ex) /\
  (forall as' va' e a, as' ∈ A -> user va' -> view s.(v_mem) as' va' = Some e ->
     in_frame (x86_pte_phys e) a -> s'.(v_mem) a = s.(v_mem) a).
Proof.
  intros Hi Ha Hu Hl Hus s'. destruct (leaf_slot s _ _ _ Hl) as (t&Ht&Hx&Hpr).
  pose proof Hl as Hpte. apply leaf_pte in Hpte as [Hpte _].
  assert (Hleaf : x86_vm_user_leaf s.(v_mem) as_ va = Some (x, 1)).
  { rewrite (x86_user_leaf_pte _ _ _ x Hpte). by rewrite Hpr, Hus. }
  assert (Hpath : x ∉ x86_path s.(v_mem) as_ va).
  { assert (Hup : forall n u, (n <= 2)%nat -> tab s.(v_mem) as_ va n = Some u -> x <> slot u (idx n va)).
    { intros n u Hn Hu' He. rewrite Hx in He.
      destruct (slot_once s A L Hi as_ va 3 t as_ va n u) as (_&?&_); auto; lia. }
    destruct (tab_prefix _ _ _ 2 3 _ Ht ltac:(lia)) as (t2&Ht2).
    destruct (tab_prefix _ _ _ 1 2 _ Ht2 ltac:(lia)) as (t1&Ht1).
    pose proof (Hup 0%nat as_ ltac:(lia) eq_refl) as H0. pose proof (Hup 1%nat t1 ltac:(lia) Ht1) as H1.
    pose proof (Hup 2%nat t2 ltac:(lia) Ht2) as H2. cbn [tab] in Ht1, Ht2. rewrite Ht1 in Ht2.
    unfold child in Ht1, Ht2. cbn [Nat.eqb andb negb] in Ht1, Ht2. rewrite andb_true_r in Ht1, Ht2.
    repeat case_match; simplify_eq. unfold x86_path. rewrite !elem_of_cons. cbn [idx] in *.
    intros [?|[?|[?|?%not_elem_of_nil]]]; done. }
  destruct (x86_protect_eq s as_ va x w ex Hleaf Hpath) as (Hp&Hm&Hme&Htlb).
  fold s' in Hp, Hm, Hme, Htlb.
  destruct (protected_entry_spec s x w ex) as (Hph&Hwr&_&_&Hpr'&_).
  assert (Hw : x86_pte_writable (protected_entry s x w ex) = true -> pmm_get_ref s.(v_pmm) (frame s.(v_mem) x) <= 1).
  { rewrite Hwr. intros [-> Hn%negb_true_iff]%andb_true_iff. cbn [andb] in Hn.
    apply orb_false_iff in Hn as [_ Hn%Z.ltb_ge]. exact Hn. }
  rewrite Hpr in Hpr'. split; [by apply (reflag_inv s s' A L as_ va x (protected_entry s x w ex))|].
  apply and_assoc. split; [by apply (reflag_effect s s' A L as_ va x)|].
  by apply (reflag_data s s' A L as_ va x).
Qed.

(** ** Dropping cached translations *)

Lemma reload_inv c s A L : pt_inv s A L -> pt_inv (reload_cr3 c s) A L.
Proof. intros [[] ? ? ? ? ? ?]. by repeat (constructor; auto). Qed.

Lemma reload_effect D k A L s0 L' s c :
  effect D k A L s0 L' s -> effect D k A L s0 L' (reload_cr3 c s).
Proof.
  intros []. constructor; auto. intros as_ va e. cbn. by case_match; [|auto].
Qed.
