(* ===== verification/PtSpace.v ===== *)
(** * New address spaces, user stores and write faults *)
From S2P Require Import Prelude State Pmm Pte VmCow Vmm PtWalk PtInv PtGrow PtMap Mmap PtOps.

(** ** A top table with nothing in the user half *)
Section root.
Variables (s : vmst) (A L : list Z) (pa : Z).
Hypotheses (Hi : pt_inv s A L) (Hh : held s A L pa).
Hypothesis Hz : forall i, 0 <= i < 256 -> s.(v_mem) (slot pa i) = 0.

Lemma root_tab va n t : user va -> tab s.(v_mem) pa va n = Some t -> n = 0%nat /\ t = pa.
Proof using Hz.
  intros Hu. destruct n as [|n]; [by intros [= <-]|]. intros Ht.
  destruct (tab_prefix _ _ _ 1 _ _ Ht ltac:(lia)) as (u&Hu1). cbn [tab] in Hu1.
  rewrite Hz in Hu1; [done|]. pose proof (idx_range 0 va). unfold user in Hu. cbn [idx] in *. lia.
Qed.

Lemma root_fresh : pa ∉ A.
Proof using Hh.
  intros Ha. apply (hd_table _ _ _ _ Hh). exists pa, 0, 0%nat. split_and!; auto.
  by apply user_low.
Qed.

Lemma root_table t : is_table s.(v_mem) (pa :: A) t <-> is_table s.(v_mem) A t \/ t = pa.
Proof using Hz.
  split.
  - intros (as_&va&n&[->|Ha]%elem_of_cons&Hu&Hn&Ht); [right; by apply root_tab in Ht as [_ ?]|left]. by exists as_, va, n.
  - intros [(as_&va&n&Ha&Hu&Hn&Ht)| ->].
    + exists as_, va, n. split_and!; auto. by apply list_elem_of_further.
    + exists pa, 0, 0%nat. split_and!; [apply list_elem_of_here|by apply user_low|lia|done].
Qed.

Lemma root_leaf va : user va -> leaf s.(v_mem) pa va = None.
Proof using Hz.
  intros Hu. unfold leaf. destruct (tab s.(v_mem) pa va 3) as [t|] eqn:E; [|done].
  by apply root_tab in E as [? _].
Qed.

Lemma root_inv : pt_inv s (pa :: A) L.
Proof using All.
  constructor.
  - apply Hi.
  - intros t [Ht| ->]%root_table; [by apply (pi_tab _ _ _ Hi)|split; apply Hh].
  - intros as_ va n as' va' n' t Ha Ha' Hu Hu' Hn Hn' Ht Ht'.
    apply elem_of_cons in Ha as [->|Ha], Ha' as [->|Ha'].
    + apply root_tab in Ht as [-> _]; [|done]. by apply root_tab in Ht' as [-> _].
    + apply root_tab in Ht as [-> ->]; [|done]. destruct (hd_table _ _ _ _ Hh). by exists as', va', n'.
    + apply root_tab in Ht' as [-> ->]; [|done]. destruct (hd_table _ _ _ _ Hh). by exists as_, va, n.
    + by apply (pi_inj _ _ _ Hi as_ va n as' va' n' t).
  - intros x. rewrite (pi_leaf _ _ _ Hi). split; intros (as_&va&Ha&Hu&Hl&Hm); exists as_, va; split_and!; auto.
    + by apply list_elem_of_further.
    + apply elem_of_cons in Ha as [->|]; [|done]. by rewrite root_leaf in Hl.
  - intros x Hx [Ht|He]%root_table; [by apply (pi_frame _ _ _ Hi x)|]. by apply (hd_frame _ _ _ _ Hh x).
  - intros as_ va x [->|Ha]%elem_of_cons Hu Hl; [by rewrite root_leaf in Hl|]. by apply (pi_null _ _ _ Hi as_ va).
  - intros as_ va e [->|Ha]%elem_of_cons Hu Hl; [|by apply (pi_huge _ _ _ Hi as_ va)].
    unfold huge in Hl. destruct (tab s.(v_mem) pa va 2) as [t|] eqn:E; [|done]. by apply root_tab in E as [? _].
Qed.

Lemma root_settles g : stray s (pa :: A) L g <-> stray s A L g /\ g <> pa.
Proof using Hz. unfold stray. rewrite root_table. tauto. Qed.

(** From a state in which the page was free. *)
Lemma root_no_stray k s0 g : pt_inv s0 A L -> grows k [pa] A s0 s -> free_at s0.(v_pmm) pa -> aligned g ->
  stray s (pa :: A) L g <-> stray s0 A L g.
Proof using Hh Hz.
  intros Hi0 Hg Hf Hal. rewrite root_settles, (taken_stray s0 s A L k pa g) by auto.
  split; [tauto|]. intros Hs. split; [by left|]. intros ->. destruct Hs as (Hr&_).
  by apply (get_ref_not_free _ _ (inv_pmm_ok s0 A L Hi0)) in Hr.
Qed.
End root.

(** ** [arch_vm_create_user_address_space] *)

(** The invariant over fewer spaces and no leaves. *)
Lemma no_spaces s : cow_inv s [] -> pt_inv s [] [].
Proof.
  intros Hc. constructor; auto.
  - by intros t (as_&va&n&?%not_elem_of_nil&_).
  - by intros as_ va n as' va' n' t ?%not_elem_of_nil.
  - intros x. split; [by intros ?%not_elem_of_nil|]. by intros (as_&va&?%not_elem_of_nil&_).
  - by intros x ?%not_elem_of_nil.
  - by intros as_ va x ?%not_elem_of_nil.
  - by intros as_ va x ?%not_elem_of_nil.
Qed.

(** A write into a page that is held changes no mapping. *)
Lemma held_store_ok s A L pa a v :
  pt_inv s A L -> held s A L pa -> in_frame pa a ->
  let s' := set_leaf s a v in
  pt_inv s' A L /\ held s' A L pa /\
  (forall k H s0, grows k H A s0 s -> free_at s0.(v_pmm) pa -> grows k H A s0 s').
Proof.
  intros Hi Hh Ha. apply (fill_ok s A L pa (mwrite s.(v_mem) a v) Hi Hh). intros b Hb.
  apply mwrite_ne. by intros ->.
Qed.

Definition create_space_post (A L : list Z) (s0 : vmst) (r : Z) (s : vmst) : Prop :=
  r = 0 /\ pt_inv s A L /\ grows 0 [] A s0 s /\ avail s0.(v_pmm) = 0 \/
  r <> 0 /\ (r ∉ A) /\ pt_inv s (r :: A) L /\ grows 1 [r] A s0 s /\
  (forall f, aligned f -> stray s (r :: A) L f <-> stray s0 A L f) /\
  forall va, user va -> view s.(v_mem) r va = None /\ huge s.(v_mem) r va = None.

Lemma create_space_ok kernel_pml4 s A L :
  pt_inv s A L ->
  wp nopanic (arch_vm_create_user_address_space kernel_pml4) (create_space_post A L s) s.
Proof.
  intros Hi. unfold arch_vm_create_user_address_space, load, store. wp_steps. apply wp_alloc.
  { intros p1 Eal. destruct (alloc_fail_ok s A L Hi p1 Eal) as (Hi1&Hg1&_&Hav&_). rewrite Z.eqb_refl. wp_steps.
    left. by split_and!. }
  intros pa p1 Eal Hne. apply Z.eqb_neq in Hne as Hb. rewrite Hb. wp_steps.
  destruct (take_ok s A L Hi pa p1 Eal Hne) as (Hi1&Hh1&Hg1&Hf1).
  eapply wp_mono; [apply (wp_for nopanic (fun j s' => pt_inv s' A L /\ held s' A L pa /\ grows 1 [pa] A s s' /\
    forall i, 0 <= i < j -> i < 256 -> s'.(v_mem) (slot pa i) = 0))|].
  - split_and!; auto. lia.
  - intros j s1 Hj (Hi2&Hh2&Hg2&Hz2). wp_steps.
    destruct (held_store_ok s1 A L pa (slot pa j) (if 256 <=? j then s1.(v_mem) (slot kernel_pml4 j) else 0) Hi2 Hh2)
      as (Hi3&Hh3&Hg3); [apply slot_in; lia|]. split_and!; auto. intros i Hij Hlt. cbn [v_mem set_leaf with_mem].
    destruct (decide (i = j)) as [->|Hne'].
    + rewrite mwrite_eq. by destruct (Z.leb_spec 256 j); [lia|].
    + rewrite mwrite_ne; [apply Hz2; lia|]. unfold slot. lia.
  - intros _ s2 (Hi2&Hh2&Hg2&Hz2). wp_steps.
    assert (Hz : forall i, 0 <= i < 256 -> s2.(v_mem) (slot pa i) = 0) by (intros i Hlt; apply Hz2; lia).
    right. split_and!; auto.
    + by apply (root_fresh s2 A L).
    + by apply root_inv.
    + intros f Hf. by apply (root_no_stray s2 A L pa Hh2 Hz 1).
    + intros va Hu. unfold view, huge. rewrite (root_leaf s2 pa Hz va Hu). split; [done|].
      destruct (tab s2.(v_mem) pa va 2) as [t|] eqn:E; [|done]. by apply (root_tab s2 pa Hz) in E as [? _].
Qed.

(** ** User stores *)

Lemma user_store_ok s A L as_ va e off v :
  pt_inv s A L -> as_ ∈ A -> user va -> view s.(v_mem) as_ va = Some e -> 0 <= off < PAGE_SIZE ->
  pt_inv (with_mem s (mwrite s.(v_mem) (x86_pte_phys e + off) v)) A L.
Proof.
  intros Hi Ha Hu Hv Ho. set (a := x86_pte_phys e + off).
  destruct (frame_plain s A L Hi as_ va e a Ha Hu Hv) as (_&_&Hnt); [unfold a, in_frame; lia|].
  assert (Hm : forall as' va' n t, as' ∈ A -> user va' -> (n <= 3)%nat -> tab s.(v_mem) as' va' n = Some t ->
    mwrite s.(v_mem) a v (slot t (idx n va')) = s.(v_mem) (slot t (idx n va'))).
  { intros as' va' n t Ha' Hu' Hn Ht. apply mwrite_ne. intros He. apply Hnt. rewrite <- He.
    rewrite (table_slot s A L Hi as' va' n) by auto. by exists as', va', n. }
  assert (Htab : forall as' va' k, as' ∈ A -> user va' -> (k <= 3)%nat ->
    tab (mwrite s.(v_mem) a v) as' va' k = tab s.(v_mem) as' va' k).
  { intros as' va' k Ha' Hu' Hk. apply tab_agree. intros j t Hj Ht. f_equal. apply (Hm as'); auto; lia. }
  apply (inv_same s A L Hi); auto.
  - intros as' va' t Ha' Hu' Ht. by apply (Hm as').
  - intros as' va' Ha' Hu'. cbn [v_mem with_mem]. unfold huge. rewrite Htab by auto.
    destruct (tab s.(v_mem) as' va' 2) as [t|] eqn:E; [|done]. by rewrite (Hm as' va' 2%nat t) by auto.
Qed.
