(* ===== verification/PtCopy.v ===== *)
(** * Copying an address space: the state on the way

    [copied T C D s]: the tree of [r] is a partial copy of the tree of [par]
    as it was in [s0].  [T] are the tables of [par] that have a copy, [D] the
    leaves of [par] that were shared and [C] the leaves of [r] for them.  A
    page of [par] is either not copied yet, and then nothing about it has
    changed, or both spaces show the entry a fork leaves behind. *)
From S2P Require Import Prelude State Pmm Pte VmCow Vmm PtWalk PtInv PtGrow PtMap Mmap PtOps PtSpace.

(** The entry of a page after a fork. *)
Definition shared_entry (p : pmm) (e : Z) : Z :=
  if (0 <? pmm_get_ref p (x86_pte_phys e)) && x86_pte_writable e then x86_pte_mkcow e else e.

(** The entry of the 2 MiB page that the processor would use. *)
Definition huge_page (m : memory) (as_ va : Z) : option Z :=
  match huge m as_ va with
  | Some e => if has e PTE_PRESENT then Some e else None
  | None => None
  end.

Lemma mappers_sub m (D L : list Z) f :
  NoDup D -> NoDup L -> (forall d, d ∈ D -> d ∈ L) -> mappers m D f <= mappers m L f.
Proof.
  revert L. induction D as [|d D IH]; intros L HD HL Hsub; [apply mappers_nonneg|].
  apply NoDup_cons in HD as [Hd HD]. cbn [mappers].
  pose proof (mappers_drop m L d f HL (Hsub d (list_elem_of_here _ _))) as Hdrop.
  assert (mappers m D f <= mappers m (filter (fun x => x <> d) L) f); [|lia].
  apply IH; auto using NoDup_filter. intros y Hy. apply list_elem_of_filter. split; [by intros ->|].
  apply Hsub. by apply list_elem_of_further.
Qed.

Section copy.
Variables (s0 : vmst) (A L0 : list Z) (par r : Z).
Hypotheses (Hi0 : pt_inv s0 A L0) (Hpar : par ∈ A) (Hr : r ∉ A).

(** Page [va] of the two spaces after the fork. *)
Definition complete (s : vmst) (va : Z) : Prop :=
  view s.(v_mem) r va = shared_entry s0.(v_pmm) <$> view s0.(v_mem) par va /\
  view s.(v_mem) par va = shared_entry s0.(v_pmm) <$> view s0.(v_mem) par va /\
  huge_page s.(v_mem) r va = huge_page s0.(v_mem) par va.

Record copied (T C D : list Z) (s : vmst) : Prop := {
  cp_inv : pt_inv s (r :: A) (C ++ L0);
  cp_base : s.(v_pmm).(g_base_pa) = s0.(v_pmm).(g_base_pa);
  cp_pages : s.(v_pmm).(g_pages) = s0.(v_pmm).(g_pages);
  cp_tab : forall as_ va n, as_ ∈ A -> user va -> (n <= 3)%nat ->
    tab s.(v_mem) as_ va n = tab s0.(v_mem) as_ va n;
  cp_fresh : forall va n t, user va -> (n <= 3)%nat -> tab s.(v_mem) r va n = Some t -> free_at s0.(v_pmm) t;
  cp_other : forall as_ va, as_ ∈ A -> as_ <> par -> user va ->
    view s.(v_mem) as_ va = view s0.(v_mem) as_ va;
  cp_view : forall va, user va ->
    view s.(v_mem) r va = None /\ view s.(v_mem) par va = view s0.(v_mem) par va \/
    view s.(v_mem) r va = shared_entry s0.(v_pmm) <$> view s0.(v_mem) par va /\
    view s.(v_mem) par va = shared_entry s0.(v_pmm) <$> view s0.(v_mem) par va;
  cp_huge : forall as_ va, as_ ∈ A -> user va -> huge s.(v_mem) as_ va = huge s0.(v_mem) as_ va;
  cp_child_huge : forall va, user va ->
    huge s.(v_mem) r va = None \/ huge s.(v_mem) r va = huge_page s0.(v_mem) par va;
  cp_mem : forall a, ~ free_at s0.(v_pmm) (page_down a) -> ~ is_table s0.(v_mem) A (page_down a) ->
    s.(v_mem) a = s0.(v_mem) a;
  cp_free : forall f, free_at s.(v_pmm) f -> free_at s0.(v_pmm) f;
  cp_tlb : s.(v_tlb) = s0.(v_tlb);
  cp_tables : NoDup T /\ forall t, t ∈ T -> exists va n, user va /\ (n <= 3)%nat /\
    tab s0.(v_mem) par va n = Some t /\ is_Some (tab s.(v_mem) r va n);
  cp_avail : avail s.(v_pmm) = avail s0.(v_pmm) - Z.of_nat (length T);
  cp_leaves : NoDup D /\ forall d, d ∈ D -> (d ∈ L0) /\ exists va, user va /\
    leaf s0.(v_mem) par va = Some d /\ is_Some (leaf s.(v_mem) r va);
  cp_ref : forall f, aligned f -> ~ free_at s0.(v_pmm) f ->
    pmm_get_ref s.(v_pmm) f = pmm_get_ref s0.(v_pmm) f + mappers s0.(v_mem) D f;
  cp_stray : forall f, aligned f -> stray s (r :: A) (C ++ L0) f <-> stray s0 A L0 f;
}.

Section facts.
Variables (T C D : list Z) (s : vmst).
Hypothesis Hc : copied T C D s.

Lemma cp_in as_ : as_ ∈ A -> as_ ∈ r :: A.
Proof using. intros. by apply list_elem_of_further. Qed.
Lemma cp_root : r ∈ r :: A.
Proof using. apply list_elem_of_here. Qed.

Lemma cp_table t : is_table s.(v_mem) (r :: A) t -> is_table s0.(v_mem) A t \/ free_at s0.(v_pmm) t.
Proof using Hc.
  intros (as_&va&n&[->|Ha]%elem_of_cons&Hu&Hn&Ht); [right; by apply (cp_fresh _ _ _ _ Hc va n)|left].
  exists as_, va, n. by rewrite <- (cp_tab _ _ _ _ Hc).
Qed.

Lemma cp_plain a : ~ free_at s0.(v_pmm) (page_down a) -> ~ is_table s0.(v_mem) A (page_down a) ->
  (~ free_at s.(v_pmm) (page_down a)) /\ ~ is_table s.(v_mem) (r :: A) (page_down a).
Proof using Hc.
  intros Hf Ht. split; [by intros ?%(cp_free _ _ _ _ Hc)|]. by intros [?|?]%cp_table.
Qed.

(** The leaves of the parent stay where they are. *)
Lemma cp_leaf as_ va : as_ ∈ A -> user va -> leaf s.(v_mem) as_ va = leaf s0.(v_mem) as_ va.
Proof using Hc.
  intros Ha Hu.
  assert (Hs : forall o : option Z, is_Some (shared_entry s0.(v_pmm) <$> o) <-> is_Some o).
  { intros [e|]; cbn; split; intros [x Hx]; eauto; done. }
  assert (Hv : is_Some (view s.(v_mem) as_ va) <-> is_Some (view s0.(v_mem) as_ va)).
  { destruct (decide (as_ = par)) as [->|Hne]; [|by rewrite (cp_other _ _ _ _ Hc)].
    destruct (cp_view _ _ _ _ Hc va Hu) as [[_ ->]|[_ ->]]; [done|apply Hs]. }
  revert Hv. unfold view, leaf. rewrite (cp_tab _ _ _ _ Hc) by auto.
  destruct (tab s0.(v_mem) as_ va 3) as [t|]; [|done]. cbv zeta.
  destruct (has (s.(v_mem) _) PTE_PRESENT), (has (s0.(v_mem) _) PTE_PRESENT); try done.
  - intros [H1 _]. destruct H1; [eauto|done].
  - intros [_ H1]. destruct H1; [eauto|done].
Qed.
End facts.
(** What may change without any page showing it: empty tables of [r]. *)
Definition extends (s s' : vmst) : Prop :=
  (forall va n t, user va -> (n <= 3)%nat -> tab s.(v_mem) r va n = Some t -> tab s'.(v_mem) r va n = Some t) /\
  forall va, user va -> complete s va -> complete s' va.

Lemma extends_refl s : extends s s.
Proof using. by split. Qed.

Lemma extends_trans s1 s2 s3 : extends s1 s2 -> extends s2 s3 -> extends s1 s3.
Proof using. intros [H1 H2] [H3 H4]. split; eauto. Qed.

(** ** A table is copied *)
Section link_step.
Variables (T C D : list Z) (s : vmst) (va : Z) (n : nat) (tnew told pa e : Z) (p1 : pmm).
Hypotheses (Hc : copied T C D s) (Hu : user va) (Hn : (n <= 2)%nat).
Hypotheses (Htn : tab s.(v_mem) r va n = Some tnew) (Hto : tab s0.(v_mem) par va (S n) = Some told).
Hypothesis Hz : s.(v_mem) (slot tnew (idx n va)) = 0.

Lemma link_step_none : tab s.(v_mem) r va (S n) = None.
Proof using Htn Hz. cbn [tab]. rewrite Htn, Hz. apply child_zero. Qed.

Lemma link_step_new : told ∉ T.
Proof using Hi0 Hpar Hc Hu Hn Htn Hto Hz.
  intros Hin. destruct (cp_tables _ _ _ _ Hc) as [_ Ht]. destruct (Ht told Hin) as (va'&n'&Hu'&Hn'&Ht'&[u Hs]).
  destruct (pi_inj _ _ _ Hi0 par va (S n) par va' n' told) as (_&<-&Hk); auto; [lia|].
  rewrite <- (tab_key _ _ va va' _ Hk), link_step_none in Hs. done.
Qed.

Hypotheses (Hal : pmm_alloc s.(v_pmm) 1 = (pa, p1)) (Hpa : pa <> 0) (Hch : child n e = Some pa).
Abbreviation s2 := (with_mem (with_pmm s p1) (mzero s.(v_mem) pa)).
Abbreviation s' := (set_leaf s2 (slot tnew (idx n va)) e).

Lemma link_step_pre : pt_inv s2 (r :: A) (C ++ L0) /\ held s2 (r :: A) (C ++ L0) pa /\
  grows 1 [pa] (r :: A) s s2 /\ free_at s.(v_pmm) pa /\ (forall a, in_frame pa a -> s2.(v_mem) a = 0) /\
  tab s2.(v_mem) r va n = Some tnew /\ s2.(v_mem) (slot tnew (idx n va)) = 0.
Proof using Hc Hu Hn Htn Hz Hal Hpa.
  pose proof (cp_inv _ _ _ _ Hc) as Hi. destruct (take_ok s _ _ Hi pa p1 Hal Hpa) as (Hi1&Hh1&Hg1&Hf1).
  destruct (fill_ok _ _ _ pa (mzero s.(v_mem) pa) Hi1 Hh1) as (Hi2&Hh2&Hg2).
  { intros a Ha. by apply mzero_out. }
  assert (Hg : grows 1 [pa] (r :: A) s s2) by (apply Hg2; auto).
  split_and!; auto.
  - intros a Ha. by apply mzero_in.
  - apply (gr_tab _ _ _ _ _ Hg); auto using cp_root; lia.
  - cbn. rewrite mzero_out; [done|]. intros Hin. apply in_frame_page_down in Hin; [|apply Hh1].
    rewrite (table_slot s _ _ Hi r va n tnew) in Hin by (auto using cp_root; lia).
    destruct (table_live s _ _ Hi tnew); [|by rewrite Hin]. exists r, va, n. split_and!; auto using cp_root; lia.
Qed.

Lemma link_step_clear as_ va' k : as_ ∈ r :: A -> user va' -> (k <= 3)%nat ->
  tab s2.(v_mem) as_ va' k = tab s.(v_mem) as_ va' k.
Proof using Hc Hn Hal Hpa.
  intros Ha Hu' Hk. pose proof (cp_inv _ _ _ _ Hc) as Hi.
  destruct (fresh_page s _ _ Hi pa p1 Hal Hpa) as (Hpal&_&_&Hnt&_).
  apply tab_agree. intros j t Hj Ht. f_equal. cbn. apply mzero_out. intros Hin.
  apply in_frame_page_down in Hin; [|done].
  rewrite (table_slot s _ _ Hi as_ va' j t) in Hin by (auto; lia). apply Hnt. rewrite <- Hin.
  exists as_, va', j. split_and!; auto; lia.
Qed.

Lemma link_step_grows : pt_inv s' (r :: A) (C ++ L0) /\ grows 1 [] (r :: A) s s' /\
  tab s'.(v_mem) r va (S n) = Some pa /\
  (forall as_ va' k, as_ ∈ A -> user va' -> (k <= 3)%nat -> tab s'.(v_mem) as_ va' k = tab s.(v_mem) as_ va' k) /\
  forall va' k t, user va' -> (k <= 3)%nat -> tab s'.(v_mem) r va' k = Some t -> tab s.(v_mem) r va' k = Some t \/ t = pa.
Proof using Hr Hc Hu Hn Htn Hz Hal Hpa Hch.
  destruct link_step_pre as (Hi2&Hh2&Hg2&Hf&Hzero&Ht2&Hz2).
  assert (Hno : child n (s2.(v_mem) (slot tnew (idx n va))) = None) by (rewrite Hz2; apply child_zero).
  assert (Hfl : n = 2%nat -> has (s2.(v_mem) (slot tnew (idx n va))) PTE_HUGE = false) by (by rewrite Hz2).
  split_and!.
  - apply (link_inv s2 (r :: A) (C ++ L0) Hi2 r va n tnew pa e); auto using cp_root.
  - apply (link_grows s2 (r :: A) (C ++ L0) Hi2 r va n tnew pa e); auto using cp_root.
  - destruct (link_tab_new s2 (r :: A) (C ++ L0) Hi2 r va n tnew pa e) with r va (S n) as [Hnew _];
      auto using cp_root; [lia|]. by rewrite decide_True in Hnew.
  - intros as_ va' k Ha Hu' Hk. rewrite (link_tab s2 (r :: A) (C ++ L0) Hi2 r va n tnew pa e);
      auto using cp_root, cp_in; [|by intros (->&_)]. apply link_step_clear; auto using cp_in.
  - intros va' k t Hu' Hk Ht. apply (link_tab_inv s2 (r :: A) (C ++ L0) Hi2 r va n tnew pa e) in Ht as [Ht|(->&_)];
      auto using cp_root. left. rewrite <- link_step_clear; auto using cp_root.
Qed.

Lemma link_step_view as_ va' : as_ ∈ r :: A -> user va' ->
  view s'.(v_mem) as_ va' = view s.(v_mem) as_ va' /\ leaf s'.(v_mem) as_ va' = leaf s.(v_mem) as_ va' /\
  huge s'.(v_mem) as_ va' = huge s.(v_mem) as_ va'.
Proof using Hr Hc Hu Hn Htn Hz Hal Hpa Hch.
  intros Ha Hu'. destruct link_step_grows as (_&Hg&_). split_and!; [|by apply (gr_leaf _ _ _ _ _ Hg)|by apply (gr_huge _ _ _ _ _ Hg)].
  unfold view. rewrite (gr_leaf _ _ _ _ _ Hg) by auto. destruct (leaf s.(v_mem) as_ va') eqn:E; [|done].
  by rewrite (gr_entry _ _ _ _ _ Hg as_ va').
Qed.

Lemma link_step_ok : copied (told :: T) C D s' /\ extends s s' /\ tab s'.(v_mem) r va (S n) = Some pa.
Proof using All.
  destruct link_step_grows as (Hi'&Hg&Hnew&Htab&_). pose proof link_step_view as Hv.
  assert (Hke : forall va' k t, user va' -> (k <= 3)%nat -> tab s.(v_mem) r va' k = Some t -> tab s'.(v_mem) r va' k = Some t).
  { intros va' k t Hu' Hk Ht. apply (gr_tab _ _ _ _ _ Hg); auto using cp_root. }
  split_and!; [|split; [exact Hke|]|done].
  2: { intros va' Hu' (H1&H2&H3). unfold complete, huge_page in *.
       destruct (Hv r va' cp_root Hu') as (->&_&->), (Hv par va' (cp_in _ Hpar) Hu') as (->&_&_). done. }
  constructor; auto.
  - rewrite (gr_base _ _ _ _ _ Hg). apply Hc.
  - rewrite (gr_pages _ _ _ _ _ Hg). apply Hc.
  - intros as_ va' k Ha Hu' Hk. rewrite Htab by auto. by apply (cp_tab _ _ _ _ Hc).
  - intros va' k t Hu' Hk Ht. destruct (gr_new _ _ _ _ _ Hg t) as [Hold|Hf].
    + exists r, va', k. split_and!; auto using cp_root.
    + destruct (cp_table _ _ _ _ Hc t Hold) as [Hta|]; [|done]. exfalso.
      destruct Hta as (as_&va2&k2&Ha2&Hu2&Hk2&Ht2). rewrite <- (cp_tab _ _ _ _ Hc) in Ht2 by auto.
      destruct (pi_inj _ _ _ Hi' r va' k as_ va2 k2 t) as (->&_&_); auto using cp_root, cp_in.
      by rewrite Htab.
    + by apply (cp_free _ _ _ _ Hc).
  - intros as_ va' Ha Hne Hu'. destruct (Hv as_ va' (cp_in _ Ha) Hu') as (->&_). by apply (cp_other _ _ _ _ Hc).
  - intros va' Hu'. destruct (Hv r va' cp_root Hu') as (->&_), (Hv par va' (cp_in _ Hpar) Hu') as (->&_).
    by apply (cp_view _ _ _ _ Hc).
  - intros as_ va' Ha Hu'. destruct (Hv as_ va' (cp_in _ Ha) Hu') as (_&_&->). by apply (cp_huge _ _ _ _ Hc).
  - intros va' Hu'. destruct (Hv r va' cp_root Hu') as (_&_&->). by apply (cp_child_huge _ _ _ _ Hc).
  - intros a Hf Ht. destruct (cp_plain _ _ _ _ Hc a Hf Ht). rewrite (gr_mem _ _ _ _ _ Hg) by auto.
    by apply (cp_mem _ _ _ _ Hc).
  - intros f Hf%(gr_free _ _ _ _ _ Hg). by apply (cp_free _ _ _ _ Hc).
  - rewrite (gr_tlb _ _ _ _ _ Hg). apply Hc.
  - destruct (cp_tables _ _ _ _ Hc) as [Hnd Ht]. split; [constructor; [apply link_step_new|done]|].
    intros t [->|Hin]%elem_of_cons; [exists va, (S n); split_and!; eauto; lia|].
    destruct (Ht t Hin) as (va'&k&?&?&?&[u ?]). exists va', k. split_and!; eauto.
  - change (v_pmm s') with p1. rewrite (alloc_avail s.(v_pmm) pa p1), (cp_avail _ _ _ _ Hc); auto; [cbn [length]; lia|].
    apply (inv_pmm_ok s _ _ (cp_inv _ _ _ _ Hc)).
  - destruct (cp_leaves _ _ _ _ Hc) as [Hnd Hd]. split; [done|]. intros d Hin.
    destruct (Hd d Hin) as (?&va'&?&?&?). split; [done|]. exists va'.
    destruct (Hv r va') as (_&->&_); auto using cp_root.
  - intros f Hf Hnf. rewrite (gr_ref _ _ _ _ _ Hg), (cp_ref _ _ _ _ Hc); auto. by intros ?%(cp_free _ _ _ _ Hc).
  - intros f Hf. rewrite <- (cp_stray _ _ _ _ Hc) by done.
    apply (ef_stray _ _ _ _ _ _ _ (grows_effect (fun _ _ => False) 1 s _ _ s' (cp_inv _ _ _ _ Hc) Hg) f Hf).
Qed.
End link_step.
(** ** A leaf is shared *)

Lemma shared_entry_bits p e :
  x86_pte_phys (shared_entry p e) = x86_pte_phys e /\ has (shared_entry p e) PTE_PRESENT = has e PTE_PRESENT.
Proof using.
  unfold shared_entry. case_match; [|done]. split; [apply (mkcow_phys (ArchPteLaws := x86_pte_laws))|].
  unfold x86_pte_mkcow. rewrite !has_testbit by done. by rewrite testbit_set, testbit_clr, andb_true_r, orb_false_r.
Qed.

Lemma incref_avail p a : avail (pmm_incref p a) = avail p.
Proof using. unfold avail, pmm_incref. by repeat case_match. Qed.

Section leaf_step.
Variables (T C D : list Z) (s : vmst) (va tnew told e1 : Z) (s1 : vmst).
Hypotheses (Hc : copied T C D s) (Hu : user va).
Hypotheses (Htn : tab s.(v_mem) r va 3 = Some tnew) (Hto : tab s.(v_mem) par va 3 = Some told).
Abbreviation d := (slot told (idx 3 va)).
Abbreviation c := (slot tnew (idx 3 va)).
Hypotheses (Hz : s.(v_mem) c = 0) (Hpr : has (s.(v_mem) d) PTE_PRESENT = true).
Hypothesis Hsh : vm_cow_share_leaf s d 1 = (e1, s1).
Abbreviation s' := (set_leaf s1 c e1).
Abbreviation f := (frame s.(v_mem) d).

Lemma ls_views : leaf s.(v_mem) r va = None /\ leaf s.(v_mem) par va = Some d /\
  leaf s0.(v_mem) par va = Some d /\ s0.(v_mem) d = s.(v_mem) d.
Proof using Hpar Hc Hu Htn Hto Hz Hpr.
  assert (Hl : leaf s.(v_mem) r va = None) by (unfold leaf; rewrite Htn; cbv zeta; by rewrite Hz).
  assert (Hl' : leaf s.(v_mem) par va = Some d) by (unfold leaf; rewrite Hto; cbv zeta; by rewrite Hpr).
  assert (Hl0 : leaf s0.(v_mem) par va = Some d) by (by rewrite <- (cp_leaf _ _ _ _ Hc)).
  split_and!; auto. assert (Hv : view s.(v_mem) par va = view s0.(v_mem) par va).
  { destruct (cp_view _ _ _ _ Hc va Hu) as [[_ ?]|[H1 H2]]; [done|]. exfalso. rewrite <- H2 in H1. revert H1.
    unfold view. by rewrite Hl, Hl'. }
  revert Hv. unfold view. rewrite Hl0, Hl'. congruence.
Qed.

(** The page the leaf maps is in use, by users alone. *)
Lemma ls_frame : aligned f /\ f <> 0 /\ (~ free_at s0.(v_pmm) f) /\ (~ is_table s.(v_mem) (r :: A) f) /\
  (managed s.(v_pmm) f /\ (d ∈ L0) /\ 0 < pmm_get_ref s.(v_pmm) f \/
   (~ managed s.(v_pmm) f) /\ pmm_get_ref s.(v_pmm) f = 0).
Proof using Hi0 Hpar Hc Hu Htn Hto Hz Hpr.
  destruct ls_views as (_&Hl&Hl0&Hm). pose proof (cp_inv _ _ _ _ Hc) as Hi.
  assert (Hv : view s.(v_mem) par va = Some (s.(v_mem) d)) by (unfold view; by rewrite Hl).
  assert (Hv0 : view s0.(v_mem) par va = Some (s.(v_mem) d)) by (unfold view; by rewrite Hl0, Hm).
  assert (Hin : in_frame f f) by (unfold in_frame, PAGE_SIZE; lia).
  destruct (frame_plain s _ _ Hi par va _ f (cp_in _ Hpar) Hu Hv Hin) as (Hpd&_&Hnt).
  destruct (frame_plain s0 _ _ Hi0 par va _ f Hpar Hu Hv0 Hin) as (Hpd0&Hnf&_).
  change (x86_pte_phys (s.(v_mem) d)) with f in *. rewrite Hpd in Hnf, Hnt.
  split_and!; auto; [apply frame_aligned|by apply (pi_null _ _ _ Hi par va d (cp_in _ Hpar) Hu Hl)|].
  destruct (pmm_page_of s.(v_pmm) f) as [q|] eqn:Hq; [left|right].
  - assert (Hmg : managed s.(v_pmm) f) by (by exists q).
    assert (HdL : d ∈ L0).
    { apply (pi_leaf _ _ _ Hi0). exists par, va. split_and!; auto. unfold frame. rewrite Hm. revert Hmg. unfold managed.
      by rewrite (page_of_range s0.(v_pmm) s.(v_pmm) _ (cp_base _ _ _ _ Hc) (cp_pages _ _ _ _ Hc)). }
    split_and!; auto. apply (inv_ref_pos s _ (pi_cow _ _ _ Hi) d). apply elem_of_app. by right.
  - unfold managed, pmm_get_ref. rewrite Hq. split; [by intros [? ?]|done].
Qed.

Lemma ls_entry : e1 = shared_entry s0.(v_pmm) (s0.(v_mem) d) /\ s'.(v_tlb) = s.(v_tlb) /\
  s'.(v_mem) d = e1 /\ s'.(v_mem) c = e1 /\ (forall a, a <> d -> a <> c -> s'.(v_mem) a = s.(v_mem) a) /\
  s1.(v_pmm) = if 0 <? pmm_get_ref s.(v_pmm) f then pmm_incref s.(v_pmm) f else s.(v_pmm).
Proof using Hi0 Hpar Hc Hu Htn Hto Hz Hpr Hsh.
  destruct ls_views as (_&_&_&Hm). destruct ls_frame as (Hal&_&Hnf&_&Hcase).
  assert (Hcd : c <> d) by (intros He; rewrite He in Hz; rewrite Hz in Hpr; done).
  assert (Href : (0 <? pmm_get_ref s0.(v_pmm) f) = (0 <? pmm_get_ref s.(v_pmm) f)).
  { assert (Hr0 := cp_ref _ _ _ _ Hc f Hal Hnf). pose proof (mappers_nonneg s0.(v_mem) D f) as Hmn.
    destruct Hcase as [(_&HdL&Hpos)|(Hnm&Hz0)].
    - pose proof (inv_ref_pos s0 _ (pi_cow _ _ _ Hi0) d HdL) as Hp0. unfold frame in Hp0 at 1. rewrite Hm in Hp0.
      change (arch_pte_phys (v_mem s d)) with f in Hp0. destruct (Z.ltb_spec 0 (pmm_get_ref s.(v_pmm) f)), (Z.ltb_spec 0 (pmm_get_ref s0.(v_pmm) f)); lia.
    - assert (Hq : pmm_page_of s0.(v_pmm) f = None).
      { apply eq_None_not_Some. unfold managed in Hnm.
        by rewrite (page_of_range s0.(v_pmm) s.(v_pmm) _ (cp_base _ _ _ _ Hc) (cp_pages _ _ _ _ Hc)) in Hnm. }
      rewrite Hz0. unfold pmm_get_ref. by rewrite Hq. }
  unfold shared_entry. rewrite Hm. change (x86_pte_phys (s.(v_mem) d)) with f. rewrite Href.
  revert Hsh. destruct Hcase as [(_&HdL&Hpos)|(Hnm&Hz0)].
  - rewrite (share_leaf_eq s _ (pi_cow _ _ _ (cp_inv _ _ _ _ Hc)) d) by (apply elem_of_app; by right).
    rewrite (proj2 (Z.ltb_lt _ _) Hpos). cbn [andb]. change arch_pte_writable with x86_pte_writable.
    change arch_pte_mkcow with x86_pte_mkcow. cbv zeta. intros [= <- <-]. cbn [v_pmm v_tlb v_mem set_leaf with_mem].
    rewrite mwrite_eq, (mwrite_ne _ c _ d) by done. split_and!; auto.
    + case_match; [by rewrite mwrite_eq|done].
    + intros a Had Hac. rewrite mwrite_ne by done. case_match; [by apply mwrite_ne|done].
  - unfold vm_cow_share_leaf. change (arch_pte_phys (s.(v_mem) d)) with f. rewrite Hz0. cbn [Z.eqb Z.ltb andb]. intros [= <- <-].
    cbn [v_pmm v_tlb v_mem set_leaf with_mem]. rewrite mwrite_eq, (mwrite_ne _ c _ d) by done.
    split_and!; auto. intros a _ Hac. by rewrite mwrite_ne.
Qed.
Hypothesis Hover : forall x, x ∈ L0 -> pmm_get_ref s0.(v_pmm) (frame s0.(v_mem) x) < 32768.

Lemma ls_room : d ∈ L0 -> pmm_get_ref s.(v_pmm) f < 65535.
Proof using Hi0 Hpar Hc Hu Htn Hto Hz Hpr Hover.
  intros HdL. destruct ls_views as (_&_&_&Hm). destruct ls_frame as (Hal&_&Hnf&_).
  rewrite (cp_ref _ _ _ _ Hc f Hal Hnf). pose proof (Hover d HdL) as Hb.
  pose proof (ci_count _ _ (pi_cow _ _ _ Hi0) d HdL) as Hcnt. unfold frame in Hb, Hcnt at 1 2. rewrite Hm in Hb, Hcnt.
  change (arch_pte_phys (s.(v_mem) d)) with f in *. destruct (cp_leaves _ _ _ _ Hc) as [Hnd HD].
  assert (Hle : mappers s0.(v_mem) D f <= mappers s0.(v_mem) L0 f); [|lia].
  apply mappers_sub; auto; [apply Hi0|]. intros y Hy. by apply HD.
Qed.

(** The lists after the step. *)
Definition with_shared (x : Z) (l : list Z) : list Z := if 0 <? pmm_get_ref s.(v_pmm) f then x :: l else l.

Lemma ls_inv_managed : d ∈ L0 -> pt_inv s' (r :: A) (c :: C ++ L0).
Proof using Hi0 Hpar Hc Hu Htn Hto Hz Hpr Hsh Hover.
  intros HdL. pose proof (cp_inv _ _ _ _ Hc) as Hi. destruct ls_views as (Hlr&Hlp&_&Hm).
  destruct ls_frame as (Hal&Hf0&_&Hnt&Hcase). destruct Hcase as [(Hmg&_&Hpos)|[Hnm _]].
  2: { exfalso. apply (pi_leaf _ _ _ Hi0) in HdL as (?&?&_&_&_&Hmm). apply Hnm. unfold frame in Hmm. rewrite Hm in Hmm.
       revert Hmm. unfold managed. by rewrite (page_of_range s0.(v_pmm) s.(v_pmm) _ (cp_base _ _ _ _ Hc) (cp_pages _ _ _ _ Hc)). }
  assert (HdL' : d ∈ C ++ L0) by (apply elem_of_app; by right).
  destruct ls_entry as (He1&_&_&_&_&_). destruct (shared_entry_bits s0.(v_pmm) (s0.(v_mem) d)) as [Hph Hpr1].
  rewrite <- He1, Hm in Hph, Hpr1. rewrite Hpr in Hpr1.
  pose proof Hsh as Hsh'. rewrite (share_leaf_eq s _ (pi_cow _ _ _ Hi) d HdL') in Hsh'. cbv zeta in Hsh'.
  set (sa := if x86_pte_writable (s.(v_mem) d) then set_leaf s d e1 else s).
  assert (Hsa : s1 = with_pmm sa (pmm_incref s.(v_pmm) f) /\ x86_pte_writable e1 = false /\ sa.(v_mem) d = e1).
  { change arch_pte_writable with x86_pte_writable in Hsh'. change arch_pte_mkcow with x86_pte_mkcow in Hsh'.
    unfold sa. destruct (x86_pte_writable (s.(v_mem) d)) eqn:Hw; injection Hsh' as <- <-; split_and!; auto.
    - apply (mkcow_readonly (ArchPteLaws := x86_pte_laws)).
    - apply mwrite_eq. }
  destruct Hsa as (->&Hro&Hsd).
  assert (Hia : pt_inv sa (r :: A) (C ++ L0) /\ sa.(v_pmm) = s.(v_pmm) /\
    tab sa.(v_mem) r va 3 = Some tnew /\ leaf sa.(v_mem) r va = None /\ (~ is_table sa.(v_mem) (r :: A) f)).
  { unfold sa in *. destruct (x86_pte_writable (s.(v_mem) d)); [|done].
    assert (Hoth : forall a, a <> d -> (set_leaf s d e1).(v_mem) a = s.(v_mem) a) by (intros; by apply mwrite_ne).
    assert (Hw1 : x86_pte_writable e1 = true -> pmm_get_ref s.(v_pmm) f <= 1) by congruence.
    split_and!; [|done|..].
    - apply (reflag_inv s (set_leaf s d e1) (r :: A) (C ++ L0) par va d e1); auto using cp_in.
    - rewrite (reflag_tab s (set_leaf s d e1) (r :: A) (C ++ L0) par va d e1); auto using cp_in, cp_root.
    - rewrite (reflag_leaf s (set_leaf s d e1) (r :: A) (C ++ L0) par va d e1); auto using cp_in, cp_root.
    - rewrite (reflag_table s (set_leaf s d e1) (r :: A) (C ++ L0) par va d e1); auto using cp_in, cp_root. }
  destruct Hia as (Hia&Hpa&Hta&Hla&Hnta).
  destruct (place_slot _ _ sa r va tnew Hia cp_root Hu Hta Hla) as (_&_&Hslot).
  assert (Hfa : frame sa.(v_mem) d = f) by (unfold frame; rewrite Hsd; exact Hph).
  assert (Hsha : vm_cow_share_leaf sa d 1 = (e1, with_pmm sa (pmm_incref s.(v_pmm) f))).
  { rewrite (share_leaf_eq sa _ (pi_cow _ _ _ Hia) d HdL'), Hfa, Hpa, Hsd. cbv zeta.
    change arch_pte_writable with x86_pte_writable. by rewrite Hro. }
  assert (Hroom : pmm_get_ref sa.(v_pmm) (frame sa.(v_mem) d) < 65535) by (rewrite Hfa, Hpa; by apply ls_room).
  destruct (fork_leaf_ok sa _ (pi_cow _ _ _ Hia) d c e1 _ HdL' Hslot Hroom Hsha) as (Hcow&_).
  destruct (incref_by_address s.(v_pmm) f (inv_pmm_ok s _ _ Hi) Hal) as (_&Hb&Hg&Href&_).
  { split; [done|by apply ls_room]. }
  apply (place_inv (r :: A) (C ++ L0) (c :: C ++ L0) sa _ r va tnew e1); auto using cp_root; try congruence.
  - rewrite Hph. exact Hf0.
  - intros t Ht. rewrite Hpa. destruct (pi_tab _ _ _ Hia t Ht) as [Hta' _]. rewrite Href by done.
    rewrite decide_False; [done|]. by intros ->.
  - intros y. rewrite elem_of_cons, Hph, Hpa. change (x86_pte_phys (s.(v_mem) d)) with f. tauto.
  - by rewrite Hph.
Qed.

Lemma ls_inv_outside : ~ managed s.(v_pmm) f -> pmm_get_ref s.(v_pmm) f = 0 -> pt_inv s' (r :: A) (C ++ L0).
Proof using Hi0 Hpar Hc Hu Htn Hto Hz Hpr Hsh.
  intros Hnm Hz0. pose proof (cp_inv _ _ _ _ Hc) as Hi. destruct ls_views as (Hlr&_&_&Hm).
  destruct ls_frame as (Hal&Hf0&_&Hnt&_). destruct (place_slot _ _ s r va tnew Hi cp_root Hu Htn Hlr) as (_&_&Hslot&_).
  revert Hsh. unfold vm_cow_share_leaf. change (arch_pte_phys (s.(v_mem) d)) with f. rewrite Hz0. cbn [Z.eqb]. intros [= <- <-].
  change (set_leaf s c (s.(v_mem) d)) with (set_leaf (with_pmm s s.(v_pmm)) c (s.(v_mem) d)).
  apply (place_inv (r :: A) (C ++ L0) (C ++ L0) s s.(v_pmm) r va tnew); auto using cp_root.
  - apply (inv_mem_stable s _ (pi_cow _ _ _ Hi)). intros y Hy. apply mwrite_ne. by intros ->.
  - intros y. split; [by left|]. by intros [?|[_ ?]].
Qed.

Lemma ls_inv : pt_inv s' (r :: A) (with_shared c C ++ L0).
Proof using Hi0 Hpar Hc Hu Htn Hto Hz Hpr Hsh Hover.
  unfold with_shared. destruct ls_frame as (_&_&_&_&[(_&HdL&Hpos)|[Hnm Hz0]]).
  - rewrite (proj2 (Z.ltb_lt _ _) Hpos). by apply ls_inv_managed.
  - rewrite Hz0. by apply ls_inv_outside.
Qed.
Lemma ls_tab as_ va' k : as_ ∈ r :: A -> user va' -> (k <= 3)%nat ->
  tab s'.(v_mem) as_ va' k = tab s.(v_mem) as_ va' k.
Proof using Hi0 Hpar Hc Hu Htn Hto Hz Hpr Hsh.
  intros Ha Hu' Hk. pose proof (cp_inv _ _ _ _ Hc) as Hi. destruct ls_entry as (_&_&_&_&Hoth&_).
  apply tab_agree. intros j t Hj Ht. f_equal. apply Hoth; intros He.
  - destruct (slot_once s _ _ Hi as_ va' j t par va 3 told) as (_&?&_); auto using cp_in; lia.
  - destruct (slot_once s _ _ Hi as_ va' j t r va 3 tnew) as (_&?&_); auto using cp_root; lia.
Qed.

Lemma ls_table t : is_table s'.(v_mem) (r :: A) t <-> is_table s.(v_mem) (r :: A) t.
Proof using Hi0 Hpar Hc Hu Htn Hto Hz Hpr Hsh.
  split; intros (as_&va'&n&Ha&Hu'&Hn&Ht); exists as_, va', n; [rewrite <- ls_tab|rewrite ls_tab]; auto.
Qed.

Lemma ls_huge as_ va' : as_ ∈ r :: A -> user va' -> huge s'.(v_mem) as_ va' = huge s.(v_mem) as_ va'.
Proof using Hi0 Hpar Hc Hu Htn Hto Hz Hpr Hsh.
  intros Ha Hu'. pose proof (cp_inv _ _ _ _ Hc) as Hi. destruct ls_entry as (_&_&_&_&Hoth&_).
  unfold huge. rewrite ls_tab by auto. destruct (tab s.(v_mem) as_ va' 2) as [t|] eqn:Ht; [|done].
  rewrite Hoth; [done|..]; intros He.
  - destruct (slot_once s _ _ Hi as_ va' 2 t par va 3 told) as (_&?&_); auto using cp_in; lia.
  - destruct (slot_once s _ _ Hi as_ va' 2 t r va 3 tnew) as (_&?&_); auto using cp_root; lia.
Qed.

(** The leaves and views after the step. *)
Lemma ls_leaf as_ va' : as_ ∈ r :: A -> user va' ->
  leaf s'.(v_mem) as_ va' =
    if decide (as_ = r /\ key 4 va' = key 4 va) then Some c else leaf s.(v_mem) as_ va'.
Proof using Hi0 Hpar Hc Hu Htn Hto Hz Hpr Hsh.
  intros Ha Hu'. pose proof (cp_inv _ _ _ _ Hc) as Hi. destruct ls_entry as (He1&_&Hd&Hc'&Hoth&_).
  destruct ls_views as (_&_&_&Hm). destruct (shared_entry_bits s0.(v_pmm) (s0.(v_mem) d)) as [_ Hp1].
  rewrite <- He1, Hm, Hpr in Hp1. unfold leaf. rewrite ls_tab by auto.
  destruct (decide (as_ = r /\ key 4 va' = key 4 va)) as [[-> Hk]|Hne].
  - apply key_inj in Hk as [Hk Hidx]. rewrite (tab_key _ _ va' va 3 Hk), Htn, Hidx. cbv zeta. by rewrite Hc', Hp1.
  - destruct (tab s.(v_mem) as_ va' 3) as [t|] eqn:Ht; [|done]. cbv zeta.
    assert (Hnc : slot t (idx 3 va') <> c).
    { intros He. apply Hne. destruct (slot_once s _ _ Hi as_ va' 3 t r va 3 tnew) as (?&_&?); auto using cp_root. }
    destruct (decide (slot t (idx 3 va') = d)) as [Hed|Hnd]; [|by rewrite Hoth]. rewrite Hed, Hd, Hp1. by rewrite Hpr.
Qed.

Lemma ls_view as_ va' : as_ ∈ r :: A -> user va' ->
  view s'.(v_mem) as_ va' =
    if decide ((as_ = r \/ as_ = par) /\ key 4 va' = key 4 va) then Some e1 else view s.(v_mem) as_ va'.
Proof using Hi0 Hpar Hr Hc Hu Htn Hto Hz Hpr Hsh.
  intros Ha Hu'. pose proof (cp_inv _ _ _ _ Hc) as Hi. destruct ls_entry as (He1&_&Hd&Hc'&Hoth&_).
  destruct ls_views as (_&Hlp&_). unfold view. rewrite ls_leaf by auto.
  assert (Hrp : r <> par) by (intros ->; done).
  destruct (decide (as_ = r /\ key 4 va' = key 4 va)) as [[-> Hk]|Hne].
  { rewrite decide_True by auto. by rewrite Hc'. }
  destruct (decide ((as_ = r \/ as_ = par) /\ key 4 va' = key 4 va)) as [[[->| ->] Hk]|Hno]; [tauto| |].
  { rewrite (leaf_key _ _ va' va Hk), Hlp. by rewrite Hd. }
  destruct (leaf s.(v_mem) as_ va') as [y|] eqn:Hl; [|done].
  destruct (leaf_slot s _ _ _ Hl) as (t&Ht&->&_). rewrite Hoth; [done|..]; intros He; apply Hno.
  - destruct (slot_once s _ _ Hi as_ va' 3 t par va 3 told) as (?&_&?); auto using cp_in.
  - destruct (slot_once s _ _ Hi as_ va' 3 t r va 3 tnew) as (?&_&?); auto using cp_root.
Qed.

Lemma ls_shared : view s0.(v_mem) par va = Some (s0.(v_mem) d).
Proof using Hpar Hc Hu Htn Hto Hz Hpr. destruct ls_views as (_&_&Hl&_). unfold view. by rewrite Hl. Qed.

(** ** The references *)
Lemma ls_refs : s'.(v_pmm).(g_base_pa) = s.(v_pmm).(g_base_pa) /\ s'.(v_pmm).(g_pages) = s.(v_pmm).(g_pages) /\
  avail s'.(v_pmm) = avail s.(v_pmm) /\ (forall g, free_at s'.(v_pmm) g -> free_at s.(v_pmm) g) /\
  (forall g, aligned g -> 0 < pmm_get_ref s'.(v_pmm) g <-> 0 < pmm_get_ref s.(v_pmm) g) /\
  forall g, aligned g -> ~ free_at s0.(v_pmm) g ->
    pmm_get_ref s'.(v_pmm) g = pmm_get_ref s0.(v_pmm) g + mappers s0.(v_mem) (with_shared d D) g.
Proof using Hi0 Hpar Hc Hu Htn Hto Hz Hpr Hsh Hover.
  destruct ls_entry as (_&_&_&_&_&Hp). destruct ls_views as (_&_&_&Hm). pose proof (cp_inv _ _ _ _ Hc) as Hi.
  change (v_pmm s') with (v_pmm s1). unfold with_shared. rewrite Hp.
  destruct ls_frame as (Hal&_&_&_&[(_&HdL&Hpos)|[Hnm Hz0]]).
  2: { rewrite Hz0. split_and!; auto; try done. intros g Hg Hf. by apply (cp_ref _ _ _ _ Hc). }
  rewrite (proj2 (Z.ltb_lt _ _) Hpos).
  destruct (incref_by_address s.(v_pmm) f (inv_pmm_ok s _ _ Hi) Hal) as (_&Hb&Hg&Href&Hfr).
  { split; [done|by apply ls_room]. }
  split_and!; auto using incref_avail.
  - intros g Hgal. rewrite Href by done. case_decide as Hd; [|done]. rewrite Hd. lia.
  - intros g Hgal Hnf. rewrite Href by done. cbn [mappers].
    assert (frame s0.(v_mem) d = f) as -> by (unfold frame; by rewrite Hm). pose proof (cp_ref _ _ _ _ Hc g Hgal Hnf).
    repeat case_decide; try congruence; subst; lia.
Qed.
Lemma ls_new : d ∉ D.
Proof using Hi0 Hpar Hc Hu Htn Hto Hz Hpr.
  intros Hin. destruct (cp_leaves _ _ _ _ Hc) as [_ HD]. destruct (HD d Hin) as (_&va'&Hu'&Hl'&[y Hy]).
  destruct ls_views as (Hlr&_&Hl0&_). destruct (leaf_once s0 A L0 Hi0 par va par va' d) as (_&Hk); auto.
  rewrite <- (leaf_key _ _ va va' Hk) in Hy. congruence.
Qed.

Lemma ls_leaves : NoDup (with_shared d D) /\ forall y, y ∈ with_shared d D -> (y ∈ L0) /\ exists va', user va' /\
  leaf s0.(v_mem) par va' = Some y /\ is_Some (leaf s'.(v_mem) r va').
Proof using Hi0 Hpar Hc Hu Htn Hto Hz Hpr Hsh.
  destruct (cp_leaves _ _ _ _ Hc) as [Hnd HD].
  assert (Hold : forall y, y ∈ D -> (y ∈ L0) /\ exists va', user va' /\ leaf s0.(v_mem) par va' = Some y /\
    is_Some (leaf s'.(v_mem) r va')).
  { intros y Hy. destruct (HD y Hy) as (HyL&va'&Hu'&Hl'&Hs). split; [done|]. exists va'. split_and!; auto.
    rewrite ls_leaf by auto using cp_root. case_decide; eauto. }
  unfold with_shared. destruct ls_frame as (_&_&_&_&[(_&HdL&Hpos)|[Hnm Hz0]]); [|by rewrite Hz0].
  rewrite (proj2 (Z.ltb_lt _ _) Hpos). split; [constructor; [apply ls_new|done]|].
  intros y [->|Hy]%elem_of_cons; [|auto]. split; [done|]. exists va. destruct ls_views as (_&_&Hl0&_).
  split_and!; auto. rewrite ls_leaf, decide_True by auto using cp_root. eauto.
Qed.

Lemma ls_frames g : (exists y, y ∈ with_shared c C ++ L0 /\ frame s'.(v_mem) y = g) <->
  exists y, y ∈ C ++ L0 /\ frame s.(v_mem) y = g.
Proof using Hi0 Hpar Hc Hu Htn Hto Hz Hpr Hsh.
  destruct ls_entry as (He1&_&Hd&Hc'&Hoth&_). destruct ls_views as (Hlr&_&_&Hm).
  destruct (shared_entry_bits s0.(v_pmm) (s0.(v_mem) d)) as [Hph _]. rewrite <- He1, Hm in Hph.
  pose proof (place_new _ _ s r va tnew (cp_inv _ _ _ _ Hc) cp_root Hu Htn Hlr) as Hcn.
  assert (Hfr : forall y, y <> c -> frame s'.(v_mem) y = frame s.(v_mem) y).
  { intros y Hy. unfold frame. destruct (decide (y = d)) as [->|Hyd]; [rewrite Hd; exact Hph|by rewrite Hoth]. }
  assert (Hold : forall y, y ∈ C ++ L0 -> frame s'.(v_mem) y = frame s.(v_mem) y) by (intros y Hy; apply Hfr; by intros ->).
  assert (Hin : forall y, y ∈ C ++ L0 -> y ∈ with_shared c C ++ L0).
  { intros y. unfold with_shared. case_match; [|done]. rewrite <- app_comm_cons. by apply list_elem_of_further. }
  split; intros (y&Hy&<-); [|exists y; auto].
  assert (Hback : y ∈ C ++ L0 -> exists y0, y0 ∈ C ++ L0 /\ frame s.(v_mem) y0 = frame s'.(v_mem) y).
  { intros Hy'. exists y. split; [done|]. symmetry. auto. }
  unfold with_shared in Hy. destruct ls_frame as (_&_&_&_&[(_&HdL&Hpos)|[Hnm Hz0]]); [|rewrite Hz0 in Hy; auto].
  rewrite (proj2 (Z.ltb_lt _ _) Hpos), <- app_comm_cons in Hy. apply elem_of_cons in Hy as [->|Hy]; [|auto].
  exists d. split; [apply elem_of_app; by right|]. unfold frame. rewrite Hc'. symmetry. exact Hph.
Qed.

Lemma ls_stray g : aligned g -> stray s' (r :: A) (with_shared c C ++ L0) g <-> stray s0 A L0 g.
Proof using Hi0 Hpar Hc Hu Htn Hto Hz Hpr Hsh Hover.
  intros Hg. rewrite <- (cp_stray _ _ _ _ Hc) by done. destruct ls_refs as (_&_&_&_&Hpos&_).
  unfold stray. rewrite Hpos, ls_table by done. pose proof (ls_frames g) as [H1 H2].
  split; intros (Ha&Hb&Hn); split_and!; auto; intros y Hy He.
  - destruct H2 as (z&Hz'&Hf); [by exists y|]. by apply (Hn z).
  - destruct H1 as (z&Hz'&Hf); [by exists y|]. by apply (Hn z).
Qed.

Lemma leaf_step_ok : copied T (with_shared c C) (with_shared d D) s' /\ extends s s' /\ complete s' va.
Proof using All.
  pose proof (cp_inv _ _ _ _ Hc) as Hi. destruct ls_entry as (He1&Htlb&_&_&Hoth&_).
  destruct ls_refs as (Hb&Hg&Hav&Hfr&_&Href).
  assert (Hsv : forall va', user va' -> key 4 va' = key 4 va -> forall as_, as_ = r \/ as_ = par ->
    view s'.(v_mem) as_ va' = shared_entry s0.(v_pmm) <$> view s0.(v_mem) par va').
  { intros va' Hu' Hk as_ Has. rewrite ls_view, decide_True; auto.
    - rewrite (view_key _ _ va' va Hk), ls_shared, He1. reflexivity.
    - destruct Has as [->| ->]; auto using cp_root, cp_in. }
  assert (Hno : forall as_ va', as_ ∈ r :: A -> user va' -> ~ ((as_ = r \/ as_ = par) /\ key 4 va' = key 4 va) ->
    view s'.(v_mem) as_ va' = view s.(v_mem) as_ va') by (intros as_ va' Ha Hu' Hne; by rewrite ls_view, decide_False).
  split_and!.
  - constructor; auto using ls_inv, ls_leaves, ls_stray.
    + by rewrite Hb, (cp_base _ _ _ _ Hc).
    + by rewrite Hg, (cp_pages _ _ _ _ Hc).
    + intros as_ va' n Ha Hu' Hn. rewrite ls_tab by auto using cp_in. by apply (cp_tab _ _ _ _ Hc).
    + intros va' n t Hu' Hn. rewrite ls_tab by auto using cp_root. by apply (cp_fresh _ _ _ _ Hc).
    + intros as_ va' Ha Hne Hu'. rewrite Hno; [by apply (cp_other _ _ _ _ Hc)|by apply cp_in|done|].
      intros [[->|?] _]; done.
    + intros va' Hu'. destruct (decide (key 4 va' = key 4 va)) as [Hk|Hk]; [right; auto|].
      rewrite !Hno by (auto using cp_root, cp_in; tauto). by apply (cp_view _ _ _ _ Hc).
    + intros as_ va' Ha Hu'. rewrite ls_huge by auto using cp_in. by apply (cp_huge _ _ _ _ Hc).
    + intros va' Hu'. rewrite ls_huge by auto using cp_root. by apply (cp_child_huge _ _ _ _ Hc).
    + intros a Hf Ht. rewrite Hoth; [by apply (cp_mem _ _ _ _ Hc)|..]; intros ->;
        destruct (cp_plain _ _ _ _ Hc _ Hf Ht) as [_ Hnt]; apply Hnt.
      * rewrite (table_slot s _ _ Hi par va 3 told) by auto using cp_in. exists par, va, 3%nat. auto using cp_in.
      * rewrite (table_slot s _ _ Hi r va 3 tnew) by auto using cp_root. exists r, va, 3%nat. auto using cp_root.
    + intros g Hf%Hfr. by apply (cp_free _ _ _ _ Hc).
    + rewrite Htlb. apply Hc.
    + destruct (cp_tables _ _ _ _ Hc) as [Hnd HT]. split; [done|]. intros t Hin.
      destruct (HT t Hin) as (va'&n&?&?&?&?). exists va', n. rewrite ls_tab by auto using cp_root. auto.
    + by rewrite Hav, (cp_avail _ _ _ _ Hc).
  - split; [intros va' n t Hu' Hn Ht; by rewrite ls_tab by auto using cp_root|].
    intros va' Hu' (H1&H2&H3). unfold complete, huge_page in *. rewrite ls_huge by auto using cp_root.
    destruct (decide (key 4 va' = key 4 va)) as [Hk|Hk]; [auto|]. rewrite !Hno by (auto using cp_root, cp_in; tauto). done.
  - unfold complete. split_and!; auto. unfold huge_page. rewrite (tab_no_huge _ _ _ tnew), (tab_no_huge s0.(v_mem) _ _ told); [done|..].
    + by rewrite <- (cp_tab _ _ _ _ Hc).
    + by rewrite ls_tab by auto using cp_root.
Qed.
End leaf_step.
(** ** A 2 MiB page is shared *)
Section huge_step.
Variables (T C D : list Z) (s : vmst) (va tnew told : Z).
Hypotheses (Hc : copied T C D s) (Hu : user va).
Hypotheses (Htn : tab s.(v_mem) r va 2 = Some tnew) (Hto : tab s.(v_mem) par va 2 = Some told).
Abbreviation e := (s.(v_mem) (slot told (idx 2 va))).
Abbreviation c := (slot tnew (idx 2 va)).
Hypotheses (Hz : s.(v_mem) c = 0) (Hpr : has e PTE_PRESENT = true) (Hhg : has e PTE_HUGE = true).
Abbreviation s' := (set_leaf s c e).

Lemma hs_child : child 2 e = None.
Proof using Hhg. unfold child. cbn [Nat.eqb andb]. by rewrite Hhg, andb_false_r. Qed.

Lemma hs_parent : huge s.(v_mem) par va = Some e /\ huge_page s0.(v_mem) par va = Some e.
Proof using Hpar Hc Hu Hto Hpr Hhg.
  assert (Hh : huge s.(v_mem) par va = Some e) by (unfold huge; rewrite Hto; cbv zeta; by rewrite Hhg).
  split; [done|]. unfold huge_page. rewrite <- (cp_huge _ _ _ _ Hc) by auto. by rewrite Hh, Hpr.
Qed.

Lemma hs_tab as_ va' k : as_ ∈ r :: A -> user va' -> (k <= 3)%nat ->
  tab s'.(v_mem) as_ va' k = tab s.(v_mem) as_ va' k.
Proof using Hc Hu Htn Hz Hhg.
  intros Ha Hu' Hk. apply (write_tab_same s (r :: A) (C ++ L0) (cp_inv _ _ _ _ Hc) r va 2 tnew); auto using cp_root.
  - intros a _ Hne. by apply mwrite_ne.
  - intros _. cbn [v_mem set_leaf with_mem]. by rewrite mwrite_eq, hs_child, Hz, child_zero.
Qed.

Lemma hs_leaf_entry as_ va' t : as_ ∈ r :: A -> user va' -> tab s.(v_mem) as_ va' 3 = Some t ->
  s'.(v_mem) (slot t (idx 3 va')) = s.(v_mem) (slot t (idx 3 va')).
Proof using Hc Hu Htn.
  intros Ha Hu' Ht. apply mwrite_ne. intros He.
  destruct (slot_once s _ _ (cp_inv _ _ _ _ Hc) as_ va' 3 t r va 2 tnew) as (_&?&_); auto using cp_root; lia.
Qed.

Lemma hs_huge as_ va' : as_ ∈ r :: A -> user va' ->
  huge s'.(v_mem) as_ va' =
    if decide (as_ = r /\ key 3 va' = key 3 va) then Some e else huge s.(v_mem) as_ va'.
Proof using Hc Hu Htn Hz Hhg.
  intros Ha Hu'. unfold huge. rewrite hs_tab by auto. cbn [v_mem set_leaf with_mem].
  destruct (decide (as_ = r /\ key 3 va' = key 3 va)) as [[-> Hk]|Hne].
  - apply key_inj in Hk as [Hk Hidx]. rewrite (tab_key _ _ va' va 2 Hk), Htn, Hidx. cbv zeta. by rewrite mwrite_eq, Hhg.
  - destruct (tab s.(v_mem) as_ va' 2) as [t|] eqn:Ht; [|done]. rewrite mwrite_ne; [done|]. intros He. apply Hne.
    destruct (slot_once s _ _ (cp_inv _ _ _ _ Hc) as_ va' 2 t r va 2 tnew) as (?&_&?); auto using cp_root.
Qed.

Lemma hs_inv : pt_inv s' (r :: A) (C ++ L0) /\
  forall as_ va', as_ ∈ r :: A -> user va' -> leaf s'.(v_mem) as_ va' = leaf s.(v_mem) as_ va'.
Proof using Hpar Hc Hu Htn Hto Hz Hpr Hhg.
  apply (inv_walks s (r :: A) (C ++ L0) (cp_inv _ _ _ _ Hc)); [done|exact hs_tab|exact hs_leaf_entry|].
  intros as_ va' e' Ha Hu'. rewrite hs_huge by auto. case_decide.
  - intros [= <-]. apply (pi_huge _ _ _ (cp_inv _ _ _ _ Hc) par va); auto using cp_in. apply hs_parent.
  - by apply (pi_huge _ _ _ (cp_inv _ _ _ _ Hc)).
Qed.

Lemma hs_view as_ va' : as_ ∈ r :: A -> user va' -> view s'.(v_mem) as_ va' = view s.(v_mem) as_ va'.
Proof using Hpar Hc Hu Htn Hto Hz Hpr Hhg.
  intros Ha Hu'. unfold view. rewrite (proj2 hs_inv) by auto. destruct (leaf s.(v_mem) as_ va') as [y|] eqn:Hl; [|done].
  destruct (leaf_slot s _ _ _ Hl) as (t&Ht&->&_). by rewrite (hs_leaf_entry as_ va' t).
Qed.

Lemma hs_empty va' : user va' -> key 3 va' = key 3 va ->
  view s.(v_mem) r va' = None /\ view s.(v_mem) par va' = None /\ view s0.(v_mem) par va' = None.
Proof using Hpar Hc Hu Htn Hto Hz Hhg.
  intros Hu' Hk. assert (Hn : forall m as_ t x, tab m as_ va 2 = Some t -> child 2 (m (slot t (idx 2 va))) = None -> x = va' -> view m as_ x = None).
  { intros m as_ t x Ht Hch ->. unfold view, leaf. rewrite (tab_key m as_ va' va 3 Hk). cbn [tab] in *. rewrite Ht.
    by rewrite Hch. }
  split_and!.
  - apply (Hn _ _ tnew); auto. by rewrite Hz, child_zero.
  - apply (Hn _ _ told); auto. apply hs_child.
  - unfold view. rewrite <- (cp_leaf _ _ _ _ Hc) by auto. unfold leaf.
    rewrite (tab_key _ _ va' va 3 Hk). cbn [tab] in *. rewrite Hto. fold (idx 2 va). by rewrite hs_child.
Qed.

Lemma hs_stray g : aligned g -> stray s' (r :: A) (C ++ L0) g <-> stray s (r :: A) (C ++ L0) g.
Proof using Hpar Hc Hu Htn Hto Hz Hpr Hhg.
  intros _. unfold stray. cbn [v_pmm set_leaf with_mem].
  assert (Ht : is_table s'.(v_mem) (r :: A) g <-> is_table s.(v_mem) (r :: A) g).
  { split; intros (as_&va'&n&Ha&Hu'&Hn&Ht); exists as_, va', n; [rewrite <- hs_tab|rewrite hs_tab]; auto. }
  assert (Hf : forall y, y ∈ C ++ L0 -> frame s'.(v_mem) y = frame s.(v_mem) y).
  { intros y Hy. destruct (in_L s _ _ (cp_inv _ _ _ _ Hc) y Hy) as (as_&va'&Ha&Hu'&Hl).
    destruct (leaf_slot s _ _ _ Hl) as (t&Ht'&->&_). unfold frame. by rewrite (hs_leaf_entry as_ va' t). }
  rewrite Ht. split; intros (?&?&Hn); split_and!; auto; intros y Hy; [rewrite <- Hf|rewrite Hf]; auto.
Qed.

Lemma huge_step_ok : copied T C D s' /\ extends s s' /\
  forall va', user va' -> key 3 va' = key 3 va -> complete s' va'.
Proof using All.
  pose proof hs_parent as [Hph Hph0]. split_and!.
  - destruct Hc as [c1 c2 c3 c4 c5 c6 c7 c8 c9 c10 c11 c12 c13 c14 c15 c16 c17]. constructor; auto.
    + apply hs_inv.
    + intros as_ va' n Ha Hu' Hn. rewrite hs_tab by auto using cp_in. by apply c4.
    + intros va' n t Hu' Hn. rewrite hs_tab by auto using cp_root. by apply c5.
    + intros as_ va' Ha Hne Hu'. rewrite hs_view by auto using cp_in. by apply c6.
    + intros va' Hu'. rewrite !hs_view by auto using cp_in, cp_root. by apply c7.
    + intros as_ va' Ha Hu'. rewrite hs_huge, decide_False by (auto using cp_in; intros [-> _]; done). by apply c8.
    + intros va' Hu'. rewrite hs_huge by auto using cp_root. case_decide as Hk; [right|by apply c9].
      rewrite <- Hph0. unfold huge_page. destruct Hk as [_ Hk]. by rewrite (huge_key _ _ va' va Hk).
    + intros a Hf Ht. cbn [v_mem set_leaf with_mem]. rewrite mwrite_ne; [by apply c10|]. intros ->.
      destruct (cp_plain _ _ _ _ Hc _ Hf Ht) as [_ Hnt]. apply Hnt.
      rewrite (table_slot s _ _ c1 r va 2 tnew) by auto using cp_root. exists r, va, 2%nat. auto using cp_root.
    + destruct c13 as [Hnd HT]. split; [done|]. intros t Hin. destruct (HT t Hin) as (va'&n&?&?&?&?).
      exists va', n. rewrite hs_tab by auto using cp_root. auto.
    + destruct c15 as [Hnd HD]. split; [done|]. intros y Hy. destruct (HD y Hy) as (?&va'&?&?&?).
      split; [done|]. exists va'. rewrite (proj2 hs_inv) by auto using cp_root. auto.
    + intros g Hg. rewrite hs_stray by done. by apply c17.
  - split; [intros va' n t Hu' Hn Ht; by rewrite hs_tab by auto using cp_root|].
    intros va' Hu' (H1&H2&H3). unfold complete. rewrite !hs_view by auto using cp_root, cp_in. split_and!; auto.
    revert H3. unfold huge_page at 1 3. rewrite hs_huge by auto using cp_root. case_decide as Hk; [|done]. intros _.
    destruct Hk as [_ Hk]. unfold huge_page in *. by rewrite Hpr, (huge_key _ _ va' va Hk), Hph0.
  - intros va' Hu' Hk. destruct (hs_empty va' Hu' Hk) as (Hv1&Hv2&Hv3). unfold complete.
    rewrite !hs_view, Hv1, Hv2, Hv3 by auto using cp_root, cp_in. split_and!; auto.
    unfold huge_page in *. rewrite hs_huge, decide_True, Hpr, (huge_key _ _ va' va Hk) by auto using cp_root. done.
Qed.
End huge_step.
End copy.
