(* ===== verification/PtMask.v ===== *)
(** * A tree whose tables are not cleared yet

    While [vmm_copy_pml4] fills a new table, the entries it has not reached
    hold whatever the page held before.  [masks r P s h]: in [h] the entries
    [P] of the tables of [r] are empty, and otherwise [h] is the state [s] of
    the machine.  The invariant speaks of [h], the code runs on [s]. *)
From S2P Require Import Prelude State Pmm Pte VmCow Vmm PtWalk PtInv PtGrow PtMap Mmap PtOps PtSpace PtCopy.

(** ** Addresses by index *)

Lemma key_div n va : (n <= 4)%nat -> 0 <= va < 2 ^ 48 -> key n va = va / 2 ^ (48 - 9 * Z.of_nat n).
Proof.
  intros Hn Hva. assert (Hk : forall k, (k <= 4)%nat -> key (4 - k) va = va / 2 ^ (12 + 9 * Z.of_nat k)).
  { induction k as [|k IH]; intros Hk; [by rewrite key_page by done|].
    specialize (IH ltac:(lia)). replace (4 - k)%nat with (S (4 - S k)) in IH by lia. cbn [key] in IH.
    pose proof (idx_range (4 - S k) va) as Hr.
    replace (12 + 9 * Z.of_nat (S k)) with (12 + 9 * Z.of_nat k + 9) by lia.
    rewrite Z.pow_add_r, <- Z.div_div by lia. rewrite <- IH. change (2 ^ 9) with 512.
    rewrite Z.div_add_l, (Z.div_small (idx _ _)) by lia. lia. }
  specialize (Hk (4 - n)%nat ltac:(lia)). replace (4 - (4 - n))%nat with n in Hk by lia. rewrite Hk. do 2 f_equal. lia.
Qed.

Lemma key_bound n va : 0 <= key n va < 2 ^ (9 * Z.of_nat n).
Proof.
  induction n as [|n IH]; [cbn; lia|]. cbn [key]. pose proof (idx_range n va).
  replace (9 * Z.of_nat (S n)) with (9 * Z.of_nat n + 9) by lia. rewrite Z.pow_add_r by lia. change (2 ^ 9) with 512. lia.
Qed.

(** An address on the way to [va] as far as level [n], with index [i] there. *)
Lemma turn n va i : (n <= 3)%nat -> user va -> 0 <= i < 512 -> (n = 0%nat -> i < 256) ->
  exists va', user va' /\ key n va' = key n va /\ idx n va' = i.
Proof.
  intros Hn Hu Hi H0. set (k := key n va * 512 + i). pose proof (key_bound n va) as Hb.
  exists (k * 2 ^ (48 - 9 * Z.of_nat (S n))).
  assert (Hk : 0 <= k < 2 ^ (9 * Z.of_nat (S n))).
  { unfold k. replace (9 * Z.of_nat (S n)) with (9 * Z.of_nat n + 9) by lia. rewrite Z.pow_add_r by lia. change (2 ^ 9) with 512. lia. }
  assert (Hp : 0 < 2 ^ (48 - 9 * Z.of_nat (S n))) by (apply Z.pow_pos_nonneg; lia).
  assert (H48 : 2 ^ (9 * Z.of_nat (S n)) * 2 ^ (48 - 9 * Z.of_nat (S n)) = 2 ^ 48).
  { rewrite <- Z.pow_add_r by lia. f_equal. lia. }
  set (va' := k * 2 ^ (48 - 9 * Z.of_nat (S n))).
  assert (Hkey : key (S n) va' = k).
  { unfold va'. rewrite key_div by (try lia; nia). by rewrite Z.div_mul by lia. }
  cbn [key] in Hkey. pose proof (idx_range n va'). unfold k in Hkey.
  assert (Hkn : key n va' = key n va) by lia. assert (Hin : idx n va' = i) by lia. split_and!; auto.
  unfold user in *. destruct n as [|n]; [cbn [idx] in Hin; specialize (H0 eq_refl); lia|].
  apply (key_le 1) in Hkn; [|lia]. cbn [key idx] in Hkn. lia.
Qed.

(** An entry that is not present leads nowhere. *)
Lemma absent_none m as_ va va' n t :
  (n <= 3)%nat -> tab m as_ va n = Some t -> has (m (slot t (idx n va))) PTE_PRESENT = false ->
  key (S n) va' = key (S n) va -> view m as_ va' = None /\ huge_page m as_ va' = None.
Proof.
  intros Hn Ht Hp Hk. pose proof (key_inj _ _ _ Hk) as [Hk' Hidx].
  assert (Ht' : tab m as_ va' n = Some t) by (by rewrite (tab_key _ _ va' va n Hk')).
  rewrite <- Hidx in Hp. destruct (decide (n = 3%nat)) as [->|Hn3].
  { split; [unfold view, leaf; rewrite Ht'; cbv zeta; by rewrite Hp|]. unfold huge_page. by rewrite (tab_no_huge _ _ _ t). }
  assert (Hnext : tab m as_ va' (S n) = None) by (cbn [tab]; rewrite Ht'; unfold child; by rewrite Hp).
  assert (Hup : forall k, (S n <= k)%nat -> tab m as_ va' k = None).
  { intros k Hk1. destruct (tab m as_ va' k) as [u|] eqn:E; [|done].
    destruct (tab_prefix m as_ va' (S n) k u E Hk1) as (w&Hw). congruence. }
  split; [unfold view, leaf; by rewrite Hup by lia|]. unfold huge_page, huge.
  destruct (decide (n = 2%nat)) as [->|Hn2]; [|by rewrite Hup by lia]. rewrite Ht'. cbv zeta.
  destruct (has (m (slot t (idx 2 va'))) PTE_HUGE); [|done]. by rewrite Hp.
Qed.

(** ** Masks *)

Definition is_child (r : Z) (h : vmst) (t : Z) : Prop :=
  exists va n, user va /\ (n <= 3)%nat /\ tab h.(v_mem) r va n = Some t.

(** Entry [i] of table [t] is one of those not written yet. *)
Definition pending (P : list (Z * Z * Z)) (t i : Z) : Prop := exists lo hi, (t, lo, hi) ∈ P /\ lo <= i < hi.

Record masks (r : Z) (P : list (Z * Z * Z)) (s h : vmst) : Prop := {
  mk_pmm : h.(v_pmm) = s.(v_pmm);
  mk_tlb : h.(v_tlb) = s.(v_tlb);
  mk_out : forall a, ~ is_child r h (page_down a) -> h.(v_mem) a = s.(v_mem) a;
  mk_slot : forall t i, is_child r h t -> 0 <= i < 512 ->
    pending P t i /\ h.(v_mem) (slot t i) = 0 \/ (~ pending P t i) /\ h.(v_mem) (slot t i) = s.(v_mem) (slot t i);
}.

Lemma pending_next P t l hi t' i :
  l < hi -> (forall lo hi, (t, lo, hi) ∉ P) -> pending ((t, l, hi) :: P) t' i <->
  (t' = t /\ i = l) \/ pending ((t, l + 1, hi) :: P) t' i.
Proof.
  intros Hl Hnew. unfold pending. split.
  - intros (lo&hi'&[Heq|Hin]%elem_of_cons&Hi).
    + injection Heq as -> -> ->. destruct (decide (i = l)); [by left|right]. exists (l + 1), hi. split; [apply list_elem_of_here|lia].
    + right. exists lo, hi'. split; [by apply list_elem_of_further|done].
  - intros [[-> ->]|(lo&hi'&[Heq|Hin]%elem_of_cons&Hi)].
    + exists l, hi. split; [apply list_elem_of_here|lia].
    + injection Heq as -> -> ->. exists l, hi. split; [apply list_elem_of_here|lia].
    + exists lo, hi'. split; [by apply list_elem_of_further|done].
Qed.

Lemma pending_gone P t l hi :
  (forall lo hi, (t, lo, hi) ∉ P) -> ~ pending ((t, l + 1, hi) :: P) t l.
Proof.
  intros Hnew (lo&hi'&[Heq|Hin]%elem_of_cons&Hi); [injection Heq as -> ->; lia|by apply (Hnew lo hi')].
Qed.

Section masks.
Variables (r : Z) (P : list (Z * Z * Z)) (s h : vmst) (t l hi : Z).
Hypothesis Hal : forall t, is_child r h t -> aligned t.

Lemma masks_pop : masks r ((t, hi, hi) :: P) s h -> masks r P s h.
Proof using.
  intros []. constructor; auto. intros t' i Ht Hi. destruct (mk_slot0 t' i Ht Hi) as [[(lo&hi'&Hin&Hlt) ?]|[Hn ?]]; [left|right].
  - split; [|done]. exists lo, hi'. apply elem_of_cons in Hin as [Heq|Hin]; [injection Heq as -> -> ->; lia|done].
  - split; [|done]. intros (lo&hi'&Hin&Hlt). apply Hn. exists lo, hi'. split; [by apply list_elem_of_further|done].
Qed.

(** A write outside the tables of [r], and another allocator. *)
Lemma masks_elsewhere d v p :
  masks r P s h -> ~ is_child r h (page_down d) ->
  (forall x, is_child r (set_leaf (with_pmm h p) d v) x <-> is_child r h x) ->
  masks r P (set_leaf (with_pmm s p) d v) (set_leaf (with_pmm h p) d v).
Proof using Hal.
  intros [] Hd Hch. constructor; cbn [v_pmm v_tlb v_mem set_leaf with_mem with_pmm]; auto.
  - intros a Ha. destruct (decide (a = d)) as [->|Hne]; [by rewrite !mwrite_eq|]. rewrite !mwrite_ne by done.
    apply mk_out0. by rewrite <- Hch.
  - intros t' i Ht Hi. apply Hch in Ht. assert (slot t' i <> d).
    { intros <-. apply Hd. rewrite slot_page; auto. }
    rewrite !mwrite_ne by done. by apply mk_slot0.
Qed.

Hypotheses (Hch : is_child r h t) (Hl : 0 <= l < 512) (Hlt : l < hi) (Hnew : forall lo hi, (t, lo, hi) ∉ P).
Hypothesis Hm : masks r ((t, l, hi) :: P) s h.

Lemma masks_first : h.(v_mem) (slot t l) = 0.
Proof using All.
  destruct (mk_slot _ _ _ _ Hm t l Hch Hl) as [[_ ?]|[Hn _]]; [done|]. destruct Hn.
  apply pending_next; auto.
Qed.

Lemma masks_rest t' i : is_child r h t' -> 0 <= i < 512 -> ~ (t' = t /\ i = l) ->
  pending ((t, l + 1, hi) :: P) t' i /\ h.(v_mem) (slot t' i) = 0 \/
  (~ pending ((t, l + 1, hi) :: P) t' i) /\ h.(v_mem) (slot t' i) = s.(v_mem) (slot t' i).
Proof using All.
  intros Ht Hi Hne. destruct (mk_slot _ _ _ _ Hm t' i Ht Hi) as [[Hp ?]|[Hn ?]].
  - left. split; [|done]. apply pending_next in Hp; auto. tauto.
  - right. split; [|done]. intros Hp. apply Hn. apply pending_next; auto.
Qed.

Lemma masks_other t' i : is_child r h t' -> 0 <= i < 512 -> ~ (t' = t /\ i = l) -> slot t' i <> slot t l.
Proof using Hal Hch Hl. intros Ht Hi Hne He. apply Hne. by apply slot_inj; auto. Qed.

(** The next entry is left empty. *)
Lemma masks_zero : masks r ((t, l + 1, hi) :: P) (set_leaf s (slot t l) 0) h.
Proof using All.
  constructor; cbn [v_pmm v_tlb v_mem set_leaf with_mem]; try apply Hm.
  - intros a Ha. rewrite mwrite_ne; [by apply Hm|]. intros ->. apply Ha. rewrite slot_page; auto.
  - intros t' i Ht Hi. destruct (decide (t' = t /\ i = l)) as [[-> ->]|Hne].
    + right. split; [by apply pending_gone|]. by rewrite mwrite_eq, masks_first.
    + rewrite mwrite_ne by (by apply masks_other). by apply masks_rest.
Qed.

(** The next entry is written. *)
Lemma masks_write v :
  (forall x, is_child r (set_leaf h (slot t l) v) x <-> is_child r h x) ->
  masks r ((t, l + 1, hi) :: P) (set_leaf s (slot t l) v) (set_leaf h (slot t l) v).
Proof using All.
  intros Hsame. constructor; cbn [v_pmm v_tlb v_mem set_leaf with_mem]; try apply Hm.
  - intros a Ha. rewrite Hsame in Ha. rewrite !mwrite_ne; [by apply Hm|..]; intros ->; apply Ha; rewrite slot_page; auto.
  - intros t' i Ht%Hsame Hi. destruct (decide (t' = t /\ i = l)) as [[-> ->]|Hne].
    + right. split; [by apply pending_gone|]. by rewrite !mwrite_eq.
    + rewrite !mwrite_ne by (by apply masks_other). by apply masks_rest.
Qed.

(** A new table is linked, with all its entries still to be written. *)
Lemma masks_link pa e p1 :
  aligned pa -> ~ is_child r h pa -> (forall lo hi, (pa, lo, hi) ∉ P) ->
  let h' := set_leaf (with_mem (with_pmm h p1) (mzero h.(v_mem) pa)) (slot t l) e in
  (forall x, is_child r h' x <-> is_child r h x \/ x = pa) ->
  masks r ((pa, 0, 512) :: (t, l + 1, hi) :: P) (set_leaf (with_pmm s p1) (slot t l) e) h'.
Proof using All.
  intros Hpa Hnpa HnP h' Hsame.
  assert (Hout : forall t' i, is_child r h t' -> 0 <= i < 512 -> mzero h.(v_mem) pa (slot t' i) = h.(v_mem) (slot t' i)).
  { intros t' i Ht Hi. apply mzero_out. intros Hin. apply in_frame_page_down in Hin; [|done].
    rewrite slot_page in Hin by auto. by subst. }
  assert (Hpend : forall t' i, t' <> pa -> pending ((pa, 0, 512) :: (t, l + 1, hi) :: P) t' i <-> pending ((t, l + 1, hi) :: P) t' i).
  { intros t' i Hne. split; intros (lo&hi'&Hin&Hi); exists lo, hi'; (split; [|done]).
    - apply elem_of_cons in Hin as [Heq|]; [congruence|done].
    - by apply list_elem_of_further. }
  constructor; cbn [v_pmm v_tlb v_mem h' set_leaf with_mem with_pmm]; try done; try apply Hm.
  - intros a Ha. rewrite Hsame in Ha. assert (Hne : a <> slot t l).
    { intros ->. apply Ha. left. rewrite slot_page; auto. }
    rewrite !mwrite_ne, mzero_out; auto; [apply Hm; tauto|]. intros Hin. apply in_frame_page_down in Hin; [|done]. tauto.
  - intros t' i Ht Hi. destruct (decide (t' = pa)) as [->|Hnp].
    + left. split; [exists 0, 512; split; [apply list_elem_of_here|lia]|].
      assert (Hs : slot pa i <> slot t l).
      { intros He. apply Hnpa. apply slot_inj in He as [-> _]; auto. }
      rewrite mwrite_ne by done. apply mzero_in. by apply slot_in.
    + apply Hsame in Ht as [Ht|]; [|done]. rewrite Hpend by done.
      destruct (decide (t' = t /\ i = l)) as [[-> ->]|Hne].
      * right. split; [by apply pending_gone|]. by rewrite !mwrite_eq.
      * rewrite !mwrite_ne by (by apply masks_other). rewrite Hout by done. by apply masks_rest.
Qed.
End masks.
