(* ===== verification/PtClone.v ===== *)
(** * vmm_copy_pml4 copies an address space *)
From S2P Require Import Prelude State Pmm Pte VmCow Vmm PtWalk PtInv PtGrow PtMap Mmap PtOps PtSpace PtCopy PtMask.

(** The entry of a copied table. *)
Lemma moved_child n e pa :
  aligned pa -> 0 <= pa < 2 ^ 52 -> is_Some (child n e) -> child n (moved_entry e pa) = Some pa.
Proof.
  intros Hal Hpa. unfold child.
  assert (Hb : forall k, 0 <= k < 12 -> has (moved_entry e pa) k = has e k).
  { intros k Hk. rewrite !has_testbit by lia. unfold moved_entry. rewrite Z.lor_spec, Z.land_spec, Z.lnot_spec by lia.
    rewrite (testbit_aligned pa k) by done. rewrite x86_mask, testbit_field by lia.
    destruct (Z.leb_spec 12 k); [lia|]. cbn. by rewrite andb_true_r. }
  rewrite !Hb by (unfold PTE_PRESENT, PTE_HUGE; lia). case_match; [|by intros [? ?]]. intros _. f_equal.
  apply Z.bits_inj'. intros i Hi. unfold moved_entry. rewrite !Z.land_spec, Z.lor_spec, Z.land_spec, Z.lnot_spec by lia.
  rewrite x86_mask, testbit_field by lia. destruct (Z.leb_spec 12 i), (Z.ltb_spec i 52); cbn; rewrite ?andb_false_r, ?andb_true_r, ?orb_false_r; auto.
  - symmetry. apply (testbit_high pa 52); lia.
  - symmetry. apply testbit_aligned; [done|lia].
  - symmetry. apply testbit_aligned; [done|lia].
Qed.

Section clone.
Variables (s0 : vmst) (A L0 : list Z) (par r : Z).
Hypotheses (Hi0 : pt_inv s0 A L0) (Hpar : par ∈ A) (Hr : r ∉ A).
Definition pend_ok (P : list (Z * Z * Z)) (h : vmst) : Prop :=
  NoDup ((fun q => q.1.1) <$> P) /\ forall t lo hi, (t, lo, hi) ∈ P -> is_child r h t /\ 0 <= lo /\ hi <= 512.

Definition stage (P : list (Z * Z * Z)) (s h : vmst) : Prop :=
  exists T C D, masks r P s h /\ copied s0 A L0 par r T C D h /\ pend_ok P h.

Lemma pend_new t lo hi P h : pend_ok ((t, lo, hi) :: P) h -> forall lo hi, (t, lo, hi) ∉ P.
Proof using.
  intros [Hnd _] lo' hi' Hin. apply NoDup_cons in Hnd as [Hn _]. apply Hn. apply list_elem_of_fmap. by exists (t, lo', hi').
Qed.

Lemma pend_next t lo hi P h : pend_ok ((t, lo, hi) :: P) h -> pend_ok ((t, lo + 1, hi) :: P) h.
Proof using.
  intros [Hnd H]. split; [done|]. intros t' lo' hi' [Heq|Hin]%elem_of_cons; [injection Heq as -> -> ->|].
  - destruct (H t lo hi) as (?&?&?); [apply list_elem_of_here|]. split_and!; auto; lia.
  - apply H. by apply list_elem_of_further.
Qed.

Lemma pend_mono P h h' : extends s0 par r h h' -> pend_ok P h -> pend_ok P h'.
Proof using.
  intros [He _] [Hnd H]. split; [done|]. intros t lo hi Hin. destruct (H t lo hi Hin) as ((va&n&?&?&?)&?&?).
  split_and!; auto. exists va, n. auto.
Qed.

Lemma pend_pop t lo hi P h : pend_ok ((t, lo, hi) :: P) h -> pend_ok P h.
Proof using.
  intros [Hnd H]. apply NoDup_cons in Hnd as [_ Hnd]. split; [done|]. intros t' lo' hi' Hin. apply H. by apply list_elem_of_further.
Qed.

Lemma stage_pop t hi P s h : stage ((t, hi, hi) :: P) s h -> stage P s h.
Proof using. intros (T&C&D&Hm&Hc&Hp). exists T, C, D. split_and!; eauto using masks_pop, pend_pop. Qed.

Section children.
Variables (T C D : list Z) (h : vmst).
Hypothesis Hc : copied s0 A L0 par r T C D h.

Lemma child_aligned t : is_child r h t -> aligned t.
Proof using Hc.
  intros (va'&k&?&?&?).
  apply (table_aligned h (r :: A) (C ++ L0) (cp_inv _ _ _ _ _ _ _ _ _ Hc) r va' k); auto using cp_root.
Qed.

Lemma child_par va' k t : user va' -> (k <= 3)%nat -> tab h.(v_mem) par va' k = Some t -> ~ is_child r h t.
Proof using Hpar Hr Hc.
  intros Hu' Hk Ht (va2&k2&Hu2&Hk2&Ht2).
  assert (He : r = par); [|apply Hr; by rewrite He].
  apply (pi_inj _ _ _ (cp_inv _ _ _ _ _ _ _ _ _ Hc) r va2 k2 par va' k t); auto using cp_root, cp_in.
Qed.
End children.

Section at_entry.
Variables (T C D : list Z) (P : list (Z * Z * Z)) (s h : vmst) (va : Z) (n : nat) (told tnew hi : Z).
Hypotheses (Hm : masks r ((tnew, idx n va, hi) :: P) s h) (Hc : copied s0 A L0 par r T C D h).
Hypothesis Hp : pend_ok ((tnew, idx n va, hi) :: P) h.
Hypotheses (Hu : user va) (Hn : (n <= 3)%nat) (Hlt : idx n va < hi).
Hypotheses (Hto : tab h.(v_mem) par va n = Some told) (Htn : tab h.(v_mem) r va n = Some tnew).

Lemma at_slot : h.(v_mem) (slot tnew (idx n va)) = 0 /\ s.(v_mem) (slot told (idx n va)) = h.(v_mem) (slot told (idx n va)).
Proof using Hpar Hr Hm Hc Hp Hu Hn Hlt Hto Htn.
  assert (Hch : is_child r h tnew) by (exists va, n; auto). split.
  - apply (masks_first r P s h tnew (idx n va) hi); eauto using child_aligned, pend_new.
  - symmetry. apply (mk_out _ _ _ _ Hm). rewrite slot_page; auto.
    + by apply (child_par _ _ _ _ Hc va n).
    + apply (table_aligned h (r :: A) (C ++ L0) (cp_inv _ _ _ _ _ _ _ _ _ Hc) par va n); auto using cp_in.
Qed.

(** Nothing to copy. *)
Lemma absent_ok : has (h.(v_mem) (slot told (idx n va))) PTE_PRESENT = false ->
  stage ((tnew, idx n va + 1, hi) :: P) (set_leaf s (slot tnew (idx n va)) 0) h /\
  forall va', user va' -> key (S n) va' = key (S n) va -> complete s0 par r h va'.
Proof using Hpar Hr Hm Hc Hp Hu Hn Hlt Hto Htn.
  intros Habs. assert (Hch : is_child r h tnew) by (exists va, n; auto). destruct at_slot as [Hz _]. split.
  - exists T, C, D. split_and!; [|done|by apply pend_next].
    apply masks_zero; eauto using child_aligned, pend_new.
  - intros va' Hu' Hk. destruct (absent_none _ _ _ va' _ _ Hn Hto Habs Hk) as [Hv Hg].
    destruct (absent_none _ _ _ va' _ _ Hn Htn ltac:(by rewrite Hz) Hk) as [Hv' Hg'].
    assert (Hv0 : view s0.(v_mem) par va' = None).
    { unfold view in *. rewrite <- (cp_leaf _ _ _ _ _ _ _ _ _ Hc) by auto. by destruct (leaf h.(v_mem) par va'). }
    assert (Hg0 : huge_page s0.(v_mem) par va' = None).
    { unfold huge_page in *. by rewrite <- (cp_huge _ _ _ _ _ _ _ _ _ Hc). }
    unfold complete. by rewrite Hv0, Hg0.
Qed.
End at_entry.

Definition entry_copied (n : nat) (hi : Z) (body : Z -> Z -> Z -> ST vmst unit) : Prop :=
  forall P va told tnew s h,
    user va -> idx n va < hi -> stage ((tnew, idx n va, hi) :: P) s h ->
    tab h.(v_mem) par va n = Some told -> tab h.(v_mem) r va n = Some tnew ->
    wp nopanic (body told tnew (idx n va)) (fun _ s' => exists h',
      stage ((tnew, idx n va + 1, hi) :: P) s' h' /\ extends s0 par r h h' /\
      forall va', user va' -> key (S n) va' = key (S n) va -> complete s0 par r h' va') s.

Definition table_copied (n : nat) (hi : Z) (loop : Z -> Z -> ST vmst unit) : Prop :=
  forall P va told tnew s h,
    user va -> stage ((tnew, 0, hi) :: P) s h ->
    tab h.(v_mem) par va n = Some told -> tab h.(v_mem) r va n = Some tnew ->
    wp nopanic (loop told tnew) (fun _ s' => exists h',
      stage P s' h' /\ extends s0 par r h h' /\
      forall va', user va' -> key n va' = key n va -> complete s0 par r h' va') s.

Lemma stage_tab P s h as_ va n : stage P s h -> as_ ∈ A -> user va -> (n <= 3)%nat ->
  tab h.(v_mem) as_ va n = tab s0.(v_mem) as_ va n.
Proof using. intros (T&C&D&_&Hc&_). apply (cp_tab _ _ _ _ _ _ _ _ _ Hc). Qed.

Lemma loop_copied n k body :
  (n <= 3)%nat -> k = (if decide (n = 0%nat) then 256%nat else 512%nat) ->
  entry_copied n (Z.of_nat k) body -> table_copied n (Z.of_nat k) (fun o t => mfor k 0 (body o t)).
Proof using Hpar.
  intros Hn Hk Hbody P va told tnew s h Hu Hst Hto Htn.
  assert (Hkb : (k <= 512)%nat /\ (n = 0%nat -> k = 256%nat) /\ (n <> 0%nat -> k = 512%nat)) by (subst k; case_decide; lia).
  eapply wp_mono; [apply (wp_for nopanic (fun j s' => exists h', stage ((tnew, j, Z.of_nat k) :: P) s' h' /\
    extends s0 par r h h' /\ forall va', user va' -> key n va' = key n va -> idx n va' < j -> complete s0 par r h' va'))|].
  - exists h. split_and!; auto using extends_refl. intros va' _ _. pose proof (idx_range n va'). lia.
  - intros j s1 Hj (h1&Hst1&[He Hce]&Hdone).
    destruct (turn n va j Hn Hu) as (vj&Huj&Hkj&<-); [lia..|].
    eapply wp_mono; [apply (Hbody P vj told tnew s1 h1); auto; [lia|..]|].
    + rewrite (stage_tab _ _ _ par vj n Hst1), <- (stage_tab _ _ _ par vj n Hst) by auto. by rewrite (tab_key _ _ vj va n Hkj).
    + rewrite (tab_key _ _ vj va n Hkj). auto.
    + intros _ s2 (h2&Hst2&[He2 Hce2]&Hnew). exists h2. split_and!; auto.
      * apply (extends_trans _ _ _ h h1 h2); by split.
      * intros va' Hu' Hk' Hlt. destruct (decide (idx n va' = idx n vj)) as [Heq|Hne].
        -- apply Hnew; [done|]. cbn [key]. by rewrite Heq, Hk', Hkj.
        -- apply Hce2; [done|]. apply Hdone; auto. lia.
  - intros _ s' (h'&Hst'&He&Hdone). exists h'. rewrite Z.add_0_l in *. split_and!; eauto using stage_pop.
    intros va' Hu' Hk'. apply Hdone; auto. pose proof (idx_range n va').
    destruct (decide (n = 0%nat)) as [->|Hd]; [unfold user in Hu'; cbn [idx]|]; lia.
Qed.

(** Reference counts far from their limit, a free page for every table, and
    2 MiB pages outside the allocator. *)
Hypothesis Hover : forall x, x ∈ L0 -> pmm_get_ref s0.(v_pmm) (frame s0.(v_mem) x) < 32768.
Variable Tall : list Z.
Hypothesis Htall : forall va n t, user va -> (n <= 3)%nat -> tab s0.(v_mem) par va n = Some t -> t ∈ Tall.
Hypothesis Hroom : Z.of_nat (length Tall) <= avail s0.(v_pmm).
Hypothesis Hhuge : forall va e, user va -> huge_page s0.(v_mem) par va = Some e -> ~ managed s0.(v_pmm) (x86_pte_phys e).

(** One table more: the allocator has a page for it. *)
Lemma descend_ok n hi inner T C D P va told tnew s h e :
  (n <= 2)%nat -> table_copied (S n) 512 inner -> user va -> idx n va < hi ->
  masks r ((tnew, idx n va, hi) :: P) s h -> copied s0 A L0 par r T C D h -> pend_ok ((tnew, idx n va, hi) :: P) h ->
  tab h.(v_mem) par va n = Some told -> tab h.(v_mem) r va n = Some tnew ->
  h.(v_mem) (slot told (idx n va)) = e -> is_Some (child n e) ->
  wp nopanic (new ← alloc_page; store (slot tnew (idx n va)) (moved_entry e new) ;; inner (Z.land e PTE_ADDR_MASK) new)
    (fun _ s' => exists h',
      stage ((tnew, idx n va + 1, hi) :: P) s' h' /\ extends s0 par r h h' /\
      forall va', user va' -> key (S n) va' = key (S n) va -> complete s0 par r h' va') s.
Proof using All.
  intros Hn Hinner Hu Hlt Hm Hc Hp Hto Htn He Hch. pose proof (cp_inv _ _ _ _ _ _ _ _ _ Hc) as Hi.
  assert (Hcp : child n e = Some (Z.land e PTE_ADDR_MASK)).
  { unfold child in *. case_match; [done|by destruct Hch]. }
  assert (Hto1 : tab h.(v_mem) par va (S n) = Some (Z.land e PTE_ADDR_MASK)) by (cbn [tab]; by rewrite Hto, He).
  assert (Hto0 : tab s0.(v_mem) par va (S n) = Some (Z.land e PTE_ADDR_MASK)).
  { rewrite <- Hto1. symmetry. apply (cp_tab _ _ _ _ _ _ _ _ _ Hc); auto; lia. }
  destruct (at_slot T C D P s h va n told tnew hi Hm Hc Hp Hu ltac:(lia) Hlt Hto Htn) as [Hz _].
  assert (Hav : 0 < avail h.(v_pmm)).
  { rewrite (cp_avail _ _ _ _ _ _ _ _ _ Hc). destruct (cp_tables _ _ _ _ _ _ _ _ _ Hc) as [Hnd Ht].
    assert (Hle : (length (Z.land e PTE_ADDR_MASK :: T) <= length Tall)%nat); [|cbn [length] in Hle; lia].
    apply submseteq_length, NoDup_submseteq; [constructor; [|done]|].
    - by apply (link_step_new s0 A L0 par r Hi0 Hpar T C D h va n tnew).
    - intros t [->|Hin]%elem_of_cons; [apply (Htall va (S n)); auto; lia|].
      destruct (Ht t Hin) as (va'&k&?&?&?&_). by apply (Htall va' k). }
  apply wp_bind, wp_alloc; rewrite <- (mk_pmm _ _ _ _ Hm).
  { intros p1 Eal. destruct (ci_zero _ _ (pi_cow _ _ _ Hi)) as [Hz0 _].
    by destruct (alloc_some h.(v_pmm) 0 p1 (inv_pmm_ok h _ _ Hi) Hz0 Eal Hav). }
  intros pa p1 Eal Hne. destruct (fresh_page h _ _ Hi pa p1 Eal Hne) as (Hpal&_&Hpr&Hnt&_).
  assert (Hmv : child n (moved_entry e pa) = Some pa) by (apply moved_child; auto; lia).
  destruct (link_step_ok s0 A L0 par r Hi0 Hpar Hr T C D h va n tnew _ pa (moved_entry e pa) p1 Hc Hu Hn Htn Hto0 Hz Eal Hne Hmv)
    as (Hc1&Hex1&Htn1).
  destruct (link_step_grows s0 A L0 par r Hr T C D h va n tnew pa (moved_entry e pa) p1 Hc Hu Hn Htn Hz Eal Hne Hmv)
    as (_&_&_&Htab1&Hback).
  set (h1 := set_leaf (with_mem (with_pmm h p1) (mzero (v_mem h) pa)) (slot tnew (idx n va)) (moved_entry e pa)) in *.
  assert (Hnc : ~ is_child r h pa).
  { intros (va'&k&?&?&?). apply Hnt. exists r, va', k. split_and!; auto using cp_root. }
  assert (Hsame : forall x, is_child r h1 x <-> is_child r h x \/ x = pa).
  { intros x. split.
    - intros (va'&k&Hu'&Hk&Hx). destruct (Hback va' k x Hu' Hk Hx) as [?|?]; auto. left. by exists va', k.
    - intros [(va'&k&Hu'&Hk&Hx)| ->]; [exists va', k; split_and!; auto; by apply Hex1|]. exists va, (S n). split_and!; auto; lia. }
  assert (HnP : forall lo hi, (pa, lo, hi) ∉ P).
  { intros lo hi' Hin. apply Hnc. apply Hp with lo hi'. by apply list_elem_of_further. }
  unfold store. wp_steps. eapply wp_mono; [apply (Hinner ((tnew, idx n va + 1, hi) :: P) va _ pa _ h1); auto|].
  - exists (Z.land e PTE_ADDR_MASK :: T), C, D. split_and!; auto.
    + apply masks_link; eauto using child_aligned, pend_new; [exists va, n; split_and!; auto; lia].
    + destruct (pend_mono _ _ _ Hex1 (pend_next _ _ _ _ _ Hp)) as [Hnd Hpe]. split.
      * rewrite fmap_cons. constructor; [|done]. intros Hin. apply list_elem_of_fmap in Hin as ([[t lo] hi']&Heq&Hin).
        cbn in Heq. subst t. apply Hnc. apply elem_of_cons in Hin as [Heq|Hin]; [|by destruct (HnP lo hi')].
        injection Heq as -> _ _. exists va, n. split_and!; auto; lia.
      * intros t lo hi' [Heq|Hin]%elem_of_cons; [|by apply Hpe]. injection Heq as -> -> ->. split_and!; [|lia..].
        apply Hsame. by right.
  - rewrite Htab1 by (auto; lia). done.
  - intros _ s' (h'&Hst&Hex2&Hdone). exists h'. split_and!; eauto using extends_trans.
Qed.
(** ** The four levels *)

Lemma masks_share T C D P s h va told e1 s1 :
  masks r P s h -> copied s0 A L0 par r T C D h -> user va -> tab h.(v_mem) par va 3 = Some told ->
  let d := slot told (idx 3 va) in
  vm_cow_share_leaf s d 1 = (e1, s1) ->
  exists h1, vm_cow_share_leaf h d 1 = (e1, h1) /\ masks r P s1 h1 /\ forall x, is_child r h1 x <-> is_child r h x.
Proof using Hpar Hr.
  intros Hm Hc Hu Hto d Hsh. pose proof (cp_inv _ _ _ _ _ _ _ _ _ Hc) as Hi.
  assert (Hta : page_down d = told) by (apply (table_slot h _ _ Hi par va 3); auto using cp_in).
  assert (Hnc : ~ is_child r h (page_down d)) by (rewrite Hta; by apply (child_par _ _ _ _ Hc va 3)).
  assert (Hd : s.(v_mem) d = h.(v_mem) d) by (symmetry; by apply (mk_out _ _ _ _ Hm)).
  assert (Hsame : forall v p x, is_child r (set_leaf (with_pmm h p) d v) x <-> is_child r h x).
  { intros v p x. split; intros (va'&k&?&?&Hx); exists va', k; split_and!; auto.
    - by rewrite <- (leaf_write_tab (r :: A) (C ++ L0) h par va told v Hi (cp_in _ _ _ Hpar) Hu Hto) by auto using cp_root.
    - cbn [v_mem set_leaf with_mem with_pmm].
      by rewrite (leaf_write_tab (r :: A) (C ++ L0) h par va told v Hi (cp_in _ _ _ Hpar) Hu Hto) by auto using cp_root. }
  revert Hsh. unfold vm_cow_share_leaf. rewrite Hd, (mk_pmm _ _ _ _ Hm). case_match.
  { intros [= <- <-]. by exists h. }
  destruct (arch_pte_writable (h.(v_mem) d)); intros [= <- <-]; (eexists; split; [reflexivity|]).
  - change (v_pmm (set_leaf h d _)) with (v_pmm h). change (v_pmm (set_leaf s d _)) with (v_pmm s).
    rewrite (mk_pmm _ _ _ _ Hm). split; [|apply Hsame]. apply masks_elsewhere; eauto using child_aligned.
  - rewrite (mk_pmm _ _ _ _ Hm). split; [|done]. by destruct Hm.
Qed.

Lemma copy_pt_ok : entry_copied 3 512 copy_pt_entry.
Proof using All.
  intros P va told tnew s h Hu Hlt (T&C&D&Hm&Hc&Hp) Hto Htn. unfold copy_pt_entry, load, store. wp_steps.
  destruct (at_slot T C D P s h va 3 told tnew 512 Hm Hc Hp Hu ltac:(lia) Hlt Hto Htn) as [Hz ->].
  apply wp_if; intros Hpr.
  { apply negb_true_iff in Hpr. wp_steps. exists h. destruct (absent_ok T C D P s h va 3 told tnew 512) as [Hst Hcm]; auto.
    split_and!; auto using extends_refl. }
  apply negb_false_iff in Hpr. apply wp_bind. unfold share_leaf, wp at 1.
  destruct (vm_cow_share_leaf s (slot told (idx 3 va)) 1) as [e1 s1] eqn:Hsh. wp_steps.
  destruct (masks_share T C D _ s h va told e1 s1 Hm Hc Hu Hto Hsh) as (h1&Hsh1&Hm1&Hch1).
  pose proof (leaf_step_ok s0 A L0 par r Hi0 Hpar Hr T C D h va tnew told e1 h1 Hc Hu Htn Hto Hz Hpr Hsh1 Hover) as (Hc'&He'&Hcm).
  assert (Hch : is_child r h tnew) by (by exists va, 3%nat).
  exists (set_leaf h1 (slot tnew (idx 3 va)) e1). split_and!; auto.
  - eexists _, _, _. split_and!; [|exact Hc'|by apply (pend_mono _ h), pend_next].
    apply masks_write; auto.
    + intros t Ht%Hch1. by apply (child_aligned _ _ _ _ Hc).
    + by apply Hch1.
    + by apply (pend_new _ _ _ _ _ Hp).
    + intros x. rewrite Hch1. split; intros (va'&k&?&?&Hx); exists va', k; split_and!; auto.
      * by rewrite <- (ls_tab s0 A L0 par r Hi0 Hpar T C D h va tnew told e1 h1 Hc Hu Htn Hto Hz Hpr Hsh1) by auto using cp_root.
      * by rewrite (ls_tab s0 A L0 par r Hi0 Hpar T C D h va tnew told e1 h1 Hc Hu Htn Hto Hz Hpr Hsh1) by auto using cp_root.
  - intros va' Hu' Hk. destruct Hcm as (H1&H2&H3). unfold complete, huge_page in *.
    rewrite !(view_key _ _ va' va Hk), !(huge_key _ _ va' va) by (by apply key_inj in Hk as [? _]). done.
Qed.

Lemma copy_pd_ok : entry_copied 2 512 copy_pd_entry.
Proof using All.
  intros P va told tnew s h Hu Hlt (T&C&D&Hm&Hc&Hp) Hto Htn. unfold copy_pd_entry, load, store. wp_steps.
  destruct (at_slot T C D P s h va 2 told tnew 512 Hm Hc Hp Hu ltac:(lia) Hlt Hto Htn) as [Hz ->].
  apply wp_if; intros Hpr.
  { apply negb_true_iff in Hpr. wp_steps. exists h. destruct (absent_ok T C D P s h va 2 told tnew 512) as [Hst Hcm]; auto.
    split_and!; auto using extends_refl. }
  apply negb_false_iff in Hpr. apply wp_if; intros Hhg.
  - destruct (hs_parent s0 A L0 par r Hpar T C D h va told Hc Hu Hto Hpr Hhg) as [_ Hh0].
    assert (Hsh : vm_cow_share_leaf s (slot told (idx 2 va)) (HUGE_PAGE_SIZE / PAGE_SIZE) = (h.(v_mem) (slot told (idx 2 va)), s)).
    { unfold vm_cow_share_leaf. destruct (at_slot T C D P s h va 2 told tnew 512 Hm Hc Hp Hu ltac:(lia) Hlt Hto Htn) as [_ ->].
      unfold pmm_get_ref. rewrite <- (mk_pmm _ _ _ _ Hm).
      rewrite (page_of_range s0.(v_pmm) h.(v_pmm) _ (cp_base _ _ _ _ _ _ _ _ _ Hc) (cp_pages _ _ _ _ _ _ _ _ _ Hc)).
      destruct (pmm_page_of s0.(v_pmm) _) eqn:Hq; [|done]. exfalso. apply (Hhuge va _ Hu Hh0). by eexists. }
    apply wp_bind. unfold share_leaf, wp at 1. rewrite Hsh. wp_steps.
    destruct (huge_step_ok s0 A L0 par r Hi0 Hpar Hr T C D h va tnew told Hc Hu Htn Hto Hz Hpr Hhg) as (Hc'&He'&Hcm).
    exists (set_leaf h (slot tnew (idx 2 va)) (h.(v_mem) (slot told (idx 2 va)))). split_and!; auto.
    exists T, C, D. split_and!; auto; [|by apply (pend_mono _ h), pend_next].
    assert (Hch : is_child r h tnew) by (exists va, 2%nat; auto).
    apply masks_write; eauto using child_aligned, pend_new.
    intros x. split; intros (va'&k&?&?&Hx); exists va', k; split_and!; auto.
    + by rewrite <- (hs_tab s0 A L0 par r T C D h va tnew told Hc Hu Htn Hz Hhg) by auto using cp_root.
    + by rewrite (hs_tab s0 A L0 par r T C D h va tnew told Hc Hu Htn Hz Hhg) by auto using cp_root.
  - apply (descend_ok 2 512 (fun o t => mfor 512 0 (copy_pt_entry o t)) T C D P va told tnew s h); auto.
    + change 512 with (Z.of_nat 512). apply loop_copied; auto. exact copy_pt_ok.
    + unfold child. rewrite Hpr, Hhg. by eexists.
Qed.

Lemma copy_pdp_ok : entry_copied 1 512 copy_pdp_entry.
Proof using All.
  intros P va told tnew s h Hu Hlt (T&C&D&Hm&Hc&Hp) Hto Htn. unfold copy_pdp_entry, load, store. wp_steps.
  destruct (at_slot T C D P s h va 1 told tnew 512 Hm Hc Hp Hu ltac:(lia) Hlt Hto Htn) as [Hz ->].
  apply wp_if; intros Hpr.
  { apply negb_true_iff in Hpr. wp_steps. exists h. destruct (absent_ok T C D P s h va 1 told tnew 512) as [Hst Hcm]; auto.
    split_and!; auto using extends_refl. }
  apply negb_false_iff in Hpr.
  apply (descend_ok 1 512 (fun o t => mfor 512 0 (copy_pd_entry o t)) T C D P va told tnew s h); auto.
  - change 512 with (Z.of_nat 512). apply loop_copied; auto. exact copy_pd_ok.
  - unfold child. rewrite Hpr. by eexists.
Qed.

Lemma copy_pml4_ok : entry_copied 0 256 copy_pml4_entry.
Proof using All.
  intros P va told tnew s h Hu Hlt (T&C&D&Hm&Hc&Hp) Hto Htn. unfold copy_pml4_entry, load, store. wp_steps.
  destruct (at_slot T C D P s h va 0 told tnew 256 Hm Hc Hp Hu ltac:(lia) Hlt Hto Htn) as [Hz ->].
  apply wp_if; intros Hpr.
  { apply negb_true_iff in Hpr. wp_steps. exists h. destruct (absent_ok T C D P s h va 0 told tnew 256) as [Hst Hcm]; auto; try lia.
    split_and!; auto using extends_refl. }
  apply negb_false_iff in Hpr.
  apply (descend_ok 0 256 (fun o t => mfor 512 0 (copy_pdp_entry o t)) T C D P va told tnew s h); auto.
  - change 512 with (Z.of_nat 512). apply loop_copied; auto. exact copy_pdp_ok.
  - unfold child. rewrite Hpr. by eexists.
Qed.

Lemma copy_loop_ok : table_copied 0 256 (fun o t => mfor 256 0 (copy_pml4_entry o t)).
Proof using All. change 256 with (Z.of_nat 256). apply loop_copied; auto. exact copy_pml4_ok. Qed.
End clone.

(** ** The new top table *)

(** The user half of the top table [pa] reads as empty. *)
Definition root_mask (m : memory) (pa : Z) : memory :=
  fun a => if (pa <=? a) && (a <? slot pa 256) then 0 else m a.

Section root.
Variables (s0 s : vmst) (A L0 : list Z) (par pa : Z).
Hypotheses (Hi0 : pt_inv s0 A L0) (Hpar : par ∈ A) (Hi : pt_inv s A L0) (Hh : held s A L0 pa).
Hypotheses (Hg : grows 1 [pa] A s0 s) (Hfree : free_at s0.(v_pmm) pa) (Hav : avail s.(v_pmm) = avail s0.(v_pmm) - 1).
Hypothesis Hout : forall a, ~ in_frame pa a -> s.(v_mem) a = s0.(v_mem) a.
Abbreviation h := (with_mem s (root_mask s.(v_mem) pa)).

Lemma root_out a : ~ in_frame pa a -> h.(v_mem) a = s0.(v_mem) a.
Proof using Hout.
  intros Ha. cbn. unfold root_mask. rewrite <- Hout by done. case_match eqn:E; [|done]. exfalso. apply Ha.
  apply andb_true_iff in E as [E1%Z.leb_le E2%Z.ltb_lt]. unfold slot in E2. unfold in_frame, PAGE_SIZE. lia.
Qed.

Lemma root_user i : 0 <= i < 256 -> h.(v_mem) (slot pa i) = 0.
Proof using.
  intros Hi'. cbn. unfold root_mask. unfold slot. destruct (Z.leb_spec pa (pa + 8 * i)), (Z.ltb_spec (pa + 8 * i) (pa + 8 * 256)); lia || done.
Qed.

Lemma root_kernel i : 256 <= i -> h.(v_mem) (slot pa i) = s.(v_mem) (slot pa i).
Proof using.
  intros Hi'. cbn. unfold root_mask. unfold slot. destruct (Z.ltb_spec (pa + 8 * i) (pa + 8 * 256)); [lia|]. by rewrite andb_false_r.
Qed.

Lemma root_pre : pt_inv h A L0 /\ held h A L0 pa /\ grows 1 [pa] A s0 h.
Proof using Hi Hh Hg Hfree.
  destruct (fill_ok s A L0 pa (root_mask s.(v_mem) pa) Hi Hh) as (Hi'&Hh'&Hg').
  { intros a Ha. unfold root_mask. case_match eqn:E; [|done]. exfalso. apply Ha.
    apply andb_true_iff in E as [E1%Z.leb_le E2%Z.ltb_lt]. unfold slot in E2. unfold in_frame, PAGE_SIZE. lia. }
  split_and!; auto.
Qed.

Lemma root_walk as_ va n : as_ ∈ A -> user va -> (n <= 3)%nat -> tab h.(v_mem) as_ va n = tab s0.(v_mem) as_ va n.
Proof using Hi0 Hh Hfree Hout.
  intros Ha Hu Hn. apply tab_agree. intros j t Hj Ht. f_equal. apply root_out. intros Hin.
  apply in_frame_page_down in Hin; [|apply Hh]. rewrite (table_slot s0 A L0 Hi0 as_ va j) in Hin by (auto; lia).
  subst t. apply (table_live s0 A L0 Hi0 pa); [|done]. exists as_, va, j. split_and!; auto; lia.
Qed.

Lemma root_view as_ va : as_ ∈ A -> user va -> view h.(v_mem) as_ va = view s0.(v_mem) as_ va.
Proof using Hi Hh Hg Hfree.
  destruct root_pre as (_&_&Hg'). intros Ha Hu. unfold view. rewrite (gr_leaf _ _ _ _ _ Hg') by auto.
  destruct (leaf s0.(v_mem) as_ va) eqn:E; [|done]. by rewrite (gr_entry _ _ _ _ _ Hg' as_ va).
Qed.

Lemma root_stray f : aligned f -> stray h (pa :: A) ([] ++ L0) f <-> stray s0 A L0 f.
Proof using Hi0 Hi Hh Hg Hfree Hout.
  intros Hf. destruct root_pre as (_&Hh'&Hg'). by apply (root_no_stray h A L0 pa Hh' root_user 1).
Qed.

Lemma root_copied : copied s0 A L0 par pa [par] [] [] h.
Proof using All.
  destruct root_pre as (Hi'&Hh'&Hg'). constructor.
  - apply (root_inv h A L0 pa Hi' Hh' root_user).
  - apply (gr_base _ _ _ _ _ Hg').
  - apply (gr_pages _ _ _ _ _ Hg').
  - exact root_walk.
  - intros va n t Hu Hn Ht. by destruct (root_tab h pa root_user va n t Hu Ht) as [_ ->].
  - intros as_ va Ha _ Hu. by apply root_view.
  - intros va Hu. left. split; [|by apply root_view]. unfold view. by rewrite (root_leaf h pa root_user va Hu).
  - intros as_ va Ha Hu. by apply (gr_huge _ _ _ _ _ Hg').
  - intros va Hu. left. unfold huge. destruct (tab h.(v_mem) pa va 2) as [t|] eqn:E; [|done].
    by apply (root_tab h pa root_user) in E as [? _].
  - intros a Hf Ht. apply root_out. intros Hin. apply in_frame_page_down in Hin; [|apply Hh]. by rewrite Hin in Hf.
  - apply (gr_free _ _ _ _ _ Hg').
  - apply (gr_tlb _ _ _ _ _ Hg').
  - split; [apply NoDup_singleton|]. intros t ->%list_elem_of_singleton. exists 0, 0%nat. split_and!; [by apply user_low|lia|done|by eexists].
  - cbn [length v_pmm with_mem]. rewrite Hav. lia.
  - split; [constructor|]. by intros d ?%not_elem_of_nil.
  - intros f Hf Hnf. cbn [mappers]. rewrite (gr_ref _ _ _ _ _ Hg' f Hf Hnf). lia.
  - exact root_stray.
Qed.

Lemma root_masks : masks pa [(pa, 0, 256)] s h.
Proof using Hh Hout.
  assert (Hch : forall t, is_child pa h t <-> t = pa).
  { intros t. split.
    - intros (va&n&Hu&_&Ht). by destruct (root_tab h pa root_user va n t Hu Ht) as [_ ->].
    - intros ->. exists 0, 0%nat. split_and!; [by apply user_low|lia|done]. }
  constructor; try done.
  - intros a Ha. rewrite Hch in Ha. assert (Hni : ~ in_frame pa a).
    { intros Hin. apply in_frame_page_down in Hin; [|apply Hh]. done. }
    rewrite root_out by done. symmetry. by apply Hout.
  - intros t i ->%Hch Hi'. destruct (Z.lt_ge_cases i 256) as [Hlt|Hge]; [left|right].
    + split; [exists 0, 256; split; [apply list_elem_of_here|lia]|]. apply root_user. lia.
    + split; [|by apply root_kernel]. intros (lo&hi&Hin&Hlt). apply list_elem_of_singleton in Hin. injection Hin as -> ->. lia.
Qed.
End root.

(** ** The whole copy *)

(** [r] is a copy of [par]: both show the shared entries of what [par]
    showed before, everything else is as it was. *)
Record cloned (s0 : vmst) (A L0 : list Z) (par r : Z) (L' : list Z) (s' : vmst) : Prop := {
  cl_inv : pt_inv s' (r :: A) L';
  cl_new : r ∉ A;
  cl_view : forall va, user va ->
    view s'.(v_mem) r va = shared_entry s0.(v_pmm) <$> view s0.(v_mem) par va /\
    view s'.(v_mem) par va = shared_entry s0.(v_pmm) <$> view s0.(v_mem) par va;
  cl_huge : forall va, user va -> huge_page s'.(v_mem) r va = huge_page s0.(v_mem) par va;
  cl_flat : forall va, user va -> huge s'.(v_mem) r va = None \/ huge s'.(v_mem) r va = huge_page s0.(v_mem) par va;
  cl_other : forall as_ va, as_ ∈ A -> user va ->
    (as_ <> par -> view s'.(v_mem) as_ va = view s0.(v_mem) as_ va) /\
    huge s'.(v_mem) as_ va = huge s0.(v_mem) as_ va;
  cl_data : forall as_ va e a, as_ ∈ A -> user va -> view s0.(v_mem) as_ va = Some e ->
    in_frame (x86_pte_phys e) a -> s'.(v_mem) a = s0.(v_mem) a;
  cl_stray : forall f, aligned f -> stray s' (r :: A) L' f <-> stray s0 A L0 f;
  cl_managed : forall f, managed s'.(v_pmm) f <-> managed s0.(v_pmm) f;
}.

Section unmask.
Variables (s0 : vmst) (A L0 : list Z) (par r : Z) (T C D : list Z) (s h : vmst).
Hypotheses (Hi0 : pt_inv s0 A L0) (Hpar : par ∈ A) (Hr : r ∉ A).
Hypotheses (Hm : masks r [] s h) (Hc : copied s0 A L0 par r T C D h).

(** Nothing is masked any more. *)
Lemma unmask_slot as_ va n t : as_ ∈ r :: A -> user va -> (n <= 3)%nat -> tab h.(v_mem) as_ va n = Some t ->
  s.(v_mem) (slot t (idx n va)) = h.(v_mem) (slot t (idx n va)).
Proof using Hr Hm Hc.
  intros Ha Hu Hn Ht. pose proof (cp_inv _ _ _ _ _ _ _ _ _ Hc) as Hi. symmetry.
  apply elem_of_cons in Ha as [->|Ha].
  - destruct (mk_slot _ _ _ _ Hm t (idx n va)) as [[(?&?&Hin&_) _]|[_ ?]]; auto.
    + exists va, n. auto.
    + by apply not_elem_of_nil in Hin.
  - apply (mk_out _ _ _ _ Hm). rewrite (table_slot h _ _ Hi as_ va n) by auto using cp_in. intros (va'&k&?&?&?).
    assert (He : r = as_); [|apply Hr; by rewrite He].
    apply (pi_inj _ _ _ Hi r va' k as_ va n t); auto using cp_root, cp_in.
Qed.

Lemma unmask_tab as_ va n : as_ ∈ r :: A -> user va -> (n <= 3)%nat -> tab s.(v_mem) as_ va n = tab h.(v_mem) as_ va n.
Proof using Hr Hm Hc.
  intros Ha Hu Hn. apply tab_agree. intros k t Hk Ht. f_equal. apply (unmask_slot as_); auto; lia.
Qed.

Lemma unmask_huge as_ va : as_ ∈ r :: A -> user va -> huge s.(v_mem) as_ va = huge h.(v_mem) as_ va.
Proof using Hr Hm Hc.
  intros Ha Hu. unfold huge. rewrite unmask_tab by auto. destruct (tab h.(v_mem) as_ va 2) as [t|] eqn:E; [|done].
  by rewrite (unmask_slot as_ va 2 t) by auto.
Qed.

Lemma unmask_inv : pt_inv s (r :: A) (C ++ L0) /\
  forall as_ va, as_ ∈ r :: A -> user va -> leaf s.(v_mem) as_ va = leaf h.(v_mem) as_ va.
Proof using Hr Hm Hc.
  apply (inv_same h (r :: A) (C ++ L0) (cp_inv _ _ _ _ _ _ _ _ _ Hc)); [by rewrite (mk_pmm _ _ _ _ Hm)|exact unmask_tab| |exact unmask_huge].
  intros as_ va t Ha Hu Ht. by apply (unmask_slot as_).
Qed.

Lemma unmask_view as_ va : as_ ∈ r :: A -> user va -> view s.(v_mem) as_ va = view h.(v_mem) as_ va.
Proof using Hr Hm Hc.
  intros Ha Hu. unfold view. rewrite (proj2 unmask_inv) by auto. destruct (leaf h.(v_mem) as_ va) as [x|] eqn:E; [|done].
  destruct (leaf_slot h _ _ _ E) as (t&Ht&->&_). by rewrite (unmask_slot as_ va 3 t) by auto.
Qed.

Lemma unmask_stray f : aligned f -> stray s (r :: A) (C ++ L0) f <-> stray s0 A L0 f.
Proof using Hr Hm Hc.
  intros Hf. rewrite <- (cp_stray _ _ _ _ _ _ _ _ _ Hc) by done. unfold stray. rewrite (mk_pmm _ _ _ _ Hm).
  assert (Ht : is_table s.(v_mem) (r :: A) f <-> is_table h.(v_mem) (r :: A) f).
  { split; intros (as_&va&n&?&?&?&?); exists as_, va, n; [rewrite <- unmask_tab|rewrite unmask_tab]; auto. }
  assert (Hfr : forall y, y ∈ C ++ L0 -> frame s.(v_mem) y = frame h.(v_mem) y).
  { intros y Hy. destruct (in_L h _ _ (cp_inv _ _ _ _ _ _ _ _ _ Hc) y Hy) as (as_&va&Ha&Hu&Hl).
    destruct (leaf_slot h _ _ _ Hl) as (t&Ht'&->&_). unfold frame. by rewrite (unmask_slot as_ va 3 t) by auto. }
  rewrite Ht. split; intros (?&?&Hn); split_and!; auto; intros y Hy; [rewrite <- Hfr|rewrite Hfr]; auto.
Qed.

Lemma unmask_cloned : (forall va, user va -> complete s0 par r h va) -> cloned s0 A L0 par r (C ++ L0) s.
Proof using All.
  intros Hall. constructor; auto.
  - apply unmask_inv.
  - intros va Hu. rewrite !unmask_view by auto using cp_root, cp_in. destruct (Hall va Hu) as (?&?&_). done.
  - intros va Hu. unfold huge_page at 1. rewrite unmask_huge by auto using cp_root. by destruct (Hall va Hu) as (_&_&?).
  - intros va Hu. rewrite unmask_huge by auto using cp_root. by apply (cp_child_huge _ _ _ _ _ _ _ _ _ Hc).
  - intros as_ va Ha Hu. rewrite unmask_view, unmask_huge by auto using cp_in. split.
    + intros Hne. by apply (cp_other _ _ _ _ _ _ _ _ _ Hc).
    + by apply (cp_huge _ _ _ _ _ _ _ _ _ Hc).
  - intros as_ va e a Ha Hu Hv Hin. destruct (frame_plain s0 A L0 Hi0 as_ va e a Ha Hu Hv Hin) as (_&Hf&Ht).
    rewrite <- (cp_mem _ _ _ _ _ _ _ _ _ Hc a Hf Ht). symmetry. apply (mk_out _ _ _ _ Hm).
    intros (va'&n&Hu'&Hn&Ht'). apply Hf. by apply (cp_fresh _ _ _ _ _ _ _ _ _ Hc va' n).
  - exact unmask_stray.
  - intros f. rewrite <- (mk_pmm _ _ _ _ Hm). unfold managed. by rewrite (page_of_range s0.(v_pmm)) by apply Hc.
Qed.
End unmask.

Lemma reload_cloned c s0 A L0 par r L' s : cloned s0 A L0 par r L' s -> cloned s0 A L0 par r L' (reload_cr3 c s).
Proof. intros []. constructor; auto. by apply reload_inv. Qed.

(** What the call needs: counters away from their limit, 2 MiB pages outside
    the allocator, and, if there is any free page, one for every table. *)
Record clonable (s : vmst) (L : list Z) (par : Z) : Prop := {
  cb_refs : forall x, x ∈ L -> pmm_get_ref s.(v_pmm) (frame s.(v_mem) x) < 32768;
  cb_huge : forall va e, user va -> huge_page s.(v_mem) par va = Some e -> ~ managed s.(v_pmm) (x86_pte_phys e);
  cb_room : avail s.(v_pmm) = 0 \/ exists T : list Z,
    (forall va n t, user va -> (n <= 3)%nat -> tab s.(v_mem) par va n = Some t -> t ∈ T) /\
    Z.of_nat (length T) <= avail s.(v_pmm);
}.

Definition clone_post (cr3 par : Z) (A L : list Z) (s : vmst) (r : Z) (s' : vmst) : Prop :=
  r = 0 /\ avail s.(v_pmm) = 0 /\ pt_inv s' A L /\ grows 0 [] A s s' \/
  r <> 0 /\ (exists L', cloned s A L par r L' s') /\
  forall a v, s'.(v_tlb) a v = if a =? cr3 then None else s.(v_tlb) a v.

Lemma copy_pml4_clones cr3 par s A L :
  pt_inv s A L -> par ∈ A -> clonable s L par ->
  wp nopanic (vmm_copy_pml4 cr3 par) (clone_post cr3 par A L s) s.
Proof.
  intros Hi Hpar [Hover Hhuge Hroom]. unfold vmm_copy_pml4, load, store. wp_steps. apply wp_alloc.
  { intros p1 Eal. destruct (alloc_fail_ok s A L Hi p1 Eal) as (Hi1&Hg1&_&Hav&_). wp_steps. left. by split_and!. }
  intros pa p1 Eal Hne. apply Z.eqb_neq in Hne as Hb. rewrite Hb. wp_steps.
  destruct (take_ok s A L Hi pa p1 Eal Hne) as (Hi1&Hh1&Hg1&Hf1).
  pose proof (alloc_avail s.(v_pmm) pa p1 (inv_pmm_ok s A L Hi) Eal Hne) as Hav1.
  destruct Hroom as [Hz|(Tall&Htall&Hlen)].
  { pose proof (alloc_avail_pos s.(v_pmm) pa p1 (inv_pmm_ok s A L Hi) Eal Hne). lia. }
  eapply wp_mono; [apply (wp_for nopanic (fun j s' => pt_inv s' A L /\ held s' A L pa /\ grows 1 [pa] A s s' /\
    avail s'.(v_pmm) = avail s.(v_pmm) - 1 /\ forall a, ~ in_frame pa a -> s'.(v_mem) a = s.(v_mem) a))|].
  - by split_and!.
  - intros j s1 Hj (Hi2&Hh2&Hg2&Hav2&Ho2). wp_steps.
    destruct (held_store_ok s1 A L pa (slot pa j) (s1.(v_mem) (slot par j)) Hi2 Hh2) as (Hi3&Hh3&Hg3); [apply slot_in; lia|].
    split_and!; auto. intros a Ha. cbn [v_mem set_leaf with_mem]. rewrite mwrite_ne; [auto|]. intros ->. apply Ha, slot_in. lia.
  - intros a s2 (Hi2&Hh2&Hg2&Hav2&Ho2). wp_steps.
    assert (Hpa : pa ∉ A).
    { intros Ha. apply (hd_table _ _ _ _ Hh2). exists pa, 0, 0%nat. split_and!; auto; by apply user_low. }
    pose proof (root_copied s s2 A L par pa Hi Hpar Hi2 Hh2 Hg2 Hf1 Hav2 Ho2) as Hc.
    pose proof (root_masks s s2 A L pa Hh2 Ho2) as Hm.
    set (h := with_mem s2 (root_mask s2.(v_mem) pa)) in *.
    eapply wp_mono; [apply (copy_loop_ok s A L par pa Hi Hpar Hpa Hover Tall Htall Hlen Hhuge [] 0 par pa s2 h)|]; try done.
    + exists [par], [], []. split_and!; auto. split; [apply NoDup_singleton|]. intros t lo hi Hin.
      apply list_elem_of_singleton in Hin. injection Hin as -> -> ->. split_and!; try lia. exists 0, 0%nat.
      split_and!; [by apply user_low|lia|done].
    + intros b s3 (h'&(T&C&D&Hm'&Hc'&_)&_&Hall). wp_steps. right. split; [done|]. split.
      * exists (C ++ L). apply reload_cloned. apply (unmask_cloned s A L par pa T C D s3 h'); auto.
      * intros a' v. cbn. rewrite <- (mk_tlb _ _ _ _ Hm'), (cp_tlb _ _ _ _ _ _ _ _ _ Hc'). done.
Qed.
