(* ===== verification/PtFree.v ===== *)
(** * Taking a tree apart, one step at a time *)
From S2P Require Import Prelude State Pmm Pte VmCow Vmm PtWalk PtInv PtGrow PtMap Mmap PtOps PtSpace PtCopy PtMask.

(** The translations a processor has cached do not matter to the invariant. *)
Lemma inv_tlb s s' A L : pt_inv s A L -> s'.(v_pmm) = s.(v_pmm) -> s'.(v_mem) = s.(v_mem) -> pt_inv s' A L.
Proof. intros Hi Hp Hm. apply (inv_same s A L Hi); rewrite ?Hm; auto. Qed.

(** A page that no leaf maps and that is no table loses its owner. *)
Lemma cow_free s L t :
  cow_inv s L -> aligned t -> pmm_get_ref s.(v_pmm) t = 1 ->
  (forall x, x ∈ L -> frame s.(v_mem) x <> t /\ page_down x <> t) -> cow_inv (with_pmm s (pmm_free s.(v_pmm) t 1)) L.
Proof.
  intros Hc Hal H1 Hx.
  destruct (free_by_address s.(v_pmm) t (ci_pmm _ _ Hc) Hal ltac:(lia)) as (Hok&Hb&Hg&Hr&Hf).
  assert (Hrf : forall x, x ∈ L -> pmm_get_ref (pmm_free s.(v_pmm) t 1) (frame s.(v_mem) x) = pmm_get_ref s.(v_pmm) (frame s.(v_mem) x)).
  { intros x Hxl. rewrite Hr by apply frame_aligned. rewrite decide_False; [done|]. by apply Hx. }
  destruct (ci_zero _ _ Hc) as [Hz0 Hz1]. constructor; cbn [v_pmm v_mem with_pmm]; auto; try apply Hc.
  - rewrite Hb, Hg. apply Hc.
  - split; [|rewrite Hr by done; case_decide; [subst; lia|done]].
    intros [?|[<- _]]%Hf; [done| |done]. lia.
  - intros x Hxl. rewrite Hrf by done. by apply Hc.
  - intros x Hxl. rewrite Hrf by done. by apply Hc.
  - intros x Hxl [?|[He _]]%Hf; [by apply (ci_slot _ _ Hc x)|by destruct (Hx x Hxl)|apply page_down_aligned].
Qed.

(** ** An empty table is unlinked and freed *)
Section unlink.
Variables (s : vmst) (A L : list Z) (as_ va : Z) (n : nat) (t0 t : Z).
Hypotheses (Hi : pt_inv s A L) (Ha : as_ ∈ A) (Hu : user va) (Hn : (n <= 2)%nat).
Hypotheses (Ht0 : tab s.(v_mem) as_ va n = Some t0) (Ht : tab s.(v_mem) as_ va (S n) = Some t).
Hypothesis Hempty : forall va', user va' -> key (S n) va' = key (S n) va ->
  (forall k, (S n < k <= 3)%nat -> tab s.(v_mem) as_ va' k = None) /\ leaf s.(v_mem) as_ va' = None.
Abbreviation x := (slot t0 (idx n va)).
Abbreviation p' := (pmm_free s.(v_pmm) t 1).
Abbreviation s' := (set_leaf (with_pmm s p') x 0).

(** The part of the walk that is cut off. *)
Definition cut (as' va' : Z) (k : nat) : Prop := as' = as_ /\ key (S n) va' = key (S n) va /\ (n < k)%nat.

Lemma unlink_rest a : a <> x -> s'.(v_mem) a = s.(v_mem) a.
Proof using. intros. by apply mwrite_ne. Qed.

Lemma unlink_tab as' va' k : as' ∈ A -> user va' -> (k <= 3)%nat ->
  tab s'.(v_mem) as' va' k = if decide (cut as' va' k) then None else tab s.(v_mem) as' va' k.
Proof using Hi Ha Hu Hn Ht0.
  intros Ha' Hu' Hk. assert (Hw : ~ cut as' va' k -> tab s'.(v_mem) as' va' k = tab s.(v_mem) as' va' k).
  { intros Hc. apply (write_tab s A L Hi as_ va n t0); auto; [by intros; apply unlink_rest|].
    destruct (decide (k <= n)%nat); [by left|right]. intros [-> ?]. apply Hc. unfold cut. split_and!; auto. lia. }
  destruct (decide (cut as' va' k)) as [(->&Hk'&Hlt)|Hc]; [|by apply Hw].
  assert (Hnone : tab s'.(v_mem) as_ va' (S n) = None).
  { cbn [tab]. pose proof (key_inj _ _ _ Hk') as [Hk0 Hidx].
    assert (Hb : tab s'.(v_mem) as_ va' n = Some t0).
    { transitivity (tab s.(v_mem) as_ va' n); [|by rewrite (tab_key _ _ va' va n Hk0)].
      apply (write_tab s A L Hi as_ va n t0); auto; try lia. intros; by apply unlink_rest. }
    rewrite Hb, Hidx. cbn [v_mem set_leaf with_mem with_pmm]. by rewrite mwrite_eq, child_zero. }
  destruct (tab s'.(v_mem) as_ va' k) as [u|] eqn:E; [|done].
  destruct (tab_prefix _ _ _ (S n) k u E ltac:(lia)) as (w&Hw'). congruence.
Qed.

Lemma unlink_leaf as' va' : as' ∈ A -> user va' -> leaf s'.(v_mem) as' va' = leaf s.(v_mem) as' va'.
Proof using Hi Ha Hu Hn Ht0 Hempty.
  intros Ha' Hu'. destruct (decide (cut as' va' 3)) as [Hc|Hc].
  - pose proof Hc as (->&Hk&_). rewrite (proj2 (Hempty va' Hu' Hk)). unfold leaf. by rewrite unlink_tab, decide_True by auto.
  - unfold leaf. rewrite unlink_tab, decide_False by auto. destruct (tab s.(v_mem) as' va' 3) as [u|] eqn:E; [|done].
    cbv zeta. rewrite unlink_rest; [done|]. intros He.
    destruct (slot_once s A L Hi as' va' 3 u as_ va n t0) as (_&?&_); auto; lia.
Qed.

Lemma unlink_word as' va' y : as' ∈ A -> user va' -> leaf s.(v_mem) as' va' = Some y -> s'.(v_mem) y = s.(v_mem) y.
Proof using Hi Ha Hu Hn Ht0.
  intros Ha' Hu' Hl. destruct (leaf_slot s _ _ _ Hl) as (u&Hu1&->&_). apply unlink_rest. intros He.
  destruct (slot_once s A L Hi as' va' 3 u as_ va n t0) as (_&?&_); auto; lia.
Qed.

Lemma unlink_view as' va' : as' ∈ A -> user va' -> view s'.(v_mem) as' va' = view s.(v_mem) as' va'.
Proof using Hi Ha Hu Hn Ht0 Hempty.
  intros Ha' Hu'. unfold view. rewrite unlink_leaf by auto. destruct (leaf s.(v_mem) as' va') eqn:E; [|done].
  by rewrite (unlink_word as' va').
Qed.

Lemma unlink_huge as' va' : as' ∈ A -> user va' ->
  huge s'.(v_mem) as' va' = None \/ huge s'.(v_mem) as' va' = huge s.(v_mem) as' va'.
Proof using Hi Ha Hu Hn Ht0.
  intros Ha' Hu'. unfold huge. rewrite unlink_tab by auto. case_decide; [by left|].
  destruct (tab s.(v_mem) as' va' 2) as [u|] eqn:E; [|by left]. cbn [v_mem set_leaf with_mem with_pmm].
  destruct (decide (slot u (idx 2 va') = x)) as [He|Hne]; [left; by rewrite He, mwrite_eq|right; by rewrite mwrite_ne].
Qed.

Lemma unlink_table f : is_table s'.(v_mem) A f <-> is_table s.(v_mem) A f /\ f <> t.
Proof using Hi Ha Hu Hn Ht0 Ht Hempty.
  split.
  - intros (as'&va'&k&Ha'&Hu'&Hk&Hf). rewrite unlink_tab in Hf by auto. case_decide as Hc; [done|].
    split; [by exists as', va', k|]. intros ->. apply Hc.
    destruct (pi_inj _ _ _ Hi as' va' k as_ va (S n) t) as (->&->&?); auto; [lia|]. unfold cut. split_and!; auto; lia.
  - intros ((as'&va'&k&Ha'&Hu'&Hk&Hf)&Hne). exists as', va', k. split_and!; auto. rewrite unlink_tab, decide_False; auto.
    intros (->&Hkey&Hlt). destruct (decide (k = S n)) as [->|Hk'].
    + apply Hne. rewrite (tab_key _ _ va' va _ Hkey) in Hf. congruence.
    + rewrite (proj1 (Hempty va' Hu' Hkey) k) in Hf by lia. done.
Qed.

Lemma unlink_page : aligned t /\ pmm_get_ref s.(v_pmm) t = 1 /\ (forall y, y ∈ L -> frame s.(v_mem) y <> t /\ page_down y <> t) /\ t0 <> t.
Proof using Hi Ha Hu Hn Ht0 Ht Hempty.
  assert (Hist : is_table s.(v_mem) A t) by (exists as_, va, (S n); split_and!; auto; lia).
  destruct (pi_tab _ _ _ Hi t Hist) as [Hal H1]. split_and!; auto.
  - intros y Hy. split; [intros He; apply (pi_frame _ _ _ Hi y Hy); by rewrite He|]. intros He.
    destruct (in_L s A L Hi y Hy) as (as'&va'&Ha'&Hu'&Hl). destruct (leaf_slot s _ _ _ Hl) as (u&Hu1&->&_).
    rewrite (table_slot s A L Hi as' va' 3) in He by auto. subst u.
    destruct (pi_inj _ _ _ Hi as' va' 3 as_ va (S n) t) as (->&Hk&Hkey); auto; [lia|]. rewrite Hk in Hkey.
    rewrite (proj2 (Hempty va' Hu' Hkey)) in Hl. done.
  - intros ->. destruct (pi_inj _ _ _ Hi as_ va n as_ va (S n) t) as (_&?&_); auto; lia.
Qed.

Lemma unlink_inv : pt_inv s' A L.
Proof using All.
  destruct unlink_page as (Hal&H1&Hx&_).
  destruct (free_by_address s.(v_pmm) t (inv_pmm_ok s A L Hi) Hal ltac:(lia)) as (Hok&Hb&Hg&Hr&Hf).
  assert (HmL : forall y, y ∈ L -> s'.(v_mem) y = s.(v_mem) y).
  { intros y Hy. destruct (in_L s A L Hi y Hy) as (as'&va'&Ha'&Hu'&Hl). by apply (unlink_word as' va'). }
  assert (Hfr : forall y, y ∈ L -> frame s'.(v_mem) y = frame s.(v_mem) y) by (intros y Hy; unfold frame; by rewrite HmL).
  constructor.
  - apply (inv_ext (with_pmm s p')); [|done|done]. by apply cow_free; [apply Hi|..].
  - intros f [Hf' Hne]%unlink_table. destruct (pi_tab _ _ _ Hi f Hf') as [Hfa Hf1]. split; [done|].
    cbn [v_pmm set_leaf with_mem with_pmm]. by rewrite Hr, decide_False.
  - intros as1 va1 k1 as2 va2 k2 f Ha1 Ha2 Hu1 Hu2 Hk1 Hk2. rewrite !unlink_tab by auto. do 2 (case_decide; [done|]).
    by apply (pi_inj _ _ _ Hi).
  - intros y. rewrite (pi_leaf _ _ _ Hi). unfold managed. cbn [v_pmm set_leaf with_mem with_pmm].
    split; intros (as'&va'&Ha'&Hu'&Hl&Hm); exists as', va'; [|rewrite unlink_leaf in Hl by auto];
      rewrite ?unlink_leaf, (page_of_range s.(v_pmm) p') in * by auto; unfold frame in *; rewrite (unlink_word as' va') in * by auto; auto.
  - intros y Hy. rewrite Hfr by done. intros [Hf' _]%unlink_table. by apply (pi_frame _ _ _ Hi y).
  - intros as' va' y Ha' Hu'. rewrite unlink_leaf by auto. intros Hl. unfold frame. rewrite (unlink_word as' va') by auto.
    by apply (pi_null _ _ _ Hi as' va').
  - intros as' va' e Ha' Hu' He. destruct (unlink_huge as' va' Ha' Hu') as [Hh|Hh]; [congruence|].
    rewrite Hh in He. by apply (pi_huge _ _ _ Hi as' va').
Qed.

Lemma unlink_stray f : aligned f -> stray s' A L f <-> stray s A L f.
Proof using All.
  intros Hfa. destruct unlink_page as (Hal&H1&Hx&_).
  destruct (free_by_address s.(v_pmm) t (inv_pmm_ok s A L Hi) Hal ltac:(lia)) as (_&_&_&Hr&_).
  assert (Hist : is_table s.(v_mem) A t) by (exists as_, va, (S n); split_and!; auto; lia).
  assert (Hfr : forall y, y ∈ L -> frame s'.(v_mem) y = frame s.(v_mem) y).
  { intros y Hy. destruct (in_L s A L Hi y Hy) as (as'&va'&Ha'&Hu'&Hl). unfold frame. by rewrite (unlink_word as' va'). }
  unfold stray. rewrite unlink_table. cbn [v_pmm set_leaf with_mem with_pmm]. rewrite Hr by done.
  destruct (decide (f = t)) as [->|Hne].
  - split; intros (Hp&Hnt&_); [lia|done].
  - split; intros (Hp&Hnt&Hn'); split_and!; auto; try tauto; intros y Hy; [rewrite <- Hfr|rewrite Hfr]; auto.
Qed.
End unlink.
