(* ===== verification/PtDestroy.v ===== *)
(** * vmm_free_user_pml4 gives an address space back

    The code only frees pages; the tables it walks keep their contents.
    [wiped L h] describes the state [h] in which the entries that were dealt
    with are empty: its allocator is the machine's, its tree of [as_] is what
    is still to be freed. *)
From S2P Require Import Prelude State Pmm Pte VmCow Vmm PtWalk PtInv PtGrow PtMap Mmap PtOps PtSpace PtCopy PtMask PtFree.

Section destroy.
Variables (s0 : vmst) (A L0 : list Z) (as_ : Z).
Hypotheses (Hi0 : pt_inv s0 A L0) (Has : as_ ∈ A).

(** The state of the machine. *)
Definition real (h : vmst) : vmst := with_pmm s0 h.(v_pmm).

Definition own_table (t : Z) : Prop := exists va n, user va /\ (n <= 3)%nat /\ tab s0.(v_mem) as_ va n = Some t.

Record wiped (L : list Z) (h : vmst) : Prop := {
  wi_inv : pt_inv h A L;
  wi_base : h.(v_pmm).(g_base_pa) = s0.(v_pmm).(g_base_pa);
  wi_pages : h.(v_pmm).(g_pages) = s0.(v_pmm).(g_pages);
  wi_sub : forall va n t, user va -> (n <= 3)%nat -> tab h.(v_mem) as_ va n = Some t -> tab s0.(v_mem) as_ va n = Some t;
  wi_out : forall a, ~ own_table (page_down a) -> h.(v_mem) a = s0.(v_mem) a;
  wi_view : forall va, user va -> view h.(v_mem) as_ va = None \/ view h.(v_mem) as_ va = view s0.(v_mem) as_ va;
  wi_free : forall f, free_at s0.(v_pmm) f -> free_at h.(v_pmm) f;
  wi_last : forall f, aligned f -> 0 < pmm_get_ref s0.(v_pmm) f -> pmm_get_ref h.(v_pmm) f = 0 -> free_at h.(v_pmm) f;
  wi_ref : forall f, aligned f -> pmm_get_ref s0.(v_pmm) f = 0 -> pmm_get_ref h.(v_pmm) f = 0;
  wi_stray : forall f, aligned f -> stray h A L f <-> stray s0 A L0 f;
}.

(** The slots on the way to pages of the class of [va] at level [m], from
    level [l] on, may have changed; no other slot of the tree has. *)
Definition spares (m l : nat) (va : Z) (h h' : vmst) : Prop :=
  forall va' k t, user va' -> (k <= 3)%nat -> tab h.(v_mem) as_ va' k = Some t ->
    key m va' <> key m va \/ (k < l)%nat -> h'.(v_mem) (slot t (idx k va')) = h.(v_mem) (slot t (idx k va')).

Definition intact (m : nat) (va : Z) (h : vmst) : Prop :=
  forall va' k t, user va' -> (k <= 3)%nat -> key m va' = key m va -> (m <= S k)%nat ->
    tab s0.(v_mem) as_ va' k = Some t -> h.(v_mem) (slot t (idx k va')) = s0.(v_mem) (slot t (idx k va')).

Definition gone (m : nat) (va : Z) (h : vmst) : Prop :=
  forall va', user va' -> key m va' = key m va ->
    (forall k, (m <= k <= 3)%nat -> tab h.(v_mem) as_ va' k = None) /\ leaf h.(v_mem) as_ va' = None.

Lemma spares_refl m l va h : spares m l va h h.
Proof using. by intros va' k t. Qed.

Lemma spares_tab m l va h h' va' k :
  spares m l va h h' -> user va' -> (k <= 3)%nat -> key m va' <> key m va \/ (k <= l)%nat ->
  tab h'.(v_mem) as_ va' k = tab h.(v_mem) as_ va' k.
Proof using.
  intros Hs Hu Hk Hor. apply tab_agree. intros j t Hj Ht. f_equal. apply Hs; auto; [lia|].
  destruct Hor; [by left|right; lia].
Qed.

Lemma spares_trans m l va h1 h2 h3 : spares m l va h1 h2 -> spares m l va h2 h3 -> spares m l va h1 h3.
Proof using.
  intros H1 H2 va' k t Hu Hk Ht Hor. rewrite H2; auto. rewrite (spares_tab _ _ _ _ _ _ _ H1) by (auto; destruct Hor; auto; right; lia). done.
Qed.

Lemma spares_weaken m m' l l' va h h' : spares m l va h h' -> (m' <= m)%nat -> (l' <= l)%nat -> spares m' l' va h h'.
Proof using.
  intros Hs Hm Hl va' k t Hu Hk Ht [Hne|Hlt]; apply Hs; auto; [left|right; lia]. intros He. apply Hne. by apply (key_le m' m).
Qed.

Lemma spares_key m l va va2 h h' : key m va = key m va2 -> spares m l va h h' -> spares m l va2 h h'.
Proof using. intros Hk Hs va' k t Hu Hk' Ht Hor. apply Hs; auto. by rewrite Hk. Qed.

Lemma spares_gone m va va2 h h' : spares m (m - 1) va h h' -> key m va2 <> key m va -> gone m va2 h -> gone m va2 h'.
Proof using.
  intros Hs Hne Hg va' Hu Hk. destruct (Hg va' Hu Hk) as [Ht Hl]. assert (Hd : key m va' <> key m va) by congruence. split.
  - intros k Hk'. rewrite (spares_tab _ _ _ _ _ _ _ Hs) by (auto; lia). by apply Ht.
  - unfold leaf in *. rewrite (spares_tab _ _ _ _ _ _ _ Hs) by auto. destruct (tab h.(v_mem) as_ va' 3) as [u|] eqn:E; [|done].
    cbv zeta in *. by rewrite (Hs va' 3%nat u) by auto.
Qed.

(** What is intact is as it was, tables included, once the way there is. *)
Lemma intact_tab m va h va' k t :
  intact (S m) va h -> tab h.(v_mem) as_ va m = Some t -> tab s0.(v_mem) as_ va m = Some t -> user va' ->
  key (S m) va' = key (S m) va -> (m <= k <= 3)%nat -> tab h.(v_mem) as_ va' k = tab s0.(v_mem) as_ va' k.
Proof using.
  intros Hin Ht Ht0 Hu Hk Hle. destruct Hle as [Hmk Hk3]. induction Hmk as [|k Hmk IH].
  - apply key_inj in Hk as [Hk _]. by rewrite !(tab_key _ _ va' va m Hk), Ht, Ht0.
  - cbn [tab]. rewrite IH by lia. destruct (tab s0.(v_mem) as_ va' k) as [u|] eqn:E; [|done].
    by rewrite (Hin va' k u) by (auto; lia).
Qed.

Lemma intact_down m va va2 h : intact m va h -> key m va2 = key m va -> intact (S m) va2 h.
Proof using.
  intros Hin Hk va' k t Hu Hk' Hkey Hle Ht. apply Hin; auto; [|lia]. apply key_inj in Hkey as [? _]. congruence.
Qed.

(** The way to a table that is still there is as it was. *)
Lemma wiped_path L h va n t va' k u : wiped L h -> user va -> (n <= 3)%nat -> tab h.(v_mem) as_ va n = Some t ->
  user va' -> key n va' = key n va -> (k <= n)%nat -> tab s0.(v_mem) as_ va' k = Some u -> tab h.(v_mem) as_ va' k = Some u.
Proof using.
  intros Hw Hu Hn Ht Hu' Hk Hle Hs. rewrite <- (tab_key _ _ va' va n Hk) in Ht.
  destruct (tab_prefix _ _ _ k n t Ht Hle) as (w&Hw1). pose proof (wi_sub _ _ Hw va' k w Hu' ltac:(lia) Hw1). congruence.
Qed.

Lemma spares_intact L n va vj va2 t h h' :
  wiped L h -> user va -> (n <= 3)%nat -> tab h.(v_mem) as_ va n = Some t -> key n va2 = key n va -> user va2 ->
  spares (S n) n vj h h' -> key (S n) va2 <> key (S n) vj -> intact (S n) va2 h -> intact (S n) va2 h'.
Proof using.
  intros Hw Hu Hn Ht Hk2 Hu2 Hs Hne Hin va' k u Hu' Hk Hkey Hle Hu1. rewrite <- (Hin va' k u) by auto.
  apply Hs; auto; [|left; congruence]. pose proof (key_inj _ _ _ Hkey) as [Hkn _].
  assert (Ht2 : tab h.(v_mem) as_ va2 n = Some t) by (by rewrite (tab_key _ _ va2 va n Hk2)).
  rewrite (intact_tab n va2 h va' k t); auto; [|lia]. by apply (wi_sub _ _ Hw).
Qed.

(** ** The state after one step *)

Section leaf_gone.
Variables (L : list Z) (h : vmst) (va x : Z).
Hypotheses (Hw : wiped L h) (Hu : user va) (Hl : leaf h.(v_mem) as_ va = Some x) (HxL : x ∈ L).
Abbreviation p' := (pmm_free h.(v_pmm) (frame h.(v_mem) x) 1).
Abbreviation h' := (set_leaf (with_pmm h p') x 0).

Lemma lg_own : own_table (page_down x).
Proof using All.
  destruct (leaf_slot h _ _ _ Hl) as (t&Ht&->&_). rewrite (table_slot h A L (wi_inv _ _ Hw) as_ va 3) by auto.
  exists va, 3%nat. split_and!; auto. by apply (wi_sub _ _ Hw).
Qed.

Lemma leaf_gone_ok : wiped (filter (fun y => y <> x) L) h' /\ spares 4 3 va h h' /\ gone 4 va h'.
Proof using All.
  pose proof (wi_inv _ _ Hw) as Hi. pose proof (inv_ref_pos h L (pi_cow _ _ _ Hi) x HxL) as Hpos.
  destruct (free_by_address h.(v_pmm) _ (inv_pmm_ok h A L Hi) (frame_aligned _ x) Hpos) as (Hok&Hb&Hg&Hr&_).
  destruct (free_releases h.(v_pmm) _ (inv_pmm_ok h A L Hi) (frame_aligned _ x) Hpos) as [Hf1 Hf2].
  destruct (leaf_slot h _ _ _ Hl) as (t&Ht&Hx&Hpr). split_and!.
  - constructor; cbn [v_pmm set_leaf with_mem with_pmm].
    + eapply inv_tlb; [apply (unmap_inv h A L as_ va x Hi Has Hu Hl)|done|done].
    + rewrite Hb. apply Hw.
    + rewrite Hg. apply Hw.
    + intros va' n u Hu' Hn Hu1. apply (wi_sub _ _ Hw); auto. rewrite <- Hu1. symmetry.
      apply (unmap_tab h A L as_ va x Hi Has Hu Hl); auto.
    + intros a Ha. rewrite <- (wi_out _ _ Hw a Ha). apply mwrite_ne. intros ->. apply Ha, lg_own.
    + intros va' Hu'. pose proof (unmap_leaf h A L as_ va x Hi Has Hu Hl as_ va' Has Hu') as Hlf.
      cbn [v_mem arch_vm_flush_user_page] in Hlf. case_decide as Hd; [left; unfold view; by rewrite Hlf|].
      assert (Hv : view h'.(v_mem) as_ va' = view h.(v_mem) as_ va'); [|rewrite Hv; by apply (wi_view _ _ Hw)].
      unfold view. rewrite Hlf. destruct (leaf h.(v_mem) as_ va') as [y|] eqn:E; [|done].
      cbn [v_mem set_leaf with_mem with_pmm]. rewrite mwrite_ne; [done|]. by apply (unmap_entry h A L as_ va x Hi Has Hu Hl as_ va').
    + intros f Hf. by apply Hf2, (wi_free _ _ Hw).
    + intros f Hfa Hp. rewrite Hr by done. case_decide as Hd; [subst f; intros; apply Hf1; lia|].
      intros Hz. by apply Hf2, (wi_last _ _ Hw).
    + intros f Hfa Hz. rewrite Hr by done. pose proof (wi_ref _ _ Hw f Hfa Hz). case_decide as Hd; [subst f; lia|done].
    + intros f Hfa. rewrite <- (wi_stray _ _ Hw) by done. apply (unmap_stray h A L as_ va x Hi Has Hu Hl f Hfa).
  - intros va' k u Hu' Hk Hu1 Hor. apply mwrite_ne. rewrite Hx. intros He.
    destruct (slot_once h A L Hi as_ va' k u as_ va 3 t) as (_&->&Hkey); auto. destruct Hor; [done|lia].
  - intros va' Hu' Hkey. split; [intros k; lia|].
    pose proof (unmap_leaf h A L as_ va x Hi Has Hu Hl as_ va' Has Hu') as Hlf. rewrite decide_True in Hlf by done. exact Hlf.
Qed.
End leaf_gone.

Section table_gone.
Variables (L : list Z) (h : vmst) (va : Z) (n : nat) (t0 t : Z).
Hypotheses (Hw : wiped L h) (Hu : user va) (Hn : (n <= 2)%nat).
Hypotheses (Ht0 : tab h.(v_mem) as_ va n = Some t0) (Ht : tab h.(v_mem) as_ va (S n) = Some t).
Hypothesis Hall : forall va', user va' -> key (S n) va' = key (S n) va -> gone (S (S n)) va' h.
Abbreviation x := (slot t0 (idx n va)).
Abbreviation h' := (set_leaf (with_pmm h (pmm_free h.(v_pmm) t 1)) x 0).

Lemma tg_empty va' : user va' -> key (S n) va' = key (S n) va ->
  (forall k, (S n < k <= 3)%nat -> tab h.(v_mem) as_ va' k = None) /\ leaf h.(v_mem) as_ va' = None.
Proof using Hall Hn.
  intros Hu' Hk. destruct (Hall va' Hu' Hk va' Hu' eq_refl) as [H1 H2]. split; [|done]. intros k Hk'. apply H1. lia.
Qed.

Lemma tg_own : own_table (page_down x).
Proof using Has Hw Hu Hn Ht0.
  rewrite (table_slot h A L (wi_inv _ _ Hw) as_ va n) by (auto; lia). exists va, n. split_and!; auto.
  apply (wi_sub _ _ Hw); auto.
Qed.

Lemma table_gone_ok : wiped L h' /\ spares (S n) n va h h' /\ gone (S n) va h'.
Proof using All.
  pose proof (wi_inv _ _ Hw) as Hi.
  destruct (unlink_page h A L as_ va n t0 t Hi Has Hu Hn Ht0 Ht tg_empty) as (Hal&H1&_&_).
  destruct (free_by_address h.(v_pmm) t (inv_pmm_ok h A L Hi) Hal ltac:(lia)) as (Hok&Hb&Hg&Hr&_).
  destruct (free_releases h.(v_pmm) t (inv_pmm_ok h A L Hi) Hal ltac:(lia)) as [Hf1 Hf2]. split_and!.
  - constructor; cbn [v_pmm set_leaf with_mem with_pmm].
    + by apply (unlink_inv h A L as_ va n t0 t Hi Has Hu Hn Ht0 Ht tg_empty).
    + rewrite Hb. apply Hw.
    + rewrite Hg. apply Hw.
    + intros va' k u Hu' Hk Hu1. apply (wi_sub _ _ Hw); auto.
      pose proof (unlink_tab h A L as_ va n t0 t Hi Has Hu Hn Ht0 as_ va' k Has Hu' Hk) as Htab. rewrite Htab in Hu1.
      by case_decide.
    + intros a Ha. rewrite <- (wi_out _ _ Hw a Ha). apply mwrite_ne. intros ->. apply Ha, tg_own.
    + intros va' Hu'. pose proof (unlink_view h A L as_ va n t0 t Hi Has Hu Hn Ht0 tg_empty as_ va' Has Hu') as Hv.
      rewrite Hv. by apply (wi_view _ _ Hw).
    + intros f Hf. by apply Hf2, (wi_free _ _ Hw).
    + intros f Hfa Hp. rewrite Hr by done. case_decide as Hd; [subst f; intros; by apply Hf1|].
      intros Hz. by apply Hf2, (wi_last _ _ Hw).
    + intros f Hfa Hz. rewrite Hr by done. pose proof (wi_ref _ _ Hw f Hfa Hz). case_decide as Hd; [lia|done].
    + intros f Hfa. rewrite <- (wi_stray _ _ Hw) by done.
      apply (unlink_stray h A L as_ va n t0 t Hi Has Hu Hn Ht0 Ht tg_empty f Hfa).
  - intros va' k u Hu' Hk Hu1 Hor. apply mwrite_ne. intros He.
    destruct (slot_once h A L Hi as_ va' k u as_ va n t0) as (_&->&Hkey); auto. destruct Hor; [done|lia].
  - intros va' Hu' Hkey. split.
    + intros k Hk. pose proof (unlink_tab h A L as_ va n t0 t Hi Has Hu Hn Ht0 as_ va' k Has Hu' ltac:(lia)) as Htab.
      rewrite decide_True in Htab by (unfold cut; split_and!; auto; lia). exact Htab.
    + pose proof (unlink_leaf h A L as_ va n t0 t Hi Has Hu Hn Ht0 tg_empty as_ va' Has Hu') as Hlf.
      rewrite Hlf. by apply tg_empty.
Qed.
End table_gone.

(** ** The loops *)

(** Every page of the space belongs to the allocator. *)
Hypothesis Hman : forall va e, user va -> view s0.(v_mem) as_ va = Some e -> managed s0.(v_pmm) (x86_pte_phys e).
Hypothesis Hflat : forall va, user va -> huge_page s0.(v_mem) as_ va = None.

Definition entry_freed (n : nat) (body : Z -> Z -> ST vmst unit) : Prop :=
  forall L h va t, user va -> wiped L h -> tab h.(v_mem) as_ va n = Some t -> intact (S n) va h ->
    wp nopanic (body t (idx n va)) (fun _ s' => exists L' h',
      s' = real h' /\ wiped L' h' /\ spares (S n) n va h h' /\ gone (S n) va h') (real h).

Definition table_freed (n : nat) (loop : Z -> ST vmst unit) : Prop :=
  forall L h va t, user va -> wiped L h -> tab h.(v_mem) as_ va n = Some t ->
    (forall va', user va' -> key n va' = key n va -> intact (S n) va' h) ->
    wp nopanic (loop t) (fun _ s' => exists L' h',
      s' = real h' /\ wiped L' h' /\ spares n n va h h' /\
      forall va', user va' -> key n va' = key n va -> gone (S n) va' h') (real h).

Lemma loop_freed n k body :
  (n <= 3)%nat -> k = (if decide (n = 0%nat) then 256%nat else 512%nat) ->
  entry_freed n body -> table_freed n (fun t => mfor k 0 (body t)).
Proof using.
  intros Hn Hk Hbody L h va t Hu Hw Ht Hint.
  assert (Hkb : (k <= 512)%nat /\ (n = 0%nat -> k = 256%nat) /\ (n <> 0%nat -> k = 512%nat)) by (subst k; case_decide; lia).
  eapply wp_mono; [apply (wp_for nopanic (fun j s' => exists L' h', s' = real h' /\ wiped L' h' /\ spares n n va h h' /\
    (forall va', user va' -> key n va' = key n va -> idx n va' < j -> gone (S n) va' h') /\
    (forall va', user va' -> key n va' = key n va -> j <= idx n va' -> intact (S n) va' h')))|].
  - exists L, h. split_and!; auto using spares_refl. intros va' _ _. pose proof (idx_range n va'). lia.
  - intros j s1 Hj (L1&h1&->&Hw1&Hs1&Hg1&Hi1). destruct (turn n va j Hn Hu) as (vj&Huj&Hkj&<-); [lia..|].
    assert (Ht1 : tab h1.(v_mem) as_ va n = Some t) by (rewrite (spares_tab _ _ _ _ _ _ _ Hs1) by auto; done).
    assert (Htj : tab h1.(v_mem) as_ vj n = Some t) by (by rewrite (tab_key _ _ vj va n Hkj)).
    eapply wp_mono; [apply (Hbody L1 h1 vj t); auto; apply Hi1; auto; lia|].
    intros _ s2 (L2&h2&->&Hw2&Hs2&Hg2). exists L2, h2. split_and!; auto.
    + apply (spares_trans _ _ _ _ h1); [done|]. apply (spares_key _ _ vj); [done|]. apply (spares_weaken (S n) n n n); auto.
    + intros va' Hu' Hk' Hlt. destruct (decide (idx n va' = idx n vj)) as [He|Hne].
      * intros va2 Hu2 Hk2. apply Hg2; [done|]. rewrite Hk2. cbn [key]. by rewrite He, Hk', Hkj.
      * apply (spares_gone (S n) vj va' h1); [by rewrite Nat.sub_succ, Nat.sub_0_r| |apply Hg1; auto; lia].
        intros [_ ?]%key_inj. done.
    + intros va' Hu' Hk' Hle. apply (spares_intact L1 n va vj va' t h1 h2); auto; [|apply Hi1; auto; lia].
      intros [_ ?]%key_inj. lia.
  - intros a s' (L'&h'&->&Hw'&Hs'&Hg'&_). exists L', h'. split_and!; auto. intros va' Hu' Hk'. apply Hg'; auto.
    pose proof (idx_range n va'). destruct (decide (n = 0%nat)) as [->|Hd]; [unfold user in Hu'; cbn [idx]|]; lia.
Qed.

Lemma descend_freed n inner L h va t0 t :
  (n <= 2)%nat -> table_freed (S n) inner -> user va -> wiped L h -> tab h.(v_mem) as_ va n = Some t0 ->
  intact (S n) va h -> tab h.(v_mem) as_ va (S n) = Some t ->
  wp nopanic (inner t) (fun _ => wp nopanic (free_pages t 1) (fun _ s' => exists L' h',
      s' = real h' /\ wiped L' h' /\ spares (S n) n va h h' /\ gone (S n) va h')) (real h).
Proof using Hi0 Has.
  intros Hn Hinner Hu Hw Ht0 Hint Ht. eapply wp_mono; [apply (Hinner L h va t); auto|].
  - intros va' Hu' Hk. by apply (intact_down (S n) va).
  - intros _ s1 (L1&h1&->&Hw1&Hs1&Hg1). unfold free_pages. wp_steps.
    assert (Ht01 : tab h1.(v_mem) as_ va n = Some t0) by (rewrite (spares_tab _ _ _ _ _ _ _ Hs1) by (auto; lia); done).
    assert (Ht1 : tab h1.(v_mem) as_ va (S n) = Some t) by (rewrite (spares_tab _ _ _ _ _ _ _ Hs1) by (auto; lia); done).
    destruct (table_gone_ok L1 h1 va n t0 t Hw1 Hu Hn Ht01 Ht1 Hg1) as (Hw2&Hs2&Hg2).
    eexists L1, _. split; [|split_and!; [exact Hw2| |exact Hg2]]; [done|].
    apply (spares_trans _ _ _ _ h1); [|done]. apply (spares_weaken (S n) (S n) (S n) n); auto; lia.
Qed.

Lemma entry_absent n L h va t : (n <= 3)%nat -> user va -> wiped L h -> tab h.(v_mem) as_ va n = Some t ->
  has (h.(v_mem) (slot t (idx n va))) PTE_PRESENT = false -> gone (S n) va h.
Proof using.
  intros Hn Hu Hw Ht Hp va' Hu' Hk. pose proof (key_inj _ _ _ Hk) as [Hk0 Hidx].
  destruct (absent_none _ _ _ va' _ _ Hn Ht Hp Hk) as [Hv _]. split.
  - intros k Hk'. assert (Hs : tab h.(v_mem) as_ va' (S n) = None).
    { cbn [tab]. rewrite (tab_key _ _ va' va n Hk0), Ht, Hidx. unfold child. by rewrite Hp. }
    destruct (tab h.(v_mem) as_ va' k) as [u|] eqn:E; [|done].
    destruct (tab_prefix _ _ _ (S n) k u E ltac:(lia)) as (w&Hw1). congruence.
  - unfold view in Hv. by destruct (leaf h.(v_mem) as_ va').
Qed.

(** The entry the code reads is the one still to be dealt with. *)
Lemma entry_read n L h va t : (n <= 3)%nat -> user va -> wiped L h -> tab h.(v_mem) as_ va n = Some t -> intact (S n) va h ->
  (real h).(v_mem) (slot t (idx n va)) = h.(v_mem) (slot t (idx n va)).
Proof using.
  intros Hn Hu Hw Ht Hin. symmetry. cbn [real v_mem with_pmm]. apply Hin; auto. by apply (wi_sub _ _ Hw).
Qed.

Lemma free_pt_ok : entry_freed 3 free_pt_entry.
Proof using All.
  intros L h va t Hu Hw Ht Hin. unfold free_pt_entry, load, assert_referenced, free_pages. wp_steps.
  rewrite (entry_read 3 L h va t) by auto. apply wp_if; intros Hpr.
  { apply negb_true_iff in Hpr. wp_steps. exists L, h. split_and!; auto using spares_refl. by apply (entry_absent 3 L h va t). }
  apply negb_false_iff in Hpr. set (x := slot t (idx 3 va)) in *. pose proof (wi_inv _ _ Hw) as Hi.
  assert (Hl : leaf h.(v_mem) as_ va = Some x) by (unfold leaf; rewrite Ht; cbv zeta; fold x; by rewrite Hpr).
  assert (Hv : view h.(v_mem) as_ va = Some (h.(v_mem) x)) by (unfold view; by rewrite Hl).
  assert (HxL : x ∈ L).
  { apply (pi_leaf _ _ _ Hi). exists as_, va. split_and!; auto. unfold managed.
    rewrite (page_of_range s0.(v_pmm) h.(v_pmm) _ (wi_base _ _ Hw) (wi_pages _ _ Hw)).
    apply (Hman va (h.(v_mem) x)); auto. destruct (wi_view _ _ Hw va Hu) as [?|Hv0]; congruence. }
  pose proof (inv_ref_pos h L (pi_cow _ _ _ Hi) x HxL) as Hpos. wp_steps.
  2: { cbn [real v_pmm with_pmm]. apply Z.ltb_lt in Hpos. intros Hf. unfold frame in Hpos. cbn in Hpos. unfold x86_pte_phys in Hpos. congruence. }
  destruct (leaf_gone_ok L h va x Hw Hu Hl HxL) as (Hw'&Hs'&Hg'). eexists _, _. split; [|split_and!; [exact Hw'|exact Hs'|exact Hg']].
  done.
Qed.

Lemma free_pd_ok : entry_freed 2 free_pd_entry.
Proof using All.
  intros L h va t Hu Hw Ht Hin. unfold free_pd_entry, load. wp_steps.
  rewrite (entry_read 2 L h va t) by auto. apply wp_if; intros Hpr.
  { apply negb_true_iff in Hpr. wp_steps. exists L, h. split_and!; auto using spares_refl. by apply (entry_absent 2 L h va t); auto. }
  apply negb_false_iff in Hpr. destruct (has (h.(v_mem) (slot t (idx 2 va))) PTE_HUGE) eqn:Hhg.
  { exfalso. pose proof (wi_sub _ _ Hw va 2%nat t Hu ltac:(lia) Ht) as Ht0. specialize (Hflat va Hu).
    rewrite (Hin va 2%nat t) in Hhg, Hpr by auto. revert Hflat. unfold huge_page, huge. rewrite Ht0. cbv zeta. by rewrite Hhg, Hpr. }
  unfold vmm_assert_page_aligned. wp_steps.
  - apply (descend_freed 2 (fun t => mfor 512 0 (free_pt_entry t)) L h va t); auto.
    + apply loop_freed; auto. exact free_pt_ok.
    + cbn [tab] in *. rewrite Ht. unfold child. by rewrite Hpr, Hhg.
  - intros Hal. rewrite land_low, (addr_aligned _) in Hal. done.
Qed.

Lemma free_pdp_ok : entry_freed 1 free_pdp_entry.
Proof using All.
  intros L h va t Hu Hw Ht Hin. unfold free_pdp_entry, load. wp_steps.
  rewrite (entry_read 1 L h va t) by auto. apply wp_if; intros Hpr.
  { apply negb_true_iff in Hpr. wp_steps. exists L, h. split_and!; auto using spares_refl. by apply (entry_absent 1 L h va t); auto. }
  apply negb_false_iff in Hpr. unfold vmm_assert_page_aligned. wp_steps.
  - apply (descend_freed 1 (fun t => mfor 512 0 (free_pd_entry t)) L h va t); auto.
    + apply loop_freed; auto. exact free_pd_ok.
    + cbn [tab] in *. rewrite Ht. unfold child. by rewrite Hpr.
  - intros Hal. rewrite land_low, (addr_aligned _) in Hal. done.
Qed.

Lemma free_pml4_ok : entry_freed 0 free_pml4_entry.
Proof using All.
  intros L h va t Hu Hw Ht Hin. unfold free_pml4_entry, load. wp_steps.
  rewrite (entry_read 0 L h va t) by (auto; lia). apply wp_if; intros Hpr.
  { apply negb_true_iff in Hpr. wp_steps. exists L, h. split_and!; auto using spares_refl. by apply (entry_absent 0 L h va t); auto; lia. }
  apply negb_false_iff in Hpr. wp_steps.
  apply (descend_freed 0 (fun t => mfor 512 0 (free_pdp_entry t)) L h va t); auto.
  - apply loop_freed; auto. exact free_pdp_ok.
  - cbn [tab] in *. injection Ht as <-. unfold child. by rewrite Hpr.
Qed.

Lemma free_loop_ok : table_freed 0 (fun t => mfor 256 0 (free_pml4_entry t)).
Proof using All. apply loop_freed; auto. exact free_pml4_ok. Qed.

Lemma wiped_start : wiped L0 s0.
Proof using All.
  constructor; auto; try done. intros f Hf Hp Hz. lia.
Qed.
End destroy.

(** ** The top table *)
Section drop_root.
Variables (h : vmst) (A L : list Z) (as_ : Z).
Hypotheses (Hi : pt_inv h A L) (Has : as_ ∈ A).
Hypothesis Hgone : forall va, user va -> (forall k, (1 <= k <= 3)%nat -> tab h.(v_mem) as_ va k = None) /\ leaf h.(v_mem) as_ va = None.
Abbreviation A' := (filter (fun a => a <> as_) A).
Abbreviation h' := (with_pmm h (pmm_free h.(v_pmm) as_ 1)).

Lemma dr_page : aligned as_ /\ pmm_get_ref h.(v_pmm) as_ = 1 /\
  (forall x, x ∈ L -> frame h.(v_mem) x <> as_ /\ page_down x <> as_) /\ is_table h.(v_mem) A as_.
Proof using Hi Has.
  assert (Hu : user 0) by (by apply user_low).
  assert (Hist : is_table h.(v_mem) A as_) by (exists as_, 0, 0%nat; split_and!; auto; lia).
  destruct (pi_tab _ _ _ Hi as_ Hist) as [Hal H1]. split_and!; auto. intros x Hx.
  split; [intros He; apply (pi_frame _ _ _ Hi x Hx); by rewrite He|]. intros He.
  destruct (in_L h A L Hi x Hx) as (as'&va'&Ha'&Hu'&Hl). destruct (leaf_slot h _ _ _ Hl) as (u&Hu1&->&_).
  rewrite (table_slot h A L Hi as' va' 3) in He by auto. subst u.
  destruct (pi_inj _ _ _ Hi as' va' 3 as_ 0 0 as_) as (_&?&_); auto; lia.
Qed.

Lemma dr_table f : is_table h.(v_mem) A' f <-> is_table h.(v_mem) A f /\ f <> as_.
Proof using Hi Has Hgone.
  assert (Hu : user 0) by (by apply user_low). split.
  - intros (as'&va'&k&[Hne Ha']%list_elem_of_filter&Hu'&Hk&Hf). split; [by exists as', va', k|]. intros ->. apply Hne.
    apply (pi_inj _ _ _ Hi as' va' k as_ 0 0 as_); auto; lia.
  - intros ((as'&va'&k&Ha'&Hu'&Hk&Hf)&Hne). exists as', va', k. split_and!; auto. apply list_elem_of_filter. split; [|done].
    intros ->. destruct k as [|k]; [cbn in Hf; congruence|]. destruct (Hgone va' Hu') as [Hn _]. rewrite Hn in Hf by lia. done.
Qed.

Lemma drop_root_inv : pt_inv h' A' L.
Proof using All.
  destruct dr_page as (Hal&H1&Hx&_).
  destruct (free_by_address h.(v_pmm) as_ (inv_pmm_ok h A L Hi) Hal ltac:(lia)) as (Hok&Hb&Hg&Hr&Hf).
  assert (Hsub : forall a, a ∈ A' -> a ∈ A) by (by intros a [_ ?]%list_elem_of_filter).
  constructor.
  - by apply cow_free; [apply Hi|..].
  - intros f [Hf' Hne]%dr_table. destruct (pi_tab _ _ _ Hi f Hf') as [Hfa Hf1]. split; [done|].
    cbn [v_pmm with_pmm]. by rewrite Hr, decide_False.
  - intros as1 va1 k1 as2 va2 k2 f Ha1 Ha2. apply (pi_inj _ _ _ Hi); auto.
  - intros y. rewrite (pi_leaf _ _ _ Hi). unfold managed. cbn [v_pmm v_mem with_pmm].
    split; intros (as'&va'&Ha'&Hu'&Hl&Hm); exists as', va'; rewrite (page_of_range h.(v_pmm) _ _ Hb Hg) in *; split_and!; auto.
    apply list_elem_of_filter. split; [|done]. intros ->. destruct (Hgone va' Hu') as [_ Hn]. congruence.
  - intros y Hy [Hf' _]%dr_table. by apply (pi_frame _ _ _ Hi y).
  - intros as' va' y Ha'. apply (pi_null _ _ _ Hi); auto.
  - intros as' va' e Ha'. apply (pi_huge _ _ _ Hi); auto.
Qed.

Lemma drop_root_stray f : aligned f -> stray h' A' L f <-> stray h A L f.
Proof using All.
  intros Hfa. destruct dr_page as (Hal&H1&Hx&Hist).
  destruct (free_by_address h.(v_pmm) as_ (inv_pmm_ok h A L Hi) Hal ltac:(lia)) as (_&_&_&Hr&_).
  unfold stray. rewrite dr_table. cbn [v_pmm v_mem with_pmm]. rewrite Hr by done.
  destruct (decide (f = as_)) as [->|Hne]; [split; intros (?&?&_); [lia|done]|].
  split; intros (?&?&?); split_and!; auto; tauto.
Qed.
End drop_root.

(** The space [as_] is gone: the others are as they were, and every page that
    lost its last owner is free. *)
Record destroyed (s0 : vmst) (A L0 : list Z) (as_ : Z) (L' : list Z) (s' : vmst) : Prop := {
  de_mem : s'.(v_mem) = s0.(v_mem);
  de_tlb : s'.(v_tlb) = s0.(v_tlb);
  de_inv : pt_inv s' (filter (fun a => a <> as_) A) L';
  de_stray : forall f, aligned f -> stray s' (filter (fun a => a <> as_) A) L' f <-> stray s0 A L0 f;
  de_managed : forall f, managed s'.(v_pmm) f <-> managed s0.(v_pmm) f;
  de_last : forall f, aligned f -> 0 < pmm_get_ref s0.(v_pmm) f -> pmm_get_ref s'.(v_pmm) f = 0 -> free_at s'.(v_pmm) f;
}.

Section finish.
Variables (s0 h : vmst) (A L0 L : list Z) (as_ : Z).
Hypotheses (Hi0 : pt_inv s0 A L0) (Has : as_ ∈ A) (Hw : wiped s0 A L0 as_ L h).
Hypothesis Hgone : forall va, user va -> (forall k, (1 <= k <= 3)%nat -> tab h.(v_mem) as_ va k = None) /\ leaf h.(v_mem) as_ va = None.
Abbreviation A' := (filter (fun a => a <> as_) A).
Abbreviation p' := (pmm_free h.(v_pmm) as_ 1).
Abbreviation s' := (with_pmm s0 p').

Lemma fi_slot as' va n t : as' ∈ A' -> user va -> (n <= 3)%nat -> tab s0.(v_mem) as' va n = Some t ->
  h.(v_mem) (slot t (idx n va)) = s0.(v_mem) (slot t (idx n va)).
Proof using Hi0 Has Hw.
  intros [Hne Ha]%list_elem_of_filter Hu Hn Ht. apply (wi_out _ _ _ _ _ _ Hw).
  rewrite (table_slot s0 A L0 Hi0 as' va n) by auto. intros (va'&k&Hu'&Hk&Ht'). apply Hne.
  by apply (pi_inj _ _ _ Hi0 as' va n as_ va' k t).
Qed.

Lemma fi_tab as' va n : as' ∈ A' -> user va -> (n <= 3)%nat -> tab h.(v_mem) as' va n = tab s0.(v_mem) as' va n.
Proof using Hi0 Has Hw.
  intros Ha Hu Hn. apply tab_agree. intros k t Hk Ht. f_equal. apply (fi_slot as'); auto. lia.
Qed.

Lemma fi_inv : pt_inv s' A' L.
Proof using All.
  pose proof (drop_root_inv h A L as_ (wi_inv _ _ _ _ _ _ Hw) Has Hgone) as Hd.
  apply (inv_same (with_pmm h p') A' L Hd); cbn [v_pmm v_mem with_pmm]; auto.
  - intros as' va k Ha Hu Hk. by rewrite fi_tab.
  - intros as' va t Ha Hu Ht. rewrite fi_tab in Ht by auto. by rewrite (fi_slot as' va 3 t).
  - intros as' va Ha Hu. unfold huge. rewrite fi_tab by auto. destruct (tab s0.(v_mem) as' va 2) as [t|] eqn:E; [|done].
    by rewrite (fi_slot as' va 2 t) by auto.
Qed.

Lemma fi_stray f : aligned f -> stray s' A' L f <-> stray s0 A L0 f.
Proof using All.
  intros Hf. rewrite <- (wi_stray _ _ _ _ _ _ Hw) by done.
  pose proof (wi_inv _ _ _ _ _ _ Hw) as Hi. pose proof (drop_root_inv h A L as_ Hi Has Hgone) as Hd.
  rewrite <- (drop_root_stray h A L as_ Hi Has Hgone f Hf). unfold stray. cbn [v_pmm v_mem with_pmm].
  assert (Ht : is_table s0.(v_mem) A' f <-> is_table h.(v_mem) A' f).
  { split; intros (as'&va&n&?&?&?&?); exists as', va, n; [rewrite fi_tab|rewrite <- fi_tab]; auto. }
  assert (Hfr : forall y, y ∈ L -> frame s0.(v_mem) y = frame h.(v_mem) y).
  { intros y Hy. destruct (in_L _ _ _ Hd y Hy) as (as'&va&Ha&Hu&Hl). destruct (leaf_slot _ _ _ _ Hl) as (t&Ht'&->&_).
    cbn [v_mem with_pmm] in Ht'. rewrite fi_tab in Ht' by auto. unfold frame. by rewrite (fi_slot as' va 3 t). }
  rewrite Ht. split; intros (?&?&Hn); split_and!; auto; intros y Hy; [rewrite <- Hfr|rewrite Hfr]; auto.
Qed.

Lemma fi_destroyed : destroyed s0 A L0 as_ L s'.
Proof using All.
  pose proof (wi_inv _ _ _ _ _ _ Hw) as Hi. destruct (dr_page h A L as_ Hi Has) as (Hal&H1&_&_).
  destruct (free_by_address h.(v_pmm) as_ (inv_pmm_ok h A L Hi) Hal ltac:(lia)) as (_&Hb&Hg&Hr&_).
  destruct (free_releases h.(v_pmm) as_ (inv_pmm_ok h A L Hi) Hal ltac:(lia)) as [Hf1 Hf2].
  constructor; try done; [exact fi_inv|exact fi_stray| |].
  { intros f. unfold managed. cbn [v_pmm with_pmm]. rewrite (page_of_range h.(v_pmm)) by done.
    by rewrite (page_of_range s0.(v_pmm)) by apply Hw. }
  intros f Hf Hp. cbn [v_pmm with_pmm]. rewrite Hr by done. case_decide as Hd; [subst f; intros; by apply Hf1|].
  intros Hz. by apply Hf2, (wi_last _ _ _ _ _ _ Hw).
Qed.
End finish.

(** What the call needs: every page of the space comes from the allocator. *)
Record freeable (s : vmst) (as_ : Z) : Prop := {
  fr_pages : forall va e, user va -> view s.(v_mem) as_ va = Some e -> managed s.(v_pmm) (x86_pte_phys e);
  fr_flat : forall va, user va -> huge_page s.(v_mem) as_ va = None;
}.

Lemma free_pml4_frees kernel_pml4 as_ s A L :
  pt_inv s A L -> as_ ∈ A -> as_ <> kernel_pml4 -> freeable s as_ ->
  wp nopanic (vmm_free_user_pml4 kernel_pml4 as_) (fun _ s' => exists L', destroyed s A L as_ L' s') s.
Proof.
  intros Hi Ha Hk [Hman Hflat]. unfold vmm_free_user_pml4.
  destruct (dr_page s A L as_ Hi Ha) as (Hal&H1&_&_).
  assert (Hne : as_ <> 0).
  { intros ->. destruct (ci_zero _ _ (pi_cow _ _ _ Hi)) as [_ Hz]. lia. }
  apply Z.eqb_neq in Hne, Hk. rewrite Hne, Hk. unfold vmm_assert_page_aligned. wp_steps.
  - assert (Hl := free_loop_ok s A L as_ Hi Ha Hman Hflat L s 0 as_ ltac:(by apply user_low) ltac:(by apply wiped_start) eq_refl
      ltac:(by intros va' Hu' _ va2 k t)).
    assert (Hs : real s s = s) by (by destruct s). rewrite Hs in Hl. eapply wp_mono; [exact Hl|].
    intros b s1 (L1&h1&->&Hw&_&Hg). unfold free_pages. wp_steps. exists L1. apply (fi_destroyed s h1 A L L1 as_); auto.
    intros va Hu. apply (Hg va Hu eq_refl va Hu eq_refl).
  - intros He. rewrite land_low, Hal in He. done.
Qed.
