(* ===== verification/MmapOk.v ===== *)
(** * Ranges of pages: mapping fresh pages, and taking pages down *)
From S2P Require Import Prelude State Pmm Pte VmCow Vmm PtWalk PtInv PtGrow PtMap Mmap PtOps.

(** The [n] pages from [base] on. *)
Definition range (as_ base n : Z) (a v : Z) : Prop :=
  a = as_ /\ base / PAGE_SIZE <= v < base / PAGE_SIZE + n.

(** A page-aligned range of the process. *)
Record span (base n : Z) : Prop := {
  sp_aligned : aligned base;
  sp_low : 0 <= base;
  sp_n : 0 <= n;
  sp_high : base + n * PAGE_SIZE <= 2 ^ 47;
}.

Section span.
Variables (base n : Z).
Hypothesis Hsp : span base n.

Lemma span_user i : 0 <= i < n -> user (base + i * PAGE_SIZE) /\ 0 <= base + i * PAGE_SIZE < 2 ^ 47.
Proof using Hsp.
  intros Hi'. destruct Hsp. assert (0 <= base + i * PAGE_SIZE < 2 ^ 47) by (unfold PAGE_SIZE in *; lia).
  split; [by apply user_low|done].
Qed.

Lemma span_key i : 0 <= i < n -> key 4 (base + i * PAGE_SIZE) = base / PAGE_SIZE + i.
Proof using Hsp.
  intros Hi'. destruct (span_user i Hi') as [_ ?]. rewrite key_page by lia.
  rewrite Z.div_add by done. done.
Qed.

Lemma span_at as_ i a v : 0 <= i < n -> at_page as_ (base + i * PAGE_SIZE) a v -> range as_ base n a v.
Proof using Hsp. intros Hi' [-> ->]. rewrite span_key by done. split; [done|lia]. Qed.

Lemma span_u64 i : 0 <= i < n -> u64 (base + i * PAGE_SIZE) = base + i * PAGE_SIZE.
Proof using Hsp. intros Hi'. destruct (span_user i Hi') as [_ ?]. apply u64_small. lia. Qed.

Lemma span_le j : 0 <= j <= n -> span base j.
Proof using Hsp. intros Hj. destruct Hsp. constructor; auto; unfold PAGE_SIZE in *; lia. Qed.
End span.

Lemma range_le as_ base j n a v : j <= n -> range as_ base j a v -> range as_ base n a v.
Proof. intros Hj [? ?]. split; [done|lia]. Qed.

Lemma pages_mul n : 0 <= n -> pages (n * PAGE_SIZE) = Z.to_nat n.
Proof.
  intros Hn. unfold pages. f_equal.
  replace (n * PAGE_SIZE + PAGE_SIZE - 1) with (PAGE_SIZE - 1 + n * PAGE_SIZE) by lia.
  rewrite Z.div_add by done. rewrite Z.div_small by (unfold PAGE_SIZE; lia). lia.
Qed.

(** ** Taking a range down *)

Lemma drop_range_ok s A L as_ base from n :
  pt_inv s A L -> as_ ∈ A -> span (base + from) n -> 0 <= from -> 0 <= base ->
  wp nopanic (drop_range as_ base from (from + n * PAGE_SIZE)) (fun _ s' =>
    exists L', pt_inv s' A L' /\ effect (range as_ (base + from) n) 0 A L s L' s' /\
      forall i, 0 <= i < n -> view s'.(v_mem) as_ (base + from + i * PAGE_SIZE) = None) s.
Proof.
  intros Hi Ha Hsp Hfrom Hbase. unfold drop_range.
  replace (from + n * PAGE_SIZE - from) with (n * PAGE_SIZE) by lia. pose proof (sp_n _ _ Hsp) as Hn.
  rewrite pages_mul by done.
  eapply wp_mono; [apply (wp_for nopanic (fun j s' => exists L', pt_inv s' A L' /\
    effect (range as_ (base + from) n) 0 A L s L' s' /\
    forall i, 0 <= i < j -> view s'.(v_mem) as_ (base + from + i * PAGE_SIZE) = None))|].
  - exists L. split_and!; [done|apply effect_refl|lia].
  - intros j s1 Hj (L1&Hi1&He1&Hv1). rewrite Z2Nat.id in Hj by done.
    replace (base + (from + j * PAGE_SIZE)) with (base + from + j * PAGE_SIZE) by lia.
    rewrite (span_u64 (base + from) n Hsp) by lia.
    destruct (span_user (base + from) n Hsp j) as [Hu ?]; [lia|].
    eapply wp_mono; [apply (drop_page_ok s1 A L1); auto; lia|]. intros _ s2 (L2&Hi2&He2&Hv2).
    exists L2. split_and!; [done| |].
    + apply (effect_trans _ 0 0 A L s L1 s1); [done|].
      eapply effect_weaken; [exact He2| |lia]. intros a v. by apply (span_at (base + from) n Hsp).
    + intros i Hi'. destruct (decide (i = j)) as [->|]; [done|].
      destruct (span_user (base + from) n Hsp i) as [Hui ?]; [lia|].
      rewrite (ef_view _ _ _ _ _ _ _ He2); auto; [apply Hv1; lia|]. intros [_ Hk].
      rewrite !(span_key (base + from) n Hsp) in Hk by lia. lia.
  - intros _ s' (L'&?&?&Hv). exists L'. split_and!; auto. intros i Hi'. apply Hv. lia.
Qed.

(** ** Mapping fresh pages *)

(** The page [va] holds [data], by way of an entry with [flags], in a frame
    of its own. *)
Definition ready (s : vmst) (as_ va flags : Z) (data : Z -> Z) : Prop :=
  exists pa, view s.(v_mem) as_ va = Some (leaf_entry pa flags) /\ x86_pte_phys (leaf_entry pa flags) = pa /\
    (managed s.(v_pmm) pa /\ pmm_get_ref s.(v_pmm) pa <= 1) /\
    forall o, 0 <= o < PAGE_SIZE -> s.(v_mem) (pa + o) = data o.

Lemma ready_effect D k A L s L' s' as_ va flags data :
  effect D k A L s L' s' -> as_ ∈ A -> user va -> ~ D as_ (key 4 va) ->
  ready s as_ va flags data -> ready s' as_ va flags data.
Proof.
  intros He Ha Hu HD (pa&Hv&Hp&[Hm Hr]&Hd). exists pa. rewrite (ef_view _ _ _ _ _ _ _ He) by auto. split_and!; auto.
  { unfold managed. by rewrite (page_of_range s.(v_pmm) s'.(v_pmm)) by apply He. }
  { pose proof (ef_ref _ _ _ _ _ _ _ He as_ va _ Ha Hu HD Hv) as H. rewrite Hp in H. lia. }
  intros o Ho. rewrite (ef_data _ _ _ _ _ _ _ He as_ va (leaf_entry pa flags)); auto.
  rewrite Hp. unfold in_frame. lia.
Qed.

(** A way of filling fresh pages: [fill m pa off] writes only the page
    [pa], and turns zeroes into [data off]. *)
Definition fills (fill : memory -> Z -> Z -> memory) (data : Z -> Z -> Z) : Prop :=
  forall m pa off,
    (forall a, ~ in_frame pa a -> fill m pa off a = m a) /\
    ((forall a, in_frame pa a -> m a = 0) -> forall o, 0 <= o < PAGE_SIZE -> fill m pa off (pa + o) = data off o).

Section fresh.
Variables (E : panic -> Prop) (s0 : vmst) (A L0 : list Z) (as_ base n flags : Z).
Variables (fill : memory -> Z -> Z -> memory) (data : Z -> Z -> Z).
Hypotheses (Hi0 : pt_inv s0 A L0) (Ha : as_ ∈ A) (Hsp : span base n).
Hypotheses (Hfl : Z.land flags PTE_ADDR_MASK = 0) (Hfill : fills fill data).
Hypothesis Hempty : forall i, 0 <= i < n ->
  view s0.(v_mem) as_ (base + i * PAGE_SIZE) = None /\ huge s0.(v_mem) as_ (base + i * PAGE_SIZE) = None.
Hypothesis Hno : no_tables E s0.(v_pmm) (4 * n).

(** [j] pages are mapped. *)
Definition upto (j : Z) (s : vmst) (L : list Z) : Prop :=
  pt_inv s A L /\ effect (range as_ base j) (4 * j) A L0 s0 L s /\
  forall i, 0 <= i < j -> ready s as_ (base + i * PAGE_SIZE) flags (data (i * PAGE_SIZE)).

Definition fresh_post (ok : bool) (s' : vmst) : Prop :=
  exists L', pt_inv s' A L' /\ effect (range as_ base n) (4 * n) A L0 s0 L' s' /\
    if ok then forall i, 0 <= i < n -> ready s' as_ (base + i * PAGE_SIZE) flags (data (i * PAGE_SIZE))
    else avail s0.(v_pmm) < 4 * n /\
         forall i, 0 <= i < n -> view s'.(v_mem) as_ (base + i * PAGE_SIZE) = None.

Lemma upto_empty j s L i : upto j s L -> 0 <= j -> j <= i < n ->
  view s.(v_mem) as_ (base + i * PAGE_SIZE) = None /\ huge s.(v_mem) as_ (base + i * PAGE_SIZE) = None.
Proof using All.
  intros (_&He&_) Hj Hi. destruct (span_user base n Hsp i ltac:(lia)) as [Hu _].
  destruct (Hempty i ltac:(lia)) as [Hv Hh].
  rewrite (ef_view _ _ _ _ _ _ _ He), (ef_huge _ _ _ _ _ _ _ He); auto.
  rewrite (span_key base n Hsp) by lia. intros [_ ?]. lia.
Qed.

Lemma fresh_rollback j s L :
  upto j s L -> 0 <= j < n -> avail s.(v_pmm) = 0 ->
  wp nopanic (drop_range as_ base 0 (j * PAGE_SIZE) ;; arch_syscall_flush_tlb as_ ;; mret false) fresh_post s.
Proof using All.
  intros Hup Hj Hav. pose proof Hup as (Hi&He&Hr). unfold arch_syscall_flush_tlb. wp_steps.
  pose proof (span_le base n Hsp j ltac:(lia)) as Hspj.
  replace (j * PAGE_SIZE) with (0 + j * PAGE_SIZE) by lia.
  eapply wp_mono; [apply (drop_range_ok s A L); auto; [by rewrite Z.add_0_r|lia|apply Hsp]|].
  intros _ s1 (L1&Hi1&He1&Hv1). rewrite Z.add_0_r in He1, Hv1. wp_steps.
  pose proof (effect_trans _ _ _ _ _ _ _ _ _ _ He He1) as He2.
  exists L1. split; [by apply reload_inv|split].
  - apply reload_effect. eapply effect_weaken; [exact He2| |lia]. intros a v. apply range_le. lia.
  - split; [pose proof (ef_avail _ _ _ _ _ _ _ He); lia|]. intros i Hi'. cbn [v_mem reload_cr3].
    destruct (decide (i < j)); [apply Hv1; lia|]. destruct (upto_empty j s L i Hup) as [Hv _]; [lia..|].
    destruct (span_user base n Hsp i Hi') as [Hu _].
    rewrite (ef_view _ _ _ _ _ _ _ He1); auto. rewrite (span_key base n Hsp) by lia. intros [_ ?]. lia.
Qed.

(** One more page. *)
Lemma upto_step j s L pa p1 :
  upto j s L -> 0 <= j < n -> pmm_alloc s.(v_pmm) 1 = (pa, p1) -> pa <> 0 ->
  wp E (vmm_map_page as_ (base + j * PAGE_SIZE) pa flags) (fun _ s1 => exists L1, upto (j + 1) s1 L1)
    (with_mem (with_pmm s p1) (fill (mzero s.(v_mem) pa) pa (j * PAGE_SIZE))).
Proof using All.
  intros Hup Hj Eal Hne. pose proof Hup as (Hi&He&Hr). destruct (upto_empty j s L j Hup) as [Hv Hh]; [lia..|].
  destruct (span_user base n Hsp j) as [Hu Hlt]; [lia|].
  assert (Hno' : no_tables E s.(v_pmm) 4).
  { destruct Hno as [Hn|]; [left|by right]. pose proof (ef_avail _ _ _ _ _ _ _ He). lia. }
  destruct (Hfill (mzero s.(v_mem) pa) pa (j * PAGE_SIZE)) as [Hf1 Hf2].
  eapply wp_mono; [apply (map_taken_ok E s A L as_ _ flags pa p1 (fill (mzero s.(v_mem) pa) pa (j * PAGE_SIZE))); auto|].
  { intros a Hna. rewrite Hf1 by done. by apply mzero_out. }
  intros _ s1 (L1&Hi1&He1&Hv1&Hp1&Hr1&Hd1). exists L1. split_and!; [done| |].
  - replace (4 * (j + 1)) with (4 * j + 4) by lia. apply (effect_trans _ _ _ A L0 s0 L s).
    + eapply effect_weaken; [exact He| |lia]. intros a v. apply range_le. lia.
    + eapply effect_weaken; [exact He1| |lia]. intros a v.
      apply (span_at base (j + 1)); [apply (span_le base n Hsp)|]; lia.
  - intros i Hi'. destruct (decide (i = j)) as [->|].
    + exists pa. split_and!; auto; [apply ref_managed; lia|lia|]. intros o Ho. rewrite Hd1 by (unfold in_frame; lia).
      apply Hf2; [|done]. intros a. apply mzero_in.
    + destruct (span_user base n Hsp i) as [Hui _]; [lia|].
      apply (ready_effect _ _ A L s L1 s1) with (2 := Ha) (3 := Hui) (1 := He1); [|apply Hr; lia].
      intros [_ Hkey]. rewrite !(span_key base n Hsp) in Hkey by lia. lia.
Qed.

(** Memory ran out. *)
Lemma upto_fail j s L p1 :
  upto j s L -> j <= n -> pmm_alloc s.(v_pmm) 1 = (0, p1) ->
  upto j (with_pmm s p1) L /\ avail p1 = 0 /\ avail s0.(v_pmm) <= 4 * j.
Proof using All.
  intros (Hi&He&Hr) Hj Eal. destruct (alloc_fail_ok s A L Hi p1 Eal) as (Hi1&Hg1&_&Hav&Hav1).
  pose proof (ef_avail _ _ _ _ _ _ _ He). split; [|by split; [|lia]].
  pose proof (grows_effect (range as_ base j) _ s A L _ Hi Hg1) as He1.
  pose proof (effect_trans _ _ _ _ _ _ _ _ _ _ He He1) as He2. rewrite Z.add_0_r in He2. split_and!; [done..|].
  intros i Hi'. destruct (span_user base n Hsp i) as [Hu _]; [lia|].
  apply (ready_effect (fun _ _ => False) 0 A L s L); auto. by apply grows_effect.
Qed.

Lemma map_fresh_from k : forall j s L,
  upto j s L -> 0 <= j -> j + Z.of_nat k = n ->
  wp E (map_fresh k as_ base (j * PAGE_SIZE) flags fill) fresh_post s.
Proof using All.
  induction k as [|k IH]; intros j s L Hup Hj Hk; cbn [map_fresh].
  { wp_steps. assert (j = n) as -> by lia. destruct Hup as (?&?&?). by exists L. }
  wp_steps. apply wp_alloc.
  - intros p1 Eal. destruct (upto_fail j s L p1 Hup ltac:(lia) Eal) as (Hup1&Hav&_).
    rewrite Z.eqb_refl. apply wp_nopanic, (fresh_rollback j _ L); [done|lia|done].
  - intros pa p1 Eal Hne. apply Z.eqb_neq in Hne as Hb. rewrite Hb. unfold zero_page. wp_steps.
    rewrite (span_u64 base n Hsp) by lia.
    eapply wp_mono; [apply (upto_step j s L pa p1); auto; lia|]. intros _ s1 [L1 Hup1].
    replace (j * PAGE_SIZE + PAGE_SIZE) with ((j + 1) * PAGE_SIZE) by lia. by apply (IH (j + 1) s1 L1); [|lia..].
Qed.

Lemma upto_start : upto 0 s0 L0.
Proof using All. split_and!; [done|apply effect_refl|lia]. Qed.

(** Either all pages are mapped, or memory was short and none is. *)
Lemma map_fresh_ok : wp E (map_fresh (Z.to_nat n) as_ base 0 flags fill) fresh_post s0.
Proof using All.
  pose proof (sp_n _ _ Hsp). apply (map_fresh_from (Z.to_nat n) 0 s0 L0); [apply upto_start|lia..].
Qed.
End fresh.

Lemma fills_zero : fills (fun m _ _ => m) (fun _ _ => 0).
Proof. intros m pa off. split; [done|]. intros Hz o Ho. apply Hz. unfold in_frame. lia. Qed.

(** The loop of brk: no page is taken back when memory runs out. *)
Section brk.
Variables (E : panic -> Prop) (s0 : vmst) (A L0 : list Z) (as_ base n flags : Z).
Hypotheses (Hi0 : pt_inv s0 A L0) (Ha : as_ ∈ A) (Hsp : span base n) (Hfl : Z.land flags PTE_ADDR_MASK = 0).
Hypothesis Hempty : forall i, 0 <= i < n ->
  view s0.(v_mem) as_ (base + i * PAGE_SIZE) = None /\ huge s0.(v_mem) as_ (base + i * PAGE_SIZE) = None.
Hypothesis Hno : no_tables E s0.(v_pmm) (4 * n).
Abbreviation zeroes := (fun _ _ => 0).

Definition brk_post (ok : bool) (s' : vmst) : Prop :=
  exists j L', 0 <= j <= n /\ upto s0 A L0 as_ base flags zeroes j s' L' /\
    if ok then j = n else avail s0.(v_pmm) < 4 * n.

Lemma brk_pages_from k : forall j s L,
  upto s0 A L0 as_ base flags zeroes j s L -> 0 <= j -> j + Z.of_nat k = n ->
  wp E (brk_pages k as_ (base + j * PAGE_SIZE) flags) brk_post s.
Proof using All.
  induction k as [|k IH]; intros j s L Hup Hj Hk; cbn [brk_pages].
  { wp_steps. exists j, L. split_and!; auto; lia. }
  wp_steps. apply wp_alloc.
  - intros p1 Eal. rewrite Z.eqb_refl. wp_steps.
    destruct (upto_fail E s0 A L0 as_ base n flags _ zeroes Hi0 Ha Hsp Hfl fills_zero Hempty Hno j s L p1 Hup ltac:(lia) Eal)
      as (Hup1&_&Hav). exists j, L. split_and!; auto; lia.
  - intros pa p1 Eal Hne. apply Z.eqb_neq in Hne as Hb. rewrite Hb. unfold zero_page. wp_steps.
    eapply wp_mono; [apply (upto_step E s0 A L0 as_ base n flags (fun m _ _ => m) zeroes Hi0 Ha Hsp Hfl fills_zero
      Hempty Hno j s L pa p1); auto; lia|]. intros _ s1 [L1 Hup1].
    replace (base + j * PAGE_SIZE + PAGE_SIZE) with (base + (j + 1) * PAGE_SIZE) by lia. by apply (IH (j + 1) s1 L1); [|lia..].
Qed.

Lemma brk_pages_ok : wp E (brk_pages (Z.to_nat n) as_ base flags) brk_post s0.
Proof using All.
  pose proof (sp_n _ _ Hsp). replace base with (base + 0 * PAGE_SIZE) at 1 by lia.
  apply (brk_pages_from (Z.to_nat n) 0 s0 L0); [|lia..].
  by apply (upto_start E s0 A L0 as_ base n flags (fun m _ _ => m) zeroes Hi0 Ha Hsp Hfl fills_zero).
Qed.
End brk.
