(* ===== verification/MmapCalls.v ===== *)
(** * The memory calls: where mappings go *)
From S2P Require Import Prelude State Pmm Pte VmCow Vmm PtWalk PtInv PtGrow PtMap Mmap PtOps MmapOk.

(** The window mappings go to. *)
Definition window (base n : Z) : Prop :=
  span base n /\ USER_MMAP_BASE_VADDR <= base /\ base + n * PAGE_SIZE <= USER_MMAP_TOP_VADDR.

(** There is no 2 MiB page in the window: the frame buffer is mapped below. *)
Definition no_huge (m : memory) (as_ : Z) : Prop :=
  forall va, USER_MMAP_BASE_VADDR <= va < USER_MMAP_TOP_VADDR -> huge m as_ va = None.

(** Nothing is mapped in the range. *)
Definition empty (m : memory) (as_ base n : Z) : Prop :=
  forall i, 0 <= i < n -> view m as_ (base + i * PAGE_SIZE) = None.

(** ** Rounding *)

Lemma page_down_mul v : exists k, page_down v = k * PAGE_SIZE.
Proof. exists (v / PAGE_SIZE). rewrite page_down_mod. pose proof (Z.div_mod v PAGE_SIZE ltac:(done)). lia. Qed.

Lemma align_up_spec v : 0 <= v < 2 ^ 64 ->
  aligned (mmap_align_up v) /\
  (v <= 2 ^ 64 - PAGE_SIZE -> v <= mmap_align_up v < v + PAGE_SIZE) /\
  (2 ^ 64 - PAGE_SIZE < v -> mmap_align_up v = 0).
Proof.
  intros Hv. unfold mmap_align_up. split; [apply page_down_aligned|]. split; intros Hle.
  - rewrite u64_small by (unfold PAGE_SIZE in *; lia). pose proof (page_down_bound (v + PAGE_SIZE - 1)).
    unfold PAGE_SIZE in *. lia.
  - unfold u64. replace (v + PAGE_SIZE - 1) with (v + PAGE_SIZE - 1 - 2 ^ 64 + 1 * 2 ^ 64) by lia.
    rewrite Z.mod_add, Z.mod_small by (unfold PAGE_SIZE in *; lia).
    rewrite page_down_mod, Z.mod_small by (unfold PAGE_SIZE in *; lia). lia.
Qed.

Lemma align_up_pages v : 0 <= v < 2 ^ 64 -> mmap_align_up v = mmap_align_up v / PAGE_SIZE * PAGE_SIZE.
Proof.
  intros Hv. destruct (align_up_spec v Hv) as [Ha _]. unfold aligned in Ha.
  pose proof (Z.div_mod (mmap_align_up v) PAGE_SIZE ltac:(done)). lia.
Qed.

Lemma align_up_nonneg v : 0 <= mmap_align_up v.
Proof. apply page_down_nonneg, u64_range. Qed.

Lemma align_up_id v : 0 <= v <= 2 ^ 64 - PAGE_SIZE -> aligned v -> mmap_align_up v = v.
Proof.
  intros Hv Ha. destruct (align_up_spec v ltac:(unfold PAGE_SIZE in *; lia)) as (Hal&Hle&_). specialize (Hle ltac:(lia)).
  unfold aligned in *. apply aligned_mul in Ha as [k Hk], Hal as [j Hj]. rewrite Hj, Hk in *. unfold PAGE_SIZE in *. lia.
Qed.

(** [mmap_range_valid] says that the range lies in the window. *)
Lemma range_valid_spec base n :
  0 <= base < 2 ^ 64 -> 0 <= n -> n * PAGE_SIZE < 2 ^ 64 ->
  mmap_range_valid base (n * PAGE_SIZE) = true -> 0 < n /\ window base n.
Proof.
  intros Hb Hn Hs. unfold mmap_range_valid. rewrite !andb_true_iff, negb_true_iff, Z.eqb_neq, Z.eqb_eq, !Z.leb_le, Z.ltb_lt.
  rewrite land_low. unfold USER_MMAP_BASE_VADDR, USER_MMAP_TOP_VADDR.
  intros (((((Hz&Hal)&Hlo)&Hhi)&Hw)&Htop).
  assert (Hsum : base + n * PAGE_SIZE < 2 ^ 64).
  { destruct (Z.lt_ge_cases (base + n * PAGE_SIZE) (2 ^ 64)) as [|Hge]; [done|]. exfalso. revert Hw. unfold u64.
    replace (base + n * PAGE_SIZE) with (base + n * PAGE_SIZE - 2 ^ 64 + 1 * 2 ^ 64) by lia.
    rewrite Z.mod_add, Z.mod_small by lia. lia. }
  rewrite u64_small in Htop by (unfold PAGE_SIZE in *; lia). unfold PAGE_SIZE in *. split; [lia|].
  split; [constructor; unfold PAGE_SIZE; auto; lia|]. unfold USER_MMAP_BASE_VADDR, USER_MMAP_TOP_VADDR, PAGE_SIZE. lia.
Qed.

Lemma range_valid_intro base n : 0 < n -> window base n -> mmap_range_valid base (n * PAGE_SIZE) = true.
Proof.
  intros Hn ([Hal Hlo _ Hhi]&Hb&Ht). unfold mmap_range_valid. rewrite land_low. unfold aligned in Hal. rewrite Hal.
  unfold USER_MMAP_BASE_VADDR, USER_MMAP_TOP_VADDR in *. rewrite u64_small by (unfold PAGE_SIZE in *; lia).
  rewrite !andb_true_iff, negb_true_iff, Z.eqb_neq, Z.eqb_eq, !Z.leb_le, Z.ltb_lt. unfold PAGE_SIZE in *. lia.
Qed.

(** ** The check that a range is free *)

Section unmapped.
Variables (s : vmst) (A L : list Z) (as_ base n : Z).
Hypotheses (Hi : pt_inv s A L) (Ha : as_ ∈ A) (Hsp : span base n).

Lemma unmapped_from_spec k : forall j, 0 <= j -> j + Z.of_nat k = n ->
  unmapped_from k s.(v_mem) as_ base (j * PAGE_SIZE) = true ->
  forall i, j <= i < n -> view s.(v_mem) as_ (base + i * PAGE_SIZE) = None.
Proof using Hi Ha Hsp.
  induction k as [|k IH]; intros j Hj Hk; cbn [unmapped_from]; [lia|].
  destruct (Z.eqb_spec (vmm_get_phys s.(v_mem) as_ (u64 (base + j * PAGE_SIZE))) 0) as [H0|]; [|done].
  replace (j * PAGE_SIZE + PAGE_SIZE) with ((j + 1) * PAGE_SIZE) by lia. intros Hr i Hi'.
  destruct (decide (i = j)) as [->|]; [|apply (IH (j + 1)); auto; lia].
  destruct (span_user base n Hsp j ltac:(lia)) as [Hu Hlt]. rewrite (span_u64 base n Hsp) in H0 by lia.
  by apply (get_phys_none s A L Hi as_ _ Ha Hu ltac:(lia)) in H0 as [_ ?].
Qed.

Lemma range_unmapped_spec :
  mmap_range_unmapped s.(v_mem) as_ base (n * PAGE_SIZE) = true -> empty s.(v_mem) as_ base n.
Proof using Hi Ha Hsp.
  pose proof (sp_n _ _ Hsp). unfold mmap_range_unmapped. rewrite pages_mul by done. intros Hr i Hi'.
  apply (unmapped_from_spec (Z.to_nat n) 0); auto; lia.
Qed.

(** Where nothing is mapped the check succeeds. *)
Lemma unmapped_from_intro k : forall j, 0 <= j -> j + Z.of_nat k = n ->
  (forall i, j <= i < n -> view s.(v_mem) as_ (base + i * PAGE_SIZE) = None /\ huge s.(v_mem) as_ (base + i * PAGE_SIZE) = None) ->
  unmapped_from k s.(v_mem) as_ base (j * PAGE_SIZE) = true.
Proof using Hsp.
  induction k as [|k IH]; intros j Hj Hk Hno; cbn [unmapped_from]; [done|].
  destruct (Hno j ltac:(lia)) as [Hv Hh]. rewrite (span_u64 base n Hsp), get_phys_eq, Hh, Hv by lia. cbn.
  replace (j * PAGE_SIZE + PAGE_SIZE) with ((j + 1) * PAGE_SIZE) by lia. apply IH; [lia..|]. intros i Hi'. apply Hno. lia.
Qed.

Lemma range_unmapped_intro :
  (forall i, 0 <= i < n -> view s.(v_mem) as_ (base + i * PAGE_SIZE) = None /\ huge s.(v_mem) as_ (base + i * PAGE_SIZE) = None) ->
  mmap_range_unmapped s.(v_mem) as_ base (n * PAGE_SIZE) = true.
Proof using Hsp.
  pose proof (sp_n _ _ Hsp). unfold mmap_range_unmapped. rewrite pages_mul by done. intros Hno.
  apply (unmapped_from_intro (Z.to_nat n) 0); auto; lia.
Qed.
End unmapped.

(** ** Looking for a gap *)

Lemma first_page_spec f p : forall a r, first_page p f a = Some r ->
  f r = true /\ exists k, 0 <= k < Z.pos p /\ r = a + k * PAGE_SIZE.
Proof.
  induction p as [p IH|p IH|]; intros a r; cbn [first_page].
  - destruct (f a) eqn:E; [intros [= <-]; split; [done|]; exists 0; lia|].
    destruct (first_page p f (a + PAGE_SIZE)) as [r0|] eqn:E1.
    + intros [= <-]. destruct (IH _ _ E1) as (?&k&?&->). split; [done|]. exists (k + 1). lia.
    + intros E2. destruct (IH _ _ E2) as (?&k&?&->). split; [done|]. exists (k + 1 + Z.pos p). lia.
  - destruct (first_page p f a) as [r0|] eqn:E1.
    + intros [= <-]. destruct (IH _ _ E1) as (?&k&?&->). split; [done|]. exists k. lia.
    + intros E2. destruct (IH _ _ E2) as (?&k&?&->). split; [done|]. exists (k + Z.pos p). lia.
  - destruct (f a) eqn:E; [|done]. intros [= <-]. split; [done|]. exists 0. lia.
Qed.

Lemma first_page_none f p : forall a, first_page p f a = None ->
  forall k, 0 <= k < Z.pos p -> f (a + k * PAGE_SIZE) = false.
Proof.
  induction p as [p IH|p IH|]; intros a; cbn [first_page].
  - destruct (f a) eqn:E; [done|]. destruct (first_page p f (a + PAGE_SIZE)) eqn:E1; [done|]. intros E2 k Hk.
    destruct (decide (k = 0)) as [->|]; [by rewrite Z.mul_0_l, Z.add_0_r|].
    destruct (decide (k <= Z.pos p)).
    + replace (a + k * PAGE_SIZE) with (a + PAGE_SIZE + (k - 1) * PAGE_SIZE) by lia. apply IH; [done|lia].
    + replace (a + k * PAGE_SIZE) with (a + PAGE_SIZE + PAGE_SIZE * Z.pos p + (k - 1 - Z.pos p) * PAGE_SIZE) by lia.
      apply IH; [done|lia].
  - destruct (first_page p f a) eqn:E1; [done|]. intros E2 k Hk. destruct (decide (k < Z.pos p)).
    + apply IH; [done|lia].
    + replace (a + k * PAGE_SIZE) with (a + PAGE_SIZE * Z.pos p + (k - Z.pos p) * PAGE_SIZE) by lia. apply IH; [done|lia].
  - destruct (f a) eqn:E; [done|]. intros _ k Hk. assert (k = 0) as -> by lia. by rewrite Z.mul_0_l, Z.add_0_r.
Qed.

Section gap.
Variables (s : vmst) (A L : list Z) (as_ n : Z).
Hypotheses (Hi : pt_inv s A L) (Ha : as_ ∈ A) (Hn : 0 < n).
Hypothesis Hsize : n * PAGE_SIZE <= USER_MMAP_TOP_VADDR - USER_MMAP_BASE_VADDR.
Abbreviation m := s.(v_mem).

Lemma find_gap_from_spec start end_ :
  0 <= start <= USER_MMAP_TOP_VADDR -> end_ <= USER_MMAP_TOP_VADDR ->
  mmap_find_gap_from m as_ (n * PAGE_SIZE) start end_ <> 0 ->
  let base := mmap_find_gap_from m as_ (n * PAGE_SIZE) start end_ in
  window base n /\ empty m as_ base n.
Proof using All.
  intros Hst Hend. cbv zeta. unfold mmap_find_gap_from.
  set (st := if start <? USER_MMAP_BASE_VADDR then USER_MMAP_BASE_VADDR else start).
  assert (Hst1 : USER_MMAP_BASE_VADDR <= st <= USER_MMAP_TOP_VADDR)
    by (unfold st, USER_MMAP_BASE_VADDR, USER_MMAP_TOP_VADDR in *; case_match; lia).
  destruct (align_up_spec st) as (Hal&Hle&_);
    [unfold USER_MMAP_BASE_VADDR, USER_MMAP_TOP_VADDR in *; lia|].
  specialize (Hle ltac:(unfold USER_MMAP_BASE_VADDR, USER_MMAP_TOP_VADDR, PAGE_SIZE in *; lia)).
  set (a := mmap_align_up st) in *.
  assert (Ha64 : u64 (a + n * PAGE_SIZE) = a + n * PAGE_SIZE)
    by (apply u64_small; unfold USER_MMAP_BASE_VADDR, USER_MMAP_TOP_VADDR, PAGE_SIZE in *; lia).
  rewrite Ha64. destruct (Z.leb_spec (a + n * PAGE_SIZE) end_) as [Hfit|]; [|done].
  destruct (first_page _ _ a) as [r|] eqn:E; [|done]. intros _. apply first_page_spec in E as (Hf&k&Hk&->).
  assert (Hwin : a + k * PAGE_SIZE + n * PAGE_SIZE <= end_).
  { assert (0 <= (end_ - n * PAGE_SIZE - a) / PAGE_SIZE) by (apply Z.div_pos; unfold PAGE_SIZE in *; lia).
    rewrite Z2Pos.id in Hk by lia. assert (k <= (end_ - n * PAGE_SIZE - a) / PAGE_SIZE) by lia.
    pose proof (Z.mul_div_le (end_ - n * PAGE_SIZE - a) PAGE_SIZE ltac:(done)). unfold PAGE_SIZE in *. lia. }
  assert (Hsp : span (a + k * PAGE_SIZE) n).
  { unfold aligned, USER_MMAP_BASE_VADDR, USER_MMAP_TOP_VADDR in *.
    constructor; unfold aligned; try (unfold PAGE_SIZE in *; lia). by rewrite Z.mod_add. }
  split; [|by apply (range_unmapped_spec s A L)].
  split; [done|]. unfold PAGE_SIZE in *. lia.
Qed.

Lemma find_gap_spec hint :
  0 <= hint -> mmap_find_gap m as_ (n * PAGE_SIZE) hint <> 0 ->
  let base := mmap_find_gap m as_ (n * PAGE_SIZE) hint in window base n /\ empty m as_ base n.
Proof using All.
  intros Hh. cbv zeta. unfold mmap_find_gap. case_match eqn:Ez; [done|]. clear Ez.
  set (h := if _ || _ then _ else hint).
  assert (Hh1 : USER_MMAP_BASE_VADDR <= h <= USER_MMAP_TOP_VADDR).
  { unfold h. destruct (Z.ltb_spec hint USER_MMAP_BASE_VADDR), (Z.leb_spec USER_MMAP_TOP_VADDR hint); cbn;
      unfold USER_MMAP_BASE_VADDR, USER_MMAP_TOP_VADDR in *; lia. }
  assert (Hb : 0 <= USER_MMAP_BASE_VADDR <= USER_MMAP_TOP_VADDR) by (unfold USER_MMAP_BASE_VADDR, USER_MMAP_TOP_VADDR; lia).
  destruct (Z.eqb_spec (mmap_find_gap_from m as_ (n * PAGE_SIZE) h USER_MMAP_TOP_VADDR) 0) as [_|Hne]; cbn [negb].
  - case_match; [|done]. apply find_gap_from_spec; lia.
  - intros _. apply find_gap_from_spec; auto; lia.
Qed.

(** The search finds a gap between [start] and [end_] if there is one. *)
Lemma find_gap_from_complete start end_ base :
  0 <= start <= base -> base + n * PAGE_SIZE <= end_ -> window base n -> empty m as_ base n -> no_huge m as_ ->
  mmap_find_gap_from m as_ (n * PAGE_SIZE) start end_ <> 0.
Proof using Hn.
  intros Hst Hend ([Hal Hlow _ Hhi]&Hb&Ht) He Hnh. unfold mmap_find_gap_from.
  set (st := if start <? USER_MMAP_BASE_VADDR then USER_MMAP_BASE_VADDR else start).
  assert (Hst1 : USER_MMAP_BASE_VADDR <= st <= base) by (unfold st; destruct (Z.ltb_spec start USER_MMAP_BASE_VADDR); lia).
  unfold USER_MMAP_BASE_VADDR, USER_MMAP_TOP_VADDR in *.
  destruct (align_up_spec st) as (Hal1&Hle&_); [unfold PAGE_SIZE in *; lia|]. specialize (Hle ltac:(unfold PAGE_SIZE in *; lia)).
  set (a := mmap_align_up st) in *.
  assert (Ha1 : a <= base) by (unfold aligned, PAGE_SIZE in *; pose proof (Z.div_mod base 4096); pose proof (Z.div_mod a 4096); lia).
  rewrite u64_small by (unfold PAGE_SIZE in *; lia).
  destruct (Z.leb_spec (a + n * PAGE_SIZE) end_) as [_|]; [|unfold PAGE_SIZE in *; lia].
  destruct (first_page _ _ a) as [r|] eqn:E; [apply first_page_spec in E as (_&k&Hk&->); unfold PAGE_SIZE in *; lia|].
  pose proof (first_page_none _ _ _ E ((base - a) / PAGE_SIZE)) as Hfp. cbv beta in Hfp.
  assert (Hba : a + (base - a) / PAGE_SIZE * PAGE_SIZE = base).
  { unfold aligned, PAGE_SIZE in *. pose proof (Z.div_mod (base - a) 4096 ltac:(lia)) as Hd.
    rewrite Zminus_mod, Hal, Hal1 in Hd. change ((0 - 0) mod 4096) with 0 in Hd. lia. }
  assert (0 <= (base - a) / PAGE_SIZE <= (end_ - n * PAGE_SIZE - a) / PAGE_SIZE)
    by (split; [apply Z.div_pos; unfold PAGE_SIZE in *; lia|apply Z.div_le_mono; unfold PAGE_SIZE in *; lia]).
  rewrite Z2Pos.id in Hfp by lia. specialize (Hfp ltac:(lia)). rewrite Hba, (range_unmapped_intro s as_ base n) in Hfp; [done| |].
  - constructor; auto. lia.
  - intros i Hi'. split; [by apply He|]. apply Hnh. unfold USER_MMAP_BASE_VADDR, USER_MMAP_TOP_VADDR, PAGE_SIZE in *. lia.
Qed.

(** No gap is found only if there is none above the hint and none below it;
    a gap the hint lies inside of is missed. *)
Lemma find_gap_complete hint base :
  0 <= hint -> window base n -> empty m as_ base n -> no_huge m as_ -> hint <= base \/ base + n * PAGE_SIZE <= hint ->
  mmap_find_gap m as_ (n * PAGE_SIZE) hint <> 0.
Proof using Hn.
  clear Hsize. intros Hh Hw He Hnh Hor. pose proof Hw as (Hsp&Hlo&Hhi). unfold mmap_find_gap. set (U := USER_MMAP_BASE_VADDR) in *. set (V := USER_MMAP_TOP_VADDR) in *.
  assert (HU : 0 < U < V) by done. destruct (Z.eqb_spec (n * PAGE_SIZE) 0); [unfold PAGE_SIZE in *; lia|].
  destruct (Z.ltb_spec (V - U) (n * PAGE_SIZE)); [lia|]. cbn [orb].
  set (h := if (hint <? U) || (V <=? hint) then U else hint).
  assert (Hh1 : h <= base \/ U < h /\ base + n * PAGE_SIZE <= h)
    by (unfold h; destruct (Z.ltb_spec hint U), (Z.leb_spec V hint); cbn [orb]; unfold PAGE_SIZE in *; lia).
  assert (Hh0 : 0 <= h) by (unfold h; case_match; lia).
  destruct (Z.eqb_spec (mmap_find_gap_from m as_ (n * PAGE_SIZE) h V) 0) as [E|E]; cbn [negb]; [|done].
  destruct Hh1 as [Hh1|[HUh Hh1]]; [by apply (find_gap_from_complete h V base) in E|].
  destruct (Z.ltb_spec U h); [|lia]. apply (find_gap_from_complete U h base); auto. lia.
Qed.
End gap.

(** A change confined to pages that are unmapped before and after is no
    change at all. *)
Lemma effect_none D k A L s L' s' :
  effect D k A L s L' s' ->
  (forall as_ va, as_ ∈ A -> user va -> D as_ (key 4 va) \/ ~ D as_ (key 4 va)) ->
  (forall as_ va, as_ ∈ A -> user va -> D as_ (key 4 va) ->
     view s.(v_mem) as_ va = None /\ view s'.(v_mem) as_ va = None) ->
  effect (fun _ _ => False) k A L s L' s'.
Proof.
  intros He Hdec HD. constructor; try apply He.
  - intros as_ va Ha Hu _. destruct (Hdec as_ va Ha Hu) as [Hd|Hd]; [|by apply (ef_view _ _ _ _ _ _ _ He)].
    destruct (HD as_ va Ha Hu Hd) as [-> ->]. done.
  - intros as_ va e a Ha Hu _ Hv. destruct (Hdec as_ va Ha Hu) as [Hd|Hd]; [|by apply (ef_data _ _ _ _ _ _ _ He as_ va e)].
    destruct (HD as_ va Ha Hu Hd) as [Hv0 _]. congruence.
  - intros as_ va e Ha Hu _ Hv. destruct (Hdec as_ va Ha Hu) as [Hd|Hd]; [|by apply (ef_ref _ _ _ _ _ _ _ He as_ va e)].
    destruct (HD as_ va Ha Hu Hd) as [Hv0 _]. congruence.
Qed.

(** The pages of a range, one by one. *)
Lemma range_view m as_ base n va :
  span base n -> empty m as_ base n -> user va -> range as_ base n as_ (key 4 va) -> view m as_ va = None.
Proof.
  intros Hsp He Hu [_ Hk]. set (i := key 4 va - base / PAGE_SIZE).
  rewrite (view_key m as_ va (base + i * PAGE_SIZE)); [apply He; unfold i; lia|].
  rewrite (span_key base n Hsp) by (unfold i; lia). unfold i. lia.
Qed.

Lemma effect_empty k A L s L' s' as_ base n :
  effect (range as_ base n) k A L s L' s' -> span base n ->
  empty s.(v_mem) as_ base n -> empty s'.(v_mem) as_ base n -> effect (fun _ _ => False) k A L s L' s'.
Proof.
  intros He Hsp H1 H2. eapply effect_none; [exact He|..].
  - intros as' va _ _. unfold range.
    destruct (decide (as' = as_)), (decide (base / PAGE_SIZE <= key 4 va < base / PAGE_SIZE + n)); tauto.
  - intros as' va Ha Hu Hr. assert (as' = as_) as -> by apply Hr.
    split; by apply (range_view _ as_ base n).
Qed.
