(* ===== verification/MmapTheorems.v ===== *)
(** * What the memory calls do *)
From S2P Require Import Prelude State Pmm Pte VmCow Vmm PtWalk PtInv PtGrow PtMap Mmap PtOps MmapOk MmapCalls.

(** What mapping a file needs of the descriptor layer: reading one page
    writes only that page, and turns a page of zeroes into the page of the
    file. *)
Class FileMapLaws `{FileMap} := {
  pread_data : Z -> Z -> Z -> Z;
  pread_out m pa fd off a : ~ in_frame pa a -> pread_page m pa fd off a = m a;
  pread_in m pa fd off o : (forall a, in_frame pa a -> m a = 0) -> 0 <= o < PAGE_SIZE ->
    pread_page m pa fd off (pa + o) = pread_data fd off o;
}.

(** The contents of a new mapping, by offset of the page and in the page. *)
Definition mmap_data `{FileMapLaws} (is_anonymous : bool) (fd offset off o : Z) : Z :=
  if is_anonymous || (fd <? 0) then 0 else pread_data fd (u64 (offset + off)) o.

Lemma mmap_fills `{FileMapLaws} (anon : bool) fd offset :
  fills (fun m phys off => if anon then m else mmap_fill_from_file m phys fd (u64 (offset + off)))
        (mmap_data anon fd offset).
Proof.
  intros m pa off. unfold mmap_data, mmap_fill_from_file.
  destruct anon, (fd <? 0); cbn; split; auto; try (intros Hz o Ho; apply Hz; unfold in_frame; lia).
  - intros a Hna. by apply pread_out.
  - intros Hz o Ho. by apply pread_in.
Qed.

Lemma user_flags_mask w x : Z.land (arch_vm_user_page_flags w x) PTE_ADDR_MASK = 0.
Proof. by destruct w, x. Qed.

Lemma no_huge_effect D k A L s L' s' as_ :
  effect D k A L s L' s' -> as_ ∈ A -> no_huge s.(v_mem) as_ -> no_huge s'.(v_mem) as_.
Proof.
  intros He Ha Hh va Hva. rewrite (ef_huge _ _ _ _ _ _ _ He); auto. apply user_low.
  unfold USER_MMAP_BASE_VADDR, USER_MMAP_TOP_VADDR in Hva. lia.
Qed.

(** What a call may change about the task that makes it. *)
Definition keeps (t t' : mm_task) : Prop :=
  t'.(mm_as) = t.(mm_as) /\ 0 <= t'.(mmap_end) /\ t'.(heap_break) = t.(heap_break).

Section mmap.
Context `{FileMapLaws}.
Variables (q : mst) (t : mm_task) (A L : list Z).
Hypotheses (Hi : pt_inv q.(q_vm) A L) (Hcur : q.(q_cur) = Some t) (Has : t.(mm_as) ∈ A).
Hypothesis Hend : 0 <= t.(mmap_end).

(** Whether the address is taken as given. *)
Definition is_fixed (addr flags : Z) : bool := negb (mmap_align_up addr =? 0) && any flags MAP_FIXED.

(** The place of the mapping is free when it is reached, and was free before
    unless the caller fixed it. *)
Lemma mmap_place_ok addr n flags :
  0 <= addr < 2 ^ 64 -> 0 < n -> n * PAGE_SIZE < 2 ^ 64 ->
  wp nopanic (mmap_place t addr (n * PAGE_SIZE) flags) (fun r q' =>
    match r with
    | inl err => q' = q /\
        (err = LINUX_ENOMEM /\ is_fixed addr flags = false /\
           mmap_find_gap q.(q_vm).(v_mem) t.(mm_as) (n * PAGE_SIZE) t.(mmap_end) = 0 \/
         err = LINUX_EINVAL /\ is_fixed addr flags = true /\ ~ window addr n)
    | inr base => exists L' t', pt_inv q'.(q_vm) A L' /\ q'.(q_cur) = Some t' /\ keeps t t' /\
        window base n /\ empty q'.(q_vm).(v_mem) t.(mm_as) base n /\
        effect (range t.(mm_as) base n) 0 A L q.(q_vm) L' q'.(q_vm) /\
        (if is_fixed addr flags then base = addr else empty q.(q_vm).(v_mem) t.(mm_as) base n)
    end) q.
Proof using Hi Hcur Has Hend.
  intros Haddr Hn Hs. unfold mmap_place, is_fixed, update_task, vm. destruct (align_up_spec addr Haddr) as [Hal _].
  apply wp_if; intros Hfix.
  - replace (negb (mmap_align_up addr =? 0) && any flags MAP_FIXED) with false
      by (destruct (mmap_align_up addr =? 0), (any flags MAP_FIXED); done).
    wp_steps. apply wp_if; intros Hb; wp_steps; [apply Z.eqb_eq in Hb; auto|]. apply Z.eqb_neq in Hb.
    assert (Hsize : n * PAGE_SIZE <= USER_MMAP_TOP_VADDR - USER_MMAP_BASE_VADDR).
    { revert Hb. unfold mmap_find_gap.
      destruct (Z.ltb_spec (USER_MMAP_TOP_VADDR - USER_MMAP_BASE_VADDR) (n * PAGE_SIZE)); [by rewrite orb_true_r|lia]. }
    destruct (find_gap_spec q.(q_vm) A L t.(mm_as) n Hi Has Hn Hsize t.(mmap_end) Hend Hb) as [Hw He].
    cbn [q_vm q_cur]. rewrite Hcur. eexists L, _.
    split_and!; [done|reflexivity|split_and!; [done|apply align_up_nonneg|done]|done..|apply effect_refl|done].
  - apply orb_false_iff in Hfix as [Hz Hf]. rewrite Hz. apply negb_false_iff in Hf. rewrite Hf. cbn [negb andb].
    apply wp_if; intros Heq.
    { wp_steps. split; [done|]. right. split_and!; [done..|]. intros ([Hal' _ _ Hhi]&_&Ht).
      rewrite align_up_id, Z.eqb_refl in Heq; [done| |done]. unfold USER_MMAP_TOP_VADDR, PAGE_SIZE in *. lia. }
    apply negb_false_iff, Z.eqb_eq in Heq. rewrite <- Heq in *.
    apply wp_if; intros Hv.
    { wp_steps. split; [done|]. right. split_and!; [done..|]. intros Hw. by rewrite range_valid_intro in Hv. }
    apply negb_false_iff in Hv.
    destruct (range_valid_spec addr n Haddr ltac:(lia) Hs Hv) as [_ Hw]. pose proof Hw as (Hsp&_).
    wp_steps. apply wp_if; intros Hun; wp_steps.
    + exists L, t. split_and!; auto; [done| |apply effect_refl].
      by apply (range_unmapped_spec q.(q_vm) A L).
    + replace (n * PAGE_SIZE) with (0 + n * PAGE_SIZE) by lia.
      eapply wp_mono; [apply (drop_range_ok q.(q_vm) A L); auto; [by rewrite Z.add_0_r|lia..]|].
      intros _ s1 (L1&Hi1&He1&Hv1). rewrite Z.add_0_r in He1, Hv1. wp_steps. exists L1, t.
      split_and!; auto. done.
Qed.

Variables (E : panic -> Prop) (addr length prot flags fd offset : Z).
Hypotheses (Haddr : 0 <= addr < 2 ^ 64) (Hlen : 0 <= length < 2 ^ 64).
Hypothesis Hhuge : no_huge q.(q_vm).(v_mem) t.(mm_as).
Abbreviation n := (mmap_align_up length / PAGE_SIZE).
Abbreviation as_ := t.(mm_as).
Hypothesis Hno : no_tables E q.(q_vm).(v_pmm) (4 * n).

(** The call succeeded with [base]. *)
Definition mmap_mapped (base : Z) (L' : list Z) (q' : mst) : Prop :=
  0 < n /\ window base n /\ effect (range as_ base n) (4 * n) A L q.(q_vm) L' q'.(q_vm) /\
  (if is_fixed addr flags then base = addr else empty q.(q_vm).(v_mem) as_ base n) /\
  forall i, 0 <= i < n ->
    ready q'.(q_vm) as_ (base + i * PAGE_SIZE)
      (arch_vm_user_page_flags (any prot PROT_WRITE) (any prot PROT_EXEC))
      (mmap_data (any flags MAP_ANONYMOUS) fd offset (i * PAGE_SIZE)).

(** What the arguments have to satisfy, besides the place. *)
Definition mmap_args : bool :=
  negb (length =? 0) && any flags (Z.lor MAP_PRIVATE MAP_SHARED) && negb (offset <? 0) && negb (any offset (PAGE_SIZE - 1)) &&
  negb (mmap_align_up length =? 0) && bool_decide (mmap_check_fd (any flags MAP_ANONYMOUS) fd offset = None).

(** Why the call fails: bad arguments, a fixed place outside the window, no
    gap, or no memory. *)
Definition mmap_reason (err : Z) : Prop :=
  if bool_decide (err = LINUX_ENOMEM)
  then avail q.(q_vm).(v_pmm) < 4 * n \/
       is_fixed addr flags = false /\ mmap_find_gap q.(q_vm).(v_mem) as_ (n * PAGE_SIZE) t.(mmap_end) = 0
  else mmap_args = false \/ is_fixed addr flags = true /\ ~ window addr n.

(** The call failed with [err]: nothing changed, except that the old
    mappings are gone when the address was fixed and memory ran out. *)
Definition mmap_failed (err : Z) (L' : list Z) (q' : mst) : Prop :=
  (err ∈ [LINUX_EINVAL; LINUX_EBADF; LINUX_ENODEV; LINUX_ENOMEM] /\ mmap_reason err) /\
  if is_fixed addr flags && bool_decide (err = LINUX_ENOMEM)
  then window addr n /\ empty q'.(q_vm).(v_mem) as_ addr n /\ effect (range as_ addr n) (4 * n) A L q.(q_vm) L' q'.(q_vm)
  else effect (fun _ _ => False) (4 * Z.max 0 n) A L q.(q_vm) L' q'.(q_vm).

Definition mmap_post (r : Z) (q' : mst) : Prop :=
  exists L' t', pt_inv q'.(q_vm) A L' /\ q'.(q_cur) = Some t' /\ keeps t t' /\
    (mmap_mapped r L' q' \/ exists err, r = mmap_err err /\ mmap_failed err L' q').

Lemma mmap_refuse err q' :
  q' = q -> err ∈ [LINUX_EINVAL; LINUX_EBADF; LINUX_ENODEV; LINUX_ENOMEM] -> err <> LINUX_ENOMEM -> mmap_args = false ->
  mmap_post (mmap_err err) q'.
Proof using Hi Hcur Hend.
  intros -> Herr Hne Hargs. exists L, t. split_and!; auto; [done|]. right. exists err. split; [done|]. split.
  { split; [done|]. unfold mmap_reason. rewrite bool_decide_eq_false_2 by done. auto. }
  rewrite bool_decide_eq_false_2, andb_false_r by done.
  apply effect_same. lia.
Qed.

Ltac refuse H :=
  apply wp_if; intros H; [wp_steps; apply mmap_refuse;
    [done|rewrite !elem_of_cons; tauto|done|unfold mmap_args; lazymatch type of H with negb _ = true => apply negb_true_iff in H | _ => idtac end; rewrite H; cbn [negb]; by rewrite ?andb_false_r]|].

Lemma mmap_ok : wp E (sys_mmap addr length prot flags fd offset) mmap_post q.
Proof using All.
  unfold sys_mmap. wp_steps. rewrite Hcur. refuse H1. refuse H2. refuse H3. refuse H4. refuse Hz.
  apply Z.eqb_neq in Hz. pose proof (align_up_pages length Hlen) as Hsz.
  pose proof (align_up_nonneg length) as Hge.
  assert (Hn : 0 < n) by (unfold PAGE_SIZE in *; lia).
  assert (Hs : n * PAGE_SIZE < 2 ^ 64).
  { destruct (align_up_spec length Hlen) as (_&Hle&Hbig).
    destruct (Z.le_gt_cases length (2 ^ 64 - PAGE_SIZE)) as [Hl|Hl]; [|rewrite Hbig in Hz by lia; done].
    specialize (Hle Hl). rewrite <- Hsz. unfold PAGE_SIZE in *. lia. }
  destruct (mmap_check_fd _ fd offset) as [err|] eqn:Hfd.
  { wp_steps. assert (Hbad : mmap_args = false) by (unfold mmap_args; rewrite Hfd, bool_decide_eq_false_2 by done; apply andb_false_r).
    unfold mmap_check_fd in Hfd. repeat (case_match; try done); simplify_eq;
      (apply mmap_refuse; [done|rewrite !elem_of_cons; tauto|done|done]). }
  wp_steps. set (nn := n) in *. rewrite Hsz.
  eapply wp_mono; [apply wp_nopanic, mmap_place_ok; auto|]. intros r q1. destruct r as [err|base].
  { intros [-> Herr]. wp_steps. exists L, t. split_and!; auto; [done|]. right. exists err. split; [done|].
    unfold mmap_failed, mmap_reason. destruct Herr as [(->&Hfx&Hgap)|(->&Hfx&Hnw)]; rewrite Hfx.
    - split; [|apply effect_same; lia]. split; [rewrite !elem_of_cons; tauto|]. rewrite bool_decide_eq_true_2 by done. auto.
    - split; [|rewrite bool_decide_eq_false_2, andb_false_r by done; apply effect_same; lia].
      split; [rewrite !elem_of_cons; tauto|]. rewrite bool_decide_eq_false_2 by done. auto. }
  intros (L1&t1&Hi1&Hc1&Ht1&Hw&He&Hef&Hfix). rewrite range_valid_intro by done. cbn [negb].
  unfold vm, update_task, arch_syscall_flush_tlb. wp_steps. pose proof Hw as (Hsp&Hlo&Hhi). rewrite pages_mul by lia.
  eapply wp_mono; [apply (map_fresh_ok E q1.(q_vm) A L1 as_ base nn _ _ (mmap_data (any flags MAP_ANONYMOUS) fd offset))|].
  - done.
  - done.
  - done.
  - apply user_flags_mask.
  - apply mmap_fills.
  - intros i Hi'. split; [by apply He|]. apply (no_huge_effect _ _ _ _ _ _ _ _ Hef Has Hhuge).
    unfold PAGE_SIZE in *. lia.
  - destruct Hno as [Hk|]; [left|by right]. pose proof (ef_avail _ _ _ _ _ _ _ Hef). lia.
  - intros ok s2 (L2&Hi2&He2&Hres).
    pose proof (effect_trans _ _ _ _ _ _ _ _ _ _ Hef He2) as He3. rewrite Z.add_0_l in He3. destruct ok; cbn [negb].
    + wp_steps. cbn [q_vm q_cur set_vm]. rewrite Hc1.
      exists L2, (if t1.(mmap_end) <? u64 (base + nn * PAGE_SIZE) then set_mmap_end t1 (u64 (base + nn * PAGE_SIZE)) else t1).
      split; [by apply reload_inv|]. split; [reflexivity|].
      split; [destruct Ht1 as (?&?&?); destruct (t1.(mmap_end) <? _); split_and!; auto; cbn; apply u64_range|]. left.
      split_and!; auto. by apply reload_effect.
    + destruct Hres as [Hav Hem]. wp_steps. exists L2, t1. split_and!; auto. right. exists LINUX_ENOMEM.
      split; [done|]. unfold mmap_failed, mmap_reason. rewrite bool_decide_eq_true_2, andb_true_r by done.
      pose proof (ef_avail _ _ _ _ _ _ _ Hef). split; [split; [rewrite !elem_of_cons; tauto|left; lia]|].
      destruct (is_fixed addr flags); [by rewrite <- Hfix|]. cbn [q_vm set_vm].
      eapply effect_weaken; [apply (effect_empty _ _ _ _ _ _ _ _ _ He3); auto|done|lia].
Qed.
End mmap.

(** ** munmap *)

Lemma unmapped_phys s A L as_ base n :
  pt_inv s A L -> as_ ∈ A -> window base n -> no_huge s.(v_mem) as_ -> empty s.(v_mem) as_ base n ->
  forall i, 0 <= i < n -> vmm_get_phys s.(v_mem) as_ (base + i * PAGE_SIZE) = 0.
Proof.
  intros Hi Ha (Hsp&Hlo&Hhi) Hh He i Hi'. destruct (span_user base n Hsp i Hi') as [Hu Hlt].
  apply (get_phys_none s A L Hi); auto; [lia|]. split; [|by apply He]. apply Hh. unfold PAGE_SIZE in *. lia.
Qed.

Lemma size_pages length : 0 <= length < 2 ^ 64 ->
  0 <= mmap_align_up length / PAGE_SIZE /\ mmap_align_up length / PAGE_SIZE * PAGE_SIZE < 2 ^ 64.
Proof.
  intros Hlen. destruct (align_up_spec length Hlen) as (_&Hle&Hbig). pose proof (align_up_pages length Hlen) as Hsz.
  pose proof (align_up_nonneg length). split; [unfold PAGE_SIZE in *; lia|]. rewrite <- Hsz.
  destruct (Z.le_gt_cases length (2 ^ 64 - PAGE_SIZE)) as [Hl|Hl]; [|rewrite Hbig; lia].
  specialize (Hle Hl). unfold mmap_align_up, u64 in *. pose proof (page_down_bound ((length + PAGE_SIZE - 1) mod 2 ^ 64)).
  pose proof (Z.mod_pos_bound (length + PAGE_SIZE - 1) (2 ^ 64) ltac:(lia)). lia.
Qed.

Lemma munmap_ok q t A L addr length :
  pt_inv q.(q_vm) A L -> q.(q_cur) = Some t -> t.(mm_as) ∈ A -> no_huge q.(q_vm).(v_mem) t.(mm_as) ->
  0 <= addr < 2 ^ 64 -> 0 <= length < 2 ^ 64 ->
  let n := mmap_align_up length / PAGE_SIZE in
  wp nopanic (sys_munmap addr length) (fun r q' =>
    (~ (0 < n /\ window addr n)) /\ r = - LINUX_EINVAL /\ q' = q \/
    (0 < n /\ window addr n) /\ r = 0 /\ q'.(q_cur) = Some t /\
    exists L', pt_inv q'.(q_vm) A L' /\ effect (range t.(mm_as) addr n) 0 A L q.(q_vm) L' q'.(q_vm) /\
      forall i, 0 <= i < n -> vmm_get_phys q'.(q_vm).(v_mem) t.(mm_as) (addr + i * PAGE_SIZE) = 0) q.
Proof.
  intros Hi Hcur Has Hhuge Haddr Hlen n. unfold sys_munmap, vm, arch_syscall_flush_tlb. wp_steps. rewrite Hcur.
  pose proof (align_up_pages length Hlen) as Hsz. destruct (size_pages length Hlen) as [Hn Hs]. fold n in Hsz, Hn, Hs.
  apply wp_if; intros Hl; wp_steps.
  { left. split_and!; auto. apply Z.eqb_eq in Hl. subst length. change n with 0. lia. }
  apply wp_if; intros Hoff; wp_steps.
  { left. split_and!; auto. intros [_ ([Ha _ _ _]&_)]. revert Hoff. unfold any. rewrite land_low, Ha. done. }
  rewrite Hsz. apply wp_if; intros Hv; wp_steps.
  { left. split_and!; auto. intros [H1 H2]. rewrite range_valid_intro in Hv by done. done. }
  apply negb_false_iff, range_valid_spec in Hv as [Hpos Hw]; auto. pose proof Hw as (Hsp&_).
  replace (n * PAGE_SIZE) with (0 + n * PAGE_SIZE) by lia.
  eapply wp_mono; [apply (drop_range_ok q.(q_vm) A L); auto; [by rewrite Z.add_0_r|lia..]|].
  intros _ s1 (L1&Hi1&He1&Hv1). rewrite Z.add_0_r in He1, Hv1. wp_steps. right. split_and!; auto.
  exists L1. split_and!; [by apply reload_inv|by apply reload_effect|]. cbn [q_vm set_vm v_mem reload_cr3].
  apply (unmapped_phys s1 A L1); auto. by apply (no_huge_effect _ _ _ _ _ _ _ _ He1).
Qed.

(** ** mprotect *)

(** The page may be read, and also written or executed when [w] or [x]; a
    page still shared is writable by way of a copy. *)
Definition allows (e : Z) (w x : bool) : Prop :=
  has e PTE_PRESENT = true /\ has e PTE_USER = true /\
  x86_pte_writable e || x86_pte_cow e = w /\ has e PTE_NX = negb x.

Lemma protected_allows s l w x :
  has (s.(v_mem) l) PTE_PRESENT = true -> has (s.(v_mem) l) PTE_USER = true -> allows (protected_entry s l w x) w x.
Proof.
  intros Hp Hu. destruct (protected_entry_spec s l w x) as (_&Hw&Hc&Hnx&Hp'&Hu'). unfold allows.
  rewrite Hp', Hu', Hw, Hc, Hnx. split_and!; auto. by destruct w, (x86_pte_cow _ || _).
Qed.

Lemma user_page_leaf m as_ va :
  x86_vm_is_user_page m as_ va = true -> exists x, leaf m as_ va = Some x /\ has (m x) PTE_USER = true.
Proof.
  unfold x86_vm_is_user_page. destruct (x86_user_pte m as_ va) as [x|] eqn:E; [|done].
  intros [Hp Hu]%andb_true_iff. exists x. split; [by apply leaf_pte|done].
Qed.

Section mprotect.
Variables (s : vmst) (A L : list Z) (as_ base n : Z) (w ex : bool).
Hypotheses (Hi : pt_inv s A L) (Ha : as_ ∈ A) (Hsp : span base n).

Lemma user_from_spec k : forall j, 0 <= j -> j + Z.of_nat k = n ->
  user_from k s.(v_mem) as_ base (j * PAGE_SIZE) = true ->
  forall i, j <= i < n -> x86_vm_is_user_page s.(v_mem) as_ (base + i * PAGE_SIZE) = true.
Proof using Hsp.
  induction k as [|k IH]; intros j Hj Hk; cbn [user_from]; [lia|].
  destruct (x86_vm_is_user_page s.(v_mem) as_ (u64 (base + j * PAGE_SIZE))) eqn:E; [|done].
  replace (j * PAGE_SIZE + PAGE_SIZE) with ((j + 1) * PAGE_SIZE) by lia. intros Hr i Hi'.
  destruct (decide (i = j)) as [->|]; [|apply (IH (j + 1)); auto; lia].
  by rewrite (span_u64 base n Hsp) in E by lia.
Qed.

Hypothesis Huser : forall i, 0 <= i < n -> x86_vm_is_user_page s.(v_mem) as_ (base + i * PAGE_SIZE) = true.

(** Page [i] keeps its frame and contents and has the new protection. *)
Definition protected (s' : vmst) (i : Z) : Prop :=
  exists e e', view s.(v_mem) as_ (base + i * PAGE_SIZE) = Some e /\
    view s'.(v_mem) as_ (base + i * PAGE_SIZE) = Some e' /\ x86_pte_phys e' = x86_pte_phys e /\ allows e' w ex.

Definition same_data (s' : vmst) : Prop :=
  forall as' va' e a, as' ∈ A -> user va' -> view s.(v_mem) as' va' = Some e ->
    in_frame (x86_pte_phys e) a -> s'.(v_mem) a = s.(v_mem) a.

Definition protect_upto (j : Z) (s' : vmst) : Prop :=
  pt_inv s' A L /\ effect (range as_ base j) 0 A L s L s' /\ same_data s' /\
  forall i, 0 <= i < j -> protected s' i.

Lemma protect_step j s1 :
  protect_upto j s1 -> 0 <= j < n ->
  protect_upto (j + 1) (vm_cow_protect_page s1 as_ (base + j * PAGE_SIZE) w ex).
Proof using All.
  intros (Hi1&He1&Hd1&Hp1) Hj. destruct (span_user base n Hsp j Hj) as [Hu _].
  destruct (user_page_leaf _ _ _ (Huser j Hj)) as (x0&Hl0&Hus0).
  assert (Hv0 : view s.(v_mem) as_ (base + j * PAGE_SIZE) = Some (s.(v_mem) x0)) by (unfold view; by rewrite Hl0).
  assert (Hv1 : view s1.(v_mem) as_ (base + j * PAGE_SIZE) = Some (s.(v_mem) x0)).
  { rewrite (ef_view _ _ _ _ _ _ _ He1); auto. rewrite (span_key base n Hsp) by lia. intros [_ ?]. lia. }
  destruct (view_leaf _ _ _ _ Hv1) as (x1&Hl1&Hx1). destruct (leaf_slot s1 _ _ _ Hl1) as (_&_&_&Hpr1).
  assert (Hus1 : has (s1.(v_mem) x1) PTE_USER = true) by (by rewrite Hx1).
  destruct (protect_ok s1 A L as_ (base + j * PAGE_SIZE) x1 w ex Hi1 Ha Hu Hl1 Hus1) as (Hi2&He2&Hv2&Hd2).
  set (s2 := vm_cow_protect_page _ _ _ _ _) in *.
  assert (Hsame : forall i, 0 <= i < n -> i <> j ->
    view s2.(v_mem) as_ (base + i * PAGE_SIZE) = view s1.(v_mem) as_ (base + i * PAGE_SIZE)).
  { intros i Hi' Hne. destruct (span_user base n Hsp i Hi') as [Hui _].
    rewrite (ef_view _ _ _ _ _ _ _ He2); auto. intros [_ Hk]. rewrite !(span_key base n Hsp) in Hk by lia. lia. }
  assert (Hpj : protected s2 j).
  { exists (s.(v_mem) x0), (protected_entry s1 x1 w ex). split_and!; auto; [|by apply protected_allows].
    destruct (protected_entry_spec s1 x1 w ex) as (-> &_). by rewrite Hx1. }
  split_and!; [done| | |].
  - apply (effect_trans _ 0 0 A L s L s1); (eapply effect_weaken; [eassumption| |lia]).
    + intros a v. apply range_le. lia.
    + intros a v. apply (span_at base (j + 1)); [apply (span_le base n Hsp)|]; lia.
  - intros as' va' e a Ha' Hu' Hv Hin. rewrite <- (Hd1 as' va' e a Ha' Hu' Hv Hin).
    destruct (decide (range as_ base (j + 1) as' (key 4 va'))) as [Hr|Hr].
    + assert (as' = as_) as -> by apply Hr. destruct Hr as [_ Hr]. set (i := key 4 va' - base / PAGE_SIZE).
      assert (Hk : key 4 va' = key 4 (base + i * PAGE_SIZE)) by (rewrite (span_key base n Hsp) by (unfold i; lia); unfold i; lia).
      rewrite (view_key _ _ _ _ Hk) in Hv. destruct (decide (i = j)) as [Heq|Hne].
      * rewrite Heq in Hv. apply (Hd2 as_ (base + j * PAGE_SIZE) (s.(v_mem) x0)); auto. congruence.
      * destruct (Hp1 i) as (e0&e1&H0&H1&Hph&_); [unfold i in *; lia|].
        apply (Hd2 as_ va' e1); auto; [by rewrite (view_key _ _ _ _ Hk)|]. rewrite Hph. congruence.
    + apply (Hd2 as' va' e); auto. rewrite (ef_view _ _ _ _ _ _ _ He1); auto.
      intros Hr'. apply Hr. revert Hr'. apply range_le. lia.
  - intros i Hi'. destruct (decide (i = j)) as [->|Hne]; [done|].
    destruct (Hp1 i) as (e0&e1&H0&H1&?&?); [lia|]. exists e0, e1. rewrite Hsame by lia. done.
Qed.

Lemma protect_range_ok : wp nopanic (protect_range (Z.to_nat n) as_ base w ex) (fun _ => protect_upto n) s.
Proof using All.
  pose proof (sp_n _ _ Hsp). unfold protect_range.
  eapply wp_mono; [apply (wp_for nopanic protect_upto)|].
  - split_and!; [done|apply effect_refl|done|lia].
  - intros j s1 Hj Hup. rewrite Z2Nat.id in Hj by done. wp_steps. rewrite (span_u64 base n Hsp) by lia.
    apply protect_step; [done|lia].
  - intros a s'. cbv beta. by rewrite Z.add_0_l, Z2Nat.id.
Qed.
End mprotect.

Lemma mprotect_ok q t A L addr length prot :
  pt_inv q.(q_vm) A L -> q.(q_cur) = Some t -> t.(mm_as) ∈ A ->
  0 <= addr -> 0 <= length -> addr + mmap_align_up length <= 2 ^ 47 ->
  let n := mmap_align_up length / PAGE_SIZE in
  wp nopanic (sys_mprotect addr length prot) (fun r q' =>
    q' = q /\ (r = - LINUX_EINVAL \/ r = - LINUX_ENOMEM \/ r = 0 /\ length = 0) \/
    r = 0 /\ q'.(q_cur) = Some t /\ aligned addr /\
    protect_upto q.(q_vm) A L t.(mm_as) addr (any prot PROT_WRITE) (any prot PROT_EXEC) n q'.(q_vm)) q.
Proof.
  intros Hi Hcur Has Haddr Hlen Hhi n. unfold sys_mprotect, vm, arch_syscall_flush_tlb. wp_steps. rewrite Hcur.
  apply wp_if; intros Hoff; wp_steps; [auto|].
  apply wp_if; intros Hl; wp_steps; [apply Z.eqb_eq in Hl; left; auto|].
  apply wp_if; intros Hz; wp_steps; [auto|]. apply orb_false_iff in Hz as [Hz%Z.eqb_neq _].
  assert (Hal : aligned addr).
  { unfold any in Hoff. rewrite land_low in Hoff. apply negb_false_iff, Z.eqb_eq in Hoff. done. }
  assert (Hsz : mmap_align_up length = n * PAGE_SIZE).
  { unfold n. pose proof (page_down_aligned (u64 (length + PAGE_SIZE - 1))) as Hd.
    pose proof (Z.div_mod (mmap_align_up length) PAGE_SIZE ltac:(done)). unfold mmap_align_up in *. lia. }
  pose proof (align_up_nonneg length) as Hge. rewrite Hsz in *.
  assert (Hn : 0 <= n) by (unfold PAGE_SIZE in *; lia). rewrite pages_mul by done.
  assert (Hsp : span addr n) by (constructor; auto).
  apply wp_if; intros Hus; wp_steps; [auto|]. apply negb_false_iff in Hus.
  assert (Huser := user_from_spec q.(q_vm) t.(mm_as) addr n Hsp (Z.to_nat n) 0 ltac:(lia) ltac:(lia) Hus).
  eapply wp_mono; [apply (protect_range_ok q.(q_vm) A L t.(mm_as) addr n); auto|].
  intros a s1 (Hi1&He1&Hd1&Hp1). wp_steps. right. split_and!; auto.
  split_and!; [by apply reload_inv|by apply reload_effect|done|done].
Qed.

(** ** brk *)

(** Nothing is mapped above the break. *)
Definition heap_clear (s : vmst) (t : mm_task) (addr : Z) : Prop :=
  let base := mmap_align_up t.(heap_break) in
  forall i, 0 <= i < (mmap_align_up addr - base) / PAGE_SIZE ->
    view s.(v_mem) t.(mm_as) (base + i * PAGE_SIZE) = None /\ huge s.(v_mem) t.(mm_as) (base + i * PAGE_SIZE) = None.

Lemma brk_ok E q t A L addr :
  pt_inv q.(q_vm) A L -> q.(q_cur) = Some t -> t.(mm_as) ∈ A -> 0 <= t.(heap_break) ->
  t.(heap_break) < addr < USER_MMAP_BASE_VADDR -> heap_clear q.(q_vm) t addr ->
  let base := mmap_align_up t.(heap_break) in
  let n := (mmap_align_up addr - base) / PAGE_SIZE in
  no_tables E q.(q_vm).(v_pmm) (4 * n) ->
  wp E (sys_brk addr) (fun r q' =>
    exists j L', 0 <= j <= n /\ pt_inv q'.(q_vm) A L' /\
      effect (range t.(mm_as) base j) (4 * n) A L q.(q_vm) L' q'.(q_vm) /\
      (forall i, 0 <= i < j -> ready q'.(q_vm) t.(mm_as) (base + i * PAGE_SIZE)
                                 (arch_vm_user_page_flags true false) (fun _ => 0)) /\
      (r = addr /\ j = n /\ q'.(q_cur) = Some (set_heap_break t addr) \/
       r = t.(heap_break) /\ q'.(q_cur) = Some t /\ avail q.(q_vm).(v_pmm) < 4 * n)) q.
Proof.
  intros Hi Hcur Has Hold Haddr Hclear base n Hno. unfold sys_brk, vm, update_task, arch_syscall_flush_tlb. wp_steps.
  rewrite Hcur. unfold USER_MMAP_BASE_VADDR in Haddr.
  rewrite (proj2 (Z.eqb_neq addr 0)), (proj2 (Z.leb_gt addr (heap_break t))), (proj2 (Z.leb_gt USER_MMAP_BASE_VADDR addr))
    by (unfold USER_MMAP_BASE_VADDR; lia). cbn [orb]. wp_steps. fold base.
  destruct (align_up_spec t.(heap_break)) as (Hal&Hle&_); [lia|].
  destruct (align_up_spec addr) as (Hal'&Hle'&_); [lia|]. specialize (Hle ltac:(unfold PAGE_SIZE; lia)).
  specialize (Hle' ltac:(unfold PAGE_SIZE; lia)). fold base in Hal, Hle.
  assert (Hsz : mmap_align_up addr - base = n * PAGE_SIZE).
  { unfold n. apply aligned_mul in Hal as [k ->], Hal' as [k' ->].
    replace (k' * 4096 - k * 4096) with ((k' - k) * PAGE_SIZE) by (unfold PAGE_SIZE; lia). by rewrite Z.div_mul. }
  assert (Hn : 0 <= n) by (unfold PAGE_SIZE in *; lia). rewrite Hsz, pages_mul by done.
  assert (Hsp : span base n) by (constructor; auto; unfold PAGE_SIZE in *; lia).
  eapply wp_mono; [apply (brk_pages_ok E q.(q_vm) A L t.(mm_as) base n); auto using user_flags_mask|].
  intros ok s1 (j&L1&Hj&(Hi1&He1&Hr1)&Hok).
  assert (He2 : effect (range t.(mm_as) base j) (4 * n) A L q.(q_vm) L1 s1) by (eapply effect_weaken; [exact He1|done|lia]).
  destruct ok; cbn [negb]; wp_steps; exists j, L1; cbn [q_vm q_cur set_vm]; rewrite ?Hcur.
  - split_and!; try lia; [by apply reload_inv|by apply reload_effect|done|]. left. by split_and!.
  - split_and!; try lia; [by apply reload_inv|by apply reload_effect|done|]. right. by split_and!.
Qed.
