(* ===== verification/PtFault.v ===== *)
(** * Write faults and user stores in a tree of page tables *)
From S2P Require Import Prelude State Pmm Pte VmCow Vmm PtWalk PtInv PtGrow PtMap Mmap PtOps PtSpace PtCopy PtMask PtFree.

(** ** Memories that agree everywhere *)
Section pointwise.
Variables (m m' : memory).
Hypothesis Hm : forall a, m' a = m a.

Lemma ext_tab as_ va n : tab m' as_ va n = tab m as_ va n.
Proof using Hm. apply tab_agree. intros. by rewrite Hm. Qed.

Lemma ext_view as_ va : view m' as_ va = view m as_ va.
Proof using Hm. unfold view, leaf. rewrite ext_tab. destruct (tab m as_ va 3); [|done]. rewrite Hm. case_match; [by rewrite Hm|done]. Qed.

Lemma ext_huge as_ va : huge m' as_ va = huge m as_ va.
Proof using Hm. unfold huge. rewrite ext_tab. destruct (tab m as_ va 2); [|done]. by rewrite Hm. Qed.

Lemma ext_table A t : is_table m' A t <-> is_table m A t.
Proof using Hm. split; intros (as_&va&n&?&?&?&?); exists as_, va, n; [rewrite <- ext_tab|rewrite ext_tab]; auto. Qed.
End pointwise.

Lemma ext_inv s s' A L :
  pt_inv s A L -> s'.(v_pmm) = s.(v_pmm) -> (forall a, s'.(v_mem) a = s.(v_mem) a) -> pt_inv s' A L.
Proof. intros Hi Hp Hm. apply (inv_same s A L Hi); auto using ext_tab, ext_huge. Qed.

Lemma ext_stray s s' A L f :
  s'.(v_pmm) = s.(v_pmm) -> (forall a, s'.(v_mem) a = s.(v_mem) a) -> stray s' A L f <-> stray s A L f.
Proof.
  intros Hp Hm. unfold stray. rewrite Hp, (ext_table _ _ Hm). unfold frame.
  split; intros (?&?&H); split_and!; auto; intros x Hx; specialize (H x Hx); by rewrite ?Hm in *.
Qed.

(** ** Pages that are held *)
(** A page that is held is mapped at an empty slot, by any entry for it. *)
Section adopt.
Variables (A L : list Z) (s : vmst) (as_ va t pa e : Z).
Hypotheses (Hi : pt_inv s A L) (Ha : as_ ∈ A) (Hu : user va) (Ht : tab s.(v_mem) as_ va 3 = Some t).
Hypotheses (Hh : held s A L pa) (Hpa : pa <> 0) (Hnone : leaf s.(v_mem) as_ va = None).
Hypotheses (Hpr : has e PTE_PRESENT = true) (Hph : x86_pte_phys e = pa).
Abbreviation x := (slot t (idx 3 va)).
Abbreviation s' := (set_leaf s x e).

Lemma adopt_inv : pt_inv s' A (x :: L).
Proof using All.
  destruct (place_slot A L s as_ va t Hi Ha Hu Ht Hnone) as (Hpg&Htt&Hsl).
  assert (Hm : managed s.(v_pmm) pa).
  { destruct (get_ref_pos s.(v_pmm) pa) as (q&?&?&?); [apply Hi|apply Hh|rewrite (hd_ref _ _ _ _ Hh); lia|]. by exists q. }
  apply (place_inv A L (x :: L) s s.(v_pmm) as_ va t e Hi Ha Hu Ht Hnone Hpr); rewrite ?Hph; auto.
  - apply (adopt_ok s L x e pa); auto; try apply Hh; [apply Hi|].
    assert (Hout : forall y, is_table s.(v_mem) A (page_down y) -> ~ in_frame pa y).
    { intros y Hty Hin. apply in_frame_page_down in Hin; [|apply Hh]. rewrite Hin in Hty. by apply Hh in Hty. }
    intros y [->|Hy]%elem_of_cons; apply Hout; [by rewrite Hpg|].
    destruct (in_L s A L Hi y Hy) as (as'&va'&?&?&?). by apply (leaf_page s A L Hi as' va').
  - intros y. rewrite elem_of_cons. split; [intros [->|?]; auto|intros [?|[-> _]]; auto].
  - apply Hh.
Qed.

Lemma adopt_stray g : stray s' A (x :: L) g <-> stray s A L g /\ g <> pa.
Proof using All.
  unfold stray. rewrite (leaf_write_table A L s as_ va t e Hi Ha Hu Ht g).
  assert (Hfx : frame s'.(v_mem) x = pa) by (unfold frame; cbn; by rewrite mwrite_eq).
  assert (Hfr : forall y, y ∈ L -> frame s'.(v_mem) y = frame s.(v_mem) y).
  { intros y Hy. unfold frame. cbn. rewrite mwrite_ne; [done|]. intros ->. by apply (place_new A L s as_ va t Hi Ha Hu Ht Hnone). }
  cbn [v_pmm set_leaf with_mem]. split.
  - intros (?&?&Hn). split_and!; auto.
    + intros y Hy. rewrite <- Hfr by done. apply Hn. by apply list_elem_of_further.
    + intros ->. apply (Hn x); [apply list_elem_of_here|done].
  - intros ((?&?&Hn)&Hne). split_and!; auto. intros y [->|Hy]%elem_of_cons; [by rewrite Hfx|rewrite Hfr by done; auto].
Qed.
End adopt.

(** ** A shared page is copied *)
Section copy.
Variables (s : vmst) (A L : list Z) (as_ va x pa : Z) (p1 : pmm).
Hypotheses (Hi : pt_inv s A L) (Ha : as_ ∈ A) (Hu : user va) (Hl : leaf s.(v_mem) as_ va = Some x).
Hypotheses (Hal : pmm_alloc s.(v_pmm) 1 = (pa, p1)) (Hpa : pa <> 0).
Abbreviation f := (frame s.(v_mem) x).
Abbreviation e := (x86_pte_mkwrite (s.(v_mem) x) pa).
Abbreviation s1 := (with_mem (with_pmm s p1) (mcopy s.(v_mem) pa f PAGE_SIZE)).
Abbreviation s2 := (arch_vm_flush_user_page (set_leaf (with_pmm s1 (pmm_free p1 f 1)) x 0) as_ va).
Abbreviation L2 := (filter (fun y => y <> x) L).

Lemma copy_taken : pt_inv s1 A L /\ held s1 A L pa /\ grows 1 [pa] A s s1 /\ free_at s.(v_pmm) pa /\
  aligned pa /\ 0 < pa < 2 ^ 52 /\ (forall a, ~ in_frame pa a -> s1.(v_mem) a = s.(v_mem) a).
Proof using Hi Hal Hpa.
  destruct (fresh_page s A L Hi pa p1 Hal Hpa) as (Haln&Hfree&Hr&_).
  destruct (take_ok s A L Hi pa p1 Hal Hpa) as (Hi1&Hh1&Hg1&_).
  assert (Hout : forall a, ~ in_frame pa a -> mcopy s.(v_mem) pa f PAGE_SIZE a = s.(v_mem) a).
  { intros a Hn. unfold mcopy, in_frame in *. destruct (Z.leb_spec pa a), (Z.ltb_spec a (pa + PAGE_SIZE)); lia || done. }
  destruct (fill_ok _ A L pa (mcopy s.(v_mem) pa f PAGE_SIZE) Hi1 Hh1 Hout) as (Hi2&Hh2&Hg2).
  specialize (Hg2 _ _ _ Hg1 Hfree). split_and!; auto; lia.
Qed.

Lemma copy_leaf : leaf s1.(v_mem) as_ va = Some x /\ s1.(v_mem) x = s.(v_mem) x /\ frame s1.(v_mem) x = f.
Proof using Hi Ha Hu Hl Hal Hpa.
  destruct copy_taken as (_&_&Hg&_). pose proof (gr_entry _ _ _ _ _ Hg as_ va x Ha Hu Hl) as He.
  split_and!; [by rewrite (gr_leaf _ _ _ _ _ Hg) by auto|done|]. unfold frame at 1. by rewrite He.
Qed.

Lemma copy_unmapped : pt_inv s2 A L2 /\ effect (at_page as_ va) 0 A L s1 L2 s2 /\ view s2.(v_mem) as_ va = None.
Proof using Hi Ha Hu Hl Hal Hpa.
  destruct copy_taken as (Hi1&_). destruct copy_leaf as (Hl1&_&Hf1).
  pose proof (unmap_inv s1 A L as_ va x Hi1 Ha Hu Hl1) as H1. pose proof (unmap_effect s1 A L as_ va x Hi1 Ha Hu Hl1) as H2.
  pose proof (unmap_view s1 A L as_ va x Hi1 Ha Hu Hl1) as H3. rewrite Hf1 in H1, H2, H3. done.
Qed.

Lemma copy_held : held s2 A L2 pa.
Proof using Hi Ha Hu Hl Hal Hpa.
  destruct copy_taken as (Hi1&[Hh1 Hh2 Hh3 Hh4]&Hg&Hfree&_). destruct copy_leaf as (Hl1&He1&Hf1).
  destruct (unmap_refs s1 A L as_ va x Hi1 Ha Hu Hl1) as (_&_&_&Hr&_). rewrite Hf1 in Hr.
  assert (Hne : pa <> f).
  { intros ->. assert (Hv : view s.(v_mem) as_ va = Some (s.(v_mem) x)) by (unfold view; by rewrite Hl).
    destruct (frame_plain s A L Hi as_ va _ f Ha Hu Hv) as (Hpd&Hnf&_); [unfold in_frame, frame, PAGE_SIZE; simpl; lia|].
    rewrite Hpd in Hnf. done. }
  split; [done| | |].
  - transitivity (pmm_get_ref s1.(v_pmm) pa); [by apply Hr|done].
  - pose proof (unmap_table s1 A L as_ va x Hi1 Ha Hu Hl1 pa) as Ht. rewrite Hf1 in Ht. by rewrite Ht.
  - intros y [Hy Hyl]%list_elem_of_filter. unfold frame. cbn. rewrite mwrite_ne by done. by apply Hh4.
Qed.

Lemma copy_bits : x86_pte_phys e = pa /\ has e PTE_PRESENT = true.
Proof using Hi Hl Hal Hpa.
  destruct copy_taken as (_&_&_&_&Haln&Hr&_). split.
  - apply (mkwrite_phys (ArchPteLaws := x86_pte_laws)); [simpl; lia|done].
  - destruct (leaf_slot s _ _ _ Hl) as (t&_&_&Hpr). unfold x86_pte_mkwrite. rewrite has_testbit in * by done.
    rewrite testbit_set by done. rewrite Z.lor_spec, testbit_clr, !Z.land_spec, Hpr by done. by rewrite orb_true_r.
Qed.

(** The page table the leaf is in. *)
Lemma copy_slot : exists t, tab s2.(v_mem) as_ va 3 = Some t /\ x = slot t (idx 3 va) /\ leaf s2.(v_mem) as_ va = None.
Proof using Hi Ha Hu Hl Hal Hpa.
  destruct copy_taken as (Hi1&_). destruct copy_leaf as (Hl1&_&Hf1). destruct (leaf_slot s1 _ _ _ Hl1) as (t&Ht&Hx&_).
  exists t. pose proof (unmap_tab s1 A L as_ va x Hi1 Ha Hu Hl1 as_ va 3 Ha Hu ltac:(lia)) as Htt.
  pose proof (unmap_leaf s1 A L as_ va x Hi1 Ha Hu Hl1 as_ va Ha Hu) as Hll. rewrite Hf1 in Htt, Hll.
  rewrite decide_True in Hll by done. split_and!; [by rewrite <- Ht|done|done].
Qed.

Variable s' : vmst.
Hypotheses (Hp' : s'.(v_pmm) = pmm_free p1 f 1) (Hm' : s'.(v_mem) = mwrite s1.(v_mem) x e).

Lemma copy_memory a : s'.(v_mem) a = mwrite s2.(v_mem) x e a.
Proof using Hm'.
  rewrite Hm'. cbn. unfold mwrite. by destruct (a =? x).
Qed.

Lemma copy_inv : pt_inv s' A (x :: L2).
Proof using All.
  destruct copy_slot as (t&Ht&Hx&Hn). destruct copy_unmapped as (Hi2&_). destruct copy_bits as [Hph Hpr].
  pose proof (adopt_inv A L2 s2 as_ va t pa e Hi2 Ha Hu Ht copy_held Hpa Hn Hpr Hph) as H. rewrite <- Hx in H.
  apply (ext_inv _ s' _ _ H); [by rewrite Hp'|apply copy_memory].
Qed.

Lemma copy_view as' va' : as' ∈ A -> user va' ->
  view s'.(v_mem) as' va' =
    if decide (as' = as_ /\ key 4 va' = key 4 va) then Some e else view s.(v_mem) as' va'.
Proof using All.
  intros Ha' Hu'. destruct copy_slot as (t&Ht&Hx&Hn). destruct copy_unmapped as (Hi2&He2&_). destruct copy_bits as [Hph Hpr].
  rewrite (ext_view (mwrite s2.(v_mem) x e)) by apply copy_memory.
  pose proof (place_view A L2 s2 s2.(v_pmm) as_ va t e Hi2 Ha Hu Ht as' va' Ha' Hu' Hpr) as H. rewrite <- Hx in H.
  cbn [v_mem set_leaf with_mem with_pmm] in H. rewrite H. case_decide as Hd; [done|].
  rewrite (ef_view _ _ _ _ _ _ _ He2) by auto. destruct copy_taken as (_&_&Hg&_). unfold view.
  rewrite (gr_leaf _ _ _ _ _ Hg) by auto. destruct (leaf s.(v_mem) as' va') eqn:E; [|done].
  by rewrite (gr_entry _ _ _ _ _ Hg as' va').
Qed.

(** The copy holds what the page held. *)
Lemma copy_contents o : 0 <= o < PAGE_SIZE -> s'.(v_mem) (pa + o) = s.(v_mem) (f + o).
Proof using All.
  intros Ho. destruct copy_taken as (Hi1&Hh&_&_&Haln&_). rewrite Hm', mwrite_ne.
  - cbn. unfold mcopy. destruct (Z.leb_spec pa (pa + o)), (Z.ltb_spec (pa + o) (pa + PAGE_SIZE)); try lia. f_equal. lia.
  - intros Hx. destruct copy_leaf as (Hl1&_). apply (hd_table _ _ _ _ Hh).
    assert (Hpd : page_down x = pa) by (apply in_frame_page_down; [done|]; unfold in_frame; lia).
    rewrite <- Hpd at 2. by apply (leaf_page s1 A L Hi1 as_ va x).
Qed.

Lemma copy_stray g : aligned g -> stray s' A (x :: L2) g <-> stray s A L g.
Proof using All.
  intros Hg'. destruct copy_slot as (t&Ht&Hx&Hn). destruct copy_unmapped as (Hi2&He2&_). destruct copy_bits as [Hph Hpr].
  destruct copy_taken as (Hi1&Hh&Hg&Hfree&_).
  pose proof (adopt_stray A L2 s2 as_ va t pa e Hi2 Ha Hu Ht copy_held Hpa Hn Hpr Hph g) as H. rewrite <- Hx in H.
  rewrite (ext_stray (set_leaf s2 x e) s') by (by rewrite Hp' || apply copy_memory).
  rewrite H, (ef_stray _ _ _ _ _ _ _ He2 g Hg'), (taken_stray s s1 A L 1 pa g) by auto.
  split; [tauto|]. intros Hs. split; [by left|]. intros ->. destruct Hs as (Hr&_).
  by apply (get_ref_not_free s.(v_pmm) pa (inv_pmm_ok s A L Hi)) in Hr.
Qed.

Lemma copy_data as' va' e' a : as' ∈ A -> user va' -> ~ at_page as_ va as' (key 4 va') ->
  view s.(v_mem) as' va' = Some e' -> in_frame (x86_pte_phys e') a -> s'.(v_mem) a = s.(v_mem) a.
Proof using All.
  intros Ha' Hu' HD Hv Hin. destruct (frame_plain s A L Hi as' va' e' a Ha' Hu' Hv Hin) as (_&Hnf&Hnt).
  destruct copy_taken as (_&_&Hg&Hfree&Haln&_&Hout). rewrite Hm', mwrite_ne.
  - apply Hout. intros Hp. apply in_frame_page_down in Hp; [|done]. by rewrite Hp in Hnf.
  - intros ->. apply Hnt. by apply (leaf_page s A L Hi as_ va x).
Qed.

Lemma copy_effect :
  (forall as' va' e', s'.(v_tlb) as' va' = Some e' -> s.(v_tlb) as' va' = Some e') ->
  effect (at_page as_ va) 1 A L s (x :: L2) s'.
Proof using All.
  intros Htlb. destruct copy_taken as (Hi1&Hh&Hg&_). destruct copy_slot as (t&Ht&Hx&Hn).
  destruct copy_unmapped as (Hi2&He2&_). constructor; rewrite ?Hp'; auto.
  - transitivity (g_base_pa s1.(v_pmm)); [apply He2|apply Hg].
  - transitivity (g_pages s1.(v_pmm)); [apply He2|apply Hg].
  - intros as' va' Ha' Hu' HD. rewrite copy_view by auto. by rewrite decide_False.
  - apply copy_data.
  - intros as' va' e' Ha' Hu' HD Hv. destruct (frame_used s A L Hi as' va' e' Ha' Hu' Hv).
    rewrite <- (gr_ref _ _ _ _ _ Hg) by done. apply (ef_ref _ _ _ _ _ _ _ He2 as' va'); auto.
    unfold view in *. rewrite (gr_leaf _ _ _ _ _ Hg) by auto. destruct (leaf s.(v_mem) as' va') eqn:E; [|done].
    by rewrite (gr_entry _ _ _ _ _ Hg as' va').
  - intros as' va' Ha' Hu'. rewrite (ext_huge (mwrite s2.(v_mem) x e)) by apply copy_memory.
    pose proof (leaf_write_huge A L2 s2 as_ va t e Hi2 Ha Hu Ht as' va' Ha' Hu') as H. rewrite <- Hx in H.
    cbn [v_mem set_leaf with_mem] in H. rewrite H, (ef_huge _ _ _ _ _ _ _ He2), (gr_huge _ _ _ _ _ Hg) by auto. done.
  - apply copy_stray.
  - pose proof (ef_avail _ _ _ _ _ _ _ He2) as H. pose proof (gr_avail _ _ _ _ _ Hg) as H'.
    cbn [v_pmm arch_vm_flush_user_page set_leaf with_mem with_pmm] in H, H'. lia.
  - intros f' Hal' Hst. destruct copy_taken as (_&_&_&Hfree&_).
    transitivity (pmm_get_ref s1.(v_pmm) f'); [apply (ef_keep _ _ _ _ _ _ _ He2 f' Hal'), (taken_stray s s1 A L 1 pa f'); auto|].
    destruct Hst as (Hr&_).
    apply (gr_ref _ _ _ _ _ Hg); [done|]. apply get_ref_not_free; [apply Hi|done].
Qed.
End copy.

(** ** The write fault *)
Lemma user_leaf_small m as_ va :
  huge_page m as_ va = None ->
  x86_vm_user_leaf m as_ va =
    match leaf m as_ va with
    | Some x => if has (m x) PTE_USER then Some (x, 1) else None
    | None => None
    end.
Proof.
  unfold huge_page, huge, leaf, x86_vm_user_leaf. cbn [tab]. unfold child. cbn [idx Nat.eqb andb negb].
  rewrite !andb_true_r. destruct (has (m (slot as_ (PML4_IDX va))) PTE_PRESENT); [|done]. cbn [negb].
  set (t1 := Z.land (m (slot as_ _)) PTE_ADDR_MASK).
  destruct (has (m (slot t1 (PDP_IDX va))) PTE_PRESENT); [|done]. cbn [negb].
  set (t2 := Z.land (m (slot t1 _)) PTE_ADDR_MASK).
  cbn [andb]. destruct (has (m (slot t2 (PD_IDX va))) PTE_HUGE), (has (m (slot t2 (PD_IDX va))) PTE_PRESENT); try done.
  cbn [negb andb]. intros _. set (x := slot (Z.land (m (slot t2 (PD_IDX va))) PTE_ADDR_MASK) (PT_IDX va)).
  destruct (has (m x) PTE_PRESENT) eqn:E; cbn [negb orb]; [|done]. by destruct (has (m x) PTE_USER).
Qed.

(** The page may be written, if need be after a copy. *)
Definition may_write (e : Z) : bool := has e PTE_USER && (x86_pte_writable e || x86_pte_cow e).

(** What a write fault at [va] leaves behind. *)
Definition fault_post (s : vmst) (A L : list Z) (as_ va rc : Z) (L' : list Z) (s' : vmst) : Prop :=
  pt_inv s' A L' /\ effect (at_page as_ va) 1 A L s L' s' /\
  match view s.(v_mem) as_ va with
  | Some e =>
      (exists e', view s'.(v_mem) as_ va = Some e' /\
         (forall o, 0 <= o < PAGE_SIZE -> s'.(v_mem) (x86_pte_phys e' + o) = s.(v_mem) (x86_pte_phys e + o)) /\
         (forall k, 0 <= k -> k <> PTE_WRITABLE -> k <> PTE_COW -> ~ 12 <= k < 52 -> has e' k = has e k) /\
         (managed s.(v_pmm) (x86_pte_phys e) -> managed s'.(v_pmm) (x86_pte_phys e')) /\
         (rc = VM_COW_HANDLED /\ may_write e = true /\ x86_pte_writable e' = true /\ x86_pte_cow e' = false \/
          rc <> VM_COW_HANDLED /\ e' = e)) /\
      (rc = VM_COW_NOT_COW -> may_write e = false /\ s' = s) /\
      (rc = VM_COW_NOMEM -> may_write e = true /\ avail s.(v_pmm) = 0 /\ s'.(v_mem) = s.(v_mem))
  | None => rc = VM_COW_NOT_COW /\ s' = s
  end.

Lemma mkwrite_keeps e p k :
  0 <= k -> k <> PTE_WRITABLE -> k <> PTE_COW -> ~ 12 <= k < 52 -> has (x86_pte_mkwrite e p) k = has e k.
Proof.
  intros Hk Hw Hc Ha. unfold x86_pte_mkwrite. rewrite !has_testbit, testbit_set, x86_mask by done.
  rewrite Z.lor_spec, testbit_clr, !Z.land_spec, Z.lnot_spec, testbit_field by done.
  replace ((12 <=? k) && (k <? 52)) with false by lia. rewrite (proj2 (Z.eqb_neq PTE_WRITABLE k)), (proj2 (Z.eqb_neq PTE_COW k)) by done.
  by destruct (Z.testbit e k), (Z.testbit p k).
Qed.

Section fault.
Variables (s : vmst) (A L : list Z) (as_ va : Z).
Hypotheses (Hi : pt_inv s A L) (Ha : as_ ∈ A) (Hu : user va) (Hsmall : huge_page s.(v_mem) as_ va = None).

Lemma flush_tlb_sub st b as' va' e' :
  (arch_vm_flush_user_page st as_ b).(v_tlb) as' va' = Some e' -> st.(v_tlb) as' va' = Some e'.
Proof using. cbn. by case_match. Qed.

(** Only the cached translation goes. *)
Lemma fault_flush b : effect (at_page as_ va) 1 A L s L (arch_vm_flush_user_page s as_ b).
Proof using.
  destruct (effect_same (at_page as_ va) 1 A L s ltac:(lia)). constructor; auto. intros as' va' e'. apply flush_tlb_sub.
Qed.

(** The page has one owner: it becomes writable where it is. *)
Lemma fault_reclaim x b :
  leaf s.(v_mem) as_ va = Some x -> pmm_get_ref s.(v_pmm) (frame s.(v_mem) x) <= 1 ->
  let e := x86_pte_mkwrite (s.(v_mem) x) (frame s.(v_mem) x) in
  let s' := arch_vm_flush_user_page (set_leaf s x e) as_ b in
  pt_inv s' A L /\ effect (at_page as_ va) 1 A L s L s' /\ view s'.(v_mem) as_ va = Some e /\
  x86_pte_phys e = frame s.(v_mem) x /\
  forall o, 0 <= o < PAGE_SIZE -> s'.(v_mem) (frame s.(v_mem) x + o) = s.(v_mem) (frame s.(v_mem) x + o).
Proof using Hi Ha Hu.
  intros Hl Hr e s'. pose proof (frame_aligned s.(v_mem) x) as Hal. pose proof (phys_range (s.(v_mem) x)) as Hrg.
  assert (Hph : x86_pte_phys e = frame s.(v_mem) x).
  { apply (mkwrite_phys (ArchPteLaws := x86_pte_laws)); [unfold frame; simpl; lia|done]. }
  destruct (leaf_slot s _ _ _ Hl) as (t&Ht&Hx&Hpr).
  assert (Hpr' : has e PTE_PRESENT = true) by (unfold e; rewrite mkwrite_keeps; [done|done|done|done|unfold PTE_PRESENT; lia]).
  assert (Hm : forall a, a <> x -> s'.(v_mem) a = s.(v_mem) a) by (intros; by apply mwrite_ne).
  assert (He : s'.(v_mem) x = e) by apply mwrite_eq.
  pose proof (reflag_inv s s' A L as_ va x e Hi Ha Hu Hl eq_refl Hm He Hph Hpr' (fun _ => Hr)) as Hi'.
  destruct (reflag_effect s s' A L as_ va x e Hi Ha Hu Hl eq_refl Hm He Hph Hpr' (fun _ => Hr)) as [He1 He2].
  { apply (flush_tlb_sub (set_leaf s x e)). }
  split_and!; auto; [by apply (effect_weaken _ _ _ 1 _ _ _ _ _ He1); [|lia]|].
  intros o Ho. apply Hm. intros Heq. assert (Hv : view s.(v_mem) as_ va = Some (s.(v_mem) x)) by (unfold view; by rewrite Hl).
  destruct (frame_plain s A L Hi as_ va _ x Ha Hu Hv) as (_&_&Hn); [unfold in_frame, frame in *; simpl in *; lia|].
  apply Hn. by apply (leaf_page s A L Hi as_ va).
Qed.

Lemma write_fault_post rc s' :
  vm_cow_write_fault s as_ va = (rc, s') -> exists L', fault_post s A L as_ va rc L' s'.
Proof using All.
  unfold vm_cow_write_fault, fault_post, view. cbn [arch_vm_user_leaf x86_vm]. rewrite user_leaf_small by done.
  destruct (leaf s.(v_mem) as_ va) as [x|] eqn:Hl; [|intros [= <- <-]; exists L; split_and!; auto using effect_same with lia].
  assert (Hv : view s.(v_mem) as_ va = Some (s.(v_mem) x)) by (unfold view; by rewrite Hl).
  fold (view s'.(v_mem) as_ va). unfold may_write.
  destruct (has (s.(v_mem) x) PTE_USER) eqn:Hus; cycle 1.
  { intros [= <- <-]. exists L. split_and!; auto using effect_same with lia; [|done]. exists (s.(v_mem) x). auto 10. }
  change (1 * PAGE_SIZE) with PAGE_SIZE. cbn [arch_pte_cow arch_pte_writable arch_pte_phys arch_pte_mkwrite x86_pte].
  destruct (x86_pte_cow (s.(v_mem) x)) eqn:Hcow; cbn [negb]; cycle 1.
  { destruct (x86_pte_writable (s.(v_mem) x)) eqn:Hw; intros [= <- <-]; exists L.
    - split_and!; [by apply (inv_tlb s)|apply fault_flush| |done|done]. exists (s.(v_mem) x). auto 10.
    - split_and!; auto using effect_same with lia; [|done]. exists (s.(v_mem) x). auto 10. }
  change (x86_pte_phys (s.(v_mem) x)) with (frame s.(v_mem) x). unfold vm_cow_page_shared.
  destruct (Z.ltb_spec 1 (pmm_get_ref s.(v_pmm) (frame s.(v_mem) x))) as [Hsh|Hns]; cycle 1.
  { intros [= <- <-]. destruct (fault_reclaim x (Z.land va (Z.lnot (PAGE_SIZE - 1))) Hl Hns) as (Hi'&He&Hv'&Hph&Hd).
    exists L. split_and!; auto; [|done|done]. eexists. split; [exact Hv'|]. rewrite Hph. split_and!; [exact Hd| |done|].
    - intros. by apply mkwrite_keeps.
    - left. rewrite orb_true_r. split_and!; auto; [apply (mkwrite_writable (ArchPteLaws := x86_pte_laws))|apply (mkwrite_cow (ArchPteLaws := x86_pte_laws))]; apply frame_aligned. }
  destruct (pmm_alloc s.(v_pmm) 1) as [pa p1] eqn:Hal. destruct (Z.eqb_spec pa 0) as [->|Hpa].
  { intros [= <- <-]. destruct (alloc_fail_ok s A L Hi p1 Hal) as (Hi'&Hg&_&Hav&_). exists L.
    split_and!; auto; [apply (effect_weaken (at_page as_ va) _ 0); [by apply grows_effect|done|lia]| |done|].
    - exists (s.(v_mem) x). split_and!; auto. unfold managed. cbn [v_pmm with_pmm]. by rewrite (page_of_range s.(v_pmm) p1) by apply Hg.
    - by rewrite orb_true_r. }
  intros [= <- <-]. set (s' := with_pmm _ _). exists (x :: filter (fun y => y <> x) L).
  destruct (copy_bits s A L as_ va x pa p1 Hi Hl Hal Hpa) as [Hph Hpr].
  destruct (copy_taken s A L x pa p1 Hi Hal Hpa) as (_&_&_&_&Haln&_).
  split_and!; [by apply (copy_inv s A L as_ va x pa p1)|apply (copy_effect s A L as_ va x pa p1); auto| |done|done].
  { apply (flush_tlb_sub s). }
  exists (x86_pte_mkwrite (s.(v_mem) x) pa). split_and!.
  - rewrite (copy_view s A L as_ va x pa p1) by auto. by rewrite decide_True.
  - rewrite Hph. by apply (copy_contents s A L as_ va x pa p1).
  - intros. by apply mkwrite_keeps.
  - intros _. rewrite Hph. apply ref_managed. assert (Hfp : pmm_free p1 (frame s.(v_mem) x) 1 = s'.(v_pmm)) by done.
    rewrite <- Hfp. pose proof (hd_ref _ _ _ _ (copy_held s A L as_ va x pa p1 Hi Ha Hu Hl Hal Hpa)) as Hh.
    cbn [v_pmm arch_vm_flush_user_page set_leaf with_mem with_pmm] in Hh. lia.
  - left. rewrite orb_true_r. split_and!; auto; [by apply (mkwrite_writable (ArchPteLaws := x86_pte_laws))|by apply (mkwrite_cow (ArchPteLaws := x86_pte_laws))].
Qed.
End fault.
