(* ===== verification/MremapOk.v ===== *)
(** * mremap: the parts *)
From S2P Require Import Prelude State Pmm Pte VmCow Vmm PtWalk PtInv PtGrow PtMap Mmap PtOps MmapOk MmapCalls MmapTheorems.

(** ** Writing into a page that is mapped once *)
Section fill_mapped.
Variables (s : vmst) (A L : list Z) (as_ va e : Z) (m' : memory).
Hypotheses (Hi : pt_inv s A L) (Ha : as_ ∈ A) (Hu : user va) (Hv : view s.(v_mem) as_ va = Some e).
Hypotheses (Hman : managed s.(v_pmm) (x86_pte_phys e)) (Hone : pmm_get_ref s.(v_pmm) (x86_pte_phys e) <= 1).
Hypothesis Hout : forall a, ~ in_frame (x86_pte_phys e) a -> m' a = s.(v_mem) a.
Abbreviation s' := (with_mem s m').

(** No other page lies in the frame. *)
Lemma sole_frame as1 va1 e1 : as1 ∈ A -> user va1 -> view s.(v_mem) as1 va1 = Some e1 ->
  x86_pte_phys e1 = x86_pte_phys e -> as1 = as_ /\ key 4 va1 = key 4 va.
Proof using Hi Ha Hu Hv Hman Hone.
  intros Ha1 Hu1 Hv1 Heq. destruct (view_leaf _ _ _ _ Hv) as (x&Hx&Hxe). destruct (view_leaf _ _ _ _ Hv1) as (y&Hy&Hye).
  assert (Hf : frame s.(v_mem) x = x86_pte_phys e) by (unfold frame; by rewrite Hxe).
  assert (Hfy : frame s.(v_mem) y = x86_pte_phys e) by (rewrite <- Heq; unfold frame; by rewrite Hye).
  assert (HxL : x ∈ L) by (apply (pi_leaf _ _ _ Hi); exists as_, va; by rewrite Hf).
  assert (HyL : y ∈ L) by (apply (pi_leaf _ _ _ Hi); exists as1, va1; by rewrite Hfy).
  destruct (decide (y = x)) as [->|Hne]; [by apply (leaf_once s A L Hi as1 va1 as_ va x)|].
  assert (Hfe : frame s.(v_mem) y = frame s.(v_mem) x) by (by rewrite Hf, Hfy).
  pose proof (mappers_two s.(v_mem) L y x (ci_nodup _ _ (pi_cow _ _ _ Hi)) HyL HxL Hne Hfe) as H2.
  pose proof (ci_count _ _ (pi_cow _ _ _ Hi) y HyL) as Hc. rewrite Hfy in Hc, H2. simpl in *. lia.
Qed.

Lemma mapped_outside a : is_table s.(v_mem) A (page_down a) -> m' a = s.(v_mem) a.
Proof using Hi Ha Hu Hv Hout.
  intros Ht. apply Hout. intros Hin. by destruct (frame_plain s A L Hi as_ va e a Ha Hu Hv Hin) as (_&_&?).
Qed.

Lemma fill_mapped_tab as1 va1 n : as1 ∈ A -> user va1 -> (n <= 3)%nat -> tab m' as1 va1 n = tab s.(v_mem) as1 va1 n.
Proof using Hi Ha Hu Hv Hout.
  intros Ha1 Hu1 Hn. apply tab_agree. intros k t Hk Ht. f_equal. apply mapped_outside.
  rewrite (table_slot s A L Hi as1 va1 k t) by (auto; lia). exists as1, va1, k. split_and!; auto; lia.
Qed.

Lemma fill_mapped_inv : pt_inv s' A L /\ forall as1 va1, as1 ∈ A -> user va1 -> leaf m' as1 va1 = leaf s.(v_mem) as1 va1.
Proof using Hi Ha Hu Hv Hout.
  apply (inv_same s A L Hi s' eq_refl); [apply fill_mapped_tab|..].
  - intros as1 va1 t Ha1 Hu1 Ht. apply mapped_outside. rewrite (table_slot s A L Hi as1 va1 3 t) by (auto; lia).
    exists as1, va1, 3%nat. split_and!; auto; lia.
  - intros as1 va1 Ha1 Hu1. unfold huge. cbn [v_mem with_mem]. rewrite fill_mapped_tab by (auto; lia).
    destruct (tab s.(v_mem) as1 va1 2) as [t|] eqn:Ht; [|done]. rewrite mapped_outside; [done|].
    rewrite (table_slot s A L Hi as1 va1 2 t) by (auto; lia). exists as1, va1, 2%nat. split_and!; auto; lia.
Qed.

Lemma fill_mapped_entry x : x ∈ L -> m' x = s.(v_mem) x.
Proof using Hi Ha Hu Hv Hout.
  intros Hx. destruct (in_L s A L Hi x Hx) as (as1&va1&Ha1&Hu1&Hl). apply mapped_outside. by apply (leaf_page s A L Hi as1 va1).
Qed.

Lemma fill_mapped_view as1 va1 : as1 ∈ A -> user va1 -> view m' as1 va1 = view s.(v_mem) as1 va1.
Proof using Hi Ha Hu Hv Hout.
  intros Ha1 Hu1. unfold view. rewrite (proj2 fill_mapped_inv) by auto.
  destruct (leaf s.(v_mem) as1 va1) as [x|] eqn:E; [|done]. f_equal. apply mapped_outside. by apply (leaf_page s A L Hi as1 va1).
Qed.

Lemma fill_mapped_effect : effect (at_page as_ va) 0 A L s L s'.
Proof using All.
  constructor; auto.
  - intros as1 va1 Ha1 Hu1 _. by apply fill_mapped_view.
  - intros as1 va1 e1 a Ha1 Hu1 HD Hv1 Hin. apply Hout. intros Hin'.
    apply HD. apply (sole_frame as1 va1 e1); auto.
    destruct (frame_plain s A L Hi as1 va1 e1 a Ha1 Hu1 Hv1 Hin) as (<-&_).
    by destruct (frame_plain s A L Hi as_ va e a Ha Hu Hv Hin') as (<-&_).
  - done.
  - intros as1 va1 Ha1 Hu1. unfold huge. cbn [v_mem with_mem]. rewrite fill_mapped_tab by (auto; lia).
    destruct (tab s.(v_mem) as1 va1 2) as [t|] eqn:Ht; [|done]. rewrite mapped_outside; [done|].
    rewrite (table_slot s A L Hi as1 va1 2 t) by (auto; lia). exists as1, va1, 2%nat. split_and!; auto; lia.
  - intros g _. unfold stray. cbn [v_mem v_pmm with_mem].
    assert (Ht : is_table m' A g <-> is_table s.(v_mem) A g).
    { split; intros (as1&va1&n&?&?&?&?); exists as1, va1, n; [rewrite <- fill_mapped_tab|rewrite fill_mapped_tab]; auto. }
    rewrite Ht. split; intros (?&?&Hn); split_and!; auto; intros x Hx; specialize (Hn x Hx); unfold frame in *;
      [rewrite <- fill_mapped_entry by done|rewrite fill_mapped_entry by done]; done.
  - cbn. lia.
Qed.
End fill_mapped.

(** ** Copying pages *)
Lemma mcopy_out m dst src a : ~ in_frame dst a -> mcopy m dst src PAGE_SIZE a = m a.
Proof. unfold mcopy, in_frame. intros. destruct (Z.leb_spec dst a), (Z.ltb_spec a (dst + PAGE_SIZE)); lia || done. Qed.

Lemma mcopy_in m dst src o : 0 <= o < PAGE_SIZE -> mcopy m dst src PAGE_SIZE (dst + o) = m (src + o).
Proof.
  intros. unfold mcopy. destruct (Z.leb_spec dst (dst + o)), (Z.ltb_spec (dst + o) (dst + PAGE_SIZE)); try lia. f_equal. lia.
Qed.

Section move.
Variables (s : vmst) (A L : list Z) (as_ old new n : Z) (w ex : bool).
Hypotheses (Hi : pt_inv s A L) (Ha : as_ ∈ A) (Hso : span old n) (Hsn : span new n).
(** Every page of the new range lies in a frame of its own. *)
Definition own_frame (st : vmst) (va : Z) : Prop :=
  exists e, view st.(v_mem) as_ va = Some e /\ managed st.(v_pmm) (x86_pte_phys e) /\ pmm_get_ref st.(v_pmm) (x86_pte_phys e) <= 1.
Hypothesis Hown : forall i, 0 <= i < n -> own_frame s (new + i * PAGE_SIZE).

Lemma view_phys st va e : pt_inv st A L -> user va -> aligned va -> view st.(v_mem) as_ va = Some e ->
  vmm_get_phys st.(v_mem) as_ va = x86_pte_phys e /\ x86_pte_phys e <> 0 /\ page_down (x86_pte_phys e) = x86_pte_phys e.
Proof using Ha.
  intros Hst Hu Hal Hv. destruct (view_leaf _ _ _ _ Hv) as (x&Hl&Hx). destruct (leaf_slot st _ _ _ Hl) as (t&Ht&_).
  rewrite get_phys_eq, (tab_no_huge _ _ _ _ Ht), Hv, Hal, Z.add_0_r. split_and!; [done| |].
  - pose proof (pi_null _ _ _ Hst as_ va x Ha Hu Hl) as Hn. unfold frame in Hn. by rewrite Hx in Hn.
  - apply in_frame_page_down; [apply addr_aligned|]. unfold in_frame, PAGE_SIZE. lia.
Qed.

(** After [j] pages. *)
Definition moved (j : Z) (s' : vmst) : Prop :=
  pt_inv s' A L /\ s'.(v_pmm) = s.(v_pmm) /\ effect (range as_ new j) 0 A L s L s' /\
  (forall as1 va1, as1 ∈ A -> user va1 -> view s'.(v_mem) as1 va1 = view s.(v_mem) as1 va1) /\
  ((forall i k, 0 <= i < n -> 0 <= k < n -> old / PAGE_SIZE + i <> new / PAGE_SIZE + k) ->
   forall i eo e, 0 <= i < j -> view s.(v_mem) as_ (old + i * PAGE_SIZE) = Some eo ->
     view s.(v_mem) as_ (new + i * PAGE_SIZE) = Some e ->
     forall o, 0 <= o < PAGE_SIZE -> s'.(v_mem) (x86_pte_phys e + o) = s.(v_mem) (x86_pte_phys eo + o)).

Lemma span_page base i : span base n -> aligned (base + i * PAGE_SIZE).
Proof using. intros [H _ _ _]. unfold aligned in *. by rewrite Z.mod_add. Qed.

(** One page: whatever is copied, only the new page changes. *)
Lemma move_page_ok j s1 : moved j s1 -> 0 <= j < n ->
  wp nopanic (move_page as_ old new (j * PAGE_SIZE)) (fun _ s2 => exists e, 
    view s.(v_mem) as_ (new + j * PAGE_SIZE) = Some e /\ pt_inv s2 A L /\ s2.(v_pmm) = s1.(v_pmm) /\
    effect (at_page as_ (new + j * PAGE_SIZE)) 0 A L s1 L s2 /\
    (forall as1 va1, as1 ∈ A -> user va1 -> view s2.(v_mem) as1 va1 = view s1.(v_mem) as1 va1) /\
    forall eo, view s.(v_mem) as_ (old + j * PAGE_SIZE) = Some eo ->
      forall o, 0 <= o < PAGE_SIZE -> s2.(v_mem) (x86_pte_phys e + o) = s1.(v_mem) (x86_pte_phys eo + o)) s1.
Proof using All.
  intros (Hi1&Hp1&He1&Hv1&_) Hj. unfold move_page. wp_steps.
  rewrite (span_u64 old n Hso), (span_u64 new n Hsn) by lia.
  destruct (span_user old n Hso j Hj) as [Huo _], (span_user new n Hsn j Hj) as [Hun _].
  destruct (Hown j Hj) as (e&Hve&Hm&Hr). rewrite <- Hp1 in Hm, Hr.
  assert (Hve1 : view s1.(v_mem) as_ (new + j * PAGE_SIZE) = Some e) by (by rewrite Hv1).
  destruct (view_phys s1 _ e Hi1 Hun (span_page new j Hsn) Hve1) as (->&Hne&->).
  destruct (Z.eqb_spec (x86_pte_phys e) 0); [done|]. cbn [negb]. rewrite andb_true_r.
  apply wp_if; intros Ho; wp_steps.
  - set (src := page_down (vmm_get_phys s1.(v_mem) as_ (old + j * PAGE_SIZE))).
    assert (Hout : forall a, ~ in_frame (x86_pte_phys e) a -> mcopy s1.(v_mem) (x86_pte_phys e) src PAGE_SIZE a = s1.(v_mem) a) by (intros; by apply mcopy_out).
    exists e. split_and!; [done|by apply (fill_mapped_inv s1 A L as_ (new + j * PAGE_SIZE) e)|done| | |].
    + by apply (fill_mapped_effect s1 A L as_ _ e).
    + by apply (fill_mapped_view s1 A L as_ (new + j * PAGE_SIZE) e).
    + intros eo Hvo o Ho'. cbn [v_mem with_mem]. rewrite mcopy_in by done. unfold src.
      assert (Hvo1 : view s1.(v_mem) as_ (old + j * PAGE_SIZE) = Some eo) by (by rewrite Hv1).
      by destruct (view_phys s1 _ eo Hi1 Huo (span_page old j Hso) Hvo1) as (->&_&->).
  - exists e. split_and!; auto; [apply effect_refl|]. intros eo Hvo. rewrite <- Hv1 in Hvo by auto.
    destruct (view_phys s1 _ eo Hi1 Huo (span_page old j Hso) Hvo) as (Hph&Hnz&_).
    rewrite Hph in Ho. by destruct (Z.eqb_spec (x86_pte_phys eo) 0).
Qed.

Lemma move_range_ok k : 0 <= k <= n ->
  wp nopanic (mfor (Z.to_nat k) 0 (fun i => move_page as_ old new (i * PAGE_SIZE))) (fun _ => moved k) s.
Proof using All.
  intros Hk. eapply wp_mono; [apply (wp_for nopanic moved)|].
  - split_and!; auto; [apply effect_refl|lia].
  - intros j s1 Hj Hmv. rewrite Z2Nat.id in Hj by lia. pose proof Hmv as (Hi1&Hp1&He1&Hv1&Hd1).
    eapply wp_mono; [apply (move_page_ok j s1 Hmv); lia|]. intros _ s2 (e&Hve&Hi2&Hp2&He2&Hv2&Hd2).
    assert (Hat : forall i, 0 <= i < n -> i <> j -> ~ at_page as_ (new + j * PAGE_SIZE) as_ (key 4 (new + i * PAGE_SIZE))).
    { intros i Hi' Hne [_ Hkk]. rewrite !(span_key new n Hsn) in Hkk by lia. lia. }
    split_and!; [done|congruence| |intros; by rewrite Hv2, Hv1 by auto|].
    + apply (effect_trans _ 0 0 A L s L s1); (eapply effect_weaken; [eassumption| |lia]).
      * intros a v. apply range_le. lia.
      * intros a v. apply (span_at new (j + 1)); [apply (span_le new n Hsn)|]; lia.
    + intros Hdis i eo e' Hi' Hvo Hve' o Ho. destruct (span_user old n Hso i ltac:(lia)) as [Huo _].
      assert (Hold : s1.(v_mem) (x86_pte_phys eo + o) = s.(v_mem) (x86_pte_phys eo + o)).
      { apply (ef_data _ _ _ _ _ _ _ He1 as_ (old + i * PAGE_SIZE) eo); auto; [|unfold in_frame; lia].
        rewrite (span_key old n Hso) by lia. intros [_ Hr]. apply (Hdis i (old / PAGE_SIZE + i - new / PAGE_SIZE)); lia. }
      destruct (decide (i = j)) as [->|Hne].
      * rewrite Hve in Hve'. injection Hve' as <-. by rewrite (Hd2 eo Hvo o Ho).
      * rewrite <- (Hd1 Hdis i eo e' ltac:(lia) Hvo Hve' o Ho). destruct (span_user new n Hsn i ltac:(lia)) as [Hun _].
        apply (ef_data _ _ _ _ _ _ _ He2 as_ (new + i * PAGE_SIZE) e'); auto; [apply Hat; lia|by rewrite Hv1|unfold in_frame; lia].
  - intros a s'. cbv beta. by rewrite Z.add_0_l, Z2Nat.id by lia.
Qed.
End move.

(** ** mremap *)
(** Whether the process may write and execute the page. *)
Definition rights (m : memory) (as_ va : Z) : option (bool * bool) :=
  match view m as_ va with
  | Some e => Some (x86_pte_writable e || x86_pte_cow e, negb (has e PTE_NX))
  | None => None
  end.

Lemma prot_rights s as_ va e :
  view s.(v_mem) as_ va = Some e -> has e PTE_USER = true -> vm_cow_get_page_prot s as_ va = rights s.(v_mem) as_ va.
Proof.
  intros Hv Hus. unfold rights. rewrite Hv. destruct (view_leaf _ _ _ _ Hv) as (x&Hl&<-).
  destruct (proj1 (leaf_pte _ _ _ _) Hl) as [Hpte Hpr].
  unfold vm_cow_get_page_prot, arch_vm_get_page_prot, arch_vm_user_leaf, x86_vm, x86_vm_get_page_prot.
  rewrite Hpte, Hpr, (x86_user_leaf_pte _ _ _ _ Hpte), Hpr, Hus. cbn [negb andb].
  change (arch_pte_cow (s.(v_mem) x)) with (x86_pte_cow (s.(v_mem) x)). unfold x86_pte_writable.
  destruct (x86_pte_cow _); [by rewrite orb_true_r|by rewrite orb_false_r].
Qed.

Lemma flags_rights pa w ex :
  x86_pte_phys (leaf_entry pa (arch_vm_user_page_flags w ex)) = pa -> aligned pa -> 0 <= pa < 2 ^ 52 ->
  let e := leaf_entry pa (arch_vm_user_page_flags w ex) in
  x86_pte_writable e || x86_pte_cow e = w /\ has e PTE_NX = negb ex /\ has e PTE_USER = true /\ has e PTE_PRESENT = true.
Proof.
  intros Hph Hal Hpa e. destruct (leaf_entry_bits pa (arch_vm_user_page_flags w ex) Hal Hpa (user_flags_mask w ex)) as (_&Hpr&Hb).
  unfold x86_pte_writable, x86_pte_cow. unfold e. rewrite !Hb by (unfold PTE_WRITABLE, PTE_COW, PTE_NX, PTE_USER; lia).
  split_and!; [by destruct w, ex|by destruct w, ex|by destruct w, ex|done].
Qed.

Lemma ready_rights s as_ va w ex data : ready s as_ va (arch_vm_user_page_flags w ex) data -> rights s.(v_mem) as_ va = Some (w, ex).
Proof.
  intros (pa&Hv&Hp&_). unfold rights. rewrite Hv.
  destruct (flags_rights pa w ex Hp) as (H1&H2&_); [rewrite <- Hp; apply addr_aligned|pose proof (phys_range (leaf_entry pa (arch_vm_user_page_flags w ex))); lia|].
  by rewrite H1, H2, negb_involutive.
Qed.

Lemma any_prot (w ex : bool) :
  let prot := Z.lor (Z.lor PROT_READ (if w then PROT_WRITE else 0)) (if ex then PROT_EXEC else 0) in
  any prot PROT_WRITE = w /\ any prot PROT_EXEC = ex.
Proof. by destruct w, ex. Qed.

Section mremap.
Context `{FileMapLaws}.
Variables (E : panic -> Prop) (q : mst) (t : mm_task) (A L : list Z) (old_addr new_addr flags on nn : Z) (w ex : bool).
Hypotheses (Hi : pt_inv q.(q_vm) A L) (Hcur : q.(q_cur) = Some t) (Has : t.(mm_as) ∈ A) (Hend : 0 <= t.(mmap_end)).
Hypothesis Hhuge : no_huge q.(q_vm).(v_mem) t.(mm_as).
Hypotheses (Hso : span old_addr on) (Hon : 0 < on) (Hnew : 0 <= new_addr < 2 ^ 64) (Hnn : nn * PAGE_SIZE < 2 ^ 64).
Hypothesis Hno : no_tables E q.(q_vm).(v_pmm) (4 * nn).
Abbreviation as_ := t.(mm_as).
Hypothesis Hmapped : forall i, 0 <= i < on -> exists e, view q.(q_vm).(v_mem) as_ (old_addr + i * PAGE_SIZE) = Some e.

(** Whether the new place is taken as given. *)
Definition move_flags : Z :=
  Z.lor (Z.lor MAP_PRIVATE MAP_ANONYMOUS) (if any flags MREMAP_FIXED_FLAG then MAP_FIXED else 0).
Definition move_addr : Z := if any flags MREMAP_FIXED_FLAG then new_addr else 0.

(** No page is in both ranges. *)
Definition apart (base : Z) : Prop :=
  forall i k, 0 <= i < on -> 0 <= k < nn -> old_addr / PAGE_SIZE + i <> base / PAGE_SIZE + k.

(** Page [i] of the new range: what was in page [i] of the old range, or
    zeroes. *)
Definition arrived (q' : mst) (base i : Z) : Prop :=
  rights q'.(q_vm).(v_mem) as_ (base + i * PAGE_SIZE) = Some (w, ex) /\
  exists e, view q'.(q_vm).(v_mem) as_ (base + i * PAGE_SIZE) = Some e /\ has e PTE_USER = true /\
    managed q'.(q_vm).(v_pmm) (x86_pte_phys e) /\
    forall o, 0 <= o < PAGE_SIZE ->
      if i <? on
      then exists eo, view q.(q_vm).(v_mem) as_ (old_addr + i * PAGE_SIZE) = Some eo /\
             q'.(q_vm).(v_mem) (x86_pte_phys e + o) = q.(q_vm).(v_mem) (x86_pte_phys eo + o)
      else q'.(q_vm).(v_mem) (x86_pte_phys e + o) = 0.

(** The range moved to [base]; the old one is unmapped if it lies in the
    window, and stays otherwise. *)
Definition relocated (base : Z) (L' : list Z) (q' : mst) : Prop :=
  window base nn /\
  effect (fun a v => range as_ base nn a v \/ range as_ old_addr on a v) (4 * nn) A L q.(q_vm) L' q'.(q_vm) /\
  (if is_fixed move_addr move_flags then base = new_addr else empty q.(q_vm).(v_mem) as_ base nn /\ apart base) /\
  (apart base ->
     (forall i, 0 <= i < nn -> arrived q' base i) /\
     ((window old_addr on /\ empty q'.(q_vm).(v_mem) as_ old_addr on) \/
      (~ window old_addr on /\ effect (range as_ base nn) (4 * nn) A L q.(q_vm) L' q'.(q_vm)))).

(** An empty range shares no page with a range that is mapped. *)
Lemma empty_apart base : window base nn -> empty q.(q_vm).(v_mem) as_ base nn -> apart base.
Proof using Hso Hmapped.
  intros (Hsp&_) Hem i k Hi' Hk Heq. destruct (Hmapped i Hi') as (e&Hv). specialize (Hem k Hk).
  rewrite (view_key _ _ (old_addr + i * PAGE_SIZE) (base + k * PAGE_SIZE)) in Hv; [congruence|].
  by rewrite (span_key old_addr on Hso), (span_key base nn Hsp).
Qed.

Lemma user_top_small x : USER_MMAP_BASE_VADDR <= x < USER_MMAP_TOP_VADDR -> is_mmap_err x = false.
Proof using.
  unfold USER_MMAP_BASE_VADDR, USER_MMAP_TOP_VADDR, is_mmap_err. intros Hx. unfold s64. rewrite Z.mod_small by lia.
  destruct (Z.ltb_spec (x + 2 ^ 63 - 2 ^ 63) 0); [lia|done].
Qed.

Lemma align_pages n : 0 <= n -> n * PAGE_SIZE < 2 ^ 64 ->
  mmap_align_up (n * PAGE_SIZE) = n * PAGE_SIZE /\ mmap_align_up (n * PAGE_SIZE) / PAGE_SIZE = n.
Proof using.
  intros Hn0 Hn1. assert (Ha : mmap_align_up (n * PAGE_SIZE) = n * PAGE_SIZE).
  { apply align_up_id; [unfold PAGE_SIZE in *; lia|]. unfold aligned. by rewrite Z.mod_mul. }
  split; [done|]. rewrite Ha. by apply Z.div_mul.
Qed.

(** From the state [q1] after the new range was mapped, to the copy [s2]. *)
Section after_map.
Variables (q1 : mst) (L1 : list Z) (base : Z).
Hypotheses (Hle : on <= nn) (Hi1 : pt_inv q1.(q_vm) A L1) (Hw : window base nn).
Hypothesis He1 : effect (range as_ base nn) (4 * nn) A L q.(q_vm) L1 q1.(q_vm).
Hypothesis Hready : forall i, 0 <= i < nn ->
  ready q1.(q_vm) as_ (base + i * PAGE_SIZE) (arch_vm_user_page_flags w ex) (fun _ => 0).

Lemma after_map_old : apart base -> forall i e, 0 <= i < on -> view q.(q_vm).(v_mem) as_ (old_addr + i * PAGE_SIZE) = Some e ->
  view q1.(q_vm).(v_mem) as_ (old_addr + i * PAGE_SIZE) = Some e /\
  forall o, 0 <= o < PAGE_SIZE -> q1.(q_vm).(v_mem) (x86_pte_phys e + o) = q.(q_vm).(v_mem) (x86_pte_phys e + o).
Proof using Has Hso He1.
  intros Hap i e Hi' Hv. destruct (span_user old_addr on Hso i Hi') as [Hu _].
  assert (HD : ~ range as_ base nn as_ (key 4 (old_addr + i * PAGE_SIZE))).
  { rewrite (span_key old_addr on Hso) by lia. intros [_ Hr]. apply (Hap i (old_addr / PAGE_SIZE + i - base / PAGE_SIZE)); lia. }
  split; [by rewrite (ef_view _ _ _ _ _ _ _ He1)|]. intros o Ho.
  apply (ef_data _ _ _ _ _ _ _ He1 as_ (old_addr + i * PAGE_SIZE) e); auto. unfold in_frame. lia.
Qed.

(** The pages of the new range after the copy. *)
Lemma after_copy s2 i : moved q1.(q_vm) A L1 as_ old_addr base on on s2 -> apart base -> 0 <= i < nn ->
  rights s2.(v_mem) as_ (base + i * PAGE_SIZE) = Some (w, ex) /\
  exists e, view s2.(v_mem) as_ (base + i * PAGE_SIZE) = Some e /\ has e PTE_USER = true /\ managed s2.(v_pmm) (x86_pte_phys e) /\
    forall o, 0 <= o < PAGE_SIZE ->
      if i <? on
      then exists eo, view q.(q_vm).(v_mem) as_ (old_addr + i * PAGE_SIZE) = Some eo /\
             s2.(v_mem) (x86_pte_phys e + o) = q.(q_vm).(v_mem) (x86_pte_phys eo + o)
      else s2.(v_mem) (x86_pte_phys e + o) = 0.
Proof using All.
  intros (Hi2&Hp2&He2&Hv2&Hd2) Hap Hi'. pose proof Hw as (Hsp&_). destruct (span_user base nn Hsp i Hi') as [Hu _].
  pose proof (ready_rights _ _ _ _ _ _ (Hready i Hi')) as Hrt. destruct (Hready i Hi') as (pa&Hv1&Hph&[Hm _]&Hz).
  unfold rights in *. rewrite Hv2 by auto. split; [done|]. eexists. split; [exact Hv1|].
  destruct (flags_rights pa w ex Hph) as (_&_&Hus&_);
    [rewrite <- Hph; apply addr_aligned|pose proof (phys_range (leaf_entry pa (arch_vm_user_page_flags w ex))); lia|].
  split; [done|]. rewrite Hph, Hp2. split; [done|]. intros o Ho. destruct (Z.ltb_spec i on) as [Hlt|Hge].
  - destruct (Hmapped i ltac:(lia)) as (eo&Hvo). exists eo. split; [done|].
    destruct (after_map_old Hap i eo ltac:(lia) Hvo) as [Hvo1 Hdo].
    rewrite <- Hdo by done. rewrite <- Hph at 1. apply (Hd2 ltac:(intros; apply Hap; lia) i); auto with lia.
  - rewrite <- (Hz o Ho). apply (fun HD => ef_data _ _ _ _ _ _ _ He2 as_ (base + i * PAGE_SIZE) _ (pa + o) Has Hu HD Hv1);
      [|rewrite Hph; unfold in_frame; lia].
    rewrite (span_key base nn Hsp) by lia. intros [_ Hr]. lia.
Qed.
End after_map.

Lemma err_small err : err ∈ [LINUX_EINVAL; LINUX_EBADF; LINUX_ENODEV; LINUX_ENOMEM] -> is_mmap_err (mmap_err err) = true.
Proof using. rewrite !elem_of_cons, elem_of_nil. by intros [->|[->|[->|[->|[]]]]]. Qed.

(** The call was refused. *)
Definition remap_refused (err : Z) (L' : list Z) (q' : mst) : Prop :=
  err ∈ [LINUX_EINVAL; LINUX_EBADF; LINUX_ENODEV; LINUX_ENOMEM] /\
  (effect (fun _ _ => False) (4 * Z.max 0 nn) A L q.(q_vm) L' q'.(q_vm) \/
   is_fixed move_addr move_flags = true /\ err = LINUX_ENOMEM /\ window new_addr nn /\
   empty q'.(q_vm).(v_mem) as_ new_addr nn /\
   effect (range as_ new_addr nn) (4 * nn) A L q.(q_vm) L' q'.(q_vm)).

Lemma fixed_addr : is_fixed move_addr move_flags = true -> move_addr = new_addr.
Proof using. unfold is_fixed, move_addr, move_flags. destruct (any flags MREMAP_FIXED_FLAG); [done|]. by rewrite andb_false_r. Qed.

Lemma arrived_effect q2 L2 q' L' base i : window base nn -> apart base -> 0 <= i < nn ->
  effect (range as_ old_addr on) 0 A L2 q2.(q_vm) L' q'.(q_vm) -> arrived q2 base i -> arrived q' base i.
Proof using Has.
  intros (Hsp&_) Hap Hi' He (Hr&e&Hv&Hus&Hm&Hd). destruct (span_user base nn Hsp i Hi') as [Hu _].
  assert (HD : ~ range as_ old_addr on as_ (key 4 (base + i * PAGE_SIZE))).
  { rewrite (span_key base nn Hsp) by lia. intros [_ Hk]. apply (Hap (base / PAGE_SIZE + i - old_addr / PAGE_SIZE) i); lia. }
  unfold arrived, rights in *. rewrite (ef_view _ _ _ _ _ _ _ He) by auto. split; [done|]. exists e. split_and!; auto.
  - unfold managed. by rewrite (page_of_range q2.(q_vm).(v_pmm)) by apply He.
  - intros o Ho. specialize (Hd o Ho). rewrite (ef_data _ _ _ _ _ _ _ He as_ (base + i * PAGE_SIZE) e); auto.
    unfold in_frame. lia.
Qed.

Lemma fixed_flag : is_fixed move_addr move_flags = true -> any flags MREMAP_FIXED_FLAG = true.
Proof using. unfold is_fixed, move_flags. destruct (any flags MREMAP_FIXED_FLAG); [done|]. intros [_ Hf]%andb_true_iff. done. Qed.

(** The copy and the unmapping of the old range. *)
Lemma relocate_ok q1 t1 L1 base : on <= nn -> pt_inv q1.(q_vm) A L1 -> q1.(q_cur) = Some t1 -> keeps t t1 -> window base nn ->
  effect (range as_ base nn) (4 * nn) A L q.(q_vm) L1 q1.(q_vm) ->
  (if is_fixed move_addr move_flags then base = new_addr else empty q.(q_vm).(v_mem) as_ base nn) ->
  (forall i, 0 <= i < nn -> ready q1.(q_vm) as_ (base + i * PAGE_SIZE) (arch_vm_user_page_flags w ex) (fun _ => 0)) ->
  wp E (vm (mfor (Z.to_nat on) 0 (fun i => move_page as_ old_addr base (i * PAGE_SIZE))) ;;
        sys_munmap old_addr (on * PAGE_SIZE) ;; mret base)
    (fun r q' => exists L' t', pt_inv q'.(q_vm) A L' /\ q'.(q_cur) = Some t' /\ keeps t t' /\ r = base /\ relocated r L' q') q1.
Proof using All.
  intros Hle Hi1 Hc1 Hk1 Hw He1 Hfix Hready. unfold vm. wp_steps. pose proof Hw as (Hsp&_).
  assert (Hsn : span base on) by (apply (span_le base nn Hsp); lia).
  eapply wp_mono; [apply wp_nopanic, (move_range_ok q1.(q_vm) A L1 as_ old_addr base on); auto; [|lia]|].
  { intros i Hi'. destruct (Hready i ltac:(lia)) as (pa&Hv&Hph&[Hm Hr]&_). eexists. rewrite Hph. eauto. }
  intros u s2 Hmv. cbv beta in Hmv. clear u. pose proof Hmv as (Hi2&Hp2&He2&Hv2&_). wp_steps.
  assert (He12 : effect (range as_ base nn) (4 * nn) A L q.(q_vm) L1 s2).
  { rewrite <- (Z.add_0_r (4 * nn)). apply (effect_trans _ _ 0 A L q.(q_vm) L1 q1.(q_vm)); [done|].
    eapply effect_weaken; [exact He2| |lia]. intros a v. apply range_le. lia. }
  destruct Hk1 as (Hmm&Hme&Hhb). destruct (align_pages on ltac:(lia)) as [Hal Hdiv]; [pose proof (sp_high _ _ Hso); pose proof (sp_low _ _ Hso); lia|].
  eapply wp_mono; [apply wp_nopanic, (munmap_ok (set_vm q1 s2) t1 A L1 old_addr (on * PAGE_SIZE)); rewrite ?Hmm; auto|].
  { apply (no_huge_effect _ _ _ _ _ _ _ _ He12 Has Hhuge). }
  { pose proof (sp_low _ _ Hso). pose proof (sp_high _ _ Hso). unfold PAGE_SIZE in *. lia. }
  { pose proof (sp_high _ _ Hso). pose proof (sp_low _ _ Hso). unfold PAGE_SIZE in *. lia. }
  rewrite Hdiv. intros r q'. cbv beta. intros Hum.
  assert (Hfix' : if is_fixed move_addr move_flags then base = new_addr else empty q.(q_vm).(v_mem) as_ base nn /\ apart base).
  { case_match; [done|]. split; [done|by apply empty_apart]. }
  pose proof (after_copy q1 L1 base Hle Hi1 Hw He1 Hready s2) as Hac.
  destruct Hum as [(Hnw&_&->)|([_ Hwo]&_&Hc'&L'&Hi'&He'&Hz)]; wp_steps.
  - exists L1, t1. split_and!; auto; [done|]. split_and!; auto.
    + eapply effect_weaken; [exact He12|auto|lia].
    + intros Hap. split; [|right; by split; [intros ?; apply Hnw|]]. intros i Hi'. by apply Hac.
  - rewrite Hmm in *. exists L', t1. split_and!; auto; [done|]. split_and!; auto.
    + rewrite <- (Z.add_0_r (4 * nn)). apply (effect_trans _ _ 0 A L q.(q_vm) L1 s2);
        (eapply effect_weaken; [eassumption|auto|lia]).
    + intros Hap. split; [intros i Hi''; apply (arrived_effect (set_vm q1 s2) L1 q' L'); auto; by apply Hac|].
      left. split; [done|]. intros i Hi''. destruct (span_user old_addr on Hso i Hi'') as [Hu Hlt].
      apply (get_phys_none q'.(q_vm) A L' Hi'); auto. lia.
Qed.

Lemma mremap_move_ok prot : on <= nn -> any prot PROT_WRITE = w -> any prot PROT_EXEC = ex ->
  wp E (mremap_move as_ old_addr (on * PAGE_SIZE) (nn * PAGE_SIZE) flags new_addr prot) (fun r q' =>
    exists L' t', pt_inv q'.(q_vm) A L' /\ q'.(q_cur) = Some t' /\ keeps t t' /\
      ((exists err, r = mmap_err err /\ remap_refused err L' q') \/ relocated r L' q')) q.
Proof using All.
  intros Hle Hw Hex. unfold mremap_move. apply wp_if; intros Hmay; wp_steps.
  { exists L, t. split_and!; auto; [done|]. left. exists LINUX_ENOMEM. split; [done|].
    split; [rewrite !elem_of_cons; tauto|]. left. apply effect_same; lia. }
  fold move_flags. fold move_addr. destruct (align_pages nn ltac:(lia) Hnn) as [Hal Hdiv].
  eapply wp_mono; [apply (mmap_ok q t A L Hi Hcur Has Hend E move_addr (nn * PAGE_SIZE) prot move_flags (-1) 0); auto|].
  { unfold move_addr. case_match; lia. }
  { unfold PAGE_SIZE in *. lia. }
  { by rewrite Hdiv. }
  intros r q1 (L1&t1&Hi1&Hc1&Hk1&[Hmap|(err&->&[Herr _]&Hf)]).
  - destruct Hmap as (_&Hwin&He1&Hfix&Hrd). rewrite Hdiv in *. rewrite user_top_small.
    2: { destruct Hwin as (?&?&?). unfold PAGE_SIZE in *. lia. }
    rewrite Z.min_l by (unfold PAGE_SIZE in *; lia). rewrite pages_mul by lia.
    eapply wp_mono; [apply (relocate_ok q1 t1 L1 r)|].
    + done.
    + done.
    + done.
    + done.
    + done.
    + done.
    + destruct (is_fixed move_addr move_flags) eqn:Ef; [|done]. by rewrite <- fixed_addr.
    + intros i Hi'. specialize (Hrd i Hi'). rewrite Hw, Hex in Hrd. unfold mmap_data, move_flags in Hrd.
      by destruct (any flags MREMAP_FIXED_FLAG).
    + intros r' q' (L'&t'&?&?&?&->&?). exists L', t'. auto.
  - rewrite Hdiv in Hf. rewrite err_small by done. wp_steps. exists L1, t1. split_and!; auto. left. exists err. split; [done|].
    split; [done|]. destruct (is_fixed move_addr move_flags) eqn:Ef; [|by left]. rewrite (fixed_addr Ef) in Hf.
    case_bool_decide; [right; by destruct Hf as (?&?&?)|by left].
Qed.

(** How the call may end. *)
Definition shrunk (L' : list Z) (q' : mst) : Prop :=
  nn < on /\ empty q'.(q_vm).(v_mem) as_ (old_addr + nn * PAGE_SIZE) (on - nn) /\
  effect (range as_ (old_addr + nn * PAGE_SIZE) (on - nn)) 0 A L q.(q_vm) L' q'.(q_vm).
Definition grown (L' : list Z) (q' : mst) : Prop :=
  let end_ := old_addr + on * PAGE_SIZE in
  on < nn /\ window end_ (nn - on) /\ empty q.(q_vm).(v_mem) as_ end_ (nn - on) /\
  effect (range as_ end_ (nn - on)) (4 * nn) A L q.(q_vm) L' q'.(q_vm) /\
  forall i, 0 <= i < nn - on -> ready q'.(q_vm) as_ (end_ + i * PAGE_SIZE) (arch_vm_user_page_flags w ex) (fun _ => 0).
Definition remapped (r : Z) (q' : mst) : Prop :=
  exists L' t', pt_inv q'.(q_vm) A L' /\ q'.(q_cur) = Some t' /\ keeps t t' /\
    ((exists err, r = mmap_err err /\ remap_refused err L' q') \/
     (span old_addr on /\ 0 < on /\ rights q.(q_vm).(v_mem) as_ old_addr = Some (w, ex)) /\
     (r = old_addr /\ (nn = on /\ q' = q \/ shrunk L' q' \/ grown L' q') \/ on < nn /\ relocated r L' q')).
Hypothesis Hrt : rights q.(q_vm).(v_mem) as_ old_addr = Some (w, ex).

Lemma remap_refuse err L' q' :
  pt_inv q'.(q_vm) A L' -> q'.(q_cur) = Some t -> effect (fun _ _ => False) (4 * Z.max 0 nn) A L q.(q_vm) L' q'.(q_vm) ->
  0 <= nn -> err ∈ [LINUX_EINVAL; LINUX_EBADF; LINUX_ENODEV; LINUX_ENOMEM] -> remapped (mmap_err err) q'.
Proof using Hend.
  intros Hi' Hc' He Hn Herr. exists L', t. split_and!; auto; [done|]. left. exists err. split; [done|]. split; [done|]. by left.
Qed.

(** The tail of the range is taken down. *)
Lemma mremap_shrink_ok : 0 <= nn < on ->
  wp E (vm (drop_range as_ old_addr (nn * PAGE_SIZE) (on * PAGE_SIZE)) ;; vm (arch_syscall_flush_tlb as_) ;; mret old_addr) remapped q.
Proof using All.
  intros Hn. unfold vm, arch_syscall_flush_tlb. wp_steps. pose proof Hso as [Hal Hlo _ Hhi].
  replace (on * PAGE_SIZE) with (nn * PAGE_SIZE + (on - nn) * PAGE_SIZE) by lia.
  eapply wp_mono; [apply wp_nopanic, (drop_range_ok q.(q_vm) A L as_ old_addr (nn * PAGE_SIZE) (on - nn)); auto|].
  { constructor; [by apply span_page with on|..]; unfold PAGE_SIZE in *; lia. }
  { unfold PAGE_SIZE in *. lia. }
  intros _ s1 (L1&Hi1&He1&Hv1). wp_steps. exists L1, t. split_and!; [by apply reload_inv|done|done|]. right.
  split; [by split_and!|]. left. split; [done|]. right; left. split_and!; [lia|done|by apply reload_effect].
Qed.

Lemma mremap_grow_ok : on < nn -> window (old_addr + on * PAGE_SIZE) (nn - on) ->
  empty q.(q_vm).(v_mem) as_ (old_addr + on * PAGE_SIZE) (nn - on) ->
  wp E (ok ← vm (map_fresh (Z.to_nat (nn - on)) as_ (old_addr + on * PAGE_SIZE) 0 (arch_vm_user_page_flags w ex) (fun m _ _ => m));
        if negb ok then mret (mmap_err LINUX_ENOMEM) else vm (arch_syscall_flush_tlb as_) ;; mret old_addr) remapped q.
Proof using All.
  intros Hlt Hw Hem. unfold vm, arch_syscall_flush_tlb. wp_steps. pose proof Hw as (Hsp&Hlo&Hhi).
  eapply wp_mono; [apply (map_fresh_ok E q.(q_vm) A L as_ (old_addr + on * PAGE_SIZE) (nn - on) _ _ (fun _ _ => 0))|].
  - done.
  - done.
  - done.
  - apply user_flags_mask.
  - apply fills_zero.
  - intros i Hi'. split; [by apply Hem|]. apply Hhuge. unfold PAGE_SIZE in *. lia.
  - destruct Hno as [Hk|]; [left; lia|by right].
  - intros ok s1 (L1&Hi1&He1&Hres). destruct ok; cbn [negb]; wp_steps.
    + exists L1, t. split_and!; [by apply reload_inv|done|done|]. right. split; [by split_and!|]. left. split; [done|]. right; right.
      split_and!; auto. apply reload_effect. eapply effect_weaken; [exact He1|done|lia].
    + destruct Hres as [_ Hem1]. apply (remap_refuse LINUX_ENOMEM L1); auto; [|lia|rewrite !elem_of_cons; tauto].
      eapply effect_weaken; [apply (effect_empty _ _ _ _ _ _ _ _ _ He1); auto|done|lia].
Qed.
End mremap.

Lemma user_page_view m as_ va : x86_vm_is_user_page m as_ va = true -> exists e, view m as_ va = Some e /\ has e PTE_USER = true.
Proof. intros (x&Hl&Hus)%user_page_leaf. exists (m x). split; [|done]. unfold view. by rewrite Hl. Qed.

Lemma mremap_ok `{FileMapLaws} E q t A L old_addr old_len new_len flags new_addr :
  pt_inv q.(q_vm) A L -> q.(q_cur) = Some t -> t.(mm_as) ∈ A -> 0 <= t.(mmap_end) -> no_huge q.(q_vm).(v_mem) t.(mm_as) ->
  0 <= old_addr -> 0 <= old_len -> old_addr + mmap_align_up old_len <= 2 ^ 47 -> 0 <= new_len <= 2 ^ 64 - PAGE_SIZE ->
  0 <= new_addr < 2 ^ 64 ->
  let on := mmap_align_up old_len / PAGE_SIZE in
  let nn := mmap_align_up new_len / PAGE_SIZE in
  old_len <= 2 ^ 64 - PAGE_SIZE -> no_tables E q.(q_vm).(v_pmm) (4 * nn) ->
  wp E (sys_mremap old_addr old_len new_len flags new_addr) (fun r q' =>
    exists w ex, remapped q t A L old_addr new_addr flags on nn w ex r q') q.
Proof.
  intros Hi Hcur Has Hend Hhuge Hoa Hol Hhi Hnl Hna on nn Hol' Hno. unfold sys_mremap. wp_steps. rewrite Hcur.
  assert (Hsz : mmap_align_up old_len = on * PAGE_SIZE) by (apply align_up_pages; unfold PAGE_SIZE in *; lia).
  assert (Hsz' : mmap_align_up new_len = nn * PAGE_SIZE) by (apply align_up_pages; unfold PAGE_SIZE in *; lia).
  destruct (size_pages old_len ltac:(unfold PAGE_SIZE in *; lia)) as [Hon Hon']. fold on in Hon, Hon'.
  destruct (size_pages new_len ltac:(unfold PAGE_SIZE in *; lia)) as [Hnn Hnn']. fold nn in Hnn, Hnn'.
  assert (Hq : exists w ex, remapped q t A L old_addr new_addr flags on nn w ex (mmap_err LINUX_EINVAL) q).
  { exists false, false. apply (remap_refuse q t A L old_addr new_addr flags on nn false false Hend LINUX_EINVAL L); auto.
    - apply effect_same. lia.
    - rewrite !elem_of_cons. tauto. }
  apply wp_if; intros Hz; wp_steps; [exact Hq|].
  apply wp_if; intros Hoff; wp_steps; [exact Hq|].
  apply wp_if; intros Hfl; wp_steps; [exact Hq|].
  apply wp_if; intros Hfx; wp_steps; [exact Hq|].
  apply orb_false_iff in Hz as [[Hz1 Hz2%Z.eqb_neq]%orb_false_iff Hz3%Z.eqb_neq].
  assert (Hal : aligned old_addr).
  { unfold any in Hoff. rewrite land_low in Hoff. apply negb_false_iff, Z.eqb_eq in Hoff. done. }
  assert (Hon0 : 0 < on).
  { destruct (align_up_spec old_len) as (_&Hle&_); [unfold PAGE_SIZE in *; lia|]. specialize (Hle Hol'). unfold PAGE_SIZE in *. lia. }
  assert (Hso : span old_addr on) by (constructor; auto; lia). rewrite Hsz, Hsz', pages_mul by done.
  apply wp_if; intros Hus; wp_steps; [exact Hq|]. apply negb_false_iff in Hus.
  pose proof (user_from_spec q.(q_vm) t.(mm_as) old_addr on Hso (Z.to_nat on) 0 ltac:(lia) ltac:(lia) Hus) as Huser.
  assert (Hmapped : forall i, 0 <= i < on -> exists e, view q.(q_vm).(v_mem) t.(mm_as) (old_addr + i * PAGE_SIZE) = Some e).
  { intros i Hi'. destruct (user_page_view _ _ _ (Huser i Hi')) as (e&?&_). by exists e. }
  destruct (user_page_view _ _ _ (Huser 0 ltac:(lia))) as (e0&Hv0&Hus0). rewrite Z.mul_0_l, Z.add_0_r in Hv0.
  rewrite (prot_rights _ _ _ e0 Hv0 Hus0). unfold rights at 1. rewrite Hv0.
  set (w := x86_pte_writable e0 || x86_pte_cow e0). set (ex := negb (has e0 PTE_NX)).
  apply (wp_mono _ _ (remapped q t A L old_addr new_addr flags on nn w ex)); [|intros r q' Hr; by exists w, ex].
  assert (Hrt : rights q.(q_vm).(v_mem) t.(mm_as) old_addr = Some (w, ex)) by (unfold rights; by rewrite Hv0).
  clear Hq. apply wp_if; intros Hsame; wp_steps.
  { exists L, t. split_and!; auto; [done|]. right. split; [done|]. left. split; [done|]. left. split; [|done]. unfold PAGE_SIZE in *. lia. }
  apply wp_if; intros Hless.
  { apply (mremap_shrink_ok E q t A L old_addr new_addr flags on nn w ex); auto. unfold PAGE_SIZE in *. lia. }
  assert (Hlt : on < nn) by (unfold PAGE_SIZE in *; lia).
  replace (u64 (old_addr + on * PAGE_SIZE)) with (old_addr + on * PAGE_SIZE) by (symmetry; apply u64_small; unfold PAGE_SIZE in *; lia).
  replace (nn * PAGE_SIZE - on * PAGE_SIZE) with ((nn - on) * PAGE_SIZE) by lia. rewrite pages_mul by lia.
  apply wp_if; intros Hgrow.
  - apply andb_true_iff in Hgrow as [Hval Hun]. apply range_valid_spec in Hval as [_ Hw]; [|unfold PAGE_SIZE in *; lia..].
    apply (mremap_grow_ok E q t A L old_addr new_addr flags on nn w ex); auto.
    apply (range_unmapped_spec q.(q_vm) A L); auto. by destruct Hw.
  - destruct (any_prot w ex) as [Hpw Hpx].
    eapply wp_mono; [apply (mremap_move_ok E q t A L old_addr new_addr flags on nn w ex); auto; lia|].
    intros r q' (L'&t'&?&?&?&[?|?]); exists L', t'; split_and!; auto 10.
Qed.
