(* ===== verification/VmSpec.v ===== *)
(** * What processes are promised about their memory

    The abstract machine has no page tables, frames, reference counts or
    copy-on-write: every space has private pages, a fork copies them, and a
    store changes one page of one space. *)
From S2P Require Import Prelude State Pmm Pte VmCow Vmm Mmap MmapOk MmapCalls MmapTheorems.

Record page := mkPage { pg_write : bool; pg_exec : bool; pg_data : Z -> Z }.

(** Pages by space and page number. *)
Definition amem := Z -> Z -> option page.

(** Pages with the same rights and the same contents. *)
Definition page_eq (p p' : option page) : Prop :=
  match p, p' with
  | Some p, Some p' => pg_write p = pg_write p' /\ pg_exec p = pg_exec p' /\
      forall o, 0 <= o < PAGE_SIZE -> pg_data p o = pg_data p' o
  | None, None => True
  | _, _ => False
  end.

#[export] Instance page_eq_equiv : Equivalence page_eq.
Proof.
  split.
  - by intros [p|].
  - intros [p|] [p'|]; try done. intros (?&?&Hd). split_and!; auto. intros. by rewrite Hd.
  - intros [p|] [p'|] [p2|]; try done. intros (?&?&Hd) (?&?&Hd'). split_and!; try congruence. intros. by rewrite Hd, Hd'.
Qed.

(** ** Operations *)
Definition zeroes : Z -> Z -> Z := fun _ _ => 0.

(** The first page of an aligned address. *)
Definition pn (base : Z) : Z := base / PAGE_SIZE.

Definition a_clear (r : Z) (a : amem) : amem := fun s v => if decide (s = r) then None else a s v.
Definition a_fork (par r : Z) (a : amem) : amem := fun s v => if decide (s = r) then a par v else a s v.

(** [data off o]: the byte [o] of the page at offset [off] of the range. *)
Definition a_map (as_ base n : Z) (w x : bool) (data : Z -> Z -> Z) (a : amem) : amem := fun s v =>
  if decide (range as_ base n s v) then Some (mkPage w x (data ((v - pn base) * PAGE_SIZE))) else a s v.
Definition a_unmap (as_ base n : Z) (a : amem) : amem := fun s v =>
  if decide (range as_ base n s v) then None else a s v.
Definition a_protect (as_ base n : Z) (w x : bool) (a : amem) : amem := fun s v =>
  if decide (range as_ base n s v) then (fun p => mkPage w x (pg_data p)) <$> a s v else a s v.
Definition a_write (as_ va v : Z) (a : amem) : amem := fun s pg =>
  if decide (s = as_ /\ pg = pn va)
  then (fun p => mkPage (pg_write p) (pg_exec p) (fun o => if o =? va mod PAGE_SIZE then v else pg_data p o)) <$> a s pg
  else a s pg.

(** The pages [old, ...) appear at [base] with rights [w], [x], followed by
    pages of zeroes up to [nn]. *)
Definition a_move (as_ old on base nn : Z) (w x : bool) (a : amem) : amem := fun s v =>
  if decide (range as_ base nn s v)
  then if v - pn base <? on
       then (fun p => mkPage w x (pg_data p)) <$> a s (pn old + (v - pn base))
       else Some (mkPage w x (fun _ => 0))
  else a s v.

Definition a_free (as_ base n : Z) (a : amem) : Prop := forall v, pn base <= v < pn base + n -> a as_ v = None.
Definition a_mapped (as_ base n : Z) (a : amem) : Prop := forall v, pn base <= v < pn base + n -> is_Some (a as_ v).

(** ** Requests and what they may do *)
Inductive request :=
| Spawn (mmap_end heap_break : Z)
| Fork (cr3 : Z)
| Exit
| Mmap (addr length prot flags fd offset : Z)
| Munmap (addr length : Z)
| Mprotect (addr length prot : Z)
| Mremap (old_addr old_len new_len flags new_addr : Z)
| Brk (addr : Z)
| Write (va v : Z).

Inductive reply := Value (z : Z) | Fault (f : fault_end).

(** Pages that [length] bytes take. *)
Definition npages (length : Z) : Z := mmap_align_up length / PAGE_SIZE.

Section spec.
Context `{FileMapLaws}.
Variable t : mm_task.
Abbreviation as_ := t.(mm_as).

(** [spec q r a a']: asked for [q] by the task [t] in a machine that shows
    [a], the kernel may answer [r] and leave [a']. *)
Inductive spec : request -> reply -> amem -> amem -> Prop :=
| spec_spawn me hb r a : r <> 0 -> spec (Spawn me hb) (Value r) a (a_clear r a)
| spec_spawn_fails me hb a : spec (Spawn me hb) (Value 0) a a
| spec_fork cr3 r a : r <> 0 -> spec (Fork cr3) (Value r) a (a_fork as_ r a)
| spec_fork_fails cr3 a : spec (Fork cr3) (Value 0) a a
| spec_exit a : spec Exit (Value 0) a a
| spec_mmap addr length prot flags fd offset base a :
    0 < npages length -> window base (npages length) ->
    (if is_fixed addr flags then base = addr else a_free as_ base (npages length) a) ->
    spec (Mmap addr length prot flags fd offset) (Value base) a
      (a_map as_ base (npages length) (any prot PROT_WRITE) (any prot PROT_EXEC)
         (mmap_data (any flags MAP_ANONYMOUS) fd offset) a)
| spec_mmap_fails addr length prot flags fd offset err a :
    err ∈ [LINUX_EINVAL; LINUX_EBADF; LINUX_ENODEV; LINUX_ENOMEM] ->
    spec (Mmap addr length prot flags fd offset) (Value (mmap_err err)) a a
| spec_mmap_short addr length prot flags fd offset a :
    is_fixed addr flags = true ->
    spec (Mmap addr length prot flags fd offset) (Value (mmap_err LINUX_ENOMEM)) a (a_unmap as_ addr (npages length) a)
| spec_munmap addr length a :
    0 < npages length /\ window addr (npages length) ->
    spec (Munmap addr length) (Value 0) a (a_unmap as_ addr (npages length) a)
| spec_munmap_fails addr length a :
    ~ (0 < npages length /\ window addr (npages length)) -> spec (Munmap addr length) (Value (- LINUX_EINVAL)) a a
| spec_mprotect addr length prot a :
    a_mapped as_ addr (npages length) a ->
    spec (Mprotect addr length prot) (Value 0) a
      (a_protect as_ addr (npages length) (any prot PROT_WRITE) (any prot PROT_EXEC) a)
| spec_mprotect_fails addr length prot r a :
    r = - LINUX_EINVAL \/ r = - LINUX_ENOMEM \/ r = 0 /\ length = 0 -> spec (Mprotect addr length prot) (Value r) a a
| spec_brk addr a :
    let base := mmap_align_up t.(heap_break) in
    t.(heap_break) < addr < USER_MMAP_BASE_VADDR ->
    spec (Brk addr) (Value addr) a (a_map as_ base ((mmap_align_up addr - base) / PAGE_SIZE) true false zeroes a)
| spec_brk_short addr j a :
    let base := mmap_align_up t.(heap_break) in
    t.(heap_break) < addr < USER_MMAP_BASE_VADDR -> 0 <= j <= (mmap_align_up addr - base) / PAGE_SIZE ->
    spec (Brk addr) (Value t.(heap_break)) a (a_map as_ base j true false zeroes a)
| spec_brk_fails addr a :
    ~ t.(heap_break) < addr < USER_MMAP_BASE_VADDR -> spec (Brk addr) (Value t.(heap_break)) a a
| spec_mremap_same old old_len new_len flags new a :
    npages new_len = npages old_len -> spec (Mremap old old_len new_len flags new) (Value old) a a
| spec_mremap_shrink old old_len new_len flags new a :
    npages new_len < npages old_len ->
    spec (Mremap old old_len new_len flags new) (Value old) a
      (a_unmap as_ (old + npages new_len * PAGE_SIZE) (npages old_len - npages new_len) a)
| spec_mremap_grow old old_len new_len flags new p a :
    let end_ := old + npages old_len * PAGE_SIZE in
    let k := npages new_len - npages old_len in
    0 < k -> a_free as_ end_ k a -> a as_ (pn old) = Some p ->
    spec (Mremap old old_len new_len flags new) (Value old) a (a_map as_ end_ k (pg_write p) (pg_exec p) zeroes a)
| spec_mremap_move old old_len new_len flags new base p a :
    let on := npages old_len in
    let nn := npages new_len in
    on < nn -> window base nn -> a as_ (pn old) = Some p ->
    (forall v, ~ (pn old <= v < pn old + on /\ pn base <= v < pn base + nn)) ->
    (any flags MREMAP_FIXED_FLAG = false -> a_free as_ base nn a) ->
    let a' := a_move as_ old on base nn (pg_write p) (pg_exec p) a in
    spec (Mremap old old_len new_len flags new) (Value base) a
      (if bool_decide (USER_MMAP_BASE_VADDR <= old /\ old + on * PAGE_SIZE <= USER_MMAP_TOP_VADDR)
       then a_unmap as_ old on a' else a')
| spec_mremap_fails old old_len new_len flags new err a :
    err ∈ [LINUX_EINVAL; LINUX_EBADF; LINUX_ENODEV; LINUX_ENOMEM] ->
    spec (Mremap old old_len new_len flags new) (Value (mmap_err err)) a a
| spec_mremap_short old old_len new_len flags new a :
    any flags MREMAP_FIXED_FLAG = true ->
    spec (Mremap old old_len new_len flags new) (Value (mmap_err LINUX_ENOMEM)) a (a_unmap as_ new (npages new_len) a)
| spec_write va v p a :
    a as_ (pn va) = Some p -> pg_write p = true -> spec (Write va v) (Value 0) a (a_write as_ va v a)
| spec_write_fault va v f a :
    (f = Retried -> exists p, a as_ (pn va) = Some p /\ pg_write p = true) -> spec (Write va v) (Fault f) a a.

(** What the answers of mmap and munmap mean. *)
Lemma spec_mmap_inv addr length prot flags fd offset base a a' :
  spec (Mmap addr length prot flags fd offset) (Value base) a a' ->
  (0 < npages length /\ window base (npages length) /\
   (if is_fixed addr flags then base = addr else a_free as_ base (npages length) a) /\
   a' = a_map as_ base (npages length) (any prot PROT_WRITE) (any prot PROT_EXEC) (mmap_data (any flags MAP_ANONYMOUS) fd offset) a) \/
  exists err, err ∈ [LINUX_EINVAL; LINUX_EBADF; LINUX_ENODEV; LINUX_ENOMEM] /\ base = mmap_err err.
Proof using.
  inversion 1; subst; [auto|right; eauto|right; exists LINUX_ENOMEM; split; [rewrite !elem_of_cons; tauto|done]].
Qed.

Lemma spec_munmap_inv addr length r a a' :
  spec (Munmap addr length) (Value r) a a' -> 0 < npages length -> window addr (npages length) ->
  r = 0 /\ a' = a_unmap as_ addr (npages length) a.
Proof using. inversion 1; subst; tauto. Qed.
End spec.
