(* ===== verification/VmSystem.v ===== *)
(** * The memory of all processes as one system

    Tasks with their address spaces, and one step per request: the calls of
    kernel/sys_mmap.c, the address space operations fork, exec and exit use,
    and user stores, which may fault.  A step is a run of the kernel's code
    that returns; [sys_inv] holds between steps. *)
From S2P Require Import Prelude State Pmm Pte VmCow Vmm PtWalk PtInv PtGrow PtMap Mmap PtOps PtSpace PtCopy PtMask PtClone.
From S2P Require Import PtFree PtDestroy PtFault MmapOk MmapCalls MmapTheorems MremapOk VmSpec.

Record vsys := mkSys { y_vm : vmst; y_tasks : list mm_task }.

Definition spaces (T : list mm_task) : list Z := mm_as <$> T.

(** ** User stores *)
(** The error code of a user store: write, user mode. *)
Definition USER_WRITE : Z := 6.

(** The processor writes when its walk allows it and faults otherwise. *)
Definition user_write (cur : fault_task) (as_ va v : Z) : ST vmst reply :=
  m ← gets v_mem;
  if mmu_writable m as_ va then store (vmm_get_phys m as_ va) v ;; mret (Value 0)
  else f ← vmm_page_fault_handler (Some cur) as_ va USER_WRITE; mret (Fault f).

Section system.
Context `{FileMapLaws}.
Variables (kernel_pml4 : Z) (K : list Z).

(** ** Steps *)
Definition sys_call (q : request) : option (ST mst Z) :=
  match q with
  | Mmap addr length prot flags fd offset => Some (sys_mmap addr length prot flags fd offset)
  | Munmap addr length => Some (sys_munmap addr length)
  | Mprotect addr length prot => Some (sys_mprotect addr length prot)
  | Mremap old_addr old_len new_len flags new_addr => Some (sys_mremap old_addr old_len new_len flags new_addr)
  | Brk addr => Some (sys_brk addr)
  | _ => None
  end.

(** Counters far from their limit, and a free page for every table of the
    space. *)
Definition fork_room (s : vmst) (A : list Z) (par : Z) : Prop :=
  (forall as_ va e, as_ ∈ A -> user va -> view s.(v_mem) as_ va = Some e -> pmm_get_ref s.(v_pmm) (x86_pte_phys e) < 32768) /\
  (avail s.(v_pmm) = 0 \/ exists T : list Z,
     (forall va n t, user va -> (n <= 3)%nat -> tab s.(v_mem) par va n = Some t -> t ∈ T) /\
     Z.of_nat (length T) <= avail s.(v_pmm)).

(** Arguments are 64-bit words, ranges lie in the user half and do not wrap,
    brk does not run into pages that are mapped, and mremap is not told to
    move a range onto itself. *)
Definition args_ok (q : request) (s : vmst) (A : list Z) (t : mm_task) : Prop :=
  match q with
  | Spawn me hb => 0 <= me /\ 0 <= hb
  | Fork _ => fork_room s A t.(mm_as)
  | Exit => True
  | Mmap addr length _ _ _ _ | Munmap addr length => 0 <= addr < 2 ^ 64 /\ 0 <= length < 2 ^ 64
  | Mprotect addr length _ => 0 <= addr /\ 0 <= length /\ addr + mmap_align_up length <= 2 ^ 47
  | Mremap old_addr old_len new_len flags new_addr =>
      (any flags MREMAP_FIXED_FLAG = true -> forall v,
         ~ (pn old_addr <= v < pn old_addr + npages old_len /\ pn new_addr <= v < pn new_addr + npages new_len)) /\
      0 <= old_addr /\ 0 <= old_len <= 2 ^ 64 - PAGE_SIZE /\ old_addr + mmap_align_up old_len <= 2 ^ 47 /\
      0 <= new_len <= 2 ^ 64 - PAGE_SIZE /\ 0 <= new_addr < 2 ^ 64
  | Brk addr => t.(heap_break) < addr < USER_MMAP_BASE_VADDR -> heap_clear s t addr
  | Write va _ => 0 <= va < 2 ^ 47
  end.

Inductive vstep (t : mm_task) : vsys -> request -> reply -> vsys -> Prop :=
| step_spawn s T me hb r s' :
    args_ok (Spawn me hb) s (spaces T) t ->
    arch_vm_create_user_address_space kernel_pml4 s = Ok (r, s') ->
    vstep t (mkSys s T) (Spawn me hb) (Value r) (mkSys s' (if r =? 0 then T else mkMm r me hb :: T))
| step_fork s T cr3 r s' :
    t ∈ T -> args_ok (Fork cr3) s (spaces T) t ->
    vmm_copy_pml4 cr3 t.(mm_as) s = Ok (r, s') ->
    vstep t (mkSys s T) (Fork cr3) (Value r)
      (mkSys s' (if r =? 0 then T else mkMm r t.(mmap_end) t.(heap_break) :: T))
| step_exit s T s' :
    t ∈ T -> vmm_free_user_pml4 kernel_pml4 t.(mm_as) s = Ok (tt, s') ->
    vstep t (mkSys s T) Exit (Value 0) (mkSys s' (filter (fun u => u.(mm_as) <> t.(mm_as)) T))
| step_call s T i q c r q' t' :
    T !! i = Some t -> args_ok q s (spaces T) t -> sys_call q = Some c ->
    c (mkMst s (Some t)) = Ok (r, q') -> q'.(q_cur) = Some t' ->
    vstep t (mkSys s T) q (Value r) (mkSys q'.(q_vm) (<[i := t']> T))
| step_write s T cur va v r s' :
    t ∈ T -> args_ok (Write va v) s (spaces T) t ->
    user_write cur t.(mm_as) va v s = Ok (r, s') ->
    vstep t (mkSys s T) (Write va v) r (mkSys s' T).

(** ** What holds between steps *)
Record sys_inv (s : vmst) (T : list mm_task) (L : list Z) : Prop := {
  si_inv : pt_inv s (spaces T) L;
  (** the pages [K] are the kernel's, its own top table among them; every
      other page in use is a table or a page of a process *)
  si_kernel : (kernel_pml4 ∈ K) /\ aligned kernel_pml4;
  si_stray : forall f, aligned f -> stray s (spaces T) L f <-> f ∈ K;
  si_nodup : NoDup (spaces T);
  (** every page is the allocator's and open to its process *)
  si_plain : forall as_ va e, as_ ∈ spaces T -> user va -> view s.(v_mem) as_ va = Some e ->
    has e PTE_USER = true /\ managed s.(v_pmm) (x86_pte_phys e);
  si_small : forall as_ va, as_ ∈ spaces T -> user va -> huge s.(v_mem) as_ va = None;
  si_tasks : forall u, u ∈ T -> 0 <= u.(mmap_end) /\ 0 <= u.(heap_break);
}.

(** What the process sees at [va]. *)
Definition page_at (s : vmst) (as_ va : Z) : option page :=
  match view s.(v_mem) as_ va with
  | Some e => Some (mkPage (x86_pte_writable e || x86_pte_cow e) (negb (has e PTE_NX))
                      (fun o => s.(v_mem) (x86_pte_phys e + o)))
  | None => None
  end.

Definition presents (s : vmst) (A : list Z) (a : amem) : Prop :=
  forall as_ va, as_ ∈ A -> user va -> page_eq (page_at s as_ va) (a as_ (key 4 va)).

Definition good (y : vsys) (a : amem) : Prop :=
  exists L, sys_inv y.(y_vm) y.(y_tasks) L /\ presents y.(y_vm) (spaces y.(y_tasks)) a.

(** ** Steps that change some pages of some spaces *)
Lemma page_at_effect D k A L s L' s' as_ va :
  effect D k A L s L' s' -> as_ ∈ A -> user va -> ~ D as_ (key 4 va) -> page_eq (page_at s' as_ va) (page_at s as_ va).
Proof using.
  intros He Ha Hu HD. unfold page_at. rewrite (ef_view _ _ _ _ _ _ _ He) by auto.
  destruct (view s.(v_mem) as_ va) as [e|] eqn:Hv; [|done]. split_and!; auto. intros o Ho. cbn [pg_data].
  apply (ef_data _ _ _ _ _ _ _ He as_ va e); auto. unfold in_frame. lia.
Qed.

(** One page after a step: seen as [p], and a plain page. *)
Definition settled (s : vmst) (as_ va : Z) (p : option page) : Prop :=
  page_eq (page_at s as_ va) p /\
  forall e, view s.(v_mem) as_ va = Some e -> has e PTE_USER = true /\ managed s.(v_pmm) (x86_pte_phys e).

Lemma effect_managed D k A L s L' s' f : effect D k A L s L' s' -> managed s'.(v_pmm) f <-> managed s.(v_pmm) f.
Proof using. intros He. unfold managed. by rewrite (page_of_range s.(v_pmm)) by apply He. Qed.

Lemma effect_good D k s T L L' s' T' (a a' : amem) :
  sys_inv s T L -> presents s (spaces T) a -> spaces T' = spaces T ->
  (forall u, u ∈ T' -> 0 <= u.(mmap_end) /\ 0 <= u.(heap_break)) ->
  pt_inv s' (spaces T) L' -> effect D k (spaces T) L s L' s' ->
  (forall as_ v, D as_ v \/ ~ D as_ v) ->
  (forall as_ va, as_ ∈ spaces T -> user va -> D as_ (key 4 va) -> settled s' as_ va (a' as_ (key 4 va))) ->
  (forall as_ v, ~ D as_ v -> a' as_ v = a as_ v) -> good (mkSys s' T') a'.
Proof using.
  intros [Hi Hka Hks Hnd Hpl Hsm Htk] Hsh HT Htk' Hi' He Hdec HD HnD. exists L'. cbn [y_vm y_tasks]. rewrite HT.
  split; [constructor; rewrite ?HT; auto|].
  - intros f Hf. rewrite (ef_stray _ _ _ _ _ _ _ He f Hf). auto.
  - intros as_ va e Ha Hu Hv. destruct (Hdec as_ (key 4 va)) as [Hd|Hd]; [by apply (HD as_ va)|].
    rewrite (ef_view _ _ _ _ _ _ _ He) in Hv by auto. rewrite (effect_managed _ _ _ _ _ _ _ _ He). by apply (Hpl as_ va).
  - intros as_ va Ha Hu. rewrite (ef_huge _ _ _ _ _ _ _ He) by auto. auto.
  - intros as_ va Ha Hu. destruct (Hdec as_ (key 4 va)) as [Hd|Hd]; [by apply (HD as_ va)|].
    etransitivity; [by apply (page_at_effect _ _ _ _ _ _ _ _ _ He)|]. rewrite HnD by done. auto.
Qed.

(** Nothing changes for the processes. *)
Lemma silent_good k s T L L' s' T' (a : amem) :
  sys_inv s T L -> presents s (spaces T) a -> spaces T' = spaces T ->
  (forall u, u ∈ T' -> 0 <= u.(mmap_end) /\ 0 <= u.(heap_break)) ->
  pt_inv s' (spaces T) L' -> effect (fun _ _ => False) k (spaces T) L s L' s' -> good (mkSys s' T') a.
Proof using.
  intros Hs Hsh HT Htk Hi' He. eapply effect_good; eauto; done.
Qed.

(** ** Pages of a range *)
Lemma range_dec as_ base n s v : range as_ base n s v \/ ~ range as_ base n s v.
Proof using. destruct (decide (range as_ base n s v)); auto. Qed.

Lemma range_page as_ base n as' va : span base n -> range as_ base n as' (key 4 va) ->
  as' = as_ /\ exists i, 0 <= i < n /\ key 4 va = key 4 (base + i * PAGE_SIZE) /\ i = key 4 va - pn base.
Proof using.
  intros Hsp [-> Hk]. split; [done|]. exists (key 4 va - pn base). unfold pn.
  split_and!; [lia..| |done]. rewrite (span_key base n Hsp) by lia. lia.
Qed.

Lemma settled_key s as_ va va' p : key 4 va = key 4 va' -> settled s as_ va p <-> settled s as_ va' p.
Proof using. intros Hk. unfold settled, page_at. by rewrite (view_key _ _ va va' Hk). Qed.

Lemma settled_none s as_ va : view s.(v_mem) as_ va = None -> settled s as_ va None.
Proof using. intros Hv. unfold settled, page_at. by rewrite Hv. Qed.

Lemma settled_ready s as_ va w x data :
  ready s as_ va (arch_vm_user_page_flags w x) data -> settled s as_ va (Some (mkPage w x data)).
Proof using.
  intros (pa&Hv&Hph&[Hm _]&Hd). unfold settled, page_at. rewrite Hv.
  destruct (flags_rights pa w x Hph) as (Hw&Hx&Hus&_);
    [rewrite <- Hph; apply addr_aligned|pose proof (phys_range (leaf_entry pa (arch_vm_user_page_flags w x))); lia|].
  split.
  - split_and!; [done|cbn; by rewrite Hx, negb_involutive|]. intros o Ho. cbn. rewrite Hph. by apply Hd.
  - intros e [= <-]. by rewrite Hph.
Qed.
End system.
