(* ===== verification/VmRefine.v ===== *)
(** * The kernel keeps the promises of the abstract machine *)
From S2P Require Import Prelude State Pmm Pte VmCow Vmm PtWalk PtInv PtGrow PtMap Mmap PtOps PtSpace PtCopy PtMask PtClone.
From S2P Require Import PtFree PtDestroy PtFault MmapOk MmapCalls MmapTheorems MremapOk VmSpec VmSystem.

(** ** Lists of tasks *)
Lemma spaces_insert T i (t t' : mm_task) : T !! i = Some t -> t'.(mm_as) = t.(mm_as) -> spaces (<[i := t']> T) = spaces T.
Proof.
  intros Hi He. unfold spaces. rewrite list_fmap_insert, He. apply list_insert_id. by rewrite list_lookup_fmap, Hi.
Qed.

Lemma spaces_cons T r me hb as_ : as_ ∈ spaces (mkMm r me hb :: T) <-> as_ = r \/ as_ ∈ spaces T.
Proof. apply elem_of_cons. Qed.

Lemma spaces_filter T as_ :
  spaces (filter (fun u : mm_task => u.(mm_as) <> as_) T) = filter (fun a => a <> as_) (spaces T).
Proof.
  induction T as [|u T IH]; [done|]. unfold spaces in *. rewrite fmap_cons.
  destruct (decide (u.(mm_as) = as_)) as [He|He].
  - rewrite filter_cons_False, filter_cons_False by (simpl; tauto). done.
  - rewrite filter_cons_True, filter_cons_True, fmap_cons by (simpl; tauto). by rewrite IH.
Qed.

Lemma tasks_insert (P : mm_task -> Prop) (T : list mm_task) (i : nat) t' : (forall u, u ∈ T -> P u) -> P t' -> forall u, u ∈ <[i := t']> T -> P u.
Proof.
  intros HT Ht u Hu. apply list_elem_of_lookup in Hu as [j Hj].
  apply list_lookup_insert_Some in Hj as [(_&<-&_)|[_ Hj]]; [done|]. apply HT. by eapply list_elem_of_lookup_2.
Qed.

(** Any reason to stop is allowed: a statement about runs that return. *)
Definition any_panic (p : panic) : Prop := True.
Lemma no_tables_any p k : no_tables any_panic p k.
Proof. by right. Qed.
Lemma wp_returns {S A} E (m : ST S A) Q s a s' : wp E m Q s -> m s = Ok (a, s') -> Q a s'.
Proof. unfold wp. intros Hw He. by rewrite He in Hw. Qed.

Section refine.
Context `{FileMapLaws}.
Variables (kernel_pml4 : Z) (K : list Z) (s : vmst) (T : list mm_task) (L : list Z) (a : amem).
Hypotheses (Hs : sys_inv kernel_pml4 K s T L) (Hsh : presents s (spaces T) a).

Section call.
Variables (i : nat) (t : mm_task).
Hypothesis Hti : T !! i = Some t.
Abbreviation as_ := t.(mm_as).
Abbreviation A := (spaces T).

Lemma call_space : as_ ∈ A.
Proof using Hti. apply list_elem_of_fmap. exists t. split; [done|]. by eapply list_elem_of_lookup_2. Qed.

Lemma call_task : 0 <= t.(mmap_end) /\ 0 <= t.(heap_break).
Proof using Hs Hti. apply (si_tasks _ _ _ _ _ Hs). by eapply list_elem_of_lookup_2. Qed.

Lemma call_no_huge : no_huge s.(v_mem) as_.
Proof using Hs Hti.
  intros va Hva. apply (si_small _ _ _ _ _ Hs); [apply call_space|]. apply user_low.
  unfold USER_MMAP_BASE_VADDR, USER_MMAP_TOP_VADDR in Hva. lia.
Qed.

Lemma call_after t' : 0 <= t'.(mmap_end) -> 0 <= t'.(heap_break) ->
  forall u, u ∈ <[i := t']> T -> 0 <= u.(mmap_end) /\ 0 <= u.(heap_break).
Proof using Hs. intros H1 H2. by apply (tasks_insert (fun u => 0 <= u.(mmap_end) /\ 0 <= u.(heap_break))); [apply Hs|]. Qed.

(** Only pages of one range change. *)
Lemma range_good k base n L' s' t' (a' : amem) :
  keeps t t' \/ 0 <= t'.(mmap_end) /\ 0 <= t'.(heap_break) /\ t'.(mm_as) = as_ ->
  span base n -> pt_inv s' A L' -> effect (range as_ base n) k A L s L' s' ->
  (forall j, 0 <= j < n -> settled s' as_ (base + j * PAGE_SIZE) (a' as_ (pn base + j))) ->
  (forall as' v, ~ range as_ base n as' v -> a' as' v = a as' v) -> good kernel_pml4 K (mkSys s' (<[i := t']> T)) a'.
Proof using Hs Hsh Hti.
  intros Hk Hsp Hi' He HD HnD. destruct call_task as [Ht1 Ht2].
  assert (Hk' : 0 <= t'.(mmap_end) /\ 0 <= t'.(heap_break) /\ t'.(mm_as) = as_).
  { destruct Hk as [(?&?&Hb)|]; [rewrite Hb|]; auto. }
  destruct Hk' as (?&?&?). eapply effect_good; eauto using spaces_insert, call_after.
  - intros. apply range_dec.
  - intros as' va Ha Hu Hr. destruct (range_page _ _ _ _ _ Hsp Hr) as (->&j&Hj&Hk'&He').
    rewrite (settled_key _ _ _ _ _ Hk'). replace (key 4 va) with (pn base + j) by lia. auto.
Qed.

Lemma presents_none va : user va -> view s.(v_mem) as_ va = None -> a as_ (key 4 va) = None.
Proof using Hsh Hti.
  intros Hu Hv. pose proof (Hsh as_ va call_space Hu) as He. unfold page_at in He. rewrite Hv in He. by destruct (a as_ (key 4 va)).
Qed.

Lemma presents_some va e : user va -> view s.(v_mem) as_ va = Some e ->
  exists p, a as_ (key 4 va) = Some p /\ pg_write p = x86_pte_writable e || x86_pte_cow e /\ pg_exec p = negb (has e PTE_NX) /\
    forall o, 0 <= o < PAGE_SIZE -> s.(v_mem) (x86_pte_phys e + o) = pg_data p o.
Proof using Hsh Hti.
  intros Hu Hv. pose proof (Hsh as_ va call_space Hu) as He. unfold page_at in He. rewrite Hv in He.
  destruct (a as_ (key 4 va)) as [p|]; [|done]. destruct He as (Hw&Hx&Hd). exists p. split_and!; auto.
Qed.

Lemma empty_free base n : span base n -> empty s.(v_mem) as_ base n -> a_free as_ base n a.
Proof using Hsh Hti.
  intros Hsp He v Hv. unfold pn in *. replace v with (key 4 (base + (v - base / PAGE_SIZE) * PAGE_SIZE)).
  - apply presents_none; [apply (span_user base n Hsp)|apply He]; lia.
  - rewrite (span_key base n Hsp) by lia. lia.
Qed.

(** The pages of a range that was mapped, and of one that was taken down. *)
Lemma map_good k base n w x data L' s' t' :
  keeps t t' \/ 0 <= t'.(mmap_end) /\ 0 <= t'.(heap_break) /\ t'.(mm_as) = as_ ->
  span base n -> pt_inv s' A L' -> effect (range as_ base n) k A L s L' s' ->
  (forall j, 0 <= j < n -> ready s' as_ (base + j * PAGE_SIZE) (arch_vm_user_page_flags w x) (data (j * PAGE_SIZE))) ->
  good kernel_pml4 K (mkSys s' (<[i := t']> T)) (a_map as_ base n w x data a).
Proof using Hs Hsh Hti.
  intros Hk Hsp Hi' He Hr. eapply range_good; eauto; unfold a_map.
  - intros j Hj. rewrite decide_True by (unfold range, pn; lia).
    replace (pn base + j - pn base) with j by lia. by apply settled_ready, Hr.
  - intros as' v Hn. by rewrite decide_False.
Qed.

Lemma unmap_good k base n L' s' t' :
  keeps t t' \/ 0 <= t'.(mmap_end) /\ 0 <= t'.(heap_break) /\ t'.(mm_as) = as_ ->
  span base n -> pt_inv s' A L' -> effect (range as_ base n) k A L s L' s' -> empty s'.(v_mem) as_ base n ->
  good kernel_pml4 K (mkSys s' (<[i := t']> T)) (a_unmap as_ base n a).
Proof using Hs Hsh Hti.
  intros Hk Hsp Hi' He Hr. eapply range_good; eauto; unfold a_unmap.
  - intros j Hj. rewrite decide_True by (unfold range, pn; lia). by apply settled_none, Hr.
  - intros as' v Hn. by rewrite decide_False.
Qed.

Lemma same_good k L' s' t' :
  keeps t t' \/ 0 <= t'.(mmap_end) /\ 0 <= t'.(heap_break) /\ t'.(mm_as) = as_ ->
  pt_inv s' A L' -> effect (fun _ _ => False) k A L s L' s' -> good kernel_pml4 K (mkSys s' (<[i := t']> T)) a.
Proof using Hs Hsh Hti.
  intros Hk Hi' He. destruct call_task as [Ht1 Ht2].
  assert (Hk' : 0 <= t'.(mmap_end) /\ 0 <= t'.(heap_break) /\ t'.(mm_as) = as_).
  { destruct Hk as [(?&?&Hb)|]; [rewrite Hb|]; auto. }
  destruct Hk' as (?&?&?). eapply silent_good; eauto using spaces_insert, call_after.
Qed.

Lemma still_good : good kernel_pml4 K (mkSys s (<[i := t]> T)) a.
Proof using Hs Hsh Hti.
  destruct call_task. apply (same_good 0 L); [right; auto|apply Hs|apply effect_refl].
Qed.

Lemma mmap_refines addr length prot flags fd offset r q' t' :
  0 <= addr < 2 ^ 64 -> 0 <= length < 2 ^ 64 ->
  sys_mmap addr length prot flags fd offset (mkMst s (Some t)) = Ok (r, q') -> q'.(q_cur) = Some t' ->
  exists a', spec t (Mmap addr length prot flags fd offset) (Value r) a a' /\
    good kernel_pml4 K (mkSys q'.(q_vm) (<[i := t']> T)) a'.
Proof using Hs Hsh Hti.
  intros Haddr Hlen Hrun Hc'. destruct call_task as [Hme _].
  pose proof (mmap_ok (mkMst s (Some t)) t A L (si_inv _ _ _ _ _ Hs) eq_refl call_space Hme any_panic addr length prot flags fd
    offset Haddr Hlen call_no_huge (no_tables_any _ _)) as Hw.
  apply (wp_returns _ _ _ _ _ _ Hw) in Hrun as (L'&t1&Hi'&Hc1&Hk&Hres). rewrite Hc1 in Hc'. injection Hc' as <-.
  destruct Hres as [(Hn&Hwin&He&Hfix&Hrd)|(err&->&[Herr _]&Hf)].
  - exists (a_map as_ r (npages length) (any prot PROT_WRITE) (any prot PROT_EXEC) (mmap_data (any flags MAP_ANONYMOUS) fd offset) a).
    pose proof Hwin as (Hsp&_). split; [|by eapply map_good; eauto]. constructor; auto.
    case_match; [done|]. by apply empty_free.
  - destruct (is_fixed addr flags && bool_decide (err = LINUX_ENOMEM)) eqn:Ef.
    + apply andb_true_iff in Ef as [Ef ->%bool_decide_eq_true]. destruct Hf as (Hwin&Hem&He). pose proof Hwin as (Hsp&_).
      exists (a_unmap as_ addr (npages length) a). split; [by constructor|]. by eapply unmap_good; eauto.
    + exists a. split; [by constructor|]. by eapply same_good; eauto.
Qed.

Lemma mmap_task addr length prot flags fd offset r q' t' :
  0 <= addr < 2 ^ 64 -> 0 <= length < 2 ^ 64 ->
  sys_mmap addr length prot flags fd offset (mkMst s (Some t)) = Ok (r, q') -> q'.(q_cur) = Some t' -> keeps t t'.
Proof using H0 Hs Hti.
  intros Haddr Hlen Hrun Hc'. destruct call_task as [Hme _].
  pose proof (mmap_ok (mkMst s (Some t)) t A L (si_inv _ _ _ _ _ Hs) eq_refl call_space Hme any_panic addr length prot flags fd
    offset Haddr Hlen call_no_huge (no_tables_any _ _)) as Hw.
  apply (wp_returns _ _ _ _ _ _ Hw) in Hrun as (L'&t1&_&Hc1&Hk&_). rewrite Hc1 in Hc'. by injection Hc' as <-.
Qed.

Lemma munmap_refines addr length r q' t' :
  0 <= addr < 2 ^ 64 -> 0 <= length < 2 ^ 64 ->
  sys_munmap addr length (mkMst s (Some t)) = Ok (r, q') -> q'.(q_cur) = Some t' ->
  exists a', spec t (Munmap addr length) (Value r) a a' /\ good kernel_pml4 K (mkSys q'.(q_vm) (<[i := t']> T)) a'.
Proof using Hs Hsh Hti.
  intros Haddr Hlen Hrun Hc'. destruct call_task as [Hme Hhb].
  pose proof (munmap_ok (mkMst s (Some t)) t A L addr length (si_inv _ _ _ _ _ Hs) eq_refl call_space call_no_huge Haddr Hlen) as Hw.
  apply (wp_returns _ _ _ _ _ _ Hw) in Hrun as [(Hnw&->&->)|([Hn Hwin]&->&Hc1&L'&Hi'&He&Hz)].
  - cbn in Hc'. injection Hc' as <-. exists a. split; [by constructor|apply still_good].
  - rewrite Hc1 in Hc'. injection Hc' as <-. pose proof Hwin as (Hsp&_). exists (a_unmap as_ addr (npages length) a).
    split; [by constructor|]. eapply unmap_good; eauto. intros j Hj. destruct (span_user _ _ Hsp j Hj) as [Hu ?].
    apply (get_phys_none q'.(q_vm) A L' Hi'); [apply call_space|done|lia|by apply Hz].
Qed.

Lemma mprotect_refines addr length prot r q' t' :
  0 <= addr -> 0 <= length -> addr + mmap_align_up length <= 2 ^ 47 ->
  sys_mprotect addr length prot (mkMst s (Some t)) = Ok (r, q') -> q'.(q_cur) = Some t' ->
  exists a', spec t (Mprotect addr length prot) (Value r) a a' /\ good kernel_pml4 K (mkSys q'.(q_vm) (<[i := t']> T)) a'.
Proof using Hs Hsh Hti.
  intros Haddr Hlen Hhi Hrun Hc'. destruct call_task as [Hme Hhb].
  pose proof (mprotect_ok (mkMst s (Some t)) t A L addr length prot (si_inv _ _ _ _ _ Hs) eq_refl call_space Haddr Hlen Hhi) as Hw.
  apply (wp_returns _ _ _ _ _ _ Hw) in Hrun as [(->&Hr)|(->&Hc1&Hal&Hi'&He&Hd&Hp)].
  { cbn in Hc'. injection Hc' as <-. exists a. split; [by constructor|apply still_good]. }
  rewrite Hc1 in Hc'. injection Hc' as <-. fold (npages length) in *. cbn [q_vm] in *.
  assert (Hsp : span addr (npages length)).
  { unfold npages. pose proof (align_up_nonneg length). pose proof (page_down_aligned (u64 (length + PAGE_SIZE - 1))) as Hm.
    pose proof (Z.div_mod (mmap_align_up length) PAGE_SIZE ltac:(done)). unfold mmap_align_up in *.
    constructor; auto; [apply Z.div_pos; [done|unfold PAGE_SIZE; lia]|lia]. }
  exists (a_protect as_ addr (npages length) (any prot PROT_WRITE) (any prot PROT_EXEC) a). split; [constructor|].
  - intros v Hv. destruct (Hp (v - pn addr) ltac:(lia)) as (e&_&Hve&_).
    destruct (span_user _ _ Hsp (v - pn addr) ltac:(lia)) as [Hu _].
    destruct (presents_some _ e Hu Hve) as (p&Hap&_). rewrite (span_key _ _ Hsp) in Hap by lia. unfold pn in *.
    exists p. rewrite <- Hap. f_equal. lia.
  - eapply range_good; eauto; unfold a_protect; [|intros as' v Hn; by rewrite decide_False].
    intros j Hj. rewrite decide_True by (unfold range, pn; lia). destruct (Hp j Hj) as (e&e'&Hve&Hve'&Hph&Hpr&Hus&Hw'&Hx').
    destruct (span_user _ _ Hsp j Hj) as [Hu _]. destruct (presents_some _ e Hu Hve) as (p&Hap&_&_&Hpd).
    rewrite (span_key _ _ Hsp) in Hap by lia. fold (pn addr) in Hap. rewrite Hap. cbn [fmap option_fmap option_map].
    unfold settled, page_at. rewrite Hve'. split.
    + split_and!; [done|cbn; by rewrite Hx', negb_involutive|]. intros o Ho. cbn. rewrite Hph, <- Hpd by done.
      apply (Hd as_ (addr + j * PAGE_SIZE) e); auto using call_space. unfold in_frame. lia.
    + intros e1 [= <-]. split; [done|]. rewrite Hph, (effect_managed _ _ _ _ _ _ _ _ He).
      by apply (si_plain _ _ _ _ _ Hs as_ (addr + j * PAGE_SIZE) e call_space).
Qed.

Lemma brk_span addr : t.(heap_break) < addr < USER_MMAP_BASE_VADDR ->
  let base := mmap_align_up t.(heap_break) in span base ((mmap_align_up addr - base) / PAGE_SIZE).
Proof using Hs Hti.
  intros Hb base. destruct call_task as [_ Hhb]. unfold USER_MMAP_BASE_VADDR in Hb.
  destruct (align_up_spec t.(heap_break)) as (Hal&Hle&_); [lia|]. destruct (align_up_spec addr) as (Hal'&Hle'&_); [lia|].
  specialize (Hle ltac:(unfold PAGE_SIZE; lia)). specialize (Hle' ltac:(unfold PAGE_SIZE; lia)). fold base in Hal, Hle.
  assert (Hge : base <= mmap_align_up addr).
  { unfold aligned, PAGE_SIZE in *. pose proof (Z.div_mod base 4096 ltac:(lia)). pose proof (Z.div_mod (mmap_align_up addr) 4096 ltac:(lia)). lia. }
  pose proof (Z.mul_div_le (mmap_align_up addr - base) PAGE_SIZE ltac:(done)).
  constructor; [done|lia|apply Z.div_pos; [lia|done]|unfold PAGE_SIZE in *; lia].
Qed.

Lemma brk_refines addr r q' t' :
  (t.(heap_break) < addr < USER_MMAP_BASE_VADDR -> heap_clear s t addr) ->
  sys_brk addr (mkMst s (Some t)) = Ok (r, q') -> q'.(q_cur) = Some t' ->
  exists a', spec t (Brk addr) (Value r) a a' /\ good kernel_pml4 K (mkSys q'.(q_vm) (<[i := t']> T)) a'.
Proof using Hs Hsh Hti.
  intros Hclear Hrun Hc'. destruct call_task as [Hme Hhb].
  destruct (decide (t.(heap_break) < addr < USER_MMAP_BASE_VADDR)) as [Hb|Hb].
  - pose proof (brk_ok any_panic (mkMst s (Some t)) t A L addr (si_inv _ _ _ _ _ Hs) eq_refl call_space Hhb Hb (Hclear Hb)
      (no_tables_any _ _)) as Hw.
    apply (wp_returns _ _ _ _ _ _ Hw) in Hrun as (j&L'&Hj&Hi'&He&Hrd&Hres). pose proof (brk_span addr Hb) as Hsp.
    exists (a_map as_ (mmap_align_up t.(heap_break)) j true false zeroes a).
    assert (Hk : 0 <= t'.(mmap_end) /\ 0 <= t'.(heap_break) /\ t'.(mm_as) = as_).
    { destruct Hres as [(_&_&Hc1)|(_&Hc1&_)]; rewrite Hc1 in Hc'; injection Hc' as <-; cbn; split_and!; auto; lia. }
    split; [|eapply map_good; eauto; apply (span_le _ _ Hsp); lia].
    destruct Hres as [(->&->&_)|(->&_)]; by constructor.
  - exists a. unfold sys_brk, gets, mbind, ST_bind in Hrun. cbn [q_cur] in Hrun.
    destruct ((addr =? 0) || (addr <=? t.(heap_break)) || (USER_MMAP_BASE_VADDR <=? addr)) eqn:E; [|exfalso; lia].
    injection Hrun as <- <-. cbn in Hc'. injection Hc' as <-. split; [by constructor|apply still_good].
Qed.

(** ** The pages after a move *)
Section moved.
Variables (old new flags on nn base : Z) (w ex : bool) (L' : list Z) (q' : mst).
Abbreviation q := (mkMst s (Some t)).
Hypotheses (Hso : span old on) (Hon : 0 < on) (Hwin : window base nn) (Hap : apart old on nn base).
Abbreviation am := (a_move as_ old on base nn w ex a).

Lemma arrived_settled j : 0 <= j < nn -> arrived q t old on w ex q' base j ->
  settled q'.(q_vm) as_ (base + j * PAGE_SIZE) (am as_ (pn base + j)).
Proof using Hsh Hti Hso.
  intros Hj (Hr&e&Hv&Hus&Hm&Hd). unfold settled, page_at, rights in *. rewrite Hv in *. injection Hr as Hw Hx.
  split; [|by intros e1 [= <-]]. unfold a_move. rewrite decide_True by (unfold range, pn; lia).
  replace (pn base + j - pn base) with j by lia. destruct (Z.ltb_spec j on) as [Hlt|Hge].
  - destruct (Hd 0 ltac:(unfold PAGE_SIZE; lia)) as (eo&Hvo&_). destruct (span_user _ _ Hso j ltac:(lia)) as [Hu _].
    destruct (presents_some _ eo Hu Hvo) as (p&Hap'&_&_&Hpd). rewrite (span_key _ _ Hso) in Hap' by lia.
    fold (pn old) in Hap'. rewrite Hap'. cbn [fmap option_fmap option_map]. split_and!; [by rewrite Hw|by rewrite Hx|].
    intros o Ho. cbn [pg_data]. destruct (Hd o Ho) as (eo'&Hvo'&->). rewrite Hvo in Hvo'. injection Hvo' as <-. by apply Hpd.
  - split_and!; [by rewrite Hw|by rewrite Hx|]. intros o Ho. cbn [pg_data]. by apply Hd.
Qed.

Lemma move_good t' : keeps t t' -> pt_inv q'.(q_vm) A L' ->
  relocated q t A L old new flags on nn w ex base L' q' ->
  good kernel_pml4 K (mkSys q'.(q_vm) (<[i := t']> T))
    (if bool_decide (USER_MMAP_BASE_VADDR <= old /\ old + on * PAGE_SIZE <= USER_MMAP_TOP_VADDR)
     then a_unmap as_ old on am else am).
Proof using Hs Hsh Hti Hso Hwin Hap.
  intros Hk Hi' (_&He&_&Hres). destruct (Hres Hap) as [Harr Hold]. clear Hres. pose proof Hwin as (Hsp&_).
  destruct call_task as [Ht1 Ht2]. destruct Hk as (Hk1&Hk2&Hk3).
  destruct Hold as [(Hwo&Hem)|(Hnw&He')].
  - rewrite bool_decide_eq_true_2 by (by destruct Hwo).
    eapply (effect_good _ _ (fun s v => range as_ base nn s v \/ range as_ old on s v)); eauto using spaces_insert.
    + apply call_after; [done|by rewrite Hk3].
    + intros as' v. destruct (range_dec as_ base nn as' v), (range_dec as_ old on as' v); tauto.
    + intros as' va Ha Hu Hr. unfold a_unmap. case_decide as Hd.
      * destruct (range_page _ _ _ _ _ Hso Hd) as (->&j&Hj&Hkk&_). rewrite (settled_key _ _ _ _ _ Hkk).
        by apply settled_none, Hem.
      * destruct Hr as [Hr|]; [|done]. destruct (range_page _ _ _ _ _ Hsp Hr) as (->&j&Hj&Hkk&Hje).
        rewrite (settled_key _ _ _ _ _ Hkk). replace (key 4 va) with (pn base + j) by lia. by apply arrived_settled; auto.
    + intros as' v Hn. unfold a_unmap, a_move. by rewrite !decide_False by tauto.
  - rewrite bool_decide_eq_false_2 by (intros [? ?]; by apply Hnw). eapply range_good; eauto.
    + by left.
    + intros j Hj. by apply arrived_settled; auto.
    + intros as' v Hn. unfold a_move. by rewrite decide_False.
Qed.
End moved.

Lemma mremap_refines old old_len new_len flags new r q' t' :
  args_ok (Mremap old old_len new_len flags new) s A t ->
  sys_mremap old old_len new_len flags new (mkMst s (Some t)) = Ok (r, q') -> q'.(q_cur) = Some t' ->
  exists a', spec t (Mremap old old_len new_len flags new) (Value r) a a' /\
    good kernel_pml4 K (mkSys q'.(q_vm) (<[i := t']> T)) a'.
Proof using Hs Hsh Hti.
  intros (Hdis&Hold&[Hol Hol']&Hhi&Hnl&Hnew) Hrun Hc'. destruct call_task as [Hme Hhb].
  pose proof (mremap_ok any_panic (mkMst s (Some t)) t A L old old_len new_len flags new (si_inv _ _ _ _ _ Hs) eq_refl
    call_space Hme call_no_huge Hold Hol Hhi Hnl Hnew Hol' (no_tables_any _ _)) as Hw.
  apply (wp_returns _ _ _ _ _ _ Hw) in Hrun as (w&ex&L'&t1&Hi'&Hc1&Hk&Hres). cbv zeta in *.
  rewrite Hc1 in Hc'. injection Hc' as <-. fold (npages old_len) in *. fold (npages new_len) in *.
  destruct Hres as [(err&->&Herr&[He|(Hfx&->&Hwin&Hem&He)])|((Hso&Hon&Hrt)&Hres)].
  { exists a. split; [by constructor|]. by eapply same_good; eauto. }
  { exists (a_unmap as_ new (npages new_len) a). pose proof Hwin as (Hsp&_). split; [|by eapply unmap_good; eauto].
    constructor. by apply fixed_flag in Hfx. }
  assert (Hp : exists p, a as_ (pn old) = Some p /\ pg_write p = w /\ pg_exec p = ex).
  { unfold rights in Hrt. cbn [q_vm] in Hrt. destruct (view s.(v_mem) as_ old) as [e|] eqn:Hv; [|done]. injection Hrt as Hw1 Hx1.
    destruct (span_user _ _ Hso 0 ltac:(lia)) as [Hu _]. pose proof (span_key _ _ Hso 0 ltac:(lia)) as Hkey.
    rewrite Z.mul_0_l, Z.add_0_r in Hu, Hkey. destruct (presents_some _ e Hu Hv) as (p&Hap&Hpw&Hpx&_).
    exists p. rewrite Hkey, Z.add_0_r in Hap. unfold pn. split_and!; [done|by rewrite Hpw|by rewrite Hpx]. }
  destruct Hp as (p&Hap&<-&<-).
  destruct Hres as [(->&[(Heq&->)|[(Hlt&Hem&He)|(Hlt&Hwin&Hem&He&Hrd)]])|(Hlt&Hrel)].
  - cbn in Hc1. injection Hc1 as <-. exists a. split; [by constructor|apply still_good].
  - eexists. split; [by apply spec_mremap_shrink|]. eapply unmap_good; eauto.
    pose proof Hso as [Hal Hlo _ Hh]. pose proof (proj1 (size_pages new_len ltac:(unfold PAGE_SIZE in *; lia))) as Hnn.
    fold (npages new_len) in Hnn. constructor; [by apply (span_page (npages old_len))|..]; unfold PAGE_SIZE in *; lia.
  - pose proof Hwin as (Hsp&_). eexists. split; [apply (spec_mremap_grow t old old_len new_len flags new p); [lia|by apply empty_free|done]|].
    eapply map_good; eauto.
  - assert (Hapart : apart old (npages old_len) (npages new_len) r).
    { pose proof Hrel as (_&_&Hf&_). destruct (is_fixed _ _) eqn:Ef; [|by destruct Hf]. subst r. intros j k Hj Hkk Heq.
      apply (Hdis (fixed_flag _ _ Ef) (pn old + j)). unfold pn. lia. }
    pose proof Hrel as (Hwin&_&Hf&_). eexists. split; [|by eapply (move_good old new flags); eauto].
    constructor; auto.
    + intros v [Hv1 Hv2]. apply (Hapart (v - pn old) (v - pn r)); unfold pn in *; lia.
    + intros Hfl. destruct (is_fixed _ _) eqn:Ef in Hf; [apply fixed_flag in Ef; congruence|]. destruct Hf as [Hem _].
      destruct Hwin as (Hsp&_). by apply empty_free.
Qed.

(** ** User stores *)
Lemma call_aligned : aligned as_ /\ page_down as_ = as_.
Proof using Hs Hti.
  assert (Hal : aligned as_).
  { apply (pi_tab _ _ _ (si_inv _ _ _ _ _ Hs)). exists as_, 0, 0%nat. split_and!; [apply call_space|by apply user_low|lia|done]. }
  split; [done|]. apply in_frame_page_down; [done|]. unfold in_frame, PAGE_SIZE. lia.
Qed.

Lemma mmu_view m as' va : huge m as' va = None -> mmu_writable m as' va = true ->
  exists e, view m as' va = Some e /\ x86_pte_writable e = true.
Proof using.
  unfold mmu_writable, mmu_levels, huge, view, leaf. cbn [tab]. unfold child. cbn [idx Nat.eqb andb negb]. rewrite !andb_true_r.
  destruct (has (m (slot as' (PML4_IDX va))) PTE_PRESENT); [|done]. cbn [negb].
  set (t1 := Z.land (m (slot as' _)) PTE_ADDR_MASK).
  destruct (has (m (slot t1 (PDP_IDX va))) PTE_PRESENT); [|done]. cbn [negb].
  set (t2 := Z.land (m (slot t1 _)) PTE_ADDR_MASK). cbn [andb].
  destruct (has (m (slot t2 (PD_IDX va))) PTE_HUGE); [done|]. intros _.
  destruct (has (m (slot t2 (PD_IDX va))) PTE_PRESENT); [|done]. cbn [negb andb].
  set (x := slot (Z.land (m (slot t2 (PD_IDX va))) PTE_ADDR_MASK) (PT_IDX va)).
  destruct (has (m x) PTE_PRESENT); [|done]. cbn [negb forallb]. rewrite !andb_true_iff. intros (_&_&_&[_ Hw]&_). by exists (m x).
Qed.

Lemma store_refines va v : 0 <= va < 2 ^ 47 -> mmu_writable s.(v_mem) as_ va = true ->
  exists a', spec t (Write va v) (Value 0) a a' /\
    good kernel_pml4 K (mkSys (set_leaf s (vmm_get_phys s.(v_mem) as_ va) v) T) a'.
Proof using Hs Hsh Hti.
  intros Hva Hw. pose proof (user_low va Hva) as Hu. pose proof (si_inv _ _ _ _ _ Hs) as Hi.
  pose proof (si_small _ _ _ _ _ Hs as_ va call_space Hu) as Hhg. destruct (mmu_view _ _ _ Hhg Hw) as (e&Hv&He).
  destruct (si_plain _ _ _ _ _ Hs as_ va e call_space Hu Hv) as [Hus Hman].
  rewrite get_phys_eq, Hhg, Hv. set (o0 := va mod PAGE_SIZE).
  assert (Ho0 : 0 <= o0 < PAGE_SIZE) by (apply Z.mod_pos_bound; done).
  assert (Hone : pmm_get_ref s.(v_pmm) (x86_pte_phys e) <= 1).
  { destruct (view_leaf _ _ _ _ Hv) as (x&Hl&<-). apply Z.eq_le_incl, (ci_write _ _ (pi_cow _ _ _ Hi) x); [|done].
    apply (pi_leaf _ _ _ Hi). exists as_, va. split_and!; auto using call_space. }
  assert (Hout : forall b, ~ in_frame (x86_pte_phys e) b -> mwrite s.(v_mem) (x86_pte_phys e + o0) v b = s.(v_mem) b).
  { intros b Hb. apply mwrite_ne. intros ->. apply Hb. unfold in_frame. lia. }
  destruct (fill_mapped_inv s A L as_ va e _ Hi call_space Hu Hv Hout) as [Hi' _].
  pose proof (fill_mapped_effect s A L as_ va e _ Hi call_space Hu Hv Hman Hone Hout) as Hef.
  destruct (presents_some va e Hu Hv) as (p&Hap&Hpw&Hpx&Hpd). rewrite key_page in Hap by lia. fold (pn va) in Hap.
  exists (a_write as_ va v a). split; [apply (spec_write t va v p); [done|by rewrite Hpw, He]|].
  eapply effect_good; eauto; [apply Hs|intros as' v'; unfold at_page; destruct (decide (as' = as_ /\ v' = key 4 va)); auto| |].
  - intros as' va' Ha Hu' [-> Hk]. rewrite (settled_key _ _ _ _ _ Hk), Hk, key_page by lia. fold (pn va).
    unfold a_write. rewrite decide_True, Hap by done. cbn [fmap option_fmap option_map]. unfold settled, page_at.
    cbn [v_mem v_pmm with_mem]. rewrite (fill_mapped_view s A L as_ va e _ Hi call_space Hu Hv Hout) by (auto using call_space).
    rewrite Hv. split; [|by intros e1 [= <-]]. split_and!; [by rewrite Hpw|by rewrite Hpx|]. intros o Ho. cbn [pg_data]. fold o0.
    destruct (Z.eqb_spec o o0) as [->|Hne]; [apply mwrite_eq|].
    cbn [v_mem set_leaf with_mem]. rewrite mwrite_ne by lia. by apply Hpd.
  - intros as' v' HnD. unfold a_write. rewrite decide_False; [done|]. intros [-> ->]. apply HnD. split; [done|].
    by rewrite key_page by lia.
Qed.

(** A fault at a page, and what it leaves. *)
Lemma fault_good va rc s' : user va -> vm_cow_write_fault s as_ va = (rc, s') ->
  good kernel_pml4 K (mkSys s' T) a /\
  (rc = VM_COW_HANDLED -> exists p, a as_ (key 4 va) = Some p /\ pg_write p = true).
Proof using Hs Hsh Hti.
  intros Hu Hwf. pose proof (si_inv _ _ _ _ _ Hs) as Hi. pose proof (si_small _ _ _ _ _ Hs as_ va call_space Hu) as Hhg.
  assert (Hsm : huge_page s.(v_mem) as_ va = None) by (unfold huge_page; by rewrite Hhg).
  destruct (write_fault_post s A L as_ va Hi call_space Hu Hsm rc s' Hwf) as (L'&Hi'&He&Hres).
  destruct (view s.(v_mem) as_ va) as [e|] eqn:Hv; cycle 1.
  { destruct Hres as [-> ->]. split; [by exists L|done]. }
  destruct Hres as ((e'&Hv'&Hd&Hb&Hm&Hrc)&_). destruct (presents_some va e Hu Hv) as (p&Hap&Hpw&Hpx&Hpd).
  destruct (si_plain _ _ _ _ _ Hs as_ va e call_space Hu Hv) as [Hus Hman].
  split; cycle 1.
  { intros ->. exists p. split; [done|]. rewrite Hpw. destruct Hrc as [(_&Hmw&_)|[? _]]; [|done].
    unfold may_write in Hmw. by apply andb_true_iff in Hmw as [_ ?]. }
  eapply effect_good; eauto; [apply Hs|intros as' v'; unfold at_page; destruct (decide (as' = as_ /\ v' = key 4 va)); auto|].
  intros as' va' Ha Hu' [-> Hk]. rewrite (settled_key _ _ _ _ _ Hk), Hk, Hap. unfold settled, page_at. rewrite Hv'. split.
  - split_and!.
    + cbn. rewrite Hpw. destruct Hrc as [(_&Hmw&Hw&_)|[_ ->]]; [|done]. rewrite Hw.
      unfold may_write in Hmw. by apply andb_true_iff in Hmw as [_ ->].
    + cbn. rewrite Hpx. f_equal. apply Hb; unfold PTE_NX, PTE_WRITABLE, PTE_COW; lia.
    + intros o Ho. cbn. rewrite Hd by done. by apply Hpd.
  - intros e1 [= <-]. split; [|auto]. rewrite <- Hus. apply Hb; unfold PTE_USER, PTE_WRITABLE, PTE_COW; lia.
Qed.

Lemma write_refines cur va v r s' :
  0 <= va < 2 ^ 47 -> user_write cur as_ va v s = Ok (r, s') ->
  exists a', spec t (Write va v) r a a' /\ good kernel_pml4 K (mkSys s' T) a'.
Proof using Hs Hsh Hti.
  intros Hva. pose proof (user_low va Hva) as Hu. unfold user_write, gets, mbind, ST_bind.
  destruct (mmu_writable s.(v_mem) as_ va) eqn:Hw.
  { intros [= <- <-]. by apply store_refines. }
  destruct call_aligned as [_ Hpd]. unfold vmm_page_fault_handler. rewrite Hpd.
  assert (Hquiet : forall f, f <> Retried -> exists a', spec t (Write va v) (Fault f) a a' /\ good kernel_pml4 K (mkSys s T) a').
  { intros f Hf. exists a. split; [by constructor|by exists L]. }
  assert (Hkill : forall c reason, kill_current_task_on_user_fault c USER_WRITE reason <> Retried) by (by intros [] ?).
  destruct (classify_user_fault_reason _ _ _) as [reason|].
  { intros [= <- <-]. by apply Hquiet. }
  change (has USER_WRITE 1) with true. cbn [negb]. unfold write_fault, mbind, ST_bind.
  destruct (vm_cow_write_fault s as_ va) as [rc s1] eqn:Hwf. destruct (fault_good va rc s1 Hu Hwf) as [Hg Hp].
  assert (Hend : forall f, (f = Retried -> rc = VM_COW_HANDLED) -> exists a', spec t (Write va v) (Fault f) a a' /\ good kernel_pml4 K (mkSys s1 T) a').
  { intros f Hf. exists a. split; [|done]. constructor. intros Hret. rewrite key_page in Hp by lia. auto. }
  destruct (Z.eqb_spec rc VM_COW_HANDLED); [intros [= <- <-]; by apply Hend|].
  destruct (Z.eqb_spec rc VM_COW_NOMEM); intros [= <- <-]; apply Hend; intros Hret; by apply Hkill in Hret.
Qed.
End call.

(** ** Spaces that come and go *)
Lemma grows_page k hs A s' as_ va : pt_inv s A L -> grows k hs A s s' -> as_ ∈ A -> user va ->
  view s'.(v_mem) as_ va = view s.(v_mem) as_ va /\ page_eq (page_at s' as_ va) (page_at s as_ va).
Proof using.
  intros Hi Hg Ha Hu. assert (Hv : view s'.(v_mem) as_ va = view s.(v_mem) as_ va).
  { unfold view. rewrite (gr_leaf _ _ _ _ _ Hg) by auto. destruct (leaf s.(v_mem) as_ va) eqn:E; [|done].
    by rewrite (gr_entry _ _ _ _ _ Hg as_ va). }
  split; [done|]. unfold page_at. rewrite Hv. destruct (view s.(v_mem) as_ va) as [e|] eqn:E; [|done].
  split_and!; auto. intros o Ho. cbn.
  destruct (frame_plain s A L Hi as_ va e (x86_pte_phys e + o) Ha Hu E) as (_&Hf&Ht); [unfold in_frame; lia|].
  by apply (gr_mem _ _ _ _ _ Hg).
Qed.

Lemma spawn_refines t me hb r s' :
  0 <= me -> 0 <= hb -> arch_vm_create_user_address_space kernel_pml4 s = Ok (r, s') ->
  exists a', spec t (Spawn me hb) (Value r) a a' /\
    good kernel_pml4 K (mkSys s' (if r =? 0 then T else mkMm r me hb :: T)) a'.
Proof using Hs Hsh.
  intros Hme Hhb Hrun. pose proof (si_inv _ _ _ _ _ Hs) as Hi.
  pose proof (create_space_ok kernel_pml4 s (spaces T) L Hi) as Hw.
  apply (wp_returns _ _ _ _ _ _ Hw) in Hrun as [(->&Hi'&Hg&_)|(Hr&Hnew&Hi'&Hg&Hst&Hno)].
  { exists a. split; [constructor|]. eapply silent_good; eauto; [apply Hs|by apply grows_effect]. }
  apply Z.eqb_neq in Hr as Hb. rewrite Hb. exists (a_clear r a). split; [by constructor|].
  exists L. cbn [y_vm y_tasks]. destruct Hs as [_ Hka Hks Hnd Hpl Hsm Htk]. split; [constructor|].
  - exact Hi'.
  - done.
  - intros f Hf. rewrite Hst by done. auto.
  - by constructor.
  - intros as_ va e Ha Hu Hv. apply spaces_cons in Ha as [->|Ha]; [by rewrite (proj1 (Hno va Hu)) in Hv|].
    rewrite (proj1 (grows_page _ _ _ _ _ _ Hi Hg Ha Hu)) in Hv. destruct (Hpl as_ va e Ha Hu Hv) as [? Hm]. split; [done|].
    unfold managed. by rewrite (page_of_range s.(v_pmm)) by apply Hg.
  - intros as_ va Ha Hu. apply spaces_cons in Ha as [->|Ha]; [by apply Hno|]. rewrite (gr_huge _ _ _ _ _ Hg) by auto. auto.
  - intros u [->|Hu]%elem_of_cons; [done|auto].
  - intros as_ va Ha Hu. apply spaces_cons in Ha as [->|Ha]; unfold a_clear.
    + rewrite decide_True by done. unfold page_at. by rewrite (proj1 (Hno va Hu)).
    + rewrite decide_False by (by intros ->). transitivity (page_at s as_ va); [by apply (grows_page _ _ _ _ _ _ Hi Hg)|auto].
Qed.

Lemma shared_entry_keeps p e :
  x86_pte_writable (shared_entry p e) || x86_pte_cow (shared_entry p e) = x86_pte_writable e || x86_pte_cow e /\
  has (shared_entry p e) PTE_NX = has e PTE_NX /\ has (shared_entry p e) PTE_USER = has e PTE_USER.
Proof using.
  unfold shared_entry. destruct (_ && _) eqn:E; [|done]. apply andb_true_iff in E as [_ Hw]. rewrite Hw.
  rewrite (mkcow_cow (ArchPteLaws := x86_pte_laws) e : x86_pte_cow (x86_pte_mkcow e) = true), orb_true_r.
  unfold x86_pte_mkcow. rewrite !has_testbit, !testbit_set, !testbit_clr by done. split_and!; [done|..].
  - by rewrite andb_true_r, orb_false_r.
  - by rewrite andb_true_r, orb_false_r.
Qed.

(** A page of the parent or the child, from the page of the parent before. *)
Lemma shared_page par r L' s' as_ va :
  cloned s (spaces T) L par r L' s' -> par ∈ spaces T -> user va ->
  view s'.(v_mem) as_ va = shared_entry s.(v_pmm) <$> view s.(v_mem) par va ->
  settled s' as_ va (page_at s par va).
Proof using Hs.
  intros Hc Hpar Hu Hv. unfold settled, page_at. rewrite Hv. destruct (view s.(v_mem) par va) as [e|] eqn:E; [|done].
  cbn [fmap option_fmap option_map]. destruct (shared_entry_keeps s.(v_pmm) e) as (Hw&Hx&Hus).
  destruct (shared_entry_bits s.(v_pmm) e) as [Hph _]. destruct (si_plain _ _ _ _ _ Hs par va e Hpar Hu E) as [Hus0 Hman]. split.
  - split_and!; [done|cbn; by rewrite Hx|]. intros o Ho. cbn. rewrite Hph.
    apply (cl_data _ _ _ _ _ _ _ Hc par va e); auto. unfold in_frame. lia.
  - intros e1 [= <-]. by rewrite Hus, Hph, (cl_managed _ _ _ _ _ _ _ Hc).
Qed.

Lemma fork_clones t cr3 :
  t ∈ T -> fork_room s (spaces T) t.(mm_as) ->
  wp nopanic (vmm_copy_pml4 cr3 t.(mm_as)) (clone_post cr3 t.(mm_as) (spaces T) L s) s.
Proof using Hs.
  intros Ht [Hrefs Hroom]. pose proof (si_inv _ _ _ _ _ Hs) as Hi.
  apply copy_pml4_clones; [done|apply list_elem_of_fmap; by exists t|].
  constructor; [|intros va e Hu; unfold huge_page; rewrite (si_small _ _ _ _ _ Hs); [done|apply list_elem_of_fmap; by exists t|done]|done].
  intros x Hx. destruct (proj1 (pi_leaf _ _ _ Hi x) Hx) as (as_&va&Ha&Hu&Hl&_). apply (Hrefs as_ va); auto.
  unfold view. by rewrite Hl.
Qed.

Lemma fork_refines t cr3 r s' :
  t ∈ T -> fork_room s (spaces T) t.(mm_as) -> vmm_copy_pml4 cr3 t.(mm_as) s = Ok (r, s') ->
  exists a', spec t (Fork cr3) (Value r) a a' /\
    good kernel_pml4 K (mkSys s' (if r =? 0 then T else mkMm r t.(mmap_end) t.(heap_break) :: T)) a'.
Proof using Hs Hsh.
  intros Ht Hroom Hrun. pose proof (si_inv _ _ _ _ _ Hs) as Hi. pose proof (fork_clones t cr3 Ht Hroom) as Hw.
  set (par := t.(mm_as)) in *. assert (Hpar : par ∈ spaces T) by (apply list_elem_of_fmap; by exists t).
  apply (wp_returns _ _ _ _ _ _ Hw) in Hrun as [(->&_&Hi'&Hg)|(Hr&(L'&Hc)&_)].
  { exists a. split; [constructor|]. eapply silent_good; eauto; [apply Hs|by apply grows_effect]. }
  apply Z.eqb_neq in Hr as Hb. rewrite Hb. exists (a_fork par r a). split; [by constructor|].
  exists L'. cbn [y_vm y_tasks]. pose proof (cl_new _ _ _ _ _ _ _ Hc) as Hnew.
  assert (Hset : forall as_ va, as_ = r \/ as_ ∈ spaces T -> user va -> settled s' as_ va (a_fork par r a as_ (key 4 va))).
  { intros as_ va Ha Hu. unfold a_fork. destruct (cl_view _ _ _ _ _ _ _ Hc va Hu) as [Hvr Hvp].
    assert (Hpg : forall as', as' = r \/ as' = par -> settled s' as' va (a par (key 4 va))).
    { intros as' Has'. destruct (shared_page par r L' s' as' va Hc Hpar Hu) as [H1 H2]; [by destruct Has' as [->| ->]|].
      split; [|done]. transitivity (page_at s par va); auto. }
    case_decide as Hd; [auto|]. destruct Ha as [|Ha]; [done|]. destruct (decide (as_ = par)) as [->|Hne]; [auto|].
    destruct (cl_other _ _ _ _ _ _ _ Hc as_ va Ha Hu) as [Ho _]. specialize (Ho Hne). split.
    - transitivity (page_at s as_ va); [|auto]. unfold page_at. rewrite Ho. destruct (view s.(v_mem) as_ va) as [e|] eqn:E; [|done].
      split_and!; auto. intros o Ho'. cbn. apply (cl_data _ _ _ _ _ _ _ Hc as_ va e); auto. unfold in_frame. lia.
    - intros e He. rewrite Ho in He. rewrite (cl_managed _ _ _ _ _ _ _ Hc). by apply (si_plain _ _ _ _ _ Hs as_ va). }
  split; [constructor|].
  - apply Hc.
  - apply Hs.
  - intros f Hf. transitivity (stray s (spaces T) L f); [by apply (cl_stray _ _ _ _ _ _ _ Hc)|by apply (si_stray _ _ _ _ _ Hs)].
  - constructor; [done|apply Hs].
  - intros as_ va e Ha Hu. apply spaces_cons in Ha. by apply Hset.
  - intros as_ va Ha Hu. apply spaces_cons in Ha as [->|Ha].
    + destruct (cl_flat _ _ _ _ _ _ _ Hc va Hu) as [|Hf]; [done|]. rewrite Hf. unfold huge_page. by rewrite (si_small _ _ _ _ _ Hs).
    + destruct (cl_other _ _ _ _ _ _ _ Hc as_ va Ha Hu) as [_ ->]. by apply (si_small _ _ _ _ _ Hs).
  - intros u [->|Hu]%elem_of_cons; [by apply (si_tasks _ _ _ _ _ Hs t)|by apply (si_tasks _ _ _ _ _ Hs)].
  - intros as_ va Ha Hu. apply spaces_cons in Ha. by apply Hset.
Qed.

Lemma exit_destroys t :
  t ∈ T -> wp nopanic (vmm_free_user_pml4 kernel_pml4 t.(mm_as)) (fun _ s' => exists L', destroyed s (spaces T) L t.(mm_as) L' s') s.
Proof using Hs.
  intros Ht. pose proof (si_inv _ _ _ _ _ Hs) as Hi. set (as_ := t.(mm_as)) in *.
  assert (Has : as_ ∈ spaces T) by (apply list_elem_of_fmap; by exists t). apply free_pml4_frees; auto.
  - intros He. destruct (si_kernel _ _ _ _ _ Hs) as [Hkk Hka]. apply (si_stray _ _ _ _ _ Hs _ Hka) in Hkk as (_&Hnt&_). apply Hnt.
    rewrite <- He. exists as_, 0, 0%nat. split_and!; [done|by apply user_low|lia|done].
  - constructor; [intros va e Hu Hv; by apply (si_plain _ _ _ _ _ Hs as_ va)|].
    intros va Hu. unfold huge_page. by rewrite (si_small _ _ _ _ _ Hs).
Qed.

Lemma exit_refines t s' :
  t ∈ T -> vmm_free_user_pml4 kernel_pml4 t.(mm_as) s = Ok (tt, s') ->
  good kernel_pml4 K (mkSys s' (filter (fun u => u.(mm_as) <> t.(mm_as)) T)) a.
Proof using Hs Hsh.
  intros Ht Hrun. pose proof (exit_destroys t Ht) as Hw. set (as_ := t.(mm_as)) in *.
  assert (Has : as_ ∈ spaces T) by (apply list_elem_of_fmap; by exists t).
  apply (wp_returns _ _ _ _ _ _ Hw) in Hrun as (L'&Hd). exists L'. cbn [y_vm y_tasks]. rewrite spaces_filter.
  destruct Hs as [_ Hka Hks Hnd Hpl Hsm Htk]. pose proof (de_mem _ _ _ _ _ _ Hd) as Hm. split; [constructor|]; rewrite ?spaces_filter.
  - apply Hd.
  - done.
  - intros f Hf. rewrite (de_stray _ _ _ _ _ _ Hd f Hf). auto.
  - by apply NoDup_filter.
  - intros as' va e [_ Ha]%list_elem_of_filter Hu. rewrite Hm, (de_managed _ _ _ _ _ _ Hd). by apply Hpl.
  - intros as' va [_ Ha]%list_elem_of_filter Hu. rewrite Hm. auto.
  - intros u [_ Hu]%list_elem_of_filter. auto.
  - intros as' va [_ Ha]%list_elem_of_filter Hu. unfold page_at. rewrite Hm. by apply Hsh.
Qed.
End refine.

(** ** Runs *)
Definition event : Type := mm_task * request * reply.

Section runs.
Context `{FileMapLaws}.
Variables (kernel_pml4 : Z) (K : list Z).

(** The kernel serves one request after the other. *)
Inductive vrun : vsys -> list event -> vsys -> Prop :=
| vrun_nil y : vrun y [] y
| vrun_cons y t q r y1 tr y' : vstep kernel_pml4 t y q r y1 -> vrun y1 tr y' -> vrun y ((t, q, r) :: tr) y'.

(** The abstract machine does. *)
Inductive arun : amem -> list event -> amem -> Prop :=
| arun_nil a : arun a [] a
| arun_cons a t q r a1 tr a' : spec t q r a a1 -> arun a1 tr a' -> arun a ((t, q, r) :: tr) a'.

Lemma step_refines t y q r y' a :
  good kernel_pml4 K y a -> vstep kernel_pml4 t y q r y' -> exists a', spec t q r a a' /\ good kernel_pml4 K y' a'.
Proof using.
  intros (L&Hs&Hsh) Hst. destruct Hst as [s T me hb r s' [Hme Hhb] Hrun|s T cr3 r s' Ht Hargs Hrun|s T s' Ht Hrun|
    s T i q c r q' t' Hti Hargs Hc Hrun Hcur|s T cur va v r s' Ht Hargs Hrun]; cbn [y_vm y_tasks] in *.
  - by apply (spawn_refines kernel_pml4 K s T L a Hs Hsh t me hb r s').
  - by apply (fork_refines kernel_pml4 K s T L a Hs Hsh t cr3 r s').
  - exists a. split; [constructor|]. by apply (exit_refines kernel_pml4 K s T L a Hs Hsh t s').
  - destruct q; try done; injection Hc as <-; cbn [args_ok] in Hargs.
    + destruct Hargs. by eapply mmap_refines.
    + destruct Hargs. by eapply munmap_refines.
    + destruct Hargs as (?&?&?). by eapply mprotect_refines.
    + by eapply mremap_refines.
    + by eapply brk_refines.
  - apply list_elem_of_lookup in Ht as [i Hti]. by eapply write_refines.
Qed.

Lemma run_good y tr y' a : good kernel_pml4 K y a -> vrun y tr y' -> exists a', arun a tr a' /\ good kernel_pml4 K y' a'.
Proof using.
  intros Hg Hr. revert a Hg. induction Hr as [y|y t q r y1 tr y' Hst Hr IH]; intros a Hg; [exists a; split; [constructor|done]|].
  destruct (step_refines t y q r y1 a Hg Hst) as (a1&Hsp&Hg1). destruct (IH a1 Hg1) as (a'&Har&Hg').
  exists a'. split; [by apply (arun_cons a t q r a1)|done].
Qed.

(** Single steps that succeed. *)
Lemma spawn_good s T a me hb r s' :
  good kernel_pml4 K (mkSys s T) a -> 0 <= me -> 0 <= hb ->
  arch_vm_create_user_address_space kernel_pml4 s = Ok (r, s') -> (r =? 0) = false ->
  good kernel_pml4 K (mkSys s' (mkMm r me hb :: T)) (a_clear r a).
Proof using All.
  intros (L&Hs&Hsh) Hme Hhb Hrun Hr.
  destruct (spawn_refines kernel_pml4 K s T L a Hs Hsh (mkMm 0 0 0) me hb r s' Hme Hhb Hrun) as (a'&Hsp&Hg).
  rewrite Hr in Hg. apply Z.eqb_neq in Hr. by inversion Hsp; subst.
Qed.
End runs.

(** * Requests return

    [serve] is the code behind a request; with enough free pages it comes
    back, whatever the request and the state of the processes. *)
(** Four pages for every page that is mapped: the page and its tables. *)
Definition pages_needed (t : mm_task) (q : request) : Z :=
  match q with
  | Mmap _ length _ _ _ _ => 4 * npages length
  | Mremap _ _ new_len _ _ => 4 * npages new_len
  | Brk addr => 4 * ((mmap_align_up addr - mmap_align_up t.(heap_break)) / PAGE_SIZE)
  | _ => 0
  end.

Section serve.
Context `{FileMapLaws}.
Variables (kernel_pml4 : Z) (K : list Z).

Definition serve (cur : fault_task) (t : mm_task) (q : request) : ST mst reply :=
  match q with
  | Spawn _ _ => r ← vm (arch_vm_create_user_address_space kernel_pml4); mret (Value r)
  | Fork cr3 => r ← vm (vmm_copy_pml4 cr3 t.(mm_as)); mret (Value r)
  | Exit => vm (vmm_free_user_pml4 kernel_pml4 t.(mm_as)) ;; mret (Value 0)
  | Write va v => vm (user_write cur t.(mm_as) va v)
  | Mmap addr length prot flags fd offset => r ← sys_mmap addr length prot flags fd offset; mret (Value r)
  | Munmap addr length => r ← sys_munmap addr length; mret (Value r)
  | Mprotect addr length prot => r ← sys_mprotect addr length prot; mret (Value r)
  | Mremap old_addr old_len new_len flags new_addr => r ← sys_mremap old_addr old_len new_len flags new_addr; mret (Value r)
  | Brk addr => r ← sys_brk addr; mret (Value r)
  end.

(** Only [Spawn] needs no task. *)
Definition caller (T : list mm_task) (t : mm_task) (q : request) : Prop :=
  match q with Spawn _ _ => True | _ => t ∈ T end.

Lemma wp_true {S A} (m : ST S A) Q s : wp nopanic m Q s -> exists a s', m s = Ok (a, s').
Proof using. intros Hw. destruct (wp_run _ _ _ Hw) as (r&s'&He&_). eauto. Qed.

Lemma user_write_returns cur as_ va v s : exists r s', user_write cur as_ va v s = Ok (r, s').
Proof using.
  unfold user_write, gets, mbind, ST_bind. destruct (mmu_writable s.(v_mem) as_ va); [eauto|].
  unfold vmm_page_fault_handler, write_fault. destruct (classify_user_fault_reason _ _ _); [eauto|].
  change (has USER_WRITE 1) with true. unfold mbind, ST_bind. cbn [negb].
  destruct (vm_cow_write_fault s (page_down as_) va) as [rc s1]. repeat case_match; simplify_eq; eauto.
Qed.

Section calls.
Variables (s : vmst) (T : list mm_task) (L : list Z) (i : nat) (t : mm_task).
Hypotheses (Hs : sys_inv kernel_pml4 K s T L) (Hti : T !! i = Some t).

(** The task goes on after the call. *)
Definition call_returns (c : ST mst Z) : Prop :=
  exists r q' t', c (mkMst s (Some t)) = Ok (r, q') /\ q'.(q_cur) = Some t'.

Lemma wp_call c Q : wp nopanic c Q (mkMst s (Some t)) -> (forall r q', Q r q' -> is_Some q'.(q_cur)) -> call_returns c.
Proof using.
  intros Hw HQ. destruct (wp_run _ _ _ Hw) as (r&q'&Hr&Hq). destruct (HQ r q' Hq) as [t' Ht]. by exists r, q', t'.
Qed.

Lemma call_total q c :
  sys_call q = Some c -> args_ok q s (spaces T) t -> pages_needed t q <= avail s.(v_pmm) -> call_returns c.
Proof using All.
  intros Hc Hargs Hav. pose proof (si_inv _ _ _ _ _ Hs) as Hi. pose proof (call_space T i t Hti) as Hsp.
  destruct (call_task kernel_pml4 K s T L Hs i t Hti) as [Hme Hhb].
  pose proof (call_no_huge kernel_pml4 K s T L Hs i t Hti) as Hnh.
  destruct q; try done; injection Hc as <-; cbn [args_ok pages_needed] in *.
  - destruct Hargs. eapply wp_call; [apply (mmap_ok _ t (spaces T) L); auto; by left|].
    intros r q' (L'&t'&_&Hc&_). by exists t'.
  - destruct Hargs. eapply wp_call; [by apply (munmap_ok _ t (spaces T) L)|]. intros r q' [(_&_&->)|(_&_&Hc&_)]; [by exists t|by exists t].
  - destruct Hargs as (?&?&?). eapply wp_call; [by apply (mprotect_ok _ t (spaces T) L)|].
    intros r q' [(->&_)|(_&Hc&_)]; by exists t.
  - destruct Hargs as (_&?&[]&?&?&?). eapply wp_call; [apply (mremap_ok _ _ t (spaces T) L); auto; by left|].
    intros r q' (w&ex&L'&t'&_&Hc&_). by exists t'.
  - destruct (decide (t.(heap_break) < addr < USER_MMAP_BASE_VADDR)) as [Hb|Hb].
    + eapply wp_call; [apply (brk_ok _ _ t (spaces T) L); auto; by left|].
      intros r q' (j&L'&_&_&_&_&[(_&_&Hc)|(_&Hc&_)]); eauto.
    + exists t.(heap_break), (mkMst s (Some t)), t. split; [|done]. unfold sys_brk, gets, mbind, ST_bind. cbn [q_cur].
      destruct ((addr =? 0) || (addr <=? t.(heap_break)) || (USER_MMAP_BASE_VADDR <=? addr)) eqn:E; [done|exfalso; lia].
Qed.
End calls.

(** Every request is answered, by a step. *)
Lemma serve_total s T a cur t q :
  good kernel_pml4 K (mkSys s T) a -> caller T t q -> args_ok q s (spaces T) t -> pages_needed t q <= avail s.(v_pmm) ->
  exists r q' T', serve cur t q (mkMst s (Some t)) = Ok (r, q') /\ vstep kernel_pml4 t (mkSys s T) q r (mkSys q'.(q_vm) T').
Proof using All.
  intros (L&Hs&Hsh) Ht Hargs Hav. cbn [y_vm y_tasks] in *.
  assert (Hcall : forall c, sys_call q = Some c -> t ∈ T -> exists r q' T',
    (r ← c; mret (Value r)) (mkMst s (Some t)) = Ok (r, q') /\ vstep kernel_pml4 t (mkSys s T) q r (mkSys q'.(q_vm) T')).
  { intros c Hc Hin. apply list_elem_of_lookup in Hin as [i Hti].
    destruct (call_total s T L i t Hs Hti q c Hc Hargs Hav) as (r&q'&t'&Hr&Hc'). exists (Value r), q', (<[i := t']> T).
    split; [unfold mbind, ST_bind; by rewrite Hr|]. by eapply step_call. }
  destruct q; cbn [serve caller] in *; try (by apply Hcall); unfold vm, lift, mbind, ST_bind; cbn [q_vm].
  - destruct (wp_true _ _ _ (create_space_ok kernel_pml4 s _ _ (si_inv _ _ _ _ _ Hs))) as (r&s'&Hr). rewrite Hr.
    eexists _, _, _. split; [done|]. by apply step_spawn.
  - destruct (wp_true _ _ _ (fork_clones kernel_pml4 K s T L Hs t cr3 Ht Hargs)) as (r&s'&Hr). rewrite Hr.
    eexists _, _, _. split; [done|]. by apply step_fork.
  - destruct (wp_true _ _ _ (exit_destroys kernel_pml4 K s T L Hs t Ht)) as ([]&s'&Hr). rewrite Hr.
    eexists _, _, _. split; [done|]. by apply step_exit.
  - destruct (user_write_returns cur t.(mm_as) va v s) as (r&s'&Hr). rewrite Hr.
    eexists _, _, _. split; [done|]. by eapply step_write.
Qed.
End serve.
