(* ===== verification/VmStore.v ===== *)
(** * Stores that get through, and stores that do not

    A store to a page the process may write succeeds after at most one
    fault, provided the tables above the page allow writing; the fault
    handler repairs only the leaf, so when a table above refuses, the
    processor faults again for ever. *)
From S2P Require Import Prelude State Pmm Pte VmCow Vmm PtWalk PtInv PtGrow PtMap Mmap PtOps PtSpace PtCopy PtMask PtClone.
From S2P Require Import PtFree PtDestroy PtFault MmapOk MmapCalls MmapTheorems MremapOk VmSpec VmSystem VmRefine.

(** The entries above the leaf are open to user writes. *)
Definition upper_writable (m : memory) (as_ va : Z) : Prop :=
  forall n t, (n <= 2)%nat -> tab m as_ va n = Some t ->
    has (m (slot t (idx n va))) PTE_USER && has (m (slot t (idx n va))) PTE_WRITABLE = true.

Lemma upper_check m as_ va :
  forallb (fun n => match tab m as_ va n with
                    | Some t => has (m (slot t (idx n va))) PTE_USER && has (m (slot t (idx n va))) PTE_WRITABLE
                    | None => true
                    end) [0%nat; 1%nat; 2%nat] = true -> upper_writable m as_ va.
Proof. rewrite forallb_forall. intros Hf n t Hn Ht. specialize (Hf n). rewrite Ht in Hf. apply Hf. cbn. lia. Qed.

Lemma mmu_writable_spec m as_ va e : huge m as_ va = None -> view m as_ va = Some e ->
  mmu_writable m as_ va = true <-> upper_writable m as_ va /\ has e PTE_USER && has e PTE_WRITABLE = true.
Proof.
  unfold mmu_writable, mmu_levels, huge, view, leaf, upper_writable. cbn [tab]. unfold child. cbn [idx Nat.eqb andb negb].
  destruct (has (m (slot as_ (PML4_IDX va))) PTE_PRESENT) eqn:H0; [|done]. cbn [negb andb].
  set (t1 := Z.land (m (slot as_ _)) PTE_ADDR_MASK).
  destruct (has (m (slot t1 (PDP_IDX va))) PTE_PRESENT) eqn:H1; [|done]. cbn [negb andb].
  set (t2 := Z.land (m (slot t1 _)) PTE_ADDR_MASK).
  destruct (has (m (slot t2 (PD_IDX va))) PTE_HUGE) eqn:Hh; [done|]. intros _.
  destruct (has (m (slot t2 (PD_IDX va))) PTE_PRESENT) eqn:H2; [|done]. cbn [negb andb].
  set (x := slot (Z.land (m (slot t2 (PD_IDX va))) PTE_ADDR_MASK) (PT_IDX va)).
  destruct (has (m x) PTE_PRESENT); [|done]. cbn [negb forallb]. intros [= <-]. rewrite !andb_true_iff. split.
  - intros (?&?&?&?&_). split; [|done]. intros [|[|[|n]]] t Hn; [| | |lia]; cbn [tab]; unfold child; cbn [idx Nat.eqb andb negb];
      rewrite ?H0; cbn [andb]; fold t1; rewrite ?H1; cbn [andb]; intros [= <-]; by apply andb_true_iff.
  - intros [Hup [? ?]]. pose proof (Hup 0%nat as_ ltac:(lia) eq_refl) as U0.
    assert (T1 : tab m as_ va 1 = Some t1) by (cbn [tab]; unfold child; cbn [idx Nat.eqb andb negb]; by rewrite H0).
    pose proof (Hup 1%nat t1 ltac:(lia) T1) as U1.
    assert (T2 : tab m as_ va 2 = Some t2) by (change (tab m as_ va 2) with (match tab m as_ va 1 with Some t => child 1 (m (slot t (idx 1 va))) | None => None end); rewrite T1; unfold child; cbn [idx Nat.eqb andb negb]; by rewrite H1).
    pose proof (Hup 2%nat t2 ltac:(lia) T2) as U2. cbn [idx] in *. apply andb_true_iff in U0, U1, U2. tauto.
Qed.

Section store.
Variables (s : vmst) (A L : list Z) (as_ va : Z).
Hypotheses (Hi : pt_inv s A L) (Ha : as_ ∈ A) (Hu : user va) (Hsm : huge_page s.(v_mem) as_ va = None).

(** A write fault leaves the entries above the leaf alone. *)
Lemma fault_upper rc s' n t : vm_cow_write_fault s as_ va = (rc, s') -> (n <= 2)%nat -> tab s.(v_mem) as_ va n = Some t ->
  s'.(v_mem) (slot t (idx n va)) = s.(v_mem) (slot t (idx n va)).
Proof using All.
  intros Hf Hn Ht. unfold vm_cow_write_fault in Hf. cbn [arch_vm_user_leaf x86_vm] in Hf. rewrite user_leaf_small in Hf by done.
  destruct (leaf s.(v_mem) as_ va) as [x|] eqn:Hl; [|by injection Hf as <- <-].
  destruct (has (s.(v_mem) x) PTE_USER); [|by injection Hf as <- <-].
  assert (Hx : slot t (idx n va) <> x).
  { destruct (leaf_slot _ _ _ _ Hl) as (t3&Ht3&->&_). intros He.
    destruct (slot_once s A L Hi as_ va n t as_ va 3 t3) as (_&?&_); auto; lia. }
  destruct (negb _); [by case_match; injection Hf as <- <-|]. change (1 * PAGE_SIZE) with PAGE_SIZE in Hf.
  destruct (vm_cow_page_shared _ _); [|injection Hf as <- <-; cbn [v_mem set_leaf with_mem arch_vm_flush_user_page]; by apply mwrite_ne].
  destruct (pmm_alloc s.(v_pmm) 1) as [pa p1] eqn:Hal. destruct (Z.eqb_spec pa 0) as [->|Hpa]; injection Hf as <- <-; [done|].
  destruct (fresh_page s A L Hi pa p1 Hal Hpa) as (Hpal&_&_&Hnt&_).
  cbn [v_mem set_leaf with_mem with_pmm arch_vm_flush_user_page]. rewrite mwrite_ne by done. apply mcopy_out.
  intros Hin. apply Hnt. rewrite <- (proj1 (in_frame_page_down pa (slot t (idx n va)) Hpal) Hin), (table_slot s A L Hi as_ va n t) by (auto; lia).
  exists as_, va, n. split_and!; auto; lia.
Qed.

Lemma fault_tab rc s' n : vm_cow_write_fault s as_ va = (rc, s') -> (n <= 3)%nat -> tab s'.(v_mem) as_ va n = tab s.(v_mem) as_ va n.
Proof using All.
  intros Hf Hn. apply tab_agree. intros k t Hk Ht. f_equal. apply (fault_upper rc s' k t Hf); [lia|done].
Qed.

Lemma upper_fault rc s' : vm_cow_write_fault s as_ va = (rc, s') -> upper_writable s'.(v_mem) as_ va <-> upper_writable s.(v_mem) as_ va.
Proof using All.
  intros Hf. unfold upper_writable. split; intros Hup n t Hn Ht.
  - rewrite <- (fault_upper rc s' n t Hf Hn Ht). apply Hup; [done|]. by rewrite (fault_tab rc s' n Hf) by lia.
  - rewrite (fault_tab rc s' n Hf) in Ht by lia. rewrite (fault_upper rc s' n t Hf Hn Ht). by apply Hup.
Qed.
End store.

Lemma fault_rc s as_ va : (vm_cow_write_fault s as_ va).1 ∈ [VM_COW_HANDLED; VM_COW_NOT_COW; VM_COW_NOMEM].
Proof.
  unfold vm_cow_write_fault. rewrite !elem_of_cons. repeat (case_match; cbn [fst]; auto).
Qed.

(** A fault the handler takes care of. *)
Lemma user_write_fault cur as_ va v s s1 :
  mmu_writable s.(v_mem) as_ va = false -> page_down as_ = as_ -> classify_user_fault_reason (Some cur) USER_WRITE va = None ->
  vm_cow_write_fault s as_ va = (VM_COW_HANDLED, s1) -> user_write cur as_ va v s = Ok (Fault Retried, s1).
Proof.
  intros Hw Hp Hc Hf. unfold user_write, gets, mbind, ST_bind. rewrite Hw. unfold vmm_page_fault_handler. rewrite Hc, Hp.
  change (has USER_WRITE 1) with true. unfold write_fault, mbind, ST_bind. cbn [negb]. by rewrite Hf.
Qed.

(** The store faults and is tried again, [n] times. *)
Fixpoint retries (n : nat) (cur : fault_task) (as_ va v : Z) (s : vmst) : Prop :=
  match n with
  | O => True
  | S n => exists s', user_write cur as_ va v s = Ok (Fault Retried, s') /\ retries n cur as_ va v s'
  end.

(** The leaf is fine, so the handler only drops the cached entry. *)
Lemma store_stuck cur as_ va v n : forall s x,
  page_down as_ = as_ -> classify_user_fault_reason (Some cur) USER_WRITE va = None ->
  mmu_writable s.(v_mem) as_ va = false -> x86_vm_user_leaf s.(v_mem) as_ va = Some (x, 1) ->
  x86_pte_writable (s.(v_mem) x) = true -> x86_pte_cow (s.(v_mem) x) = false -> retries n cur as_ va v s.
Proof.
  induction n as [|n IH]; intros s x Hp Hc Hm Hl Hw Hcow; [done|]. eexists. split.
  - apply user_write_fault; auto. unfold vm_cow_write_fault. cbn [arch_vm_user_leaf x86_vm]. rewrite Hl.
    cbn [arch_pte_cow arch_pte_writable x86_pte]. by rewrite Hcow, Hw.
  - by apply (IH _ x).
Qed.

(** The same, with the leaf as a test. *)
Definition leaf_refuses (m : memory) (as_ va : Z) : bool :=
  match x86_vm_user_leaf m as_ va with
  | Some (x, 1) => x86_pte_writable (m x) && negb (x86_pte_cow (m x))
  | _ => false
  end.

Lemma store_hangs cur as_ va s :
  page_down as_ = as_ -> classify_user_fault_reason (Some cur) USER_WRITE va = None ->
  mmu_writable s.(v_mem) as_ va = false -> leaf_refuses s.(v_mem) as_ va = true -> forall v n, retries n cur as_ va v s.
Proof.
  intros Hp Hc Hm Hl v n. unfold leaf_refuses in Hl.
  destruct (x86_vm_user_leaf s.(v_mem) as_ va) as [[x k]|] eqn:Hx; [|done].
  assert (k = 1) as -> by (by destruct k as [|[]|]). apply andb_true_iff in Hl as [Hw Hcow]. apply negb_true_iff in Hcow.
  by apply (store_stuck cur as_ va v n s x).
Qed.

Section completes.
Context `{FileMapLaws}.
Variables (kernel_pml4 : Z) (K : list Z) (s : vmst) (T : list mm_task) (a : amem) (t : mm_task) (va : Z).
Hypotheses (Hg : good kernel_pml4 K (mkSys s T) a) (Ht : t ∈ T) (Hva : 0 <= va < 2 ^ 47).
Abbreviation as_ := t.(mm_as).

(** What the tables show is what the abstract machine has. *)
Lemma good_page : (match page_at s as_ va with Some p => pg_write p | None => false end) = true ->
  exists p, a as_ (pn va) = Some p /\ pg_write p = true.
Proof using Hg Ht Hva.
  destruct Hg as (L&Hs&Hsh). cbn [y_vm y_tasks] in *. apply list_elem_of_lookup in Ht as Hti. destruct Hti as [i Hti].
  pose proof (Hsh as_ va (call_space T i t Hti) (user_low va Hva)) as Hp. rewrite key_page in Hp by lia. fold (pn va) in Hp.
  destruct (page_at s as_ va) as [p1|], (a as_ (pn va)) as [p2|]; try done. destruct Hp as (Hw&_). intros He. exists p2.
  by rewrite <- Hw.
Qed.

Variable p : page.
Hypotheses (Hp : a t.(mm_as) (pn va) = Some p) (Hpw : pg_write p = true) (Hav : 1 <= avail s.(v_pmm)).

(** The handler makes the leaf writable. *)
Lemma fault_handles : exists s1 e1, vm_cow_write_fault s as_ va = (VM_COW_HANDLED, s1) /\
  good kernel_pml4 K (mkSys s1 T) a /\ view s1.(v_mem) as_ va = Some e1 /\ has e1 PTE_USER && has e1 PTE_WRITABLE = true /\
  (upper_writable s1.(v_mem) as_ va <-> upper_writable s.(v_mem) as_ va).
Proof using All.
  destruct Hg as (L&Hs&Hsh). cbn [y_vm y_tasks] in *. pose proof (si_inv _ _ _ _ _ Hs) as Hi. pose proof (user_low va Hva) as Hu.
  apply list_elem_of_lookup in Ht as Hti. destruct Hti as [i Hti]. pose proof (call_space T i t Hti) as Ha.
  assert (Hsm : huge_page s.(v_mem) as_ va = None) by (unfold huge_page; by rewrite (si_small _ _ _ _ _ Hs)).
  destruct (vm_cow_write_fault s as_ va) as [rc s1] eqn:Hf. pose proof (fault_rc s as_ va) as Hrc. rewrite Hf in Hrc.
  destruct (fault_good kernel_pml4 K s T L a Hs Hsh i t Hti va rc s1 Hu Hf) as [Hg1 _].
  destruct (write_fault_post s (spaces T) L as_ va Hi Ha Hu Hsm rc s1 Hf) as (L1&_&_&Hres).
  pose proof (Hsh as_ va Ha Hu) as Hpe. unfold page_at in Hpe. rewrite key_page in Hpe by lia. fold (pn va) in Hpe. rewrite Hp in Hpe.
  destruct (view s.(v_mem) as_ va) as [e|] eqn:Hv; [|done]. destruct Hpe as (Hpe&_). cbn [pg_write] in Hpe. rewrite Hpw in Hpe.
  destruct (si_plain _ _ _ _ _ Hs as_ va e Ha Hu Hv) as [Hus _].
  assert (Hmw : may_write e = true) by (unfold may_write; by rewrite Hus, Hpe).
  destruct Hres as ((e1&Hv1&_&Hb&_&Hcase)&Hnc&Hnm).
  assert (rc = VM_COW_HANDLED) as ->.
  { cbn [fst] in Hrc. rewrite !elem_of_cons in Hrc. destruct Hrc as [|[->|[->|[]%not_elem_of_nil]]]; [done|..].
    - destruct (Hnc eq_refl). congruence.
    - destruct (Hnm eq_refl) as (_&?&_). lia. }
  destruct Hcase as [(_&_&Hw1&_)|[? _]]; [|done]. exists s1, e1. split_and!; auto.
  - rewrite (Hb PTE_USER) by (unfold PTE_USER, PTE_WRITABLE, PTE_COW; lia). rewrite Hus. exact Hw1.
  - by apply (upper_fault s (spaces T) L as_ va Hi Ha Hu Hsm _ _ Hf).
Qed.

Lemma store_done cur v : mmu_writable s.(v_mem) as_ va = true ->
  exists s', user_write cur as_ va v s = Ok (Value 0, s') /\ good kernel_pml4 K (mkSys s' T) (a_write as_ va v a).
Proof using H0 Hg Ht Hva.
  intros Hw. destruct Hg as (L&Hs&Hsh). apply list_elem_of_lookup in Ht as Hti. destruct Hti as [i Hti]. cbn [y_vm y_tasks] in *.
  destruct (store_refines kernel_pml4 K s T L a Hs Hsh i t Hti va v Hva Hw) as (a'&Hsp&Hg'). inversion Hsp; subst.
  eexists. split; [|exact Hg']. unfold user_write, gets, mbind, ST_bind. by rewrite Hw.
Qed.
End completes.
