(* ===== verification/VmExample.v ===== *)
(** * A small machine: one process maps memory, writes and forks *)
From S2P Require Import Prelude State Pmm Pte VmCow Vmm PtWalk PtInv PtGrow PtMap Mmap PtOps PtSpace PtCopy PtMask PtClone.
From S2P Require Import PtFree PtDestroy PtFault MmapOk MmapCalls MmapTheorems MremapOk VmSpec VmSystem VmRefine.

(** No descriptor is open. *)
Definition no_files : FileMap := {|
  fd_in_use := fun _ => false; fd_is_pipe := fun _ => false; pread_page := fun m _ _ _ => m |}.
Definition no_files_laws : @FileMapLaws no_files.
Proof.
  refine (@Build_FileMapLaws no_files (fun _ _ _ => 0) _ _); [done|].
  intros m pa fd off o Hz Ho. apply Hz. unfold in_frame. lia.
Defined.

(** The pages that have an owner. *)
Definition used_pages (p : pmm) : list Z :=
  filter (fun f => 0 < pmm_get_ref p f) (page_addr p <$> seqZ 0 p.(g_pages)).

Lemma used_page p f : pmm_wf p -> aligned f -> 0 < pmm_get_ref p f -> f ∈ used_pages p.
Proof.
  intros Hwf Hal Hr. destruct (get_ref_pos p f Hwf Hal Hr) as (q&Hq&->&_). apply list_elem_of_filter. split; [done|].
  apply list_elem_of_fmap. exists q. split; [done|]. apply elem_of_seqZ. lia.
Qed.

(** The kernel's top table is allocated first. *)
Definition ex_kernel : Z := run_value alloc_page ex_vm 0.
Definition ex_boot : vmst := run_state alloc_page ex_vm.

Lemma boot_good s pa s' :
  cow_inv s [] -> used_pages s.(v_pmm) = [] -> alloc_page s = Ok (pa, s') -> pa <> 0 -> good pa [pa] (mkSys s' []) (fun _ _ => None).
Proof.
  intros Hc Hnone Ha Hpa. pose proof (no_spaces s Hc) as Hi. unfold alloc_page in Ha.
  destruct (pmm_alloc s.(v_pmm) 1) as [pa' p1] eqn:Hal. injection Ha as -> <-.
  destruct (take_ok s [] [] Hi pa p1 Hal Hpa) as (Hi1&Hh&Hg&Hf). pose proof Hh as [H1 H2 H3 _].
  exists []. split; [constructor; [exact Hi1|..]|].
  - split; [by apply list_elem_of_singleton|done].
  - intros f Hf'. cbn [y_vm y_tasks spaces fmap list_fmap]. rewrite (taken_stray s _ [] [] 1 pa f Hi Hg Hh Hf Hf').
    rewrite list_elem_of_singleton. split; [intros [(Hr&_)|]; [|done]|by right].
    apply used_page in Hr; [|apply (inv_pmm_ok _ _ _ Hi)|done]. rewrite Hnone in Hr. by apply not_elem_of_nil in Hr.
  - constructor.
  - by intros as_ va e ?%not_elem_of_nil.
  - by intros as_ va ?%not_elem_of_nil.
  - by intros u ?%not_elem_of_nil.
  - by intros as_ va ?%not_elem_of_nil.
Qed.

Lemma ex_boot_good : good ex_kernel [ex_kernel] (mkSys ex_boot []) (fun _ _ => None).
Proof.
  assert (Hr : alloc_page ex_vm = Ok (ex_kernel, ex_boot)) by (unfold ex_kernel, ex_boot; apply run_ok; by vm_compute).
  assert (He : (ex_kernel =? 0) = false) by (by vm_compute). apply Z.eqb_neq in He.
  assert (Hn : used_pages ex_vm.(v_pmm) = []) by (by vm_compute).
  exact (boot_good ex_vm ex_kernel ex_boot ex_vm_inv Hn Hr He).
Qed.

(** A space of its own for the process. *)
Definition ex_as : Z := run_value (arch_vm_create_user_address_space ex_kernel) ex_boot 0.
Definition ex_new : vmst := run_state (arch_vm_create_user_address_space ex_kernel) ex_boot.
Definition ex_task : mm_task := mkMm ex_as USER_MMAP_BASE_VADDR 0x600000.

Lemma ex_spawn_run : arch_vm_create_user_address_space ex_kernel ex_boot = Ok (ex_as, ex_new).
Proof. unfold ex_as, ex_new. apply run_ok. by vm_compute. Qed.

Lemma ex_new_good : good ex_kernel [ex_kernel] (mkSys ex_new [ex_task]) (a_clear ex_as (fun _ _ => None)).
Proof.
  assert (He : (ex_as =? 0) = false) by (by vm_compute).
  exact (@spawn_good no_files no_files_laws ex_kernel [ex_kernel] ex_boot [] _ USER_MMAP_BASE_VADDR 0x600000 ex_as ex_new ex_boot_good
    ltac:(done) ltac:(done) ex_spawn_run He).
Qed.

(** Two pages of memory, readable and writable. *)
Abbreviation ex_q := (mkMst ex_new (Some ex_task)).
Abbreviation ex_map := (sys_mmap (H := no_files) 0 8192 3 0x22 (-1) 0).
Definition ex_base : Z := run_value ex_map ex_q 0.
Definition ex_mapped : mst := run_state ex_map ex_q.

Lemma ex_map_run : ex_map ex_q = Ok (ex_base, ex_mapped) /\ ex_base = USER_MMAP_BASE_VADDR /\
  option_map mm_as ex_mapped.(q_cur) = Some ex_as.
Proof. split_and!; [unfold ex_base, ex_mapped; apply run_ok|..]; by vm_compute. Qed.

(** ** Room for a fork *)
Lemma good_fork_room k K s T a t :
  good k K (mkSys s T) a -> t ∈ T ->
  forallb (fun f => pmm_get_ref s.(v_pmm) f <? 32768) (used_pages s.(v_pmm)) = true ->
  Z.of_nat (length (used_pages s.(v_pmm))) <= avail s.(v_pmm) -> fork_room s (spaces T) t.(mm_as).
Proof.
  intros (L&[Hi _ _ _ Hpl _ _]&_) Ht Hall Hlen. cbn [y_vm y_tasks] in *. pose proof (inv_pmm_ok _ _ _ Hi) as [Hwf _]. split.
  - intros as_ va e Ha Hu Hv. destruct (Hpl as_ va e Ha Hu Hv) as [_ Hm].
    destruct (decide (0 < pmm_get_ref s.(v_pmm) (x86_pte_phys e))); [|lia].
    apply Z.ltb_lt. rewrite forallb_forall in Hall. apply Hall. apply list_elem_of_In. apply used_page; [done|apply addr_aligned|done].
  - right. exists (used_pages s.(v_pmm)). split; [|done]. intros va n f Hu Hn Hf.
    destruct (pi_tab _ _ _ Hi f) as [Hal H1]; [exists t.(mm_as), va, n; split_and!; auto; apply list_elem_of_fmap; by exists t|].
    apply used_page; auto. lia.
Qed.

(** ** A run: spawn, mmap, a store, fork, a store that faults, and the store
    again *)
Definition ex_guard : fault_task := mkFaultTask 0 0.
Definition ex_task2 : mm_task := mkMm ex_as (USER_MMAP_BASE_VADDR + 8192) 0x600000.
Definition ex_va : Z := USER_MMAP_BASE_VADDR + 8.
Definition ex_written : vmst := run_state (user_write ex_guard ex_as ex_va 42) ex_mapped.(q_vm).
Definition ex_child : Z := run_value (vmm_copy_pml4 ex_as ex_as) ex_written 0.
Definition ex_forked : vmst := run_state (vmm_copy_pml4 ex_as ex_as) ex_written.
Definition ex_faulted : vmst := run_state (user_write ex_guard ex_as ex_va 7) ex_forked.
Definition ex_private : vmst := run_state (user_write ex_guard ex_as ex_va 7) ex_faulted.

Definition ex_tasks : list mm_task := [mkMm ex_child (USER_MMAP_BASE_VADDR + 8192) 0x600000; ex_task2].
Definition ex_trace : list event :=
  [(ex_task, Spawn USER_MMAP_BASE_VADDR 0x600000, Value ex_as);
   (ex_task, Mmap 0 8192 3 0x22 (-1) 0, Value ex_base);
   (ex_task2, Write ex_va 42, Value 0);
   (ex_task2, Fork ex_as, Value ex_child);
   (ex_task2, Write ex_va 7, Fault Retried);
   (ex_task2, Write ex_va 7, Value 0)].

(** A run with a value known by computation. *)
Lemma run_ok_value {S A} (m : ST S A) s a b : is_ok (m s) = true -> run_value m s b = a -> m s = Ok (a, run_state m s).
Proof. intros Hok <-. by apply run_ok. Qed.

Lemma ex_map_task : ex_mapped.(q_cur) = Some ex_task2.
Proof. by vm_compute. Qed.
Lemma ex_write_run : user_write ex_guard ex_as ex_va 42 ex_mapped.(q_vm) = Ok (Value 0, ex_written).
Proof. unfold ex_written. apply (run_ok_value _ _ _ (Value 1)); by vm_compute. Qed.
Lemma ex_fork_run : vmm_copy_pml4 ex_as ex_as ex_written = Ok (ex_child, ex_forked).
Proof. unfold ex_child, ex_forked. apply run_ok. by vm_compute. Qed.
Lemma ex_fault_run : user_write ex_guard ex_as ex_va 7 ex_forked = Ok (Fault Retried, ex_faulted).
Proof. unfold ex_faulted. apply (run_ok_value _ _ _ (Value 1)); by vm_compute. Qed.
Lemma ex_private_run : user_write ex_guard ex_as ex_va 7 ex_faulted = Ok (Value 0, ex_private).
Proof. unfold ex_private. apply (run_ok_value _ _ _ (Value 1)); by vm_compute. Qed.

(** The parent reads what it wrote last, the child what was there at the
    fork. *)
Lemma ex_private_reads :
  ex_private.(v_mem) (vmm_get_phys ex_private.(v_mem) ex_as ex_va) = 7 /\
  ex_private.(v_mem) (vmm_get_phys ex_private.(v_mem) ex_child ex_va) = 42.
Proof. by vm_compute. Qed.

Lemma ex_args (s : vmst) (A : list Z) (t : mm_task) : args_ok (Spawn USER_MMAP_BASE_VADDR 0x600000) s A t /\ args_ok (Mmap 0 8192 3 0x22 (-1) 0) s A t /\
  forall v, args_ok (Write ex_va v) s A t.
Proof. cbn. unfold ex_va, USER_MMAP_BASE_VADDR. split_and!; try (intros v; split); lia. Qed.

Section ex_run.
#[local] Existing Instance no_files.
#[local] Existing Instance no_files_laws.
Abbreviation step := (vstep ex_kernel).

Lemma ex_step1 : step ex_task (mkSys ex_boot []) (Spawn USER_MMAP_BASE_VADDR 0x600000) (Value ex_as) (mkSys ex_new [ex_task]).
Proof.
  assert (He : (ex_as =? 0) = false) by (by vm_compute).
  pose proof (step_spawn ex_kernel ex_task ex_boot [] USER_MMAP_BASE_VADDR 0x600000 ex_as ex_new (proj1 (ex_args _ _ _)) ex_spawn_run) as Hst.
  rewrite He in Hst. exact Hst.
Qed.

Lemma ex_step2 : step ex_task (mkSys ex_new [ex_task]) (Mmap 0 8192 3 0x22 (-1) 0) (Value ex_base) (mkSys ex_mapped.(q_vm) [ex_task2]).
Proof.
  exact (step_call ex_kernel ex_task ex_new [ex_task] 0 (Mmap 0 8192 3 0x22 (-1) 0) ex_map ex_base ex_mapped ex_task2
    eq_refl (proj1 (proj2 (ex_args _ _ _))) eq_refl (proj1 ex_map_run) ex_map_task).
Qed.

Lemma ex_step3 : step ex_task2 (mkSys ex_mapped.(q_vm) [ex_task2]) (Write ex_va 42) (Value 0) (mkSys ex_written [ex_task2]).
Proof.
  exact (step_write ex_kernel ex_task2 ex_mapped.(q_vm) [ex_task2] ex_guard ex_va 42 (Value 0) ex_written
    (list_elem_of_here _ _) (proj2 (proj2 (ex_args _ _ _)) 42) ex_write_run).
Qed.

Lemma ex_prefix : vrun ex_kernel (mkSys ex_boot []) (take 3 ex_trace) (mkSys ex_written [ex_task2]).
Proof.
  apply (vrun_cons ex_kernel _ _ _ _ _ _ _ ex_step1), (vrun_cons ex_kernel _ _ _ _ _ _ _ ex_step2),
    (vrun_cons ex_kernel _ _ _ _ _ _ _ ex_step3). constructor.
Qed.

Lemma ex_step4 : step ex_task2 (mkSys ex_written [ex_task2]) (Fork ex_as) (Value ex_child) (mkSys ex_forked ex_tasks).
Proof.
  destruct (run_good ex_kernel [ex_kernel] _ _ _ _ ex_boot_good ex_prefix) as (a&_&Hg).
  assert (He : (ex_child =? 0) = false) by (by vm_compute).
  assert (Hall : forallb (fun f => pmm_get_ref ex_written.(v_pmm) f <? 32768) (used_pages ex_written.(v_pmm)) = true) by (by vm_compute).
  assert (Hlen : (Z.of_nat (length (used_pages ex_written.(v_pmm))) <=? avail ex_written.(v_pmm)) = true) by (by vm_compute).
  apply Z.leb_le in Hlen.
  pose proof (good_fork_room ex_kernel [ex_kernel] ex_written [ex_task2] a ex_task2 Hg (list_elem_of_here _ _) Hall Hlen) as Hroom.
  pose proof (step_fork ex_kernel ex_task2 ex_written [ex_task2] ex_as ex_child ex_forked (list_elem_of_here _ _) Hroom ex_fork_run) as Hst.
  rewrite He in Hst. exact Hst.
Qed.

Lemma ex_forked_run : vrun ex_kernel (mkSys ex_boot []) (take 4 ex_trace) (mkSys ex_forked ex_tasks).
Proof.
  apply (vrun_cons ex_kernel _ _ _ _ _ _ _ ex_step1), (vrun_cons ex_kernel _ _ _ _ _ _ _ ex_step2),
    (vrun_cons ex_kernel _ _ _ _ _ _ _ ex_step3), (vrun_cons ex_kernel _ _ _ _ _ _ _ ex_step4). constructor.
Qed.

Lemma ex_step5 : step ex_task2 (mkSys ex_forked ex_tasks) (Write ex_va 7) (Fault Retried) (mkSys ex_faulted ex_tasks).
Proof.
  exact (step_write ex_kernel ex_task2 ex_forked ex_tasks ex_guard ex_va 7 (Fault Retried) ex_faulted
    (list_elem_of_further _ _ _ (list_elem_of_here _ _)) (proj2 (proj2 (ex_args _ _ _)) 7) ex_fault_run).
Qed.

Lemma ex_step6 : step ex_task2 (mkSys ex_faulted ex_tasks) (Write ex_va 7) (Value 0) (mkSys ex_private ex_tasks).
Proof.
  exact (step_write ex_kernel ex_task2 ex_faulted ex_tasks ex_guard ex_va 7 (Value 0) ex_private
    (list_elem_of_further _ _ _ (list_elem_of_here _ _)) (proj2 (proj2 (ex_args _ _ _)) 7) ex_private_run).
Qed.

Lemma ex_run : vrun ex_kernel (mkSys ex_boot []) ex_trace (mkSys ex_private ex_tasks).
Proof.
  apply (vrun_cons ex_kernel _ _ _ _ _ _ _ ex_step1), (vrun_cons ex_kernel _ _ _ _ _ _ _ ex_step2),
    (vrun_cons ex_kernel _ _ _ _ _ _ _ ex_step3), (vrun_cons ex_kernel _ _ _ _ _ _ _ ex_step4),
    (vrun_cons ex_kernel _ _ _ _ _ _ _ ex_step5), (vrun_cons ex_kernel _ _ _ _ _ _ _ ex_step6). constructor.
Qed.
End ex_run.

(** ** A read-only mapping made writable *)
Definition ex_ro_map : ST mst Z := sys_mmap (H := no_files) 0 8192 PROT_READ 0x22 (-1) 0.
Definition ex_ro : mst := run_state ex_ro_map ex_q.
Definition ex_rw : mst := run_state (sys_mprotect ex_base 8192 3) ex_ro.
Definition ex_ro_trace : list event :=
  [(ex_task, Spawn USER_MMAP_BASE_VADDR 0x600000, Value ex_as);
   (ex_task, Mmap 0 8192 PROT_READ 0x22 (-1) 0, Value ex_base);
   (ex_task2, Mprotect ex_base 8192 3, Value 0)].

Lemma ex_ro_run : ex_ro_map ex_q = Ok (ex_base, ex_ro) /\ sys_mprotect ex_base 8192 3 ex_ro = Ok (0, ex_rw).
Proof.
  split; [unfold ex_ro; apply (run_ok_value _ _ _ 0)|unfold ex_rw; apply (run_ok_value _ _ _ 1)]; by vm_compute.
Qed.
Lemma ex_ro_task : ex_ro.(q_cur) = Some ex_task2 /\ ex_rw.(q_cur) = Some ex_task2.
Proof. split; by vm_compute. Qed.

Lemma mst_eta (q : mst) t : q.(q_cur) = Some t -> mkMst q.(q_vm) (Some t) = q.
Proof. destruct q. by intros [= ->]. Qed.

Section ex_ro.
#[local] Existing Instance no_files.
#[local] Existing Instance no_files_laws.

Lemma ex_ro_args (s : vmst) (A : list Z) (t : mm_task) : args_ok (Mprotect ex_base 8192 3) s A t.
Proof.
  cbn [args_ok]. rewrite (proj1 (proj2 ex_map_run)). change (mmap_align_up 8192) with 8192. unfold USER_MMAP_BASE_VADDR. lia.
Qed.

Lemma ex_ro_vrun : vrun ex_kernel (mkSys ex_boot []) ex_ro_trace (mkSys ex_rw.(q_vm) [ex_task2]).
Proof.
  apply (vrun_cons ex_kernel _ _ _ _ _ _ _ ex_step1). eapply (vrun_cons ex_kernel).
  - exact (step_call ex_kernel ex_task ex_new [ex_task] 0 (Mmap 0 8192 PROT_READ 0x22 (-1) 0) ex_ro_map ex_base ex_ro ex_task2
      eq_refl (proj1 (proj2 (ex_args ex_new [] ex_task))) eq_refl (proj1 ex_ro_run) (proj1 ex_ro_task)).
  - pose proof (proj2 ex_ro_run) as Hr. rewrite <- (mst_eta ex_ro ex_task2 (proj1 ex_ro_task)) in Hr.
    eapply (vrun_cons ex_kernel); [|constructor].
    exact (step_call ex_kernel ex_task2 ex_ro.(q_vm) [ex_task2] 0 (Mprotect ex_base 8192 3) (sys_mprotect ex_base 8192 3) 0 ex_rw ex_task2
      eq_refl (ex_ro_args ex_ro.(q_vm) [] ex_task2) eq_refl Hr (proj2 ex_ro_task)).
Qed.
End ex_ro.
