(* ===== verification/VmTheorems.v ===== *)
(** * Virtual memory: the theorems

    What holds of the memory of all processes after any run of requests, the
    round trip of mmap and munmap, when mmap finds room, and a write that
    never gets through. *)
From S2P Require Import Prelude State Pmm Pte VmCow Vmm PtWalk PtInv PtGrow PtMap Mmap PtOps PtSpace PtCopy PtMask PtClone.
From S2P Require Import PtFree PtDestroy PtFault MmapOk MmapCalls MmapTheorems MremapOk VmSpec VmSystem VmRefine VmStore VmExample.

(** ** What a physical page is used for *)
Section typed.
Variables (K : list Z) (s : vmst) (A : list Z).
Abbreviation ref f := (pmm_get_ref s.(v_pmm) f).

(** [f] is the table of level [n] with key [k] of the space. *)
Definition table_at (as_ : Z) (n : nat) (k f : Z) : Prop :=
  as_ ∈ A /\ (n <= 3)%nat /\ exists va, user va /\ key n va = k /\ tab s.(v_mem) as_ va n = Some f.

(** [f] is the page [v] of the space, with the entry [e]. *)
Definition page_in (as_ v e f : Z) : Prop :=
  as_ ∈ A /\ exists va, user va /\ key 4 va = v /\ view s.(v_mem) as_ va = Some e /\ x86_pte_phys e = f.

Record typed : Prop := {
  (** a page of the kernel is neither a table nor mapped *)
  ty_kernel : forall f, aligned f -> f ∈ K -> 0 < ref f /\ (forall as_ n k, ~ table_at as_ n k f) /\ forall as_ v e, ~ page_in as_ v e f;
  (** a table has one place in one tree, and no process can reach it *)
  ty_table : forall as_ n k f, table_at as_ n k f ->
    ref f = 1 /\ (f ∉ K) /\ (forall as' n' k', table_at as' n' k' f -> as' = as_ /\ n' = n /\ k' = k) /\
    forall as' v e, ~ page_in as' v e f;
  (** a mapped page is counted once for every place it is mapped at *)
  ty_page : forall as_ v e f, page_in as_ v e f ->
    (f ∉ K) /\ exists l : list (Z * Z), NoDup l /\ ref f = Z.of_nat (length l) /\
      forall as' v', (as', v') ∈ l <-> exists e', page_in as' v' e' f;
  (** and only once when a process may write to it *)
  ty_write : forall as_ v e as' v' e' f, page_in as_ v e f -> x86_pte_writable e = true -> page_in as' v' e' f ->
    as' = as_ /\ v' = v;
  (** nothing else is in use *)
  ty_all : forall f, aligned f -> 0 < ref f -> f ∉ K -> (forall as_ n k, ~ table_at as_ n k f) -> exists as_ v e, page_in as_ v e f;
}.
End typed.

Section frames.
Variables (s : vmst) (A L : list Z).
Hypothesis Hi : pt_inv s A L.
Hypothesis Hman : forall as_ va e, as_ ∈ A -> user va -> view s.(v_mem) as_ va = Some e -> managed s.(v_pmm) (x86_pte_phys e).

Lemma table_at_is as_ n k f : table_at s A as_ n k f -> is_table s.(v_mem) A f.
Proof using. intros (Ha&Hn&va&Hu&_&Ht). by exists as_, va, n. Qed.

Lemma page_in_leaf as_ v e f : page_in s A as_ v e f ->
  exists va x, user va /\ key 4 va = v /\ leaf s.(v_mem) as_ va = Some x /\ e = s.(v_mem) x /\ frame s.(v_mem) x = f /\ x ∈ L.
Proof using Hi Hman.
  intros (Ha&va&Hu&Hk&Hv&Hf). unfold view in Hv. destruct (leaf s.(v_mem) as_ va) as [x|] eqn:Hl; [|done]. injection Hv as He.
  exists va, x. split_and!; auto; [by subst|]. apply (pi_leaf _ _ _ Hi). exists as_, va. split_and!; auto.
  change (managed s.(v_pmm) (x86_pte_phys (s.(v_mem) x))). apply (Hman as_ va); auto. unfold view. by rewrite Hl.
Qed.

Lemma leaf_page_in x f : x ∈ L -> frame s.(v_mem) x = f ->
  exists as_ va, user va /\ leaf s.(v_mem) as_ va = Some x /\ page_in s A as_ (key 4 va) (s.(v_mem) x) f.
Proof using Hi.
  intros Hx Hf. destruct (in_L s A L Hi x Hx) as (as_&va&Ha&Hu&Hl). exists as_, va. split_and!; auto.
  split; [done|]. exists va. split_and!; auto. unfold view. by rewrite Hl.
Qed.

(** The places a list of leaves maps [f] at. *)
Lemma leaf_places f M : NoDup M -> (forall x, x ∈ M -> x ∈ L) ->
  exists l : list (Z * Z), NoDup l /\ mappers s.(v_mem) M f = Z.of_nat (length l) /\
    forall as_ v, (as_, v) ∈ l <->
      exists va x, as_ ∈ A /\ user va /\ key 4 va = v /\ leaf s.(v_mem) as_ va = Some x /\ frame s.(v_mem) x = f /\ x ∈ M.
Proof using Hi.
  induction M as [|x M IH]; intros Hnd Hsub.
  { exists []. split_and!; [constructor|done|]. intros as_ v. rewrite elem_of_nil. split; [done|].
    intros (va&x&_&_&_&_&_&Hx). by apply elem_of_nil in Hx. }
  apply NoDup_cons in Hnd as [Hx Hnd].
  destruct IH as (l&Hl&Hlen&Hin); [done|intros; apply Hsub; by apply list_elem_of_further|]. cbn [mappers].
  destruct (decide (frame s.(v_mem) x = f)) as [Hf|Hf].
  - destruct (in_L s A L Hi x) as (as_&va&Ha&Hu&Hle); [apply Hsub, list_elem_of_here|].
    exists ((as_, key 4 va) :: l). split_and!; [|cbn [length]; lia|].
    + constructor; [|done]. intros (va'&x'&Ha'&Hu'&Hk&Hl'&_&Hx')%Hin. rewrite (leaf_key _ _ _ _ Hk) in Hl'. congruence.
    + intros as' v'. rewrite elem_of_cons, Hin. split.
      * intros [[= -> ->]|(va'&x'&?&?&?&?&?&Hx')]; [|exists va', x'; split_and!; auto; by apply list_elem_of_further].
        exists va, x. split_and!; auto. apply list_elem_of_here.
      * intros (va'&x'&Ha'&Hu'&<-&Hl'&Hf'&[->|Hx']%elem_of_cons); [left|right; eauto 10].
        destruct (leaf_once s A L Hi as' va' as_ va x) as [-> ->]; auto.
  - exists l. split_and!; [done|lia|]. intros as' v'. rewrite Hin. split.
    + intros (va'&x'&?&?&?&?&?&Hx'). exists va', x'. split_and!; auto. by apply list_elem_of_further.
    + intros (va'&x'&?&?&?&?&Hf'&[->|Hx']%elem_of_cons); [done|]. exists va', x'. auto 10.
Qed.
End frames.

Section typed_inv.
Variables (kernel_pml4 : Z) (K : list Z) (s : vmst) (T : list mm_task) (L : list Z).
Hypothesis Hs : sys_inv kernel_pml4 K s T L.
Abbreviation A := (spaces T).

Lemma frame_managed as_ va e : as_ ∈ A -> user va -> view s.(v_mem) as_ va = Some e -> managed s.(v_pmm) (x86_pte_phys e).
Proof using Hs. intros. by apply (si_plain _ _ _ _ _ Hs as_ va). Qed.

Lemma inv_page as_ v e f : page_in s A as_ v e f ->
  (f ∉ K) /\ exists l : list (Z * Z), NoDup l /\ pmm_get_ref s.(v_pmm) f = Z.of_nat (length l) /\
    forall as' v', (as', v') ∈ l <-> exists e', page_in s A as' v' e' f.
Proof using Hs.
  intros Hp. pose proof (si_inv _ _ _ _ _ Hs) as Hi. pose proof (pi_cow _ _ _ Hi) as Hc.
  destruct (page_in_leaf s A L Hi frame_managed _ _ _ _ Hp) as (va&x&Hu&Hk&Hl&->&Hf&Hx). split.
  { intros HK. apply (si_stray _ _ _ _ _ Hs) in HK as (_&_&Hn); [by apply (Hn x)|]. rewrite <- Hf. apply addr_aligned. }
  destruct (leaf_places s A L Hi f L) as (l&Hnd&Hlen&Hin); [apply Hc|done|]. exists l. split_and!; [done|..].
  - rewrite <- Hlen, <- Hf. by apply (ci_count _ _ Hc).
  - intros as' v'. rewrite Hin. split.
    + intros (va'&x'&Ha'&Hu'&Hk'&Hl'&Hf'&Hx'). exists (s.(v_mem) x'). split; [done|]. exists va'. split_and!; auto.
      unfold view. by rewrite Hl'.
    + intros (e'&Hp'). pose proof Hp' as [Ha' _].
      destruct (page_in_leaf s A L Hi frame_managed _ _ _ _ Hp') as (va'&x'&Hu'&Hk'&Hl'&_&Hf'&Hx'). by exists va', x'.
Qed.

Lemma inv_typed : typed K s A.
Proof using Hs.
  pose proof (si_inv _ _ _ _ _ Hs) as Hi. pose proof (pi_cow _ _ _ Hi) as Hc. constructor.
  - intros f Hf HK. apply (si_stray _ _ _ _ _ Hs) in HK as (Hr&Hnt&Hnf); [|done]. split_and!; [done|..].
    + by intros as_ n k ?%table_at_is.
    + intros as_ v e (va&x&_&_&_&_&Hfx&Hx)%(page_in_leaf s A L Hi frame_managed). by apply (Hnf x).
  - intros as_ n k f Ht. pose proof (table_at_is _ _ _ _ _ _ Ht) as Hit. destruct (pi_tab _ _ _ Hi f Hit) as [Hal H1].
    split_and!; [done|by intros (_&?&_)%(si_stray _ _ _ _ _ Hs)|..].
    + destruct Ht as (Ha&Hn&va&Hu&<-&Ht). intros as' n' k' (Ha'&Hn'&va'&Hu'&<-&Ht').
      destruct (pi_inj _ _ _ Hi as_ va n as' va' n' f) as (->&->&->); auto.
    + intros as' v e (va&x&_&_&_&_&Hfx&Hx)%(page_in_leaf s A L Hi frame_managed). apply (pi_frame _ _ _ Hi x Hx). by rewrite Hfx.
  - apply inv_page.
  - intros as_ v e as' v' e' f Hp Hw Hp'. destruct (inv_page _ _ _ _ Hp) as (_&l&_&Hlen&Hin).
    destruct (page_in_leaf s A L Hi frame_managed _ _ _ _ Hp) as (va&x&_&_&_&->&Hf&Hx).
    pose proof (ci_write _ _ Hc x Hx Hw) as H1. rewrite Hf, Hlen in H1.
    destruct l as [|[a0 v0] [|]]; [done| |cbn in H1; lia].
    assert ((as_, v) ∈ [(a0, v0)]) as [= -> ->]%list_elem_of_singleton by (apply Hin; eauto).
    by assert ((as', v') ∈ [(a0, v0)]) as [= -> ->]%list_elem_of_singleton by (apply Hin; eauto).
  - intros f Hal Hr HK Hnt. destruct (decide (Exists (fun x => frame s.(v_mem) x = f) L)) as [He|He].
    + apply Exists_exists in He as (x&Hx&Hf). destruct (leaf_page_in s A L Hi x f Hx Hf) as (as_&va&_&_&Hp). eauto.
    + destruct HK. apply (si_stray _ _ _ _ _ Hs); [done|]. split_and!; [done|..].
      * intros (as_&va&n&Ha&Hu&Hn&Ht). apply (Hnt as_ n (key n va)). split_and!; auto. by exists va.
      * intros x Hx Hf. apply He, Exists_exists. eauto.
Qed.
End typed_inv.

Section theorems.
Context `{FileMapLaws}.




(** C9: mmap without MAP_FIXED succeeds whenever its arguments are in order,
    some range of the window above or below the end of the last mapping is
    free and there is memory for the pages and their tables: it picks a free
    range and fills it with zeroes or the contents of the file. *)
Theorem mmap_succeeds kernel_pml4 K s T a t addr length prot flags fd offset gap :
  good kernel_pml4 K (mkSys s T) a -> t ∈ T -> 0 <= addr < 2 ^ 64 -> 0 <= length < 2 ^ 64 ->
  mmap_args length flags fd offset = true -> is_fixed addr flags = false ->
  window gap (npages length) -> a_free t.(mm_as) gap (npages length) a ->
  t.(mmap_end) <= gap \/ gap + npages length * PAGE_SIZE <= t.(mmap_end) -> 4 * npages length <= avail s.(v_pmm) ->
  exists base q' T', sys_mmap addr length prot flags fd offset (mkMst s (Some t)) = Ok (base, q') /\
    window base (npages length) /\ a_free t.(mm_as) base (npages length) a /\
    good kernel_pml4 K (mkSys q'.(q_vm) T')
      (a_map t.(mm_as) base (npages length) (any prot PROT_WRITE) (any prot PROT_EXEC) (mmap_data (any flags MAP_ANONYMOUS) fd offset) a).
Proof using All.
  intros (L&Hs&Hsh) Ht Haddr Hlen Hargs Hfx Hw Hfree Hside Hav. cbn [y_vm y_tasks] in *. apply list_elem_of_lookup in Ht as [i Hti].
  pose proof (call_space T i t Hti) as Ha. destruct (call_task kernel_pml4 K s T L Hs i t Hti) as [Hme _].
  pose proof (call_no_huge kernel_pml4 K s T L Hs i t Hti) as Hnh.
  destruct (wp_run _ _ _ (mmap_ok (mkMst s (Some t)) t (spaces T) L (si_inv _ _ _ _ _ Hs) eq_refl Ha Hme nopanic addr length prot flags fd
    offset Haddr Hlen Hnh (or_introl Hav))) as (base&q'&Hr&L'&t'&Hi'&Hc&Hk&[(Hn&Hwin&He&Hem&Hrd)|(err&_&[_ Hwhy]&_)]).
  - rewrite Hfx in Hem. pose proof Hwin as (Hsp&_). exists base, q', (<[i := t']> T). split_and!; auto.
    + by apply (empty_free s T a Hsh i t Hti).
    + by eapply (map_good kernel_pml4 K s T L a Hs Hsh i t Hti); eauto.
  - exfalso. unfold mmap_reason in Hwhy. rewrite Hargs, Hfx in Hwhy. cbn [q_vm] in Hwhy. case_match; [|by destruct Hwhy as [|[]]].
    destruct Hwhy as [|[_ Hg]]; [unfold npages in *; lia|]. revert Hg. pose proof Hw as (Hsp&_).
    assert (Hn : 0 < npages length).
    { pose proof (size_pages length Hlen) as [Hge _]. pose proof (align_up_pages length Hlen) as Hup.
      unfold mmap_args in Hargs. apply andb_true_iff in Hargs as [Hargs _]. apply andb_true_iff in Hargs as [_ Hz].
      apply negb_true_iff, Z.eqb_neq in Hz. unfold npages, PAGE_SIZE in *. lia. }
    apply (find_gap_complete s t.(mm_as) (npages length) Hn t.(mmap_end) gap); auto.
    intros j Hj. pose proof (Hsh t.(mm_as) _ Ha (proj1 (span_user _ _ Hsp j Hj))) as Hpe.
    rewrite (span_key _ _ Hsp j Hj) in Hpe. fold (pn gap) in Hpe. rewrite Hfree in Hpe by lia. unfold page_at in Hpe. by case_match.
Qed.


(** C8: A store to a page the process may write gets through: at once, or
    after one fault that makes the page its own, when the tables above the
    page allow writing and a free page is left; and it changes that byte of
    that process only. *)
Theorem store_completes kernel_pml4 K s T a t va p cur v :
  good kernel_pml4 K (mkSys s T) a -> t ∈ T -> 0 <= va < 2 ^ 47 -> a t.(mm_as) (pn va) = Some p -> pg_write p = true ->
  upper_writable s.(v_mem) t.(mm_as) va -> classify_user_fault_reason (Some cur) USER_WRITE va = None -> 1 <= avail s.(v_pmm) ->
  exists s', good kernel_pml4 K (mkSys s' T) (a_write t.(mm_as) va v a) /\
    (user_write cur t.(mm_as) va v s = Ok (Value 0, s') \/
     exists s1, user_write cur t.(mm_as) va v s = Ok (Fault Retried, s1) /\ user_write cur t.(mm_as) va v s1 = Ok (Value 0, s')).
Proof using All.
  intros Hg Ht Hva Hp Hpw Hup Hc Hav. destruct (mmu_writable s.(v_mem) t.(mm_as) va) eqn:Hw.
  { destruct (store_done kernel_pml4 K s T a t va Hg Ht Hva cur v Hw) as (s'&Hr&Hg'). eauto. }
  destruct (fault_handles kernel_pml4 K s T a t va Hg Ht Hva p Hp Hpw Hav) as (s1&e1&Hf&Hg1&Hv1&He1&Hu1). apply Hu1 in Hup.
  pose proof Hg1 as (L1&Hs1&_). apply list_elem_of_lookup in Ht as Hti. destruct Hti as [i Hti].
  assert (Hw1 : mmu_writable s1.(v_mem) t.(mm_as) va = true).
  { apply (mmu_writable_spec _ _ _ e1); auto. apply (si_small _ _ _ _ _ Hs1); [by apply (call_space T i)|by apply user_low]. }
  destruct (store_done kernel_pml4 K s1 T a t va Hg1 Ht Hva cur v Hw1) as (s'&Hr&Hg'). exists s'. split; [done|]. right.
  exists s1. split; [|done]. destruct Hg as (L&Hs&_). destruct (call_aligned kernel_pml4 K s T L Hs i t Hti) as [_ Hpd].
  by apply user_write_fault.
Qed.
End theorems.

(** ** Witnesses *)
Section witnesses.
#[local] Existing Instance no_files.
#[local] Existing Instance no_files_laws.




(** Where the first mapping of a new process goes. *)
Lemma ex_window : window USER_MMAP_BASE_VADDR (npages 8192).
Proof.
  change (npages 8192) with 2. unfold window, USER_MMAP_TOP_VADDR. split; [|unfold USER_MMAP_BASE_VADDR, PAGE_SIZE; lia].
  constructor; unfold aligned, USER_MMAP_BASE_VADDR, PAGE_SIZE; done.
Qed.

Lemma ex_free : a_free ex_as USER_MMAP_BASE_VADDR (npages 8192) (a_clear ex_as (fun _ _ => None)).
Proof. intros v _. unfold a_clear. by rewrite decide_True. Qed.

Lemma mmap_succeeds_witness : exists base q' T',
  sys_mmap 0 8192 3 0x22 (-1) 0 (mkMst ex_new (Some ex_task)) = Ok (base, q') /\ window base (npages 8192) /\
  a_free ex_as base (npages 8192) (a_clear ex_as (fun _ _ => None)) /\
  good ex_kernel [ex_kernel] (mkSys q'.(q_vm) T')
    (a_map ex_as base (npages 8192) (any 3 PROT_WRITE) (any 3 PROT_EXEC) (mmap_data (any 0x22 MAP_ANONYMOUS) (-1) 0) (a_clear ex_as (fun _ _ => None))).
Proof.
  assert (Hn : (4 * npages 8192 <=? avail ex_new.(v_pmm)) = true) by (by vm_compute). apply Z.leb_le in Hn.
  exact (mmap_succeeds ex_kernel [ex_kernel] ex_new [ex_task] _ ex_task 0 8192 3 0x22 (-1) 0 USER_MMAP_BASE_VADDR ex_new_good
    (list_elem_of_here _ _) ltac:(lia) ltac:(lia) eq_refl eq_refl ex_window ex_free (or_introl (Z.le_refl _)) Hn).
Defined.


(** After the fork both pages are shared, and the parent stores again. *)
Lemma store_completes_witness : exists a s', good ex_kernel [ex_kernel] (mkSys s' ex_tasks) (a_write ex_as ex_va 7 a) /\
  (user_write ex_guard ex_as ex_va 7 ex_forked = Ok (Value 0, s') \/
   exists s1, user_write ex_guard ex_as ex_va 7 ex_forked = Ok (Fault Retried, s1) /\ user_write ex_guard ex_as ex_va 7 s1 = Ok (Value 0, s')).
Proof.
  destruct (run_good ex_kernel [ex_kernel] _ _ _ _ ex_boot_good ex_forked_run) as (a&_&Hg).
  assert (Hp : (match page_at ex_forked ex_as ex_va with Some p => pg_write p | None => false end) = true) by (by vm_compute).
  assert (Hva : 0 <= ex_va < 2 ^ 47) by (unfold ex_va, USER_MMAP_BASE_VADDR; lia).
  assert (Ht : ex_task2 ∈ ex_tasks) by (apply list_elem_of_further, list_elem_of_here).
  destruct (good_page ex_kernel [ex_kernel] ex_forked ex_tasks a ex_task2 ex_va Hg Ht Hva Hp) as (p&Hap&Hpw).
  assert (Hup : upper_writable ex_forked.(v_mem) ex_as ex_va) by (apply upper_check; by vm_compute).
  assert (Hav : (1 <=? avail ex_forked.(v_pmm)) = true) by (by vm_compute). apply Z.leb_le in Hav. exists a.
  exact (store_completes ex_kernel [ex_kernel] ex_forked ex_tasks a ex_task2 ex_va p ex_guard 7 Hg Ht Hva Hap Hpw Hup eq_refl Hav).
Defined.

(** C27: A page that was mapped read-only and made writable by mprotect may
    still refuse every store: the tables above it were created without the
    write permission, mprotect and the fault handler change only the leaf,
    and the handler reports the fault as repaired, so the store faults again
    and again. *)
Theorem mprotect_store_hangs : exists tr s T t,
  vrun ex_kernel (mkSys ex_boot []) tr (mkSys s T) /\ t ∈ T /\ last tr = Some (t, Mprotect ex_base 8192 3, Value 0) /\
  pn ex_base <= pn ex_va < pn ex_base + npages 8192 /\
  forall v n, retries n ex_guard t.(mm_as) ex_va v s.
Proof.
  exists ex_ro_trace, ex_rw.(q_vm), [ex_task2], ex_task2. split; [exact ex_ro_vrun|].
  split; [apply list_elem_of_here|]. split; [done|]. split; [by vm_compute|].
  assert (Hm : mmu_writable ex_rw.(q_vm).(v_mem) ex_as ex_va = false) by (by vm_compute).
  assert (Hl : leaf_refuses ex_rw.(q_vm).(v_mem) ex_as ex_va = true) by (by vm_compute).
  assert (Hpd : page_down ex_as = ex_as) by (by vm_compute).
  assert (Hc : classify_user_fault_reason (Some ex_guard) USER_WRITE ex_va = None) by (by vm_compute).
  exact (store_hangs ex_guard ex_as ex_va ex_rw.(q_vm) Hpd Hc Hm Hl).
Qed.
End witnesses.
