(* ===== verification/Elf.v ===== *)
(** * The ELF loader (kernel/elf.c)

    [elf_load] copies the segments of a program into an address space, page
    by page, and collects what the first stack has to tell the program.  The
    file is a list of bytes; an access past its end is [Undefined]: the code
    trusts the headers.  The program headers are read once, before the
    segments: the code reads each when it gets to it. *)
From S2P Require Import Prelude State Pmm Pte VmCow Bytes Vmm.

Definition get64 := getn 8.

(** [#define]s of include/elf64.h *)
Abbreviation PT_LOAD := 1.
Abbreviation PT_INTERP := 3.
Abbreviation PT_TLS := 7.
Abbreviation ET_DYN := 3.
Abbreviation PF_X := 1.
Abbreviation PF_W := 2.
Abbreviation ELFMAG := [127; 69; 76; 70].
Abbreviation EHDR_SIZE := 64.
Abbreviation PHDR_SIZE := 56.

Record Elf64_Ehdr := mkEhdr { e_type : Z; e_entry : Z; e_phoff : Z; e_phentsize : Z; e_phnum : Z }.
Definition ehdr_of (d : list Z) : Elf64_Ehdr :=
  mkEhdr (get16 d 16) (get64 d 24) (get64 d 32) (get16 d 54) (get16 d 56).

Record Elf64_Phdr := mkPhdr {
  p_type : Z; p_flags : Z; p_offset : Z; p_vaddr : Z; p_filesz : Z; p_memsz : Z; p_align : Z }.
Definition phdr_of (d : list Z) (off : Z) : Elf64_Phdr :=
  mkPhdr (get32 d off) (get32 d (off + 4)) (get64 d (off + 8)) (get64 d (off + 16)) (get64 d (off + 32))
         (get64 d (off + 40)) (get64 d (off + 48)).

Record elf_info := mkInfo {
  i_entry : Z; i_max_vaddr : Z; i_phdr_vaddr : Z; i_phent : Z; i_phnum : Z; i_load_bias : Z;
  i_interp_path : list Z; i_has_interp : bool; i_type : Z;
  i_tls_vaddr : Z; i_tls_filesz : Z; i_tls_memsz : Z; i_tls_align : Z }.
Definition no_info : elf_info := mkInfo 0 0 0 0 0 0 [] false 0 0 0 0 0.

(** What lies before the first 0. *)
Fixpoint cstr (l : list Z) : list Z :=
  match l with
  | [] => []
  | b :: l => if b =? 0 then [] else b :: cstr l
  end.

(** [memcpy] of bytes into physical memory. *)
Definition mblit (m : memory) (dst : Z) (l : list Z) : memory :=
  fun a => if (dst <=? a) && (a <? dst + zlen l) then zget l (a - dst) else m a.

(** The file has the bytes [off, off + n). *)
Definition in_file {S} (d : list Z) (off n : Z) : ST S unit := kassert ((0 <=? off) && (off + n <=? zlen d)) Undefined.

Definition elf_flags_to_vmm (p_flags : Z) : Z :=
  arch_vm_user_page_flags (negb (Z.land p_flags PF_W =? 0)) (negb (Z.land p_flags PF_X =? 0)).

(** Whether the segment has a byte in the page. *)
Definition covers (page_base load_bias : Z) (ph : Elf64_Phdr) : bool :=
  let start := u64 (ph.(p_vaddr) + load_bias) in
  let end_ := u64 (start + ph.(p_memsz)) in
  (ph.(p_type) =? PT_LOAD) && negb (ph.(p_memsz) =? 0) && negb ((end_ <=? page_base) || (u64 (page_base + PAGE_SIZE) <=? start)).

(** The rights of all segments that cover the page, together. *)
Definition elf_page_vmm_flags (phdrs : list Elf64_Phdr) (page_base load_bias : Z) : Z :=
  elf_flags_to_vmm (foldl (fun merged ph => if covers page_base load_bias ph then Z.lor merged ph.(p_flags) else merged) 0 phdrs).

(** The page of the segment, with its frame: mapped with the rights of the
    segment, or with those of all segments in it when it is there already. *)
Definition elf_page (as_ : Z) (phdrs : list Elf64_Phdr) (ph : Elf64_Phdr) (load_bias page_base : Z) : ST vmst Z :=
  phys_addr ← gets (fun s => vmm_get_phys s.(v_mem) as_ page_base);
  if phys_addr =? 0 then
    new_page ← alloc_page;
    if new_page =? 0 then mret 0 else
    zero_page new_page ;;
    vmm_map_page as_ page_base new_page (elf_flags_to_vmm ph.(p_flags)) ;;
    mret new_page
  else
    arch_vm_update_page_flags as_ page_base (elf_page_vmm_flags phdrs page_base load_bias) ;;
    mret phys_addr.

(** The loop over the pages of a segment; [false]: no memory.  Every round
    ends a page, so the pages of the segment are enough fuel. *)
Fixpoint elf_pages (fuel : nat) (as_ : Z) (d : list Z) (phdrs : list Elf64_Phdr) (ph : Elf64_Phdr)
  (load_bias curr_vaddr : Z) : ST vmst bool :=
  let vaddr_start := u64 (ph.(p_vaddr) + load_bias) in
  let vaddr_end := u64 (vaddr_start + ph.(p_memsz)) in
  if vaddr_end <=? curr_vaddr then mret true else
  match fuel with
  | O => halt Undefined
  | S fuel =>
      let page_base := page_down curr_vaddr in
      phys_addr ← elf_page as_ phdrs ph load_bias page_base;
      if phys_addr =? 0 then mret false else
      let offset_in_page := curr_vaddr - page_base in
      let size_in_page := PAGE_SIZE - offset_in_page in
      let size_in_page := if vaddr_end <? u64 (curr_vaddr + size_in_page) then vaddr_end - curr_vaddr else size_in_page in
      let file_end := u64 (vaddr_start + ph.(p_filesz)) in
      (if curr_vaddr <? file_end then
         let bytes_to_copy := Z.min (file_end - curr_vaddr) size_in_page in
         let src := ph.(p_offset) + (curr_vaddr - vaddr_start) in
         in_file d src bytes_to_copy ;;
         modify (fun s => with_mem s (mblit s.(v_mem) (phys_addr + offset_in_page) (slice d src bytes_to_copy)))
       else mret ()) ;;
      elf_pages fuel as_ d phdrs ph load_bias (u64 (curr_vaddr + size_in_page))
  end.

(** Pages that the bytes [start, end_) touch. *)
Definition touched (start end_ : Z) : nat := Z.to_nat ((end_ - 1) / PAGE_SIZE - start / PAGE_SIZE + 1).

(** The address of the program headers in memory: in the first segment that
    has all of them. *)
Fixpoint elf_phdr_vaddr (eh : Elf64_Ehdr) (phdrs : list Elf64_Phdr) (load_bias : Z) : Z :=
  match phdrs with
  | [] => 0
  | ph :: phdrs =>
      if negb (ph.(p_type) =? PT_LOAD) || (eh.(e_phoff) <? ph.(p_offset)) ||
         (u64 (ph.(p_offset) + ph.(p_filesz)) <? u64 (eh.(e_phoff) + eh.(e_phnum) * eh.(e_phentsize)))
      then elf_phdr_vaddr eh phdrs load_bias
      else u64 (ph.(p_vaddr) + (eh.(e_phoff) - ph.(p_offset)) + load_bias)
  end.

(** What one program header adds to [info]. *)
Definition elf_note (d : list Z) (load_bias : Z) (info : elf_info) (ph : Elf64_Phdr) : elf_info :=
  if ph.(p_type) =? PT_INTERP then
    mkInfo info.(i_entry) info.(i_max_vaddr) info.(i_phdr_vaddr) info.(i_phent) info.(i_phnum) info.(i_load_bias)
      (slice d ph.(p_offset) (Z.min ph.(p_filesz) 255)) true info.(i_type)
      info.(i_tls_vaddr) info.(i_tls_filesz) info.(i_tls_memsz) info.(i_tls_align)
  else if ph.(p_type) =? PT_TLS then
    mkInfo info.(i_entry) info.(i_max_vaddr) info.(i_phdr_vaddr) info.(i_phent) info.(i_phnum) info.(i_load_bias)
      info.(i_interp_path) info.(i_has_interp) info.(i_type)
      (u64 (ph.(p_vaddr) + load_bias)) ph.(p_filesz) ph.(p_memsz) ph.(p_align)
  else if ph.(p_type) =? PT_LOAD then
    mkInfo info.(i_entry) (Z.max info.(i_max_vaddr) (u64 (u64 (ph.(p_vaddr) + load_bias) + ph.(p_memsz))))
      info.(i_phdr_vaddr) info.(i_phent) info.(i_phnum) info.(i_load_bias)
      info.(i_interp_path) info.(i_has_interp) info.(i_type)
      info.(i_tls_vaddr) info.(i_tls_filesz) info.(i_tls_memsz) info.(i_tls_align)
  else info.

(** One program header; [false]: no memory. *)
Definition elf_segment (as_ : Z) (d : list Z) (phdrs : list Elf64_Phdr) (load_bias : Z) (info : elf_info) (ph : Elf64_Phdr)
  : ST vmst (elf_info * bool) :=
  (if ph.(p_type) =? PT_INTERP then in_file d ph.(p_offset) (Z.min ph.(p_filesz) 255) else mret ()) ;;
  ok ← (if ph.(p_type) =? PT_LOAD then
          let vaddr_start := u64 (ph.(p_vaddr) + load_bias) in
          let vaddr_end := u64 (vaddr_start + ph.(p_memsz)) in
          elf_pages (touched vaddr_start vaddr_end) as_ d phdrs ph load_bias vaddr_start
        else mret true);
  mret (elf_note d load_bias info ph, ok).

Fixpoint elf_segments (as_ : Z) (d : list Z) (phdrs rest : list Elf64_Phdr) (load_bias : Z) (info : elf_info) : ST vmst elf_info :=
  match rest with
  | [] => mret info
  | ph :: rest =>
      '(info, ok) ← elf_segment as_ d phdrs load_bias info ph;
      if (ok : bool) then elf_segments as_ d phdrs rest load_bias info else mret info
  end.

Definition phdrs_of (d : list Z) : list Elf64_Phdr :=
  let ehdr := ehdr_of d in (fun i => phdr_of d (ehdr.(e_phoff) + PHDR_SIZE * i)) <$> seqZ 0 ehdr.(e_phnum).

(** What the file header says. *)
Definition elf_start (d : list Z) (load_bias : Z) : elf_info :=
  let ehdr := ehdr_of d in
  mkInfo (u64 (ehdr.(e_entry) + load_bias)) 0 (elf_phdr_vaddr ehdr (phdrs_of d) load_bias) ehdr.(e_phentsize) ehdr.(e_phnum)
    load_bias [] false ehdr.(e_type) 0 0 0 0.

Definition elf_load (as_ : Z) (d : list Z) (load_bias : Z) : ST vmst elf_info :=
  in_file d 0 4 ;;
  if bool_decide (take 4 d <> ELFMAG) then mret no_info else
  in_file d 0 EHDR_SIZE ;;
  in_file d (ehdr_of d).(e_phoff) (PHDR_SIZE * (ehdr_of d).(e_phnum)) ;;
  elf_segments as_ d (phdrs_of d) (phdrs_of d) load_bias (elf_start d load_bias).
