(* ===== verification/PtBytes.v ===== *)
(** * The bytes a process sees, and writing into its pages

    [ub s as_ va]: the byte at [va], if the page is mapped.  Kernel code that
    fills the pages of a process writes through their frames; when a frame
    is mapped at one place only, that changes these bytes and nothing else. *)
From S2P Require Import Prelude State Pmm Pte VmCow Bytes Vmm PtWalk PtInv PtGrow PtMap Mmap PtOps MmapOk MmapCalls MmapTheorems MremapOk PtFault Elf.

Definition ub (s : vmst) (as_ va : Z) : option Z :=
  match view s.(v_mem) as_ va with
  | Some e => Some (s.(v_mem) (x86_pte_phys e + va mod PAGE_SIZE))
  | None => None
  end.

Lemma ub_effect D k A L s L' s' as_ va :
  effect D k A L s L' s' -> as_ ∈ A -> user va -> ~ D as_ (key 4 va) -> ub s' as_ va = ub s as_ va.
Proof.
  intros He Ha Hu HD. unfold ub. rewrite (ef_view _ _ _ _ _ _ _ He) by auto.
  destruct (view s.(v_mem) as_ va) as [e|] eqn:Hv; [|done]. f_equal. apply (ef_data _ _ _ _ _ _ _ He as_ va e); auto.
  pose proof (Z.mod_pos_bound va PAGE_SIZE ltac:(done)). unfold in_frame. lia.
Qed.

Lemma own_frame_effect D k A L s L' s' as_ va :
  effect D k A L s L' s' -> as_ ∈ A -> user va -> ~ D as_ (key 4 va) -> own_frame as_ s va -> own_frame as_ s' va.
Proof.
  intros He Ha Hu HD (e&Hv&Hm&Hr). exists e. rewrite (ef_view _ _ _ _ _ _ _ He) by auto. split_and!; auto.
  - unfold managed in *. by rewrite (page_of_range s.(v_pmm)) by apply He.
  - pose proof (ef_ref _ _ _ _ _ _ _ He as_ va e Ha Hu HD Hv). lia.
Qed.

(** Addresses of the lower half by page and offset. *)
Lemma same_page va va' : 0 <= va < 2 ^ 47 -> 0 <= va' < 2 ^ 47 -> key 4 va = key 4 va' <-> va / PAGE_SIZE = va' / PAGE_SIZE.
Proof. intros. by rewrite !key_page by lia. Qed.

Lemma ub_page s as_ va va' e : 0 <= va < 2 ^ 47 -> 0 <= va' < 2 ^ 47 -> va / PAGE_SIZE = va' / PAGE_SIZE ->
  view s.(v_mem) as_ va = Some e -> ub s as_ va' = Some (s.(v_mem) (x86_pte_phys e + va' mod PAGE_SIZE)).
Proof.
  intros Hva Hva' Hp Hv. unfold ub. rewrite <- (view_key s.(v_mem) as_ va va'); [by rewrite Hv|]. by apply same_page.
Qed.

Lemma mblit_out m dst l a : ~ (dst <= a < dst + zlen l) -> mblit m dst l a = m a.
Proof. unfold mblit. intros. destruct (Z.leb_spec dst a), (Z.ltb_spec a (dst + zlen l)); try done. lia. Qed.
Lemma mblit_in m dst l a : dst <= a < dst + zlen l -> mblit m dst l a = zget l (a - dst).
Proof. unfold mblit. intros. destruct (Z.leb_spec dst a), (Z.ltb_spec a (dst + zlen l)); done || lia. Qed.

Section poke.
Variables (s : vmst) (A L : list Z) (as_ base off : Z) (l : list Z) (e : Z).
Hypotheses (Hi : pt_inv s A L) (Ha : as_ ∈ A) (Hb : 0 <= base < 2 ^ 47) (Hal : aligned base).
Hypotheses (Hv : view s.(v_mem) as_ base = Some e).
Hypotheses (Hman : managed s.(v_pmm) (x86_pte_phys e)) (Hone : pmm_get_ref s.(v_pmm) (x86_pte_phys e) <= 1).
Hypotheses (Hoff : 0 <= off) (Hend : off + zlen l <= PAGE_SIZE).
Abbreviation s' := (with_mem s (mblit s.(v_mem) (x86_pte_phys e + off) l)).

Lemma poke_out a : ~ in_frame (x86_pte_phys e) a -> mblit s.(v_mem) (x86_pte_phys e + off) l a = s.(v_mem) a.
Proof using Hoff Hend. intros Hn. apply mblit_out. unfold in_frame in Hn. lia. Qed.

Lemma poke_ok :
  pt_inv s' A L /\ effect (at_page as_ base) 0 A L s L s' /\
  (forall as1 va1, as1 ∈ A -> user va1 -> view s'.(v_mem) as1 va1 = view s.(v_mem) as1 va1) /\
  forall va, 0 <= va < 2 ^ 47 ->
    ub s' as_ va = if decide (base + off <= va < base + off + zlen l) then Some (zget l (va - base - off)) else ub s as_ va.
Proof using All.
  pose proof (user_low base Hb) as Hu. pose proof poke_out as Hout.
  pose proof (fill_mapped_inv s A L as_ base e _ Hi Ha Hu Hv Hout) as [Hi' _].
  pose proof (fill_mapped_effect s A L as_ base e _ Hi Ha Hu Hv Hman Hone Hout) as He.
  assert (Hvs : forall as1 va1, as1 ∈ A -> user va1 -> view s'.(v_mem) as1 va1 = view s.(v_mem) as1 va1).
  { intros. by apply (fill_mapped_view s A L as_ base e _ Hi Ha Hu Hv Hout). }
  split_and!; auto. intros va Hva. pose proof (user_low va Hva) as Huv.
  assert (Hlo : base / PAGE_SIZE * PAGE_SIZE = base) by (unfold aligned, PAGE_SIZE in *; pose proof (Z.div_mod base 4096); lia).
  pose proof (Z.div_mod va PAGE_SIZE ltac:(done)) as Hdm. pose proof (Z.mod_pos_bound va PAGE_SIZE ltac:(done)) as Hmp.
  destruct (decide (va / PAGE_SIZE = base / PAGE_SIZE)) as [Hp|Hp].
  - rewrite (ub_page s' as_ base va e) by (auto; rewrite Hvs; auto). rewrite (ub_page s as_ base va e) by auto.
    cbn [v_mem with_mem]. case_decide as Hd; f_equal.
    + rewrite mblit_in by lia. f_equal. lia.
    + apply mblit_out. lia.
  - rewrite decide_False.
    + apply (ub_effect _ _ _ _ _ _ _ _ _ He); auto. intros [_ Hk]. apply Hp. by apply same_page.
    + intros Hd. apply Hp. apply Z.div_unique with (r := va - base); unfold PAGE_SIZE in *; lia.
Qed.
End poke.

(** ** A fresh page of zeroes appears *)
(** The page [va] is the frame [pa], which nobody else uses. *)
Definition placed (s : vmst) (as_ va flags pa : Z) : Prop :=
  view s.(v_mem) as_ va = Some (leaf_entry pa flags) /\ x86_pte_phys (leaf_entry pa flags) = pa /\ managed s.(v_pmm) pa /\
  pmm_get_ref s.(v_pmm) pa <= 1.

Lemma placed_effect D k A L s L' s' as_ va flags pa :
  effect D k A L s L' s' -> as_ ∈ A -> user va -> ~ D as_ (key 4 va) -> placed s as_ va flags pa -> placed s' as_ va flags pa.
Proof.
  intros He Ha Hu HD (Hv&Hp&Hm&Hr). unfold placed. rewrite (ef_view _ _ _ _ _ _ _ He) by auto. split_and!; auto.
  - unfold managed in *. by rewrite (page_of_range s.(v_pmm)) by apply He.
  - pose proof (ef_ref _ _ _ _ _ _ _ He as_ va _ Ha Hu HD Hv) as Hle. rewrite Hp in Hle. lia.
Qed.

Lemma map_zero_ok E s A L as_ va flags pa p1 :
  pt_inv s A L -> as_ ∈ A -> 0 <= va < 2 ^ 47 -> aligned va -> view s.(v_mem) as_ va = None -> huge s.(v_mem) as_ va = None ->
  pmm_alloc s.(v_pmm) 1 = (pa, p1) -> pa <> 0 -> Z.land flags PTE_ADDR_MASK = 0 -> no_tables E s.(v_pmm) 4 ->
  wp E (vmm_map_page as_ va pa flags) (fun _ s' => exists L',
    pt_inv s' A L' /\ effect (at_page as_ va) 4 A L s L' s' /\ placed s' as_ va flags pa /\
    forall o, 0 <= o < PAGE_SIZE -> ub s' as_ (va + o) = Some 0) (with_mem (with_pmm s p1) (mzero s.(v_mem) pa)).
Proof.
  intros Hi Ha Hva Hal Hv Hh Hpa Hne Hfl Hno.
  eapply wp_mono; [apply (map_taken_ok E s A L as_ va flags pa p1 (mzero s.(v_mem) pa)); auto using user_low|].
  { intros a Hna. by apply mzero_out. }
  intros _ s' (L'&Hi'&He&Hv'&Hp&Hr&Hd). exists L'. split_and!; auto.
  - split_and!; auto; [|lia]. apply ref_managed. lia.
  - intros o Ho. assert (Hdiv : va / PAGE_SIZE = (va + o) / PAGE_SIZE).
    { unfold aligned, PAGE_SIZE in *. pose proof (Z.div_mod va 4096). apply Z.div_unique with (r := o); lia. }
    assert (Hlt : va + o < 2 ^ 47).
    { unfold aligned, PAGE_SIZE in *. pose proof (Z.div_mod va 4096). change (2 ^ 47) with (4096 * 2 ^ 35) in *. lia. }
    rewrite (ub_page s' as_ va (va + o) _ Hva ltac:(lia) Hdiv Hv'), Hp.
    rewrite Z.add_mod, Hal, Z.add_0_l, Z.mod_mod, Z.mod_small by (done || lia). rewrite Hd by (unfold in_frame; lia). f_equal. apply mzero_in.
    unfold in_frame. lia.
Qed.

(** The page gets other flags. *)
Lemma remap_ok E s A L as_ va flags e :
  pt_inv s A L -> as_ ∈ A -> 0 <= va < 2 ^ 47 -> view s.(v_mem) as_ va = Some e -> huge s.(v_mem) as_ va = None ->
  managed s.(v_pmm) (x86_pte_phys e) -> pmm_get_ref s.(v_pmm) (x86_pte_phys e) <= 1 ->
  Z.land flags PTE_ADDR_MASK = 0 -> no_tables E s.(v_pmm) 3 ->
  wp E (arch_vm_update_page_flags as_ va flags) (fun _ s' =>
    pt_inv s' A L /\ effect (at_page as_ va) 3 A L s L s' /\ placed s' as_ va flags (x86_pte_phys e) /\
    forall va', 0 <= va' < 2 ^ 47 -> ub s' as_ va' = ub s as_ va') s.
Proof.
  intros Hi Ha Hva Hv Hh Hm Hr Hfl Hno. pose proof (user_low va Hva) as Hu.
  destruct (view_leaf _ _ _ _ Hv) as (x&Hl&Hx). pose proof (proj1 (leaf_pte s.(v_mem) as_ va x) Hl) as [Hup Hpr].
  assert (Hpal : aligned (x86_pte_phys e)) by apply addr_aligned. pose proof (phys_range e) as Hprng.
  destruct (leaf_entry_bits (x86_pte_phys e) flags Hpal Hprng Hfl) as (Hph&Hprs&_).
  unfold arch_vm_update_page_flags. wp_steps. rewrite Hup, Hpr. cbn [negb]. rewrite Hx.
  eapply wp_mono; [apply (map_page_raw E s A L as_ va (x86_pte_phys e) flags); auto|].
  intros _ s' (s1&t&Hg&Hi1&Ht&->). set (s' := arch_vm_flush_user_page _ _ _).
  assert (Hl1 : leaf s1.(v_mem) as_ va = Some x) by (by rewrite (gr_leaf _ _ _ _ _ Hg)).
  assert (Hxs : slot t (idx 3 va) = x) by (destruct (leaf_slot _ _ _ _ Hl1) as (t'&Ht'&Hx'&_); congruence).
  assert (Hfx : frame s1.(v_mem) x = x86_pte_phys e) by (unfold frame; rewrite (gr_entry _ _ _ _ _ Hg as_ va x Ha Hu Hl); by rewrite Hx).
  assert (Hr1 : pmm_get_ref s1.(v_pmm) (x86_pte_phys e) = pmm_get_ref s.(v_pmm) (x86_pte_phys e)).
  { apply (gr_ref _ _ _ _ _ Hg); [done|]. by apply (frame_used s A L Hi as_ va e Ha Hu Hv). }
  assert (Hmem : forall a, a <> x -> s'.(v_mem) a = s1.(v_mem) a) by (intros a Hne; unfold s'; rewrite Hxs; by apply mwrite_ne).
  assert (Hsx : s'.(v_mem) x = leaf_entry (x86_pte_phys e) flags) by (unfold s'; rewrite Hxs; apply mwrite_eq).
  assert (Hphf : x86_pte_phys (leaf_entry (x86_pte_phys e) flags) = frame s1.(v_mem) x) by congruence.
  assert (Hw : x86_pte_writable (leaf_entry (x86_pte_phys e) flags) = true -> pmm_get_ref s1.(v_pmm) (frame s1.(v_mem) x) <= 1) by (rewrite Hfx; lia).
  pose proof (reflag_inv s1 s' A L as_ va x _ Hi1 Ha Hu Hl1 eq_refl Hmem Hsx Hphf Hprs Hw) as Hi'.
  destruct (reflag_effect s1 s' A L as_ va x _ Hi1 Ha Hu Hl1 eq_refl Hmem Hsx Hphf Hprs Hw) as [He Hv'].
  { intros as1 va1 e1 Htl. exact (flush_tlb_sub _ _ _ _ _ _ Htl). }
  assert (Hef : effect (at_page as_ va) 3 A L s L s').
  { replace 3 with (3 + 0) by lia. eapply effect_trans; [by apply grows_effect|exact He]. }
  split_and!; auto.
  - split_and!; auto; [unfold managed in *; by rewrite (page_of_range s.(v_pmm)) by apply Hef|unfold s'; cbn; lia].
  - intros va' Hva'. pose proof (user_low va' Hva') as Hu'. destruct (decide (key 4 va' = key 4 va)) as [Hk|Hk].
    + unfold ub. rewrite (view_key s'.(v_mem) as_ va' va Hk), (view_key s.(v_mem) as_ va' va Hk), Hv', Hv, Hph. f_equal.
      set (a := x86_pte_phys e + va' mod PAGE_SIZE).
      assert (Hin : in_frame (x86_pte_phys e) a) by (pose proof (Z.mod_pos_bound va' PAGE_SIZE ltac:(done)); unfold in_frame, a; lia).
      destruct (frame_plain s A L Hi as_ va e a Ha Hu Hv Hin) as (_&Hf&Hnt).
      transitivity (s1.(v_mem) a); [|by apply (gr_mem _ _ _ _ _ Hg)].
      apply (reflag_data s1 s' A L as_ va x Hi1 Ha Hu Hl1 Hmem as_ va (s1.(v_mem) x)); auto; [unfold view; by rewrite Hl1|].
      change (x86_pte_phys (s1.(v_mem) x)) with (frame s1.(v_mem) x). by rewrite Hfx.
    + apply (ub_effect _ _ _ _ _ _ _ _ _ Hef); auto. by intros [_ ?].
Qed.
