(* ===== verification/ElfOk.v ===== *)
(** * What the ELF loader leaves in memory

    A page has the rights of all segments in it, a byte of memory is the byte
    of the last segment whose file part has it, and 0 elsewhere.  The proof
    follows the segments: [f q] are the segments in page [q] that have been
    loaded. *)
From S2P Require Import Prelude State Pmm Pte VmCow Bytes Vmm PtWalk PtInv PtGrow PtMap Mmap PtOps MmapOk MmapCalls MmapTheorems MremapOk.
From S2P Require Import Elf PtBytes.

(** ** Segments *)
Definition seg_start (load_bias : Z) (ph : Elf64_Phdr) : Z := u64 (ph.(p_vaddr) + load_bias).

(** A segment that lies in the lower half and in the file. *)
Record seg_ok (d : list Z) (load_bias : Z) (ph : Elf64_Phdr) : Prop := {
  so_end : seg_start load_bias ph + ph.(p_memsz) <= 2 ^ 47;
  so_file : 0 <= ph.(p_filesz) <= ph.(p_memsz);
  so_offset : 0 <= ph.(p_offset);
  so_data : ph.(p_offset) + ph.(p_filesz) <= zlen d;
}.

(** The byte at [v] after the segments [l]. *)
Definition image (d : list Z) (load_bias : Z) (l : list Elf64_Phdr) (v : Z) : Z :=
  foldl (fun b ph => let start := seg_start load_bias ph in
                     if (start <=? v) && (v <? start + ph.(p_filesz)) then zget d (ph.(p_offset) + (v - start)) else b) 0 l.

Lemma image_snoc d load_bias l ph v :
  image d load_bias (l ++ [ph]) v =
    if decide (seg_start load_bias ph <= v < seg_start load_bias ph + ph.(p_filesz))
    then zget d (ph.(p_offset) + (v - seg_start load_bias ph)) else image d load_bias l v.
Proof.
  unfold image. rewrite foldl_app. cbn [foldl]. cbv zeta.
  destruct (Z.leb_spec (seg_start load_bias ph) v), (Z.ltb_spec v (seg_start load_bias ph + ph.(p_filesz))); cbn [andb];
    case_decide; (done || lia).
Qed.

Section pages.
Variables (A : list Z) (as_ : Z) (d : list Z) (phdrs : list Elf64_Phdr) (load_bias : Z).
Hypothesis Ha : as_ ∈ A.
Abbreviation at_ q := (q * PAGE_SIZE).

(** The flags of page [q] once the segments [l] of it are there. *)
Definition seg_flags (q : Z) (l : list Elf64_Phdr) : option Z :=
  match l with
  | [] => None
  | [ph] => Some (elf_flags_to_vmm ph.(p_flags))
  | _ => Some (elf_page_vmm_flags phdrs (at_ q) load_bias)
  end.

Definition page_is (s : vmst) (q : Z) (l : list Elf64_Phdr) : Prop :=
  match seg_flags q l with
  | None => view s.(v_mem) as_ (at_ q) = None
  | Some flags => (exists pa, placed s as_ (at_ q) flags pa) /\
                  forall o, 0 <= o < PAGE_SIZE -> ub s as_ (at_ q + o) = Some (image d load_bias l (at_ q + o))
  end.

Lemma seg_flags_mask q l flags : seg_flags q l = Some flags -> Z.land flags PTE_ADDR_MASK = 0.
Proof using. unfold seg_flags. destruct l as [|? [|? ?]]; [done|..]; intros [= <-]; apply user_flags_mask. Qed.

Lemma at_low q : 0 <= q < 2 ^ 35 -> 0 <= at_ q < 2 ^ 47 /\ aligned (at_ q) /\ at_ q / PAGE_SIZE = q /\ at_ q + PAGE_SIZE <= 2 ^ 47.
Proof using.
  intros Hq. unfold aligned. rewrite Z.mod_mul, Z.div_mul by done. unfold PAGE_SIZE. split_and!; auto; lia.
Qed.

Lemma page_is_effect D k L s L' s' q l :
  effect D k A L s L' s' -> 0 <= q < 2 ^ 35 -> ~ D as_ q -> page_is s q l -> page_is s' q l.
Proof using Ha.
  intros He Hq HD. destruct (at_low q Hq) as (Hlo&Hal&Hdiv&Hhi). pose proof (user_low _ Hlo) as Hu.
  assert (Hk : key 4 (at_ q) = q) by (rewrite key_page by lia; done).
  unfold page_is. destruct (seg_flags q l) as [flags|].
  - intros [[pa Hp] Hb]. split.
    + exists pa. apply (placed_effect _ _ _ _ _ _ _ _ _ _ _ He); auto. by rewrite Hk.
    + intros o Ho. rewrite (ub_effect _ _ _ _ _ _ _ _ _ He); auto; [apply user_low; lia|].
      rewrite key_page by lia. rewrite Z.add_comm, Z.div_add, Z.div_small by (done || lia). done.
  - intros Hv. rewrite (ef_view _ _ _ _ _ _ _ He); auto. by rewrite Hk.
Qed.

(** One more segment comes to the page. *)
Lemma elf_page_ok s L q l ph :
  pt_inv s A L -> 0 <= q < 2 ^ 35 -> page_is s q l -> huge s.(v_mem) as_ (at_ q) = None -> 4 <= avail s.(v_pmm) ->
  wp nopanic (elf_page as_ phdrs ph load_bias (at_ q)) (fun pa s' => exists L' flags,
    pt_inv s' A L' /\ effect (at_page as_ (at_ q)) 4 A L s L' s' /\ pa <> 0 /\
    seg_flags q (l ++ [ph]) = Some flags /\ placed s' as_ (at_ q) flags pa /\
    forall o, 0 <= o < PAGE_SIZE -> ub s' as_ (at_ q + o) = Some (image d load_bias l (at_ q + o))) s.
Proof using Ha.
  intros Hi Hq Hp Hh Hav. destruct (at_low q Hq) as (Hlo&Hal&Hdiv&Hhi). pose proof (user_low _ Hlo) as Hu.
  unfold elf_page. wp_steps. unfold page_is in Hp. destruct l as [|ph0 l].
  - cbn [seg_flags] in Hp. rewrite (proj2 (get_phys_none s A L Hi as_ (at_ q) Ha Hu ltac:(lia))) by done. rewrite Z.eqb_refl.
    wp_steps. apply wp_alloc.
    { intros p1 Eal. pose proof (alloc_some _ _ _ (inv_pmm_ok s A L Hi) (proj1 (ci_zero _ _ (pi_cow _ _ _ Hi))) Eal). lia. }
    intros pa p1 Eal Hne. apply Z.eqb_neq in Hne as Hb. rewrite Hb. unfold zero_page. wp_steps.
    eapply wp_mono; [apply (map_zero_ok nopanic s A L as_ (at_ q) (elf_flags_to_vmm ph.(p_flags)) pa p1); auto; [apply user_flags_mask|by left]|].
    intros _ s' (L'&Hi'&He&Hpl&Hz). wp_steps. exists L', (elf_flags_to_vmm ph.(p_flags)). by split_and!.
  - assert (exists flags, seg_flags q (ph0 :: l) = Some flags) as [fl Hfl] by (destruct l; by eexists). rewrite Hfl in Hp.
    destruct Hp as [(pa&Hv&Hph&Hm&Hr) Hb].
    destruct (view_phys A L as_ Ha s (at_ q) _ Hi Hu Hal Hv) as (Hgp&Hnz&_). rewrite Hgp, Hph in *.
    apply Z.eqb_neq in Hnz as Hnb. rewrite Hnb. wp_steps.
    eapply wp_mono; [apply (remap_ok nopanic s A L as_ (at_ q) (elf_page_vmm_flags phdrs (at_ q) load_bias) _ Hi Ha Hlo Hv Hh); rewrite ?Hph; auto;
      [apply user_flags_mask|left; lia]|].
    intros _ s' (Hi'&He&Hpl&Hub). wp_steps. rewrite Hph in Hpl. exists L, (elf_page_vmm_flags phdrs (at_ q) load_bias). split_and!; auto.
    + eapply effect_weaken; [exact He|done|lia].
    + by destruct l.
    + intros o Ho. rewrite Hub by lia. by apply Hb.
Qed.

(** The part of the file that belongs there comes to the page. *)
Lemma file_copy_ok s L q l ph flags pa curr n :
  pt_inv s A L -> 0 <= q < 2 ^ 35 -> seg_ok d load_bias ph -> seg_flags q (l ++ [ph]) = Some flags -> placed s as_ (at_ q) flags pa ->
  (forall o, 0 <= o < PAGE_SIZE -> ub s as_ (at_ q + o) = Some (image d load_bias l (at_ q + o))) ->
  let start := seg_start load_bias ph in
  start <= curr -> at_ q <= curr -> 0 <= n -> curr + n <= at_ q + PAGE_SIZE -> curr + n <= start + ph.(p_filesz) ->
  (forall v, at_ q <= v < at_ q + PAGE_SIZE -> start <= v < start + ph.(p_filesz) <-> curr <= v < curr + n) ->
  let s' := with_mem s (mblit s.(v_mem) (pa + (curr - at_ q)) (slice d (ph.(p_offset) + (curr - start)) n)) in
  pt_inv s' A L /\ effect (at_page as_ (at_ q)) 0 A L s L s' /\ page_is s' q (l ++ [ph]).
Proof using Ha.
  intros Hi Hq [Hend Hfile Hoff Hdata] Hri (Hv&Hph&Hm&Hr) Hb start Hs Hlo Hn Hhi Hfe Hpart s'.
  destruct (at_low q Hq) as (Hq0&Hal&Hdiv&Hq1).
  set (src := slice d _ n) in *. assert (Hlen : zlen src = n) by (apply zlen_slice; lia).
  destruct (poke_ok s A L as_ (at_ q) (curr - at_ q) src (leaf_entry pa flags) Hi Ha Hq0 Hal Hv) as (Hi'&He&Hvs&Hub); rewrite ?Hph; auto; [lia..|].
  rewrite Hph in *. fold s' in Hi', He, Hvs, Hub. split_and!; auto. unfold page_is. rewrite Hri. split.
  - exists pa. unfold placed. rewrite Hvs by (auto using user_low). done.
  - intros o Ho. rewrite Hub by lia. rewrite Hlen, image_snoc. fold start.
    replace (at_ q + (curr - at_ q)) with curr by lia. specialize (Hpart (at_ q + o) ltac:(lia)).
    case_decide as H1; case_decide as H2; try (exfalso; tauto); [|by apply Hb]. f_equal. unfold src.
    rewrite zget_slice by lia. f_equal. lia.
Qed.
(** ** The pages of a segment *)

(** The pages that are followed: those of the image. *)
Variable dom : Z -> Prop.

Section segment.
Variables (ph : Elf64_Phdr) (f : Z -> list Elf64_Phdr).
Hypotheses (Hseg : seg_ok d load_bias ph) (Htype : ph.(p_type) = PT_LOAD).
Abbreviation start := (seg_start load_bias ph).
Abbreviation end_ := (seg_start load_bias ph + ph.(p_memsz)).
Abbreviation cov q := (covers (at_ q) load_bias ph).
Hypothesis Hdom : forall q, cov q = true -> dom q.

Lemma covers_spec q : 0 <= q < 2 ^ 35 -> 0 < ph.(p_memsz) -> cov q = true <-> start < at_ q + PAGE_SIZE /\ at_ q < end_.
Proof using Hseg Htype.
  intros Hq Hn. destruct (at_low q Hq) as (Hq0&_&_&Hq1). destruct Hseg as [Hend _ _ _]. pose proof (u64_range (ph.(p_vaddr) + load_bias)).
  unfold covers. fold start. rewrite Htype, !u64_small by (unfold PAGE_SIZE, seg_start in *; lia). cbn [Z.eqb andb Pos.eqb].
  destruct (Z.eqb_spec ph.(p_memsz) 0); [lia|]. cbn [negb andb].
  destruct (Z.leb_spec end_ (at_ q)), (Z.leb_spec (at_ q + PAGE_SIZE) start); cbn [orb negb]; split; (done || lia).
Qed.

(** The segments of a page once the pages before [b] are done. *)
Definition upto_page (b q : Z) : list Elf64_Phdr := f q ++ (if cov q && (q <? b) then [ph] else []).

Lemma page_of v q : at_ q <= v < at_ q + PAGE_SIZE -> v / PAGE_SIZE = q /\ page_down v = at_ q.
Proof using.
  intros Hv. assert (Hd : v / PAGE_SIZE = q) by (symmetry; apply Z.div_unique with (r := v - at_ q); unfold PAGE_SIZE in *; lia).
  split; [done|]. rewrite page_down_mod. pose proof (Z.div_mod v PAGE_SIZE ltac:(done)). rewrite Hd in *. lia.
Qed.

Lemma in_page v : let q := v / PAGE_SIZE in at_ q <= v < at_ q + PAGE_SIZE.
Proof using. pose proof (Z.div_mod v PAGE_SIZE ltac:(done)). pose proof (Z.mod_pos_bound v PAGE_SIZE ltac:(done)). cbv zeta. lia. Qed.

(** When one page is done, the others are as before. *)
Lemma upto_next k L s L' s' q :
  effect (at_page as_ (at_ q)) k A L s L' s' -> 0 <= q < 2 ^ 35 -> cov q = true -> page_is s' q (f q ++ [ph]) ->
  (forall r, 0 <= r < 2 ^ 35 -> dom r -> page_is s r (upto_page q r)) ->
  forall r, 0 <= r < 2 ^ 35 -> dom r -> page_is s' r (upto_page (q + 1) r).
Proof using Ha.
  intros He Hq Hc Hp Hall r Hr Hd. unfold upto_page. destruct (decide (r = q)) as [->|Hne].
  - rewrite Hc. destruct (Z.ltb_spec q (q + 1)); [|lia]. done.
  - replace (r <? q + 1) with (r <? q) by (destruct (Z.ltb_spec r q), (Z.ltb_spec r (q + 1)); (done || lia)).
    apply (page_is_effect _ _ _ _ _ _ _ _ He Hr); [|by apply Hall]. intros [_ Hk]. destruct (at_low q Hq) as (?&_&Hdiv&_).
    rewrite key_page in Hk by lia. lia.
Qed.

(** The copy of one round, [size] bytes of the page being in the segment. *)
Lemma copy_step s L q l flags pa curr size :
  pt_inv s A L -> 0 <= q < 2 ^ 35 -> seg_flags q (l ++ [ph]) = Some flags -> placed s as_ (at_ q) flags pa ->
  (forall o, 0 <= o < PAGE_SIZE -> ub s as_ (at_ q + o) = Some (image d load_bias l (at_ q + o))) ->
  start <= curr < end_ -> (curr = start \/ curr = at_ q) -> at_ q <= curr < at_ q + PAGE_SIZE ->
  size = Z.min (at_ q + PAGE_SIZE) end_ - curr ->
  let file_end := start + ph.(p_filesz) in
  wp nopanic (if curr <? file_end then
         let bytes_to_copy := Z.min (file_end - curr) size in
         let src := ph.(p_offset) + (curr - start) in
         in_file d src bytes_to_copy ;;
         modify (fun s => with_mem s (mblit s.(v_mem) (pa + (curr - at_ q)) (slice d src bytes_to_copy)))
       else mret ())
    (fun _ s' => pt_inv s' A L /\ effect (at_page as_ (at_ q)) 0 A L s L s' /\ page_is s' q (l ++ [ph])) s.
Proof using Ha Hseg.
  intros Hi Hq Hri Hpl Hb Hc Hst Hin -> file_end. destruct Hseg as [Hend Hfile Hoff Hdata].
  destruct (Z.ltb_spec curr file_end) as [Hlt|Hge].
  - cbv zeta. unfold in_file. wp_steps.
    + apply (file_copy_ok s L q l ph flags pa curr); auto; lia.
    + intros [H%Z.leb_gt|H%Z.leb_gt]%andb_false_iff; lia.
  - wp_steps. split_and!; auto; [apply effect_refl|]. unfold page_is. rewrite Hri. split; [by exists pa|].
    intros o Ho. rewrite image_snoc, decide_False by lia. by apply Hb.
Qed.

Lemma elf_pages_done fuel curr : end_ <= curr -> elf_pages fuel as_ d phdrs ph load_bias curr = mret true.
Proof using Hseg.
  intros Hc. destruct Hseg as [Hend Hfile _ _]. pose proof (u64_range (ph.(p_vaddr) + load_bias)).
  destruct fuel; cbn [elf_pages]; fold start; rewrite u64_small by (unfold seg_start in *; lia); destruct (Z.leb_spec end_ curr); (done || lia).
Qed.

Definition seg_pages (a q : Z) : Prop := a = as_ /\ 0 <= q < 2 ^ 35 /\ cov q = true.

Lemma upto_all b q : 0 <= q < 2 ^ 35 -> 0 < ph.(p_memsz) -> end_ <= at_ b ->
  upto_page b q = f q ++ (if cov q then [ph] else []).
Proof using Hseg Htype.
  intros Hq Hm Hb. unfold upto_page. destruct (cov q) eqn:Hc; [|done]. apply covers_spec in Hc as [_ Hlt]; [|done..].
  destruct (Z.ltb_spec q b); [done|]. unfold PAGE_SIZE in *. lia.
Qed.

Lemma touched_next curr : at_ (curr / PAGE_SIZE + 1) < end_ ->
  Z.of_nat (touched curr end_) = 1 + Z.of_nat (touched (at_ (curr / PAGE_SIZE + 1)) end_).
Proof using.
  intros Hlt. unfold touched. rewrite Z.div_mul by done.
  assert (curr / PAGE_SIZE + 1 <= (end_ - 1) / PAGE_SIZE) by (apply Z.div_le_lower_bound; [done|]; lia). lia.
Qed.

Lemma elf_pages_ok fuel : forall s L curr,
  pt_inv s A L -> start <= curr < end_ -> (curr = start \/ curr = at_ (curr / PAGE_SIZE)) -> (touched curr end_ <= fuel)%nat ->
  (forall q, 0 <= q < 2 ^ 35 -> dom q -> page_is s q (upto_page (curr / PAGE_SIZE) q)) ->
  (forall q, 0 <= q < 2 ^ 35 -> cov q = true -> huge s.(v_mem) as_ (at_ q) = None) ->
  4 * Z.of_nat (touched curr end_) <= avail s.(v_pmm) ->
  wp nopanic (elf_pages fuel as_ d phdrs ph load_bias curr) (fun ok s' => exists L',
    ok = true /\ pt_inv s' A L' /\
    effect seg_pages (4 * Z.of_nat (touched curr end_)) A L s L' s' /\
    forall q, 0 <= q < 2 ^ 35 -> dom q -> page_is s' q (f q ++ (if cov q then [ph] else []))) s.
Proof using All.
  pose proof (u64_range (ph.(p_vaddr) + load_bias)) as Hs0. fold start in Hs0. destruct Hseg as [Hend Hfile Hoff Hdata].
  induction fuel as [|fuel IH]; intros s L curr Hi Hc Hst Hfuel Hall Hh Hav; cbn [elf_pages]; fold start; rewrite u64_small by lia;
    (destruct (Z.leb_spec end_ curr); [lia|]).
  { exfalso. unfold touched in Hfuel. assert (curr / PAGE_SIZE <= (end_ - 1) / PAGE_SIZE) by (apply Z.div_le_mono; [done|lia]). lia. }
  set (q := curr / PAGE_SIZE) in *. pose proof (in_page curr) as Hin. cbv zeta in Hin. fold q in Hin.
  destruct (page_of curr q Hin) as [_ Hpd]. rewrite Hpd.
  assert (Hq : 0 <= q < 2 ^ 35) by (unfold PAGE_SIZE in *; lia). destruct (at_low q Hq) as (Hq0&Hal&Hdiv&Hq1).
  assert (Hcov : cov q = true) by (apply covers_spec; lia).
  assert (Hpq : page_is s q (f q)).
  { specialize (Hall q Hq (Hdom q Hcov)). unfold upto_page in Hall. rewrite Z.ltb_irrefl, andb_false_r, app_nil_r in Hall. done. }
  assert (Htc : (1 <= touched curr end_)%nat).
  { unfold touched. assert (curr / PAGE_SIZE <= (end_ - 1) / PAGE_SIZE) by (apply Z.div_le_mono; [done|lia]). lia. }
  wp_steps. eapply wp_mono; [apply (elf_page_ok s L q (f q) ph); auto; lia|].
  intros pa s1 (L1&flags&Hi1&He1&Hnz&Hri&Hpl&Hb1). apply Z.eqb_neq in Hnz. rewrite Hnz.
  rewrite (u64_small (start + ph.(p_filesz))) by lia. rewrite (u64_small (curr + (PAGE_SIZE - (curr - at_ q)))) by lia.
  set (size := if end_ <? curr + (PAGE_SIZE - (curr - at_ q)) then end_ - curr else PAGE_SIZE - (curr - at_ q)). assert (Hsize : size = Z.min (at_ q + PAGE_SIZE) end_ - curr).
  { unfold size. destruct (Z.ltb_spec end_ (curr + (PAGE_SIZE - (curr - at_ q)))); lia. }
  wp_steps. eapply wp_mono; [by apply (copy_step s1 L1 q (f q) flags pa curr size)|]. intros _ s2 (Hi2&He2&Hp2).
  rewrite u64_small by lia. pose proof (effect_trans _ _ _ _ _ _ _ _ _ _ He1 He2) as He.
  pose proof (upto_next _ _ _ _ _ q He Hq Hcov Hp2 Hall) as Hall2.
  assert (He' : effect seg_pages 4 A L s L1 s2).
  { eapply effect_weaken; [exact He| |lia]. intros a r [-> ->]. rewrite key_page, Hdiv by lia. done. }
  destruct (decide (end_ <= at_ (q + 1))) as [Hlast|Hmore].
  - rewrite elf_pages_done by lia. wp_steps. exists L1. split_and!; auto; [eapply effect_weaken; [exact He'|done|lia]|].
    intros r Hr Hdr. rewrite <- (upto_all (q + 1)) by (auto; lia). by apply Hall2.
  - pose proof (touched_next curr ltac:(fold q; lia)) as Htn. fold q in Htn. pose proof (ef_avail _ _ _ _ _ _ _ He') as Hav2.
    replace (curr + size) with (at_ (q + 1)) by lia.
    eapply wp_mono; [apply (IH s2 L1 (at_ (q + 1))); rewrite ?Z.div_mul by done; auto; try lia|].
    + intros r Hr Hc'. rewrite (ef_huge _ _ _ _ _ _ _ He'); auto. destruct (at_low r Hr). by apply user_low.
    + intros ok s3 (L3&->&Hi3&He3&Hp3). exists L3. split_and!; auto. rewrite Htn.
      replace (4 * (1 + Z.of_nat (touched (at_ (q + 1)) end_))) with (4 + 4 * Z.of_nat (touched (at_ (q + 1)) end_)) by lia. by eapply effect_trans.
Qed.
End segment.
(** ** All segments *)
Definition segs_in (l : list Elf64_Phdr) (q : Z) : list Elf64_Phdr := filter (fun ph => covers (at_ q) load_bias ph = true) l.

(** The segments [l] are in memory. *)
Definition loaded (l : list Elf64_Phdr) (s : vmst) : Prop := forall q, 0 <= q < 2 ^ 35 -> dom q -> page_is s q (segs_in l q).

Lemma segs_in_snoc l ph q : segs_in (l ++ [ph]) q = segs_in l q ++ (if covers (at_ q) load_bias ph then [ph] else []).
Proof using. unfold segs_in. rewrite filter_app. cbn. by destruct (covers (at_ q) load_bias ph). Qed.

(** The pages that loading [l] takes at most, with their tables. *)
Definition seg_cost (ph : Elf64_Phdr) : Z :=
  if (ph.(p_type) =? PT_LOAD) && negb (ph.(p_memsz) =? 0)
  then 4 * Z.of_nat (touched (seg_start load_bias ph) (seg_start load_bias ph + ph.(p_memsz))) else 0.
Definition load_cost (l : list Elf64_Phdr) : Z := foldr (fun ph n => seg_cost ph + n) 0 l.

Lemma seg_cost_nonneg ph : 0 <= seg_cost ph.
Proof using. unfold seg_cost. case_match; lia. Qed.
Lemma load_cost_nonneg l : 0 <= load_cost l.
Proof using. induction l as [|ph l IH]; [done|]. cbn [load_cost foldr]. pose proof (seg_cost_nonneg ph). unfold load_cost in IH. lia. Qed.

(** What the loader relies on. *)
Definition phdr_ok (ph : Elf64_Phdr) : Prop :=
  (ph.(p_type) = PT_LOAD -> seg_ok d load_bias ph) /\
  (ph.(p_type) = PT_INTERP -> 0 <= ph.(p_offset) /\ ph.(p_offset) + Z.min ph.(p_filesz) 255 <= zlen d).

Lemma covers_no ph q : ~ (ph.(p_type) = PT_LOAD /\ ph.(p_memsz) <> 0) -> covers q load_bias ph = false.
Proof using.
  intros Hn. unfold covers. destruct (Z.eqb_spec ph.(p_type) PT_LOAD), (Z.eqb_spec ph.(p_memsz) 0); try done. by destruct Hn.
Qed.

Definition pages_in (l : list Elf64_Phdr) (a q : Z) : Prop := a = as_ /\ 0 <= q < 2 ^ 35 /\ segs_in l q <> [].

Lemma loaded_skip l ph s : ~ (ph.(p_type) = PT_LOAD /\ ph.(p_memsz) <> 0) -> loaded l s -> loaded (l ++ [ph]) s.
Proof using. intros Hno Hl q Hq Hd. rewrite segs_in_snoc, covers_no, app_nil_r by done. by apply Hl. Qed.

Lemma segs_in_one ph q : covers (at_ q) load_bias ph = true -> segs_in [ph] q = [ph].
Proof using. intros Hc. change [ph] with ([] ++ [ph]) at 1. rewrite segs_in_snoc. by rewrite Hc. Qed.

Lemma seg_pages_in ph a q : seg_pages ph a q -> pages_in [ph] a q.
Proof using. intros (->&Hq&Hc). split; [done|]. split; [done|]. by rewrite segs_in_one. Qed.

Lemma upto_start_page ph f q : seg_ok d load_bias ph -> ph.(p_type) = PT_LOAD -> 0 < ph.(p_memsz) -> 0 <= q < 2 ^ 35 ->
  upto_page ph f (seg_start load_bias ph / PAGE_SIZE) q = f q.
Proof using.
  intros Hs Ht Hm Hq. unfold upto_page. destruct (covers (at_ q) load_bias ph) eqn:Hc; [|apply app_nil_r].
  apply covers_spec in Hc as [Hlt _]; auto.
  assert (seg_start load_bias ph / PAGE_SIZE < q + 1) by (apply Z.div_lt_upper_bound; [done|]; lia).
  destruct (Z.ltb_spec q (seg_start load_bias ph / PAGE_SIZE)); [lia|]. apply app_nil_r.
Qed.

Lemma elf_segment_ok s L l ph info :
  pt_inv s A L -> phdr_ok ph -> (forall q, covers (at_ q) load_bias ph = true -> dom q) -> loaded l s ->
  (forall q, 0 <= q < 2 ^ 35 -> covers (at_ q) load_bias ph = true -> huge s.(v_mem) as_ (at_ q) = None) ->
  seg_cost ph <= avail s.(v_pmm) ->
  wp nopanic (elf_segment as_ d phdrs load_bias info ph) (fun r s' => exists L',
    r = (elf_note d load_bias info ph, true) /\ pt_inv s' A L' /\ effect (pages_in [ph]) (seg_cost ph) A L s L' s' /\
    loaded (l ++ [ph]) s') s.
Proof using Ha.
  intros Hi [Hld Hin] Hdm Hl Hh Hav. unfold elf_segment. wp_steps.
  assert (Hfile : wp nopanic (if p_type ph =? PT_INTERP then in_file d (p_offset ph) (Z.min (p_filesz ph) 255) else mret ()) (fun _ s' => s' = s) s).
  { destruct (Z.eqb_spec ph.(p_type) PT_INTERP) as [He|]; [|done]. destruct (Hin He) as [H0 H1]. unfold in_file. wp_steps; [done|].
    intros [H2%Z.leb_gt|H2%Z.leb_gt]%andb_false_iff; lia. }
  eapply wp_mono; [exact Hfile|]. intros _ ? ->. wp_steps.
  destruct (decide (ph.(p_type) = PT_LOAD /\ ph.(p_memsz) <> 0)) as [[Ht Hm]|Hno].
  - specialize (Hld Ht). destruct (Hld) as [Hend Hfs _ _]. pose proof (u64_range (ph.(p_vaddr) + load_bias)) as Hs0.
    rewrite Ht. cbn [Z.eqb Pos.eqb]. cbv zeta. change (u64 (ph.(p_vaddr) + load_bias)) with (seg_start load_bias ph) in *.
    rewrite u64_small by lia. assert (Hcost : seg_cost ph = 4 * Z.of_nat (touched (seg_start load_bias ph) (seg_start load_bias ph + ph.(p_memsz)))).
    { unfold seg_cost. rewrite Ht. by destruct (Z.eqb_spec ph.(p_memsz) 0). }
    rewrite Hcost in *. eapply wp_mono; [apply (elf_pages_ok ph (segs_in l) Hld Ht Hdm _ s L); auto; [lia|]|].
    + intros q Hq Hd. rewrite upto_start_page by (auto; lia). by apply Hl.
    + intros ok s' (L'&->&Hi'&He&Hp). wp_steps. exists L'. split_and!; auto.
      * eapply effect_weaken; [exact He|intros a q; apply seg_pages_in|lia].
      * intros q Hq Hd. rewrite segs_in_snoc. by apply Hp.
  - assert (Hskip : wp nopanic (if p_type ph =? PT_LOAD then
      elf_pages (touched (u64 (p_vaddr ph + load_bias)) (u64 (u64 (p_vaddr ph + load_bias) + p_memsz ph))) as_ d phdrs ph load_bias
        (u64 (p_vaddr ph + load_bias)) else mret true) (fun ok s' => ok = true /\ s' = s) s).
    { destruct (Z.eqb_spec ph.(p_type) PT_LOAD) as [Ht|]; [|done]. assert (ph.(p_memsz) = 0) by (destruct (decide (ph.(p_memsz) = 0)); [done|tauto]).
      rewrite elf_pages_done; [done|by apply Hld|]. unfold seg_start. lia. }
    eapply wp_mono; [exact Hskip|]. intros ok ? [-> ->]. wp_steps. exists L. split_and!; auto using loaded_skip, effect_same, seg_cost_nonneg.
Qed.

Lemma segs_in_cons ph l q : segs_in (ph :: l) q = segs_in [ph] q ++ segs_in l q.
Proof using. unfold segs_in. by rewrite <- filter_app. Qed.

Lemma elf_segments_ok rest : forall s L l info,
  pt_inv s A L -> Forall phdr_ok rest -> (forall q, segs_in rest q <> [] -> dom q) -> loaded l s ->
  (forall q, 0 <= q < 2 ^ 35 -> segs_in rest q <> [] -> huge s.(v_mem) as_ (at_ q) = None) ->
  load_cost rest <= avail s.(v_pmm) ->
  wp nopanic (elf_segments as_ d phdrs rest load_bias info) (fun r s' => exists L',
    r = foldl (elf_note d load_bias) info rest /\ pt_inv s' A L' /\ effect (pages_in rest) (load_cost rest) A L s L' s' /\
    loaded (l ++ rest) s') s.
Proof using Ha.
  induction rest as [|ph rest IH]; intros s L l info Hi Hok Hd Hl Hh Hav; cbn [elf_segments].
  { wp_steps. exists L. rewrite app_nil_r. split_and!; auto. apply effect_refl. }
  apply Forall_cons in Hok as [Hph Hok]. cbn [load_cost foldr] in *. fold (load_cost rest) in *. pose proof (load_cost_nonneg rest).
  assert (Hd1 : forall q, covers (at_ q) load_bias ph = true -> segs_in (ph :: rest) q <> []).
  { intros q Hc. rewrite segs_in_cons. by rewrite segs_in_one. }
  assert (Hd2 : forall q, segs_in rest q <> [] -> segs_in (ph :: rest) q <> []).
  { intros q Hc. rewrite segs_in_cons. by intros [_ ?]%app_nil. }
  wp_steps. eapply wp_mono; [apply (elf_segment_ok s L l ph info); auto; lia|].
  intros r s1 (L1&->&Hi1&He1&Hl1). cbv beta iota. pose proof (ef_avail _ _ _ _ _ _ _ He1).
  eapply wp_mono; [apply (IH s1 L1 (l ++ [ph])); auto; [|lia]|].
  - intros q Hq Hc. rewrite (ef_huge _ _ _ _ _ _ _ He1); auto. by apply user_low, at_low.
  - intros r s2 (L2&->&Hi2&He2&Hl2). exists L2. rewrite <- app_assoc in Hl2. split_and!; auto.
    eapply effect_trans; (eapply effect_weaken; [eassumption| |reflexivity]); intros a q (->&Hq&Hc); (split; [done|]); (split; [done|]); rewrite segs_in_cons;
      by intros [? ?]%app_nil.
Qed.
End pages.

(** ** Rights and contents of the image *)
Definition loads (l : list Elf64_Phdr) : list Elf64_Phdr := filter (fun ph => ph.(p_type) = PT_LOAD) l.

(** Some segment in the page of [va] has the flag. *)
Definition page_has (load_bias : Z) (l : list Elf64_Phdr) (va flag : Z) : bool :=
  existsb (fun ph => covers (page_down va) load_bias ph && negb (Z.land ph.(p_flags) flag =? 0)) l.

Lemma lor_any a b k : negb (Z.land (Z.lor a b) k =? 0) = negb (Z.land a k =? 0) || negb (Z.land b k =? 0).
Proof.
  rewrite Z.land_lor_distr_l. destruct (Z.eqb_spec (Z.land a k) 0) as [Ha|Ha], (Z.eqb_spec (Z.land b k) 0) as [Hb|Hb];
    destruct (Z.eqb_spec (Z.lor (Z.land a k) (Z.land b k)) 0) as [H|H]; try done; [by rewrite Ha, Hb in H|..];
    apply Z.lor_eq_0_iff in H as []; done.
Qed.

Lemma merged_any load_bias l base m k :
  negb (Z.land (foldl (fun merged ph => if covers base load_bias ph then Z.lor merged ph.(p_flags) else merged) m l) k =? 0) =
  negb (Z.land m k =? 0) || existsb (fun ph => covers base load_bias ph && negb (Z.land ph.(p_flags) k =? 0)) l.
Proof.
  revert m. induction l as [|ph l IH]; intros m; cbn [foldl existsb]; [by rewrite orb_false_r|]. rewrite IH.
  destruct (covers base load_bias ph); [rewrite lor_any, orb_assoc|]; done.
Qed.

Lemma page_flags load_bias l va :
  elf_page_vmm_flags l (page_down va) load_bias = arch_vm_user_page_flags (page_has load_bias l va PF_W) (page_has load_bias l va PF_X).
Proof. unfold elf_page_vmm_flags, elf_flags_to_vmm. by rewrite !merged_any. Qed.

Lemma page_flags_one load_bias l base ph :
  segs_in load_bias l (base / PAGE_SIZE) = [ph] -> base = base / PAGE_SIZE * PAGE_SIZE ->
  elf_page_vmm_flags l base load_bias = elf_flags_to_vmm ph.(p_flags).
Proof.
  intros Hs Hb. unfold elf_page_vmm_flags, segs_in in *. rewrite <- Hb in Hs. f_equal.
  assert (Hf : forall m, foldl (fun merged ph => if covers base load_bias ph then Z.lor merged ph.(p_flags) else merged) m l =
                         foldl (fun merged ph => Z.lor merged ph.(p_flags)) m (filter (fun ph => covers base load_bias ph = true) l)).
  { clear. induction l as [|x l IH]; intros m; [done|]. cbn [foldl]. rewrite IH, filter_cons.
    destruct (covers base load_bias x); [by rewrite decide_True|by rewrite decide_False]. }
  by rewrite Hf, Hs.
Qed.

(** Segments outside the page have no say in its bytes. *)
Lemma image_segs d load_bias l q v :
  Forall (fun ph => ph.(p_type) = PT_LOAD -> seg_ok d load_bias ph) l -> 0 <= q < 2 ^ 35 ->
  q * PAGE_SIZE <= v < q * PAGE_SIZE + PAGE_SIZE -> image d load_bias (segs_in load_bias l q) v = image d load_bias (loads l) v.
Proof.
  intros Hok Hq Hv. unfold image. generalize 0. induction Hok as [|ph l Hph _ IH]; intros b; [done|].
  unfold segs_in, loads in *. rewrite !filter_cons. destruct (decide (ph.(p_type) = PT_LOAD)) as [Ht|Ht].
  - specialize (Hph Ht). destruct (covers (q * PAGE_SIZE) load_bias ph) eqn:Hc; [rewrite decide_True by done; apply IH|].
    rewrite decide_False by done. cbn [foldl]. rewrite IH. f_equal. cbv zeta.
    destruct Hph as [Hend Hfs Hoff Hdata] eqn:Hph'. clear Hph'.
    destruct (Z.leb_spec (seg_start load_bias ph) v), (Z.ltb_spec v (seg_start load_bias ph + ph.(p_filesz))); try done. exfalso.
    assert (covers (q * PAGE_SIZE) load_bias ph = true) by (apply (covers_spec d load_bias ph Hph Ht q Hq); lia). congruence.
  - rewrite covers_no by tauto. rewrite decide_False by done. apply IH.
Qed.

Lemma wp_in_file {S} (d : list Z) off n (Q : unit -> S -> Prop) s :
  0 <= off -> off + n <= zlen d -> Q tt s -> wp nopanic (in_file d off n) Q s.
Proof. intros. unfold in_file. wp_steps; [done|]. intros [H2%Z.leb_gt|H2%Z.leb_gt]%andb_false_iff; lia. Qed.

(** A file the loader can take. *)
Record elf_ok (d : list Z) (load_bias : Z) : Prop := {
  eo_magic : take 4 d = ELFMAG;
  eo_header : EHDR_SIZE <= zlen d;
  eo_phdrs : 0 <= (ehdr_of d).(e_phoff) /\ (ehdr_of d).(e_phoff) + PHDR_SIZE * (ehdr_of d).(e_phnum) <= zlen d;
  eo_segs : Forall (phdr_ok d load_bias) (phdrs_of d);
}.

Section load.
Variables (s : vmst) (A L : list Z) (as_ : Z) (d : list Z) (load_bias : Z).
Abbreviation phdrs := (phdrs_of d).
Hypotheses (Hi : pt_inv s A L) (Ha : as_ ∈ A) (Hok : elf_ok d load_bias).
(** Nothing is mapped where the program goes. *)
Hypothesis Hfree : forall q, 0 <= q < 2 ^ 35 -> segs_in load_bias phdrs q <> [] ->
  view s.(v_mem) as_ (q * PAGE_SIZE) = None /\ huge s.(v_mem) as_ (q * PAGE_SIZE) = None.
Hypothesis Hroom : load_cost load_bias phdrs <= avail s.(v_pmm).

Definition elf_result : elf_info := foldl (elf_note d load_bias) (elf_start d load_bias) phdrs.

(** What is at [va] after the load. *)
Definition loaded_at (s' : vmst) (va : Z) : Prop :=
  if bool_decide (segs_in load_bias phdrs (va / PAGE_SIZE) = [])
  then view s'.(v_mem) as_ va = view s.(v_mem) as_ va /\ ub s' as_ va = ub s as_ va
  else (exists pa, placed s' as_ va (arch_vm_user_page_flags (page_has load_bias phdrs va PF_W) (page_has load_bias phdrs va PF_X)) pa) /\
       ub s' as_ va = Some (image d load_bias (loads phdrs) va).

Lemma elf_load_starts Q :
  wp nopanic (elf_segments as_ d phdrs phdrs load_bias (elf_start d load_bias)) Q s -> wp nopanic (elf_load as_ d load_bias) Q s.
Proof using Hok.
  intros Hw. destruct Hok as [Hm Hh [Hp0 Hp1] _]. unfold elf_load.
  wp_steps. apply wp_in_file; [lia..|]. rewrite bool_decide_eq_false_2 by (by intros []).
  wp_steps. apply wp_in_file; [lia..|]. wp_steps. by apply wp_in_file.
Qed.

Lemma loaded_page s' L' va :
  loaded as_ d phdrs load_bias (fun q => segs_in load_bias phdrs q <> []) phdrs s' ->
  effect (pages_in as_ load_bias phdrs) (load_cost load_bias phdrs) A L s L' s' -> 0 <= va < 2 ^ 47 -> loaded_at s' va.
Proof using Ha Hok.
  intros Hl He Hva. unfold loaded_at. set (q := va / PAGE_SIZE).
  assert (Hq : 0 <= q < 2 ^ 35) by (split; [apply Z.div_pos; [lia|done]|apply Z.div_lt_upper_bound; [done|unfold PAGE_SIZE; lia]]).
  pose proof (in_page va) as Hin. cbv zeta in Hin. fold q in Hin. destruct (page_of va q Hin) as [_ Hpd].
  pose proof (user_low va Hva) as Hu. assert (Hk : key 4 va = q) by (rewrite key_page by lia; done).
  case_bool_decide as Hnil.
  { assert (Hout : ~ pages_in as_ load_bias phdrs as_ (key 4 va)) by (rewrite Hk; by intros (_&_&?)).
    split; [by apply (ef_view _ _ _ _ _ _ _ He)|by apply (ub_effect _ _ _ _ _ _ _ _ _ He)]. }
  specialize (Hl q Hq Hnil). unfold page_is in Hl.
  assert (Hfl : seg_flags phdrs load_bias q (segs_in load_bias phdrs q) = Some (elf_page_vmm_flags phdrs (q * PAGE_SIZE) load_bias)).
  { destruct (segs_in load_bias phdrs q) as [|ph [|ph' l]] eqn:Hs; [done| |done]. cbn. f_equal. symmetry.
    apply page_flags_one; rewrite Z.div_mul by done; done. }
  rewrite Hfl, <- Hpd, page_flags in Hl. destruct Hl as [(pa&Hpl) Hb].
  assert (Hkk : key 4 va = key 4 (page_down va)) by (rewrite Hpd, Hk, key_page by (unfold PAGE_SIZE in *; lia); by rewrite Z.div_mul).
  split.
  - exists pa. unfold placed in *. by rewrite (view_key _ _ va _ Hkk).
  - replace va with (page_down va + (va - page_down va)) at 1 by lia. rewrite Hb by lia. replace (page_down va + (va - page_down va)) with va by lia.
    rewrite image_segs; [done| |done|done]. eapply Forall_impl; [apply Hok|]. by intros ph [? _].
Qed.

Lemma elf_load_ok : wp nopanic (elf_load as_ d load_bias) (fun info s' => exists L',
  info = elf_result /\ pt_inv s' A L' /\
  effect (pages_in as_ load_bias phdrs) (load_cost load_bias phdrs) A L s L' s' /\
  forall va, 0 <= va < 2 ^ 47 -> loaded_at s' va) s.
Proof using All.
  apply elf_load_starts.
  eapply wp_mono; [apply (elf_segments_ok A as_ d phdrs load_bias Ha (fun q => segs_in load_bias phdrs q <> []) phdrs s L []); auto|].
  - apply Hok.
  - intros q Hq Hd. apply Hfree; auto.
  - intros q Hq Hd. by apply Hfree.
  - intros info s' (L'&->&Hi'&He&Hl). exists L'. split_and!; auto. intros va Hva. by apply (loaded_page s' L').
Qed.
End load.
