(* ===== verification/Exec.v ===== *)
(** * Starting a program (kernel/task_exec.c)

    [task_execve] copies the strings of the caller into a buffer, follows
    [#!] lines, loads the program and its interpreter into a new address
    space, builds the first stack and switches the task over.

    Files come from the descriptor layer, which is a parameter, and so do the
    buffers it lends for them.  The buffer of the strings is a value here:
    what it holds is [exec_copy_buf], its pages are allocated and freed as in
    the code.  Strings are lists of bytes without the terminating 0. *)
From S2P Require Import Prelude State Pmm Pte VmCow Bytes Vmm Mmap Elf.

Abbreviation EXEC_ARG_TOTAL := (256 * 1024).
Abbreviation EXEC_COPY_PAGES := 80.
Abbreviation EXEC_MAX_PATH_LEN := 1024.
Abbreviation EXEC_MAX_VEC_STRINGS := 2048.
Abbreviation E2BIG := 7.
Abbreviation ELOOP := 40.
Abbreviation EXEC_ET_DYN_LOAD_BASE := 0x400000.
Abbreviation EXEC_INTERP_LOAD_BASE := 0x7fc000000000.
Abbreviation EXEC_PTRS_PAGES := 8.
Abbreviation USER_STACK_TOP_VADDR := 0x7FFFFFFFF000.
Abbreviation USER_STACK_PAGES := 64.
Abbreviation USER_STACK_GUARD_PAGES := 1.
Abbreviation USER_STACK_MAX_PAGES := 2048.

(** What is needed of the rest of the kernel: the contents of a file, and
    where physical memory is mapped. *)
Class ExecEnv := {
  fs_get_file_data : list Z -> option (list Z);
  g_hhdm_offset : Z;
}.

(** The fields of [struct task] that exec uses. *)
Record exec_task := mkXt {
  xt_mm : mm_task; xt_stack : fault_task; user_stack_top : Z;
  user_argc : Z; user_argv : Z; user_envp : Z; user_stack : Z; user_entry : Z;
  deferred_cr3 : Z;
  xt_sig_pending : Z; xt_sig_mask : Z; xt_sig_handlers : list Z; xt_sig_action_masks : list Z; xt_sig_action_flags : list Z;
  user_fs_base : Z; tls_vaddr : Z; tls_filesz : Z; tls_memsz : Z; tls_align : Z;
  comm : list Z }.

Definition set_user_stack (t : exec_task) (top bottom guard : Z) : exec_task :=
  mkXt t.(xt_mm) (mkFaultTask guard bottom) top t.(user_argc) t.(user_argv) t.(user_envp) t.(user_stack) t.(user_entry)
    t.(deferred_cr3) t.(xt_sig_pending) t.(xt_sig_mask) t.(xt_sig_handlers) t.(xt_sig_action_masks) t.(xt_sig_action_flags)
    t.(user_fs_base) t.(tls_vaddr) t.(tls_filesz) t.(tls_memsz) t.(tls_align) t.(comm).
Definition set_user_args (t : exec_task) (argc argv envp stack : Z) : exec_task :=
  mkXt t.(xt_mm) t.(xt_stack) t.(user_stack_top) argc argv envp stack t.(user_entry)
    t.(deferred_cr3) t.(xt_sig_pending) t.(xt_sig_mask) t.(xt_sig_handlers) t.(xt_sig_action_masks) t.(xt_sig_action_flags)
    t.(user_fs_base) t.(tls_vaddr) t.(tls_filesz) t.(tls_memsz) t.(tls_align) t.(comm).
Definition set_deferred (t : exec_task) (cr3 : Z) : exec_task :=
  mkXt t.(xt_mm) t.(xt_stack) t.(user_stack_top) t.(user_argc) t.(user_argv) t.(user_envp) t.(user_stack) t.(user_entry)
    cr3 t.(xt_sig_pending) t.(xt_sig_mask) t.(xt_sig_handlers) t.(xt_sig_action_masks) t.(xt_sig_action_flags)
    t.(user_fs_base) t.(tls_vaddr) t.(tls_filesz) t.(tls_memsz) t.(tls_align) t.(comm).

Record xst := mkX { x_vm : vmst; x_task : exec_task }.
Definition xvm {A} (c : ST vmst A) : ST xst A := lift x_vm (fun x s => mkX s x.(x_task)) c.
Definition upd_task (f : exec_task -> exec_task) : ST xst unit := modify (fun x => mkX x.(x_vm) (f x.(x_task))).

(** Computations that may fail with an error code. *)
Definition ebind {S A B} (m : ST S (Z + A)) (k : A -> ST S (Z + B)) : ST S (Z + B) :=
  r ← m; match r with inl e => mret (inl e) | inr a => k a end.
Notation "x ←? m ; k" := (ebind m (fun x => k)) (at level 20, m at level 100, k at level 200, right associativity).

Section exec.
Context `{ExecEnv}.

(** ** Strings of the caller *)

(** A byte the kernel reads through a pointer of the process.  Pointers are
    compared with 0x1000 only; one that leads out of the user half, where
    the code reads the kernel's own memory, is outside the model. *)
Definition kernel_read (s : vmst) (as_ va : Z) : option Z :=
  if (0 <=? va) && (va <? 2 ^ 47) then
    let phys := vmm_get_phys s.(v_mem) as_ va in
    if phys =? 0 then None else Some (s.(v_mem) phys)
  else None.

Definition user_char (va : Z) : ST xst Z := fun x =>
  match kernel_read x.(x_vm) x.(x_task).(xt_mm).(mm_as) va with
  | Some b => Ok (b, x)
  | None => Halt Undefined
  end.

Fixpoint user_chars (n : nat) (va : Z) : ST xst (list Z) :=
  match n with
  | O => mret []
  | S n => b ← user_char va; l ← user_chars n (va + 1); mret (b :: l)
  end.
Definition user_ptr (va : Z) : ST xst Z := l ← user_chars 8 va; mret (le_val l).

(** The string at [va] if it ends within [n] bytes. *)
Fixpoint user_str (n : nat) (va : Z) : ST xst (option (list Z)) :=
  match n with
  | O => mret None
  | S n =>
      b ← user_char va;
      if b =? 0 then mret (Some []) else r ← user_str n (va + 1); mret (cons b <$> r)
  end.

(** [eb_storage]: what [storage] holds up to [used]; [eb_base] is its
    address.  The vectors are the pointers before the terminating null. *)
Record exec_copy_buf := mkBuf {
  eb_base : Z; eb_path : list Z; eb_argv : list Z; eb_envp : list Z; eb_storage : list Z }.
Definition eb_used (b : exec_copy_buf) : Z := zlen b.(eb_storage).

Definition copy_user_cstring (src size : Z) : ST xst (Z + list Z) :=
  if src <? 0x1000 then mret (inl (-1)) else
  r ← user_str (Z.to_nat (size - 1)) src;
  mret (match r with Some l => inr l | None => inl (-1) end).

Definition arg_push (b : exec_copy_buf) (src : list Z) : option (Z * exec_copy_buf) :=
  let len := zlen src + 1 in
  if EXEC_ARG_TOTAL <? eb_used b + len then None else
  Some (b.(eb_base) + eb_used b, mkBuf b.(eb_base) b.(eb_path) b.(eb_argv) b.(eb_envp) (b.(eb_storage) ++ src ++ [0])).

Definition arg_push_user (b : exec_copy_buf) (src : Z) : ST xst (Z + (Z * exec_copy_buf)) :=
  if src <? 0x1000 then mret (inl (-1)) else
  let room := EXEC_ARG_TOTAL - eb_used b in
  if room <=? 1 then mret (inl (- E2BIG)) else
  r ← user_str (Z.to_nat (room - 1)) src;
  mret (match r with
        | Some l => inr (b.(eb_base) + eb_used b, mkBuf b.(eb_base) b.(eb_path) b.(eb_argv) b.(eb_envp) (b.(eb_storage) ++ l ++ [0]))
        | None => inl (- E2BIG)
        end).

(** The pointers from [user_vec] on, at most [n], and the strings they lead
    to. *)
Fixpoint copy_strings (n : nat) (b : exec_copy_buf) (user_vec : Z) : ST xst (Z + (list Z * exec_copy_buf)) :=
  src ← user_ptr user_vec;
  if src =? 0 then mret (inr ([], b)) else
  match n with
  | O => mret (inl (- E2BIG))
  | S n =>
      r ←? arg_push_user b src;
      r2 ←? copy_strings n r.2 (user_vec + 8);
      mret (inr (r.1 :: r2.1, r2.2))
  end.

Definition copy_user_string_vector (b : exec_copy_buf) (user_vec : Z) : ST xst (Z + (list Z * exec_copy_buf)) :=
  if user_vec =? 0 then mret (inr ([], b)) else
  if user_vec <? 0x1000 then mret (inl (-1)) else
  copy_strings (Z.to_nat EXEC_MAX_VEC_STRINGS) b user_vec.

(** ** [#!] lines *)
Definition blank (b : Z) : bool := (b =? 32) || (b =? 9).
Fixpoint skip_blank (l : list Z) : list Z :=
  match l with
  | [] => []
  | b :: r => if blank b then skip_blank r else l
  end.
(** At most [n] bytes before the first that [stop]s, and the rest. *)
Fixpoint upto_stop (n : nat) (stop : Z -> bool) (l : list Z) : list Z * list Z :=
  match n, l with
  | S n, b :: r => if stop b then ([], l) else let '(h, r) := upto_stop n stop r in (b :: h, r)
  | _, _ => ([], l)
  end.
Definition trim_blank (l : list Z) : list Z := rev (skip_blank (rev l)).

(** Interpreter and argument of a first line, of which 1024 bytes are
    looked at. *)
Definition shebang_line (head : list Z) : list Z * list Z :=
  let '(interp, rest) := upto_stop 255 (fun b => (b =? 10) || (b =? 32) || (b =? 9) || (b =? 13)) (skip_blank (drop 2 (take 1024 head))) in
  let '(sharg, _) := upto_stop 255 (fun b => (b =? 10) || (b =? 13)) (skip_blank rest) in
  (interp, trim_blank sharg).

(** The vector for the interpreter: its path, the argument if there is one,
    the path of the script, and the arguments of the script. *)
Definition shebang_argv (b : exec_copy_buf) (interp sharg : list Z) : Z + exec_copy_buf :=
  let k := if bool_decide (sharg = []) then 1 else 2 in
  if EXEC_MAX_VEC_STRINGS <? Z.max (zlen b.(eb_argv)) 1 + k then inl (- E2BIG) else
  match arg_push b (cstr interp) with
  | None => inl (- E2BIG)
  | Some (p1, b1) =>
      match (if bool_decide (sharg = []) then Some ([], b1)
             else match arg_push b1 (cstr sharg) with Some (p, b2) => Some ([p], b2) | None => None end) with
      | None => inl (- E2BIG)
      | Some (p2, b2) =>
          match arg_push b2 b.(eb_path) with
          | None => inl (- E2BIG)
          | Some (p3, b3) =>
              inr (mkBuf b.(eb_base) (take (Z.to_nat (EXEC_MAX_PATH_LEN - 1)) (cstr interp))
                     (p1 :: p2 ++ p3 :: drop 1 b.(eb_argv)) b.(eb_envp) b3.(eb_storage))
          end
      end
  end.

Definition is_script (d : list Z) : bool := (2 <=? zlen d) && (zget d 0 =? 35) && (zget d 1 =? 33).

(** The program to load, and its arguments; [more] [#!] lines may be
    followed. *)
Fixpoint resolve_script (more : nat) (b : exec_copy_buf) : Z + (exec_copy_buf * list Z) :=
  match fs_get_file_data b.(eb_path) with
  | None => inl (-1)
  | Some d =>
      if negb (is_script d) then inr (b, d) else
      match more with
      | O => inl (- ELOOP)
      | S more =>
          let '(interp, sharg) := shebang_line d in
          if bool_decide (interp = []) then inl (-1) else
          match shebang_argv b interp sharg with
          | inl e => inl e
          | inr b => resolve_script more b
          end
      end
  end.

(** ** The interpreter of a program *)
Definition codes (s : string) : list Z := (fun a => Z.of_nat (Ascii.nat_of_ascii a)) <$> String.list_ascii_of_string s.

(** What follows the last slash. *)
Fixpoint path_basename (path : list Z) : list Z :=
  match path with
  | [] => []
  | b :: r => if bool_decide (47 ∈ r) then path_basename r else if b =? 47 then r else path
  end.

Definition resolve_interp_file (interp_path : list Z) : option (list Z) :=
  match fs_get_file_data interp_path with
  | Some d => Some d
  | None => if bool_decide (path_basename interp_path = codes "ld-musl-x86_64.so.1")
            then fs_get_file_data (codes "/lib/ld-musl-x86_64.so.1") else None
  end.

Definition task_set_comm_from_path (path : list Z) : list Z := take 63 (path_basename path).

(** ** The first stack *)
Fixpoint stack_frames (n : nat) (as_ va : Z) : ST vmst (option (list Z)) :=
  match n with
  | O => mret (Some [])
  | S n =>
      stack_phys ← alloc_page;
      if stack_phys =? 0 then mret None else
      zero_page stack_phys ;;
      vmm_map_page as_ va stack_phys (arch_vm_user_page_flags true false) ;;
      r ← stack_frames n as_ (va + PAGE_SIZE);
      mret (cons stack_phys <$> r)
  end.

(** The frames of the stack, lowest first. *)
Definition alloc_user_stack (as_ stack_pages : Z) : ST xst (Z + list Z) :=
  if (as_ =? 0) || (stack_pages <=? USER_STACK_GUARD_PAGES) then mret (inl (-1)) else
  let stack_bottom_vaddr := USER_STACK_TOP_VADDR - stack_pages * PAGE_SIZE in
  let mapped_bottom_vaddr := stack_bottom_vaddr + USER_STACK_GUARD_PAGES * PAGE_SIZE in
  r ← xvm (stack_frames (Z.to_nat (stack_pages - USER_STACK_GUARD_PAGES)) as_ mapped_bottom_vaddr);
  match r with
  | None => mret (inl (-1))
  | Some frames =>
      upd_task (fun t => set_user_stack t USER_STACK_TOP_VADDR mapped_bottom_vaddr stack_bottom_vaddr) ;;
      mret (inr frames)
  end.

(** The loop that extends the stack down to [page_va], one page a round. *)
Fixpoint grow_stack (fuel : nat) (as_ page_va : Z) : ST xst Z :=
  bottom ← gets (fun x => x.(x_task).(xt_stack).(user_stack_bottom));
  if bottom <=? page_va then
    upd_task (fun t => set_user_stack t t.(user_stack_top) bottom (bottom - PAGE_SIZE)) ;; mret 0
  else
  match fuel with
  | O => halt Undefined
  | S fuel =>
      let va := bottom - PAGE_SIZE in
      phys ← xvm alloc_page;
      if phys =? 0 then mret (-1) else
      xvm (zero_page phys) ;;
      xvm (vmm_map_page as_ va phys (arch_vm_user_page_flags true false)) ;;
      upd_task (fun t => set_user_stack t t.(user_stack_top) va t.(xt_stack).(user_stack_guard)) ;;
      grow_stack fuel as_ page_va
  end.

Definition task_grow_user_stack (fault_addr : Z) : ST xst Z :=
  t ← gets x_task;
  let as_ := t.(xt_mm).(mm_as) in
  if (t.(user_stack_top) =? 0) || (as_ =? 0) then mret (-1) else
  if (t.(xt_stack).(user_stack_bottom) <=? fault_addr) || (t.(user_stack_top) <=? fault_addr) then mret (-1) else
  if fault_addr <? u64 (t.(user_stack_top) - USER_STACK_MAX_PAGES * PAGE_SIZE) then mret (-1) else
  let page_va := page_down fault_addr in
  grow_stack (Z.to_nat ((t.(xt_stack).(user_stack_bottom) - page_va) / PAGE_SIZE)) as_ page_va.

(** Bytes from [rel] bytes above the bottom on, page by page. *)
Fixpoint stack_write_from (fuel : nat) (frames : list Z) (rel : Z) (bytes : list Z) : ST vmst Z :=
  if bool_decide (bytes = []) then mret 0 else
  match fuel with
  | O => halt Undefined
  | S fuel =>
      let page_off := rel mod PAGE_SIZE in
      let chunk := Z.min (PAGE_SIZE - page_off) (zlen bytes) in
      let page := zget frames (rel / PAGE_SIZE) in
      if page =? 0 then mret (-1) else
      modify (fun s => with_mem s (mblit s.(v_mem) (page + page_off) (slice bytes 0 chunk))) ;;
      stack_write_from fuel frames (rel + chunk) (drop (Z.to_nat chunk) bytes)
  end.

(** [mapped_bottom_vaddr] and [stack_top_vaddr] bound the mapped part. *)
Section stack.
Variables (frames : list Z) (mapped_bottom_vaddr stack_top_vaddr : Z).

Definition stack_write_bytes (user_addr : Z) (src : list Z) : ST vmst Z :=
  if (user_addr <? mapped_bottom_vaddr) || (stack_top_vaddr <? u64 (user_addr + zlen src)) then mret (-1) else
  stack_write_from (length src) frames (user_addr - mapped_bottom_vaddr) src.

Definition stack_write_u64 (user_addr value : Z) : ST vmst Z := stack_write_bytes user_addr (le_bytes 8 value).

(** The string at the kernel address [src] goes below [current_sp]. *)
Definition copy_user_string_to_stack (kstr : Z -> list Z) (current_sp src : Z) : ST vmst (option Z) :=
  if src <? 0x1000 then mret None else
  let len := zlen (kstr src) + 1 in
  if current_sp <? u64 (mapped_bottom_vaddr + len) then mret None else
  let current_sp := current_sp - len in
  if (current_sp <? mapped_bottom_vaddr) || (stack_top_vaddr <=? current_sp) then mret None else
  rc ← stack_write_bytes current_sp (kstr src ++ [0]);
  mret (if rc <? 0 then None else Some current_sp).

(** A vector of strings, the last one first: their addresses and the new
    stack pointer. *)
Fixpoint copy_vector (kstr : Z -> list Z) (current_sp : Z) (vec : list Z) : ST vmst (option (list Z * Z)) :=
  match vec with
  | [] => mret (Some ([], current_sp))
  | src :: vec =>
      r ← copy_vector kstr current_sp vec;
      match r with
      | None => mret None
      | Some (ptrs, sp) =>
          r ← copy_user_string_to_stack kstr sp src;
          mret (match r with Some sp => Some (sp :: ptrs, sp) | None => None end)
      end
  end.

(** Words, each below the one before. *)
Fixpoint push_words (current_sp : Z) (vals : list Z) : ST vmst (option Z) :=
  match vals with
  | [] => mret (Some current_sp)
  | v :: vals =>
      let current_sp := current_sp - 8 in
      rc ← stack_write_u64 current_sp v;
      if rc <? 0 then mret None else push_words current_sp vals
  end.
End stack.

(** The auxiliary vector, in the order it is pushed: from its end to its
    start, each value before its type, and the null that ends the
    environment. *)
Definition auxv_words (info : elf_info) (interp_info : option elf_info) (random_base : Z) : list Z :=
  let AT_NULL := 0 in let AT_PHDR := 3 in let AT_PHENT := 4 in let AT_PHNUM := 5 in let AT_PAGESZ := 6 in
  let AT_BASE := 7 in let AT_ENTRY := 9 in let AT_UID := 11 in let AT_EUID := 12 in let AT_GID := 13 in
  let AT_EGID := 14 in let AT_SECURE := 23 in let AT_RANDOM := 25 in
  [0; AT_NULL; random_base; AT_RANDOM; 0; AT_SECURE; 0; AT_EGID; 0; AT_GID; 0; AT_EUID; 0; AT_UID] ++
  (if info.(i_has_interp) then [match interp_info with Some i => i.(i_load_bias) | None => 0 end; AT_BASE] else []) ++
  [info.(i_entry); AT_ENTRY; PAGE_SIZE; AT_PAGESZ; info.(i_phnum); AT_PHNUM; info.(i_phent); AT_PHENT;
   info.(i_phdr_vaddr); AT_PHDR; 0].

(** A step that gives up the whole call with -1. *)
Definition or_fail {S A} (m : ST S (option A)) : ST S (Z + A) :=
  r ← m; mret (match r with Some a => inr a | None => inl (-1) end).
Definition check {S} (m : ST S Z) : ST S (Z + unit) := rc ← m; mret (if rc <? 0 then inl (-1) else inr ()).

(** The value 0, or the error. *)
Definition status {A} (r : Z + A) : Z := match r with inl e => e | inr _ => 0 end.

(** The random bytes and the strings: the two vectors, and the stack pointer
    below them. *)
Definition write_strings (frames : list Z) (bottom top : Z) (kstr : Z -> list Z) (argv envp : list Z)
  : ST vmst (Z + (list Z * list Z * Z)) :=
  let random_base := top - 16 in
  _ ←? check (stack_write_u64 frames bottom top random_base 0x0123456789abcdef);
  _ ←? check (stack_write_u64 frames bottom top (random_base + 8) 0xfedcba9876543210);
  e ←? or_fail (copy_vector frames bottom top kstr random_base envp);
  a ←? or_fail (copy_vector frames bottom top kstr e.2 argv);
  mret (inr (a.1, e.1, Z.land a.2 (Z.lnot 7))).

(** The words below: the auxiliary vector, the pointers, and their count. *)
Definition write_vectors (frames : list Z) (bottom top : Z) (info : elf_info) (interp_info : option elf_info)
  (argv_ptrs envp_ptrs : list Z) (sp : Z) : ST xst (Z + unit) :=
  sp ←? or_fail (xvm (push_words frames bottom top sp (auxv_words info interp_info (top - 16))));
  sp ←? or_fail (xvm (push_words frames bottom top sp (rev envp_ptrs)));
  _ ←? (upd_task (fun t => set_user_args t t.(user_argc) t.(user_argv) sp t.(user_stack)) ;; mret (inr ()));
  sp ←? or_fail (xvm (push_words frames bottom top sp (0 :: rev argv_ptrs)));
  _ ←? (upd_task (fun t => set_user_args t t.(user_argc) sp t.(user_envp) t.(user_stack)) ;; mret (inr ()));
  sp ←? or_fail (xvm (push_words frames bottom top sp [zlen argv_ptrs]));
  upd_task (fun t => set_user_args t (zlen argv_ptrs) t.(user_argv) t.(user_envp) sp) ;;
  mret (inr ()).

Definition prepare_user_stack_with_ptrs (as_ : Z) (kstr : Z -> list Z) (info : elf_info) (interp_info : option elf_info)
  (argv envp : list Z) : ST xst Z :=
  r ← (frames ←? (r ← alloc_user_stack as_ USER_STACK_PAGES; mret (match r with inl _ => inl (-1) | inr f => inr f end));
       if (EXEC_MAX_VEC_STRINGS <? zlen argv) || (EXEC_MAX_VEC_STRINGS <? zlen envp) then mret (inl (- E2BIG)) else
       t ← gets x_task;
       let bottom := t.(xt_stack).(user_stack_bottom) in
       let top := t.(user_stack_top) in
       w ←? xvm (write_strings frames bottom top kstr argv envp);
       let '(argv_ptrs, envp_ptrs, sp) := w in
       if sp <? u64 (bottom + (zlen envp + zlen argv + 32) * 8) then mret (inl (-1)) else
       write_vectors frames bottom top info interp_info argv_ptrs envp_ptrs sp);
  mret (status r).

Definition alloc_pages (n : Z) : ST vmst Z := fun s => let '(pa, p) := pmm_alloc s.(v_pmm) n in Ok (pa, with_pmm s p).

Definition task_prepare_initial_user_stack (as_ : Z) (kstr : Z -> list Z) (info : elf_info) (interp_info : option elf_info)
  (argv envp : list Z) : ST xst Z :=
  ptrs_phys ← xvm (alloc_pages EXEC_PTRS_PAGES);
  if ptrs_phys =? 0 then mret (-1) else
  rc ← prepare_user_stack_with_ptrs as_ kstr info interp_info argv envp;
  xvm (free_pages ptrs_phys EXEC_PTRS_PAGES) ;;
  mret rc.

(** ** [task_execve] *)
Definition mclear (m : memory) (pa n : Z) : memory := fun x => if (pa <=? x) && (x <? pa + n * PAGE_SIZE) then 0 else m x.

(** The string at an address in [storage]. *)
Definition storage_str (b : exec_copy_buf) (p : Z) : list Z := cstr (drop (Z.to_nat (p - b.(eb_base))) b.(eb_storage)).

(** The caller's strings; [storage] is 50204 bytes into the buffer. *)
Definition exec_strings (exec_copy_phys path argv envp : Z) : ST xst (Z + exec_copy_buf) :=
  let b := mkBuf (g_hhdm_offset + exec_copy_phys + 50204) [] [] [] [] in
  path ←? copy_user_cstring path EXEC_MAX_PATH_LEN;
  a ←? copy_user_string_vector b argv;
  e ←? copy_user_string_vector a.2 envp;
  mret (inr (mkBuf b.(eb_base) path a.1 e.1 e.2.(eb_storage))).

(** The program and its interpreter. *)
Definition exec_image (as_ : Z) (d : list Z) : ST vmst (Z + (elf_info * elf_info)) :=
  in_file d 16 2 ;;
  info ← elf_load as_ d (if get16 d 16 =? ET_DYN then EXEC_ET_DYN_LOAD_BASE else 0);
  if info.(i_entry) =? 0 then mret (inl (-1)) else
  if negb info.(i_has_interp) then mret (inr (info, no_info)) else
  match resolve_interp_file (cstr info.(i_interp_path)) with
  | None => mret (inl (-1))
  | Some di =>
      interp_info ← elf_load as_ di EXEC_INTERP_LOAD_BASE;
      mret (if interp_info.(i_entry) =? 0 then inl (-1) else inr (info, interp_info))
  end.

(** The task after the switch; the registers are loaded from these fields. *)
Definition exec_commit (kernel_pml4 as_ : Z) (path : list Z) (info interp_info : elf_info) (t : exec_task) : exec_task :=
  let old_cr3 := t.(xt_mm).(mm_as) in
  mkXt (mkMm as_ USER_MMAP_BASE_VADDR info.(i_max_vaddr)) t.(xt_stack) t.(user_stack_top)
    t.(user_argc) t.(user_argv) t.(user_envp) t.(user_stack)
    (if info.(i_has_interp) then interp_info.(i_entry) else info.(i_entry))
    (if negb (old_cr3 =? 0) && negb (old_cr3 =? as_) && negb (old_cr3 =? kernel_pml4) then old_cr3 else t.(deferred_cr3))
    0 0 (replicate 32 0) (replicate 32 0) (replicate 32 0)
    0 info.(i_tls_vaddr) info.(i_tls_filesz) info.(i_tls_memsz) info.(i_tls_align) (task_set_comm_from_path path).

(** An address space left over from an earlier call goes first. *)
Definition reap_deferred (kernel_pml4 : Z) : ST xst unit :=
  t ← gets x_task;
  if negb (t.(deferred_cr3) =? 0) && negb (t.(deferred_cr3) =? t.(xt_mm).(mm_as)) && negb (t.(deferred_cr3) =? kernel_pml4)
  then xvm (vmm_free_user_pml4 kernel_pml4 t.(deferred_cr3)) ;; upd_task (fun t => set_deferred t 0) else mret ().

(** The program [d] takes over. *)
Definition exec_program (kernel_pml4 exec_copy_phys : Z) (b : exec_copy_buf) (d : list Z) : ST xst Z :=
  let abandon (e : Z) : ST xst Z := xvm (free_pages exec_copy_phys EXEC_COPY_PAGES) ;; mret e in
  as_ ← xvm (arch_vm_create_user_address_space kernel_pml4);
  if as_ =? 0 then abandon (-1) else
  r ← xvm (exec_image as_ d);
  match r with
  | inl e => abandon e
  | inr (info, interp_info) =>
      rc ← task_prepare_initial_user_stack as_ (storage_str b) info (Some interp_info) b.(eb_argv) b.(eb_envp);
      if rc <? 0 then
        xvm (free_pages exec_copy_phys EXEC_COPY_PAGES) ;;
        xvm (vmm_free_user_pml4 kernel_pml4 as_) ;;
        mret rc
      else
        upd_task (exec_commit kernel_pml4 as_ b.(eb_path) info interp_info) ;;
        xvm (free_pages exec_copy_phys EXEC_COPY_PAGES) ;;
        mret 0
  end.

Definition task_execve (kernel_pml4 path argv envp : Z) : ST xst Z :=
  reap_deferred kernel_pml4 ;;
  exec_copy_phys ← xvm (alloc_pages EXEC_COPY_PAGES);
  if exec_copy_phys =? 0 then mret (-1) else
  xvm (modify (fun s => with_mem s (mclear s.(v_mem) exec_copy_phys EXEC_COPY_PAGES))) ;;
  let abandon (e : Z) : ST xst Z := xvm (free_pages exec_copy_phys EXEC_COPY_PAGES) ;; mret e in
  r ← exec_strings exec_copy_phys path argv envp;
  match r with
  | inl e => abandon e
  | inr b =>
      match resolve_script 4 b with
      | inl e => abandon e
      | inr (b, d) => exec_program kernel_pml4 exec_copy_phys b d
      end
  end.
End exec.
