(* ===== verification/ExecStack.v ===== *)
(** * The first stack of a program

    What [prepare_user_stack_with_ptrs] leaves on the stack, as the process
    sees it, and that a program that reads it back ([program_start]) finds
    its arguments, its environment and the auxiliary vector. *)
From S2P Require Import Prelude State Pmm Pte VmCow Bytes Vmm PtWalk PtInv PtGrow PtMap Mmap PtOps MmapOk MmapCalls MmapTheorems MremapOk.
From S2P Require Import Elf Exec PtBytes.

Lemma zlen_str (l : list Z) : zlen (l ++ [0]) = zlen l + 1.
Proof. by rewrite zlen_app. Qed.

(** ** Writing on the stack *)
Section stack.
Variables (s0 : vmst) (A L : list Z) (as_ bottom : Z) (frames : list Z).
Abbreviation n := (zlen frames).
Abbreviation top := (bottom + n * PAGE_SIZE).
Hypotheses (Ha : as_ ∈ A) (Hsp : span bottom n).

(** The pages of the stack lie in [frames], which nobody else uses. *)
Definition stack_frames_at (s : vmst) : Prop :=
  forall i, 0 <= i < n -> exists e, view s.(v_mem) as_ (bottom + i * PAGE_SIZE) = Some e /\ x86_pte_phys e = zget frames i /\
    managed s.(v_pmm) (x86_pte_phys e) /\ pmm_get_ref s.(v_pmm) (x86_pte_phys e) <= 1.

(** From [s0] to [s] only bytes of the stack changed. *)
Record on_stack (s : vmst) : Prop := {
  os_inv : pt_inv s A L;
  os_pmm : s.(v_pmm) = s0.(v_pmm);
  os_view : forall as1 va1, as1 ∈ A -> user va1 -> view s.(v_mem) as1 va1 = view s0.(v_mem) as1 va1;
  os_effect : effect (range as_ bottom n) 0 A L s0 L s;
}.

Hypothesis Hfr : stack_frames_at s0.

Lemma stack_frame s i : on_stack s -> 0 <= i < n -> exists e, view s.(v_mem) as_ (bottom + i * PAGE_SIZE) = Some e /\
  x86_pte_phys e = zget frames i /\ managed s.(v_pmm) (x86_pte_phys e) /\ pmm_get_ref s.(v_pmm) (x86_pte_phys e) <= 1 /\
  x86_pte_phys e <> 0.
Proof using Ha Hsp Hfr.
  intros Hs Hi. destruct (Hfr i Hi) as (e&Hv&Hp&Hm&Hr). destruct (span_user _ _ Hsp i Hi) as [Hu _].
  rewrite <- (os_view _ Hs) in Hv by auto. exists e. rewrite (os_pmm _ Hs). split_and!; auto.
  by apply (view_phys A L as_ Ha s _ e (os_inv _ Hs) Hu (span_page n bottom i Hsp) Hv).
Qed.

(** What a sequence of bytes written at [addr] looks like. *)
Definition wrote (s s' : vmst) (addr : Z) (bytes : list Z) : Prop :=
  forall va, 0 <= va < 2 ^ 47 ->
    ub s' as_ va = if decide (addr <= va < addr + zlen bytes) then Some (zget bytes (va - addr)) else ub s as_ va.

Lemma zget_dropped (l : list Z) k i : 0 <= k -> 0 <= i -> zget (drop (Z.to_nat k) l) i = zget l (k + i).
Proof using. intros. unfold zget. rewrite lookup_total_drop. f_equal. lia. Qed.
Lemma zlen_drop (l : list Z) k : 0 <= k <= zlen l -> zlen (drop (Z.to_nat k) l) = zlen l - k.
Proof using. intros. unfold zlen in *. rewrite length_drop. lia. Qed.

Lemma stack_write_from_ok fuel : forall bytes s rel,
  on_stack s -> 0 <= rel -> rel + zlen bytes <= n * PAGE_SIZE -> (length bytes <= fuel)%nat ->
  wp nopanic (stack_write_from fuel frames rel bytes) (fun rc s' =>
    rc = 0 /\ on_stack s' /\ wrote s s' (bottom + rel) bytes) s.
Proof using All.
  induction fuel as [|fuel IH]; intros bytes s rel Hs Hrel Hend Hfuel; cbn [stack_write_from];
    (case_bool_decide as Hnil; [subst; wp_steps; split_and!; auto; intros va Hva; rewrite decide_False by (unfold zlen; cbn; lia); done|]).
  { destruct bytes; [done|]. cbn in Hfuel. lia. }
  assert (Hlen : 0 < zlen bytes) by (destruct bytes; [done|]; unfold zlen; cbn; lia).
  pose proof (Z.mod_pos_bound rel PAGE_SIZE ltac:(done)) as Hmp. pose proof (Z.div_mod rel PAGE_SIZE ltac:(done)) as Hdm.
  set (off := rel mod PAGE_SIZE) in *. set (i := rel / PAGE_SIZE) in *. set (chunk := Z.min (PAGE_SIZE - off) (zlen bytes)) in *.
  assert (Hi : 0 <= i < n) by (unfold PAGE_SIZE in *; split; [apply Z.div_pos; lia|lia]).
  destruct (stack_frame s i Hs Hi) as (e&Hv&Hp&Hm&Hr&Hnz). rewrite <- Hp.
  destruct (Z.eqb_spec (x86_pte_phys e) 0) as [|_]; [done|]. wp_steps.
  destruct (span_user _ _ Hsp i Hi) as [Hu Hb]. pose proof (span_page n bottom i Hsp) as Hal.
  set (l := slice bytes 0 chunk).
  assert (Hl : zlen l = chunk) by (apply zlen_slice; lia).
  destruct (poke_ok s A L as_ (bottom + i * PAGE_SIZE) off l e (os_inv _ Hs) Ha Hb Hal Hv Hm Hr ltac:(lia) ltac:(lia)) as (Hi'&He&Hvs&Hub).
  set (s1 := with_mem s _) in *.
  assert (Hs1 : on_stack s1).
  { constructor; auto; [apply Hs|intros; rewrite Hvs by auto; by apply Hs|].
    replace 0 with (0 + 0) by lia. eapply effect_trans; [apply Hs|]. eapply effect_weaken; [exact He| |lia].
    intros a v. by apply (span_at _ _ Hsp). }
  eapply wp_mono; [apply (IH (drop (Z.to_nat chunk) bytes) s1 (rel + chunk) Hs1)|].
  - lia.
  - rewrite zlen_drop by lia. lia.
  - rewrite length_drop. unfold zlen in *. lia.
  - intros rc s' (->&Hs'&Hw). split_and!; auto. intros va Hva. rewrite Hw, Hub by done. rewrite zlen_drop by lia.
    destruct (decide (bottom + (rel + chunk) <= va < bottom + (rel + chunk) + (zlen bytes - chunk))) as [H1|H1].
    + rewrite decide_True by lia. rewrite zget_dropped by lia. f_equal. f_equal. lia.
    + rewrite Hl. case_decide as H2; case_decide as H3; try lia; [|done]. f_equal. unfold l. rewrite zget_slice by lia. f_equal. lia.
Qed.

Lemma stack_write_bytes_ok addr src s :
  on_stack s -> bottom <= addr -> addr + zlen src <= top ->
  wp nopanic (stack_write_bytes frames bottom top addr src) (fun rc s' => rc = 0 /\ on_stack s' /\ wrote s s' addr src) s.
Proof using All.
  intros Hs Hlo Hhi. pose proof (sp_low _ _ Hsp). pose proof (sp_high _ _ Hsp). pose proof (zlen_nonneg src).
  unfold stack_write_bytes. rewrite u64_small by lia.
  destruct (Z.ltb_spec addr bottom), (Z.ltb_spec top (addr + zlen src)); try lia. cbn [orb].
  eapply wp_mono; [apply stack_write_from_ok; auto; lia|]. intros rc s' (->&Hs'&Hw). split_and!; auto.
  by replace (bottom + (addr - bottom)) with addr in Hw by lia.
Qed.

(** The bytes [l] lie at [a]. *)
Definition bytes_lie (s : vmst) (a : Z) (l : list Z) : Prop :=
  forall i, 0 <= i < zlen l -> ub s as_ (a + i) = Some (zget l i).

(** Nothing outside [lo, hi) changed. *)
Definition only_between (s s' : vmst) (lo hi : Z) : Prop :=
  forall va, 0 <= va < 2 ^ 47 -> ~ lo <= va < hi -> ub s' as_ va = ub s as_ va.

Lemma between_trans s1 s2 s3 lo mid hi : lo <= mid <= hi ->
  only_between s1 s2 mid hi -> only_between s2 s3 lo mid -> only_between s1 s3 lo hi.
Proof using. intros Hm H1 H2 va Hva Hn. rewrite H2, H1 by (auto; lia). done. Qed.

Lemma bytes_lie_only s s' lo hi a l :
  only_between s s' lo hi -> hi <= a -> 0 <= a -> a + zlen l <= 2 ^ 47 -> bytes_lie s a l -> bytes_lie s' a l.
Proof using. intros Ho Hhi H0 Hend Hl i Hi. rewrite Ho by lia. by apply Hl. Qed.

Lemma wrote_only s s' a l : wrote s s' a l -> only_between s s' a (a + zlen l).
Proof using. intros Hw va Hva Hn. rewrite Hw by done. by rewrite decide_False. Qed.

Lemma wrote_lies s s' a l : wrote s s' a l -> 0 <= a -> a + zlen l <= 2 ^ 47 -> bytes_lie s' a l.
Proof using. intros Hw H0 Hend i Hi. rewrite Hw by lia. rewrite decide_True by lia. f_equal. f_equal. lia. Qed.

(** ** Strings *)
Variable kstr : Z -> list Z.
Abbreviation size src := (zlen (kstr src) + 1).

Lemma copy_string_ok sp src s :
  on_stack s -> bottom <= sp <= top -> 0x1000 <= src ->
  wp nopanic (copy_user_string_to_stack frames bottom top kstr sp src) (fun r s' =>
    match r with
    | Some sp' => sp' = sp - size src /\ bottom <= sp' /\ on_stack s' /\ only_between s s' sp' sp /\ bytes_lie s' sp' (kstr src ++ [0])
    | None => sp - size src < bottom /\ on_stack s'
    end) s.
Proof using All.
  intros Hs Hsp' Hsrc. pose proof (sp_low _ _ Hsp). pose proof (sp_high _ _ Hsp). pose proof (zlen_nonneg (kstr src)).
  unfold copy_user_string_to_stack. destruct (Z.ltb_spec src 0x1000); [lia|].
  assert (Hz : zlen (kstr src ++ [0]) = size src) by apply zlen_str.
  destruct (decide (bottom + size src <= sp)) as [Hfit|Hno]; cycle 1.
  { destruct (Z.ltb_spec sp (u64 (bottom + size src))) as [|Hge]; [wp_steps; split; [lia|done]|].
    destruct (Z.ltb_spec (sp - size src) bottom); [|lia]. cbn [orb]. wp_steps. split; [lia|done]. }
  rewrite u64_small by lia. destruct (Z.ltb_spec sp (bottom + size src)); [lia|].
  destruct (Z.ltb_spec (sp - size src) bottom), (Z.leb_spec top (sp - size src)); try lia. cbn [orb]. wp_steps.
  eapply wp_mono; [apply stack_write_bytes_ok; auto; rewrite ?Hz; lia|]. intros rc s' (->&Hs'&Hw). wp_steps. cbn [Z.ltb Z.compare].
  split_and!; auto; [|apply (wrote_lies _ _ _ _ Hw); rewrite ?Hz; lia].
  pose proof (wrote_only _ _ _ _ Hw) as Ho. rewrite Hz in Ho. by replace (sp - size src + size src) with sp in Ho by lia.
Qed.

Definition sizes (vec : list Z) : Z := foldr (fun src z => size src + z) 0 vec.
Lemma sizes_cons src vec : sizes (src :: vec) = size src + sizes vec.
Proof using. done. Qed.
Lemma sizes_nonneg vec : 0 <= sizes vec.
Proof using. induction vec as [|x vec IH]; [done|]. unfold sizes in *. cbn [foldr]. pose proof (zlen_nonneg (kstr x)). lia. Qed.

(** The strings of a vector lie between [lo] and [hi], at [ptrs]. *)
Definition strings_lie (s : vmst) (lo hi : Z) (ptrs vec : list Z) : Prop :=
  Forall2 (fun p src => lo <= p /\ p + size src <= hi /\ bytes_lie s p (kstr src ++ [0])) ptrs vec.

Lemma strings_lie_only s s' lo hi lo' hi' ptrs vec :
  only_between s s' lo' hi' -> hi' <= lo -> 0 <= lo -> hi <= 2 ^ 47 -> strings_lie s lo hi ptrs vec -> strings_lie s' lo hi ptrs vec.
Proof using.
  intros Ho Hlo H0 Hhi Hl. eapply Forall2_impl; [exact Hl|]. intros p src (?&?&Hb). split_and!; auto.
  apply (bytes_lie_only _ _ _ _ _ _ Ho); auto; rewrite ?zlen_str; lia.
Qed.
Lemma strings_lie_weaken s lo hi lo' hi' ptrs vec :
  strings_lie s lo hi ptrs vec -> lo' <= lo -> hi <= hi' -> strings_lie s lo' hi' ptrs vec.
Proof using. intros Hl ??. eapply Forall2_impl; [exact Hl|]. intros p src (?&?&Hb). split_and!; auto; lia. Qed.

Lemma copy_vector_ok vec : forall sp s,
  on_stack s -> bottom <= sp <= top -> Forall (fun src => 0x1000 <= src) vec ->
  wp nopanic (copy_vector frames bottom top kstr sp vec) (fun r s' =>
    match r with
    | Some (ptrs, sp') => sp' = sp - sizes vec /\ bottom <= sp' /\ on_stack s' /\ only_between s s' sp' sp /\ strings_lie s' sp' sp ptrs vec
    | None => sp - sizes vec < bottom /\ on_stack s'
    end) s.
Proof using All.
  induction vec as [|src vec IH]; intros sp s Hs Hsp' Hall; cbn [copy_vector].
  { wp_steps. cbn. split_and!; auto; [lia..|by intros va|constructor]. }
  apply Forall_cons in Hall as [Hsrc Hall]. wp_steps. eapply wp_mono; [by apply IH|]. intros [[ptrs sp1]|] s1.
  2: { intros [Hno Hs1]. wp_steps. rewrite sizes_cons. pose proof (zlen_nonneg (kstr src)). split; [lia|done]. }
  intros (->&Hb1&Hs1&Ho1&Hl1). pose proof (sizes_nonneg vec). pose proof (sp_low _ _ Hsp). pose proof (sp_high _ _ Hsp). wp_steps.
  eapply wp_mono; [apply copy_string_ok; auto; lia|]. intros [sp2|] s2; [|intros [Hno Hs2]; wp_steps; rewrite sizes_cons; split; [lia|done]].
  intros (->&Hb2&Hs2&Ho2&Hl2). wp_steps. rewrite sizes_cons. pose proof (zlen_nonneg (kstr src)). split_and!; auto; [lia| |].
  - apply (between_trans s s1 s2 _ (sp - sizes vec)); auto. lia.
  - constructor; [split_and!; auto; lia|]. eapply strings_lie_weaken; [apply (strings_lie_only _ _ _ _ _ _ _ _ Ho2); [| | |exact Hl1]|lia..]; lia.
Qed.

(** ** Words *)
Definition words_lie (s : vmst) (a : Z) (ws : list Z) : Prop :=
  forall i, 0 <= i < zlen ws -> bytes_lie s (a + 8 * i) (le_bytes 8 (zget ws i)).

Lemma words_lie_only s s' lo hi a ws :
  only_between s s' lo hi -> hi <= a -> 0 <= a -> a + 8 * zlen ws <= 2 ^ 47 -> words_lie s a ws -> words_lie s' a ws.
Proof using.
  intros Ho Hhi H0 Hend Hw i Hi. apply (bytes_lie_only _ _ _ _ _ _ Ho); [lia..| |by apply Hw].
  rewrite zlen_le_bytes. lia.
Qed.

Lemma words_lie_app s a ws1 ws2 : words_lie s a ws1 -> words_lie s (a + 8 * zlen ws1) ws2 -> words_lie s a (ws1 ++ ws2).
Proof using.
  intros H1 H2 i Hi. rewrite zlen_app in Hi. unfold zget. destruct (decide (i < zlen ws1)) as [Hlt|Hge].
  - rewrite lookup_total_app_l by (unfold zlen in *; lia). apply H1. lia.
  - rewrite lookup_total_app_r by (unfold zlen in *; lia). replace (Z.to_nat i - length ws1)%nat with (Z.to_nat (i - zlen ws1)) by (unfold zlen; lia).
    replace (a + 8 * i) with (a + 8 * zlen ws1 + 8 * (i - zlen ws1)) by lia. apply H2. lia.
Qed.

Lemma push_words_ok vals : forall sp s,
  on_stack s -> bottom + 8 * zlen vals <= sp <= top ->
  wp nopanic (push_words frames bottom top sp vals) (fun r s' =>
    r = Some (sp - 8 * zlen vals) /\ on_stack s' /\ only_between s s' (sp - 8 * zlen vals) sp /\
    words_lie s' (sp - 8 * zlen vals) (rev vals)) s.
Proof using Ha Hsp Hfr.
  pose proof (sp_low _ _ Hsp). pose proof (sp_high _ _ Hsp).
  induction vals as [|v vals IH]; intros sp s Hs Hr; cbn [push_words].
  { wp_steps. unfold zlen. cbn. rewrite Z.sub_0_r. split_and!; auto; [by intros va|]. intros i Hi. unfold zlen in Hi. cbn in Hi. lia. }
  assert (Hlen : zlen (v :: vals) = zlen vals + 1) by (unfold zlen; cbn [length]; lia). rewrite Hlen in *. pose proof (zlen_nonneg vals).
  unfold stack_write_u64. wp_steps. eapply wp_mono; [apply stack_write_bytes_ok; auto; rewrite ?zlen_le_bytes; lia|].
  intros rc s1 (->&Hs1&Hw). cbn [Z.ltb Z.compare]. pose proof (wrote_only _ _ _ _ Hw) as Ho. rewrite zlen_le_bytes in Ho.
  eapply wp_mono; [apply IH; auto; lia|]. intros r s2 (->&Hs2&Ho2&Hl2).
  replace (sp - 8 * (zlen vals + 1)) with (sp - 8 - 8 * zlen vals) by lia. split_and!; auto.
  - apply (between_trans s s1 s2 _ (sp - 8)); [lia| |done]. replace sp with (sp - 8 + Z.of_nat 8) at 2 by lia. done.
  - cbn [rev]. apply words_lie_app; [done|]. assert (Hrev : zlen (rev vals) = zlen vals) by (unfold zlen; by rewrite length_rev).
    rewrite Hrev. replace (sp - 8 - 8 * zlen vals + 8 * zlen vals) with (sp - 8) by lia.
    apply (words_lie_only s1 s2 _ _ _ _ Ho2); [lia..|unfold zlen; cbn; lia|].
    intros i Hi'. assert (i = 0) as -> by (unfold zlen in Hi'; cbn in Hi'; lia). rewrite Z.add_0_r.
    apply (wrote_lies s s1); [done|lia|rewrite zlen_le_bytes; lia].
Qed.
End stack.
