(* ===== verification/ExecStart.v ===== *)
(** * The stack of a new program

    [stack_frames] maps the pages of the stack, and
    [prepare_user_stack_with_ptrs] writes the strings, the vectors and the
    auxiliary vector into them. *)
From S2P Require Import Prelude State Pmm Pte VmCow Bytes Vmm PtWalk PtInv PtGrow PtMap Mmap PtOps MmapOk MmapCalls MmapTheorems MremapOk.
From S2P Require Import Elf Exec PtBytes ExecStack.

Abbreviation RW := (arch_vm_user_page_flags true false).

(** ** Its pages *)
Definition unmapped (s : vmst) (as_ base n : Z) : Prop :=
  forall i, 0 <= i < n -> view s.(v_mem) as_ (base + i * PAGE_SIZE) = None /\ huge s.(v_mem) as_ (base + i * PAGE_SIZE) = None.

Lemma unmapped_effect D k A L s L' s' as_ base n :
  effect D k A L s L' s' -> as_ ∈ A -> span base n -> (forall i, 0 <= i < n -> ~ D as_ (base / PAGE_SIZE + i)) ->
  unmapped s as_ base n -> unmapped s' as_ base n.
Proof.
  intros He Ha Hsp HD Hun i Hi. destruct (span_user _ _ Hsp i Hi) as [Hu _]. destruct (Hun i Hi) as [Hv Hh].
  rewrite (ef_view _ _ _ _ _ _ _ He), (ef_huge _ _ _ _ _ _ _ He) by (auto; rewrite (span_key _ _ Hsp); auto). done.
Qed.

Lemma span_tail base n : span base n -> 0 < n -> span (base + PAGE_SIZE) (n - 1).
Proof.
  intros [Hal Hlo Hn Hhi] Hpos. constructor; [|unfold PAGE_SIZE in *; lia..].
  unfold aligned in *. rewrite Z.add_mod, Hal by done. done.
Qed.

(** The frames are the pages of the stack, which hold zeroes. *)
Definition stack_mapped (s : vmst) (as_ base : Z) (frames : list Z) : Prop :=
  (forall i, 0 <= i < zlen frames -> placed s as_ (base + i * PAGE_SIZE) RW (zget frames i)) /\
  forall va, base <= va < base + zlen frames * PAGE_SIZE -> ub s as_ va = Some 0.

Lemma page_next base : (base + PAGE_SIZE) / PAGE_SIZE = base / PAGE_SIZE + 1.
Proof. replace (base + PAGE_SIZE) with (base + 1 * PAGE_SIZE) by lia. by rewrite Z.div_add. Qed.

Lemma range_next as_ base n a v : range as_ (base + PAGE_SIZE) n a v -> range as_ base (n + 1) a v.
Proof. unfold range. rewrite page_next. intros [-> ?]. split; [done|lia]. Qed.

Lemma stack_mapped_cons s s' A L L' k as_ base pa frames :
  as_ ∈ A -> span base (zlen frames + 1) -> effect (range as_ (base + PAGE_SIZE) (zlen frames)) k A L s L' s' ->
  placed s as_ base RW pa -> (forall o, 0 <= o < PAGE_SIZE -> ub s as_ (base + o) = Some 0) ->
  stack_mapped s' as_ (base + PAGE_SIZE) frames -> stack_mapped s' as_ base (pa :: frames).
Proof.
  intros Ha Hsp He Hpl Hz [Hpl' Hz']. pose proof (zlen_nonneg frames).
  assert (Hlen : zlen (pa :: frames) = zlen frames + 1) by (unfold zlen; cbn [length]; lia).
  destruct (span_user _ _ Hsp 0 ltac:(lia)) as [Hu0 Hb0]. rewrite Z.mul_0_l, Z.add_0_r in *.
  assert (Hout : forall va, 0 <= va -> va / PAGE_SIZE = base / PAGE_SIZE -> va < 2 ^ 47 ->
            ~ range as_ (base + PAGE_SIZE) (zlen frames) as_ (key 4 va)).
  { intros va H0 Hd Hlt [_ Hr]. rewrite key_page, page_next in Hr by lia. lia. }
  split; rewrite Hlen.
  - intros i Hi. destruct (decide (i = 0)) as [->|Hne].
    + rewrite Z.mul_0_l, Z.add_0_r. apply (placed_effect _ _ _ _ _ _ _ _ _ _ _ He); auto. apply Hout; lia.
    + replace (base + i * PAGE_SIZE) with (base + PAGE_SIZE + (i - 1) * PAGE_SIZE) by lia.
      replace (zget (pa :: frames) i) with (zget frames (i - 1)); [apply Hpl'; lia|].
      unfold zget. replace (Z.to_nat i) with (S (Z.to_nat (i - 1))) by lia. done.
  - intros va Hva. pose proof (sp_high _ _ Hsp). destruct (decide (va < base + PAGE_SIZE)) as [Hlt|Hge]; [|apply Hz'; lia].
    assert (Hvb : va = base + (va - base)) by lia.
    rewrite (ub_effect _ _ _ _ _ _ _ _ _ He); auto; [rewrite Hvb; apply Hz; lia|apply user_low; unfold PAGE_SIZE in *; lia|].
    apply Hout; [lia| |unfold PAGE_SIZE in *; lia]. pose proof (sp_aligned _ _ Hsp) as Hal. unfold aligned, PAGE_SIZE in *.
    pose proof (Z.div_mod base 4096). symmetry. apply Z.div_unique with (r := va - base); lia.
Qed.

Lemma stack_frames_ok n : forall s A L as_ base,
  pt_inv s A L -> as_ ∈ A -> span base (Z.of_nat n) -> unmapped s as_ base (Z.of_nat n) -> 4 * Z.of_nat n <= avail s.(v_pmm) ->
  wp nopanic (stack_frames n as_ base) (fun r s' => exists frames L',
    r = Some frames /\ zlen frames = Z.of_nat n /\ pt_inv s' A L' /\ effect (range as_ base (Z.of_nat n)) (4 * Z.of_nat n) A L s L' s' /\
    stack_mapped s' as_ base frames) s.
Proof.
  induction n as [|n IH]; intros s A L as_ base Hi Ha Hsp Hun Hav; cbn [stack_frames].
  { wp_steps. exists [], L. split_and!; auto; [apply effect_same; lia|]. split; unfold zlen; cbn; intros; lia. }
  set (N := Z.of_nat (S n)) in *. assert (HN : N = Z.of_nat n + 1) by lia. rewrite HN in *.
  destruct (span_user _ _ Hsp 0 ltac:(lia)) as [Hu0 Hb0]. destruct (Hun 0 ltac:(lia)) as [Hv0 Hh0]. rewrite Z.mul_0_l, Z.add_0_r in *.
  wp_steps. apply wp_alloc.
  { intros p1 Eal. pose proof (alloc_some _ _ _ (inv_pmm_ok s A L Hi) (proj1 (ci_zero _ _ (pi_cow _ _ _ Hi))) Eal). lia. }
  intros pa p1 Eal Hne. apply Z.eqb_neq in Hne as Hb. rewrite Hb. unfold zero_page. wp_steps.
  eapply wp_mono; [apply (map_zero_ok nopanic s A L as_ base RW pa p1); auto; [apply Hsp|by left; lia]|].
  intros _ s1 (L1&Hi1&He1&Hpl1&Hz1). wp_steps. pose proof (span_tail _ _ Hsp ltac:(lia)) as Hsp1.
  replace (Z.of_nat n + 1 - 1) with (Z.of_nat n) in Hsp1 by lia.
  pose proof (ef_avail _ _ _ _ _ _ _ He1) as Hav1.
  eapply wp_mono; [apply (IH s1 A L1 as_ (base + PAGE_SIZE)); auto; [|lia]|].
  - apply (unmapped_effect _ _ _ _ _ _ _ _ _ _ He1); auto.
    + intros i Hi' [_ Hk]. rewrite key_page, page_next in Hk by lia. lia.
    + intros i Hi'. replace (base + PAGE_SIZE + i * PAGE_SIZE) with (base + (i + 1) * PAGE_SIZE) by lia. apply Hun. lia.
  - intros r s' (frames&L'&->&Hlen&Hi'&He'&Hst). wp_steps. exists (pa :: frames), L'. rewrite <- Hlen in *. split_and!; auto.
    + unfold zlen. cbn [length]. lia.
    + replace (4 * (zlen frames + 1)) with (4 + 4 * zlen frames) by lia. eapply effect_trans; (eapply effect_weaken; [eassumption| |lia]).
      * intros a v [-> ->]. split; [done|]. rewrite key_page by lia. lia.
      * intros a v. apply range_next.
    + by apply (stack_mapped_cons s1 s' A L1 L' (4 * zlen frames)).
Qed.

(** ** Its contents *)
Section prepare.
Variables (kstr : Z -> list Z) (info : elf_info) (interp_info : option elf_info) (argv envp : list Z).
Abbreviation N := (USER_STACK_PAGES - USER_STACK_GUARD_PAGES).
Abbreviation BOTTOM := (USER_STACK_TOP_VADDR - N * PAGE_SIZE).
Abbreviation RANDOM := (USER_STACK_TOP_VADDR - 16).

(** Where the strings end, and what has to fit below them. *)
Definition strings_end : Z := Z.land (RANDOM - sizes kstr envp - sizes kstr argv) (Z.lnot 7).
Definition stack_fits : bool := BOTTOM + (zlen envp + zlen argv + 32) * 8 <=? strings_end.

Definition prepare_result : Z :=
  if (EXEC_MAX_VEC_STRINGS <? zlen argv) || (EXEC_MAX_VEC_STRINGS <? zlen envp) then - E2BIG
  else if stack_fits then 0 else -1.

(** The words from the stack pointer up: the count, the two vectors and the
    auxiliary vector. *)
Definition start_words (pa pe : list Z) : list Z :=
  zlen argv :: pa ++ 0 :: pe ++ rev (auxv_words info interp_info RANDOM).

Lemma auxv_len : zlen (auxv_words info interp_info RANDOM) = if info.(i_has_interp) then 27 else 25.
Proof using. unfold auxv_words. rewrite !zlen_app. by destruct info.(i_has_interp). Qed.

Lemma land_not7 x : Z.land x (Z.lnot 7) = x - x mod 8.
Proof using. change 7 with (Z.ones 3). rewrite <- Z.ldiff_land, Z.ldiff_ones_r, Z.shiftr_div_pow2, Z.shiftl_mul_pow2 by lia. pose proof (Z.div_mod x (2 ^ 3) ltac:(done)). change (2 ^ 3) with 8 in *. lia. Qed.

(** The whole of what is on the new stack. *)
Record started (s : vmst) (as_ : Z) (t : exec_task) : Prop := {
  sd_top : t.(user_stack_top) = USER_STACK_TOP_VADDR;
  sd_stack : t.(xt_stack) = mkFaultTask (BOTTOM - PAGE_SIZE) BOTTOM;
  sd_argc : t.(user_argc) = zlen argv;
  sd_low : BOTTOM <= t.(user_stack);
  sd_words : exists pa pe,
    t.(user_stack) + 8 * zlen (start_words pa pe) <= RANDOM /\
    t.(user_argv) = t.(user_stack) + 8 /\ t.(user_envp) = t.(user_argv) + 8 * (zlen pa + 1) /\
    words_lie as_ s t.(user_stack) (start_words pa pe) /\
    strings_lie as_ kstr s BOTTOM RANDOM pa argv /\ strings_lie as_ kstr s BOTTOM RANDOM pe envp;
}.

Lemma strings_end_low : strings_end <= RANDOM - sizes kstr envp - sizes kstr argv.
Proof using. unfold strings_end. rewrite land_not7. pose proof (Z.mod_pos_bound (RANDOM - sizes kstr envp - sizes kstr argv) 8 ltac:(done)). lia. Qed.

Lemma alloc_user_stack_ok x A L as_ :
  pt_inv x.(x_vm) A L -> as_ ∈ A -> as_ <> 0 -> unmapped x.(x_vm) as_ BOTTOM N -> 4 * N <= avail x.(x_vm).(v_pmm) ->
  wp nopanic (alloc_user_stack as_ USER_STACK_PAGES) (fun r x' => exists frames L',
    r = inr frames /\ zlen frames = N /\ pt_inv x'.(x_vm) A L' /\ effect (range as_ BOTTOM N) (4 * N) A L x.(x_vm) L' x'.(x_vm) /\
    stack_mapped x'.(x_vm) as_ BOTTOM frames /\
    x'.(x_task) = set_user_stack x.(x_task) USER_STACK_TOP_VADDR BOTTOM (BOTTOM - PAGE_SIZE)) x.
Proof using.
  intros Hi Ha Hne Hun Hav. unfold alloc_user_stack. apply Z.eqb_neq in Hne. rewrite Hne. cbn [orb Z.leb Z.compare Pos.compare Pos.compare_cont].
  unfold xvm, upd_task. wp_steps. eapply wp_mono.
  { apply (stack_frames_ok (Z.to_nat N) x.(x_vm) A L as_ BOTTOM); auto. constructor; [done|unfold PAGE_SIZE; lia..]. }
  intros r s' (frames&L'&->&Hlen&Hi'&He&Hst). wp_steps. exists frames, L'. by split_and!.
Qed.

Section fill.
Variables (s0 : vmst) (A L : list Z) (as_ : Z) (frames : list Z).
Hypotheses (Ha : as_ ∈ A) (Hlen : zlen frames = N) (Hst : stack_mapped s0 as_ BOTTOM frames).
Hypotheses (Hargv : Forall (fun src => 0x1000 <= src) argv) (Henvp : Forall (fun src => 0x1000 <= src) envp).
Abbreviation on := (on_stack s0 A L as_ BOTTOM frames).

Lemma fill_span : span BOTTOM (zlen frames).
Proof using Hlen. rewrite Hlen. constructor; [done|unfold PAGE_SIZE; lia..]. Qed.

Lemma fill_frames : stack_frames_at as_ BOTTOM frames s0.
Proof using Hst.
  intros i Hi. destruct (proj1 Hst i Hi) as (Hv&Hp&Hm&Hr). exists (leaf_entry (zget frames i) RW). by rewrite Hp.
Qed.

Lemma fill_top : BOTTOM + zlen frames * PAGE_SIZE = USER_STACK_TOP_VADDR.
Proof using Hlen. rewrite Hlen. unfold PAGE_SIZE. lia. Qed.

Lemma write_strings_ok s :
  on s -> wp nopanic (write_strings frames BOTTOM USER_STACK_TOP_VADDR kstr argv envp) (fun r s' =>
    match r with
    | inr (pa, pe, sp) => sp = strings_end /\ on s' /\ BOTTOM <= RANDOM - sizes kstr envp - sizes kstr argv /\
        strings_lie as_ kstr s' (RANDOM - sizes kstr envp - sizes kstr argv) RANDOM pa argv /\
        strings_lie as_ kstr s' (RANDOM - sizes kstr envp - sizes kstr argv) RANDOM pe envp
    | inl e => e = -1 /\ on s' /\ RANDOM - sizes kstr envp - sizes kstr argv < BOTTOM
    end) s.
Proof using All.
  intros Hs. pose proof fill_span as Hsp. pose proof fill_frames as Hfr. pose proof fill_top as Htop.
  pose proof (sizes_nonneg kstr argv). pose proof (sizes_nonneg kstr envp).
  set (b := BOTTOM) in *. assert (Hb : 0 < b < 2 ^ 46 * 2) by (unfold b, PAGE_SIZE; lia).
  assert (Hroom : 16 <= zlen frames * PAGE_SIZE) by (rewrite Hlen; done).
  unfold strings_end. set (top := USER_STACK_TOP_VADDR) in *. assert (Ht : top < 2 ^ 47) by (unfold top; lia). rewrite <- Htop.
  unfold write_strings, ebind, check, or_fail, stack_write_u64. wp_steps.
  eapply wp_mono; [apply (stack_write_bytes_ok s0 A L as_ b frames Ha Hsp Hfr); auto; rewrite ?zlen_le_bytes; lia|].
  intros rc s1 (->&Hs1&_). cbn [Z.ltb Z.compare]. wp_steps.
  eapply wp_mono; [apply (stack_write_bytes_ok s0 A L as_ b frames Ha Hsp Hfr); auto; rewrite ?zlen_le_bytes; lia|].
  intros rc s2 (->&Hs2&_). cbn [Z.ltb Z.compare]. wp_steps.
  eapply wp_mono; [apply (copy_vector_ok s0 A L as_ b frames Ha Hsp Hfr kstr envp); auto; lia|].
  intros [[pe sp1]|] s3; [|intros [? ?]; wp_steps; split_and!; auto; lia]. intros (->&Hb3&Hs3&Ho3&Hl3). wp_steps. cbn [snd fst].
  eapply wp_mono; [apply (copy_vector_ok s0 A L as_ b frames Ha Hsp Hfr kstr argv); auto; lia|].
  intros [[pa sp2]|] s4; [|intros [? ?]; wp_steps; split_and!; auto; lia]. intros (->&Hb4&Hs4&Ho4&Hl4). wp_steps. cbn [snd fst].
  split_and!; [done|done|lia|..].
  - eapply strings_lie_weaken; [exact Hl4|lia..].
  - eapply strings_lie_weaken; [apply (strings_lie_only _ _ _ _ _ _ _ _ _ _ Ho4); [..|exact Hl3]|lia..]; unfold PAGE_SIZE in *; lia.
Qed.

(** Words pushed below other words. *)
Definition pushed (s1 s : vmst) (hi sp : Z) (ws : list Z) : Prop :=
  on s /\ sp + 8 * zlen ws = hi /\ only_between as_ s1 s sp hi /\ words_lie as_ s sp ws.

Lemma push_onto s1 hi vals ws sp s :
  pushed s1 s hi sp ws -> BOTTOM + 8 * zlen vals <= sp -> hi <= USER_STACK_TOP_VADDR ->
  wp nopanic (push_words frames BOTTOM USER_STACK_TOP_VADDR sp vals) (fun r s' =>
    r = Some (sp - 8 * zlen vals) /\ pushed s1 s' hi (sp - 8 * zlen vals) (rev vals ++ ws)) s.
Proof using Ha Hlen Hst.
  intros (Hs&Hsp&Ho&Hw) Hroom Hhi. pose proof fill_top as Htop. pose proof (zlen_nonneg ws). pose proof (zlen_nonneg vals).
  set (b := BOTTOM) in *. assert (0 < b) by (unfold b, PAGE_SIZE; lia). rewrite <- Htop.
  eapply wp_mono; [apply (push_words_ok s0 A L as_ b frames Ha fill_span fill_frames); auto; fold b; lia|].
  intros r s' (->&Hs'&Ho'&Hw'). split; [done|]. assert (Hrl : zlen (rev vals) = zlen vals) by (unfold zlen; by rewrite length_rev).
  split_and!; auto.
  - rewrite zlen_app. lia.
  - apply (between_trans as_ s1 s s' _ sp); auto. lia.
  - apply words_lie_app; [done|]. rewrite Hrl. replace (sp - 8 * zlen vals + 8 * zlen vals) with sp by lia.
    apply (words_lie_only _ _ _ _ _ _ _ Ho'); auto; lia.
Qed.

Lemma write_vectors_ok x pa pe sp :
  on x.(x_vm) -> BOTTOM + (zlen pe + zlen pa + 32) * 8 <= sp <= RANDOM -> zlen pa = zlen argv ->
  wp nopanic (write_vectors frames BOTTOM USER_STACK_TOP_VADDR info interp_info pa pe sp) (fun r x' =>
    r = inr () /\ on x'.(x_vm) /\ exists sp', BOTTOM <= sp' <= sp /\ sp' + 8 * zlen (start_words pa pe) = sp /\
      x'.(x_task) = set_user_args x.(x_task) (zlen argv) (sp' + 8) (sp' + 8 + 8 * (zlen pa + 1)) sp' /\
      only_between as_ x.(x_vm) x'.(x_vm) sp' sp /\ words_lie as_ x'.(x_vm) sp' (start_words pa pe)) x.
Proof using Ha Hlen Hst.
  intros Hs Hsp Hpa. pose proof (zlen_nonneg pa). pose proof (zlen_nonneg pe). pose proof auxv_len as Hax.
  assert (Hax' : 0 <= zlen (auxv_words info interp_info RANDOM) <= 27) by (rewrite Hax; case_match; lia).
  assert (Hrev : forall l : list Z, zlen (rev l) = zlen l) by (intros l; unfold zlen; by rewrite length_rev).
  assert (Hcons : forall (v : Z) l, zlen (v :: l) = zlen l + 1) by (intros v l; unfold zlen; cbn [length]; lia).
  unfold write_vectors, ebind, or_fail, xvm, upd_task. wp_steps.
  eapply wp_mono; [apply (push_onto x.(x_vm) sp _ []); [|lia..]|].
  { split_and!; auto; [unfold zlen; cbn; lia|by intros va|]. intros i Hi. unfold zlen in Hi. cbn in Hi. lia. }
  intros r s1 [-> H1]. wp_steps. eapply wp_mono; [apply (push_onto x.(x_vm) sp _ _ _ _ H1); rewrite ?Hrev; lia|].
  intros r s2 [-> H2]. wp_steps. cbn [x_vm x_task]. eapply wp_mono; [apply (push_onto x.(x_vm) sp _ _ _ _ H2); rewrite ?Hcons, ?Hrev; lia|].
  intros r s3 [-> H3]. wp_steps. cbn [x_vm x_task].
  eapply wp_mono; [apply (push_onto x.(x_vm) sp _ _ _ _ H3); change (zlen [zlen pa]) with 1; rewrite ?Hcons, ?Hrev; lia|].
  intros r s4 [-> H4]. wp_steps. cbn [x_vm x_task]. destruct H4 as (Hs4&_&Ho4&Hw4). rewrite ?Hcons, ?Hrev in *. rewrite Hpa in *.
  change (zlen (@nil Z)) with 0 in *.
  split_and!; auto. eexists. split_and!; [..|exact Ho4|]; [lia|lia| | |].
  - unfold start_words. rewrite !Hcons, zlen_app, Hcons, zlen_app, Hrev. lia.
  - unfold set_user_args. cbn. f_equal; lia.
  - unfold start_words. rewrite app_nil_r, rev_involutive in Hw4. cbn [rev app] in Hw4. rewrite rev_involutive, <- app_assoc in Hw4. exact Hw4.
Qed.
End fill.

Lemma start_on_stack s0 A L as_ frames : pt_inv s0 A L -> on_stack s0 A L as_ BOTTOM frames s0.
Proof using. intros Hi. constructor; auto. apply effect_refl. Qed.

(** The rest of the task is left alone. *)
Definition stack_only (t t' : exec_task) : Prop :=
  exists argc av ev sp, t' = set_user_args (set_user_stack t USER_STACK_TOP_VADDR BOTTOM (BOTTOM - PAGE_SIZE)) argc av ev sp.

Lemma stack_only_refl t : stack_only t (set_user_stack t USER_STACK_TOP_VADDR BOTTOM (BOTTOM - PAGE_SIZE)).
Proof using. exists t.(user_argc), t.(user_argv), t.(user_envp), t.(user_stack). by destruct t. Qed.

(** The new stack, writable, and nothing else. *)
Definition stack_made (A L : list Z) (as_ : Z) (s s' : vmst) : Prop :=
  exists L', pt_inv s' A L' /\ effect (range as_ BOTTOM N) (4 * N) A L s L' s' /\
    forall i, 0 <= i < N -> exists pa, placed s' as_ (BOTTOM + i * PAGE_SIZE) RW pa.

Lemma prepare_effect s A L s1 L1 as_ frames s2 :
  as_ ∈ A -> zlen frames = N -> effect (range as_ BOTTOM N) (4 * N) A L s L1 s1 -> stack_mapped s1 as_ BOTTOM frames ->
  on_stack s1 A L1 as_ BOTTOM frames s2 -> stack_made A L as_ s s2.
Proof using.
  intros Ha Hlen He [Hpl _] [Hi Hp Hv He']. rewrite Hlen in He', Hpl. exists L1. split_and!; [done| |].
  - replace (4 * N) with (4 * N + 0) by lia. by eapply effect_trans.
  - intros i Hi'. exists (zget frames i). unfold placed. rewrite Hp, Hv; [by apply Hpl|done|].
    apply user_low. unfold PAGE_SIZE. lia.
Qed.

Lemma prepare_ok x A L as_ :
  pt_inv x.(x_vm) A L -> as_ ∈ A -> as_ <> 0 -> unmapped x.(x_vm) as_ BOTTOM N -> 4 * N <= avail x.(x_vm).(v_pmm) ->
  Forall (fun src => 0x1000 <= src) argv -> Forall (fun src => 0x1000 <= src) envp ->
  wp nopanic (prepare_user_stack_with_ptrs as_ kstr info interp_info argv envp) (fun r x' =>
    r = prepare_result /\ stack_made A L as_ x.(x_vm) x'.(x_vm) /\
    stack_only x.(x_task) x'.(x_task) /\ (r = 0 -> started x'.(x_vm) as_ x'.(x_task))) x.
Proof using.
  intros Hi Ha Hne Hun Hav Harg Henv. unfold prepare_user_stack_with_ptrs, ebind. wp_steps.
  eapply wp_mono; [by apply (alloc_user_stack_ok x A L as_)|]. intros r x1 (frames&L1&->&Hlen&Hi1&He1&Hst&Ht1). wp_steps.
  pose proof (start_on_stack _ _ _ as_ frames Hi1) as Hon.
  pose proof (prepare_effect _ _ _ _ _ _ _ x1.(x_vm) Ha Hlen He1 Hst) as Hm1. unfold prepare_result.
  destruct ((_ <? _) || (_ <? _)) eqn:Emany.
  { wp_steps. cbn [status]. split_and!; [done|by apply Hm1|rewrite Ht1; apply stack_only_refl|done]. }
  unfold xvm. wp_steps. rewrite Ht1. cbn [set_user_stack xt_stack user_stack_top user_stack_bottom].
  eapply wp_mono; [by apply (write_strings_ok x1.(x_vm) A L1 as_ frames)|]. intros [e|[[pa pe] sp]] s2.
  { intros (->&Hs2&Hno). pose proof strings_end_low. wp_steps. cbn [status]. split_and!; [| |apply stack_only_refl|done].
    - unfold stack_fits. pose proof (zlen_nonneg argv). pose proof (zlen_nonneg envp). by rewrite (proj2 (Z.leb_gt _ _)) by lia.
    - by apply (prepare_effect _ _ _ _ _ _ _ _ Ha Hlen He1). }
  intros (->&Hs2&Hlo&Hla&Hle). pose proof (Forall2_length _ _ _ Hla) as Hpa. pose proof (Forall2_length _ _ _ Hle) as Hpe.
  pose proof strings_end_low as Hend. apply orb_false_iff in Emany as [Hn1%Z.ltb_ge Hn2%Z.ltb_ge].
  pose proof (zlen_nonneg argv). pose proof (zlen_nonneg envp). pose proof (sizes_nonneg kstr argv). pose proof (sizes_nonneg kstr envp).
  rewrite u64_small by (unfold PAGE_SIZE; lia). unfold stack_fits. rewrite Z.leb_antisym.
  destruct (Z.ltb_spec strings_end (BOTTOM + (zlen envp + zlen argv + 32) * 8)) as [Hsm|Hfit]; cbn [negb].
  { wp_steps. cbn [status]. split_and!; [done|by apply (prepare_effect _ _ _ _ _ _ _ _ Ha Hlen He1)|apply stack_only_refl|done]. }
  eapply wp_mono; [apply (write_vectors_ok x1.(x_vm) A L1 as_ frames); auto; unfold zlen in *; rewrite ?Hpa, ?Hpe; lia|].
  intros r x3 (->&Hs3&sp'&Hsp'&Hlen3&Ht3&Ho3&Hw3). wp_steps. cbn [status].
  split_and!; [done|by apply (prepare_effect _ _ _ _ _ _ _ _ Ha Hlen He1)| |intros _].
  { rewrite Ht3. by eexists _, _, _, _. }
  rewrite Ht3. constructor; cbn; auto; [lia|]. exists pa, pe. split_and!; auto; [lia|..].
  - eapply strings_lie_weaken; [apply (strings_lie_only _ _ _ _ _ _ _ _ _ _ Ho3); [..|exact Hla]|..]; unfold PAGE_SIZE in *; lia.
  - eapply strings_lie_weaken; [apply (strings_lie_only _ _ _ _ _ _ _ _ _ _ Ho3); [..|exact Hle]|..]; unfold PAGE_SIZE in *; lia.
Qed.
End prepare.
