(* ===== verification/ExecRead.v ===== *)
(** * What a program reads from its first stack

    [program_start]: the arguments, the environment and the auxiliary vector
    as the start code of a C library takes them off the stack (System V ABI):
    the count, the vectors up to their null pointers, pairs up to [AT_NULL].
    It finds what the kernel was asked to put there. *)
From S2P Require Import Prelude State Pmm Pte VmCow Bytes Vmm PtWalk PtInv PtGrow PtMap Mmap PtOps MmapOk MmapCalls MmapTheorems MremapOk.
From S2P Require Import Elf Exec PtBytes ExecStack ExecStart.

(** ** Reading *)
Section read.
Variable U : Z -> option Z.

Fixpoint read_bytes (n : nat) (a : Z) : option (list Z) :=
  match n with
  | O => Some []
  | S n => b ← U a; l ← read_bytes n (a + 1); Some (b :: l)
  end.
Definition read_word (a : Z) : option Z := le_val <$> read_bytes 8 a.

Fixpoint read_str (fuel : nat) (a : Z) : option (list Z) :=
  match fuel with
  | O => None
  | S fuel => b ← U a; if b =? 0 then Some [] else l ← read_str fuel (a + 1); Some (b :: l)
  end.

Fixpoint read_words (n : nat) (a : Z) : option (list Z) :=
  match n with
  | O => Some []
  | S n => w ← read_word a; ws ← read_words n (a + 8); Some (w :: ws)
  end.

(** The words before the first 0. *)
Fixpoint read_vector (fuel : nat) (a : Z) : option (list Z) :=
  match fuel with
  | O => None
  | S fuel => w ← read_word a; if w =? 0 then Some [] else ws ← read_vector fuel (a + 8); Some (w :: ws)
  end.

Fixpoint read_auxv (fuel : nat) (a : Z) : option (list (Z * Z)) :=
  match fuel with
  | O => None
  | S fuel =>
      type ← read_word a; val ← read_word (a + 8);
      if type =? 0 then Some [] else r ← read_auxv fuel (a + 16); Some ((type, val) :: r)
  end.

(** [fuel] bounds the lengths: a stack is 2^18 bytes. *)
Definition program_start (fuel : nat) (sp : Z) : option (list (list Z) * list (list Z) * list (Z * Z)) :=
  argc ← read_word sp;
  av ← read_words (Z.to_nat argc) (sp + 8);
  null ← read_word (sp + 8 + 8 * argc);
  if negb (null =? 0) then None else
  ev ← read_vector fuel (sp + 16 + 8 * argc);
  aux ← read_auxv fuel (sp + 24 + 8 * argc + 8 * zlen ev);
  args ← mapM (read_str fuel) av;
  env ← mapM (read_str fuel) ev;
  Some (args, env, aux).

(** ** It finds what lies there *)
Definition at_bytes (a : Z) (l : list Z) : Prop := forall i, 0 <= i < zlen l -> U (a + i) = Some (zget l i).
Definition at_words (a : Z) (ws : list Z) : Prop := forall i, 0 <= i < zlen ws -> at_bytes (a + 8 * i) (le_bytes 8 (zget ws i)).

Lemma zlen_succ {X} (x : X) l : zlen (x :: l) = zlen l + 1.
Proof using. unfold zlen. cbn [length]. lia. Qed.
Lemma zget_succ (x : Z) l i : 0 <= i -> zget (x :: l) (i + 1) = zget l i.
Proof using. intros. unfold zget. replace (Z.to_nat (i + 1)) with (S (Z.to_nat i)) by lia. done. Qed.

Lemma at_bytes_cons a b l : at_bytes a (b :: l) -> U a = Some b /\ at_bytes (a + 1) l.
Proof using.
  intros Hl. pose proof (zlen_nonneg l). split.
  - rewrite <- (Z.add_0_r a). rewrite Hl by (rewrite zlen_succ; lia). done.
  - intros i Hi. replace (a + 1 + i) with (a + (i + 1)) by lia. rewrite Hl by (rewrite zlen_succ; lia). by rewrite zget_succ by lia.
Qed.

Lemma at_words_cons a w ws : at_words a (w :: ws) -> at_bytes a (le_bytes 8 w) /\ at_words (a + 8) ws.
Proof using.
  intros Hl. pose proof (zlen_nonneg ws). split.
  - rewrite <- (Z.add_0_r a). apply (Hl 0). rewrite zlen_succ. lia.
  - intros i Hi. replace (a + 8 + 8 * i) with (a + 8 * (i + 1)) by lia. rewrite <- (zget_succ w) by lia. apply Hl. rewrite zlen_succ. lia.
Qed.

Lemma at_words_app a ws1 ws2 : at_words a (ws1 ++ ws2) -> at_words a ws1 /\ at_words (a + 8 * zlen ws1) ws2.
Proof using.
  revert a. induction ws1 as [|w ws1 IH]; intros a Hl.
  - split; [intros i Hi; unfold zlen in Hi; cbn in Hi; lia|]. by rewrite Z.add_0_r.
  - cbn [app] in Hl. pose proof Hl as Hl0. apply at_words_cons in Hl as [Hw [H1 H2]%IH]. rewrite zlen_succ.
    replace (a + 8 * (zlen ws1 + 1)) with (a + 8 + 8 * zlen ws1) by lia. split; [|done]. intros i Hi.
    destruct (decide (i = 0)) as [->|Hne]; [by rewrite Z.add_0_r|]. rewrite zlen_succ in Hi.
    replace i with (i - 1 + 1) by lia. rewrite zget_succ by lia. replace (a + 8 * (i - 1 + 1)) with (a + 8 + 8 * (i - 1)) by lia. apply H1. lia.
Qed.

Lemma read_bytes_at l a : at_bytes a l -> read_bytes (length l) a = Some l.
Proof using.
  revert a. induction l as [|b l IH]; intros a Hl; [done|]. apply at_bytes_cons in Hl as [Hb Hl]. cbn. by rewrite Hb, (IH _ Hl).
Qed.

Definition word_ok (w : Z) : Prop := 0 <= w < 2 ^ 64.
Lemma read_word_at a w : at_bytes a (le_bytes 8 w) -> word_ok w -> read_word a = Some w.
Proof using.
  intros Hl Hw. unfold read_word. pose proof (read_bytes_at _ _ Hl) as Hr. rewrite length_le_bytes in Hr. rewrite Hr. cbn. f_equal.
  by apply (le_val_bytes 8).
Qed.

Lemma read_str_at l : forall fuel a, at_bytes a (l ++ [0]) -> 0 ∉ l -> (length l < fuel)%nat -> read_str fuel a = Some l.
Proof using.
  induction l as [|b l IH]; intros [|fuel] a Hl Hz Hf; cbn in Hf; try lia; apply at_bytes_cons in Hl as [Hb Hl]; cbn; rewrite Hb; cbn; [done|].
  apply not_elem_of_cons in Hz as [Hz ?]. destruct (Z.eqb_spec b 0) as [->|_]; [done|]. by rewrite (IH fuel) by (auto; lia).
Qed.

Lemma read_words_at ws : forall a, at_words a ws -> Forall word_ok ws -> read_words (length ws) a = Some ws.
Proof using.
  induction ws as [|w ws IH]; intros a Hl Hok; [done|]. apply at_words_cons in Hl as [Hw Hl]. apply Forall_cons in Hok as [Hwo Hok].
  cbn [read_words length]. rewrite (read_word_at _ _ Hw Hwo). cbn. by rewrite (IH _ Hl Hok).
Qed.

Lemma read_vector_at ws : forall fuel a, at_words a (ws ++ [0]) -> Forall word_ok ws -> 0 ∉ ws -> (length ws < fuel)%nat ->
  read_vector fuel a = Some ws.
Proof using.
  induction ws as [|w ws IH]; intros [|fuel] a Hl Hok Hz Hf; cbn in Hf; try lia; apply at_words_cons in Hl as [Hw Hl]; cbn [read_vector app].
  - by rewrite (read_word_at _ _ Hw) by done.
  - apply Forall_cons in Hok as [Hwo Hok]. apply not_elem_of_cons in Hz as [Hz ?]. rewrite (read_word_at _ _ Hw Hwo). cbn [mbind option_bind].
    destruct (Z.eqb_spec w 0) as [->|_]; [done|]. by rewrite (IH fuel) by (auto; lia).
Qed.

Definition flat (aux : list (Z * Z)) : list Z := foldr (fun '(t, v) l => t :: v :: l) [] aux.

Lemma read_auxv_at aux : forall fuel a v, at_words a (flat aux ++ [0; v]) -> word_ok v ->
  Forall (fun '(t, v) => word_ok t /\ t <> 0 /\ word_ok v) aux -> (length aux < fuel)%nat -> read_auxv fuel a = Some aux.
Proof using.
  induction aux as [|[t w] aux IH]; intros [|fuel] a v Hl Hv Hok Hf; cbn in Hf; try lia; apply at_words_cons in Hl as [Ht [Hw Hl]%at_words_cons];
    cbn [read_auxv].
  - by rewrite (read_word_at _ _ Ht), (read_word_at _ _ Hw) by done.
  - apply Forall_cons in Hok as [(Hto&Hnz&Hwo) Hok]. rewrite (read_word_at _ _ Ht Hto), (read_word_at _ _ Hw Hwo). cbn [mbind option_bind].
    destruct (Z.eqb_spec t 0) as [->|_]; [done|]. replace (a + 8 + 8) with (a + 16) in Hl by lia. by rewrite (IH fuel _ v) by (auto; lia).
Qed.
End read.

(** ** The stack of a new program *)
Definition auxv_pairs (info : elf_info) (interp_info : option elf_info) (random_base : Z) : list (Z * Z) :=
  [(3, info.(i_phdr_vaddr)); (4, info.(i_phent)); (5, info.(i_phnum)); (6, PAGE_SIZE); (9, info.(i_entry))] ++
  (if info.(i_has_interp) then [(7, match interp_info with Some i => i.(i_load_bias) | None => 0 end)] else []) ++
  [(11, 0); (12, 0); (13, 0); (14, 0); (23, 0); (25, random_base)].

Lemma auxv_flat info interp_info r : rev (auxv_words info interp_info r) = 0 :: flat (auxv_pairs info interp_info r) ++ [0; 0].
Proof. unfold auxv_words, auxv_pairs. by destruct info.(i_has_interp). Qed.

(** What the loader found fits in words. *)
Record info_ok (i : elf_info) : Prop := {
  io_entry : word_ok i.(i_entry);
  io_phdr : word_ok i.(i_phdr_vaddr);
  io_phent : word_ok i.(i_phent);
  io_phnum : word_ok i.(i_phnum);
  io_bias : word_ok i.(i_load_bias);
}.

Lemma auxv_ok info interp_info r : info_ok info -> (forall i, interp_info = Some i -> info_ok i) -> word_ok r ->
  Forall (fun '(t, v) => word_ok t /\ t <> 0 /\ word_ok v) (auxv_pairs info interp_info r).
Proof.
  intros [] Hi Hr. assert (Hb : word_ok (match interp_info with Some i => i.(i_load_bias) | None => 0 end)).
  { destruct interp_info as [i|]; [by apply Hi|done]. }
  unfold word_ok, PAGE_SIZE in *. unfold auxv_pairs.
  rewrite !Forall_app. split_and!; [|destruct (i_has_interp info)|]; repeat (apply Forall_cons; split); try apply Forall_nil; cbv beta iota; split_and?;
    unfold PAGE_SIZE; (done || lia).
Qed.

Section start.
Variables (kstr : Z -> list Z) (info : elf_info) (interp_info : option elf_info) (argv envp : list Z).
Variables (s : vmst) (as_ : Z) (t : exec_task) (fuel : nat).
Hypothesis Hfuel : 2 ^ 18 <= Z.of_nat fuel.
Hypothesis Hst : started kstr info interp_info argv envp s as_ t.
Hypotheses (Hargc : zlen argv <= EXEC_MAX_VEC_STRINGS) (Henvc : zlen envp <= EXEC_MAX_VEC_STRINGS).
Hypotheses (Hinfo : info_ok info) (Hinterp : forall i, interp_info = Some i -> info_ok i).
Hypothesis Hz : forall src, src ∈ argv ++ envp -> 0 ∉ kstr src.
Abbreviation BOTTOM := (USER_STACK_TOP_VADDR - (USER_STACK_PAGES - USER_STACK_GUARD_PAGES) * PAGE_SIZE).
Abbreviation RANDOM := (USER_STACK_TOP_VADDR - 16).
(** Memory that shows the lower half of the space. *)
Variable U : Z -> option Z.
Hypothesis HU : forall va, 0 <= va < 2 ^ 47 -> U va = ub s as_ va.

Lemma low_bytes a l : bytes_lie as_ s a l -> 0 <= a -> a + zlen l <= 2 ^ 47 -> at_bytes U a l.
Proof using HU. clear Hfuel. intros Hb H0 Hend i Hi. rewrite HU by lia. by apply Hb. Qed.

Lemma ptrs_ok ptrs vec : strings_lie as_ kstr s BOTTOM RANDOM ptrs vec -> Forall word_ok ptrs /\ 0 ∉ ptrs.
Proof using.
  clear Hfuel. intros Hl. assert (Hall : Forall (fun p => BOTTOM <= p <= RANDOM) ptrs).
  { eapply Forall2_Forall_l; [exact Hl|]. apply Forall_true. intros src p (?&?&_). pose proof (zlen_nonneg (kstr src)). lia. }
  split.
  - eapply Forall_impl; [exact Hall|]. intros p Hp. unfold word_ok, PAGE_SIZE in *. lia.
  - intros Hin. rewrite Forall_forall in Hall. specialize (Hall 0 Hin). unfold PAGE_SIZE in Hall. lia.
Qed.

Lemma ptrs_read ptrs vec : strings_lie as_ kstr s BOTTOM RANDOM ptrs vec -> (forall src, src ∈ vec -> 0 ∉ kstr src) ->
  mapM (read_str U fuel) ptrs = Some (kstr <$> vec).
Proof using Hfuel HU.
  intros Hl Hnz. induction Hl as [|p src ptrs vec (Hlo&Hhi&Hb) _ IH]; [done|]. cbn [mapM fmap list_fmap].
  rewrite (read_str_at U (kstr src)); [| |apply Hnz; by left|].
  - cbn. rewrite IH; [done|]. intros. apply Hnz. by right.
  - apply low_bytes; auto; unfold PAGE_SIZE in *; rewrite ?zlen_str; lia.
  - unfold zlen, PAGE_SIZE in Hlo, Hhi. lia.
Qed.

Lemma started_reads : program_start U fuel t.(user_stack) = Some (kstr <$> argv, kstr <$> envp, auxv_pairs info interp_info RANDOM).
Proof using All.
  destruct (sd_words _ _ _ _ _ _ _ _ Hst) as (pa&pe&Hhi&_&_&Hw'&Ha&He). pose proof (sd_low _ _ _ _ _ _ _ _ Hst) as Hlo.
  assert (Hw : at_words U t.(user_stack) (start_words info interp_info argv pa pe)).
  { intros i Hi. unfold PAGE_SIZE in Hlo. apply low_bytes; [by apply Hw'|lia|]. unfold zlen at 1. rewrite length_le_bytes. lia. }
  clear Hw' Hhi Hlo. unfold start_words in Hw. rewrite auxv_flat in Hw.
  destruct (ptrs_ok _ _ Ha) as [Hpa _], (ptrs_ok _ _ He) as [Hpe Hpe0].
  pose proof (Forall2_length _ _ _ Ha) as Hla. pose proof (Forall2_length _ _ _ He) as Hle.
  change (at_words U t.(user_stack) (zlen argv :: pa ++ 0 :: pe ++ 0 :: flat (auxv_pairs info interp_info RANDOM) ++ [0; 0])) in Hw.
  apply at_words_cons in Hw as [Hc [Hwa [Hn Hwe]%at_words_cons]%at_words_app]. pose proof (zlen_nonneg argv).
  assert (Hzp : zlen pa = zlen argv) by (unfold zlen; by rewrite Hla).
  rewrite cons_middle, app_assoc in Hwe. apply at_words_app in Hwe as [Hwe Hwx].
  rewrite zlen_str, Hzp in *. unfold program_start.
  rewrite (read_word_at U _ _ Hc) by (unfold word_ok; lia). cbn [mbind option_bind].
  replace (Z.to_nat (zlen argv)) with (length pa) by (unfold zlen; lia). rewrite (read_words_at U pa _ Hwa Hpa). cbn [mbind option_bind].
  rewrite (read_word_at U _ 0 Hn) by done. cbn [mbind option_bind negb Z.eqb].
  replace (t.(user_stack) + 8 + 8 * zlen argv + 8) with (t.(user_stack) + 16 + 8 * zlen argv) in * by lia.
  rewrite (read_vector_at U pe _ _ Hwe Hpe Hpe0) by (unfold zlen in *; lia). cbn [mbind option_bind].
  replace (t.(user_stack) + 16 + 8 * zlen argv + 8 * (zlen pe + 1)) with (t.(user_stack) + 24 + 8 * zlen argv + 8 * zlen pe) in Hwx by lia.
  rewrite (read_auxv_at U _ _ _ 0 Hwx); [|done|by apply auxv_ok|]. cbn [mbind option_bind].
  - rewrite (ptrs_read _ _ Ha), (ptrs_read _ _ He); [done|..]; intros; apply Hz; apply elem_of_app; auto.
  - unfold auxv_pairs. rewrite !length_app. destruct (i_has_interp info); cbn [length]; lia.
Qed.
End start.
