(* ===== verification/PmmRuns.v ===== *)
(** * Runs of pages

    [pmm_alloc] and [pmm_free] on several pages at once, seen by address: the
    buffers of exec are such runs.  [moved p p' B]: from [p] to [p'] only the
    pages [B] change hands. *)
From S2P Require Import Prelude State Pmm Pte VmCow Vmm PtWalk PtInv PtGrow Mmap PtOps.

Definition run (pa n f : Z) : Prop := exists i, 0 <= i < n /\ f = pa + i * PAGE_SIZE.

#[export] Instance run_dec pa n f : Decision (run pa n f).
Proof.
  refine (cast_if (decide (0 <= (f - pa) / PAGE_SIZE < n /\ f = pa + (f - pa) / PAGE_SIZE * PAGE_SIZE))).
  - abstract (by exists ((f - pa) / PAGE_SIZE)).
  - abstract (intros (i&Hi&->); replace (pa + i * PAGE_SIZE - pa) with (i * PAGE_SIZE) in * by lia; rewrite Z.div_mul in * by done; tauto).
Defined.

Record moved (p p' : pmm) (B : Z -> Prop) : Prop := {
  mv_ok : pmm_ok p';
  mv_base : p'.(g_base_pa) = p.(g_base_pa);
  mv_pages : p'.(g_pages) = p.(g_pages);
  mv_ref : forall f, aligned f -> ~ B f -> pmm_get_ref p' f = pmm_get_ref p f;
  mv_free : forall f, aligned f -> ~ B f -> free_at p' f <-> free_at p f;
}.

Lemma popcnt_run f g st n N :
  0 <= st -> st + Z.of_nat n <= Z.of_nat N ->
  (forall q, st <= q < st + Z.of_nat n -> f q = false /\ g q = true) ->
  (forall q, 0 <= q < Z.of_nat N -> ~ st <= q < st + Z.of_nat n -> g q = f q) ->
  popcnt g N = popcnt f N + Z.of_nat n.
Proof.
  revert g. induction n as [|n IH]; intros g Hst Hend Hrun Hout.
  - rewrite Z.add_0_r. apply popcnt_ext. intros q Hq. apply Hout; lia.
  - set (q0 := st + Z.of_nat n). set (g' := fun q => if decide (q = q0) then false else g q).
    rewrite (popcnt_update g g' N q0); [|unfold q0; lia|unfold g'; intros q Hq Hne; by rewrite decide_False].
    rewrite (IH g'); [|lia|lia| |].
    + unfold g'. rewrite decide_True by done. destruct (Hrun q0) as [_ ->]; [unfold q0; lia|]. cbn. lia.
    + intros q Hq. unfold g'. rewrite decide_False by (unfold q0; lia). apply Hrun. lia.
    + intros q Hq Hn. unfold g'. case_decide as Hd; [subst q; destruct (Hrun q0); [unfold q0; lia|done]|]. apply Hout; unfold q0 in *; lia.
Qed.

(** The pages of a run, and the pages of the allocator. *)
Lemma run_page p st n f q : pmm_wf p -> 0 <= st -> st + n <= p.(g_pages) -> aligned f -> pmm_page_of p f = Some q ->
  run (page_addr p st) n f <-> st <= q < st + n.
Proof.
  intros Hwf Hst Hend Hal Hof. destruct (page_of_aligned_inv p f q Hwf Hal Hof) as [Hq ->]. unfold run, page_addr. split.
  - intros (i&Hi&He). unfold PAGE_SIZE in *. lia.
  - intros Hr. exists (q - st). split; [lia|]. lia.
Qed.

Lemma run_addr p st n f : pmm_wf p -> 0 <= st -> st + n <= p.(g_pages) -> run (page_addr p st) n f ->
  exists q, st <= q < st + n /\ f = page_addr p q /\ pmm_page_of p f = Some q /\ aligned f.
Proof.
  intros Hwf Hst Hend (i&Hi&->). exists (st + i). assert (Hf : page_addr p st + i * PAGE_SIZE = page_addr p (st + i)) by (unfold page_addr; lia).
  rewrite Hf. split_and!; [lia|lia|done|apply page_of_page; lia || done|apply page_addr_aligned; done || lia].
Qed.

(** A run changes hands: [b] says whether its pages are in use afterwards,
    [r] how often. *)
Lemma run_moved p p' st n (b : bool) r :
  pmm_ok p -> pmm_wf p' -> p'.(g_base_pa) = p.(g_base_pa) -> p'.(g_pages) = p.(g_pages) -> 0 <= st -> st + n <= p.(g_pages) ->
  (0 < r -> b = true) ->
  (forall q, 0 <= q < p.(g_pages) -> pmm_test p' q = if decide (st <= q < st + n) then b else pmm_test p q) ->
  (forall q, 0 <= q < p.(g_pages) -> zget p'.(g_rc) q = if decide (st <= q < st + n) then r else zget p.(g_rc) q) ->
  moved p p' (run (page_addr p st) n) /\
  forall f, run (page_addr p st) n f -> aligned f /\ pmm_get_ref p' f = r /\ (free_at p' f <-> b = false).
Proof.
  intros [Hwf Hrefs] Hwf' Hb Hg Hst Hend Hrb Ht Hr.
  pose proof (get_ref_change p p' (fun q x => if decide (st <= q < st + n) then r else x)
    (fun q x => if decide (st <= q < st + n) then b else x) Hwf Hb Hg Hr Ht) as Hch.
  split; [constructor; auto|].
  - split; [done|]. intros q. rewrite Hg. intros Hq. rewrite Hr, Ht by done. case_decide; [done|]. by apply Hrefs.
  - intros f Hal Hn. specialize (Hch f). destruct (pmm_page_of p f) as [q|] eqn:E; [|lia].
    destruct Hch as [-> _]. rewrite decide_False; [done|]. by rewrite <- (run_page p st n f q).
  - intros f Hal Hn. specialize (Hch f). destruct (pmm_page_of p f) as [q|] eqn:E.
    + destruct Hch as [_ ->]. rewrite decide_False by (by rewrite <- (run_page p st n f q)).
      split; [by exists q|intros (q'&?&?); congruence].
    + split; [tauto|intros (?&?&_); congruence].
  - intros f Hrun. destruct (run_addr p st n f Hwf Hst Hend Hrun) as (q&Hq&_&Hof&Hal). specialize (Hch f). rewrite Hof in Hch.
    rewrite decide_True in Hch by done. destruct Hch as [-> ->]. rewrite decide_True by done. done.
Qed.

Lemma alloc_run p n pa p' : pmm_ok p -> 0 < n < 2 ^ 64 -> pmm_alloc p n = (pa, p') -> pa <> 0 ->
  moved p p' (run pa n) /\ avail p' = avail p - n /\ aligned pa /\
  forall f, run pa n f -> aligned f /\ free_at p f /\ pmm_get_ref p' f = 1.
Proof.
  intros Hok Hn Ha Hne. pose proof Hok as [Hwf _]. apply pmm_alloc_spec in Ha as (Hwf'&Hb&Hg&Hres); [|done|lia].
  destruct Hres as [(?&_)|(_&st&Hst&Hend&Hfree&->&_&Ht&Hr)]; [done|].
  change (p.(g_base_pa) + st * PAGE_SIZE) with (page_addr p st) in *.
  destruct (run_moved p p' st n true 1 Hok Hwf' Hb Hg Hst Hend) as [Hm Hf]; [done|..].
  - intros q Hq. rewrite Ht by done. case_bool_decide; case_decide; done.
  - intros q Hq. rewrite Hr by done. case_bool_decide; case_decide; done.
  - split_and!; [done| |apply page_addr_aligned; done || lia|].
    + unfold avail. rewrite Hg, (wf_used p Hwf), (wf_used p' Hwf'), Hg. pose proof (wf_pages p Hwf).
      rewrite (popcnt_run (bm_test p.(g_bm)) (bm_test p'.(g_bm)) st (Z.to_nat n)); [lia|lia|lia|..].
      * intros q Hq. split; [apply (Hfree q); lia|]. change (pmm_test p' q = true). rewrite Ht by lia. by rewrite bool_decide_eq_true_2 by lia.
      * intros q Hq Hn'. change (pmm_test p' q = pmm_test p q). rewrite Ht by lia. by rewrite bool_decide_eq_false_2 by lia.
    + intros f Hrun. destruct (Hf f Hrun) as (?&?&_). split_and!; auto.
      destruct (run_addr p st n f Hwf Hst Hend Hrun) as (q&Hq&_&Hof&_). exists q. split; [done|]. apply (Hfree q). lia.
Qed.

Lemma free_run p n pa : pmm_ok p -> 0 < n -> (forall f, run pa n f -> aligned f /\ pmm_get_ref p f = 1) ->
  moved p (pmm_free p pa n) (run pa n) /\ avail (pmm_free p pa n) = avail p + n /\
  forall f, run pa n f -> free_at (pmm_free p pa n) f /\ pmm_get_ref (pmm_free p pa n) f = 0.
Proof.
  intros Hok Hn Hrun. pose proof Hok as [Hwf Hrefs].
  destruct (Hrun pa) as [Hal Hr0]; [exists 0; lia|].
  destruct (get_ref_pos p pa Hwf Hal ltac:(lia)) as (st&Hst&Hpa&_).
  destruct (Hrun (pa + (n - 1) * PAGE_SIZE)) as [Hal' Hr1]; [exists (n - 1); lia|].
  destruct (get_ref_pos p _ Hwf Hal' ltac:(lia)) as (en&Hen&Hpa'&_).
  assert (Hend : st + n <= p.(g_pages)) by (unfold page_addr, PAGE_SIZE in *; lia). clear en Hen Hpa' Hal' Hr1.
  destruct (pmm_free_loop_wf (Z.to_nat n) 0 pa p Hwf) as (Hwf'&Hb&Hg). fold (pmm_free p pa n) in Hwf', Hb, Hg.
  assert (Hone : forall q, st + 0 <= q < st + 0 + Z.of_nat (Z.to_nat n) -> zget p.(g_rc) q = 1).
  { intros q Hq. destruct (Hrun (page_addr p q)) as [_ H1]; [exists (q - st); split; [lia|]; rewrite Hpa; unfold page_addr; lia|].
    unfold pmm_get_ref in H1. unfold page_addr in H1. rewrite page_of_page in H1 by (done || lia). done. }
  pose proof (pmm_free_run (Z.to_nat n) st p 0 pa Hwf ltac:(lia) ltac:(lia) ltac:(lia) Hpa Hone) as Hres. cbv zeta in Hres.
  fold (pmm_free p pa n) in Hres.
  destruct (run_moved p (pmm_free p pa n) st n false 0 Hok Hwf' Hb Hg ltac:(lia) Hend) as [Hm Hf]; [lia|..].
  - intros q Hq. destruct (Hres q Hq) as [-> _]. case_bool_decide; case_decide; (done || lia).
  - intros q Hq. destruct (Hres q Hq) as [_ ->]. case_bool_decide; case_decide; (done || lia).
  - rewrite Hpa in *. split_and!; [done| |].
    + unfold avail. rewrite Hg, (wf_used p Hwf), (wf_used _ Hwf'), Hg. pose proof (wf_pages p Hwf).
      rewrite (popcnt_run (bm_test (g_bm (pmm_free p (page_addr p st) n))) (bm_test p.(g_bm)) st (Z.to_nat n)); [lia|lia|lia|..].
      * intros q Hq. split.
        -- change (pmm_test (pmm_free p (page_addr p st) n) q = false). destruct (Hres q ltac:(lia)) as [-> _]. by rewrite bool_decide_eq_true_2 by lia.
        -- apply Hrefs; [lia|]. rewrite Hone by lia. lia.
      * intros q Hq Hn'. change (pmm_test p q = pmm_test (pmm_free p (page_addr p st) n) q). destruct (Hres q ltac:(lia)) as [-> _].
        by rewrite bool_decide_eq_false_2 by lia.
    + intros f Hf'. destruct (Hf f Hf') as (?&?&Hfr). split; [by apply Hfr|done].
Qed.

(** ** Page tables while runs change hands *)
(** Pages of no process: no table and not mapped. *)
Definition aside (s : vmst) (A L : list Z) (B : Z -> Prop) : Prop :=
  forall f, B f -> aligned f /\ f <> 0 /\ (~ is_table s.(v_mem) A f) /\ (forall x, x ∈ L -> frame s.(v_mem) x <> f) /\ managed s.(v_pmm) f.

Section aside.
Variables (s : vmst) (A L : list Z) (B : Z -> Prop).
Hypotheses (Hi : pt_inv s A L) (HB : aside s A L B).

Lemma aside_not f : is_table s.(v_mem) A f \/ f = 0 \/ (exists x, x ∈ L /\ frame s.(v_mem) x = f) -> ~ B f.
Proof using HB. intros Hf HBf. destruct (HB f HBf) as (_&H0&Ht&Hx&_). destruct Hf as [?|[?|(x&?&?)]]; [done|done|by apply (Hx x)]. Qed.

Lemma moved_inv p1 : moved s.(v_pmm) p1 B -> pt_inv (with_pmm s p1) A L.
Proof using Hi HB.
  intros [Hok Hb Hg Hr Hf]. pose proof (pi_cow _ _ _ Hi) as Hc.
  assert (Hfr : forall x, x ∈ L -> pmm_get_ref p1 (frame s.(v_mem) x) = pmm_get_ref s.(v_pmm) (frame s.(v_mem) x)).
  { intros x Hx. apply Hr; [apply frame_aligned|]. apply aside_not. right. right. by exists x. }
  constructor; try apply Hi.
  - constructor; cbn [v_pmm v_mem with_pmm]; auto; try apply Hc.
    + rewrite Hb, Hg. apply Hc.
    + assert (Hn0 : ~ B 0) by (apply aside_not; auto). rewrite Hr, Hf by done. apply Hc.
    + intros x Hx. rewrite Hfr by done. by apply Hc.
    + intros x Hx. rewrite Hfr by done. by apply Hc.
    + intros x Hx. destruct (in_L s A L Hi x Hx) as (as_&va&Ha&Hu&Hl). rewrite Hf; [by apply Hc|apply page_down_aligned|].
      apply aside_not. left. by apply (leaf_page s A L Hi as_ va).
  - intros t Ht. cbn. destruct (pi_tab _ _ _ Hi t Ht) as [Hal <-]. split; [done|]. apply Hr; [done|]. apply aside_not. by left.
  - intros x. rewrite (pi_leaf _ _ _ Hi). unfold managed. cbn. by setoid_rewrite (page_of_range s.(v_pmm) p1 _ Hb Hg).
Qed.

(** Bytes of such pages change. *)
Variable m' : memory.
Hypothesis Hm : forall a, ~ B (page_down a) -> m' a = s.(v_mem) a.

Lemma aside_table a : is_table s.(v_mem) A (page_down a) -> m' a = s.(v_mem) a.
Proof using HB Hm. intros Ht. apply Hm, aside_not. by left. Qed.

Lemma aside_tab as_ va k : as_ ∈ A -> user va -> (k <= 3)%nat -> tab m' as_ va k = tab s.(v_mem) as_ va k.
Proof using Hi HB Hm.
  intros Ha Hu Hk. apply tab_agree. intros j t Hj Ht. f_equal. apply aside_table.
  rewrite (table_slot s A L Hi as_ va j t) by (auto; lia). exists as_, va, j. split_and!; auto. lia.
Qed.

Lemma aside_slot as_ va k t : as_ ∈ A -> user va -> (k <= 3)%nat -> tab s.(v_mem) as_ va k = Some t ->
  m' (slot t (idx k va)) = s.(v_mem) (slot t (idx k va)).
Proof using Hi HB Hm.
  intros Ha Hu Hk Ht. apply aside_table. rewrite (table_slot s A L Hi as_ va k t) by auto. by exists as_, va, k.
Qed.

Lemma aside_huge as_ va : as_ ∈ A -> user va -> huge m' as_ va = huge s.(v_mem) as_ va.
Proof using Hi HB Hm.
  intros Ha Hu. unfold huge. rewrite aside_tab by (auto; lia). destruct (tab s.(v_mem) as_ va 2) as [t|] eqn:Ht; [|done].
  by rewrite (aside_slot as_ va 2 t) by (auto; lia).
Qed.

Lemma aside_fill : pt_inv (with_mem s m') A L /\
  forall as_ va, as_ ∈ A -> user va -> leaf m' as_ va = leaf s.(v_mem) as_ va.
Proof using Hi HB Hm.
  apply (inv_same s A L Hi (with_mem s m')); [done|apply aside_tab| |apply aside_huge].
  intros as_ va t Ha Hu Ht. apply (aside_slot as_ va 3); auto.
Qed.

Lemma aside_entry x : x ∈ L -> m' x = s.(v_mem) x.
Proof using Hi HB Hm.
  intros Hx. destruct (in_L s A L Hi x Hx) as (as_&va&Ha&Hu&Hl). by apply aside_table, (leaf_page s A L Hi as_ va).
Qed.

Lemma aside_view as_ va : as_ ∈ A -> user va -> view m' as_ va = view s.(v_mem) as_ va.
Proof using Hi HB Hm.
  intros Ha Hu. unfold view. rewrite (proj2 aside_fill) by auto. destruct (leaf s.(v_mem) as_ va) as [x|] eqn:E; [|done].
  f_equal. apply aside_table. by apply (leaf_page s A L Hi as_ va).
Qed.

Lemma aside_stray f : stray (with_mem s m') A L f <-> stray s A L f.
Proof using Hi HB Hm.
  unfold stray. cbn [v_mem v_pmm with_mem]. assert (Ht : is_table m' A f <-> is_table s.(v_mem) A f).
  { split; intros (as1&va1&k&?&?&?&?); exists as1, va1, k; [rewrite <- aside_tab|rewrite aside_tab]; auto. }
  rewrite Ht. split; intros (?&?&Hn); split_and!; auto; intros x Hx; specialize (Hn x Hx); unfold frame in *;
    [rewrite <- aside_entry by done|rewrite aside_entry by done]; done.
Qed.
End aside.

(** ** What processes see *)
(** From [s] to [s'] the processes [A] keep their pages, those of [D]
    apart. *)
Record seen (D : Z -> Z -> Prop) (A : list Z) (s s' : vmst) : Prop := {
  sn_base : s'.(v_pmm).(g_base_pa) = s.(v_pmm).(g_base_pa);
  sn_pages : s'.(v_pmm).(g_pages) = s.(v_pmm).(g_pages);
  sn_view : forall as_ va, as_ ∈ A -> user va -> ~ D as_ (key 4 va) -> view s'.(v_mem) as_ va = view s.(v_mem) as_ va;
  sn_data : forall as_ va e a, as_ ∈ A -> user va -> ~ D as_ (key 4 va) ->
    view s.(v_mem) as_ va = Some e -> in_frame (x86_pte_phys e) a -> s'.(v_mem) a = s.(v_mem) a;
  sn_huge : forall as_ va, as_ ∈ A -> user va -> huge s'.(v_mem) as_ va = huge s.(v_mem) as_ va;
}.

Lemma seen_trans D A s1 s2 s3 : seen D A s1 s2 -> seen D A s2 s3 -> seen D A s1 s3.
Proof.
  intros [] []. constructor; try congruence.
  - intros. rewrite sn_view1; auto.
  - intros. rewrite (sn_data1 as_ va e), (sn_data0 as_ va e); auto. rewrite sn_view0; auto.
  - intros. rewrite sn_huge1; auto.
Qed.

Lemma seen_sub (D D' : Z -> Z -> Prop) A A' s s' :
  seen D A s s' -> (forall a, a ∈ A' -> a ∈ A) -> (forall a v, a ∈ A' -> D a v -> D' a v) -> seen D' A' s s'.
Proof.
  intros [] HA HD. constructor; auto. intros as_ va e a Ha Hu Hn. apply sn_data0; auto.
Qed.

Lemma effect_seen D k A L s L' s' : effect D k A L s L' s' -> seen D A s s'.
Proof. intros []. by constructor. Qed.

Lemma seen_pmm D A s p1 : p1.(g_base_pa) = s.(v_pmm).(g_base_pa) -> p1.(g_pages) = s.(v_pmm).(g_pages) -> seen D A s (with_pmm s p1).
Proof. by constructor. Qed.

Lemma seen_fill D A L s B m' : pt_inv s A L -> aside s A L B -> (forall a, ~ B (page_down a) -> m' a = s.(v_mem) a) -> seen D A s (with_mem s m').
Proof.
  intros Hi HB Hm. constructor; try done.
  - intros. by apply (aside_view s A L B).
  - intros as_ va e a Ha Hu _ Hv Hin. apply Hm. intros HBa. destruct (HB _ HBa) as (_&_&_&Hx&Hmg).
    destruct (frame_plain s A L Hi as_ va e a Ha Hu Hv Hin) as (Hp&_). destruct (view_leaf _ _ _ _ Hv) as (x&Hl&<-).
    rewrite Hp in *. apply (Hx x); [|done]. apply (pi_leaf _ _ _ Hi). by exists as_, va.
  - intros. by apply (aside_huge s A L B).
Qed.

Lemma seen_grows D k H A L s s' : pt_inv s A L -> grows k H A s s' -> seen D A s s'.
Proof.
  intros Hi Hg. constructor; try apply Hg.
  - intros as_ va Ha Hu _. unfold view. rewrite (gr_leaf _ _ _ _ _ Hg) by auto.
    destruct (leaf s.(v_mem) as_ va) as [x|] eqn:E; [|done]. by rewrite (gr_entry _ _ _ _ _ Hg as_ va x).
  - intros as_ va e a Ha Hu _ Hv Hin. destruct (frame_plain s A L Hi as_ va e a Ha Hu Hv Hin) as (_&?&?).
    by apply (gr_mem _ _ _ _ _ Hg).
Qed.

(** ** Buffers *)
(** A run of pages the kernel holds for itself. *)
Definition buffer (s : vmst) (A L : list Z) (pa n : Z) : Prop :=
  forall f, run pa n f -> aligned f /\ f <> 0 /\ stray s A L f /\ pmm_get_ref s.(v_pmm) f = 1.

Lemma buffer_aside s A L pa n : buffer s A L pa n -> aside s A L (run pa n).
Proof. intros Hb f Hf. destruct (Hb f Hf) as (?&?&(?&?&?)&?). split_and!; auto. apply ref_managed. lia. Qed.

Lemma buffer_effect D k A L s L' s' pa n : effect D k A L s L' s' -> buffer s A L pa n -> buffer s' A L' pa n.
Proof.
  intros He Hb f Hf. destruct (Hb f Hf) as (Hal&H0&Hs&Hr). split_and!; auto; [by apply (ef_stray _ _ _ _ _ _ _ He)|].
  by rewrite (ef_keep _ _ _ _ _ _ _ He).
Qed.

(** A page of the allocator changes hands. *)
Lemma moved_stray s A L p1 B f : moved s.(v_pmm) p1 B -> aligned f -> ~ B f -> stray (with_pmm s p1) A L f <-> stray s A L f.
Proof. intros Hm Hal Hn. unfold stray. cbn [v_pmm v_mem with_pmm]. by rewrite (mv_ref _ _ _ Hm). Qed.

Lemma alloc_none p n p1 : pmm_ok p -> ~ free_at p 0 -> 0 < n < 2 ^ 64 -> pmm_alloc p n = (0, p1) ->
  moved p p1 (fun _ => False) /\ avail p1 = avail p.
Proof.
  intros [Hwf Hrefs] Hz Hn Ha. apply pmm_alloc_spec in Ha as (Hwf'&Hb&Hg&Hres); [|done|lia].
  destruct Hres as [(_&Hr&Hbm)|(_&st&_&_&_&_&Hne&_)]; [|done].
  assert (Hbm' : p1.(g_bm) = p.(g_bm)).
  { destruct Hbm as [[? _]|(Hb0&Hp&Hfr)]; [done|]. destruct Hz. exists 0. split; [|apply (Hfr 0); lia].
    rewrite <- (page_of_page p Hwf 0) by lia. f_equal. lia. }
  assert (Ht : forall q, pmm_test p1 q = pmm_test p q) by (intros q; unfold pmm_test; by rewrite Hbm').
  split; [constructor; auto|].
  - split; [done|]. intros q. rewrite Hg, Hr, Ht. apply Hrefs.
  - intros f _ _. unfold pmm_get_ref. rewrite (page_of_range p p1 f Hb Hg). by rewrite Hr.
  - intros f _ _. unfold free_at. setoid_rewrite Ht. by setoid_rewrite (page_of_range p p1 f Hb Hg).
  - unfold avail. rewrite Hg, (wf_used p Hwf), (wf_used p1 Hwf'), Hg. by rewrite Hbm'.
Qed.

(** What an allocation of [n] pages gives. *)
Definition alloc_pages_post (A L : list Z) (n : Z) (s : vmst) (pa : Z) (s' : vmst) : Prop :=
  pt_inv s' A L /\ s'.(v_mem) = s.(v_mem) /\ seen (fun _ _ => False) A s s' /\
  if decide (pa = 0) then (forall f, aligned f -> stray s' A L f <-> stray s A L f) /\ avail s'.(v_pmm) = avail s.(v_pmm) /\
    moved s.(v_pmm) s'.(v_pmm) (fun _ => False)
  else buffer s' A L pa n /\ moved s.(v_pmm) s'.(v_pmm) (run pa n) /\ (forall f, run pa n f -> ~ stray s A L f) /\
       avail s'.(v_pmm) = avail s.(v_pmm) - n.

Lemma alloc_pages_ok n s A L pa p1 :
  pt_inv s A L -> 0 < n < 2 ^ 64 -> pmm_alloc s.(v_pmm) n = (pa, p1) -> alloc_pages_post A L n s pa (with_pmm s p1).
Proof.
  intros Hi Hn Ha. pose proof (inv_pmm_ok s A L Hi) as Hok. pose proof (proj1 (ci_zero _ _ (pi_cow _ _ _ Hi))) as Hz.
  unfold alloc_pages_post. case_decide as Hpa; cbn [v_pmm v_mem with_pmm].
  - subst pa. destruct (alloc_none _ _ _ Hok Hz Hn Ha) as [Hm Hav].
    split_and!; auto; [by apply (moved_inv s A L (fun _ => False))|by apply seen_pmm; apply Hm|].
    intros f Hf. by apply (moved_stray s A L p1 (fun _ => False)); [..|tauto].
  - destruct (alloc_run _ _ _ _ Hok Hn Ha Hpa) as (Hm&Hav&_&Hrun).
    assert (Hfresh : forall f, run pa n f -> f <> 0 /\ (~ is_table s.(v_mem) A f) /\ forall x, x ∈ L -> frame s.(v_mem) x <> f).
    { intros f Hf. destruct (Hrun f Hf) as (_&Hfr&_). split_and!; [by intros ->|by intros ?%(table_live s A L Hi)|].
      intros x Hx <-. revert Hfr. apply get_ref_not_free; [done|]. by apply (inv_ref_pos s L (pi_cow _ _ _ Hi)). }
    split_and!; auto.
    + apply (moved_inv s A L (run pa n)); auto. intros f Hf. destruct (Hfresh f Hf) as (?&?&?), (Hrun f Hf) as (?&(q&?&_)&_).
      split_and!; auto. by exists q.
    + apply seen_pmm; apply Hm.
    + intros f Hf. destruct (Hfresh f Hf) as (?&?&?), (Hrun f Hf) as (?&_&Hr). split_and!; auto. split_and!; auto. cbn. lia.
    + intros f Hf (Hr&_). destruct (Hrun f Hf) as (_&Hfr&_). revert Hfr. by apply get_ref_not_free.
Qed.

(** Giving a buffer back. *)
Lemma free_buffer_ok n s A L pa :
  pt_inv s A L -> 0 < n -> buffer s A L pa n ->
  let s' := with_pmm s (pmm_free s.(v_pmm) pa n) in
  pt_inv s' A L /\ seen (fun _ _ => False) A s s' /\ avail s'.(v_pmm) = avail s.(v_pmm) + n /\
  moved s.(v_pmm) s'.(v_pmm) (run pa n) /\ forall f, aligned f -> stray s' A L f <-> stray s A L f /\ ~ run pa n f.
Proof.
  intros Hi Hn Hb s'. destruct (free_run s.(v_pmm) n pa (inv_pmm_ok s A L Hi) Hn) as (Hm&Hav&Hf).
  { intros f Hf. destruct (Hb f Hf) as (?&_&_&?). done. }
  split_and!; auto.
  - apply (moved_inv s A L (run pa n)); auto. by apply buffer_aside.
  - apply seen_pmm; apply Hm.
  - intros f Hal. split.
    + intros Hs. assert (Hn' : ~ run pa n f) by (intros Hr; destruct (Hf f Hr) as [_ H0], Hs as (H1&_); cbn in H1; lia).
      split; [|done]. by apply (moved_stray s A L _ _ f Hm).
    + intros [Hs Hn']. by apply (moved_stray s A L _ _ f Hm).
Qed.

(** Another run of pages keeps a buffer. *)
Lemma buffer_moved s A L p1 B pa n : moved s.(v_pmm) p1 B -> (forall f, run pa n f -> ~ B f) -> buffer s A L pa n -> buffer (with_pmm s p1) A L pa n.
Proof.
  intros Hm Hn Hb f Hf. destruct (Hb f Hf) as (Hal&H0&Hs&Hr). split_and!; auto; [by apply (moved_stray s A L p1 B f Hm); auto|].
  cbn. rewrite (mv_ref _ _ _ Hm); auto.
Qed.

(** ** When a run is found *)
(** With fewer used pages than there are blocks of [n] pages, some block is
    free. *)
Lemma popcnt_mono f a b : popcnt f a <= popcnt f (a + b).
Proof. induction b as [|b IH]; [by rewrite Nat.add_0_r|]. rewrite Nat.add_succ_r. cbn [popcnt]. case_match; lia. Qed.

Lemma popcnt_hit f a n q : Z.of_nat a <= q < Z.of_nat (a + n) -> f q = true -> popcnt f a + 1 <= popcnt f (a + n).
Proof.
  intros Hq Hf. set (k := (Z.to_nat q - a)%nat). replace (a + n)%nat with (S (a + k) + (n - k - 1))%nat by lia.
  pose proof (popcnt_mono f (S (a + k)) (n - k - 1)) as H1. cbn [popcnt] in H1 |- *. replace (Z.of_nat (a + k)) with q in * by lia.
  rewrite Hf in H1. pose proof (popcnt_mono f a k). lia.
Qed.

Lemma popcnt_blocks f n k : popcnt f (k * n) < Z.of_nat k ->
  exists st, 0 <= st /\ st + Z.of_nat n <= Z.of_nat (k * n) /\ forall q, st <= q < st + Z.of_nat n -> f q = false.
Proof.
  induction k as [|k IH]; intros Hlt; [cbn in Hlt; lia|].
  destruct (decide (Exists (fun q => f q = true) (seqZ (Z.of_nat (k * n)) (Z.of_nat n)))) as [Hex|Hno].
  - apply Exists_exists in Hex as (q&Hin&Hq). apply elem_of_seqZ in Hin.
    assert (Hs : (S k * n)%nat = (k * n + n)%nat) by lia. rewrite Hs in Hlt.
    pose proof (popcnt_hit f (k * n) n q ltac:(lia) Hq). destruct IH as (st&?&?&?); [lia|]. exists st. split_and!; auto. lia.
  - exists (Z.of_nat (k * n)). split_and!; [lia|lia|]. intros q Hq. apply not_true_is_false. intros Hf. apply Hno, Exists_exists.
    exists q. split; [|done]. apply elem_of_seqZ. lia.
Qed.

Definition sparse (p : pmm) (n : Z) : Prop := p.(g_pages) - avail p < p.(g_pages) / n.

Lemma sparse_alloc p n : pmm_ok p -> ~ free_at p 0 -> 0 < n < 2 ^ 64 -> sparse p n -> (pmm_alloc p n).1 <> 0.
Proof.
  intros [Hwf Hrefs] Hz Hn Hsp. destruct (pmm_alloc p n) as [pa p1] eqn:Ha. cbn. intros ->.
  apply pmm_alloc_spec in Ha as (_&_&_&Hres); [|done|lia]. pose proof (wf_pages p Hwf) as Hpg. unfold sparse, avail in Hsp. rewrite (wf_used p Hwf) in Hsp.
  destruct (popcnt_blocks (bm_test p.(g_bm)) (Z.to_nat n) (Z.to_nat (p.(g_pages) / n))) as (st&H0&Hend&Hfree).
  { assert (0 <= p.(g_pages) / n) by (apply Z.div_pos; lia). pose proof (Z.mul_div_le p.(g_pages) n ltac:(lia)).
    replace (Z.to_nat p.(g_pages)) with (Z.to_nat (p.(g_pages) / n) * Z.to_nat n + (Z.to_nat p.(g_pages) - Z.to_nat (p.(g_pages) / n) * Z.to_nat n))%nat in Hsp by nia.
    pose proof (popcnt_mono (bm_test p.(g_bm)) (Z.to_nat (p.(g_pages) / n) * Z.to_nat n) (Z.to_nat p.(g_pages) - Z.to_nat (p.(g_pages) / n) * Z.to_nat n)). lia. }
  assert (Hend' : st + n <= p.(g_pages)).
  { assert (0 <= p.(g_pages) / n) by (apply Z.div_pos; lia). pose proof (Z.mul_div_le p.(g_pages) n ltac:(lia)). nia. }
  destruct Hres as [(_&_&[[_ [?|Hno]]|(Hb0&Hp&Hfr)])|(_&st'&_&_&_&_&Hne&_)]; [lia| | |done].
  - apply (Hno st); [lia|lia|]. intros q Hq. apply Hfree. lia.
  - destruct Hz. exists 0. split; [|apply (Hfr 0); lia]. rewrite <- (page_of_page p Hwf 0) by lia. f_equal. lia.
Qed.
