(* ===== verification/ExecArgs.v ===== *)
(** * The strings of an exec call

    The strings end up in [storage], one after the other; a pointer leads to
    a string when the string and its 0 lie there ([lies]).  What is copied is
    what the caller's memory holds, and nothing that was copied before is
    disturbed; following a [#!] line is a rewriting of the argument strings. *)
From S2P Require Import Prelude State Pmm Pte VmCow Bytes Vmm PtWalk PtInv Mmap PtOps MmapOk MmapCalls MmapTheorems.
From S2P Require Import Elf Exec PtBytes ExecStack ExecStart ExecRead.

(** ** Storage *)
(** The string [l] lies at [off], with its 0. *)
Definition lies (st : list Z) (off : Z) (l : list Z) : Prop :=
  exists pre rest, st = pre ++ l ++ 0 :: rest /\ zlen pre = off /\ 0 ∉ l.

Lemma cstr_lies l rest : 0 ∉ l -> cstr (l ++ 0 :: rest) = l.
Proof.
  induction l as [|b l IH]; intros Hz; [done|]. apply not_elem_of_cons in Hz as [Hb Hz]. cbn.
  destruct (Z.eqb_spec b 0) as [->|_]; [done|]. by rewrite IH.
Qed.

Lemma lies_app st more off l : lies st off l -> lies (st ++ more) off l.
Proof. intros (pre&rest&->&Hp&Hz). exists pre, (rest ++ more). split_and!; auto. by rewrite <- !app_assoc. Qed.

Lemma lies_end st l : 0 ∉ l -> lies (st ++ l ++ [0]) (zlen st) l.
Proof. intros Hz. by exists st, []. Qed.

Lemma storage_str_lies b off l : lies b.(eb_storage) off l -> storage_str b (b.(eb_base) + off) = l.
Proof.
  intros (pre&rest&Hst&<-&Hz). unfold storage_str. rewrite Hst. replace (b.(eb_base) + zlen pre - b.(eb_base)) with (zlen pre) by lia.
  replace (Z.to_nat (zlen pre)) with (length pre) by (unfold zlen; lia). rewrite drop_app_length. by apply cstr_lies.
Qed.

(** What a list of strings takes. *)
Definition packed (strs : list (list Z)) : list Z := strs ≫= (fun l => l ++ [0]).
Lemma packed_cons l strs : packed (l :: strs) = l ++ [0] ++ packed strs.
Proof. unfold packed. cbn. by rewrite <- app_assoc. Qed.

(** The pointers [ptrs] lead to the strings [strs]. *)
Definition points (b : exec_copy_buf) (ptrs : list Z) (strs : list (list Z)) : Prop :=
  Forall2 (fun p l => b.(eb_base) <= p /\ lies b.(eb_storage) (p - b.(eb_base)) l) ptrs strs.

Lemma points_str b ptrs strs : points b ptrs strs -> storage_str b <$> ptrs = strs.
Proof.
  induction 1 as [|p l ptrs strs [Hlo Hl] _ IH]; [done|]. rewrite fmap_cons, IH. f_equal.
  replace p with (b.(eb_base) + (p - b.(eb_base))) by lia. by apply storage_str_lies.
Qed.

Lemma points_grow b b' ptrs strs more : b'.(eb_base) = b.(eb_base) -> b'.(eb_storage) = b.(eb_storage) ++ more ->
  points b ptrs strs -> points b' ptrs strs.
Proof.
  intros Hb Hs Hp. eapply Forall2_impl; [exact Hp|]. intros p l [Hlo Hl]. rewrite Hb, Hs. split; [done|]. by apply lies_app.
Qed.

Lemma points_zero b ptrs strs : points b ptrs strs -> Forall (fun l => 0 ∉ l) strs.
Proof. intros Hp. eapply Forall2_Forall_r; [exact Hp|]. apply Forall_true. intros p l [_ (?&?&_&_&?)]. done. Qed.

(** Room for the strings from [used] on; every one but the last byte of
    [storage] may be used. *)
Fixpoint fits (used : Z) (strs : list (list Z)) : bool :=
  match strs with
  | [] => true
  | l :: strs => (used + zlen l + 1 <? EXEC_ARG_TOTAL) && fits (used + zlen l + 1) strs
  end.

(** The buffer with more strings, and where they are. *)
Definition pushed_all (b : exec_copy_buf) (strs : list (list Z)) : exec_copy_buf :=
  mkBuf b.(eb_base) b.(eb_path) b.(eb_argv) b.(eb_envp) (b.(eb_storage) ++ packed strs).
Fixpoint starts (a : Z) (strs : list (list Z)) : list Z :=
  match strs with
  | [] => []
  | l :: strs => a :: starts (a + zlen l + 1) strs
  end.

Lemma pushed_all_cons b l strs : pushed_all b (l :: strs) = pushed_all (pushed_all b [l]) strs.
Proof. unfold pushed_all. cbn [eb_base eb_path eb_argv eb_envp eb_storage]. f_equal. rewrite !packed_cons, <- !app_assoc. done. Qed.

Lemma pushed_all_nil b : pushed_all b [] = b.
Proof. unfold pushed_all. cbn. rewrite app_nil_r. by destruct b. Qed.

Lemma used_pushed b l : eb_used (pushed_all b [l]) = eb_used b + zlen l + 1.
Proof. unfold eb_used, pushed_all. cbn [eb_storage]. rewrite packed_cons, !zlen_app. unfold zlen. cbn. lia. Qed.

Lemma starts_point b strs : Forall (fun l => 0 ∉ l) strs -> points (pushed_all b strs) (starts (b.(eb_base) + eb_used b) strs) strs.
Proof.
  intros Hz. revert b. induction Hz as [|l strs Hl Hz IH]; intros b; [constructor|]. cbn [starts]. constructor.
  - unfold pushed_all. cbn [eb_base eb_storage]. pose proof (zlen_nonneg b.(eb_storage)). unfold eb_used. split; [lia|].
    replace (b.(eb_base) + zlen b.(eb_storage) - b.(eb_base)) with (zlen b.(eb_storage)) by lia.
    rewrite packed_cons. exists b.(eb_storage), (packed strs). by split_and!.
  - rewrite pushed_all_cons. specialize (IH (pushed_all b [l])). rewrite used_pushed in IH.
    by replace (b.(eb_base) + eb_used b + zlen l + 1) with ((pushed_all b [l]).(eb_base) + (eb_used b + zlen l + 1)) by (cbn; lia).
Qed.

(** ** Reading the caller's memory *)
(** The pointers of a vector in the memory [U], and the strings they lead
    to. *)
Definition reads_vector (U : Z -> option Z) (fuel : nat) (vec : Z) (ptrs : list Z) (strs : list (list Z)) : Prop :=
  read_vector U fuel vec = Some ptrs /\ Forall2 (fun p l => read_str U fuel p = Some l) ptrs strs /\ Forall (fun src => 0x1000 <= src) ptrs.

(** An argument of the call: a null pointer is an empty vector. *)
Definition reads_arg (U : Z -> option Z) (fuel : nat) (vec : Z) (strs : list (list Z)) : Prop :=
  vec = 0 /\ strs = [] \/ 0x1000 <= vec /\ exists ptrs, reads_vector U fuel vec ptrs strs.

Lemma read_str_zero (U : Z -> option Z) fuel va l : read_str U fuel va = Some l -> 0 ∉ l.
Proof.
  revert va l. induction fuel as [|fuel IH]; intros va l Hr; [done|]. cbn [read_str] in Hr. destruct (U va) as [b|]; cbn [mbind option_bind] in Hr; [|done].
  destruct (b =? 0) eqn:Hb; [cbn iota in Hr; simplify_eq; apply not_elem_of_nil|]. apply Z.eqb_neq in Hb.
  destruct (read_str U fuel (va + 1)) as [l'|] eqn:Hr'; cbn [mbind option_bind] in Hr; [|done]. injection Hr as <-. apply not_elem_of_cons. split; [done|]. by apply (IH (va + 1)).
Qed.

(** Memory that shows more reads the same. *)
Section more.
Variables (U V : Z -> option Z).
Hypothesis HUV : forall a b, U a = Some b -> V a = Some b.

Lemma more_bytes n : forall a l, read_bytes U n a = Some l -> read_bytes V n a = Some l.
Proof using HUV.
  induction n as [|n IH]; intros a l; cbn [read_bytes]; [done|]. destruct (U a) as [b|] eqn:Hb; [|done]. rewrite (HUV _ _ Hb).
  cbn [mbind option_bind]. destruct (read_bytes U n (a + 1)) as [l'|] eqn:Hl; [|done]. by rewrite (IH _ _ Hl).
Qed.

Lemma more_word a w : read_word U a = Some w -> read_word V a = Some w.
Proof using HUV. unfold read_word. destruct (read_bytes U 8 a) as [l|] eqn:Hl; [|done]. by rewrite (more_bytes _ _ _ Hl). Qed.

Lemma more_str fuel : forall a l, read_str U fuel a = Some l -> read_str V fuel a = Some l.
Proof using HUV.
  induction fuel as [|fuel IH]; intros a l; cbn [read_str]; [done|]. destruct (U a) as [b|] eqn:Hb; [|done]. rewrite (HUV _ _ Hb).
  cbn [mbind option_bind]. destruct (b =? 0); [done|]. destruct (read_str U fuel (a + 1)) as [l'|] eqn:Hl; [|done]. by rewrite (IH _ _ Hl).
Qed.

Lemma more_vector fuel : forall a l, read_vector U fuel a = Some l -> read_vector V fuel a = Some l.
Proof using HUV.
  induction fuel as [|fuel IH]; intros a l; cbn [read_vector]; [done|]. destruct (read_word U a) as [w|] eqn:Hw; [|done]. rewrite (more_word _ _ Hw).
  cbn [mbind option_bind]. destruct (w =? 0); [done|]. destruct (read_vector U fuel (a + 8)) as [l'|] eqn:Hl; [|done]. by rewrite (IH _ _ Hl).
Qed.

Lemma more_arg fuel vec strs : reads_arg U fuel vec strs -> reads_arg V fuel vec strs.
Proof using HUV.
  intros [?|(Hlo&ptrs&Hv&Hs&Hp)]; [by left|right]. split; [done|]. exists ptrs. split_and!; auto; [by apply more_vector|].
  eapply Forall2_impl; [exact Hs|]. intros p l. apply more_str.
Qed.
End more.

Section user.
Context `{ExecEnv}.
Variable x : xst.
Abbreviation U := (kernel_read x.(x_vm) x.(x_task).(xt_mm).(mm_as)).

Lemma user_char_ok va b (Q : Z -> xst -> Prop) : U va = Some b -> Q b x -> wp nopanic (user_char va) Q x.
Proof using. intros Hu HQ. unfold wp, user_char. by rewrite Hu. Qed.

Lemma user_chars_ok n : forall va l (Q : list Z -> xst -> Prop),
  read_bytes U n va = Some l -> Q l x -> wp nopanic (user_chars n va) Q x.
Proof using.
  induction n as [|n IH]; intros va l Q Hr HQ; cbn [read_bytes user_chars mbind option_bind] in *; [injection Hr as <-; by wp_steps|].
  destruct (U va) as [b|] eqn:Hu; cbn [mbind option_bind] in Hr; [|done].
  destruct (read_bytes U n (va + 1)) as [l'|] eqn:Hr'; cbn [mbind option_bind] in Hr; [|done]. injection Hr as <-.
  wp_steps. apply (user_char_ok va b); [done|]. wp_steps. apply (IH (va + 1) l'); [done|]. by wp_steps.
Qed.

Lemma user_ptr_ok va w (Q : Z -> xst -> Prop) : read_word U va = Some w -> Q w x -> wp nopanic (user_ptr va) Q x.
Proof using.
  unfold read_word, user_ptr. intros Hr HQ. destruct (read_bytes U 8 va) as [l|] eqn:Hl; [|done]. injection Hr as <-.
  wp_steps. apply (user_chars_ok 8 va l); [done|]. by wp_steps.
Qed.

Lemma user_str_ok n : forall fuel va l, read_str U fuel va = Some l ->
  wp nopanic (user_str n va) (fun r x' => x' = x /\ r = if (length l <? n)%nat then Some l else None) x.
Proof using.
  induction n as [|n IH]; intros fuel va l Hr; cbn [user_str]; [by wp_steps|].
  destruct fuel as [|fuel]; [done|]. cbn [read_str] in Hr. destruct (U va) as [b|] eqn:Hu; cbn [mbind option_bind] in Hr; [|done].
  wp_steps. apply (user_char_ok va b); [done|]. destruct (b =? 0); cbn iota in Hr; [simplify_eq; by wp_steps|].
  destruct (read_str U fuel (va + 1)) as [l'|] eqn:Hr'; cbn [mbind option_bind] in Hr; [|done]. injection Hr as <-. wp_steps.
  eapply wp_mono; [by apply (IH fuel (va + 1) l')|]. intros r x' [-> ->]. wp_steps. split; [done|].
  change (length (b :: l') <? S n)%nat with (length l' <? n)%nat. by destruct (length l' <? n)%nat.
Qed.

Lemma arg_push_user_ok fuel b src l : 0x1000 <= src -> read_str U fuel src = Some l ->
  wp nopanic (arg_push_user b src) (fun r x' => x' = x /\
    r = if eb_used b + zlen l + 1 <? EXEC_ARG_TOTAL then inr (b.(eb_base) + eb_used b, pushed_all b [l]) else inl (- E2BIG)) x.
Proof using.
  intros Hsrc Hl. unfold arg_push_user. destruct (Z.ltb_spec src 0x1000); [lia|]. pose proof (zlen_nonneg l).
  destruct (Z.leb_spec (EXEC_ARG_TOTAL - eb_used b) 1).
  { wp_steps. split; [done|]. destruct (Z.ltb_spec (eb_used b + zlen l + 1) EXEC_ARG_TOTAL); [lia|done]. }
  wp_steps. eapply wp_mono; [by apply (user_str_ok _ fuel src l)|]. intros r x' [-> ->]. wp_steps. split; [done|].
  destruct (Nat.ltb_spec (length l) (Z.to_nat (EXEC_ARG_TOTAL - eb_used b - 1))), (Z.ltb_spec (eb_used b + zlen l + 1) EXEC_ARG_TOTAL);
    try (unfold zlen in *; lia); [|done]. unfold pushed_all. by rewrite packed_cons.
Qed.

Lemma copy_strings_ok f2 n : forall f1 b vec ptrs strs,
  read_vector U f1 vec = Some ptrs -> Forall2 (fun p l => read_str U f2 p = Some l) ptrs strs -> Forall (fun src => 0x1000 <= src) ptrs ->
  wp nopanic (copy_strings n b vec) (fun r x' => x' = x /\
    r = if (length strs <=? n)%nat && fits (eb_used b) strs then inr (starts (b.(eb_base) + eb_used b) strs, pushed_all b strs)
        else inl (- E2BIG)) x.
Proof using.
  induction n as [|n IH]; intros [|f1] b vec ptrs strs Hv Hs Hlo; try done;
    cbn [read_vector] in Hv; destruct (read_word U vec) as [w|] eqn:Hw; cbn [mbind option_bind] in Hv; try done;
    cbn [copy_strings]; wp_steps; (apply (user_ptr_ok vec w); [done|]); destruct (w =? 0) eqn:Hw0; cbn iota in Hv.
  1, 3: simplify_eq; apply Forall2_nil_inv_l in Hs as ->; wp_steps; rewrite pushed_all_nil; done.
  all: destruct (read_vector U f1 (vec + 8)) as [ptrs'|] eqn:Hv'; cbn [mbind option_bind] in Hv; simplify_eq.
  all: apply Forall2_cons_inv_l in Hs as (l&strs'&Hl&Hs&->).
  - wp_steps. done.
  - apply Forall_cons in Hlo as [Hw1 Hlo]. unfold ebind. wp_steps.
    eapply wp_mono; [by apply (arg_push_user_ok f2 b w l)|]. intros r x' [-> ->]. cbn [fits length].
    destruct (eb_used b + zlen l + 1 <? EXEC_ARG_TOTAL); cbn [andb]; [|wp_steps; by rewrite andb_false_r]. wp_steps. cbn [fst snd].
    eapply wp_mono; [by apply (IH f1 (pushed_all b [l]) (vec + 8) ptrs' strs')|]. intros r x' [-> ->]. rewrite used_pushed.
    change (S (length strs') <=? S n)%nat with (length strs' <=? n)%nat.
    destruct ((length strs' <=? n)%nat && fits (eb_used b + zlen l + 1) strs'); wp_steps; [|done]. split; [done|]. cbn [fst snd starts].
    rewrite (pushed_all_cons b l strs'). do 3 f_equal. cbn. f_equal. lia.
Qed.

Lemma copy_vector_arg_ok fuel b vec strs : reads_arg U fuel vec strs ->
  wp nopanic (copy_user_string_vector b vec) (fun r x' => x' = x /\
    r = if (length strs <=? Z.to_nat EXEC_MAX_VEC_STRINGS)%nat && fits (eb_used b) strs
        then inr (starts (b.(eb_base) + eb_used b) strs, pushed_all b strs) else inl (- E2BIG)) x.
Proof using.
  unfold copy_user_string_vector. intros [[-> ->]|(Hlo&ptrs&Hv&Hs&Hp)].
  - wp_steps. rewrite pushed_all_nil. done.
  - destruct (Z.eqb_spec vec 0); [lia|]. destruct (Z.ltb_spec vec 0x1000); [lia|]. by apply (copy_strings_ok fuel _ fuel b vec ptrs).
Qed.

Lemma copy_path_ok fuel path p : 0x1000 <= path -> read_str U fuel path = Some p ->
  wp nopanic (copy_user_cstring path EXEC_MAX_PATH_LEN) (fun r x' => x' = x /\
    r = if (length p <? Z.to_nat (EXEC_MAX_PATH_LEN - 1))%nat then inr p else inl (-1)) x.
Proof using.
  intros Hlo Hp. unfold copy_user_cstring. destruct (Z.ltb_spec path 0x1000); [lia|]. wp_steps.
  eapply wp_mono; [by apply (user_str_ok _ fuel path p)|]. intros r x' [-> ->]. wp_steps. split; [done|]. by destruct (_ <? _)%nat.
Qed.

(** What the buffer holds when everything fits. *)
Definition call_fits (args env : list (list Z)) : bool :=
  ((length args <=? Z.to_nat EXEC_MAX_VEC_STRINGS)%nat && fits 0 args) &&
  ((length env <=? Z.to_nat EXEC_MAX_VEC_STRINGS)%nat && fits (zlen (packed args)) env).
Definition call_buf (base : Z) (p : list Z) (args env : list (list Z)) : exec_copy_buf :=
  mkBuf base p (starts base args) (starts (base + zlen (packed args)) env) (packed args ++ packed env).

Lemma exec_strings_ok fuel pa path argv envp p args env :
  0x1000 <= path -> read_str U fuel path = Some p -> reads_arg U fuel argv args -> reads_arg U fuel envp env ->
  wp nopanic (exec_strings pa path argv envp) (fun r x' => x' = x /\
    r = if negb (length p <? Z.to_nat (EXEC_MAX_PATH_LEN - 1))%nat then inl (-1)
        else if call_fits args env then inr (call_buf (g_hhdm_offset + pa + 50204) p args env) else inl (- E2BIG)) x.
Proof using.
  intros Hlo Hp Ha He. unfold exec_strings, ebind. wp_steps. eapply wp_mono; [by apply (copy_path_ok fuel path p)|].
  intros r x1 [-> ->]. destruct (length p <? _)%nat; cbn [negb]; wp_steps; [|done].
  eapply wp_mono; [by apply (copy_vector_arg_ok fuel _ argv args)|]. intros r x1 [-> ->]. unfold call_fits.
  change (eb_used (mkBuf (g_hhdm_offset + pa + 50204) [] [] [] [])) with 0. cbn [eb_base].
  destruct ((length args <=? _)%nat && fits 0 args); cbn [andb]; wp_steps; [|done]. cbn [fst snd].
  eapply wp_mono; [by apply (copy_vector_arg_ok fuel _ envp env)|]. intros r x1 [-> ->].
  change (eb_used (pushed_all (mkBuf (g_hhdm_offset + pa + 50204) [] [] [] []) args)) with (zlen (packed args)).
  destruct ((length env <=? _)%nat && fits (zlen (packed args)) env); wp_steps; [|done]. split; [done|].
  unfold call_buf. cbn. by rewrite Z.add_0_r.
Qed.
End user.

Lemma arg_zero U fuel vec strs : reads_arg U fuel vec strs -> Forall (fun l => 0 ∉ l) strs.
Proof.
  intros [[_ ->]|(_&ptrs&_&Hs&_)]; [constructor|]. eapply Forall2_Forall_r; [exact Hs|]. apply Forall_true. intros p l. apply read_str_zero.
Qed.

Lemma call_buf_points base p args env : Forall (fun l => 0 ∉ l) args -> Forall (fun l => 0 ∉ l) env ->
  let b := call_buf base p args env in points b b.(eb_argv) args /\ points b b.(eb_envp) env.
Proof.
  intros Ha He b. split.
  - pose proof (starts_point (mkBuf base p [] [] []) args Ha) as Hp. cbn [eb_base] in Hp. change (eb_used (mkBuf base p [] [] [])) with 0 in Hp.
    rewrite Z.add_0_r in Hp. by eapply (points_grow (pushed_all (mkBuf base p [] [] []) args) b).
  - pose proof (starts_point (mkBuf base p [] [] (packed args)) env He) as Hp. cbn [eb_base] in Hp.
    eapply (points_grow _ b _ _ []); [..|exact Hp]; [done|]. cbn. by rewrite app_nil_r.
Qed.

(** ** [#!] lines on strings *)
Section script.
Context `{ExecEnv}.

(** The strings put before the arguments of a script. *)
Definition script_strs (path interp sharg : list Z) : list (list Z) :=
  cstr interp :: (if bool_decide (sharg = []) then [] else [cstr sharg]) ++ [path].

(** The program in the end, with the arguments it gets; [used] bytes of
    strings there are already. *)
Fixpoint script_run (more : nat) (path : list Z) (args : list (list Z)) (used : Z) : Z + (list Z * list (list Z) * list Z) :=
  match fs_get_file_data path with
  | None => inl (-1)
  | Some d =>
      if negb (is_script d) then inr (path, args, d) else
      match more with
      | O => inl (- ELOOP)
      | S more =>
          let '(interp, sharg) := shebang_line d in
          if bool_decide (interp = []) then inl (-1) else
          let strs := script_strs path interp sharg in
          if EXEC_MAX_VEC_STRINGS <? Z.max (zlen args) 1 + zlen strs - 1 then inl (- E2BIG) else
          if EXEC_ARG_TOTAL <? used + zlen (packed strs) then inl (- E2BIG) else
          script_run more (take (Z.to_nat (EXEC_MAX_PATH_LEN - 1)) (cstr interp)) (strs ++ drop 1 args) (used + zlen (packed strs))
      end
  end.

Lemma cstr_zero l : 0 ∉ cstr l.
Proof using.
  induction l as [|b l IH]; cbn; [apply not_elem_of_nil|]. destruct (Z.eqb_spec b 0); [apply not_elem_of_nil|]. apply not_elem_of_cons. auto.
Qed.

Lemma elem_of_take_mem (n : nat) (l : list Z) b : b ∈ take n l -> b ∈ l.
Proof using. intros Hin. rewrite <- (take_drop n l). apply elem_of_app. by left. Qed.

Lemma arg_push_spec b src : arg_push b src =
  if EXEC_ARG_TOTAL <? eb_used b + zlen src + 1 then None else Some (b.(eb_base) + eb_used b, pushed_all b [src]).
Proof using. unfold arg_push, pushed_all. rewrite Z.add_assoc. case_match; [done|]. by rewrite packed_cons. Qed.

Lemma zlen_packed_cons l strs : zlen (packed (l :: strs)) = zlen l + 1 + zlen (packed strs).
Proof using. rewrite packed_cons, !zlen_app. unfold zlen at 2. cbn. lia. Qed.

(** Pushing strings one by one. *)
Fixpoint push_strs (b : exec_copy_buf) (strs : list (list Z)) : option (list Z * exec_copy_buf) :=
  match strs with
  | [] => Some ([], b)
  | l :: strs => '(p, b) ← arg_push b l; '(ps, b) ← push_strs b strs; Some (p :: ps, b)
  end.

Lemma push_strs_spec strs : forall b, push_strs b strs =
  if (EXEC_ARG_TOTAL <? eb_used b + zlen (packed strs)) && negb (bool_decide (strs = [])) then None
  else Some (starts (b.(eb_base) + eb_used b) strs, pushed_all b strs).
Proof using.
  induction strs as [|l strs IH]; intros b; [by rewrite pushed_all_nil, andb_false_r|]. cbn [push_strs]. rewrite arg_push_spec, zlen_packed_cons, andb_true_r.
  pose proof (zlen_nonneg (packed strs)).
  destruct (Z.ltb_spec EXEC_ARG_TOTAL (eb_used b + zlen l + 1)); cbn [mbind option_bind].
  { destruct (Z.ltb_spec EXEC_ARG_TOTAL (eb_used b + (zlen l + 1 + zlen (packed strs)))); [done|lia]. }
  rewrite IH, used_pushed. replace (eb_used b + zlen l + 1 + zlen (packed strs)) with (eb_used b + (zlen l + 1 + zlen (packed strs))) by lia.
  destruct strs as [|l2 strs].
  - rewrite andb_false_r. cbn [mbind option_bind starts]. rewrite pushed_all_nil. change (zlen (packed [])) with 0.
    destruct (Z.ltb_spec EXEC_ARG_TOTAL (eb_used b + (zlen l + 1 + 0))); [lia|done].
  - rewrite andb_true_r. destruct (_ <? _); [done|]. cbn [mbind option_bind]. rewrite (pushed_all_cons b l (l2 :: strs)).
    change (eb_base (pushed_all b [l])) with b.(eb_base). by replace (b.(eb_base) + (eb_used b + zlen l + 1)) with (b.(eb_base) + eb_used b + zlen l + 1) by lia.
Qed.

(** One rewriting: the pointers lead to the strings it is about. *)
Lemma shebang_argv_ok b args interp sharg :
  points b b.(eb_argv) args -> 0 ∉ b.(eb_path) ->
  let strs := script_strs b.(eb_path) interp sharg in
  if (EXEC_MAX_VEC_STRINGS <? Z.max (zlen args) 1 + zlen strs - 1) || (EXEC_ARG_TOTAL <? eb_used b + zlen (packed strs))
  then shebang_argv b interp sharg = inl (- E2BIG)
  else exists b', shebang_argv b interp sharg = inr b' /\ b'.(eb_path) = take (Z.to_nat (EXEC_MAX_PATH_LEN - 1)) (cstr interp) /\
    points b' b'.(eb_argv) (strs ++ drop 1 args) /\ b'.(eb_envp) = b.(eb_envp) /\ b'.(eb_base) = b.(eb_base) /\
    b'.(eb_storage) = b.(eb_storage) ++ packed strs.
Proof using.
  intros Hp Hz strs. assert (Hargc : zlen b.(eb_argv) = zlen args) by (unfold zlen; by rewrite (Forall2_length _ _ _ Hp)).
  assert (Hlen : zlen strs = 1 + (if bool_decide (sharg = []) then 1 else 2)) by (unfold strs, script_strs; by case_bool_decide).
  assert (Hne : bool_decide (strs = []) = false) by done.
  assert (Hpush : shebang_argv b interp sharg =
    if EXEC_MAX_VEC_STRINGS <? Z.max (zlen args) 1 + zlen strs - 1 then inl (- E2BIG) else
    match push_strs b strs with
    | None => inl (- E2BIG)
    | Some (ps, b') => inr (mkBuf b.(eb_base) (take (Z.to_nat (EXEC_MAX_PATH_LEN - 1)) (cstr interp)) (ps ++ drop 1 b.(eb_argv)) b.(eb_envp) b'.(eb_storage))
    end).
  { unfold shebang_argv. rewrite Hargc, Hlen. replace (Z.max (zlen args) 1 + (1 + (if bool_decide (sharg = []) then 1 else 2)) - 1)
      with (Z.max (zlen args) 1 + (if bool_decide (sharg = []) then 1 else 2)) by lia.
    destruct (_ <? _); [done|]. unfold strs, script_strs. destruct (bool_decide (sharg = [])); cbn [app push_strs].
    all: destruct (arg_push b (cstr interp)) as [[p1 b1]|]; [|done]; cbn [mbind option_bind].
    - by destruct (arg_push b1 b.(eb_path)) as [[p3 b3]|].
    - destruct (arg_push b1 (cstr sharg)) as [[p2 b2]|]; [|done]. cbn [mbind option_bind]. by destruct (arg_push b2 b.(eb_path)) as [[p3 b3]|]. }
  assert (Hzs : Forall (fun l => 0 ∉ l) strs).
  { unfold strs, script_strs. constructor; [apply cstr_zero|]. apply Forall_app. split; [|by constructor]. destruct (bool_decide (sharg = [])); repeat constructor. apply cstr_zero. }
  rewrite Hpush, push_strs_spec, Hne, andb_true_r. clear Hpush. clearbody strs.
  destruct (_ <? _); [done|]. cbn [orb]. destruct (_ <? _); [done|]. eexists. split; [done|]. cbn [eb_path eb_argv eb_envp eb_base eb_storage pushed_all]. split_and!; auto.
  apply Forall2_app; [|apply Forall2_drop; by eapply (points_grow b)].
  pose proof (starts_point b strs Hzs) as Hst. by eapply (points_grow _ _ _ _ []); [..|exact Hst]; [|cbn; rewrite app_nil_r].
Qed.

Lemma resolve_script_ok more : forall b args, points b b.(eb_argv) args -> 0 ∉ b.(eb_path) ->
  match script_run more b.(eb_path) args (eb_used b) with
  | inl e => resolve_script more b = inl e
  | inr (path', args', d) => exists b', resolve_script more b = inr (b', d) /\ b'.(eb_path) = path' /\ points b' b'.(eb_argv) args' /\
      b'.(eb_envp) = b.(eb_envp) /\ b'.(eb_base) = b.(eb_base) /\ exists st, b'.(eb_storage) = b.(eb_storage) ++ st
  end.
Proof using.
  induction more as [|more IH]; intros b args Hp Hz; cbn [script_run resolve_script];
    (destruct (fs_get_file_data b.(eb_path)) as [d|]; [|done]); destruct (is_script d); cbn [negb]; try done.
  1, 3: exists b; split_and!; auto; exists []; by rewrite app_nil_r.
  destruct (shebang_line d) as [interp sharg]. destruct (bool_decide (interp = [])); [done|].
  pose proof (shebang_argv_ok b args interp sharg Hp Hz) as Hsh. cbv zeta in Hsh.
  destruct (_ <? _); cbn [orb] in Hsh; [by rewrite Hsh|]. destruct (_ <? _); [by rewrite Hsh|].
  destruct Hsh as (b1&->&Hpath&Hp1&He1&Hb1&Hs1).
  assert (Hu : eb_used b1 = eb_used b + zlen (packed (script_strs b.(eb_path) interp sharg))) by (unfold eb_used; by rewrite Hs1, zlen_app).
  assert (Hz1 : 0 ∉ b1.(eb_path)).
  { rewrite Hpath. intros Hin. apply (cstr_zero interp). by eapply elem_of_take_mem. }
  rewrite <- Hu, <- Hpath. specialize (IH b1 _ Hp1 Hz1).
  destruct (script_run more b1.(eb_path) _ _) as [e|[[path' args'] d']]; [exact IH|].
  destruct IH as (b'&->&Hpa&Hpp&He&Hb&st&Hst). exists b'. split_and!; auto; [congruence..|].
  exists (packed (script_strs b.(eb_path) interp sharg) ++ st). by rewrite Hst, Hs1, <- app_assoc.
Qed.
End script.
