(* ===== verification/ExecWork.v ===== *)
(** * The kernel's memory during an exec

    Between its first allocation and its last [pmm_free], exec holds buffers
    and builds a space that no process uses yet.  [working] says what is true
    all the while: the processes see what they saw, and the pages in use that
    belong to none are the kernel's own and the buffers. *)
From S2P Require Import Prelude State Pmm Pte VmCow Bytes Vmm PtWalk PtInv PtGrow PtMap Mmap PtOps PtSpace PtCopy PtMask PtClone.
From S2P Require Import PtFree PtDestroy PtFault MmapOk MmapCalls MmapTheorems MremapOk VmSpec VmSystem VmRefine PtBytes PmmRuns Elf Exec.
From S2P Require Import ExecStack ExecStart.

Lemma seen_settled D A s s' as_ va p : seen D A s s' -> as_ ∈ A -> user va -> ~ D as_ (key 4 va) ->
  settled s as_ va p -> settled s' as_ va p.
Proof.
  intros Hs Ha Hu HD [Hp Hpl]. pose proof (sn_view _ _ _ _ Hs as_ va Ha Hu HD) as Hv. split.
  - etransitivity; [|exact Hp]. unfold page_at. rewrite Hv. destruct (view s.(v_mem) as_ va) as [e|] eqn:E; [|done].
    split_and!; auto. intros o Ho. cbn. apply (sn_data _ _ _ _ Hs as_ va e); auto. unfold in_frame. lia.
  - intros e He. rewrite Hv in He. destruct (Hpl e He) as [? Hm]. split; [done|]. unfold managed in *.
    by rewrite (page_of_range s.(v_pmm)) by apply Hs.
Qed.

Lemma space_nonzero kernel_pml4 K s T L as_ : sys_inv kernel_pml4 K s T L -> as_ ∈ spaces T -> as_ <> 0 /\ as_ <> kernel_pml4.
Proof.
  intros Hs Ha. pose proof (si_inv _ _ _ _ _ Hs) as Hi. assert (Ht : is_table s.(v_mem) (spaces T) as_).
  { exists as_, 0, 0%nat. split_and!; [done|by apply user_low|lia|done]. }
  split; intros ->.
  - destruct (pi_tab _ _ _ Hi 0 Ht) as [_ Hr]. pose proof (ci_zero _ _ (pi_cow _ _ _ Hi)) as [_ ?]. lia.
  - destruct (si_kernel _ _ _ _ _ Hs) as [Hk Hal]. by apply (si_stray _ _ _ _ _ Hs _ Hal) in Hk as (_&?&_).
Qed.

Section working.
Variables (K : list Z) (s0 : vmst) (A : list Z).

(** The spaces are now [A'], the buffers [B], and at most [k] pages were
    taken. *)
Record working (A' L : list Z) (s : vmst) (B : Z -> Prop) (k : Z) : Prop := {
  wk_inv : pt_inv s A' L;
  wk_old : forall a, a ∈ A -> a ∈ A';
  wk_seen : seen (fun _ _ => False) A s0 s;
  wk_stray : forall f, aligned f -> stray s A' L f <-> f ∈ K \/ B f;
  wk_buffer : forall f, B f -> aligned f /\ f <> 0 /\ (f ∉ K) /\ pmm_get_ref s.(v_pmm) f = 1;
  wk_avail : avail s0.(v_pmm) - k <= avail s.(v_pmm);
}.

Lemma working_holds A' L s B k pa n : working A' L s B k -> (forall f, run pa n f -> B f) -> buffer s A' L pa n.
Proof using.
  intros Hw HB f Hf. destruct (wk_buffer _ _ _ _ _ Hw f (HB f Hf)) as (?&?&_&?). split_and!; auto.
  apply (wk_stray _ _ _ _ _ Hw); auto.
Qed.

(** An operation on the page tables, but for the old spaces. *)
Lemma working_effect A' L s B k D k' L' s' :
  working A' L s B k -> pt_inv s' A' L' -> effect D k' A' L s L' s' -> (forall a v, a ∈ A -> ~ D a v) -> working A' L' s' B (k + k').
Proof using.
  intros Hw Hi He HD. constructor; auto; try apply Hw.
  - eapply seen_trans; [apply Hw|]. eapply seen_sub; [by eapply effect_seen|apply Hw|]. intros a v Ha HDa. by apply (HD a v).
  - intros f Hf. rewrite (ef_stray _ _ _ _ _ _ _ He f Hf). by apply Hw.
  - intros f Hf. destruct (wk_buffer _ _ _ _ _ Hw f Hf) as (?&?&?&?). split_and!; auto.
    rewrite (ef_keep _ _ _ _ _ _ _ He); auto. apply Hw; auto.
  - pose proof (ef_avail _ _ _ _ _ _ _ He). pose proof (wk_avail _ _ _ _ _ Hw). lia.
Qed.

(** More buffers. *)
Lemma working_alloc A' L s B k n pa s' :
  working A' L s B k -> alloc_pages_post A' L n s pa s' -> pa <> 0 -> 0 <= n ->
  working A' L s' (fun f => B f \/ run pa n f) (k + n) /\ seen (fun _ _ => False) A' s s' /\ forall f, run pa n f -> ~ B f.
Proof using.
  intros Hw (Hi&Hm&Hs&Hrest) Hpa Hn. rewrite decide_False in Hrest by done. destruct Hrest as (Hb&Hmv&Hns&Hav).
  assert (Hap : forall f, run pa n f -> aligned f /\ (f ∉ K) /\ ~ B f).
  { intros f Hf. destruct (Hb f Hf) as (Hal&_). specialize (Hns f Hf). rewrite (wk_stray _ _ _ _ _ Hw f Hal) in Hns. tauto. }
  assert (Hdec : forall f, aligned f -> f ∈ K \/ B f -> ~ run pa n f) by (intros f Hal HK Hf; destruct (Hap f Hf) as (_&?&?); tauto).
  assert (Hst : forall f, aligned f -> ~ run pa n f -> stray s' A' L f <-> stray s A' L f).
  { intros f Hal Hn'. unfold stray. rewrite Hm, (mv_ref _ _ _ Hmv); auto. }
  split_and!; [constructor; auto| |intros f Hf; by apply Hap]; try apply Hw.
  - eapply seen_trans; [apply Hw|]. eapply seen_sub; [exact Hs|apply Hw|done].
  - intros f Hal. split.
    + intros Hf. destruct (decide (run pa n f)) as [|Hnr]; [tauto|].
      rewrite Hst in Hf by done. apply (wk_stray _ _ _ _ _ Hw) in Hf; tauto.
    + intros [HK|[HB|Hr]]; [..|by apply Hb].
      all: apply Hst; [done|apply Hdec; auto|apply (wk_stray _ _ _ _ _ Hw); auto].
  - intros f [HB|Hr].
    + destruct (wk_buffer _ _ _ _ _ Hw f HB) as (?&?&?&?). split_and!; auto. rewrite (mv_ref _ _ _ Hmv); auto.
    + destruct (Hb f Hr) as (?&?&_&?), (Hap f Hr) as (_&?&_). done.
  - pose proof (wk_avail _ _ _ _ _ Hw). lia.
  - done.
Qed.

Lemma wp_alloc_pages E A' L s B k n (Q : Z -> vmst -> Prop) :
  working A' L s B k -> 0 < n < 2 ^ 64 -> sparse s.(v_pmm) n ->
  (forall pa s', pa <> 0 -> working A' L s' (fun f => B f \/ run pa n f) (k + n) -> seen (fun _ _ => False) A' s s' ->
     s'.(v_mem) = s.(v_mem) -> (forall f, run pa n f -> ~ B f) -> Q pa s') ->
  wp E (alloc_pages n) Q s.
Proof using.
  intros Hw Hn Hsp HQ. pose proof (wk_inv _ _ _ _ _ Hw) as Hi. pose proof (proj1 (ci_zero _ _ (pi_cow _ _ _ Hi))) as Hz0.
  pose proof (sparse_alloc _ n (inv_pmm_ok _ _ _ Hi) Hz0 Hn Hsp) as Hpa.
  unfold wp, alloc_pages. destruct (pmm_alloc s.(v_pmm) n) as [pa p1] eqn:Ea. cbn in Hpa.
  pose proof (alloc_pages_ok n s A' L pa p1 Hi Hn Ea) as Hpost.
  destruct (working_alloc _ _ _ _ _ _ _ _ Hw Hpost Hpa ltac:(lia)) as (Hw1&Hsn1&Hap). by apply HQ.
Qed.

(** A buffer goes back. *)
Lemma working_free A' L s (B : Z -> Prop) k pa n :
  working A' L s (fun f => B f \/ run pa n f) k -> 0 < n -> (forall f, run pa n f -> ~ B f) ->
  let s' := with_pmm s (pmm_free s.(v_pmm) pa n) in
  working A' L s' B k /\ seen (fun _ _ => False) A' s s'.
Proof using.
  intros Hw Hn Hap s'. pose proof (wk_inv _ _ _ _ _ Hw) as Hi.
  assert (Hb : buffer s A' L pa n) by (apply (working_holds _ _ _ _ _ _ _ Hw); tauto).
  destruct (free_buffer_ok n s A' L pa Hi Hn Hb) as (Hi'&Hs&Hav&Hmv&Hst). fold s' in Hi', Hs, Hav, Hmv, Hst.
  split; [constructor; auto|done]; try apply Hw.
  - eapply seen_trans; [apply Hw|]. eapply seen_sub; [exact Hs|apply Hw|done].
  - intros f Hal. rewrite Hst, (wk_stray _ _ _ _ _ Hw) by done. split; [tauto|]. intros Hf. split; [tauto|]. intros Hr.
    destruct Hf as [HK|HB]; [|by apply (Hap f)]. destruct (wk_buffer _ _ _ _ _ Hw f) as (_&_&?&_); auto.
  - intros f HB. destruct (wk_buffer _ _ _ _ _ Hw f) as (Hal&?&?&?); [auto|]. split_and!; auto.
    rewrite (mv_ref _ _ _ Hmv); auto. intros Hr. by apply (Hap f).
  - pose proof (wk_avail _ _ _ _ _ Hw). lia.
Qed.

(** The buffers are written. *)
Lemma working_fill A' L s B k m' :
  working A' L s B k -> (forall a, ~ B (page_down a) -> m' a = s.(v_mem) a) ->
  working A' L (with_mem s m') B k /\ seen (fun _ _ => False) A' s (with_mem s m').
Proof using.
  intros Hw Hm. pose proof (wk_inv _ _ _ _ _ Hw) as Hi.
  assert (Ha : aside s A' L B).
  { intros f Hf. destruct (wk_buffer _ _ _ _ _ Hw f Hf) as (?&?&?&?). destruct (proj2 (wk_stray _ _ _ _ _ Hw f ltac:(done)) (or_intror Hf)) as (?&?&?).
    split_and!; auto. apply ref_managed. lia. }
  pose proof (seen_fill (fun _ _ => False) A' L s B m' Hi Ha Hm) as Hs. split; [constructor; auto|done]; try apply Hw.
  - by apply (aside_fill s A' L B).
  - eapply seen_trans; [apply Hw|]. eapply seen_sub; [exact Hs|apply Hw|done].
  - intros f Hal. rewrite (aside_stray s A' L B) by auto. by apply Hw.
Qed.

(** A space is added. *)
Lemma working_create L s B k r s' :
  working A L s B k -> create_space_post A L s r s' -> r <> 0 -> working (r :: A) L s' B (k + 1).
Proof using.
  intros Hw [(?&_)|(_&Hr&Hi&Hg&Hst&_)] Hne; [done|]. constructor; auto.
  - intros a. apply list_elem_of_further.
  - eapply seen_trans; [apply Hw|]. by eapply seen_grows; [apply Hw|].
  - intros f Hal. rewrite Hst by done. by apply Hw.
  - intros f Hf. destruct (wk_buffer _ _ _ _ _ Hw f Hf) as (?&?&?&Hr1). split_and!; auto.
    rewrite (gr_ref _ _ _ _ _ Hg); auto. apply get_ref_not_free; [apply (inv_pmm_ok s A L), Hw|lia].
  - pose proof (gr_avail _ _ _ _ _ Hg). pose proof (wk_avail _ _ _ _ _ Hw). lia.
Qed.

(** Before and after. *)
Variables (kernel_pml4 : Z) (T : list mm_task) (L0 : list Z) (a : amem).
Hypotheses (HA : A = spaces T) (Hs : sys_inv kernel_pml4 K s0 T L0) (Hsh : presents s0 A a).

Lemma working_start : working A L0 s0 (fun _ => False) 0.
Proof using HA Hs.
  constructor; rewrite ?HA; auto; try apply Hs; [by constructor|..|done|lia].
  intros f Hf. rewrite (si_stray _ _ _ _ _ Hs f Hf). tauto.
Qed.

Lemma old_settled s as_ va : seen (fun _ _ => False) A s0 s -> as_ ∈ A -> user va -> settled s as_ va (a as_ (key 4 va)).
Proof using HA Hs Hsh.
  intros Hsn Ha Hu. apply (seen_settled (fun _ _ => False) A s0); auto. split; [auto|]. intros e Hv.
  apply (si_plain _ _ _ _ _ Hs as_ va); auto. by rewrite <- HA.
Qed.

Lemma working_back L s k : working A L s (fun _ => False) k -> good kernel_pml4 K (mkSys s T) a.
Proof using HA Hs Hsh.
  intros Hw. pose proof (wk_seen _ _ _ _ _ Hw) as Hsn. exists L. cbn [y_vm y_tasks]. rewrite <- HA. split; [constructor|]; rewrite <- ?HA.
  - apply Hw.
  - apply Hs.
  - intros f Hf. rewrite (wk_stray _ _ _ _ _ Hw f Hf). tauto.
  - rewrite HA. apply Hs.
  - intros as_ va e Ha Hu Hv. by apply (old_settled s as_ va).
  - intros as_ va Ha Hu. rewrite (sn_huge _ _ _ _ Hsn) by auto. apply (si_small _ _ _ _ _ Hs); [by rewrite <- HA|done].
  - apply Hs.
  - intros as_ va Ha Hu. by apply old_settled.
Qed.

(** The new space has its first task. *)
Lemma working_new L s k r me hb (a' : amem) :
  working (r :: A) L s (fun _ => False) k -> r ∉ A -> 0 <= me -> 0 <= hb ->
  (forall va, user va -> settled s r va (a' r (key 4 va)) /\ huge s.(v_mem) r va = None) ->
  (forall as_ v, as_ <> r -> a' as_ v = a as_ v) -> good kernel_pml4 K (mkSys s (mkMm r me hb :: T)) a'.
Proof using HA Hs Hsh.
  intros Hw Hr Hme Hhb Hnew Hold. pose proof (wk_seen _ _ _ _ _ Hw) as Hsn.
  assert (Hset : forall as_ va, as_ ∈ r :: A -> user va -> settled s as_ va (a' as_ (key 4 va))).
  { intros as_ va [->|Ha]%elem_of_cons Hu; [by apply Hnew|]. rewrite Hold by (by intros ->). by apply old_settled. }
  assert (Hsp : spaces (mkMm r me hb :: T) = r :: A) by (by rewrite HA).
  exists L. cbn [y_vm y_tasks]. rewrite Hsp. split; [constructor|]; rewrite ?Hsp.
  - apply Hw.
  - apply Hs.
  - intros f Hf. rewrite (wk_stray _ _ _ _ _ Hw f Hf). tauto.
  - constructor; [done|]. rewrite HA. apply Hs.
  - intros as_ va e Ha Hu Hv. by apply (Hset as_ va).
  - intros as_ va [->|Ha]%elem_of_cons Hu; [by apply Hnew|]. rewrite (sn_huge _ _ _ _ Hsn) by auto.
    apply (si_small _ _ _ _ _ Hs); [by rewrite <- HA|done].
  - intros u [->|Hu]%elem_of_cons; [done|]. by apply Hs.
  - intros as_ va Ha Hu. by apply Hset.
Qed.
End working.

(** * The stack grows

    [task_grow_user_stack], called from the page fault handler: pages of
    zeroes from the faulting page up to the bottom of the stack, within
    [USER_STACK_MAX_PAGES] below its top. *)
Lemma placed_ready s as_ va flags pa : 0 <= va < 2 ^ 47 -> aligned va -> placed s as_ va flags pa ->
  (forall o, 0 <= o < PAGE_SIZE -> ub s as_ (va + o) = Some 0) -> ready s as_ va flags (fun _ => 0).
Proof.
  intros Hva Hal (Hv&Hph&Hm&Hr) Hz. exists pa. split_and!; auto. intros o Ho. specialize (Hz o Ho).
  pose proof (Z.div_mod va PAGE_SIZE ltac:(done)) as Hdm. unfold aligned in Hal. rewrite Hal in Hdm.
  assert (Hd : (va + o) / PAGE_SIZE = va / PAGE_SIZE) by (symmetry; apply Z.div_unique with (r := o); lia).
  assert (Hmo : (va + o) mod PAGE_SIZE = o) by (symmetry; apply Z.mod_unique with (q := va / PAGE_SIZE); lia).
  rewrite (ub_page s as_ va (va + o) (leaf_entry pa flags) Hva) in Hz; [|unfold PAGE_SIZE in *; lia|done|exact Hv]. rewrite Hmo, Hph in Hz. congruence.
Qed.

(** The task after its stack reaches down to [bottom]. *)
Definition grown_task (t : exec_task) (bottom : Z) : exec_task := set_user_stack t t.(user_stack_top) bottom (bottom - PAGE_SIZE).

Lemma grow_stack_ok n : forall x A L as_ page_va,
  pt_inv x.(x_vm) A L -> as_ ∈ A -> span page_va (Z.of_nat n) -> x.(x_task).(xt_stack).(user_stack_bottom) = page_va + Z.of_nat n * PAGE_SIZE ->
  unmapped x.(x_vm) as_ page_va (Z.of_nat n) -> 4 * Z.of_nat n <= avail x.(x_vm).(v_pmm) ->
  wp nopanic (grow_stack n as_ page_va) (fun r x' => r = 0 /\ x'.(x_task) = grown_task x.(x_task) page_va /\ exists L',
    pt_inv x'.(x_vm) A L' /\ effect (range as_ page_va (Z.of_nat n)) (4 * Z.of_nat n) A L x.(x_vm) L' x'.(x_vm) /\
    forall j, 0 <= j < Z.of_nat n -> ready x'.(x_vm) as_ (page_va + j * PAGE_SIZE) RW (fun _ => 0)) x.
Proof.
  induction n as [|n IH]; intros x A L as_ page_va Hi Ha Hsp Hbot Hun Hav; cbn [grow_stack]; unfold upd_task, xvm; wp_steps; rewrite Hbot.
  { rewrite Z.mul_0_l, Z.add_0_r, Z.leb_refl. wp_steps. split_and!; [done|done|]. exists L. cbn [x_vm]. split_and!; auto; [apply effect_same; lia|lia]. }
  set (m := Z.of_nat n). assert (Hm : Z.of_nat (S n) = m + 1) by lia. rewrite Hm in *. clear Hm.
  destruct (Z.leb_spec (page_va + (m + 1) * PAGE_SIZE) page_va) as [Hle|_]; [unfold PAGE_SIZE in Hle; lia|].
  replace (page_va + (m + 1) * PAGE_SIZE - PAGE_SIZE) with (page_va + m * PAGE_SIZE) by lia.
  destruct (span_user _ _ Hsp m ltac:(lia)) as [Hu Hva]. destruct (Hun m ltac:(lia)) as [Hv Hh].
  assert (Hal : aligned (page_va + m * PAGE_SIZE)).
  { pose proof (sp_aligned _ _ Hsp) as Hal. unfold aligned in *. by rewrite Z.mod_add. }
  wp_steps. apply wp_alloc.
  { intros p1 Eal. pose proof (alloc_some _ _ _ (inv_pmm_ok _ A L Hi) (proj1 (ci_zero _ _ (pi_cow _ _ _ Hi))) Eal). lia. }
  intros pa p1 Eal Hne. apply Z.eqb_neq in Hne as Hb. rewrite Hb. unfold zero_page. wp_steps. cbn [x_vm x_task].
  eapply wp_mono; [apply (map_zero_ok nopanic x.(x_vm) A L as_ (page_va + m * PAGE_SIZE) RW pa p1); auto; by left; lia|].
  intros _ s1 (L1&Hi1&He1&Hpl1&Hz1). wp_steps. cbn [x_vm x_task]. pose proof (ef_avail _ _ _ _ _ _ _ He1) as Hav1.
  assert (Hsp1 : span page_va m) by (destruct Hsp; constructor; unfold PAGE_SIZE in *; (done || lia)).
  eapply wp_mono; [apply (IH _ A L1 as_ page_va); cbn [x_vm x_task]; auto; [|lia]|].
  - apply (unmapped_effect _ _ _ _ _ _ _ _ _ _ He1); auto; [|intros i Hi'; apply Hun; lia].
    intros i Hi' [_ Hk]. rewrite (span_key _ _ Hsp) in Hk by lia. lia.
  - intros r x2 (->&Ht2&L2&Hi2&He2&Hrd). split_and!; [done|by rewrite Ht2|]. exists L2. split_and!; auto.
    + replace (4 * (m + 1)) with (4 + 4 * m) by lia. eapply effect_trans; (eapply effect_weaken; [eassumption| |lia]).
      * intros a v [-> ->]. split; [done|]. rewrite (span_key _ _ Hsp) by lia. lia.
      * intros a v [-> ?]. split; [done|]. lia.
    + intros j Hj. destruct (decide (j = m)) as [->|Hjm]; [|apply Hrd; lia].
      eapply ready_effect; [exact He2|done|done| |by apply (placed_ready _ _ _ _ pa)].
      intros [_ Hk]. rewrite (span_key _ _ Hsp) in Hk by lia. lia.
Qed.

(** A stack as exec makes it, or as it is after it grew. *)
Record stack_wf (t : exec_task) : Prop := {
  sw_top : aligned t.(user_stack_top) /\ USER_STACK_MAX_PAGES * PAGE_SIZE <= t.(user_stack_top) <= 2 ^ 47;
  sw_bottom : aligned t.(xt_stack).(user_stack_bottom) /\ t.(xt_stack).(user_stack_bottom) <= t.(user_stack_top);
  sw_pages : t.(user_stack_top) - USER_STACK_MAX_PAGES * PAGE_SIZE <= t.(xt_stack).(user_stack_bottom);
}.

(** The faults that extend the stack. *)
Definition stack_fault (t : exec_task) (fault_addr : Z) : Prop :=
  t.(user_stack_top) - USER_STACK_MAX_PAGES * PAGE_SIZE <= fault_addr < t.(xt_stack).(user_stack_bottom).
#[export] Instance stack_fault_dec t fault_addr : Decision (stack_fault t fault_addr).
Proof. unfold stack_fault. apply _. Defined.

Definition grow_pages (t : exec_task) (fault_addr : Z) : Z := (t.(xt_stack).(user_stack_bottom) - page_down fault_addr) / PAGE_SIZE.

Lemma stack_fault_span t fault_addr : stack_wf t -> stack_fault t fault_addr ->
  span (page_down fault_addr) (grow_pages t fault_addr) /\
  t.(xt_stack).(user_stack_bottom) = page_down fault_addr + grow_pages t fault_addr * PAGE_SIZE /\
  t.(user_stack_top) - USER_STACK_MAX_PAGES * PAGE_SIZE <= page_down fault_addr.
Proof.
  intros [[Hta Htr] [Hba Hbt] _] [Hlo Hhi]. pose proof (page_down_aligned fault_addr) as Hpa. unfold grow_pages.
  pose proof (page_down_mod fault_addr) as Hpd. pose proof (Z.mod_pos_bound fault_addr PAGE_SIZE ltac:(done)) as Hmod.
  destruct (aligned_mul _ Hta) as [qt Ht], (aligned_mul _ Hba) as [qb Hb], (aligned_mul _ Hpa) as [qp Hp]. rewrite Ht, Hb, Hp in *.
  replace (qb * 4096 - qp * 4096) with ((qb - qp) * PAGE_SIZE) by (unfold PAGE_SIZE; lia). rewrite Z.div_mul by done. unfold PAGE_SIZE in *.
  split_and!; [constructor|..]; unfold aligned, PAGE_SIZE; rewrite ?Z.mod_mul by done; lia.
Qed.

Lemma grow_refines kernel_pml4 K x T (a : amem) t fault_addr :
  let as_ := t.(xt_mm).(mm_as) in let n := grow_pages t fault_addr in
  good kernel_pml4 K (mkSys x.(x_vm) T) a -> x.(x_task) = t -> t.(xt_mm) ∈ T -> stack_wf t -> 0 <= fault_addr < 2 ^ 64 ->
  (stack_fault t fault_addr -> a_free as_ (page_down fault_addr) n a /\ 4 * n <= avail x.(x_vm).(v_pmm)) ->
  wp nopanic (task_grow_user_stack fault_addr) (fun r x' =>
    if decide (stack_fault t fault_addr)
    then r = 0 /\ good kernel_pml4 K (mkSys x'.(x_vm) T) (a_map as_ (page_down fault_addr) n true false zeroes a) /\
         x'.(x_task) = grown_task t (page_down fault_addr) /\ stack_wf x'.(x_task)
    else r = -1 /\ x' = x) x.
Proof.
  intros as_ n (L&Hs&Hsh) Ht Hin Hwf Hfa Hfree. cbn [y_vm y_tasks] in *. pose proof (sw_top _ Hwf) as [Hta Htr].
  assert (Has : as_ ∈ spaces T) by (apply list_elem_of_fmap; by exists t.(xt_mm)).
  destruct (space_nonzero _ _ _ _ _ _ Hs Has) as [Hnz _].
  unfold task_grow_user_stack. wp_steps. rewrite Ht. fold as_. apply Z.eqb_neq in Hnz. rewrite Hnz.
  destruct (Z.eqb_spec t.(user_stack_top) 0); [unfold PAGE_SIZE in *; lia|]. cbn [orb]. rewrite u64_small by (unfold PAGE_SIZE in *; lia).
  pose proof (sw_bottom _ Hwf) as [Hba Hbt].
  case_decide as Hsf.
  2: { destruct (Z.leb_spec t.(xt_stack).(user_stack_bottom) fault_addr), (Z.leb_spec t.(user_stack_top) fault_addr); cbn [orb]; try by wp_steps.
       destruct (Z.ltb_spec fault_addr (t.(user_stack_top) - USER_STACK_MAX_PAGES * PAGE_SIZE)); [by wp_steps|]. destruct Hsf. unfold stack_fault. lia. }
  destruct (stack_fault_span t fault_addr Hwf Hsf) as (Hsp&Hbot&Hlow). destruct (Hfree Hsf) as [Hfr Hav]. fold n in Hsp, Hbot. destruct Hsf as [Hlo Hhi].
  destruct (Z.leb_spec t.(xt_stack).(user_stack_bottom) fault_addr), (Z.leb_spec t.(user_stack_top) fault_addr); try lia. cbn [orb].
  destruct (Z.ltb_spec fault_addr (t.(user_stack_top) - USER_STACK_MAX_PAGES * PAGE_SIZE)); [lia|]. fold (grow_pages t fault_addr). fold n.
  pose proof (sp_n _ _ Hsp) as Hn. assert (HN : Z.of_nat (Z.to_nat n) = n) by lia.
  eapply wp_mono; [apply (grow_stack_ok (Z.to_nat n) x (spaces T) L as_ (page_down fault_addr)); rewrite ?HN, ?Ht; auto; [apply Hs|]|].
  { intros i Hi. destruct (span_user _ _ Hsp i Hi) as [Hu Hva]. split; [|by apply (si_small _ _ _ _ _ Hs)].
    pose proof (Hsh as_ _ Has Hu) as Hp. rewrite (span_key _ _ Hsp i Hi), Hfr in Hp by (unfold pn; lia).
    unfold page_at in Hp. by destruct (view x.(x_vm).(v_mem) as_ (page_down fault_addr + i * PAGE_SIZE)). }
  intros r x' (->&Ht'&L'&Hi'&He&Hrd). rewrite HN, Ht in *. split_and!; [done| |done|].
  - apply list_elem_of_lookup in Hin as [i Hti]. rewrite <- (list_insert_id T i t.(xt_mm) Hti).
    apply (map_good kernel_pml4 K x.(x_vm) T L a Hs Hsh i t.(xt_mm) Hti (4 * n) (page_down fault_addr) n true false zeroes L'); auto.
    right. pose proof (si_tasks _ _ _ _ _ Hs t.(xt_mm) ltac:(by eapply list_elem_of_lookup_2)). tauto.
  - rewrite Ht'. constructor; cbn; auto. split; [apply page_down_aligned|]. pose proof (page_down_mod fault_addr).
    pose proof (Z.mod_pos_bound fault_addr PAGE_SIZE ltac:(done)). lia.
Qed.
