(* ===== verification/ExecSpace.v ===== *)
(** * The address space of a new program

    What [exec_image] and [task_prepare_initial_user_stack] put into the
    space, in terms of the abstract machine: the segments of the program and
    of its interpreter, and a stack. *)
From S2P Require Import Prelude State Pmm Pte VmCow Bytes Vmm PtWalk PtInv PtGrow PtMap Mmap PtOps PtSpace PtCopy PtMask PtClone.
From S2P Require Import PtFree PtDestroy PtFault MmapOk MmapCalls MmapTheorems MremapOk VmSpec VmSystem VmRefine.
From S2P Require Import PtBytes PmmRuns Elf ElfOk Exec ExecStack ExecStart ExecRead ExecArgs ExecWork.

(** ** The memory of one space *)
(** Addresses of the lower half, as the pages they lie in. *)
Lemma user_page va : user va -> 0 <= key 4 va < 2 ^ 35 /\ key 4 (key 4 va * PAGE_SIZE) = key 4 va.
Proof.
  intros Hu. assert (Hk : 0 <= key 4 va < 2 ^ 35).
  { cbn [key]. pose proof (idx_range 0 va). pose proof (idx_range 1 va). pose proof (idx_range 2 va). pose proof (idx_range 3 va).
    assert (idx 0 va < 256) by exact Hu. lia. }
  split; [done|]. rewrite key_page by (unfold PAGE_SIZE; lia). by rewrite Z.div_mul.
Qed.

Lemma page_low q : 0 <= q < 2 ^ 35 -> 0 <= q * PAGE_SIZE < 2 ^ 47 /\ user (q * PAGE_SIZE) /\ key 4 (q * PAGE_SIZE) = q /\ aligned (q * PAGE_SIZE).
Proof.
  intros Hq. assert (Hl : 0 <= q * PAGE_SIZE < 2 ^ 47) by (unfold PAGE_SIZE; lia). split_and!; [lia..|by apply user_low| |].
  - rewrite key_page by lia. by rewrite Z.div_mul.
  - unfold aligned. by rewrite Z.mod_mul.
Qed.

(** The space [r] holds what [a] says. *)
Definition shows (s : vmst) (r : Z) (a : amem) : Prop :=
  forall q, 0 <= q < 2 ^ 35 -> settled s r (q * PAGE_SIZE) (a r q) /\ huge s.(v_mem) r (q * PAGE_SIZE) = None.

Lemma shows_user s r a va : shows s r a -> user va -> settled s r va (a r (key 4 va)) /\ huge s.(v_mem) r va = None.
Proof.
  intros Hs Hu. destruct (user_page va Hu) as [Hq Hk]. destruct (Hs _ Hq) as [Hset Hh].
  rewrite (settled_key _ _ va _ _ (eq_sym Hk)), (huge_key _ _ va (key 4 va * PAGE_SIZE)); [done|].
  symmetry. by apply (key_le 3 4); [lia|].
Qed.

Lemma shows_none s r a q : shows s r a -> 0 <= q < 2 ^ 35 -> a r q = None -> view s.(v_mem) r (q * PAGE_SIZE) = None.
Proof.
  intros Hs Hq Ha. destruct (Hs q Hq) as [[Hp _] _]. rewrite Ha in Hp. unfold page_at in Hp. by destruct (view s.(v_mem) r (q * PAGE_SIZE)).
Qed.

Lemma shows_seen D A s s' r a : seen D A s s' -> r ∈ A -> (forall q, ~ D r q) -> shows s r a -> shows s' r a.
Proof.
  intros Hsn Hr HD Hs q Hq. destruct (page_low q Hq) as (_&Hu&Hk&_), (Hs q Hq) as [Hset Hh]. split.
  - eapply seen_settled; eauto.
  - by rewrite (sn_huge _ _ _ _ Hsn).
Qed.

(** The byte at [va] in the abstract machine. *)
Definition abyte (a : amem) (r va : Z) : option Z :=
  if decide (0 <= va < 2 ^ 47) then (fun p => pg_data p (va mod PAGE_SIZE)) <$> a r (va / PAGE_SIZE) else None.

Lemma settled_byte s r va p : settled s r va p -> ub s r va = (fun p => pg_data p (va mod PAGE_SIZE)) <$> p.
Proof.
  intros [Hp _]. unfold page_at, ub in *. pose proof (Z.mod_pos_bound va PAGE_SIZE ltac:(done)).
  destruct (view s.(v_mem) r va) as [e|], p as [p|]; try done. destruct Hp as (_&_&Hd). cbn in *. f_equal. by apply Hd.
Qed.

(** Pages of this or that kind that [placed] and [ub] describe. *)
Lemma placed_settled s r q w x pa data :
  0 <= q < 2 ^ 35 -> placed s r (q * PAGE_SIZE) (arch_vm_user_page_flags w x) pa ->
  (forall o, 0 <= o < PAGE_SIZE -> ub s r (q * PAGE_SIZE + o) = Some (data o)) ->
  settled s r (q * PAGE_SIZE) (Some (mkPage w x data)).
Proof.
  intros Hq (Hv&Hph&Hm&Hr) Hd. destruct (page_low q Hq) as (Hlow&Hu&Hk&Hal). apply settled_ready. exists pa. split_and!; auto.
  intros o Ho. specialize (Hd o Ho). unfold PAGE_SIZE in *. assert (Hdv : (q * 4096 + o) / 4096 = q * 4096 / 4096) by (rewrite Z.div_mul, Z.div_add_l by lia; rewrite Z.div_small; lia).
  rewrite (ub_page s r (q * 4096) (q * 4096 + o) _ ltac:(lia) ltac:(lia) (eq_sym Hdv) Hv) in Hd. injection Hd as <-. rewrite Hph.
  f_equal. f_equal. unfold PAGE_SIZE. rewrite Z.add_comm, Z.mod_add, Z.mod_small by lia. done.
Qed.

(** ** Loading *)
Definition has_page (d : list Z) (load_bias q : Z) : Prop := segs_in load_bias (phdrs_of d) q <> [].
#[export] Instance has_page_dec d load_bias q : Decision (has_page d load_bias q).
Proof. unfold has_page. apply _. Defined.
#[export] Instance pages_in_dec r load_bias l s q : Decision (pages_in r load_bias l s q).
Proof. unfold pages_in. apply _. Defined.

(** The page [q] of the file in memory, with the rights of its segments. *)
Definition file_page (d : list Z) (load_bias q : Z) : page :=
  mkPage (page_has load_bias (phdrs_of d) (q * PAGE_SIZE) PF_W) (page_has load_bias (phdrs_of d) (q * PAGE_SIZE) PF_X)
         (fun o => image d load_bias (loads (phdrs_of d)) (q * PAGE_SIZE + o)).

Definition a_load (r : Z) (d : list Z) (load_bias : Z) (a : amem) : amem := fun s q =>
  if decide (pages_in r load_bias (phdrs_of d) s q) then Some (file_page d load_bias q) else a s q.

Lemma page_has_key load_bias l va va' flag : page_down va = page_down va' -> page_has load_bias l va flag = page_has load_bias l va' flag.
Proof. intros Hp. unfold page_has. by rewrite Hp. Qed.

Lemma page_off q o : 0 <= q < 2 ^ 35 -> 0 <= o < PAGE_SIZE -> (q * PAGE_SIZE + o) / PAGE_SIZE = q /\ 0 <= q * PAGE_SIZE + o < 2 ^ 47.
Proof. intros Hq Ho. rewrite Z.div_add_l, Z.div_small by (done || lia). unfold PAGE_SIZE in *. lia. Qed.

Lemma loaded_settled s s' r d load_bias q : 0 <= q < 2 ^ 35 -> has_page d load_bias q ->
  (forall va, 0 <= va < 2 ^ 47 -> loaded_at s r d load_bias s' va) -> settled s' r (q * PAGE_SIZE) (Some (file_page d load_bias q)).
Proof.
  intros Hq Hseg Hl. destruct (page_low q Hq) as (Hlow&_). pose proof (Hl (q * PAGE_SIZE) Hlow) as Hq0. unfold loaded_at in Hq0.
  rewrite Z.div_mul, bool_decide_eq_false_2 in Hq0 by done. destruct Hq0 as [[pa Hpl] _]. apply (placed_settled s' r q _ _ pa); auto.
  intros o Ho. destruct (page_off q o Hq Ho) as [Hd Hlo]. specialize (Hl (q * PAGE_SIZE + o) Hlo). unfold loaded_at in Hl.
  rewrite Hd, bool_decide_eq_false_2 in Hl by done. by destruct Hl.
Qed.

Section space.
Variables (K : list Z) (s0 : vmst) (A : list Z) (r : Z).
Hypothesis Hr : r ∉ A.

Lemma load_step L s B k d load_bias (a : amem) :
  working K s0 A (r :: A) L s B k -> shows s r a -> elf_ok d load_bias ->
  (forall q, 0 <= q < 2 ^ 35 -> has_page d load_bias q -> a r q = None) -> k + load_cost load_bias (phdrs_of d) <= avail s0.(v_pmm) ->
  wp nopanic (elf_load r d load_bias) (fun info s' => info = elf_result d load_bias /\ exists L',
    working K s0 A (r :: A) L' s' B (k + load_cost load_bias (phdrs_of d)) /\ shows s' r (a_load r d load_bias a)) s.
Proof using Hr.
  intros Hw Hs Hok Hfree Hroom. assert (Hin : r ∈ r :: A) by constructor. pose proof (wk_inv _ _ _ _ _ _ _ _ Hw) as Hi.
  eapply wp_mono; [apply (elf_load_ok s (r :: A) L r d load_bias Hi Hin Hok); [|pose proof (wk_avail _ _ _ _ _ _ _ _ Hw); lia]|].
  { intros q Hq Hseg. split; [by apply (shows_none s r a), Hfree|by apply (Hs q)]. }
  intros info s' (L'&->&Hi'&He&Hl). split; [done|]. exists L'. split.
  { eapply working_effect; [exact Hw|exact Hi'|exact He|]. by intros a' v Ha' (->&_). }
  intros q Hq. destruct (page_low q Hq) as (Hlow&Hu&Hk&_). split; [|rewrite (ef_huge _ _ _ _ _ _ _ He) by auto; by apply Hs].
  unfold a_load. destruct (decide (pages_in r load_bias (phdrs_of d) r q)) as [(_&_&Hseg)|Hno].
  - by apply (loaded_settled s s').
  - apply (seen_settled (pages_in r load_bias (phdrs_of d)) (r :: A) s); auto; [by eapply effect_seen| |by apply Hs].
    by rewrite Hk.
Qed.

(** In the space of a task that is there already. *)
Lemma load_refines kernel_pml4 T a t d load_bias s :
  good kernel_pml4 K (mkSys s T) a -> t ∈ T -> elf_ok d load_bias ->
  (forall q, 0 <= q < 2 ^ 35 -> has_page d load_bias q -> a t.(mm_as) q = None) -> load_cost load_bias (phdrs_of d) <= avail s.(v_pmm) ->
  wp nopanic (elf_load t.(mm_as) d load_bias) (fun info s' => info = elf_result d load_bias /\
    good kernel_pml4 K (mkSys s' T) (a_load t.(mm_as) d load_bias a)) s.
Proof using.
  intros (L&Hs&Hsh) Ht Hok Hfree Hroom. cbn [y_vm y_tasks] in *. set (as_ := t.(mm_as)) in *.
  assert (Has : as_ ∈ spaces T) by (apply list_elem_of_fmap; by exists t). pose proof (si_inv _ _ _ _ _ Hs) as Hi.
  eapply wp_mono; [apply (elf_load_ok s (spaces T) L as_ d load_bias Hi Has Hok); [|done]|].
  { intros q Hq Hseg. destruct (page_low q Hq) as (_&Hu&Hk&_). split; [|by apply (si_small _ _ _ _ _ Hs)].
    pose proof (Hsh as_ _ Has Hu) as Hp. rewrite Hk, Hfree in Hp by done. unfold page_at in Hp. by destruct (view s.(v_mem) as_ (q * PAGE_SIZE)). }
  intros info s' (L'&->&Hi'&He&Hl). split; [done|].
  eapply (effect_good kernel_pml4 K (pages_in as_ load_bias (phdrs_of d)) _ s T L L' s' T a); eauto; [apply Hs|..].
  - intros a1 v. destruct (decide (pages_in as_ load_bias (phdrs_of d) a1 v)); auto.
  - intros a1 va _ Hu Hd. destruct (user_page va Hu) as [_ Hk]. rewrite (settled_key _ _ _ _ _ (eq_sym Hk)). unfold a_load.
    rewrite decide_True by done. destruct Hd as (->&Hq&Hseg). by apply (loaded_settled s s').
  - intros a1 v HD. unfold a_load. by rewrite decide_False.
Qed.

(** ** The stack *)
Abbreviation N := (USER_STACK_PAGES - USER_STACK_GUARD_PAGES).
Abbreviation BOTTOM := (USER_STACK_TOP_VADDR - N * PAGE_SIZE).
Definition on_stack_page (q : Z) : Prop := pn BOTTOM <= q < pn BOTTOM + N.

Lemma stack_step L s B k s' (a : amem) :
  working K s0 A (r :: A) L s B k -> shows s r a -> stack_made (r :: A) L r s s' ->
  exists L' data, working K s0 A (r :: A) L' s' B (k + 4 * N) /\ shows s' r (a_map r BOTTOM N true false data a).
Proof using Hr.
  intros Hw Hs (L'&Hi'&He&Hpl).
  set (data := fun off o => match ub s' r (BOTTOM + off + o) with Some b => b | None => 0 end). exists L', data. split.
  { eapply working_effect; [exact Hw|exact Hi'|exact He|]. by intros a' v Ha' [-> _]. }
  intros q Hq. destruct (page_low q Hq) as (Hlow&Hu&Hk&_). assert (Hin : r ∈ r :: A) by constructor.
  split; [|rewrite (ef_huge _ _ _ _ _ _ _ He) by auto; by apply Hs]. unfold a_map.
  case_decide as Hrg.
  - destruct Hrg as [_ Hrg]. assert (Hb : BOTTOM = pn BOTTOM * PAGE_SIZE) by done.
    destruct (Hpl (q - pn BOTTOM)) as [pa Hp]; [unfold pn in *; lia|].
    assert (Haddr : BOTTOM + (q - pn BOTTOM) * PAGE_SIZE = q * PAGE_SIZE) by lia. rewrite Haddr in Hp.
    apply (placed_settled s' r q true false pa); auto. intros o Ho. unfold data. rewrite Haddr.
    destruct (page_off q o Hq Ho) as [Hd Hlo]. destruct Hp as [Hv _].
    by rewrite (ub_page s' r (q * PAGE_SIZE) (q * PAGE_SIZE + o) _ Hlow Hlo ltac:(rewrite Hd, Z.div_mul by done; done) Hv).
  - apply (seen_settled (range r BOTTOM N) (r :: A) s); auto; [by eapply effect_seen|by rewrite Hk|by apply Hs].
Qed.
End space.

(** ** The program and its interpreter *)
Definition exec_bias (d : list Z) : Z := if get16 d 16 =? ET_DYN then EXEC_ET_DYN_LOAD_BASE else 0.
Definition main_info (d : list Z) : elf_info := elf_result d (exec_bias d).
Definition interp_info (di : option (list Z)) : elf_info :=
  match di with Some d' => elf_result d' EXEC_INTERP_LOAD_BASE | None => no_info end.
Definition image_cost (d : list Z) (di : option (list Z)) : Z :=
  load_cost (exec_bias d) (phdrs_of d) + match di with Some d' => load_cost EXEC_INTERP_LOAD_BASE (phdrs_of d') | None => 0 end.
Definition a_image (r : Z) (d : list Z) (di : option (list Z)) (a : amem) : amem :=
  let a := a_load r d (exec_bias d) a in
  match di with Some d' => a_load r d' EXEC_INTERP_LOAD_BASE a | None => a end.

(** What the loader reports. *)
Lemma elf_result_keeps d load_bias :
  let i := elf_result d load_bias in let i0 := elf_start d load_bias in
  i.(i_entry) = i0.(i_entry) /\ i.(i_phdr_vaddr) = i0.(i_phdr_vaddr) /\ i.(i_phent) = i0.(i_phent) /\ i.(i_phnum) = i0.(i_phnum) /\
  i.(i_load_bias) = i0.(i_load_bias) /\ 0 <= i.(i_max_vaddr).
Proof.
  cbv zeta. unfold elf_result. assert (H0 : 0 <= (elf_start d load_bias).(i_max_vaddr)) by done. revert H0. generalize (elf_start d load_bias) as i0.
  induction (phdrs_of d) as [|ph l IH]; intros i0 H0; [by split_and!|]. cbn [foldl].
  destruct (IH (elf_note d load_bias i0 ph)) as (->&->&->&->&->&Hm); [unfold elf_note; repeat case_match; cbn; lia|].
  unfold elf_note in Hm |- *. by repeat case_match.
Qed.

Lemma elf_result_max d load_bias ph :
  ph ∈ phdrs_of d -> ph.(p_type) = PT_LOAD -> u64 (seg_start load_bias ph + ph.(p_memsz)) <= (elf_result d load_bias).(i_max_vaddr).
Proof.
  intros Hin Ht. unfold elf_result. generalize (elf_start d load_bias) as i0.
  assert (Hmono : forall l i, i.(i_max_vaddr) <= (foldl (elf_note d load_bias) i l).(i_max_vaddr)).
  { intros l. induction l as [|p l IH]; intros i; [done|]. cbn [foldl]. etransitivity; [|apply IH]. unfold elf_note. repeat case_match; cbn; lia. }
  induction Hin as [x l|x y l Hin IH]; intros i0; cbn [foldl]; [|by apply IH].
  etransitivity; [|apply Hmono]. unfold elf_note. rewrite Ht. cbn [Z.eqb Pos.eqb i_max_vaddr]. unfold seg_start. lia.
Qed.

Lemma elf_result_words d load_bias : Forall byte_ok d -> EHDR_SIZE <= zlen d -> 0 <= load_bias < 2 ^ 64 -> info_ok (elf_result d load_bias).
Proof.
  intros Hb Hlen Hbias. destruct (elf_result_keeps d load_bias) as (He&Hp&Hn&Hm&Hl&_). constructor; rewrite ?He, ?Hp, ?Hn, ?Hm, ?Hl; cbn; unfold word_ok.
  - apply u64_range.
  - generalize (phdrs_of d). intros l. induction l as [|ph l IH]; cbn; [lia|]. case_match; [done|apply u64_range].
  - pose proof (getn_range 2 d 54 Hb ltac:(lia) ltac:(lia)). unfold get16. lia.
  - pose proof (getn_range 2 d 56 Hb ltac:(lia) ltac:(lia)). unfold get16. lia.
  - done.
Qed.

Section image.
Context `{ExecEnv}.

(** A program that can be run: its headers tell the truth, its interpreter
    is there, and they leave room for each other and for the stack. *)
Record runnable (d : list Z) (di : option (list Z)) : Prop := {
  rn_elf : elf_ok d (exec_bias d);
  rn_bytes : Forall byte_ok d /\ forall d', di = Some d' -> Forall byte_ok d';
  rn_entry : (main_info d).(i_entry) <> 0;
  rn_interp : if (main_info d).(i_has_interp) then resolve_interp_file (cstr (main_info d).(i_interp_path)) = di /\ di <> None else di = None;
  rn_interp_elf : forall d', di = Some d' -> elf_ok d' EXEC_INTERP_LOAD_BASE /\ (elf_result d' EXEC_INTERP_LOAD_BASE).(i_entry) <> 0;
  rn_apart : forall q d', di = Some d' -> has_page d (exec_bias d) q -> ~ has_page d' EXEC_INTERP_LOAD_BASE q;
  rn_stack : forall q, on_stack_page q -> (~ has_page d (exec_bias d) q) /\ forall d', di = Some d' -> ~ has_page d' EXEC_INTERP_LOAD_BASE q;
}.

Variables (K : list Z) (s0 : vmst) (A : list Z) (r : Z).
Hypothesis Hr : r ∉ A.

Lemma exec_image_ok L s B k d di (a : amem) :
  working K s0 A (r :: A) L s B k -> shows s r a -> runnable d di -> (forall q, a r q = None) -> k + image_cost d di <= avail s0.(v_pmm) ->
  wp nopanic (exec_image r d) (fun res s' => res = inr (main_info d, interp_info di) /\ exists L',
    working K s0 A (r :: A) L' s' B (k + image_cost d di) /\ shows s' r (a_image r d di a)) s.
Proof using Hr.
  intros Hw Hs [Hok _ Hne Hint Hiok Hap _] Hnone Hroom. unfold exec_image. wp_steps. apply wp_in_file; [lia|pose proof (eo_header _ _ Hok); lia|].
  fold (exec_bias d). wp_steps. unfold image_cost in *.
  assert (Hc0 : 0 <= match di with Some d' => load_cost EXEC_INTERP_LOAD_BASE (phdrs_of d') | None => 0 end) by (destruct di; [apply load_cost_nonneg|lia]).
  pose proof (load_cost_nonneg (exec_bias d) (phdrs_of d)).
  eapply wp_mono; [apply (load_step K s0 A r Hr L s B k d (exec_bias d) a); auto; lia|]. intros info s1 (->&L1&Hw1&Hs1). fold (main_info d).
  apply Z.eqb_neq in Hne as Hb. rewrite Hb. destruct (main_info d).(i_has_interp); cbn [negb]; [|subst di; wp_steps; split; [done|]; exists L1; by rewrite Z.add_0_r].
  destruct Hint as [-> Hd], di as [d'|]; [|done]. destruct (Hiok d' eq_refl) as [Hok' Hne']. wp_steps.
  eapply wp_mono; [apply (load_step K s0 A r Hr L1 s1 B _ d' EXEC_INTERP_LOAD_BASE _ Hw1 Hs1 Hok')|].
  - intros q Hq Hp. unfold a_load. rewrite decide_False; [done|]. intros (_&_&Hp'). by apply (Hap q d' eq_refl Hp').
  - lia.
  - intros info s2 (->&L2&Hw2&Hs2). wp_steps. cbn [interp_info]. apply Z.eqb_neq in Hne' as Hb'. rewrite Hb'. split; [done|]. exists L2. split; [|done].
    by rewrite Z.add_assoc.
Qed.
End image.
