(* ===== verification/ExecOk.v ===== *)
(** * [task_execve] does what it should

    The whole call against the abstract machine: which strings the caller's
    memory holds, which program they lead to, what its memory is and what it
    reads from its stack; and that the other processes, and all of them when
    the call fails, see no change, with no page lost. *)
From S2P Require Import Prelude State Pmm Pte VmCow Bytes Vmm PtWalk PtInv PtGrow PtMap Mmap PtOps PtSpace PtCopy PtMask PtClone.
From S2P Require Import PtFree PtDestroy PtFault MmapOk MmapCalls MmapTheorems MremapOk VmSpec VmSystem VmRefine.
From S2P Require Import PtBytes PmmRuns Elf ElfOk Exec ExecStack ExecStart ExecRead ExecArgs ExecWork ExecSpace.

Abbreviation N := (USER_STACK_PAGES - USER_STACK_GUARD_PAGES).
Abbreviation BOTTOM := (USER_STACK_TOP_VADDR - N * PAGE_SIZE).
Abbreviation RANDOM := (USER_STACK_TOP_VADDR - 16).

(** ** The stack *)
(** What becomes of these strings. *)
Definition stack_result (args env : list (list Z)) : Z :=
  if (EXEC_MAX_VEC_STRINGS <? zlen args) || (EXEC_MAX_VEC_STRINGS <? zlen env) then - E2BIG
  else if BOTTOM + (zlen env + zlen args + 32) * 8 <=? Z.land (RANDOM - zlen (packed env) - zlen (packed args)) (Z.lnot 7) then 0 else -1.

Lemma sizes_packed kstr vec : sizes kstr vec = zlen (packed (kstr <$> vec)).
Proof.
  induction vec as [|p vec IH]; [done|]. rewrite sizes_cons, fmap_cons, zlen_packed_cons, IH. lia.
Qed.

Lemma prepare_strings kstr argv envp : prepare_result kstr argv envp = stack_result (kstr <$> argv) (kstr <$> envp).
Proof.
  unfold prepare_result, stack_result, stack_fits, strings_end. rewrite !sizes_packed.
  assert (Hl : forall l, zlen (kstr <$> l) = zlen l) by (intros l; unfold zlen; by rewrite length_fmap). by rewrite !Hl.
Qed.

Lemma stack_result_few args env : stack_result args env = 0 -> zlen args <= EXEC_MAX_VEC_STRINGS /\ zlen env <= EXEC_MAX_VEC_STRINGS.
Proof. unfold stack_result. destruct (Z.ltb_spec EXEC_MAX_VEC_STRINGS (zlen args)), (Z.ltb_spec EXEC_MAX_VEC_STRINGS (zlen env)); cbn [orb]; (done || lia). Qed.

Lemma stack_result_sign args env : stack_result args env <= 0.
Proof. unfold stack_result. repeat case_match; lia. Qed.

Lemma shows_byte s r a va : shows s r a -> 0 <= va < 2 ^ 47 -> abyte a r va = ub s r va.
Proof.
  intros Hs Hva. destruct (shows_user s r a va Hs (user_low va Hva)) as [Hset _]. rewrite (settled_byte _ _ _ _ Hset).
  unfold abyte. rewrite decide_True by done. by rewrite key_page by lia.
Qed.

Section stack.
Variables (K : list Z) (s0 : vmst) (A : list Z) (r : Z).
Hypotheses (Hr : r ∉ A) (Hr0 : r <> 0).
Variables (kstr : Z -> list Z) (info : elf_info) (ii : option elf_info) (argv envp : list Z).
Hypotheses (Hav : Forall (fun src => 0x1000 <= src) argv) (Hev : Forall (fun src => 0x1000 <= src) envp).
Hypotheses (Hinfo : info_ok info) (Hii : forall i, ii = Some i -> info_ok i).
Hypothesis Hz : forall src, src ∈ argv ++ envp -> 0 ∉ kstr src.

(** The stack in the memory [a], and what a program reads from it. *)
Definition stack_reads (a : amem) (t : exec_task) : Prop := forall fuel, 2 ^ 18 <= Z.of_nat fuel ->
  program_start (abyte a r) fuel t.(user_stack) = Some (kstr <$> argv, kstr <$> envp, auxv_pairs info ii RANDOM).

Lemma stack_ok L x (B : Z -> Prop) k (a : amem) :
  working K s0 A (r :: A) L x.(x_vm) B k -> shows x.(x_vm) r a -> (forall q, on_stack_page q -> a r q = None) ->
  sparse x.(x_vm).(v_pmm) EXEC_PTRS_PAGES -> k + EXEC_PTRS_PAGES + 4 * N <= avail s0.(v_pmm) ->
  wp nopanic (task_prepare_initial_user_stack r kstr info ii argv envp) (fun rc x' =>
    rc = prepare_result kstr argv envp /\ stack_only x.(x_task) x'.(x_task) /\ exists L' data,
      working K s0 A (r :: A) L' x'.(x_vm) B (k + EXEC_PTRS_PAGES + 4 * N) /\
      let a' := a_map r BOTTOM N true false data a in shows x'.(x_vm) r a' /\
      (rc = 0 -> stack_reads a' x'.(x_task) /\ x'.(x_task).(user_argc) = zlen argv)) x.
Proof using All.
  intros Hw Hs Hfree Hsp Hroom. unfold task_prepare_initial_user_stack, xvm, free_pages. wp_steps.
  apply (wp_alloc_pages K s0 A nopanic (r :: A) L x.(x_vm) B k); auto; [lia|]. intros pa s1 Hpa Hw1 Hsn1 Hm1 Hap.
  apply Z.eqb_neq in Hpa as Hb. rewrite Hb. wp_steps. assert (Hin : r ∈ r :: A) by constructor.
  assert (Hs1 : shows s1 r a) by (eapply shows_seen; eauto).
  eapply wp_mono; [apply (prepare_ok kstr info ii argv envp (mkX s1 x.(x_task)) (r :: A) L r); auto; cbn [x_vm]|].
  - apply Hw1.
  - intros i Hi. assert (Hpn : pn BOTTOM = 2 ^ 35 - 1 - N) by done.
    assert (Hq : BOTTOM + i * PAGE_SIZE = (pn BOTTOM + i) * PAGE_SIZE) by (rewrite Hpn; unfold PAGE_SIZE; lia). rewrite Hq.
    assert (Hqr : 0 <= pn BOTTOM + i < 2 ^ 35) by lia.
    split; [apply (shows_none s1 r a); auto; apply Hfree; unfold on_stack_page; lia|by apply Hs1].
  - pose proof (wk_avail _ _ _ _ _ _ _ _ Hw1). lia.
  - intros rc x2 (->&Hst&Hto&Hrd). cbn [x_vm x_task] in Hst, Hto.
    destruct (stack_step K s0 A r Hr L s1 _ _ _ a Hw1 Hs1 Hst) as (L2&data&Hw2&Hs2). wp_steps.
    destruct (working_free _ _ _ _ _ _ _ _ _ _ Hw2 ltac:(lia) Hap) as [Hw3 Hsn3]. cbv zeta in Hw3, Hsn3. cbn [x_vm x_task].
    split_and!; [done|done|]. exists L2, data. split; [done|].
    assert (Hs3 : shows (with_pmm x2.(x_vm) (pmm_free x2.(x_vm).(v_pmm) pa EXEC_PTRS_PAGES)) r (a_map r BOTTOM N true false data a))
      by (eapply shows_seen; eauto).
    split; [done|]. intros H0. specialize (Hrd H0). split; [|by apply Hrd]. intros fuel Hfuel.
    rewrite prepare_strings in H0. apply stack_result_few in H0 as [Ha He]. unfold zlen in Ha, He. rewrite !length_fmap in Ha, He.
    apply (started_reads kstr info ii argv envp x2.(x_vm) r x2.(x_task)); auto.
    intros va Hva. rewrite (shows_byte _ _ _ va Hs3 Hva). done.
Qed.
End stack.

(** ** The program takes over *)
(** The memory of the new program: its image and its stack. *)
Definition a_exec (r : Z) (d : list Z) (di : option (list Z)) (data : Z -> Z -> Z) (a : amem) : amem :=
  a_map r BOTTOM N true false data (a_image r d di (a_clear r a)).

Lemma a_exec_other r d di data a as_ v : as_ <> r -> a_exec r d di data a as_ v = a as_ v.
Proof.
  intros Hne. unfold a_exec, a_map, a_image, a_load, a_clear. rewrite decide_False by (by intros [? _]).
  destruct di; rewrite !decide_False by (by intros [? _] || done); done.
Qed.

(** Room for everything exec allocates: runs for its two buffers, and pages
    for the tables, the image and the stack. *)
Record exec_room (p : pmm) (cost : Z) : Prop := {
  er_copy : sparse p EXEC_COPY_PAGES;
  er_ptrs : p.(g_pages) - (avail p - (EXEC_COPY_PAGES + 1 + cost)) < p.(g_pages) / EXEC_PTRS_PAGES;
  er_pages : EXEC_COPY_PAGES + 1 + cost + EXEC_PTRS_PAGES + 4 * N <= avail p;
}.

Lemma list_filter_true {X} (P : X -> Prop) `{!forall x, Decision (P x)} (l : list X) : (forall x, x ∈ l -> P x) -> filter P l = l.
Proof.
  induction l as [|x l IH]; intros Hl; [done|]. rewrite filter_cons_True by (apply Hl; left). f_equal. apply IH. intros y Hy. apply Hl. by right.
Qed.

Section program.
Context `{ExecEnv}.
Variables (kernel_pml4 : Z) (K : list Z) (s0 : vmst) (T : list mm_task) (L0 : list Z) (a : amem).
Hypotheses (Hs : sys_inv kernel_pml4 K s0 T L0) (Hsh : presents s0 (spaces T) a).
Abbreviation A := (spaces T).

(** The task [t] has become the program [d]: its memory in the new space
    [r], where its registers point, and what was reset. *)
Record entered (t : exec_task) (path : list Z) (args env : list (list Z)) (d : list Z) (di : option (list Z))
  (r : Z) (data : Z -> Z -> Z) (x' : xst) : Prop := {
  en_new : r ∉ spaces T;
  en_good : good kernel_pml4 K (mkSys x'.(x_vm) (x'.(x_task).(xt_mm) :: T)) (a_exec r d di data a);
  en_start : forall fuel, 2 ^ 18 <= Z.of_nat fuel ->
    program_start (abyte (a_exec r d di data a) r) fuel x'.(x_task).(user_stack) =
      Some (args, env, auxv_pairs (main_info d) (Some (interp_info di)) RANDOM);
  en_mm : x'.(x_task).(xt_mm) = mkMm r USER_MMAP_BASE_VADDR (main_info d).(i_max_vaddr);
  en_entry : x'.(x_task).(user_entry) = (if (main_info d).(i_has_interp) then interp_info di else main_info d).(i_entry);
  en_argc : x'.(x_task).(user_argc) = zlen args;
  en_deferred : x'.(x_task).(deferred_cr3) = t.(xt_mm).(mm_as);
  en_signals : x'.(x_task).(xt_sig_pending) = 0 /\ x'.(x_task).(xt_sig_mask) = 0 /\ x'.(x_task).(xt_sig_handlers) = replicate 32 0;
  en_comm : x'.(x_task).(comm) = task_set_comm_from_path path;
}.

(** A space that never ran is given up. *)
Lemma drop_space L s k r (a' : amem) :
  working K s0 A (r :: A) L s (fun _ => False) k -> r ∉ A -> shows s r a' -> (forall as_ v, as_ <> r -> a' as_ v = a as_ v) ->
  wp nopanic (vmm_free_user_pml4 kernel_pml4 r) (fun _ s' => good kernel_pml4 K (mkSys s' T) a) s.
Proof using Hs Hsh.
  intros Hw Hr Hsw Ha'.
  assert (Hg : good kernel_pml4 K (mkSys s (mkMm r 0 0 :: T)) a').
  { eapply (working_new K s0 A kernel_pml4 T L0 a eq_refl Hs Hsh L s k r 0 0 a'); auto; [lia..|].
    intros va Hu. by apply shows_user. }
  destruct Hg as (L1&Hs1&Hsh1). cbn [y_vm y_tasks] in *.
  assert (Hin : mkMm r 0 0 ∈ mkMm r 0 0 :: T) by constructor.
  pose proof (exit_destroys kernel_pml4 K s _ L1 Hs1 _ Hin) as Hd. cbn [mm_as] in Hd.
  apply wp_run in Hd as ([]&s'&Hrun&_). unfold wp. rewrite Hrun.
  destruct (exit_refines kernel_pml4 K s _ L1 a' Hs1 Hsh1 _ s' Hin Hrun) as (L2&Hs2&Hsh2). cbn [y_vm y_tasks mm_as] in *.
  assert (Hf : filter (fun u => u.(mm_as) <> r) (mkMm r 0 0 :: T) = T).
  { rewrite filter_cons_False by (cbn; tauto). apply list_filter_true. intros u Hu <-. apply Hr. apply list_elem_of_fmap. by exists u. }
  rewrite Hf in *. exists L2. split; [done|]. cbn [y_vm y_tasks]. intros as_ va Ha Hu. rewrite <- Ha' by (by intros ->). auto.
Qed.

Lemma a_image_free r d di q : runnable d di -> on_stack_page q -> a_image r d di (a_clear r a) r q = None.
Proof using.
  intros Hrn Hq. destruct (rn_stack _ _ Hrn q Hq) as [H1 H2]. unfold a_image, a_load, a_clear.
  destruct di as [d'|]; rewrite ?(decide_False (P := pages_in r _ (phdrs_of d') r q)) by (intros (_&_&Hp); by apply (H2 d')).
  all: rewrite decide_False by (by intros (_&_&?)); by rewrite decide_True.
Qed.

Section run.
Variables (pa : Z) (b : exec_copy_buf) (d : list Z) (di : option (list Z)) (args env : list (list Z)).
Hypotheses (Hrun : runnable d di) (Hroom : exec_room s0.(v_pmm) (image_cost d di)).
Hypotheses (Hargs : points b b.(eb_argv) args) (Henv : points b b.(eb_envp) env) (Hbase : 0x1000 <= b.(eb_base)).
Abbreviation B := (fun f => False \/ run pa EXEC_COPY_PAGES f).

(** Up to the new space with the image in it. *)
Lemma new_image_ok L s : working K s0 A A L s B EXEC_COPY_PAGES ->
  wp nopanic (arch_vm_create_user_address_space kernel_pml4) (fun r s1 => r <> 0 /\ (r ∉ A) /\
    wp nopanic (exec_image r d) (fun res s' => res = inr (main_info d, interp_info di) /\ exists L',
      working K s0 A (r :: A) L' s' B (EXEC_COPY_PAGES + 1 + image_cost d di) /\ shows s' r (a_image r d di (a_clear r a))) s1) s.
Proof using Hrun Hroom.
  intros Hw. eapply wp_mono; [apply (create_space_ok kernel_pml4 s A L), Hw|]. intros r s1 Hpost.
  destruct (decide (r = 0)) as [->|Hne].
  { exfalso. destruct Hpost as [(_&_&_&Hav)|(?&_)]; [|done]. pose proof (wk_avail _ _ _ _ _ _ _ _ Hw). pose proof (er_pages _ _ Hroom).
    assert (0 <= image_cost d di); [|lia]. unfold image_cost. pose proof (load_cost_nonneg (exec_bias d) (phdrs_of d)).
    destruct di as [d'|]; [pose proof (load_cost_nonneg EXEC_INTERP_LOAD_BASE (phdrs_of d'))|]; lia. }
  pose proof (working_create _ _ _ _ _ _ _ _ _ Hw Hpost Hne) as Hw1.
  destruct Hpost as [(?&_)|(_&Hr&_&_&_&Hnew)]; [done|].
  assert (Hs1 : shows s1 r (a_clear r a)).
  { intros q Hq. destruct (page_low q Hq) as (_&Hu&_). unfold a_clear. rewrite decide_True by done. split; [apply settled_none|]; by apply Hnew. }
  pose proof (er_pages _ _ Hroom). split_and!; auto.
  apply (exec_image_ok K s0 A r Hr L s1 B _ d di (a_clear r a) Hw1 Hs1 Hrun); [intros q; unfold a_clear; by rewrite decide_True|lia].
Qed.

Lemma exec_bias_word : word_ok (exec_bias d).
Proof using. unfold exec_bias, word_ok. by destruct (get16 d 16 =? ET_DYN). Qed.

Lemma strings_ok (ptrs : list Z) strs : points b ptrs strs -> storage_str b <$> ptrs = strs /\
  Forall (fun src => 0x1000 <= src) ptrs /\ forall src, src ∈ ptrs -> 0 ∉ storage_str b src.
Proof using Hbase.
  clear Hroom. intros Hp. pose proof (points_str _ _ _ Hp) as Hst. split_and!; [done| |].
  - eapply Forall2_Forall_l; [exact Hp|]. apply Forall_true. intros l p [? _]. lia.
  - intros src Hin. pose proof (points_zero _ _ _ Hp) as Hz. rewrite <- Hst in Hz. rewrite Forall_fmap, Forall_forall in Hz. by apply (Hz src).
Qed.

(** The last step. *)
Lemma entered_ok L s k r data t1 path t :
  working K s0 A (r :: A) L s (fun _ => False) k -> r ∉ A -> shows s r (a_exec r d di data a) -> stack_only t t1 -> t.(xt_mm).(mm_as) ∈ A ->
  stack_reads r (storage_str b) (main_info d) (Some (interp_info di)) b.(eb_argv) b.(eb_envp) (a_exec r d di data a) t1 ->
  t1.(user_argc) = zlen b.(eb_argv) ->
  entered t path args env d di r data (mkX s (exec_commit kernel_pml4 r path (main_info d) (interp_info di) t1)).
Proof using Hs Hsh Hargs Henv.
  intros Hw Hr Hsw Hto Has Hrd Hargc. destruct (space_nonzero _ _ _ _ _ _ Hs Has) as [H0 Hk].
  assert (Hmm : t1.(xt_mm) = t.(xt_mm)) by (by destruct Hto as (?&?&?&?&->)).
  constructor; cbn [x_vm x_task exec_commit xt_mm user_entry user_argc deferred_cr3 xt_sig_pending xt_sig_mask xt_sig_handlers comm user_stack]; auto.
  - apply (working_new K s0 A kernel_pml4 T L0 a eq_refl Hs Hsh L s k); auto; [done|apply elf_result_keeps|intros va Hu; by apply shows_user|].
    intros as_ v Hne. by apply a_exec_other.
  - intros fuel Hf. rewrite (Hrd fuel Hf). by rewrite (points_str _ _ _ Hargs), (points_str _ _ _ Henv).
  - by destruct (main_info d).(i_has_interp).
  - rewrite Hargc. unfold zlen. by rewrite (Forall2_length _ _ _ Hargs).
  - rewrite Hmm. apply Z.eqb_neq in H0, Hk. rewrite H0, Hk. destruct (Z.eqb_spec t.(xt_mm).(mm_as) r) as [<-|_]; done.
Qed.

Lemma exec_program_ok L x t : working K s0 A A L x.(x_vm) B EXEC_COPY_PAGES -> x.(x_task) = t -> t.(xt_mm).(mm_as) ∈ A ->
  wp nopanic (exec_program kernel_pml4 pa b d) (fun rc x' => rc = stack_result args env /\
    if rc =? 0 then exists r data, entered t b.(eb_path) args env d di r data x'
    else good kernel_pml4 K (mkSys x'.(x_vm) T) a /\ stack_only t x'.(x_task)) x.
Proof using All.
  intros Hw Ht Has. destruct (strings_ok _ _ Hargs) as (Hsa&Hla&Hza), (strings_ok _ _ Henv) as (Hse&Hle&Hze).
  unfold exec_program, xvm, free_pages. wp_steps. eapply wp_mono; [by apply (new_image_ok L)|]. intros r s1 (Hr0&Hr&Himg).
  apply Z.eqb_neq in Hr0 as Hb. rewrite Hb. wp_steps. eapply wp_mono; [exact Himg|]. clear Himg. intros res s2 (->&L2&Hw2&Hs2). wp_steps.
  assert (Hinfo : info_ok (main_info d)).
  { apply elf_result_words; [apply (proj1 (rn_bytes _ _ Hrun))|apply (eo_header _ _ (rn_elf _ _ Hrun))|]. apply exec_bias_word. }
  assert (Hii : forall i, Some (interp_info di) = Some i -> info_ok i).
  { intros i [= <-]. destruct di as [d'|]; [|by constructor]. cbn [interp_info]. apply elf_result_words; [by apply (proj2 (rn_bytes _ _ Hrun))| |lia].
    apply (eo_header _ _ (proj1 (rn_interp_elf _ _ Hrun d' eq_refl))). }
  assert (Hsp : sparse s2.(v_pmm) EXEC_PTRS_PAGES).
  { unfold sparse. rewrite (sn_pages _ _ _ _ (wk_seen _ _ _ _ _ _ _ _ Hw2)). pose proof (wk_avail _ _ _ _ _ _ _ _ Hw2). pose proof (er_ptrs _ _ Hroom). lia. }
  pose proof (er_pages _ _ Hroom) as Hpg.
  eapply wp_mono.
  { apply (stack_ok K s0 A r Hr Hr0 (storage_str b) (main_info d) (Some (interp_info di)) b.(eb_argv) b.(eb_envp) Hla Hle Hinfo Hii
      ltac:(intros src [?|?]%elem_of_app; auto) L2 (mkX s2 x.(x_task)) B _ _ Hw2 Hs2); [intros q; by apply a_image_free|done|lia]. }
  intros rc x3 (->&Hto&L3&data&Hw3&Hs3&Hrd). rewrite prepare_strings, Hsa, Hse in *. pose proof (stack_result_sign args env) as Hsg.
  destruct (working_free K s0 A _ _ _ (fun _ => False) _ _ _ Hw3 ltac:(lia) ltac:(tauto)) as [Hw4 Hsn4]. cbv zeta in Hw4, Hsn4.
  assert (Hs4 : shows (with_pmm x3.(x_vm) (pmm_free x3.(x_vm).(v_pmm) pa EXEC_COPY_PAGES)) r (a_exec r d di data a))
    by (apply (shows_seen (fun _ _ => False) (r :: A) x3.(x_vm)); auto; by constructor).
  destruct (Z.ltb_spec (stack_result args env) 0) as [Hneg|Hnn].
  - wp_steps. cbn [x_vm x_task]. eapply wp_mono; [by apply (drop_space _ _ _ r _ Hw4 Hr Hs4), a_exec_other|]. intros u s5 Hg. wp_steps. cbn [x_vm x_task].
    split; [done|]. destruct (Z.eqb_spec (stack_result args env) 0); [lia|]. split; [done|]. by rewrite <- Ht.
  - assert (H0 : stack_result args env = 0) by lia. destruct (Hrd H0) as [Hrd1 Hrd2]. unfold upd_task. wp_steps. cbn [x_vm x_task]. split; [by rewrite H0|].
    exists r, data. rewrite <- Ht in *. by eapply entered_ok; [exact Hw4|..].
Qed.
End run.
End program.

(** ** The whole call *)
Section execve.
Context `{ExecEnv}.

(** The interpreter a program asks for. *)
Definition interp_file (d : list Z) : option (list Z) :=
  if (main_info d).(i_has_interp) then resolve_interp_file (cstr (main_info d).(i_interp_path)) else None.

(** Where the strings of the call lead: an error, or a program with its path
    and its arguments. *)
Definition resolved (p : list Z) (args env : list (list Z)) : Z + (list Z * list (list Z) * list Z) :=
  if negb (length p <? Z.to_nat (EXEC_MAX_PATH_LEN - 1))%nat then inl (-1) else
  if negb (call_fits args env) then inl (- E2BIG) else
  script_run 4 p args (zlen (packed args ++ packed env)).

(** The program, unless its strings do not fit on the stack. *)
Definition exec_outcome (p : list Z) (args env : list (list Z)) : Z + (list Z * list (list Z) * list Z) :=
  match resolved p args env with
  | inl e => inl e
  | inr (path, args, d) => if stack_result args env =? 0 then inr (path, args, d) else inl (stack_result args env)
  end.

(** The program the strings lead to can be run, and there is room. *)
Definition exec_ready (p : list Z) (args env : list (list Z)) (m : pmm) : Prop :=
  sparse m EXEC_COPY_PAGES /\
  forall path args' d, resolved p args env = inr (path, args', d) ->
    runnable d (interp_file d) /\ exec_room m (image_cost d (interp_file d)).

Section call.
Variables (kernel_pml4 : Z) (K : list Z) (s0 : vmst) (T : list mm_task) (L0 : list Z) (a : amem).
Hypotheses (Hs : sys_inv kernel_pml4 K s0 T L0) (Hsh : presents s0 (spaces T) a).
Abbreviation A := (spaces T).

Lemma caller_byte L s B k as_ va v : working K s0 A A L s B k -> as_ ∈ A -> abyte a as_ va = Some v -> kernel_read s as_ va = Some v.
Proof using Hs Hsh.
  intros Hw Ha Hb. unfold abyte in Hb. case_decide as Hva; [|done]. pose proof (user_low va Hva) as Hu.
  pose proof (old_settled K s0 A kernel_pml4 T L0 a eq_refl Hs Hsh s as_ va (wk_seen _ _ _ _ _ _ _ _ Hw) Ha Hu) as Hset.
  pose proof (settled_byte _ _ _ _ Hset) as Hub. rewrite key_page, Hb in Hub by lia.
  assert (Hh : huge s.(v_mem) as_ va = None).
  { rewrite (sn_huge _ _ _ _ (wk_seen _ _ _ _ _ _ _ _ Hw)) by auto. by apply (si_small _ _ _ _ _ Hs). }
  unfold kernel_read. destruct (Z.leb_spec 0 va), (Z.ltb_spec va (2 ^ 47)); try lia. cbn [andb].
  pose proof (get_phys_none s A L (wk_inv _ _ _ _ _ _ _ _ Hw) as_ va Ha Hu ltac:(lia)) as Hno. rewrite get_phys_eq, Hh in *. unfold ub in Hub.
  destruct (view s.(v_mem) as_ va) as [e|]; [|done].
  destruct (Z.eqb_spec (x86_pte_phys e + va mod PAGE_SIZE) 0) as [E|_]; [by destruct (proj1 Hno E)|done].
Qed.

Lemma clear_out m pa n x : aligned pa -> ~ run pa n (page_down x) -> mclear m pa n x = m x.
Proof using.
  intros Hal Hn. unfold mclear. destruct (Z.leb_spec pa x), (Z.ltb_spec x (pa + n * PAGE_SIZE)); cbn [andb]; try done. destruct Hn.
  exists ((x - pa) / PAGE_SIZE). rewrite page_down_mod. unfold aligned in Hal.
  pose proof (Z.div_mod (x - pa) PAGE_SIZE ltac:(done)) as Hd. pose proof (Z.mod_pos_bound (x - pa) PAGE_SIZE ltac:(done)).
  rewrite Zminus_mod, Hal, Z.sub_0_r, Zmod_mod in Hd. split; [|unfold PAGE_SIZE in *; lia].
  split; [apply Z.div_pos; [lia|done]|apply Z.div_lt_upper_bound; [done|]]. unfold PAGE_SIZE in *. lia.
Qed.

Lemma copy_addr L s pa : working K s0 A A L s (fun f => False \/ run pa EXEC_COPY_PAGES f) EXEC_COPY_PAGES -> 0 <= pa.
Proof using.
  intros Hw. destruct (wk_buffer _ _ _ _ _ _ _ _ Hw pa) as (Hal&_&_&Hr); [right; exists 0; lia|].
  destruct (inv_pmm_ok _ _ _ (wk_inv _ _ _ _ _ _ _ _ Hw)) as [Hwf _].
  destruct (get_ref_pos _ pa Hwf Hal ltac:(lia)) as (q&Hq&->&_). pose proof (wf_range _ Hwf). unfold page_addr, PAGE_SIZE. lia.
Qed.

Lemma abandon_ok L x pa (e : Z) : working K s0 A A L x.(x_vm) (fun f => False \/ run pa EXEC_COPY_PAGES f) EXEC_COPY_PAGES ->
  wp nopanic (xvm (free_pages pa EXEC_COPY_PAGES) ;; mret e) (fun rc x' =>
    rc = e /\ good kernel_pml4 K (mkSys x'.(x_vm) T) a /\ (x'.(x_task) = x.(x_task) \/ stack_only x.(x_task) x'.(x_task))) x.
Proof using Hs Hsh.
  intros Hw. unfold xvm, free_pages. wp_steps. cbn [x_vm x_task].
  destruct (working_free K s0 A _ _ _ (fun _ => False) _ _ _ Hw ltac:(lia) ltac:(tauto)) as [Hw1 _]. cbv zeta in Hw1.
  split_and!; auto. by eapply (working_back K s0 A kernel_pml4 T L0 a eq_refl Hs Hsh).
Qed.

(** After the buffer is there. *)
Lemma copied_to L x pa fuel path argv envp p args env (Q : Z -> xst -> Prop) :
  let U := abyte a x.(x_task).(xt_mm).(mm_as) in
  working K s0 A A L x.(x_vm) (fun f => False \/ run pa EXEC_COPY_PAGES f) EXEC_COPY_PAGES ->
  x.(x_task).(xt_mm).(mm_as) ∈ A -> 0 <= g_hhdm_offset ->
  0x1000 <= path -> read_str U fuel path = Some p -> reads_arg U fuel argv args -> reads_arg U fuel envp env ->
  (forall e, resolved p args env = inl e -> wp nopanic (xvm (free_pages pa EXEC_COPY_PAGES) ;; mret e) Q x) ->
  (forall b args' d, resolved p args env = inr (b.(eb_path), args', d) -> points b b.(eb_argv) args' -> points b b.(eb_envp) env ->
     0x1000 <= b.(eb_base) -> wp nopanic (exec_program kernel_pml4 pa b d) Q x) ->
  wp nopanic (r ← exec_strings pa path argv envp;
    match r with
    | inl e => xvm (free_pages pa EXEC_COPY_PAGES) ;; mret e
    | inr b => match resolve_script 4 b with
               | inl e => xvm (free_pages pa EXEC_COPY_PAGES) ;; mret e
               | inr (b, d) => exec_program kernel_pml4 pa b d
               end
    end) Q x.
Proof using Hs Hsh.
  intros U Hw Has Hoff Hlo Hp Ha He HQe HQ.
  pose proof (fun va v => caller_byte _ _ _ _ x.(x_task).(xt_mm).(mm_as) va v Hw Has) as Hcb. wp_steps.
  eapply wp_mono.
  { apply (exec_strings_ok x fuel pa path argv envp p args env Hlo); [by apply (more_str _ _ Hcb)|by apply (more_arg _ _ Hcb)..]. }
  intros res x1 [-> ->]. unfold resolved in *.
  destruct (length p <? _)%nat; cbn [negb] in *; [|by apply HQe].
  destruct (call_fits args env); cbn [negb] in *; [|by apply HQe].
  set (b := call_buf (g_hhdm_offset + pa + 50204) p args env).
  destruct (call_buf_points (g_hhdm_offset + pa + 50204) p args env) as [Hpa Hpe]; [by eapply arg_zero..|]. fold b in Hpa, Hpe.
  pose proof (resolve_script_ok 4 b args Hpa ltac:(by eapply read_str_zero)) as Hrs.
  change (eb_used b) with (zlen (packed args ++ packed env)) in Hrs. change (eb_path b) with p in Hrs.
  destruct (script_run 4 p args _) as [e|[[path' args'] d]] eqn:Esc; [rewrite Hrs; by apply HQe|].
  destruct Hrs as (b'&->&<-&Hpa'&Hev&Hbase&st&Hst). apply (HQ b' args' d); auto.
  - rewrite Hev. by apply (points_grow b b' _ _ st).
  - rewrite Hbase. cbn. pose proof (copy_addr _ _ _ Hw). lia.
Qed.
End call.

(** The address space of an earlier call, if there is one to go. *)
Definition reaps (kernel_pml4 : Z) (t : exec_task) : bool :=
  negb (t.(deferred_cr3) =? 0) && negb (t.(deferred_cr3) =? t.(xt_mm).(mm_as)) && negb (t.(deferred_cr3) =? kernel_pml4).
Definition tasks_left (kernel_pml4 : Z) (t : exec_task) (T : list mm_task) : list mm_task :=
  if reaps kernel_pml4 t then filter (fun u => u.(mm_as) <> t.(deferred_cr3)) T else T.

Lemma reap_ok kernel_pml4 K x T a :
  good kernel_pml4 K (mkSys x.(x_vm) T) a -> (reaps kernel_pml4 x.(x_task) = true -> x.(x_task).(deferred_cr3) ∈ spaces T) ->
  wp nopanic (reap_deferred kernel_pml4) (fun _ x' =>
    good kernel_pml4 K (mkSys x'.(x_vm) (tasks_left kernel_pml4 x.(x_task) T)) a /\
    x'.(x_task) = if reaps kernel_pml4 x.(x_task) then set_deferred x.(x_task) 0 else x.(x_task)) x.
Proof using.
  intros (L&Hs&Hsh) Hin. unfold reap_deferred. wp_steps. fold (reaps kernel_pml4 x.(x_task)). unfold tasks_left.
  destruct (reaps kernel_pml4 x.(x_task)) eqn:Er; [|wp_steps; split; [by exists L|done]].
  specialize (Hin eq_refl). apply list_elem_of_fmap in Hin as (u&Hu&Hin). unfold xvm, upd_task. wp_steps. rewrite Hu.
  pose proof (exit_destroys kernel_pml4 K x.(x_vm) T L Hs u Hin) as Hd. apply wp_run in Hd as ([]&s'&Hrun&_).
  unfold wp at 1. rewrite Hrun. wp_steps. cbn [x_vm x_task]. split; [|done].
  apply (exit_refines kernel_pml4 K x.(x_vm) T L a Hs Hsh u s' Hin Hrun).
Qed.

(** Up to the program. *)
Lemma execve_to kernel_pml4 K x T a fuel path argv envp p args env (Q : Z -> xst -> Prop) :
  let U := abyte a x.(x_task).(xt_mm).(mm_as) in let T' := tasks_left kernel_pml4 x.(x_task) T in
  good kernel_pml4 K (mkSys x.(x_vm) T) a -> x.(x_task).(xt_mm).(mm_as) ∈ spaces T ->
  (reaps kernel_pml4 x.(x_task) = true -> x.(x_task).(deferred_cr3) ∈ spaces T) -> 0 <= g_hhdm_offset ->
  (forall x1, reap_deferred kernel_pml4 x = Ok (tt, x1) -> sparse x1.(x_vm).(v_pmm) EXEC_COPY_PAGES) ->
  0x1000 <= path -> read_str U fuel path = Some p -> reads_arg U fuel argv args -> reads_arg U fuel envp env ->
  (forall x1 L0 L pa x3, reap_deferred kernel_pml4 x = Ok (tt, x1) -> sys_inv kernel_pml4 K x1.(x_vm) T' L0 -> presents x1.(x_vm) (spaces T') a ->
     working K x1.(x_vm) (spaces T') (spaces T') L x3.(x_vm) (fun f => False \/ run pa EXEC_COPY_PAGES f) EXEC_COPY_PAGES ->
     x3.(x_task).(xt_mm) = x.(x_task).(xt_mm) -> x3.(x_task).(xt_mm).(mm_as) ∈ spaces T' ->
     (forall e, resolved p args env = inl e -> wp nopanic (xvm (free_pages pa EXEC_COPY_PAGES) ;; mret e) Q x3) /\
     (forall b args' d, resolved p args env = inr (b.(eb_path), args', d) -> points b b.(eb_argv) args' -> points b b.(eb_envp) env ->
        0x1000 <= b.(eb_base) -> wp nopanic (exec_program kernel_pml4 pa b d) Q x3)) ->
  wp nopanic (task_execve kernel_pml4 path argv envp) Q x.
Proof using.
  intros U T' Hg Has Hdef Hoff Hsp Hlo Hp Ha He HQ. unfold task_execve. wp_steps.
  pose proof (reap_ok kernel_pml4 K x T a Hg Hdef) as Hreap. apply wp_run in Hreap as ([]&x1&Hrun&Hg1&Ht1). fold T' in Hg1.
  unfold wp at 1. rewrite Hrun. specialize (Hsp x1 Hrun). destruct Hg1 as (L&Hs&Hsh). cbn [y_vm y_tasks] in Hs, Hsh.
  assert (Hmm : x1.(x_task).(xt_mm) = x.(x_task).(xt_mm)) by (rewrite Ht1; by destruct (reaps _ _)).
  assert (Has' : x1.(x_task).(xt_mm).(mm_as) ∈ spaces T').
  { rewrite Hmm. unfold T', tasks_left. destruct (reaps kernel_pml4 x.(x_task)) eqn:Er; [|done]. rewrite spaces_filter. apply list_elem_of_filter.
    split; [|done]. unfold reaps in Er. apply andb_true_iff in Er as [[_ Er]%andb_true_iff _]. apply negb_true_iff, Z.eqb_neq in Er. congruence. }
  pose proof (working_start K x1.(x_vm) (spaces T') kernel_pml4 T' L eq_refl Hs) as Hw. wp_steps. unfold xvm at 1. wp_steps.
  apply (wp_alloc_pages K x1.(x_vm) (spaces T') nopanic (spaces T') L x1.(x_vm) (fun _ => False) 0); auto; [lia|].
  intros pa s2 Hpa Hw2 _ _ _. apply Z.eqb_neq in Hpa as Hb. rewrite Hb. wp_step. unfold xvm at 1. do 2 wp_step. cbn [x_vm x_task].
  destruct (wk_buffer _ _ _ _ _ _ _ _ Hw2 pa) as (Hal&_); [right; exists 0; lia|].
  destruct (working_fill _ _ _ _ _ _ _ _ (mclear s2.(v_mem) pa EXEC_COPY_PAGES) Hw2) as [Hw3 _].
  { intros y Hy. apply clear_out; [done|]. intros Hr. apply Hy. by right. }
  assert (HU : U = abyte a x1.(x_task).(xt_mm).(mm_as)) by (unfold U; by rewrite Hmm). rewrite HU in *.
  destruct (HQ x1 L L pa (mkX (with_mem s2 (mclear s2.(v_mem) pa EXEC_COPY_PAGES)) x1.(x_task))) as [HQ1 HQ2]; auto.
  by apply (copied_to kernel_pml4 K x1.(x_vm) T' L a Hs Hsh L _ pa fuel path argv envp p args env Q).
Qed.

Lemma execve_ok kernel_pml4 K x T a fuel path argv envp p args env :
  let U := abyte a x.(x_task).(xt_mm).(mm_as) in let T' := tasks_left kernel_pml4 x.(x_task) T in
  good kernel_pml4 K (mkSys x.(x_vm) T) a -> x.(x_task).(xt_mm).(mm_as) ∈ spaces T ->
  (reaps kernel_pml4 x.(x_task) = true -> x.(x_task).(deferred_cr3) ∈ spaces T) -> 0 <= g_hhdm_offset ->
  (forall x1, reap_deferred kernel_pml4 x = Ok (tt, x1) -> exec_ready p args env x1.(x_vm).(v_pmm)) ->
  0x1000 <= path -> read_str U fuel path = Some p -> reads_arg U fuel argv args -> reads_arg U fuel envp env ->
  wp nopanic (task_execve kernel_pml4 path argv envp) (fun rc x' =>
    match exec_outcome p args env with
    | inl e => rc = e /\ good kernel_pml4 K (mkSys x'.(x_vm) T') a /\ x'.(x_task).(xt_mm) = x.(x_task).(xt_mm)
    | inr (path', args', d) => rc = 0 /\ exists r data, entered kernel_pml4 K T' a x.(x_task) path' args' env d (interp_file d) r data x'
    end) x.
Proof using.
  intros U T' Hg Has Hdef Hoff Hrdy Hlo Hp Ha He. apply (execve_to kernel_pml4 K x T a fuel path argv envp p args env); auto.
  { intros x1 Hx1. apply (Hrdy x1 Hx1). }
  intros x1 L0 L pa x3 Hx1 Hs Hsh Hw Hmm Has'. fold T' in Hs, Hsh, Hw, Has'. unfold exec_outcome. destruct (Hrdy x1 Hx1) as [_ Hrun]. split.
  - intros e ->. eapply wp_mono; [by apply (abandon_ok kernel_pml4 K x1.(x_vm) T' L0 a Hs Hsh L)|].
    intros rc x' (->&Hgood&Ht). split_and!; auto. rewrite <- Hmm. by destruct Ht as [->|(?&?&?&?&->)].
  - intros b args' d Hres Hpa Hpe Hbase. rewrite Hres. destruct (Hrun _ _ _ Hres) as [Hok Hroom]. eapply wp_mono.
    { by apply (exec_program_ok kernel_pml4 K x1.(x_vm) T' L0 a Hs Hsh pa b d (interp_file d) args' env) with (L := L) (t := x3.(x_task)). }
    intros rc x' [-> Hend]. destruct (stack_result args' env =? 0) eqn:E0.
    + apply Z.eqb_eq in E0. split; [done|]. destruct Hend as (r&data&[]). exists r, data. constructor; auto. by rewrite <- Hmm.
    + destruct Hend as [? Ht]. split_and!; auto. rewrite <- Hmm. by destruct Ht as (?&?&?&?&->).
Qed.
End execve.

(** ** An interpreter that is missing *)
(** A page in use that neither the kernel nor a process knows of. *)
Record lost (K A : list Z) (s : vmst) (f : Z) : Prop := {
  lo_used : aligned f /\ 0 < pmm_get_ref s.(v_pmm) f;
  lo_kernel : f ∉ K;
  lo_table : ~ is_table s.(v_mem) A f;
  lo_page : forall as_ va e, as_ ∈ A -> user va -> view s.(v_mem) as_ va = Some e -> x86_pte_phys e <> f;
}.

Lemma space_lost K s0 A L s B k r : working K s0 A (r :: A) L s B k -> r ∉ A -> lost K A s r.
Proof.
  intros Hw Hr. pose proof (wk_inv _ _ _ _ _ _ _ _ Hw) as Hi. assert (Hin : r ∈ r :: A) by constructor.
  assert (Ht : is_table s.(v_mem) (r :: A) r) by (exists r, 0, 0%nat; split_and!; [done|by apply user_low|lia|done]).
  destruct (pi_tab _ _ _ Hi r Ht) as [Hal H1]. constructor.
  - split; [done|lia].
  - intros HK. by destruct (proj2 (wk_stray _ _ _ _ _ _ _ _ Hw r Hal) (or_introl HK)) as (_&?&_).
  - intros (as_&va&n&Ha&Hu&Hn&Hta). destruct (pi_inj _ _ _ Hi r 0 0%nat as_ va n r) as [-> _]; auto using list_elem_of_further, user_low with lia.
  - intros as_ va e Ha Hu Hv Hph. assert (Ha' : as_ ∈ r :: A) by (by apply list_elem_of_further).
    destruct (frame_plain s (r :: A) L Hi as_ va e r Ha' Hu Hv) as (Hp&_&Hnt); [rewrite Hph; unfold in_frame, PAGE_SIZE; lia|].
    apply Hnt. by rewrite Hp, Hph.
Qed.

Section missing.
Context `{ExecEnv}.

(** A program whose interpreter cannot be found. *)
Record orphan (d : list Z) : Prop := {
  or_elf : elf_ok d (exec_bias d);
  or_entry : (main_info d).(i_entry) <> 0;
  or_interp : (main_info d).(i_has_interp) = true /\ resolve_interp_file (cstr (main_info d).(i_interp_path)) = None;
}.

Lemma orphan_program kernel_pml4 K s0 A L x pa b d : orphan d ->
  working K s0 A A L x.(x_vm) (fun f => False \/ run pa EXEC_COPY_PAGES f) EXEC_COPY_PAGES ->
  EXEC_COPY_PAGES + 1 + load_cost (exec_bias d) (phdrs_of d) <= avail s0.(v_pmm) ->
  wp nopanic (exec_program kernel_pml4 pa b d) (fun rc x' =>
    rc = -1 /\ x'.(x_task) = x.(x_task) /\ exists r, lost K A x'.(x_vm) r) x.
Proof.
  intros [Hok Hne [Hi Hno]] Hw Hroom. unfold exec_program, xvm, free_pages, exec_image. wp_steps.
  pose proof (load_cost_nonneg (exec_bias d) (phdrs_of d)). pose proof (wk_avail _ _ _ _ _ _ _ _ Hw) as Hav.
  eapply wp_mono; [apply (create_space_ok kernel_pml4 x.(x_vm) A L), Hw|]. intros r s1 Hpost.
  destruct (decide (r = 0)) as [->|Hr0]; [destruct Hpost as [(_&_&_&Hav0)|(?&_)]; [lia|done]|].
  pose proof (working_create _ _ _ _ _ _ _ _ _ Hw Hpost Hr0) as Hw1. destruct Hpost as [(?&_)|(_&Hr&_&_&_&Hnew)]; [done|].
  apply Z.eqb_neq in Hr0 as Hb. rewrite Hb. wp_steps. apply wp_in_file; [lia|pose proof (eo_header _ _ Hok); lia|]. fold (exec_bias d). wp_steps.
  assert (Hs1 : shows s1 r (fun _ _ => None)).
  { intros q Hq. destruct (page_low q Hq) as (_&Hu&_). split; [apply settled_none|]; by apply Hnew. }
  eapply wp_mono; [apply (load_step K s0 A r Hr L s1 _ _ d (exec_bias d) (fun _ _ => None) Hw1 Hs1 Hok); [done|lia]|].
  intros info s2 (->&L2&Hw2&_). fold (main_info d). apply Z.eqb_neq in Hne as Hb'. rewrite Hb', Hi, Hno. cbn [negb]. wp_steps. cbn [x_vm x_task].
  split_and!; [done|done|]. exists r.
  destruct (working_free K s0 A _ _ _ (fun _ => False) _ _ _ Hw2 ltac:(lia) ltac:(tauto)) as [Hw3 _]. cbv zeta in Hw3. by apply (space_lost _ _ _ _ _ _ _ _ Hw3).
Qed.

Lemma orphan_execve kernel_pml4 K x T a fuel path argv envp p args env path' args' d :
  let U := abyte a x.(x_task).(xt_mm).(mm_as) in let T' := tasks_left kernel_pml4 x.(x_task) T in
  good kernel_pml4 K (mkSys x.(x_vm) T) a -> x.(x_task).(xt_mm).(mm_as) ∈ spaces T ->
  (reaps kernel_pml4 x.(x_task) = true -> x.(x_task).(deferred_cr3) ∈ spaces T) -> 0 <= g_hhdm_offset ->
  resolved p args env = inr (path', args', d) -> orphan d ->
  (forall x1, reap_deferred kernel_pml4 x = Ok (tt, x1) -> sparse x1.(x_vm).(v_pmm) EXEC_COPY_PAGES /\
     EXEC_COPY_PAGES + 1 + load_cost (exec_bias d) (phdrs_of d) <= avail x1.(x_vm).(v_pmm)) ->
  0x1000 <= path -> read_str U fuel path = Some p -> reads_arg U fuel argv args -> reads_arg U fuel envp env ->
  wp nopanic (task_execve kernel_pml4 path argv envp) (fun rc x' =>
    rc = -1 /\ x'.(x_task).(xt_mm) = x.(x_task).(xt_mm) /\ exists r, lost K (spaces T') x'.(x_vm) r) x.
Proof.
  intros U T' Hg Has Hdef Hoff Hres Hor Hroom Hlo Hp Ha He. apply (execve_to kernel_pml4 K x T a fuel path argv envp p args env); auto.
  { intros x1 Hx1. apply (Hroom x1 Hx1). }
  intros x1 L0 L pa x3 Hx1 Hs Hsh Hw Hmm Has'. rewrite Hres. split; [done|]. intros b args1 d1 [= _ _ <-] _ _ _.
  eapply wp_mono; [by eapply (orphan_program kernel_pml4 K x1.(x_vm) (spaces T') L x3 pa b d Hor Hw), Hroom|].
  intros rc x' (->&->&Hlost). split_and!; auto.
Qed.
End missing.
