(* ===== verification/ExecExample.v ===== *)
(** * A machine on which a program is started

    1024 pages, a process that has the path of a program in its memory, and
    two small programs: one that runs, and one whose interpreter is not
    there. *)
From S2P Require Import Prelude State Pmm Pte VmCow Bytes Vmm PtWalk PtInv PtGrow PtMap Mmap PtOps PtSpace PtCopy PtMask PtClone.
From S2P Require Import PtFree PtDestroy PtFault MmapOk MmapCalls MmapTheorems MremapOk VmSpec VmSystem VmRefine VmExample.
From S2P Require Import PtBytes PmmRuns Elf ElfOk Exec ExecStack ExecStart ExecRead ExecArgs ExecWork ExecSpace ExecOk.

(** ** Programs *)
(** One page at 0x400000, which is the whole file. *)
Definition tiny_elf : list Z :=
  [127; 69; 76; 70; 2; 1; 1; 0] ++ replicate 8 0 ++ le_bytes 2 2 ++ le_bytes 2 62 ++ le_bytes 4 1 ++ le_bytes 8 0x400078 ++
  le_bytes 8 64 ++ le_bytes 8 0 ++ le_bytes 4 0 ++ le_bytes 2 64 ++ le_bytes 2 56 ++ le_bytes 2 1 ++ le_bytes 2 0 ++ le_bytes 2 0 ++ le_bytes 2 0 ++
  (le_bytes 4 1 ++ le_bytes 4 5 ++ le_bytes 8 0 ++ le_bytes 8 0x400000 ++ le_bytes 8 0x400000 ++ le_bytes 8 122 ++ le_bytes 8 122 ++ le_bytes 8 4096) ++
  [0xEB; 0xFE].

(** The same with the interpreter "/x". *)
Definition orphan_elf : list Z :=
  [127; 69; 76; 70; 2; 1; 1; 0] ++ replicate 8 0 ++ le_bytes 2 2 ++ le_bytes 2 62 ++ le_bytes 4 1 ++ le_bytes 8 0x400078 ++
  le_bytes 8 64 ++ le_bytes 8 0 ++ le_bytes 4 0 ++ le_bytes 2 64 ++ le_bytes 2 56 ++ le_bytes 2 2 ++ le_bytes 2 0 ++ le_bytes 2 0 ++ le_bytes 2 0 ++
  (le_bytes 4 1 ++ le_bytes 4 5 ++ le_bytes 8 0 ++ le_bytes 8 0x400000 ++ le_bytes 8 0x400000 ++ le_bytes 8 179 ++ le_bytes 8 179 ++ le_bytes 8 4096) ++
  (le_bytes 4 3 ++ le_bytes 4 4 ++ le_bytes 8 176 ++ le_bytes 8 0 ++ le_bytes 8 0 ++ le_bytes 8 3 ++ le_bytes 8 3 ++ le_bytes 8 1) ++
  [47; 120; 0].

(** The file named "*" is [d]. *)
Definition ex_env (d : list Z) : ExecEnv := {|
  fs_get_file_data := fun p => if bool_decide (p = [42]) then Some d else None; g_hhdm_offset := 0xffff800000000000 |}.

Definition elf_okb (d : list Z) (load_bias : Z) : bool :=
  bool_decide (take 4 d = ELFMAG) && (EHDR_SIZE <=? zlen d) &&
  ((0 <=? (ehdr_of d).(e_phoff)) && ((ehdr_of d).(e_phoff) + PHDR_SIZE * (ehdr_of d).(e_phnum) <=? zlen d)) &&
  forallb (fun ph =>
    (negb (ph.(p_type) =? PT_LOAD) ||
      (seg_start load_bias ph + ph.(p_memsz) <=? 2 ^ 47) && ((0 <=? ph.(p_filesz)) && (ph.(p_filesz) <=? ph.(p_memsz))) &&
      (0 <=? ph.(p_offset)) && (ph.(p_offset) + ph.(p_filesz) <=? zlen d)) &&
    (negb (ph.(p_type) =? PT_INTERP) || (0 <=? ph.(p_offset)) && (ph.(p_offset) + Z.min ph.(p_filesz) 255 <=? zlen d))) (phdrs_of d).

Lemma elf_okb_ok d load_bias : elf_okb d load_bias = true -> elf_ok d load_bias.
Proof.
  unfold elf_okb. rewrite !andb_true_iff, !Z.leb_le, bool_decide_eq_true, forallb_forall. intros (((Hm&Hh)&Hp)&Hall). constructor; auto.
  apply Forall_forall. intros ph Hin. apply list_elem_of_In, Hall in Hin. rewrite andb_true_iff, !orb_true_iff, !negb_true_iff, !Z.eqb_neq in Hin.
  destruct Hin as [H1 H2]. split.
  - intros Ht. destruct H1 as [|H1]; [done|]. rewrite !andb_true_iff, !Z.leb_le in H1. destruct H1 as (((?&?)&?)&?). by constructor.
  - intros Ht. destruct H2 as [|H2]; [done|]. by rewrite !andb_true_iff, !Z.leb_le in H2.
Qed.

Lemma tiny_ok : elf_ok tiny_elf 0.
Proof. apply elf_okb_ok. by vm_compute. Qed.
Lemma orphan_ok : elf_ok orphan_elf 0.
Proof. apply elf_okb_ok. by vm_compute. Qed.

Lemma tiny_page q : 0 <= q < 2 ^ 35 -> has_page tiny_elf 0 q -> q = 0x400.
Proof.
  intros Hq Hp. unfold has_page, segs_in in Hp. destruct (filter _ _) as [|ph l] eqn:Ef; [done|].
  assert (Hin : ph ∈ ph :: l) by constructor. rewrite <- Ef in Hin. apply list_elem_of_filter in Hin as [Hc Hin].
  assert (E : phdrs_of tiny_elf = [mkPhdr 1 5 0 0x400000 122 122 4096]) by (by vm_compute). rewrite E in Hin. apply list_elem_of_singleton in Hin. clear Ef E.
  assert (Hseg : seg_ok tiny_elf 0 ph) by (rewrite Hin; constructor; vm_compute; split_and?; discriminate).
  apply (covers_spec tiny_elf 0 ph Hseg) in Hc; [|by rewrite Hin|done|by rewrite Hin].
  assert (Hst : seg_start 0 ph = 0x400000) by (rewrite Hin; by vm_compute). rewrite Hst in Hc. unfold PAGE_SIZE in Hc. rewrite Hin in Hc. cbn [p_memsz] in Hc. lia.
Qed.

Lemma tiny_runs : runnable (H := ex_env tiny_elf) tiny_elf (interp_file (H := ex_env tiny_elf) tiny_elf).
Proof.
  assert (Hi : interp_file (H := ex_env tiny_elf) tiny_elf = None) by (by vm_compute). rewrite Hi. constructor; try done.
  - exact tiny_ok.
  - split; [|done]. assert (Hb : forallb (fun b => (0 <=? b) && (b <? 256)) tiny_elf = true) by (by vm_compute).
    apply Forall_forall. intros b Hin. rewrite forallb_forall in Hb. apply list_elem_of_In, Hb in Hin.
    apply andb_true_iff in Hin as [?%Z.leb_le ?%Z.ltb_lt]. done.
  - intros q Hq. split; [|done].
    assert (Hb : forallb (fun q => bool_decide (~ has_page tiny_elf 0 q)) (seqZ (pn BOTTOM) N) = true) by (by vm_compute).
    rewrite forallb_forall in Hb. assert (Hin : q ∈ seqZ (pn BOTTOM) N) by (apply elem_of_seqZ; exact Hq).
    apply list_elem_of_In, Hb, bool_decide_eq_true in Hin. exact Hin.
Qed.

Lemma orphan_orphan : orphan (H := ex_env orphan_elf) orphan_elf.
Proof. constructor; [exact orphan_ok|by vm_compute|by vm_compute]. Qed.

(** ** The machine *)
Definition big0 : pmm :=
  mkPmm 0x100000 1024 0 0 0 0 0 0 (replicate 128 0) (replicate 1024 0) 0 0 0.
Definition big_vm : vmst := mkVm big0 (fun _ => 0) (fun _ _ => None).

Lemma big_inv : cow_inv big_vm [].
Proof.
  assert (Hwf : pmm_wf big0).
  { constructor; try (by vm_compute); try (vm_compute; split; discriminate).
    - apply Forall_replicate. by vm_compute.
    - apply Forall_replicate. by vm_compute. }
  constructor; try (by intros ? ?%not_elem_of_nil); try (by intros ? ? ?%not_elem_of_nil).
  - split; [exact Hwf|]. intros q Hq Hr. cbn in Hq, Hr. rewrite (zget_replicate 1024 0) in Hr by lia. lia.
  - vm_compute. discriminate.
  - split; [intros (q&Hq&_)|]; [by vm_compute in Hq|by vm_compute].
  - constructor.
Qed.

(** The kernel's table, a process, a page of its own with the string "*". *)
Definition bg_kernel : Z := run_value alloc_page big_vm 0.
Definition bg_boot : vmst := run_state alloc_page big_vm.
Definition bg_as : Z := run_value (arch_vm_create_user_address_space bg_kernel) bg_boot 0.
Definition bg_new : vmst := run_state (arch_vm_create_user_address_space bg_kernel) bg_boot.
Definition bg_task : mm_task := mkMm bg_as USER_MMAP_BASE_VADDR 0x600000.
Abbreviation bg_q := (mkMst bg_new (Some bg_task)).
Abbreviation bg_map := (sys_mmap (H := no_files) 0 4096 3 0x22 (-1) 0).
Definition bg_mapped : mst := run_state bg_map bg_q.
Abbreviation bg_task2 := (mkMm bg_as (USER_MMAP_BASE_VADDR + 4096) 0x600000).
Definition bg_va : Z := USER_MMAP_BASE_VADDR + 8.
Definition bg_vm : vmst := run_state (user_write ex_guard bg_as bg_va 42) bg_mapped.(q_vm).

Lemma bg_boot_good : good bg_kernel [bg_kernel] (mkSys bg_boot []) (fun _ _ => None).
Proof.
  assert (Hr : alloc_page big_vm = Ok (bg_kernel, bg_boot)) by (unfold bg_kernel, bg_boot; apply run_ok; by vm_compute).
  assert (He : (bg_kernel =? 0) = false) by (by vm_compute). apply Z.eqb_neq in He.
  assert (Hn : used_pages big_vm.(v_pmm) = []) by (by vm_compute).
  exact (boot_good big_vm bg_kernel bg_boot big_inv Hn Hr He).
Qed.

Lemma bg_spawn_run : arch_vm_create_user_address_space bg_kernel bg_boot = Ok (bg_as, bg_new).
Proof. unfold bg_as, bg_new. apply run_ok. by vm_compute. Qed.
Lemma bg_map_run : bg_map bg_q = Ok (USER_MMAP_BASE_VADDR, bg_mapped) /\ bg_mapped.(q_cur) = Some bg_task2.
Proof. split; [unfold bg_mapped; apply (run_ok_value _ _ _ 0)|]; by vm_compute. Qed.
Lemma bg_write_run : user_write ex_guard bg_as bg_va 42 bg_mapped.(q_vm) = Ok (Value 0, bg_vm).
Proof. unfold bg_vm. apply (run_ok_value _ _ _ (Value 1)); by vm_compute. Qed.

Section bg_run.
#[local] Existing Instance no_files.
#[local] Existing Instance no_files_laws.
Abbreviation step := (vstep bg_kernel).

Lemma bg_step1 : step bg_task (mkSys bg_boot []) (Spawn USER_MMAP_BASE_VADDR 0x600000) (Value bg_as) (mkSys bg_new [bg_task]).
Proof.
  assert (He : (bg_as =? 0) = false) by (by vm_compute).
  pose proof (step_spawn bg_kernel bg_task bg_boot [] USER_MMAP_BASE_VADDR 0x600000 bg_as bg_new (proj1 (ex_args _ _ _)) bg_spawn_run) as Hst.
  rewrite He in Hst. exact Hst.
Qed.

Lemma bg_step2 : step bg_task (mkSys bg_new [bg_task]) (Mmap 0 4096 3 0x22 (-1) 0) (Value USER_MMAP_BASE_VADDR) (mkSys bg_mapped.(q_vm) [bg_task2]).
Proof.
  assert (Hok : args_ok (Mmap 0 4096 3 0x22 (-1) 0) bg_new (spaces [bg_task]) bg_task) by (cbn; lia).
  exact (step_call bg_kernel bg_task bg_new [bg_task] 0 (Mmap 0 4096 3 0x22 (-1) 0) bg_map USER_MMAP_BASE_VADDR bg_mapped bg_task2
    eq_refl Hok eq_refl (proj1 bg_map_run) (proj2 bg_map_run)).
Qed.

Lemma bg_step3 : step bg_task2 (mkSys bg_mapped.(q_vm) [bg_task2]) (Write bg_va 42) (Value 0) (mkSys bg_vm [bg_task2]).
Proof.
  assert (Hok : args_ok (Write bg_va 42) bg_mapped.(q_vm) (spaces [bg_task2]) bg_task2) by (cbn; unfold bg_va, USER_MMAP_BASE_VADDR; lia).
  exact (step_write bg_kernel bg_task2 bg_mapped.(q_vm) [bg_task2] ex_guard bg_va 42 (Value 0) bg_vm (list_elem_of_here _ _) Hok bg_write_run).
Qed.

Lemma bg_good : exists a, good bg_kernel [bg_kernel] (mkSys bg_vm [bg_task2]) a.
Proof.
  destruct (run_good bg_kernel [bg_kernel] (mkSys bg_boot []) [(bg_task, Spawn USER_MMAP_BASE_VADDR 0x600000, Value bg_as);
    (bg_task, Mmap 0 4096 3 0x22 (-1) 0, Value USER_MMAP_BASE_VADDR); (bg_task2, Write bg_va 42, Value 0)] (mkSys bg_vm [bg_task2]) _ bg_boot_good) as (a&_&Hg).
  - apply (vrun_cons bg_kernel _ _ _ _ _ _ _ bg_step1), (vrun_cons bg_kernel _ _ _ _ _ _ _ bg_step2),
      (vrun_cons bg_kernel _ _ _ _ _ _ _ bg_step3). constructor.
  - by exists a.
Qed.
End bg_run.

(** The task that calls exec; its stack is one page. *)
Definition bg_xtask : exec_task :=
  mkXt bg_task2 (mkFaultTask (USER_STACK_TOP_VADDR - 2 * PAGE_SIZE) (USER_STACK_TOP_VADDR - PAGE_SIZE)) USER_STACK_TOP_VADDR 0 0 0 0 0 0
    0 0 [] [] [] 0 0 0 0 0 [].
Abbreviation bg_x := (mkX bg_vm bg_xtask).

Lemma good_byte k K s T a as_ va : good k K (mkSys s T) a -> as_ ∈ spaces T -> 0 <= va < 2 ^ 47 -> abyte a as_ va = ub s as_ va.
Proof.
  intros (L&Hs&Hsh) Ha Hva. pose proof (user_low va Hva) as Hu. assert (Hset : settled s as_ va (a as_ (key 4 va))).
  { split; [by apply Hsh|]. intros e Hv. by apply (si_plain _ _ _ _ _ Hs as_ va). }
  rewrite (settled_byte _ _ _ _ Hset). unfold abyte. rewrite decide_True by done. by rewrite key_page by lia.
Qed.

Lemma bg_path a : good bg_kernel [bg_kernel] (mkSys bg_vm [bg_task2]) a -> read_str (abyte a bg_as) 2 bg_va = Some [42].
Proof.
  intros Hg. assert (Hin : bg_as ∈ spaces [bg_task2]) by constructor.
  assert (Hva : 0 <= bg_va < 2 ^ 47 - 1) by (unfold bg_va, USER_MMAP_BASE_VADDR; lia).
  pose proof (good_byte _ _ _ _ _ _ bg_va Hg Hin ltac:(lia)) as H0. pose proof (good_byte _ _ _ _ _ _ (bg_va + 1) Hg Hin ltac:(lia)) as H1.
  assert (E0 : ub bg_vm bg_as bg_va = Some 42) by (by vm_compute). assert (E1 : ub bg_vm bg_as (bg_va + 1) = Some 0) by (by vm_compute).
  rewrite E0 in H0. rewrite E1 in H1. cbn [read_str]. rewrite H0. cbn [mbind option_bind Z.eqb Pos.eqb]. by rewrite H1.
Qed.

Lemma no_reap k x x1 : reaps k x.(x_task) = false -> reap_deferred k x = Ok (tt, x1) -> x1 = x.
Proof.
  intros Hr Hx. assert (Hw : wp nopanic (reap_deferred k) (fun _ x' => x' = x) x).
  { unfold reap_deferred. wp_steps. fold (reaps k x.(x_task)). rewrite Hr. by wp_steps. }
  exact (wp_done _ _ _ _ _ Hw Hx).
Qed.

Lemma bg_room : sparse bg_vm.(v_pmm) EXEC_COPY_PAGES /\ exec_room bg_vm.(v_pmm) 4 /\ avail bg_vm.(v_pmm) = 1018.
Proof.
  assert (Hp : bg_vm.(v_pmm).(g_pages) = 1024) by (by vm_compute). assert (Hav : avail bg_vm.(v_pmm) = 1018) by (by vm_compute).
  unfold sparse. rewrite Hp, Hav. split_and!; [done|constructor; unfold sparse; rewrite ?Hp, ?Hav; done|done].
Qed.

Lemma tiny_resolved : resolved (H := ex_env tiny_elf) [42] [] [] = inr ([42], [], tiny_elf) /\ stack_result [] [] = 0 /\
  image_cost tiny_elf (interp_file (H := ex_env tiny_elf) tiny_elf) = 4.
Proof. by vm_compute. Qed.
Lemma orphan_resolved : resolved (H := ex_env orphan_elf) [42] [] [] = inr ([42], [], orphan_elf) /\
  load_cost (exec_bias orphan_elf) (phdrs_of orphan_elf) = 4.
Proof. by vm_compute. Qed.

Lemma bg_reads a : good bg_kernel [bg_kernel] (mkSys bg_vm [bg_task2]) a ->
  read_str (abyte a bg_x.(x_task).(xt_mm).(mm_as)) 2 bg_va = Some [42] /\
  reads_arg (abyte a bg_x.(x_task).(xt_mm).(mm_as)) 2 0 [] /\ bg_x.(x_task).(xt_mm).(mm_as) ∈ spaces [bg_task2].
Proof. intros Hg. split_and!; [exact (bg_path a Hg)|by left|constructor]. Qed.

Lemma bg_ready x1 : reap_deferred bg_kernel bg_x = Ok (tt, x1) -> exec_ready (H := ex_env tiny_elf) [42] [] [] x1.(x_vm).(v_pmm).
Proof.
  intros Hx1. apply no_reap in Hx1 as ->; [|by vm_compute]. destruct bg_room as (Hsp&Hroom&_). destruct tiny_resolved as (Hres&_&Hcost).
  split; [exact Hsp|]. intros path args d. rewrite Hres. intros [= _ _ <-]. split; [exact tiny_runs|]. rewrite Hcost. exact Hroom.
Qed.

Lemma bg_nothing a q : good bg_kernel [bg_kernel] (mkSys bg_vm [bg_task2]) a -> 0 <= q < 2 ^ 35 -> ub bg_vm bg_as (q * PAGE_SIZE) = None -> a bg_as q = None.
Proof.
  intros Hg Hq Hub. destruct (page_low q Hq) as (Hlow&_). assert (Hin : bg_as ∈ spaces [bg_task2]) by constructor.
  pose proof (good_byte _ _ _ _ _ _ (q * PAGE_SIZE) Hg Hin Hlow) as Hb.
  rewrite Hub in Hb. unfold abyte in Hb. rewrite decide_True, Z.div_mul in Hb by done. by destruct (a bg_as q).
Qed.

Lemma good_inv k K s as_ me hb a : good k K (mkSys s [mkMm as_ me hb]) a -> exists L, pt_inv s [as_] L.
Proof. intros (L&Hs&_). exists L. exact (si_inv _ _ _ _ _ Hs). Qed.

Lemma bg_inv : exists L, pt_inv bg_vm [bg_as] L.
Proof. destruct bg_good as (a&Hg). exact (good_inv _ _ _ _ _ _ _ Hg). Qed.

Lemma bg_stack_free : unmapped bg_vm bg_as BOTTOM N.
Proof.
  assert (Hall : forallb (fun i => bool_decide (view bg_vm.(v_mem) bg_as (BOTTOM + i * PAGE_SIZE) = None) &&
    bool_decide (huge bg_vm.(v_mem) bg_as (BOTTOM + i * PAGE_SIZE) = None)) (seqZ 0 N) = true) by (by vm_compute).
  intros i Hi. rewrite forallb_forall in Hall. specialize (Hall i). rewrite <- list_elem_of_In, elem_of_seqZ in Hall.
  specialize (Hall ltac:(lia)). apply andb_true_iff in Hall as [H1%bool_decide_eq_true H2%bool_decide_eq_true]. exact (conj H1 H2).
Qed.
