(* ===== verification/ExecTheorems.v ===== *)
(** * Starting programs: the theorems

    A whole [task_execve], the ELF loader, the first stack, the growth of the
    stack, and the page that is lost when an interpreter is missing. *)
From S2P Require Import Prelude State Pmm Pte VmCow Bytes Vmm PtWalk PtInv PtGrow PtMap Mmap PtOps PtSpace PtCopy PtMask PtClone.
From S2P Require Import PtFree PtDestroy PtFault MmapOk MmapCalls MmapTheorems MremapOk VmSpec VmSystem VmRefine VmExample.
From S2P Require Import PtBytes PmmRuns Elf ElfOk Exec ExecStack ExecStart ExecRead ExecArgs ExecWork ExecSpace ExecOk ExecExample.





(** C12: the first stack is a round trip.  Whatever strings the kernel is asked
    to pass, they are refused when they do not fit ([stack_result] says
    when), and otherwise [program_start], which reads a stack as the System V
    ABI prescribes, gets exactly these arguments, this environment and this
    auxiliary vector back from the pages [prepare_user_stack_with_ptrs]
    wrote.  Only the new pages of the stack change. *)
Theorem exec_stack_roundtrip x A L as_ kstr info ii argv envp fuel :
  pt_inv x.(x_vm) A L -> as_ ∈ A -> as_ <> 0 -> unmapped x.(x_vm) as_ BOTTOM N -> 4 * N <= avail x.(x_vm).(v_pmm) ->
  Forall (fun src => 0x1000 <= src) argv -> Forall (fun src => 0x1000 <= src) envp ->
  info_ok info -> (forall i, ii = Some i -> info_ok i) -> (forall src, src ∈ argv ++ envp -> 0 ∉ kstr src) -> 2 ^ 18 <= Z.of_nat fuel ->
  exists rc x', prepare_user_stack_with_ptrs as_ kstr info ii argv envp x = Ok (rc, x') /\
    rc = stack_result (kstr <$> argv) (kstr <$> envp) /\ stack_made A L as_ x.(x_vm) x'.(x_vm) /\
    (rc = 0 -> program_start (ub x'.(x_vm) as_) fuel x'.(x_task).(user_stack) =
               Some (kstr <$> argv, kstr <$> envp, auxv_pairs info ii RANDOM)).
Proof.
  intros Hi Ha Hne Hun Hav Hla Hle Hinfo Hii Hz Hf.
  pose proof (prepare_ok kstr info ii argv envp x A L as_ Hi Ha Hne Hun Hav Hla Hle) as Hw.
  apply wp_run in Hw as (rc&x'&Hrun&->&Hm&_&Hst). rewrite prepare_strings in *. exists (stack_result (kstr <$> argv) (kstr <$> envp)), x'.
  split_and!; auto. intros H0. apply (started_reads kstr info ii argv envp x'.(x_vm) as_); auto.
  all: apply stack_result_few in H0 as [H1 H2]; unfold zlen in *; rewrite !length_fmap in *; done.
Qed.

Lemma exec_stack_roundtrip_witness : exists L x',
  pt_inv bg_vm [bg_as] L /\ stack_made [bg_as] L bg_as bg_vm x'.(x_vm) /\
  prepare_user_stack_with_ptrs bg_as (fun _ => [104; 105]) no_info None [0x1000] [0x2000; 0x3000] bg_x = Ok (0, x') /\
  program_start (ub x'.(x_vm) bg_as) (Z.to_nat (2 ^ 18)) x'.(x_task).(user_stack) =
    Some ([[104; 105]], [[104; 105]; [104; 105]], auxv_pairs no_info None RANDOM).
Proof.
  destruct bg_inv as (L&Hi0). assert (Hne : bg_as <> 0) by (vm_compute; discriminate).
  assert (Hgen : forall s as_ fuel, as_ <> 0 -> pt_inv s [as_] L -> unmapped s as_ BOTTOM N -> avail s.(v_pmm) = 1018 -> 2 ^ 18 <= Z.of_nat fuel ->
    exists x', pt_inv s [as_] L /\ stack_made [as_] L as_ s x'.(x_vm) /\
      prepare_user_stack_with_ptrs as_ (fun _ => [104; 105]) no_info None [0x1000] [0x2000; 0x3000] (mkX s bg_xtask) = Ok (0, x') /\
      program_start (ub x'.(x_vm) as_) fuel x'.(x_task).(user_stack) =
        Some ([[104; 105]], [[104; 105]; [104; 105]], auxv_pairs no_info None RANDOM)).
  { intros s as_ fuel Has Hi Hun Hav Hf.
    destruct (exec_stack_roundtrip (mkX s bg_xtask) [as_] L as_ (fun _ => [104; 105]) no_info None [0x1000] [0x2000; 0x3000] fuel Hi)
      as (rc&x'&Hrun&Hrc&Hm&Hrd); try done.
    - constructor.
    - cbn [x_vm]. rewrite Hav. discriminate.
    - by repeat constructor.
    - by repeat constructor.
    - intros src _ [?|[?|?%not_elem_of_nil]%elem_of_cons]%elem_of_cons; done.
    - assert (H0 : rc = 0) by (rewrite Hrc; by vm_compute). rewrite H0 in Hrun. specialize (Hrd H0). exists x'. by split_and!. }
  exists L. apply (Hgen bg_vm bg_as (Z.to_nat (2 ^ 18)) Hne Hi0 bg_stack_free (proj2 (proj2 bg_room))). by rewrite Z2Nat.id.
Defined.

(** C13: the stack grows within its bounds and nowhere else.  A fault below the
    bottom and not more than [USER_STACK_MAX_PAGES] pages below the top maps
    pages of zeroes, writable and not executable, from the faulting page up
    to the bottom without a gap; the stack never has more than
    [USER_STACK_MAX_PAGES] pages.  Every other fault is refused and changes
    nothing. *)
Theorem stack_growth_bounded kernel_pml4 K x T a t fault_addr :
  let as_ := t.(xt_mm).(mm_as) in let n := grow_pages t fault_addr in
  good kernel_pml4 K (mkSys x.(x_vm) T) a -> x.(x_task) = t -> t.(xt_mm) ∈ T -> stack_wf t -> 0 <= fault_addr < 2 ^ 64 ->
  (stack_fault t fault_addr -> a_free as_ (page_down fault_addr) n a /\ 4 * n <= avail x.(x_vm).(v_pmm)) ->
  exists rc x', task_grow_user_stack fault_addr x = Ok (rc, x') /\
    if decide (stack_fault t fault_addr)
    then rc = 0 /\ good kernel_pml4 K (mkSys x'.(x_vm) T) (a_map as_ (page_down fault_addr) n true false zeroes a) /\
         x'.(x_task) = grown_task t (page_down fault_addr) /\
         (t.(user_stack_top) - x'.(x_task).(xt_stack).(user_stack_bottom)) / PAGE_SIZE <= USER_STACK_MAX_PAGES /\ stack_wf x'.(x_task)
    else rc = -1 /\ x' = x.
Proof.
  intros as_ n Hg Ht Hin Hwf Hfa Hfree. pose proof (grow_refines kernel_pml4 K x T a t fault_addr Hg Ht Hin Hwf Hfa Hfree) as Hw.
  apply wp_run in Hw as (rc&x'&Hrun&Hend). exists rc, x'. split; [done|]. case_decide; [|done]. destruct Hend as (->&Hg'&Ht'&Hwf'). split_and!; auto.
  pose proof (sw_pages _ Hwf') as Hpg. rewrite Ht' in *. cbn in *. apply Z.div_le_upper_bound; [done|]. unfold PAGE_SIZE in *. lia.
Qed.

(** The fault of [bg_xtask] one page below its stack. *)
Definition bg_fault : Z := USER_STACK_TOP_VADDR - PAGE_SIZE - 100.

Lemma stack_growth_bounded_witness : exists a x',
  task_grow_user_stack bg_fault bg_x = Ok (0, x') /\ x'.(x_task) = grown_task bg_xtask (USER_STACK_TOP_VADDR - 2 * PAGE_SIZE) /\
  good bg_kernel [bg_kernel] (mkSys x'.(x_vm) [bg_task2]) (a_map bg_as (USER_STACK_TOP_VADDR - 2 * PAGE_SIZE) 1 true false zeroes a).
Proof.
  destruct bg_good as (a&Hg0). assert (Hnone : a bg_as (2 ^ 35 - 3) = None) by (apply (bg_nothing a _ Hg0); [lia|by vm_compute]).
  assert (Hgen : forall s, good bg_kernel [bg_kernel] (mkSys s [bg_task2]) a -> avail s.(v_pmm) = 1018 -> exists x',
    task_grow_user_stack bg_fault (mkX s bg_xtask) = Ok (0, x') /\ x'.(x_task) = grown_task bg_xtask (USER_STACK_TOP_VADDR - 2 * PAGE_SIZE) /\
    good bg_kernel [bg_kernel] (mkSys x'.(x_vm) [bg_task2]) (a_map bg_as (USER_STACK_TOP_VADDR - 2 * PAGE_SIZE) 1 true false zeroes a)).
  { intros s Hg Hav.
    destruct (stack_growth_bounded bg_kernel [bg_kernel] (mkX s bg_xtask) [bg_task2] a bg_xtask bg_fault Hg eq_refl) as (rc&x'&Hrun&Hend).
    - constructor.
    - constructor; [split; [done|by vm_compute]|split; [done|by vm_compute]|by vm_compute].
    - by vm_compute.
    - intros _. cbn [x_vm]. rewrite Hav. split; [|by vm_compute]. intros v Hv. change (pn (page_down bg_fault)) with (2 ^ 35 - 3) in Hv.
      change (grow_pages bg_xtask bg_fault) with 1 in Hv. replace v with (2 ^ 35 - 3) by lia. exact Hnone.
    - destruct (decide (stack_fault bg_xtask bg_fault)) as [_|Hn]; [|exfalso; apply Hn; split; [vm_compute; discriminate|by vm_compute]]. destruct Hend as (->&Hg'&Ht'&_). exists x'. split; [exact Hrun|]. split; [exact Ht'|exact Hg']. }
  exists a. exact (Hgen bg_vm Hg0 (proj2 (proj2 bg_room))).
Defined.


