(* ===== verification/Pipe.v ===== *)
(** * Pipes (include/fs.h, kernel/fs.c)

    A pipe is a ring of 4096 bytes, the number of its open ends, and two
    fixed arrays of tasks that wait, one for each direction.  A read or a
    write is a loop around [kernel_yield]; one pass of it, from taking the
    lock of the pipe to giving it up, is one definition.  The ring is shown
    to be a queue of bytes, the arrays to be sets. *)
From S2P Require Import Prelude State Task.

Abbreviation PIPE_BUF_SIZE := 4096.
Abbreviation FS_WAITQ_MAX := 4%nat.
Abbreviation PIPE_END_READ := 1.
Abbreviation PIPE_END_WRITE := 2.
Abbreviation EPIPE := 32.

(** ** Tasks that wait *)

(** The slots of [fs_waitq_t]; 0 is a free one. *)
Abbreviation fs_waitq_t := (list Z) (only parsing).

Definition fs_waitq_add (q : fs_waitq_t) (t : Z) : Z * fs_waitq_t :=
  if t =? 0 then (0, q) else
  if bool_decide (t ∈ q) then (1, q) else
  match list_find (fun x => x = 0) q with
  | Some (i, _) => (1, <[i := t]> q)
  | None => (0, q)
  end.

Definition fs_waitq_remove (q : fs_waitq_t) (t : Z) : fs_waitq_t :=
  if t =? 0 then q else (fun x => if x =? t then 0 else x) <$> q.

(** The tasks in the slots, at most [max] of them, and the emptied slots. *)
Definition fs_waitq_take_all (q : fs_waitq_t) (max : nat) : list Z * fs_waitq_t :=
  (take max (filter (fun x => x <> 0) q), (fun _ => 0) <$> q).

Definition fs_waitq_init : fs_waitq_t := replicate FS_WAITQ_MAX 0.

(** ** The pipe *)
Record pipe_t := mkPipe {
  p_buffer : list Z; read_pos : Z; write_pos : Z; p_count : Z;
  p_refs : Z; p_readers : Z; p_writers : Z;
  read_wq : fs_waitq_t; write_wq : fs_waitq_t }.

Definition set_ring (p : pipe_t) (b : list Z) (r w n : Z) : pipe_t :=
  mkPipe b r w n p.(p_refs) p.(p_readers) p.(p_writers) p.(read_wq) p.(write_wq).
Definition set_read_wq (p : pipe_t) (q : fs_waitq_t) : pipe_t :=
  mkPipe p.(p_buffer) p.(read_pos) p.(write_pos) p.(p_count) p.(p_refs) p.(p_readers) p.(p_writers) q p.(write_wq).
Definition set_write_wq (p : pipe_t) (q : fs_waitq_t) : pipe_t :=
  mkPipe p.(p_buffer) p.(read_pos) p.(write_pos) p.(p_count) p.(p_refs) p.(p_readers) p.(p_writers) p.(read_wq) q.
Definition set_ends (p : pipe_t) (n r w : Z) : pipe_t :=
  mkPipe p.(p_buffer) p.(read_pos) p.(write_pos) p.(p_count) n r w p.(read_wq) p.(write_wq).

(** What [fs_pipe] makes of two fresh pages; [b] is what they held. *)
Definition new_pipe (b : list Z) : pipe_t := mkPipe b 0 0 0 2 1 1 fs_waitq_init fs_waitq_init.

(** The bytes of [src] that fit go in; the others are left. *)
Fixpoint pipe_put (p : pipe_t) (src : list Z) : pipe_t * list Z :=
  match src with
  | [] => (p, [])
  | b :: src' =>
      if p.(p_count) <? PIPE_BUF_SIZE then
        pipe_put (set_ring p (zset p.(p_buffer) p.(write_pos) b) p.(read_pos) (u32 (p.(write_pos) + 1) mod PIPE_BUF_SIZE) (u32 (p.(p_count) + 1))) src'
      else (p, src)
  end.

(** [n] bytes come out. *)
Fixpoint pipe_get (p : pipe_t) (n : nat) : list Z * pipe_t :=
  match n with
  | O => ([], p)
  | S n =>
      let b := zget p.(p_buffer) p.(read_pos) in
      let '(l, p) := pipe_get (set_ring p p.(p_buffer) (u32 (p.(read_pos) + 1) mod PIPE_BUF_SIZE) p.(write_pos) (u32 (p.(p_count) - 1))) n in
      (b :: l, p)
  end.

(** ** Passes of the loops *)

(** A pipe and the tasks. *)
Record pst := mkPst { q_sc : ss; q_pipe : pipe_t }.
Abbreviation P := (ST pst).
Definition ptasks {A} (m : M A) : P A := lift q_sc (fun w s => mkPst s w.(q_pipe)) m.
Definition upd_pipe (f : pipe_t -> pipe_t) : P unit := modify (fun w => mkPst w.(q_sc) (f w.(q_pipe))).

Inductive write_pass := WReturn (r : Z) | WSleep | WMore (readers_to_wake : list Z) (written : Z) (rest : list Z).

(** [fs_write] with the bytes [src] left and [written] done. *)
Definition pipe_write_pass (current : Z) (src : list Z) (written : Z) : P write_pass :=
  p ← gets q_pipe;
  if p.(p_readers) =? 0 then mret (WReturn (if 0 <? written then written else - EPIPE)) else
  if p.(p_count) =? PIPE_BUF_SIZE then
    _ ← ptasks (task_mark_sleeping current);
    upd_pipe (fun p => set_write_wq p (fs_waitq_add p.(write_wq) current).2);;
    mret WSleep
  else
    let '(p1, rest) := pipe_put p src in
    let '(wake, q) := fs_waitq_take_all p1.(read_wq) FS_WAITQ_MAX in
    upd_pipe (fun _ => set_read_wq p1 q);;
    mret (WMore wake (written + (zlen src - zlen rest)) rest).

(** After [kernel_yield]. *)
Definition pipe_write_back (current : Z) : P unit := upd_pipe (fun p => set_write_wq p (fs_waitq_remove p.(write_wq) current)).

Inductive read_pass := REof | RSleep | RData (data writers_to_wake : list Z).

(** [fs_read] of [count] bytes. *)
Definition pipe_read_pass (current count : Z) : P read_pass :=
  p ← gets q_pipe;
  if (p.(p_count) =? 0) && (p.(p_writers) =? 0) then mret REof else
  if p.(p_count) =? 0 then
    _ ← ptasks (task_mark_sleeping current);
    upd_pipe (fun p => set_read_wq p (fs_waitq_add p.(read_wq) current).2);;
    mret RSleep
  else
    let to_read := if p.(p_count) <? count then p.(p_count) else count in
    let '(data, p1) := pipe_get p (Z.to_nat to_read) in
    let '(wake, q) := fs_waitq_take_all p1.(write_wq) FS_WAITQ_MAX in
    upd_pipe (fun _ => set_write_wq p1 q);;
    mret (RData data wake).

Definition pipe_read_back (current : Z) : P unit := upd_pipe (fun p => set_read_wq p (fs_waitq_remove p.(read_wq) current)).

(** [fs_release_pipe_file], up to the release of the lock: the tasks to wake,
    and whether the pages go back. *)
Definition pipe_release (p : pipe_t) (aux0 : Z) : list Z * bool * pipe_t :=
  let writers := if negb (Z.land aux0 PIPE_END_WRITE =? 0) && (0 <? p.(p_writers)) then p.(p_writers) - 1 else p.(p_writers) in
  let readers := if negb (Z.land aux0 PIPE_END_READ =? 0) && (0 <? p.(p_readers)) then p.(p_readers) - 1 else p.(p_readers) in
  let p := set_ends p (p.(p_refs) - 1) readers writers in
  let '(wr, qr) := fs_waitq_take_all p.(read_wq) FS_WAITQ_MAX in
  let '(ww, qw) := fs_waitq_take_all p.(write_wq) FS_WAITQ_MAX in
  (wr ++ ww, p.(p_refs) =? 0, set_write_wq (set_read_wq p qr) qw).

(** The state is read without a lock. *)
Definition pipe_wake_task (me waiter : Z) : M unit :=
  if waiter =? 0 then mret () else
  s ← getS;
  match (s.(tk) waiter).(state) with
  | TASK_SLEEPING | TASK_IO_WAIT => _ ← task_wake me waiter; mret ()
  | _ => mret ()
  end.

(** ** The ring is a queue *)

(** The bytes in the pipe, oldest first. *)
Definition contents (p : pipe_t) : list Z :=
  (fun i => zget p.(p_buffer) ((p.(read_pos) + i) mod PIPE_BUF_SIZE)) <$> seqZ 0 p.(p_count).

Record pipe_wf (p : pipe_t) : Prop := {
  pw_buffer : zlen p.(p_buffer) = PIPE_BUF_SIZE;
  pw_read : 0 <= p.(read_pos) < PIPE_BUF_SIZE;
  pw_write : p.(write_pos) = (p.(read_pos) + p.(p_count)) mod PIPE_BUF_SIZE;
  pw_count : 0 <= p.(p_count) <= PIPE_BUF_SIZE }.

Lemma zlen_contents p : pipe_wf p -> zlen (contents p) = p.(p_count).
Proof. intros Hw. unfold contents, zlen. rewrite length_fmap, length_seqZ. pose proof (pw_count _ Hw). lia. Qed.

Lemma new_pipe_wf b : zlen b = PIPE_BUF_SIZE -> pipe_wf (new_pipe b).
Proof. intros Hb. split; cbn; [done|lia|done|lia]. Qed.

(** Two offsets below the size are the same place only if they are equal. *)
Lemma ring_inj r i j : 0 <= i < PIPE_BUF_SIZE -> 0 <= j < PIPE_BUF_SIZE -> (r + i) mod PIPE_BUF_SIZE = (r + j) mod PIPE_BUF_SIZE -> i = j.
Proof.
  intros Hi Hj He. pose proof (Z.div_mod (r + i) PIPE_BUF_SIZE ltac:(done)). pose proof (Z.div_mod (r + j) PIPE_BUF_SIZE ltac:(done)). lia.
Qed.

Definition put1 (p : pipe_t) (b : Z) : pipe_t :=
  set_ring p (zset p.(p_buffer) p.(write_pos) b) p.(read_pos) (u32 (p.(write_pos) + 1) mod PIPE_BUF_SIZE) (u32 (p.(p_count) + 1)).

Lemma put1_ok p b : pipe_wf p -> p.(p_count) < PIPE_BUF_SIZE -> pipe_wf (put1 p b) /\ contents (put1 p b) = contents p ++ [b].
Proof.
  intros [Hb Hr Hw Hc] Hlt. assert (Hwp : 0 <= p.(write_pos) < PIPE_BUF_SIZE) by (rewrite Hw; by apply Z.mod_pos_bound).
  assert (Hc1 : u32 (p_count p + 1) = p_count p + 1) by (apply u32_small; lia).
  assert (Hw1 : u32 (write_pos p + 1) = write_pos p + 1) by (apply u32_small; lia). split.
  - split; cbn; rewrite ?Hc1, ?Hw1, ?zlen_zset; try done; try lia. rewrite Hw, Zplus_mod_idemp_l. f_equal. lia.
  - unfold contents. cbn. rewrite Hc1. rewrite <- (Z2Nat.id (p_count p)) by lia.
    replace (Z.of_nat (Z.to_nat (p_count p)) + 1) with (Z.succ (Z.of_nat (Z.to_nat (p_count p)))) by lia.
    rewrite <- Nat2Z.inj_succ. unfold seqZ. rewrite !Nat2Z.id, seq_S, !fmap_app, Nat.add_0_l. cbn [fmap list_fmap]. rewrite Z.add_0_r.
    f_equal.
    + apply list_fmap_ext. intros k x Hx. apply list_lookup_fmap_Some in Hx as (j&->&[-> Hj]%lookup_seq). rewrite Z.add_0_r.
      apply zget_zset_ne; [lia|by apply Z.mod_pos_bound|]. rewrite Hw. intros Heq%ring_inj; lia.
    + rewrite Z2Nat.id, <- Hw by lia. by rewrite zget_zset_eq by lia.
Qed.

Lemma pipe_put_cons p b src :
  pipe_put p (b :: src) = if p.(p_count) <? PIPE_BUF_SIZE then pipe_put (put1 p b) src else (p, b :: src).
Proof. done. Qed.

(** What is not in the ring. *)
Definition same_ends (p p' : pipe_t) : Prop :=
  p'.(p_refs) = p.(p_refs) /\ p'.(p_readers) = p.(p_readers) /\ p'.(p_writers) = p.(p_writers) /\
  p'.(read_wq) = p.(read_wq) /\ p'.(write_wq) = p.(write_wq).

Lemma same_ends_refl p : same_ends p p.
Proof. done. Qed.

Lemma put_ok p src p' rest : pipe_wf p -> pipe_put p src = (p', rest) ->
  pipe_wf p' /\ same_ends p p' /\ (exists w, src = w ++ rest /\ contents p' = contents p ++ w) /\ (rest = [] \/ p'.(p_count) = PIPE_BUF_SIZE).
Proof.
  revert p. induction src as [|b src IH]; intros p Hw.
  - intros [= <- <-]. split; [done|]. split; [apply same_ends_refl|]. split; [exists []; split; [done|by rewrite app_nil_r]|by left].
  - rewrite pipe_put_cons. destruct (Z.ltb_spec (p_count p) PIPE_BUF_SIZE) as [Hlt|Hge].
    + intros Hput. destruct (put1_ok p b Hw Hlt) as [Hw1 Hc1]. destruct (IH _ Hw1 Hput) as (Hw'&He&(w&->&Hc')&Hor).
      split_and!; try done. exists (b :: w). split; [done|]. by rewrite Hc', Hc1, <- app_assoc.
    + intros [= <- <-]. split; [done|]. split; [apply same_ends_refl|]. split; [exists []; split; [done|by rewrite app_nil_r]|]. right. pose proof (pw_count _ Hw). lia.
Qed.

Definition get1 (p : pipe_t) : pipe_t :=
  set_ring p p.(p_buffer) (u32 (p.(read_pos) + 1) mod PIPE_BUF_SIZE) p.(write_pos) (u32 (p.(p_count) - 1)).

Lemma get1_ok p : pipe_wf p -> 0 < p.(p_count) -> pipe_wf (get1 p) /\ contents p = zget p.(p_buffer) p.(read_pos) :: contents (get1 p).
Proof.
  intros [Hb Hr Hw Hc] Hlt. assert (Hc1 : u32 (p_count p - 1) = p_count p - 1) by (apply u32_small; lia).
  assert (Hr1 : u32 (read_pos p + 1) = read_pos p + 1) by (apply u32_small; lia). split.
  - split; cbn; rewrite ?Hc1, ?Hr1; try done; try lia; [by apply Z.mod_pos_bound|]. rewrite Hw, Zplus_mod_idemp_l. f_equal. lia.
  - unfold contents. cbn. rewrite Hc1, Hr1, (seqZ_cons 0) by lia. cbn [fmap list_fmap]. f_equal; [by rewrite Z.add_0_r, Z.mod_small|].
    replace (seqZ (Z.succ 0) (Z.pred (p_count p))) with (Z.add 1 <$> seqZ 0 (p_count p - 1)) by (rewrite fmap_add_seqZ; f_equal; lia). rewrite <- list_fmap_compose.
    apply list_fmap_ext. intros k x _. cbn. rewrite Zplus_mod_idemp_l. do 2 f_equal. lia.
Qed.

Lemma get_ok n p l p' : pipe_wf p -> Z.of_nat n <= p.(p_count) -> pipe_get p n = (l, p') ->
  pipe_wf p' /\ same_ends p p' /\ contents p = l ++ contents p' /\ length l = n.
Proof.
  revert p l. induction n as [|n IH]; intros p l Hw Hn; [by intros [= <- <-]|].
  change (pipe_get p (S n)) with (let '(l, p') := pipe_get (get1 p) n in (zget p.(p_buffer) p.(read_pos) :: l, p')).
  destruct (pipe_get (get1 p) n) as [l1 p1] eqn:Hg. intros [= <- <-]. destruct (get1_ok p Hw) as [Hw1 Hc1]; [lia|].
  destruct (IH (get1 p) l1 Hw1) as (Hw'&He&Hc'&Hl); [|done|].
  - cbn. rewrite u32_small; [lia|]. pose proof (pw_count _ Hw). lia.
  - split_and!; try done; [by rewrite Hc1, Hc'|]. cbn. by rewrite Hl.
Qed.

(** ** The slots are a set *)

(** The tasks that wait. *)
Definition waiting_in (q : fs_waitq_t) (t : Z) : Prop := t <> 0 /\ t ∈ q.

(** As many slots as there should be, and no task in two of them. *)
Definition waitq_wf (q : fs_waitq_t) : Prop := length q = FS_WAITQ_MAX /\ NoDup (filter (fun x => x <> 0) q).

Lemma waiting_filter q t : waiting_in q t <-> t ∈ filter (fun x => x <> 0) q.
Proof. unfold waiting_in. by rewrite list_elem_of_filter. Qed.

Lemma take_all_ok q : waitq_wf q -> let '(l, q') := fs_waitq_take_all q FS_WAITQ_MAX in
  waitq_wf q' /\ (forall t, ~ waiting_in q' t) /\ forall t, t ∈ l <-> waiting_in q t.
Proof.
  intros [Hl _]. unfold fs_waitq_take_all. split_and!.
  - split; [by rewrite length_fmap|]. assert (Hf : filter (fun x : Z => x <> 0) ((fun _ => 0) <$> q) = []) by (clear Hl; by induction q as [|x q IH]).
    rewrite Hf. apply NoDup_nil_2.
  - intros t [Ht (x&->&_)%list_elem_of_fmap]. done.
  - intros t. rewrite take_ge; [by rewrite waiting_filter|]. pose proof (length_filter (fun x => x <> 0) q). lia.
Qed.

Lemma slots_remove_ok q t : t <> 0 -> waitq_wf q -> waitq_wf (fs_waitq_remove q t) /\
  forall u, waiting_in (fs_waitq_remove q t) u <-> waiting_in q u /\ u <> t.
Proof.
  intros Ht [Hl Hn]. unfold fs_waitq_remove. rewrite (proj2 (Z.eqb_neq t 0) Ht).
  assert (Hf : filter (fun x => x <> 0) ((fun x => if x =? t then 0 else x) <$> q) = filter (fun x => x <> t) (filter (fun x => x <> 0) q)).
  { clear Hl Hn. induction q as [|x q IH]; [done|]. rewrite fmap_cons, !filter_cons. destruct (Z.eqb_spec x t) as [->|Hx].
    - rewrite decide_False by auto. rewrite (decide_True (P := t <> 0)) by done. rewrite filter_cons, decide_False by auto. done.
    - destruct (decide (x <> 0)); [rewrite filter_cons, decide_True by done; by rewrite IH|done]. }
  split; [split; [by rewrite length_fmap|rewrite Hf; by apply NoDup_filter]|]. intros u. rewrite !waiting_filter, Hf, list_elem_of_filter. tauto.
Qed.

Lemma add_wf q t : waitq_wf q -> waitq_wf (fs_waitq_add q t).2 /\ forall u, waiting_in (fs_waitq_add q t).2 u -> waiting_in q u \/ u = t.
Proof.
  intros Hq. unfold fs_waitq_add. destruct (Z.eqb_spec t 0) as [->|Ht]; [split; [done|by left]|]. case_bool_decide as Hin; [split; [done|by left]|].
  destruct (list_find (fun x => x = 0) q) as [[i x]|] eqn:Hf; [|split; [done|by left]]. cbn. apply list_find_Some in Hf as (Hi&->&_).
  destruct Hq as [Hl Hn]. pose proof (take_drop_middle q i 0 Hi) as Hsp. pose proof (lookup_lt_Some _ _ _ Hi) as Hlt.
  rewrite (insert_take_drop q i t Hlt). rewrite <- Hsp in Hn, Hin. rewrite filter_app, filter_cons, decide_False in Hn by auto.
  rewrite elem_of_app, elem_of_cons in Hin. split.
  - split; [pose proof (f_equal length Hsp) as Hsl; rewrite length_app in Hsl |- *; cbn [length] in *; congruence|]. rewrite filter_app, filter_cons, decide_True by done.
    rewrite <- Permutation_middle. constructor; [|done]. rewrite elem_of_app, !list_elem_of_filter. tauto.
  - intros u [Hu Hin']. rewrite elem_of_app, elem_of_cons in Hin'. destruct Hin' as [H|[->|H]]; [left|by right|left]; (split; [done|]);
      rewrite <- Hsp, elem_of_app, elem_of_cons; auto.
Qed.

(** The task gets a slot if at most [FS_WAITQ_MAX] tasks could want one. *)
Lemma slots_add_ok q t l : waitq_wf q -> t <> 0 -> t ∈ l -> (length l <= FS_WAITQ_MAX)%nat -> (forall u, waiting_in q u -> u ∈ l) ->
  (fs_waitq_add q t).1 = 1 /\ waiting_in (fs_waitq_add q t).2 t /\ forall u, waiting_in q u -> waiting_in (fs_waitq_add q t).2 u.
Proof.
  intros [Hl Hn] Ht Htl Hlen Hsub. unfold fs_waitq_add. rewrite (proj2 (Z.eqb_neq t 0) Ht). case_bool_decide as Hin; [by split_and!|].
  destruct (list_find (fun x => x = 0) q) as [[i x]|] eqn:Hf; cbn.
  - apply list_find_Some in Hf as (Hi&->&_). pose proof (lookup_lt_Some _ _ _ Hi) as Hlt. split; [done|]. split.
    + split; [done|]. by apply (list_elem_of_lookup_2 _ i), list_lookup_insert_eq.
    + intros u [Hu (j&Hj)%list_elem_of_lookup]. split; [done|]. apply (list_elem_of_lookup_2 _ j). rewrite list_lookup_insert_ne; [done|]. intros ->. congruence.
  - exfalso. apply list_find_None in Hf. rewrite Forall_forall in Hf.
    assert (Hall : filter (fun x => x <> 0) q = q) by (apply filter_ne_id; intros H0; by apply (Hf 0)).
    assert (Hle : (length (t :: q) <= length l)%nat); [|cbn in Hle; lia].
    apply submseteq_length, NoDup_submseteq; [constructor; [done|by rewrite <- Hall]|]. intros u [->|Hu]%elem_of_cons; [done|]. apply Hsub. split; [by apply Hf|done].
Qed.
