(* ===== verification/PipeRun.v ===== *)
(** * Tasks that read and write one pipe

    Tasks in [fs_read], [fs_write] and [fs_close] on one pipe, pass by pass,
    among all other things the kernel does on all CPUs.  [R] are the tasks
    that may read it and [W] those that may write it, at most
    [FS_WAITQ_MAX] each: what the slots of the pipe have room for.  The
    bytes come out as they went in, and nobody sleeps for ever. *)
From S2P Require Import Prelude State Links Task Runq Sched Switch SchedOps SchedLife SchedSteps Pipe.
From S2P Require Import SchedTheorems.

(** Where a task is. *)
Inductive ppc :=
  | Out                                        (** not using the pipe *)
  | Write (src : list Z) (n : Z)               (** [fs_write], at the top of the loop: [src] is left, [n] bytes are done *)
  | WYield (src : list Z) (n : Z)              (** before [kernel_yield] *)
  | WBack (src : list Z) (n : Z)               (** after it *)
  | WWake (l : list Z) (src : list Z) (n : Z)  (** it has taken the readers [l] off their slots *)
  | Read (k : Z)                               (** [fs_read] of [k] bytes, at the top of the loop *)
  | RYield (k : Z)
  | RBack (k : Z)
  | RWake (l : list Z)
  | CWake (l : list Z).                        (** [fs_release_pipe_file], after the lock *)

(** The bytes that went in and came out so far are kept with the state. *)
Record pmach := mkPm { pm_st : pst; pm_pc : Z -> ppc; sent : list Z; got : list Z }.
Abbreviation psc m := (m.(pm_st).(q_sc)).
Abbreviation pipe m := (m.(pm_st).(q_pipe)).
Definition at_ (m : pmach) (w : pst) (t : Z) (p : ppc) : pmach := mkPm w (fset m.(pm_pc) t p) m.(sent) m.(got).
Definition puts (m : pmach) (l : list Z) : pmach := mkPm m.(pm_st) m.(pm_pc) (m.(sent) ++ l) m.(got).
Definition takes (m : pmach) (l : list Z) : pmach := mkPm m.(pm_st) m.(pm_pc) m.(sent) (m.(got) ++ l).

Definition runs (m : pmach) (c t : Z) : Prop := is_cpu (psc m) c /\ cur (psc m) c = t.

(** The tasks it has yet to wake. *)
Definition pend (p : ppc) : list Z := match p with WWake l _ _ | RWake l | CWake l => l | _ => [] end.
Definition waits_r (p : ppc) : Prop := match p with RYield _ | RBack _ => True | _ => False end.
Definition waits_w (p : ppc) : Prop := match p with WYield _ _ | WBack _ _ => True | _ => False end.
Definition waits (p : ppc) : Prop := waits_r p \/ waits_w p.
Definition back (p : ppc) : Prop := match p with RBack _ | WBack _ _ => True | _ => False end.

(** After [kernel_yield]; after one wakeup; after all of them. *)
Definition yielded (p : ppc) : option ppc :=
  match p with WYield src n => Some (WBack src n) | RYield k => Some (RBack k) | _ => None end.
Definition woke (p : ppc) : option (Z * ppc) :=
  match p with
  | WWake (u :: l) src n => Some (u, WWake l src n) | RWake (u :: l) => Some (u, RWake l) | CWake (u :: l) => Some (u, CWake l)
  | _ => None
  end.
Definition resumed (p : ppc) : option ppc :=
  match p with WWake [] src n => Some (Write src n) | RWake [] | CWake [] => Some Out | Write [] _ => Some Out | _ => None end.

(** Another operation: it may wake the tasks that use the pipe, but does
    nothing else to them. *)
Definition harmless (m : pmach) (o : op) : Prop :=
  match o with
  | OWake _ _ | OTick _ => True
  | _ => forall t, m.(pm_pc) t <> Out \/ (exists v, t ∈ pend (m.(pm_pc) v)) -> ~ touches (psc m) o t
  end.

Section pipe.
Context (R W : list Z).

(** A task that is not in the kernel on this pipe. *)
Definition idle_user (m : pmach) (c t : Z) : Prop :=
  runs m c t /\ t ∈ all_tasks (psc m) /\ m.(pm_pc) t = Out /\ ((psc m).(tk) t).(state) = TASK_RUNNING.

Inductive pstep : pmach -> pmach -> Prop :=
  | p_write m c t src : idle_user m c t -> t ∈ W -> pstep m (at_ m m.(pm_st) t (Write src 0))
  | p_read m c t k : idle_user m c t -> t ∈ R -> 0 <= k -> pstep m (at_ m m.(pm_st) t (Read k))
  | p_close m c t aux0 l free p : idle_user m c t -> 1 < (pipe m).(p_refs) -> pipe_release (pipe m) aux0 = (l, free, p) ->
      pstep m (at_ m (mkPst (psc m) p) t (CWake l))
  | p_write_pass m c t src n r w : runs m c t -> m.(pm_pc) t = Write src n -> src <> [] -> pipe_write_pass t src n m.(pm_st) = Ok (r, w) ->
      pstep m (match r with
               | WReturn _ => at_ m w t Out
               | WSleep => at_ m w t (WYield src n)
               | WMore l n' rest => puts (at_ m w t (WWake l rest n')) (take (length src - length rest) src)
               end)
  | p_read_pass m c t k r w : runs m c t -> m.(pm_pc) t = Read k -> pipe_read_pass t k m.(pm_st) = Ok (r, w) ->
      pstep m (match r with
               | REof => at_ m w t Out
               | RSleep => at_ m w t (RYield k)
               | RData data l => takes (at_ m w t (RWake l)) data
               end)
  | p_yield m c t p' w : runs m c t -> yielded (m.(pm_pc) t) = Some p' -> ptasks (run_op (OSchedule c)) m.(pm_st) = Ok (tt, w) -> pstep m (at_ m w t p')
  | p_write_back m c t src n w : runs m c t -> m.(pm_pc) t = WBack src n -> pipe_write_back t m.(pm_st) = Ok (tt, w) -> pstep m (at_ m w t (Write src n))
  | p_read_back m c t k w : runs m c t -> m.(pm_pc) t = RBack k -> pipe_read_back t m.(pm_st) = Ok (tt, w) -> pstep m (at_ m w t (Read k))
  | p_wake m c t u p' w : runs m c t -> woke (m.(pm_pc) t) = Some (u, p') -> ptasks (pipe_wake_task c u) m.(pm_st) = Ok (tt, w) -> pstep m (at_ m w t p')
  | p_resume m c t p' : runs m c t -> resumed (m.(pm_pc) t) = Some p' -> pstep m (at_ m m.(pm_st) t p')
  | p_other m o w : harmless m o -> enabled (psc m) o -> ptasks (run_op o) m.(pm_st) = Ok (tt, w) -> pstep m (mkPm w m.(pm_pc) m.(sent) m.(got)).

(** ** The invariant *)

Definition user (p : ppc) (t : Z) : Prop :=
  match p with
  | Out | CWake _ | RWake _ => True
  | Write _ _ | WYield _ _ | WBack _ _ | WWake _ _ _ => t ∈ W
  | Read _ | RYield _ | RBack _ => t ∈ R
  end.

(** A task that waits has a slot. *)
Definition slotted (x : pipe_t) (p : ppc) (t : Z) : Prop :=
  waits_r p /\ waiting_in x.(read_wq) t \/ waits_w p /\ waiting_in x.(write_wq) t.

Record pipe_ok (x : pipe_t) (in_ out : list Z) : Prop := {
  k_wf : pipe_wf x;
  k_rq : waitq_wf x.(read_wq);
  k_wq : waitq_wf x.(write_wq);
  k_stream : in_ = out ++ contents x;
  k_empty : forall t, waiting_in x.(read_wq) t -> x.(p_count) = 0 /\ x.(p_writers) <> 0;
  k_full : forall t, waiting_in x.(write_wq) t -> x.(p_count) = PIPE_BUF_SIZE /\ x.(p_readers) <> 0 }.

Record pinv (m : pmach) (q : Z -> list Z) (T : list Z) : Prop := {
  v_inv : inv (psc m) q T;
  v_pipe : pipe_ok (pipe m) m.(sent) m.(got);
  v_part : forall t, m.(pm_pc) t <> Out -> t ∈ T /\ gone ((psc m).(tk) t).(state) = false;
  v_run : forall t, m.(pm_pc) t <> Out -> ~ waits (m.(pm_pc) t) -> live (psc m) t;
  v_cur : forall c t, back (m.(pm_pc) t) -> runs m c t -> live (psc m) t;
  v_user : forall t, user (m.(pm_pc) t) t;
  v_in_r : forall t, waiting_in (pipe m).(read_wq) t -> waits_r (m.(pm_pc) t);
  v_in_w : forall t, waiting_in (pipe m).(write_wq) t -> waits_w (m.(pm_pc) t);
  v_asleep : forall t, waits (m.(pm_pc) t) -> live (psc m) t \/ slotted (pipe m) (m.(pm_pc) t) t \/ exists v, t ∈ pend (m.(pm_pc) v);
  v_target : forall v t, t ∈ pend (m.(pm_pc) v) -> t ∈ T }.

(** ** One task goes on, to [p'] *)
Section go.
Context (m : pmach) (q : Z -> list Z) (T : list Z) (t : Z) (p' : ppc) (w : pst) (q' : Z -> list Z) (m' : pmach).
Abbreviation s := (psc m).
Abbreviation s' := (w.(q_sc)).
Abbreviation x := (pipe m).
Abbreviation x' := (w.(q_pipe)).
Abbreviation pt := (m.(pm_pc) t).
Context (Hv : pinv m q T) (Hm' : m'.(pm_st) = w /\ m'.(pm_pc) = fset m.(pm_pc) t p') (Hi' : inv s' q' T) (Hx' : pipe_ok x' m'.(sent) m'.(got)) (Ht : t ∈ T).
Context (Hst : forall u, (s'.(tk) u).(state) = (s.(tk) u).(state) \/ live s' u \/ u = t).
Context (Hcur : s'.(g_cpu_count) = s.(g_cpu_count) /\ forall c, cur s' c = cur s c).
Context (Hin_r : forall u, waiting_in x'.(read_wq) u -> waiting_in x.(read_wq) u /\ u <> t \/ u = t /\ waits_r p').
Context (Hin_w : forall u, waiting_in x'.(write_wq) u -> waiting_in x.(write_wq) u /\ u <> t \/ u = t /\ waits_w p').
Context (Hout_r : forall u, waiting_in x.(read_wq) u -> waiting_in x'.(read_wq) u \/ u = t \/ u ∈ pend p').
Context (Hout_w : forall u, waiting_in x.(write_wq) u -> waiting_in x'.(write_wq) u \/ u = t \/ u ∈ pend p').
Context (Hpart : p' <> Out -> gone (s'.(tk) t).(state) = false) (Hrun : p' <> Out -> ~ waits p' -> live s' t).
Context (Hback : ~ back p') (Hself : waits p' -> slotted x' p' t) (Huser : user p' t).
Context (Htarget : forall u, u ∈ pend p' -> u ∈ T) (Hwoken : forall u, u ∈ pend pt -> u ∈ pend p' \/ (waits (m.(pm_pc) u) -> live s' u)).

Lemma pgo_pc u : m'.(pm_pc) u = if decide (u = t) then p' else m.(pm_pc) u.
Proof using Hm'. destruct Hm' as [_ ->]. by rewrite fset_spec. Qed.

Lemma pgo_live u : u <> t -> live s u -> live s' u.
Proof using Hst. intros Hu Hl. destruct (Hst u) as [He|[?| ->]]; [|done|done]. unfold live. by rewrite He. Qed.

Lemma pgo_asleep u : waits (m'.(pm_pc) u) -> live s' u \/ slotted x' (m'.(pm_pc) u) u \/ exists v, u ∈ pend (m'.(pm_pc) v).
Proof using Hv Hm' Hst Hout_r Hout_w Hself Hwoken.
  rewrite pgo_pc. destruct (decide (u = t)) as [->|Hu]; [auto|]. intros Hw.
  assert (Hp : u ∈ pend p' -> exists v, u ∈ pend (m'.(pm_pc) v)) by (intros Hp; exists t; by rewrite pgo_pc, decide_True).
  destruct (v_asleep _ _ _ Hv u Hw) as [Hl|[[[H1 H2]|[H1 H2]]|(v&Hv')]].
  - left. by apply pgo_live.
  - destruct (Hout_r u H2) as [?|[|]]; [right; left; by left|done|auto].
  - destruct (Hout_w u H2) as [?|[|]]; [right; left; by right|done|auto].
  - destruct (decide (v = t)) as [->|Hne]; [destruct (Hwoken u Hv') as [?|Hl]; auto|]. right. right. exists v. by rewrite pgo_pc, decide_False.
Qed.

Lemma pgo_ok : pinv m' q' T.
Proof using Hv Hm' Hi' Hx' Ht Hst Hcur Hin_r Hin_w Hout_r Hout_w Hpart Hrun Hback Hself Huser Htarget Hwoken.
  pose proof pgo_asleep as Hasl. destruct Hm' as [Hm1 _]. split; rewrite ?Hm1; try done.
  - intros u. rewrite pgo_pc. destruct (decide (u = t)) as [->|Hne]; [auto|]. intros Hp. destruct (v_part _ _ _ Hv u Hp) as [? Hg].
    split; [done|]. destruct (Hst u) as [->|[[->| ->]|]]; done.
  - intros u. rewrite pgo_pc. destruct (decide (u = t)) as [->|Hne]; [auto|]. intros Hp Hnw. apply pgo_live; [done|]. by apply (v_run _ _ _ Hv).
  - intros c u. rewrite pgo_pc. destruct (decide (u = t)) as [->|Hne]; [by intros ?%Hback|]. intros Hb [Hc He]. rewrite Hm1 in Hc, He.
    apply pgo_live; [done|]. apply (v_cur _ _ _ Hv c u Hb). destruct Hcur as [Hn Hcu]. unfold runs, is_cpu in *. by rewrite <- Hn, <- Hcu.
  - intros u. rewrite pgo_pc. destruct (decide (u = t)) as [->|]; [done|]. apply (v_user _ _ _ Hv).
  - intros u Hu. rewrite pgo_pc. destruct (Hin_r u Hu) as [[Hr Hne]|[-> Hp]]; [rewrite decide_False by done; by apply (v_in_r _ _ _ Hv)|by rewrite decide_True].
  - intros u Hu. rewrite pgo_pc. destruct (Hin_w u Hu) as [[Hr Hne]|[-> Hp]]; [rewrite decide_False by done; by apply (v_in_w _ _ _ Hv)|by rewrite decide_True].
  - intros v u. rewrite pgo_pc. destruct (decide (v = t)) as [->|]; [auto|]. apply (v_target _ _ _ Hv).
Qed.
End go.

(** ** Other operations *)
Lemma ptasks_ok {A} (m : M A) w a w' : ptasks m w = Ok (a, w') -> exists s', m w.(q_sc) = Ok (a, s') /\ w' = mkPst s' w.(q_pipe).
Proof using. unfold ptasks, lift. destruct (m (q_sc w)) as [[x s']|]; [|done]. intros [= -> <-]. by exists s'. Qed.

Lemma waits_out p : waits p -> p <> Out.
Proof using. by destruct p; intros [|]. Qed.

Lemma pother_ok m q T o w : pinv m q T -> harmless m o -> enabled (psc m) o -> ptasks (run_op o) m.(pm_st) = Ok (tt, w) ->
  exists q' T', pinv (mkPm w m.(pm_pc) m.(sent) m.(got)) q' T' /\ effect (psc m) q o w.(q_sc) q'.
Proof using.
  intros Hv Hh Hen Hrun. destruct (ptasks_ok _ _ _ _ Hrun) as (s'&Hr&->). clear Hrun. set (s := psc m) in *.
  pose proof (v_inv _ _ _ Hv) as Hi. fold s in Hi. destruct (wp_done _ _ _ _ _ (op_ok s q T o Hi Hen) Hr) as (q'&T'&Hi'&He&HT).
  exists q', T'. split; [|done]. destruct (effect_cpus _ _ _ _ _ He) as [Hn Hcu].
  assert (Hst : forall t, pm_pc m t <> Out \/ (exists v, t ∈ pend (pm_pc m v)) -> state (tk s' t) = state (tk s t) \/ live s' t).
  { intros t Ht. apply (effect_state s q o s' q' t He). destruct o; try done; by apply Hh. }
  assert (Hlive : forall t, pm_pc m t <> Out -> live s t -> live s' t).
  { intros t Ht Hl. destruct (Hst t (or_introl Ht)) as [He'|]; [|done]. unfold live. by rewrite He'. }
  assert (Hnr : forall t, pm_pc m t <> Out \/ (exists v, t ∈ pend (pm_pc m v)) -> o <> OReap t) by (intros t Ht ->; by apply (Hh t Ht)).
  destruct Hv as [I1 I2 I3 I4 I5 I6 I7 I8 I9 I10]. split; simpl; try done.
  - intros t Ht. destruct (I3 t Ht) as [Hin Hg]. split; [by apply HT; auto|]. destruct (Hst t (or_introl Ht)) as [->|[->| ->]]; done.
  - intros t Ht Hnw. apply Hlive; auto.
  - intros c t Hb [Hc Hct]. simpl in *. assert (Hc0 : is_cpu s c) by (unfold is_cpu in *; by rewrite <- Hn). assert (Hpo : pm_pc m t <> Out) by (by destruct (pm_pc m t)).
    destruct (Hcu c Hc0) as [Hsame|Hrun]; [|by right; rewrite Hct in Hrun]. apply Hlive; [done|]. apply (I5 c t Hb). split; [done|]. change (cur s c = t). by rewrite <- Hsame.
  - intros t Ht. pose proof (waits_out _ Ht). destruct (I9 t Ht) as [Hl|[Hl|Hl]]; auto.
  - intros v t Hp. apply HT; [by apply (I10 v)|]. apply Hnr. right. by exists v.
Qed.

(** ** The steps *)

Lemma psame_ok m q T t p' : pinv m q T -> t ∈ T -> (p' <> Out -> live (psc m) t) -> ~ waits p' -> pend p' = [] -> user p' t ->
  ~ waits (m.(pm_pc) t) -> pend (m.(pm_pc) t) = [] -> pinv (at_ m m.(pm_st) t p') q T.
Proof using.
  intros Hv Ht Hlive Hnw Hp Hu Hnwt Hpt. apply (pgo_ok m q T t p' m.(pm_st)); try done.
  - apply Hv.
  - apply Hv.
  - by left.
  - intros u Hq. left. split; [done|]. intros ->. apply Hnwt. left. by apply (v_in_r _ _ _ Hv).
  - intros u Hq. left. split; [done|]. intros ->. apply Hnwt. right. by apply (v_in_w _ _ _ Hv).
  - by left.
  - by left.
  - intros Ho. destruct (Hlive Ho) as [->| ->]; done.
  - auto.
  - intros Hb. apply Hnw. destruct p'; try done; [by right|by left].
  - rewrite Hp. by intros u ?%not_elem_of_nil.
  - rewrite Hpt. by intros u ?%not_elem_of_nil.
Qed.

Lemma back_ok m q T t p' : pinv m q T -> yielded (m.(pm_pc) t) = Some p' -> (forall c, runs m c t -> live (psc m) t) -> pinv (at_ m m.(pm_st) t p') q T.
Proof using.
  intros Hv Hy Hlive. set (m' := at_ m (pm_st m) t p'). assert (Hpc : forall u, pm_pc m' u = if decide (u = t) then p' else pm_pc m u) by (intros u; cbn; by rewrite fset_spec).
  assert (Hsame : (waits_r p' <-> waits_r (pm_pc m t)) /\ (waits_w p' <-> waits_w (pm_pc m t)) /\ pend p' = pend (pm_pc m t) /\
    (user p' t <-> user (pm_pc m t) t) /\ p' <> Out /\ pm_pc m t <> Out) by (destruct (pm_pc m t); try done; injection Hy as <-; done).
  destruct Hsame as (H1&H2&H3&H4&H5&H6).
  assert (Hr : forall u, waits_r (pm_pc m' u) <-> waits_r (pm_pc m u)) by (intros u; rewrite Hpc; by destruct (decide (u = t)) as [->|]).
  assert (Hw : forall u, waits_w (pm_pc m' u) <-> waits_w (pm_pc m u)) by (intros u; rewrite Hpc; by destruct (decide (u = t)) as [->|]).
  assert (Hp : forall u, pend (pm_pc m' u) = pend (pm_pc m u)) by (intros u; rewrite Hpc; by destruct (decide (u = t)) as [->|]).
  assert (Ho : forall u, pm_pc m' u <> Out <-> pm_pc m u <> Out) by (intros u; rewrite Hpc; by destruct (decide (u = t)) as [->|]).
  destruct Hv as [I1 I2 I3 I4 I5 I6 I7 I8 I9 I10]. split; try done.
  - intros u Hu%Ho. auto.
  - intros u Hu%Ho. unfold waits. rewrite Hr, Hw. by apply I4.
  - intros c u. rewrite Hpc. destruct (decide (u = t)) as [->|]; [intros _; apply Hlive|apply I5].
  - intros u. rewrite Hpc. destruct (decide (u = t)) as [->|]; [by apply H4|apply I6].
  - intros u. rewrite Hr. apply I7.
  - intros u. rewrite Hw. apply I8.
  - intros u. unfold waits, slotted. rewrite Hr, Hw. intros Hu. destruct (I9 u Hu) as [?|[?|(v&Hin)]]; auto. right. right. exists v. by rewrite Hp.
  - intros v u. rewrite Hp. apply I10.
Qed.

Lemma pipe_ok_queues x in_ out qr qw : pipe_ok x in_ out -> waitq_wf qr -> waitq_wf qw ->
  (forall t, waiting_in qr t -> x.(p_count) = 0 /\ x.(p_writers) <> 0) -> (forall t, waiting_in qw t -> x.(p_count) = PIPE_BUF_SIZE /\ x.(p_readers) <> 0) ->
  pipe_ok (set_write_wq (set_read_wq x qr) qw) in_ out.
Proof using. intros [[] ? ? ? ? ?] ? ? ? ?. by split. Qed.

(** A task on a CPU that uses the pipe. *)
Lemma user_facts m q T c t : pinv m q T -> runs m c t -> m.(pm_pc) t <> Out -> (waits (m.(pm_pc) t) -> back (m.(pm_pc) t)) ->
  t ∈ T /\ t <> 0 /\ live (psc m) t.
Proof using.
  intros Hv Hr Hp Hw. destruct (v_part _ _ _ Hv t Hp) as [Ht _]. split; [done|]. split; [by eapply iv_task_nz; [apply (v_inv _ _ _ Hv)|]|].
  assert (Hd : waits (pm_pc m t) \/ ~ waits (pm_pc m t)) by (unfold waits; destruct (pm_pc m t); simpl; tauto).
  destruct Hd as [Hy|Hn]; [apply (v_cur _ _ _ Hv c); auto|by apply (v_run _ _ _ Hv)].
Qed.

Section step.
Context (HR : (length R <= FS_WAITQ_MAX)%nat) (HW : (length W <= FS_WAITQ_MAX)%nat).
Context (m : pmach) (q : Z -> list Z) (T : list Z) (c t : Z) (Hv : pinv m q T) (Hruns : runs m c t).
Abbreviation s := (psc m).
Abbreviation x := (pipe m).

Lemma not_in_r : ~ waits_r (m.(pm_pc) t) -> ~ waiting_in x.(read_wq) t.
Proof using Hv. intros Hn Hi. by apply Hn, (v_in_r _ _ _ Hv). Qed.
Lemma not_in_w : ~ waits_w (m.(pm_pc) t) -> ~ waiting_in x.(write_wq) t.
Proof using Hv. intros Hn Hi. by apply Hn, (v_in_w _ _ _ Hv). Qed.

(** The current task goes to sleep; nothing else happens to the tasks. *)
Lemma mark_ok (Q : Z -> ss -> Prop) : t ∈ T ->
  (forall r s', inv s' (fun d => without t (q d)) T -> (forall u, (s'.(tk) u).(state) = (s.(tk) u).(state) \/ u = t) -> (s'.(tk) t).(state) = TASK_SLEEPING ->
     s'.(g_cpu_count) = s.(g_cpu_count) /\ (forall d, cur s' d = cur s d) -> Q r s') ->
  wp nopanic (task_mark_sleeping t) Q s.
Proof using Hv.
  intros Ht HQ. apply (sleeping_ok _ T s q); [apply Hv|done|]. intros s' [Hi' Hm]. pose proof Hm as [[_ _ (Hn&_&_) _ Hcu] Htk _]. apply HQ; [done| | |].
  - intros u. rewrite Htk. destruct (decide (u = t)); auto.
  - rewrite Htk. by rewrite decide_True.
  - split; [done|]. intros d. unfold cur. by destruct (Hcu d) as (->&_).
Qed.

(** To sleep, with a slot. *)
Lemma sleep_ok p' s' x' : t ∈ T -> t <> 0 -> ~ waits (m.(pm_pc) t) -> pend (m.(pm_pc) t) = [] -> ~ back p' -> pend p' = [] -> user p' t ->
  inv s' (fun d => without t (q d)) T -> (forall u, (s'.(tk) u).(state) = (s.(tk) u).(state) \/ u = t) -> (s'.(tk) t).(state) = TASK_SLEEPING ->
  (s'.(g_cpu_count) = s.(g_cpu_count) /\ forall d, cur s' d = cur s d) -> pipe_ok x' m.(sent) m.(got) ->
  (waits_r p' /\ waiting_in x'.(read_wq) t /\ x'.(write_wq) = x.(write_wq) /\ (forall u, waiting_in x'.(read_wq) u -> waiting_in x.(read_wq) u \/ u = t) /\
     (forall u, waiting_in x.(read_wq) u -> waiting_in x'.(read_wq) u) \/
   waits_w p' /\ waiting_in x'.(write_wq) t /\ x'.(read_wq) = x.(read_wq) /\ (forall u, waiting_in x'.(write_wq) u -> waiting_in x.(write_wq) u \/ u = t) /\
     (forall u, waiting_in x.(write_wq) u -> waiting_in x'.(write_wq) u)) ->
  pinv (at_ m (mkPst s' x') t p') (fun d => without t (q d)) T.
Proof using Hv.
  intros Ht Ht0 Hnw Hpt Hnb Hpp Hu Hi' Hst Hsl Hcur Hx' Hq.
  assert (Hnr : ~ waiting_in x.(read_wq) t) by (apply not_in_r; intros ?; apply Hnw; by left).
  assert (Hnww : ~ waiting_in x.(write_wq) t) by (apply not_in_w; intros ?; apply Hnw; by right).
  assert (Hne : forall (y : list Z) u, ~ waiting_in y t -> waiting_in y u -> u <> t) by (intros y u H1 H2 ->; done).
  apply (pgo_ok m q T t p' (mkPst s' x')); cbn; try done.
  - intros u. destruct (Hst u); auto.
  - intros u Hr. destruct Hq as [(H1&H2&H3&H4&H5)|(H1&H2&H3&H4&H5)]; [destruct (H4 u Hr) as [?| ->]; [left; eauto|by right]|]. left. rewrite H3 in Hr. eauto.
  - intros u Hr. destruct Hq as [(H1&H2&H3&H4&H5)|(H1&H2&H3&H4&H5)]; [left; rewrite H3 in Hr; eauto|]. destruct (H4 u Hr) as [?| ->]; [left; eauto|by right].
  - intros u Hr. left. destruct Hq as [(H1&H2&H3&H4&H5)|(H1&H2&H3&H4&H5)]; [auto|by rewrite H3].
  - intros u Hr. left. destruct Hq as [(H1&H2&H3&H4&H5)|(H1&H2&H3&H4&H5)]; [by rewrite H3|auto].
  - intros _. by rewrite Hsl.
  - intros _ Hnp. destruct Hnp. destruct Hq as [[? _]|[? _]]; [by left|by right].
  - intros _. unfold slotted. destruct Hq as [(?&?&_)|(?&?&_)]; auto.
  - rewrite Hpp. by intros u ?%not_elem_of_nil.
  - rewrite Hpt. by intros u ?%not_elem_of_nil.
Qed.

(** The bytes moved, and the other side's slots were emptied. *)
Lemma moved_ok p' x' in_ out : t ∈ T -> live s t -> ~ waits (m.(pm_pc) t) -> pend (m.(pm_pc) t) = [] -> p' <> Out -> ~ waits p' -> user p' t ->
  pipe_ok x' in_ out ->
  (forall u, waiting_in x'.(read_wq) u -> waiting_in x.(read_wq) u) -> (forall u, waiting_in x'.(write_wq) u -> waiting_in x.(write_wq) u) ->
  (forall u, waiting_in x.(read_wq) u -> waiting_in x'.(read_wq) u \/ u ∈ pend p') -> (forall u, waiting_in x.(write_wq) u -> waiting_in x'.(write_wq) u \/ u ∈ pend p') ->
  (forall u, u ∈ pend p' -> waiting_in x.(read_wq) u \/ waiting_in x.(write_wq) u) ->
  pinv (mkPm (mkPst s x') (fset m.(pm_pc) t p') in_ out) q T.
Proof using Hv.
  intros Ht Hlive Hnw Hpt Hpo Hnp Hu Hx' H1 H2 H3 H4 H5.
  assert (Hnr : ~ waiting_in x.(read_wq) t) by (apply not_in_r; intros ?; apply Hnw; by left).
  assert (Hnww : ~ waiting_in x.(write_wq) t) by (apply not_in_w; intros ?; apply Hnw; by right).
  apply (pgo_ok m q T t p' (mkPst s x')); cbn; try done.
  - apply Hv.
  - by left.
  - intros u Hr%H1. left. split; [done|]. by intros ->.
  - intros u Hr%H2. left. split; [done|]. by intros ->.
  - intros u [?|?]%H3; auto.
  - intros u [?|?]%H4; auto.
  - intros _. destruct Hlive as [->| ->]; done.
  - intros Hb. apply Hnp. destruct p'; try done; [by right|by left].
  - intros u [Hr%(v_in_r _ _ _ Hv)|Hr%(v_in_w _ _ _ Hv)]%H5; apply (v_part _ _ _ Hv u), waits_out; [by left|by right].
  - rewrite Hpt. by intros u ?%not_elem_of_nil.
Qed.

Definition after_write (src : list Z) (n : Z) (r : write_pass) (w : pst) : pmach :=
  match r with
  | WReturn _ => at_ m w t Out
  | WSleep => at_ m w t (WYield src n)
  | WMore l n' rest => puts (at_ m w t (WWake l rest n')) (take (length src - length rest) src)
  end.

Lemma write_pass_ok src n : m.(pm_pc) t = Write src n -> src <> [] ->
  wp nopanic (pipe_write_pass t src n) (fun r w => exists q', pinv (after_write src n r w) q' T) m.(pm_st).
Proof using Hv Hruns HR HW.
  intros Hp Hne. destruct (user_facts m q T c t Hv Hruns) as (Ht&Ht0&Hlive); [by rewrite Hp|rewrite Hp; by intros [|]|].
  pose proof (v_user _ _ _ Hv t) as Hu. rewrite Hp in Hu. pose proof (v_pipe _ _ _ Hv) as Hx.
  assert (Hnw : ~ waits (pm_pc m t)) by (rewrite Hp; by intros [|]). assert (Hpt : pend (pm_pc m t) = []) by (by rewrite Hp).
  unfold pipe_write_pass. wp_step. wp_step. destruct (Z.eqb_spec (p_readers x) 0) as [Hr0|Hr0].
  { wp_step. exists q. unfold after_write. destruct (pm_st m) as [s0 x0] eqn:He. rewrite <- He. apply psame_ok; try done. by intros [|]. }
  destruct (Z.eqb_spec (p_count x) PIPE_BUF_SIZE) as [Hfull|Hroom].
  - wp_step. unfold ptasks. wp_step. apply (mark_ok _ Ht). intros r s' Hi' Hst Hsl Hcur. wp_step. unfold upd_pipe. wp_step. wp_step. eexists. unfold after_write. cbn.
    destruct (add_wf (write_wq x) t (k_wq _ _ _ Hx)) as [Hwf Hadd].
    destruct (slots_add_ok (write_wq x) t W (k_wq _ _ _ Hx) Ht0 Hu HW) as (_&Hin&Hkeep).
    { intros u Hu'%(v_in_w _ _ _ Hv). pose proof (v_user _ _ _ Hv u) as Huu. by destruct (pm_pc m u). }
    apply sleep_ok; try done; [by intros []|..].
    + apply (pipe_ok_queues x); try apply Hx; [done|]. done.
    + right. by split_and!.
  - destruct (pipe_put x src) as [x1 rest] eqn:Hput. destruct (put_ok _ _ _ _ (k_wf _ _ _ Hx) Hput) as (Hw1&(E1&E2&E3&E4&E5)&(w1&->&Hc1)&Hfin).
    pose proof (take_all_ok (read_wq x1)) as Hta. destruct (fs_waitq_take_all (read_wq x1) FS_WAITQ_MAX) as [l qr] eqn:Htake. rewrite E4 in Hta.
    destruct (Hta (k_rq _ _ _ Hx)) as (Hqr&Hno&Hl). unfold upd_pipe. wp_step. wp_step. wp_step. exists q. unfold after_write, puts, at_. cbn [pm_st pm_pc sent got].
    rewrite length_app. replace (length w1 + length rest - length rest)%nat with (length w1) by lia. rewrite take_app_length.
    apply moved_ok; cbn; try done.
    + by intros [|].
    + destruct Hw1. split; cbn; try done; rewrite ?E5; try apply Hx.
      * transitivity (got m ++ contents x1); [|done]. by rewrite Hc1, app_assoc, <- (k_stream _ _ _ Hx).
      * by intros u ?%Hno.
      * intros u [Hu1 _]%(k_full _ _ _ Hx). done.
    + by intros u ?%Hno.
    + intros u. by rewrite E5.
    + intros u Hu'. right. by apply Hl.
    + intros u. rewrite E5. by left.
    + intros u Hu'%Hl. by left.
Qed.

Definition after_read (k : Z) (r : read_pass) (w : pst) : pmach :=
  match r with
  | REof => at_ m w t Out
  | RSleep => at_ m w t (RYield k)
  | RData data l => takes (at_ m w t (RWake l)) data
  end.

Lemma read_pass_ok k : m.(pm_pc) t = Read k ->
  wp nopanic (pipe_read_pass t k) (fun r w => exists q', pinv (after_read k r w) q' T) m.(pm_st).
Proof using Hv Hruns HR HW.
  intros Hp. destruct (user_facts m q T c t Hv Hruns) as (Ht&Ht0&Hlive); [by rewrite Hp|rewrite Hp; by intros [|]|].
  pose proof (v_user _ _ _ Hv t) as Hu. rewrite Hp in Hu. pose proof (v_pipe _ _ _ Hv) as Hx.
  assert (Hnw : ~ waits (pm_pc m t)) by (rewrite Hp; by intros [|]). assert (Hpt : pend (pm_pc m t) = []) by (by rewrite Hp).
  unfold pipe_read_pass. wp_step. wp_step. destruct (Z.eqb_spec (p_count x) 0) as [Hc0|Hc0]; cbn [andb].
  - destruct (Z.eqb_spec (p_writers x) 0) as [Hw0|Hw0].
    { wp_step. exists q. unfold after_read. destruct (pm_st m) as [s0 x0] eqn:He. rewrite <- He. apply psame_ok; try done. by intros [|]. }
    wp_step. unfold ptasks. wp_step. apply (mark_ok _ Ht). intros r s' Hi' Hst Hsl Hcur. wp_step. unfold upd_pipe. wp_step. wp_step. eexists. unfold after_read. cbn.
    destruct (add_wf (read_wq x) t (k_rq _ _ _ Hx)) as [Hwf Hadd].
    destruct (slots_add_ok (read_wq x) t R (k_rq _ _ _ Hx) Ht0 Hu HR) as (_&Hin&Hkeep).
    { intros u Hu'%(v_in_r _ _ _ Hv). pose proof (v_user _ _ _ Hv u) as Huu. by destruct (pm_pc m u). }
    apply sleep_ok; try done; [by intros []|..].
    + apply (pipe_ok_queues x _ _ _ (write_wq x)); try apply Hx; done.
    + left. by split_and!.
  - set (to_read := if p_count x <? k then p_count x else k). pose proof (pw_count _ (k_wf _ _ _ Hx)) as Hcr.
    assert (Hto' : Z.of_nat (Z.to_nat to_read) <= p_count x) by (unfold to_read; destruct (Z.ltb_spec (p_count x) k); lia).
    destruct (pipe_get x (Z.to_nat to_read)) as [data x1] eqn:Hget. destruct (get_ok _ _ _ _ (k_wf _ _ _ Hx) Hto' Hget) as (Hw1&(E1&E2&E3&E4&E5)&Hc1&Hlen).
    pose proof (take_all_ok (write_wq x1)) as Hta. destruct (fs_waitq_take_all (write_wq x1) FS_WAITQ_MAX) as [l qw] eqn:Htake. rewrite E5 in Hta.
    destruct (Hta (k_wq _ _ _ Hx)) as (Hqw&Hno&Hl). unfold upd_pipe. wp_step. wp_step. wp_step. exists q. unfold after_read, takes, at_. cbn [pm_st pm_pc sent got].
    apply moved_ok; cbn; try done.
    + by intros [|].
    + destruct Hw1. split; cbn; try done; rewrite ?E4; try apply Hx.
      * transitivity ((got m ++ data) ++ contents x1); [|done]. by rewrite (k_stream _ _ _ Hx), Hc1, app_assoc.
      * intros u [Hu1 _]%(k_empty _ _ _ Hx). done.
      * by intros u ?%Hno.
    + intros u. by rewrite E4.
    + by intros u ?%Hno.
    + intros u. rewrite E4. by left.
    + intros u Hu'. right. by apply Hl.
    + intros u Hu'%Hl. by right.
Qed.

(** Back from [kernel_yield]: the task gives up its slot. *)
Lemma unslot_ok p' x' : back (m.(pm_pc) t) -> p' <> Out -> ~ waits p' -> pend p' = [] -> user p' t -> pipe_ok x' m.(sent) m.(got) ->
  (forall u, waiting_in x'.(read_wq) u <-> waiting_in x.(read_wq) u /\ u <> t) -> (forall u, waiting_in x'.(write_wq) u <-> waiting_in x.(write_wq) u /\ u <> t) ->
  pinv (at_ m (mkPst s x') t p') q T.
Proof using Hv Hruns.
  intros Hb Hpo Hnp Hpp Hu Hx' H1 H2. destruct (user_facts m q T c t Hv Hruns) as (Ht&Ht0&Hlive); [by destruct (pm_pc m t)|done|].
  apply (pgo_ok m q T t p' (mkPst s x')); cbn; try done.
  - apply Hv.
  - by left.
  - intros u ?%H1. by left.
  - intros u ?%H2. by left.
  - intros u Hr. destruct (decide (u = t)); [auto|]. left. by apply H1.
  - intros u Hr. destruct (decide (u = t)); [auto|]. left. by apply H2.
  - intros _. destruct Hlive as [->| ->]; done.
  - intros Hb'. apply Hnp. destruct p'; try done; [by right|by left].
  - rewrite Hpp. by intros u ?%not_elem_of_nil.
  - assert (pend (pm_pc m t) = []) as -> by (by destruct (pm_pc m t)). by intros u ?%not_elem_of_nil.
Qed.

Lemma write_back_ok src n w : m.(pm_pc) t = WBack src n -> pipe_write_back t m.(pm_st) = Ok (tt, w) -> pinv (at_ m w t (Write src n)) q T.
Proof using Hv Hruns.
  intros Hp [= <-]. pose proof (v_user _ _ _ Hv t) as Hu. rewrite Hp in Hu. pose proof (v_pipe _ _ _ Hv) as Hx.
  destruct (user_facts m q T c t Hv Hruns) as (Ht&Ht0&Hlive); [by rewrite Hp|by rewrite Hp|].
  destruct (slots_remove_ok (write_wq x) t Ht0 (k_wq _ _ _ Hx)) as [Hwf Hiff]. apply unslot_ok; try done; [by rewrite Hp|by intros [|]|..].
  - apply (pipe_ok_queues x _ _ (read_wq x)); try apply Hx; [done|]. intros u [? _]%Hiff. by apply (k_full _ _ _ Hx u).
  - intros u. cbn. split; [|by intros []]. intros Hr. split; [done|]. intros ->. apply (v_in_r _ _ _ Hv) in Hr. by rewrite Hp in Hr.
Qed.

Lemma read_back_ok k w : m.(pm_pc) t = RBack k -> pipe_read_back t m.(pm_st) = Ok (tt, w) -> pinv (at_ m w t (Read k)) q T.
Proof using Hv Hruns.
  intros Hp [= <-]. pose proof (v_user _ _ _ Hv t) as Hu. rewrite Hp in Hu. pose proof (v_pipe _ _ _ Hv) as Hx.
  destruct (user_facts m q T c t Hv Hruns) as (Ht&Ht0&Hlive); [by rewrite Hp|by rewrite Hp|].
  destruct (slots_remove_ok (read_wq x) t Ht0 (k_rq _ _ _ Hx)) as [Hwf Hiff]. apply unslot_ok; try done; [by rewrite Hp|by intros [|]|..].
  - apply (pipe_ok_queues x _ _ _ (write_wq x)); try apply Hx; [done|]. intros u [? _]%Hiff. by apply (k_empty _ _ _ Hx u).
  - intros u. cbn. split; [|by intros []]. intros Hr. split; [done|]. intros ->. apply (v_in_w _ _ _ Hv) in Hr. by rewrite Hp in Hr.
Qed.

Lemma close_ok aux0 l free p : t ∈ T -> live s t -> m.(pm_pc) t = Out -> pipe_release x aux0 = (l, free, p) -> pinv (at_ m (mkPst s p) t (CWake l)) q T.
Proof using Hv.
  intros Ht Hlive Hp. pose proof (v_pipe _ _ _ Hv) as Hx. unfold pipe_release. cbn [read_wq write_wq set_ends].
  pose proof (take_all_ok _ (k_rq _ _ _ Hx)) as Hr. destruct (fs_waitq_take_all (read_wq x) FS_WAITQ_MAX) as [wr qr]. destruct Hr as (Hr1&Hr2&Hr3).
  pose proof (take_all_ok _ (k_wq _ _ _ Hx)) as Hw. destruct (fs_waitq_take_all (write_wq x) FS_WAITQ_MAX) as [ww qw]. destruct Hw as (Hw1&Hw2&Hw3).
  intros [= <- _ <-]. apply moved_ok; cbn; try done.
  - rewrite Hp. by intros [|].
  - by rewrite Hp.
  - by intros [|].
  - destruct Hx as [[] ? ? ? ? ?]. split; cbn; try done; [by intros u ?%Hr2|by intros u ?%Hw2].
  - by intros u ?%Hr2.
  - by intros u ?%Hw2.
  - intros u ?%Hr3. right. rewrite elem_of_app. by left.
  - intros u ?%Hw3. right. rewrite elem_of_app. by right.
  - intros u [?%Hr3|?%Hw3]%elem_of_app; auto.
Qed.

Lemma pipe_wake_ok u : u ∈ T -> wp nopanic (pipe_wake_task c u) (fun _ s' => exists q', inv s' q' T /\ mild s s' /\
  (s'.(g_cpu_count) = s.(g_cpu_count) /\ forall d, cur s' d = cur s d) /\ (gone (s.(tk) u).(state) = false -> live s' u)) s.
Proof using Hv.
  intros Hu. pose proof (v_inv _ _ _ Hv) as Hi. unfold pipe_wake_task. rewrite (proj2 (Z.eqb_neq u 0) (iv_task_nz _ _ _ _ Hi Hu)). wp_step. wp_step.
  assert (Hsame : live s u \/ gone (state (tk s u)) = true -> exists q', inv s q' T /\ mild s s /\
    (g_cpu_count s = g_cpu_count s /\ forall d, cur s d = cur s d) /\ (gone (state (tk s u)) = false -> live s u)).
  { intros Hor. exists q. split_and!; [done|apply mild_refl|done|done|]. destruct Hor as [?| ->]; done. }
  assert (Hwake : wp nopanic (_ ← task_wake c u; mret ()) (fun _ s' => exists q', inv s' q' T /\ mild s s' /\
    (s'.(g_cpu_count) = s.(g_cpu_count) /\ forall d, cur s' d = cur s d) /\ (gone (s.(tk) u).(state) = false -> live s' u)) s).
  { wp_step. apply (task_wake_ok _ T s q); [done|done|]. intros r s' q' Hi' Hk Hmi Hrd. wp_step. exists q'. split_and!; [done|done|apply Hk|intros d; apply Hk|]. intros Hg. left. auto. }
  destruct (state (tk s u)) eqn:Hsu; try exact Hwake; wp_step; apply Hsame; unfold live; rewrite Hsu; auto.
Qed.

Lemma pwake_step_ok u p' : woke (m.(pm_pc) t) = Some (u, p') -> wp nopanic (ptasks (pipe_wake_task c u)) (fun _ w => exists q', pinv (at_ m w t p') q' T) m.(pm_st).
Proof using Hv Hruns.
  intros Hwk. assert (Hp : pm_pc m t <> Out /\ ~ waits (pm_pc m t) /\ p' <> Out /\ ~ waits p' /\ ~ back p' /\ pend (pm_pc m t) = u :: pend p' /\ (user (pm_pc m t) t -> user p' t)).
  { destruct (pm_pc m t) as [| | | |[|] ? ?| | | |[|]|[|]]; try done; injection Hwk as <- <-; split_and!; try done; first [by intros [|]|by intros []]. }
  destruct Hp as (Hpo&Hnw&Hpo'&Hnp&Hnb&Hpend&Hus). pose proof (v_user _ _ _ Hv t) as Hu%Hus.
  destruct (user_facts m q T c t Hv Hruns) as (Ht&Ht0&Hlive); [done|done|].
  assert (HuT : u ∈ T) by (apply (v_target _ _ _ Hv t); rewrite Hpend; apply list_elem_of_here).
  unfold ptasks. wp_step. eapply wp_mono; [apply (pipe_wake_ok u HuT)|]. intros _ s' (q'&Hi'&Hmi&Hcur&Hwoken). exists q'.
  assert (Hnr : ~ waiting_in x.(read_wq) t) by (apply not_in_r; intros ?; apply Hnw; by left).
  assert (Hnww : ~ waiting_in x.(write_wq) t) by (apply not_in_w; intros ?; apply Hnw; by right).
  assert (Hlive' : live s' t) by (destruct (Hmi t) as [He|]; [unfold live; by rewrite He|by left]).
  apply (pgo_ok m q T t p' (mkPst s' x)); cbn; try done.
  - apply Hv.
  - intros v. destruct (Hmi v); [auto|]. right. left. by left.
  - intros v Hr. left. split; [done|]. by intros ->.
  - intros v Hr. left. split; [done|]. by intros ->.
  - auto.
  - auto.
  - intros _. destruct Hlive' as [->| ->]; done.
  - intros v Hin. apply (v_target _ _ _ Hv t). rewrite Hpend. by apply list_elem_of_further.
  - intros v. rewrite Hpend. intros [->|?]%elem_of_cons; [right|by left]. intros Hw. apply Hwoken, (v_part _ _ _ Hv). by apply waits_out.
Qed.

Lemma pyield_ok p' w : yielded (m.(pm_pc) t) = Some p' -> ptasks (run_op (OSchedule c)) m.(pm_st) = Ok (tt, w) -> exists q' T', pinv (at_ m w t p') q' T'.
Proof using Hv Hruns.
  intros Hp Hrun. pose proof (v_inv _ _ _ Hv) as Hi. destruct Hruns as [Hc Hct].
  destruct (pother_ok m q T (OSchedule c) w Hv) as (q'&T'&Hv'&He); [intros ? ? []|done|done|]. exists q', T'.
  apply (back_ok _ q' T' t p' Hv' Hp). intros d [Hd Hdt]. simpl in *. destruct He as (b&Hs). right.
  assert (Hd0 : is_cpu s d) by (unfold is_cpu in *; by rewrite <- (sd_cpus _ _ _ _ _ _ Hs)).
  destruct (decide (d = c)) as [->|Hne].
  - rewrite (sd_state _ _ _ _ _ _ Hs), decide_True by (by symmetry). done.
  - destruct (sd_other _ _ _ _ _ _ Hs d Hd0 Hne) as [_ Hsame]. destruct Hne. apply (cur_inj _ q T d c Hi); [done|done|]. by rewrite <- Hsame, Hct.
Qed.

Lemma resume_ok p' : resumed (m.(pm_pc) t) = Some p' -> pinv (at_ m m.(pm_st) t p') q T.
Proof using Hv Hruns.
  intros Hp. assert (Hf : pm_pc m t <> Out /\ ~ waits (pm_pc m t) /\ pend (pm_pc m t) = [] /\ ~ waits p' /\ pend p' = [] /\ (user (pm_pc m t) t -> user p' t)).
  { destruct (pm_pc m t) as [|[|] ?| | |[|] ? ?| | | |[|]|[|]]; try done; injection Hp as <-; split_and!; try done; by intros [|]. }
  destruct Hf as (H1&H2&H3&H4&H5&H6). destruct (user_facts m q T c t Hv Hruns) as (Ht&Ht0&Hlive); [done|done|]. apply psame_ok; try done. by apply H6, (v_user _ _ _ Hv).
Qed.
End step.

Section runs.
Context (HR : (length R <= FS_WAITQ_MAX)%nat) (HW : (length W <= FS_WAITQ_MAX)%nat).

Lemma pstep_inv m m' q T : pinv m q T -> pstep m m' -> exists q' T', pinv m' q' T'.
Proof using HR HW.
  intros Hv Hs. destruct Hs as [m c t src (Hr&Ht&Hp&Hst) HtW|m c t k (Hr&Ht&Hp&Hst) HtR Hk|m c t aux0 l free p (Hr&Ht&Hp&Hst) Hrefs Hrel
    |m c t src n r w Hr Hp Hne Hrun|m c t k r w Hr Hp Hrun|m c t p' w Hr Hp Hrun|m c t src n w Hr Hp Hrun|m c t k w Hr Hp Hrun
    |m c t u p' w Hr Hp Hrun|m c t p' Hr Hp|m o w Hh Hen Hrun].
  1-3: rewrite (all_tasks_is _ q T (v_inv _ _ _ Hv)) in Ht; assert (Hl : live (psc m) t) by (by right); exists q, T.
  - apply psame_ok; rewrite ?Hp; try done; by intros [|].
  - apply psame_ok; rewrite ?Hp; try done; by intros [|].
  - by apply (close_ok m q T t Hv aux0 l free p).
  - destruct (wp_done _ _ _ _ _ (write_pass_ok HR HW m q T c t Hv Hr src n Hp Hne) Hrun) as (q'&?). by exists q', T.
  - destruct (wp_done _ _ _ _ _ (read_pass_ok HR HW m q T c t Hv Hr k Hp) Hrun) as (q'&?). by exists q', T.
  - by apply (pyield_ok m q T c t Hv Hr p').
  - exists q, T. by apply (write_back_ok m q T c t).
  - exists q, T. by apply (read_back_ok m q T c t).
  - destruct (wp_done _ _ _ _ _ (pwake_step_ok m q T c t Hv Hr u p' Hp) Hrun) as (q'&?). by exists q', T.
  - exists q, T. by apply (resume_ok m q T c t).
  - destruct (pother_ok m q T o w Hv Hh Hen Hrun) as (q'&T'&?&_). by exists q', T'.
Qed.

(** A task that uses the pipe and runs can take its next step. *)
Lemma pstep_progress m q T c t : pinv m q T -> runs m c t -> m.(pm_pc) t <> Out -> exists m', pstep m m' /\ m'.(pm_pc) t <> m.(pm_pc) t.
Proof using HR HW.
  intros Hv Hr Hp. assert (Hpc : forall w p, pm_pc (at_ m w t p) t = p) by (intros w p; cbn; apply fset_eq).
  destruct (pm_pc m t) as [|[|b src] n|src n|src n|[|u l] src n|k|k|k|[|u l]|[|u l]] eqn:E; [done|..].
  - exists (at_ m (pm_st m) t Out). rewrite Hpc. split; [|done]. apply (p_resume m c t); [done|by rewrite E].
  - destruct (wp_run _ _ _ (write_pass_ok HR HW m q T c t Hv Hr (b :: src) n E ltac:(done))) as (r&w&Hrun&_).
    eexists. split; [by eapply p_write_pass|]. destruct r; [by rewrite Hpc..|]. cbn. by rewrite fset_eq.
  - destruct (wp_run _ _ _ (op_ok (psc m) q T (OSchedule c) (v_inv _ _ _ Hv) (proj1 Hr))) as ([]&s'&Hrun&_).
    exists (at_ m (mkPst s' (pipe m)) t (WBack src n)). rewrite Hpc. split; [|done]. eapply p_yield; [done|by rewrite E|]. unfold ptasks, lift. by rewrite Hrun.
  - eexists. split; [by eapply p_write_back|]. by rewrite Hpc.
  - exists (at_ m (pm_st m) t (Write src n)). rewrite Hpc. split; [|done]. apply (p_resume m c t); [done|by rewrite E].
  - destruct (wp_run _ _ _ (pwake_step_ok m q T c t Hv Hr u (WWake l src n) ltac:(by rewrite E))) as ([]&w&Hrun&_).
    exists (at_ m w t (WWake l src n)). rewrite Hpc. split; [by eapply p_wake; [done|rewrite E|]|]. intros [= He]. by apply (f_equal length) in He; cbn in He; lia.
  - destruct (wp_run _ _ _ (read_pass_ok HR HW m q T c t Hv Hr k E)) as (r&w&Hrun&_).
    eexists. split; [by eapply p_read_pass|]. destruct r; [by rewrite Hpc..|]. cbn. by rewrite fset_eq.
  - destruct (wp_run _ _ _ (op_ok (psc m) q T (OSchedule c) (v_inv _ _ _ Hv) (proj1 Hr))) as ([]&s'&Hrun&_).
    exists (at_ m (mkPst s' (pipe m)) t (RBack k)). rewrite Hpc. split; [|done]. eapply p_yield; [done|by rewrite E|]. unfold ptasks, lift. by rewrite Hrun.
  - eexists. split; [by eapply p_read_back|]. by rewrite Hpc.
  - exists (at_ m (pm_st m) t Out). rewrite Hpc. split; [|done]. apply (p_resume m c t); [done|by rewrite E].
  - destruct (wp_run _ _ _ (pwake_step_ok m q T c t Hv Hr u (RWake l) ltac:(by rewrite E))) as ([]&w&Hrun&_).
    exists (at_ m w t (RWake l)). rewrite Hpc. split; [by eapply p_wake; [done|rewrite E|]|]. intros [= He]. by apply (f_equal length) in He; cbn in He; lia.
  - exists (at_ m (pm_st m) t Out). rewrite Hpc. split; [|done]. apply (p_resume m c t); [done|by rewrite E].
  - destruct (wp_run _ _ _ (pwake_step_ok m q T c t Hv Hr u (CWake l) ltac:(by rewrite E))) as ([]&w&Hrun&_).
    exists (at_ m w t (CWake l)). rewrite Hpc. split; [by eapply p_wake; [done|rewrite E|]|]. intros [= He]. by apply (f_equal length) in He; cbn in He; lia.
Qed.
End runs.
End pipe.

(** * What pipes guarantee, and what they do not

    A pipe that is used by no more tasks than its slots hold delivers its
    bytes in order and leaves nobody asleep; with one reader more, a reader
    is forgotten. *)
(** From a new pipe that nobody uses; [b] is what its pages held before. *)
Inductive preach (R W : list Z) : pmach -> Prop :=
  | preach_start s b : reach s -> zlen b = PIPE_BUF_SIZE -> preach R W (mkPm (mkPst s (new_pipe b)) (fun _ => Out) [] [])
  | preach_step m m' : preach R W m -> pstep R W m m' -> preach R W m'.

Lemma init_wf : waitq_wf fs_waitq_init.
Proof. split; [done|]. apply NoDup_nil_2. Qed.
Lemma init_empty t : ~ waiting_in fs_waitq_init t.
Proof. intros [Ht (->&_)%elem_of_replicate]. done. Qed.

Lemma preach_inv R W m : (length R <= FS_WAITQ_MAX)%nat -> (length W <= FS_WAITQ_MAX)%nat -> preach R W m -> exists q T, pinv R W m q T.
Proof.
  intros HR HW. induction 1 as [s b Hr Hb|m m' Hr (q&T&Hv) Hs]; [|by eapply pstep_inv].
  destruct (reach_inv _ Hr) as (q&T&Hi). exists q, T. split; cbn; try done; try (by intros t ?%init_empty).
  - split; cbn; try apply init_wf; [by apply new_pipe_wf|done|by intros t ?%init_empty..].
  - by intros t [|].
  - by intros v t ?%not_elem_of_nil.
Qed.

(** C20: a pipe is a bounded queue of bytes, whatever tasks read, write and
    close it, on whatever CPUs and among whatever else the kernel does: what
    has come out, followed by what is in it, is what went in, and it never
    holds more than its size.  A task in the middle of a call that gets a CPU
    can go on: no assertion fails. *)
Theorem pipe_delivers R W m : (length R <= FS_WAITQ_MAX)%nat -> (length W <= FS_WAITQ_MAX)%nat -> preach R W m ->
  m.(sent) = m.(got) ++ contents (pipe m) /\ zlen (contents (pipe m)) <= PIPE_BUF_SIZE /\
  forall c t, runs m c t -> m.(pm_pc) t <> Out -> exists m', pstep R W m m' /\ m'.(pm_pc) t <> m.(pm_pc) t.
Proof.
  intros HR HW Hr. destruct (preach_inv R W m HR HW Hr) as (q&T&Hv). pose proof (v_pipe _ _ _ _ _ Hv) as Hx. split; [apply Hx|].
  pose proof (k_wf _ _ _ Hx) as Hwf. rewrite zlen_contents by done. split; [apply Hwf|]. intros c t. by apply (pstep_progress R W HR HW m q T).
Qed.


(** ** Runs *)

(** Task 100 runs on CPU 0. *)
Definition ex_pm : pmach := mkPm (mkPst two_tasks (new_pipe (replicate 4096 0))) (fun _ => Out) [] [].

Lemma ex_runs m : psc m = two_tasks \/ cur (psc m) 0 = 100 /\ g_cpu_count (psc m) = 2 -> runs m 0 100.
Proof. intros [He|[H1 H2]]; (split; [unfold is_cpu|]); [rewrite He|rewrite He|rewrite H2; lia|done]; by vm_compute. Qed.
Lemma ex_user : idle_user ex_pm 0 100.
Proof.
  split_and!; [apply ex_runs; by left| |done|by vm_compute].
  cbn. replace (all_tasks two_tasks) with [400; 300; 100] by (by vm_compute). do 2 apply list_elem_of_further. apply list_elem_of_here.
Qed.
Lemma ex_start R W : preach R W ex_pm.
Proof. apply preach_start; [apply two_tasks_reach|done]. Qed.

(** It writes two bytes. *)
Definition ex_w1 : pmach := at_ ex_pm ex_pm.(pm_st) 100 (Write [7; 8] 0).
Definition ex_w2 : pmach := puts (at_ ex_w1 (run_state (pipe_write_pass 100 [7; 8] 0) ex_w1.(pm_st)) 100 (WWake [] [] 2)) [7; 8].

Lemma ex_w2_reach : preach [300; 400] [100] ex_w2.
Proof.
  apply (preach_step _ _ ex_w1); [apply (preach_step _ _ ex_pm); [apply ex_start|]|].
  - apply (p_write _ _ ex_pm 0 100 [7; 8] ex_user). apply list_elem_of_here.
  - apply (p_write_pass _ _ ex_w1 0 100 [7; 8] 0 (WMore [] 2 [])); [apply ex_runs; by left|done|done|].
    rewrite (run_ok _ _ WSleep) by (by vm_compute). by do 2 f_equal.
Qed.

Lemma pipe_delivers_witness : preach [300; 400] [100] ex_w2 /\ ex_w2.(sent) = [7; 8] /\ ex_w2.(sent) = ex_w2.(got) ++ contents (pipe ex_w2) /\
  exists m', pstep [300; 400] [100] ex_w2 m' /\ m'.(pm_pc) 100 <> ex_w2.(pm_pc) 100.
Proof.
  destruct (pipe_delivers [300; 400] [100] ex_w2 ltac:(cbn; lia) ltac:(cbn; lia) ex_w2_reach) as (H1&_&H2).
  split; [exact ex_w2_reach|]. split; [reflexivity|]. split; [exact H1|]. apply (H2 0 100); [|by cbn]. apply ex_runs. right. by split; vm_compute.
Defined.

(** It reads from the empty pipe. *)
Definition ex_r1 : pmach := at_ ex_pm ex_pm.(pm_st) 100 (Read 5).
Definition ex_r2 : pmach := at_ ex_r1 (run_state (pipe_read_pass 100 5) ex_r1.(pm_st)) 100 (RYield 5).

Lemma ex_r2_reach : preach [100] [300; 400] ex_r2.
Proof.
  apply (preach_step _ _ ex_r1); [apply (preach_step _ _ ex_pm); [apply ex_start|]|].
  - apply (p_read _ _ ex_pm 0 100 5 ex_user); [apply list_elem_of_here|done].
  - apply (p_read_pass _ _ ex_r1 0 100 5 RSleep); [apply ex_runs; by left|done|].
    rewrite (run_ok _ _ REof) by (by vm_compute). by do 2 f_equal.
Qed.


(** ** One reader too many *)

(** One CPU, task 100 and five more. *)
Definition five_tasks : ss :=
  run_state (each [301; 302; 303; 304; 305] (fun t => run_op (OCreate t 0))) (run_state (boot 1 100 (fun _ => 200)) (zero_ss (fun _ => 0) 1 (fun _ => true) false)).

(** The CPU goes on to the next task. *)
Definition switch : P unit := ptasks (run_op (OSchedule 0));; ptasks (run_op (OFinish 0)).

(** Each of the five asks for one byte of the empty pipe and sleeps; task 100
    writes five bytes and closes its end, waking whom it finds in the slots;
    those it woke take their bytes. *)
Definition five_readers : P unit :=
  each [301; 302; 303; 304; 305] (fun t => switch;; ignore (pipe_read_pass t 1));;
  switch;;
  r ← pipe_write_pass 100 [1; 2; 3; 4; 5] 0;
  match r with WMore l _ _ => ptasks (each l (pipe_wake_task 0)) | _ => mret () end;;
  p ← gets q_pipe;
  let '(l, _, p) := pipe_release p PIPE_END_WRITE in
  upd_pipe (fun _ => p);; ptasks (each l (pipe_wake_task 0));;
  each [301; 302; 303; 304] (fun t => switch;; pipe_read_back t;; ignore (pipe_read_pass t 1)).


(** ** A small write that is split *)

(** Task 301 fills the pipe but for one byte and writes two more; the first
    fits.  A reader empties the pipe and task 302 writes one byte before 301
    goes on. *)
Definition split_write : P read_pass :=
  _ ← pipe_write_pass 301 (replicate 4095 0) 0;
  _ ← pipe_write_pass 301 [1; 2] 0;
  _ ← pipe_read_pass 303 4096;
  _ ← pipe_write_pass 302 [9] 0;
  _ ← pipe_write_pass 301 [2] 1;
  pipe_read_pass 303 4096.

(** A write of two bytes, less than PIPE_BUF, is torn apart by another
    writer's. *)
Theorem small_write_split : run_value split_write (mkPst five_tasks (new_pipe (replicate 4096 0))) REof = RData [9; 2] [].
Proof. by vm_compute. Qed.
