(* ===== verification/Fd.v ===== *)
(** * Descriptors (kernel/fs.c, kernel/sys_fs.c, include/fs.h)

    The descriptor tables of the processes, the open-file objects they share,
    and the pipes behind them.  A file object is a page of the allocator and a
    pipe two; both are named by their address.  Objects of consoles and pipes
    are made here; those of the other backends go through the same tables.
    [d_wake] collects the tasks handed to [pipe_wake_list]. *)
From S2P Require Import Prelude State Pmm Task Pipe.

Abbreviation FT_MAX_FDS := 256.
Abbreviation EBADF := 9.
Abbreviation ENOMEM := 12.
Abbreviation EINVAL := 22.
Abbreviation EMFILE := 24.
Abbreviation O_RDONLY := 0.
Abbreviation O_WRONLY := 1.
Abbreviation FD_CLOEXEC := 1.
Abbreviation ORTH_O_ACCMODE := 3.
Abbreviation ORTH_LINUX_O_CLOEXEC := 0x80000.
Abbreviation ORTH_LINUX_O_NONBLOCK := 0x800.
Abbreviation PIPE_PAGES := 2.

Inductive file_type_t :=
  | FT_UNUSED | FT_CONSOLE | FT_MODULE | FT_RAMFS | FT_PIPE | FT_SOCKET | FT_USB | FT_XV6FS | FT_RAWDEV | FT_CHARDEV | FT_DIR.
#[export] Instance file_type_eq_dec : EqDecision file_type_t.
Proof. solve_decision. Defined.

(** [g_console_file_ops], [g_pipe_file_ops]; null is [NoOps]. *)
Inductive fs_file_ops_t := NoOps | ConsoleOps | PipeOps.

Record fs_file_t := mkFile { f_ref : Z; f_type : file_type_t; f_ops : fs_file_ops_t; private_data : Z; f_aux0 : Z }.
Record file_descriptor_t := mkFd { fd_type : file_type_t; fd_file : Z; fd_data : Z; fd_aux0 : Z; in_use : bool; fd_oflags : Z; fd_flags : Z }.
Definition no_fd : file_descriptor_t := mkFd FT_UNUSED 0 0 0 false 0 0.

Record fdst := mkFdst {
  d_pmm : pmm; d_file : Z -> fs_file_t; d_pipe : Z -> pipe_t; d_tab : list (list file_descriptor_t); d_wake : list Z }.
Abbreviation F := (ST fdst).

Definition with_pages (s : fdst) (p : pmm) : fdst := mkFdst p s.(d_file) s.(d_pipe) s.(d_tab) s.(d_wake).
Definition with_file (s : fdst) (f : Z) (x : fs_file_t) : fdst := mkFdst s.(d_pmm) (fset s.(d_file) f x) s.(d_pipe) s.(d_tab) s.(d_wake).
Definition with_pipe (s : fdst) (p : Z) (x : pipe_t) : fdst := mkFdst s.(d_pmm) s.(d_file) (fset s.(d_pipe) p x) s.(d_tab) s.(d_wake).
Definition with_tab (s : fdst) (D : list (list file_descriptor_t)) : fdst := mkFdst s.(d_pmm) s.(d_file) s.(d_pipe) D s.(d_wake).
Definition with_wake (s : fdst) (l : list Z) : fdst := mkFdst s.(d_pmm) s.(d_file) s.(d_pipe) s.(d_tab) (s.(d_wake) ++ l).

Definition falloc (n : Z) : F Z := fun s => let '(pa, p) := pmm_alloc s.(d_pmm) n in Ok (pa, with_pages s p).
Definition ffree (pa n : Z) : F unit := modify (fun s => with_pages s (pmm_free s.(d_pmm) pa n)).

(** [current->fds[fd]] of process [i]. *)
Definition get_fd (i : nat) (fd : Z) : F file_descriptor_t := fun s =>
  match s.(d_tab) !! i with
  | Some t => match t !! Z.to_nat fd with
              | Some d => if 0 <=? fd then Ok (d, s) else Halt Undefined
              | None => Halt Undefined
              end
  | None => Halt Undefined
  end.
Definition set_tab (D : list (list file_descriptor_t)) (i : nat) (fd : Z) (d : file_descriptor_t) : list (list file_descriptor_t) :=
  alter (fun t => <[Z.to_nat fd := d]> t) i D.
Definition set_fd (i : nat) (fd : Z) (d : file_descriptor_t) : F unit := modify (fun s => with_tab s (set_tab s.(d_tab) i fd d)).

(** [fd < 0 || fd >= MAX_FDS || !current->fds[fd].in_use] *)
Definition bad_fd (i : nat) (fd : Z) : F bool :=
  if (fd <? 0) || (FT_MAX_FDS <=? fd) then mret true else d ← get_fd i fd; mret (negb d.(in_use)).

(** ** File objects *)
Definition fs_alloc_file : F Z :=
  phys ← falloc 1;
  if phys =? 0 then mret 0 else
  modify (fun s => with_file s phys (mkFile 1 FT_UNUSED NoOps 0 0));; mret phys.

Definition set_ref (x : fs_file_t) (n : Z) : fs_file_t := mkFile n x.(f_type) x.(f_ops) x.(private_data) x.(f_aux0).
Definition fs_file_get (f : Z) : F unit :=
  if f =? 0 then mret () else modify (fun s => with_file s f (set_ref (s.(d_file) f) ((s.(d_file) f).(f_ref) + 1))).

Definition fs_release_pipe_file (f : Z) : F unit :=
  s ← getS;
  let x := s.(d_file) f in
  let pipe := x.(private_data) in
  if pipe =? 0 then mret () else
  let '(l, free_pipe, p) := pipe_release (s.(d_pipe) pipe) x.(f_aux0) in
  modify (fun s => with_wake (with_pipe s pipe p) l);;
  if free_pipe then ffree pipe PIPE_PAGES else mret ().

Definition fs_file_put (f : Z) : F unit :=
  if f =? 0 then mret () else
  modify (fun s => with_file s f (set_ref (s.(d_file) f) ((s.(d_file) f).(f_ref) - 1)));;
  s ← getS;
  if 0 <? (s.(d_file) f).(f_ref) then mret () else
  (match (s.(d_file) f).(f_ops) with PipeOps => fs_release_pipe_file f | _ => mret () end);;
  ffree f 1.

(** ** Descriptors *)
Definition fs_assert_open_file_consistent (d : file_descriptor_t) : F unit :=
  if negb d.(in_use) || (d.(fd_file) =? 0) then mret () else
  s ← getS;
  kassert (0 <? (s.(d_file) d.(fd_file)).(f_ref)) Asserted;;
  kassert (bool_decide ((s.(d_file) d.(fd_file)).(f_type) = d.(fd_type))) Asserted.

Definition fs_release_fd (i : nat) (fd : Z) : F unit :=
  d ← get_fd i fd;
  if negb d.(in_use) then mret () else
  fs_assert_open_file_consistent d;;
  (if negb (d.(fd_file) =? 0) then fs_file_put d.(fd_file) else
   match d.(fd_type) with
   | FT_DIR | FT_XV6FS => if negb (d.(fd_data) =? 0) && negb (d.(fd_aux0) =? 0) then ffree d.(fd_data) d.(fd_aux0) else mret ()
   | _ => mret ()
   end);;
  set_fd i fd no_fd.

Definition fs_fd_has_private_copy (d : file_descriptor_t) : bool :=
  (d.(fd_file) =? 0) && match d.(fd_type) with FT_DIR | FT_XV6FS => true | _ => false end.

(** [src] goes to descriptor [fd] of process [i]; the bytes of a private copy
    are not part of the state. *)
Definition fs_clone_fd (i : nat) (fd : Z) (src : file_descriptor_t) : F Z :=
  set_fd i fd src;;
  if negb src.(in_use) then mret 0 else
  if negb (src.(fd_file) =? 0) then fs_file_get src.(fd_file);; mret 0 else
  if fs_fd_has_private_copy src && negb (src.(fd_data) =? 0) && negb (src.(fd_aux0) =? 0) then
    phys ← falloc src.(fd_aux0);
    if phys =? 0 then set_fd i fd no_fd;; mret (-1) else
    set_fd i fd (mkFd src.(fd_type) src.(fd_file) phys src.(fd_aux0) src.(in_use) src.(fd_oflags) src.(fd_flags));; mret 0
  else mret 0.

Definition set_fd_flags (i : nat) (fd : Z) (g : Z -> Z) : F unit :=
  d ← get_fd i fd; set_fd i fd (mkFd d.(fd_type) d.(fd_file) d.(fd_data) d.(fd_aux0) d.(in_use) d.(fd_oflags) (g d.(fd_flags))).
Definition set_oflags (i : nat) (fd : Z) (g : Z -> Z) : F unit :=
  d ← get_fd i fd; set_fd i fd (mkFd d.(fd_type) d.(fd_file) d.(fd_data) d.(fd_aux0) d.(in_use) (g d.(fd_oflags)) d.(fd_flags)).

Definition fs_dup_fd (i : nat) (fd : Z) (src : file_descriptor_t) : F Z :=
  rc ← fs_clone_fd i fd src; if rc <? 0 then mret (-1) else set_fd_flags i fd (fun _ => 0);; mret 0.

(** On a descriptor that is not in use. *)
Definition fs_init_console_fd (i : nat) (fd flags : Z) : F Z :=
  set_fd i fd no_fd;;
  file ← fs_alloc_file;
  if file =? 0 then mret (-1) else
  modify (fun s => with_file s file (mkFile (s.(d_file) file).(f_ref) FT_CONSOLE ConsoleOps (s.(d_file) file).(private_data) (s.(d_file) file).(f_aux0)));;
  set_fd i fd (mkFd FT_CONSOLE file 0 0 true flags 0);; mret 0.

(** ** Calls of process [i] *)
Definition fs_close (i : nat) (fd : Z) : F Z :=
  bad ← bad_fd i fd;
  if bad : bool then mret (- EBADF) else
  d ← get_fd i fd;
  fs_assert_open_file_consistent d;;
  fs_release_fd i fd;; mret 0.

Definition fs_dup2 (i : nat) (oldfd newfd : Z) : F Z :=
  bad ← bad_fd i oldfd;
  if bad : bool then mret (- EBADF) else
  if (newfd <? 0) || (FT_MAX_FDS <=? newfd) then mret (- EBADF) else
  if oldfd =? newfd then mret newfd else
  d ← get_fd i newfd;
  (if d.(in_use) then _ ← fs_close i newfd; mret () else mret ());;
  src ← get_fd i oldfd;
  rc ← fs_dup_fd i newfd src;
  mret (if rc <? 0 then - EMFILE else newfd).

(** The first descriptor from [fd] on that is not in use. *)
Fixpoint free_fd (n : nat) (i : nat) (fd : Z) : F (option Z) :=
  match n with
  | O => mret None
  | S n => d ← get_fd i fd; if d.(in_use) then free_fd n i (fd + 1) else mret (Some fd)
  end.

Definition sys_dup (i : nat) (oldfd : Z) : F Z :=
  bad ← bad_fd i oldfd;
  if bad : bool then mret (- EBADF) else
  r ← free_fd (Z.to_nat FT_MAX_FDS) i 0;
  match r with
  | None => mret (- EMFILE)
  | Some newfd =>
      src ← get_fd i oldfd;
      rc ← fs_clone_fd i newfd src;
      if rc <? 0 then mret (- EBADF) else set_fd_flags i newfd (fun _ => 0);; mret newfd
  end.

Definition sys_dup3 (i : nat) (oldfd newfd flags : Z) : F Z :=
  bad ← bad_fd i oldfd;
  if bad : bool then mret (- EBADF) else
  if (newfd <? 0) || (FT_MAX_FDS <=? newfd) then mret (- EBADF) else
  if oldfd =? newfd then mret (- EINVAL) else
  d ← get_fd i newfd;
  (if d.(in_use) then fs_release_fd i newfd else mret ());;
  src ← get_fd i oldfd;
  rc ← fs_clone_fd i newfd src;
  if rc <? 0 then mret (- EBADF) else
  set_fd_flags i newfd (fun _ => if negb (Z.land flags 0x80000 =? 0) then FD_CLOEXEC else 0);; mret newfd.

Inductive fcntl_cmd := F_DUPFD | F_DUPFD_CLOEXEC | F_DUPFD_CLOEXEC_LINUX | F_GETFD | F_SETFD | F_GETFL | F_SETFL | F_OTHER.

(** [minfd] and the flags are [(int)arg]. *)
Definition fs_fcntl (i : nat) (fd : Z) (cmd : fcntl_cmd) (arg : Z) : F Z :=
  bad ← bad_fd i fd;
  if bad : bool then mret (- EBADF) else
  match cmd with
  | F_DUPFD | F_DUPFD_CLOEXEC | F_DUPFD_CLOEXEC_LINUX =>
      let minfd := s32 arg in
      if minfd <? 0 then mret (- EINVAL) else
      r ← free_fd (Z.to_nat (FT_MAX_FDS - minfd)) i minfd;
      match r with
      | None => mret (- EMFILE)
      | Some newfd =>
          rc ← fs_dup2 i fd newfd;
          if rc <? 0 then mret (- EMFILE) else
          set_fd_flags i newfd (fun _ => match cmd with F_DUPFD => 0 | _ => FD_CLOEXEC end);; mret newfd
      end
  | F_GETFD => d ← get_fd i fd; mret d.(fd_flags)
  | F_SETFD => set_fd_flags i fd (fun _ => Z.land (s32 arg) FD_CLOEXEC);; mret 0
  | F_GETFL => d ← get_fd i fd; mret d.(fd_oflags)
  | F_SETFL => set_oflags i fd (fun o => Z.lor (Z.land o ORTH_O_ACCMODE) (Z.land (s32 arg) (Z.lnot ORTH_O_ACCMODE)));; mret 0
  | F_OTHER => mret (- EINVAL)
  end.

(** The file object of an end of the pipe. *)
Definition pipe_end (s : fdst) (f pipe aux0 : Z) : fs_file_t := mkFile (s.(d_file) f).(f_ref) FT_PIPE PipeOps pipe aux0.

(** The result, and the two descriptors if it is 0.  [b] is what the pages of
    the pipe hold. *)
Definition fs_pipe (i : nat) (b : list Z) : F (Z * (Z * Z)) :=
  r1 ← free_fd (Z.to_nat FT_MAX_FDS) i 0;
  r2 ← (match r1 with Some fd1 => free_fd (Z.to_nat (FT_MAX_FDS - (fd1 + 1))) i (fd1 + 1) | None => mret None end);
  match r1, r2 with
  | Some fd1, Some fd2 =>
      phys ← falloc PIPE_PAGES;
      if phys =? 0 then mret (- ENOMEM, (0, 0)) else
      modify (fun s => with_pipe s phys (new_pipe b));;
      read_file ← fs_alloc_file;
      write_file ← fs_alloc_file;
      if (read_file =? 0) || (write_file =? 0) then
        (if negb (read_file =? 0) then fs_file_put read_file else mret ());;
        (if negb (write_file =? 0) then fs_file_put write_file else mret ());;
        ffree phys PIPE_PAGES;; mret (- ENOMEM, (0, 0))
      else
        modify (fun s => with_file s read_file (pipe_end s read_file phys PIPE_END_READ));;
        modify (fun s => with_file s write_file (pipe_end s write_file phys PIPE_END_WRITE));;
        d1 ← get_fd i fd1;
        set_fd i fd1 (mkFd FT_PIPE read_file 0 d1.(fd_aux0) true O_RDONLY d1.(fd_flags));;
        d2 ← get_fd i fd2;
        set_fd i fd2 (mkFd FT_PIPE write_file 0 d2.(fd_aux0) true O_WRONLY d2.(fd_flags));;
        mret (0, (fd1, fd2))
  | _, _ => mret (- EMFILE, (0, 0))
  end.

Definition fs_pipe2 (i : nat) (b : list Z) (flags : Z) : F (Z * (Z * Z)) :=
  if negb (Z.land flags (Z.lnot (Z.lor ORTH_LINUX_O_CLOEXEC ORTH_LINUX_O_NONBLOCK)) =? 0) then mret (- EINVAL, (0, 0)) else
  r ← fs_pipe i b;
  if r.1 <? 0 then mret r else
  (if negb (Z.land flags ORTH_LINUX_O_CLOEXEC =? 0) then
     set_fd_flags i r.2.1 (fun g => Z.lor g FD_CLOEXEC);; set_fd_flags i r.2.2 (fun g => Z.lor g FD_CLOEXEC)
   else mret ());;
  mret (0, r.2).

(** The descriptors [l], one after the other. *)
Fixpoint over (l : list Z) (body : Z -> F unit) : F unit :=
  match l with [] => mret () | fd :: l => body fd;; over l body end.
Definition all_fds : list Z := seqZ 0 FT_MAX_FDS.

(** In [task_execve]. *)
Definition fs_close_cloexec_descriptors (i : nat) : F unit :=
  over all_fds (fun fd => d ← get_fd i fd;
    if d.(in_use) && negb (Z.land d.(fd_flags) FD_CLOEXEC =? 0) then fs_release_fd i fd else mret ()).

(** In [sys_exit]. *)
Definition exit_fds (i : nat) : F unit :=
  over all_fds (fun fd => d ← get_fd i fd; if d.(in_use) then _ ← fs_close i fd; mret () else mret ()).

(** In [task_fork]; -1 gives the child up again. *)
Fixpoint clone_fds (l done : list Z) (i child : nat) : F Z :=
  match l with
  | [] => mret 0
  | fd :: l =>
      src ← get_fd i fd;
      rc ← fs_clone_fd child fd src;
      if rc <? 0 then over done (fs_release_fd child);; mret (-1) else clone_fds l (done ++ [fd]) i child
  end.
(** The zeroed descriptors of [alloc_task_struct]: process number [length d_tab]. *)
Definition new_table : F nat :=
  child ← gets (fun s => length s.(d_tab));
  modify (fun s => with_tab s (s.(d_tab) ++ [replicate (Z.to_nat FT_MAX_FDS) no_fd]));; mret child.
Definition fork_fds (i : nat) : F Z := child ← new_table; clone_fds all_fds [] i child.

(** In [task_init] and [task_create_on_cpu]: the consoles of a new task. *)
Definition init_console_fds (i : nat) : F unit :=
  _ ← fs_init_console_fd i 0 O_RDONLY; _ ← fs_init_console_fd i 1 O_WRONLY; _ ← fs_init_console_fd i 2 O_WRONLY; mret ().
Abbreviation create_fds := (i ← new_table; init_console_fds i).
