(* ===== verification/FdOk.v ===== *)
(** * Descriptors are counted right

    Every file object is referred to by as many descriptors as it says, every
    pipe by as many objects, and their pages are theirs alone; every call
    keeps this and fails no assertion. *)
From S2P Require Import Prelude State Links Pmm VmCow PtInv Vmm Task Runq PmmRuns Pipe Fd.

(** ** Counting *)
Fixpoint cnt {A} (P : A -> bool) (l : list A) : Z :=
  match l with [] => 0 | x :: l => Z.b2z (P x) + cnt P l end.

Section cnt.
Context {A : Type} (P : A -> bool).

Lemma cnt_app l k : cnt P (l ++ k) = cnt P l + cnt P k.
Proof. induction l as [|x l IH]; cbn; lia. Qed.
Lemma cnt_nonneg l : 0 <= cnt P l.
Proof. induction l as [|x l IH]; cbn; [done|]. destruct (P x); cbn; lia. Qed.
Lemma cnt_zero l : cnt P l = 0 <-> forall x, x ∈ l -> P x = false.
Proof.
  induction l as [|x l IH]; cbn; [split; [by intros _ y ?%not_elem_of_nil|done]|]. pose proof (cnt_nonneg l). split.
  - intros He y [->|Hy]%elem_of_cons; [destruct (P x); cbn in *; [lia|done]|]. apply IH; [|done]. destruct (P x); cbn in *; lia.
  - intros Hall. rewrite (Hall x (list_elem_of_here _ _)), (proj2 IH); [done|]. intros y Hy. by apply Hall, list_elem_of_further.
Qed.
Lemma cnt_pos l x : x ∈ l -> P x = true -> 0 < cnt P l.
Proof. intros Hx Hp. pose proof (cnt_nonneg l). destruct (decide (cnt P l = 0)) as [He|]; [|lia]. rewrite (proj1 (cnt_zero l) He x Hx) in Hp. done. Qed.
Lemma cnt_insert l k x y : l !! k = Some x -> cnt P (<[k := y]> l) = cnt P l - Z.b2z (P x) + Z.b2z (P y).
Proof.
  revert k. induction l as [|z l IH]; intros [|k]; [done..|intros [= ->]; cbn; lia|]. intros Hk.
  change (<[S k := y]> (z :: l)) with (z :: <[k := y]> l). cbn [cnt]. rewrite (IH k Hk). lia.
Qed.
End cnt.

Lemma cnt_ext {A} (P P' : A -> bool) l : (forall x, x ∈ l -> P x = P' x) -> cnt P l = cnt P' l.
Proof.
  induction l as [|x l IH]; intros He; cbn; [done|]. rewrite (He x (list_elem_of_here _ _)), IH; [done|]. intros y Hy. by apply He, list_elem_of_further.
Qed.

Lemma cnt_without (P : Z -> bool) f l : NoDup l -> f ∈ l -> cnt P (without f l) = cnt P l - Z.b2z (P f).
Proof.
  intros Hn Hf. induction l as [|x l IH]; [by apply not_elem_of_nil in Hf|]. apply NoDup_cons in Hn as [Hx Hn]. unfold without in *. rewrite filter_cons.
  destruct (decide (x <> f)) as [Hne|He].
  - apply elem_of_cons in Hf as [->|Hf]; [done|]. cbn. rewrite IH by done. lia.
  - assert (x = f) as -> by (by destruct (decide (x = f))). cbn. rewrite filter_ne_id by done. lia.
Qed.

(** ** Tables *)
Abbreviation tables := (list (list file_descriptor_t)).
Definition refers (f : Z) (d : file_descriptor_t) : bool := d.(in_use) && (d.(fd_file) =? f).
Definition refs (D : tables) (f : Z) : Z := cnt (refers f) (mjoin D).

(** Descriptor [fd] of process [i]. *)
Definition at_fd (D : tables) (i : nat) (fd : Z) : option file_descriptor_t := if 0 <=? fd then D !! i ≫= fun t => t !! Z.to_nat fd else None.

Lemma join_cons {A} (t : list A) D : mjoin (t :: D) = t ++ mjoin D.
Proof. done. Qed.

Lemma join_app {A} (D D' : list (list A)) : mjoin (D ++ D') = mjoin D ++ mjoin D'.
Proof. induction D as [|t D IH]; [done|]. cbn [app]. by rewrite !join_cons, IH, app_assoc. Qed.

Lemma at_fd_in D i fd d : at_fd D i fd = Some d -> d ∈ mjoin D.
Proof.
  unfold at_fd. destruct (0 <=? fd); [|done]. intros (t&Ht&Hd)%bind_Some. apply list_elem_of_join. exists t. split; by eapply list_elem_of_lookup_2.
Qed.

Lemma at_fd_lt D i fd d : at_fd D i fd = Some d -> (i < length D)%nat.
Proof. unfold at_fd. destruct (0 <=? fd); [|done]. intros (t&Ht&_)%bind_Some. by eapply lookup_lt_Some. Qed.

Lemma cnt_set_tab P D i fd d d0 : at_fd D i fd = Some d0 -> cnt P (mjoin (set_tab D i fd d)) = cnt P (mjoin D) - Z.b2z (P d0) + Z.b2z (P d).
Proof.
  unfold at_fd, set_tab. destruct (0 <=? fd); [|done]. intros (t&Ht&Hd)%bind_Some. revert i Ht. induction D as [|u D IH]; intros [|i]; [done..| |].
  - intros [= ->]. change (alter ?f 0%nat (t :: D)) with (f t :: D). rewrite !join_cons, !cnt_app, (cnt_insert P t _ d0 d Hd). lia.
  - intros Hi. change (alter ?f (S i) (u :: D)) with (u :: alter f i D). rewrite !join_cons, !cnt_app, (IH i Hi). lia.
Qed.

Lemma in_set_tab D i fd d x : x ∈ mjoin (set_tab D i fd d) -> x = d \/ x ∈ mjoin D.
Proof.
  intros (t&Hx&Ht)%list_elem_of_join. apply list_elem_of_lookup in Ht as (j&Hj). unfold set_tab in Hj.
  destruct (decide (j = i)) as [->|Hne].
  - rewrite list_lookup_alter_eq in Hj. apply fmap_Some in Hj as (u&Hu&->). apply list_elem_of_lookup in Hx as (k&Hk).
    destruct (decide (k = Z.to_nat fd)) as [->|Hk'].
    + left. destruct (decide (Z.to_nat fd < length u)%nat); [rewrite list_lookup_insert_eq in Hk by done; by injection Hk|].
      rewrite list_insert_ge in Hk by lia. apply lookup_lt_Some in Hk. lia.
    + right. rewrite list_lookup_insert_ne in Hk by done. apply list_elem_of_join. exists u. split; by eapply list_elem_of_lookup_2.
  - right. rewrite list_lookup_alter_ne in Hj by done. apply list_elem_of_join. exists t. split; [done|by eapply list_elem_of_lookup_2].
Qed.

Lemma at_set_tab D i fd d j fd' : is_Some (at_fd D i fd) -> 0 <= fd' ->
  at_fd (set_tab D i fd d) j fd' = if decide (j = i /\ fd' = fd) then Some d else at_fd D j fd'.
Proof.
  unfold at_fd, set_tab. destruct (Z.leb_spec 0 fd) as [H0|]; [|by intros [? [=]]]. intros [d0 (t&Ht&Hd)%bind_Some] H1. rewrite (proj2 (Z.leb_le 0 fd')) by done.
  destruct (decide (j = i)) as [->|Hne].
  - rewrite list_lookup_alter_eq, Ht. cbn. destruct (decide (fd' = fd)) as [->|Hf].
    + rewrite decide_True by done. apply list_lookup_insert_eq. by eapply lookup_lt_Some.
    + rewrite decide_False by tauto. apply list_lookup_insert_ne. lia.
  - rewrite decide_False by tauto. by rewrite list_lookup_alter_ne by done.
Qed.

Definition shaped (D : tables) : Prop := Forall (fun t => length t = Z.to_nat FT_MAX_FDS) D.
Lemma shaped_at D i fd : shaped D -> (i < length D)%nat -> 0 <= fd < FT_MAX_FDS -> is_Some (at_fd D i fd).
Proof.
  intros Hs Hi Hf. unfold at_fd. rewrite (proj2 (Z.leb_le 0 fd)) by lia. destruct (lookup_lt_is_Some_2 D i Hi) as [t Ht]. rewrite Ht. cbn.
  apply lookup_lt_is_Some_2. rewrite (Forall_lookup_1 _ _ _ _ Hs Ht). lia.
Qed.
Lemma shaped_set D i fd d : shaped D -> shaped (set_tab D i fd d).
Proof. intros Hs. apply Forall_alter; [done|]. intros t Ht Hl. by rewrite length_insert. Qed.
Lemma length_set D i fd d : length (set_tab D i fd d) = length D.
Proof. apply length_alter. Qed.

(** ** Pages *)

(** The pages of the file objects [FL] and of the pipes [Q] are allocated,
    each for one of them. *)
Record heap (p : pmm) (FL Q : list Z) : Prop := {
  h_pmm : pmm_ok p;
  h_zero : ~ free_at p 0;
  h_files : NoDup FL;
  h_pipes : NoDup Q;
  h_file : forall f, f ∈ FL -> f <> 0 /\ aligned f /\ pmm_get_ref p f = 1;
  h_pipe : forall x, x ∈ Q -> x <> 0 /\ forall g, run x PIPE_PAGES g -> g <> 0 /\ aligned g /\ pmm_get_ref p g = 1;
  h_apart : forall f x, f ∈ FL -> x ∈ Q -> ~ run x PIPE_PAGES f;
  h_disjoint : forall x y g, x ∈ Q -> y ∈ Q -> run x PIPE_PAGES g -> run y PIPE_PAGES g -> x = y }.

(** Pages of neither. *)
Definition spare (p : pmm) (FL Q : list Z) (pa n : Z) : Prop :=
  forall g, run pa n g -> g <> 0 /\ aligned g /\ pmm_get_ref p g = 1 /\ (g ∉ FL) /\ forall x, x ∈ Q -> ~ run x PIPE_PAGES g.

Lemma run_first pa n : 0 < n -> run pa n pa.
Proof. intros Hn. exists 0. split; lia. Qed.
Lemma run_one pa g : run pa 1 g <-> g = pa.
Proof. split; [intros (i&Hi&->); assert (i = 0) as -> by lia; lia|]. intros ->. by apply run_first. Qed.

Lemma heap_moved p p' FL Q B : heap p FL Q -> moved p p' B -> ~ free_at p' 0 -> (forall f, f ∈ FL -> ~ B f) ->
  (forall x g, x ∈ Q -> run x PIPE_PAGES g -> ~ B g) -> heap p' FL Q.
Proof.
  intros [H1 H2 H3 H4 H5 H6 H7 H8] [M1 M2 M3 M4 M5] H0 HF HQ. split; try done.
  - intros f Hf. destruct (H5 f Hf) as (?&?&Hr). split_and!; [done..|]. by rewrite M4 by auto.
  - intros x Hx. destruct (H6 x Hx) as (?&Hg). split; [done|]. intros g Hg'. destruct (Hg g Hg') as (?&?&Hr). split_and!; [done|done|]. rewrite M4; [done|done|by eapply HQ].
Qed.

Lemma heap_take p n pa p' FL Q : heap p FL Q -> 0 < n < 2 ^ 64 -> pmm_alloc p n = (pa, p') ->
  heap p' FL Q /\ if decide (pa = 0) then avail p' = avail p else spare p' FL Q pa n /\ avail p' = avail p - n.
Proof.
  intros Hh Hn Ha. pose proof Hh as [H1 H2 H3 H4 H5 H6 H7 H8]. case_decide as Hpa.
  - subst pa. destruct (alloc_none p n p' H1 H2 Hn Ha) as [Hm Hav]. split; [|done]. apply (heap_moved p p' FL Q _ Hh Hm); auto.
    intros Hf. apply H2. by apply (proj1 (mv_free _ _ _ Hm 0 ltac:(done) ltac:(tauto))).
  - destruct (alloc_run p n pa p' H1 Hn Ha Hpa) as (Hm&Hav&Hal&Hrun).
    assert (HF : forall f, f ∈ FL -> ~ run pa n f).
    { intros f Hf Hr. destruct (Hrun f Hr) as (_&Hfr&_). destruct (H5 f Hf) as (_&_&Hr1). revert Hfr. apply get_ref_not_free; [done|lia]. }
    assert (HQ : forall x g, x ∈ Q -> run x PIPE_PAGES g -> ~ run pa n g).
    { intros x g Hx Hg Hr. destruct (Hrun g Hr) as (_&Hfr&_). destruct (H6 x Hx) as (_&Hg1). destruct (Hg1 g Hg) as (_&_&Hr1). revert Hfr. apply get_ref_not_free; [done|lia]. }
    split; [apply (heap_moved p p' FL Q _ Hh Hm); auto|split; [|done]].
    + intros Hf. destruct (decide (run pa n 0)) as [Hr|Hr]; [|apply H2; by apply (proj1 (mv_free _ _ _ Hm 0 ltac:(done) Hr))].
      destruct (Hrun 0 Hr) as (_&_&Hr1). revert Hf. apply get_ref_not_free; [apply Hm|lia].
    + intros g Hg. destruct (Hrun g Hg) as (?&?&?). split_and!; [by intros ->|done|done|intros Hf; by apply (HF g)|intros x Hx Hr; by apply (HQ x g)].
Qed.

Lemma heap_free p pa n FL Q : heap p FL Q -> 0 < n -> spare p FL Q pa n ->
  heap (pmm_free p pa n) FL Q /\ avail (pmm_free p pa n) = avail p + n.
Proof.
  intros Hh Hn Hs. destruct (free_run p n pa (h_pmm _ _ _ Hh) Hn) as (Hm&Hav&_); [intros g Hg; by destruct (Hs g Hg) as (_&?&?&_)|].
  assert (H0 : ~ run pa n 0) by (intros Hr; by destruct (Hs 0 Hr)).
  split; [|done]. apply (heap_moved p _ FL Q _ Hh Hm).
  - intros Hf. apply (h_zero _ _ _ Hh). by apply (proj1 (mv_free _ _ _ Hm 0 ltac:(done) H0)).
  - intros f Hf Hr. by destruct (Hs f Hr) as (_&_&_&?&_).
  - intros x g Hx Hg Hr. destruct (Hs g Hr) as (_&_&_&_&Hx'). by apply (Hx' x).
Qed.

Lemma heap_add_file p f FL Q : heap p FL Q -> spare p FL Q f 1 -> heap p (f :: FL) Q.
Proof.
  intros [H1 H2 H3 H4 H5 H6 H7 H8] Hs. destruct (Hs f) as (H0&Ha&Hr&Hn&Hq); [by apply run_one|]. split; try done.
  - by constructor.
  - intros g [->|Hg]%elem_of_cons; auto.
  - intros g x [->|Hg]%elem_of_cons; auto.
Qed.

Lemma heap_add_pipe p x FL Q : heap p FL Q -> spare p FL Q x PIPE_PAGES -> heap p FL (x :: Q).
Proof.
  intros [H1 H2 H3 H4 H5 H6 H7 H8] Hs. split; try done.
  - constructor; [|done]. intros Hx. destruct (Hs x) as (_&_&_&_&Hq); [by apply run_first|]. apply (Hq x Hx). by apply run_first.
  - intros y [->|Hy]%elem_of_cons; [|auto]. split; [by apply (Hs x), run_first|]. intros g Hg. by destruct (Hs g Hg) as (?&?&?&_).
  - intros f y Hf [->|Hy]%elem_of_cons; [|auto]. intros Hr. by destruct (Hs f Hr) as (_&_&_&?&_).
  - intros y z g [->|Hy]%elem_of_cons [->|Hz]%elem_of_cons Hg Hg'; [done| | |by eapply H8].
    + destruct (Hs g Hg) as (_&_&_&_&Hq). by destruct (Hq z Hz).
    + destruct (Hs g Hg') as (_&_&_&_&Hq). by destruct (Hq y Hy).
Qed.

Lemma heap_drop_file p f FL Q : heap p FL Q -> f ∈ FL -> heap p (without f FL) Q /\ spare p (without f FL) Q f 1.
Proof.
  intros [H1 H2 H3 H4 H5 H6 H7 H8] Hf. split.
  - split; try done; [by apply NoDup_without|by intros g [? _]%elem_of_without; auto|by intros g x [? _]%elem_of_without; auto].
  - intros g ->%run_one. destruct (H5 f Hf) as (?&?&?). split_and!; [done|done|done|by intros [_ ?]%elem_of_without|by auto].
Qed.

Lemma heap_drop_pipe p x FL Q : heap p FL Q -> x ∈ Q -> heap p FL (without x Q) /\ spare p FL (without x Q) x PIPE_PAGES.
Proof.
  intros [H1 H2 H3 H4 H5 H6 H7 H8] Hx. split.
  - split; try done; [by apply NoDup_without|by intros y [? _]%elem_of_without; auto|by intros f y ? [? _]%elem_of_without; auto|].
    intros y z g [? _]%elem_of_without [? _]%elem_of_without. by apply H8.
  - intros g Hg. destruct (H6 x Hx) as [_ Hr]. destruct (Hr g Hg) as (?&?&?). split_and!; [done|done|done|intros Hf; by apply (H7 g x)|].
    intros y [Hy Hne]%elem_of_without Hg'. by apply Hne, (H8 y x g).
Qed.

(** ** Who refers to whom *)
Definition end_of (fl : Z -> fs_file_t) (x : Z) (aux : Z -> bool) (f : Z) : bool :=
  match (fl f).(f_ops) with PipeOps => ((fl f).(private_data) =? x) && aux (fl f).(f_aux0) | _ => false end.
Definition ends (fl : Z -> fs_file_t) (FL : list Z) (x : Z) (aux : Z -> bool) : Z := cnt (end_of fl x aux) FL.

(** What a file object is. *)
Definition kind (fl : fs_file_t) (Q : list Z) : Prop :=
  fl.(f_type) = FT_CONSOLE /\ fl.(f_ops) = ConsoleOps \/
  fl.(f_type) = FT_PIPE /\ fl.(f_ops) = PipeOps /\ fl.(private_data) ∈ Q /\ (fl.(f_aux0) = PIPE_END_READ \/ fl.(f_aux0) = PIPE_END_WRITE).

Definition pipe_counts (fl : Z -> fs_file_t) (FL : list Z) (x : Z) (p : pipe_t) : Prop :=
  p.(p_refs) = ends fl FL x (fun _ => true) /\ 0 < p.(p_refs) /\
  p.(p_readers) = ends fl FL x (Z.eqb PIPE_END_READ) /\ p.(p_writers) = ends fl FL x (Z.eqb PIPE_END_WRITE).

Record links (D : tables) (fl : Z -> fs_file_t) (pp : Z -> pipe_t) (FL Q : list Z) : Prop := {
  l_tab : shaped D;
  l_fd : forall d, d ∈ mjoin D -> d.(in_use) = true -> d.(fd_file) ∈ FL /\ (fl d.(fd_file)).(f_type) = d.(fd_type);
  l_ref : forall f, f ∈ FL -> (fl f).(f_ref) = refs D f /\ 0 < (fl f).(f_ref);
  l_kind : forall f, f ∈ FL -> kind (fl f) Q;
  l_pipe : forall x, x ∈ Q -> pipe_counts fl FL x (pp x) }.

Lemma ends_ext fl fl' FL x aux : (forall f, f ∈ FL -> end_of fl' x aux f = end_of fl x aux f) -> ends fl' FL x aux = ends fl FL x aux.
Proof. apply cnt_ext. Qed.

Lemma counts_ext fl fl' FL x p : (forall f aux, f ∈ FL -> end_of fl' x aux f = end_of fl x aux f) -> pipe_counts fl FL x p -> pipe_counts fl' FL x p.
Proof. intros He (H1&H2&H3&H4). unfold pipe_counts. rewrite !(ends_ext fl fl' FL x); auto. Qed.

(** A file object's count changes. *)
Lemma end_set_ref fl f n x aux g : end_of (fset fl f (set_ref (fl f) n)) x aux g = end_of fl x aux g.
Proof. unfold end_of. rewrite fset_spec. by destruct (decide (g = f)) as [->|]. Qed.

Lemma refs_set D i fd d d0 f : at_fd D i fd = Some d0 -> refs (set_tab D i fd d) f = refs D f - Z.b2z (refers f d0) + Z.b2z (refers f d).
Proof. apply cnt_set_tab. Qed.

(** One of several descriptors of an object goes. *)
Lemma links_less D fl pp FL Q i fd d : links D fl pp FL Q -> at_fd D i fd = Some d -> d.(in_use) = true -> 1 < (fl d.(fd_file)).(f_ref) ->
  let f := d.(fd_file) in links (set_tab D i fd no_fd) (fset fl f (set_ref (fl f) ((fl f).(f_ref) - 1))) pp FL Q.
Proof.
  intros [L1 L2 L3 L4 L5] Hat Hu Hgt f. split.
  - by apply shaped_set.
  - intros e [->|He]%in_set_tab Hue; [done|]. destruct (L2 e He Hue) as [? Ht]. split; [done|]. rewrite fset_spec. by destruct (decide (fd_file e = f)) as [<-|].
  - intros g Hg. destruct (L3 g Hg) as [Hr Hp]. rewrite (refs_set D i fd no_fd d g Hat), fset_spec. unfold refers. rewrite Hu. cbn.
    destruct (decide (g = f)) as [->|Hne]; cbn.
    + unfold f in *. rewrite Z.eqb_refl. cbn. lia.
    + rewrite (proj2 (Z.eqb_neq (fd_file d) g)) by (unfold f in Hne; congruence). cbn. lia.
  - intros g Hg. rewrite fset_spec. destruct (decide (g = f)) as [->|]; [|auto]. exact (L4 f Hg).
  - intros x Hx. apply (counts_ext fl); [|auto]. intros g aux _. apply end_set_ref.
Qed.

Lemma release_fields x aux l b y : pipe_release x aux = (l, b, y) ->
  y.(p_refs) = x.(p_refs) - 1 /\ b = (x.(p_refs) - 1 =? 0) /\
  y.(p_readers) = (if negb (Z.land aux PIPE_END_READ =? 0) && (0 <? x.(p_readers)) then x.(p_readers) - 1 else x.(p_readers)) /\
  y.(p_writers) = (if negb (Z.land aux PIPE_END_WRITE =? 0) && (0 <? x.(p_writers)) then x.(p_writers) - 1 else x.(p_writers)).
Proof. unfold pipe_release. cbn. by intros [= _ <- <-]. Qed.

(** The last descriptor of the object [f] goes, and the object. *)
Section last.
Variables (D : tables) (fl : Z -> fs_file_t) (pp : Z -> pipe_t) (FL Q : list Z) (i : nat) (fd : Z) (d : file_descriptor_t).
Hypotheses (HL : links D fl pp FL Q) (HN : NoDup FL) (Hat : at_fd D i fd = Some d) (Hu : d.(in_use) = true) (H1 : (fl d.(fd_file)).(f_ref) = 1).
Abbreviation f := (d.(fd_file)).

Lemma last_in : f ∈ FL.
Proof using HL Hat Hu. apply (l_fd _ _ _ _ _ HL d); [by eapply at_fd_in|done]. Qed.

(** The objects that are left. *)
Lemma last_files fl' pp' Q' : (forall g, g <> f -> fl' g = fl g) -> (forall g, g ∈ FL -> g <> f -> kind (fl g) Q') ->
  (forall x, x ∈ Q' -> pipe_counts fl' (without f FL) x (pp' x)) -> links (set_tab D i fd no_fd) fl' pp' (without f FL) Q'.
Proof using HL Hat Hu H1.
  intros Hfl Hk Hp. pose proof last_in as Hin. destruct HL as [L1 L2 L3 L4 L5].
  assert (Href : forall g, refs (set_tab D i fd no_fd) g = refs D g - Z.b2z (f =? g)).
  { intros g. rewrite (refs_set D i fd no_fd d g Hat). unfold refers. rewrite Hu. cbn. lia. }
  assert (H0 : refs (set_tab D i fd no_fd) f = 0) by (rewrite Href, Z.eqb_refl; destruct (L3 f Hin) as [<- _]; rewrite H1; done).
  split; [by apply shaped_set| | | |exact Hp].
  - intros e He Hue. destruct (in_set_tab _ _ _ _ _ He) as [->|He']; [done|]. destruct (L2 e He' Hue) as [Hf Ht].
    assert (Hne : fd_file e <> f).
    { intros Heq. pose proof (proj1 (cnt_zero _ _) H0 e He) as Hr. unfold refers in Hr. by rewrite Hue, Heq, Z.eqb_refl in Hr. }
    rewrite elem_of_without, Hfl by done. done.
  - intros g [Hg Hne]%elem_of_without. rewrite Hfl, Href, (proj2 (Z.eqb_neq f g)) by congruence. cbn. destruct (L3 g Hg). lia.
  - intros g [Hg Hne]%elem_of_without. rewrite Hfl by done. auto.
Qed.

Lemma ends_last fl' x aux : (forall g, g <> f -> fl' g = fl g) -> ends fl' (without f FL) x aux = ends fl FL x aux - Z.b2z (end_of fl x aux f).
Proof using HL HN Hat Hu.
  intros Hfl. unfold ends. rewrite <- (cnt_without (end_of fl x aux) f FL HN last_in). apply cnt_ext. intros g [_ Hne]%elem_of_without.
  unfold end_of. by rewrite Hfl.
Qed.

(** The object is an end of the pipe [x], which loses it. *)
Lemma last_pipe fl' x l b y : (forall g, g <> f -> fl' g = fl g) -> (fl f).(f_ops) = PipeOps -> (fl f).(private_data) = x ->
  (fl f).(f_aux0) = PIPE_END_READ \/ (fl f).(f_aux0) = PIPE_END_WRITE -> pipe_counts fl FL x (pp x) -> pipe_release (pp x) (fl f).(f_aux0) = (l, b, y) ->
  y.(p_refs) = ends fl' (without f FL) x (fun _ => true) /\ y.(p_readers) = ends fl' (without f FL) x (Z.eqb PIPE_END_READ) /\
  y.(p_writers) = ends fl' (without f FL) x (Z.eqb PIPE_END_WRITE) /\ b = (y.(p_refs) =? 0).
Proof using HL HN Hat Hu.
  intros Hfl Hops Hx Haux (P1&P2&P3&P4) Hrel. destruct (release_fields _ _ _ _ _ Hrel) as (R1&R2&R3&R4).
  assert (Hend : forall aux, end_of fl x aux f = aux (f_aux0 (fl f))) by (intros aux; unfold end_of; by rewrite Hops, Hx, Z.eqb_refl).
  assert (Hpos : forall aux, aux (f_aux0 (fl f)) = true -> 0 < ends fl FL x aux) by (intros aux Ha; apply (cnt_pos _ _ f last_in); by rewrite Hend, Ha).
  rewrite R2, !ends_last, !Hend, R1, R3, R4, P1, P3, P4 by done. destruct Haux as [Ha|Ha]; rewrite Ha in Hpos |- *.
  - rewrite (proj2 (Z.ltb_lt _ _) (Hpos (Z.eqb PIPE_END_READ) eq_refl)). change (Z.land 1 1) with 1. change (Z.land 1 2) with 0. cbn. rewrite Z.sub_0_r. done.
  - rewrite (proj2 (Z.ltb_lt _ _) (Hpos (Z.eqb PIPE_END_WRITE) eq_refl)). change (Z.land 2 1) with 0. change (Z.land 2 2) with 2. cbn. rewrite Z.sub_0_r. done.
Qed.

(** The other pipes keep theirs. *)
Lemma last_other fl' x z : (forall g, g <> f -> fl' g = fl g) -> (fl f).(f_ops) <> PipeOps \/ (fl f).(private_data) = x -> z <> x \/ (fl f).(f_ops) <> PipeOps ->
  pipe_counts fl FL z (pp z) -> pipe_counts fl' (without f FL) z (pp z).
Proof using HL HN Hat Hu.
  intros Hfl Hor Hz (P1&P2&P3&P4). assert (Hend : forall aux, end_of fl z aux f = false).
  { intros aux. unfold end_of. destruct (f_ops (fl f)) eqn:Ho; [done|done|]. destruct Hz as [Hz|]; [|done]. destruct Hor as [|Hx]; [done|].
    by rewrite (proj2 (Z.eqb_neq _ _)) by congruence. }
  unfold pipe_counts. rewrite !ends_last, !Hend by done. cbn. by rewrite !Z.sub_0_r.
Qed.
End last.

(** A new object [f], of the one descriptor [d]. *)
Lemma links_ext D fl fl' pp pp' FL Q : links D fl pp FL Q -> (forall f, f ∈ FL -> fl' f = fl f) -> (forall x, x ∈ Q -> pp' x = pp x) -> links D fl' pp' FL Q.
Proof.
  intros [L1 L2 L3 L4 L5] Hf Hx. split; [done| | | |].
  - intros d Hd Hu. destruct (L2 d Hd Hu) as [? Ht]. split; [done|]. by rewrite Hf.
  - intros f Hin. rewrite Hf by done. auto.
  - intros f Hin. rewrite Hf by done. auto.
  - intros x Hin. rewrite Hx by done. apply (counts_ext fl); [|auto]. intros f aux Hff. unfold end_of. by rewrite Hf.
Qed.

Lemma ends_add fl FL f o z aux : f ∉ FL -> ends (fset fl f o) (f :: FL) z aux = Z.b2z (end_of (fun _ => o) z aux f) + ends fl FL z aux.
Proof.
  intros Hf. unfold ends. cbn [cnt]. f_equal; [unfold end_of; by rewrite fset_eq|]. apply cnt_ext. intros g Hg. unfold end_of. rewrite fset_ne; [done|]. by intros ->.
Qed.

Lemma links_add D fl pp FL Q i fd old d f o pp' Q' : links D fl pp FL Q -> f ∉ FL -> at_fd D i fd = Some old -> old.(in_use) = false ->
  d.(in_use) = true -> d.(fd_file) = f -> o.(f_type) = d.(fd_type) -> o.(f_ref) = 1 -> (forall x, x ∈ Q -> x ∈ Q') -> kind o Q' ->
  (forall x, x ∈ Q' -> pipe_counts (fset fl f o) (f :: FL) x (pp' x)) -> links (set_tab D i fd d) (fset fl f o) pp' (f :: FL) Q'.
Proof.
  intros [L1 L2 L3 L4 L5] Hf Hat Hold Hu Hdf Hty Hr HQ Hk Hp.
  assert (Hne : forall g, g ∈ FL -> g <> f) by (by intros g Hg ->).
  assert (Href : forall g, refs (set_tab D i fd d) g = refs D g + Z.b2z (f =? g)).
  { intros g. rewrite (refs_set D i fd d old g Hat). unfold refers. rewrite Hold, Hu, Hdf. cbn. lia. }
  split; [by apply shaped_set| | | |exact Hp].
  - intros e [->|He]%in_set_tab Hue; [rewrite Hdf, fset_eq; by split; [apply list_elem_of_here|]|].
    destruct (L2 e He Hue) as [Hin Ht]. rewrite fset_ne by auto. split; [by apply list_elem_of_further|done].
  - intros g [->|Hg]%elem_of_cons; rewrite Href.
    + rewrite fset_eq, Hr, Z.eqb_refl. assert (refs D f = 0) as ->; [|done]. apply cnt_zero. intros e He. unfold refers. destruct (in_use e) eqn:Hue; [|done].
      cbn. apply Z.eqb_neq, Hne. by apply (L2 e He Hue).
    + rewrite fset_ne by auto. rewrite (proj2 (Z.eqb_neq f g)) by (by intros <-). cbn. rewrite Z.add_0_r. auto.
  - intros g [->|Hg]%elem_of_cons; [by rewrite fset_eq|]. rewrite fset_ne by auto. destruct (L4 g Hg) as [?|(?&?&?&?)]; [by left|right; auto].
Qed.

(** No object is an end of a pipe there is not. *)
Lemma no_ends D fl pp FL Q x aux : links D fl pp FL Q -> x ∉ Q -> ends fl FL x aux = 0.
Proof.
  intros HL Hx. apply cnt_zero. intros f Hf. unfold end_of. destruct (l_kind _ _ _ _ _ HL f Hf) as [[_ ->]|(_&->&Hin&_)]; [done|].
  by rewrite (proj2 (Z.eqb_neq _ _)) by (by intros <-).
Qed.

(** The two ends of a new pipe [x]. *)
Definition pipe_object (x aux : Z) : fs_file_t := mkFile 1 FT_PIPE PipeOps x aux.

Lemma links_pipe D fl pp FL Q i fd1 fd2 o1 o2 d1 d2 rf wf x b : links D fl pp FL Q -> x ∉ Q -> rf ∉ FL -> wf ∉ rf :: FL -> 0 <= fd2 -> fd1 <> fd2 ->
  at_fd D i fd1 = Some o1 -> o1.(in_use) = false -> at_fd D i fd2 = Some o2 -> o2.(in_use) = false ->
  d1.(in_use) = true -> d1.(fd_file) = rf -> d1.(fd_type) = FT_PIPE -> d2.(in_use) = true -> d2.(fd_file) = wf -> d2.(fd_type) = FT_PIPE ->
  links (set_tab (set_tab D i fd1 d1) i fd2 d2) (fset (fset fl rf (pipe_object x PIPE_END_READ)) wf (pipe_object x PIPE_END_WRITE)) (fset pp x (new_pipe b)) (wf :: rf :: FL) (x :: Q).
Proof.
  intros HL Hx Hrf Hwf H0 Hne Ha1 Hu1 Ha2 Hu2 E1 E2 E3 E4 E5 E6.
  assert (HZ : forall aux, ends fl FL x aux = 0) by (intros aux; by eapply no_ends).
  assert (HR : links (set_tab D i fd1 d1) (fset fl rf (pipe_object x PIPE_END_READ)) (fset pp x (set_ends (new_pipe b) 1 1 0)) (rf :: FL) (x :: Q)).
  { apply (links_add D fl pp FL Q i fd1 o1); auto; [by intros z Hz; apply list_elem_of_further|right; split_and!; [done|done|apply list_elem_of_here|by left]|].
    intros z [->|Hz]%elem_of_cons; unfold pipe_counts; rewrite !ends_add by done; unfold end_of, pipe_object; cbn [f_ops private_data f_aux0].
    - rewrite fset_eq, !HZ, Z.eqb_refl. done.
    - assert (Hzx : x <> z) by (by intros ->). rewrite fset_ne, (proj2 (Z.eqb_neq x z)) by congruence. by apply (l_pipe _ _ _ _ _ HL). }
  apply (links_add _ _ _ _ _ _ _ o2 d2 wf _ (fset pp x (new_pipe b)) (x :: Q) HR); auto.
  - rewrite at_set_tab by eauto. rewrite decide_False; [done|]. by intros [_ ->].
  - right. split_and!; [done|done|apply list_elem_of_here|by right].
  - intros z [->|Hz]%elem_of_cons; unfold pipe_counts; rewrite !ends_add by done; unfold end_of, pipe_object; cbn [f_ops private_data f_aux0].
    + rewrite fset_eq, !HZ, Z.eqb_refl. done.
    + assert (Hzx : x <> z) by (by intros ->). rewrite fset_ne, (proj2 (Z.eqb_neq x z)) by congruence. by apply (l_pipe _ _ _ _ _ HL).
Qed.

(** ** The calls keep the counts *)

(** [N] pages are free or belong to an object. *)
Definition fd_inv (N : Z) (s : fdst) (FL Q : list Z) : Prop :=
  links s.(d_tab) s.(d_file) s.(d_pipe) FL Q /\ heap s.(d_pmm) FL Q /\ avail s.(d_pmm) + zlen FL + PIPE_PAGES * zlen Q = N.
Definition fd_ok (N : Z) (s : fdst) : Prop := exists FL Q, fd_inv N s FL Q.

Lemma wp_get_fd E i fd d (Q : file_descriptor_t -> fdst -> Prop) s : at_fd s.(d_tab) i fd = Some d -> Q d s -> wp E (get_fd i fd) Q s.
Proof.
  unfold at_fd, wp, get_fd. destruct (0 <=? fd); [|done]. intros (t&Ht&Hd)%bind_Some HQ. by rewrite Ht, Hd.
Qed.

Section calls.
Context (N : Z).

Lemma file_ne_zero s FL Q f : fd_inv N s FL Q -> f ∈ FL -> f <> 0.
Proof using. intros (_&Hh&_) Hf. by apply (h_file _ _ _ Hh f). Qed.

(** The last descriptor of an object goes: it is put, and then the descriptor
    is cleared. *)
Lemma put_last s FL Q i fd d : fd_inv N s FL Q -> at_fd s.(d_tab) i fd = Some d -> d.(in_use) = true ->
  (s.(d_file) d.(fd_file)).(f_ref) = 1 -> wp nopanic (fs_file_put d.(fd_file)) (fun _ s' => s'.(d_tab) = s.(d_tab) /\ fd_ok N (with_tab s' (set_tab s.(d_tab) i fd no_fd))) s.
Proof using.
  intros Hinv Hat Hu H1. pose proof Hinv as (HL&Hh&Hav). pose proof (last_in _ _ _ _ _ _ _ _ HL Hat Hu) as Hin.
  pose proof (file_ne_zero _ _ _ _ Hinv Hin) as H0. pose proof (h_files _ _ _ Hh) as HNF. destruct (heap_drop_file _ _ _ _ Hh Hin) as [Hh1 Hsp1].
  assert (Hlen : zlen (without (fd_file d) FL) = zlen FL - 1) by (by apply zlen_without).
  set (f := fd_file d) in *. set (fl' := fset (d_file s) f (set_ref (d_file s f) 0)).
  assert (Hfl : forall g, g <> f -> fl' g = d_file s g) by (intros g Hg; by apply fset_ne).
  unfold fs_file_put. rewrite (proj2 (Z.eqb_neq f 0) H0). wp_steps. cbn [d_file with_file]. rewrite fset_eq. cbn [f_ref f_ops set_ref]. rewrite H1.
  change (1 - 1) with 0. change (0 <? 0) with false. cbv iota.
  destruct (l_kind _ _ _ _ _ HL f Hin) as [[_ Hops]|(Hty&Hops&HQ&Haux)]; rewrite Hops; wp_step.
  - wp_step. unfold ffree. wp_step. split; [done|]. destruct (heap_free _ _ 1 _ _ Hh1 ltac:(lia) Hsp1) as [Hh2 Hav2].
    exists (without f FL), Q. split_and!; [|exact Hh2|cbn; lia]. cbn.
    apply (last_files _ _ (d_pipe s) FL Q i fd d HL Hat Hu H1); [exact Hfl|intros g Hg _; by apply (l_kind _ _ _ _ _ HL)|].
    intros x Hx. apply (last_other _ _ _ _ _ _ _ _ HL HNF Hat Hu fl' 0 x Hfl); [left|right|by apply (l_pipe _ _ _ _ _ HL)]; fold f; by rewrite Hops.
  - unfold fs_release_pipe_file. wp_step. wp_step. cbn [d_file d_pipe with_file]. rewrite fset_eq. cbn [private_data f_aux0 set_ref]. set (x := private_data (d_file s f)) in *.
    destruct (h_pipe _ _ _ Hh x HQ) as [Hx0 _]. rewrite (proj2 (Z.eqb_neq x 0) Hx0).
    destruct (pipe_release (d_pipe s x) (f_aux0 (d_file s f))) as [[l b] y] eqn:Hrel. pose proof (l_pipe _ _ _ _ _ HL x HQ) as HP.
    destruct (last_pipe _ _ _ _ _ _ _ _ HL HNF Hat Hu fl' x l b y Hfl Hops eq_refl Haux HP Hrel) as (Y1&Y2&Y3&->).
    assert (Hoth : forall z, z ∈ Q -> z <> x -> pipe_counts fl' (without f FL) z (d_pipe s z)).
    { intros z Hz Hne. apply (last_other _ _ _ _ _ _ _ _ HL HNF Hat Hu fl' x z Hfl); auto. by apply (l_pipe _ _ _ _ _ HL). }
    wp_step. wp_step. destruct (Z.eqb_spec (p_refs y) 0) as [Hy0|Hy0].
    + destruct (heap_drop_pipe _ x _ _ Hh HQ) as [Hq1 Hqs]. destruct (heap_free _ _ PIPE_PAGES _ _ Hq1 ltac:(lia) Hqs) as [Hq2 Hqav].
      destruct (heap_drop_file _ _ _ _ Hq2 Hin) as [Hq3 Hqs3]. destruct (heap_free _ _ 1 _ _ Hq3 ltac:(lia) Hqs3) as [Hq4 Hqav4].
      pose proof (zlen_without x Q (h_pipes _ _ _ Hh) HQ) as HlenQ. unfold ffree. wp_step. wp_step. split; [done|].
      exists (without f FL), (without x Q). split_and!; [|exact Hq4|cbn; lia]. cbn.
      apply (last_files _ _ (d_pipe s) FL Q i fd d HL Hat Hu H1); [exact Hfl| |].
      * intros g Hg Hne. rewrite Y1 in Hy0. pose proof (proj1 (cnt_zero _ _) Hy0 g (proj2 (elem_of_without _ _ _) (conj Hg Hne))) as Hg0.
        destruct (l_kind _ _ _ _ _ HL g Hg) as [?|(K1&K2&K3&K4)]; [by left|right]. split_and!; try done. apply elem_of_without. split; [done|]. intros Hgx.
        unfold end_of in Hg0. rewrite Hfl, K2, Hgx, Z.eqb_refl in Hg0 by done. done.
      * intros z [Hz Hne]%elem_of_without. rewrite fset_ne by done. by apply Hoth.
    + wp_step. unfold ffree. wp_step. split; [done|]. destruct (heap_free _ _ 1 _ _ Hh1 ltac:(lia) Hsp1) as [Hh2 Hav2].
      exists (without f FL), Q. split_and!; [|exact Hh2|cbn; lia]. cbn.
      apply (last_files _ _ (d_pipe s) FL Q i fd d HL Hat Hu H1); [exact Hfl|intros g Hg _; by apply (l_kind _ _ _ _ _ HL)|].
      intros z Hz. rewrite fset_spec. destruct (decide (z = x)) as [->|Hne]; [|by apply Hoth]. assert (0 <= p_refs y) by (rewrite Y1; apply cnt_nonneg). split_and!; try done. lia.
Qed.

(** [fs_assert_open_file_consistent] holds of every descriptor. *)
Lemma assert_ok s i fd d (Q : unit -> fdst -> Prop) : fd_ok N s -> at_fd s.(d_tab) i fd = Some d -> Q tt s -> wp nopanic (fs_assert_open_file_consistent d) Q s.
Proof using.
  intros (FL&Qs&(HL&_)) Hat HQ. unfold fs_assert_open_file_consistent. destruct (in_use d) eqn:Hu; cbn [negb orb]; [|by wp_step].
  destruct (fd_file d =? 0); [by wp_step|]. destruct (l_fd _ _ _ _ _ HL d (at_fd_in _ _ _ _ Hat) Hu) as [Hin Hty]. destruct (l_ref _ _ _ _ _ HL _ Hin) as [_ Hpos].
  wp_step. wp_step. wp_step. wp_step; [|intros ?%Z.ltb_ge; lia]. wp_step; [done|]. by rewrite bool_decide_true.
Qed.

Lemma release_fd_ok s i fd d : fd_ok N s -> at_fd s.(d_tab) i fd = Some d ->
  wp nopanic (fs_release_fd i fd) (fun _ s' => fd_ok N s' /\ s'.(d_tab) = if d.(in_use) then set_tab s.(d_tab) i fd no_fd else s.(d_tab)) s.
Proof using.
  intros Hok Hat. unfold fs_release_fd. wp_step. apply (wp_get_fd _ _ _ d); [done|]. destruct (in_use d) eqn:Hu; cbn [negb]; [|by wp_step].
  wp_step. apply (assert_ok s i fd d); [done|done|]. destruct Hok as (FL&Q&Hinv). pose proof Hinv as (HL&Hh&Hav).
  pose proof (last_in _ _ _ _ _ _ _ _ HL Hat Hu) as Hin. pose proof (file_ne_zero _ _ _ _ Hinv Hin) as H0. destruct (l_ref _ _ _ _ _ HL _ Hin) as [_ Hpos].
  rewrite (proj2 (Z.eqb_neq _ 0) H0). cbn [negb]. wp_step. destruct (decide (f_ref (d_file s (fd_file d)) = 1)) as [H1|H1].
  - eapply wp_mono; [by apply (put_last s FL Q i fd d)|]. intros [] s' [Ht Hok']. unfold set_fd. wp_step. by rewrite Ht.
  - unfold fs_file_put. rewrite (proj2 (Z.eqb_neq _ 0) H0). wp_steps. cbn [d_file with_file]. rewrite fset_eq. cbn [f_ref set_ref].
    rewrite (proj2 (Z.ltb_lt 0 _)) by lia. wp_step. unfold set_fd. wp_step. split; [|done]. exists FL, Q. split_and!; [|done|done]. cbn. apply (links_less _ _ _ _ _ i fd d); auto. lia.
Qed.

(** A descriptor of the tables is copied over one that is not in use. *)
Lemma clone_ok s i fd old src : fd_ok N s -> at_fd s.(d_tab) i fd = Some old -> old.(in_use) = false -> src ∈ mjoin s.(d_tab) ->
  wp nopanic (fs_clone_fd i fd src) (fun r s' => r = 0 /\ fd_ok N s' /\ s'.(d_tab) = set_tab s.(d_tab) i fd src) s.
Proof using.
  intros (FL&Q&Hinv) Hat Hold Hsrc. pose proof Hinv as (HL&Hh&Hav). pose proof HL as [L1 L2 L3 L4 L5]. unfold fs_clone_fd, set_fd. wp_step. wp_step.
  assert (Hfd : forall fl', (forall g, f_type (fl' g) = f_type (d_file s g)) -> forall e, e ∈ mjoin (set_tab (d_tab s) i fd src) -> in_use e = true ->
    fd_file e ∈ FL /\ f_type (fl' (fd_file e)) = fd_type e).
  { intros fl' Hty e [->|He]%in_set_tab Hue; rewrite Hty; auto. }
  assert (Href : forall g, refs (set_tab (d_tab s) i fd src) g = refs (d_tab s) g + Z.b2z (refers g src)).
  { intros g. rewrite (refs_set _ i fd src old g Hat). unfold refers at 1. rewrite Hold. cbn. lia. }
  destruct (in_use src) eqn:Hu; cbn [negb].
  - destruct (L2 src Hsrc Hu) as [Hin Hty]. pose proof (file_ne_zero _ _ _ _ Hinv Hin) as H0. rewrite (proj2 (Z.eqb_neq _ 0) H0). cbn [negb].
    unfold fs_file_get. rewrite (proj2 (Z.eqb_neq _ 0) H0). wp_step. wp_step. wp_step. split_and!; [done| |done]. exists FL, Q. split_and!; [|done|done]. cbn. split.
    + by apply shaped_set.
    + apply Hfd. intros g. rewrite fset_spec. by destruct (decide (g = fd_file src)) as [->|].
    + intros g Hg. destruct (L3 g Hg) as [Hr Hp]. rewrite Href, fset_spec. unfold refers. rewrite Hu. cbn [andb]. destruct (decide (g = fd_file src)) as [->|Hne].
      * rewrite Z.eqb_refl. cbn. lia.
      * rewrite (proj2 (Z.eqb_neq (fd_file src) g)) by congruence. cbn. lia.
    + intros g Hg. rewrite fset_spec. destruct (decide (g = fd_file src)) as [->|]; auto. exact (L4 _ Hg).
    + intros x Hx. apply (counts_ext (d_file s)); [|auto]. intros g aux _. apply end_set_ref.
  - wp_step. split_and!; [done| |done]. exists FL, Q. split_and!; [|done|done]. cbn. split; auto; [by apply shaped_set|].
    intros g Hg. rewrite Href. unfold refers. rewrite Hu. cbn. rewrite Z.add_0_r. auto.
Qed.

(** A descriptor's flags change. *)
Lemma reflag_ok s i fd d d' : fd_ok N s -> at_fd s.(d_tab) i fd = Some d -> d'.(in_use) = d.(in_use) -> d'.(fd_file) = d.(fd_file) -> d'.(fd_type) = d.(fd_type) ->
  fd_ok N (with_tab s (set_tab s.(d_tab) i fd d')).
Proof using.
  intros (FL&Q&([L1 L2 L3 L4 L5]&Hh&Hav)) Hat H1 H2 H3. exists FL, Q. split_and!; [|done|done]. cbn. split; auto; [by apply shaped_set| |].
  - intros e [->|He]%in_set_tab Hu; [|auto]. rewrite H2, H3. apply L2; [by eapply at_fd_in|congruence].
  - intros g Hg. rewrite (refs_set _ i fd d' d g Hat). unfold refers. rewrite H1, H2. destruct (L3 g Hg). lia.
Qed.

(** ** The calls *)

(** What every call leaves: the counts are right and no table is lost. *)
Definition kept (s s' : fdst) : Prop := fd_ok N s' /\ length s'.(d_tab) = length s.(d_tab).

Lemma fd_kept_trans s1 s2 s3 : kept s1 s2 -> kept s2 s3 -> kept s1 s3.
Proof using. unfold kept. intros [? ?] [? ?]. split; [done|congruence]. Qed.
Lemma kept_set s s' i fd d : fd_ok N s' -> s'.(d_tab) = set_tab s.(d_tab) i fd d -> kept s s'.
Proof using. intros Hok Ht. split; [done|]. by rewrite Ht, length_set. Qed.

Lemma ok_at s i fd : fd_ok N s -> (i < length s.(d_tab))%nat -> 0 <= fd < FT_MAX_FDS -> exists d, at_fd s.(d_tab) i fd = Some d.
Proof using. intros (FL&Q&(HL&_)) Hi Hf. destruct (shaped_at _ i fd (l_tab _ _ _ _ _ HL) Hi Hf) as [d Hd]. by exists d. Qed.

Lemma bad_fd_ok s i fd (Q : bool -> fdst -> Prop) : fd_ok N s -> (i < length s.(d_tab))%nat -> Q true s ->
  (forall d, 0 <= fd < FT_MAX_FDS -> at_fd s.(d_tab) i fd = Some d -> d.(in_use) = true -> Q false s) -> wp nopanic (bad_fd i fd) Q s.
Proof using.
  intros Hok Hi Ht Hf. unfold bad_fd. destruct (Z.ltb_spec fd 0), (Z.leb_spec FT_MAX_FDS fd); cbn [orb]; try by wp_step.
  destruct (ok_at s i fd Hok Hi) as [d Hd]; [lia|]. wp_step. apply (wp_get_fd _ _ _ d); [done|]. wp_step. destruct (in_use d) eqn:Hu; [|done]. apply (Hf d); [lia|done|done].
Qed.

Lemma free_fd_ok n s i fd (Q : option Z -> fdst -> Prop) : fd_ok N s -> (i < length s.(d_tab))%nat -> 0 <= fd -> fd + Z.of_nat n <= FT_MAX_FDS -> Q None s ->
  (forall k d, fd <= k < FT_MAX_FDS -> at_fd s.(d_tab) i k = Some d -> d.(in_use) = false -> Q (Some k) s) -> wp nopanic (free_fd n i fd) Q s.
Proof using.
  revert fd. induction n as [|n IH]; intros fd Hok Hi H0 Hn HN HS; cbn [free_fd]; [by wp_step|].
  destruct (ok_at s i fd Hok Hi) as [d Hd]; [lia|]. wp_step. apply (wp_get_fd _ _ _ d); [done|]. destruct (in_use d) eqn:Hu; [|wp_step; apply (HS fd d); [lia|done|done]].
  apply IH; [done|done|lia|lia|done|]. intros k e Hk. apply HS. lia.
Qed.

Lemma set_flags_ok s i fd d g (Q : unit -> fdst -> Prop) : fd_ok N s -> at_fd s.(d_tab) i fd = Some d ->
  (forall s', kept s s' -> Q tt s') -> wp nopanic (set_fd_flags i fd g) Q s.
Proof using.
  intros Hok Hat HQ. unfold set_fd_flags, set_fd. wp_step. apply (wp_get_fd _ _ _ d); [done|]. wp_step. apply HQ. eapply kept_set; [|done]. by eapply reflag_ok.
Qed.

Lemma fs_close_ok s i fd : fd_ok N s -> (i < length s.(d_tab))%nat ->
  wp nopanic (fs_close i fd) (fun r s' => kept s s' /\ (forall d, at_fd s.(d_tab) i fd = Some d -> 0 <= fd < FT_MAX_FDS -> s'.(d_tab) = if d.(in_use) then set_tab s.(d_tab) i fd no_fd else s.(d_tab))) s.
Proof using.
  intros Hok Hi. unfold fs_close. wp_step. unfold bad_fd. destruct (Z.ltb_spec fd 0), (Z.leb_spec FT_MAX_FDS fd); cbn [orb]; try (by wp_steps; split; [split|intros; lia]).
  destruct (ok_at s i fd Hok Hi) as [d Hd]; [lia|]. wp_step. apply (wp_get_fd _ _ _ d); [done|]. wp_step. destruct (in_use d) eqn:Hu; cbn [negb].
  - wp_step. apply (wp_get_fd _ _ _ d); [done|]. wp_step. apply (assert_ok s i fd d); [done|done|]. wp_step. eapply wp_mono; [by apply (release_fd_ok s i fd d)|].
    intros _ s' [Hok' Ht]. rewrite Hu in Ht. wp_step. split; [by eapply kept_set|]. intros e He _. rewrite Hd in He. injection He as <-. by rewrite Hu.
  - wp_step. split; [by split|]. intros e He _. rewrite Hd in He. injection He as <-. by rewrite Hu.
Qed.

Lemma dup_fd_ok s i fd old src : fd_ok N s -> 0 <= fd -> at_fd s.(d_tab) i fd = Some old -> old.(in_use) = false -> src ∈ mjoin s.(d_tab) ->
  wp nopanic (fs_dup_fd i fd src) (fun r s' => r = 0 /\ kept s s') s.
Proof using.
  intros Hok Hf Hat Hold Hsrc. unfold fs_dup_fd. wp_step. eapply wp_mono; [by apply (clone_ok s i fd old src)|]. intros r s1 (->&Hok1&Ht1). cbn [Z.ltb Z.compare]. wp_step.
  apply (set_flags_ok _ i fd src); [done|rewrite Ht1, at_set_tab by (by eauto); by rewrite decide_True|]. intros s' Hk. wp_step. split; [done|]. eapply fd_kept_trans; [by eapply kept_set|done].
Qed.

Section process.
Context (i : nat).

Lemma dup2_ok s oldfd newfd : fd_ok N s -> (i < length s.(d_tab))%nat -> wp nopanic (fs_dup2 i oldfd newfd) (fun _ s' => kept s s') s.
Proof using.
  intros Hok Hi. unfold fs_dup2. wp_step. apply bad_fd_ok; [done|done|by wp_step|]. intros do Ho Hdo Huo.
  destruct (Z.ltb_spec newfd 0), (Z.leb_spec FT_MAX_FDS newfd); cbn [orb]; try by wp_step. destruct (Z.eqb_spec oldfd newfd) as [|Hne]; [by wp_step|].
  destruct (ok_at s i newfd Hok Hi) as [d Hd]; [lia|]. wp_step. apply (wp_get_fd _ _ _ d); [done|]. wp_step.
  assert (Hrest : forall s1 e, kept s s1 -> at_fd s1.(d_tab) i newfd = Some e -> e.(in_use) = false -> at_fd s1.(d_tab) i oldfd = Some do ->
    wp nopanic (src ← get_fd i oldfd; rc ← fs_dup_fd i newfd src; mret (if rc <? 0 then - EMFILE else newfd)) (fun _ s' => kept s s') s1).
  { intros s1 e Hk He Hue Hold. wp_step. apply (wp_get_fd _ _ _ do); [done|]. wp_step.
    eapply wp_mono; [apply (dup_fd_ok s1 i newfd e do (proj1 Hk)); [lia|done|done|by eapply at_fd_in]|]. intros r s2 [-> Hk2]. wp_step. by eapply fd_kept_trans. }
  destruct (in_use d) eqn:Hu.
  - wp_step. eapply wp_mono; [by apply (fs_close_ok s i newfd)|]. intros r s1 [Hk Ht]. wp_step. specialize (Ht d Hd ltac:(lia)). rewrite Hu in Ht.
    apply (Hrest s1 no_fd); [done| |done|]; rewrite Ht, at_set_tab by (eauto; lia); [by rewrite decide_True|]. rewrite decide_False; [done|]. intros [_ ?]. congruence.
  - wp_step. by apply (Hrest s d).
Qed.

Lemma clone_flags_ok s fd old src g r : fd_ok N s -> 0 <= fd -> at_fd s.(d_tab) i fd = Some old -> old.(in_use) = false -> src ∈ mjoin s.(d_tab) ->
  wp nopanic (rc ← fs_clone_fd i fd src; if rc <? 0 then mret (- EBADF) else set_fd_flags i fd g;; mret r) (fun _ s' => kept s s') s.
Proof using.
  intros Hok H0 Hat Hold Hsrc. wp_step. eapply wp_mono; [by apply (clone_ok s i fd old src)|]. intros rc s1 (->&Hok1&Ht1). cbn [Z.ltb Z.compare]. wp_step.
  apply (set_flags_ok _ i fd src); [done|rewrite Ht1, at_set_tab by (by eauto); by rewrite decide_True|]. intros s' Hk. wp_step. eapply fd_kept_trans; [by eapply kept_set|done].
Qed.

Lemma dup_ok s oldfd : fd_ok N s -> (i < length s.(d_tab))%nat -> wp nopanic (sys_dup i oldfd) (fun _ s' => kept s s') s.
Proof using.
  intros Hok Hi. unfold sys_dup. wp_step. apply bad_fd_ok; [done|done|by wp_step|]. intros do Ho Hdo Huo. wp_step. apply free_fd_ok; [done|done|done|done|by wp_step|].
  intros k d Hk Hd Hu. wp_step. apply (wp_get_fd _ _ _ do); [done|]. apply (clone_flags_ok s k d do); [done|lia|done|done|by eapply at_fd_in].
Qed.

Lemma dup3_ok s oldfd newfd flags : fd_ok N s -> (i < length s.(d_tab))%nat -> wp nopanic (sys_dup3 i oldfd newfd flags) (fun _ s' => kept s s') s.
Proof using.
  intros Hok Hi. unfold sys_dup3. wp_step. apply bad_fd_ok; [done|done|by wp_step|]. intros do Ho Hdo Huo.
  destruct (Z.ltb_spec newfd 0), (Z.leb_spec FT_MAX_FDS newfd); cbn [orb]; try by wp_step. destruct (Z.eqb_spec oldfd newfd) as [|Hne]; [by wp_step|].
  destruct (ok_at s i newfd Hok Hi) as [d Hd]; [lia|]. wp_step. apply (wp_get_fd _ _ _ d); [done|]. wp_step.
  destruct (in_use d) eqn:Hu.
  - eapply wp_mono; [by apply (release_fd_ok s i newfd d)|]. intros _ s1 [Hok1 Ht]. rewrite Hu in Ht.
    assert (Hat : at_fd (d_tab s1) i newfd = Some no_fd) by (rewrite Ht, at_set_tab by (eauto; lia); by rewrite decide_True).
    assert (Hold : at_fd (d_tab s1) i oldfd = Some do) by (rewrite Ht, at_set_tab by (eauto; lia); rewrite decide_False; [done|]; intros [_ ?]; congruence).
    wp_step. apply (wp_get_fd _ _ _ do); [done|]. eapply wp_mono; [apply (clone_flags_ok s1 newfd no_fd do); [done|lia|done|done|by eapply at_fd_in]|].
    intros r s2 Hk. eapply fd_kept_trans; [by eapply kept_set|done].
  - wp_step. wp_step. apply (wp_get_fd _ _ _ do); [done|]. apply (clone_flags_ok s newfd d do); [done|lia|done|done|by eapply at_fd_in].
Qed.

Lemma fcntl_ok s fd cmd arg : fd_ok N s -> (i < length s.(d_tab))%nat -> wp nopanic (fs_fcntl i fd cmd arg) (fun _ s' => kept s s') s.
Proof using.
  intros Hok Hi. unfold fs_fcntl. wp_step. apply bad_fd_ok; [done|done|by wp_step|]. intros d Ho Hd Hu.
  assert (Hdup : forall fl, wp nopanic (let minfd := s32 arg in if minfd <? 0 then mret (- EINVAL) else
      r ← free_fd (Z.to_nat (FT_MAX_FDS - minfd)) i minfd;
      match r with
      | None => mret (- EMFILE)
      | Some newfd => rc ← fs_dup2 i fd newfd; if rc <? 0 then mret (- EMFILE) else set_fd_flags i newfd (fun _ => fl);; mret newfd
      end) (fun _ s' => kept s s') s).
  { intros fl. cbv zeta. destruct (Z.ltb_spec (s32 arg) 0) as [|H0]; [by wp_step|]. wp_step. destruct (decide (s32 arg <= FT_MAX_FDS)) as [Hle|Hgt].
    - apply free_fd_ok; [done|done|done|lia|by wp_step|]. intros k e Hk He Hue. wp_step. eapply wp_mono; [by apply (dup2_ok s fd k)|]. intros rc s1 Hk1. cbv beta.
      destruct (rc <? 0); [by wp_step|]. destruct (ok_at s1 i k (proj1 Hk1)) as [e1 He1]; [by rewrite (proj2 Hk1)|lia|].
      wp_step. apply (set_flags_ok _ i k e1); [apply Hk1|done|]. intros s2 Hk2. wp_step. eapply fd_kept_trans; [exact Hk1|done].
    - rewrite Z2Nat.nonpos by lia. cbn [free_fd]. by wp_steps. }
  destruct cmd; [exact (Hdup 0)|exact (Hdup FD_CLOEXEC)|exact (Hdup FD_CLOEXEC)| | | | |].
  - wp_step. apply (wp_get_fd _ _ _ d); [done|]. by wp_step.
  - wp_step. apply (set_flags_ok _ i fd d); [done|done|]. intros s' Hk. by wp_step.
  - wp_step. apply (wp_get_fd _ _ _ d); [done|]. by wp_step.
  - wp_step. unfold set_oflags, set_fd. wp_step. apply (wp_get_fd _ _ _ d); [done|]. wp_step. wp_step. eapply kept_set; [|done]. by eapply reflag_ok.
  - by wp_step.
Qed.

(** Objects are made beside the ones there are. *)
Definition beside (s s' : fdst) (FL Q : list Z) : Prop :=
  s'.(d_tab) = s.(d_tab) /\ (forall f, f ∈ FL -> s'.(d_file) f = s.(d_file) f) /\ (forall x, x ∈ Q -> s'.(d_pipe) x = s.(d_pipe) x).

Lemma alloc_file_ok s FL Q : heap s.(d_pmm) FL Q -> wp nopanic fs_alloc_file (fun f s' => if decide (f = 0)
    then heap s'.(d_pmm) FL Q /\ avail s'.(d_pmm) = avail s.(d_pmm) /\ s' = with_pages s s'.(d_pmm)
    else heap s'.(d_pmm) (f :: FL) Q /\ avail s'.(d_pmm) = avail s.(d_pmm) - 1 /\ (f ∉ FL) /\ s' = with_file (with_pages s s'.(d_pmm)) f (mkFile 1 FT_UNUSED NoOps 0 0)) s.
Proof using.
  intros Hh. unfold fs_alloc_file, falloc. wp_step. unfold wp at 1. cbv beta. destruct (pmm_alloc (d_pmm s) 1) as [f p] eqn:Ha.
  destruct (heap_take _ 1 f p FL Q Hh ltac:(lia) Ha) as [Hh1 Hc]. destruct (Z.eqb_spec f 0) as [->|Hf].
  - rewrite decide_True in Hc by done. wp_step. by rewrite decide_True.
  - rewrite decide_False in Hc by done. destruct Hc as [Hsp Hav]. wp_steps. rewrite decide_False by done. destruct (Hsp f) as (_&_&_&Hn&_); [by apply run_one|].
    split_and!; [by apply heap_add_file|done|done|done].
Qed.

(** An object no descriptor refers to goes again. *)
Lemma put_fresh s FL Q f : heap s.(d_pmm) (f :: FL) Q -> s.(d_file) f = mkFile 1 FT_UNUSED NoOps 0 0 ->
  wp nopanic (fs_file_put f) (fun _ s' => heap s'.(d_pmm) FL Q /\ avail s'.(d_pmm) = avail s.(d_pmm) + 1 /\ beside s s' FL Q) s.
Proof using.
  intros Hh Hf. pose proof (h_files _ _ _ Hh) as [Hn _]%NoDup_cons. destruct (h_file _ _ _ Hh f (list_elem_of_here _ _)) as [H0 _].
  unfold fs_file_put. rewrite (proj2 (Z.eqb_neq f 0) H0). wp_steps. cbn [d_file with_file]. rewrite fset_eq, Hf. cbn [f_ref f_ops set_ref]. change (0 <? 1 - 1) with false. wp_steps.
  destruct (heap_drop_file _ f _ _ Hh (list_elem_of_here _ _)) as [Hh1 Hsp]. unfold ffree. wp_step.
  assert (without f (f :: FL) = FL) as He by (unfold without; rewrite filter_cons_False by tauto; by apply filter_ne_id). rewrite He in Hh1, Hsp.
  destruct (heap_free _ f 1 _ _ Hh1 ltac:(lia) Hsp) as [Hh2 Hav]. split_and!; [done|done|]. split_and!; [done| |done]. intros g Hg. cbn. apply fset_ne. by intros ->.
Qed.

Lemma beside_ok s s' FL Q : fd_inv N s FL Q -> beside s s' FL Q -> heap s'.(d_pmm) FL Q -> avail s'.(d_pmm) = avail s.(d_pmm) -> kept s s'.
Proof using.
  intros (HL&Hh&Hav) (Ht&Hf&Hx) Hh' Hav'. split; [|by rewrite Ht]. exists FL, Q. split_and!; [|done|by rewrite Hav']. rewrite Ht. by apply (links_ext _ (d_file s) _ (d_pipe s)).
Qed.

Lemma console_ok s fd flags old : fd_ok N s -> 0 <= fd -> at_fd s.(d_tab) i fd = Some old -> old.(in_use) = false -> 
  wp nopanic (fs_init_console_fd i fd flags) (fun _ s' => kept s s' /\ forall j fd', 0 <= fd' -> fd' <> fd -> at_fd s'.(d_tab) j fd' = at_fd s.(d_tab) j fd') s.
Proof using.
  intros Hok H0 Hat Hold. unfold fs_init_console_fd, set_fd. wp_step. wp_step. set (s0 := with_tab s _).
  assert (Hok0 : fd_ok N s0 /\ at_fd s0.(d_tab) i fd = Some no_fd /\ length s0.(d_tab) = length s.(d_tab) /\ forall j fd', 0 <= fd' -> fd' <> fd -> at_fd s0.(d_tab) j fd' = at_fd s.(d_tab) j fd').
  { split_and!; [|unfold s0; cbn; rewrite at_set_tab by eauto; by rewrite decide_True|apply length_set|intros; unfold s0; cbn; rewrite at_set_tab by eauto; by rewrite decide_False by tauto].
    destruct Hok as (FL&Q&([L1 L2 L3 L4 L5]&Hh&Hav)). exists FL, Q. split_and!; [|done|done]. cbn. split; auto; [by apply shaped_set|by intros e [->|He]%in_set_tab Hu; [|auto]|].
    intros g Hg. rewrite (refs_set _ i fd no_fd old g Hat). unfold refers. rewrite Hold. cbn. rewrite Z.sub_0_r, Z.add_0_r. auto. }
  clearbody s0. destruct Hok0 as ((FL&Q&(HL&Hh&Hav))&Hat0&Hlen&Hsame). wp_step. eapply wp_mono; [by apply alloc_file_ok|]. intros f s1 H1. cbv beta in H1. destruct (Z.eqb_spec f 0) as [Hf|Hf].
  - rewrite decide_True in H1 by done. destruct H1 as (Hh1&Hav1&E1). wp_step. split; [|by rewrite E1]. split; [|by rewrite E1]. exists FL, Q. split_and!; [by rewrite E1|done|by rewrite Hav1].
  - rewrite decide_False in H1 by done. destruct H1 as (Hh1&Hav1&Hn&E1). wp_steps.
    split; [|intros; rewrite E1; cbn; rewrite at_set_tab by eauto; rewrite decide_False by tauto; by apply Hsame]. split; [|cbn; by rewrite length_set, E1].
    exists (f :: FL), Q. split_and!; [|exact Hh1|cbn; unfold zlen in *; cbn [length]; lia]. rewrite E1. cbn. rewrite fset_eq. cbn.
    apply (links_ext _ (fset (d_file s0) f (mkFile 1 FT_CONSOLE ConsoleOps 0 0)) _ (d_pipe s0)); [|intros g _; rewrite !fset_spec; by destruct (decide (g = f))|done].
    apply (links_add _ _ (d_pipe s0) _ Q _ _ no_fd); auto; [by left|]. intros x Hx. pose proof (l_pipe _ _ _ _ _ HL x Hx) as HP. unfold pipe_counts. by rewrite !ends_add.
Qed.

Lemma beside_trans s1 s2 s3 FL Q x : beside s1 s2 FL Q -> beside s2 s3 FL (x :: Q) -> beside s1 s3 FL Q.
Proof using.
  intros (H1&H2&H3) (K1&K2&K3). split_and!; [congruence|intros f Hf; by rewrite K2, H2|]. intros y Hy. by rewrite K3, H3 by (done || by apply list_elem_of_further).
Qed.

(** The pages of a pipe no object refers to go back. *)
Lemma undo_pipe {A} s0 s FL Q x (r : A) : fd_inv N s0 FL Q -> beside s0 s FL Q -> heap s.(d_pmm) FL (x :: Q) -> avail s.(d_pmm) + PIPE_PAGES = avail s0.(d_pmm) ->
  wp nopanic (ffree x PIPE_PAGES;; mret r) (fun r' s' => r' = r /\ kept s0 s') s.
Proof using.
  intros Hinv Hb Hh Hav. pose proof (h_pipes _ _ _ Hh) as [Hx _]%NoDup_cons. destruct (heap_drop_pipe _ x _ _ Hh (list_elem_of_here _ _)) as [Hh1 Hsp].
  assert (without x (x :: Q) = Q) as He by (unfold without; rewrite filter_cons_False by tauto; by apply filter_ne_id). rewrite He in Hh1, Hsp.
  destruct (heap_free _ x PIPE_PAGES _ _ Hh1 ltac:(lia) Hsp) as [Hh2 Hav2]. unfold ffree. wp_steps. split; [done|]. apply (beside_ok s0 _ FL Q Hinv); [done|exact Hh2|cbn; lia].
Qed.

(** The two objects become the ends, and two descriptors refer to them. *)
Lemma install_pipe s s3 FL Q fd1 fd2 o1 o2 rf wf x b : fd_inv N s FL Q -> 0 <= fd1 -> fd1 < fd2 -> at_fd s.(d_tab) i fd1 = Some o1 -> o1.(in_use) = false ->
  at_fd s.(d_tab) i fd2 = Some o2 -> o2.(in_use) = false -> heap s3.(d_pmm) (wf :: rf :: FL) (x :: Q) -> s3.(d_tab) = s.(d_tab) ->
  (forall g, g ∈ FL -> s3.(d_file) g = s.(d_file) g) -> s3.(d_file) wf = mkFile 1 FT_UNUSED NoOps 0 0 -> s3.(d_file) rf = mkFile 1 FT_UNUSED NoOps 0 0 ->
  s3.(d_pipe) = fset s.(d_pipe) x (new_pipe b) -> avail s3.(d_pmm) = avail s.(d_pmm) - 4 ->
  wp nopanic (modify (fun s => with_file s rf (pipe_end s rf x PIPE_END_READ));; modify (fun s => with_file s wf (pipe_end s wf x PIPE_END_WRITE));;
    d1 ← get_fd i fd1; set_fd i fd1 (mkFd FT_PIPE rf 0 d1.(fd_aux0) true O_RDONLY d1.(fd_flags));;
    d2 ← get_fd i fd2; set_fd i fd2 (mkFd FT_PIPE wf 0 d2.(fd_aux0) true O_WRONLY d2.(fd_flags));; mret (0, (fd1, fd2)))
    (fun r s' => r = (0, (fd1, fd2)) /\ kept s s') s3.
Proof using.
  intros (HL&Hh&Hav) H1 H2 Ha1 Hu1 Ha2 Hu2 Hh3 Ht Hf Hwf Hrf Hp Hav3. pose proof (h_files _ _ _ Hh3) as [Hn1 [Hn2 _]%NoDup_cons]%NoDup_cons.
  pose proof (h_pipes _ _ _ Hh3) as [Hx _]%NoDup_cons. assert (Hne : wf <> rf) by (intros ->; by apply Hn1, list_elem_of_here).
  wp_step. wp_step. wp_step. wp_step. wp_step. apply (wp_get_fd _ _ _ o1); [cbn; by rewrite Ht|]. unfold set_fd. wp_step. wp_step. wp_step.
  apply (wp_get_fd _ _ _ o2); [cbn; rewrite Ht, at_set_tab by (eauto; lia); by rewrite decide_False by lia|]. wp_step. wp_step. wp_step. split; [done|].
  split; [|cbn; rewrite !length_set; by rewrite Ht]. exists (wf :: rf :: FL), (x :: Q). split_and!; [|exact Hh3|cbn; unfold zlen in *; cbn [length]; lia].
  cbn [d_tab d_file d_pipe with_tab with_file]. rewrite Ht, Hp.
  eapply links_ext; [eapply (links_pipe (d_tab s) (d_file s) (d_pipe s) FL Q i fd1 fd2 o1 o2 _ _ rf wf x b); try done; lia| |done].
  intros g Hg. unfold pipe_end. cbn [d_file with_file]. rewrite !fset_spec, Hwf, Hrf. rewrite (decide_False (P := wf = rf)) by done.
  destruct (decide (g = wf)); [done|]. destruct (decide (g = rf)); [done|]. apply Hf. by apply elem_of_cons in Hg as [|[|]%elem_of_cons].
Qed.

Lemma pipe_ok s b : fd_ok N s -> (i < length s.(d_tab))%nat -> wp nopanic (fs_pipe i b) (fun r s' => kept s s' /\ (0 <= r.1 -> 0 <= r.2.1 < FT_MAX_FDS /\ 0 <= r.2.2 < FT_MAX_FDS)) s.
Proof using.
  intros Hok Hi. unfold fs_pipe. wp_step. apply free_fd_ok; [done|done|done|done|by wp_steps|]. intros fd1 o1 H1 Ha1 Hu1.
  wp_step. apply free_fd_ok; [done|done|lia|lia|by wp_steps|]. intros fd2 o2 H2 Ha2 Hu2.
  destruct Hok as (FL&Q&Hinv). pose proof Hinv as (HL&Hh&Hav). unfold falloc at 1. wp_step. unfold wp at 1. cbv beta.
  destruct (pmm_alloc (d_pmm s) PIPE_PAGES) as [x p1] eqn:Hal. destruct (heap_take _ PIPE_PAGES x p1 FL Q Hh ltac:(lia) Hal) as [Hh1 Hc].
  destruct (Z.eqb_spec x 0) as [Hx|Hx]; [rewrite decide_True in Hc by done; wp_step; split; [|done]; by apply (beside_ok s _ FL Q Hinv)|].
  rewrite decide_False in Hc by done. destruct Hc as [Hsp Hav1]. pose proof (heap_add_pipe _ _ _ _ Hh1 Hsp) as Hh1'. pose proof (h_pipes _ _ _ Hh1') as [HxQ _]%NoDup_cons.
  wp_step. wp_step. set (s1 := with_pipe (with_pages s p1) x (new_pipe b)).
  assert (Hb1 : beside s s1 FL Q) by (split_and!; [done|done|intros y Hy; cbn; apply fset_ne; by intros ->]).
  wp_step. eapply wp_mono; [by apply (alloc_file_ok s1 FL (x :: Q))|]. intros rf s2 Hc2. cbv beta in Hc2. wp_step.
  assert (Hundo : forall s', beside s s' FL Q -> heap s'.(d_pmm) FL (x :: Q) -> avail s'.(d_pmm) = avail s1.(d_pmm) ->
    wp nopanic (ffree x PIPE_PAGES;; mret (- ENOMEM, (0, 0))) (fun r s' => kept s s' /\ (0 <= r.1 -> 0 <= r.2.1 < FT_MAX_FDS /\ 0 <= r.2.2 < FT_MAX_FDS)) s').
  { intros s' Hb Hh' Hav'. eapply wp_mono; [apply (undo_pipe s s' FL Q x _ Hinv Hb Hh'); unfold s1 in Hav'; cbn in Hav'; lia|]. by intros r s3 [-> Hk]. }
  destruct (Z.eqb_spec rf 0) as [->|Hr]; [rewrite decide_True in Hc2 by done; destruct Hc2 as (Hh2&Hav2&E2)|rewrite decide_False in Hc2 by done; destruct Hc2 as (Hh2&Hav2&Hn2&E2)].
  - eapply wp_mono; [by apply (alloc_file_ok s2 FL (x :: Q))|]. intros wf s3 Hc3. cbv beta in Hc3. cbn [orb negb]. wp_step. wp_step.
    destruct (Z.eqb_spec wf 0) as [->|Hw]; cbn [negb]; [rewrite decide_True in Hc3 by done; destruct Hc3 as (Hh3&Hav3&E3)|rewrite decide_False in Hc3 by done; destruct Hc3 as (Hh3&Hav3&Hn3&E3)].
    + wp_step. wp_step. apply Hundo; [by rewrite E3, E2|done|congruence].
    + wp_step. eapply wp_mono; [apply (put_fresh s3 FL (x :: Q)); [done|by rewrite E3; cbn; rewrite fset_eq]|]. intros [] s4 (Hh4&Hav4&Hb4). apply Hundo; [|done|lia].
      eapply beside_trans; [|exact Hb4]. rewrite E3, E2. split_and!; [done| |apply Hb1]. intros g Hg. cbn. rewrite fset_ne; [done|by intros ->].
  - eapply wp_mono; [by apply (alloc_file_ok s2 (rf :: FL) (x :: Q))|]. intros wf s3 Hc3. cbv beta in Hc3. cbn [orb negb].
    destruct (Z.eqb_spec wf 0) as [->|Hw]; cbn [negb]; [rewrite decide_True in Hc3 by done; destruct Hc3 as (Hh3&Hav3&E3)|rewrite decide_False in Hc3 by done; destruct Hc3 as (Hh3&Hav3&Hn3&E3)].
    + wp_step. eapply wp_mono; [apply (put_fresh s3 FL (x :: Q)); [done|by rewrite E3, E2; cbn; rewrite fset_eq]|]. intros [] s4 (Hh4&Hav4&Hb4). wp_step. wp_step. apply Hundo; [|done|lia].
      eapply beside_trans; [|exact Hb4]. rewrite E3, E2. split_and!; [done| |apply Hb1]. intros g Hg. cbn. rewrite fset_ne; [done|by intros ->].
    + eapply wp_mono; [apply (install_pipe s s3 FL Q fd1 fd2 o1 o2 rf wf x b); try done; try lia; try (rewrite E3, E2; cbn; try done)|].
      * intros g Hg. rewrite !fset_ne; [done|by intros ->|intros ->; by apply Hn3, list_elem_of_further].
      * by rewrite fset_eq.
      * rewrite fset_ne, fset_eq; [done|]. intros ->. by apply Hn3, list_elem_of_here.
      * rewrite Hav3, Hav2. unfold s1. cbn. lia.
      * intros r s4 [-> Hk]. split; [done|cbn; lia].
Qed.

Lemma pipe2_ok s b flags : fd_ok N s -> (i < length s.(d_tab))%nat -> wp nopanic (fs_pipe2 i b flags) (fun _ s' => kept s s') s.
Proof using.
  intros Hok Hi. unfold fs_pipe2. destruct (negb (Z.land flags _ =? 0)); [by wp_step|]. wp_step. eapply wp_mono; [by apply (pipe_ok s b)|]. intros [rc [fd1 fd2]] s1 [Hk Hfd]. cbn [fst snd] in *.
  destruct (Z.ltb_spec rc 0) as [|Hrc]; [by wp_step|]. destruct (negb (Z.land flags ORTH_LINUX_O_CLOEXEC =? 0)); [|by wp_steps]. destruct (Hfd Hrc) as [H1 H2].
  destruct (ok_at s1 i fd1 (proj1 Hk)) as [d1 Hd1]; [by rewrite (proj2 Hk)|done|]. wp_step. wp_step. apply (set_flags_ok _ i fd1 d1); [apply Hk|done|]. intros s2 Hk2.
  pose proof (fd_kept_trans _ _ _ Hk Hk2) as Hk'. destruct (ok_at s2 i fd2 (proj1 Hk')) as [d2 Hd2]; [by rewrite (proj2 Hk')|done|].
  apply (set_flags_ok _ i fd2 d2); [apply Hk'|done|]. intros s3 Hk3. wp_step. by eapply fd_kept_trans.
Qed.

(** ** Every descriptor of a table *)

(** What becomes of the descriptors a loop releases. *)
Definition swept (P : file_descriptor_t -> bool) (d : file_descriptor_t) : file_descriptor_t := if d.(in_use) && P d then no_fd else d.

Lemma sweep_ok P body : (forall s fd d, fd_ok N s -> 0 <= fd < FT_MAX_FDS -> at_fd s.(d_tab) i fd = Some d ->
    wp nopanic (body fd) (fun _ s' => fd_ok N s' /\ s'.(d_tab) = if d.(in_use) && P d then set_tab s.(d_tab) i fd no_fd else s.(d_tab)) s) ->
  forall l s, NoDup l -> (forall fd, fd ∈ l -> 0 <= fd < FT_MAX_FDS) -> fd_ok N s -> (i < length s.(d_tab))%nat ->
  wp nopanic (over l body) (fun _ s' => kept s s' /\
    forall j fd, 0 <= fd -> at_fd s'.(d_tab) j fd = if decide (j = i /\ fd ∈ l) then swept P <$> at_fd s.(d_tab) j fd else at_fd s.(d_tab) j fd) s.
Proof using.
  intros Hbody l. induction l as [|fd l IH]; intros s Hn Hr Hok Hi; cbn [over].
  - wp_step. split; [done|]. intros j fd _. by rewrite decide_False by (by intros [_ []%not_elem_of_nil]).
  - apply NoDup_cons in Hn as [Hfd Hn]. pose proof (Hr fd (list_elem_of_here _ _)) as Hrf. destruct (ok_at s i fd Hok Hi Hrf) as [d Hd]. wp_step.
    eapply wp_mono; [by apply (Hbody s fd d)|]. intros _ s1 [Hok1 Ht1].
    assert (Hlen : length (d_tab s1) = length (d_tab s)) by (rewrite Ht1; destruct (_ && _); [apply length_set|done]).
    eapply wp_mono; [apply IH; [done|intros g Hg; by apply Hr, list_elem_of_further|done|by rewrite Hlen]|]. intros [] s2 [Hk2 Ht2].
    split; [by eapply fd_kept_trans; [split|]|]. intros j g Hg.
    assert (Hat1 : at_fd s1.(d_tab) j g = if decide (j = i /\ g = fd) then swept P <$> at_fd s.(d_tab) j g else at_fd s.(d_tab) j g).
    { rewrite Ht1. unfold swept. destruct (in_use d && P d) eqn:HP; [rewrite at_set_tab by eauto|]; destruct (decide (j = i /\ g = fd)) as [[-> ->]|]; try done; rewrite Hd; cbn; by rewrite HP. }
    rewrite Ht2, Hat1 by done. destruct (decide (j = i /\ g ∈ l)) as [[-> Hgl]|Hno].
    + rewrite (decide_False (P := i = i /\ g = fd)) by (by intros [_ ->]). by rewrite decide_True by (split; [done|by apply list_elem_of_further]).
    + apply decide_ext. set_solver.
Qed.

Lemma in_all_fds fd : fd ∈ all_fds <-> 0 <= fd < FT_MAX_FDS.
Proof using. unfold all_fds. rewrite elem_of_seqZ. lia. Qed.
Lemma all_fds_nodup : NoDup all_fds.
Proof using. apply NoDup_seqZ. Qed.

Lemma cloexec_ok s : fd_ok N s -> (i < length s.(d_tab))%nat -> wp nopanic (fs_close_cloexec_descriptors i) (fun _ s' => kept s s' /\
  forall j fd, 0 <= fd < FT_MAX_FDS -> at_fd s'.(d_tab) j fd = if decide (j = i) then swept (fun d => negb (Z.land d.(fd_flags) FD_CLOEXEC =? 0)) <$> at_fd s.(d_tab) j fd else at_fd s.(d_tab) j fd) s.
Proof using.
  intros Hok Hi. unfold fs_close_cloexec_descriptors.
  eapply wp_mono; [apply (sweep_ok (fun d => negb (Z.land d.(fd_flags) FD_CLOEXEC =? 0))); [|apply all_fds_nodup|intros fd; apply in_all_fds|done|done]|].
  - intros s1 fd d Hok1 Hfd Hd. wp_step. apply (wp_get_fd _ _ _ d); [done|]. destruct (in_use d) eqn:Hu; cbn [andb]; [|by wp_step].
    destruct (negb _); [|by wp_step]. eapply wp_mono; [by apply (release_fd_ok s1 i fd d)|]. intros [] s2. by rewrite Hu.
  - intros [] s' [Hk Ht]. split; [done|]. intros j fd Hfd. rewrite Ht by lia. apply decide_ext. rewrite in_all_fds. tauto.
Qed.

Lemma exit_ok s : fd_ok N s -> (i < length s.(d_tab))%nat -> wp nopanic (exit_fds i) (fun _ s' => kept s s' /\
  forall j fd, 0 <= fd < FT_MAX_FDS -> at_fd s'.(d_tab) j fd = if decide (j = i) then swept (fun _ => true) <$> at_fd s.(d_tab) j fd else at_fd s.(d_tab) j fd) s.
Proof using.
  intros Hok Hi. unfold exit_fds. eapply wp_mono; [apply (sweep_ok (fun _ => true)); [|apply all_fds_nodup|intros fd; apply in_all_fds|done|done]|].
  - intros s1 fd d Hok1 Hfd Hd. wp_step. apply (wp_get_fd _ _ _ d); [done|]. destruct (in_use d) eqn:Hu; cbn [andb]; [|by wp_step].
    wp_step. eapply wp_mono; [apply (fs_close_ok s1 i fd Hok1)|].
    { apply at_fd_lt in Hd. done. }
    intros r s2 [[Hok2 _] Ht]. wp_step. split; [done|]. rewrite (Ht d Hd Hfd). by rewrite Hu.
  - intros [] s' [Hk Ht]. split; [done|]. intros j fd Hfd. rewrite Ht by lia. apply decide_ext. rewrite in_all_fds. tauto.
Qed.

(** ** New processes *)
Lemma at_app D t j fd : at_fd (D ++ [t]) j fd = if decide (j = length D) then (if 0 <=? fd then t !! Z.to_nat fd else None) else at_fd D j fd.
Proof using.
  unfold at_fd. destruct (0 <=? fd); [|by destruct (decide _)]. destruct (decide (j = length D)) as [->|Hne].
  - by rewrite lookup_app_r, Nat.sub_diag by done.
  - destruct (decide (j < length D)%nat); [by rewrite lookup_app_l|]. rewrite !lookup_ge_None_2; [done|lia|rewrite length_app; cbn; lia].
Qed.

Lemma new_table_ok s : fd_ok N s -> wp nopanic new_table (fun child s' => fd_ok N s' /\ child = length s.(d_tab) /\ length s'.(d_tab) = S child /\
  forall j fd, 0 <= fd < FT_MAX_FDS -> at_fd s'.(d_tab) j fd = if decide (j = child) then Some no_fd else at_fd s.(d_tab) j fd) s.
Proof using.
  intros (FL&Q&([L1 L2 L3 L4 L5]&Hh&Hav)). unfold new_table. wp_steps. cbn [d_tab with_tab]. set (t := replicate _ no_fd).
  assert (Hno : forall d, d ∈ t -> d.(in_use) = false) by (by intros d [-> _]%elem_of_replicate).
  assert (Hin : forall d, d ∈ mjoin (d_tab s ++ [t]) -> d.(in_use) = true -> d ∈ mjoin (d_tab s)).
  { intros d (u&Hd&Hu)%list_elem_of_join Hdu. apply elem_of_app in Hu as [Hu|Hu%list_elem_of_singleton]; [apply list_elem_of_join; by exists u|]. subst u. by rewrite Hno in Hdu. }
  split_and!; [|done|rewrite length_app; cbn; lia|].
  - exists FL, Q. split_and!; [|done|done]. cbn. split; auto.
    + apply Forall_app. split; [done|]. apply Forall_singleton, length_replicate.
    + intros f Hf. destruct (L3 f Hf) as [-> Hp]. split; [|done]. unfold refs. rewrite join_app, cnt_app.
      rewrite (proj2 (cnt_zero (refers f) (mjoin [t]))); [lia|]. intros d Hd. cbn in Hd. rewrite app_nil_r in Hd. unfold refers. by rewrite Hno.
  - intros j fd Hfd. rewrite at_app. destruct (decide _); [|done]. rewrite (proj2 (Z.leb_le 0 fd)) by lia. apply lookup_replicate_2. lia.
Qed.

Lemma clone_fds_ok child l : forall done s, NoDup l -> (forall fd, fd ∈ l -> 0 <= fd < FT_MAX_FDS) -> fd_ok N s -> (i < length s.(d_tab))%nat -> child <> i ->
  (forall fd, fd ∈ l -> at_fd s.(d_tab) child fd = Some no_fd) ->
  wp nopanic (clone_fds l done i child) (fun r s' => r = 0 /\ kept s s' /\
    forall j fd, 0 <= fd -> at_fd s'.(d_tab) j fd = if decide (j = child /\ fd ∈ l) then at_fd s.(d_tab) i fd else at_fd s.(d_tab) j fd) s.
Proof using.
  induction l as [|fd l IH]; intros done s Hn Hr Hok Hi Hne Hc; cbn [clone_fds].
  - wp_step. split_and!; [reflexivity|by split|]. intros j fd _. by rewrite decide_False by (by intros [_ []%not_elem_of_nil]).
  - apply NoDup_cons in Hn as [Hfd Hn]. pose proof (Hr fd (list_elem_of_here _ _)) as Hrf. destruct (ok_at s i fd Hok Hi Hrf) as [d Hd]. pose proof (Hc fd (list_elem_of_here _ _)) as Hcf.
    wp_step. apply (wp_get_fd _ _ _ d); [exact Hd|]. wp_step. eapply wp_mono; [apply (clone_ok s child fd no_fd d Hok Hcf eq_refl); by eapply at_fd_in|]. intros r s1 (->&Hok1&Ht1).
    cbn [Z.ltb Z.compare]. assert (Hat : forall j g, 0 <= g -> at_fd s1.(d_tab) j g = if decide (j = child /\ g = fd) then Some d else at_fd s.(d_tab) j g) by (intros; rewrite Ht1; by apply at_set_tab).
    eapply wp_mono; [apply IH; [exact Hn|intros g Hg; by apply Hr, list_elem_of_further|exact Hok1|by rewrite Ht1, length_set|exact Hne|]|].
    + intros g Hg. rewrite Hat by (apply Hr; by apply list_elem_of_further). rewrite decide_False by (by intros [_ ->]). by apply Hc, list_elem_of_further.
    + intros r s2 (->&Hk2&Ht2). split_and!; [reflexivity|eapply fd_kept_trans; [by eapply kept_set|exact Hk2]|]. intros j g Hg. rewrite Ht2, !Hat by exact Hg.
      rewrite (decide_False (P := i = child /\ g = fd)) by (by intros [? _]). destruct (decide (j = child /\ g ∈ l)) as [[-> Hgl]|Hno].
      * by rewrite decide_True by (split; [reflexivity|by apply list_elem_of_further]).
      * destruct (decide (j = child /\ g = fd)) as [[-> ->]|Hno2]; [rewrite decide_True by (split; [reflexivity|apply list_elem_of_here]); by rewrite Hd|].
        rewrite decide_False; [reflexivity|]. intros [-> [->|Hgl]%elem_of_cons]; tauto.
Qed.

(** The child has the parent's descriptors. *)
Lemma fd_fork_ok s : fd_ok N s -> (i < length s.(d_tab))%nat -> wp nopanic (fork_fds i) (fun r s' => r = 0 /\ fd_ok N s' /\ length s'.(d_tab) = S (length s.(d_tab)) /\
  forall j fd, 0 <= fd < FT_MAX_FDS -> at_fd s'.(d_tab) j fd = at_fd s.(d_tab) (if decide (j = length s.(d_tab)) then i else j) fd) s.
Proof using.
  intros Hok Hi. unfold fork_fds. wp_step. eapply wp_mono; [by apply new_table_ok|]. intros child s1 (Hok1&->&Hlen&Hat). assert (i <> length (d_tab s)) by lia.
  eapply wp_mono; [apply (clone_fds_ok (length (d_tab s)) all_fds); [apply all_fds_nodup|intros fd; apply in_all_fds|done|lia|done|]|].
  - intros fd Hfd%in_all_fds. rewrite Hat by done. by rewrite decide_True.
  - intros r s2 (->&[Hok2 Hlen2]&Ht). split_and!; [done|done|by rewrite Hlen2|]. intros j fd Hfd. rewrite Ht, !Hat by lia. rewrite (decide_False (P := i = _)) by done.
    destruct (decide (j = length (d_tab s))) as [->|Hj]; [by rewrite decide_True by (by rewrite in_all_fds)|by rewrite decide_False by tauto].
Qed.
End process.

Lemma fd_create_ok s : fd_ok N s -> wp nopanic create_fds (fun _ s' => fd_ok N s' /\ length s'.(d_tab) = S (length s.(d_tab))) s.
Proof using.
  intros Hok. unfold init_console_fds. wp_step. eapply wp_mono; [by apply new_table_ok|]. intros i s1 (Hok1&->&Hlen&Hat). set (i := length (d_tab s)) in *.
  assert (H0 : forall fd, 0 <= fd < FT_MAX_FDS -> at_fd s1.(d_tab) i fd = Some no_fd) by (intros fd Hfd; rewrite Hat by done; by rewrite decide_True).
  wp_step. eapply wp_mono; [apply (console_ok i s1 0 O_RDONLY no_fd); [done|done|by apply H0|done]|]. intros _ s2 [[Hok2 Hl2] Ht2].
  wp_step. eapply wp_mono; [apply (console_ok i s2 1 O_WRONLY no_fd); [done|done|rewrite Ht2 by done; by apply H0|done]|]. intros _ s3 [[Hok3 Hl3] Ht3].
  wp_step. eapply wp_mono; [apply (console_ok i s3 2 O_WRONLY no_fd); [done|done|rewrite Ht3, Ht2 by done; by apply H0|done]|]. intros _ s4 [[Hok4 Hl4] _].
  wp_step. split; [done|congruence].
Qed.
End calls.
