(* ===== verification/FdTheorems.v ===== *)
(** * Descriptors: what holds in every reachable state

    The processes' calls in any order, one at a time, from the start of the
    machine, with the passes of reads and writes on their pipes between them. *)
From S2P Require Import Prelude State Links Pmm VmCow PtInv Task Sched SchedOps SchedSteps PmmRuns Pipe Fd FdOk.

(** ** The calls *)
Inductive fd_call :=
  | CCreate
  | CFork (i : nat)
  | CExec (i : nat)
  | CExit (i : nat)
  | CClose (i : nat) (fd : Z)
  | CDup (i : nat) (oldfd : Z)
  | CDup2 (i : nat) (oldfd newfd : Z)
  | CDup3 (i : nat) (oldfd newfd flags : Z)
  | CFcntl (i : nat) (fd : Z) (cmd : fcntl_cmd) (arg : Z)
  | CPipe2 (i : nat) (b : list Z) (flags : Z).

Definition caller (c : fd_call) : option nat :=
  match c with
  | CCreate => None
  | CFork i | CExec i | CExit i | CClose i _ | CDup i _ | CDup2 i _ _ | CDup3 i _ _ _ | CFcntl i _ _ _ | CPipe2 i _ _ => Some i
  end.

(** The calling process is there. *)
Definition called (c : fd_call) (s : fdst) : Prop := forall i, caller c = Some i -> (i < length s.(d_tab))%nat.

Definition fd_run (c : fd_call) : F Z :=
  match c with
  | CCreate => create_fds;; mret 0
  | CFork i => fork_fds i
  | CExec i => fs_close_cloexec_descriptors i;; mret 0
  | CExit i => exit_fds i;; mret 0
  | CClose i fd => fs_close i fd
  | CDup i oldfd => sys_dup i oldfd
  | CDup2 i oldfd newfd => fs_dup2 i oldfd newfd
  | CDup3 i oldfd newfd flags => sys_dup3 i oldfd newfd flags
  | CFcntl i fd cmd arg => fs_fcntl i fd cmd arg
  | CPipe2 i b flags => r ← fs_pipe2 i b flags; mret r.1
  end.

(** No process, and [N] free pages. *)
Definition fd_start (N : Z) (s : fdst) : Prop := pmm_ok s.(d_pmm) /\ ~ free_at s.(d_pmm) 0 /\ avail s.(d_pmm) = N /\ s.(d_tab) = [].

(** A read or a write gets one pass further on a pipe, whatever the tasks do. *)
Inductive pipe_pass := PWrite (t : Z) (src : list Z) (written : Z) | PWriteBack (t : Z) | PRead (t count : Z) | PReadBack (t : Z).
Definition pass_run (m : pipe_pass) : P unit :=
  match m with
  | PWrite t src written => ignore (pipe_write_pass t src written)
  | PWriteBack t => pipe_write_back t
  | PRead t count => ignore (pipe_read_pass t count)
  | PReadBack t => pipe_read_back t
  end.

Inductive fd_reach (N : Z) : fdst -> Prop :=
  | fd_reach_start s : fd_start N s -> fd_reach N s
  | fd_reach_call s c r s' : fd_reach N s -> called c s -> fd_run c s = Ok (r, s') -> fd_reach N s'
  | fd_reach_pass s x m sc w : fd_reach N s -> pass_run m (mkPst sc (s.(d_pipe) x)) = Ok (tt, w) -> fd_reach N (with_pipe s x w.(q_pipe)).

(** ** Passes keep the counts *)
Definition same_counts (p p' : pipe_t) : Prop := p'.(p_refs) = p.(p_refs) /\ p'.(p_readers) = p.(p_readers) /\ p'.(p_writers) = p.(p_writers).

Lemma put_ends src : forall p, same_counts p (pipe_put p src).1.
Proof.
  induction src as [|b src IH]; intros p; cbn [pipe_put]; [done|]. destruct (_ <? _); [|done].
  exact (IH (set_ring p (zset (p_buffer p) (write_pos p) b) (read_pos p) (u32 (write_pos p + 1) mod PIPE_BUF_SIZE) (u32 (p_count p + 1)))).
Qed.
Lemma get_ends n : forall p, same_counts p (pipe_get p n).2.
Proof.
  induction n as [|n IH]; intros p; cbn [pipe_get]; [done|].
  specialize (IH (set_ring p (p_buffer p) (u32 (read_pos p + 1) mod PIPE_BUF_SIZE) (write_pos p) (u32 (p_count p - 1)))). by destruct (pipe_get _ n).
Qed.

(** A task falls asleep, if it can. *)
Lemma sleep_ends E t (Q : Z -> pst -> Prop) w : (forall e, E e) -> (forall r sc, Q r (mkPst sc (q_pipe w))) -> wp E (ptasks (task_mark_sleeping t)) Q w.
Proof. intros HE HQ. unfold wp, ptasks, lift. destruct (task_mark_sleeping t (q_sc w)) as [[a sc]|]; auto. Qed.

Lemma pass_ends m w : wp (fun _ => True) (pass_run m) (fun _ w' => same_counts w.(q_pipe) w'.(q_pipe)) w.
Proof.
  destruct m as [t src n|t|t c|t]; cbn [pass_run]; unfold ignore, pipe_write_pass, pipe_read_pass, pipe_write_back, pipe_read_back, upd_pipe; [| by wp_steps| |by wp_steps].
  - wp_step. wp_step. wp_step. destruct (_ =? 0); [by wp_steps|]. destruct (_ =? _).
    + wp_step. apply sleep_ends; [done|]. intros r sc. by wp_steps.
    + pose proof (put_ends src (q_pipe w)) as Hp. destruct (pipe_put _ _) as [p1 rest]. destruct (fs_waitq_take_all _ _). by wp_steps.
  - wp_step. wp_step. wp_step. destruct (_ && _); [by wp_steps|]. destruct (_ =? _).
    + wp_step. apply sleep_ends; [done|]. intros r sc. by wp_steps.
    + set (k := Z.to_nat _). pose proof (get_ends k (q_pipe w)) as Hp. destruct (pipe_get _ _) as [l p1]. destruct (fs_waitq_take_all _ _). by wp_steps.
Qed.

Section reach.
Context (N : Z).

Lemma start_ok s : fd_start N s -> fd_ok N s.
Proof using.
  intros (Hp&Hz&Ha&Ht). exists [], []. split_and!; [rewrite Ht; split; [by apply Forall_nil|..]|split; [done|done|apply NoDup_nil_2|apply NoDup_nil_2|..]|change (avail (d_pmm s) + 0 + PIPE_PAGES * 0 = N); lia];
    intros; exfalso; by eapply not_elem_of_nil.
Qed.

Lemma fd_pass_ok s x y : fd_ok N s -> same_counts (s.(d_pipe) x) y -> fd_ok N (with_pipe s x y).
Proof using.
  intros (FL&Q&([L1 L2 L3 L4 L5]&Hh&Hav)) (E1&E2&E3). exists FL, Q. split_and!; [|done|done]. cbn. split; auto. intros z Hz. rewrite fset_spec.
  destruct (decide (z = x)) as [->|]; [|auto]. destruct (L5 x Hz) as (?&?&?&?). unfold pipe_counts. by rewrite E1, E2, E3.
Qed.

Lemma run_fd_ok c s : fd_ok N s -> called c s -> wp nopanic (fd_run c) (fun _ s' => fd_ok N s') s.
Proof using.
  intros Hok Hc. destruct c; cbn [fd_run]; try (specialize (Hc _ eq_refl)).
  - wp_step. eapply wp_mono; [by apply fd_create_ok|]. intros _ s' [Hok' _]. by wp_step.
  - eapply wp_mono; [by apply fd_fork_ok|]. by intros r s' (_&?&_).
  - wp_step. eapply wp_mono; [by apply cloexec_ok|]. intros _ s' [[Hok' _] _]. by wp_step.
  - wp_step. eapply wp_mono; [by apply exit_ok|]. intros _ s' [[Hok' _] _]. by wp_step.
  - eapply wp_mono; [by apply fs_close_ok|]. by intros r s' [[? _] _].
  - eapply wp_mono; [by apply dup_ok|]. by intros r s' [? _].
  - eapply wp_mono; [by apply dup2_ok|]. by intros r s' [? _].
  - eapply wp_mono; [by apply dup3_ok|]. by intros r s' [? _].
  - eapply wp_mono; [by apply fcntl_ok|]. by intros r s' [? _].
  - wp_step. eapply wp_mono; [by apply pipe2_ok|]. intros r s' [Hok' _]. by wp_step.
Qed.

Lemma reach_ok s : fd_reach N s -> fd_ok N s.
Proof using.
  induction 1 as [s Hs|s c r s' _ IH Hc Hr|s x m sc w _ IH Hr]; [by apply start_ok| |].
  - pose proof (run_fd_ok c s IH Hc) as Hw. unfold wp in Hw. by rewrite Hr in Hw.
  - pose proof (pass_ends m (mkPst sc (s.(d_pipe) x))) as Hw. unfold wp in Hw. rewrite Hr in Hw. by apply fd_pass_ok.
Qed.
End reach.

(** ** What the counts say *)

(** Some process has a descriptor of that end of the pipe [x]. *)
Definition held (s : fdst) (x aux : Z) : Prop := exists d, d ∈ mjoin s.(d_tab) /\ d.(in_use) = true /\
  let o := s.(d_file) d.(fd_file) in o.(f_ops) = PipeOps /\ o.(private_data) = x /\ o.(f_aux0) = aux.

Lemma object_held s FL Q f : links s.(d_tab) s.(d_file) s.(d_pipe) FL Q -> f ∈ FL -> exists d, d ∈ mjoin s.(d_tab) /\ d.(in_use) = true /\ d.(fd_file) = f.
Proof.
  intros HL Hf. destruct (l_ref _ _ _ _ _ HL f Hf) as [Hr Hp]. rewrite Hr in Hp.
  destruct (decide (Exists (fun d => refers f d = true) (mjoin (d_tab s)))) as [(d&Hd&Hdr)%Exists_exists|Hno].
  - exists d. unfold refers in Hdr. apply andb_true_iff in Hdr as [? ?%Z.eqb_eq]. done.
  - exfalso. assert (refs (d_tab s) f = 0) as H0; [|lia]. apply cnt_zero. intros d Hd. destruct (refers f d) eqn:He; [|done]. destruct Hno. apply Exists_exists. by exists d.
Qed.

(** A count of ends is 0 when no process holds one. *)
Lemma ends_held s FL Q x aux : links s.(d_tab) s.(d_file) s.(d_pipe) FL Q -> ends s.(d_file) FL x (Z.eqb aux) = 0 <-> ~ held s x aux.
Proof.
  intros HL. unfold ends. rewrite cnt_zero. split.
  - intros Hz (d&Hd&Hu&Ho&Hx&Ha). destruct (l_fd _ _ _ _ _ HL d Hd Hu) as [Hin _]. specialize (Hz _ Hin). unfold end_of in Hz. by rewrite Ho, Hx, Ha, !Z.eqb_refl in Hz.
  - intros Hno f Hf. destruct (end_of (d_file s) x (Z.eqb aux) f) eqn:He; [|done]. destruct Hno. destruct (object_held s FL Q f HL Hf) as (d&Hd&Hu&Hdf). exists d. rewrite Hdf.
    unfold end_of in He. destruct (f_ops (d_file s f)) eqn:Ho; try done. apply andb_true_iff in He as [?%Z.eqb_eq Ha%Z.eqb_eq]. done.
Qed.

(** C19: descriptors are counted right.  In every state that the calls of any
    number of processes reach (new tasks, [fork], [execve], [exit], [close],
    [dup], [dup2], [dup3], [fcntl], [pipe2], and passes of reads and writes
    between them), every call returns: no assertion of
    [fs_assert_open_file_consistent] fails and no descriptor is looked up
    outside its table.  A file object an open descriptor refers to is an
    allocated page, is of the descriptor's type, and its [ref_count] is the
    number of open descriptors that refer to it; if it is a pipe's, the pipe's
    pages are allocated, [writers] is 0 exactly when no process has a
    descriptor of the write end, which is when a reader of the empty pipe gets
    end of file, and [readers] is 0 exactly when none has one of the read end.
    When no descriptor is open, every page is back. *)
Theorem descriptors_counted N s : fd_reach N s ->
  (forall c, called c s -> exists r s', fd_run c s = Ok (r, s')) /\
  (forall d, d ∈ mjoin s.(d_tab) -> d.(in_use) = true -> let f := d.(fd_file) in let o := s.(d_file) f in
    f <> 0 /\ pmm_get_ref s.(d_pmm) f = 1 /\ o.(f_type) = d.(fd_type) /\ o.(f_ref) = refs s.(d_tab) f /\
    (o.(f_ops) = PipeOps -> let x := o.(private_data) in
      (forall g, run x PIPE_PAGES g -> pmm_get_ref s.(d_pmm) g = 1) /\
      ((s.(d_pipe) x).(p_writers) = 0 <-> ~ held s x PIPE_END_WRITE) /\ ((s.(d_pipe) x).(p_readers) = 0 <-> ~ held s x PIPE_END_READ))) /\
  ((forall d, d ∈ mjoin s.(d_tab) -> d.(in_use) = false) -> avail s.(d_pmm) = N).
Proof.
  intros Hr. pose proof (reach_ok N s Hr) as Hok. split; [|destruct Hok as (FL&Q&(HL&Hh&Hav)); split].
  - intros c Hc. pose proof (run_fd_ok N c s Hok Hc) as Hw. unfold wp in Hw. destruct (fd_run c s) as [[r s']|]; [by exists r, s'|done].
  - intros d Hd Hu f o. destruct (l_fd _ _ _ _ _ HL d Hd Hu) as [Hin Hty]. destruct (h_file _ _ _ Hh f Hin) as (H0&_&H1). destruct (l_ref _ _ _ _ _ HL f Hin) as [Href _].
    split_and!; try done. intros Ho x. destruct (l_kind _ _ _ _ _ HL f Hin) as [[_ Hc]|(_&_&HQ&_)]; [unfold o in Ho; by rewrite Ho in Hc|].
    destruct (l_pipe _ _ _ _ _ HL x HQ) as (_&_&Hpr&Hpw). rewrite Hpr, Hpw. split_and!; [|by eapply ends_held..].
    intros g Hg. by apply (h_pipe _ _ _ Hh x HQ).
  - intros Hno. destruct FL as [|f FL]; [destruct Q as [|x Q]; [change (zlen []) with 0 in Hav; lia|]|].
    + destruct (l_pipe _ _ _ _ _ HL x (list_elem_of_here _ _)) as (Hx&Hp&_). rewrite Hx in Hp. by change (0 < 0) in Hp.
    + destruct (object_held s _ Q f HL (list_elem_of_here _ _)) as (d&Hd&Hu&_). by rewrite Hno in Hu.
Qed.

(** C22: what processes inherit.  In every reachable state, [fork] succeeds and
    gives the child every descriptor of its parent, [execve] drops exactly
    those marked close-on-exec, and [exit] leaves none; the tables of the
    other processes stay as they are. *)
Theorem descriptors_inherited N s i : fd_reach N s -> (i < length s.(d_tab))%nat ->
  let same s' := forall j fd, j <> i -> (j < length s.(d_tab))%nat -> 0 <= fd < FT_MAX_FDS -> at_fd s'.(d_tab) j fd = at_fd s.(d_tab) j fd in
  (exists s', fork_fds i s = Ok (0, s') /\ length s'.(d_tab) = S (length s.(d_tab)) /\ same s' /\ forall fd, 0 <= fd < FT_MAX_FDS ->
    at_fd s'.(d_tab) i fd = at_fd s.(d_tab) i fd /\ at_fd s'.(d_tab) (length s.(d_tab)) fd = at_fd s.(d_tab) i fd) /\
  (exists s', fs_close_cloexec_descriptors i s = Ok (tt, s') /\ same s' /\ forall fd d, 0 <= fd < FT_MAX_FDS -> at_fd s.(d_tab) i fd = Some d ->
    at_fd s'.(d_tab) i fd = Some (if d.(in_use) && negb (Z.land d.(fd_flags) FD_CLOEXEC =? 0) then no_fd else d)) /\
  (exists s', exit_fds i s = Ok (tt, s') /\ same s' /\ forall fd d, 0 <= fd < FT_MAX_FDS -> at_fd s'.(d_tab) i fd = Some d -> d.(in_use) = false).
Proof.
  intros Hr Hi same. pose proof (reach_ok N s Hr) as Hok. split_and!.
  - destruct (wp_run _ _ _ (fd_fork_ok N i s Hok Hi)) as (r&s'&He&->&_&Hl&Ht). exists s'. split_and!; [done|done| |].
    + intros j fd Hj Hjl Hfd. rewrite Ht by done. by rewrite decide_False by lia.
    + intros fd Hfd. rewrite !Ht by done. rewrite (decide_False (P := i = _)), decide_True by lia. done.
  - destruct (wp_run _ _ _ (cloexec_ok N i s Hok Hi)) as ([]&s'&He&_&Ht). exists s'. split_and!; [done| |].
    + intros j fd Hj _ Hfd. rewrite Ht by done. by rewrite decide_False.
    + intros fd d Hfd Hd. rewrite Ht by done. rewrite decide_True, Hd by done. done.
  - destruct (wp_run _ _ _ (exit_ok N i s Hok Hi)) as ([]&s'&He&_&Ht). exists s'. split_and!; [done| |].
    + intros j fd Hj _ Hfd. rewrite Ht by done. by rewrite decide_False.
    + intros fd d Hfd. rewrite Ht, decide_True by done. intros (d0&_&->)%fmap_Some. unfold swept. by destruct (in_use d0) eqn:Hu.
Qed.

(** ** A shell starts a program at the end of a pipe *)
Definition fd_ex0 : fdst := mkFdst ex0 (fun _ => mkFile 0 FT_UNUSED NoOps 0 0) (fun _ => new_pipe []) [] [].
Definition fd_ex_calls : list fd_call := [CCreate; CPipe2 0 (replicate 4096 0) 0; CFork 0; CClose 0 4; CDup2 1 4 1; CClose 1 4].
Definition fd_ex (n : nat) : fdst := fold_left (fun s c => run_state (fd_run c) s) (take n fd_ex_calls) fd_ex0.

Lemma fd_ex0_start : fd_start 36 fd_ex0.
Proof. destruct pmm_core_wf_ex0 as [? ?]. split_and!; [by split| |by vm_compute|done]. intros (q&Hq&_). by vm_compute in Hq. Qed.

Definition called_b (c : fd_call) (s : fdst) : bool := match caller c with None => true | Some i => (i <? length s.(d_tab))%nat end.
Lemma called_b_ok c s : called_b c s = true -> called c s.
Proof. unfold called_b, called. intros H i Hi. rewrite Hi in H. by apply Nat.ltb_lt in H. Qed.

(** Calls that can be made one after the other. *)
Fixpoint fd_trace (l : list fd_call) (s : fdst) : bool :=
  match l with [] => true | c :: l => called_b c s && is_ok (fd_run c s) && fd_trace l (run_state (fd_run c) s) end.
Lemma fd_trace_reach N l : forall s, fd_reach N s -> fd_trace l s = true -> fd_reach N (fold_left (fun s c => run_state (fd_run c) s) l s).
Proof.
  induction l as [|c l IH]; intros s Hr Ht; [done|]. cbn [fd_trace] in Ht. apply andb_true_iff in Ht as [[Hc Hok]%andb_true_iff Ht]. cbn [fold_left]. apply IH; [|done].
  apply (fd_reach_call N s c (run_value (fd_run c) s 0) _ Hr (called_b_ok _ _ Hc)). by apply run_ok.
Qed.

Lemma fd_ex_reach n : fd_trace (take n fd_ex_calls) fd_ex0 = true -> fd_reach 36 (fd_ex n).
Proof. intros Ht. apply fd_trace_reach; [|done]. apply fd_reach_start, fd_ex0_start. Qed.

Lemma descriptors_counted_witness : fd_reach 36 (fd_ex 6) /\ length (fd_ex 6).(d_tab) = 2%nat /\ forall c, called c (fd_ex 6) -> exists r s', fd_run c (fd_ex 6) = Ok (r, s').
Proof.
  assert (Hr : fd_reach 36 (fd_ex 6)) by (apply fd_ex_reach; by vm_compute). split; [exact Hr|]. split; [by vm_compute|]. exact (proj1 (descriptors_counted 36 (fd_ex 6) Hr)).
Defined.

Lemma descriptors_inherited_witness : fd_reach 36 (fd_ex 2) /\ exists s', fork_fds 0 (fd_ex 2) = Ok (0, s').
Proof.
  assert (Hr : fd_reach 36 (fd_ex 2)) by (apply fd_ex_reach; by vm_compute). assert (Hl : (0 < length (fd_ex 2).(d_tab))%nat) by (apply Nat.ltb_lt; by vm_compute).
  split; [exact Hr|]. destruct (descriptors_inherited 36 (fd_ex 2) 0 Hr Hl) as [(s'&He&_) _]. by exists s'.
Defined.
